(* ===== verification/_CoqProject ===== *)
-Q . S2P
Prelude.v
Types.v
Address.v
Rfc6052.v
Pool6.v
Pool4Table.v
Pool4Db.v
RbTree.v
RbClear.v
BibTable.v
BibDb.v
PortAlloc.v
Packet.v
SessionEntry.v
PktQueue.v
SessionTable.v
Tcp.v
SessionSpec.v
SessionDb.v
Filtering.v
FilteringSpec.v
StaticRoutes.v
Nat64.v
Guarantees.v
Skb.v
InTuple.v
Checksum.v
XlatPkt.v
Xlat64.v
Xlat46.v
Xlat.v
XlatSpec.v
Wire.v
Sent.v
Translate64.v
Translate46.v
Core.v
CoreSpec.v
Pipeline.v
Rtrie.v
RtrieSpec.v
RtrieOps.v
Eam.v
SiitPool.v
Siit.v
Config.v
ConfigSpec.v
HashTable.v
Fragdb.v
FragdbSpec.v
FragdbTrace.v
Teardown.v
Module.v
ErrorPool.v
NlHandler.v
NlSpec.v
NlClient.v
NlDisplay.v
NlGuarantees.v
StrUtils.v
Options.v
JoolMain.v
JoolMainSpec.v
CommandLine.v
