(* ===== verification/Prelude.v ===== *)
(** * Jool: a verification development of its two kernel modules and their tool

    Jool translates packets between IPv6 and IPv4.  Its stateful module
    (NAT64) keeps three databases: the pools (the IPv6 prefixes and the IPv4
    transport addresses it may use), the BIB (which IPv4 transport address
    each IPv6 node has borrowed) and the sessions (the connections in
    progress).  A packet goes through five steps ([mod/common/core.c]):
    its tuple is read from its bytes; [filtering_and_updating] matches it
    against the session database and creates and updates sessions; the
    outgoing tuple is that of the session's other side; the packet is
    rewritten for the other protocol (RFC 6145); and it is sent, or turned
    around if it is for a node behind the same translator.  Timers expire
    sessions; sessions hold references to BIB entries, and an entry dies with
    its last session.  The stateless module (SIIT) has no databases: it
    translates the addresses with a table of explicit mappings, or by RFC
    6052, and shares the rewriting and the sending.  A userspace application
    reads the command line and sends the module requests over Netlink, which
    display and change its databases and its configuration.

    ** Files

    - [Prelude]: machine-width integers, error codes, the state-and-fault
      monad [M], allocations, generic lemmas, tactics and hint databases.
    - [Types], [Address]: [mod/common/types.c], [mod/common/address.c].
    - [Rfc6052], [Pool6]: [mod/common/rfc6052.c], [mod/common/pool6.c].
    - [Pool4Table], [Pool4Db]: [mod/stateful/pool4/]: samples of transport
      addresses per mark and protocol, in a hash table of tables; the
      protocol is the number the request has.
    - [RbTree]: [mod/common/rbtree.h].  The kernel's rebalancing is an
      interface ([RbTree], [RbTreeLaws]) with an instance, so that every
      theorem on an index is proved against the interface.
    - [BibTable], [BibDb]: [mod/stateful/bib/]: entries with reference
      counters, the two indexes of a table and the three tables.
    - [PortAlloc]: [mod/stateful/bib/port_allocator.c], against an interface
      of what can be offered to a connection ([TaddrSource]).
    - [Packet]: [mod/common/packet.h].
    - [SessionEntry], [PktQueue], [SessionTable], [SessionSpec], [SessionDb]:
      [mod/stateful/session/]: the sessions, the SYNs that wait for a
      simultaneous open, the tables with their two expiration queues, what the
      operations of a table do, and the database.
    - [Tcp]: the callbacks of [mod/stateful/filtering_and_updating.c].
    - [Filtering], [FilteringSpec]: the rest of that file and
      [mod/stateful/compute_outgoing_tuple.c], and what each function does
      with the references it takes.
    - [StaticRoutes]: [mod/stateful/bib/static_routes.c].
    - [Nat64]: the databases as a transition system: packets, timers and
      requests as events, under any configuration and any shortage of memory.
      A removal or a flush of pool4 that is not quick is two events, the
      deletion of its sessions and the flush of its BIB entries; the second
      one may happen when no session uses a static entry it flushes
      ([event_safe]), since the code does not survive it otherwise
      ([flush_under_waiting_packet]).
    - [Guarantees]: what holds of the databases: nothing faults or leaks,
      mappings are one to one, known connections pass and come back.
    - [Skb], [InTuple]: the bytes of a received packet, its validation
      ([mod/common/packet.c], [mod/common/ipv6_hdr_iterator.c]) and the tuple
      that is read from it ([mod/stateful/determine_incoming_tuple.c]).
    - [Checksum]: the ones' complement sum, and the kernel's checksum
      functions as an interface ([KernelCsum], [KernelCsumLaws]).
    - [XlatPkt], [Xlat64], [Xlat46], [Xlat]: [mod/common/rfc6145/]: the two
      packets of a translation, the steps of each direction, and the core that
      runs them.
    - [XlatSpec], [Wire], [Sent]: what the steps do to the bytes, how bytes
      are read as headers, and what a correct translation of a packet is
      ([sent], [refusal]).
    - [Translate64], [Translate46]: the two directions are such translations.
    - [Core], [CoreSpec], [Pipeline]: [mod/common/core.c],
      [mod/common/send_packet.c], [mod/common/icmp_wrapper.c] and both
      [handling_hairpinning.c]; what becomes of a packet ([processed],
      [hooked]); and the theorems on the hooks of the stateful module, from
      the bytes received to the bytes sent.
    - [Rtrie], [RtrieSpec], [RtrieOps]: [mod/common/rtrie.c], the trees its
      nodes form, and its operations as those of a table of prefixes.
    - [Eam]: [mod/stateless/eam.c].
    - [SiitPool]: [mod/stateless/pool.c], [blacklist4.c] and [rfc6791.c].
    - [Siit]: the tables of the stateless module behind the interface
      [SiitTables] that [Xlat64] and [Xlat46] ask.
    - [Config], [ConfigSpec]: [mod/common/config.c] and the part of
      [mod/common/nl_handler.c] that changes the configuration, and what holds
      of the configuration after any requests.
    - [HashTable]: [mod/common/hash_table.c], a file that is included with
      macros for the types of keys and values; here a section over them, and
      the functions on keys behind the interface [HashKey].
    - [Fragdb], [FragdbSpec], [FragdbTrace]: [mod/stateful/fragment_db.c] as
      it is compiled for kernels up to 3.12, over the hash table; what one
      fragment does to a list of partial packets; and sequences of fragments,
      other packets and timer runs.
    - [RbClear]: [mod/common/rbtree.c], over nodes in memory ([rb_clear]) and
      over trees as values ([rbtree_clear]).
    - [Teardown]: the destruction of the stateful databases.
    - [Module]: both [nf_hook.c], [mod/common/namespace.c] and the setup of
      the parts: what is loaded, and undone if a setup fails.
    - [ErrorPool]: [mod/common/error_pool.c].
    - [NlHandler], [NlSpec]: [mod/common/nl_handler.c] and
      [mod/common/nl_buffer.c]: a request, from the bytes of the message to the
      responses, on the databases of the other files; and which requests
      change nothing.
    - [NlClient]: [usr/common/netlink.c] and [usr/common/target/]: the
      requests of the application, and its displays.
    - [NlDisplay], [NlGuarantees]: structures written by the application are
      read by the module; the chunks of a display; and what holds of the
      requests.
    - [StrUtils], [Options], [JoolMain]: [usr/common/str_utils.c],
      [usr/common/argp/options.c] and [usr/common/jool.c]: from the words of the
      command line to the request.
    - [JoolMainSpec], [CommandLine]: what a command line can mean, and that
      everything can be asked for.

    ** The theorems

    [Guarantees], [Pipeline] and [Siit] have what a user of the translator
    relies on.  [hooks_correct] is a refinement: a hook, on the bytes of a
    packet, does what [hooked] says, and [processed] says it without bytes
    offsets, buffers or steps.  [packet_6to4_correct] and
    [packet_4to6_correct] say which packets are refused, with which ICMP error, and
    that the packet sent has the tuple, the payload and the checksums it
    has to have; the length field too, except that of some long echoes
    ([told]), which depends on what the buffer held before.  [fragments_reassembled] says that the fragments of a packet
    that arrive in order and in time, whatever arrives between them, come out
    as the packet.  [nat64_commands_keep] extends the invariant of the
    databases to the commands of the application, [unprivileged_only_reads] says
    that only the administrator changes anything, and
    [nat64_displays_complete] and [pool_displays_complete] that a display shows
    every entry once although it comes in chunks.  [nat64_teardown] says that
    unloading frees everything once.  [command_line_sound] and
    [command_line_roundtrip] are about the way from the words to the request.
    The other files have the contract of each component, on
    every branch, errors included.  Some lemmas are about what goes wrong:
    [nested_keys_break], [blacklist_flush_dangles],
    [rm_range_reversed_diverges], [rm_range_reads_freed_row],
    [bibtable_flush_twice_frees], [flush_under_waiting_packet],
    [long_echo_length], [eamt_revert_needs_memory], [overlong_plateaus_fault],
    [prefix_parse_overread], [pool6_remove_ignores_quick] and
    [global_display_leaks].

    ** The model

    Structures are records, with the names of the source.  Where pointers are
    shared, what the code may not change (the [const] members) is in the
    pointer's record and the rest is in a heap indexed by its address
    ([bib_heap], [session_heap], the nodes of a trie, the lists of
    [SiitPool]); using an object that has been freed is a
    fault ([None] of the monad [M]), and so is a NULL pointer, so
    a theorem that an operation returns also says that it does neither.
    Integers are in [Z], with the wrap-around of their width written out
    ([u8], [u16], [u32], [u64]).  Allocations may fail: an [allocs] is the
    list of the outcomes to come.  A spinlock makes the operation it protects
    one step, and RCU a reader's.  Intrusive lists are lists, and the
    red-black trees are binary trees that are searched as the code searches
    them; where the order of a read and a free matters the model says so:
    [rm_range] reports the read of a row it has freed ([rm_stale_read]), and
    [rb_clear] has its nodes in memory.

    A socket buffer is its linear part, its pages and its list of fragments.
    A read through a pointer faults outside of the linear part, one through
    [skb_header_pointer] reports it; a write faults outside of the buffer, and
    the memory of a new buffer is arbitrary ([xe_junk]).  The packets the
    theorems are about are those the kernel can hand over in one linear
    buffer, that are TCP, UDP or echoes, with complete headers, options that
    end and lengths that fit their field ([presentable], [translatable]).  The fragment
    database, which links socket buffers, has them in a heap of its own.

    A request is the bytes of a Netlink message.  The structures of
    [include/nat64/common/config.h] have the layout of x86-64: members at the
    next multiple of their alignment, little-endian integers, addresses in
    network order.  The length a request claims is its own, and reading past
    the bytes of the message is a fault.  Responses carry the structures
    themselves.

    Reference counting is stated with ghost counts: [brefs] and [srefs] give,
    for each BIB entry and each session, the references held outside of the
    databases.  An invariant such as [sessiondb_inv] says that every counter is
    the number of holders, so it rules out leaks and premature frees.  The
    code between the databases is verified with triples ([triple P m Q]: from
    a state in [P], [m] returns, in [Q]); the assertion [owned B S db] lists
    the references the code holds at that point, and between two events the
    lists are empty ([nat64_inv]).

    ** Termination

    Loops are structural recursion over the list or the range they walk,
    except for those that change the list they walk or follow pointers:
    [rm_range_loop] and [cleaner_loop] take fuel, and faulting when it runs
    out is excluded by the theorems ([pool4db_requests_correct] and
    [fire_timer_spec] hold for any fuel that is at least the length of the
    list), or is the subject of the theorem ([rm_range_reversed_diverges]: no
    amount of fuel is enough).  The walk over the extension headers has the
    length of the packet as fuel, since each header takes at least eight bytes;
    the one over the options of an IPv4 header has 60 steps, more than the 40
    bytes of options there can be; the walks over a trie have the number of
    its nodes; and [depth] bounds how deep packets are nested in ICMP errors
    (the theorems hold for any).  The loop that empties a hash table, the one
    that deletes expired fragments and [rbtree_clear] have the number of
    elements plus one, [rb_clear] the number of nodes, [kfree_skbs] the number of socket buffers; the loop of a
    display has the number of entries plus one in the theorems that say that it
    ends.

    ** Not modelled

    Statistics, the log and the formats of the output (I/O); the benchmark log;
    the kernel's routing (its API; routes are arguments); the index of IPv6
    nodes ([host6_node.c]), which is not compiled; the stubs each module links
    instead of the other's components ([impersonator.c]); the parameters of
    the modules; libnl and argp, but for what the application sees of them;
    the interleaving of readers with an update (RCU).  The
    theorems on translated bytes are about packets that are not ICMP errors,
    whose inner packet the model translates too; those on the tries
    and the mappings, about keys that do not contain one another. *)
From Stdlib Require Export ZArith Lia Bool.
From stdpp Require Export base list gmap numbers sorting.

#[export] Set Warnings "-clear-no-such-hyp".

#[global] Open Scope Z_scope.

(** ** Machine-width integers *)

(** C's unsigned types, as the wrap-around each conversion or arithmetic
    result goes through. *)
Definition u8 (x : Z) : Z := x `mod` 2^8.
Definition u16 (x : Z) : Z := x `mod` 2^16.
Definition u32 (x : Z) : Z := x `mod` 2^32.
Definition u64 (x : Z) : Z := x `mod` 2^64.

Definition is_u8 (x : Z) : Prop := 0 <= x < 2^8.
Definition is_u16 (x : Z) : Prop := 0 <= x < 2^16.
Definition is_u32 (x : Z) : Prop := 0 <= x < 2^32.

(** The bit string of [len] bits of [x] that starts at bit [lo]. *)
Definition bits (x lo len : Z) : Z := Z.land (Z.shiftr x lo) (Z.ones len).

(** [x] with the [len] bits that start at [lo] replaced by those of [v]. *)
Definition set_bits (x lo len v : Z) : Z :=
  Z.lor (Z.ldiff x (Z.shiftl (Z.ones len) lo))
        (Z.shiftl (Z.land v (Z.ones len)) lo).

(** ** Errors *)

(** The kernel error codes the sources return (as [-EINVAL] and so on). *)
Inductive errno : Type :=
| EINVAL | ESRCH | EEXIST | ENOMEM | E2BIG | EPERM | ENOENT | ENOSPC
| EAGAIN | EOVERFLOW | EFAULT.

#[global] Instance errno_eq_dec : EqDecision errno.
Proof. solve_decision. Defined.

(** The numbers of the codes, where a status is handled as an [int]. *)
Definition errno_code (e : errno) : Z :=
  match e with
  | EPERM => 1 | ENOENT => 2 | ESRCH => 3 | E2BIG => 7 | EAGAIN => 11
  | ENOMEM => 12 | EFAULT => 14 | EEXIST => 17 | EINVAL => 22 | ENOSPC => 28
  | EOVERFLOW => 75
  end.

(** A C function that returns 0 or a negative error code, its output
    parameter being meaningful only when it returns 0. *)
Inductive result (A : Type) : Type :=
| Ok (a : A)
| Err (e : errno).
Arguments Ok {A} a.
Arguments Err {A} e.

#[global] Instance result_eq_dec {A} `{EqDecision A} : EqDecision (result A).
Proof. solve_decision. Defined.

Definition is_ok {A} (r : result A) : bool :=
  match r with Ok _ => true | Err _ => false end.

#[global] Instance result_ret : MRet result := fun A a => Ok a.
#[global] Instance result_bind : MBind result := fun A B f r =>
  match r with Ok a => f a | Err e => Err e end.

(** ** State *)

(** Stateful code: [None] is a kernel fault (a NULL or dangling pointer is
    dereferenced), [Some (a, s')] a normal return. *)
Definition M (S A : Type) : Type := S -> option (A * S).

#[global] Instance M_ret {S} : MRet (M S) := fun A a s => Some (a, s).
#[global] Instance M_bind {S} : MBind (M S) := fun A B f m s =>
  match m s with
  | Some (a, s') => f a s'
  | None => None
  end.

Definition get {S} : M S S := fun s => Some (s, s).
Definition put {S} (s : S) : M S unit := fun _ => Some (tt, s).
Definition modify {S} (f : S -> S) : M S unit := fun s => Some (tt, f s).
Definition gets {S A} (f : S -> A) : M S A := fun s => Some (f s, s).
Definition fault {S A} : M S A := fun _ => None.

(** A load, which faults outside of what can be read. *)
Definition load {S A} (o : option A) : M S A := fun s =>
  match o with Some a => Some (a, s) | None => None end.

Lemma bind_run {S A B} (m : M S A) (f : A -> M S B) s a s' :
  m s = Some (a, s') -> (m ≫= f) s = f a s'.
Proof. intros H. unfold mbind, M_bind. rewrite H. done. Qed.

Lemma some_bind {S A B} (a : A) (k : A -> M S B) s : (load (Some a) ≫= k) s = k a s.
Proof. done. Qed.

(** ** Memory *)

(** The outcomes of the coming [kmalloc] calls; all succeed once the list
    runs out. *)
Definition allocs : Type := list bool.

Definition kmalloc (al : allocs) : bool * allocs :=
  match al with
  | [] => (true, [])
  | ok :: al => (ok, al)
  end.

Lemma kmalloc_fails al : (kmalloc al).1 = false -> false ∈ al.
Proof. destruct al as [|[] al]; [done..|]. left. Qed.

Lemma kmalloc_rest al : false ∈ (kmalloc al).2 -> false ∈ al.
Proof. destruct al; [done|]. right. done. Qed.

(** ** Iteration with early exit *)

(** Run a callback over a list until it returns non-zero, threading the state
    behind its [void *] argument. *)
Fixpoint run_until {A B : Type} (func : A -> B -> Z * B) (l : list A) (arg : B) : Z * B :=
  match l with
  | [] => (0, arg)
  | x :: l =>
      let '(error, arg) := func x arg in
      if negb (error =? 0) then (error, arg) else run_until func l arg
  end.

(** ** Automation *)

Create HintDb jool.
Create Rewrite HintDb jool.

(** Case analysis on every [if], [match] and [decide] of the goal. *)
Ltac case_all :=
  repeat (first [ case_match | progress simplify_eq/= ]).

Ltac bool_to_prop :=
  repeat match goal with
  | H : _ && _ = true |- _ => apply andb_true_iff in H as [? ?]
  | H : _ || _ = false |- _ => apply orb_false_iff in H as [? ?]
  | H : negb _ = true |- _ => apply negb_true_iff in H
  | H : negb _ = false |- _ => apply negb_false_iff in H
  | H : (_ =? _) = true |- _ => apply Z.eqb_eq in H
  | H : (_ =? _) = false |- _ => apply Z.eqb_neq in H
  | H : (_ <? _) = true |- _ => apply Z.ltb_lt in H
  | H : (_ <? _) = false |- _ => apply Z.ltb_ge in H
  | H : (_ <=? _) = true |- _ => apply Z.leb_le in H
  | H : (_ <=? _) = false |- _ => apply Z.leb_gt in H
  | H : bool_decide _ = true |- _ => apply bool_decide_eq_true in H
  | H : bool_decide _ = false |- _ => apply bool_decide_eq_false in H
  end.

(** ** Lemmas on bits *)

Lemma testbit_bits x lo len n :
  0 <= lo -> 0 <= len -> 0 <= n ->
  Z.testbit (bits x lo len) n = (n <? len) && Z.testbit x (n + lo).
Proof.
  intros. unfold bits. rewrite Z.land_spec, Z.shiftr_spec by lia.
  rewrite Z.testbit_ones_nonneg by lia. apply andb_comm.
Qed.

Lemma testbit_set_bits x lo len v n :
  0 <= lo -> 0 <= len -> 0 <= n ->
  Z.testbit (set_bits x lo len v) n =
  if (lo <=? n) && (n <? lo + len) then Z.testbit v (n - lo)
  else Z.testbit x n.
Proof.
  intros. unfold set_bits. rewrite Z.lor_spec, Z.ldiff_spec, !Z.shiftl_spec by lia.
  destruct (Z.leb_spec lo n); simpl.
  - rewrite Z.land_spec, !Z.testbit_ones_nonneg by lia.
    destruct (Z.ltb_spec (n - lo) len), (Z.ltb_spec n (lo + len)); try lia; simpl;
      rewrite ?andb_false_r, ?andb_true_r, ?orb_false_r; done.
  - rewrite !(Z.testbit_neg_r _ (n - lo)) by lia. rewrite andb_true_r, orb_false_r. done.
Qed.

Lemma bits_range x lo len : 0 <= len -> 0 <= bits x lo len < 2 ^ len.
Proof.
  intros. unfold bits. rewrite Z.land_ones by lia.
  apply Z.mod_pos_bound. lia.
Qed.

Lemma testbit_high x w n : 0 <= x < 2 ^ w -> w <= n -> Z.testbit x n = false.
Proof.
  intros Hx Hn. destruct (decide (0 <= w)) as [Hw|Hw].
  - rewrite <- (Z.mod_small x (2 ^ w)) by lia. apply Z.mod_pow2_bits_high. lia.
  - rewrite Z.pow_neg_r in Hx by lia. lia.
Qed.

(** Two [w]-bit numbers are equal when they agree on their bits. *)
Lemma bits_ext w x y :
  0 <= x < 2 ^ w -> 0 <= y < 2 ^ w ->
  (forall n, 0 <= n < w -> Z.testbit x n = Z.testbit y n) -> x = y.
Proof.
  intros Hx Hy H. apply Z.bits_inj'. intros n Hn.
  destruct (Z.lt_ge_cases n w).
  - apply H. lia.
  - rewrite !(testbit_high _ w) by lia. done.
Qed.

Lemma range_of_testbit x w :
  0 <= w -> 0 <= x -> (forall n, w <= n -> Z.testbit x n = false) ->
  0 <= x < 2 ^ w.
Proof.
  intros Hw Hx H. split; [done|].
  assert (x = x mod 2 ^ w) as ->.
  { apply Z.bits_inj'. intros n Hn. destruct (Z.lt_ge_cases n w).
    - rewrite Z.mod_pow2_bits_low by lia. done.
    - rewrite Z.mod_pow2_bits_high by lia. apply H. lia. }
  apply Z.mod_pos_bound. lia.
Qed.

Lemma set_bits_range w x lo len v :
  0 <= lo -> 0 <= len -> lo + len <= w ->
  0 <= x < 2 ^ w -> 0 <= set_bits x lo len v < 2 ^ w.
Proof.
  intros. apply range_of_testbit; [lia| |].
  - unfold set_bits. apply Z.lor_nonneg. split.
    + apply Z.ldiff_nonneg. lia.
    + apply Z.shiftl_nonneg, Z.land_nonneg. right.
      rewrite Z.ones_equiv. pose proof (Z.pow_pos_nonneg 2 len). lia.
  - intros n Hn. rewrite testbit_set_bits by lia.
    destruct (Z.ltb_spec n (lo + len)); [lia|].
    rewrite andb_false_r. apply (testbit_high _ w); lia.
Qed.

Lemma bits_set_bits_same x lo len v :
  0 <= lo -> 0 <= len -> bits (set_bits x lo len v) lo len = bits v 0 len.
Proof.
  intros. apply (bits_ext len); [apply bits_range; lia..|].
  intros n Hn. rewrite !testbit_bits, testbit_set_bits by lia.
  destruct (Z.leb_spec lo (n + lo)), (Z.ltb_spec (n + lo) (lo + len)); try lia; simpl.
  do 2 f_equal. lia.
Qed.

Lemma bits_set_bits_other x lo len v lo' len' :
  0 <= lo -> 0 <= len -> 0 <= lo' -> 0 <= len' ->
  lo + len <= lo' \/ lo' + len' <= lo ->
  bits (set_bits x lo len v) lo' len' = bits x lo' len'.
Proof.
  intros. apply (bits_ext len'); [apply bits_range; lia..|].
  intros n Hn. rewrite !testbit_bits, testbit_set_bits by lia.
  destruct (Z.leb_spec lo (n + lo')), (Z.ltb_spec (n + lo') (lo + len)); try lia; done.
Qed.

(** A field inside a field that has just been written. *)
Lemma bits_set_bits_inside x lo len v lo' len' :
  0 <= lo -> 0 <= len' -> lo <= lo' -> lo' + len' <= lo + len ->
  bits (set_bits x lo len v) lo' len' = bits v (lo' - lo) len'.
Proof.
  intros. apply (bits_ext len'); [apply bits_range; lia..|].
  intros n Hn. rewrite !testbit_bits, testbit_set_bits by lia.
  destruct (Z.leb_spec lo (n + lo')), (Z.ltb_spec (n + lo') (lo + len)); try lia; simpl.
  do 2 f_equal. lia.
Qed.

Lemma bits_bits x lo len lo' len' :
  0 <= lo -> 0 <= lo' -> 0 <= len' -> lo' + len' <= len ->
  bits (bits x lo len) lo' len' = bits x (lo + lo') len'.
Proof.
  intros. apply (bits_ext len'); [apply bits_range; lia..|].
  intros n Hn. rewrite !testbit_bits by lia.
  destruct (Z.ltb_spec n len'), (Z.ltb_spec (n + lo') len); try lia; simpl.
  f_equal. lia.
Qed.

Lemma bits_id x w : 0 <= w -> 0 <= x < 2 ^ w -> bits x 0 w = x.
Proof.
  intros. unfold bits. rewrite Z.shiftr_0_r, Z.land_ones by lia.
  apply Z.mod_small. lia.
Qed.

(** ** Lexicographic comparisons *)

(** [gap = f(); if (gap) return gap; gap = g(); return gap;] *)
Definition lex_gap (gap gap' : Z) : Z := if negb (gap =? 0) then gap else gap'.

Lemma lex_gap_assoc a b c : lex_gap a (lex_gap b c) = lex_gap (lex_gap a b) c.
Proof. unfold lex_gap. destruct (Z.eqb_spec a 0); simpl; [done|]. destruct (Z.eqb_spec a 0); done. Qed.

(** Comparing pairs lexicographically is comparing the numbers they spell in
    base [w]. *)
Lemma lex_gap_sgn w a b c d g h :
  0 <= c < w -> 0 <= d < w ->
  Z.sgn g = Z.sgn (a - b) -> Z.sgn h = Z.sgn (c - d) ->
  Z.sgn (lex_gap g h) = Z.sgn ((a * w + c) - (b * w + d)).
Proof.
  intros Hc Hd Hg Hh. unfold lex_gap. destruct (Z.eqb_spec g 0) as [->|Hne]; simpl.
  - simpl in Hg. assert (a = b) as -> by lia. rewrite Hh. f_equal. lia.
  - rewrite Hg. destruct (Z.sgn_spec (a - b)) as [[H ->]|[[H ->]|[H ->]]].
    + symmetry. apply Z.sgn_pos_iff. nia.
    + assert (Z.sgn g = 0) by (rewrite Hg, <- H; done). lia.
    + symmetry. apply Z.sgn_neg_iff. nia.
Qed.

(** ** Lemmas on lists *)

Lemma list_filter_all {A} (P : A -> Prop) {Hd : forall x, Decision (P x)} (l : list A) :
  (forall x, x ∈ l -> P x) -> filter P l = l.
Proof.
  induction l as [|x l IH]; intros H; [done|].
  rewrite filter_cons_True by (apply H; left). f_equal. apply IH. intros. apply H. right. done.
Qed.

Lemma sublist_elem_of {A} (l1 l2 : list A) x : l1 `sublist_of` l2 -> x ∈ l1 -> x ∈ l2.
Proof. induction 1; set_solver. Qed.

Lemma sublist_NoDup {A} (l1 l2 : list A) : l1 `sublist_of` l2 -> NoDup l2 -> NoDup l1.
Proof.
  induction 1 as [|x l1 l2 Hs IH|x l1 l2 Hs IH]; intros Hn; [done| |].
  - apply NoDup_cons in Hn as [Hx Hn]. apply NoDup_cons. split; [|auto].
    intros Hin. apply Hx. eapply sublist_elem_of; done.
  - apply NoDup_cons in Hn as [_ Hn]. auto.
Qed.

Lemma sublist_fmap {A B} (f : A -> B) (l1 l2 : list A) :
  l1 `sublist_of` l2 -> (f <$> l1) `sublist_of` (f <$> l2).
Proof. induction 1; simpl; constructor; done. Qed.

Lemma run_until_app {A B} (func : A -> B -> Z * B) l1 l2 arg :
  run_until func (l1 ++ l2) arg =
  let '(error, arg) := run_until func l1 arg in
  if negb (error =? 0) then (error, arg) else run_until func l2 arg.
Proof.
  revert arg. induction l1 as [|x l1 IH]; intros arg; simpl; [done|].
  destruct (func x arg) as [error arg']. destruct (error =? 0) eqn:E; simpl; [apply IH|].
  rewrite E. done.
Qed.

(** ** Lemmas on stateful code *)

Lemma bind_Some {S A B} (m : M S A) (f : A -> M S B) s r :
  (m ≫= f) s = Some r <->
  exists a s', m s = Some (a, s') /\ f a s' = Some r.
Proof.
  unfold mbind, M_bind. destruct (m s) as [[a s']|]; split.
  - intros H. exists a, s'. auto.
  - intros (?&?&[= <- <-]&H). exact H.
  - intros [=].
  - intros (?&?&[=]&?).
Qed.

(** [triple P m Q]: from a state that satisfies [P], [m] returns (it does not
    fault) and its result and the state it leaves satisfy [Q]. *)
Definition triple {S A} (P : S -> Prop) (m : M S A) (Q : A -> S -> Prop) : Prop :=
  forall s, P s -> exists a s', m s = Some (a, s') /\ Q a s'.

Lemma triple_ret {S A} (P : S -> Prop) (a : A) (Q : A -> S -> Prop) :
  (forall s, P s -> Q a s) -> triple P (mret a) Q.
Proof. intros H s Hs. exists a, s. auto. Qed.

Lemma triple_bind {S A B} (P : S -> Prop) (m : M S A) (f : A -> M S B) (Rm : A -> S -> Prop) Q :
  triple P m Rm -> (forall a, triple (Rm a) (f a) Q) -> triple P (m ≫= f) Q.
Proof.
  intros Hm Hf s Hs. destruct (Hm s Hs) as (a & s1 & Hrun & H1). destruct (Hf a s1 H1) as (b & s2 & Hrun2 & H2).
  exists b, s2. unfold mbind, M_bind. rewrite Hrun. auto.
Qed.

Lemma triple_weaken {S A} (P P' : S -> Prop) (m : M S A) (Q Q' : A -> S -> Prop) :
  triple P' m Q' -> (forall s, P s -> P' s) -> (forall a s, Q' a s -> Q a s) -> triple P m Q.
Proof. intros Hm HP HQ s Hs. destruct (Hm s (HP s Hs)) as (a & s' & Hrun & H). eauto. Qed.

Lemma triple_load {S A B} (P : S -> Prop) (o : option A) a (f : A -> M S B) Q :
  o = Some a -> triple P (f a) Q -> triple P (load o ≫= f) Q.
Proof. intros -> H s Hs. apply (H s Hs). Qed.

(** A pure consequence of the precondition. *)
Lemma triple_get {S A} (P' : S -> Prop) (F : Prop) (P : S -> Prop) (m : M S A) Q :
  (forall s, P s -> P' s /\ F) -> (F -> triple P' m Q) -> triple P m Q.
Proof. intros H Hm s Hs. destruct (H s Hs) as [Hs' HF]. apply (Hm HF). done. Qed.

Lemma triple_pure {S A} (P : S -> Prop) (F : Prop) (m : M S A) Q :
  (F -> triple P m Q) -> triple (fun s => P s /\ F) m Q.
Proof. intros H s [Hs HF]. apply (H HF). done. Qed.

Lemma triple_exists {S A T} (P : T -> S -> Prop) (m : M S A) Q :
  (forall t, triple (P t) m Q) -> triple (fun s => exists t, P t s) m Q.
Proof. intros H s [t Hs]. apply (H t). done. Qed.
