(* ===== verification/Types.v ===== *)
(** * Core data types

    The structures every other component shares: [include/nat64/common/types.h],
    [include/nat64/mod/common/types.h], the union of
    [include/nat64/mod/common/address.h] and the helpers of
    [mod/common/types.c].

    An IPv4 address is the 32-bit number its four network-order bytes spell
    ([be32_to_cpu(s_addr)]) and an IPv6 address the 128-bit number its sixteen
    bytes spell, so [memcmp] on the C structures is the order of the numbers
    and byte [i] is found [8 * i] bits below the top. *)
From S2P Require Import Prelude.

(** ** Protocols and verdicts *)

Inductive l3_protocol : Type := L3PROTO_IPV6 | L3PROTO_IPV4.

Inductive l4_protocol : Type :=
| L4PROTO_TCP | L4PROTO_UDP | L4PROTO_ICMP | L4PROTO_OTHER.

#[global] Instance l3_protocol_eq_dec : EqDecision l3_protocol.
Proof. solve_decision. Defined.
#[global] Instance l4_protocol_eq_dec : EqDecision l4_protocol.
Proof. solve_decision. Defined.

(** The number of a protocol.  The pool of IPv4 addresses, which only compares
    protocols, keeps whatever number a request has: an [enum] is an [int]. *)
Definition l4_num (p : l4_protocol) : Z :=
  match p with L4PROTO_TCP => 0 | L4PROTO_UDP => 1 | L4PROTO_ICMP => 2 | L4PROTO_OTHER => 3 end.

Coercion l4_num : l4_protocol >-> Z.

Lemma l4_num_inj (p q : l4_protocol) : l4_num p = l4_num q -> p = q.
Proof. destruct p, q; done. Qed.

Inductive verdict : Type :=
| VERDICT_CONTINUE | VERDICT_DROP | VERDICT_ACCEPT | VERDICT_STOLEN.

#[global] Instance verdict_eq_dec : EqDecision verdict.
Proof. solve_decision. Defined.

(** ** Addresses *)

Record in_addr : Type := InAddr { s_addr : Z }.
Record in6_addr : Type := In6Addr { s6_addr : Z }.

Record ipv4_transport_addr : Type := TAddr4 { l3_4 : in_addr; l4_4 : Z }.
Record ipv6_transport_addr : Type := TAddr6 { l3_6 : in6_addr; l4_6 : Z }.

Record ipv4_prefix : Type := Prefix4 { p4_address : in_addr; p4_len : Z }.
Record ipv6_prefix : Type := Prefix6 { p6_address : in6_addr; p6_len : Z }.

Record port_range : Type := PortRange { r_min : Z; r_max : Z }.

Record pool4_sample : Type := Pool4Sample {
  sample_mark : Z;
  sample_proto : Z;
  sample_addr : in_addr;
  sample_range : port_range
}.

#[global] Instance in_addr_eq_dec : EqDecision in_addr.
Proof. solve_decision. Defined.
#[global] Instance in6_addr_eq_dec : EqDecision in6_addr.
Proof. solve_decision. Defined.
#[global] Instance taddr4_eq_dec : EqDecision ipv4_transport_addr.
Proof. solve_decision. Defined.
#[global] Instance taddr6_eq_dec : EqDecision ipv6_transport_addr.
Proof. solve_decision. Defined.
#[global] Instance prefix4_eq_dec : EqDecision ipv4_prefix.
Proof. solve_decision. Defined.
#[global] Instance prefix6_eq_dec : EqDecision ipv6_prefix.
Proof. solve_decision. Defined.
#[global] Instance port_range_eq_dec : EqDecision port_range.
Proof. solve_decision. Defined.

(** The union [transport_addr] of a tuple is read through the member its
    [l3_proto] names, so the tuple is one of two structures. *)
Inductive tuple : Type :=
| Tuple4 (src dst : ipv4_transport_addr) (l4 : l4_protocol)
| Tuple6 (src dst : ipv6_transport_addr) (l4 : l4_protocol).

Definition l3_proto (t : tuple) : l3_protocol :=
  match t with Tuple4 _ _ _ => L3PROTO_IPV4 | Tuple6 _ _ _ => L3PROTO_IPV6 end.

Definition l4_proto (t : tuple) : l4_protocol :=
  match t with Tuple4 _ _ p | Tuple6 _ _ p => p end.

#[global] Instance tuple_eq_dec : EqDecision tuple.
Proof. solve_decision. Defined.

Definition is_3_tuple (t : tuple) : bool := bool_decide (l4_proto t = L4PROTO_ICMP).
Definition is_5_tuple (t : tuple) : bool := negb (is_3_tuple t).

(** Values that fit their C types. *)
Definition wf_addr4 (a : in_addr) : Prop := is_u32 (s_addr a).
Definition wf_addr6 (a : in6_addr) : Prop := 0 <= s6_addr a < 2 ^ 128.
Definition wf_taddr4 (a : ipv4_transport_addr) : Prop :=
  wf_addr4 (l3_4 a) /\ is_u16 (l4_4 a).
Definition wf_taddr6 (a : ipv6_transport_addr) : Prop :=
  wf_addr6 (l3_6 a) /\ is_u16 (l4_6 a).
Definition wf_range (r : port_range) : Prop := is_u16 (r_min r) /\ is_u16 (r_max r).

(** The tuple of the answer. *)
Definition reply (tup : tuple) : tuple :=
  match tup with
  | Tuple6 src dst proto => Tuple6 dst src proto
  | Tuple4 src dst proto => Tuple4 dst src proto
  end.

(** ** mod/common/types.c *)

Definition NEXTHDR_TCP : Z := 6.
Definition NEXTHDR_UDP : Z := 17.
Definition NEXTHDR_ICMP : Z := 58.

Definition l4_proto_to_nexthdr (proto : l4_protocol) : Z :=
  match proto with
  | L4PROTO_TCP => NEXTHDR_TCP
  | L4PROTO_UDP => NEXTHDR_UDP
  | L4PROTO_ICMP => NEXTHDR_ICMP
  | L4PROTO_OTHER => 0
  end.

Definition port_range_equals (r1 r2 : port_range) : bool :=
  (r_min r1 =? r_min r2) && (r_max r1 =? r_max r2).

(** [__u16] operands are promoted to [int]: [min - 1] may be -1 and
    [max + 1] may be 65536. *)
Definition port_range_touches (r1 r2 : port_range) : bool :=
  (r_max r1 >=? r_min r2 - 1) && (r_min r1 <=? r_max r2 + 1).

Definition port_range_contains (range : port_range) (port : Z) : bool :=
  (r_min range <=? port) && (port <=? r_max range).

(** [unsigned int] arithmetic, because of [1U]. *)
Definition port_range_count (range : port_range) : Z :=
  u32 (r_max range - r_min range + 1).

Definition ICMPV6_DEST_UNREACH : Z := 1.
Definition ICMPV6_PKT_TOOBIG : Z := 2.
Definition ICMPV6_TIME_EXCEED : Z := 3.
Definition ICMPV6_PARAMPROB : Z := 4.
Definition ICMPV6_ECHO_REQUEST : Z := 128.
Definition ICMPV6_ECHO_REPLY : Z := 129.
Definition ICMP_ECHOREPLY : Z := 0.
Definition ICMP_DEST_UNREACH : Z := 3.
Definition ICMP_SOURCE_QUENCH : Z := 4.
Definition ICMP_REDIRECT : Z := 5.
Definition ICMP_ECHO : Z := 8.
Definition ICMP_TIME_EXCEEDED : Z := 11.
Definition ICMP_PARAMETERPROB : Z := 12.

Definition is_icmp6_info (type : Z) : bool :=
  (type =? ICMPV6_ECHO_REQUEST) || (type =? ICMPV6_ECHO_REPLY).

Definition is_icmp6_error (type : Z) : bool :=
  (type =? ICMPV6_DEST_UNREACH) || (type =? ICMPV6_PKT_TOOBIG)
  || (type =? ICMPV6_TIME_EXCEED) || (type =? ICMPV6_PARAMPROB).

Definition is_icmp4_info (type : Z) : bool :=
  (type =? ICMP_ECHO) || (type =? ICMP_ECHOREPLY).

Definition is_icmp4_error (type : Z) : bool :=
  (type =? ICMP_DEST_UNREACH) || (type =? ICMP_SOURCE_QUENCH)
  || (type =? ICMP_REDIRECT) || (type =? ICMP_TIME_EXCEEDED)
  || (type =? ICMP_PARAMETERPROB).

(** ** Port ranges *)

Lemma port_range_contains_iff r p :
  port_range_contains r p = true <-> r_min r <= p <= r_max r.
Proof. unfold port_range_contains. rewrite andb_true_iff, !Z.leb_le. done. Qed.

Lemma port_range_equals_iff r1 r2 : port_range_equals r1 r2 = true <-> r1 = r2.
Proof.
  unfold port_range_equals. rewrite andb_true_iff, !Z.eqb_eq.
  destruct r1, r2; simpl. split; [intros [-> ->]; done | intros [= -> ->]; done].
Qed.

Lemma port_range_touches_iff r1 r2 :
  port_range_touches r1 r2 = true <->
  r_min r2 - 1 <= r_max r1 /\ r_min r1 <= r_max r2 + 1.
Proof.
  unfold port_range_touches. rewrite andb_true_iff, Z.leb_le, Z.geb_leb, Z.leb_le. done.
Qed.

Lemma port_range_touches_sym r1 r2 :
  port_range_touches r1 r2 = port_range_touches r2 r1.
Proof.
  apply eq_true_iff_eq. rewrite !port_range_touches_iff. lia.
Qed.

Lemma port_range_count_ordered r :
  wf_range r -> r_min r <= r_max r ->
  port_range_count r = r_max r - r_min r + 1.
Proof.
  unfold wf_range, is_u16, port_range_count, u32. intros. apply Z.mod_small. lia.
Qed.

#[export] Hint Rewrite port_range_contains_iff port_range_equals_iff
  port_range_touches_iff : jool.
