(* ===== verification/Address.v ===== *)
(** * Addresses and prefixes

    [mod/common/address.c] and the inline functions of
    [include/nat64/mod/common/address.h]: equality, containment, validation
    and bit access of IPv4 and IPv6 addresses and prefixes, and the
    enumeration of a prefix's addresses.  Pointers that may be NULL are
    options. *)
From Stdlib Require Import Ascii String.
From stdpp Require Import strings.
From S2P Require Import Prelude Types.

(** ** Kernel helpers the file relies on *)

(** [be32] word [i] (0 to 3) and byte [i] (0 to 15) of an IPv6 address. *)
Definition s6_addr32 (a : in6_addr) (i : Z) : Z := bits (s6_addr a) (96 - 32 * i) 32.
Definition s6_addr8 (a : in6_addr) (i : Z) : Z := bits (s6_addr a) (120 - 8 * i) 8.

(** [dst->s6_addr32[i] = v] and [dst->s6_addr[i] = v]. *)
Definition set_s6_addr32 (a : in6_addr) (i v : Z) : in6_addr :=
  In6Addr (set_bits (s6_addr a) (96 - 32 * i) 32 v).
Definition set_s6_addr8 (a : in6_addr) (i v : Z) : in6_addr :=
  In6Addr (set_bits (s6_addr a) (120 - 8 * i) 8 v).

(** [ipv6_prefix_equal] of [net/ipv6.h]: the first [len] bits agree. *)
Definition ipv6_prefix_equal (a1 a2 : in6_addr) (len : Z) : bool :=
  Z.shiftr (s6_addr a1) (128 - len) =? Z.shiftr (s6_addr a2) (128 - len).

(** [memcmp] of two structures of the same size: only the sign matters. *)
Definition ipv6_addr_cmp (a1 a2 : in6_addr) : Z := Z.sgn (s6_addr a1 - s6_addr a2).
Definition ipv4_addr_cmp (a1 a2 : in_addr) : Z := Z.sgn (s_addr a1 - s_addr a2).

(** ** Parsing *)

Section Parse.

(** [in6_pton]/[in4_pton] (address and where parsing stopped) and
    [kstrtou8] with base 0, from the kernel's library. *)
Variable in6_pton : string -> option Ascii.ascii -> option (in6_addr * string).
Variable in4_pton : string -> option Ascii.ascii -> option (in_addr * string).
Variable kstrtou8 : string -> option Z.

Definition slash : Ascii.ascii := "/"%char.

(** [ptr + 1] for a pointer into a NUL-terminated string; [None] when [ptr]
    is at the terminator, the next byte being outside the string. *)
Definition ptr_succ (s : string) : option string :=
  match s with EmptyString => None | String.String _ tl => Some tl end.

(** [None]: the code reads past the end of [str]. *)
Definition prefix6_parse (str : string) : option (result ipv6_prefix) :=
  match in6_pton str (Some slash) with
  | None => Some (Err EINVAL)
  | Some (address, slash_pos) =>
      match ptr_succ slash_pos with
      | None => None
      | Some rest =>
          match kstrtou8 rest with
          | None => Some (Err EINVAL)
          | Some len => Some (Ok (Prefix6 address len))
          end
      end
  end.

Fixpoint strchr (s : string) (c : Ascii.ascii) : bool :=
  match s with
  | EmptyString => false
  | String.String c' tl => Ascii.eqb c c' || strchr tl c
  end.

Definition prefix4_parse (str : string) : option (result ipv4_prefix) :=
  if strchr str slash then
    match in4_pton str (Some slash) with
    | None => Some (Err EINVAL)
    | Some (address, slash_pos) =>
        match ptr_succ slash_pos with
        | None => None
        | Some rest =>
            match kstrtou8 rest with
            | None => Some (Err EINVAL)
            | Some len => Some (Ok (Prefix4 address len))
            end
        end
    end
  else
    match in4_pton str None with
    | None => Some (Err EINVAL)
    | Some (address, _) => Some (Ok (Prefix4 address 32))
    end.

End Parse.

(** ** Equality *)

(** The shape the [_equals] functions share: same pointer, NULL checks,
    then the members. *)
Definition ptr_equals {A} (eq : A -> A -> bool) (a b : option A) : bool :=
  match a, b with
  | None, None => true
  | Some a, Some b => eq a b
  | _, _ => false
  end.

Definition addr4_equals : option in_addr -> option in_addr -> bool :=
  ptr_equals (fun a b => s_addr a =? s_addr b).
Definition addr6_equals : option in6_addr -> option in6_addr -> bool :=
  ptr_equals (fun a b => s6_addr a =? s6_addr b).
Definition ipv4_transport_addr_equals :
    option ipv4_transport_addr -> option ipv4_transport_addr -> bool :=
  ptr_equals (fun a b =>
    if negb (s_addr (l3_4 a) =? s_addr (l3_4 b)) then false
    else l4_4 a =? l4_4 b).
Definition ipv6_transport_addr_equals :
    option ipv6_transport_addr -> option ipv6_transport_addr -> bool :=
  ptr_equals (fun a b =>
    if negb (s6_addr (l3_6 a) =? s6_addr (l3_6 b)) then false
    else l4_6 a =? l4_6 b).
Definition prefix6_equals : option ipv6_prefix -> option ipv6_prefix -> bool :=
  ptr_equals (fun a b =>
    if negb (s6_addr (p6_address a) =? s6_addr (p6_address b)) then false
    else p6_len a =? p6_len b).
Definition prefix4_equals : option ipv4_prefix -> option ipv4_prefix -> bool :=
  ptr_equals (fun a b =>
    if negb (s_addr (p4_address a) =? s_addr (p4_address b)) then false
    else p4_len a =? p4_len b).

(** ** Prefixes *)

Definition get_prefix4_mask (prefix : ipv4_prefix) : Z :=
  u32 (u64 (Z.shiftl 0xffffffff (32 - p4_len prefix))).

Definition prefix4_contains (prefix : ipv4_prefix) (addr : in_addr) : bool :=
  let maskbits := get_prefix4_mask prefix in
  let prefixbits := Z.land (s_addr (p4_address prefix)) maskbits in
  let addrbits := Z.land (s_addr addr) maskbits in
  prefixbits =? addrbits.

Definition prefix4_intersects (p1 p2 : ipv4_prefix) : bool :=
  prefix4_contains p1 (p4_address p2) || prefix4_contains p2 (p4_address p1).

Definition prefix4_get_addr_count (prefix : ipv4_prefix) : Z :=
  u64 (Z.shiftl 1 (32 - p4_len prefix)).

Definition prefix6_contains (prefix : ipv6_prefix) (addr : in6_addr) : bool :=
  ipv6_prefix_equal (p6_address prefix) addr (p6_len prefix).

Definition prefix4_validate (prefix : option ipv4_prefix) : result unit :=
  match prefix with
  | None => Err EINVAL
  | Some prefix =>
      if 32 <? p4_len prefix then Err EINVAL
      else
        let suffix_mask := u32 (Z.lnot (get_prefix4_mask prefix)) in
        if negb (Z.land (s_addr (p4_address prefix)) suffix_mask =? 0)
        then Err EINVAL else Ok tt
  end.

(** ** Bits *)

Definition addr4_get_bit (addr : in_addr) (pos : Z) : Z :=
  let mask := u32 (Z.shiftl 1 (31 - pos)) in
  Z.land (s_addr addr) mask.

Definition addr4_set_bit (addr : in_addr) (pos : Z) (value : bool) : in_addr :=
  let mask := u32 (Z.shiftl 1 (31 - pos)) in
  if value then InAddr (Z.lor (s_addr addr) mask)
  else InAddr (Z.land (s_addr addr) (u32 (Z.lnot mask))).

Definition addr6_get_bit (addr : in6_addr) (pos : Z) : Z :=
  let quadrant := s6_addr32 addr (Z.shiftr pos 5) in
  let mask := u32 (Z.shiftl 1 (31 - Z.land pos 0x1F)) in
  Z.land quadrant mask.

Definition addr6_set_bit (addr : in6_addr) (pos : Z) (value : bool) : in6_addr :=
  let i := Z.shiftr pos 5 in
  let quadrant := s6_addr32 addr i in
  let mask := u32 (Z.shiftl 1 (31 - Z.land pos 0x1F)) in
  if value then set_s6_addr32 addr i (Z.lor quadrant mask)
  else set_s6_addr32 addr i (Z.land quadrant (u32 (Z.lnot mask))).

(** The loop [for (i = prefix->len; i < 128; i++)], [n] iterations long. *)
Fixpoint suffix6_scan (addr : in6_addr) (i : Z) (n : nat) : result unit :=
  match n with
  | O => Ok tt
  | S n =>
      if negb (addr6_get_bit addr i =? 0) then Err EINVAL
      else suffix6_scan addr (i + 1) n
  end.

Definition prefix6_validate (prefix : option ipv6_prefix) : result unit :=
  match prefix with
  | None => Err EINVAL
  | Some prefix =>
      if 128 <? p6_len prefix then Err EINVAL
      else suffix6_scan (p6_address prefix) (p6_len prefix)
             (Z.to_nat (128 - p6_len prefix))
  end.

(** ** Enumerating the addresses of a prefix *)

Definition prefix4_next (prefix : ipv4_prefix) : Z :=
  u64 (prefix4_get_addr_count prefix + s_addr (p4_address prefix)).

(** [foreach_addr4]: a 64-bit cursor runs from the prefix's address to
    [prefix4_next], the address being its truncation to 32 bits. *)
Fixpoint foreach_addr4_from (cursor next : Z) (addr : in_addr) (n : nat) : list in_addr :=
  match n with
  | O => []
  | S n =>
      if cursor <? next then
        addr :: foreach_addr4_from (u64 (cursor + 1)) next
                  (InAddr (u32 (u64 (cursor + 1)))) n
      else []
  end.

Definition foreach_addr4 (prefix : ipv4_prefix) : list in_addr :=
  let next := prefix4_next prefix in
  let first := s_addr (p4_address prefix) in
  foreach_addr4_from first next (p4_address prefix) (Z.to_nat (next - first)).

(** ** Scopes *)

(** The address classes of [linux/in.h]. *)
Definition ipv4_is_zeronet (a : Z) : bool := Z.land a 0xff000000 =? 0x00000000.
Definition ipv4_is_loopback (a : Z) : bool := Z.land a 0xff000000 =? 0x7f000000.
Definition ipv4_is_linklocal_169 (a : Z) : bool := Z.land a 0xffff0000 =? 0xa9fe0000.
Definition ipv4_is_multicast (a : Z) : bool := Z.land a 0xf0000000 =? 0xe0000000.
Definition ipv4_is_lbcast (a : Z) : bool := a =? 0xffffffff.

Definition addr4_is_scope_subnet (addr : Z) : bool :=
  ipv4_is_zeronet addr || ipv4_is_loopback addr || ipv4_is_linklocal_169 addr
  || ipv4_is_multicast addr || ipv4_is_lbcast addr.

(** ** Equality lemmas *)

Lemma addr4_equals_iff a b : addr4_equals (Some a) (Some b) = true <-> a = b.
Proof. destruct a, b; simpl. rewrite Z.eqb_eq. split; [intros ->|intros [=]]; done. Qed.

Lemma addr6_equals_iff a b : addr6_equals (Some a) (Some b) = true <-> a = b.
Proof. destruct a, b; simpl. rewrite Z.eqb_eq. split; [intros ->|intros [=]]; done. Qed.

Lemma taddr4_equals_iff a b :
  ipv4_transport_addr_equals (Some a) (Some b) = true <-> a = b.
Proof.
  destruct a as [[x] p], b as [[y] q]; simpl.
  destruct (Z.eqb_spec x y); simpl; rewrite ?Z.eqb_eq; split; congruence.
Qed.

Lemma taddr6_equals_iff a b :
  ipv6_transport_addr_equals (Some a) (Some b) = true <-> a = b.
Proof.
  destruct a as [[x] p], b as [[y] q]; simpl.
  destruct (Z.eqb_spec x y); simpl; rewrite ?Z.eqb_eq; split; congruence.
Qed.

Lemma prefix6_equals_iff a b : prefix6_equals (Some a) (Some b) = true <-> a = b.
Proof.
  destruct a as [[x] p], b as [[y] q]; simpl.
  destruct (Z.eqb_spec x y); simpl; rewrite ?Z.eqb_eq; split; congruence.
Qed.

Lemma prefix4_equals_iff a b : prefix4_equals (Some a) (Some b) = true <-> a = b.
Proof.
  destruct a as [[x] p], b as [[y] q]; simpl.
  destruct (Z.eqb_spec x y); simpl; rewrite ?Z.eqb_eq; split; congruence.
Qed.

#[export] Hint Rewrite addr4_equals_iff addr6_equals_iff taddr4_equals_iff
  taddr6_equals_iff prefix6_equals_iff prefix4_equals_iff : jool.

(** ** Masks *)

Lemma testbit_mask4 p n :
  0 <= p4_len p <= 32 -> 0 <= n ->
  Z.testbit (get_prefix4_mask p) n = (32 - p4_len p <=? n) && (n <? 32).
Proof.
  intros. unfold get_prefix4_mask, u32, u64.
  change 0xffffffff with (Z.ones 32).
  destruct (Z.ltb_spec n 32).
  - rewrite Z.mod_pow2_bits_low, Z.mod_pow2_bits_low, Z.shiftl_spec by lia.
    destruct (Z.leb_spec (32 - p4_len p) n); simpl.
    + apply Z.ones_spec_low. lia.
    + apply Z.testbit_neg_r. lia.
  - rewrite andb_false_r. apply Z.mod_pow2_bits_high. lia.
Qed.

(** Membership in an IPv4 prefix is agreement on its leading bits. *)
Lemma prefix4_contains_bits p a :
  0 <= p4_len p <= 32 -> wf_addr4 (p4_address p) -> wf_addr4 a ->
  prefix4_contains p a = true <->
  forall n, 32 - p4_len p <= n < 32 ->
    Z.testbit (s_addr (p4_address p)) n = Z.testbit (s_addr a) n.
Proof.
  intros Hl Hp Ha. unfold prefix4_contains. rewrite Z.eqb_eq. split; intros H.
  - intros n Hn. apply (f_equal (fun x => Z.testbit x n)) in H.
    rewrite !Z.land_spec, testbit_mask4 in H by lia.
    destruct (Z.leb_spec (32 - p4_len p) n), (Z.ltb_spec n 32); try lia.
    rewrite !andb_true_r in H. done.
  - apply Z.bits_inj'. intros n Hn. rewrite !Z.land_spec, testbit_mask4 by lia.
    destruct (Z.leb_spec (32 - p4_len p) n), (Z.ltb_spec n 32); simpl;
      rewrite ?andb_false_r, ?andb_true_r; auto.
Qed.

Lemma prefix6_contains_bits p a :
  0 <= p6_len p <= 128 -> wf_addr6 (p6_address p) -> wf_addr6 a ->
  prefix6_contains p a = true <->
  forall n, 128 - p6_len p <= n < 128 ->
    Z.testbit (s6_addr (p6_address p)) n = Z.testbit (s6_addr a) n.
Proof.
  intros Hl Hp Ha. unfold prefix6_contains, ipv6_prefix_equal.
  rewrite Z.eqb_eq. split; intros H.
  - intros n Hn. apply (f_equal (fun x => Z.testbit x (n - (128 - p6_len p)))) in H.
    rewrite !Z.shiftr_spec in H by lia.
    replace (n - (128 - p6_len p) + (128 - p6_len p)) with n in H by lia. done.
  - apply Z.bits_inj'. intros n Hn. rewrite !Z.shiftr_spec by lia.
    destruct (Z.lt_ge_cases (n + (128 - p6_len p)) 128).
    + apply H. lia.
    + rewrite !(testbit_high _ 128); (done || lia).
Qed.

(** Two IPv4 prefixes intersect, as the code decides it, exactly when
    some address belongs to both. *)
Lemma prefix4_intersects_iff p1 p2
    (L1 : 0 <= p4_len p1 <= 32) (L2 : 0 <= p4_len p2 <= 32)
    (W1 : wf_addr4 (p4_address p1)) (W2 : wf_addr4 (p4_address p2)) :
  prefix4_intersects p1 p2 = true <->
  exists a, wf_addr4 a /\ prefix4_contains p1 a = true /\ prefix4_contains p2 a = true.
Proof.
  unfold prefix4_intersects. rewrite orb_true_iff. split.
  - intros [H|H]; [exists (p4_address p2) | exists (p4_address p1)];
      split_and!; try done; apply prefix4_contains_bits; auto.
  - intros (a & Wa & H1 & H2). rewrite prefix4_contains_bits in H1, H2 by done.
    rewrite !prefix4_contains_bits by done.
    destruct (Z.le_ge_cases (p4_len p1) (p4_len p2)); [left|right];
      intros n Hn; rewrite H1, H2 by lia; done.
Qed.

(** ** Validation *)

(** The host part of an address under a prefix length. *)
Definition suffix_clear (w x len : Z) : Prop := x mod 2 ^ (w - len) = 0.

Lemma suffix_clear_bits w x len :
  0 <= len <= w -> 0 <= x ->
  suffix_clear w x len <-> forall n, 0 <= n < w - len -> Z.testbit x n = false.
Proof.
  intros. unfold suffix_clear. split; intros Hx.
  - intros n Hn. apply (f_equal (fun y => Z.testbit y n)) in Hx.
    rewrite Z.mod_pow2_bits_low, Z.bits_0 in Hx by lia. done.
  - apply Z.bits_inj'. intros n Hn. rewrite Z.bits_0.
    destruct (Z.lt_ge_cases n (w - len)).
    + rewrite Z.mod_pow2_bits_low by lia. apply Hx. lia.
    + apply Z.mod_pow2_bits_high. lia.
Qed.

Lemma addr6_get_bit_testbit a pos :
  0 <= pos < 128 ->
  (addr6_get_bit a pos =? 0) = negb (Z.testbit (s6_addr a) (127 - pos)).
Proof.
  intros Hp. unfold addr6_get_bit, u32.
  assert (Hq : Z.shiftr pos 5 = pos / 32) by (rewrite Z.shiftr_div_pow2 by lia; done).
  assert (Hr : Z.land pos 0x1F = pos mod 32) by (apply (Z.land_ones pos 5); lia).
  pose proof (Z.mod_pos_bound pos 32) as Hb.
  pose proof (Z.div_mod pos 32) as Hd.
  rewrite Hq, Hr, Z.mod_small.
  2:{ rewrite Z.shiftl_1_l. split; [lia|]. apply Z.pow_lt_mono_r; lia. }
  assert (Hbit : Z.testbit (s6_addr32 a (pos / 32)) (31 - pos mod 32)
                 = Z.testbit (s6_addr a) (127 - pos)).
  { unfold s6_addr32. rewrite testbit_bits by lia.
    destruct (Z.ltb_spec (31 - pos mod 32) 32); [|lia]. simpl. f_equal. lia. }
  rewrite <- Hbit. clear Hbit.
  set (q := s6_addr32 a (pos / 32)). set (k := 31 - pos mod 32).
  apply eq_true_iff_eq. rewrite Z.eqb_eq, negb_true_iff. split; intros H.
  - apply (f_equal (fun y => Z.testbit y k)) in H.
    rewrite Z.land_spec, Z.shiftl_1_l, Z.pow2_bits_true, andb_true_r, Z.bits_0 in H by lia.
    done.
  - apply Z.bits_inj'. intros n Hn.
    rewrite Z.land_spec, Z.shiftl_1_l, Z.pow2_bits_eqb, Z.bits_0 by lia.
    destruct (Z.eqb_spec k n); [subst; rewrite H; done | apply andb_false_r].
Qed.

Lemma suffix6_scan_ok a n i :
  0 <= i -> i + Z.of_nat n <= 128 ->
  suffix6_scan a i n = Ok tt <->
  forall j, i <= j < i + Z.of_nat n -> Z.testbit (s6_addr a) (127 - j) = false.
Proof.
  revert i. induction n as [|n IH]; intros i Hi Hn; simpl.
  - split; [intros _ j; lia | done].
  - rewrite addr6_get_bit_testbit, negb_involutive by lia.
    destruct (Z.testbit (s6_addr a) (127 - i)) eqn:E.
    + split; [done|]. intros H. rewrite H in E by lia. done.
    + rewrite IH by lia. split; intros H j Hj.
      * destruct (Z.eq_dec j i); [subst; done | apply H; lia].
      * apply H. lia.
Qed.

Lemma suffix_mask4_clear p :
  0 <= p4_len p <= 32 ->
  Z.land (s_addr (p4_address p)) (u32 (Z.lnot (get_prefix4_mask p))) = 0 <->
  forall n, 0 <= n < 32 - p4_len p -> Z.testbit (s_addr (p4_address p)) n = false.
Proof.
  intros Hl. unfold u32. split; intros H.
  - intros n Hn. apply (f_equal (fun y => Z.testbit y n)) in H.
    rewrite Z.land_spec, Z.mod_pow2_bits_low, Z.lnot_spec, testbit_mask4, Z.bits_0 in H by lia.
    destruct (Z.leb_spec (32 - p4_len p) n); [lia|].
    simpl in H. rewrite andb_true_r in H. done.
  - apply Z.bits_inj'. intros n Hn. rewrite Z.land_spec, Z.bits_0.
    destruct (Z.lt_ge_cases n 32).
    + rewrite Z.mod_pow2_bits_low, Z.lnot_spec, testbit_mask4 by lia.
      destruct (Z.leb_spec (32 - p4_len p) n) as [?|?].
      * destruct (Z.ltb_spec n 32); [apply andb_false_r | lia].
      * rewrite H by lia. done.
    + rewrite Z.mod_pow2_bits_high by lia. apply andb_false_r.
Qed.

Lemma prefix4_validate_clear p :
  0 <= p4_len p -> wf_addr4 (p4_address p) ->
  prefix4_validate (Some p) = Ok tt <->
  p4_len p <= 32 /\ suffix_clear 32 (s_addr (p4_address p)) (p4_len p).
Proof.
  intros Hl [Hw Hw']. simpl. destruct (Z.ltb_spec 32 (p4_len p)); [split; [done|lia]|].
  rewrite suffix_clear_bits by lia.
  pose proof (suffix_mask4_clear p ltac:(lia)) as Hiff.
  destruct (Z.eqb_spec (Z.land (s_addr (p4_address p))
              (u32 (Z.lnot (get_prefix4_mask p)))) 0) as [E|E]; simpl.
  - split; [intros _; split; [lia|apply Hiff, E] | done].
  - split; [done|]. intros [_ HH]. destruct E. apply Hiff, HH.
Qed.

Lemma prefix6_validate_clear p :
  0 <= p6_len p -> wf_addr6 (p6_address p) ->
  prefix6_validate (Some p) = Ok tt <->
  p6_len p <= 128 /\ suffix_clear 128 (s6_addr (p6_address p)) (p6_len p).
Proof.
  intros Hl [Hw Hw']. simpl. destruct (Z.ltb_spec 128 (p6_len p)); [split; [done|lia]|].
  rewrite suffix_clear_bits, suffix6_scan_ok by lia.
  rewrite Z2Nat.id by lia. split; intros H'.
  - split; [lia|]. intros n Hn. replace n with (127 - (127 - n)) by lia. apply H'. lia.
  - intros j Hj. apply H'. lia.
Qed.

(** The prefix validators accept a prefix exactly when its length fits
    the family and every bit after the prefix is zero; they reject NULL. *)
Lemma prefix_validate_iff p4 p6
    (L4 : 0 <= p4_len p4) (L6 : 0 <= p6_len p6)
    (W4 : wf_addr4 (p4_address p4)) (W6 : wf_addr6 (p6_address p6)) :
  (prefix4_validate (Some p4) = Ok tt <->
     p4_len p4 <= 32 /\ suffix_clear 32 (s_addr (p4_address p4)) (p4_len p4)) /\
  (prefix6_validate (Some p6) = Ok tt <->
     p6_len p6 <= 128 /\ suffix_clear 128 (s6_addr (p6_address p6)) (p6_len p6)) /\
  prefix4_validate None = Err EINVAL /\ prefix6_validate None = Err EINVAL.
Proof.
  split_and!; [apply prefix4_validate_clear | apply prefix6_validate_clear | |]; done.
Qed.

(** ** Writing and reading bits *)

Lemma addr6_set_bit_testbit a pos v n :
  0 <= pos < 128 -> 0 <= n < 128 ->
  Z.testbit (s6_addr (addr6_set_bit a pos v)) n =
  if n =? 127 - pos then v else Z.testbit (s6_addr a) n.
Proof.
  intros Hp Hn. unfold addr6_set_bit, u32.
  rewrite Z.shiftr_div_pow2 by lia. change (2 ^ 5) with 32.
  replace (Z.land pos 0x1F) with (pos mod 32)
    by (symmetry; apply (Z.land_ones pos 5); lia).
  pose proof (Z.mod_pos_bound pos 32). pose proof (Z.div_mod pos 32).
  rewrite (Z.mod_small (Z.shiftl 1 (31 - pos mod 32))).
  2:{ rewrite Z.shiftl_1_l. split; [lia|]. apply Z.pow_lt_mono_r; lia. }
  set (k := 31 - pos mod 32). set (i := pos / 32) in *.
  destruct v; unfold set_s6_addr32; simpl; rewrite testbit_set_bits by lia;
    (destruct (Z.leb_spec (96 - 32 * i) n);
     [destruct (Z.ltb_spec n (96 - 32 * i + 32));
      [|destruct (Z.eqb_spec n (127 - pos)); [lia|done]]
     |destruct (Z.eqb_spec n (127 - pos)); [lia|done]]); simpl.
  - rewrite Z.lor_spec, Z.shiftl_1_l, Z.pow2_bits_eqb by lia.
    unfold s6_addr32. rewrite testbit_bits by lia.
    destruct (Z.ltb_spec (n - (96 - 32 * i)) 32); [|lia]. simpl.
    destruct (Z.eqb_spec k (n - (96 - 32 * i))), (Z.eqb_spec n (127 - pos)); try lia.
    rewrite orb_false_r. f_equal. lia.
  - rewrite Z.land_spec, Z.mod_pow2_bits_low, Z.lnot_spec, Z.shiftl_1_l, Z.pow2_bits_eqb by lia.
    unfold s6_addr32. rewrite testbit_bits by lia.
    destruct (Z.ltb_spec (n - (96 - 32 * i)) 32); [|lia]. simpl.
    destruct (Z.eqb_spec k (n - (96 - 32 * i))), (Z.eqb_spec n (127 - pos)); try lia.
    rewrite andb_true_r. f_equal. lia.
Qed.

(** Writing bit [pos] of an IPv6 address and reading bit [q] back gives
    the written value when [q = pos] and the old bit otherwise. *)
Lemma addr6_get_set_bit a pos q v
    (Hp : 0 <= pos < 128) (Hq : 0 <= q < 128) :
  negb (addr6_get_bit (addr6_set_bit a pos v) q =? 0) =
  if q =? pos then v else negb (addr6_get_bit a q =? 0).
Proof.
  rewrite !addr6_get_bit_testbit, !negb_involutive by lia.
  rewrite addr6_set_bit_testbit by lia.
  destruct (Z.eqb_spec (127 - q) (127 - pos)), (Z.eqb_spec q pos); (done || lia).
Qed.

(** ** Enumeration *)

Lemma StronglySorted_fmap_seqZ i n :
  StronglySorted (fun a b => s_addr a < s_addr b) (InAddr <$> seqZ i n).
Proof.
  destruct (Z.le_gt_cases n 0); [rewrite seqZ_nil by lia; constructor|].
  revert i. pattern n. apply Zlt_0_ind; [|lia]. clear n H.
  intros n IH _ i. destruct (Z.eq_dec n 0) as [->|Hn]; [constructor|].
  destruct (Z.le_gt_cases n 0); [rewrite seqZ_nil by lia; constructor|].
  rewrite seqZ_cons by lia. simpl. constructor.
  - apply IH. lia.
  - apply Forall_fmap, Forall_seqZ. intros j Hj. simpl. lia.
Qed.

Lemma foreach_addr4_from_spec n : forall cursor next,
  0 <= cursor < 2 ^ 32 -> next <= 2 ^ 32 ->
  n = Z.to_nat (next - cursor) ->
  foreach_addr4_from cursor next (InAddr cursor) n
  = InAddr <$> seqZ cursor (next - cursor).
Proof.
  induction n as [|n IH]; intros cursor next Hc Hn Hlen; simpl.
  - rewrite seqZ_nil by lia. done.
  - destruct (Z.ltb_spec cursor next); [|lia].
    rewrite seqZ_cons by lia. simpl. f_equal. unfold u64, u32.
    rewrite (Z.mod_small (cursor + 1) (2 ^ 64)) by lia.
    destruct (Z.eq_dec (cursor + 1) next) as [E|E].
    + replace n with O by lia. rewrite seqZ_nil by lia. done.
    + rewrite Z.mod_small by lia. rewrite IH by lia. do 2 f_equal; lia.
Qed.

Lemma prefix4_bounds p :
  0 <= p4_len p <= 32 -> wf_addr4 (p4_address p) ->
  suffix_clear 32 (s_addr (p4_address p)) (p4_len p) ->
  prefix4_get_addr_count p = 2 ^ (32 - p4_len p) /\
  prefix4_next p = s_addr (p4_address p) + 2 ^ (32 - p4_len p) /\
  s_addr (p4_address p) + 2 ^ (32 - p4_len p) <= 2 ^ 32.
Proof.
  intros Hl [Hw Hw'] Hs. unfold prefix4_next, prefix4_get_addr_count, u64.
  rewrite Z.shiftl_1_l.
  assert (Hk : 0 < 2 ^ (32 - p4_len p) <= 2 ^ 32).
  { split; [apply Z.pow_pos_nonneg; lia | apply Z.pow_le_mono_r; lia]. }
  unfold suffix_clear in Hs.
  assert (Hd : s_addr (p4_address p) + 2 ^ (32 - p4_len p) <= 2 ^ 32).
  { apply Z.mod_divide in Hs as [q Hq]; [|lia].
    assert (Hsplit : 2 ^ 32 = 2 ^ p4_len p * 2 ^ (32 - p4_len p)).
    { rewrite <- Z.pow_add_r by lia. f_equal. lia. }
    rewrite Hsplit in Hw' |- *. rewrite Hq in Hw' |- *. clear Hsplit.
    apply Z.mul_lt_mono_pos_r in Hw'; [|lia]. nia. }
  rewrite (Z.mod_small (2 ^ (32 - p4_len p))) by lia.
  rewrite Z.mod_small by lia. split_and!; lia.
Qed.

Lemma prefix4_contains_interval p a :
  0 <= p4_len p <= 32 -> wf_addr4 (p4_address p) -> wf_addr4 a ->
  suffix_clear 32 (s_addr (p4_address p)) (p4_len p) ->
  prefix4_contains p a = true <->
  s_addr (p4_address p) <= s_addr a < s_addr (p4_address p) + 2 ^ (32 - p4_len p).
Proof.
  intros Hl Hp Ha Hs. rewrite prefix4_contains_bits by done.
  destruct Hp as [Hp Hp'], Ha as [Ha Ha'].
  set (x := s_addr (p4_address p)) in *. set (y := s_addr a) in *.
  set (k := 32 - p4_len p) in *. unfold suffix_clear in Hs. fold k in Hs.
  assert (0 < 2 ^ k) by (apply Z.pow_pos_nonneg; lia).
  assert (Hdiv : (forall n, k <= n < 32 -> Z.testbit x n = Z.testbit y n) <->
                 x / 2 ^ k = y / 2 ^ k).
  { rewrite <- !Z.shiftr_div_pow2 by lia. split; intros H'.
    - apply Z.bits_inj'. intros n Hn. rewrite !Z.shiftr_spec by lia.
      destruct (Z.lt_ge_cases (n + k) 32); [apply H'; lia|].
      rewrite !(testbit_high _ 32); (done || lia).
    - intros n Hn. apply (f_equal (fun z => Z.testbit z (n - k))) in H'.
      rewrite !Z.shiftr_spec in H' by lia. replace (n - k + k) with n in H' by lia. done. }
  rewrite Hdiv. pose proof (Z.div_mod x (2 ^ k)). pose proof (Z.div_mod y (2 ^ k)).
  pose proof (Z.mod_pos_bound y (2 ^ k)). split; intros HH.
  - rewrite HH in *. lia.
  - apply (Z.div_unique _ _ _ (y - x)); lia.
Qed.

Lemma prefix6_contains_interval p a :
  0 <= p6_len p <= 128 -> suffix_clear 128 (s6_addr (p6_address p)) (p6_len p) ->
  prefix6_contains p a = true <->
  s6_addr (p6_address p) <= s6_addr a < s6_addr (p6_address p) + 2 ^ (128 - p6_len p).
Proof.
  intros Hl Hs. unfold prefix6_contains, ipv6_prefix_equal. rewrite Z.eqb_eq, !Z.shiftr_div_pow2 by lia.
  set (x := s6_addr (p6_address p)) in *. set (y := s6_addr a).
  set (k := 128 - p6_len p) in *. unfold suffix_clear in Hs. fold k in Hs.
  assert (0 < 2 ^ k) by (apply Z.pow_pos_nonneg; lia).
  pose proof (Z.div_mod x (2 ^ k)). pose proof (Z.div_mod y (2 ^ k)).
  pose proof (Z.mod_pos_bound y (2 ^ k)). split; intros HH.
  - rewrite HH in *. lia.
  - apply (Z.div_unique _ _ _ (y - x)); lia.
Qed.

Lemma foreach_addr4_list p :
  0 <= p4_len p -> wf_addr4 (p4_address p) -> prefix4_validate (Some p) = Ok tt ->
  foreach_addr4 p = InAddr <$> seqZ (s_addr (p4_address p)) (2 ^ (32 - p4_len p)).
Proof.
  intros Hl Hw Hv. apply prefix4_validate_clear in Hv as [Hl' Hs]; [|done..].
  destruct (prefix4_bounds p) as (Hcnt & Hnext & Hmax); [lia|done..|].
  unfold foreach_addr4. rewrite Hnext. destruct (p4_address p) as [x]; simpl in *.
  destruct Hw as [Hw Hw']. simpl in *. rewrite foreach_addr4_from_spec by lia.
  do 2 f_equal. lia.
Qed.

Lemma foreach_addr4_members p :
  0 <= p4_len p -> wf_addr4 (p4_address p) -> prefix4_validate (Some p) = Ok tt ->
  (forall a, wf_addr4 a -> (a ∈ foreach_addr4 p <-> prefix4_contains p a = true)) /\
  Z.of_nat (length (foreach_addr4 p)) = 2 ^ (32 - p4_len p).
Proof.
  intros Hl Hw Hv. rewrite foreach_addr4_list by done.
  apply prefix4_validate_clear in Hv as [Hl' Hs]; [|done..]. split.
  - intros a Ha. rewrite prefix4_contains_interval by (done || lia).
    rewrite list_elem_of_fmap. split.
    + intros (x & -> & Hx%elem_of_seqZ). done.
    + intros Hx. exists (s_addr a). split; [destruct a; done|]. apply elem_of_seqZ. done.
  - rewrite length_fmap, length_seqZ, Z2Nat.id; [done|]. apply Z.pow_nonneg. lia.
Qed.

(** Iterating a validated IPv4 prefix with [foreach_addr4] visits every
    address the prefix contains, each exactly once and in increasing order,
    up to and including 255.255.255.255; the number of visits is
    [prefix4_get_addr_count]. *)
Lemma foreach_addr4_exact p
    (Hl : 0 <= p4_len p) (Hw : wf_addr4 (p4_address p))
    (Hv : prefix4_validate (Some p) = Ok tt) :
  (forall a, wf_addr4 a -> (a ∈ foreach_addr4 p <-> prefix4_contains p a = true)) /\
  NoDup (foreach_addr4 p) /\
  StronglySorted (fun a b => s_addr a < s_addr b) (foreach_addr4 p) /\
  Z.of_nat (length (foreach_addr4 p)) = prefix4_get_addr_count p.
Proof.
  destruct (foreach_addr4_members p Hl Hw Hv) as [Hmem Hlen].
  pose proof (foreach_addr4_list p Hl Hw Hv) as Hlist.
  apply prefix4_validate_clear in Hv as [Hl' Hs]; [|done..].
  destruct (prefix4_bounds p) as (Hcnt & _); [lia|done..|].
  split_and!; [done | | | congruence]; rewrite Hlist.
  - apply NoDup_fmap_2; [|apply NoDup_seqZ]. intros ?? [=]. done.
  - apply StronglySorted_fmap_seqZ.
Qed.

(** ** Parsing lemmas *)

(** What the kernel's [pton] functions document: parsing stops at the first
    delimiter or at the end of the string, and reports where it stopped. *)
Definition pton_stops {A} (pton : string -> option ascii -> option (A * string)) : Prop :=
  forall str c a rest, pton str (Some c) = Some (a, rest) ->
  exists pre, str = String.append pre rest /\ strchr pre c = false /\
    (rest = EmptyString \/ exists tl, rest = String.String c tl).

Lemma strchr_append s1 s2 c :
  strchr (String.append s1 s2) c = strchr s1 c || strchr s2 c.
Proof. induction s1 as [|c' s1 IH]; simpl; [done|]. rewrite IH. apply orb_assoc. Qed.

(** [prefix6_parse] reads past the end of its argument exactly when the
    string is an address with no slash, while [prefix4_parse], which looks
    for the slash first, never does. *)
Lemma prefix_parse_overread in6_pton in4_pton kstrtou8 str
    (H6 : pton_stops in6_pton) (H4 : pton_stops in4_pton) :
  (prefix6_parse in6_pton kstrtou8 str = None <->
     is_Some (in6_pton str (Some slash)) /\ strchr str slash = false) /\
  prefix4_parse in4_pton kstrtou8 str <> None.
Proof.
  split.
  - unfold prefix6_parse. destruct (in6_pton str (Some slash)) as [[a rest]|] eqn:E.
    + destruct (H6 _ _ _ _ E) as (pre & -> & Hpre & Hrest).
      rewrite strchr_append, Hpre. simpl.
      destruct Hrest as [->|[tl ->]]; simpl; [split; eauto|].
      destruct (kstrtou8 tl); (split; [done | intros [_ ?]; done]).
    + split; [done|]. intros [[? [=]] _].
  - unfold prefix4_parse. destruct (strchr str slash) eqn:Es.
    + destruct (in4_pton str (Some slash)) as [[a rest]|] eqn:E; [|done].
      destruct (H4 _ _ _ _ E) as (pre & -> & Hpre & Hrest).
      rewrite strchr_append, Hpre in Es. simpl in Es.
      destruct rest as [|c tl]; [done|]. simpl. destruct (kstrtou8 tl); done.
    + destruct (in4_pton str None) as [[a rest]|]; done.
Qed.

(** A parser with the documented stopping behaviour. *)
Fixpoint stop_at (c : ascii) (s : string) : string :=
  match s with
  | EmptyString => EmptyString
  | String.String c' tl => if Ascii.eqb c c' then s else stop_at c tl
  end.

Lemma stop_at_stops {A} (a : A) :
  pton_stops (fun s c => match c with Some c => Some (a, stop_at c s) | None => None end).
Proof.
  intros str c a' rest [= <- <-]. induction str as [|c' tl IH]; simpl.
  - exists EmptyString. auto.
  - destruct (Ascii.eqb_spec c c') as [->|Hne].
    + exists EmptyString. simpl. eauto.
    + destruct IH as (pre & Heq & Hpre & Hr). exists (String.String c' pre).
      split_and!; [exact (f_equal (String.String c') Heq) | | exact Hr].
      simpl. rewrite Hpre. apply Ascii.eqb_neq in Hne. rewrite Hne. done.
Qed.

(** ** Transport addresses as numbers *)

(** The number the bytes of a transport address spell. *)
Definition taddr4_key (a : ipv4_transport_addr) : Z := s_addr (l3_4 a) * 2 ^ 16 + l4_4 a.
Definition taddr6_key (a : ipv6_transport_addr) : Z := s6_addr (l3_6 a) * 2 ^ 16 + l4_6 a.

Lemma taddr4_key_sgn a b :
  wf_taddr4 a -> wf_taddr4 b ->
  Z.sgn (lex_gap (ipv4_addr_cmp (l3_4 a) (l3_4 b)) (l4_4 a - l4_4 b))
  = Z.sgn (taddr4_key a - taddr4_key b).
Proof.
  intros [_ Ha] [_ Hb]. unfold taddr4_key. apply lex_gap_sgn; try done.
  unfold ipv4_addr_cmp. apply Z.sgn_sgn.
Qed.

Lemma taddr6_key_sgn a b :
  wf_taddr6 a -> wf_taddr6 b ->
  Z.sgn (lex_gap (ipv6_addr_cmp (l3_6 a) (l3_6 b)) (l4_6 a - l4_6 b))
  = Z.sgn (taddr6_key a - taddr6_key b).
Proof.
  intros [_ Ha] [_ Hb]. unfold taddr6_key. apply lex_gap_sgn; try done.
  unfold ipv6_addr_cmp. apply Z.sgn_sgn.
Qed.

Lemma taddr4_key_inj a b :
  wf_taddr4 a -> wf_taddr4 b -> taddr4_key a = taddr4_key b -> a = b.
Proof.
  destruct a as [[x] p], b as [[y] q]. unfold wf_taddr4, is_u16, taddr4_key. simpl.
  intros [_ Ha] [_ Hb] H. assert (x = y /\ p = q) as [-> ->] by lia. done.
Qed.

Lemma taddr6_key_inj a b :
  wf_taddr6 a -> wf_taddr6 b -> taddr6_key a = taddr6_key b -> a = b.
Proof.
  destruct a as [[x] p], b as [[y] q]. unfold wf_taddr6, is_u16, taddr6_key. simpl.
  intros [_ Ha] [_ Hb] H. assert (x = y /\ p = q) as [-> ->] by lia. done.
Qed.
