(* ===== verification/Rfc6052.v ===== *)
(** * RFC 6052 address translation

    [mod/common/rfc6052.c]: embedding an IPv4 address in an IPv6 prefix
    ([addr_4to6]) and extracting it ([addr_6to4]).  [rfc6052_6to4] and
    [rfc6052_4to6], which take the prefix from the pool, are in [Pool6.v]. *)
From S2P Require Import Prelude Types Address.

(** [union ipv4_address]: the byte view of an IPv4 address. *)
Definition as8 (a : Z) (i : Z) : Z := bits a (24 - 8 * i) 8.

Definition of_as8 (b0 b1 b2 b3 : Z) : Z :=
  set_bits (set_bits (set_bits (set_bits 0 24 8 b0) 16 8 b1) 8 8 b2) 0 8 b3.

Definition addr_6to4 (src : in6_addr) (prefix : ipv6_prefix) : result in_addr :=
  let byte := s6_addr8 src in
  match p6_len prefix with
  | 32 => Ok (InAddr (s6_addr32 src 1))
  | 40 => Ok (InAddr (of_as8 (byte 5) (byte 6) (byte 7) (byte 9)))
  | 48 => Ok (InAddr (of_as8 (byte 6) (byte 7) (byte 9) (byte 10)))
  | 56 => Ok (InAddr (of_as8 (byte 7) (byte 9) (byte 10) (byte 11)))
  | 64 => Ok (InAddr (of_as8 (byte 9) (byte 10) (byte 11) (byte 12)))
  | 96 => Ok (InAddr (s6_addr32 src 3))
  | _ => Err EINVAL
  end.

(** The assignments of [addr_4to6], as updates of the zeroed destination. *)
Definition copy32 (prefix : ipv6_prefix) (i : Z) (dst : in6_addr) : in6_addr :=
  set_s6_addr32 dst i (s6_addr32 (p6_address prefix) i).
Definition copy8 (prefix : ipv6_prefix) (i : Z) (dst : in6_addr) : in6_addr :=
  set_s6_addr8 dst i (s6_addr8 (p6_address prefix) i).
Definition put8 (src : in_addr) (i j : Z) (dst : in6_addr) : in6_addr :=
  set_s6_addr8 dst i (as8 (s_addr src) j).
Definition put32 (src : in_addr) (i : Z) (dst : in6_addr) : in6_addr :=
  set_s6_addr32 dst i (s_addr src).

Definition addr_4to6 (src : in_addr) (prefix : ipv6_prefix) : result in6_addr :=
  let dst := In6Addr 0 in
  match p6_len prefix with
  | 32 => Ok (put32 src 1 (copy32 prefix 0 dst))
  | 40 => Ok (put8 src 9 3 (put8 src 7 2 (put8 src 6 1 (put8 src 5 0
               (copy8 prefix 4 (copy32 prefix 0 dst))))))
  | 48 => Ok (put8 src 10 3 (put8 src 9 2 (put8 src 7 1 (put8 src 6 0
               (copy8 prefix 5 (copy8 prefix 4 (copy32 prefix 0 dst)))))))
  | 56 => Ok (put8 src 11 3 (put8 src 10 2 (put8 src 9 1 (put8 src 7 0
               (copy8 prefix 6 (copy8 prefix 5 (copy8 prefix 4 (copy32 prefix 0 dst))))))))
  | 64 => Ok (put8 src 12 3 (put8 src 11 2 (put8 src 10 1 (put8 src 9 0
               (copy32 prefix 1 (copy32 prefix 0 dst))))))
  | 96 => Ok (put32 src 3 (copy32 prefix 2 (copy32 prefix 1 (copy32 prefix 0 dst))))
  | _ => Err EINVAL
  end.

(** The prefix lengths RFC 6052 allows. *)
Definition rfc6052_len (len : Z) : bool :=
  (len =? 32) || (len =? 40) || (len =? 48) || (len =? 56) || (len =? 64) || (len =? 96).

Lemma rfc6052_len_cases len (P : Z -> Prop) :
  P 32 -> P 40 -> P 48 -> P 56 -> P 64 -> P 96 -> rfc6052_len len = true -> P len.
Proof.
  unfold rfc6052_len. rewrite !orb_true_iff, !Z.eqb_eq.
  intros ?????? [[[[[->| ->]| ->]| ->]| ->]| ->]; done.
Qed.

(** ** Lemmas *)

(** Every field access on an address under construction. *)
Ltac field_solve :=
  unfold put32, put8, copy32, copy8, set_s6_addr32, set_s6_addr8, s6_addr32,
    s6_addr8, as8; simpl;
  repeat first
    [ rewrite bits_set_bits_same by lia
    | rewrite bits_set_bits_other by lia
    | rewrite bits_set_bits_inside by lia
    | rewrite bits_bits by lia ];
  simpl.

Lemma of_as8_as8 a : 0 <= a < 2 ^ 32 ->
  of_as8 (as8 a 0) (as8 a 1) (as8 a 2) (as8 a 3) = a.
Proof.
  intros Ha. apply (bits_ext 32); [|done|].
  - unfold of_as8. repeat (apply (set_bits_range 32); [lia..|]). lia.
  - intros n Hn. unfold of_as8, as8. rewrite !testbit_set_bits, Z.bits_0 by lia.
    repeat case_match; try lia; rewrite testbit_bits by lia; match goal with
      |- (?x <? ?y) && _ = _ => destruct (Z.ltb_spec x y); [simpl; f_equal; lia | lia] end.
Qed.

Lemma addr_4to6_extract a p :
  wf_addr4 a -> rfc6052_len (p6_len p) = true ->
  exists a6, addr_4to6 a p = Ok a6 /\ addr_6to4 a6 p = Ok a.
Proof.
  intros Ha. destruct p as [pa len], a as [x]. unfold addr_4to6, addr_6to4. simpl.
  assert (Hx : bits x 0 32 = x) by (apply bits_id; [lia|done]).
  intros Hlen. pattern len. revert len Hlen.
  intros len. apply rfc6052_len_cases; eexists; (split; [reflexivity|]); do 2 f_equal;
    field_solve; first [exact Hx | apply (of_as8_as8 x Ha)].
Qed.

(** For each prefix length RFC 6052 allows, embedding an IPv4 address in
    a prefix and extracting it gives the address back; any other length is
    rejected by both functions. *)
Lemma addr_4to6_6to4 a p (Ha : wf_addr4 a) :
  (rfc6052_len (p6_len p) = true ->
     exists a6, addr_4to6 a p = Ok a6 /\ addr_6to4 a6 p = Ok a) /\
  (rfc6052_len (p6_len p) = false ->
     addr_4to6 a p = Err EINVAL /\ forall a6, addr_6to4 a6 p = Err EINVAL).
Proof.
  split; [apply addr_4to6_extract; done|].
  intros Hlen. destruct p as [pa len]. simpl in *.
  unfold rfc6052_len in Hlen. bool_to_prop.
  unfold addr_4to6, addr_6to4. simpl.
  split; [|intros a6]; repeat case_match; congruence.
Qed.

(** The first bit position after the embedded IPv4 address. *)
Definition embedded_end (len : Z) : Z :=
  if len =? 32 then 64 else if len =? 96 then 128 else len + 40.

(** An address that can have been built by RFC 6052: the reserved octet and
    the suffix are zero. *)
Definition rfc6052_canonical (len : Z) (a : in6_addr) : Prop :=
  (len <> 96 -> s6_addr8 a 8 = 0) /\ suffix_clear 128 (s6_addr a) (embedded_end len).

(** Bit [n] of an address under construction, by cases on the field [n]
    falls in. *)
Ltac bit_solve :=
  repeat case_match; try lia;
  rewrite ?testbit_bits by lia;
  repeat match goal with
    |- context [?x <? ?y] => destruct (Z.ltb_spec x y); [|lia] end;
  simpl; rewrite ?testbit_bits by lia;
  repeat match goal with
    |- context [?x <? ?y] => destruct (Z.ltb_spec x y); [|lia] end; simpl.

Lemma addr_4to6_range a p a6 :
  wf_addr4 a -> addr_4to6 a p = Ok a6 -> wf_addr6 a6.
Proof.
  intros Ha. destruct p as [pa len]. unfold addr_4to6. simpl.
  repeat case_match; intros [= <-]; unfold wf_addr6, put32, put8, copy32, copy8,
    set_s6_addr32, set_s6_addr8; simpl;
    repeat (apply (set_bits_range 128); [lia..|]); lia.
Qed.

Lemma addr_4to6_prefix_bits a p a6 n :
  addr_4to6 a p = Ok a6 -> 128 - p6_len p <= n < 128 ->
  Z.testbit (s6_addr a6) n = Z.testbit (s6_addr (p6_address p)) n.
Proof.
  destruct p as [pa len]. unfold addr_4to6. simpl.
  repeat case_match; intros [= <-] Hn;
    unfold put32, put8, copy32, copy8, set_s6_addr32, set_s6_addr8, s6_addr32, s6_addr8; simpl;
    rewrite !testbit_set_bits by lia; bit_solve; f_equal; lia.
Qed.

Lemma addr_4to6_contained a p a6 :
  wf_addr4 a -> wf_addr6 (p6_address p) -> addr_4to6 a p = Ok a6 ->
  prefix6_contains p a6 = true.
Proof.
  intros Ha Hp H. pose proof (addr_4to6_range _ _ _ Ha H) as Hr.
  assert (0 <= p6_len p <= 128).
  { destruct p as [pa len]. unfold addr_4to6 in H. simpl in *. repeat case_match; lia || done. }
  apply prefix6_contains_bits; [done..|]. intros n Hn. symmetry.
  eapply addr_4to6_prefix_bits; done.
Qed.

Lemma addr_6to4_total a6 p :
  rfc6052_len (p6_len p) = true -> exists a, addr_6to4 a6 p = Ok a.
Proof.
  destruct p as [pa len]. unfold addr_6to4. simpl. intros Hlen. pattern len.
  apply rfc6052_len_cases; [..|exact Hlen]; eauto.
Qed.

Lemma as8_of_as8 b0 b1 b2 b3 :
  as8 (of_as8 b0 b1 b2 b3) 0 = bits b0 0 8 /\ as8 (of_as8 b0 b1 b2 b3) 1 = bits b1 0 8 /\
  as8 (of_as8 b0 b1 b2 b3) 2 = bits b2 0 8 /\ as8 (of_as8 b0 b1 b2 b3) 3 = bits b3 0 8.
Proof. unfold of_as8. split_and!; field_solve; done. Qed.

Lemma canonical_bits len a n :
  rfc6052_len len = true -> wf_addr6 a -> rfc6052_canonical len a ->
  (len <> 96 /\ 56 <= n < 64) \/ 0 <= n < 128 - embedded_end len ->
  Z.testbit (s6_addr a) n = false.
Proof.
  intros Hlen Ha [Hu Hs] [[Hne Hn]|Hn].
  - specialize (Hu Hne). apply (f_equal (fun x => Z.testbit x (n - 56))) in Hu.
    unfold s6_addr8 in Hu. rewrite testbit_bits, Z.bits_0 in Hu by lia.
    destruct (Z.ltb_spec (n - 56) 8); [|lia]. simpl in Hu.
    rewrite <- Hu. f_equal. lia.
  - revert Hs. rewrite suffix_clear_bits; [auto| |destruct Ha; lia].
    apply (rfc6052_len_cases len (fun l => 0 <= embedded_end l <= 128));
      [unfold embedded_end; simpl; lia..|done].
Qed.

Lemma addr_6to4_reembed a6 p :
  wf_addr6 a6 -> wf_addr6 (p6_address p) -> rfc6052_len (p6_len p) = true ->
  prefix6_contains p a6 = true -> rfc6052_canonical (p6_len p) a6 ->
  exists a, addr_6to4 a6 p = Ok a /\ addr_4to6 a p = Ok a6.
Proof.
  intros Hw Hp Hlen Hin Hcan.
  pose proof (fun n => canonical_bits _ _ n Hlen Hw Hcan) as Hz.
  assert (Hb : forall n, 128 - p6_len p <= n < 128 ->
    Z.testbit (s6_addr (p6_address p)) n = Z.testbit (s6_addr a6) n).
  { apply prefix6_contains_bits; try done.
    apply (rfc6052_len_cases (p6_len p) (fun l => 0 <= l <= 128)); lia || done. }
  destruct p as [pa len], a6 as [x]. simpl in *.
  clear Hcan Hin. revert Hlen Hz Hb. unfold embedded_end.
  unfold addr_6to4, addr_4to6; simpl. intros Hlen. pattern len.
  apply rfc6052_len_cases; [..|exact Hlen]; simpl; intros Hz Hb; eexists; (split; [reflexivity|]); f_equal;
    unfold put32, put8, copy32, copy8; simpl;
    rewrite ?(proj1 (as8_of_as8 _ _ _ _)), ?(proj1 (proj2 (as8_of_as8 _ _ _ _))),
      ?(proj1 (proj2 (proj2 (as8_of_as8 _ _ _ _)))), ?(proj2 (proj2 (proj2 (as8_of_as8 _ _ _ _))));
    unfold set_s6_addr32, set_s6_addr8, s6_addr32, s6_addr8; simpl;
    f_equal; (apply (bits_ext 128); [repeat (apply (set_bits_range 128); [lia..|]); lia | exact Hw |]);
    intros n Hn; rewrite !testbit_set_bits by lia; bit_solve;
    rewrite ?Z.bits_0; first [rewrite <- Hb by lia; f_equal; lia | f_equal; lia | symmetry; apply Hz; lia].
Qed.

(** C36: an address of the prefix whose reserved octet and suffix are zero is
    recovered from the IPv4 address extracted from it; and the address
    [addr_4to6] builds always belongs to its prefix. *)
Theorem addr_6to4_4to6 a6 p
    (Hw : wf_addr6 a6) (Hp : wf_addr6 (p6_address p))
    (Hlen : rfc6052_len (p6_len p) = true)
    (Hin : prefix6_contains p a6 = true)
    (Hcan : rfc6052_canonical (p6_len p) a6) :
  (exists a, addr_6to4 a6 p = Ok a /\ addr_4to6 a p = Ok a6) /\
  (forall a b6, wf_addr4 a -> addr_4to6 a p = Ok b6 -> prefix6_contains p b6 = true).
Proof.
  split; [apply addr_6to4_reembed; done | intros; eapply addr_4to6_contained; done].
Qed.

Lemma addr_6to4_4to6_witness :
  exists a, addr_6to4 (In6Addr (Z.shiftl 0x64ff9b 96 + 0xc0000221))
              (Prefix6 (In6Addr (Z.shiftl 0x64ff9b 96)) 96) = Ok a /\
            addr_4to6 a (Prefix6 (In6Addr (Z.shiftl 0x64ff9b 96)) 96)
            = Ok (In6Addr (Z.shiftl 0x64ff9b 96 + 0xc0000221)).
Proof.
  apply (addr_6to4_4to6 (In6Addr (Z.shiftl 0x64ff9b 96 + 0xc0000221))
              (Prefix6 (In6Addr (Z.shiftl 0x64ff9b 96)) 96));
    try (vm_compute; split; congruence); try reflexivity.
Defined.
