(* ===== verification/Pool6.v ===== *)
(** * The IPv6 pool

    [mod/common/pool6.c]: the list of RFC 6052 prefixes of the translator,
    and the two functions of [mod/common/rfc6052.c] that choose the prefix
    from it.  The state is the global pointer [pool]: [None] before
    [pool6_init] and after [pool6_destroy], otherwise the linked list in
    order.  Using the pool while the pointer is NULL is a kernel fault.
    Whether an allocation succeeds is an argument of the operation. *)
From Stdlib Require Import String.
From S2P Require Import Prelude Types Address Rfc6052.

Definition pool6_state : Type := option (list ipv6_prefix).

(** [rcu_dereference] of the pool, and the list behind it. *)
Definition deref_pool : M pool6_state (list ipv6_prefix) := fun s =>
  match s with Some l => Some (l, s) | None => None end.

(** The loop [for (i = start; i < 16; i++)] of [verify_prefix]. *)
Fixpoint verify_bytes (prefix : ipv6_prefix) (i : Z) (n : nat) : result unit :=
  match n with
  | O => Ok tt
  | S n =>
      if negb (Z.land (s6_addr8 (p6_address prefix) i) 0xFF =? 0) then Err EINVAL
      else verify_bytes prefix (i + 1) n
  end.

Definition verify_prefix (start : Z) (prefix : ipv6_prefix) : result unit :=
  verify_bytes prefix start (Z.to_nat (16 - start)).

Definition validate_prefix (prefix : ipv6_prefix) : result unit :=
  match p6_len prefix with
  | 32 => verify_prefix 4 prefix
  | 40 => verify_prefix 5 prefix
  | 48 => verify_prefix 6 prefix
  | 56 => verify_prefix 7 prefix
  | 64 => verify_prefix 8 prefix
  | 96 => verify_prefix 12 prefix
  | _ => Err EINVAL
  end.

(** The first prefix of the list an address belongs to. *)
Fixpoint pool6_find (l : list ipv6_prefix) (addr : in6_addr) : result ipv6_prefix :=
  match l with
  | [] => Err ESRCH
  | p :: l =>
      if ipv6_prefix_equal (p6_address p) addr (p6_len p) then Ok p
      else pool6_find l addr
  end.

Definition pool6_get (addr : option in6_addr) : M pool6_state (result ipv6_prefix) :=
  match addr with
  | None => mret (Err EINVAL)
  | Some addr =>
      l ← deref_pool;
      match l with
      | [] => mret (Err ESRCH)
      | _ => mret (pool6_find l addr)
      end
  end.

Definition pool6_peek : M pool6_state (result ipv6_prefix) :=
  l ← deref_pool;
  match l with
  | [] => mret (Err ESRCH)
  | p :: _ => mret (Ok p)
  end.

Definition pool6_contains (addr : option in6_addr) : M pool6_state bool :=
  r ← pool6_get addr; mret (is_ok r).

Section Add.
(** [xlat_is_siit()] of the module that is built. *)
Variable siit : bool.

Definition pool6_add (kmalloc_ok : bool) (prefix : ipv6_prefix)
    : M pool6_state (result unit) :=
  match validate_prefix prefix with
  | Err e => mret (Err e)
  | Ok _ =>
      l ← deref_pool;
      if siit && negb (match l with [] => true | _ => false end) then mret (Err EINVAL)
      else if existsb (fun p => prefix6_equals (Some p) (Some prefix)) l
      then mret (Err EEXIST)
      else if negb kmalloc_ok then mret (Err ENOMEM)
      else put (Some (l ++ [prefix]));; mret (Ok tt)
  end.

(** [list_for_each] up to the first equal entry, which is unlinked. *)
Fixpoint unlink (prefix : ipv6_prefix) (l : list ipv6_prefix)
    : option (list ipv6_prefix) :=
  match l with
  | [] => None
  | p :: l =>
      if prefix6_equals (Some p) (Some prefix) then Some l
      else match unlink prefix l with Some l' => Some (p :: l') | None => None end
  end.

Definition pool6_remove (prefix : ipv6_prefix) : M pool6_state (result unit) :=
  l ← deref_pool;
  match unlink prefix l with
  | Some l' => put (Some l');; mret (Ok tt)
  | None => mret (Err ESRCH)
  end.

(** The old list is walked and freed, so a NULL old pool faults. *)
Definition pool6_replace (new : pool6_state) : M pool6_state unit :=
  _ ← deref_pool; put new.

Definition pool6_destroy : M pool6_state unit := pool6_replace None.

Definition pool6_flush (kmalloc_ok : bool) : M pool6_state (result unit) :=
  if negb kmalloc_ok then mret (Err ENOMEM)
  else pool6_replace (Some []);; mret (Ok tt).

(** [pool6_init]: the strings the module was loaded with, each with the
    outcome of the allocation its [pool6_add] makes. *)
Variable prefix6_parse : string -> option (result ipv6_prefix).

Fixpoint pool6_init_loop (strs : list (string * bool)) : M pool6_state (result unit) :=
  match strs with
  | [] => mret (Ok tt)
  | (str, kmalloc_ok) :: strs =>
      match prefix6_parse str with
      | None => fault
      | Some (Err e) => pool6_destroy;; mret (Err e)
      | Some (Ok prefix) =>
          r ← pool6_add kmalloc_ok prefix;
          match r with
          | Err e => pool6_destroy;; mret (Err e)
          | Ok _ => pool6_init_loop strs
          end
      end
  end.

Definition pool6_init (kmalloc_ok : bool) (strs : list (string * bool))
    : M pool6_state (result unit) :=
  if negb kmalloc_ok then mret (Err ENOMEM)
  else put (Some []);; pool6_init_loop strs.

End Add.

(** [pool6_for_each]: [func] threads the state behind [arg] and returns an
    [int]; non-zero stops the loop. *)
Section ForEach.
Context {B : Type} (func : ipv6_prefix -> B -> Z * B).

Fixpoint pool6_loop (l : list ipv6_prefix) (offset : option ipv6_prefix)
    (error : Z) (arg : B) : option ipv6_prefix * Z * B :=
  match l with
  | [] => (offset, error, arg)
  | p :: l =>
      match offset with
      | None =>
          let '(error, arg) := func p arg in
          if negb (error =? 0) then (None, error, arg) else pool6_loop l None error arg
      | Some _ =>
          if prefix6_equals offset (Some p) then pool6_loop l None error arg
          else pool6_loop l offset error arg
      end
  end.

Definition pool6_for_each (arg : B) (offset : option ipv6_prefix)
    : M pool6_state (Z * B) :=
  l ← deref_pool;
  let '(offset', error, arg') := pool6_loop l offset 0 arg in
  mret (match offset' with Some _ => - errno_code ESRCH | None => error end, arg').

End ForEach.

(** [unsigned int count], stored in a [__u64]. *)
Definition pool6_count : M pool6_state Z :=
  l ← deref_pool; mret (foldl (fun count _ => u32 (count + 1)) 0 l).

Definition pool6_is_empty : M pool6_state bool :=
  l ← deref_pool; mret (match l with [] => true | _ => false end).

(** ** mod/common/rfc6052.c with the pool *)

Definition rfc6052_6to4 (addr6 : in6_addr) : M pool6_state (result in_addr) :=
  r ← pool6_get (Some addr6);
  match r with
  | Err e => mret (Err e)
  | Ok prefix => mret (addr_6to4 addr6 prefix)
  end.

Definition rfc6052_4to6 (addr4 : in_addr) : M pool6_state (result in6_addr) :=
  r ← pool6_peek;
  match r with
  | Err e => mret (Err e)
  | Ok prefix => mret (addr_4to6 addr4 prefix)
  end.

(** ** The invariant *)

Definition pool6_prefix_ok (p : ipv6_prefix) : Prop :=
  rfc6052_len (p6_len p) = true /\ wf_addr6 (p6_address p) /\
  suffix_clear 128 (s6_addr (p6_address p)) (p6_len p).

Definition pool6_inv (siit : bool) (s : pool6_state) : Prop :=
  match s with
  | None => True
  | Some l => Forall pool6_prefix_ok l /\ NoDup l /\ (siit = true -> (length l <= 1)%nat)
  end.

(** ** Validation *)

Lemma verify_bytes_ok p n i :
  0 <= i -> i + Z.of_nat n <= 16 -> wf_addr6 (p6_address p) ->
  verify_bytes p i n = Ok tt <->
  forall m, 128 - 8 * (i + Z.of_nat n) <= m < 128 - 8 * i ->
    Z.testbit (s6_addr (p6_address p)) m = false.
Proof.
  intros Hi Hn Hw. revert i Hi Hn. induction n as [|n IH]; intros i Hi Hn; simpl.
  - split; [intros _ m; lia | done].
  - assert (Hb : Z.land (s6_addr8 (p6_address p) i) 255 = s6_addr8 (p6_address p) i).
    { unfold s6_addr8. pose proof (bits_range (s6_addr (p6_address p)) (120 - 8 * i) 8).
      change 255 with (Z.ones 8). rewrite Z.land_ones by lia. apply Z.mod_small. lia. }
    rewrite Hb. clear Hb.
    assert (Hz : s6_addr8 (p6_address p) i = 0 <->
      forall m, 120 - 8 * i <= m < 128 - 8 * i -> Z.testbit (s6_addr (p6_address p)) m = false).
    { unfold s6_addr8. split; intros H.
      - intros m Hm. apply (f_equal (fun y => Z.testbit y (m - (120 - 8 * i)))) in H.
        rewrite testbit_bits, Z.bits_0 in H by lia.
        destruct (Z.ltb_spec (m - (120 - 8 * i)) 8); [|lia]. rewrite <- H. simpl. f_equal. lia.
      - apply (bits_ext 8); [apply bits_range; lia | lia |]. intros m Hm.
        rewrite testbit_bits, Z.bits_0, H by lia. apply andb_false_r. }
    destruct (Z.eqb_spec (s6_addr8 (p6_address p) i) 0) as [E|E]; simpl.
    + rewrite IH by lia. rewrite Hz in E. split; intros H m Hm.
      * destruct (Z.lt_ge_cases m (120 - 8 * i)); [apply H; lia | apply E; lia].
      * apply H. lia.
    + split; [done|]. intros H. destruct E. apply Hz. intros m Hm. apply H. lia.
Qed.

Lemma validate_prefix_ok p :
  wf_addr6 (p6_address p) -> validate_prefix p = Ok tt <-> pool6_prefix_ok p.
Proof.
  intros Hw. unfold pool6_prefix_ok. destruct (rfc6052_len (p6_len p)) eqn:Hlen.
  - assert (Hv : forall start, 0 <= start <= 16 -> p6_len p = 8 * start ->
      verify_prefix start p = Ok tt <-> suffix_clear 128 (s6_addr (p6_address p)) (p6_len p)).
    { intros start Hs Heq. unfold verify_prefix.
      rewrite suffix_clear_bits, verify_bytes_ok by (lia || done || (destruct Hw; lia)).
      rewrite Z2Nat.id by lia. split; intros H m Hm; apply H; lia. }
    enough (validate_prefix p = Ok tt <->
            suffix_clear 128 (s6_addr (p6_address p)) (p6_len p)) by tauto.
    destruct p as [pa len]; simpl in *. unfold validate_prefix; simpl.
    revert Hv. pattern len.
    apply rfc6052_len_cases; [..|exact Hlen]; intros Hv; apply Hv; lia.
  - unfold rfc6052_len in Hlen. bool_to_prop. unfold validate_prefix.
    split; [|intros [[=] _]]. repeat case_match; congruence.
Qed.

Lemma validate_prefix_err p e : validate_prefix p = Err e -> e = EINVAL.
Proof.
  assert (Hv : forall n i, verify_bytes p i n = Err e -> e = EINVAL).
  { induction n as [|n IH]; simpl; intros i H; [done|]. case_match; [congruence|eauto]. }
  unfold validate_prefix, verify_prefix. repeat case_match; eauto; congruence.
Qed.

(** ** Lookup *)

Lemma pool6_find_spec l a :
  match pool6_find l a with
  | Ok p => exists l1 l2, l = l1 ++ p :: l2 /\ prefix6_contains p a = true /\
              Forall (fun q => prefix6_contains q a = false) l1
  | Err e => e = ESRCH /\ Forall (fun q => prefix6_contains q a = false) l
  end.
Proof.
  induction l as [|p l IH]; simpl; [auto|].
  fold (prefix6_contains p a). destruct (prefix6_contains p a) eqn:E.
  - exists [], l. auto.
  - destruct (pool6_find l a) as [q|e].
    + destruct IH as (l1 & l2 & -> & ? & ?). exists (p :: l1), l2. auto.
    + destruct IH. auto.
Qed.

Lemma pool6_contains_iff l a :
  pool6_contains (Some a) (Some l) = Some (true, Some l) <->
  exists p, p ∈ l /\ prefix6_contains p a = true.
Proof.
  unfold pool6_contains, pool6_get. destruct l as [|p0 l]; simpl.
  { split; [done|]. intros (p & Hp & _). inversion Hp. }
  cbv [mbind M_bind deref_pool mret M_ret].
  pose proof (pool6_find_spec (p0 :: l) a) as H.
  destruct (pool6_find (p0 :: l) a) as [q|e]; simpl in *.
  - split; [intros _|done]. destruct H as (l1 & l2 & -> & H1 & _).
    exists q. split; [set_solver|done].
  - split; [done|]. intros (p & Hp & Hc). destruct H as [_ H].
    rewrite Forall_forall in H. apply H in Hp. congruence.
Qed.

Lemma unlink_spec p l :
  match unlink p l with
  | Some l' => exists l1 l2, l = l1 ++ p :: l2 /\ l' = l1 ++ l2 /\ p ∉ l1
  | None => p ∉ l
  end.
Proof.
  induction l as [|q l IH]; cbn [unlink]; [set_solver|].
  destruct (prefix6_equals (Some q) (Some p)) eqn:E.
  - apply prefix6_equals_iff in E as ->. exists [], l. set_solver.
  - assert (q <> p) by (intros ->; rewrite (proj2 (prefix6_equals_iff p p)) in E; done).
    destruct (unlink p l) as [l'|].
    + destruct IH as (l1 & l2 & -> & -> & ?). exists (q :: l1), l2. set_solver.
    + set_solver.
Qed.

Lemma existsb_prefix_iff p l :
  existsb (fun q => prefix6_equals (Some q) (Some p)) l = true <-> p ∈ l.
Proof.
  rewrite existsb_exists. split.
  - intros (q & Hq & E). apply prefix6_equals_iff in E as ->. apply list_elem_of_In. done.
  - intros H. exists p. split; [apply list_elem_of_In; done | apply prefix6_equals_iff; done].
Qed.

(** The outcome of [pool6_add], branch by branch. *)
Lemma pool6_add_run siit ok p l :
  wf_addr6 (p6_address p) ->
  exists r s', pool6_add siit ok p (Some l) = Some (r, s') /\
  match r with
  | Ok _ => s' = Some (l ++ [p]) /\ pool6_prefix_ok p /\ (p ∉ l) /\ ok = true /\
            (siit = true -> l = [])
  | Err e => s' = Some l /\
      ((e = EINVAL /\ ((~ pool6_prefix_ok p) \/ (siit = true /\ l <> []))) \/
       (e = EEXIST /\ p ∈ l) \/ (e = ENOMEM /\ ok = false))
  end.
Proof.
  intros Hw. unfold pool6_add. destruct (validate_prefix p) as [[]|e] eqn:V.
  2:{ eexists _, _. split; [reflexivity|]. split; [done|]. left.
      split; [eapply validate_prefix_err; done|]. left. intros Hok.
      apply validate_prefix_ok in Hok; congruence. }
  apply validate_prefix_ok in V; [|done].
  cbv [mbind M_bind deref_pool mret M_ret put].
  destruct (siit && negb match l with [] => true | _ => false end) eqn:E1.
  { eexists _, _. split; [reflexivity|]. split; [done|]. left. split; [done|]. right.
    destruct siit, l; done. }
  destruct (existsb _ l) eqn:E2.
  { apply existsb_prefix_iff in E2. eexists _, _. split; [reflexivity|].
    split; [done|]. right; left. done. }
  destruct ok; simpl.
  - eexists _, _. split; [reflexivity|]. split_and!; try done.
    + rewrite <- existsb_prefix_iff, E2. done.
    + intros ->. destruct l; done.
  - eexists _, _. split; [reflexivity|]. split; [done|]. right; right. done.
Qed.

Lemma pool6_add_inv siit ok p l r s' :
  wf_addr6 (p6_address p) -> pool6_inv siit (Some l) ->
  pool6_add siit ok p (Some l) = Some (r, s') -> pool6_inv siit s' /\ is_Some s'.
Proof.
  intros Hw (Hf & Hn & Hl) H.
  destruct (pool6_add_run siit ok p l Hw) as (r' & s'' & H' & Hr).
  rewrite H in H'. injection H' as <- <-. destruct r as [[]|e].
  - destruct Hr as (-> & Hok & Hni & _ & Hs). split; [|eauto]. split_and!.
    + apply Forall_app; auto.
    + apply NoDup_app. split_and!; [done | set_solver | apply NoDup_singleton].
    + intros E. rewrite (Hs E). simpl. lia.
  - destruct Hr as [-> _]. split; [|eauto]. split_and!; done.
Qed.

(** ** Reachable states *)

(** One request of the administrator, whatever its outcome. *)
Inductive pool6_step (siit : bool) : pool6_state -> pool6_state -> Prop :=
| step_add ok p s r s' :
    wf_addr6 (p6_address p) ->
    pool6_add siit ok p s = Some (r, s') -> pool6_step siit s s'
| step_remove p s r s' :
    pool6_remove p s = Some (r, s') -> pool6_step siit s s'
| step_flush ok s r s' :
    pool6_flush ok s = Some (r, s') -> pool6_step siit s s'.

Lemma pool6_remove_inv siit p l r s' :
  pool6_inv siit (Some l) -> pool6_remove p (Some l) = Some (r, s') ->
  pool6_inv siit s' /\ is_Some s'.
Proof.
  intros (Hf & Hn & Hl). unfold pool6_remove. cbv [mbind M_bind deref_pool mret M_ret put].
  pose proof (unlink_spec p l) as Hu. destruct (unlink p l) as [l'|]; intros [= <- <-].
  - destruct Hu as (l1 & l2 & -> & -> & _). split; [|eauto].
    rewrite Forall_app, Forall_cons in Hf. apply NoDup_app in Hn as (Hn1 & Hd & Hn2).
    apply NoDup_cons in Hn2 as [? Hn2]. rewrite length_app in Hl. simpl in Hl. split_and!.
    + apply Forall_app. tauto.
    + apply NoDup_app. split_and!; [done | | done]. intros x Hx Hx2.
      apply (Hd x Hx). right. done.
    + intros E. rewrite length_app. specialize (Hl E). lia.
  - split; [|eauto]. split_and!; done.
Qed.

Lemma pool6_step_inv siit s s' :
  pool6_step siit s s' -> pool6_inv siit s -> is_Some s -> pool6_inv siit s' /\ is_Some s'.
Proof.
  intros Hs Hi [l ->]. inversion Hs as [ok p ? r ? Hw H|p ? r ? H|ok ? r ? H]; subst.
  - eapply pool6_add_inv; eassumption.
  - eapply pool6_remove_inv; eassumption.
  - unfold pool6_flush in H. destruct ok; simpl in H.
    + injection H as <- <-. split; [|eauto]. split_and!; simpl; [constructor..|lia].
    + injection H as <- <-. eauto.
Qed.

Lemma pool6_init_loop_inv siit parse strs : forall l r s',
  (forall str p, parse str = Some (Ok p) -> wf_addr6 (p6_address p)) ->
  pool6_inv siit (Some l) ->
  pool6_init_loop siit parse strs (Some l) = Some (r, s') ->
  pool6_inv siit s' /\ (r = Ok tt <-> is_Some s').
Proof.
  induction strs as [|[str ok] strs IH]; intros l r s' Hp Hi; cbn [pool6_init_loop].
  - intros [= <- <-]. split; [done|]. split; eauto.
  - destruct (parse str) as [[p|e]|] eqn:Ep; [|intros [= <- <-]; split; [done|]|done].
    + unfold mbind at 1, M_bind at 1. destruct (pool6_add siit ok p (Some l)) as [[r1 s1]|] eqn:Ea;
        [|done].
      pose proof (pool6_add_inv _ _ _ _ _ _ (Hp _ _ Ep) Hi Ea) as [Hi1 [l1 ->]].
      destruct r1 as [[]|e]; [eauto|]. intros [= <- <-]. split; [done|].
      split; [done|]. intros [? [=]].
    + split; [done|]. intros [? [=]].
Qed.

(** Whatever requests the pool serves after it has been initialised, it
    stays allocated and holds only prefixes of an RFC 6052 length with a zero
    suffix, without repetition, and at most one of them in SIIT. *)
Lemma pool6_reachable_inv siit parse ok strs s0 s
    (Hp : forall str p, parse str = Some (Ok p) -> wf_addr6 (p6_address p))
    (H0 : pool6_init siit parse ok strs None = Some (Ok tt, s0))
    (Hr : rtc (pool6_step siit) s0 s) :
  pool6_inv siit s /\ is_Some s.
Proof.
  assert (Hs0 : pool6_inv siit s0 /\ is_Some s0).
  { unfold pool6_init in H0. destruct ok; [|done]. simpl in H0.
    apply pool6_init_loop_inv in H0; [|done|split_and!; simpl; [constructor..|lia]].
    destruct H0 as [? H]. split; [done|]. apply H. done. }
  clear H0. induction Hr as [s|s1 s2 s3 H12 _ IH]; [done|].
  apply IH. destruct Hs0. eapply pool6_step_inv; eassumption.
Qed.

Definition wkp : ipv6_prefix := Prefix6 (In6Addr (Z.shiftl 0x64ff9b 96)) 96.

Lemma wkp_wf : wf_addr6 (p6_address wkp).
Proof. vm_compute. split; congruence. Qed.

Lemma pool6_remove_filter p l :
  NoDup l -> p ∈ l ->
  pool6_remove p (Some l) = Some (Ok tt, Some (filter (fun q => q <> p) l)).
Proof.
  intros Hn Hin. unfold pool6_remove. cbv [mbind M_bind deref_pool mret M_ret put].
  pose proof (unlink_spec p l) as Hu. destruct (unlink p l) as [l'|]; [|done].
  destruct Hu as (l1 & l2 & -> & -> & Hni). do 3 f_equal.
  apply NoDup_app in Hn as (_ & _ & Hn). apply NoDup_cons in Hn as [Hni2 _].
  rewrite filter_app, filter_cons_False by auto.
  assert (Hall : forall l0 : list ipv6_prefix, p ∉ l0 -> filter (fun q => q <> p) l0 = l0).
  { intros l0 H0. apply list_filter_all. intros q Hq ->. done. }
  rewrite !Hall by done. done.
Qed.

Lemma pool6_remove_absent_suffix p l :
  p ∉ l -> pool6_remove p (Some (l ++ [p])) = Some (Ok tt, Some l).
Proof.
  intros Hni. unfold pool6_remove. cbv [mbind M_bind deref_pool mret M_ret put].
  enough (unlink p (l ++ [p]) = Some l) as -> by done.
  induction l as [|q l IH].
  - cbn [app unlink]. rewrite (proj2 (prefix6_equals_iff p p) eq_refl). done.
  - cbn [app unlink]. destruct (prefix6_equals (Some q) (Some p)) eqn:E.
    + apply prefix6_equals_iff in E. set_solver.
    + rewrite IH by set_solver. done.
Qed.

(** Adding a prefix makes exactly its addresses translatable on top of
    the old ones, and removing one leaves the others and their order as they
    were, an absent prefix being reported. *)
Lemma pool6_add_remove siit ok p l
    (Hw : wf_addr6 (p6_address p)) (Hi : pool6_inv siit (Some l)) :
  (forall s', pool6_add siit ok p (Some l) = Some (Ok tt, s') ->
     (forall a, pool6_contains (Some a) s' = Some (true, s') <->
        pool6_contains (Some a) (Some l) = Some (true, Some l)
        \/ prefix6_contains p a = true) /\
     pool6_remove p s' = Some (Ok tt, Some l)) /\
  (p ∈ l -> exists l', pool6_remove p (Some l) = Some (Ok tt, Some l') /\
     l' = filter (fun q => q <> p) l) /\
  (p ∉ l -> pool6_remove p (Some l) = Some (Err ESRCH, Some l)).
Proof.
  destruct Hi as (Hf & Hn & _). split_and!.
  - intros s' H. destruct (pool6_add_run siit ok p l Hw) as (r & s'' & H' & Hr).
    rewrite H in H'. injection H' as <- <-. destruct Hr as (-> & _ & Hni & _). split.
    + intros a. rewrite !pool6_contains_iff. set_solver.
    + rewrite pool6_remove_absent_suffix by done. done.
  - intros Hin. rewrite pool6_remove_filter by done. eauto.
  - intros Hni. unfold pool6_remove. cbv [mbind M_bind deref_pool mret M_ret put].
    pose proof (unlink_spec p l) as Hu. destruct (unlink p l) as [l'|]; [|done].
    destruct Hu as (l1 & l2 & -> & _). set_solver.
Qed.

(** ** Translation through the pool *)

(** With a non-empty pool every IPv4 address is translated to IPv6 and
    translated back to itself, and an IPv6 address is refused, with [ESRCH],
    exactly when no prefix of the pool contains it. *)
Lemma rfc6052_pool_roundtrip siit l a
    (Hi : pool6_inv siit (Some l)) (Hne : l <> []) (Ha : wf_addr4 a) :
  (exists a6, rfc6052_4to6 a (Some l) = Some (Ok a6, Some l) /\
              rfc6052_6to4 a6 (Some l) = Some (Ok a, Some l)) /\
  (forall a6, exists r, rfc6052_6to4 a6 (Some l) = Some (r, Some l) /\
     (r = Err ESRCH <-> Forall (fun p => prefix6_contains p a6 = false) l) /\
     (forall e, r = Err e -> e = ESRCH)).
Proof.
  destruct Hi as (Hf & _ & _). split.
  - destruct l as [|p l]; [done|]. apply Forall_cons in Hf as [(Hlen & Hw & _) Hf].
    destruct (addr_4to6_extract a p Ha Hlen) as (a6 & H46 & H64).
    exists a6. unfold rfc6052_4to6, rfc6052_6to4, pool6_get, pool6_peek.
    cbv [mbind M_bind deref_pool mret M_ret]. rewrite H46. split; [done|].
    cbn [pool6_find]. fold (prefix6_contains p a6).
    rewrite (addr_4to6_contained a p a6 Ha Hw H46), H64. done.
  - intros a6. unfold rfc6052_6to4, pool6_get. destruct l as [|p0 l0]; [done|].
    set (l := p0 :: l0) in *. cbv [mbind M_bind deref_pool mret M_ret].
    pose proof (pool6_find_spec l a6) as Hs. unfold l at 1. fold l.
    destruct (pool6_find l a6) as [p|e].
    + destruct Hs as (l1 & l2 & E & Hc & _). rewrite E in Hf.
      apply Forall_app in Hf as [_ Hf]. apply Forall_cons in Hf as [(Hlen & _ & _) _].
      destruct (addr_6to4_total a6 p Hlen) as [x Hx]. rewrite Hx.
      eexists. split; [reflexivity|]. split; [|done]. split; [done|].
      rewrite E, Forall_app, Forall_cons. intros (_ & ? & _). congruence.
    + destruct Hs as [-> Hs]. eexists. split; [reflexivity|]. split; [done|]. congruence.
Qed.

(** ** Iteration *)

(** The entries after the first occurrence of [offset]. *)
Fixpoint after_offset (offset : ipv6_prefix) (l : list ipv6_prefix)
    : option (list ipv6_prefix) :=
  match l with
  | [] => None
  | p :: l => if decide (offset = p) then Some l else after_offset offset l
  end.

Lemma pool6_loop_collect l : forall acc,
  pool6_loop (fun p acc => (0, acc ++ [p])) l None 0 acc = (None, 0, acc ++ l).
Proof.
  induction l as [|p l IH]; intros acc; simpl; [rewrite app_nil_r; done|].
  rewrite IH, <- app_assoc. done.
Qed.

Lemma pool6_loop_offset {B} (f : ipv6_prefix -> B -> Z * B) o l acc :
  pool6_loop f l (Some o) 0 acc =
  match after_offset o l with
  | Some l' => pool6_loop f l' None 0 acc
  | None => (Some o, 0, acc)
  end.
Proof.
  induction l as [|p l IH]; [done|]. cbn [pool6_loop after_offset].
  destruct (decide (o = p)) as [->|Hne].
  - rewrite (proj2 (prefix6_equals_iff p p) eq_refl). done.
  - destruct (prefix6_equals (Some o) (Some p)) eqn:E; [|done].
    apply prefix6_equals_iff in E. done.
Qed.

(** [pool6_for_each] visits the prefixes in the order they are stored,
    all of them without an offset and those after the offset otherwise; an
    offset that is not in the pool is reported as [-ESRCH] with no visit. *)
Lemma pool6_for_each_visits l offset :
  pool6_for_each (fun p acc => (0, acc ++ [p])) [] offset (Some l) =
  match offset with
  | None => Some (0, l, Some l)
  | Some o =>
      match after_offset o l with
      | Some l' => Some (0, l', Some l)
      | None => Some (- errno_code ESRCH, [], Some l)
      end
  end.
Proof.
  unfold pool6_for_each. cbv [mbind M_bind deref_pool mret M_ret].
  destruct offset as [o|].
  - rewrite pool6_loop_offset. destruct (after_offset o l); [|done].
    rewrite pool6_loop_collect. done.
  - rewrite pool6_loop_collect. done.
Qed.
