(* ===== verification/Pool4Table.v ===== *)
(** * pool4 tables

    [mod/stateful/pool4/table.c] and [mod/stateful/pool4/entry.c]: the
    transport addresses NAT64 may mask IPv6 nodes with, grouped by mark and
    protocol, stored as a list of addresses with a list of port ranges each.

    A function that allocates takes and returns the stream of allocation
    outcomes ([allocs]).  [rm_range] walks the list it appends to, so it has
    fuel; [None] means that the fuel ran out.  Its outcome also says whether
    it read a row that it had freed. *)
From S2P Require Import Prelude Types Address.

Record pool4_addr : Type := Pool4Addr {
  pa_addr : in_addr;
  pa_ports : list port_range
}.

Record pool4_table : Type := Pool4Table {
  pt_mark : Z;
  pt_proto : Z;
  pt_rows : list pool4_addr
}.

Definition with_rows (t : pool4_table) (rows : list pool4_addr) : pool4_table :=
  Pool4Table (pt_mark t) (pt_proto t) rows.

Definition UINT_MAX : Z := 2 ^ 32 - 1.

Definition pool4table_create (al : allocs) (mark proto : Z)
    : option pool4_table * allocs :=
  let '(ok, al) := kmalloc al in
  (if ok then Some (Pool4Table mark proto []) else None, al).

Definition pool4_ports_create (al : allocs) (min max : Z) : option port_range * allocs :=
  let '(ok, al) := kmalloc al in
  (if ok then Some (PortRange (u16 min) (u16 max)) else None, al).

Definition count_row (result : Z) (addr : pool4_addr) : Z :=
  foldl (fun result ports => u32 (result + port_range_count ports)) result (pa_ports addr).

Definition count_ports (table : pool4_table) : Z :=
  foldl count_row 0 (pt_rows table).

(** ** Adding *)

Definition fuse (first second : port_range) : port_range :=
  PortRange (Z.min (r_min first) (r_min second)) (Z.max (r_max first) (r_max second)).

(** The loop of [try_fusion]: what stays in the list, and [fusion]. *)
Fixpoint fusion_loop (range : port_range) (ports : list port_range)
    (fusion : option port_range) : list port_range * option port_range :=
  match ports with
  | [] => ([], fusion)
  | p :: ports =>
      if negb (port_range_touches p range) then
        let '(kept, fusion) := fusion_loop range ports fusion in (p :: kept, fusion)
      else
        match fusion with
        | Some f => fusion_loop range ports (Some (fuse p f))
        | None => fusion_loop range ports (Some (fuse p range))
        end
  end.

(** [Some ports']: fusion happened and the list is now [ports']. *)
Definition try_fusion (ports : list port_range) (range : port_range)
    : option (list port_range) :=
  match fusion_loop range ports None with
  | (kept, Some fusion) => Some (kept ++ [fusion])
  | (_, None) => None
  end.

Definition add_ports (al : allocs) (ports : list port_range) (range : port_range)
    : result (list port_range) * allocs :=
  match try_fusion ports range with
  | Some ports' => (Ok ports', al)
  | None =>
      let '(ok, al) := kmalloc al in
      if negb ok then (Err ENOMEM, al) else (Ok (ports ++ [range]), al)
  end.

(** The search of [add_sample] over the rows: [None] when no row has the
    address. *)
Fixpoint add_to_row (al : allocs) (rows : list pool4_addr) (addr : in_addr)
    (range : port_range) : option (result (list pool4_addr) * allocs) :=
  match rows with
  | [] => None
  | row :: rows =>
      if addr4_equals (Some (pa_addr row)) (Some addr) then
        match add_ports al (pa_ports row) range with
        | (Ok ports, al) => Some (Ok (Pool4Addr (pa_addr row) ports :: rows), al)
        | (Err e, al) => Some (Err e, al)
        end
      else
        match add_to_row al rows addr range with
        | Some (Ok rows', al) => Some (Ok (row :: rows'), al)
        | r => r
        end
  end.

Definition add_sample (al : allocs) (rows : list pool4_addr) (addr : in_addr)
    (range : port_range) : result (list pool4_addr) * allocs :=
  if addr4_is_scope_subnet (s_addr addr) then (Err EINVAL, al)
  else
    match add_to_row al rows addr range with
    | Some r => r
    | None =>
        let '(ok, al) := kmalloc al in
        if negb ok then (Err ENOMEM, al)
        else
          match add_ports al [] range with
          | (Err e, al) => (Err e, al)
          | (Ok ports, al) => (Ok (rows ++ [Pool4Addr addr ports]), al)
          end
    end.

(** [__u64] arithmetic; note that the count is that of [ports] as given. *)
Definition validate_overflow (table : pool4_table) (prefix : ipv4_prefix)
    (ports : port_range) : result unit :=
  let num_ports := u64 (prefix4_get_addr_count prefix * port_range_count ports) in
  if num_ports >? UINT_MAX then Err E2BIG
  else
    let num_ports := u64 (num_ports + count_ports table) in
    if num_ports >? UINT_MAX then Err E2BIG else Ok tt.

(** The range that is stored: ordered, and without port 0 for TCP and UDP. *)
Definition sanitize_range (proto : Z) (ports : port_range) : port_range :=
  let range :=
    if r_min ports >? r_max ports then PortRange (r_max ports) (r_min ports) else ports in
  if (proto =? L4PROTO_TCP) || (proto =? L4PROTO_UDP) then
    if r_min range =? 0 then PortRange 1 (r_max range) else range
  else range.

(** The [foreach_addr4] loop: it stops at the first error, and what was added
    before it stays. *)
Fixpoint add_samples (al : allocs) (rows : list pool4_addr) (addrs : list in_addr)
    (range : port_range) : result unit * list pool4_addr * allocs :=
  match addrs with
  | [] => (Ok tt, rows, al)
  | addr :: addrs =>
      match add_sample al rows addr range with
      | (Err e, al) => (Err e, rows, al)
      | (Ok rows, al) => add_samples al rows addrs range
      end
  end.

Definition pool4table_add (al : allocs) (table : pool4_table) (prefix : ipv4_prefix)
    (ports : port_range) : result unit * pool4_table * allocs :=
  let range := sanitize_range (pt_proto table) ports in
  match validate_overflow table prefix ports with
  | Err e => (Err e, table, al)
  | Ok _ =>
      let '(r, rows, al) := add_samples al (pt_rows table) (foreach_addr4 prefix) range in
      (r, with_rows table rows, al)
  end.

(** ** Removing *)

(** What one [rm_range] returns: its status, the list of ranges, whether the
    row was unlinked and freed because it became empty, whether the head of
    the list of a freed row was read, and the allocations left. *)
Record rm_outcome : Type := RmOutcome {
  rm_status : result unit;
  rm_ports : list port_range;
  rm_unlinked : bool;
  rm_stale_read : bool;
  rm_allocs : allocs
}.

(** [list_for_each_entry_safe]: [todo] starts at the current node; what the
    body appends at the tail is visited too, unless the current node was the
    last one, in which case the saved next pointer is the list's head and the
    loop ends.  The step of the loop that finds this out loads the [next] of
    the saved pointer, so when the last range of a row was removed, and the row
    freed with it, it reads [addr->ports.next] of the freed row; the value is
    not used, since the comparison that follows ends the loop. *)
Fixpoint rm_range_loop (fuel : nat) (rm : port_range) (al : allocs)
    (visited todo : list port_range) : option rm_outcome :=
  match todo with
  | [] => Some (RmOutcome (Ok tt) visited false false al)
  | p :: rest =>
      match fuel with
      | O => None
      | S fuel =>
          let continue_with (al : allocs) (new : list port_range) :=
            match rest with
            | [] => Some (RmOutcome (Ok tt) (visited ++ new) false false al)
            | _ => rm_range_loop fuel rm al visited (rest ++ new)
            end in
          if (r_min rm <=? r_min p) && (r_max p <=? r_max rm) then
            match visited, rest with
            | [], [] => Some (RmOutcome (Ok tt) [] true true al)
            | _, _ => rm_range_loop fuel rm al visited rest
            end
          else if (r_min p <? r_min rm) && (r_max rm <? r_max p) then
            match pool4_ports_create al (r_min p) (r_min rm - 1) with
            | (None, al) => Some (RmOutcome (Err ENOMEM) (visited ++ todo) false false al)
            | (Some new1, al) =>
                match pool4_ports_create al (r_max rm + 1) (r_max p) with
                | (None, al) => Some (RmOutcome (Err ENOMEM) (visited ++ todo) false false al)
                | (Some new2, al) => continue_with al [new1; new2]
                end
            end
          else if (r_max rm <? r_min p) || (r_min rm >? r_max p) then
            rm_range_loop fuel rm al (visited ++ [p]) rest
          else if r_min p <? r_min rm then
            continue_with al [PortRange (r_min p) (u16 (r_min rm - 1))]
          else if r_max rm <? r_max p then
            continue_with al [PortRange (u16 (r_max rm + 1)) (r_max p)]
          else rm_range_loop fuel rm al (visited ++ [p]) rest
      end
  end.

(** Three visits per range are enough for a removal with [min <= max]
    ([rm_range_loop_total]). *)
Definition rm_range (al : allocs) (ports : list port_range) (rm : port_range)
    : option rm_outcome :=
  rm_range_loop (3 * length ports) rm al [] ports.

Fixpoint rm_sample (al : allocs) (rows : list pool4_addr) (addr : in_addr)
    (rm : port_range) : option (result unit * list pool4_addr * allocs) :=
  match rows with
  | [] => Some (Ok tt, [], al)
  | row :: rows =>
      if addr4_equals (Some (pa_addr row)) (Some addr) then
        match rm_range al (pa_ports row) rm with
        | None => None
        | Some o =>
            Some (rm_status o,
                  if rm_unlinked o then rows
                  else Pool4Addr (pa_addr row) (rm_ports o) :: rows,
                  rm_allocs o)
        end
      else
        match rm_sample al rows addr rm with
        | Some (r, rows', al) => Some (r, row :: rows', al)
        | None => None
        end
  end.

Fixpoint rm_samples (al : allocs) (rows : list pool4_addr) (addrs : list in_addr)
    (rm : port_range) : option (result unit * list pool4_addr * allocs) :=
  match addrs with
  | [] => Some (Ok tt, rows, al)
  | addr :: addrs =>
      match rm_sample al rows addr rm with
      | None => None
      | Some (Err e, rows, al) => Some (Err e, rows, al)
      | Some (Ok _, rows, al) => rm_samples al rows addrs rm
      end
  end.

Definition pool4table_rm (al : allocs) (table : pool4_table) (prefix : ipv4_prefix)
    (ports : port_range) : option (result unit * pool4_table * allocs) :=
  match rm_samples al (pt_rows table) (foreach_addr4 prefix) ports with
  | Some (r, rows, al) => Some (r, with_rows table rows, al)
  | None => None
  end.

(** ** Reading *)

Definition pool4table_contains (table : pool4_table) (taddr : ipv4_transport_addr) : bool :=
  existsb (fun row =>
    addr4_equals (Some (pa_addr row)) (Some (l3_4 taddr)) &&
    existsb (fun range => port_range_contains range (l4_4 taddr)) (pa_ports row))
  (pt_rows table).

Definition pool4table_is_empty (table : pool4_table) : bool :=
  match pt_rows table with [] => true | _ => false end.

Definition pool4table_count (table : pool4_table) (acc : Z * Z) : Z * Z :=
  foldl (fun acc row =>
    foldl (fun acc range => (fst acc, u64 (snd acc + port_range_count range)))
      (u64 (fst acc + 1), snd acc) (pa_ports row))
  acc (pt_rows table).

(** [pool4table_foreach_sample]: the loops thread [offset] and [error];
    [inl]: the callback ended the iteration. *)
Section ForeachSample.
Context {B : Type} (func : pool4_sample -> B -> Z * B) (table : pool4_table).

Fixpoint sample_ports (addr : in_addr) (ports : list port_range)
    (offset : option pool4_sample) (error : Z) (arg : B)
    : (Z * B) + (option pool4_sample * Z * B) :=
  match ports with
  | [] => inr (offset, error, arg)
  | range :: ports =>
      match offset with
      | None =>
          let '(error, arg) := func (Pool4Sample (pt_mark table) (pt_proto table) addr range) arg in
          if negb (error =? 0) then inl (error, arg)
          else sample_ports addr ports None error arg
      | Some o =>
          if port_range_equals (sample_range o) range
          then sample_ports addr ports None 0 arg
          else sample_ports addr ports offset error arg
      end
  end.

Fixpoint sample_rows (rows : list pool4_addr)
    (offset : option pool4_sample) (error : Z) (arg : B) : Z * B :=
  match rows with
  | [] => (error, arg)
  | row :: rows =>
      if match offset with
         | Some o => negb (addr4_equals (Some (pa_addr row)) (Some (sample_addr o)))
         | None => false
         end
      then sample_rows rows offset error arg
      else
        match sample_ports (pa_addr row) (pa_ports row) offset error arg with
        | inl r => r
        | inr (offset, error, arg) => sample_rows rows offset error arg
        end
  end.

Definition pool4table_foreach_sample (arg : B) (offset : option pool4_sample) : Z * B :=
  sample_rows (pt_rows table) offset
    (match offset with Some _ => - errno_code ESRCH | None => 0 end) arg.

End ForeachSample.

(** [pool4table_foreach_taddr4]: every transport address, starting from the
    [offset_main]-th one and wrapping around. *)
Section ForeachTaddr4.
Context {B : Type} (func : ipv4_transport_addr -> B -> Z * B).

(** [for (i = ...; i < num_ports; i++)], [n] iterations long. *)
Fixpoint for_ports (addr : in_addr) (min i : Z) (n : nat) (arg : B) : Z * B :=
  match n with
  | O => (0, arg)
  | S n =>
      let '(error, arg) := func (TAddr4 addr (u16 (min + i))) arg in
      if negb (error =? 0) then (error, arg) else for_ports addr min (u32 (i + 1)) n arg
  end.

(** The first pass, from the offset to the end; [inl]: early return. *)
Fixpoint pass1_ports (addr : in_addr) (ports : list port_range) (offset : Z) (arg : B)
    : (Z * B) + (Z * B) :=
  match ports with
  | [] => inr (offset, arg)
  | range :: ports =>
      let num_ports := port_range_count range in
      if offset >? num_ports then pass1_ports addr ports (u32 (offset - num_ports)) arg
      else
        let '(error, arg) :=
          for_ports addr (r_min range) offset (Z.to_nat (num_ports - offset)) arg in
        if negb (error =? 0) then inl (error, arg) else pass1_ports addr ports 0 arg
  end.

Fixpoint pass1 (rows : list pool4_addr) (offset : Z) (arg : B) : (Z * B) + (Z * B) :=
  match rows with
  | [] => inr (offset, arg)
  | row :: rows =>
      match pass1_ports (pa_addr row) (pa_ports row) offset arg with
      | inl r => inl r
      | inr (offset, arg) => pass1 rows offset arg
      end
  end.

(** The inner loop of the second pass, which returns when it reaches the
    offset. *)
Fixpoint for_ports_until (addr : in_addr) (min i offset : Z) (n : nat) (arg : B)
    : (Z * B) + B :=
  match n with
  | O => inr arg
  | S n =>
      if i >=? offset then inl (0, arg)
      else
        let '(error, arg) := func (TAddr4 addr (u16 (min + i))) arg in
        if negb (error =? 0) then inl (error, arg)
        else for_ports_until addr min (u32 (i + 1)) offset n arg
  end.

Fixpoint pass2_ports (addr : in_addr) (ports : list port_range) (offset : Z) (arg : B)
    : (Z * B) + (Z * B) :=
  match ports with
  | [] => inr (offset, arg)
  | range :: ports =>
      let num_ports := port_range_count range in
      match for_ports_until addr (r_min range) 0 offset (Z.to_nat num_ports) arg with
      | inl r => inl r
      | inr arg => pass2_ports addr ports (u32 (offset - num_ports)) arg
      end
  end.

Fixpoint pass2 (rows : list pool4_addr) (offset : Z) (arg : B) : Z * B :=
  match rows with
  | [] => (0, arg)
  | row :: rows =>
      match pass2_ports (pa_addr row) (pa_ports row) offset arg with
      | inl r => r
      | inr (offset, arg) => pass2 rows offset arg
      end
  end.

Definition pool4table_foreach_taddr4 (table : pool4_table) (arg : B) (offset_main : Z)
    : Z * B :=
  let num_ports := count_ports table in
  if num_ports =? 0 then (0, arg)
  else
    let offset_main := offset_main `mod` num_ports in
    match pass1 (pt_rows table) offset_main arg with
    | inl r => r
    | inr (_, arg) => pass2 (pt_rows table) offset_main arg
    end.

End ForeachTaddr4.

(** ** Abstraction and invariant *)

Definition in_range (r : port_range) (p : Z) : Prop := r_min r <= p <= r_max r.

(** The ports a list of ranges covers. *)
Definition covers (l : list port_range) (p : Z) : Prop := exists r, r ∈ l /\ in_range r p.

(** A stored range: 16-bit, and empty at worst (TCP and UDP turn 0-0 into
    1-0). *)
Definition range_ok (r : port_range) : Prop := wf_range r /\ r_min r <= r_max r + 1.

Definition range_size (r : port_range) : Z := r_max r - r_min r + 1.

Definition ports_size (l : list port_range) : Z :=
  foldr (fun r acc => range_size r + acc) 0 l.

Definition rows_size (rows : list pool4_addr) : Z :=
  foldr (fun row acc => ports_size (pa_ports row) + acc) 0 rows.

(** No two ranges of the list overlap or are adjacent. *)
Fixpoint apart (l : list port_range) : Prop :=
  match l with
  | [] => True
  | r :: l => Forall (fun s => port_range_touches r s = false) l /\ apart l
  end.

Definition row_ok (row : pool4_addr) : Prop :=
  pa_ports row <> [] /\ Forall range_ok (pa_ports row) /\ apart (pa_ports row).

Definition table_inv (t : pool4_table) : Prop :=
  Forall row_ok (pt_rows t) /\ NoDup (pa_addr <$> pt_rows t) /\
  rows_size (pt_rows t) <= UINT_MAX.

(** The transport addresses of a list of rows. *)
Definition member (rows : list pool4_addr) (a : in_addr) (p : Z) : Prop :=
  exists row, row ∈ rows /\ pa_addr row = a /\ covers (pa_ports row) p.

Lemma pool4table_contains_iff t a p :
  pool4table_contains t (TAddr4 a p) = true <-> member (pt_rows t) a p.
Proof.
  unfold pool4table_contains, member, covers, in_range. rewrite existsb_exists. simpl.
  split.
  - intros (row & Hin & H). apply list_elem_of_In in Hin. apply andb_true_iff in H as [Ha Hp].
    apply addr4_equals_iff in Ha. apply existsb_exists in Hp as (r & Hr & Hc).
    apply list_elem_of_In in Hr. apply port_range_contains_iff in Hc. eauto 6.
  - intros (row & Hin & Ha & r & Hr & Hc). exists row.
    split; [apply list_elem_of_In; done|]. apply andb_true_iff.
    split; [apply addr4_equals_iff; done|]. apply existsb_exists. exists r.
    split; [apply list_elem_of_In; done | apply port_range_contains_iff; done].
Qed.

(** *** Ranges that do not touch *)

Lemma touches_false r s :
  port_range_touches r s = false <-> r_max r < r_min s - 1 \/ r_max s + 1 < r_min r.
Proof.
  rewrite <- not_true_iff_false, port_range_touches_iff. lia.
Qed.

Lemma apart_app l1 l2 :
  apart (l1 ++ l2) <->
  apart l1 /\ apart l2 /\ forall r s, r ∈ l1 -> s ∈ l2 -> port_range_touches r s = false.
Proof.
  induction l1 as [|r l1 IH]; simpl.
  - split; [intros; split_and!; auto; intros ?? Hx; inversion Hx | tauto].
  - rewrite Forall_app, IH, !Forall_forall. split.
    + intros ((H1 & H2) & H3 & H4 & H5). split_and!; try done.
      intros x y Hx Hy. apply elem_of_cons in Hx as [->|Hx]; eauto.
    + intros ((H1 & H2) & H3 & H4). split_and!; try done.
      * intros y Hy. apply H4; [left|done].
      * intros x y Hx Hy. apply H4; [right; done | done].
Qed.

#[export] Instance apart_perm : Proper ((≡ₚ) ==> iff) apart.
Proof.
  intros l1 l2 Hp. induction Hp as [|r l1 l2 Hp IH|r s l|l1 l2 l3 _ IH1 _ IH2]; simpl.
  - done.
  - rewrite IH, Hp. done.
  - rewrite !Forall_cons. rewrite (port_range_touches_sym s r). tauto.
  - tauto.
Qed.

Lemma covers_cons r l p : covers (r :: l) p <-> in_range r p \/ covers l p.
Proof. unfold covers. set_solver. Qed.

Lemma covers_app l1 l2 p : covers (l1 ++ l2) p <-> covers l1 p \/ covers l2 p.
Proof. unfold covers. set_solver. Qed.

Lemma covers_nil p : ~ covers [] p.
Proof. intros (r & H & _). inversion H. Qed.

Lemma ports_size_cons r l : ports_size (r :: l) = range_size r + ports_size l.
Proof. done. Qed.

Lemma ports_size_app l1 l2 : ports_size (l1 ++ l2) = ports_size l1 + ports_size l2.
Proof.
  induction l1 as [|r l1 IH]; [done|]. cbn [app]. rewrite !ports_size_cons. lia.
Qed.

Lemma ports_size_nonneg l : Forall range_ok l -> 0 <= ports_size l.
Proof.
  induction 1 as [|r l [_ Hr] _ IH]; [done|].
  rewrite ports_size_cons. unfold range_size. lia.
Qed.

(** *** Fusion *)

Lemma fuse_spec p g :
  range_ok p -> range_ok g -> port_range_touches p g = true ->
  range_ok (fuse p g) /\ range_size (fuse p g) <= range_size p + range_size g /\
  (forall x, in_range (fuse p g) x <-> in_range p x \/ in_range g x) /\
  (forall k, range_ok k -> port_range_touches k p = false ->
     port_range_touches k g = false -> port_range_touches k (fuse p g) = false).
Proof.
  rewrite port_range_touches_iff. intros [Wp Hp] [Wg Hg] Ht.
  unfold range_ok, wf_range, is_u16, range_size, in_range, fuse in *; simpl.
  split_and!; try lia.
  intros k [Wk Hk]. rewrite !touches_false. simpl. lia.
Qed.

Lemma touches_wider p r g :
  r_min g <= r_min r -> r_max r <= r_max g ->
  port_range_touches p r = true -> port_range_touches p g = true.
Proof. rewrite !port_range_touches_iff. lia. Qed.

(** A range apart from everything being fused stays apart from the fusion. *)
Lemma fusion_far range ports : forall fusion kept fusion' k,
  fusion_loop range ports fusion = (kept, fusion') ->
  Forall range_ok ports -> range_ok (default range fusion) -> range_ok k ->
  r_min (default range fusion) <= r_min range -> r_max range <= r_max (default range fusion) ->
  port_range_touches k (default range fusion) = false ->
  Forall (fun s => port_range_touches k s = false) ports ->
  port_range_touches k (default range fusion') = false.
Proof.
  induction ports as [|p ports IH]; intros fusion kept fusion' k H Hok Hg Hk Hmin Hmax Hkg Hkp.
  { simpl in H. injection H as <- <-. done. }
  simpl in H. apply Forall_cons in Hok as [Hp Hok]. apply Forall_cons in Hkp as [Hkp1 Hkp].
  destruct (port_range_touches p range) eqn:Ht; simpl in H.
  - assert (Htg : port_range_touches p (default range fusion) = true)
      by (eapply touches_wider; done).
    destruct (fuse_spec p _ Hp Hg Htg) as (Hf & _ & _ & Hfar).
    apply (IH (Some (fuse p (default range fusion))) kept); try done; simpl; try lia.
    + destruct fusion; done.
    + apply Hfar; done.
  - destruct (fusion_loop range ports fusion) as [kept1 fusion1] eqn:E.
    injection H as <- <-. eapply (IH fusion); done.
Qed.

(** What the loop of [try_fusion] computes; [g] is the fusion so far, or the
    new range when there is none yet. *)
Lemma fusion_loop_spec range ports : forall fusion kept fusion',
  let g := default range fusion in
  let g' := default range fusion' in
  fusion_loop range ports fusion = (kept, fusion') ->
  Forall range_ok ports -> apart ports -> range_ok g ->
  r_min g <= r_min range -> r_max range <= r_max g ->
  (forall k, k ∈ ports -> port_range_touches k range = false -> port_range_touches k g = false) ->
  range_ok g' /\ Forall range_ok kept /\ apart kept /\
  (forall x, covers kept x \/ in_range g' x <-> covers ports x \/ in_range g x) /\
  (forall k, k ∈ kept -> port_range_touches k g' = false) /\
  ports_size kept + range_size g' <= ports_size ports + range_size g /\
  (forall k, k ∈ kept -> k ∈ ports) /\
  (fusion' = None -> kept = ports /\ fusion = None).
Proof.
  induction ports as [|p ports IH]; intros fusion kept fusion' g g' H Hok Hap Hg Hmin Hmax Hk.
  { simpl in H. injection H as <- <-. split_and!; try done; try lia. intros k Hin. inversion Hin. }
  simpl in H. apply Forall_cons in Hok as [Hp Hok]. destruct Hap as [Hpa Hap].
  destruct (port_range_touches p range) eqn:Ht; simpl in H.
  - assert (Htg : port_range_touches p g = true) by (eapply touches_wider; done).
    destruct (fuse_spec p g Hp Hg Htg) as (Hf & Hsz & Hin & Hfar).
    assert (H' : fusion_loop range ports (Some (fuse p g)) = (kept, fusion'))
      by (destruct fusion; done).
    destruct (IH (Some (fuse p g)) kept fusion' H') as (H1 & H2 & H3 & H4 & H5 & H6 & H7 & H8);
      try done.
    + simpl. lia.
    + simpl. lia.
    + intros k Hkin Hkr. apply Hfar; [rewrite Forall_forall in Hok; auto | |apply Hk; [right|]; done].
      rewrite port_range_touches_sym. rewrite Forall_forall in Hpa. auto.
    + split_and!; try done.
      * intros x. specialize (H4 x). specialize (Hin x). cbn in H4.
        rewrite covers_cons. unfold g'. tauto.
      * change (default range (Some (fuse p g))) with (fuse p g) in H6.
        rewrite ports_size_cons. unfold g'. lia.
      * intros k Hkin. right. auto.
      * intros E. destruct (H8 E). done.
  - destruct (fusion_loop range ports fusion) as [kept1 fusion1] eqn:E.
    injection H as <- <-.
    destruct (IH fusion kept1 fusion1 E) as (H1 & H2 & H3 & H4 & H5 & H6 & H7 & H8);
      try done; [intros; apply Hk; [right|]; done|].
    assert (Hpg : port_range_touches p g' = false).
    { apply (fusion_far range ports fusion kept1 fusion1 p E); try done. apply Hk; [left|done]. }
    split_and!; try done.
    + apply Forall_cons. done.
    + simpl. split; [|done]. rewrite Forall_forall in Hpa |- *. auto.
    + intros x. rewrite !covers_cons. specialize (H4 x). tauto.
    + intros k Hkin. apply elem_of_cons in Hkin as [->|Hkin]; auto.
    + rewrite !ports_size_cons. subst g g'. cbn beta zeta in H6. lia.
    + intros k Hkin. apply elem_of_cons in Hkin as [->|Hkin]; [left|right; auto].
    + intros E'. destruct (H8 E') as [-> ->]. done.
Qed.

Lemma add_ports_spec al ports range :
  Forall range_ok ports -> apart ports -> range_ok range ->
  match add_ports al ports range with
  | (Ok ports', _) =>
      ports' <> [] /\ Forall range_ok ports' /\ apart ports' /\
      (forall x, covers ports' x <-> covers ports x \/ in_range range x) /\
      ports_size ports' <= ports_size ports + range_size range
  | (Err e, _) => e = ENOMEM
  end.
Proof.
  intros Hok Hap Hr. unfold add_ports, try_fusion.
  destruct (fusion_loop range ports None) as [kept fusion] eqn:E.
  destruct (fusion_loop_spec range ports None kept fusion E)
    as (H1 & H2 & H3 & H4 & H5 & H6 & H7 & H8); try done.
  assert (Hsnoc : forall l g, apart l -> (forall k, k ∈ l -> port_range_touches k g = false) ->
    apart (l ++ [g])).
  { intros l g Hl Hg. apply apart_app. split_and!; [done | done |].
    intros r s Hrin Hs. apply list_elem_of_singleton in Hs as ->. auto. }
  destruct fusion as [g|]; simpl in *.
  - split_and!; [destruct kept; done | apply Forall_app; auto | auto | |].
    + intros x. rewrite covers_app, covers_cons. specialize (H4 x).
      pose proof (covers_nil x). tauto.
    + rewrite ports_size_app, ports_size_cons. cbn. lia.
  - destruct H8 as [-> _]; [done|]. destruct (kmalloc al) as [[] al']; simpl; [|done].
    split_and!; [destruct ports; done | apply Forall_app; auto | auto | |].
    + intros x. rewrite covers_app, covers_cons. pose proof (covers_nil x). tauto.
    + rewrite ports_size_app, ports_size_cons. cbn. lia.
Qed.

(** *** Rows *)

Lemma member_cons row rows a p :
  member (row :: rows) a p <-> (pa_addr row = a /\ covers (pa_ports row) p) \/ member rows a p.
Proof. unfold member. set_solver. Qed.

Lemma member_app rows1 rows2 a p :
  member (rows1 ++ rows2) a p <-> member rows1 a p \/ member rows2 a p.
Proof. unfold member. set_solver. Qed.

Lemma rows_size_cons row rows :
  rows_size (row :: rows) = ports_size (pa_ports row) + rows_size rows.
Proof. done. Qed.

Lemma rows_size_app rows1 rows2 : rows_size (rows1 ++ rows2) = rows_size rows1 + rows_size rows2.
Proof. induction rows1 as [|r l1 IH]; [done|]. cbn [app]. rewrite !rows_size_cons. lia. Qed.

Lemma add_to_row_spec al rows a range :
  Forall row_ok rows -> range_ok range ->
  match add_to_row al rows a range with
  | None => a ∉ (pa_addr <$> rows)
  | Some (Ok rows', _) =>
      Forall row_ok rows' /\ pa_addr <$> rows' = pa_addr <$> rows /\
      (forall b x, member rows' b x <-> member rows b x \/ (b = a /\ in_range range x)) /\
      rows_size rows' <= rows_size rows + range_size range
  | Some (Err e, _) => e = ENOMEM
  end.
Proof.
  intros Hok Hr. induction Hok as [|row rows Hrow Hok IH]; cbn [add_to_row].
  { set_solver. }
  destruct (addr4_equals (Some (pa_addr row)) (Some a)) eqn:E.
  - apply addr4_equals_iff in E as <-. destruct Hrow as (Hne & Hro & Hap).
    pose proof (add_ports_spec al (pa_ports row) range Hro Hap Hr) as H.
    destruct (add_ports al (pa_ports row) range) as [[ports'|e] al']; [|done].
    destruct H as (H1 & H2 & H3 & H4 & H5). split_and!.
    + apply Forall_cons. done.
    + done.
    + intros b x. rewrite !member_cons. simpl. rewrite H4. intuition congruence.
    + rewrite !rows_size_cons. simpl. lia.
  - assert (pa_addr row <> a) by (intros H; apply addr4_equals_iff in H; congruence).
    destruct (add_to_row al rows a range) as [[[rows'|e] al']|]; [|done|set_solver].
    destruct IH as (H1 & H2 & H3 & H4). split_and!.
    + apply Forall_cons. done.
    + rewrite !fmap_cons, H2. done.
    + intros b x. rewrite !member_cons, H3. tauto.
    + rewrite !rows_size_cons. lia.
Qed.

Lemma add_sample_spec al rows a range :
  Forall row_ok rows -> NoDup (pa_addr <$> rows) -> range_ok range ->
  match add_sample al rows a range with
  | (Ok rows', _) =>
      Forall row_ok rows' /\ NoDup (pa_addr <$> rows') /\
      (forall b x, member rows' b x <-> member rows b x \/ (b = a /\ in_range range x)) /\
      rows_size rows' <= rows_size rows + range_size range /\
      addr4_is_scope_subnet (s_addr a) = false
  | (Err e, _) => e = ENOMEM \/ (e = EINVAL /\ addr4_is_scope_subnet (s_addr a) = true)
  end.
Proof.
  intros Hok Hnd Hr. unfold add_sample.
  destruct (addr4_is_scope_subnet (s_addr a)); [auto|].
  pose proof (add_to_row_spec al rows a range Hok Hr) as H.
  destruct (add_to_row al rows a range) as [[[rows'|e] al']|].
  - destruct H as (H1 & H2 & H3 & H4). rewrite H2. done.
  - auto.
  - destruct (kmalloc al) as [[] al1]; simpl; [|auto].
    pose proof (add_ports_spec al1 [] range ltac:(constructor) I Hr) as Ha.
    destruct (add_ports al1 [] range) as [[ports'|e] al2]; [|auto].
    destruct Ha as (H1 & H2 & H3 & H4 & H5). split_and!; try done.
    + apply Forall_app. split; [done|]. apply Forall_singleton. done.
    + rewrite fmap_app. apply NoDup_app. split_and!; [done | | apply NoDup_singleton].
      intros b Hb Hb'. apply list_elem_of_singleton in Hb' as ->. done.
    + intros b x. rewrite member_app, member_cons. simpl. rewrite H4.
      pose proof (covers_nil x). assert (~ member [] b x) by (intros (? & Hx & _); inversion Hx).
      intuition congruence.
    + rewrite rows_size_app, rows_size_cons. change (rows_size []) with 0.
      change (ports_size []) with 0 in H5. cbn [pa_ports]. lia.
Qed.

(** On an error, the addresses before the failing one have been added. *)
Lemma add_samples_spec addrs range : forall al rows,
  Forall row_ok rows -> NoDup (pa_addr <$> rows) -> range_ok range ->
  match add_samples al rows addrs range with
  | (r, rows', _) =>
      Forall row_ok rows' /\ NoDup (pa_addr <$> rows') /\
      rows_size rows' <= rows_size rows + Z.of_nat (length addrs) * range_size range /\
      exists added, added `prefix_of` addrs /\ (r = Ok tt -> added = addrs) /\
        (forall b x, member rows' b x <-> member rows b x \/ (b ∈ added /\ in_range range x))
  end.
Proof.
  induction addrs as [|a addrs IH]; intros al rows Hok Hnd Hr; cbn [add_samples].
  { split_and!; try done; [simpl; lia|]. exists []. split_and!; try done. set_solver. }
  assert (0 <= range_size range) by (destruct Hr; unfold range_size; lia).
  pose proof (add_sample_spec al rows a range Hok Hnd Hr) as H1.
  destruct (add_sample al rows a range) as [[rows1|e] al1].
  - destruct H1 as (Ho1 & Hn1 & Hm1 & Hs1 & _).
    specialize (IH al1 rows1 Ho1 Hn1 Hr).
    destruct (add_samples al1 rows1 addrs range) as [[r rows2] al2].
    destruct IH as (Ho2 & Hn2 & Hs2 & added & Hpre & Hall & Hm2).
    split_and!; try done; [simpl length; lia|].
    exists (a :: added). split_and!.
    + apply prefix_cons. done.
    + intros E. rewrite (Hall E). done.
    + intros b x. rewrite Hm2, Hm1. set_solver.
  - split_and!; try done; [simpl length; lia|]. exists []. split_and!; try done.
    + apply prefix_nil.
    + set_solver.
Qed.

Lemma add_samples_no_e2big addrs range : forall al rows rows' al',
  Forall row_ok rows -> NoDup (pa_addr <$> rows) -> range_ok range ->
  add_samples al rows addrs range <> (Err E2BIG, rows', al').
Proof.
  induction addrs as [|a addrs IH]; intros al rows rows' al' Hok Hnd Hr; cbn [add_samples]; [done|].
  pose proof (add_sample_spec al rows a range Hok Hnd Hr) as H.
  destruct (add_sample al rows a range) as [[rows1|e] al1].
  - destruct H as (? & ? & _). apply IH; done.
  - intros [= -> _ _]. destruct H as [|[? _]]; done.
Qed.

(** *** Counting *)

Lemma port_range_count_ok r : range_ok r -> port_range_count r = range_size r.
Proof.
  intros [[H1 H2] H]. unfold port_range_count, range_size, u32, is_u16 in *.
  apply Z.mod_small. lia.
Qed.

Lemma range_size_bound r : range_ok r -> 0 <= range_size r <= 2 ^ 16.
Proof. intros [[H1 H2] H]. unfold range_size, is_u16 in *. lia. Qed.

Lemma count_row_spec l : forall acc,
  Forall range_ok l -> 0 <= acc -> acc + ports_size l <= UINT_MAX ->
  foldl (fun result ports => u32 (result + port_range_count ports)) acc l = acc + ports_size l.
Proof.
  unfold UINT_MAX. induction l as [|r l IH]; intros acc Hok Ha Hs; simpl; [unfold ports_size; simpl; lia|].
  apply Forall_cons in Hok as [Hr Hok]. rewrite ports_size_cons in *.
  pose proof (ports_size_nonneg l Hok). pose proof (range_size_bound r Hr).
  rewrite port_range_count_ok by done. unfold u32 at 2. rewrite Z.mod_small by lia.
  rewrite IH; (done || lia).
Qed.

Lemma rows_size_nonneg rows : Forall row_ok rows -> 0 <= rows_size rows.
Proof.
  induction 1 as [|row rows (_ & Hr & _) _ IH]; [done|]. rewrite rows_size_cons.
  pose proof (ports_size_nonneg _ Hr). lia.
Qed.

Lemma count_ports_spec t : table_inv t -> count_ports t = rows_size (pt_rows t).
Proof.
  intros (Hok & _ & Hs). unfold count_ports.
  enough (forall acc, 0 <= acc -> acc + rows_size (pt_rows t) <= UINT_MAX ->
    foldl count_row acc (pt_rows t) = acc + rows_size (pt_rows t)) as H by (apply H; lia).
  clear Hs. induction Hok as [|row rows (_ & Hr & _) Hok IH]; intros acc Ha Hs; simpl.
  { unfold rows_size. simpl. lia. }
  rewrite rows_size_cons in *. pose proof (rows_size_nonneg rows Hok).
  pose proof (ports_size_nonneg _ Hr).
  unfold count_row at 2. rewrite count_row_spec by (done || lia). rewrite IH; lia.
Qed.

(** *** [pool4table_add] *)

Lemma sanitize_range_ok proto ports :
  wf_range ports -> range_ok (sanitize_range proto ports).
Proof.
  intros [H1 H2]. unfold sanitize_range, range_ok, wf_range, is_u16 in *.
  destruct (r_min ports >? r_max ports) eqn:E; rewrite Z.gtb_ltb in E; bool_to_prop;
    destruct ((proto =? L4PROTO_TCP) || (proto =? L4PROTO_UDP)); simpl; try (destruct (_ =? 0) eqn:E0; simpl; bool_to_prop); lia.
Qed.

Lemma sanitize_range_size proto ports :
  wf_range ports -> r_min ports <= r_max ports ->
  range_size (sanitize_range proto ports) <= port_range_count ports.
Proof.
  intros Hw Ho. rewrite port_range_count_ordered by done. unfold sanitize_range, range_size.
  destruct Hw as [H1 H2]. unfold is_u16 in *.
  destruct (r_min ports >? r_max ports) eqn:E; rewrite Z.gtb_ltb in E; bool_to_prop; [lia|].
  destruct ((proto =? L4PROTO_TCP) || (proto =? L4PROTO_UDP)); try (destruct (_ =? 0) eqn:E0; bool_to_prop); simpl; lia.
Qed.

Lemma validate_overflow_ok t prefix ports :
  table_inv t -> wf_range ports -> r_min ports <= r_max ports ->
  0 <= p4_len prefix <= 32 -> validate_overflow t prefix ports = Ok tt ->
  rows_size (pt_rows t) + 2 ^ (32 - p4_len prefix) * port_range_count ports <= UINT_MAX.
Proof.
  intros Hi Hw Ho Hl. unfold validate_overflow. rewrite count_ports_spec by done.
  pose proof (port_range_count_ordered ports Hw Ho) as Hc.
  pose proof (rows_size_nonneg _ (proj1 Hi)) as Hn.
  destruct Hi as (_ & _ & Hs). destruct Hw as [H1 H2]. unfold is_u16, UINT_MAX in *.
  assert (Hk : 0 < 2 ^ (32 - p4_len prefix) <= 2 ^ 32).
  { split; [apply Z.pow_pos_nonneg; lia | apply Z.pow_le_mono_r; lia]. }
  unfold prefix4_get_addr_count, u64. rewrite Z.shiftl_1_l.
  rewrite (Z.mod_small (2 ^ (32 - p4_len prefix))) by lia.
  set (n := 2 ^ (32 - p4_len prefix)) in *. set (c := port_range_count ports) in *.
  assert (0 <= n * c <= 2 ^ 32 * 2 ^ 16) by nia.
  rewrite (Z.mod_small (n * c)) by lia.
  destruct (n * c >? 2 ^ 32 - 1) eqn:E; rewrite Z.gtb_ltb in E; bool_to_prop; [done|].
  rewrite Z.mod_small by lia.
  destruct (n * c + rows_size (pt_rows t) >? 2 ^ 32 - 1) eqn:E2; rewrite Z.gtb_ltb in E2;
    bool_to_prop; [done|]. lia.
Qed.

Lemma add_sample_nonempty al rows a range rows' al' :
  add_sample al rows a range = (Ok rows', al') -> rows' <> [].
Proof.
  unfold add_sample. intros H. repeat case_match; simplify_eq; try done.
  - match goal with E : add_to_row _ ?rows _ _ = _ |- _ => destruct rows; simpl in E end;
      repeat case_match; simplify_eq; done.
  - intros [_ ?]%app_nil. done.
Qed.

Lemma add_samples_nonempty addrs range : forall al rows r rows' al',
  add_samples al rows addrs range = (r, rows', al') ->
  (rows <> [] \/ (r = Ok tt /\ addrs <> [])) -> rows' <> [].
Proof.
  induction addrs as [|a addrs IH]; intros al rows r rows' al' H Hne; cbn [add_samples] in H.
  { injection H as <- <- <-. destruct Hne as [|[_ ?]]; done. }
  destruct (add_sample al rows a range) as [[rows1|e] al1] eqn:E.
  - eapply IH; [exact H|]. left. eapply add_sample_nonempty. exact E.
  - injection H as <- <- <-. destruct Hne as [|[? _]]; done.
Qed.

Lemma pool4table_add_nonempty al t prefix ports r t' al' :
  0 <= p4_len prefix -> wf_addr4 (p4_address prefix) ->
  prefix4_validate (Some prefix) = Ok tt ->
  pool4table_add al t prefix ports = (r, t', al') ->
  pt_rows t <> [] \/ r = Ok tt -> pt_rows t' <> [].
Proof.
  intros Hl Hw Hv. unfold pool4table_add.
  destruct (validate_overflow t prefix ports) as [[]|e].
  2:{ intros [= <- <- <-] [|]; done. }
  destruct (add_samples _ _ _ _) as [[r1 rows1] al1] eqn:E. intros [= <- <- <-] Hne.
  eapply add_samples_nonempty; [exact E|]. destruct Hne as [|Hr]; [auto|]. right. split; [done|].
  intros Hnil. destruct (foreach_addr4_members prefix Hl Hw Hv) as [_ Hlen].
  rewrite Hnil in Hlen. simpl in Hlen.
  assert (0 < 2 ^ (32 - p4_len prefix)); [|lia]. apply Z.pow_pos_nonneg; [lia|].
  apply prefix4_validate_clear in Hv; [lia|done..].
Qed.

(** Adding a range of ports to every address of a prefix keeps the
    table's invariant (one row per address, ranges that neither overlap nor
    touch, at most [UINT_MAX] ports).  When it succeeds, the table contains
    exactly what it contained before and the new transport addresses; when it
    fails, nothing was lost and nothing else was added, and an [E2BIG] leaves
    the table as it was. *)
Lemma pool4table_add_spec al t prefix ports r t' al'
    (Hi : table_inv t) (Hl : 0 <= p4_len prefix) (Hwp : wf_addr4 (p4_address prefix))
    (Hv : prefix4_validate (Some prefix) = Ok tt)
    (Hw : wf_range ports) (Ho : r_min ports <= r_max ports)
    (H : pool4table_add al t prefix ports = (r, t', al')) :
  table_inv t' /\ (pt_mark t', pt_proto t') = (pt_mark t, pt_proto t) /\
  (r = Err E2BIG -> t' = t) /\
  forall a p, wf_addr4 a ->
    let new := prefix4_contains prefix a = true /\
               port_range_contains (sanitize_range (pt_proto t) ports) p = true in
    let old := pool4table_contains t (TAddr4 a p) = true in
    (r = Ok tt -> (pool4table_contains t' (TAddr4 a p) = true <-> old \/ new)) /\
    (old -> pool4table_contains t' (TAddr4 a p) = true) /\
    (pool4table_contains t' (TAddr4 a p) = true -> old \/ new).
Proof.
  unfold pool4table_add in H.
  destruct (validate_overflow t prefix ports) as [[]|e] eqn:Eo.
  2:{ injection H as <- <- <-. split_and!; try done. intros a p Ha. simpl.
      split_and!; [done | tauto | tauto]. }
  destruct (foreach_addr4_members prefix Hl Hwp Hv) as [Hmem Hlen].
  apply prefix4_validate_clear in Hv as [Hl' _]; [|done..].
  pose proof Hi as (Hok & Hnd & Hs).
  apply validate_overflow_ok in Eo; [|done || lia..].
  set (range := sanitize_range (pt_proto t) ports) in *.
  assert (Hr : range_ok range) by (apply sanitize_range_ok; done).
  pose proof (add_samples_spec (foreach_addr4 prefix) range al (pt_rows t) Hok Hnd Hr) as Ha.
  destruct (add_samples al (pt_rows t) (foreach_addr4 prefix) range) as [[r1 rows1] al1] eqn:Er.
  injection H as <- <- <-. destruct Ha as (Ho1 & Hn1 & Hs1 & added & Hpre & Hall & Hm).
  assert (Hsz : range_size range <= port_range_count ports) by (apply sanitize_range_size; done).
  pose proof (range_size_bound range Hr). split_and!.
  - split_and!; try done. simpl. unfold UINT_MAX in *. rewrite Hlen in Hs1.
    pose proof (Z.pow_pos_nonneg 2 (32 - p4_len prefix)). nia.
  - done.
  - intros ->. exfalso. eapply add_samples_no_e2big; [exact Hok|exact Hnd|exact Hr|exact Er].
  - intros a p Hwa new old. subst new old.
    rewrite !pool4table_contains_iff, port_range_contains_iff. simpl.
    rewrite <- (Hmem a Hwa). fold (in_range range p).
    assert (a ∈ added -> a ∈ foreach_addr4 prefix)
      by (destruct Hpre as [k ->]; rewrite elem_of_app; auto).
    rewrite Hm. split_and!; [|tauto|tauto].
    intros E. rewrite (Hall E). tauto.
Qed.

(** *** [rm_range] *)

Definition clean (rm p : port_range) : Prop := r_max rm < r_min p \/ r_max p < r_min rm.

#[export] Instance clean_dec rm p : Decision (clean rm p).
Proof. unfold clean. apply _. Defined.

(** How many visits a range can cause: itself, and the two pieces a removal
    may split it into. *)
Definition visits (rm : port_range) (l : list port_range) : nat :=
  foldr (fun p acc => ((if decide (clean rm p) then 1 else 3) + acc)%nat) 0%nat l.

Lemma visits_app rm l1 l2 : visits rm (l1 ++ l2) = (visits rm l1 + visits rm l2)%nat.
Proof.
  induction l1 as [|p l1 IH]; [done|]. cbn [app].
  change (visits rm (p :: l1 ++ l2))
    with ((if decide (clean rm p) then 1 else 3) + visits rm (l1 ++ l2))%nat.
  change (visits rm (p :: l1)) with ((if decide (clean rm p) then 1 else 3) + visits rm l1)%nat.
  lia.
Qed.

Lemma visits_bound rm l : (visits rm l <= 3 * length l)%nat.
Proof.
  induction l as [|p l IH]; [done|].
  change (visits rm (p :: l)) with ((if decide (clean rm p) then 1 else 3) + visits rm l)%nat.
  simpl length. case_decide; lia.
Qed.

(** [new] is what remains of [p] once [rm] has been cut out of it. *)
Definition cut (rm p : port_range) (new : list port_range) : Prop :=
  Forall (fun n => range_ok n /\ clean rm n /\ r_min p <= r_min n /\ r_max n <= r_max p) new /\
  apart new /\ (length new <= 2)%nat /\ ports_size new <= range_size p /\
  (forall x, covers new x <-> in_range p x /\ ~ in_range rm x).

(** The non-recursive part of one iteration. *)
Lemma cut_hole rm p :
  range_ok p -> wf_range rm -> r_min rm <= r_max rm ->
  r_min p < r_min rm -> r_max rm < r_max p ->
  cut rm p [PortRange (u16 (r_min p)) (u16 (r_min rm - 1));
            PortRange (u16 (r_max rm + 1)) (u16 (r_max p))].
Proof.
  intros [[P1 P2] Hp] [R1 R2] Hr H1 H2. unfold u16, is_u16 in *.
  rewrite !Z.mod_small by lia. unfold cut, range_ok, wf_range, is_u16, clean. split_and!.
  - repeat constructor; simpl; lia.
  - simpl. split; [|done]. apply Forall_singleton, touches_false. simpl. lia.
  - done.
  - unfold ports_size, range_size. simpl. lia.
  - intros x. rewrite !covers_cons. pose proof (covers_nil x). unfold in_range. simpl. intuition lia.
Qed.

Lemma cut_right rm p :
  range_ok p -> wf_range rm -> r_min p < r_min rm -> r_min rm <= r_max p -> r_max p <= r_max rm ->
  cut rm p [PortRange (r_min p) (u16 (r_min rm - 1))].
Proof.
  intros [[P1 P2] Hp] [R1 R2] H1 H2 H3. unfold u16, is_u16 in *.
  rewrite !Z.mod_small by lia. unfold cut, range_ok, wf_range, is_u16, clean. split_and!.
  - repeat constructor; simpl; lia.
  - simpl. done.
  - simpl. lia.
  - unfold ports_size, range_size. simpl. lia.
  - intros x. rewrite !covers_cons. pose proof (covers_nil x). unfold in_range. simpl. intuition lia.
Qed.

Lemma cut_left rm p :
  range_ok p -> wf_range rm -> r_min rm <= r_min p -> r_min p <= r_max rm -> r_max rm < r_max p ->
  cut rm p [PortRange (u16 (r_max rm + 1)) (r_max p)].
Proof.
  intros [[P1 P2] Hp] [R1 R2] H1 H2 H3. unfold u16, is_u16 in *.
  rewrite !Z.mod_small by lia. unfold cut, range_ok, wf_range, is_u16, clean. split_and!.
  - repeat constructor; simpl; lia.
  - simpl. done.
  - simpl. lia.
  - unfold ports_size, range_size. simpl. lia.
  - intros x. rewrite !covers_cons. pose proof (covers_nil x). unfold in_range. simpl. intuition lia.
Qed.

Lemma visits_clean rm l : Forall (clean rm) l -> visits rm l = length l.
Proof.
  induction 1 as [|p l Hp _ IH]; [done|].
  change (visits rm (p :: l)) with ((if decide (clean rm p) then 1 else 3) + visits rm l)%nat.
  rewrite decide_True by done. simpl. lia.
Qed.

(** Replacing a range by pieces of it keeps the list apart. *)
Lemma apart_replace rm v p rest new :
  apart (v ++ p :: rest) -> cut rm p new -> apart (v ++ rest ++ new).
Proof.
  intros Hap (Hnew & Han & _).
  assert (Hperm : v ++ p :: rest ≡ₚ [p] ++ (v ++ rest)) by (simpl; rewrite <- Permutation_middle; done).
  rewrite Hperm in Hap. apply apart_app in Hap as (_ & Hvr & Hp).
  rewrite app_assoc. apply apart_app. split_and!; try done.
  intros r s Hr Hs. rewrite Forall_forall in Hnew. destruct (Hnew s Hs) as (_ & _ & H1 & H2).
  specialize (Hp p r ltac:(left) Hr). rewrite touches_false in *. lia.
Qed.

(** What a removal from [all] must leave behind. *)
Definition rm_post (rm : port_range) (all : list port_range) (o : rm_outcome) : Prop :=
  Forall range_ok (rm_ports o) /\ apart (rm_ports o) /\
  ports_size (rm_ports o) <= ports_size all /\
  (rm_unlinked o = true <-> rm_ports o = []) /\
  (forall x, covers (rm_ports o) x -> covers all x) /\
  (forall x, covers all x -> ~ in_range rm x -> covers (rm_ports o) x) /\
  match rm_status o with
  | Ok _ => forall x, covers (rm_ports o) x -> ~ in_range rm x
  | Err e => e = ENOMEM
  end.

Lemma rm_post_cut rm v p rest new o :
  cut rm p new -> rm_post rm (v ++ rest ++ new) o -> rm_post rm (v ++ p :: rest) o.
Proof.
  intros (_ & _ & _ & Hsz & Hcov) (H1 & H2 & H3 & H4 & H5 & H6 & H7).
  assert (Heq : forall x, covers (v ++ rest ++ new) x <->
    covers v x \/ covers rest x \/ (in_range p x /\ ~ in_range rm x)).
  { intros x. rewrite !covers_app, Hcov. tauto. }
  assert (Heq' : forall x, covers (v ++ p :: rest) x <-> covers v x \/ in_range p x \/ covers rest x).
  { intros x. rewrite covers_app, covers_cons. tauto. }
  split_and!; try done.
  - rewrite !ports_size_app, ports_size_cons in *. lia.
  - intros x Hx. apply H5 in Hx. rewrite Heq in Hx. rewrite Heq'. tauto.
  - intros x Hx Hn. apply H6; [|done]. rewrite Heq. rewrite Heq' in Hx. tauto.
Qed.

Lemma cut_nil rm p :
  range_ok p -> r_min rm <= r_min p -> r_max p <= r_max rm -> cut rm p [].
Proof.
  intros [_ Hp] H1 H2. unfold cut. split_and!; try done.
  - simpl. lia.
  - unfold ports_size, range_size. simpl. lia.
  - intros x. pose proof (covers_nil x). unfold in_range. intuition lia.
Qed.

Lemma cut_clean rm p : range_ok p -> clean rm p -> cut rm p [p].
Proof.
  intros Hp Hc. unfold cut. split_and!.
  - apply Forall_singleton. split_and!; (done || lia).
  - simpl. done.
  - simpl. lia.
  - unfold ports_size. simpl. lia.
  - intros x. rewrite covers_cons. pose proof (covers_nil x).
    unfold in_range, clean in *. intuition lia.
Qed.

(** The end of the loop: nothing left to visit. *)
Lemma rm_post_done rm al l :
  Forall range_ok l -> apart l -> Forall (clean rm) l -> l <> [] ->
  rm_post rm l (RmOutcome (Ok tt) l false false al).
Proof.
  intros H1 H2 Hc Hne. split_and!; simpl; try done.
  intros x (r & Hr & Hx) Hrm. rewrite Forall_forall in Hc. specialize (Hc r Hr).
  unfold clean, in_range in *. lia.
Qed.

Section RmLoop.
Variable rm : port_range.
Hypothesis Hwf : wf_range rm.
Hypothesis Hord : r_min rm <= r_max rm.

(** What the loop assumes of the ranges it has passed and has yet to see. *)
Definition rm_pre (visited todo : list port_range) : Prop :=
  Forall range_ok (visited ++ todo) /\ apart (visited ++ todo) /\
  Forall (clean rm) visited /\ visited ++ todo <> [].

Lemma rm_pre_cut visited p rest new :
  rm_pre visited (p :: rest) -> cut rm p new -> visited ++ rest ++ new <> [] ->
  rm_pre visited (rest ++ new).
Proof.
  intros (H1 & H2 & H3 & _) Hc Hne. split_and!; try done.
  - rewrite !Forall_app, Forall_cons in *. destruct Hc as (Hn & _).
    split_and!; try tauto. eapply Forall_impl; [exact Hn|]. simpl. tauto.
  - eapply apart_replace; done.
Qed.

Lemma rm_pre_pass visited p rest :
  rm_pre visited (p :: rest) -> clean rm p -> rm_pre (visited ++ [p]) rest.
Proof.
  intros (H1 & H2 & H3 & H4) Hc. unfold rm_pre. rewrite <- app_assoc. split_and!; try done.
  apply Forall_app. auto.
Qed.

Lemma cut_pass_clean visited new p :
  Forall (clean rm) visited -> cut rm p new -> Forall (clean rm) (visited ++ new).
Proof.
  intros Hv (Hn & _). apply Forall_app. split; [done|].
  eapply Forall_impl; [exact Hn|]. simpl. tauto.
Qed.

(** Both the result of the loop and that it has one: after a cut that
    appends [new], given the statement for the smaller fuel. *)
Lemma rm_continue fuel al visited p rest new :
  (forall al visited todo, (visits rm todo <= fuel)%nat -> rm_pre visited todo ->
     exists o, rm_range_loop fuel rm al visited todo = Some o /\ rm_post rm (visited ++ todo) o) ->
  rm_pre visited (p :: rest) -> cut rm p new -> new <> [] ->
  (visits rm (p :: rest) <= S fuel)%nat -> ~ clean rm p ->
  exists o, match rest with
    | [] => Some (RmOutcome (Ok tt) (visited ++ new) false false al)
    | _ => rm_range_loop fuel rm al visited (rest ++ new)
    end = Some o /\ rm_post rm (visited ++ p :: rest) o.
Proof.
  intros IH Hpre Hcut Hne Hf Hnc.
  assert (Hne' : visited ++ rest ++ new <> []).
  { intros [_ [_ ?]%app_nil]%app_nil. done. }
  pose proof (rm_pre_cut _ _ _ _ Hpre Hcut Hne') as Hpre'.
  assert (Hv : (visits rm (rest ++ new) <= fuel)%nat).
  { rewrite visits_app. rewrite (visits_clean rm new).
    2:{ eapply Forall_impl; [apply Hcut|]. simpl. tauto. }
    change (visits rm (p :: rest)) with ((if decide (clean rm p) then 1 else 3) + visits rm rest)%nat in Hf.
    rewrite decide_False in Hf by done. destruct Hcut as (_ & _ & Hlen & _). lia. }
  destruct rest as [|q rest].
  - eexists. split; [reflexivity|]. eapply rm_post_cut; [exact Hcut|]. simpl in *.
    destruct Hpre' as (H1 & H2 & H3 & _). apply rm_post_done; try done.
    eapply cut_pass_clean; [apply Hpre | exact Hcut].
  - destruct (IH al visited ((q :: rest) ++ new) Hv Hpre') as (o & Ho & Hpost).
    exists o. split; [done|]. eapply rm_post_cut; done.
Qed.

(** A range that is not split or shortened stays where it is. *)
Lemma rm_pass fuel al visited p rest :
  (forall al visited todo, (visits rm todo <= fuel)%nat -> rm_pre visited todo ->
     exists o, rm_range_loop fuel rm al visited todo = Some o /\ rm_post rm (visited ++ todo) o) ->
  rm_pre visited (p :: rest) -> clean rm p -> (visits rm (p :: rest) <= S fuel)%nat ->
  exists o, rm_range_loop fuel rm al (visited ++ [p]) rest = Some o /\
    rm_post rm (visited ++ p :: rest) o.
Proof.
  intros IH Hpre Hc Hf.
  change (visits rm (p :: rest))
    with ((if decide (clean rm p) then 1 else 3) + visits rm rest)%nat in Hf.
  rewrite decide_True in Hf by done.
  destruct (IH al (visited ++ [p]) rest) as (o & Ho & Hpost);
    [lia | apply rm_pre_pass; done |].
  exists o. split; [done|]. rewrite <- app_assoc in Hpost. done.
Qed.

Lemma rm_range_loop_total fuel : forall al visited todo,
  (visits rm todo <= fuel)%nat -> rm_pre visited todo ->
  exists o, rm_range_loop fuel rm al visited todo = Some o /\ rm_post rm (visited ++ todo) o.
Proof.
  induction fuel as [|fuel IH]; intros al visited [|p rest] Hf Hpre; cbn [rm_range_loop];
    try (destruct Hpre as (H1 & H2 & H3 & H4); rewrite app_nil_r in *;
         eexists; split; [reflexivity | apply rm_post_done; done]).
  { change (visits rm (p :: rest))
      with ((if decide (clean rm p) then 1 else 3) + visits rm rest)%nat in Hf.
    case_decide; lia. }
  assert (Hp : range_ok p).
  { destruct Hpre as (Hp & _). rewrite Forall_app, Forall_cons in Hp. tauto. }
  assert (Hvis : (visits rm rest <= fuel)%nat).
  { change (visits rm (p :: rest))
      with ((if decide (clean rm p) then 1 else 3) + visits rm rest)%nat in Hf.
    case_decide; lia. }
  destruct ((r_min rm <=? r_min p) && (r_max p <=? r_max rm)) eqn:E1.
  { bool_to_prop. pose proof (cut_nil rm p Hp ltac:(lia) ltac:(lia)) as Hcut.
    assert (Hgo : visited ++ rest <> [] -> exists o,
      rm_range_loop fuel rm al visited rest = Some o /\ rm_post rm (visited ++ p :: rest) o).
    { intros Hne. pose proof (rm_pre_cut _ _ _ _ Hpre Hcut) as Hpre'. rewrite app_nil_r in Hpre'.
      destruct (IH al visited rest Hvis (Hpre' Hne)) as (o & Ho & Hpost).
      exists o. split; [done|]. eapply rm_post_cut; [exact Hcut|]. rewrite app_nil_r. done. }
    destruct visited as [|v visited]; [destruct rest as [|q rest]|]; [|apply Hgo; done..].
    eexists. split; [reflexivity|]. apply (rm_post_cut rm [] p [] []); [done|].
    split_and!; simpl; try done; intros x Hx; destruct (covers_nil _ Hx). }
  destruct ((r_min p <? r_min rm) && (r_max rm <? r_max p)) eqn:E2.
  { bool_to_prop. unfold pool4_ports_create.
    assert (Herr : forall al', rm_post rm (visited ++ p :: rest)
                     (RmOutcome (Err ENOMEM) (visited ++ p :: rest) false false al')).
    { intros al'. destruct Hpre as (H1 & H2 & H3 & H4). split_and!; simpl; try done; lia. }
    destruct (kmalloc al) as [[] al1]; [|eexists; split; [reflexivity | apply Herr]].
    destruct (kmalloc al1) as [[] al2]; [|eexists; split; [reflexivity | apply Herr]].
    apply (rm_continue fuel al2 visited p rest); try done.
    - apply cut_hole; (done || lia).
    - unfold clean. destruct Hp as [_ Hp]. lia. }
  destruct ((r_max rm <? r_min p) || (r_min rm >? r_max p)) eqn:E3.
  { apply rm_pass; try done. unfold clean. rewrite Z.gtb_ltb in E3.
    apply orb_true_iff in E3 as [E3|E3]; bool_to_prop; lia. }
  rewrite Z.gtb_ltb in E3. bool_to_prop.
  destruct (r_min p <? r_min rm) eqn:E4; [|destruct (r_max rm <? r_max p) eqn:E5]; bool_to_prop.
  - simpl in E2. bool_to_prop. apply (rm_continue fuel al visited p rest); try done.
    + apply cut_right; (done || lia).
    + unfold clean. lia.
  - apply (rm_continue fuel al visited p rest); try done.
    + apply cut_left; (done || lia).
    + unfold clean. lia.
  - exfalso. rewrite andb_false_iff in E1. destruct E1 as [E1|E1]; bool_to_prop; lia.
Qed.

End RmLoop.

Lemma rm_range_spec al ports rm :
  wf_range rm -> r_min rm <= r_max rm ->
  ports <> [] -> Forall range_ok ports -> apart ports ->
  exists o, rm_range al ports rm = Some o /\ rm_post rm ports o.
Proof.
  intros. apply (rm_range_loop_total rm); try done. apply visits_bound.
Qed.

(** *** [pool4table_rm] *)

Lemma rm_sample_spec al rows a rm :
  wf_range rm -> r_min rm <= r_max rm ->
  Forall row_ok rows -> NoDup (pa_addr <$> rows) ->
  exists r rows' al', rm_sample al rows a rm = Some (r, rows', al') /\
    Forall row_ok rows' /\ (pa_addr <$> rows') `sublist_of` (pa_addr <$> rows) /\
    rows_size rows' <= rows_size rows /\
    (forall b x, member rows' b x -> member rows b x) /\
    (forall b x, member rows b x -> ~ (b = a /\ in_range rm x) -> member rows' b x) /\
    match r with
    | Ok _ => forall x, member rows' a x -> ~ in_range rm x
    | Err e => e = ENOMEM
    end.
Proof.
  intros Hw Ho Hok. induction Hok as [|row rows Hrow Hok IH]; intros Hnd; cbn [rm_sample].
  { eexists _, _, _. split; [reflexivity|]. split_and!; try done.
    intros x (? & Hx & _). inversion Hx. }
  rewrite fmap_cons in Hnd. apply NoDup_cons in Hnd as [Hni Hnd].
  destruct (addr4_equals (Some (pa_addr row)) (Some a)) eqn:E.
  - apply addr4_equals_iff in E as <-. destruct Hrow as (Hne & Hro & Hap).
    destruct (rm_range_spec al (pa_ports row) rm Hw Ho Hne Hro Hap)
      as (o & -> & H1 & H2 & H3 & H4 & H5 & H6 & H7).
    assert (Hnot : forall x, ~ member rows (pa_addr row) x).
    { intros x (row' & Hin & Heq & _). apply Hni. rewrite <- Heq. apply list_elem_of_fmap_2. done. }
    eexists _, _, _. split; [reflexivity|].
    destruct (rm_unlinked o) eqn:Eu.
    + assert (Hnil : rm_ports o = []) by (apply H4; done). rewrite Hnil in *. split_and!; try done.
      * apply sublist_cons. done.
      * rewrite rows_size_cons. pose proof (ports_size_nonneg _ Hro). lia.
      * intros b x Hm. rewrite member_cons. auto.
      * intros b x Hm Hn. rewrite member_cons in Hm. destruct Hm as [[<- Hc]|]; [|done].
        destruct (covers_nil x). apply H6; [done|]. tauto.
      * destruct (rm_status o); [|done]. intros x Hm. destruct (Hnot x Hm).
    + split_and!; try done.
      * apply Forall_cons. split; [|done]. split_and!; try done. cbn [pa_ports].
        intros Hnil. apply H4 in Hnil. done.
      * rewrite !rows_size_cons. simpl. lia.
      * intros b x. rewrite !member_cons. simpl. intros [[? ?]|]; auto.
      * intros b x. rewrite !member_cons. simpl. intros [[<- Hc]|] Hn; [left|auto].
        split; [done|]. apply H6; [done|]. tauto.
      * destruct (rm_status o); [|done]. intros x. rewrite member_cons. simpl.
        intros [[_ Hc]|Hm]; [apply H7; done | destruct (Hnot x Hm)].
  - assert (pa_addr row <> a) by (intros H; apply addr4_equals_iff in H; congruence).
    destruct (IH Hnd) as (r & rows' & al' & -> & H1 & H2 & H3 & H4 & H5 & H6).
    eexists _, _, _. split; [reflexivity|]. split_and!.
    + apply Forall_cons. done.
    + rewrite !fmap_cons. apply sublist_skip. done.
    + rewrite !rows_size_cons. lia.
    + intros b x. rewrite !member_cons. intros [?|?]; auto.
    + intros b x. rewrite !member_cons. intros [?|?] Hn; auto.
    + destruct r; [|done]. intros x. rewrite member_cons. intros [[? _]|Hm]; [done | auto].
Qed.

Lemma rm_samples_spec rm addrs :
  wf_range rm -> r_min rm <= r_max rm -> forall al rows,
  Forall row_ok rows -> NoDup (pa_addr <$> rows) ->
  exists r rows' al', rm_samples al rows addrs rm = Some (r, rows', al') /\
    Forall row_ok rows' /\ NoDup (pa_addr <$> rows') /\
    rows_size rows' <= rows_size rows /\
    (forall b x, member rows' b x -> member rows b x) /\
    (forall b x, member rows b x -> ~ (b ∈ addrs /\ in_range rm x) -> member rows' b x) /\
    match r with
    | Ok _ => forall b x, b ∈ addrs -> member rows' b x -> ~ in_range rm x
    | Err e => e = ENOMEM
    end.
Proof.
  intros Hw Ho. induction addrs as [|a addrs IH]; intros al rows Hok Hnd; cbn [rm_samples].
  { eexists _, _, _. split; [reflexivity|]. split_and!; try done.
    intros b x Hin. inversion Hin. }
  destruct (rm_sample_spec al rows a rm Hw Ho Hok Hnd)
    as (r & rows1 & al1 & -> & H1 & H2 & H3 & H4 & H5 & H6).
  assert (Hnd1 : NoDup (pa_addr <$> rows1)) by (eapply sublist_NoDup; done).
  destruct r as [[]|e].
  - destruct (IH al1 rows1 H1 Hnd1) as (r & rows2 & al2 & -> & J1 & J2 & J3 & J4 & J5 & J6).
    eexists _, _, _. split; [reflexivity|]. split_and!; try done.
    + lia.
    + auto.
    + intros b x Hm Hn. apply J5; [apply H5; [done|]|]; set_solver.
    + destruct r; [|done]. intros b x Hb Hm. apply elem_of_cons in Hb as [->|Hb]; [|eauto].
      apply H6. auto.
  - eexists _, _, _. split; [reflexivity|]. split_and!; try done.
    intros b x Hm Hn. apply H5; [done|]. set_solver.
Qed.

(** Removing an ordered range of ports from every address of a prefix
    terminates and keeps the table's invariant.  When it succeeds, the table
    contains exactly what it contained before except the removed transport
    addresses; the only error is a failed allocation, and then nothing outside
    the request was lost and nothing was added. *)
Lemma pool4table_rm_spec al t prefix ports
    (Hi : table_inv t) (Hl : 0 <= p4_len prefix) (Hwp : wf_addr4 (p4_address prefix))
    (Hv : prefix4_validate (Some prefix) = Ok tt)
    (Hw : wf_range ports) (Ho : r_min ports <= r_max ports) :
  exists r t' al', pool4table_rm al t prefix ports = Some (r, t', al') /\ table_inv t' /\
  (forall e, r = Err e -> e = ENOMEM) /\
  forall a p, wf_addr4 a ->
    let gone := prefix4_contains prefix a = true /\ port_range_contains ports p = true in
    let old := pool4table_contains t (TAddr4 a p) = true in
    (r = Ok tt -> (pool4table_contains t' (TAddr4 a p) = true <-> old /\ ~ gone)) /\
    (pool4table_contains t' (TAddr4 a p) = true -> old) /\
    (old -> ~ gone -> pool4table_contains t' (TAddr4 a p) = true).
Proof.
  destruct (foreach_addr4_members prefix Hl Hwp Hv) as [Hmem _].
  destruct Hi as (Hok & Hnd & Hs). unfold pool4table_rm.
  destruct (rm_samples_spec ports (foreach_addr4 prefix) Hw Ho al (pt_rows t) Hok Hnd)
    as (r & rows & al' & -> & H1 & H2 & H3 & H4 & H5 & H6).
  eexists _, _, _. split; [reflexivity|]. split; [|split].
  - split_and!; try done. simpl. lia.
  - intros e ->. done.
  - intros a p Ha.
    rewrite !pool4table_contains_iff, port_range_contains_iff. simpl.
    rewrite <- (Hmem a Ha). fold (in_range ports p). split_and!; [|auto|auto].
    intros ->. split; [|intros [? ?]; auto]. intros Hm. split; [auto|].
    intros [Hin Hr]. exact (H6 a p Hin Hm Hr).
Qed.

(** A failed removal leaves the row it failed on, so the table is not
    empty. *)
Lemma rm_range_loop_err fuel rm : forall al visited todo o e,
  rm_range_loop fuel rm al visited todo = Some o -> rm_status o = Err e ->
  rm_unlinked o = false.
Proof.
  induction fuel as [|fuel IH]; intros al visited [|p rest] o e H He; cbn [rm_range_loop] in H;
    try (injection H as <-; done); [done|].
  repeat (case_match; try (injection H as <-; done)); try done; eauto.
Qed.

(** The loop reads the list of a freed row exactly when it freed the row. *)
Lemma rm_range_reads_freed_row fuel rm : forall al visited todo o,
  rm_range_loop fuel rm al visited todo = Some o -> rm_stale_read o = rm_unlinked o.
Proof.
  induction fuel as [|fuel IH]; intros al visited [|p rest] o H; cbn [rm_range_loop] in H;
    try (injection H as <-; done); [done|].
  repeat (case_match; try (injection H as <-; done)); try done; eauto.
Qed.

Lemma rm_sample_err al rows a rm r rows' al' e :
  rm_sample al rows a rm = Some (r, rows', al') -> r = Err e -> rows' <> [].
Proof.
  revert rows'. induction rows as [|row rows IH]; intros rows' H ->; cbn [rm_sample] in H; [done|].
  destruct (addr4_equals _ _).
  - destruct (rm_range al (pa_ports row) rm) as [o|] eqn:E; [|done].
    injection H as Hs <- <-. rewrite (rm_range_loop_err _ _ _ _ _ _ _ E Hs). done.
  - destruct (rm_sample al rows a rm) as [[[r1 rows1] al1]|]; [|done]. simplify_eq. done.
Qed.

Lemma pool4table_rm_err al t prefix ports e t' al' :
  pool4table_rm al t prefix ports = Some (Err e, t', al') -> pt_rows t' <> [].
Proof.
  unfold pool4table_rm. generalize (foreach_addr4 prefix) as addrs. generalize (pt_rows t) as rows.
  intros rows addrs. revert al rows. induction addrs as [|a addrs IH]; intros al rows H;
    cbn [rm_samples] in H; [done|].
  destruct (rm_sample al rows a ports) as [[[[[]|e1] rows1] al1]|] eqn:E; [| |done].
  - apply (IH al1 rows1). done.
  - injection H as ? <- <-. simpl. eapply rm_sample_err; done.
Qed.

(** C40: a removal whose range is given backwards (its minimum two or more
    above its maximum) never returns when it hits two ranges of one address:
    every range it splits yields two more that it visits and splits again, as
    long as allocations succeed. *)
Theorem rm_range_reversed_diverges fuel rm visited ports
    (Hw : wf_range rm) (Hrev : r_max rm + 1 < r_min rm)
    (Hlen : (2 <= length ports)%nat)
    (Hhit : Forall (fun p => wf_range p /\ r_min p < r_min rm /\ r_max rm < r_max p) ports) :
  rm_range_loop fuel rm [] visited ports = None.
Proof.
  revert ports Hlen Hhit. induction fuel as [|fuel IH]; intros [|p [|q rest]] Hlen Hhit;
    simpl in Hlen; try lia; [done|].
  apply Forall_cons in Hhit as [(Hp & H1 & H2) Hrest]. cbn [rm_range_loop].
  destruct (Z.leb_spec (r_min rm) (r_min p)); [lia|]. cbn [andb].
  destruct (Z.ltb_spec (r_min p) (r_min rm)); [|lia].
  destruct (Z.ltb_spec (r_max rm) (r_max p)); [|lia]. cbn [andb].
  unfold pool4_ports_create. cbn [kmalloc]. apply IH.
  - rewrite length_app. simpl. lia.
  - apply Forall_app. split; [done|]. destruct Hw as [W1 W2], Hp as [P1 P2].
    unfold u16, is_u16 in *. rewrite !Z.mod_small by lia.
    repeat constructor; simpl; lia.
Qed.

Lemma rm_range_reversed_diverges_witness :
  rm_range [] [PortRange 1 7; PortRange 9 20] (PortRange 10 5) = None.
Proof.
  apply (rm_range_reversed_diverges 6 (PortRange 10 5) [] [PortRange 1 7; PortRange 9 20]);
    [split; split; simpl; lia | simpl; lia | simpl; lia |].
  repeat constructor; simpl; lia.
Defined.

(** *** The transport addresses in order *)

Definition range_taddrs (a : in_addr) (r : port_range) : list ipv4_transport_addr :=
  TAddr4 a <$> seqZ (r_min r) (range_size r).

Definition ports_taddrs (a : in_addr) (l : list port_range) : list ipv4_transport_addr :=
  l ≫= range_taddrs a.

Definition rows_taddrs (rows : list pool4_addr) : list ipv4_transport_addr :=
  rows ≫= fun row => ports_taddrs (pa_addr row) (pa_ports row).

Lemma ports_taddrs_cons a r l : ports_taddrs a (r :: l) = range_taddrs a r ++ ports_taddrs a l.
Proof. done. Qed.

Lemma rows_taddrs_cons row rows :
  rows_taddrs (row :: rows) = ports_taddrs (pa_addr row) (pa_ports row) ++ rows_taddrs rows.
Proof. done. Qed.

Lemma length_range_taddrs a r : range_ok r -> Z.of_nat (length (range_taddrs a r)) = range_size r.
Proof.
  intros Hr. unfold range_taddrs. rewrite length_fmap, length_seqZ.
  pose proof (range_size_bound r Hr). lia.
Qed.

Lemma length_ports_taddrs a l :
  Forall range_ok l -> Z.of_nat (length (ports_taddrs a l)) = ports_size l.
Proof.
  induction 1 as [|r l Hr Hl IH]; [done|]. unfold ports_taddrs in *. cbn [mbind list_bind].
  rewrite length_app, ports_size_cons, <- IH, <- (length_range_taddrs a r Hr).
  rewrite Nat2Z.inj_add. done.
Qed.

Lemma length_rows_taddrs rows :
  Forall row_ok rows -> Z.of_nat (length (rows_taddrs rows)) = rows_size rows.
Proof.
  induction 1 as [|row rows (_ & Hr & _) _ IH]; [done|]. unfold rows_taddrs in *.
  cbn [mbind list_bind]. rewrite length_app, rows_size_cons, <- IH.
  rewrite <- (length_ports_taddrs (pa_addr row) (pa_ports row) Hr).
  rewrite Nat2Z.inj_add. done.
Qed.

Lemma elem_of_range_taddrs a r b p :
  TAddr4 b p ∈ range_taddrs a r <-> b = a /\ in_range r p.
Proof.
  unfold range_taddrs, in_range, range_size. rewrite list_elem_of_fmap. split.
  - intros (x & [= -> ->] & Hx%elem_of_seqZ). split; [done|lia].
  - intros [-> H]. exists p. split; [done|]. apply elem_of_seqZ. lia.
Qed.

Lemma elem_of_ports_taddrs a l b p :
  TAddr4 b p ∈ ports_taddrs a l <-> b = a /\ covers l p.
Proof.
  unfold ports_taddrs, covers. rewrite list_elem_of_bind. split.
  - intros (r & H & Hr). apply elem_of_range_taddrs in H as [-> H]. eauto.
  - intros (-> & r & Hr & H). exists r. split; [|done]. apply elem_of_range_taddrs. done.
Qed.

Lemma elem_of_rows_taddrs rows b p : TAddr4 b p ∈ rows_taddrs rows <-> member rows b p.
Proof.
  unfold rows_taddrs, member. rewrite list_elem_of_bind. split.
  - intros (row & H & Hr). apply elem_of_ports_taddrs in H as [-> H]. eauto.
  - intros (row & Hr & <- & H). exists row. split; [|done]. apply elem_of_ports_taddrs. done.
Qed.

Lemma NoDup_ports_taddrs a l : Forall range_ok l -> apart l -> NoDup (ports_taddrs a l).
Proof.
  induction 1 as [|r l Hr Hl IH]; intros Hap; [constructor|].
  destruct Hap as [Hfar Hap]. unfold ports_taddrs. cbn [mbind list_bind].
  apply NoDup_app. split_and!; [|intros [b p] Hx Hy|apply IH; done].
  - apply NoDup_fmap_2; [intros ?? [=]; done | apply NoDup_seqZ].
  - apply elem_of_range_taddrs in Hx as [-> Hx]. apply elem_of_ports_taddrs in Hy as (_ & s & Hs & Hy).
    rewrite Forall_forall in Hfar. specialize (Hfar s Hs).
    rewrite touches_false in Hfar. unfold in_range in *. lia.
Qed.

Lemma NoDup_rows_taddrs rows :
  Forall row_ok rows -> NoDup (pa_addr <$> rows) -> NoDup (rows_taddrs rows).
Proof.
  induction 1 as [|row rows (_ & Hr & Hap) _ IH]; intros Hnd; [constructor|].
  rewrite fmap_cons in Hnd. apply NoDup_cons in Hnd as [Hni Hnd].
  unfold rows_taddrs. cbn [mbind list_bind].
  apply NoDup_app. split_and!; [|intros [b p] Hx Hy|apply IH; done].
  - apply NoDup_ports_taddrs; done.
  - apply elem_of_ports_taddrs in Hx as [-> _]. apply elem_of_rows_taddrs in Hy as (row' & Hin & E & _).
    apply Hni. rewrite <- E. apply list_elem_of_fmap_2. done.
Qed.

(** *** [pool4table_foreach_taddr4] *)

Section Foreach.
Context {B : Type} (func : ipv4_transport_addr -> B -> Z * B).

Lemma for_ports_run a min n : forall i arg,
  0 <= i -> 0 <= min -> min + i + Z.of_nat n <= 2 ^ 16 ->
  for_ports func a min i n arg
  = run_until func (TAddr4 a <$> seqZ (min + i) (Z.of_nat n)) arg.
Proof.
  induction n as [|n IH]; intros i arg Hi Hm Hn; simpl; [done|].
  rewrite seqZ_cons by lia. rewrite fmap_cons. cbn [run_until].
  unfold u16. rewrite Z.mod_small by lia.
  destruct (func _ arg) as [error arg']. destruct (error =? 0); simpl; [|done].
  unfold u32. rewrite Z.mod_small by lia. rewrite IH by lia. do 3 f_equal; lia.
Qed.

Lemma drop_range_taddrs a r i :
  0 <= i <= range_size r ->
  drop (Z.to_nat i) (range_taddrs a r) = TAddr4 a <$> seqZ (r_min r + i) (range_size r - i).
Proof.
  intros Hi. unfold range_taddrs. rewrite <- fmap_drop. f_equal.
  replace (range_size r) with (i + (range_size r - i)) at 1 by lia.
  rewrite seqZ_app by lia. rewrite drop_app_length'; [done|]. rewrite length_seqZ. done.
Qed.

Lemma take_range_taddrs a r i :
  0 <= i <= range_size r ->
  take (Z.to_nat i) (range_taddrs a r) = TAddr4 a <$> seqZ (r_min r) i.
Proof.
  intros Hi. unfold range_taddrs. rewrite <- fmap_take. f_equal.
  replace (range_size r) with (i + (range_size r - i)) by lia.
  rewrite seqZ_app by lia. rewrite take_app_length'; [done|]. rewrite length_seqZ. done.
Qed.

(** The first pass runs the callback on what follows the offset. *)
Lemma pass1_ports_run a l : forall offset arg,
  Forall range_ok l -> 0 <= offset < 2 ^ 32 ->
  pass1_ports func a l offset arg =
  let '(error, arg) := run_until func (drop (Z.to_nat offset) (ports_taddrs a l)) arg in
  if negb (error =? 0) then inl (error, arg)
  else inr (Z.max 0 (offset - ports_size l), arg).
Proof.
  induction l as [|r l IH]; intros offset arg Hok Ho; cbn [pass1_ports].
  { unfold ports_taddrs. cbn. rewrite drop_nil. cbn. do 2 f_equal. lia. }
  apply Forall_cons in Hok as [Hr Hok].
  pose proof (range_size_bound r Hr). pose proof (length_range_taddrs a r Hr) as Hlen.
  rewrite port_range_count_ok, ports_size_cons, ports_taddrs_cons, drop_app by done.
  pose proof (ports_size_nonneg l Hok).
  destruct (offset >? range_size r) eqn:E; rewrite Z.gtb_ltb in E; bool_to_prop.
  - unfold u32. rewrite Z.mod_small by lia. rewrite IH by (done || lia).
    rewrite (drop_ge (range_taddrs a r)) by lia. simpl.
    replace (Z.to_nat offset - length (range_taddrs a r))%nat
      with (Z.to_nat (offset - range_size r)) by lia.
    destruct (run_until func _ arg) as [e arg']. case_match; [done|]. do 3 f_equal; lia.
  - rewrite drop_range_taddrs by lia.
    replace (Z.to_nat offset - length (range_taddrs a r))%nat with 0%nat by lia.
    rewrite drop_0, run_until_app.
    destruct Hr as [[R1 R2] R3]. unfold is_u16, range_size in *.
    rewrite for_ports_run by lia. rewrite Z2Nat.id by lia.
    destruct (run_until func (TAddr4 a <$> _) arg) as [e arg'].
    destruct (e =? 0) eqn:Ee; simpl; [|rewrite Ee; done].
    rewrite IH by (done || lia). rewrite drop_0.
    destruct (run_until func _ arg') as [e2 arg2]. case_match; [done|]. do 2 f_equal. lia.
Qed.

Lemma pass1_run rows : forall offset arg,
  Forall row_ok rows -> 0 <= offset < 2 ^ 32 ->
  pass1 func rows offset arg =
  let '(error, arg) := run_until func (drop (Z.to_nat offset) (rows_taddrs rows)) arg in
  if negb (error =? 0) then inl (error, arg)
  else inr (Z.max 0 (offset - rows_size rows), arg).
Proof.
  induction rows as [|row rows IH]; intros offset arg Hok Ho; cbn [pass1].
  { unfold rows_taddrs. cbn. rewrite drop_nil. cbn. do 2 f_equal. lia. }
  apply Forall_cons in Hok as [(_ & Hr & _) Hok].
  pose proof (ports_size_nonneg _ Hr). pose proof (rows_size_nonneg _ Hok).
  pose proof (length_ports_taddrs (pa_addr row) _ Hr) as Hlen.
  rewrite pass1_ports_run, rows_taddrs_cons, rows_size_cons, drop_app, run_until_app by done.
  destruct (run_until func (drop (Z.to_nat offset) (ports_taddrs _ _)) arg) as [e arg'].
  destruct (e =? 0) eqn:Ee; simpl; [|rewrite Ee; done].
  rewrite IH by (done || lia).
  replace (Z.to_nat (Z.max 0 (offset - ports_size (pa_ports row))))
    with (Z.to_nat offset - length (ports_taddrs (pa_addr row) (pa_ports row)))%nat by lia.
  destruct (run_until func _ arg') as [e2 arg2]. case_match; [done|]. do 2 f_equal. lia.
Qed.

(** The second pass stops where the first one began. *)
Lemma for_ports_until_run a min offset n : forall i arg,
  0 <= i <= offset -> 0 <= min -> min + i + Z.of_nat n <= 2 ^ 16 ->
  for_ports_until func a min i offset n arg =
  let '(error, arg) :=
    run_until func (TAddr4 a <$> seqZ (min + i) (Z.min (Z.of_nat n) (offset - i))) arg in
  if negb (error =? 0) then inl (error, arg)
  else if offset - i <? Z.of_nat n then inl (0, arg) else inr arg.
Proof.
  induction n as [|n IH]; intros i arg Hi Hm Hn; cbn [for_ports_until].
  { rewrite seqZ_nil by lia. cbn [fmap list_fmap run_until]. simpl negb.
    destruct (Z.ltb_spec (offset - i) (Z.of_nat 0)); [lia|done]. }
  destruct (i >=? offset) eqn:E; rewrite Z.geb_leb in E; bool_to_prop.
  { rewrite seqZ_nil by lia. cbn [fmap list_fmap run_until]. simpl negb.
    destruct (Z.ltb_spec (offset - i) (Z.of_nat (S n))); [done|lia]. }
  rewrite seqZ_cons by lia. rewrite fmap_cons. cbn [run_until].
  unfold u16. rewrite Z.mod_small by lia.
  destruct (func _ arg) as [error arg']. destruct (error =? 0) eqn:Ee; simpl; [|rewrite Ee; done].
  unfold u32. rewrite Z.mod_small by lia. rewrite IH by lia.
  replace (min + (i + 1)) with (Z.succ (min + i)) by lia.
  replace (Z.min (Z.of_nat n) (offset - (i + 1)))
    with (Z.pred (Z.min (Z.of_nat (S n)) (offset - i))) by lia.
  destruct (run_until func _ arg') as [e arg2]. case_match; [done|].
  destruct (Z.ltb_spec (offset - (i + 1)) (Z.of_nat n)),
    (Z.ltb_spec (offset - i) (Z.of_nat (S n))); (done || lia).
Qed.

Lemma pass2_ports_run a l : forall offset arg,
  Forall range_ok l -> 0 <= offset < 2 ^ 32 ->
  pass2_ports func a l offset arg =
  let '(error, arg) := run_until func (take (Z.to_nat offset) (ports_taddrs a l)) arg in
  if negb (error =? 0) then inl (error, arg)
  else if offset <? ports_size l then inl (0, arg) else inr (offset - ports_size l, arg).
Proof.
  induction l as [|r l IH]; intros offset arg Hok Ho; cbn [pass2_ports].
  { unfold ports_taddrs. cbn [mbind list_bind]. rewrite take_nil. cbn [run_until]. simpl negb.
    destruct (Z.ltb_spec offset (ports_size [])); [unfold ports_size in *; simpl in *; lia|].
    do 2 f_equal. unfold ports_size. simpl. lia. }
  apply Forall_cons in Hok as [Hr Hok].
  pose proof (range_size_bound r Hr). pose proof (length_range_taddrs a r Hr) as Hlen.
  pose proof (ports_size_nonneg l Hok).
  rewrite port_range_count_ok, ports_size_cons, ports_taddrs_cons, take_app, run_until_app by done.
  rewrite for_ports_until_run; [|lia|destruct Hr as [[? ?] ?]; unfold is_u16, range_size in *; lia..].
  rewrite Z2Nat.id, Z.add_0_r, Z.sub_0_r by lia.
  destruct (Z.lt_ge_cases offset (range_size r)).
  - rewrite take_range_taddrs by lia. rewrite Z.min_r by lia.
    destruct (run_until func _ arg) as [e arg']. destruct (e =? 0) eqn:Ee; simpl; [|rewrite Ee; done].
    replace (Z.to_nat offset - length (range_taddrs a r))%nat with 0%nat by lia.
    rewrite take_0. simpl. destruct (Z.ltb_spec offset (range_size r)); [|lia].
    destruct (Z.ltb_spec offset (range_size r + ports_size l)); [done|lia].
  - rewrite Z.min_l by lia. rewrite take_ge by lia. unfold range_taddrs at 1.
    destruct (run_until func _ arg) as [e arg']. destruct (e =? 0) eqn:Ee; simpl; [|rewrite Ee; done].
    destruct (Z.ltb_spec offset (range_size r)); [lia|]. unfold u32. rewrite Z.mod_small by lia.
    rewrite IH by (done || lia).
    replace (Z.to_nat offset - length (range_taddrs a r))%nat
      with (Z.to_nat (offset - range_size r)) by lia.
    destruct (run_until func _ arg') as [e2 arg2]. case_match; [done|].
    destruct (Z.ltb_spec (offset - range_size r) (ports_size l)),
      (Z.ltb_spec offset (range_size r + ports_size l)); try lia; [done|]. do 2 f_equal. lia.
Qed.

Lemma pass2_run rows : forall offset arg,
  Forall row_ok rows -> 0 <= offset < 2 ^ 32 ->
  pass2 func rows offset arg = run_until func (take (Z.to_nat offset) (rows_taddrs rows)) arg.
Proof.
  induction rows as [|row rows IH]; intros offset arg Hok Ho; cbn [pass2].
  { unfold rows_taddrs. cbn. rewrite take_nil. done. }
  apply Forall_cons in Hok as [(_ & Hr & _) Hok].
  pose proof (ports_size_nonneg _ Hr).
  pose proof (length_ports_taddrs (pa_addr row) _ Hr) as Hlen.
  rewrite pass2_ports_run, rows_taddrs_cons, take_app, run_until_app by done.
  destruct (run_until func (take (Z.to_nat offset) (ports_taddrs _ _)) arg) as [e arg'].
  destruct (e =? 0) eqn:Ee; simpl; [|done].
  destruct (Z.ltb_spec offset (ports_size (pa_ports row))).
  - replace (Z.to_nat offset - length (ports_taddrs (pa_addr row) (pa_ports row)))%nat
      with 0%nat by lia. done.
  - rewrite IH by (done || lia). do 2 f_equal. lia.
Qed.

Lemma pool4table_foreach_rotates t arg offset :
  table_inv t -> 0 <= offset ->
  pool4table_foreach_taddr4 func t arg offset =
  run_until func (rotate (Z.to_nat offset) (rows_taddrs (pt_rows t))) arg.
Proof.
  intros Hi Ho. pose proof Hi as (Hok & _ & Hs).
  pose proof (length_rows_taddrs _ Hok) as Hlen. unfold UINT_MAX in Hs.
  unfold pool4table_foreach_taddr4. rewrite count_ports_spec by done.
  destruct (Z.eqb_spec (rows_size (pt_rows t)) 0) as [E|E].
  { destruct (rows_taddrs (pt_rows t)); [unfold rotate; rewrite drop_nil, take_nil; done|].
    simpl in Hlen. lia. }
  pose proof (rows_size_nonneg _ Hok).
  pose proof (Z.mod_pos_bound offset (rows_size (pt_rows t))).
  rewrite pass1_run by (done || lia). unfold rotate.
  replace (Z.to_nat offset mod length (rows_taddrs (pt_rows t)))%nat
    with (Z.to_nat (offset mod rows_size (pt_rows t)))
    by (rewrite <- Hlen, Z2Nat.inj_mod by lia; f_equal; lia).
  rewrite run_until_app.
  destruct (run_until func (drop _ _) arg) as [e arg'].
  simpl. destruct (e =? 0) eqn:Ee; simpl; [|done]. apply pass2_run; (done || lia).
Qed.

End Foreach.

(** From any offset, [pool4table_foreach_taddr4] runs its callback on the
    table's transport addresses in storage order, starting at the offset and
    wrapping around, until the callback returns non-zero; that sequence has
    every transport address the table contains, exactly once. *)
Lemma pool4table_foreach_taddr4_exact {B} (func : ipv4_transport_addr -> B -> Z * B) t arg offset
    (Hi : table_inv t) (Ho : 0 <= offset) :
  let visits := rotate (Z.to_nat offset) (rows_taddrs (pt_rows t)) in
  pool4table_foreach_taddr4 func t arg offset = run_until func visits arg /\
  NoDup visits /\ (forall taddr, taddr ∈ visits <-> pool4table_contains t taddr = true).
Proof.
  destruct Hi as (Hok & Hnd & Hs). split_and!.
  - apply pool4table_foreach_rotates; done.
  - unfold rotate. set (n := (_ mod _)%nat).
    rewrite (Permutation_app_comm (drop n _) (take n _)), take_drop.
    apply NoDup_rows_taddrs; done.
  - intros [a p]. unfold rotate. set (n := (_ mod _)%nat).
    rewrite (Permutation_app_comm (drop n _) (take n _)), take_drop.
    rewrite elem_of_rows_taddrs, pool4table_contains_iff. done.
Qed.

