(* ===== verification/Pool4Db.v ===== *)
(** * The pool4 database

    [mod/stateful/pool4/db.c] (tables hashed by mark) and
    [mod/stateful/pool4/empty.c] (what NAT64 masks with when pool4 is empty:
    the translator's own addresses and the default port range).

    The kernel's [hash_32], its devices and its routing are parameters.
    [None] is a kernel fault: a NULL database or an index outside the array
    of slots. *)
From S2P Require Import Prelude Types Address Pool4Table.

Record pool4db : Type := Pool4Db {
  db : option (list (list pool4_table));
  tables : Z;
  power : Z
}.

Definition slots (s : pool4db) : Z := u32 (Z.shiftl 1 (power s)).

(** ** The empty pool *)

Definition DEFAULT_POOL4_MIN_PORT : Z := 61001.
Definition DEFAULT_POOL4_MAX_PORT : Z := 65535.
Definition RT_SCOPE_UNIVERSE : Z := 0.

(** A primary address of an interface ([struct in_ifaddr]). *)
Record in_ifaddr : Type := InIfaddr {
  ifa_address : Z;
  ifa_local : Z;
  ifa_mask : Z;
  ifa_scope : Z
}.

(** The IPv4 configuration of a device: [None] when it has no [in_device]. *)
Definition in_device : Type := option (list in_ifaddr).

Definition inet_ifa_match (addr : Z) (ifa : in_ifaddr) : bool :=
  Z.land (Z.lxor addr (ifa_address ifa)) (ifa_mask ifa) =? 0.

Section Empty.
(** The devices of the namespace. *)
Variable netdevs : list in_device.

Definition contains_addr (addr : in_addr) : bool :=
  existsb (fun dev =>
    match dev with
    | None => false
    | Some ifas =>
        existsb (fun ifa => (ifa_scope ifa =? RT_SCOPE_UNIVERSE) &&
                            (ifa_address ifa =? s_addr addr)) ifas
    end) netdevs.

Definition pool4empty_contains (addr : ipv4_transport_addr) : bool :=
  if l4_4 addr <? DEFAULT_POOL4_MIN_PORT then false
  else if DEFAULT_POOL4_MAX_PORT <? l4_4 addr then false
  else contains_addr (l3_4 addr).

(** The [for_primary_ifa] loop: [inl], the address to return; [inr], the
    candidate [saddr]. *)
Fixpoint pick_loop (daddr : in_addr) (ifas : list in_ifaddr) (saddr : Z) : in_addr + Z :=
  match ifas with
  | [] => inr saddr
  | ifa :: ifas =>
      if negb (ifa_scope ifa =? RT_SCOPE_UNIVERSE) then pick_loop daddr ifas saddr
      else if inet_ifa_match (s_addr daddr) ifa then inl (InAddr (ifa_local ifa))
      else pick_loop daddr ifas (if saddr =? 0 then ifa_local ifa else saddr)
  end.

Definition pick_addr (dev : in_device) (daddr : in_addr) : result in_addr :=
  match dev with
  | None => Err EINVAL
  | Some ifas =>
      match pick_loop daddr ifas 0 with
      | inl result => Ok result
      | inr saddr =>
          if negb (saddr =? 0) then Ok (InAddr saddr)
          else if contains_addr daddr then Ok daddr
          else Err ESRCH
      end
  end.

Section ForeachPort.
Context {B : Type} (cb : ipv4_transport_addr -> B -> Z * B).

(** [for (i = ...; i <= MAX; i++)], [n] iterations long. *)
Fixpoint port_loop (addr : in_addr) (i : Z) (n : nat) (arg : B) : Z * B :=
  match n with
  | O => (0, arg)
  | S n =>
      let '(error, arg) := cb (TAddr4 addr (u16 i)) arg in
      if negb (error =? 0) then (error, arg) else port_loop addr (u32 (i + 1)) n arg
  end.

Definition foreach_port (addr : in_addr) (arg : B) (offset : Z) : Z * B :=
  let MIN := DEFAULT_POOL4_MIN_PORT in
  let MAX := DEFAULT_POOL4_MAX_PORT in
  let offset := MIN + offset `mod` (MAX - MIN + 1) in
  let '(error, arg) := port_loop addr offset (Z.to_nat (MAX + 1 - offset)) arg in
  if negb (error =? 0) then (error, arg)
  else port_loop addr MIN (Z.to_nat (offset - MIN)) arg.

(** [route]: the device of the route [____route4] finds, if any. *)
Definition pool4empty_foreach_taddr4 (route : option in_device) (daddr : in_addr)
    (arg : B) (offset : Z) : Z * B :=
  match route with
  | None => (- errno_code EINVAL, arg)
  | Some dev =>
      match pick_addr dev daddr with
      | Err e => (- errno_code e, arg)
      | Ok saddr => foreach_port saddr arg offset
      end
  end.
End ForeachPort.
End Empty.

(** ** The database *)

(** [init_power]: the loop doubles the slots until there are [size]. *)
Fixpoint power_loop (size p : Z) (fuel : nat) : Z :=
  match fuel with
  | O => p
  | S fuel => if u32 (Z.shiftl 1 p) <? size then power_loop size (p + 1) fuel else p
  end.

Definition init_power (size : Z) : result Z :=
  let size := if size =? 0 then 16 else size in
  if size >? 2 ^ 31 then Err EINVAL
  else Ok (power_loop size 0 32).

Definition init_db (al : allocs) (size : Z) : option (list (list pool4_table)) * allocs :=
  let '(ok, al) := kmalloc al in
  (if ok then Some (replicate (Z.to_nat size) []) else None, al).

Definition table_is (mark proto : Z) (t : pool4_table) : bool :=
  (pt_mark t =? mark) && bool_decide (pt_proto t = proto).

(** The first table of a slot for the mark and protocol, the slot with it
    replaced, and the slot without it. *)
Definition find_in (mark proto : Z) (l : list pool4_table) : option pool4_table :=
  List.find (table_is mark proto) l.

Fixpoint replace_in (mark proto : Z) (t' : pool4_table)
    (l : list pool4_table) : list pool4_table :=
  match l with
  | [] => []
  | t :: l => if table_is mark proto t then t' :: l else t :: replace_in mark proto t' l
  end.

Fixpoint remove_in (mark proto : Z) (l : list pool4_table) : list pool4_table :=
  match l with
  | [] => []
  | t :: l => if table_is mark proto t then l else t :: remove_in mark proto l
  end.

Section Db.
Variable hash_32 : Z -> Z -> Z.

Definition slot_of (s : pool4db) (mark : Z) : nat := Z.to_nat (hash_32 mark (power s)).

Definition set_slot (s : pool4db) (i : nat) (slot : list pool4_table)
    (ss : list (list pool4_table)) (count : Z) : pool4db :=
  Pool4Db (Some (<[i := slot]> ss)) count (power s).

Definition find_table (s : pool4db) (mark proto : Z)
    : option (option pool4_table) :=
  match db s with
  | None => None
  | Some ss =>
      match ss !! slot_of s mark with
      | None => None
      | Some slot => Some (find_in mark proto slot)
      end
  end.

Definition pool4db_add (al : allocs) (s : pool4db) (mark proto : Z)
    (prefix : ipv4_prefix) (ports : port_range) : option (result unit * pool4db * allocs) :=
  match db s with
  | None => None
  | Some ss =>
      match ss !! slot_of s mark with
      | None => None
      | Some slot =>
          match find_in mark proto slot with
          | None =>
              match pool4table_create al mark proto with
              | (None, al) => Some (Err ENOMEM, s, al)
              | (Some table, al) =>
                  match pool4table_add al table prefix ports with
                  | (Err e, _, al) => Some (Err e, s, al)
                  | (Ok _, table, al) =>
                      Some (Ok tt, set_slot s (slot_of s mark) (table :: slot) ss
                                     (u32 (tables s + 1)), al)
                  end
              end
          | Some table =>
              let '(r, table', al) := pool4table_add al table prefix ports in
              Some (r, set_slot s (slot_of s mark) (replace_in mark proto table' slot) ss
                         (tables s), al)
          end
      end
  end.

Definition pool4db_rm (al : allocs) (s : pool4db) (mark proto : Z)
    (prefix : ipv4_prefix) (ports : port_range) : option (result unit * pool4db * allocs) :=
  match db s with
  | None => None
  | Some ss =>
      match ss !! slot_of s mark with
      | None => None
      | Some slot =>
          match find_in mark proto slot with
          | None => Some (Err ESRCH, s, al)
          | Some table =>
              match pool4table_rm al table prefix ports with
              | None => None
              | Some (Err e, table', al) =>
                  Some (Err e, set_slot s (slot_of s mark) (replace_in mark proto table' slot) ss
                                 (tables s), al)
              | Some (Ok _, table', al) =>
                  if pool4table_is_empty table' then
                    Some (Ok tt, set_slot s (slot_of s mark) (remove_in mark proto slot) ss
                                   (u32 (tables s - 1)), al)
                  else
                    Some (Ok tt, set_slot s (slot_of s mark)
                                   (replace_in mark proto table' slot) ss (tables s), al)
              end
          end
      end
  end.

Definition pool4db_replace (s : pool4db) (new : option (list (list pool4_table))) (count : Z)
    : option pool4db :=
  match db s with
  | None => None
  | Some _ => Some (Pool4Db new count (power s))
  end.

Definition pool4db_destroy (s : pool4db) : option pool4db := pool4db_replace s None 0.

Definition pool4db_flush (al : allocs) (s : pool4db) : option (result unit * pool4db * allocs) :=
  match init_db al (slots s) with
  | (None, al) => Some (Err ENOMEM, s, al)
  | (Some new, al) =>
      match pool4db_replace s (Some new) 0 with
      | None => None
      | Some s => Some (Ok tt, s, al)
      end
  end.

(** The three additions of one prefix string, in order. *)
Definition add_prefix (al : allocs) (s : pool4db) (prefix : ipv4_prefix)
    : option (result unit * pool4db * allocs) :=
  let ports := PortRange 0 65535 in
  match pool4db_add al s 0 L4PROTO_TCP prefix ports with
  | Some (Ok _, s, al) =>
      match pool4db_add al s 0 L4PROTO_UDP prefix ports with
      | Some (Ok _, s, al) => pool4db_add al s 0 L4PROTO_ICMP prefix ports
      | r => r
      end
  | r => r
  end.

(** [add_prefix_strings], given what [prefix4_parse] returns on each string. *)
Fixpoint add_prefix_strings (al : allocs) (s : pool4db) (prefixes : list (result ipv4_prefix))
    : option (result unit * pool4db * allocs) :=
  match prefixes with
  | [] => Some (Ok tt, s, al)
  | Err e :: _ => Some (Err e, s, al)
  | Ok prefix :: prefixes =>
      match add_prefix al s prefix with
      | Some (Ok _, s, al) => add_prefix_strings al s prefixes
      | r => r
      end
  end.

Definition pool4db_init (al : allocs) (s : pool4db) (size : Z)
    (prefixes : list (result ipv4_prefix)) : option (result unit * pool4db * allocs) :=
  match init_power size with
  | Err e => Some (Err e, s, al)
  | Ok p =>
      let s := Pool4Db (db s) 0 p in
      match init_db al (slots s) with
      | (None, al) => Some (Err ENOMEM, s, al)
      | (Some new, al) =>
          let s := Pool4Db (Some new) 0 p in
          match add_prefix_strings al s prefixes with
          | Some (Err e, s, al) =>
              match pool4db_destroy s with
              | Some s => Some (Err e, s, al)
              | None => None
              end
          | r => r
          end
      end
  end.

Definition pool4db_is_empty (s : pool4db) : option bool :=
  match db s with
  | None => None
  | Some ss => Some (forallb (forallb pool4table_is_empty) ss)
  end.

Definition pool4db_contains (netdevs : list in_device) (s : pool4db) (proto : Z)
    (addr : ipv4_transport_addr) : option bool :=
  match pool4db_is_empty s, db s with
  | Some true, _ => Some (pool4empty_contains netdevs addr)
  | Some false, Some ss =>
      Some (existsb (existsb (fun t =>
              bool_decide (pt_proto t = proto) && pool4table_contains t addr)) ss)
  | _, _ => None
  end.

Definition pool4db_count (s : pool4db) : option (Z * (Z * Z)) :=
  match db s with
  | None => None
  | Some ss =>
      Some (foldl (foldl (fun '(n, acc) t => (u32 (n + 1), pool4table_count t acc)))
              (0, (0, 0)) ss)
  end.

Section Foreach.
Context {B : Type}.

(** The slots from the offset's one on; [offset] is cleared once its table
    has been found. *)
Fixpoint foreach_tables (cb : pool4_sample -> B -> Z * B) (l : list pool4_table)
    (offset : option pool4_sample) (arg : B) : Z * option pool4_sample * B :=
  match l with
  | [] => (0, offset, arg)
  | t :: l =>
      match offset with
      | Some o =>
          if table_is (sample_mark o) (sample_proto o) t then
            let '(error, arg) := pool4table_foreach_sample cb t arg offset in
            if negb (error =? 0) then (error, offset, arg) else foreach_tables cb l None arg
          else foreach_tables cb l offset arg
      | None =>
          let '(error, arg) := pool4table_foreach_sample cb t arg None in
          if negb (error =? 0) then (error, None, arg) else foreach_tables cb l None arg
      end
  end.

Definition pool4db_foreach_sample (cb : pool4_sample -> B -> Z * B) (s : pool4db) (arg : B)
    (offset : option pool4_sample) : option (Z * B) :=
  match db s with
  | None => None
  | Some ss =>
      let first := match offset with Some o => slot_of s (sample_mark o) | None => O end in
      let '(error, _, arg) := foreach_tables cb (concat (drop first ss)) offset arg in
      Some (error, arg)
  end.

Definition pool4db_foreach_taddr4 (cb : ipv4_transport_addr -> B -> Z * B)
    (netdevs : list in_device) (route : option in_device) (s : pool4db)
    (mark l4_proto : Z) (daddr : in_addr) (arg : B) (offset : Z)
    : option (Z * B) :=
  match pool4db_is_empty s with
  | None => None
  | Some true => Some (pool4empty_foreach_taddr4 netdevs cb route daddr arg offset)
  | Some false =>
      match find_table s mark l4_proto with
      | None => None
      | Some (Some table) => Some (pool4table_foreach_taddr4 cb table arg offset)
      | Some None => Some (- errno_code ESRCH, arg)
      end
  end.
End Foreach.
End Db.

(** ** Sizes *)

Lemma power_loop_spec size fuel : forall p,
  0 <= p -> p + Z.of_nat fuel <= 32 -> size <= 2 ^ 31 -> 31 <= p + Z.of_nat fuel ->
  (forall q, 0 <= q < p -> 2 ^ q < size) ->
  let p' := power_loop size p fuel in
  0 <= p' <= 31 /\ size <= 2 ^ p' /\ (forall q, 0 <= q < p' -> 2 ^ q < size).
Proof.
  induction fuel as [|fuel IH]; intros p Hp Hf Hs Hf' Hq; simpl.
  - assert (p = 31 \/ p = 32) as [->| ->] by lia; [done|].
    specialize (Hq 31). lia.
  - destruct (decide (p = 32)) as [->|Hne]; [lia|].
    unfold u32. rewrite Z.shiftl_1_l, Z.mod_small.
    2:{ split; [lia|]. apply Z.pow_lt_mono_r; lia. }
    destruct (Z.ltb_spec (2 ^ p) size).
    + apply IH; try lia. intros q Hq'. destruct (Z.eq_dec q p) as [->|]; [done|]. apply Hq. lia.
    + split_and!; [lia | | lia | done]. destruct (Z.le_gt_cases p 31); [done|].
      specialize (Hq 31). lia.
Qed.

(** For every requested size up to [2^31], [init_power] finds the
    smallest power of two that is at least the size (16 when the size is 0);
    larger sizes are refused. *)
Lemma init_power_smallest size (Hs : 0 <= size) :
  let want := if size =? 0 then 16 else size in
  (want <= 2 ^ 31 -> exists p, init_power size = Ok p /\ 0 <= p <= 31 /\ want <= 2 ^ p /\
     forall q, 0 <= q < p -> 2 ^ q < want) /\
  (2 ^ 31 < want -> init_power size = Err EINVAL).
Proof.
  unfold init_power. set (want := if size =? 0 then 16 else size). cbv zeta.
  destruct (want >? 2 ^ 31) eqn:E; rewrite Z.gtb_ltb in E; bool_to_prop; split; intros; try lia.
  - done.
  - eexists. split; [reflexivity|]. apply power_loop_spec; lia.
Qed.

(** ** The invariant *)

Definition table_key (t : pool4_table) : Z * Z := (pt_mark t, pt_proto t).

Lemma table_is_iff mark proto t : table_is mark proto t = true <-> table_key t = (mark, proto).
Proof.
  unfold table_is, table_key. rewrite andb_true_iff, Z.eqb_eq, bool_decide_eq_true.
  split; [intros [-> ->]; done | intros [= -> ->]; done].
Qed.

Section Inv.
Variable hash_32 : Z -> Z -> Z.

(** What [linux/hash.h] documents: the result has [bits] bits. *)
Hypothesis hash_32_range : forall mark bits, 1 <= bits <= 31 -> 0 <= hash_32 mark bits < 2 ^ bits.

Definition db_inv (s : pool4db) : Prop :=
  exists ss, db s = Some ss /\ 1 <= power s <= 31 /\ Z.of_nat (length ss) = 2 ^ power s /\
  tables s = u32 (Z.of_nat (length (concat ss))) /\
  forall i slot, ss !! i = Some slot -> NoDup (table_key <$> slot) /\
    Forall (fun t => i = slot_of hash_32 s (pt_mark t) /\ table_inv t /\ pt_rows t <> []) slot.

Lemma find_in_replace mark proto t' l m p :
  table_key t' = (mark, proto) ->
  find_in m p (replace_in mark proto t' l) =
  if decide ((m, p) = (mark, proto))
  then (match find_in mark proto l with Some _ => Some t' | None => None end)
  else find_in m p l.
Proof.
  intros Hk. unfold find_in. induction l as [|t l IH]; simpl; [case_decide; done|].
  destruct (table_is mark proto t) eqn:E; simpl.
  - destruct (table_is m p t') eqn:E'; rewrite ?table_is_iff in *.
    + rewrite decide_True by congruence. done.
    + rewrite <- not_true_iff_false, table_is_iff in E'. rewrite decide_False by congruence.
      destruct (table_is m p t) eqn:E2; [apply table_is_iff in E2; congruence | done].
  - destruct (table_is m p t) eqn:E2; [|done]. apply table_is_iff in E2.
    rewrite <- not_true_iff_false, table_is_iff in E. rewrite decide_False by congruence. done.
Qed.

Lemma key_replace mark proto t' l :
  table_key t' = (mark, proto) -> table_key <$> replace_in mark proto t' l = table_key <$> l.
Proof.
  intros Hk. induction l as [|t l IH]; simpl; [done|].
  destruct (table_is mark proto t) eqn:E; rewrite !fmap_cons.
  - apply table_is_iff in E. rewrite Hk, E. done.
  - rewrite IH. done.
Qed.

Lemma Forall_replace P mark proto t' l :
  Forall P l -> P t' -> Forall P (replace_in mark proto t' l).
Proof.
  intros Hl Ht. induction Hl as [|t l Hp Hl IH]; simpl; [constructor|].
  case_match; apply Forall_cons; auto.
Qed.

Lemma length_replace_in mark proto t' l : length (replace_in mark proto t' l) = length l.
Proof. induction l as [|t l IH]; simpl; [done|]. case_match; simpl; congruence. Qed.

Lemma remove_in_spec mark proto l :
  NoDup (table_key <$> l) ->
  remove_in mark proto l `sublist_of` l /\
  (forall t, find_in mark proto l = Some t -> length l = S (length (remove_in mark proto l))) /\
  forall m p, find_in m p (remove_in mark proto l) =
    if decide ((m, p) = (mark, proto)) then None else find_in m p l.
Proof.
  unfold find_in. induction l as [|t l IH]; simpl; intros Hnd.
  { split_and!; [done | done |]. intros. case_decide; done. }
  rewrite ?fmap_cons in Hnd. apply NoDup_cons in Hnd as [Hni Hnd].
  destruct (IH Hnd) as (IH1 & IH2 & IH3).
  destruct (table_is mark proto t) eqn:E; simpl.
  - split_and!; [apply sublist_cons; done | done |].
    apply table_is_iff in E. intros m p. case_decide as Hk.
    + destruct (List.find (table_is m p) l) as [t2|] eqn:E2; [|done].
      apply find_some in E2 as [Hin Hi]. apply table_is_iff in Hi. destruct Hni.
      rewrite E, <- Hk, <- Hi. apply list_elem_of_fmap_2, list_elem_of_In. done.
    + destruct (table_is m p t) eqn:E2; [|done]. apply table_is_iff in E2. congruence.
  - split_and!; [apply sublist_skip; done | intros t' Ht'; rewrite (IH2 t' Ht'); done |].
    intros m p. destruct (table_is m p t) eqn:E2; [|apply IH3].
    rewrite decide_False; [done|]. intros Hk. apply table_is_iff in E2.
    rewrite <- not_true_iff_false, table_is_iff in E. congruence.
Qed.

Lemma slot_in_range s ss mark :
  1 <= power s <= 31 -> Z.of_nat (length ss) = 2 ^ power s ->
  exists slot : list pool4_table, ss !! slot_of hash_32 s mark = Some slot.
Proof.
  intros Hp Hl. apply lookup_lt_is_Some. unfold slot_of.
  pose proof (hash_32_range mark (power s) Hp). lia.
Qed.

Lemma length_concat_insert (ss : list (list pool4_table)) i slot slot' :
  ss !! i = Some slot ->
  Z.of_nat (length (concat (<[i := slot']> ss))) =
  Z.of_nat (length (concat ss)) - Z.of_nat (length slot) + Z.of_nat (length slot').
Proof.
  revert i. induction ss as [|s0 ss IH]; intros [|i] H; try done; simpl in *.
  - injection H as ->. rewrite !length_app. lia.
  - rewrite !length_app. specialize (IH i H). lia.
Qed.

(** Replacing a slot by one with the same discipline keeps the invariant. *)
Lemma set_slot_inv s ss i slot slot' count :
  db s = Some ss -> db_inv s -> ss !! i = Some slot ->
  NoDup (table_key <$> slot') ->
  Forall (fun t => i = slot_of hash_32 s (pt_mark t) /\ table_inv t /\ pt_rows t <> []) slot' ->
  count = u32 (tables s - Z.of_nat (length slot) + Z.of_nat (length slot')) ->
  db_inv (set_slot s i slot' ss count).
Proof.
  intros Hdb (ss' & Hdb' & Hp & Hl & Ht & Hall) Hi Hnd Hf Hc.
  rewrite Hdb in Hdb'. injection Hdb' as <-.
  exists (<[i := slot']> ss). unfold set_slot. simpl. split_and!; try done; try lia.
  - rewrite length_insert. done.
  - rewrite Hc, Ht, (length_concat_insert ss i slot) by done. unfold u32.
    rewrite <- (Zplus_mod_idemp_l (_ - _)), Zminus_mod_idemp_l, Zplus_mod_idemp_l. done.
  - intros j slot0 Hj. apply list_lookup_insert_Some in Hj as [(<- & <- & _)|[_ Hj]].
    + done.
    + apply (Hall j slot0 Hj).
Qed.

Lemma find_table_set_slot s ss i slot' count m p :
  (i < length ss)%nat ->
  find_table hash_32 (set_slot s i slot' ss count) m p =
  if decide (slot_of hash_32 s m = i) then Some (find_in m p slot')
  else match ss !! slot_of hash_32 s m with
       | Some slot => Some (find_in m p slot) | None => None end.
Proof.
  intros Hi. unfold find_table, set_slot. simpl.
  change (slot_of hash_32 (Pool4Db _ _ _) m) with (slot_of hash_32 s m).
  case_decide as E.
  - rewrite E, list_lookup_insert_eq by done. done.
  - rewrite list_lookup_insert_ne by done. done.
Qed.

(** The transport addresses of a mark and protocol. *)
Definition db_has (s : pool4db) (mark proto : Z) (ta : ipv4_transport_addr) : Prop :=
  exists t, find_table hash_32 s mark proto = Some (Some t) /\ pool4table_contains t ta = true.

Lemma find_table_slot s ss mark proto slot :
  db s = Some ss -> ss !! slot_of hash_32 s mark = Some slot ->
  find_table hash_32 s mark proto = Some (find_in mark proto slot).
Proof. intros Hdb Hs. unfold find_table. rewrite Hdb, Hs. done. Qed.

Lemma db_has_found s mark proto ta ft :
  find_table hash_32 s mark proto = Some ft ->
  db_has s mark proto ta <->
  match ft with Some t => pool4table_contains t ta = true | None => False end.
Proof.
  intros H. unfold db_has. rewrite H. destruct ft as [t|]; split.
  - intros (t' & [= <-] & Hc). done.
  - eauto.
  - intros (t' & [=] & _).
  - done.
Qed.

(** What a write to one table of the database changes. *)
Lemma find_table_update s ss mark proto slot slot' count :
  db s = Some ss -> ss !! slot_of hash_32 s mark = Some slot ->
  (forall m p, (m, p) <> (mark, proto) -> find_in m p slot' = find_in m p slot) ->
  let s' := set_slot s (slot_of hash_32 s mark) slot' ss count in
  find_table hash_32 s' mark proto = Some (find_in mark proto slot') /\
  forall m p, (m, p) <> (mark, proto) -> find_table hash_32 s' m p = find_table hash_32 s m p.
Proof.
  intros Hdb Hs Hother s'. subst s'.
  assert (Hlt : (slot_of hash_32 s mark < length ss)%nat)
    by (apply lookup_lt_is_Some; eauto).
  split; [rewrite find_table_set_slot, decide_True by done; done|].
  intros m p Hne. rewrite find_table_set_slot by done. unfold find_table. rewrite Hdb.
  case_decide as E; [|done]. rewrite E, Hs, Hother by done. done.
Qed.

Lemma find_in_key mark proto l t : find_in mark proto l = Some t -> t ∈ l /\ table_key t = (mark, proto).
Proof.
  intros H. apply find_some in H as [Hin H]. apply table_is_iff in H.
  split; [apply list_elem_of_In; done | done].
Qed.

Lemma find_in_none mark proto l : find_in mark proto l = None -> (mark, proto) ∉ (table_key <$> l).
Proof.
  intros H Hin. apply list_elem_of_fmap in Hin as (t & E & Ht%list_elem_of_In).
  pose proof (find_none _ _ H t Ht) as Hf.
  rewrite (proj2 (table_is_iff mark proto t)) in Hf; done.
Qed.

End Inv.

(** ** Requests *)

(** A request as the administrator gives it: a prefix without host bits and
    an ordered range. *)
Definition valid_request (prefix : ipv4_prefix) (ports : port_range) : Prop :=
  0 <= p4_len prefix /\ wf_addr4 (p4_address prefix) /\
  prefix4_validate (Some prefix) = Ok tt /\ wf_range ports /\ r_min ports <= r_max ports.

Definition hash_law (hash_32 : Z -> Z -> Z) : Prop :=
  forall mark bits, 1 <= bits <= 31 -> 0 <= hash_32 mark bits < 2 ^ bits.

Lemma table_inv_new mark proto : table_inv (Pool4Table mark proto []).
Proof. split_and!; [constructor | constructor | vm_compute; congruence]. Qed.

(** What an addition may do to the addresses of its mark and protocol: it
    gains exactly the requested ones if it succeeds, and loses nothing if it
    fails. *)
Definition gained hash_32 (s s' : pool4db) mark proto prefix ports (r : result unit) : Prop :=
  forall a x, wf_addr4 a ->
    let new := prefix4_contains prefix a = true /\
               port_range_contains (sanitize_range proto ports) x = true in
    let old := db_has hash_32 s mark proto (TAddr4 a x) in
    (r = Ok tt -> (db_has hash_32 s' mark proto (TAddr4 a x) <-> old \/ new)) /\
    (old -> db_has hash_32 s' mark proto (TAddr4 a x)) /\
    (db_has hash_32 s' mark proto (TAddr4 a x) -> old \/ new).

Lemma pool4db_add_run hash_32 al s mark proto prefix ports
    (Hh : hash_law hash_32) (Hi : db_inv hash_32 s) (Hreq : valid_request prefix ports) :
  exists r s' al', pool4db_add hash_32 al s mark proto prefix ports = Some (r, s', al') /\
  db_inv hash_32 s' /\
  (forall m p, (m, p) <> (mark, proto) -> find_table hash_32 s' m p = find_table hash_32 s m p) /\
  gained hash_32 s s' mark proto prefix ports r.
Proof.
  destruct Hreq as (Hl & Hw & Hv & Hwr & Ho).
  pose proof Hi as (ss & Hdb & Hp & Hlen & Htab & Hall).
  destruct (slot_in_range hash_32 Hh s ss mark Hp Hlen) as [slot Hs].
  destruct (Hall _ _ Hs) as [Hnd Hf]. unfold pool4db_add, gained. rewrite Hdb, Hs.
  pose proof (find_table_slot hash_32 s ss mark proto slot Hdb Hs) as Hft.
  destruct (find_in mark proto slot) as [t|] eqn:Efind.
  - destruct (find_in_key _ _ _ _ Efind) as [Hin Hkey].
    rewrite Forall_forall in Hf. destruct (Hf t Hin) as (Hslot & Hti & Hne).
    destruct (pool4table_add al t prefix ports) as [[r t'] al'] eqn:Eadd.
    destruct (pool4table_add_spec al t prefix ports r t' al' Hti Hl Hw Hv Hwr Ho Eadd)
      as (Hti' & Hk' & _ & Hmem).
    assert (Hkey' : table_key t' = (mark, proto)) by (unfold table_key in *; rewrite Hk'; done).
    destruct (find_table_update hash_32 s ss mark proto slot (replace_in mark proto t' slot)
                (tables s) Hdb Hs) as [Hfound Hother].
    { intros m p Hmp. rewrite find_in_replace, decide_False by done. done. }
    eexists _, _, _. split; [reflexivity|]. split; [|split; [exact Hother|]].
    + eapply set_slot_inv; [done|done|exact Hs|rewrite key_replace by done; done| |].
      * apply Forall_replace; [rewrite Forall_forall; done|]. split_and!; try done.
        -- unfold table_key in Hkey'. congruence.
        -- eapply pool4table_add_nonempty; [..|exact Eadd|]; auto.
      * rewrite length_replace_in, Htab. unfold u32. rewrite Z.sub_add, Z.mod_mod; done.
    + intros a x Ha. rewrite !(db_has_found _ _ _ _ _ _ Hft), !(db_has_found _ _ _ _ _ _ Hfound).
      rewrite find_in_replace, decide_True, Efind by done.
      unfold table_key in Hkey. injection Hkey as _ <-. apply (Hmem a x Ha).
  - unfold pool4table_create. destruct (kmalloc al) as [[] al1]; simpl.
    2:{ eexists _, _, _. split; [reflexivity|]. split_and!; try done.
        intros a x Ha. simpl. split_and!; [done | tauto | tauto]. }
    destruct (pool4table_add al1 (Pool4Table mark proto []) prefix ports) as [[r t'] al'] eqn:Eadd.
    destruct (pool4table_add_spec _ _ prefix ports r t' al' (table_inv_new mark proto)
                Hl Hw Hv Hwr Ho Eadd) as (Hti' & Hk' & _ & Hmem).
    destruct r as [[]|e].
    2:{ eexists _, _, _. split; [reflexivity|]. split_and!; try done.
        intros a x Ha. simpl. split_and!; [done | tauto | tauto]. }
    assert (Hkey' : table_key t' = (mark, proto)) by (unfold table_key in *; rewrite Hk'; done).
    destruct (find_table_update hash_32 s ss mark proto slot (t' :: slot)
                (u32 (tables s + 1)) Hdb Hs) as [Hfound Hother].
    { intros m p Hmp. unfold find_in. simpl.
      destruct (table_is m p t') eqn:E; [apply table_is_iff in E; congruence | done]. }
    eexists _, _, _. split; [reflexivity|]. split; [|split; [exact Hother|]].
    + eapply set_slot_inv; [done|done|exact Hs| | |].
      * rewrite fmap_cons, Hkey'. apply NoDup_cons. split; [apply find_in_none; done | done].
      * apply Forall_cons. split; [|done]. split_and!; try done.
        -- unfold table_key in Hkey'. congruence.
        -- eapply pool4table_add_nonempty; [..|exact Eadd|]; auto.
      * f_equal. simpl length. lia.
    + intros a x Ha. rewrite !(db_has_found _ _ _ _ _ _ Hft), !(db_has_found _ _ _ _ _ _ Hfound).
      unfold find_in. simpl. rewrite (proj2 (table_is_iff mark proto t') Hkey').
      specialize (Hmem a x Ha). simpl in Hmem.
      unfold pool4table_contains at 1 3 5 in Hmem. simpl in Hmem. intuition done.
Qed.

(** A database with two slots hashed by parity, and an empty one. *)
Definition parity_hash (mark bits : Z) : Z := mark mod 2 ^ bits.

Lemma parity_hash_law : hash_law parity_hash.
Proof. intros mark bits Hb. apply Z.mod_pos_bound. lia. Qed.

Definition db_two_slots : pool4db := Pool4Db (Some [[]; []]) 0 1.

Lemma db_two_slots_inv : db_inv parity_hash db_two_slots.
Proof.
  exists [[]; []]. simpl. split_and!; try done; try lia.
  intros i slot H. destruct i as [|[|i]]; simplify_eq/=; split; constructor.
Qed.

Definition request_prefix : ipv4_prefix := Prefix4 (InAddr 0xc0000200) 31.
Definition request_ports : port_range := PortRange 0 10.

Lemma request_valid : valid_request request_prefix request_ports.
Proof.
  unfold valid_request, wf_addr4, wf_range, is_u32, is_u16. cbn [request_prefix request_ports
    p4_len p4_address s_addr r_min r_max]. split_and!; (lia || reflexivity).
Qed.

(** What a removal may do to them: it takes exactly the requested ones if it
    succeeds, and nothing outside the request if it fails. *)
Definition lost hash_32 (s s' : pool4db) mark proto prefix ports (r : result unit) : Prop :=
  forall a x, wf_addr4 a ->
    let gone := prefix4_contains prefix a = true /\ port_range_contains ports x = true in
    let old := db_has hash_32 s mark proto (TAddr4 a x) in
    (r = Ok tt -> (db_has hash_32 s' mark proto (TAddr4 a x) <-> old /\ ~ gone)) /\
    (db_has hash_32 s' mark proto (TAddr4 a x) -> old) /\
    (old -> ~ gone -> db_has hash_32 s' mark proto (TAddr4 a x)).

Lemma pool4db_rm_run hash_32 al s mark proto prefix ports
    (Hh : hash_law hash_32) (Hi : db_inv hash_32 s) (Hreq : valid_request prefix ports) :
  exists r s' al', pool4db_rm hash_32 al s mark proto prefix ports = Some (r, s', al') /\
  db_inv hash_32 s' /\
  (r = Err ESRCH <-> find_table hash_32 s mark proto = Some None) /\ (r = Err ESRCH -> s' = s) /\
  (forall m p, (m, p) <> (mark, proto) -> find_table hash_32 s' m p = find_table hash_32 s m p) /\
  lost hash_32 s s' mark proto prefix ports r.
Proof.
  destruct Hreq as (Hl & Hw & Hv & Hwr & Ho).
  pose proof Hi as (ss & Hdb & Hp & Hlen & Htab & Hall).
  destruct (slot_in_range hash_32 Hh s ss mark Hp Hlen) as [slot Hs].
  destruct (Hall _ _ Hs) as [Hnd Hf]. unfold pool4db_rm, lost. rewrite Hdb, Hs.
  pose proof (find_table_slot hash_32 s ss mark proto slot Hdb Hs) as Hft.
  destruct (find_in mark proto slot) as [t|] eqn:Efind.
  2:{ eexists _, _, _. split; [reflexivity|]. split_and!; done. }
  assert (Hknown : find_table hash_32 s mark proto <> Some None) by (rewrite Hft; done).
  destruct (find_in_key _ _ _ _ Efind) as [Hin Hkey].
  rewrite Forall_forall in Hf. destruct (Hf t Hin) as (Hslot & Hti & Hne).
  destruct (pool4table_rm_spec al t prefix ports Hti Hl Hw Hv Hwr Ho)
    as (r & t' & al' & Erm & Hti' & Herr & Hmem). rewrite Erm.
  assert (Hkey' : table_key t' = (mark, proto)).
  { unfold pool4table_rm in Erm. repeat case_match; simplify_eq. done. }
  destruct (find_table_update hash_32 s ss mark proto slot (replace_in mark proto t' slot)
              (tables s) Hdb Hs) as [Hfound Hother].
  { intros m p Hmp. rewrite find_in_replace, decide_False by done. done. }
  assert (Hrep : pt_rows t' <> [] -> db_inv hash_32 (set_slot s (slot_of hash_32 s mark)
                    (replace_in mark proto t' slot) ss (tables s))).
  { intros Hne'. eapply set_slot_inv; [done|done|exact Hs|rewrite key_replace by done; done| |].
    - apply Forall_replace; [rewrite Forall_forall; done|]. split_and!; try done.
      unfold table_key in Hkey'. congruence.
    - rewrite length_replace_in, Htab. unfold u32. rewrite Z.sub_add, Z.mod_mod; done. }
  assert (Hspec : forall a x, wf_addr4 a ->
    let gone := prefix4_contains prefix a = true /\ port_range_contains ports x = true in
    let old := db_has hash_32 s mark proto (TAddr4 a x) in
    let new := pool4table_contains t' (TAddr4 a x) = true in
    (r = Ok tt -> (new <-> old /\ ~ gone)) /\ (new -> old) /\ (old -> ~ gone -> new)).
  { intros a x Ha gone old new. subst old. rewrite (db_has_found _ _ _ _ _ _ Hft).
    apply (Hmem a x Ha). }
  assert (Hhas : forall a x, db_has hash_32 (set_slot s (slot_of hash_32 s mark)
                    (replace_in mark proto t' slot) ss (tables s)) mark proto (TAddr4 a x)
                  <-> pool4table_contains t' (TAddr4 a x) = true).
  { intros a x. rewrite (db_has_found _ _ _ _ _ _ Hfound), find_in_replace, decide_True, Efind; done. }
  destruct r as [[]|e].
  2:{ eexists _, _, _. split; [reflexivity|]. split; [|split; [|split; [|split; [exact Hother|]]]].
      - apply Hrep. eapply pool4table_rm_err. exact Erm.
      - split; [|done]. intros [= ->]. specialize (Herr _ eq_refl). done.
      - intros [= ->]. specialize (Herr _ eq_refl). done.
      - intros a x Ha. rewrite Hhas. apply Hspec. done. }
  destruct (pool4table_is_empty t') eqn:Eempty.
  - eexists _, _, _. split; [reflexivity|].
    destruct (remove_in_spec mark proto slot Hnd) as (Hsub & Hrlen & Hrfind).
    destruct (find_table_update hash_32 s ss mark proto slot (remove_in mark proto slot)
              (u32 (tables s - 1)) Hdb Hs) as [Hfound' Hother'].
    { intros m p Hmp. rewrite Hrfind, decide_False by done. done. }
    split; [|split; [done|split; [done|split; [exact Hother'|]]]].
    + eapply set_slot_inv; [done|done|exact Hs| | |].
      * eapply sublist_NoDup; [|exact Hnd]. apply sublist_fmap. done.
      * rewrite Forall_forall. intros t2 Ht2. apply Hf. eapply sublist_elem_of; done.
      * f_equal. rewrite (Hrlen t Efind). lia.
    + intros a x Ha. rewrite (db_has_found _ _ _ _ _ _ Hfound'), Hrfind, decide_True by done.
      specialize (Hspec a x Ha). simpl in Hspec.
      assert (Hno : pool4table_contains t' (TAddr4 a x) = false).
      { unfold pool4table_is_empty in Eempty. unfold pool4table_contains.
        destruct (pt_rows t'); done. }
      rewrite Hno in Hspec. intuition done.
  - eexists _, _, _. split; [reflexivity|]. split; [|split; [done|split; [done|split; [exact Hother|]]]].
    + apply Hrep. unfold pool4table_is_empty in Eempty. intros E. rewrite E in Eempty. done.
    + intros a x Ha. rewrite Hhas. apply Hspec. done.
Qed.


