(* ===== verification/RbTree.v ===== *)
(** * Search trees

    The macros of [include/nat64/mod/common/rbtree.h] ([rbtree_find],
    [rbtree_add], [rbtree_find_node]) over binary trees, and the iteration
    from a starting point that the BIB and session tables share.

    The rebalancing of the kernel's [lib/rbtree.c] is an interface
    ([RbTree]): [rb_insert_color] and [rb_erase] may reshape the tree in any
    way that keeps the order of its nodes.  A tree that is never rebalanced
    is an instance ([plain_rbtree]).

    A comparison [cmp : A -> K -> Z] gives the sign of an entry against a
    key.  What the searches need of a tree is that the signs never decrease
    from left to right ([sign_sorted]), which also covers comparisons by a
    part of the key. *)
From S2P Require Import Prelude.

Inductive tree (A : Type) : Type :=
| Leaf
| Node (l : tree A) (x : A) (r : tree A).
Arguments Leaf {A}.
Arguments Node {A} l x r.

Fixpoint inorder {A} (t : tree A) : list A :=
  match t with
  | Leaf => []
  | Node l x r => inorder l ++ x :: inorder r
  end.

(** ** The kernel's side *)

Class RbTree : Type := {
  rb_insert_color {A} : tree A -> tree A;
  rb_erase {A} : (A -> bool) -> tree A -> tree A
}.

(** [rb_erase] is given the node to unlink, as the predicate that holds of
    it alone. *)
Class RbTreeLaws (R : RbTree) : Prop := {
  inorder_insert_color {A} (t : tree A) : inorder (rb_insert_color t) = inorder t;
  inorder_erase {A} (p : A -> bool) (t : tree A) :
    inorder (rb_erase p t) = List.filter (fun x => negb (p x)) (inorder t)
}.

(** ** Searching *)

Section Find.
Context {A K : Type} (compare_fn : A -> K -> Z).

Fixpoint rbtree_find (expected : K) (node : tree A) : option A :=
  match node with
  | Leaf => None
  | Node l entry r =>
      let comparison := compare_fn entry expected in
      if comparison <? 0 then rbtree_find expected r
      else if comparison >? 0 then rbtree_find expected l
      else Some entry
  end.

(** The descent of [rbtree_add] and [rb_link_node]; [None]: [-EEXIST]. *)
Fixpoint rb_link (entry : A) (key : K) (new : tree A) : option (tree A) :=
  match new with
  | Leaf => Some (Node Leaf entry Leaf)
  | Node l this r =>
      let result := compare_fn this key in
      if result <? 0 then
        match rb_link entry key r with Some r => Some (Node l this r) | None => None end
      else if result >? 0 then
        match rb_link entry key l with Some l => Some (Node l this r) | None => None end
      else None
  end.

Definition rbtree_add `{RbTree} (entry : A) (key : K) (root : tree A) : result (tree A) :=
  match rb_link entry key root with
  | None => Err EEXIST
  | Some root => Ok (rb_insert_color root)
  end.

(** [rbtree_find_node]: the last node visited before the slot ([parent]),
    and what is in the slot. *)
Fixpoint rbtree_find_node (expected : K) (node : tree A) (parent : option A)
    : option A * option A :=
  match node with
  | Leaf => (parent, None)
  | Node l entry r =>
      let comparison := compare_fn entry expected in
      if comparison <? 0 then rbtree_find_node expected r (Some entry)
      else if comparison >? 0 then rbtree_find_node expected l (Some entry)
      else (parent, Some entry)
  end.

End Find.

(** ** Iterating *)

Section Iterate.
Context {A K : Type} `{EqDecision A} (compare_fn : A -> K -> Z).

(** The nodes from [x] on: [rb_next] follows the order of the tree. *)
Fixpoint starting_at (x : A) (l : list A) : list A :=
  match l with
  | [] => []
  | y :: l' => if decide (x = y) then l else starting_at x l'
  end.

(** [find_starting_point]: where an iteration begins, as the nodes it will
    go through. *)
Definition find_starting_point (root : tree A) (offset : option K) (include_offset : bool)
    : list A :=
  match offset with
  | None => inorder root
  | Some offset =>
      match rbtree_find_node compare_fn offset root None with
      | (_, Some node) =>
          if include_offset then starting_at node (inorder root)
          else tail (starting_at node (inorder root))
      | (None, None) => []
      | (Some parent, None) =>
          if compare_fn parent offset <? 0 then tail (starting_at parent (inorder root))
          else starting_at parent (inorder root)
      end
  end.

End Iterate.

(** ** Laws of the searches *)

Section Laws.
Context {A K : Type} (cmp : A -> K -> Z).

(** From left to right, the signs go from negative to zero to positive. *)
Definition sign_sorted (k : K) (l : list A) : Prop :=
  StronglySorted (fun x y => Z.sgn (cmp x k) <= Z.sgn (cmp y k)) l.

Lemma sign_sorted_mid k l1 x l2 :
  sign_sorted k (l1 ++ x :: l2) ->
  sign_sorted k l1 /\ sign_sorted k l2 /\
  Forall (fun y => Z.sgn (cmp y k) <= Z.sgn (cmp x k)) l1 /\
  Forall (fun y => Z.sgn (cmp x k) <= Z.sgn (cmp y k)) l2.
Proof.
  unfold sign_sorted. induction l1 as [|y l1 IH]; simpl; intros H.
  - apply StronglySorted_inv in H as [H1 H2]. split_and!; try done; constructor.
  - apply StronglySorted_inv in H as [H1 H2]. destruct (IH H1) as (I1 & I2 & I3 & I4).
    apply Forall_app in H2 as [H2 H3]. apply Forall_cons in H3 as [H3 _].
    split_and!; try done; constructor; done.
Qed.

Lemma sgn_neg x k : cmp x k < 0 <-> Z.sgn (cmp x k) = -1.
Proof. rewrite Z.sgn_neg_iff. done. Qed.

Lemma sgn_pos x k : 0 < cmp x k <-> Z.sgn (cmp x k) = 1.
Proof. rewrite Z.sgn_pos_iff. done. Qed.

Lemma sgn_range x k : -1 <= Z.sgn (cmp x k) <= 1.
Proof. destruct (Z.sgn_spec (cmp x k)) as [[_ ->]|[[_ ->]|[_ ->]]]; lia. Qed.

Lemma Forall_neg_below k x l :
  Forall (fun y => Z.sgn (cmp y k) <= Z.sgn (cmp x k)) l -> cmp x k < 0 ->
  Forall (fun y => cmp y k < 0) l.
Proof.
  intros Hl Hx. apply sgn_neg in Hx. eapply Forall_impl; [exact Hl|]. intros y Hy. simpl in *.
  apply sgn_neg. pose proof (sgn_range y k). lia.
Qed.

Lemma Forall_pos_above k x l :
  Forall (fun y => Z.sgn (cmp x k) <= Z.sgn (cmp y k)) l -> 0 < cmp x k ->
  Forall (fun y => 0 < cmp y k) l.
Proof.
  intros Hl Hx. apply sgn_pos in Hx. eapply Forall_impl; [exact Hl|]. intros y Hy. simpl in *.
  apply sgn_pos. pose proof (sgn_range y k). lia.
Qed.

Lemma rbtree_find_spec k t :
  sign_sorted k (inorder t) ->
  match rbtree_find cmp k t with
  | Some x => x ∈ inorder t /\ cmp x k = 0
  | None => Forall (fun x => cmp x k <> 0) (inorder t)
  end.
Proof.
  induction t as [|l IHl x r IHr]; simpl; intros Hs; [constructor|].
  destruct (sign_sorted_mid _ _ _ _ Hs) as (Sl & Sr & Fl & Fr).
  destruct (Z.ltb_spec (cmp x k) 0) as [Hx|Hx].
  - pose proof (Forall_neg_below _ _ _ Fl Hx) as Nl. specialize (IHr Sr).
    destruct (rbtree_find cmp k r) as [y|].
    + destruct IHr. split; [set_solver|done].
    + apply Forall_app. split; [|apply Forall_cons; split; [lia|done]].
      eapply Forall_impl; [exact Nl|]. simpl. lia.
  - destruct (cmp x k >? 0) eqn:E; rewrite Z.gtb_ltb in E; bool_to_prop.
    + pose proof (Forall_pos_above _ _ _ Fr E) as Nr. specialize (IHl Sl).
      destruct (rbtree_find cmp k l) as [y|].
      * destruct IHl. split; [set_solver|done].
      * apply Forall_app. split; [done|apply Forall_cons; split; [lia|]].
        eapply Forall_impl; [exact Nr|]. simpl. lia.
    + split; [set_solver|lia].
Qed.

Lemma rb_link_spec entry k t :
  sign_sorted k (inorder t) ->
  match rb_link cmp entry k t with
  | None => exists x, x ∈ inorder t /\ cmp x k = 0
  | Some t' => exists l1 l2, inorder t = l1 ++ l2 /\ inorder t' = l1 ++ entry :: l2 /\
      Forall (fun y => cmp y k < 0) l1 /\ Forall (fun y => 0 < cmp y k) l2
  end.
Proof.
  induction t as [|l IHl x r IHr]; simpl; intros Hs.
  { exists [], []. auto. }
  destruct (sign_sorted_mid _ _ _ _ Hs) as (Sl & Sr & Fl & Fr).
  destruct (Z.ltb_spec (cmp x k) 0) as [Hx|Hx].
  - pose proof (Forall_neg_below _ _ _ Fl Hx) as Nl. specialize (IHr Sr).
    destruct (rb_link cmp entry k r) as [r'|].
    + destruct IHr as (l1 & l2 & E1 & E2 & F1 & F2).
      exists (inorder l ++ x :: l1), l2. simpl. rewrite E1, E2, <- !app_assoc. simpl.
      split_and!; try done. apply Forall_app. split; [done|]. constructor; done.
    + destruct IHr as (y & Hy & ?). exists y. split; [set_solver|done].
  - destruct (cmp x k >? 0) eqn:E; rewrite Z.gtb_ltb in E; bool_to_prop.
    + pose proof (Forall_pos_above _ _ _ Fr E) as Nr. specialize (IHl Sl).
      destruct (rb_link cmp entry k l) as [l'|].
      * destruct IHl as (l1 & l2 & E1 & E2 & F1 & F2).
        exists l1, (l2 ++ x :: inorder r). simpl. rewrite E1, E2, <- !app_assoc. simpl.
        split_and!; try done. apply Forall_app. split; [done|]. constructor; done.
      * destruct IHl as (y & Hy & ?). exists y. split; [set_solver|done].
    + exists x. split; [set_solver|lia].
Qed.

Lemma rbtree_add_spec `{RbTreeLaws} entry k t :
  sign_sorted k (inorder t) ->
  match rbtree_add cmp entry k t with
  | Err e => e = EEXIST /\ exists x, x ∈ inorder t /\ cmp x k = 0
  | Ok t' => exists l1 l2, inorder t = l1 ++ l2 /\ inorder t' = l1 ++ entry :: l2 /\
      Forall (fun y => cmp y k < 0) l1 /\ Forall (fun y => 0 < cmp y k) l2
  end.
Proof.
  intros Hs. unfold rbtree_add. pose proof (rb_link_spec entry k t Hs) as Hl.
  destruct (rb_link cmp entry k t) as [t'|]; [|done].
  rewrite inorder_insert_color. done.
Qed.

(** Where the search for an absent key ends: next to the slot. *)
Lemma find_node_spec k t : forall parent,
  sign_sorted k (inorder t) ->
  match rbtree_find_node cmp k t parent with
  | (_, Some x) => x ∈ inorder t /\ cmp x k = 0
  | (p, None) =>
      (t = Leaf /\ p = parent) \/
      exists l1 l2 q, inorder t = l1 ++ l2 /\ p = Some q /\
        Forall (fun y => cmp y k < 0) l1 /\ Forall (fun y => 0 < cmp y k) l2 /\
        ((exists l1', l1 = l1' ++ [q]) \/ (exists l2', l2 = q :: l2'))
  end.
Proof.
  induction t as [|l IHl x r IHr]; simpl; intros parent Hs; [auto|].
  destruct (sign_sorted_mid _ _ _ _ Hs) as (Sl & Sr & Fl & Fr).
  destruct (Z.ltb_spec (cmp x k) 0) as [Hx|Hx].
  - pose proof (Forall_neg_below _ _ _ Fl Hx) as Nl. specialize (IHr (Some x) Sr).
    destruct (rbtree_find_node cmp k r (Some x)) as [p [y|]].
    + destruct IHr. split; [set_solver|done].
    + right. destruct IHr as [[-> ->]|(l1 & l2 & q & E & -> & F1 & F2 & Hq)].
      * exists (inorder l ++ [x]), [], x. split_and!; try done.
        -- rewrite app_nil_r. done.
        -- apply Forall_app. split; [done|]. constructor; [done|constructor].
        -- left. eauto.
      * exists (inorder l ++ x :: l1), l2, q. rewrite E, <- app_assoc. split_and!; try done.
        -- apply Forall_app. split; [done|]. constructor; done.
        -- destruct Hq as [[l1' ->]|Hq]; [left|right; done].
           exists (inorder l ++ x :: l1'). rewrite <- app_assoc. done.
  - destruct (cmp x k >? 0) eqn:E0; rewrite Z.gtb_ltb in E0; bool_to_prop.
    + pose proof (Forall_pos_above _ _ _ Fr E0) as Nr. specialize (IHl (Some x) Sl).
      destruct (rbtree_find_node cmp k l (Some x)) as [p [y|]].
      * destruct IHl. split; [set_solver|done].
      * right. destruct IHl as [[-> ->]|(l1 & l2 & q & E & -> & F1 & F2 & Hq)].
        -- exists [], (x :: inorder r), x. split_and!; try done; [constructor; done|]. right. eauto.
        -- exists l1, (l2 ++ x :: inorder r), q. rewrite E, <- app_assoc. split_and!; try done.
           ++ apply Forall_app. split; [done|]. constructor; done.
           ++ destruct Hq as [Hq|[l2' ->]]; [left; done|right]. simpl. eauto.
    + split; [set_solver|lia].
Qed.

End Laws.

(** ** Starting points *)

Lemma starting_at_app {A} `{EqDecision A} (x : A) l1 l2 :
  x ∉ l1 -> starting_at x (l1 ++ x :: l2) = x :: l2.
Proof.
  induction l1 as [|y l1 IH]; simpl; intros Hni.
  - rewrite decide_True by done. done.
  - rewrite decide_False by set_solver. apply IH. set_solver.
Qed.

Lemma filter_none {A} (p : A -> bool) l :
  Forall (fun x => p x = false) l -> List.filter p l = [].
Proof. induction 1 as [|x l Hx _ IH]; simpl; [done|]. rewrite Hx. done. Qed.

Lemma filter_full {A} (p : A -> bool) l :
  Forall (fun x => p x = true) l -> List.filter p l = l.
Proof. induction 1 as [|x l Hx _ IH]; simpl; [done|]. rewrite Hx, IH. done. Qed.

Section Start.
Context {A K : Type} `{EqDecision A} (cmp : A -> K -> Z).

(** Whether an iteration from [offset] goes through an entry. *)
Definition past_offset (offset : K) (include_offset : bool) (x : A) : bool :=
  if include_offset then 0 <=? cmp x offset else 0 <? cmp x offset.

Lemma filter_split k incl l1 l2 :
  Forall (fun y => cmp y k < 0) l1 -> Forall (fun y => 0 < cmp y k) l2 ->
  List.filter (past_offset k incl) (l1 ++ l2) = l2.
Proof.
  intros F1 F2. rewrite List.filter_app, filter_none, filter_full; [done| |].
  - eapply Forall_impl; [exact F2|]. intros y Hy. simpl in Hy. unfold past_offset.
    destruct incl; [apply Z.leb_le | apply Z.ltb_lt]; lia.
  - eapply Forall_impl; [exact F1|]. intros y Hy. simpl in Hy. unfold past_offset.
    destruct incl; [apply Z.leb_gt | apply Z.ltb_ge]; lia.
Qed.

(** The iteration goes through the entries after the offset, and through the
    offset itself when it is to be included, whether or not it is there. *)
Lemma find_starting_point_spec k incl t :
  NoDup (inorder t) -> sign_sorted cmp k (inorder t) ->
  (forall x y, x ∈ inorder t -> y ∈ inorder t -> cmp x k = 0 -> cmp y k = 0 -> x = y) ->
  find_starting_point cmp t (Some k) incl = List.filter (past_offset k incl) (inorder t).
Proof.
  intros Hnd Hs Huniq. unfold find_starting_point.
  pose proof (find_node_spec cmp k t None Hs) as Hf.
  destruct (rbtree_find_node cmp k t None) as [p [x|]].
  - destruct Hf as [Hin Hx]. apply list_elem_of_split in Hin as (l1 & l2 & E).
    rewrite E in *. apply NoDup_app in Hnd as (_ & Hd & Hnd2).
    apply NoDup_cons in Hnd2 as [Hni2 _].
    destruct (sign_sorted_mid cmp _ _ _ _ Hs) as (_ & _ & F1 & F2).
    rewrite Hx in F1, F2. simpl in F1, F2.
    assert (Hni1 : x ∉ l1) by (intros H1; apply (Hd x H1); left).
    assert (N1 : Forall (fun y => cmp y k < 0) l1).
    { rewrite Forall_forall in F1 |- *. intros y Hy. specialize (F1 y Hy).
      destruct (Z.eq_dec (cmp y k) 0) as [Ey|Ey].
      - assert (y = x) by (apply Huniq; set_solver). subst. done.
      - destruct (Z.sgn_spec (cmp y k)) as [[? ?]|[[? ?]|[? ?]]]; lia. }
    assert (N2 : Forall (fun y => 0 < cmp y k) l2).
    { rewrite Forall_forall in F2 |- *. intros y Hy. specialize (F2 y Hy).
      destruct (Z.eq_dec (cmp y k) 0) as [Ey|Ey].
      - assert (y = x) by (apply Huniq; set_solver). subst. done.
      - destruct (Z.sgn_spec (cmp y k)) as [[? ?]|[[? ?]|[? ?]]]; lia. }
    rewrite starting_at_app by done.
    rewrite List.filter_app, (filter_none _ l1). simpl.
    2:{ eapply Forall_impl; [exact N1|]. intros y Hy. simpl in Hy. unfold past_offset.
        destruct incl; [apply Z.leb_gt | apply Z.ltb_ge]; lia. }
    assert (Hpx : past_offset k incl x = incl) by (unfold past_offset; rewrite Hx; destruct incl; done).
    rewrite Hpx, (filter_full _ l2).
    2:{ eapply Forall_impl; [exact N2|]. intros y Hy. simpl in Hy. unfold past_offset.
        destruct incl; [apply Z.leb_le | apply Z.ltb_lt]; lia. }
    destruct incl, p; done.
  - destruct Hf as [[-> ->]|(l1 & l2 & q & E & -> & F1 & F2 & Hq)]; [done|].
    rewrite E in *. rewrite (filter_split k incl l1 l2) by done.
    destruct Hq as [[l1' ->]|[l2' ->]].
    + apply Forall_app in F1 as [_ F1]. apply Forall_cons in F1 as [Hq _].
      destruct (Z.ltb_spec (cmp q k) 0); [|lia]. rewrite <- app_assoc. simpl.
      rewrite starting_at_app; [done|]. rewrite <- app_assoc in Hnd. simpl in Hnd.
      apply NoDup_app in Hnd as (_ & Hd & _). intros Hin. apply (Hd q Hin). left.
    + apply Forall_cons in F2 as [Hq F2].
      destruct (Z.ltb_spec (cmp q k) 0); [lia|]. rewrite starting_at_app; [done|].
      apply NoDup_app in Hnd as (_ & Hd & _). intros Hin. apply (Hd q Hin). left.
Qed.

End Start.

(** ** A tree without rebalancing *)

Fixpoint join {A} (l r : tree A) : tree A :=
  match l with
  | Leaf => r
  | Node ll x lr => Node ll x (join lr r)
  end.

Fixpoint plain_erase {A} (p : A -> bool) (t : tree A) : tree A :=
  match t with
  | Leaf => Leaf
  | Node l x r =>
      if p x then join (plain_erase p l) (plain_erase p r)
      else Node (plain_erase p l) x (plain_erase p r)
  end.

Definition plain_rbtree : RbTree := {|
  rb_insert_color A t := t;
  rb_erase A p t := plain_erase p t
|}.

Lemma inorder_join {A} (l r : tree A) : inorder (join l r) = inorder l ++ inorder r.
Proof.
  induction l as [|ll _ x lr IH]; simpl; [done|]. rewrite IH, <- app_assoc. done.
Qed.

Lemma plain_rbtree_laws : RbTreeLaws plain_rbtree.
Proof.
  constructor; [done|]. intros A p t. simpl. induction t as [|l IHl x r IHr]; simpl; [done|].
  rewrite List.filter_app. simpl. destruct (p x); simpl.
  - rewrite inorder_join, IHl, IHr. done.
  - rewrite IHl, IHr. done.
Qed.

(** ** Lists sorted by a numeric key *)

Section SortedBy.
Context {A : Type} (f : A -> Z).

Definition sorted_by (l : list A) : Prop := StronglySorted (fun x y => f x < f y) l.

Lemma sorted_by_app l1 l2 :
  sorted_by (l1 ++ l2) <->
  sorted_by l1 /\ sorted_by l2 /\ forall x y, x ∈ l1 -> y ∈ l2 -> f x < f y.
Proof.
  unfold sorted_by. induction l1 as [|x l1 IH]; simpl.
  - split; [intros; split_and!; try done; [constructor | intros ?? Hx; inversion Hx] | tauto].
  - split.
    + intros H. apply StronglySorted_inv in H as [H1 H2]. apply IH in H1 as (I1 & I2 & I3).
      apply Forall_app in H2 as [F1 F2]. split_and!; [constructor; done | done |].
      rewrite Forall_forall in F2. intros a b Ha Hb.
      apply elem_of_cons in Ha as [->|Ha]; auto.
    + intros (H1 & H2 & H3). apply StronglySorted_inv in H1 as [H1 F1]. constructor.
      * apply IH. split_and!; try done. intros a b Ha Hb. apply H3; [right; done | done].
      * apply Forall_app. split; [done|]. apply Forall_forall. intros b Hb. apply H3; [left|done].
Qed.

Lemma sorted_by_insert l1 e l2 :
  sorted_by (l1 ++ l2) -> Forall (fun y => f y < f e) l1 -> Forall (fun y => f e < f y) l2 ->
  sorted_by (l1 ++ e :: l2).
Proof.
  intros Hs F1 F2. apply sorted_by_app in Hs as (S1 & S2 & S3). apply sorted_by_app. split_and!.
  - done.
  - constructor; done.
  - rewrite Forall_forall in F1. intros x y Hx Hy. apply elem_of_cons in Hy as [->|Hy]; auto.
Qed.

Lemma sorted_by_filter p l : sorted_by l -> sorted_by (List.filter p l).
Proof.
  unfold sorted_by. induction 1 as [|x l _ IH F]; simpl; [constructor|].
  destruct (p x); [|done]. constructor; [done|]. rewrite Forall_forall in F |- *.
  intros y Hy. apply list_elem_of_In, filter_In in Hy as [Hy _]. apply F, list_elem_of_In. done.
Qed.

Lemma sorted_by_inj l x y : sorted_by l -> x ∈ l -> y ∈ l -> f x = f y -> x = y.
Proof.
  unfold sorted_by. induction 1 as [|z l _ IH F]; intros Hx Hy E; [inversion Hx|].
  rewrite Forall_forall in F.
  apply elem_of_cons in Hx as [->|Hx]; apply elem_of_cons in Hy as [->|Hy]; auto.
  - specialize (F y Hy). lia.
  - specialize (F x Hx). lia.
Qed.

Lemma sorted_by_NoDup l : sorted_by l -> NoDup l.
Proof.
  unfold sorted_by. induction 1 as [|x l _ IH F]; constructor; [|done].
  rewrite Forall_forall in F. intros Hx. specialize (F x Hx). lia.
Qed.

Lemma sorted_by_sign {K} (cmp : A -> K -> Z) k z l :
  (forall x, x ∈ l -> Z.sgn (cmp x k) = Z.sgn (f x - z)) ->
  sorted_by l -> sign_sorted cmp k l.
Proof.
  unfold sorted_by, sign_sorted. intros Hc Hs. induction Hs as [|x l _ IH F]; [constructor|].
  constructor; [apply IH; intros; apply Hc; right; done|].
  rewrite Forall_forall in F |- *. intros y Hy. rewrite (Hc x), (Hc y) by (left || (right; done)).
  specialize (F y Hy).
  destruct (Z.sgn_spec (f x - z)) as [[? ->]|[[? ->]|[? ->]]],
    (Z.sgn_spec (f y - z)) as [[? ->]|[[? ->]|[? ->]]]; lia.
Qed.

End SortedBy.

(** A comparison whose sign is that of the difference of two numeric keys. *)
Section Keyed.
Context {A K : Type} (f : A -> Z) (cmp : A -> K -> Z) (k : K) (z : Z) (l : list A).
Hypothesis Hcmp : forall x, x ∈ l -> Z.sgn (cmp x k) = Z.sgn (f x - z).

Lemma keyed_zero x : x ∈ l -> cmp x k = 0 <-> f x = z.
Proof.
  intros Hx. specialize (Hcmp x Hx). rewrite <- (Z.sgn_null_iff (cmp x k)), Hcmp, Z.sgn_null_iff. lia.
Qed.

Lemma keyed_neg x : x ∈ l -> cmp x k < 0 <-> f x < z.
Proof.
  intros Hx. specialize (Hcmp x Hx). rewrite <- (Z.sgn_neg_iff (cmp x k)), Hcmp, Z.sgn_neg_iff. lia.
Qed.

Lemma keyed_pos x : x ∈ l -> 0 < cmp x k <-> z < f x.
Proof.
  intros Hx. specialize (Hcmp x Hx). rewrite <- (Z.sgn_pos_iff (cmp x k)), Hcmp, Z.sgn_pos_iff. lia.
Qed.
End Keyed.

(** A predicate that holds up to a bound splits a sorted list in two. *)
Lemma sorted_by_partition {A} (f : A -> Z) (p : A -> bool) bound l :
  sorted_by f l -> (forall x, x ∈ l -> p x = true <-> f x < bound) ->
  l = List.filter p l ++ List.filter (fun x => negb (p x)) l.
Proof.
  unfold sorted_by. induction 1 as [|x l Hs IH F]; intros Hp; [done|]. simpl.
  destruct (p x) eqn:E; simpl.
  - f_equal. apply IH. intros y Hy. apply Hp. right. done.
  - assert (Hno : Forall (fun y => p y = false) l).
    { rewrite Forall_forall in F |- *. intros y Hy. specialize (F y Hy).
      apply not_true_iff_false. rewrite (Hp y) by (right; done).
      apply not_true_iff_false in E. rewrite (Hp x) in E by left. lia. }
    rewrite (filter_none p l Hno), filter_full; [done|].
    eapply Forall_impl; [exact Hno|]. simpl. intros y ->. done.
Qed.

Lemma filter_sublist {A} (p : A -> bool) (l : list A) : List.filter p l `sublist_of` l.
Proof. induction l as [|x l IH]; simpl; [done|]. destruct (p x); constructor; done. Qed.

Lemma filter_filter {A} (p q : A -> bool) l :
  List.filter p (List.filter q l) = List.filter (fun x => q x && p x) l.
Proof.
  induction l as [|x l IH]; simpl; [done|]. destruct (q x); simpl; [destruct (p x)|]; rewrite IH; done.
Qed.

Lemma filter_ext_in {A} (p q : A -> bool) l :
  (forall x, x ∈ l -> p x = q x) -> List.filter p l = List.filter q l.
Proof.
  induction l as [|x l IH]; intros H; simpl; [done|]. rewrite (H x) by left.
  rewrite IH; [done|]. intros y Hy. apply H. right. done.
Qed.

Lemma elem_of_filter_bool {A} (p : A -> bool) l x :
  x ∈ List.filter p l <-> x ∈ l /\ p x = true.
Proof. rewrite !list_elem_of_In. apply filter_In. Qed.

Lemma filter_perm {A} (p : A -> bool) l1 l2 : l1 ≡ₚ l2 -> List.filter p l1 ≡ₚ List.filter p l2.
Proof.
  induction 1 as [|x l1 l2 _ IH|x y l|l1 l2 l3 _ IH1 _ IH2]; simpl.
  - done.
  - destruct (p x); [apply Permutation_skip|]; done.
  - destruct (p x), (p y); try done. apply Permutation_swap.
  - etrans; done.
Qed.

#[export] Instance filter_bool_proper {A} (p : A -> bool) :
  Proper (Permutation ==> Permutation) (List.filter p).
Proof. intros l1 l2 H. apply filter_perm. done. Qed.

(** ** Removing a node by its address *)

Section ByLoc.
Context {A : Type} (loc : A -> positive).

Definition other_than (x y : A) : bool := negb (Pos.eqb (loc y) (loc x)).

Lemma other_than_keep x l : loc x ∉ (loc <$> l) -> List.filter (other_than x) l = l.
Proof.
  intros Hl. apply filter_full, Forall_forall. intros y Hy. apply negb_true_iff, Pos.eqb_neq.
  intros E. apply Hl. rewrite <- E. apply list_elem_of_fmap_2. done.
Qed.

Lemma other_than_split x l1 l2 :
  loc x ∉ (loc <$> (l1 ++ l2)) -> List.filter (other_than x) (l1 ++ x :: l2) = l1 ++ l2.
Proof.
  rewrite fmap_app, elem_of_app. intros Hni. rewrite List.filter_app. simpl.
  unfold other_than at 2. rewrite Pos.eqb_refl. simpl. rewrite !other_than_keep by tauto. done.
Qed.

Lemma other_than_perm x l :
  x ∈ l -> NoDup (loc <$> l) -> l ≡ₚ x :: List.filter (other_than x) l.
Proof.
  intros Hx Hnd. apply list_elem_of_split in Hx as (l1 & l2 & ->).
  rewrite fmap_app, fmap_cons, <- Permutation_middle in Hnd. apply NoDup_cons in Hnd as [Hni _].
  rewrite other_than_split; [rewrite <- Permutation_middle; done|]. rewrite fmap_app. done.
Qed.

Lemma NoDup_fmap_filter p l : NoDup (loc <$> l) -> NoDup (loc <$> List.filter p l).
Proof. intros H. eapply sublist_NoDup; [|exact H]. apply sublist_fmap, filter_sublist. Qed.

End ByLoc.

(** How many nodes of a list are at an address. *)
Section RefsIn.
Context {A : Type} (f : A -> positive).

Definition refs_in (l : list A) (loc : positive) : Z :=
  Z.of_nat (length (List.filter (fun x => Pos.eqb (f x) loc) l)).

Lemma refs_in_nil loc : refs_in [] loc = 0.
Proof. done. Qed.

Lemma refs_in_cons x l loc : refs_in (x :: l) loc = Z.b2z (Pos.eqb (f x) loc) + refs_in l loc.
Proof. unfold refs_in. simpl. destruct (Pos.eqb _ loc); simpl; lia. Qed.

Lemma refs_in_perm l1 l2 loc : l1 ≡ₚ l2 -> refs_in l1 loc = refs_in l2 loc.
Proof. intros H. unfold refs_in. rewrite H. done. Qed.

Lemma refs_in_app l1 l2 loc : refs_in (l1 ++ l2) loc = refs_in l1 loc + refs_in l2 loc.
Proof. unfold refs_in. rewrite List.filter_app, length_app. lia. Qed.

Lemma refs_in_nonneg l loc : 0 <= refs_in l loc.
Proof. unfold refs_in. lia. Qed.

Lemma refs_in_pos x l : x ∈ l -> 0 < refs_in l (f x).
Proof.
  intros H. apply list_elem_of_split in H as (l1 & l2 & ->).
  rewrite refs_in_app, refs_in_cons, Pos.eqb_refl. simpl.
  pose proof (refs_in_nonneg l1 (f x)). pose proof (refs_in_nonneg l2 (f x)). lia.
Qed.

End RefsIn.

(** Adding a node whose key is not in a tree sorted by that key. *)
Lemma rbtree_add_keyed {A K} `{RbTreeLaws} (f : A -> Z) (cmp : A -> K -> Z) x k t :
  sorted_by f (inorder t) ->
  (forall y, y ∈ inorder t -> Z.sgn (cmp y k) = Z.sgn (f y - f x)) ->
  match rbtree_add cmp x k t with
  | Err e => e = EEXIST /\ exists y, y ∈ inorder t /\ f y = f x
  | Ok t' => sorted_by f (inorder t') /\ inorder t' ≡ₚ x :: inorder t /\
      (exists l1 l2, inorder t = l1 ++ l2 /\ inorder t' = l1 ++ x :: l2) /\
      forall y, y ∈ inorder t -> f y <> f x
  end.
Proof.
  intros Hs Hc. pose proof (rbtree_add_spec cmp x k t (sorted_by_sign _ _ _ _ _ Hc Hs)) as Ha.
  destruct (rbtree_add cmp x k t) as [t'|e].
  - destruct Ha as (l1 & l2 & E & E' & F1 & F2). rewrite Forall_forall in F1, F2.
    assert (Hin : forall y, y ∈ l1 \/ y ∈ l2 -> y ∈ inorder t) by (intros y; rewrite E, elem_of_app; done).
    assert (G1 : forall y, y ∈ l1 -> f y < f x)
      by (intros y Hy; rewrite <- (keyed_neg _ _ _ _ _ Hc); auto).
    assert (G2 : forall y, y ∈ l2 -> f x < f y)
      by (intros y Hy; rewrite <- (keyed_pos _ _ _ _ _ Hc); auto).
    split; [|split; [|split]].
    + rewrite E'. apply sorted_by_insert; [rewrite <- E; done|apply Forall_forall; auto..].
    + rewrite E', E. symmetry. apply Permutation_middle.
    + eauto.
    + intros y Hy. rewrite E, elem_of_app in Hy.
      destruct Hy as [Hy|Hy]; [specialize (G1 y Hy) | specialize (G2 y Hy)]; lia.
  - destruct Ha as (-> & y & Hy & Hz). split; [done|]. exists y. split; [done|].
    apply (keyed_zero _ _ _ _ _ Hc); done.
Qed.

(** Searching a tree sorted by a key finds exactly the node with the key. *)
Lemma rbtree_find_keyed {A K} (f : A -> Z) (cmp : A -> K -> Z) k z t x :
  sorted_by f (inorder t) ->
  (forall y, y ∈ inorder t -> Z.sgn (cmp y k) = Z.sgn (f y - z)) ->
  rbtree_find cmp k t = Some x <-> x ∈ inorder t /\ f x = z.
Proof.
  intros Hs Hc. pose proof (rbtree_find_spec cmp k t (sorted_by_sign _ _ _ _ _ Hc Hs)) as Hf.
  destruct (rbtree_find cmp k t) as [y|].
  - destruct Hf as [Hy Hz]. rewrite (keyed_zero _ _ _ _ _ Hc) in Hz by done.
    split; [intros [= <-]; done|]. intros [Hx E]. f_equal.
    eapply sorted_by_inj; [exact Hs|done|done|congruence].
  - split; [done|]. intros [Hx E]. exfalso. rewrite Forall_forall in Hf. apply (Hf x Hx).
    apply (keyed_zero _ _ _ _ _ Hc); done.
Qed.
