(* ===== verification/RbClear.v ===== *)
(** * Freeing a tree

    [mod/common/rbtree.c]: [rbtree_clear], which frees the nodes of a tree in
    postorder without recursion.  It is modelled twice.  [rbtree_clear] works
    on trees as values, with the nodes above the current one as a path, and is
    the one the databases of the module use.  [rb_clear] works on nodes in
    memory, with the pointers to parent and children of [struct rb_node]: to
    read or write a node that is not there, or was freed, is a fault.  The
    theorem says that both do what the recursive traversal does. *)
From S2P Require Import Prelude Types RbTree.

(** ** rbtree.c *)

(** The nodes above one, up to the root: the node was reached from the left of
    [x] or from its right. *)
Inductive path (A : Type) : Type :=
| Top
| FromLeft (x : A) (r : tree A) (p : path A)
| FromRight (l : tree A) (x : A) (p : path A).
Arguments Top {A}.
Arguments FromLeft {A} x r p.
Arguments FromRight {A} l x p.

(** [current_hook]: a node, its children and what is above it. *)
Record hook (A : Type) : Type := Hook {
  rb_left : tree A;
  rb_item : A;
  rb_right : tree A;
  rb_above : path A
}.
Arguments Hook {A} rb_left rb_item rb_right rb_above.
Arguments rb_left {A} h.
Arguments rb_item {A} h.
Arguments rb_right {A} h.
Arguments rb_above {A} h.

Section Clear.
Context {A St : Type} (destructor : A -> M St unit).

(** [while (current_hook->rb_left) current_hook = current_hook->rb_left] *)
Fixpoint leftmost (l : tree A) (x : A) (r : tree A) (p : path A) : hook A :=
  match l with
  | Leaf => Hook Leaf x r p
  | Node l' x' r' => leftmost l' x' r' (FromLeft x r p)
  end.

(** [while (current_hook->rb_right)]: to the first node without children. *)
Fixpoint descend (fuel : nat) (h : hook A) : option (hook A) :=
  match fuel with
  | O => None
  | S fuel =>
      match rb_right h with
      | Leaf => Some h
      | Node l x r => descend fuel (leftmost l x r (FromRight (rb_left h) (rb_item h) (rb_above h)))
      end
  end.

(** The parent, which does not point to the node any more. *)
Definition parent_hook (h : hook A) : option (hook A) :=
  match rb_above h with
  | Top => None
  | FromLeft x r p => Some (Hook Leaf x r p)
  | FromRight l x p => Some (Hook l x Leaf p)
  end.

Fixpoint clear_loop (fuel n : nat) (current_hook : option (hook A)) : M St unit :=
  match current_hook, fuel with
  | None, _ => mret tt
  | Some _, O => fault
  | Some h, S fuel =>
      h ← load (descend n h);
      let parent := parent_hook h in
      destructor (rb_item h);;
      clear_loop fuel n parent
  end.

Fixpoint tree_size (t : tree A) : nat :=
  match t with Leaf => O | Node l _ r => S (tree_size l + tree_size r) end.

(** The loops end within the number of nodes, plus one. *)
Definition rbtree_clear (root : tree A) : M St unit :=
  let n := S (tree_size root) in
  clear_loop n n (match root with Leaf => None | Node l x r => Some (leftmost l x r Top) end).

(** The reference: each node after its children. *)
Fixpoint postorder (t : tree A) : list A :=
  match t with Leaf => [] | Node l x r => postorder l ++ postorder r ++ [x] end.

Fixpoint each (l : list A) : M St unit :=
  match l with [] => mret tt | x :: l => destructor x;; each l end.

(** What is left to do above a node. *)
Fixpoint above (p : path A) : list A :=
  match p with
  | Top => []
  | FromLeft x r p => postorder r ++ x :: above p
  | FromRight _ x p => x :: above p
  end.

(** The left children of what has been passed are gone. *)
Fixpoint cleared (p : path A) : Prop :=
  match p with
  | Top => True
  | FromLeft _ _ p => cleared p
  | FromRight l _ p => l = Leaf /\ cleared p
  end.

Definition todo (h : hook A) : list A := postorder (rb_right h) ++ rb_item h :: above (rb_above h).
Definition ready (h : hook A) : Prop := rb_left h = Leaf /\ cleared (rb_above h).

Lemma leftmost_spec l : forall x r p, cleared p ->
  ready (leftmost l x r p) /\ todo (leftmost l x r p) = postorder (Node l x r) ++ above p /\
  (tree_size (rb_right (leftmost l x r p)) < tree_size (Node l x r))%nat.
Proof.
  induction l as [|l1 IH1 y l2 _]; intros x r p Hp.
  - split; [done|]. split; [unfold todo; cbn; rewrite <- app_assoc; done|]. cbn. lia.
  - cbn [leftmost]. destruct (IH1 y l2 (FromLeft x r p) Hp) as (H1 & H2 & H3). split; [done|]. rewrite H2. split; [|cbn in *; lia].
    cbn [postorder above]. rewrite <- !app_assoc. done.
Qed.

Lemma descend_spec fuel : forall h, ready h -> (tree_size (rb_right h) < fuel)%nat ->
  exists h', descend fuel h = Some h' /\ ready h' /\ rb_right h' = Leaf /\ todo h' = todo h.
Proof.
  induction fuel as [|fuel IH]; intros h Hr Hf; [lia|]. destruct h as [l x r p]. destruct Hr as [El Hp]. cbn in El, Hp. subst l.
  cbn [descend rb_right]. destruct r as [|rl y rr]; [eexists; split; [reflexivity|]; done|]. cbn [rb_left rb_item rb_above].
  destruct (leftmost_spec rl y rr (FromRight Leaf x p)) as (H1 & H2 & H3); [done|].
  destruct (IH _ H1) as (h' & Hd & Hr' & Hn & Ht); [cbn [rb_right] in Hf; lia|].
  exists h'. split; [done|]. split; [done|]. split; [done|]. rewrite Ht, H2. done.
Qed.

Lemma length_postorder t : length (postorder t) = tree_size t.
Proof. induction t as [|l IHl x r IHr]; [done|]. cbn. rewrite !length_app, IHl, IHr. cbn. lia. Qed.

Lemma clear_loop_spec n fuel : forall h s, ready h -> (length (todo h) <= fuel)%nat -> (length (todo h) <= n)%nat ->
  clear_loop fuel n (Some h) s = each (todo h) s.
Proof.
  induction fuel as [|fuel IH]; intros h s Hr Hf Hn; assert (Hlen : length (todo h) = S (tree_size (rb_right h) + length (above (rb_above h))))
    by (unfold todo; rewrite length_app, length_postorder; cbn; lia); [lia|].
  cbn [clear_loop]. destruct (descend_spec n h Hr) as (h' & -> & [El Hp] & Er & Ht); [lia|]. rewrite some_bind. rewrite <- Ht.
  rewrite <- Ht in Hf, Hn. unfold todo in Hf, Hn |- *. rewrite Er in Hf, Hn |- *. cbn [postorder app each] in *. unfold mbind, M_bind.
  destruct (destructor (rb_item h') s) as [[[] s']|]; [|done]. unfold parent_hook. cbn [length] in Hf, Hn.
  destruct (rb_above h') as [|x r p|l x p]; cbn [above cleared] in *; [destruct fuel; done| |].
  - apply (IH (Hook Leaf x r p)); [done|unfold todo; cbn; lia|unfold todo; cbn; lia].
  - destruct Hp as [-> Hp]. apply (IH (Hook Leaf x Leaf p)); [done|unfold todo; cbn in *; lia|unfold todo; cbn in *; lia].
Qed.

Lemma rbtree_clear_postorder root s : rbtree_clear root s = each (postorder root) s.
Proof.
  unfold rbtree_clear. destruct root as [|l x r]; [done|]. destruct (leftmost_spec l x r Top I) as (Hr & Ht & _). rewrite app_nil_r in Ht.
  rewrite clear_loop_spec; [rewrite Ht; done|done|..]; rewrite Ht, length_postorder; lia.
Qed.

Lemma postorder_perm (t : tree A) : postorder t ≡ₚ inorder t.
Proof.
  induction t as [|l IHl x r IHr]; [done|]. cbn. rewrite IHl, IHr. rewrite <- Permutation_cons_append. done.
Qed.

End Clear.

(** ** Nodes in memory *)

(** [struct rb_node], without its colour. *)
Record rb_node : Type := RbNode {
  rb_parent : option positive;
  rb_left_ptr : option positive;
  rb_right_ptr : option positive
}.

Abbreviation rb_hooks := (gmap positive rb_node).

Section Memory.
Context {St : Type} (destructor : positive -> M St unit).

Definition rb_read (p : positive) : M (rb_hooks * St) rb_node := fun '(h, s) =>
  match h !! p with Some n => Some (n, (h, s)) | None => None end.

Definition rb_write (p : positive) (n : rb_node) : M (rb_hooks * St) unit := fun '(h, s) =>
  match h !! p with Some _ => Some (tt, (<[p := n]> h, s)) | None => None end.

(** The destructor frees the structure the node is part of. *)
Definition rb_destroy (p : positive) : M (rb_hooks * St) unit := fun '(h, s) =>
  match h !! p with
  | Some _ => match destructor p s with Some (_, s') => Some (tt, (delete p h, s')) | None => None end
  | None => None
  end.

(** [while (current_hook->rb_left) current_hook = current_hook->rb_left] *)
Fixpoint rb_leftmost (fuel : nat) (current_hook : positive) : M (rb_hooks * St) positive :=
  match fuel with
  | O => fault
  | S fuel =>
      node ← rb_read current_hook;
      match rb_left_ptr node with
      | None => mret current_hook
      | Some next => rb_leftmost fuel next
      end
  end.

(** [while (current_hook->rb_right)], with the loop above inside. *)
Fixpoint rb_descend (fuel n : nat) (current_hook : positive) : M (rb_hooks * St) positive :=
  match fuel with
  | O => fault
  | S fuel =>
      node ← rb_read current_hook;
      match rb_right_ptr node with
      | None => mret current_hook
      | Some next => current_hook ← rb_leftmost n next; rb_descend fuel n current_hook
      end
  end.

(** The parent, which does not point to the node any more. *)
Definition rb_unlink (current_hook : positive) : M (rb_hooks * St) (option positive) :=
  node ← rb_read current_hook;
  match rb_parent node with
  | None => mret None
  | Some parent_hook =>
      parent ← rb_read parent_hook;
      rb_write parent_hook
        (if bool_decide (rb_left_ptr parent = Some current_hook)
         then RbNode (rb_parent parent) None (rb_right_ptr parent)
         else RbNode (rb_parent parent) (rb_left_ptr parent) None);;
      mret (Some parent_hook)
  end.

Fixpoint rb_clear_loop (fuel n : nat) (current_hook : option positive) : M (rb_hooks * St) unit :=
  match current_hook, fuel with
  | None, _ => mret tt
  | Some _, O => fault
  | Some current_hook, S fuel =>
      current_hook ← rb_descend n n current_hook;
      parent_hook ← rb_unlink current_hook;
      rb_destroy current_hook;;
      rb_clear_loop fuel n parent_hook
  end.

(** [n] bounds the number of nodes; the result is what [root->rb_node] is set to. *)
Definition rb_clear (n : nat) (root : option positive) : M (rb_hooks * St) (option positive) :=
  first ← match root with None => mret None | Some p => q ← rb_leftmost n p; mret (Some q) end;
  rb_clear_loop n n first;;
  mret None.

End Memory.

(** *** The trees and paths in memory *)

Fixpoint tree_at (h : rb_hooks) (parent o : option positive) (t : tree positive) : Prop :=
  match t with
  | Leaf => o = None
  | Node l x r => o = Some x /\ exists lo ro, h !! x = Some (RbNode parent lo ro) /\
      tree_at h (Some x) lo l /\ tree_at h (Some x) ro r
  end.

Fixpoint path_at (h : rb_hooks) (parent : option positive) (child : positive) (p : path positive) : Prop :=
  match p with
  | Top => parent = None
  | FromLeft x r p => parent = Some x /\ exists par ro, h !! x = Some (RbNode par (Some child) ro) /\
      tree_at h (Some x) ro r /\ path_at h par x p
  | FromRight l x p => parent = Some x /\ exists par lo, h !! x = Some (RbNode par lo (Some child)) /\
      tree_at h (Some x) lo l /\ path_at h par x p
  end.

Definition hook_at (h : rb_hooks) (k : hook positive) : Prop :=
  exists par, path_at h par (rb_item k) (rb_above k) /\
    tree_at h par (Some (rb_item k)) (Node (rb_left k) (rb_item k) (rb_right k)).

Lemma tree_at_frame h h' t : forall parent o, (forall x, x ∈ inorder t -> h' !! x = h !! x) ->
  tree_at h parent o t -> tree_at h' parent o t.
Proof.
  induction t as [|l IHl x r IHr]; intros parent o Hsame; [done|]. cbn [tree_at inorder] in *.
  intros (-> & lo & ro & Hx & Hl & Hr). split; [done|]. exists lo, ro. split; [rewrite Hsame by set_solver; done|].
  split; [apply IHl|apply IHr]; (done || intros y Hy; apply Hsame; set_solver).
Qed.

Lemma path_at_frame h h' p : forall parent child, cleared p -> (forall x, x ∈ above p -> h' !! x = h !! x) ->
  path_at h parent child p -> path_at h' parent child p.
Proof.
  induction p as [|x r p IH|l x p IH]; intros parent child Hc Hsame; [done|..]; cbn [path_at above cleared] in *.
  - intros (-> & par & ro & Hx & Hr & Hp). split; [done|]. exists par, ro. split; [rewrite Hsame by set_solver; done|]. split.
    + eapply tree_at_frame; [|exact Hr]. intros y Hy. apply Hsame. rewrite elem_of_app, postorder_perm. auto.
    + apply IH; [done| |done]. intros y Hy. apply Hsame. set_solver.
  - destruct Hc as [-> Hc]. intros (-> & par & lo & Hx & Hl & Hp). split; [done|]. exists par, lo. split; [rewrite Hsame by set_solver; done|].
    split; [exact Hl|]. apply IH; [done| |done]. intros y Hy. apply Hsame. set_solver.
Qed.

(** The memory without the nodes of a list. *)
Definition without (l : list positive) (h : rb_hooks) : rb_hooks := foldr delete h l.

Lemma lookup_without l h p : without l h !! p = if decide (p ∈ l) then None else h !! p.
Proof.
  induction l as [|x l IH]; [rewrite decide_False by (intros H; inversion H); done|]. cbn [without foldr]. fold (without l h).
  destruct (decide (p = x)) as [->|Hne]; [rewrite lookup_delete_eq, decide_True by left; done|].
  rewrite lookup_delete_ne, IH by done. destruct (decide (p ∈ l)) as [H|H].
  - rewrite decide_True by (right; done). done.
  - rewrite decide_False by (rewrite elem_of_cons; tauto). done.
Qed.

Lemma without_ext l h h' : (forall p, p ∉ l -> h' !! p = h !! p) -> without l h' = without l h.
Proof. intros H. apply map_eq. intros p. rewrite !lookup_without. case_decide; [done|]. apply H. done. Qed.

(** ** The walk in memory is the walk over the values *)

Section Walk.
Context {St : Type} (destructor : positive -> M St unit).

Lemma rb_leftmost_run h (s : St) l : forall fuel x r p par, (tree_size l < fuel)%nat ->
  tree_at h par (Some x) (Node l x r) -> path_at h par x p ->
  rb_leftmost fuel x (h, s) = Some (rb_item (leftmost l x r p), (h, s)) /\ hook_at h (leftmost l x r p).
Proof.
  induction l as [|l1 IH1 y l2 _]; intros [|fuel] x r p par Hf Ht Hp; try (cbn in Hf; lia);
    pose proof Ht as (_ & lo & ro & Hx & Hl & Hr); cbn [rb_leftmost leftmost]; unfold rb_read, mbind, M_bind; rewrite Hx; cbn [rb_left_ptr].
  - cbn [tree_at] in Hl. subst lo. split; [done|]. exists par. split; [exact Hp|exact Ht].
  - pose proof Hl as (-> & _). apply (IH1 fuel y l2 (FromLeft x r p) (Some x)); [cbn in Hf; lia|exact Hl|]. split; [done|]. exists par, ro. done.
Qed.

Lemma rb_descend_run h (s : St) n fuel : forall k, ready k -> (tree_size (rb_right k) < fuel)%nat -> (tree_size (rb_right k) <= n)%nat -> hook_at h k ->
  exists k', descend fuel k = Some k' /\ rb_descend fuel n (rb_item k) (h, s) = Some (rb_item k', (h, s)) /\ hook_at h k'.
Proof.
  induction fuel as [|fuel IH]; intros [l x r p] [El Hc] Hf Hn (par & Hp & Ht); cbn [rb_left rb_item rb_right rb_above] in *; [lia|]. subst l.
  pose proof Ht as (_ & lo & ro & Hx & Hl & Hr). cbn [rb_descend descend rb_right rb_left rb_item rb_above]. unfold rb_read. unfold mbind at 1, M_bind at 1. rewrite Hx.
  cbn [rb_right_ptr]. destruct r as [|rl y rr]; cbn [tree_at] in Hr.
  - subst ro. eexists. split; [reflexivity|]. split; [done|]. exists par. split; [exact Hp|exact Ht].
  - pose proof Hr as (-> & _). destruct (rb_leftmost_run h s rl n y rr (FromRight Leaf x p) (Some x)) as [Hrun Hk].
    { cbn in Hn. lia. } { exact Hr. } { split; [done|]. exists par, lo. split; [done|]. split; [exact Hl|exact Hp]. }
    destruct (leftmost_spec rl y rr (FromRight Leaf x p)) as (H1 & _ & H3); [done|].
    destruct (IH (leftmost rl y rr (FromRight Leaf x p)) H1) as (k' & E1 & E2 & E3); [cbn in *; lia|cbn in *; lia|exact Hk|].
    exists k'. split; [exact E1|]. split; [|exact E3]. unfold mbind, M_bind. rewrite Hrun. exact E2.
Qed.

(** What a run of the destructor over a list leaves of the memory. *)
Definition clears (l : list positive) (h : rb_hooks) (s : St) : option (unit * (rb_hooks * St)) :=
  match each destructor l s with Some (_, s') => Some (tt, (without l h, s')) | None => None end.

Lemma clears_step x l h h' s : (forall p, p ∉ l -> h' !! p = delete x h !! p) ->
  clears (x :: l) h s = match destructor x s with Some (_, s') => clears l h' s' | None => None end.
Proof.
  intros He. unfold clears. cbn [each]. unfold mbind, M_bind. destruct (destructor x s) as [[[] s']|]; [|done].
  destruct (each destructor l s') as [[? s2]|]; [|done]. do 3 f_equal. symmetry. rewrite (without_ext _ _ _ He).
  apply map_eq. intros p. rewrite !lookup_without. destruct (decide (p = x)) as [->|Hne].
  - rewrite lookup_delete_eq, (decide_True (P := x ∈ x :: l)) by left. case_decide; done.
  - rewrite lookup_delete_ne by done. destruct (decide (p ∈ l)).
    + rewrite decide_True by (right; done). done.
    + rewrite decide_False by (rewrite elem_of_cons; tauto). done.
Qed.

(** The parent of a node without children, once the node is unlinked and
    freed. *)
Lemma rb_unlink_run h (s : St) x p par : path_at h par x p -> cleared p -> h !! x = Some (RbNode par None None) ->
  NoDup (x :: above p) ->
  exists h', rb_unlink x (h, s) = Some (match parent_hook (Hook Leaf x Leaf p) with Some k => Some (rb_item k) | None => None end, (h', s)) /\
    h' !! x = h !! x /\ (forall q, q ∉ above p -> h' !! q = h !! q) /\
    match parent_hook (Hook Leaf x Leaf p) with Some k => hook_at (delete x h') k | None => True end.
Proof.
  intros Hp Hc Hx Hnd. apply NoDup_cons in Hnd as [Hnx Hnd]. unfold rb_unlink, rb_read, rb_write, parent_hook. unfold mbind, M_bind. rewrite Hx. cbn [rb_parent rb_above].
  destruct p as [|y r p|l y p]; cbn [path_at above cleared] in *.
  - subst par. exists h. done.
  - destruct Hp as (-> & par' & ro & Hy & Hr & Hp). rewrite Hy. cbn [rb_left_ptr rb_parent rb_right_ptr]. rewrite bool_decide_eq_true_2 by done. rewrite Hy.
    apply NoDup_app in Hnd as (_ & Hdisj & Hnd). apply NoDup_cons in Hnd as [Hny _].
    assert (Hyr : y ∉ inorder r) by (rewrite <- postorder_perm; intros Hin; apply (Hdisj y Hin); left).
    assert (Hxr : x ∉ inorder r) by (rewrite <- postorder_perm; set_solver).
    set (h' := <[y := RbNode par' None ro]> h). exists h'. split; [done|]. subst h'. assert (Hxy : x <> y) by set_solver. split; [rewrite lookup_insert_ne by congruence; exact Hx|].
    split; [intros q Hq; apply lookup_insert_ne; set_solver|]. cbn [rb_item]. exists par'. cbn [rb_item rb_above rb_left rb_right]. split.
    + eapply path_at_frame; [exact Hc| |exact Hp]. intros z Hz. rewrite lookup_delete_ne by set_solver. apply lookup_insert_ne. set_solver.
    + split; [done|]. exists None, ro. split; [rewrite lookup_delete_ne by done; apply lookup_insert_eq|]. split; [done|].
      eapply tree_at_frame; [|exact Hr]. intros z Hz. rewrite lookup_delete_ne by set_solver. apply lookup_insert_ne. set_solver.
  - destruct Hc as [-> Hc]. destruct Hp as (-> & par' & lo & Hy & Hl & Hp). cbn [tree_at] in Hl. subst lo. rewrite Hy. cbn [rb_left_ptr rb_parent rb_right_ptr].
    rewrite bool_decide_eq_false_2 by done. rewrite Hy. apply NoDup_cons in Hnd as [Hny _].
    set (h' := <[y := RbNode par' None None]> h). exists h'. split; [done|]. subst h'. assert (Hxy : x <> y) by set_solver. split; [rewrite lookup_insert_ne by congruence; exact Hx|].
    split; [intros q Hq; apply lookup_insert_ne; set_solver|]. cbn [rb_item]. exists par'. cbn [rb_item rb_above rb_left rb_right]. split.
    + eapply path_at_frame; [exact Hc| |exact Hp]. intros z Hz. rewrite lookup_delete_ne by set_solver. apply lookup_insert_ne. set_solver.
    + split; [done|]. exists None, None. split; [rewrite lookup_delete_ne by done; apply lookup_insert_eq|]. done.
Qed.

Lemma rb_clear_loop_run n fuel : forall k h s, ready k -> hook_at h k -> NoDup (todo k) ->
  (length (todo k) <= fuel)%nat -> (length (todo k) <= n)%nat ->
  rb_clear_loop destructor fuel n (Some (rb_item k)) (h, s) = clears (todo k) h s.
Proof.
  induction fuel as [|fuel IH]; intros k h s Hr Hk Hnd Hf Hn; assert (Hlen : length (todo k) = S (tree_size (rb_right k) + length (above (rb_above k))))
    by (unfold todo; rewrite length_app, length_postorder; cbn; lia); [lia|]. cbn [rb_clear_loop].
  destruct (rb_descend_run h s n n k Hr) as (k' & E1 & E2 & Hk'); [lia|lia|exact Hk|].
  destruct (descend_spec n k Hr) as (k2 & E3 & [El Hc] & Er & Et); [lia|]. rewrite E1 in E3. injection E3 as ->.
  unfold mbind at 1, M_bind at 1. rewrite E2. rewrite <- Et in Hnd, Hf, Hn |- *. clear E1 E2 Et Hlen Hk Hr k.
  destruct k2 as [l x r p]. cbn [rb_left rb_item rb_right rb_above] in *. subst l r. unfold todo in *. cbn [postorder app rb_right rb_item rb_above] in *.
  destruct Hk' as (par & Hp & _ & lo & ro & Hx & Hl & Hro). cbn [rb_left rb_item rb_right rb_above tree_at] in *. subst lo ro.
  destruct (rb_unlink_run h s x p par Hp Hc Hx Hnd) as (h' & Hrun & Hx' & Hsame & Hpar). unfold mbind at 1, M_bind at 1. rewrite Hrun.
  unfold mbind at 1, M_bind at 1. unfold rb_destroy. rewrite Hx', Hx.
  rewrite (clears_step x (above p) h (delete x h') s).
  2:{ intros q Hq. destruct (decide (q = x)) as [->|Hne]; [rewrite !lookup_delete_eq; done|]. rewrite !lookup_delete_ne by done. apply Hsame. done. }
  destruct (destructor x s) as [[[] s']|]; [|done]. apply NoDup_cons in Hnd as [_ Hnd]. cbn [length] in Hf, Hn.
  unfold parent_hook in *. cbn [rb_above] in *. destruct p as [|y r p|l y p]; cbn [above cleared] in *.
  - destruct fuel; done.
  - apply (IH (Hook Leaf y r p)); [done|exact Hpar|exact Hnd|unfold todo; cbn in *; lia|unfold todo; cbn in *; lia].
  - destruct Hc as [-> Hc]. apply (IH (Hook Leaf y Leaf p)); [done|exact Hpar|exact Hnd|unfold todo; cbn in *; lia|unfold todo; cbn in *; lia].
Qed.

Lemma rb_clear_run n t root h s : tree_at h None root t -> NoDup (postorder t) -> (tree_size t <= n)%nat ->
  rb_clear destructor n root (h, s) = match clears (postorder t) h s with Some (_, s') => Some (None, s') | None => None end.
Proof.
  intros Ht Hnd Hn. unfold rb_clear. destruct t as [|l x r]; [cbn in Ht; subst root; destruct n; done|]. pose proof Ht as (-> & _).
  destruct (rb_leftmost_run h s l n x r Top None) as [Hrun Hk]; [cbn in Hn; lia|exact Ht|done|].
  destruct (leftmost_spec l x r Top I) as (Hr & Et & _). rewrite app_nil_r in Et. rewrite <- length_postorder in Hn.
  unfold mbind at 1, M_bind at 1. unfold mbind at 1, M_bind at 1. rewrite Hrun. cbn [mret M_ret]. rewrite <- Et in *.
  unfold mbind, M_bind. rewrite rb_clear_loop_run; done.
Qed.

End Walk.

(** C34: [rbtree_clear], which walks a tree by its parent pointers and cuts the
    links it has followed, calls the destructor exactly as the recursive
    traversal does (each node once, after its children), with any destructor.
    This is so of the walk over a tree in memory, whose nodes are laid out as
    the kernel's, each with the right parent and children: the walk ends, and
    follows no pointer to a node that is not of the tree or that has been
    freed, since to do so would be a fault; the nodes of the tree are gone
    afterwards, the root is null and the rest of the memory is as it was.  It is so of the walk
    over trees as values, which the models of the databases use. *)
Theorem rbtree_clear_exact {St : Type} (destructor : positive -> M St unit) (root : option positive) (t : tree positive) (h : rb_hooks) (s : St)
    (Ht : tree_at h None root t) (Hnd : NoDup (inorder t)) :
  rb_clear destructor (tree_size t) root (h, s) =
    match each destructor (postorder t) s with
    | Some (_, s') => Some (None, (without (postorder t) h, s'))
    | None => None
    end /\
  (forall p, without (postorder t) h !! p = if decide (p ∈ inorder t) then None else h !! p) /\
  rbtree_clear destructor t s = each destructor (postorder t) s /\ postorder t ≡ₚ inorder t.
Proof.
  split; [|split; [|split; [apply rbtree_clear_postorder|apply postorder_perm]]].
  - rewrite (rb_clear_run destructor _ t); [unfold clears; destruct (each destructor (postorder t) s) as [[]|]; done|exact Ht|rewrite postorder_perm; exact Hnd|lia].
  - intros p. rewrite lookup_without. apply decide_ext. rewrite postorder_perm. done.
Qed.

(** Three nodes. *)
Definition three_nodes : rb_hooks :=
  {[ 2%positive := RbNode None (Some 1%positive) (Some 3%positive);
     1%positive := RbNode (Some 2%positive) None None; 3%positive := RbNode (Some 2%positive) None None ]}.

Lemma rbtree_clear_exact_witness :
  let log p : M (list positive) unit := fun s => Some (tt, p :: s) in
  rb_clear log 3 (Some 2%positive) (three_nodes, []) = Some (None, (∅, [2%positive; 3%positive; 1%positive])).
Proof.
  intros log.
  destruct (rbtree_clear_exact log (Some 2%positive) (Node (Node Leaf 1%positive Leaf) 2%positive (Node Leaf 3%positive Leaf)) three_nodes [])
    as [Hrun _].
  - split; [done|]. eexists _, _. split; [reflexivity|]. split; (split; [done|]); (eexists _, _; split; [reflexivity|]; done).
  - apply NoDup_cons; split; [set_solver|]. apply NoDup_cons; split; [set_solver|]. apply NoDup_singleton.
  - exact Hrun.
Defined.
