(* ===== verification/BibTable.v ===== *)
(** * BIB entries and tables

    [mod/stateful/bib/entry.c] and [mod/stateful/bib/table.c]: the bindings
    between the IPv6 transport addresses of the clients and the IPv4
    transport addresses that mask them, indexed by both.

    A [bib_entry] is a pointer with the structure's [const] members, which
    never change while the entry is allocated; its other members
    ([bib_vars]: the static flag and the reference counter) are in a heap of
    allocated entries.  Using an entry that is not in the heap is a fault
    (use after free), as is freeing it twice.  Spinlocks make the operations
    of a table atomic and are not modelled further. *)
From S2P Require Import Prelude Types Address RbTree.

Record bib_entry : Type := BibEntry {
  bib_loc : positive;
  bib_ipv4 : ipv4_transport_addr;
  bib_ipv6 : ipv6_transport_addr;
  bib_l4_proto : l4_protocol
}.

#[global] Instance bib_entry_eq_dec : EqDecision bib_entry.
Proof. solve_decision. Defined.

Record bib_vars : Type := BibVars {
  is_static : bool;
  bib_refcounter : Z
}.

Record bib_table : Type := BibTable {
  bib_tree6 : tree bib_entry;
  bib_tree4 : tree bib_entry;
  bib_count : Z
}.

(** The heap of entries, the address the next one will have, and the
    outcomes of the coming allocations. *)
Record bib_heap : Type := BibHeap {
  bib_vars_of : gmap positive bib_vars;
  bib_next : positive;
  bib_allocs : allocs
}.

(** ** entry.c *)

Definition bibentry_create (addr4 : ipv4_transport_addr) (addr6 : ipv6_transport_addr)
    (static : bool) (proto : l4_protocol) : M bib_heap (option bib_entry) := fun h =>
  let '(ok, al) := kmalloc (bib_allocs h) in
  if ok then
    Some (Some (BibEntry (bib_next h) addr4 addr6 proto),
          BibHeap (<[bib_next h := BibVars static 1]> (bib_vars_of h)) (Pos.succ (bib_next h)) al)
  else Some (None, BibHeap (bib_vars_of h) (bib_next h) al).

Definition read_bib (bib : bib_entry) : M bib_heap bib_vars := fun h =>
  match bib_vars_of h !! bib_loc bib with
  | Some v => Some (v, h)
  | None => None
  end.

Definition write_bib (bib : bib_entry) (v : bib_vars) : M bib_heap unit :=
  modify (fun h => BibHeap (<[bib_loc bib := v]> (bib_vars_of h)) (bib_next h) (bib_allocs h)).

Definition bibentry_kfree (bib : bib_entry) : M bib_heap unit :=
  _ ← read_bib bib;
  modify (fun h => BibHeap (delete (bib_loc bib) (bib_vars_of h)) (bib_next h) (bib_allocs h)).

Definition bibentry_get (bib : bib_entry) : M bib_heap unit :=
  v ← read_bib bib;
  write_bib bib (BibVars (is_static v) (bib_refcounter v + 1)).

(** [kref_put]: true when nobody references the entry anymore. *)
Definition bibentry_return (bib : bib_entry) : M bib_heap bool :=
  v ← read_bib bib;
  write_bib bib (BibVars (is_static v) (bib_refcounter v - 1));;
  mret (bib_refcounter v - 1 =? 0).

(** ** table.c *)

Definition bibtable_init : bib_table := BibTable Leaf Leaf 0.

Definition bib_compare_addr6 (bib : bib_entry) (addr : in6_addr) : Z :=
  ipv6_addr_cmp (l3_6 (bib_ipv6 bib)) addr.

Definition bib_compare_full6 (bib : bib_entry) (addr : ipv6_transport_addr) : Z :=
  lex_gap (bib_compare_addr6 bib (l3_6 addr)) (l4_6 (bib_ipv6 bib) - l4_6 addr).

Definition bib_compare_addr4 (bib : bib_entry) (addr : in_addr) : Z :=
  ipv4_addr_cmp (l3_4 (bib_ipv4 bib)) addr.

Definition bib_compare_full4 (bib : bib_entry) (addr : ipv4_transport_addr) : Z :=
  lex_gap (bib_compare_addr4 bib (l3_4 addr)) (l4_4 (bib_ipv4 bib) - l4_4 addr).

Definition find_by_addr6 (table : bib_table) (addr : ipv6_transport_addr) : option bib_entry :=
  rbtree_find bib_compare_full6 addr (bib_tree6 table).

Definition find_by_addr4 (table : bib_table) (addr : ipv4_transport_addr) : option bib_entry :=
  rbtree_find bib_compare_full4 addr (bib_tree4 table).

(** What [bibtable_get6] and [bibtable_get4] do with what they find. *)
Definition bib_grab (found : option bib_entry) : M bib_heap (result bib_entry) :=
  match found with
  | Some bib => bibentry_get bib;; mret (Ok bib)
  | None => mret (Err ESRCH)
  end.

Definition bibtable_get6 (table : bib_table) (addr : ipv6_transport_addr)
    : M bib_heap (result bib_entry) := bib_grab (find_by_addr6 table addr).

Definition bibtable_get4 (table : bib_table) (addr : ipv4_transport_addr)
    : M bib_heap (result bib_entry) := bib_grab (find_by_addr4 table addr).

Definition bibtable_contains4 (table : bib_table) (addr : ipv4_transport_addr) : bool :=
  match find_by_addr4 table addr with Some _ => true | None => false end.

(** The node of an entry, among the nodes of a tree. *)
Definition same_bib (bib x : bib_entry) : bool := Pos.eqb (bib_loc x) (bib_loc bib).

Section Trees.
Context {R : RbTree}.

Definition bib_add6 (table : bib_table) (bib : bib_entry) : result (tree bib_entry) :=
  rbtree_add bib_compare_full6 bib (bib_ipv6 bib) (bib_tree6 table).

Definition bib_add4 (table : bib_table) (bib : bib_entry) : result (tree bib_entry) :=
  rbtree_add bib_compare_full4 bib (bib_ipv4 bib) (bib_tree4 table).

Definition bibtable_add (table : bib_table) (bib : bib_entry) : result unit * bib_table :=
  match bib_add6 table bib with
  | Err e => (Err e, table)
  | Ok tree6 =>
      match bib_add4 table bib with
      | Err e => (Err e, BibTable (rb_erase (same_bib bib) tree6) (bib_tree4 table) (bib_count table))
      | Ok tree4 => (Ok tt, BibTable tree6 tree4 (u64 (bib_count table + 1)))
      end
  end.

(** Erasing a node that is in no tree is what the [RB_EMPTY_NODE] checks
    skip. *)
Definition bib_rm (table : bib_table) (bib : bib_entry) : bib_table :=
  BibTable (rb_erase (same_bib bib) (bib_tree6 table)) (rb_erase (same_bib bib) (bib_tree4 table))
    (u64 (bib_count table - 1)).

Definition bibtable_rm (table : bib_table) (bib : bib_entry) : bib_table := bib_rm table bib.

(** [bibtable_foreach] for callbacks that leave the table alone. *)
Definition bibtable_foreach {B} (func : bib_entry -> B -> Z * B) (table : bib_table) (arg : B)
    (offset : option ipv4_transport_addr) : Z * B :=
  run_until func (find_starting_point bib_compare_full4 (bib_tree4 table) offset false) arg.

Definition bibtable_count (table : bib_table) : Z := bib_count table.

(** [__foreach] for callbacks that remove the entry they are given: the next
    node is fetched before the callback runs, and the callback unlinks no
    other node, so the nodes are those of the tree at the start. *)
Fixpoint bib_foreach (func : bib_entry -> M (bib_table * bib_heap) Z) (nodes : list bib_entry)
    : M (bib_table * bib_heap) Z :=
  match nodes with
  | [] => mret 0
  | node :: nodes =>
      error ← func node;
      if negb (error =? 0) then mret error else bib_foreach func nodes
  end.

Definition bib_flush1 (bib : bib_entry) : M (bib_table * bib_heap) Z := fun '(t, h) =>
  match read_bib bib h with
  | None => None
  | Some (v, h) =>
      if is_static v then
        match bibentry_return bib h with
        | None => None
        | Some (dead, h) =>
            if dead then
              match bibentry_kfree bib h with
              | None => None
              | Some (_, h) => Some (0, (bib_rm t bib, h))
              end
            else Some (0, (t, h))
        end
      else Some (0, (t, h))
  end.

Definition bibtable_flush : M (bib_table * bib_heap) unit := fun '(t, h) =>
  (_ ← bib_foreach bib_flush1 (find_starting_point bib_compare_full4 (bib_tree4 t) None false);
   mret tt) (t, h).

Definition bib_delete_taddr4s1 (prefix : ipv4_prefix) (ports : port_range) (bib : bib_entry)
    : M (bib_table * bib_heap) Z :=
  if negb (prefix4_contains prefix (l3_4 (bib_ipv4 bib))) then mret 1
  else if negb (port_range_contains ports (l4_4 (bib_ipv4 bib))) then mret 0
  else bib_flush1 bib.

Definition bibtable_delete_taddr4s (prefix : ipv4_prefix) (ports : port_range)
    : M (bib_table * bib_heap) unit := fun '(t, h) =>
  let offset := TAddr4 (p4_address prefix) (r_min ports) in
  (_ ← bib_foreach (bib_delete_taddr4s1 prefix ports)
         (find_starting_point bib_compare_full4 (bib_tree4 t) (Some offset) true);
   mret tt) (t, h).

End Trees.

(** ** Invariant *)

Definition bib_entries (t : bib_table) : list bib_entry := inorder (bib_tree4 t).

Definition bib_wf (proto : l4_protocol) (b : bib_entry) : Prop :=
  wf_taddr4 (bib_ipv4 b) /\ wf_taddr6 (bib_ipv6 b) /\ bib_l4_proto b = proto.

(** Both indexes hold the same entries, each sorted by its own key, and the
    count is theirs. *)
Definition bib_table_inv (proto : l4_protocol) (t : bib_table) : Prop :=
  sorted_by (fun b => taddr4_key (bib_ipv4 b)) (bib_entries t) /\
  sorted_by (fun b => taddr6_key (bib_ipv6 b)) (inorder (bib_tree6 t)) /\
  inorder (bib_tree6 t) ≡ₚ bib_entries t /\
  NoDup (bib_loc <$> bib_entries t) /\
  Forall (bib_wf proto) (bib_entries t) /\
  bib_count t = u64 (Z.of_nat (length (bib_entries t))).

Lemma bib_cmp4 proto t k :
  Forall (bib_wf proto) (bib_entries t) -> wf_taddr4 k ->
  forall x, x ∈ bib_entries t ->
  Z.sgn (bib_compare_full4 x k) = Z.sgn (taddr4_key (bib_ipv4 x) - taddr4_key k).
Proof.
  intros Hw Hk x Hx. rewrite Forall_forall in Hw. destruct (Hw x Hx) as (H4 & _).
  apply taddr4_key_sgn; done.
Qed.

Lemma bib_cmp6 proto t k :
  Forall (bib_wf proto) (bib_entries t) -> inorder (bib_tree6 t) ≡ₚ bib_entries t -> wf_taddr6 k ->
  forall x, x ∈ inorder (bib_tree6 t) ->
  Z.sgn (bib_compare_full6 x k) = Z.sgn (taddr6_key (bib_ipv6 x) - taddr6_key k).
Proof.
  intros Hw Hp Hk x Hx. rewrite Hp in Hx. rewrite Forall_forall in Hw.
  destruct (Hw x Hx) as (_ & H6 & _). apply taddr6_key_sgn; done.
Qed.

(** The searches find exactly the entry with the address. *)
Lemma find_by_addr4_iff proto t k b :
  bib_table_inv proto t -> wf_taddr4 k ->
  find_by_addr4 t k = Some b <-> b ∈ bib_entries t /\ bib_ipv4 b = k.
Proof.
  intros (S4 & S6 & Hp & Hl & Hw & _) Hk. pose proof (bib_cmp4 proto t k Hw Hk) as Hc.
  pose proof (rbtree_find_spec bib_compare_full4 k (bib_tree4 t)
                (sorted_by_sign _ _ _ _ _ Hc S4)) as Hf.
  unfold find_by_addr4. rewrite Forall_forall in Hw.
  destruct (rbtree_find bib_compare_full4 k (bib_tree4 t)) as [x|].
  - destruct Hf as [Hin Hz]. rewrite (keyed_zero _ _ _ _ _ Hc) in Hz by done.
    assert (Hx : bib_ipv4 x = k) by (apply taddr4_key_inj; [apply (Hw x Hin) | done | done]).
    split; [intros [= <-]; done|]. intros [Hb Hbk]. f_equal.
    eapply sorted_by_inj; [exact S4|done|done|]. simpl. congruence.
  - split; [done|]. intros [Hb Hbk]. exfalso. rewrite Forall_forall in Hf. apply (Hf b Hb).
    apply (keyed_zero _ _ _ _ _ Hc); [done|]. rewrite Hbk. done.
Qed.

Lemma find_by_addr6_iff proto t k b :
  bib_table_inv proto t -> wf_taddr6 k ->
  find_by_addr6 t k = Some b <-> b ∈ bib_entries t /\ bib_ipv6 b = k.
Proof.
  intros (S4 & S6 & Hp & Hl & Hw & _) Hk. pose proof (bib_cmp6 proto t k Hw Hp Hk) as Hc.
  pose proof (rbtree_find_spec bib_compare_full6 k (bib_tree6 t)
                (sorted_by_sign _ _ _ _ _ Hc S6)) as Hf.
  unfold find_by_addr6. rewrite <- Hp. rewrite <- Hp, Forall_forall in Hw.
  destruct (rbtree_find bib_compare_full6 k (bib_tree6 t)) as [x|].
  - destruct Hf as [Hin Hz]. rewrite (keyed_zero _ _ _ _ _ Hc) in Hz by done.
    assert (Hx : bib_ipv6 x = k) by (apply taddr6_key_inj; [apply (Hw x Hin) | done | done]).
    split; [intros [= <-]; done|]. intros [Hb Hbk]. f_equal.
    eapply sorted_by_inj; [exact S6|done|done|]. simpl. congruence.
  - split; [done|]. intros [Hb Hbk]. exfalso. rewrite Forall_forall in Hf. apply (Hf b Hb).
    apply (keyed_zero _ _ _ _ _ Hc); [done|]. rewrite Hbk. done.
Qed.

Lemma find_by_addr4_none proto t k :
  bib_table_inv proto t -> wf_taddr4 k ->
  find_by_addr4 t k = None <-> forall b, b ∈ bib_entries t -> bib_ipv4 b <> k.
Proof.
  intros Hi Hk. destruct (find_by_addr4 t k) as [x|] eqn:E.
  - apply (find_by_addr4_iff proto) in E as [Hx E]; [|done..]. split; [done|]. intros H. destruct (H x Hx E).
  - split; [|done]. intros _ b Hb Hbk.
    assert (find_by_addr4 t k = Some b) by (apply (find_by_addr4_iff proto); done). congruence.
Qed.

Lemma find_by_addr6_none proto t k :
  bib_table_inv proto t -> wf_taddr6 k ->
  find_by_addr6 t k = None <-> forall b, b ∈ bib_entries t -> bib_ipv6 b <> k.
Proof.
  intros Hi Hk. destruct (find_by_addr6 t k) as [x|] eqn:E.
  - apply (find_by_addr6_iff proto) in E as [Hx E]; [|done..]. split; [done|]. intros H. destruct (H x Hx E).
  - split; [|done]. intros _ b Hb Hbk.
    assert (find_by_addr6 t k = Some b) by (apply (find_by_addr6_iff proto); done). congruence.
Qed.

Section AddRm.
Context {R : RbTree} {L : RbTreeLaws R}.

Lemma same_bib_iff b x : same_bib b x = true <-> bib_loc x = bib_loc b.
Proof. unfold same_bib. apply Pos.eqb_eq. Qed.

(** Erasing an entry that had just been linked. *)
Lemma erase_inserted b (l1 l2 : list bib_entry) :
  bib_loc b ∉ (bib_loc <$> (l1 ++ l2)) ->
  List.filter (fun x => negb (same_bib b x)) (l1 ++ b :: l2) = l1 ++ l2.
Proof.
  rewrite fmap_app, elem_of_app. intros Hni.
  assert (Hkeep : forall l, bib_loc b ∉ (bib_loc <$> l) ->
    List.filter (fun x => negb (same_bib b x)) l = l).
  { intros l Hl. apply filter_full, Forall_forall. intros x Hx. apply negb_true_iff.
    apply not_true_iff_false. rewrite same_bib_iff. intros E. apply Hl. rewrite <- E.
    apply list_elem_of_fmap_2. done. }
  rewrite List.filter_app. simpl. rewrite (proj2 (same_bib_iff b b) eq_refl). simpl.
  rewrite !Hkeep by tauto. done.
Qed.

(** Adding either inserts the entry in both indexes, or reports that one of
    its addresses is taken and leaves the table's contents as they were. *)
Lemma bibtable_add_spec proto t b :
  bib_table_inv proto t -> bib_wf proto b -> bib_loc b ∉ (bib_loc <$> bib_entries t) ->
  match bibtable_add t b with
  | (Ok _, t') =>
      bib_table_inv proto t' /\ bib_entries t' ≡ₚ b :: bib_entries t /\
      find_by_addr6 t (bib_ipv6 b) = None /\ find_by_addr4 t (bib_ipv4 b) = None
  | (Err e, t') =>
      e = EEXIST /\ bib_table_inv proto t' /\ bib_entries t' = bib_entries t /\
      exists x, x ∈ bib_entries t /\ (bib_ipv6 x = bib_ipv6 b \/ bib_ipv4 x = bib_ipv4 b)
  end.
Proof.
  intros Hi Hwb Hfresh. pose proof Hi as (S4 & S6 & Hp & Hl & Hw & Hcnt).
  pose proof Hwb as (W4 & W6 & Hproto).
  pose proof (bib_cmp4 proto t _ Hw W4) as C4. pose proof (bib_cmp6 proto t _ Hw Hp W6) as C6.
  unfold bibtable_add, bib_add6, bib_add4.
  pose proof (rbtree_add_spec bib_compare_full6 b (bib_ipv6 b) (bib_tree6 t)
                (sorted_by_sign _ _ _ _ _ C6 S6)) as H6.
  destruct (rbtree_add _ b (bib_ipv6 b) (bib_tree6 t)) as [t6|e6].
  2:{ destruct H6 as (-> & x & Hx & Hz). split_and!; try done. exists x.
      rewrite (keyed_zero _ _ _ _ _ C6) in Hz by done. rewrite Hp in Hx. split; [done|]. left.
      rewrite Forall_forall in Hw. apply taddr6_key_inj; [apply (Hw x Hx) | done..]. }
  destruct H6 as (l1 & l2 & E6 & E6' & F1 & F2).
  pose proof (rbtree_add_spec bib_compare_full4 b (bib_ipv4 b) (bib_tree4 t)
                (sorted_by_sign _ _ _ _ _ C4 S4)) as H4.
  destruct (rbtree_add _ b (bib_ipv4 b) (bib_tree4 t)) as [t4|e4].
  2:{ destruct H4 as (-> & x & Hx & Hz). split; [done|].
      assert (E : inorder (rb_erase (same_bib b) t6) = inorder (bib_tree6 t)).
      { rewrite inorder_erase, E6', E6. apply erase_inserted. rewrite <- E6, Hp. done. }
      split; [|split; [done|]].
      - unfold bib_table_inv, bib_entries in *. simpl. rewrite E. split_and!; done.
      - exists x. rewrite (keyed_zero _ _ _ _ _ C4) in Hz by done. split; [done|]. right.
        rewrite Forall_forall in Hw. apply taddr4_key_inj; [apply (Hw x Hx) | done..]. }
  destruct H4 as (m1 & m2 & E4 & E4' & G1 & G2).
  assert (Hin6 : forall y, y ∈ l1 \/ y ∈ l2 -> y ∈ inorder (bib_tree6 t))
    by (intros y; rewrite E6, elem_of_app; done).
  assert (Hin4 : forall y, y ∈ m1 \/ y ∈ m2 -> y ∈ bib_entries t)
    by (intros y; unfold bib_entries; rewrite E4, elem_of_app; done).
  rewrite Forall_forall in F1, F2, G1, G2.
  assert (Hp' : inorder t4 ≡ₚ b :: bib_entries t)
    by (rewrite E4'; unfold bib_entries; rewrite E4; symmetry; apply Permutation_middle).
  split; [|split; [exact Hp'|split]].
  - assert (Ht : forall n, bib_entries (BibTable t6 t4 n) = inorder t4) by done.
    unfold bib_table_inv. rewrite !Ht. cbn [bib_tree6 bib_count]. split_and!.
    + rewrite E4'. apply sorted_by_insert; [unfold bib_entries in S4; rewrite <- E4; done| |];
        apply Forall_forall; intros y Hy.
      * rewrite <- (keyed_neg _ _ _ _ _ C4); auto.
      * rewrite <- (keyed_pos _ _ _ _ _ C4); auto.
    + rewrite E6'. apply sorted_by_insert; [rewrite <- E6; done| |]; apply Forall_forall; intros y Hy.
      * rewrite <- (keyed_neg _ _ _ _ _ C6); auto.
      * rewrite <- (keyed_pos _ _ _ _ _ C6); auto.
    + rewrite Hp', E6', <- Permutation_middle, <- E6, Hp. done.
    + rewrite Hp', fmap_cons. apply NoDup_cons. done.
    + rewrite Hp'. apply Forall_cons. done.
    + rewrite Hp', Hcnt. simpl. unfold u64. rewrite Zplus_mod_idemp_l. f_equal. lia.
  - apply (find_by_addr6_none proto); [done..|]. intros y Hy E. rewrite <- Hp, E6, elem_of_app in Hy.
    assert (Hz : bib_compare_full6 y (bib_ipv6 b) = 0)
      by (apply (keyed_zero _ _ _ _ _ C6); [auto|rewrite E; done]).
    destruct Hy as [Hy|Hy]; [specialize (F1 y Hy) | specialize (F2 y Hy)]; lia.
  - apply (find_by_addr4_none proto); [done..|]. intros y Hy E.
    assert (Hz : bib_compare_full4 y (bib_ipv4 b) = 0)
      by (apply (keyed_zero _ _ _ _ _ C4); [auto|rewrite E; done]).
    unfold bib_entries in Hy. rewrite E4, elem_of_app in Hy.
    destruct Hy as [Hy|Hy]; [specialize (G1 y Hy) | specialize (G2 y Hy)]; lia.
Qed.

Lemma bib_entries_rm t b :
  bib_entries (bib_rm t b) = List.filter (fun x => negb (same_bib b x)) (bib_entries t).
Proof. unfold bib_entries, bib_rm. simpl. apply inorder_erase. Qed.


(** Removing an entry of the table takes it, and nothing else, out of both
    indexes. *)
Lemma bib_rm_spec proto t b :
  bib_table_inv proto t -> b ∈ bib_entries t ->
  bib_table_inv proto (bib_rm t b) /\ bib_entries t ≡ₚ b :: bib_entries (bib_rm t b).
Proof.
  intros (S4 & S6 & Hp & Hl & Hw & Hcnt) Hb.
  assert (Hperm : bib_entries t ≡ₚ b :: bib_entries (bib_rm t b)).
  { rewrite bib_entries_rm. apply list_elem_of_split in Hb as (l1 & l2 & E). rewrite E in *.
    rewrite erase_inserted; [rewrite <- Permutation_middle; done|].
    rewrite fmap_app, fmap_cons in Hl. rewrite fmap_app.
    rewrite <- Permutation_middle in Hl. apply NoDup_cons in Hl as [? _]. done. }
  split; [|done]. unfold bib_table_inv. split_and!.
  - rewrite bib_entries_rm. apply sorted_by_filter. done.
  - simpl. rewrite inorder_erase. apply sorted_by_filter. done.
  - rewrite bib_entries_rm. simpl. rewrite inorder_erase. apply filter_perm. done.
  - rewrite Hperm, fmap_cons in Hl. apply NoDup_cons in Hl as [_ ?]. done.
  - rewrite Hperm, Forall_cons in Hw. tauto.
  - simpl. rewrite Hcnt, Hperm. simpl. unfold u64. rewrite Zminus_mod_idemp_l. f_equal. lia.
Qed.

End AddRm.

(** ** Running the entry operations *)

Definition set_vars (h : bib_heap) (m : gmap positive bib_vars) : bib_heap :=
  BibHeap m (bib_next h) (bib_allocs h).

Lemma read_bib_run bib h v :
  bib_vars_of h !! bib_loc bib = Some v -> read_bib bib h = Some (v, h).
Proof. intros Hv. unfold read_bib. rewrite Hv. done. Qed.

Lemma bibentry_get_run bib h v :
  bib_vars_of h !! bib_loc bib = Some v ->
  bibentry_get bib h =
  Some (tt, set_vars h (<[bib_loc bib := BibVars (is_static v) (bib_refcounter v + 1)]>
                          (bib_vars_of h))).
Proof. intros Hv. unfold bibentry_get, mbind, M_bind. rewrite (read_bib_run _ _ _ Hv). done. Qed.

Lemma bibentry_return_run bib h v :
  bib_vars_of h !! bib_loc bib = Some v ->
  bibentry_return bib h =
  Some (bib_refcounter v - 1 =? 0,
        set_vars h (<[bib_loc bib := BibVars (is_static v) (bib_refcounter v - 1)]>
                      (bib_vars_of h))).
Proof. intros Hv. unfold bibentry_return, mbind, M_bind. rewrite (read_bib_run _ _ _ Hv). done. Qed.

Lemma bibentry_kfree_run bib h v :
  bib_vars_of h !! bib_loc bib = Some v ->
  bibentry_kfree bib h = Some (tt, set_vars h (delete (bib_loc bib) (bib_vars_of h))).
Proof. intros Hv. unfold bibentry_kfree, mbind, M_bind. rewrite (read_bib_run _ _ _ Hv). done. Qed.

(** ** Lookups after an addition *)

(** C35: a BIB table is a pair of inverse partial maps.  [bibtable_add]
    succeeds exactly when neither address of the entry is bound; then both
    indexes gain the binding and nothing else, and otherwise, with [EEXIST],
    no lookup changes.  The table's invariant is kept either way. *)
Theorem bibtable_add_binds {R : RbTree} {L : RbTreeLaws R} proto t b r t'
    (Hi : bib_table_inv proto t) (Hb : bib_wf proto b)
    (Hfresh : bib_loc b ∉ (bib_loc <$> bib_entries t))
    (H : bibtable_add t b = (r, t')) :
  bib_table_inv proto t' /\
  (r = Ok tt <-> find_by_addr6 t (bib_ipv6 b) = None /\ find_by_addr4 t (bib_ipv4 b) = None) /\
  (r <> Ok tt -> r = Err EEXIST) /\
  (forall a6, wf_taddr6 a6 -> find_by_addr6 t' a6 =
     if decide (r = Ok tt /\ a6 = bib_ipv6 b) then Some b else find_by_addr6 t a6) /\
  (forall a4, wf_taddr4 a4 -> find_by_addr4 t' a4 =
     if decide (r = Ok tt /\ a4 = bib_ipv4 b) then Some b else find_by_addr4 t a4) /\
  (forall a6 a4 x, wf_taddr6 a6 -> wf_taddr4 a4 ->
     find_by_addr6 t' a6 = Some x /\ bib_ipv4 x = a4 <->
     find_by_addr4 t' a4 = Some x /\ bib_ipv6 x = a6).
Proof.
  pose proof (bibtable_add_spec proto t b Hi Hb Hfresh) as Hs. rewrite H in Hs.
  pose proof Hb as (W4 & W6 & _).
  assert (Hinv' : forall t0, bib_table_inv proto t0 -> forall a6 a4 x, wf_taddr6 a6 -> wf_taddr4 a4 ->
     find_by_addr6 t0 a6 = Some x /\ bib_ipv4 x = a4 <->
     find_by_addr4 t0 a4 = Some x /\ bib_ipv6 x = a6).
  { intros t0 H0 a6 a4 x H6 H4.
    rewrite (find_by_addr6_iff proto), (find_by_addr4_iff proto) by done. tauto. }
  destruct r as [[]|e].
  - destruct Hs as (Hi' & Hp & N6 & N4).
    split; [done|]. split; [done|]. split; [done|]. split; [|split; [|apply Hinv'; done]].
    + intros a6 Ha. case_decide as Hd.
      * destruct Hd as [_ ->]. apply (find_by_addr6_iff proto); [done..|]. rewrite Hp. set_solver.
      * apply option_eq. intros x. rewrite !(find_by_addr6_iff proto) by done. rewrite Hp. set_solver.
    + intros a4 Ha. case_decide as Hd.
      * destruct Hd as [_ ->]. apply (find_by_addr4_iff proto); [done..|]. rewrite Hp. set_solver.
      * apply option_eq. intros x. rewrite !(find_by_addr4_iff proto) by done. rewrite Hp. set_solver.
  - destruct Hs as (-> & Hi' & He & x & Hx & Htaken).
    split; [done|]. split; [split; [done|]|split; [done|split; [|split; [|apply Hinv'; done]]]].
    + intros [N6 N4]. rewrite (find_by_addr6_none proto) in N6 by done.
      rewrite (find_by_addr4_none proto) in N4 by done.
      destruct Htaken as [E|E]; [destruct (N6 x Hx E) | destruct (N4 x Hx E)].
    + intros a6 Ha. rewrite decide_False by (intros [? _]; done).
      apply option_eq. intros y. rewrite !(find_by_addr6_iff proto), He by done. done.
    + intros a4 Ha. rewrite decide_False by (intros [? _]; done).
      apply option_eq. intros y. rewrite !(find_by_addr4_iff proto), He by done. done.
Qed.

(** ** Flushing *)

(** What a flush does to an entry: a static one loses its fake user, and is
    freed ([None]) if that was the last one. *)
Definition flush_vars (v : bib_vars) : option bib_vars :=
  if is_static v then
    if bib_refcounter v - 1 =? 0 then None else Some (BibVars true (bib_refcounter v - 1))
  else Some v.

Section Flush.
Context {R : RbTree} {L : RbTreeLaws R}.

(** The variables of an entry after a flush of the entries of [l]. *)
Definition flushed (h : bib_heap) (l : list bib_entry) (loc : positive) : option bib_vars :=
  match bib_vars_of h !! loc with
  | Some v => if decide (loc ∈ (bib_loc <$> l)) then flush_vars v else Some v
  | None => None
  end.

Lemma bib_flush1_run bib t h v :
  bib_vars_of h !! bib_loc bib = Some v ->
  bib_flush1 bib (t, h) =
  Some (0, (match flush_vars v with Some _ => t | None => bib_rm t bib end,
            BibHeap (match flush_vars v with
                     | Some v' => <[bib_loc bib := v']> (bib_vars_of h)
                     | None => delete (bib_loc bib) (bib_vars_of h) end)
                    (bib_next h) (bib_allocs h))).
Proof.
  intros Hv. unfold bib_flush1, flush_vars. rewrite (read_bib_run _ _ _ Hv).
  destruct (is_static v) eqn:Es.
  - rewrite (bibentry_return_run _ _ _ Hv). destruct (bib_refcounter v - 1 =? 0); [|rewrite Es; done].
    erewrite bibentry_kfree_run by (simpl; apply lookup_insert_eq). simpl.
    rewrite delete_insert_eq. done.
  - rewrite insert_id by done. destruct h; done.
Qed.

Lemma bib_foreach_flush proto l : forall t h,
  bib_table_inv proto t -> NoDup (bib_loc <$> l) -> (forall b, b ∈ l -> b ∈ bib_entries t) ->
  (forall b, b ∈ l -> is_Some (bib_vars_of h !! bib_loc b)) ->
  exists t' h', bib_foreach bib_flush1 l (t, h) = Some (0, (t', h')) /\
    bib_table_inv proto t' /\ bib_next h' = bib_next h /\ bib_allocs h' = bib_allocs h /\
    (forall loc, bib_vars_of h' !! loc = flushed h l loc) /\
    (forall b, b ∈ bib_entries t' <->
       b ∈ bib_entries t /\ (b ∈ l -> is_Some (flushed h l (bib_loc b)))).
Proof.
  induction l as [|x l IH]; intros t h Hi Hnd Hsub Hheap; cbn [bib_foreach].
  { exists t, h. split_and!; try done.
    - intros loc. unfold flushed. destruct (bib_vars_of h !! loc); [|done].
      rewrite decide_False; [done|]. intros Hin. inversion Hin.
    - intros b. split; [|tauto]. intros Hb. split; [done|]. intros Hin. inversion Hin. }
  rewrite fmap_cons in Hnd. apply NoDup_cons in Hnd as [Hni Hnd].
  destruct (Hheap x ltac:(left)) as [v Hv].
  unfold mbind at 1, M_bind at 1. rewrite (bib_flush1_run x t h v Hv). simpl negb. cbv iota.
  set (t1 := match flush_vars v with Some _ => t | None => bib_rm t x end).
  set (h1 := BibHeap _ _ _).
  assert (Hxin : x ∈ bib_entries t) by (apply Hsub; left).
  assert (Ht1 : bib_table_inv proto t1 /\
    forall b, b ∈ bib_entries t1 <-> b ∈ bib_entries t /\ (b = x -> is_Some (flush_vars v))).
  { subst t1. destruct (flush_vars v) as [v'|]; [split; [done|]; intros b; split; [eauto|tauto]|].
    destruct (bib_rm_spec proto t x Hi Hxin) as [Hi' Hp]. split; [done|]. intros b.
    destruct Hi as (S4 & _). apply sorted_by_NoDup in S4. rewrite Hp in S4 |- *.
    apply NoDup_cons in S4 as [Hnx _]. rewrite elem_of_cons. split.
    - intros Hb. split; [auto|]. intros ->. done.
    - intros [[->|Hb] Hs]; [destruct (Hs eq_refl) as [? [=]] | done]. }
  destruct Ht1 as [Hi1 Hent1].
  assert (Hother : forall loc, loc <> bib_loc x -> bib_vars_of h1 !! loc = bib_vars_of h !! loc).
  { intros loc Hne. subst h1. simpl. destruct (flush_vars v).
    - apply lookup_insert_ne. done.
    - apply lookup_delete_ne. done. }
  assert (Hself : bib_vars_of h1 !! bib_loc x = flush_vars v).
  { subst h1. simpl. destruct (flush_vars v); [apply lookup_insert_eq | apply lookup_delete_eq]. }
  assert (Hlne : forall b, b ∈ l -> bib_loc b <> bib_loc x).
  { intros b Hb E. apply Hni. rewrite <- E. apply list_elem_of_fmap_2. done. }
  destruct (IH t1 h1) as (t' & h' & Hrun & Hi' & Hn' & Ha' & Hvars & Hent); [done|done| | |].
  { intros b Hb. apply Hent1. split; [apply Hsub; right; done|]. intros ->. destruct (Hlne x Hb). done. }
  { intros b Hb. rewrite Hother by auto. apply Hheap. right. done. }
  exists t', h'. split; [exact Hrun|]. split; [exact Hi'|]. split; [exact Hn'|]. split; [exact Ha'|].
  assert (Hfl : forall loc, flushed h1 l loc = flushed h (x :: l) loc).
  { intros loc. unfold flushed. rewrite fmap_cons. destruct (decide (loc = bib_loc x)) as [->|Hne].
    - rewrite Hself, Hv, (decide_True _ (Some v)) by left.
      destruct (flush_vars v); [|done]. rewrite decide_False by done. done.
    - rewrite Hother by done. destruct (bib_vars_of h !! loc); [|done].
      destruct (decide (loc ∈ (bib_loc <$> l))) as [Hin|Hin].
      + rewrite decide_True by (right; done). done.
      + rewrite decide_False; [done|]. rewrite elem_of_cons. tauto. }
  split; [intros loc; rewrite Hvars; apply Hfl|].
  intros b. rewrite Hent, Hent1, Hfl. rewrite elem_of_cons. split.
  - intros [[Hb Hx] Hl]. split; [done|]. intros [->|Hin]; [|auto].
    unfold flushed. rewrite Hv, fmap_cons, decide_True by left. auto.
  - intros [Hb Hl]. split; [split; [done|]|auto]. intros ->. specialize (Hl ltac:(auto)).
    unfold flushed in Hl. rewrite Hv, fmap_cons, decide_True in Hl by left. done.
Qed.

End Flush.

Section FlushTheorems.
Context {R : RbTree} {L : RbTreeLaws R}.

(** Every entry of the table is allocated. *)
Definition bib_allocated (t : bib_table) (h : bib_heap) : Prop :=
  forall b, b ∈ bib_entries t -> is_Some (bib_vars_of h !! bib_loc b).

(** The outcome of flushing the entries [l] of a table. *)
Definition flush_post (proto : l4_protocol) (t : bib_table) (h : bib_heap) (l : list bib_entry)
    (t' : bib_table) (h' : bib_heap) : Prop :=
  bib_table_inv proto t' /\ bib_next h' = bib_next h /\
  (forall loc, bib_vars_of h' !! loc = flushed h l loc) /\
  (forall b, b ∈ bib_entries t' <->
     b ∈ bib_entries t /\ (b ∈ l -> is_Some (flushed h l (bib_loc b)))).

Lemma bibtable_flush_run proto t h :
  bib_table_inv proto t -> bib_allocated t h ->
  exists t' h', bibtable_flush (t, h) = Some (tt, (t', h')) /\
    flush_post proto t h (bib_entries t) t' h'.
Proof.
  intros Hi Ha. pose proof Hi as (_ & _ & _ & Hl & _).
  destruct (bib_foreach_flush proto (bib_entries t) t h Hi Hl) as (t' & h' & Hrun & Hi' & Hnx & _ & Hv & He);
    [done..|].
  exists t', h'. split; [|done]. unfold bibtable_flush, find_starting_point.
  change (inorder (bib_tree4 t)) with (bib_entries t).
  unfold mbind, M_bind. rewrite Hrun. done.
Qed.

(** The entries a removal of pool4 addresses is about. *)
Definition in_request (prefix : ipv4_prefix) (ports : port_range) (ta : ipv4_transport_addr) : bool :=
  prefix4_contains prefix (l3_4 ta) && port_range_contains ports (l4_4 ta).

Lemma bib_flush1_zero b s e s' : bib_flush1 b s = Some (e, s') -> e = 0.
Proof.
  destruct s as [t h]. unfold bib_flush1. intros H. repeat (case_match; try done); simplify_eq; done.
Qed.

(** Entries inside the prefix, then entries outside it. *)
Lemma bib_foreach_delete prefix ports l2 l1 : forall s,
  Forall (fun b => prefix4_contains prefix (l3_4 (bib_ipv4 b)) = true) l1 ->
  Forall (fun b => prefix4_contains prefix (l3_4 (bib_ipv4 b)) = false) l2 ->
  bib_foreach (bib_delete_taddr4s1 prefix ports) (l1 ++ l2) s =
  match bib_foreach bib_flush1
          (List.filter (fun b => port_range_contains ports (l4_4 (bib_ipv4 b))) l1) s with
  | Some (_, s') => Some (match l2 with [] => 0 | _ => 1 end, s')
  | None => None
  end.
Proof.
  induction l1 as [|b l1 IH]; intros s F1 F2.
  - simpl. destruct l2 as [|x l2]; [done|]. apply Forall_cons in F2 as [Hx _].
    simpl. unfold bib_delete_taddr4s1, mbind, M_bind. rewrite Hx. done.
  - apply Forall_cons in F1 as [Hb F1]. cbn [app bib_foreach List.filter].
    unfold mbind at 1, M_bind at 1. unfold bib_delete_taddr4s1 at 1. rewrite Hb. cbn [negb].
    destruct (port_range_contains ports (l4_4 (bib_ipv4 b))); cbn [negb].
    + cbn [bib_foreach]. unfold mbind, M_bind. destruct (bib_flush1 b s) as [[e s1]|] eqn:E; [|done].
      rewrite (bib_flush1_zero _ _ _ _ E). simpl. apply IH; done.
    + apply IH; done.
Qed.

Lemma taddr4_prefix_bound prefix ta :
  0 <= p4_len prefix -> wf_addr4 (p4_address prefix) -> prefix4_validate (Some prefix) = Ok tt ->
  wf_taddr4 ta ->
  prefix4_contains prefix (l3_4 ta) = true <->
  s_addr (p4_address prefix) * 2 ^ 16 <= taddr4_key ta <
    (s_addr (p4_address prefix) + 2 ^ (32 - p4_len prefix)) * 2 ^ 16.
Proof.
  intros Hl Hw Hv [Ha Hp]. apply prefix4_validate_clear in Hv as [Hl' Hs]; [|done..].
  rewrite prefix4_contains_interval by (done || lia). unfold taddr4_key, is_u16 in *. nia.
Qed.

(** The nodes visited from the first requested transport address on are,
    up to the end of the prefix, exactly those of the request. *)
Lemma bib_request_nodes proto t prefix ports :
  bib_table_inv proto t ->
  0 <= p4_len prefix -> wf_addr4 (p4_address prefix) -> prefix4_validate (Some prefix) = Ok tt ->
  wf_range ports ->
  let nodes := find_starting_point bib_compare_full4 (bib_tree4 t)
                 (Some (TAddr4 (p4_address prefix) (r_min ports))) true in
  exists l1 l2, nodes = l1 ++ l2 /\
    Forall (fun b => prefix4_contains prefix (l3_4 (bib_ipv4 b)) = true) l1 /\
    Forall (fun b => prefix4_contains prefix (l3_4 (bib_ipv4 b)) = false) l2 /\
    List.filter (fun b => port_range_contains ports (l4_4 (bib_ipv4 b))) l1 =
    List.filter (fun b => in_request prefix ports (bib_ipv4 b)) (bib_entries t).
Proof.
  intros (S4 & S6 & Hp & Hl & Hw & _) Hlen Hwp Hv Hr nodes.
  set (k := TAddr4 (p4_address prefix) (r_min ports)) in *.
  assert (Hk : wf_taddr4 k) by (split; [done|apply Hr]).
  pose proof (bib_cmp4 proto t k Hw Hk) as Hc.
  assert (Hn : nodes = List.filter (past_offset bib_compare_full4 k true) (bib_entries t)).
  { apply find_starting_point_spec.
    - eapply sorted_by_NoDup. exact S4.
    - eapply sorted_by_sign; [exact Hc | exact S4].
    - intros x y Hx Hy Zx Zy. rewrite (keyed_zero _ _ _ _ _ Hc) in Zx, Zy by done.
      eapply sorted_by_inj; [exact S4|done|done|]. simpl. lia. }
  set (p := fun b => prefix4_contains prefix (l3_4 (bib_ipv4 b))).
  rewrite Forall_forall in Hw.
  assert (Hge : forall x, x ∈ bib_entries t ->
    past_offset bib_compare_full4 k true x = true <-> taddr4_key k <= taddr4_key (bib_ipv4 x)).
  { intros x Hx. unfold past_offset. rewrite Z.leb_le.
    pose proof (keyed_neg _ _ _ _ _ Hc x Hx). simpl in *. lia. }
  assert (Hk0 : s_addr (p4_address prefix) * 2 ^ 16 <= taddr4_key k)
    by (destruct Hr as [[? _] _]; unfold taddr4_key, k; simpl; lia).
  exists (List.filter p nodes), (List.filter (fun b => negb (p b)) nodes). split_and!.
  - eapply (sorted_by_partition (fun b => taddr4_key (bib_ipv4 b)) p
      ((s_addr (p4_address prefix) + 2 ^ (32 - p4_len prefix)) * 2 ^ 16)).
    + rewrite Hn. apply sorted_by_filter. done.
    + intros x Hx. rewrite Hn, elem_of_filter_bool in Hx. destruct Hx as [Hx Hpast].
      apply Hge in Hpast; [|done]. unfold p.
      rewrite taddr4_prefix_bound by (done || apply (Hw x Hx)). lia.
  - apply Forall_forall. intros x Hx. apply elem_of_filter_bool in Hx. apply Hx.
  - apply Forall_forall. intros x Hx. apply elem_of_filter_bool in Hx as [_ Hx].
    apply negb_true_iff in Hx. done.
  - rewrite Hn, !filter_filter. apply filter_ext_in. intros x Hx. unfold in_request, p.
    destruct (prefix4_contains prefix (l3_4 (bib_ipv4 x))) eqn:Ep; [|rewrite andb_false_r; done].
    destruct (port_range_contains ports (l4_4 (bib_ipv4 x))) eqn:Er; rewrite ?andb_false_r; [|done].
    rewrite !andb_true_r. apply Hge; [done|].
    rewrite taddr4_prefix_bound in Ep by (done || apply (Hw x Hx)).
    apply port_range_contains_iff in Er. unfold taddr4_key, k in *; simpl in *.
    destruct (Hw x Hx) as ([Wa Wp] & _). unfold is_u16, wf_addr4, is_u32 in *. destruct Hr as [[? ?] _].
    assert (s_addr (p4_address prefix) <= s_addr (l3_4 (bib_ipv4 x))) by lia. nia.
Qed.

Lemma bibtable_delete_run proto t h prefix ports :
  bib_table_inv proto t -> bib_allocated t h ->
  0 <= p4_len prefix -> wf_addr4 (p4_address prefix) -> prefix4_validate (Some prefix) = Ok tt ->
  wf_range ports ->
  exists t' h', bibtable_delete_taddr4s prefix ports (t, h) = Some (tt, (t', h')) /\
    flush_post proto t h
      (List.filter (fun b => in_request prefix ports (bib_ipv4 b)) (bib_entries t)) t' h'.
Proof.
  intros Hi Ha Hlen Hwp Hv Hr. pose proof Hi as (_ & _ & _ & Hl & _).
  destruct (bib_request_nodes proto t prefix ports Hi Hlen Hwp Hv Hr) as (l1 & l2 & E & F1 & F2 & Ef).
  set (target := List.filter _ (bib_entries t)) in *.
  destruct (bib_foreach_flush proto target t h Hi) as (t' & h' & Hrun & Hi' & Hnx & _ & Hvars & He).
  - eapply sublist_NoDup; [|exact Hl]. apply sublist_fmap. apply filter_sublist.
  - intros b Hb. apply elem_of_filter_bool in Hb. apply Hb.
  - intros b Hb. apply elem_of_filter_bool in Hb as [Hb _]. apply Ha. done.
  - exists t', h'. split; [|done]. unfold bibtable_delete_taddr4s.
    rewrite E. unfold mbind, M_bind. rewrite bib_foreach_delete, Ef, Hrun by done. done.
Qed.

End FlushTheorems.

(** Flushing a table always completes.  Every static entry loses its fake
    user, exactly once; the static entries nobody else references are freed
    and leave both indexes, and every other entry stays as it was.  Removing
    a pool4 request does the same to the entries of the request only. *)
Lemma bibtable_flush_exact {R : RbTree} {L : RbTreeLaws R} proto t h prefix ports
    (Hi : bib_table_inv proto t) (Ha : bib_allocated t h)
    (Hlen : 0 <= p4_len prefix) (Hwp : wf_addr4 (p4_address prefix))
    (Hv : prefix4_validate (Some prefix) = Ok tt) (Hr : wf_range ports) :
  (exists t' h', bibtable_flush (t, h) = Some (tt, (t', h')) /\
     flush_post proto t h (bib_entries t) t' h') /\
  (exists t' h', bibtable_delete_taddr4s prefix ports (t, h) = Some (tt, (t', h')) /\
     flush_post proto t h
       (List.filter (fun b => in_request prefix ports (bib_ipv4 b)) (bib_entries t)) t' h').
Proof. split; [apply bibtable_flush_run | apply bibtable_delete_run]; done. Qed.

(** A flush does not clear the static flag, so flushing twice takes two
    references from a static entry that something else references: an entry
    with its fake user and one real user survives the first flush and is
    freed by the second one, under its user. *)
Lemma bibtable_flush_twice_frees {R : RbTree} {L : RbTreeLaws R} proto t h b
    (Hi : bib_table_inv proto t) (Ha : bib_allocated t h) (Hb : b ∈ bib_entries t)
    (Hv : bib_vars_of h !! bib_loc b = Some (BibVars true 2)) :
  exists t1 h1 t2 h2,
    bibtable_flush (t, h) = Some (tt, (t1, h1)) /\
    b ∈ bib_entries t1 /\ bib_vars_of h1 !! bib_loc b = Some (BibVars true 1) /\
    bibtable_flush (t1, h1) = Some (tt, (t2, h2)) /\
    bib_vars_of h2 !! bib_loc b = None /\ b ∉ bib_entries t2.
Proof.
  assert (Hin : forall t0, b ∈ bib_entries t0 -> bib_loc b ∈ (bib_loc <$> bib_entries t0))
    by (intros t0 H0; apply list_elem_of_fmap_2; done).
  destruct (bibtable_flush_run proto t h Hi Ha) as (t1 & h1 & Hrun1 & Hi1 & _ & Hv1 & He1).
  assert (Hb1 : bib_vars_of h1 !! bib_loc b = Some (BibVars true 1)).
  { rewrite Hv1. unfold flushed. rewrite Hv, decide_True by auto. done. }
  assert (Hin1 : b ∈ bib_entries t1).
  { apply He1. split; [done|]. intros _. rewrite <- Hv1, Hb1. eauto. }
  assert (Ha1 : bib_allocated t1 h1).
  { intros x Hx. rewrite Hv1. apply He1 in Hx as [Hx Hs]. auto. }
  destruct (bibtable_flush_run proto t1 h1 Hi1 Ha1) as (t2 & h2 & Hrun2 & Hi2 & _ & Hv2 & He2).
  assert (Hf : flushed h1 (bib_entries t1) (bib_loc b) = None).
  { unfold flushed. rewrite Hb1, decide_True by auto. done. }
  exists t1, h1, t2, h2. split_and!; try done.
  - rewrite Hv2. done.
  - intros Hx. apply He2 in Hx as [Hx Hs]. rewrite Hf in Hs. destruct (Hs Hx) as [? [=]].
Qed.

(** ** Examples *)

Definition bib_a : bib_entry :=
  BibEntry 1 (TAddr4 (InAddr 0xc0000201) 80) (TAddr6 (In6Addr 1) 8080) L4PROTO_TCP.

Definition table_a : bib_table := BibTable (Node Leaf bib_a Leaf) (Node Leaf bib_a Leaf) 1.

Lemma bib_a_wf : bib_wf L4PROTO_TCP bib_a.
Proof.
  unfold bib_wf, wf_taddr4, wf_taddr6, wf_addr4, wf_addr6, is_u16, is_u32. simpl.
  split_and!; (lia || done).
Qed.

Lemma bibtable_init_inv proto : bib_table_inv proto bibtable_init.
Proof. unfold bib_table_inv, sorted_by. simpl. split_and!; try constructor; done. Qed.

Lemma table_a_inv : bib_table_inv L4PROTO_TCP table_a.
Proof.
  unfold bib_table_inv, sorted_by, bib_entries. simpl. split_and!; try done.
  - repeat constructor.
  - repeat constructor.
  - apply NoDup_singleton.
  - apply Forall_singleton, bib_a_wf.
Qed.

Definition heap_a (v : bib_vars) : bib_heap := BibHeap {[ 1%positive := v ]} 2 [].

Lemma bib_a_allocated v : bib_allocated table_a (heap_a v).
Proof.
  intros b Hb. apply list_elem_of_singleton in Hb as ->. exists v. apply lookup_singleton_eq.
Qed.

Lemma bibtable_add_binds_witness :
  find_by_addr4 (snd (@bibtable_add plain_rbtree bibtable_init bib_a)) (bib_ipv4 bib_a) = Some bib_a.
Proof.
  pose proof (@bibtable_add_binds plain_rbtree plain_rbtree_laws L4PROTO_TCP bibtable_init bib_a
    (Ok tt) table_a (bibtable_init_inv _) bib_a_wf ltac:(simpl; apply not_elem_of_nil) eq_refl)
    as (_ & _ & _ & _ & H & _).
  exact (H (bib_ipv4 bib_a) (proj1 bib_a_wf)).
Defined.

