(* ===== verification/BibDb.v ===== *)
(** * The BIB database

    [mod/stateful/bib/db.c]: one table per transport protocol over a shared
    heap of entries.  The invariant accounts for the references: an entry's
    counter is the number of outside references to it (sessions and code
    that is using it), given by [refs], plus one for a static entry. *)
From S2P Require Import Prelude Types Address RbTree BibTable.

Record bib_db : Type := BibDb {
  bibs : bib_heap;
  bib_tcp : bib_table;
  bib_udp : bib_table;
  bib_icmp : bib_table
}.

Definition bib_get_table (proto : l4_protocol) (db : bib_db) : option bib_table :=
  match proto with
  | L4PROTO_TCP => Some (bib_tcp db)
  | L4PROTO_UDP => Some (bib_udp db)
  | L4PROTO_ICMP => Some (bib_icmp db)
  | L4PROTO_OTHER => None
  end.

(** Writing the table [bib_get_table] points to. *)
Definition bib_put_table (proto : l4_protocol) (t : bib_table) (db : bib_db) : bib_db :=
  match proto with
  | L4PROTO_TCP => BibDb (bibs db) t (bib_udp db) (bib_icmp db)
  | L4PROTO_UDP => BibDb (bibs db) (bib_tcp db) t (bib_icmp db)
  | L4PROTO_ICMP => BibDb (bibs db) (bib_tcp db) (bib_udp db) t
  | L4PROTO_OTHER => db
  end.

Definition bib_put_heap (h : bib_heap) (db : bib_db) : bib_db :=
  BibDb h (bib_tcp db) (bib_udp db) (bib_icmp db).

(** An operation on the heap of entries alone. *)
Definition on_heap {A} (m : M bib_heap A) : M bib_db A := fun db =>
  match m (bibs db) with
  | Some (a, h) => Some (a, bib_put_heap h db)
  | None => None
  end.

(** An operation on one table and the heap. *)
Definition on_table {A} (proto : l4_protocol) (m : M (bib_table * bib_heap) A) : M bib_db A :=
  fun db =>
  match bib_get_table proto db with
  | None => None
  | Some t =>
      match m (t, bibs db) with
      | Some (a, (t, h)) => Some (a, bib_put_table proto t (bib_put_heap h db))
      | None => None
      end
  end.

Definition bibdb_get4 (addr : ipv4_transport_addr) (proto : l4_protocol)
    : M bib_db (result bib_entry) := fun db =>
  match bib_get_table proto db with
  | Some table => on_heap (bibtable_get4 table addr) db
  | None => Some (Err EINVAL, db)
  end.

Definition bibdb_get6 (addr : ipv6_transport_addr) (proto : l4_protocol)
    : M bib_db (result bib_entry) := fun db =>
  match bib_get_table proto db with
  | Some table => on_heap (bibtable_get6 table addr) db
  | None => Some (Err EINVAL, db)
  end.

Definition bibdb_get (t : tuple) : M bib_db (result bib_entry) :=
  match t with
  | Tuple6 src _ proto => bibdb_get6 src proto
  | Tuple4 _ dst proto => bibdb_get4 dst proto
  end.

Definition bibdb_contains4 (addr : ipv4_transport_addr) (proto : l4_protocol) (db : bib_db) : bool :=
  match bib_get_table proto db with
  | Some table => bibtable_contains4 table addr
  | None => false
  end.

Section Db.
Context {R : RbTree}.

Definition bibdb_return (bib : option bib_entry) : M bib_db unit :=
  match bib with
  | None => mret tt
  | Some bib =>
      dead ← on_heap (bibentry_return bib);
      if negb dead then mret tt
      else
        modify (fun db =>
          match bib_get_table (bib_l4_proto bib) db with
          | Some table => bib_put_table (bib_l4_proto bib) (bibtable_rm table bib) db
          | None => db
          end);;
        on_heap (bibentry_kfree bib)
  end.

Definition bibdb_add (entry : bib_entry) : M bib_db (result unit) := fun db =>
  match bib_get_table (bib_l4_proto entry) db with
  | Some table =>
      let '(r, table) := bibtable_add table entry in
      Some (r, bib_put_table (bib_l4_proto entry) table db)
  | None => Some (Err EINVAL, db)
  end.

Definition bibdb_foreach {B} (proto : l4_protocol) (func : bib_entry -> B -> Z * B) (arg : B)
    (offset : option ipv4_transport_addr) (db : bib_db) : Z * B :=
  match bib_get_table proto db with
  | Some table => bibtable_foreach func table arg offset
  | None => (- errno_code EINVAL, arg)
  end.

Definition bibdb_count (proto : l4_protocol) (db : bib_db) : result Z :=
  match bib_get_table proto db with
  | Some table => Ok (bibtable_count table)
  | None => Err EINVAL
  end.

Definition bibdb_delete_taddr4s (prefix : ipv4_prefix) (ports : port_range) : M bib_db unit :=
  on_table L4PROTO_TCP (bibtable_delete_taddr4s prefix ports);;
  on_table L4PROTO_UDP (bibtable_delete_taddr4s prefix ports);;
  on_table L4PROTO_ICMP (bibtable_delete_taddr4s prefix ports).

Definition bibdb_flush : M bib_db unit :=
  on_table L4PROTO_TCP bibtable_flush;;
  on_table L4PROTO_ICMP bibtable_flush;;
  on_table L4PROTO_UDP bibtable_flush.

End Db.

(** ** Invariant *)

Definition bib_all (db : bib_db) : list bib_entry :=
  bib_entries (bib_tcp db) ++ bib_entries (bib_udp db) ++ bib_entries (bib_icmp db).

Definition bib_of_proto (proto : l4_protocol) (db : bib_db) : list bib_entry :=
  match bib_get_table proto db with Some t => bib_entries t | None => [] end.

(** The counter an entry must have. *)
Definition ref_ok (refs : positive -> Z) (loc : positive) (v : bib_vars) : Prop :=
  0 <= refs loc /\ bib_refcounter v = refs loc + Z.b2z (is_static v) /\ 0 < bib_refcounter v.

Definition bib_db_inv (refs : positive -> Z) (db : bib_db) : Prop :=
  bib_table_inv L4PROTO_TCP (bib_tcp db) /\ bib_table_inv L4PROTO_UDP (bib_udp db) /\
  bib_table_inv L4PROTO_ICMP (bib_icmp db) /\
  NoDup (bib_loc <$> bib_all db) /\
  (forall b, b ∈ bib_all db ->
     exists v, bib_vars_of (bibs db) !! bib_loc b = Some v /\ ref_ok refs (bib_loc b) v) /\
  (forall loc v, bib_vars_of (bibs db) !! loc = Some v -> (loc < bib_next (bibs db))%positive).

(** [refs] with [d] more references to the entry at [loc]. *)
Definition add_ref (refs : positive -> Z) (loc : positive) (d : Z) : positive -> Z :=
  fun l => if decide (l = loc) then refs l + d else refs l.

Lemma add_ref_eq refs loc d : add_ref refs loc d loc = refs loc + d.
Proof. unfold add_ref. rewrite decide_True by done. done. Qed.

Lemma add_ref_ne refs loc d l : l <> loc -> add_ref refs loc d l = refs l.
Proof. intros. unfold add_ref. rewrite decide_False by done. done. Qed.

(** Reading and writing the tables. *)

Lemma bib_table_of_inv refs db proto t :
  bib_db_inv refs db -> bib_get_table proto db = Some t -> bib_table_inv proto t.
Proof. intros (H1 & H2 & H3 & _) H. destruct proto; simplify_eq/=; done. Qed.

Lemma bib_of_proto_all proto db b : b ∈ bib_of_proto proto db -> b ∈ bib_all db.
Proof.
  unfold bib_of_proto, bib_all. rewrite !elem_of_app. destruct proto; simpl; auto.
  intros H. inversion H.
Qed.

Lemma bib_get_put proto t db p :
  bib_get_table p (bib_put_table proto t db) =
  if decide (p = proto /\ proto <> L4PROTO_OTHER) then Some t else bib_get_table p db.
Proof. destruct proto, p; reflexivity. Qed.

Lemma bib_of_proto_inv refs db proto b :
  bib_db_inv refs db -> b ∈ bib_of_proto proto db ->
  bib_l4_proto b = proto /\ wf_taddr4 (bib_ipv4 b) /\ wf_taddr6 (bib_ipv6 b).
Proof.
  intros Hi Hb. unfold bib_of_proto in Hb.
  destruct (bib_get_table proto db) as [t|] eqn:E; [|inversion Hb].
  pose proof (bib_table_of_inv _ _ _ _ Hi E) as (_ & _ & _ & _ & Hw & _).
  rewrite Forall_forall in Hw. destruct (Hw b Hb) as (? & ? & ?). done.
Qed.

Lemma bib_all_of_proto refs db b :
  bib_db_inv refs db -> b ∈ bib_all db <-> b ∈ bib_of_proto (bib_l4_proto b) db.
Proof.
  intros Hi. split; [|apply bib_of_proto_all].
  unfold bib_all. rewrite !elem_of_app. intros H.
  assert (Hp : exists p, b ∈ bib_of_proto p db).
  { destruct H as [H|[H|H]]; [exists L4PROTO_TCP | exists L4PROTO_UDP | exists L4PROTO_ICMP]; done. }
  destruct Hp as [p Hp]. destruct (bib_of_proto_inv _ _ _ _ Hi Hp) as (-> & _). done.
Qed.

(** Replacing a table by one with the same entries but one. *)
Lemma bib_all_put_rm proto t t' db b :
  bib_get_table proto db = Some t -> bib_entries t ≡ₚ b :: bib_entries t' ->
  bib_all db ≡ₚ b :: bib_all (bib_put_table proto t' db).
Proof.
  intros Hg Hp. unfold bib_all. destruct proto; simplify_eq/=; rewrite Hp; solve_Permutation.
Qed.

Lemma bib_all_put_add proto t t' db b :
  bib_get_table proto db = Some t -> bib_entries t' ≡ₚ b :: bib_entries t ->
  bib_all (bib_put_table proto t' db) ≡ₚ b :: bib_all db.
Proof.
  intros Hg Hp. unfold bib_all. destruct proto; simplify_eq/=; rewrite Hp; solve_Permutation.
Qed.

(** ** References *)

(** The invariant looks at [refs] only where there are entries. *)
Lemma bib_db_inv_ext refs refs' db :
  bib_db_inv refs db -> (forall b, b ∈ bib_all db -> refs' (bib_loc b) = refs (bib_loc b)) ->
  bib_db_inv refs' db.
Proof.
  intros (H1 & H2 & H3 & H4 & H5 & H6) He. split_and!; try done.
  intros b Hb. destruct (H5 b Hb) as (v & Hv & Hr). exists v. split; [done|].
  unfold ref_ok in *. rewrite He by done. done.
Qed.

Lemma bib_loc_inj refs db b x :
  bib_db_inv refs db -> b ∈ bib_all db -> x ∈ bib_all db -> bib_loc b = bib_loc x -> b = x.
Proof.
  intros (_ & _ & _ & Hnd & _) Hb Hx E. revert Hnd Hb Hx. generalize (bib_all db) as l.
  induction l as [|y l IH]; intros Hnd Hb Hx; [inversion Hb|].
  rewrite fmap_cons in Hnd. apply NoDup_cons in Hnd as [Hni Hnd].
  apply elem_of_cons in Hb as [->|Hb]; apply elem_of_cons in Hx as [->|Hx]; auto.
  - destruct Hni. rewrite E. apply list_elem_of_fmap_2. done.
  - destruct Hni. rewrite <- E. apply list_elem_of_fmap_2. done.
Qed.

(** Changing the variables of one entry of the database. *)
Lemma bib_set_vars_inv refs refs' db b v :
  bib_db_inv refs db -> b ∈ bib_all db -> ref_ok refs' (bib_loc b) v ->
  (forall l, l <> bib_loc b -> refs' l = refs l) ->
  bib_db_inv refs' (bib_put_heap (set_vars (bibs db) (<[bib_loc b := v]> (bib_vars_of (bibs db)))) db).
Proof.
  intros (H1 & H2 & H3 & H4 & H5 & H6) Hb Hr Ho. split_and!; try done; simpl.
  - intros x Hx. destruct (decide (bib_loc x = bib_loc b)) as [E|E].
    + exists v. rewrite E, lookup_insert_eq. done.
    + destruct (H5 x Hx) as (w & Hw & Hr'). exists w. rewrite lookup_insert_ne by done.
      split; [done|]. unfold ref_ok in *. rewrite Ho by done. done.
  - intros loc w Hw. apply lookup_insert_Some in Hw as [[<- _]|[_ Hw]]; [|eauto].
    destruct (H5 b Hb) as (w0 & Hw0 & _). eauto.
Qed.

Lemma bib_take_ref refs db b :
  bib_db_inv refs db -> b ∈ bib_all db ->
  exists h, on_heap (bibentry_get b) db = Some (tt, bib_put_heap h db) /\
    bib_db_inv (add_ref refs (bib_loc b) 1) (bib_put_heap h db).
Proof.
  intros Hi Hb. pose proof Hi as (_ & _ & _ & _ & H5 & _).
  destruct (H5 b Hb) as (v & Hv & H0 & Hr & Hpos).
  eexists. unfold on_heap. rewrite (bibentry_get_run b (bibs db) v Hv). split; [reflexivity|].
  eapply bib_set_vars_inv; [exact Hi | done | | intros l Hl; apply add_ref_ne; done].
  unfold ref_ok. rewrite add_ref_eq. simpl. lia.
Qed.

Lemma bib_grab_spec refs db (found : option bib_entry) :
  bib_db_inv refs db -> (forall b, found = Some b -> b ∈ bib_all db) ->
  exists r h, on_heap (bib_grab found) db = Some (r, bib_put_heap h db) /\
  match found with
  | Some b => r = Ok b /\ bib_db_inv (add_ref refs (bib_loc b) 1) (bib_put_heap h db)
  | None => r = Err ESRCH /\ h = bibs db
  end.
Proof.
  intros Hi Hin. destruct found as [b|].
  - destruct (bib_take_ref refs db b Hi (Hin b eq_refl)) as (h & Hrun & Hi').
    exists (Ok b), h. split; [|done]. unfold on_heap in *. unfold bib_grab, mbind, M_bind.
    destruct (bibentry_get b (bibs db)) as [[[] h']|]; [|done].
    injection Hrun as Hrun. simpl. rewrite Hrun. done.
  - exists (Err ESRCH), (bibs db). done.
Qed.

(** What looking an address up gives: the entry with a reference more, or an
    error and nothing changed. *)
Definition bib_lookup_post (refs : positive -> Z) (db : bib_db) (proto : l4_protocol)
    (has : bib_entry -> Prop) (r : result bib_entry) (db' : bib_db) : Prop :=
  match r with
  | Ok b => b ∈ bib_of_proto proto db /\ has b /\
      bib_db_inv (add_ref refs (bib_loc b) 1) db' /\ exists h, db' = bib_put_heap h db
  | Err ESRCH => db' = db /\ proto <> L4PROTO_OTHER /\
      forall b, b ∈ bib_of_proto proto db -> ~ has b
  | Err e => db' = db /\ e = EINVAL /\ proto = L4PROTO_OTHER
  end.

Lemma bib_put_heap_id db : bib_put_heap (bibs db) db = db.
Proof. destruct db; done. Qed.

Lemma bibdb_get6_spec refs db addr proto :
  bib_db_inv refs db -> wf_taddr6 addr ->
  exists r db', bibdb_get6 addr proto db = Some (r, db') /\
    bib_lookup_post refs db proto (fun b => bib_ipv6 b = addr) r db'.
Proof.
  intros Hi Hw. unfold bibdb_get6, bib_lookup_post, bib_of_proto.
  destruct (bib_get_table proto db) as [t|] eqn:Et.
  2:{ eexists _, _. split; [reflexivity|]. simpl. split_and!; try done. destruct proto; done. }
  pose proof (bib_table_of_inv _ _ _ _ Hi Et) as Ht.
  destruct (bib_grab_spec refs db (find_by_addr6 t addr) Hi) as (r & h & Hrun & Hpost).
  { intros b Hb. apply (find_by_addr6_iff proto) in Hb as [Hb _]; [|done..].
    apply (bib_of_proto_all proto). unfold bib_of_proto. rewrite Et. done. }
  exists r, (bib_put_heap h db). split; [exact Hrun|].
  destruct (find_by_addr6 t addr) as [b|] eqn:Ef.
  - destruct Hpost as [-> Hi']. apply (find_by_addr6_iff proto) in Ef as [? ?]; [|done..]. eauto.
  - destruct Hpost as [-> ->]. rewrite bib_put_heap_id. split_and!; try done.
    + intros ->. done.
    + rewrite (find_by_addr6_none proto) in Ef by done. done.
Qed.

Lemma bibdb_get4_spec refs db addr proto :
  bib_db_inv refs db -> wf_taddr4 addr ->
  exists r db', bibdb_get4 addr proto db = Some (r, db') /\
    bib_lookup_post refs db proto (fun b => bib_ipv4 b = addr) r db'.
Proof.
  intros Hi Hw. unfold bibdb_get4, bib_lookup_post, bib_of_proto.
  destruct (bib_get_table proto db) as [t|] eqn:Et.
  2:{ eexists _, _. split; [reflexivity|]. simpl. split_and!; try done. destruct proto; done. }
  pose proof (bib_table_of_inv _ _ _ _ Hi Et) as Ht.
  destruct (bib_grab_spec refs db (find_by_addr4 t addr) Hi) as (r & h & Hrun & Hpost).
  { intros b Hb. apply (find_by_addr4_iff proto) in Hb as [Hb _]; [|done..].
    apply (bib_of_proto_all proto). unfold bib_of_proto. rewrite Et. done. }
  exists r, (bib_put_heap h db). split; [exact Hrun|].
  destruct (find_by_addr4 t addr) as [b|] eqn:Ef.
  - destruct Hpost as [-> Hi']. apply (find_by_addr4_iff proto) in Ef as [? ?]; [|done..]. eauto.
  - destruct Hpost as [-> ->]. rewrite bib_put_heap_id. split_and!; try done.
    + intros ->. done.
    + rewrite (find_by_addr4_none proto) in Ef by done. done.
Qed.

Lemma bibdb_contains4_iff refs db addr proto :
  bib_db_inv refs db -> wf_taddr4 addr ->
  bibdb_contains4 addr proto db = true <->
  exists b, b ∈ bib_of_proto proto db /\ bib_ipv4 b = addr.
Proof.
  intros Hi Hw. unfold bibdb_contains4, bib_of_proto, bibtable_contains4.
  destruct (bib_get_table proto db) as [t|] eqn:Et.
  2:{ split; [done|]. intros (b & Hb & _). inversion Hb. }
  pose proof (bib_table_of_inv _ _ _ _ Hi Et) as Ht.
  destruct (find_by_addr4 t addr) as [b|] eqn:Ef.
  - apply (find_by_addr4_iff proto) in Ef; [|done..]. split; [eauto|done].
  - rewrite (find_by_addr4_none proto) in Ef by done. split; [done|].
    intros (b & Hb & E). destruct (Ef b Hb E).
Qed.

(** ** Releasing *)

Section Release.
Context {R : RbTree} {L : RbTreeLaws R}.

Lemma bib_put_table_inv refs db proto t t' b h :
  bib_db_inv refs db -> bib_get_table proto db = Some t -> b ∈ bib_entries t ->
  t' = bib_rm t b -> h = set_vars (bibs db) (delete (bib_loc b) (bib_vars_of (bibs db))) ->
  bib_db_inv refs (bib_put_heap h (bib_put_table proto t' db)) /\
  bib_all db ≡ₚ b :: bib_all (bib_put_heap h (bib_put_table proto t' db)).
Proof.
  intros Hi Ht Hb -> ->. pose proof (bib_table_of_inv _ _ _ _ Hi Ht) as Hti.
  destruct (bib_rm_spec proto t b Hti Hb) as [Hti' Hp].
  pose proof (bib_all_put_rm proto t (bib_rm t b) db b Ht Hp) as Hall.
  split; [|exact Hall]. destruct Hi as (H1 & H2 & H3 & H4 & H5 & H6).
  set (db' := bib_put_heap _ _).
  change (bib_all (bib_put_table proto (bib_rm t b) db)) with (bib_all db') in Hall.
  rewrite Hall, fmap_cons in H4. apply NoDup_cons in H4 as [Hni H4]. split_and!.
  - destruct proto; simplify_eq/=; done.
  - destruct proto; simplify_eq/=; done.
  - destruct proto; simplify_eq/=; done.
  - done.
  - intros x Hx. destruct (H5 x) as (v & Hv & Hr); [rewrite Hall; right; done|].
    exists v. split; [|done]. simpl. rewrite lookup_delete_ne; [done|].
    intros E. apply Hni. rewrite E. apply list_elem_of_fmap_2. done.
  - intros loc v Hv. simpl in *. apply lookup_delete_Some in Hv as [_ Hv]. eauto.
Qed.

(** Giving a reference back: the entry is unlinked and freed exactly when it
    was the last one and the entry is not static. *)
Lemma bibdb_return_spec refs db b :
  bib_db_inv refs db -> b ∈ bib_all db -> 1 <= refs (bib_loc b) ->
  exists db' v, bibdb_return (Some b) db = Some (tt, db') /\
    bib_vars_of (bibs db) !! bib_loc b = Some v /\
    bib_db_inv (add_ref refs (bib_loc b) (-1)) db' /\
    bib_next (bibs db') = bib_next (bibs db) /\ bib_allocs (bibs db') = bib_allocs (bibs db) /\
    (forall p x, x ∈ bib_of_proto p db' <->
       x ∈ bib_of_proto p db /\ (x = b -> bib_refcounter v <> 1)) /\
    (bib_refcounter v = 1 -> is_static v = false /\ refs (bib_loc b) = 1 /\
       bib_vars_of (bibs db') !! bib_loc b = None).
Proof.
  intros Hi Hb Href. pose proof Hi as (_ & _ & _ & Hnd & H5 & _).
  destruct (H5 b Hb) as (v & Hv & H0 & Hr & Hpos).
  unfold bibdb_return, mbind, M_bind, on_heap at 1. rewrite (bibentry_return_run b (bibs db) v Hv).
  set (h1 := set_vars _ _).
  destruct (Z.eqb_spec (bib_refcounter v - 1) 0) as [E|E]; cbn [negb].
  - assert (Hst : is_static v = false) by (destruct (is_static v); [simpl in Hr; lia|done]).
    pose proof Hb as Hb'. rewrite (bib_all_of_proto refs) in Hb' by done.
    unfold bib_of_proto in Hb'.
    destruct (bib_get_table (bib_l4_proto b) db) as [t|] eqn:Et; [|inversion Hb'].
    unfold modify. change (bib_get_table (bib_l4_proto b) (bib_put_heap h1 db))
      with (bib_get_table (bib_l4_proto b) db). rewrite Et.
    unfold on_heap.
    assert (Hh : bibs (bib_put_table (bib_l4_proto b) (bibtable_rm t b) (bib_put_heap h1 db)) = h1)
      by (destruct (bib_l4_proto b); done).
    rewrite Hh. erewrite bibentry_kfree_run by (subst h1; simpl; apply lookup_insert_eq).
    assert (Hd : delete (bib_loc b) (bib_vars_of h1) = delete (bib_loc b) (bib_vars_of (bibs db)))
      by (subst h1; simpl; apply delete_insert_eq).
    destruct (bib_put_table_inv refs db (bib_l4_proto b) t (bib_rm t b) b
                (set_vars (bibs db) (delete (bib_loc b) (bib_vars_of (bibs db)))) Hi Et Hb' eq_refl eq_refl)
      as [Hi' Hall].
    eexists _, v. split; [reflexivity|]. split; [done|].
    assert (Hdb : bib_put_heap (set_vars h1 (delete (bib_loc b) (bib_vars_of h1)))
       (bib_put_table (bib_l4_proto b) (bibtable_rm t b) (bib_put_heap h1 db)) =
       bib_put_heap (set_vars (bibs db) (delete (bib_loc b) (bib_vars_of (bibs db))))
         (bib_put_table (bib_l4_proto b) (bib_rm t b) db)).
    { rewrite Hd. destruct (bib_l4_proto b); done. }
    rewrite Hdb. split; [|split; [|split; [|split]]].
    + eapply bib_db_inv_ext; [exact Hi'|]. intros x Hx. apply add_ref_ne. intros Ex.
      rewrite Hall, fmap_cons in Hnd. apply NoDup_cons in Hnd as [Hni _].
      apply Hni. rewrite <- Ex. apply list_elem_of_fmap_2. done.
    + destruct (bib_l4_proto b); done.
    + destruct (bib_l4_proto b); done.
    + intros p x. unfold bib_of_proto.
      change (bib_get_table p (bib_put_heap ?h ?d)) with (bib_get_table p d).
      rewrite bib_get_put.
      destruct (decide (p = bib_l4_proto b)) as [->|Hne].
      * rewrite decide_True by (split; [done|]; intros Eo; rewrite Eo in Et; done). rewrite Et.
        pose proof (bib_table_of_inv _ _ _ _ Hi Et) as Hti.
        destruct (bib_rm_spec _ t b Hti Hb') as [_ Hp].
        destruct Hti as (S4 & _). apply sorted_by_NoDup in S4. rewrite Hp in S4 |- *.
        apply NoDup_cons in S4 as [Hnx _]. rewrite elem_of_cons. split.
        -- intros Hx. split; [auto|]. intros ->. done.
        -- intros [[->|Hx] Hs]; [specialize (Hs eq_refl); lia | done].
      * rewrite decide_False by tauto. split; [|tauto]. intros Hx. split; [done|]. intros ->.
        destruct (bib_of_proto_inv refs db p b Hi Hx) as (Ep & _). congruence.
    + intros _. split; [done|]. split; [rewrite Hst in Hr; simpl in Hr; lia|].
      simpl. apply lookup_delete_eq.
  - eexists _, v. split; [reflexivity|]. split; [done|]. split; [|split_and!; try done].
    + eapply bib_set_vars_inv; [exact Hi | done | | intros l Hl; apply add_ref_ne; done].
      unfold ref_ok. rewrite add_ref_eq. simpl. lia.
    + intros p x. split; [|tauto]. intros Hx. split; [done|]. intros _. lia.
    + lia.
Qed.

End Release.

(** ** Creating and adding *)

Section Create.
Context {R : RbTree} {L : RbTreeLaws R}.

(** An allocated entry, in no table, that a caller is about to add. *)
Definition bib_ready (refs : positive -> Z) (db : bib_db) (b : bib_entry) : Prop :=
  bib_wf (bib_l4_proto b) b /\ bib_l4_proto b <> L4PROTO_OTHER /\
  (bib_loc b ∉ (bib_loc <$> bib_all db)) /\
  exists v, bib_vars_of (bibs db) !! bib_loc b = Some v /\ ref_ok refs (bib_loc b) v.

Lemma bib_put_table_perm refs db proto t t' b v :
  bib_db_inv refs db -> bib_get_table proto db = Some t -> bib_table_inv proto t' ->
  bib_entries t' ≡ₚ b :: bib_entries t -> bib_loc b ∉ (bib_loc <$> bib_all db) ->
  bib_vars_of (bibs db) !! bib_loc b = Some v -> ref_ok refs (bib_loc b) v ->
  bib_db_inv refs (bib_put_table proto t' db).
Proof.
  intros (H1 & H2 & H3 & H4 & H5 & H6) Ht Hti Hp Hni Hv Hr.
  pose proof (bib_all_put_add proto t t' db b Ht Hp) as Hall.
  assert (Hh : bibs (bib_put_table proto t' db) = bibs db) by (destruct proto; done).
  split_and!.
  - destruct proto; simplify_eq/=; done.
  - destruct proto; simplify_eq/=; done.
  - destruct proto; simplify_eq/=; done.
  - rewrite Hall, fmap_cons. apply NoDup_cons. done.
  - intros x Hx. rewrite Hh. rewrite Hall, elem_of_cons in Hx. destruct Hx as [->|Hx]; eauto.
  - rewrite Hh. done.
Qed.

Lemma bib_put_table_same refs db proto t t' :
  bib_db_inv refs db -> bib_get_table proto db = Some t -> bib_table_inv proto t' ->
  bib_entries t' = bib_entries t ->
  bib_db_inv refs (bib_put_table proto t' db) /\ bib_all (bib_put_table proto t' db) = bib_all db.
Proof.
  intros (H1 & H2 & H3 & H4 & H5 & H6) Ht Hti He.
  assert (Hall : bib_all (bib_put_table proto t' db) = bib_all db)
    by (unfold bib_all; destruct proto; simplify_eq/=; rewrite He; done).
  assert (Hh : bibs (bib_put_table proto t' db) = bibs db) by (destruct proto; done).
  split; [|done]. unfold bib_db_inv. rewrite Hall, Hh.
  split_and!; try done; destruct proto; simplify_eq/=; done.
Qed.

Lemma bibdb_add_spec refs db b :
  bib_db_inv refs db -> bib_ready refs db b ->
  exists r db', bibdb_add b db = Some (r, db') /\ bib_db_inv refs db' /\ bibs db' = bibs db /\
  match r with
  | Ok _ =>
      (forall p x, x ∈ bib_of_proto p db' <->
         x ∈ bib_of_proto p db \/ (x = b /\ p = bib_l4_proto b)) /\
      (forall x, x ∈ bib_of_proto (bib_l4_proto b) db ->
         bib_ipv4 x <> bib_ipv4 b /\ bib_ipv6 x <> bib_ipv6 b)
  | Err e => e = EEXIST /\ bib_all db' = bib_all db /\
      exists x, x ∈ bib_of_proto (bib_l4_proto b) db /\
        (bib_ipv6 x = bib_ipv6 b \/ bib_ipv4 x = bib_ipv4 b)
  end.
Proof.
  intros Hi (Hw & Hne & Hni & v & Hv & Hr). unfold bibdb_add, bib_of_proto.
  destruct (bib_get_table (bib_l4_proto b) db) as [t|] eqn:Et; [|destruct (bib_l4_proto b); done].
  pose proof (bib_table_of_inv _ _ _ _ Hi Et) as Hti.
  assert (Hsub : bib_loc b ∉ (bib_loc <$> bib_entries t)).
  { intros Hin. apply Hni. apply list_elem_of_fmap in Hin as (x & -> & Hx).
    apply list_elem_of_fmap_2. apply (bib_of_proto_all (bib_l4_proto b)).
    unfold bib_of_proto. rewrite Et. done. }
  pose proof (bibtable_add_spec _ t b Hti Hw Hsub) as Hadd.
  destruct (bibtable_add t b) as [[[]|e] t'].
  - destruct Hadd as (Hti' & Hp & N6 & N4). destruct Hw as (W4 & W6 & _).
    eexists _, _. split; [reflexivity|]. split; [eapply bib_put_table_perm; eassumption|].
    split; [destruct (bib_l4_proto b); done|]. split.
    + intros p x. rewrite bib_get_put. destruct (decide (p = bib_l4_proto b)) as [->|Hpne].
      * rewrite decide_True, Et, Hp, elem_of_cons by done. tauto.
      * rewrite decide_False by tauto. tauto.
    + intros x Hx. rewrite (find_by_addr6_none (bib_l4_proto b)) in N6 by done.
      rewrite (find_by_addr4_none (bib_l4_proto b)) in N4 by done. auto.
  - destruct Hadd as (-> & Hti' & He & x & Hx & Htaken).
    destruct (bib_put_table_same refs db _ t t' Hi Et Hti' He) as [Hi' Hall].
    eexists _, _. split; [reflexivity|]. split; [done|].
    split; [destruct (bib_l4_proto b); done|]. eauto 6.
Qed.

(** A new entry is ready to be added; its creator holds the one reference,
    which a static entry counts as its fake user. *)
Definition new_refs (refs : positive -> Z) (loc : positive) (static : bool) : positive -> Z :=
  fun l => if decide (l = loc) then (if static then 0 else 1) else refs l.

Lemma bibentry_create_spec refs db addr4 addr6 static proto :
  bib_db_inv refs db -> wf_taddr4 addr4 -> wf_taddr6 addr6 -> proto <> L4PROTO_OTHER ->
  exists r h, on_heap (bibentry_create addr4 addr6 static proto) db = Some (r, bib_put_heap h db) /\
  match r with
  | Some b =>
      bib_ipv4 b = addr4 /\ bib_ipv6 b = addr6 /\ bib_l4_proto b = proto /\
      bib_loc b = bib_next (bibs db) /\
      bib_db_inv (new_refs refs (bib_loc b) static) (bib_put_heap h db) /\
      bib_ready (new_refs refs (bib_loc b) static) (bib_put_heap h db) b
  | None => bib_db_inv refs (bib_put_heap h db)
  end.
Proof.
  intros (H1 & H2 & H3 & H4 & H5 & H6) W4 W6 Hp. unfold on_heap, bibentry_create.
  destruct (kmalloc (bib_allocs (bibs db))) as [[] al].
  2:{ eexists _, _. split; [reflexivity|]. split_and!; done. }
  eexists _, _. split; [reflexivity|]. simpl. split; [done|]. split; [done|]. split; [done|]. split; [done|].
  set (loc := bib_next (bibs db)) in *.
  assert (Hnone : bib_vars_of (bibs db) !! loc = None).
  { destruct (bib_vars_of (bibs db) !! loc) as [v|] eqn:E; [|done].
    specialize (H6 _ _ E). lia. }
  assert (Hne : forall b, b ∈ bib_all db -> bib_loc b <> loc).
  { intros b Hb E. destruct (H5 b Hb) as (v & Hv & _). congruence. }
  split.
  - split_and!; try done; simpl.
    + intros b Hb. destruct (H5 b Hb) as (v & Hv & Hr). exists v.
      rewrite lookup_insert_ne by (intros E; destruct (Hne b Hb); done). split; [done|].
      unfold ref_ok, new_refs in *. rewrite decide_False by (apply Hne; done). done.
    + intros l v Hl. apply lookup_insert_Some in Hl as [[<- _]|[_ Hl]]; [lia|].
      specialize (H6 _ _ Hl). lia.
  - split_and!; try done; simpl.
    + intros Hin. apply list_elem_of_fmap in Hin as (x & E & Hx). destruct (Hne x Hx). done.
    + eexists. split; [apply lookup_insert_eq|]. unfold ref_ok, new_refs.
      rewrite decide_True by done. destruct static; simpl; lia.
Qed.

End Create.

(** ** Flushing *)

Section FlushDb.
Context {R : RbTree} {L : RbTreeLaws R}.

Definition static_in (db : bib_db) (b : bib_entry) : Prop :=
  exists v, bib_vars_of (bibs db) !! bib_loc b = Some v /\ is_static v = true.

(** Nobody but the fake user holds a static entry of the request [sel]: what
    a flush relies on, since it takes the fake user away and leaves the flag
    ([bibtable_flush_twice_frees]). *)
Definition flushable (sel : bib_entry -> bool) (refs : positive -> Z) (db : bib_db) : Prop :=
  forall b, b ∈ bib_all db -> sel b = true -> static_in db b -> refs (bib_loc b) = 0.

(** An operation that flushes the entries of a table that [sel] accepts. *)
Definition table_flusher (m : M (bib_table * bib_heap) unit) (sel : bib_entry -> bool) : Prop :=
  forall proto t h, bib_table_inv proto t -> bib_allocated t h ->
  exists t' h', m (t, h) = Some (tt, (t', h')) /\ flush_post proto t h (List.filter sel (bib_entries t)) t' h'.

Lemma flush_flusher : table_flusher bibtable_flush (fun _ => true).
Proof.
  intros proto t h Hi Ha. destruct (bibtable_flush_run proto t h Hi Ha) as (t' & h' & Hrun & Hp).
  exists t', h'. split; [done|]. replace (List.filter _ _) with (bib_entries t); [done|].
  clear. symmetry. induction (bib_entries t) as [|b l IH]; [done|]. simpl. rewrite IH. done.
Qed.

Lemma delete_flusher prefix ports :
  0 <= p4_len prefix -> wf_addr4 (p4_address prefix) -> prefix4_validate (Some prefix) = Ok tt -> wf_range ports ->
  table_flusher (bibtable_delete_taddr4s prefix ports) (fun b => in_request prefix ports (bib_ipv4 b)).
Proof. intros H1 H2 H3 H4 proto t h Hi Ha. apply bibtable_delete_run; done. Qed.

(** The variables of the entry that are left by a flush are as they were. *)
Lemma flushed_vars refs db l loc v :
  bib_vars_of (bibs db) !! loc = Some v -> ref_ok refs loc v ->
  (loc ∈ (bib_loc <$> l) -> is_static v = true -> refs loc = 0) ->
  flushed (bibs db) l loc = if decide (loc ∈ (bib_loc <$> l)) then (if is_static v then None else Some v) else Some v.
Proof.
  intros Hv (_ & Hr & _) H0. unfold flushed. rewrite Hv. case_decide as Hd; [|done]. unfold flush_vars.
  destruct (is_static v) eqn:Es; [|done]. rewrite (H0 Hd eq_refl) in Hr. rewrite Hr. done.
Qed.

Lemma bib_of_proto_put proto t db p :
  proto <> L4PROTO_OTHER ->
  bib_of_proto p (bib_put_table proto t db) = if decide (p = proto) then bib_entries t else bib_of_proto p db.
Proof. intros Hp. unfold bib_of_proto. rewrite bib_get_put. repeat case_decide; tauto || done. Qed.

(** A table replaced by one with some of its entries. *)
Lemma bib_shrink_inv refs db proto t t' h :
  bib_db_inv refs db -> bib_get_table proto db = Some t -> bib_table_inv proto t' ->
  (forall b, b ∈ bib_entries t' -> b ∈ bib_entries t) -> bib_next h = bib_next (bibs db) ->
  (forall b, b ∈ bib_all (bib_put_table proto t' db) -> bib_vars_of h !! bib_loc b = bib_vars_of (bibs db) !! bib_loc b) ->
  (forall loc v, bib_vars_of h !! loc = Some v -> is_Some (bib_vars_of (bibs db) !! loc)) ->
  bib_db_inv refs (bib_put_table proto t' (bib_put_heap h db)).
Proof.
  intros Hi Hg Ht' Hsub Hn Hsame Hdom. pose proof Hi as (H1 & H2 & H3 & H4 & H5 & H6).
  set (db' := bib_put_table proto t' (bib_put_heap h db)).
  assert (Eh : bibs db' = h) by (destruct proto; done).
  assert (Ea : bib_all db' = bib_all (bib_put_table proto t' db)) by (destruct proto; done).
  assert (Hall : forall b, b ∈ bib_all db' -> b ∈ bib_all db).
  { intros b. unfold db', bib_all. destruct proto; simplify_eq/=; set_solver. }
  split_and!.
  - destruct proto; simplify_eq/=; done.
  - destruct proto; simplify_eq/=; done.
  - destruct proto; simplify_eq/=; done.
  - assert (Hl : NoDup (bib_loc <$> bib_entries t')) by apply Ht'.
    assert (Hin : forall loc, loc ∈ (bib_loc <$> bib_entries t') -> loc ∈ (bib_loc <$> bib_entries t)).
    { intros loc Hx. apply list_elem_of_fmap in Hx as (b & -> & Hb). apply list_elem_of_fmap_2. auto. }
    unfold db', bib_all in *. rewrite !fmap_app, !NoDup_app in H4. 
    destruct proto; simplify_eq/=; rewrite !fmap_app, !NoDup_app; set_solver.
  - intros b Hb. rewrite Eh. rewrite Ea in Hb. rewrite (Hsame b Hb). apply H5, Hall. rewrite Ea. done.
  - intros loc v. rewrite Eh, Hn. intros Hv. destruct (Hdom _ _ Hv) as [v' Hv']. eauto.
Qed.

Lemma table_flush_spec refs db proto m sel :
  proto <> L4PROTO_OTHER -> table_flusher m sel -> bib_db_inv refs db -> flushable sel refs db ->
  exists db', on_table proto m db = Some (tt, db') /\ bib_db_inv refs db' /\
    (forall b, b ∈ bib_all db' <-> b ∈ bib_all db /\ ~ (bib_l4_proto b = proto /\ sel b = true /\ static_in db b)) /\
    (forall b, b ∈ bib_all db' -> bib_vars_of (bibs db') !! bib_loc b = bib_vars_of (bibs db) !! bib_loc b).
Proof.
  intros Hp Hm Hi Hf. pose proof Hi as (_ & _ & _ & Hnd & H5 & _).
  destruct (bib_get_table proto db) as [t|] eqn:Hg; [|destruct proto; done].
  pose proof (bib_table_of_inv _ _ _ _ Hi Hg) as Ht.
  assert (Hent : forall b, b ∈ bib_entries t <-> b ∈ bib_all db /\ bib_l4_proto b = proto).
  { intros b. replace (bib_entries t) with (bib_of_proto proto db) by (unfold bib_of_proto; rewrite Hg; done). split.
    - intros Hb. split; [eapply bib_of_proto_all; exact Hb|apply (bib_of_proto_inv _ _ _ _ Hi Hb)].
    - intros [Hb <-]. apply (bib_all_of_proto _ _ _ Hi). done. }
  destruct (Hm proto t (bibs db) Ht) as (t' & h' & Hrun & Ht' & Hn & Hv & He).
  { intros b Hb. apply Hent in Hb as [Hb _]. destruct (H5 b Hb) as (v & Hv & _). eauto. }
  set (l := List.filter sel (bib_entries t)) in *.
  assert (Hl : forall b, b ∈ bib_all db -> bib_loc b ∈ (bib_loc <$> l) <-> bib_l4_proto b = proto /\ sel b = true).
  { intros b Hb. split.
    - intros Hx. apply list_elem_of_fmap in Hx as (x & E & Hx). apply elem_of_filter_bool in Hx as [Hx Hs].
      apply Hent in Hx as [Hx Hxp]. rewrite (bib_loc_inj _ _ b x Hi Hb Hx E). done.
    - intros [Hbp Hs]. apply list_elem_of_fmap_2, elem_of_filter_bool. split; [apply Hent; done|done]. }
  assert (Hfl : forall b v, b ∈ bib_all db -> bib_vars_of (bibs db) !! bib_loc b = Some v ->
    flushed (bibs db) l (bib_loc b) = if decide (bib_loc b ∈ (bib_loc <$> l)) then (if is_static v then None else Some v) else Some v).
  { intros b v Hb Hbv. destruct (H5 b Hb) as (v' & Hv' & Hr). replace v' with v in * by congruence.
    eapply flushed_vars; [exact Hbv|exact Hr|]. intros Hx Hs. apply (Hl b Hb) in Hx as [Hx1 Hx2]. apply (Hf b Hb Hx2). exists v. done. }
  assert (Hkept : forall b, b ∈ bib_entries t' <-> b ∈ bib_entries t /\ ~ (sel b = true /\ static_in db b)).
  { intros b. rewrite He. split; intros [Hb Hx]; (split; [done|]).
    - intros (Hs & v & Hbv & Est). apply Hent in Hb as [Hb Hbp].
      assert (Hin : b ∈ l) by (apply elem_of_filter_bool; split; [apply Hent|]; done).
      destruct (Hx Hin) as [v' Hv']. rewrite (Hfl b v Hb Hbv), decide_True, Est in Hv' by (apply (Hl b Hb); done). done.
    - intros Hin. apply elem_of_filter_bool in Hin as [_ Hs]. apply Hent in Hb as [Hb Hbp]. destruct (H5 b Hb) as (v & Hbv & _).
      rewrite (Hfl b v Hb Hbv). case_decide; [|eauto]. destruct (is_static v) eqn:Est; [|eauto]. destruct Hx. split; [done|]. exists v. done. }
  set (db' := bib_put_table proto t' (bib_put_heap h' db)).
  assert (Hall : forall b, b ∈ bib_all db' <-> b ∈ bib_all db /\ ~ (bib_l4_proto b = proto /\ sel b = true /\ static_in db b)).
  { intros b. assert (Hin : b ∈ bib_all db' <-> (b ∈ bib_entries t' \/ b ∈ bib_all db /\ bib_l4_proto b <> proto)).
    { assert (Hd : forall p, b ∈ bib_of_proto p db <-> b ∈ bib_all db /\ bib_l4_proto b = p).
      { intros p. split; [intros Hb; split; [eapply bib_of_proto_all; exact Hb|apply (bib_of_proto_inv _ _ _ _ Hi Hb)]|].
        intros [Hb <-]. apply (bib_all_of_proto _ _ _ Hi). done. }
      pose proof (Hd L4PROTO_TCP) as D1. pose proof (Hd L4PROTO_UDP) as D2. pose proof (Hd L4PROTO_ICMP) as D3.
      assert (Ho : b ∈ bib_all db -> bib_l4_proto b <> L4PROTO_OTHER).
      { intros Hb E. apply (bib_all_of_proto _ _ _ Hi) in Hb. rewrite E in Hb. inversion Hb. }
      unfold db', bib_all at 1. rewrite !elem_of_app. unfold bib_of_proto in *. simpl in D1, D2, D3.
      destruct proto; try done; simplify_eq/=; rewrite ?D1, ?D2, ?D3; destruct (bib_l4_proto b); intuition congruence. }
    rewrite Hin, Hkept, Hent. destruct (decide (bib_l4_proto b = proto)); tauto. }
  assert (Hsame : forall b, b ∈ bib_all db' -> bib_vars_of h' !! bib_loc b = bib_vars_of (bibs db) !! bib_loc b).
  { intros b Hb. apply Hall in Hb as [Hb Hx]. destruct (H5 b Hb) as (v & Hbv & _). rewrite Hv, (Hfl b v Hb Hbv), Hbv.
    case_decide as Hd; [|done]. apply (Hl b Hb) in Hd as [Hd1 Hd2]. destruct (is_static v) eqn:Est; [|done].
    destruct Hx. split_and!; [done..|]. exists v. done. }
  exists db'. split; [unfold on_table; rewrite Hg, Hrun; done|]. split; [|split; [exact Hall|]].
  - apply (bib_shrink_inv refs db proto t t' h' Hi Hg Ht'); [|done| |].
    + intros b Hb. apply Hkept in Hb. apply Hb.
    + intros b Hb. apply Hsame. unfold db'. revert Hb. unfold bib_all. destruct proto; done.
    + intros loc v Hlv. rewrite Hv in Hlv. unfold flushed in Hlv. destruct (bib_vars_of (bibs db) !! loc); [eauto|done].
  - intros b Hb. replace (bibs db') with h' by (unfold db'; destruct proto; done). auto.
Qed.

(** The static entries of the request are gone, and nothing else changed. *)
Definition bib_flushed (sel : bib_entry -> Prop) (db db' : bib_db) : Prop :=
  (forall b, b ∈ bib_all db' <-> b ∈ bib_all db /\ ~ (sel b /\ static_in db b)) /\
  (forall b, b ∈ bib_all db' -> bib_vars_of (bibs db') !! bib_loc b = bib_vars_of (bibs db) !! bib_loc b).

Lemma bib_flushed_trans sel1 sel2 db1 db2 db3 :
  bib_flushed sel1 db1 db2 -> bib_flushed sel2 db2 db3 -> bib_flushed (fun b => sel1 b \/ sel2 b) db1 db3.
Proof.
  intros [A1 A2] [B1 B2]. split.
  - intros b. rewrite B1. destruct (decide (b ∈ bib_all db2)) as [Hb|Hb].
    + pose proof (A2 b Hb) as E. pose proof (proj1 (A1 b) Hb) as Hb1. unfold static_in in *. rewrite E. tauto.
    + pose proof (A1 b). tauto.
  - intros b Hb. rewrite (B2 b Hb). apply A2, B1, Hb.
Qed.

Lemma flushable_flushed sel refs (gone : bib_entry -> Prop) db db' :
  flushable sel refs db -> bib_flushed gone db db' -> flushable sel refs db'.
Proof.
  intros Hf [A1 A2] b Hb Hs (v & Hv & Est). rewrite (A2 b Hb) in Hv. apply (Hf b); [apply A1, Hb|done|]. exists v. done.
Qed.

Lemma flush_all_spec refs db m sel p1 p2 p3 :
  [p1; p2; p3] ≡ₚ [L4PROTO_TCP; L4PROTO_UDP; L4PROTO_ICMP] ->
  table_flusher m sel -> bib_db_inv refs db -> flushable sel refs db ->
  exists db', (on_table p1 m;; on_table p2 m;; on_table p3 m) db = Some (tt, db') /\ bib_db_inv refs db' /\
    bib_flushed (fun b => sel b = true) db db'.
Proof.
  intros Hps Hm Hi Hf.
  assert (Hp : forall p, p ∈ [p1; p2; p3] <-> p <> L4PROTO_OTHER).
  { intros p. rewrite Hps. destruct p; set_solver. }
  assert (Hne : p1 <> L4PROTO_OTHER /\ p2 <> L4PROTO_OTHER /\ p3 <> L4PROTO_OTHER) by (rewrite <- !Hp; set_solver).
  destruct Hne as (N1 & N2 & N3).
  destruct (table_flush_spec refs db p1 m sel N1 Hm Hi Hf) as (d1 & R1 & I1 & F1).
  pose proof (flushable_flushed sel refs (fun b => bib_l4_proto b = p1 /\ sel b = true) db d1 Hf) as Hf1.
  assert (G1 : bib_flushed (fun b => bib_l4_proto b = p1 /\ sel b = true) db d1)
    by (split; [intros b; rewrite (proj1 F1); tauto|apply F1]).
  specialize (Hf1 G1). destruct (table_flush_spec refs d1 p2 m sel N2 Hm I1 Hf1) as (d2 & R2 & I2 & F2).
  assert (G2 : bib_flushed (fun b => bib_l4_proto b = p2 /\ sel b = true) d1 d2)
    by (split; [intros b; rewrite (proj1 F2); tauto|apply F2]).
  pose proof (flushable_flushed _ _ _ _ _ Hf1 G2) as Hf2. destruct (table_flush_spec refs d2 p3 m sel N3 Hm I2 Hf2) as (d3 & R3 & I3 & F3).
  assert (G3 : bib_flushed (fun b => bib_l4_proto b = p3 /\ sel b = true) d2 d3)
    by (split; [intros b; rewrite (proj1 F3); tauto|apply F3]).
  exists d3. split; [unfold mbind, M_bind; rewrite R1, R2; exact R3|]. split; [done|].
  pose proof (bib_flushed_trans _ _ _ _ _ (bib_flushed_trans _ _ _ _ _ G1 G2) G3) as [A1 A2]. split; [|exact A2].
  intros b. rewrite A1. split; intros [Hb Hn]; (split; [done|]); [|tauto]. intros [Hs Hst]. apply Hn. split; [|done].
  assert (Ho : bib_l4_proto b <> L4PROTO_OTHER).
  { intros E. apply (bib_all_of_proto _ _ _ Hi) in Hb. rewrite E in Hb. inversion Hb. }
  apply Hp in Ho. set_solver.
Qed.

Lemma bibdb_flush_spec refs db :
  bib_db_inv refs db -> flushable (fun _ => true) refs db ->
  exists db', bibdb_flush db = Some (tt, db') /\ bib_db_inv refs db' /\ bib_flushed (fun _ => True) db db'.
Proof.
  intros Hi Hf. destruct (flush_all_spec refs db bibtable_flush _ L4PROTO_TCP L4PROTO_ICMP L4PROTO_UDP
    ltac:(solve_Permutation) flush_flusher Hi Hf) as (db' & Hrun & Hi' & A1 & A2).
  exists db'. split; [exact Hrun|]. split; [done|]. split; [|done]. intros b. rewrite A1. tauto.
Qed.

Lemma bibdb_delete_taddr4s_spec refs db prefix ports :
  0 <= p4_len prefix -> wf_addr4 (p4_address prefix) -> prefix4_validate (Some prefix) = Ok tt -> wf_range ports ->
  bib_db_inv refs db -> flushable (fun b => in_request prefix ports (bib_ipv4 b)) refs db ->
  exists db', bibdb_delete_taddr4s prefix ports db = Some (tt, db') /\ bib_db_inv refs db' /\
    bib_flushed (fun b => in_request prefix ports (bib_ipv4 b) = true) db db'.
Proof.
  intros H1 H2 H3 H4 Hi Hf. apply (flush_all_spec refs db _ _ L4PROTO_TCP L4PROTO_UDP L4PROTO_ICMP); [done| |done..].
  apply delete_flusher; done.
Qed.

End FlushDb.

(** ** Clients of the database *)

(** What a client does with the database: it looks an entry up, gives one
    back, or creates one and adds it, which it frees if it is refused; and
    the requests on pool4 flush the entries of all or some transport
    addresses. *)
Inductive bib_op : Type :=
| BopGet (t : tuple)
| BopReturn (b : bib_entry)
| BopAdd (addr4 : ipv4_transport_addr) (addr6 : ipv6_transport_addr) (static : bool) (proto : l4_protocol)
| BopFlush
| BopDelete (prefix : ipv4_prefix) (ports : port_range).

(** The references the clients and the sessions hold afterwards: one more
    after a lookup that found its entry, none more after one that did not or
    after an addition that failed. *)
Definition run_bib_op {R : RbTree} (op : bib_op) (refs : positive -> Z) : M bib_db (positive -> Z) :=
  match op with
  | BopGet t =>
      r ← bibdb_get t;
      mret (match r with Ok b => add_ref refs (bib_loc b) 1 | Err _ => refs end)
  | BopReturn b => bibdb_return (Some b);; mret (add_ref refs (bib_loc b) (-1))
  | BopAdd addr4 addr6 static proto =>
      bib ← on_heap (bibentry_create addr4 addr6 static proto);
      match bib with
      | None => mret refs
      | Some b =>
          r ← bibdb_add b;
          match r with
          | Ok _ => mret (new_refs refs (bib_loc b) static)
          | Err _ => on_heap (bibentry_kfree b);; mret refs
          end
      end
  | BopFlush => bibdb_flush;; mret refs
  | BopDelete prefix ports => bibdb_delete_taddr4s prefix ports;; mret refs
  end.

(** Arguments of their types; what is given back is held; and nobody but
    the fake user holds a static entry that is flushed. *)
Definition bib_op_ok (op : bib_op) (refs : positive -> Z) (db : bib_db) : Prop :=
  match op with
  | BopGet t => match t with Tuple6 s d _ => wf_taddr6 s | Tuple4 s d _ => wf_taddr4 d end
  | BopReturn b => b ∈ bib_all db /\ 1 <= refs (bib_loc b)
  | BopAdd addr4 addr6 _ proto => wf_taddr4 addr4 /\ wf_taddr6 addr6 /\ proto <> L4PROTO_OTHER
  | BopFlush => flushable (fun _ => true) refs db
  | BopDelete prefix ports =>
      (0 <= p4_len prefix /\ wf_addr4 (p4_address prefix) /\ prefix4_validate (Some prefix) = Ok tt /\ wf_range ports) /\
      flushable (fun b => in_request prefix ports (bib_ipv4 b)) refs db
  end.

(** One operation, whatever it answers. *)
Inductive bib_step {R : RbTree} : (positive -> Z) * bib_db -> (positive -> Z) * bib_db -> Prop :=
| bib_step_op op refs db refs' db' :
    bib_op_ok op refs db -> run_bib_op op refs db = Some (refs', db') -> bib_step (refs, db) (refs', db').

(** An entry that is in no table may be freed. *)
Lemma bib_free_unlisted refs db loc :
  bib_db_inv refs db -> loc ∉ (bib_loc <$> bib_all db) ->
  bib_db_inv refs (bib_put_heap (set_vars (bibs db) (delete loc (bib_vars_of (bibs db)))) db).
Proof.
  intros (H1 & H2 & H3 & H4 & H5 & H6) Hn. split_and!; try done; simpl.
  - intros b Hb. rewrite lookup_delete_ne; [apply H5; done|]. intros ->. apply Hn, list_elem_of_fmap_2. done.
  - intros l v Hv. apply lookup_delete_Some in Hv as [_ Hv]. eauto.
Qed.

Lemma run_bib_add {R : RbTree} {L : RbTreeLaws R} refs db addr4 addr6 static proto :
  bib_op_ok (BopAdd addr4 addr6 static proto) refs db -> bib_db_inv refs db ->
  exists refs' db', run_bib_op (BopAdd addr4 addr6 static proto) refs db = Some (refs', db') /\ bib_db_inv refs' db'.
Proof.
  intros (W4 & W6 & Hp) Hi.
  destruct (bibentry_create_spec refs db addr4 addr6 static proto Hi W4 W6 Hp) as (o & h & Hc & Hpost).
  cbn [run_bib_op]. rewrite (bind_run _ _ _ _ _ Hc). destruct o as [b|]; [|eexists _, _; split; [reflexivity|done]].
  destruct Hpost as (_ & _ & _ & Hl & Hi1 & Hready).
  destruct (bibdb_add_spec _ _ b Hi1 Hready) as (r & db2 & Ha & Hi2 & Eh & Hr). rewrite (bind_run _ _ _ _ _ Ha).
  destruct r as [[]|e]; [eexists _, _; split; [reflexivity|done]|].
  destruct Hr as (_ & Eall & _), Hready as (_ & _ & Hni & v & Hv & _). rewrite <- Eall in Hni. rewrite <- Eh in Hv.
  assert (Hf : on_heap (bibentry_kfree b) db2 =
    Some (tt, bib_put_heap (set_vars (bibs db2) (delete (bib_loc b) (bib_vars_of (bibs db2)))) db2))
    by (unfold on_heap; rewrite (bibentry_kfree_run _ _ _ Hv); done).
  rewrite (bind_run _ _ _ _ _ Hf). eexists _, _. split; [reflexivity|].
  eapply bib_db_inv_ext; [apply (bib_free_unlisted _ _ (bib_loc b) Hi2 Hni)|].
  intros x Hx. unfold new_refs. rewrite decide_False; [done|]. intros E. apply Hni. rewrite <- E. apply list_elem_of_fmap_2. exact Hx.
Qed.

Lemma run_bib_op_inv {R : RbTree} {L : RbTreeLaws R} op refs db :
  bib_op_ok op refs db -> bib_db_inv refs db ->
  exists refs' db', run_bib_op op refs db = Some (refs', db') /\ bib_db_inv refs' db'.
Proof.
  destruct op as [t|b|addr4 addr6 static proto| |prefix ports]; [| |apply run_bib_add| |]; cbn [bib_op_ok run_bib_op]; intros Hok Hi.
  - assert (H : exists r db', bibdb_get t db = Some (r, db') /\ bib_db_inv (match r with Ok b => add_ref refs (bib_loc b) 1 | Err _ => refs end) db').
    { destruct t as [src dst proto|src dst proto]; cbn [bibdb_get];
        [destruct (bibdb_get4_spec refs db dst proto Hi Hok) as (r & db' & H & Hpost)|destruct (bibdb_get6_spec refs db src proto Hi Hok) as (r & db' & H & Hpost)];
        (exists r, db'; split; [exact H|]); unfold bib_lookup_post in Hpost; destruct r as [b|[]];
          (apply Hpost || (destruct Hpost as [-> _]; exact Hi)). }
    destruct H as (r & db' & H & Hi'). rewrite (bind_run _ _ _ _ _ H). eexists _, _. split; [reflexivity|done].
  - destruct Hok as [Hb Hr]. destruct (bibdb_return_spec refs db b Hi Hb Hr) as (db' & v & H & _ & Hi' & _).
    rewrite (bind_run _ _ _ _ _ H). eexists _, _. split; [reflexivity|done].
  - destruct (bibdb_flush_spec refs db Hi Hok) as (db' & H & Hi' & _).
    rewrite (bind_run _ _ _ _ _ H). eexists _, _. split; [reflexivity|done].
  - destruct Hok as [(H1 & H2 & H3 & H4) Hf]. destruct (bibdb_delete_taddr4s_spec refs db prefix ports H1 H2 H3 H4 Hi Hf) as (db' & H & Hi' & _).
    rewrite (bind_run _ _ _ _ _ H). eexists _, _. split; [reflexivity|done].
Qed.

Lemma bib_steps_inv {R : RbTree} {L : RbTreeLaws R} s s' :
  rtc bib_step s s' -> bib_db_inv (fst s) (snd s) -> bib_db_inv (fst s') (snd s').
Proof.
  induction 1 as [s|s1 s2 s3 H12 _ IH]; [done|]. intros Hi. apply IH. destruct H12 as [op refs db refs' db' Hok Hrun].
  destruct (run_bib_op_inv op refs db Hok Hi) as (refs1 & db1 & H1 & Hi1). rewrite Hrun in H1. injection H1 as -> ->. exact Hi1.
Qed.

Definition bibdb_init : bib_db :=
  BibDb (BibHeap ∅ 1 []) bibtable_init bibtable_init bibtable_init.

Lemma bibdb_init_inv : bib_db_inv (fun _ => 0) bibdb_init.
Proof.
  split_and!; try apply bibtable_init_inv.
  - constructor.
  - intros b Hb. inversion Hb.
  - intros loc v Hv. simpl in Hv. rewrite lookup_empty in Hv. done.
Qed.

(** C20: starting from an empty database and through any sequence of lookups,
    releases, additions of the three protocols and flushes, successful or
    not, every entry of the tables is allocated and its counter is the number
    of references its users hold plus one if it is static; the two indexes of
    each table agree, and no two entries of a table share an IPv6 or an IPv4
    transport address; and the next operation returns.  A lookup or addition
    that fails, for want of memory too, leaves no reference behind, and the
    entry that was refused is freed by who created it.  Only held entries are
    given back, and a flush is one of entries that nobody but their fake user
    holds if they are static: otherwise it breaks the equation
    ([bibtable_flush_twice_frees]). *)
Theorem bibdb_reachable_refs {R : RbTree} {L : RbTreeLaws R} refs db
    (Hr : rtc bib_step ((fun _ => 0), bibdb_init) (refs, db)) :
  bib_db_inv refs db /\
  (forall p x y, x ∈ bib_of_proto p db -> y ∈ bib_of_proto p db ->
     bib_ipv6 x = bib_ipv6 y \/ bib_ipv4 x = bib_ipv4 y -> x = y) /\
  (forall op, bib_op_ok op refs db -> exists refs' db', run_bib_op op refs db = Some (refs', db')).
Proof.
  assert (Hinv : bib_db_inv (fst (refs, db)) (snd (refs, db))).
  { eapply bib_steps_inv; [exact Hr | apply bibdb_init_inv]. }
  cbn [fst snd] in Hinv. split; [done|]. split.
  2:{ intros op Hok. destruct (run_bib_op_inv op refs db Hok Hinv) as (refs' & db' & Hrun & _). eauto. }
  intros p x y Hx Hy E. unfold bib_of_proto in *.
  destruct (bib_get_table p db) as [t|] eqn:Et; [|inversion Hx].
  pose proof (bib_table_of_inv _ _ _ _ Hinv Et) as Ht.
  pose proof Ht as (_ & _ & _ & _ & Hw & _). rewrite Forall_forall in Hw.
  destruct (Hw x Hx) as (W4 & W6 & _). destruct E as [E|E].
  - assert (H1 : find_by_addr6 t (bib_ipv6 x) = Some x) by (apply (find_by_addr6_iff p); done).
    assert (H2 : find_by_addr6 t (bib_ipv6 x) = Some y) by (apply (find_by_addr6_iff p); done).
    congruence.
  - assert (H1 : find_by_addr4 t (bib_ipv4 x) = Some x) by (apply (find_by_addr4_iff p); done).
    assert (H2 : find_by_addr4 t (bib_ipv4 x) = Some y) by (apply (find_by_addr4_iff p); done).
    congruence.
Qed.

Lemma bibdb_reachable_refs_witness :
  exists refs db, bib_of_proto L4PROTO_TCP db = [bib_a] /\ bib_db_inv refs db.
Proof.
  pose (db1 := BibDb (BibHeap {[ 1%positive := BibVars false 1 ]} 2 []) table_a bibtable_init
                 bibtable_init).
  pose (db2 := BibDb (BibHeap {[ 1%positive := BibVars false 1 ]} 3 []) table_a bibtable_init
                 bibtable_init).
  exists (new_refs (fun _ => 0) 1 false), db2. split; [reflexivity|].
  apply (@bibdb_reachable_refs plain_rbtree plain_rbtree_laws).
  pose (add := BopAdd (bib_ipv4 bib_a) (bib_ipv6 bib_a) false L4PROTO_TCP).
  assert (Hok : forall refs db, bib_op_ok add refs db) by (intros refs db; split_and!; [apply bib_a_wf..|done]).
  eapply rtc_l; [apply (@bib_step_op plain_rbtree add (fun _ => 0) bibdb_init (new_refs (fun _ => 0) 1 false) db1); [apply Hok|reflexivity]|].
  apply rtc_once. apply (@bib_step_op plain_rbtree add _ db1 (new_refs (fun _ => 0) 1 false) db2); [apply Hok|reflexivity].
Defined.
