(* ===== verification/PortAlloc.v ===== *)
(** * The port allocator

    [mod/stateful/bib/port_allocator.c] (RFC 6056, algorithm 3): walk the
    transport addresses pool4 offers, from an offset that depends on the
    connection and on a counter, and take the first one the BIB does not
    have.

    What the allocator needs of pool4 is the interface [TaddrSource]: an
    iteration that goes through a fixed set of transport addresses, once
    each, until its callback stops it.  A pool4 table is an instance, and so
    are the default ports of an address, which are used when pool4 is empty.

    The MD5 digest of the connection ([f]) is a parameter: an [int] status
    and, when it is 0, the offset. *)
From S2P Require Import Prelude Types Address Pool4Table Pool4Db RbTree BibTable BibDb.

(** ** What the allocator needs of pool4 *)

Class TaddrSource (S : Type) : Type := {
  foreach_taddr4 {B : Type} : S -> (ipv4_transport_addr -> B -> Z * B) -> B -> Z -> Z * B;
  offered : S -> list ipv4_transport_addr
}.

Class TaddrSourceLaws (S : Type) {T : TaddrSource S} : Prop := {
  foreach_visits (s : S) (offset : Z) : 0 <= offset ->
    exists l, l ≡ₚ offered s /\ forall B (cb : ipv4_transport_addr -> B -> Z * B) arg,
      foreach_taddr4 s cb arg offset = run_until cb l arg;
  offered_nodup (s : S) : NoDup (offered s);
  offered_wf (s : S) ta : ta ∈ offered s -> is_u16 (l4_4 ta)
}.

(** A table that satisfies its invariant. *)
Record valid_table : Type := ValidTable { vt_table : pool4_table; vt_inv : table_inv vt_table }.

#[export] Instance table_source : TaddrSource valid_table := {|
  foreach_taddr4 B s cb arg offset := pool4table_foreach_taddr4 cb (vt_table s) arg offset;
  offered s := rows_taddrs (pt_rows (vt_table s))
|}.

Lemma rotate_perm {A} n (l : list A) : rotate n l ≡ₚ l.
Proof. unfold rotate. rewrite Permutation_app_comm, take_drop. done. Qed.

#[export] Instance table_source_laws : TaddrSourceLaws valid_table.
Proof.
  constructor.
  - intros [t Hi] offset Ho. eexists. split; [apply (rotate_perm (Z.to_nat offset))|].
    intros B cb arg. apply pool4table_foreach_rotates; done.
  - intros [t Hi]. pose proof Hi as (Hok & Hnd & _). apply NoDup_rows_taddrs; done.
  - intros [t Hi] [a p] Hin. pose proof Hi as (Hok & _). simpl in *. apply elem_of_rows_taddrs in Hin as (row & Hr & _ & r & Hrin & Hp).
    rewrite Forall_forall in Hok. destruct (Hok row Hr) as (_ & Hro & _).
    rewrite Forall_forall in Hro. destruct (Hro r Hrin) as [[[? ?] [? ?]] _].
    unfold in_range, is_u16 in *. lia.
Qed.

(** The default ports of an address of the translator. *)
Record local_addr : Type := LocalAddr { la_addr : in_addr }.

Definition default_ports : list Z := seqZ DEFAULT_POOL4_MIN_PORT 4535.

#[export] Instance local_source : TaddrSource local_addr := {|
  foreach_taddr4 B s cb arg offset := foreach_port cb (la_addr s) arg offset;
  offered s := TAddr4 (la_addr s) <$> default_ports
|}.

Lemma port_loop_run {B} (cb : ipv4_transport_addr -> B -> Z * B) addr n : forall i arg,
  0 <= i -> i + Z.of_nat n <= 2 ^ 16 ->
  port_loop cb addr i n arg = run_until cb (TAddr4 addr <$> seqZ i (Z.of_nat n)) arg.
Proof.
  induction n as [|n IH]; intros i arg Hi Hn; cbn [port_loop]; [done|].
  rewrite seqZ_cons by lia. rewrite fmap_cons. cbn [run_until].
  unfold u16. rewrite Z.mod_small by lia.
  destruct (cb _ arg) as [error arg']. destruct (error =? 0); simpl; [|done].
  unfold u32. rewrite Z.mod_small by lia. rewrite IH by lia. do 3 f_equal; lia.
Qed.

(** The two halves of the walk [foreach_port] makes from port [o] on. *)
Definition ports_from (a : in_addr) (o : Z) : list ipv4_transport_addr :=
  (TAddr4 a <$> seqZ o (65536 - o)) ++ (TAddr4 a <$> seqZ 61001 (o - 61001)).

Lemma ports_from_perm a o : 61001 <= o <= 65535 ->
  ports_from a o ≡ₚ TAddr4 a <$> default_ports.
Proof.
  intros Ho. unfold ports_from. rewrite Permutation_app_comm, <- fmap_app.
  assert (E : default_ports = seqZ 61001 (o - 61001) ++ seqZ o (65536 - o)).
  { unfold default_ports, DEFAULT_POOL4_MIN_PORT.
    replace 4535 with ((o - 61001) + (65536 - o)) by lia.
    rewrite seqZ_app by lia. do 2 f_equal. lia. }
  rewrite E. done.
Qed.

Lemma foreach_port_run {B} (cb : ipv4_transport_addr -> B -> Z * B) a arg offset : 0 <= offset ->
  foreach_port cb a arg offset = run_until cb (ports_from a (61001 + offset mod 4535)) arg.
Proof.
  intros Hoff. pose proof (Z.mod_pos_bound offset 4535 ltac:(lia)) as Hb.
  unfold foreach_port, ports_from.
  change (DEFAULT_POOL4_MAX_PORT - DEFAULT_POOL4_MIN_PORT + 1) with 4535.
  change DEFAULT_POOL4_MIN_PORT with 61001. change DEFAULT_POOL4_MAX_PORT with 65535.
  cbv zeta. remember (61001 + offset mod 4535) as o eqn:Eo.
  assert (Ho : 61001 <= o <= 65535) by lia. clear Eo Hb. rewrite run_until_app.
  rewrite port_loop_run by lia. rewrite Z2Nat.id by lia.
  replace (65535 + 1 - o) with (65536 - o) by lia.
  destruct (run_until cb (TAddr4 a <$> seqZ o (65536 - o)) arg) as [e arg'].
  destruct (negb (e =? 0)); [done|]. rewrite port_loop_run by lia. rewrite Z2Nat.id by lia. done.
Qed.

#[export] Instance local_source_laws : TaddrSourceLaws local_addr.
Proof.
  constructor.
  - intros [a] offset Ho. exists (ports_from a (61001 + offset mod 4535)). split.
    + apply ports_from_perm. pose proof (Z.mod_pos_bound offset 4535 ltac:(lia)). lia.
    + intros B cb arg. apply foreach_port_run. done.
  - intros [a]. apply NoDup_fmap_2; [intros ?? [=]; done | apply NoDup_seqZ].
  - intros [a] ta Hin. apply list_elem_of_fmap in Hin as (x & -> & Hx).
    apply elem_of_seqZ in Hx. unfold is_u16, DEFAULT_POOL4_MIN_PORT in *. cbn [l4_4]. lia.
Qed.

(** ** The allocation *)

(** The state the callback and its caller share: [next_ephemeral] (an
    [atomic_t], read as unsigned) and [*result]. *)
Record palloc_args : Type := PallocArgs {
  next_ephemeral : Z;
  palloc_result : option ipv4_transport_addr
}.

Definition choose_port (proto : l4_protocol) (bdb : bib_db)
    (addr : ipv4_transport_addr) (args : palloc_args) : Z * palloc_args :=
  let next := u32 (next_ephemeral args + 1) in
  if negb (bibdb_contains4 addr proto bdb) then (1, PallocArgs next (Some addr))
  else (0, PallocArgs next (palloc_result args)).

Section Palloc.
Context (hash_32 : Z -> Z -> Z).

(** [f]: the status and the offset the digest of the connection gives;
    [mark]: [in_pkt->skb->mark].  The status returned is an [int]. *)
Definition palloc_allocate (f : in6_addr -> in6_addr -> Z -> Z * Z)
    (netdevs : list in_device) (route : option in_device) (pool : pool4db) (bdb : bib_db)
    (mark : Z) (src6 dst6 : ipv6_transport_addr) (proto : l4_protocol) (daddr : in_addr)
    (args : palloc_args) : option (Z * palloc_args) :=
  let '(error, offset) := f (l3_6 src6) (l3_6 dst6) (l4_6 dst6) in
  if negb (error =? 0) then Some (error, args)
  else
    match pool4db_foreach_taddr4 hash_32 (choose_port proto bdb) netdevs route pool mark proto daddr
            args (u32 (offset + next_ephemeral args)) with
    | None => None
    | Some (error, args) =>
        Some (if error =? 1 then 0
              else if error =? - errno_code ESRCH then - errno_code ESRCH
              else if error =? 0 then - errno_code ESRCH
              else error, args)
    end.
End Palloc.

(** ** The walk finds a free address *)

Section Walk.
Context {S : Type} `{TL : TaddrSourceLaws S}.

(** What the callback does along a list of candidates: it stops at the first
    free one and counts the ones it looked at. *)
Lemma choose_port_run proto bdb l : forall args,
  match run_until (choose_port proto bdb) l args with
  | (e, args') =>
      (e = 1 /\ exists ta, ta ∈ l /\ palloc_result args' = Some ta /\
         bibdb_contains4 ta proto bdb = false) \/
      (e = 0 /\ palloc_result args' = palloc_result args /\
         forall ta, ta ∈ l -> bibdb_contains4 ta proto bdb = true)
  end.
Proof.
  induction l as [|x l IH]; intros args; cbn [run_until].
  - right. split; [done|]. split; [done|]. intros ta H. inversion H.
  - unfold choose_port at 1. destruct (bibdb_contains4 x proto bdb) eqn:E; cbn [negb].
    + cbn. specialize (IH (PallocArgs (u32 (next_ephemeral args + 1)) (palloc_result args))).
      destruct (run_until _ l _) as [e args'].
      destruct IH as [(-> & ta & Hin & Hr & Hf)|(-> & Hr & Hall)].
      * left. split; [done|]. exists ta. split; [right; done|]. done.
      * right. split; [done|]. split; [done|]. intros ta Hin. apply elem_of_cons in Hin as [->|Hin]; auto.
    + left. split; [done|]. exists x. split; [left|]. done.
Qed.

(** Against the interface: the walk over a source takes an offered address
    the BIB does not have, and ends with 0 only when there is none. *)
Lemma foreach_choose (s : S) proto bdb args offset : 0 <= offset ->
  match foreach_taddr4 s (choose_port proto bdb) args offset with
  | (e, args') =>
      (e = 1 /\ exists ta, ta ∈ offered s /\ palloc_result args' = Some ta /\
         bibdb_contains4 ta proto bdb = false) \/
      (e = 0 /\ palloc_result args' = palloc_result args /\
         forall ta, ta ∈ offered s -> bibdb_contains4 ta proto bdb = true)
  end.
Proof.
  intros Ho. destruct (foreach_visits s offset Ho) as (l & Hl & Hrun). rewrite Hrun.
  pose proof (choose_port_run proto bdb l args) as H.
  destruct (run_until _ l args) as [e args'].
  destruct H as [(-> & ta & Hin & Hr)|(-> & Hr & Hall)].
  - left. split; [done|]. exists ta. rewrite <- Hl. done.
  - right. split; [done|]. split; [done|]. intros ta Hin. apply Hall. rewrite Hl. done.
Qed.
End Walk.

(** What pool4 offers a connection: the addresses of its mark and protocol,
    or the default ports of the node's own address if pool4 is empty. *)
Definition palloc_offers (hash_32 : Z -> Z -> Z) (netdevs : list in_device)
    (route : option in_device) (pool : pool4db) (mark : Z) (proto : l4_protocol)
    (daddr : in_addr) (ta : ipv4_transport_addr) : Prop :=
  match pool4db_is_empty pool with
  | Some true =>
      exists dev a, route = Some dev /\ pick_addr netdevs dev daddr = Ok a /\
        l3_4 ta = a /\ DEFAULT_POOL4_MIN_PORT <= l4_4 ta <= DEFAULT_POOL4_MAX_PORT
  | _ => db_has hash_32 pool mark proto ta
  end.

Lemma offered_local a ta :
  ta ∈ offered (LocalAddr a) <->
  l3_4 ta = a /\ DEFAULT_POOL4_MIN_PORT <= l4_4 ta <= DEFAULT_POOL4_MAX_PORT.
Proof.
  cbn [offered local_source la_addr]. rewrite list_elem_of_fmap. unfold default_ports.
  destruct ta as [a' p]. cbn [l3_4 l4_4]. split.
  - intros (x & [= -> ->] & Hx). apply elem_of_seqZ in Hx. split; [done|].
    unfold DEFAULT_POOL4_MIN_PORT, DEFAULT_POOL4_MAX_PORT in *. lia.
  - intros [-> Hp]. exists p. split; [done|]. apply elem_of_seqZ.
    unfold DEFAULT_POOL4_MIN_PORT, DEFAULT_POOL4_MAX_PORT in *. lia.
Qed.

Lemma offered_table t (Hi : table_inv t) ta :
  ta ∈ offered (ValidTable t Hi) <-> pool4table_contains t ta = true.
Proof.
  destruct ta as [a p]. rewrite pool4table_contains_iff. apply elem_of_rows_taddrs.
Qed.

Lemma db_inv_find hash_32 s mark proto :
  hash_law hash_32 -> db_inv hash_32 s ->
  exists ft, find_table hash_32 s mark proto = Some ft /\
    match ft with Some t => table_inv t | None => True end.
Proof.
  intros Hh Hi. pose proof Hi as (ss & Hdb & Hp & Hlen & _ & Hslots).
  destruct (slot_in_range hash_32 Hh s ss mark Hp Hlen) as [slot Hs].
  exists (find_in mark proto slot). split; [eapply find_table_slot; done|].
  destruct (find_in mark proto slot) as [t|] eqn:E; [|done].
  apply find_in_key in E as [Hin _]. destruct (Hslots _ _ Hs) as [_ Hf].
  rewrite Forall_forall in Hf. apply (Hf t Hin).
Qed.

(** The walk over what pool4 offers. *)
Lemma pool4db_choose hash_32 netdevs route pool bdb mark proto daddr args offset :
  hash_law hash_32 -> db_inv hash_32 pool -> 0 <= offset ->
  exists e args',
    pool4db_foreach_taddr4 hash_32 (choose_port proto bdb) netdevs route pool mark proto daddr
      args offset = Some (e, args') /\
    ((e = 1 /\ exists ta, palloc_offers hash_32 netdevs route pool mark proto daddr ta /\
         palloc_result args' = Some ta /\ bibdb_contains4 ta proto bdb = false) \/
     (e <= 0 /\ palloc_result args' = palloc_result args /\
         forall ta, palloc_offers hash_32 netdevs route pool mark proto daddr ta ->
           bibdb_contains4 ta proto bdb = true)).
Proof.
  intros Hh Hi Ho. pose proof Hi as (ss & Hdb & _).
  unfold pool4db_foreach_taddr4, palloc_offers, pool4db_is_empty. rewrite Hdb.
  destruct (forallb (forallb pool4table_is_empty) ss).
  - unfold pool4empty_foreach_taddr4. destruct route as [dev|].
    2:{ eexists _, _. split; [done|]. right. split; [done|]. split; [done|].
        intros ta (? & ? & [=] & _). }
    destruct (pick_addr netdevs dev daddr) as [a|e] eqn:Ea.
    2:{ eexists _, _. split; [done|]. right. split; [destruct e; done|]. split; [done|].
        intros ta (? & ? & [= <-] & Hp & _). congruence. }
    pose proof (foreach_choose (LocalAddr a) proto bdb args offset Ho) as Hc.
    cbn [foreach_taddr4 local_source la_addr] in Hc.
    destruct (foreach_port _ a args offset) as [e args']. exists e, args'. split; [done|].
    destruct Hc as [(-> & ta & Hin & Hr)|(-> & Hr & Hall)].
    + left. split; [done|]. exists ta. apply offered_local in Hin as [<- Hp]. eauto 8.
    + right. split; [done|]. split; [done|]. intros ta (dev' & a' & [= <-] & Hp & Hta).
      rewrite Ea in Hp. injection Hp as <-. apply Hall, offered_local. done.
  - destruct (db_inv_find hash_32 pool mark proto Hh Hi) as (ft & Hft & Ht). rewrite Hft.
    destruct ft as [t|].
    2:{ eexists _, _. split; [done|]. right. split; [done|]. split; [done|].
        intros ta (t & Ht' & _). congruence. }
    pose proof (foreach_choose (ValidTable t Ht) proto bdb args offset Ho) as Hc.
    cbn [foreach_taddr4 table_source vt_table] in Hc.
    destruct (pool4table_foreach_taddr4 _ t args offset) as [e args']. exists e, args'. split; [done|].
    destruct Hc as [(-> & ta & Hin & Hr)|(-> & Hr & Hall)].
    + left. split; [done|]. exists ta. apply offered_table in Hin. split; [exists t; done|done].
    + right. split; [done|]. split; [done|]. intros ta (t' & Ht' & Hc').
      assert (t' = t) as -> by congruence. apply Hall, offered_table. done.
Qed.

Lemma palloc_allocate_spec hash_32 f netdevs route pool refs bdb mark src6 dst6 proto daddr args :
  hash_law hash_32 -> db_inv hash_32 pool -> bib_db_inv refs bdb ->
  exists e args',
    palloc_allocate hash_32 f netdevs route pool bdb mark src6 dst6 proto daddr args
      = Some (e, args') /\
    (e = 0 -> exists ta, palloc_result args' = Some ta /\
       palloc_offers hash_32 netdevs route pool mark proto daddr ta /\
       (wf_taddr4 ta -> forall b, b ∈ bib_of_proto proto bdb -> bib_ipv4 b <> ta)) /\
    (e <> 0 -> palloc_result args' = palloc_result args /\
       (fst (f (l3_6 src6) (l3_6 dst6) (l4_6 dst6)) = 0 -> e < 0 /\
        forall ta, palloc_offers hash_32 netdevs route pool mark proto daddr ta -> wf_taddr4 ta ->
          exists b, b ∈ bib_of_proto proto bdb /\ bib_ipv4 b = ta)).
Proof.
  intros Hh Hi Hb. unfold palloc_allocate. destruct (f (l3_6 src6) (l3_6 dst6) (l4_6 dst6)) as [error offset].
  cbn [fst]. destruct (Z.eqb_spec error 0) as [->|Hne]; cbn [negb].
  2:{ eexists _, _. split; [reflexivity|]. split; [done|]. intros _. split; done. }
  destruct (pool4db_choose hash_32 netdevs route pool bdb mark proto daddr args
              (u32 (offset + next_ephemeral args)) Hh Hi) as (e & args' & -> & Hc).
  { apply Z.mod_pos_bound. lia. }
  eexists _, args'. split; [reflexivity|].
  destruct Hc as [(-> & ta & Hoff & Hr & Hfree)|(He & Hr & Hall)].
  - split; [|done]. intros _. exists ta. split; [done|]. split; [done|].
    intros Hw b Hbin E. assert (Ht : bibdb_contains4 ta proto bdb = true).
    { apply (bibdb_contains4_iff refs); eauto. }
    congruence.
  - assert (Hneg : (if e =? 1 then 0 else if e =? - errno_code ESRCH then - errno_code ESRCH
                    else if e =? 0 then - errno_code ESRCH else e) < 0).
    { destruct (Z.eqb_spec e 1), (Z.eqb_spec e (- errno_code ESRCH)), (Z.eqb_spec e 0); simpl in *; lia. }
    split; [lia|]. intros _. split; [done|]. intros _. split; [done|].
    intros ta Hoff Hw. apply (bibdb_contains4_iff refs); auto.
Qed.

(** C23: [palloc_allocate] always returns.  When it returns 0 the transport
    address it places in the result is one pool4 offers the connection and no
    BIB entry of the protocol has it; when it returns an error the result is
    untouched, and either the digest of the connection failed, whose error it
    is (nothing was tried then), or the error is negative and every transport
    address pool4 offers is taken: whatever the offset the digest gives, the
    walk misses none. *)
Theorem palloc_allocate_correct hash_32 f netdevs route pool refs bdb mark src6 dst6 proto daddr args
    (Hh : hash_law hash_32) (Hi : db_inv hash_32 pool) (Hb : bib_db_inv refs bdb) :
  exists e args',
    palloc_allocate hash_32 f netdevs route pool bdb mark src6 dst6 proto daddr args
      = Some (e, args') /\
    (e = 0 -> exists ta, palloc_result args' = Some ta /\
       palloc_offers hash_32 netdevs route pool mark proto daddr ta /\
       (wf_taddr4 ta -> forall b, b ∈ bib_of_proto proto bdb -> bib_ipv4 b <> ta)) /\
    (e <> 0 -> palloc_result args' = palloc_result args /\
       let digest_error := fst (f (l3_6 src6) (l3_6 dst6) (l4_6 dst6)) in
       if digest_error =? 0 then
         e < 0 /\ forall ta, palloc_offers hash_32 netdevs route pool mark proto daddr ta -> wf_taddr4 ta ->
           exists b, b ∈ bib_of_proto proto bdb /\ bib_ipv4 b = ta
       else e = digest_error /\ args' = args).
Proof.
  destruct (palloc_allocate_spec hash_32 f netdevs route pool refs bdb mark src6 dst6 proto daddr args Hh Hi Hb)
    as (e & args' & Hrun & Hok & Herr).
  exists e, args'. split; [done|]. split; [done|]. intros Hne. destruct (Herr Hne) as [Hr Hall]. split; [done|].
  cbv zeta. unfold palloc_allocate in Hrun. destruct (f (l3_6 src6) (l3_6 dst6) (l4_6 dst6)) as [error offset]. cbn [fst] in *.
  destruct (Z.eqb_spec error 0) as [->|Hd]; cbn [negb] in Hrun; [auto|]. injection Hrun as <- <-. done.
Qed.

(** One address with two ports, the first of which a BIB entry has. *)
Definition palloc_pool : pool4db :=
  Pool4Db (Some [[Pool4Table 0 L4PROTO_TCP [Pool4Addr (InAddr 0xc0000201) [PortRange 80 81]]]; []]) 1 1.

Lemma palloc_pool_inv : db_inv parity_hash palloc_pool.
Proof.
  eexists. split; [reflexivity|]. split; [simpl; lia|]. split; [reflexivity|]. split; [reflexivity|].
  intros i slot H. destruct i as [|[|i]]; simplify_eq/=; [|split; constructor].
  split; [apply NoDup_singleton|]. constructor; [|constructor]. split; [reflexivity|]. split; [|done].
  split; [|split; [apply NoDup_singleton | vm_compute; congruence]].
  constructor; [|constructor]. split; [done|]. split.
  + constructor; [|constructor]. unfold range_ok, wf_range, is_u16. simpl. lia.
  + repeat constructor.
Qed.

Definition palloc_bib : bib_db :=
  BibDb (heap_a (BibVars false 1)) table_a bibtable_init bibtable_init.

Lemma palloc_bib_inv :
  bib_db_inv (fun l => if decide (l = 1%positive) then 1 else 0) palloc_bib.
Proof.
  split; [apply table_a_inv|]. split; [apply bibtable_init_inv|]. split; [apply bibtable_init_inv|].
  split; [apply NoDup_singleton|]. split.
  - intros b Hb. apply list_elem_of_singleton in Hb as ->. exists (BibVars false 1).
    split; [apply lookup_singleton_eq|]. unfold ref_ok. simpl. lia.
  - intros l v H. cbn in H. apply lookup_singleton_Some in H as [<- _]. simpl. lia.
Qed.

Lemma palloc_allocate_correct_witness :
  exists e args', palloc_allocate parity_hash (fun _ _ _ => (0, 0)) [] None palloc_pool palloc_bib 0
      (TAddr6 (In6Addr 5) 6) (TAddr6 (In6Addr 7) 8) L4PROTO_TCP (InAddr 9) (PallocArgs 0 None)
    = Some (e, args') /\ e = 0 /\ palloc_result args' = Some (TAddr4 (InAddr 0xc0000201) 81) /\
    (forall b, b ∈ bib_of_proto L4PROTO_TCP palloc_bib -> bib_ipv4 b <> TAddr4 (InAddr 0xc0000201) 81).
Proof.
  destruct (palloc_allocate_correct parity_hash (fun _ _ _ => (0, 0)) [] None palloc_pool
    (fun l => if decide (l = 1%positive) then 1 else 0) palloc_bib 0
      (TAddr6 (In6Addr 5) 6) (TAddr6 (In6Addr 7) 8) L4PROTO_TCP (InAddr 9) (PallocArgs 0 None)
      parity_hash_law) as (e & args' & Hrun & Hok & _).
  - apply palloc_pool_inv.
  - apply palloc_bib_inv.
  - vm_compute in Hrun. injection Hrun as <- <-. eexists _, _. split; [reflexivity|]. split; [done|]. split; [done|].
    destruct (Hok eq_refl) as (ta & Hr & _ & Hfree). simpl in Hr. injection Hr as <-. apply Hfree.
    unfold wf_taddr4, wf_addr4, is_u32, is_u16. simpl. lia.
Defined.
