(* ===== verification/Packet.v ===== *)
(** * Packets

    [include/nat64/mod/common/packet.h]: the readers and builders of the
    fragmentation fields of the headers, and the part of [struct packet] the
    stateful translator decides on. *)
From S2P Require Import Prelude Types.

(** ** Fields *)

(** The bytes of a 16-bit number, swapped ([cpu_to_be16] on a little-endian
    machine); its own inverse. *)
Definition cpu_to_be16 (x : Z) : Z := Z.lor (Z.shiftl (bits x 0 8) 8) (bits x 8 8).
Definition be16_to_cpu (x : Z) : Z := cpu_to_be16 x.

Definition IP_DF : Z := 0x4000.
Definition IP_MF : Z := 0x2000.
Definition IP_OFFSET : Z := 0x1FFF.
Definition IP6_MF : Z := 1.

(** Of an IPv6 header: [priority] and the first byte of [flow_lbl]. *)
Definition get_traffic_class (priority flow_lbl0 : Z) : Z :=
  u8 (Z.lor (Z.shiftl priority 4) (Z.shiftr flow_lbl0 4)).

(** Of a header's [frag_off], in network order. *)
Definition is_dont_fragment_set (frag_off : Z) : Z := Z.land (be16_to_cpu frag_off) IP_DF.
Definition is_more_fragments_set_ipv6 (frag_off : Z) : Z := Z.land (be16_to_cpu frag_off) IP6_MF.
Definition is_more_fragments_set_ipv4 (frag_off : Z) : Z := Z.land (be16_to_cpu frag_off) IP_MF.

Definition get_fragment_offset_ipv6 (frag_off : Z) : Z := Z.land (be16_to_cpu frag_off) 0xFFF8.
Definition get_fragment_offset_ipv4 (frag_off : Z) : Z :=
  u16 (Z.shiftl (Z.land (be16_to_cpu frag_off) IP_OFFSET) 3).

Definition is_first_frag4 (frag_off : Z) : bool := get_fragment_offset_ipv4 frag_off =? 0.
Definition is_first_frag6 (hdr : option Z) : bool :=
  match hdr with Some frag_off => get_fragment_offset_ipv6 frag_off =? 0 | None => true end.

Definition is_fragmented_ipv4 (frag_off : Z) : bool :=
  negb (get_fragment_offset_ipv4 frag_off =? 0) || negb (is_more_fragments_set_ipv4 frag_off =? 0).
Definition is_fragmented_ipv6 (hdr : option Z) : bool :=
  match hdr with
  | Some frag_off =>
      negb (get_fragment_offset_ipv6 frag_off =? 0) || negb (is_more_fragments_set_ipv6 frag_off =? 0)
  | None => false
  end.

Definition build_ipv6_frag_off_field (frag_offset mf : Z) : Z :=
  cpu_to_be16 (u16 (Z.lor (Z.land frag_offset 0xFFF8) (if negb (mf =? 0) then 1 else 0))).

Definition build_ipv4_frag_off_field (df : bool) (mf frag_offset : Z) : Z :=
  cpu_to_be16 (u16 (Z.lor (Z.lor (if df then Z.shiftl 1 14 else 0)
                                 (if negb (mf =? 0) then Z.shiftl 1 13 else 0))
                          (Z.shiftr frag_offset 3))).

(** ** Packets *)

(** The headers the decisions are taken on.  [pkt_id] identifies the socket
    buffer and [pkt_original_pkt] the buffer of the packet Jool started
    with. *)
Record packet : Type := Packet {
  pkt_id : Z;
  pkt_original_pkt : Z;
  pkt_l3_proto : l3_protocol;
  pkt_l4_proto : l4_protocol;
  pkt_mark : Z;
  pkt_saddr6 : in6_addr;
  pkt_daddr6 : in6_addr;
  pkt_syn : bool;
  pkt_fin : bool;
  pkt_rst : bool;
  pkt_icmp_type : Z
}.

Definition pkt_is_icmp6_error (pkt : packet) : bool :=
  bool_decide (pkt_l4_proto pkt = L4PROTO_ICMP) && is_icmp6_error (pkt_icmp_type pkt).

Definition pkt_is_icmp4_error (pkt : packet) : bool :=
  bool_decide (pkt_l4_proto pkt = L4PROTO_ICMP) && is_icmp4_error (pkt_icmp_type pkt).

(** ** The fields survive the header *)

Lemma be16_roundtrip x : is_u16 x -> be16_to_cpu (cpu_to_be16 x) = x.
Proof.
  intros Hx. unfold be16_to_cpu, cpu_to_be16.
  assert (Hr : forall y, 0 <= Z.lor (Z.shiftl (bits y 0 8) 8) (bits y 8 8) < 2 ^ 16).
  { intros y. pose proof (bits_range y 0 8 ltac:(lia)). pose proof (bits_range y 8 8 ltac:(lia)).
    apply range_of_testbit; [lia | apply Z.lor_nonneg; split; [apply Z.shiftl_nonneg|]; lia |].
    intros n Hn. rewrite Z.lor_spec, Z.shiftl_spec, !testbit_bits by lia.
    destruct (Z.ltb_spec (n - 8) 8), (Z.ltb_spec n 8); try lia; done. }
  apply (bits_ext 16); [apply Hr | exact Hx |]. intros n Hn.
  rewrite Z.lor_spec, Z.shiftl_spec by lia.
  destruct (Z.lt_ge_cases n 8).
  - rewrite (Z.testbit_neg_r _ (n - 8)), testbit_bits, Z.lor_spec, Z.shiftl_spec, !testbit_bits by lia.
    destruct (Z.ltb_spec n 8), (Z.ltb_spec (n + 8 - 8) 8), (Z.ltb_spec (n + 8) 8); try lia.
    simpl. rewrite orb_false_r. f_equal. lia.
  - rewrite !testbit_bits, !Z.lor_spec, !Z.shiftl_spec by lia.
    rewrite (Z.testbit_neg_r _ (n - 8 + 0 - 8)), !testbit_bits by lia.
    destruct (Z.ltb_spec (n - 8) 8), (Z.ltb_spec n 8), (Z.ltb_spec (n - 8 + 0) 8); try lia.
    simpl. rewrite ?orb_false_r. f_equal. lia.
Qed.

Lemma testbit_1_shiftl i n : 0 <= i -> 0 <= n -> Z.testbit (Z.shiftl 1 i) n = (n =? i).
Proof. intros. rewrite Z.shiftl_1_l, Z.pow2_bits_eqb by lia. apply Z.eqb_sym. Qed.

Lemma testbit_flag (b : bool) i n : 0 <= i -> 0 <= n ->
  Z.testbit (if b then Z.shiftl 1 i else 0) n = b && (n =? i).
Proof. intros. destruct b; [apply testbit_1_shiftl; done | apply Z.testbit_0_l]. Qed.

Lemma u16_range x : is_u16 (u16 x).
Proof. apply Z.mod_pos_bound. lia. Qed.

(** Bit [i] alone, as a test. *)
Lemma land_bit_zero x i : 0 <= i -> (Z.land x (Z.shiftl 1 i) =? 0) = negb (Z.testbit x i).
Proof.
  intros Hi. destruct (Z.testbit x i) eqn:E; simpl.
  - apply Z.eqb_neq. intros H.
    assert (Ht : Z.testbit (Z.land x (Z.shiftl 1 i)) i = true)
      by (rewrite Z.land_spec, E, testbit_1_shiftl, Z.eqb_refl by lia; done).
    rewrite H, Z.testbit_0_l in Ht. done.
  - apply Z.eqb_eq. apply Z.bits_inj'. intros n Hn.
    rewrite Z.land_spec, testbit_1_shiftl, Z.testbit_0_l by lia.
    destruct (Z.eqb_spec n i) as [->|]; [rewrite E|rewrite andb_false_r]; done.
Qed.

Lemma testbit_fff8 n : 0 <= n -> Z.testbit 0xFFF8 n = (3 <=? n) && (n <? 16).
Proof.
  intros Hn. change 0xFFF8 with (Z.shiftl (Z.ones 13) 3). rewrite Z.shiftl_spec by lia.
  destruct (Z.leb_spec 3 n).
  - rewrite Z.testbit_ones_nonneg by lia.
    destruct (Z.ltb_spec (n - 3) 13), (Z.ltb_spec n 16); try lia; done.
  - rewrite Z.testbit_neg_r by lia. done.
Qed.

(** The bits of an IPv4 [frag_off] field. *)
Lemma testbit_frag4 (df mf : bool) off n : is_u16 off -> 0 <= n < 16 ->
  Z.testbit (u16 (Z.lor (Z.lor (if df then Z.shiftl 1 14 else 0) (if mf then Z.shiftl 1 13 else 0))
                        (Z.shiftr off 3))) n =
  (df && (n =? 14)) || (mf && (n =? 13)) || (Z.testbit off (n + 3)).
Proof.
  intros Ho Hn. unfold u16. rewrite Z.mod_pow2_bits_low by lia.
  rewrite !Z.lor_spec, Z.shiftr_spec, !testbit_flag by lia. done.
Qed.

Lemma get_build_frag4 df mf o : is_u16 o ->
  get_fragment_offset_ipv4 (build_ipv4_frag_off_field df mf o) = Z.land o 0xFFF8.
Proof.
  intros Hoo. unfold get_fragment_offset_ipv4, build_ipv4_frag_off_field.
  rewrite be16_roundtrip by apply u16_range.
  apply Z.bits_inj'. intros n Hn. rewrite Z.land_spec, testbit_fff8 by lia.
  destruct (Z.lt_ge_cases n 16).
  - unfold u16 at 1. rewrite Z.mod_pow2_bits_low, Z.shiftl_spec by lia.
    destruct (Z.leb_spec 3 n), (Z.ltb_spec n 16); try lia; simpl.
    + change IP_OFFSET with (Z.ones 13).
      rewrite Z.land_spec, Z.testbit_ones_nonneg, (testbit_frag4 df _ o) by (done || lia).
      destruct (Z.ltb_spec (n - 3) 13), (Z.eqb_spec (n - 3) 14), (Z.eqb_spec (n - 3) 13); try lia.
      rewrite !andb_false_r, !andb_true_r. simpl. f_equal. lia.
    + rewrite Z.testbit_neg_r, andb_false_r by lia. done.
  - rewrite (testbit_high _ 16) by (apply u16_range || lia).
    destruct (Z.ltb_spec n 16); [lia|]. rewrite !andb_false_r. done.
Qed.

Lemma get_build_frag6 mf off :
  get_fragment_offset_ipv6 (build_ipv6_frag_off_field off mf) = Z.land off 0xFFF8.
Proof.
  unfold get_fragment_offset_ipv6, build_ipv6_frag_off_field.
  rewrite be16_roundtrip by apply u16_range. unfold u16.
  apply Z.bits_inj'. intros n Hn. rewrite !Z.land_spec, testbit_fff8 by lia.
  destruct (Z.leb_spec 3 n), (Z.ltb_spec n 16); rewrite ?andb_false_r, ?andb_true_r; try done.
  simpl. rewrite Z.mod_pow2_bits_low, Z.lor_spec, Z.land_spec, testbit_fff8 by lia.
  destruct (Z.leb_spec 3 n), (Z.ltb_spec n 16); try lia. simpl. rewrite andb_true_r.
  change 1 with (Z.shiftl 1 0) at 1. rewrite testbit_flag by lia.
  destruct (Z.eqb_spec n 0); [lia|]. rewrite andb_false_r, orb_false_r. done.
Qed.

(** The fragment offset, the more-fragments flag and (in IPv4) the
    don't-fragment flag the translator writes in a header are the ones its
    readers find there, for every 16-bit offset and flag: only the three low
    bits of the offset, which no header can carry, are dropped.  So an offset
    goes unchanged from one protocol's header to the other's and back. *)
Lemma frag_off_roundtrip df mf off
    (Ho : is_u16 off) :
  let h4 := build_ipv4_frag_off_field df mf off in
  let h6 := build_ipv6_frag_off_field off mf in
  get_fragment_offset_ipv4 h4 = Z.land off 0xFFF8 /\
  get_fragment_offset_ipv6 h6 = Z.land off 0xFFF8 /\
  negb (is_more_fragments_set_ipv4 h4 =? 0) = negb (mf =? 0) /\
  negb (is_more_fragments_set_ipv6 h6 =? 0) = negb (mf =? 0) /\
  negb (is_dont_fragment_set h4 =? 0) = df /\
  get_fragment_offset_ipv4 (build_ipv4_frag_off_field df mf (get_fragment_offset_ipv6 h6)) =
    get_fragment_offset_ipv4 h4.
Proof.
  intros h4 h6. subst h4 h6.
  assert (Hoff6 : is_u16 (Z.land off 0xFFF8)).
  { apply range_of_testbit; [lia | apply Z.land_nonneg; lia |]. intros n Hn.
    rewrite Z.land_spec, testbit_fff8 by lia. destruct (Z.ltb_spec n 16); [lia|].
    rewrite !andb_false_r. done. }
  split; [apply get_build_frag4; done|]. split; [apply get_build_frag6|]. split; [|split; [|split]].
  - unfold is_more_fragments_set_ipv4, build_ipv4_frag_off_field.
    rewrite be16_roundtrip by apply u16_range. change IP_MF with (Z.shiftl 1 13).
    rewrite land_bit_zero, (testbit_frag4 df _ off) by (done || lia).
    rewrite (testbit_high off 16) by (done || lia). simpl.
    rewrite andb_false_r, andb_true_r, orb_false_r, negb_involutive. done.
  - unfold is_more_fragments_set_ipv6, build_ipv6_frag_off_field.
    rewrite be16_roundtrip by apply u16_range. change IP6_MF with (Z.shiftl 1 0).
    rewrite land_bit_zero by lia. unfold u16. rewrite Z.mod_pow2_bits_low, Z.lor_spec, Z.land_spec by lia.
    rewrite testbit_fff8 by lia. simpl. rewrite andb_false_r. simpl.
    destruct (mf =? 0); done.
  - unfold is_dont_fragment_set, build_ipv4_frag_off_field.
    rewrite be16_roundtrip by apply u16_range. change IP_DF with (Z.shiftl 1 14).
    rewrite land_bit_zero, (testbit_frag4 df _ off) by (done || lia).
    rewrite (testbit_high off 16) by (done || lia). simpl.
    rewrite andb_false_r, andb_true_r, !orb_false_r, negb_involutive. done.
  - rewrite get_build_frag6, !get_build_frag4 by done. apply Z.bits_inj'. intros n Hn. rewrite !Z.land_spec.
    destruct (Z.testbit 0xFFF8 n); rewrite ?andb_false_r, ?andb_true_r; done.
Qed.
