(* ===== verification/SessionEntry.v ===== *)
(** * Session entries

    [mod/stateful/session/entry.c]: the connections, as both sides perceive
    them.  As with the BIB, a [session_entry] is a pointer with the [const]
    members of the structure, and the others ([session_vars]) are in a heap
    of allocated sessions; using a session that is not there is a fault.

    A session holds a reference to its BIB entry, so the heap of sessions and
    the BIB are kept together ([store]).  The invariant ([store_inv])
    accounts for every reference: [srefs] gives the holders of each session
    and [brefs] the holders of each BIB entry other than sessions. *)
From S2P Require Import Prelude Types Address RbTree BibTable BibDb.

(** [enum tcp_state] ([common/session.h]). *)
Inductive tcp_state : Type :=
| CLOSED | V6_INIT | V4_INIT | ESTABLISHED | V4_FIN_RCV | V6_FIN_RCV | V4_FIN_V6_FIN_RCV | TRANS.

#[global] Instance tcp_state_eq_dec : EqDecision tcp_state.
Proof. solve_decision. Defined.

(** The expiration timers of a table. *)
Inductive timer_kind : Type := EST_TIMER | TRANS_TIMER.

#[global] Instance timer_kind_eq_dec : EqDecision timer_kind.
Proof. solve_decision. Defined.

Record session_entry : Type := SessionEntry {
  se_loc : positive;
  remote6 : ipv6_transport_addr;
  local6 : ipv6_transport_addr;
  local4 : ipv4_transport_addr;
  remote4 : ipv4_transport_addr;
  se_bib : option bib_entry;
  se_l4_proto : l4_protocol
}.

#[global] Instance session_entry_eq_dec : EqDecision session_entry.
Proof. solve_decision. Defined.

Record session_vars : Type := SessionVars {
  update_time : Z;
  se_refcounter : Z;
  state : tcp_state;
  expirer : option timer_kind
}.

Definition set_update_time (t : Z) (v : session_vars) : session_vars :=
  SessionVars t (se_refcounter v) (state v) (expirer v).
Definition set_refcounter (n : Z) (v : session_vars) : session_vars :=
  SessionVars (update_time v) n (state v) (expirer v).
Definition set_state (s : tcp_state) (v : session_vars) : session_vars :=
  SessionVars (update_time v) (se_refcounter v) s (expirer v).
Definition set_expirer (e : option timer_kind) (v : session_vars) : session_vars :=
  SessionVars (update_time v) (se_refcounter v) (state v) e.

Record session_heap : Type := SessionHeap {
  sessions_of : gmap positive (session_entry * session_vars);
  se_next : positive;
  se_allocs : allocs
}.

Record store : Type := Store {
  st_bib : bib_db;
  st_sess : session_heap
}.

(** An operation on the BIB alone. *)
Definition on_bib {A} (m : M bib_db A) : M store A := fun s =>
  match m (st_bib s) with
  | Some (a, b) => Some (a, Store b (st_sess s))
  | None => None
  end.

(** ** entry.c *)

Definition read_session (session : session_entry) : M store session_vars := fun s =>
  match sessions_of (st_sess s) !! se_loc session with
  | Some (_, v) => Some (v, s)
  | None => None
  end.

Definition put_sessions (m : gmap positive (session_entry * session_vars)) (s : store) : store :=
  Store (st_bib s) (SessionHeap m (se_next (st_sess s)) (se_allocs (st_sess s))).

Definition write_session (session : session_entry) (v : session_vars) : M store unit :=
  modify (fun s => put_sessions (<[se_loc session := (session, v)]> (sessions_of (st_sess s))) s).

(** The copy is another object: it has its own address and one reference. *)
Definition session_clone (session : session_entry) (v : session_vars)
    : M store (option session_entry) := fun s =>
  let h := st_sess s in
  let '(ok, al) := kmalloc (se_allocs h) in
  if negb ok then Some (None, Store (st_bib s) (SessionHeap (sessions_of h) (se_next h) al))
  else
    let result := SessionEntry (se_next h) (remote6 session) (local6 session) (local4 session)
                    (remote4 session) (se_bib session) (se_l4_proto session) in
    let s := Store (st_bib s)
               (SessionHeap (<[se_next h := (result, set_refcounter 1 v)]> (sessions_of h))
                  (Pos.succ (se_next h)) al) in
    match se_bib session with
    | Some bib => (on_bib (on_heap (bibentry_get bib));; mret (Some result)) s
    | None => Some (Some result, s)
    end.

(** [tmp] is on the stack; its address and counter are not used. *)
Definition session_create (jiffies : Z) (remote6 local6 : ipv6_transport_addr)
    (local4 remote4 : ipv4_transport_addr) (l4_proto : l4_protocol) (bib : option bib_entry)
    : M store (option session_entry) :=
  session_clone (SessionEntry 1 remote6 local6 local4 remote4 bib l4_proto)
    (SessionVars jiffies 0 CLOSED None).

Definition session_get (session : session_entry) : M store unit :=
  v ← read_session session;
  write_session session (set_refcounter (se_refcounter v + 1) v).

Section Release.
Context {R : RbTree}.

Definition session_release (session : session_entry) : M store unit :=
  on_bib (bibdb_return (se_bib session));;
  modify (fun s => put_sessions (delete (se_loc session) (sessions_of (st_sess s))) s).

(** [kref_put]: whether the session died. *)
Definition session_return (session : session_entry) : M store bool :=
  v ← read_session session;
  write_session session (set_refcounter (se_refcounter v - 1) v);;
  if se_refcounter v - 1 =? 0 then session_release session;; mret true
  else mret false.

End Release.

(** ** Invariant *)

(** The references the sessions hold to the BIB entry at [loc]. *)
Definition holds (loc : positive) (o : session_entry * session_vars) : bool :=
  match se_bib (fst o) with
  | Some b => Pos.eqb (bib_loc b) loc
  | None => false
  end.

Definition held (m : gmap positive (session_entry * session_vars)) (loc : positive) : Z :=
  Z.of_nat (size (filter (fun o => holds loc (snd o) = true) m)).

Definition session_wf (s : session_entry) : Prop :=
  wf_taddr6 (remote6 s) /\ wf_taddr6 (local6 s) /\ wf_taddr4 (local4 s) /\ wf_taddr4 (remote4 s).

Definition store_inv (brefs srefs : positive -> Z) (s : store) : Prop :=
  bib_db_inv (fun l => brefs l + held (sessions_of (st_sess s)) l) (st_bib s) /\
  (forall l, 0 <= brefs l) /\
  (forall loc, match sessions_of (st_sess s) !! loc with
    | Some (e, v) =>
        se_loc e = loc /\ session_wf e /\ se_refcounter v = srefs loc /\ 0 < srefs loc /\
        (loc < se_next (st_sess s))%positive /\
        match se_bib e with Some b => b ∈ bib_all (st_bib s) | None => True end
    | None => srefs loc = 0
    end).

Lemma held_insert_new m loc o l :
  m !! loc = None -> held (<[loc := o]> m) l = held m l + Z.b2z (holds l o).
Proof.
  intros Hn. unfold held. rewrite map_filter_insert. simpl.
  destruct (holds l o) eqn:E; simpl.
  - rewrite map_size_insert_None; [lia|]. apply map_lookup_filter_None. auto.
  - rewrite delete_id by done. lia.
Qed.

Lemma held_insert_same m loc e v v' l :
  m !! loc = Some (e, v) -> held (<[loc := (e, v')]> m) l = held m l.
Proof.
  intros Hs. unfold held. rewrite map_filter_insert. simpl.
  change (holds l (e, v')) with (holds l (e, v)). destruct (holds l (e, v)) eqn:E; simpl.
  - rewrite map_size_insert_Some; [done|]. exists (e, v). apply map_lookup_filter_Some. auto.
  - rewrite map_filter_delete, delete_id; [done|]. apply map_lookup_filter_None. right.
    intros x Hx. rewrite Hs in Hx. injection Hx as <-. simpl. congruence.
Qed.

Lemma held_delete m loc o l :
  m !! loc = Some o -> held (delete loc m) l = held m l - Z.b2z (holds l o).
Proof.
  intros Hs. rewrite <- (insert_delete_id m loc o Hs) at 2.
  rewrite held_insert_new by apply lookup_delete_eq. lia.
Qed.

(** ** References *)

(** [session] is allocated, with the variables [v]. *)
Definition live (s : store) (session : session_entry) (v : session_vars) : Prop :=
  sessions_of (st_sess s) !! se_loc session = Some (session, v).

Lemma live_inv brefs srefs s e v :
  store_inv brefs srefs s -> live s e v ->
  session_wf e /\ se_refcounter v = srefs (se_loc e) /\ 0 < srefs (se_loc e) /\
  match se_bib e with Some b => b ∈ bib_all (st_bib s) | None => True end.
Proof.
  intros (_ & _ & H) Hl. specialize (H (se_loc e)). rewrite Hl in H. tauto.
Qed.

Lemma held_nonneg m l : 0 <= held m l.
Proof. unfold held. lia. Qed.

Lemma held_zero m l loc o : held m l = 0 -> m !! loc = Some o -> holds l o = false.
Proof.
  unfold held. intros H0 Hm. apply not_true_iff_false. intros Ht.
  assert (Hs : size (filter (fun o => holds l (snd o) = true) m) = 0%nat) by lia.
  apply map_size_empty_iff in Hs.
  assert (He : filter (fun o => holds l (snd o) = true) m !! loc = Some o)
    by (apply map_lookup_filter_Some; auto).
  rewrite Hs, lookup_empty in He. done.
Qed.

(** Writing the variables of a live session. *)
Lemma store_inv_write brefs srefs srefs' s e v v' :
  store_inv brefs srefs s -> live s e v ->
  se_refcounter v' = srefs' (se_loc e) -> 0 < srefs' (se_loc e) ->
  (forall l, l <> se_loc e -> srefs' l = srefs l) ->
  store_inv brefs srefs' (put_sessions (<[se_loc e := (e, v')]> (sessions_of (st_sess s))) s).
Proof.
  intros (H1 & H2 & H3) Hl Hr Hp Ho. split; [|split; [done|]].
  - simpl. eapply bib_db_inv_ext; [exact H1|]. intros b _. simpl.
    rewrite (held_insert_same _ _ _ v) by done. done.
  - intros loc. simpl. destruct (decide (loc = se_loc e)) as [->|Hne].
    + rewrite lookup_insert_eq. specialize (H3 (se_loc e)). rewrite Hl in H3. tauto.
    + rewrite lookup_insert_ne by done. specialize (H3 loc).
      destruct (sessions_of (st_sess s) !! loc) as [[e' w]|]; rewrite Ho by done; done.
Qed.

Lemma read_session_run s e v : live s e v -> read_session e s = Some (v, s).
Proof. unfold live, read_session. intros ->. done. Qed.

Lemma session_get_spec brefs srefs s e v :
  store_inv brefs srefs s -> live s e v ->
  exists s', session_get e s = Some (tt, s') /\
    store_inv brefs (add_ref srefs (se_loc e) 1) s' /\
    s' = put_sessions (<[se_loc e := (e, set_refcounter (se_refcounter v + 1) v)]>
                         (sessions_of (st_sess s))) s.
Proof.
  intros Hi Hl. eexists. unfold session_get, mbind, M_bind. rewrite (read_session_run _ _ _ Hl).
  split; [reflexivity|]. split; [|done].
  destruct (live_inv _ _ _ _ _ Hi Hl) as (_ & Hr & Hp & _).
  eapply store_inv_write; [exact Hi | exact Hl | | | intros l Hne; apply add_ref_ne; done];
    rewrite add_ref_eq; simpl; lia.
Qed.

Section ReleaseSpec.
Context {R : RbTree} {L : RbTreeLaws R}.

(** What dropping a session's reference may do to the BIB: entries that
    somebody else uses stay. *)
Definition bib_shrinks (brefs : positive -> Z) (gone : list session_entry) (db db' : bib_db) : Prop :=
  forall p x,
    (x ∈ bib_of_proto p db' -> x ∈ bib_of_proto p db) /\
    (x ∈ bib_of_proto p db ->
       1 <= brefs (bib_loc x) \/ (forall e, e ∈ gone -> se_bib e <> Some x) ->
       x ∈ bib_of_proto p db').

Lemma session_release_run brefs srefs s e v :
  store_inv brefs srefs s -> live s e v -> srefs (se_loc e) = 1 ->
  exists s', session_release e s = Some (tt, s') /\
    store_inv brefs (add_ref srefs (se_loc e) (-1)) s' /\
    bib_shrinks brefs [e] (st_bib s) (st_bib s') /\
    sessions_of (st_sess s') = delete (se_loc e) (sessions_of (st_sess s)) /\
    se_next (st_sess s') = se_next (st_sess s) /\ se_allocs (st_sess s') = se_allocs (st_sess s) /\
    bib_next (bibs (st_bib s')) = bib_next (bibs (st_bib s)).
Proof.
  intros Hi Hl H1. pose proof Hi as (Hb & Hpos & Hs).
  destruct (live_inv _ _ _ _ _ Hi Hl) as (_ & _ & _ & Hbib).
  unfold session_release, mbind, M_bind, on_bib.
  assert (Hrest : forall loc, match delete (se_loc e) (sessions_of (st_sess s)) !! loc with
    | Some (e', w) => se_loc e' = loc /\ loc <> se_loc e /\ sessions_of (st_sess s) !! loc = Some (e', w)
    | None => add_ref srefs (se_loc e) (-1) loc = 0 end).
  { intros loc. specialize (Hs loc). destruct (decide (loc = se_loc e)) as [->|Hne].
    - rewrite lookup_delete_eq, add_ref_eq. lia.
    - rewrite lookup_delete_ne, add_ref_ne by done.
      destruct (sessions_of (st_sess s) !! loc) as [[e' w]|]; [|done]. tauto. }
  destruct (se_bib e) as [b|] eqn:Eb.
  - pose proof (held_nonneg (delete (se_loc e) (sessions_of (st_sess s))) (bib_loc b)) as Hnn.
    assert (Hh : forall l, held (delete (se_loc e) (sessions_of (st_sess s))) l =
                 held (sessions_of (st_sess s)) l - Z.b2z (Pos.eqb (bib_loc b) l)).
    { intros l. rewrite (held_delete _ _ (e, v)) by done. unfold holds. simpl. rewrite Eb. done. }
    destruct (bibdb_return_spec _ (st_bib s) b Hb Hbib) as (db' & w & Hrun & Hw & Hi' & Hn & Ha & Hent & Hlast).
    { specialize (Hh (bib_loc b)). rewrite Pos.eqb_refl in Hh. simpl in Hh. specialize (Hpos (bib_loc b)). lia. }
    rewrite Hrun. eexists. split; [reflexivity|]. simpl.
    split; [|split; [|split; [done|split; [done|split; [done|exact Hn]]]]].
    + split; [|split; [done|]].
      * simpl. eapply bib_db_inv_ext; [exact Hi'|]. intros x _. simpl. rewrite Hh.
        destruct (Pos.eqb_spec (bib_loc b) (bib_loc x)) as [E|E]; simpl.
        -- rewrite <- E, add_ref_eq. lia.
        -- rewrite add_ref_ne by congruence. lia.
      * intros loc. simpl. specialize (Hrest loc).
        destruct (delete (se_loc e) (sessions_of (st_sess s)) !! loc) as [[e' w']|] eqn:Ed; [|done].
        destruct Hrest as (El & Hne & Hm). pose proof (Hs loc) as Hs'. rewrite Hm in Hs'.
        rewrite add_ref_ne by done. destruct Hs' as (_ & ? & ? & ? & ? & Hb').
        split_and!; try done. destruct (se_bib e') as [b'|] eqn:Eb'; [|done].
        rewrite (bib_all_of_proto _ _ _ Hi'). apply Hent. rewrite <- (bib_all_of_proto _ _ _ Hb).
        split; [done|]. intros -> Hlast1. destruct (Hlast Hlast1) as (_ & Hone & _).
        specialize (Hh (bib_loc b)). rewrite Pos.eqb_refl in Hh. simpl in Hh.
        assert (Hz : held (delete (se_loc e) (sessions_of (st_sess s))) (bib_loc b) = 0)
          by (specialize (Hpos (bib_loc b)); lia).
        pose proof (held_zero _ _ _ _ Hz Ed) as Hf. unfold holds in Hf. simpl in Hf.
        rewrite Eb', Pos.eqb_refl in Hf. done.
    + intros p x. simpl. rewrite Hent. split; [tauto|]. intros Hx Hor. split; [done|]. intros -> Hlast1.
      destruct Hor as [Hge|Hnot]; [|apply (Hnot e); [left|done]].
      destruct (Hlast Hlast1) as (_ & Hone & _).
      specialize (Hh (bib_loc b)). rewrite Pos.eqb_refl in Hh. simpl in Hh. lia.
  - simpl. eexists. split; [reflexivity|]. simpl. split; [|split_and!; try done; intros p x; done].
    split; [|split; [done|]].
    + simpl. eapply bib_db_inv_ext; [exact Hb|]. intros x _. simpl.
      rewrite (held_delete _ _ (e, v)) by done. unfold holds. simpl. rewrite Eb. simpl. lia.
    + intros loc. simpl. specialize (Hrest loc).
      destruct (delete (se_loc e) (sessions_of (st_sess s)) !! loc) as [[e' w']|] eqn:Ed; [|done].
      destruct Hrest as (El & Hne & Hm). pose proof (Hs loc) as Hs'. rewrite Hm in Hs'.
      rewrite add_ref_ne by done. done.
Qed.

(** The last write to a session does not matter to its release. *)
Lemma session_release_overwrite s e o :
  session_release e (put_sessions (<[se_loc e := o]> (sessions_of (st_sess s))) s) =
  session_release e s.
Proof.
  unfold session_release, mbind, M_bind, on_bib. simpl.
  destruct (bibdb_return (se_bib e) (st_bib s)) as [[[] b]|]; [|done].
  unfold modify, put_sessions. simpl. rewrite delete_insert_eq. done.
Qed.

Lemma session_return_spec brefs srefs s e v :
  store_inv brefs srefs s -> live s e v ->
  exists s', session_return e s = Some (srefs (se_loc e) =? 1, s') /\
    store_inv brefs (add_ref srefs (se_loc e) (-1)) s' /\
    bib_shrinks brefs [e] (st_bib s) (st_bib s') /\
    sessions_of (st_sess s') =
      (if srefs (se_loc e) =? 1 then delete (se_loc e) (sessions_of (st_sess s))
       else <[se_loc e := (e, set_refcounter (srefs (se_loc e) - 1) v)]> (sessions_of (st_sess s))) /\
    se_next (st_sess s') = se_next (st_sess s) /\ se_allocs (st_sess s') = se_allocs (st_sess s) /\
    bib_next (bibs (st_bib s')) = bib_next (bibs (st_bib s)).
Proof.
  intros Hi Hl. destruct (live_inv _ _ _ _ _ Hi Hl) as (_ & Hr & Hp & _).
  unfold session_return. unfold mbind at 1, M_bind at 1. rewrite (read_session_run _ _ _ Hl).
  unfold mbind at 1, M_bind at 1, write_session, modify. rewrite Hr.
  destruct (Z.eqb_spec (srefs (se_loc e) - 1) 0) as [E|E], (Z.eqb_spec (srefs (se_loc e)) 1); try lia.
  - unfold mbind, M_bind. rewrite session_release_overwrite.
    destruct (session_release_run brefs srefs s e v Hi Hl) as (s' & -> & H); [lia|].
    exists s'. split; [done|]. exact H.
  - eexists. split; [reflexivity|]. split; [|split_and!; try done; intros p x; done].
    eapply store_inv_write; [exact Hi | exact Hl | | | intros l Hne; apply add_ref_ne; done];
      rewrite add_ref_eq; simpl; lia.
Qed.
End ReleaseSpec.

(** A store after a session has been written. *)
Definition wr (x : session_entry) (v : session_vars) (s : store) : store :=
  put_sessions (<[se_loc x := (x, v)]> (sessions_of (st_sess s))) s.

Lemma write_session_run x v s : write_session x v s = Some (tt, wr x v s).
Proof. done. Qed.

Lemma live_wr_eq x v s : live (wr x v s) x v.
Proof. unfold live, wr. simpl. apply lookup_insert_eq. Qed.

Lemma live_wr_ne x v s y vy : se_loc y <> se_loc x -> live (wr x v s) y vy <-> live s y vy.
Proof. intros Hne. unfold live, wr. simpl. rewrite lookup_insert_ne by done. done. Qed.

Lemma live_fun s x v v' : live s x v -> live s x v' -> v = v'.
Proof. unfold live. congruence. Qed.

Lemma live_loc s x y v v' : live s x v -> live s y v' -> se_loc x = se_loc y -> x = y.
Proof. unfold live. intros Hx Hy E. rewrite E in Hx. congruence. Qed.

Lemma store_inv_wr brefs srefs s x v v' :
  store_inv brefs srefs s -> live s x v -> se_refcounter v' = se_refcounter v ->
  store_inv brefs srefs (wr x v' s).
Proof.
  intros Hi Hl E. destruct (live_inv _ _ _ _ _ Hi Hl) as (_ & Hr & Hp & _).
  eapply store_inv_write; [exact Hi | exact Hl | congruence | done | done].
Qed.

(** ** What an operation leaves alone *)

(** The sessions of [keep] stay allocated and only their counters change. *)
Definition store_frame (keep : positive -> Prop) (s s' : store) : Prop :=
  forall e v, live s e v -> keep (se_loc e) -> exists n, live s' e (set_refcounter n v).

Lemma set_refcounter_twice n m v : set_refcounter n (set_refcounter m v) = set_refcounter n v.
Proof. done. Qed.

Lemma set_refcounter_id v : set_refcounter (se_refcounter v) v = v.
Proof. destruct v; done. Qed.

Lemma store_frame_refl keep s : store_frame keep s s.
Proof. intros e v Hl _. exists (se_refcounter v). rewrite set_refcounter_id. done. Qed.

Lemma store_frame_trans keep s1 s2 s3 :
  store_frame keep s1 s2 -> store_frame keep s2 s3 -> store_frame keep s1 s3.
Proof.
  intros H12 H23 e v Hl Hk. destruct (H12 e v Hl Hk) as [n Hn]. destruct (H23 _ _ Hn Hk) as [m Hm].
  exists m. done.
Qed.

Lemma store_frame_weaken (keep keep' : positive -> Prop) s s' :
  (forall l, keep l -> keep' l) -> store_frame keep' s s' -> store_frame keep s s'.
Proof. intros H Hf e v Hl Hk. apply Hf; auto. Qed.

Lemma bib_shrinks_refl brefs gone db : bib_shrinks brefs gone db db.
Proof. intros p x. tauto. Qed.

Lemma bib_shrinks_trans brefs g1 g2 db1 db2 db3 :
  bib_shrinks brefs g1 db1 db2 -> bib_shrinks brefs g2 db2 db3 -> bib_shrinks brefs (g1 ++ g2) db1 db3.
Proof.
  intros H12 H23 p x. specialize (H12 p x) as [A1 B1]. specialize (H23 p x) as [A2 B2]. split; [auto|].
  intros Hx [Hb|Hn]; [auto|]. apply B2; [apply B1; [done|]|]; right; intros e He; apply Hn;
    apply elem_of_app; auto.
Qed.

(** [session_return], for callers that do not mind whether the session died. *)
Lemma session_return_drop {R : RbTree} {L : RbTreeLaws R} brefs srefs s e v :
  store_inv brefs srefs s -> live s e v ->
  exists dead s', session_return e s = Some (dead, s') /\
    store_inv brefs (add_ref srefs (se_loc e) (-1)) s' /\
    bib_shrinks brefs [e] (st_bib s) (st_bib s') /\
    store_frame (fun l => 0 < add_ref srefs (se_loc e) (-1) l) s s'.
Proof.
  intros Hi Hl. destruct (session_return_spec brefs srefs s e v Hi Hl) as (s' & Hrun & Hi' & Hb & Hm & _).
  eexists _, s'. split; [exact Hrun|]. split; [done|]. split; [done|].
  intros x w Hx Hk. unfold live in *. rewrite Hm. unfold add_ref in Hk.
  destruct (decide (se_loc x = se_loc e)) as [E|E].
  - destruct (Z.eqb_spec (srefs (se_loc e)) 1) as [E1|E1]; [rewrite E in Hk; lia|].
    rewrite E in Hx. rewrite Hx in Hl. injection Hl as -> ->. rewrite lookup_insert_eq. eauto.
  - exists (se_refcounter w). rewrite set_refcounter_id.
    destruct (srefs (se_loc e) =? 1); [rewrite lookup_delete_ne | rewrite lookup_insert_ne]; done.
Qed.

(** ** Creation *)

Lemma bibentry_get_on_bib refs db b :
  bib_db_inv refs db -> b ∈ bib_all db ->
  exists h, on_heap (bibentry_get b) db = Some (tt, bib_put_heap h db) /\
    bib_db_inv (add_ref refs (bib_loc b) 1) (bib_put_heap h db) /\ bib_next h = bib_next (bibs db).
Proof.
  intros Hi Hb. pose proof Hi as (_ & _ & _ & _ & H5 & _). destruct (H5 b Hb) as (v & Hv & Hr & Hc & Hp).
  eexists. unfold on_heap. rewrite (bibentry_get_run _ _ _ Hv). split; [reflexivity|]. split; [|done].
  eapply bib_set_vars_inv; [exact Hi | done | | intros l Hl; apply add_ref_ne; done].
  unfold ref_ok. rewrite add_ref_eq. simpl. lia.
Qed.

(** A clone is a new session with one reference, its creator's, and a
    reference of its own to the BIB entry. *)
Lemma session_clone_spec brefs srefs s e v :
  store_inv brefs srefs s -> session_wf e ->
  match se_bib e with Some b => b ∈ bib_all (st_bib s) | None => True end ->
  exists r s', session_clone e v s = Some (r, s') /\
  (forall p x, x ∈ bib_of_proto p (st_bib s') <-> x ∈ bib_of_proto p (st_bib s)) /\
  match r with
  | None => store_inv brefs srefs s' /\ sessions_of (st_sess s') = sessions_of (st_sess s)
  | Some c =>
      c = SessionEntry (se_next (st_sess s)) (remote6 e) (local6 e) (local4 e) (remote4 e)
            (se_bib e) (se_l4_proto e) /\
      sessions_of (st_sess s) !! se_loc c = None /\
      sessions_of (st_sess s') = <[se_loc c := (c, set_refcounter 1 v)]> (sessions_of (st_sess s)) /\
      store_inv brefs (add_ref srefs (se_loc c) 1) s'
  end.
Proof.
  intros Hi Hw Hb. pose proof Hi as (H1 & H2 & H3). unfold session_clone.
  destruct (kmalloc (se_allocs (st_sess s))) as [ok al]. destruct ok; cbn [negb].
  2:{ eexists _, _. split; [reflexivity|]. split; [done|]. split; [|done]. exact Hi. }
  set (c := SessionEntry _ _ _ _ _ _ _). set (h := SessionHeap _ _ _).
  assert (Hnone : sessions_of (st_sess s) !! se_loc c = None).
  { destruct (sessions_of (st_sess s) !! se_loc c) as [[e' w]|] eqn:E; [|done].
    specialize (H3 (se_loc c)). rewrite E in H3. destruct H3 as (_ & _ & _ & _ & Hlt & _).
    subst c. simpl in Hlt. lia. }
  assert (H0 : srefs (se_loc c) = 0) by (specialize (H3 (se_loc c)); rewrite Hnone in H3; done).
  assert (Hheld : forall l, held (sessions_of h) l =
    held (sessions_of (st_sess s)) l + Z.b2z (holds l (c, set_refcounter 1 v)))
    by (intros l; apply held_insert_new; done).
  assert (Hrest : forall b', (forall p x, x ∈ bib_of_proto p b' <-> x ∈ bib_of_proto p (st_bib s)) ->
    (forall x, x ∈ bib_all (st_bib s) -> x ∈ bib_all b') ->
    bib_db_inv (fun l => brefs l + held (sessions_of h) l) b' ->
    store_inv brefs (add_ref srefs (se_loc c) 1) (Store b' h)).
  { intros b' Hsame Hall Hbi. split; [exact Hbi|]. split; [done|]. intros loc.
    unfold h. cbn [st_sess sessions_of st_bib]. destruct (decide (loc = se_loc c)) as [->|Hne].
    - rewrite lookup_insert_eq, add_ref_eq, H0.
      split_and!; try done; try lia.
      + cbn [se_loc c se_next]. lia.
      + cbn [se_bib c]. destruct (se_bib e); auto.
    - rewrite lookup_insert_ne, add_ref_ne by done. specialize (H3 loc).
      destruct (sessions_of (st_sess s) !! loc) as [[e' w]|]; [|done].
      destruct H3 as (? & ? & ? & ? & Hlt & Hb'). split_and!; try done.
      + cbn [se_next]. lia.
      + destruct (se_bib e'); auto. }
  destruct (se_bib e) as [b|] eqn:Eb.
  - destruct (bibentry_get_on_bib _ _ b H1 Hb) as (bh & Hrun & Hinv & _).
    unfold mbind, M_bind, on_bib. cbn [st_bib]. rewrite Hrun.
    eexists _, _. split; [reflexivity|]. split; [done|]. split; [subst c; rewrite ?Eb; done|].
    split; [done|]. split; [done|]. apply Hrest; [done|done|].
    eapply bib_db_inv_ext; [exact Hinv|]. intros x _. simpl. rewrite Hheld. unfold holds.
    subst c. simpl. rewrite ?Eb.
    destruct (Pos.eqb_spec (bib_loc b) (bib_loc x)) as [E|E]; simpl.
    + rewrite <- E, add_ref_eq. lia.
    + rewrite add_ref_ne by congruence. lia.
  - eexists _, _. split; [reflexivity|]. split; [done|]. split; [subst c; rewrite ?Eb; done|].
    split; [done|]. split; [done|]. apply Hrest; [done|done|].
    eapply bib_db_inv_ext; [exact H1|]. intros x _. simpl. rewrite Hheld. unfold holds.
    subst c. simpl. rewrite ?Eb. simpl. lia.
Qed.
