(* ===== verification/PktQueue.v ===== *)
(** * The packet queue

    [mod/stateful/session/pkt_queue.c]: the SYNs that came from the IPv4 side
    without a binding wait here for six seconds.  If the IPv6 node opens the
    connection in the meantime the packet is forgotten; otherwise it is
    answered with an ICMP error.

    The queue holds a reference to the session of each packet.  [world] is
    what the session code acts on: the store, the queue and the packets and
    errors that have been sent ([w_out], latest first). *)
From S2P Require Import Prelude Types Address RbTree BibTable BibDb Packet SessionEntry.

(** [icmp_wrapper.h] *)
Inductive icmp_error_code : Type :=
| ICMPERR_SILENT | ICMPERR_ADDR_UNREACHABLE | ICMPERR_PORT_UNREACHABLE | ICMPERR_PROTO_UNREACHABLE
| ICMPERR_HOP_LIMIT | ICMPERR_FRAG_NEEDED | ICMPERR_HDR_FIELD | ICMPERR_SRC_ROUTE | ICMPERR_FILTER.

(** The headers of a TCP probe. *)
Record probe : Type := Probe {
  probe_saddr : in6_addr;
  probe_daddr : in6_addr;
  probe_source : Z;
  probe_dest : Z;
  probe_hop_limit : Z;
  probe_ack : bool;
  probe_syn : bool;
  probe_fin : bool;
  probe_rst : bool
}.

(** The counters of the kernel's SNMP statistics the code increases. *)
Inductive ipstats : Type :=
| IPSTATS_MIB_INHDRERRORS | IPSTATS_MIB_INADDRERRORS | IPSTATS_MIB_INUNKNOWNPROTOS
| IPSTATS_MIB_INDISCARDS | IPSTATS_MIB_INNOROUTES | IPSTATS_MIB_INTRUNCATEDPKTS.

Inductive event : Type :=
| EvIcmp (pkt : Z) (code : icmp_error_code)
| EvFree (pkt : Z)
| EvProbe (p : probe)
| EvStat (pkt : Z) (field : ipstats).

(** The clock and the configuration the code reads. *)
Record env : Type := Env {
  jiffies : Z;
  ttl_udp : Z;
  ttl_tcpest : Z;
  ttl_tcptrans : Z;
  ttl_icmp : Z;
  ttl_syn : Z;  (* [msecs_to_jiffies(1000 * TCP_INCOMING_SYN)] *)
  max_pkts : Z;
  probe_ok : session_entry -> bool  (* a probe could be allocated, routed and sent *)
}.

(** [linux/jiffies.h]: [(long)(a - b) < 0]. *)
Definition time_before (a b : Z) : bool := 2 ^ 63 <=? u64 (a - b).

Record packet_node : Type := PacketNode {
  pn_loc : positive;
  pn_session : session_entry;
  pn_pkt : Z
}.

(** [pq_timer]: when the pending timer will fire. *)
Record pkt_queue : Type := PktQueue {
  node_list : list packet_node;
  node_tree : tree packet_node;
  node_count : Z;
  pq_timer : option Z;
  pn_next : positive;
  pn_allocs : allocs
}.

Record world : Type := World {
  w_store : store;
  w_queue : pkt_queue;
  w_out : list event
}.

Definition on_store {A} (m : M store A) : M world A := fun w =>
  match m (w_store w) with
  | Some (a, s) => Some (a, World s (w_queue w) (w_out w))
  | None => None
  end.

Definition set_queue (q : pkt_queue) : M world unit :=
  modify (fun w => World (w_store w) q (w_out w)).

Definition emit (e : event) : M world unit :=
  modify (fun w => World (w_store w) (w_queue w) (e :: w_out w)).

(** ** Operations *)

Definition pktqueue_init : pkt_queue := PktQueue [] Leaf 0 None 1 [].

Definition same_node (node x : packet_node) : bool := Pos.eqb (pn_loc x) (pn_loc node).

(** Compares IPv4 identifiers, the remote ones first. *)
Definition pq_compare_fn (node : packet_node) (session : session_entry) : Z :=
  lex_gap (ipv4_addr_cmp (l3_4 (remote4 (pn_session node))) (l3_4 (remote4 session)))
    (lex_gap (l4_4 (remote4 (pn_session node)) - l4_4 (remote4 session))
       (lex_gap (ipv4_addr_cmp (l3_4 (local4 (pn_session node))) (l3_4 (local4 session)))
          (l4_4 (local4 (pn_session node)) - l4_4 (local4 session)))).

Section Queue.
Context {R : RbTree} (e : env).

Definition send_icmp_error (node : packet_node) : M world unit :=
  emit (EvIcmp (pn_pkt node) ICMPERR_PORT_UNREACHABLE);;
  on_store (session_return (pn_session node));;
  emit (EvFree (pn_pkt node)).

Definition pq_rm (node : packet_node) (q : pkt_queue) : pkt_queue :=
  PktQueue (List.filter (fun x => negb (same_node node x)) (node_list q))
    (rb_erase (same_node node) (node_tree q)) (node_count q - 1) (pq_timer q) (pn_next q) (pn_allocs q).

Definition pq_set_timer (t : Z) (q : pkt_queue) : pkt_queue :=
  PktQueue (node_list q) (node_tree q) (node_count q) (Some t) (pn_next q) (pn_allocs q).

(** The loop of [cleaner_timer] over the nodes of the list; [icmps] is the
    list of the nodes that expired. *)
Fixpoint pq_clean (nodes icmps : list packet_node) : M world (list packet_node) :=
  match nodes with
  | [] => mret icmps
  | node :: nodes =>
      v ← on_store (read_session (pn_session node));
      let next_timeout := u64 (update_time v + ttl_syn e) in
      if time_before (jiffies e) next_timeout then
        w ← get; set_queue (pq_set_timer next_timeout (w_queue w));; mret icmps
      else
        w ← get; set_queue (pq_rm node (w_queue w));;
        pq_clean nodes (node :: icmps)
  end.

Fixpoint send_icmp_errors (nodes : list packet_node) : M world unit :=
  match nodes with
  | [] => mret tt
  | node :: nodes => send_icmp_error node;; send_icmp_errors nodes
  end.

Definition pq_cleaner_timer : M world unit :=
  w ← get;
  icmps ← pq_clean (node_list (w_queue w)) [];
  send_icmp_errors icmps.

Definition pktqueue_destroy : M world unit :=
  w ← get;
  let q := w_queue w in
  set_queue (PktQueue (node_list q) (node_tree q) (node_count q) None (pn_next q) (pn_allocs q));;
  send_icmp_errors (node_list q).

Definition pktqueue_add (session : session_entry) (pkt : packet) : M world (result unit) :=
  if negb (bool_decide (se_l4_proto session = L4PROTO_TCP)) then mret (Ok tt)
  else
    w ← get;
    let q := w_queue w in
    let '(ok, al) := kmalloc (pn_allocs q) in
    if negb ok then
      set_queue (PktQueue (node_list q) (node_tree q) (node_count q) (pq_timer q) (pn_next q) al);;
      mret (Err ENOMEM)
    else
      let node := PacketNode (pn_next q) session (pkt_original_pkt pkt) in
      let q := PktQueue (node_list q) (node_tree q) (node_count q) (pq_timer q)
                 (Pos.succ (pn_next q)) al in
      set_queue q;;
      if max_pkts e <=? u32 (node_count q + 1) then
        emit (EvIcmp (pn_pkt node) ICMPERR_PORT_UNREACHABLE);; mret (Err E2BIG)
      else
        match rbtree_add pq_compare_fn node (pn_session node) (node_tree q) with
        | Err error => mret (Err error)
        | Ok tree =>
            let nodes := node_list q ++ [node] in
            match nodes with
            | [] => fault
            | first :: _ =>
                v ← on_store (read_session (pn_session first));
                set_queue (PktQueue nodes tree (node_count q + 1)
                             (Some (u64 (update_time v + ttl_syn e))) (pn_next q) (pn_allocs q));;
                on_store (session_get session);;
                mret (Ok tt)
            end
        end.

Definition pktqueue_remove (session : session_entry) : M world unit :=
  if negb (bool_decide (se_l4_proto session = L4PROTO_TCP)) then mret tt
  else
    w ← get;
    match rbtree_find pq_compare_fn session (node_tree (w_queue w)) with
    | None => mret tt
    | Some node =>
        set_queue (pq_rm node (w_queue w));;
        on_store (session_return (pn_session node));;
        emit (EvFree (pn_pkt node))
    end.

End Queue.

(** ** Invariant *)

Definition pq_key (s : session_entry) : Z := taddr4_key (remote4 s) * 2 ^ 48 + taddr4_key (local4 s).

Definition node_key (n : packet_node) : Z := pq_key (pn_session n).

Lemma pq_compare_sgn n s :
  session_wf (pn_session n) -> session_wf s ->
  Z.sgn (pq_compare_fn n s) = Z.sgn (node_key n - pq_key s).
Proof.
  intros (_ & _ & L1 & R1) (_ & _ & L2 & R2). unfold pq_compare_fn. rewrite lex_gap_assoc.
  apply lex_gap_sgn; try apply taddr4_key_sgn; try done;
    unfold wf_taddr4, wf_addr4, is_u32, is_u16, taddr4_key in *; lia.
Qed.

Lemma pq_key_inj s s' :
  session_wf s -> session_wf s' -> pq_key s = pq_key s' <->
  remote4 s = remote4 s' /\ local4 s = local4 s'.
Proof.
  intros (_ & _ & L1 & R1) (_ & _ & L2 & R2). split; [|unfold pq_key; intros [-> ->]; done].
  unfold pq_key. intros E.
  assert (B1 : 0 <= taddr4_key (local4 s) < 2 ^ 48)
    by (unfold wf_taddr4, wf_addr4, is_u32, is_u16, taddr4_key in *; lia).
  assert (B2 : 0 <= taddr4_key (local4 s') < 2 ^ 48)
    by (unfold wf_taddr4, wf_addr4, is_u32, is_u16, taddr4_key in *; lia).
  split; apply taddr4_key_inj; (done || lia).
Qed.

(** The references the queue holds to the session at [loc]. *)
Definition queue_refs : list packet_node -> positive -> Z := refs_in (fun n => se_loc (pn_session n)).

(** The list and the tree hold the same packets, at most one per connection,
    and as many as are counted. *)
Definition queue_inv (q : pkt_queue) : Prop :=
  sorted_by node_key (inorder (node_tree q)) /\
  node_list q ≡ₚ inorder (node_tree q) /\
  NoDup (pn_loc <$> node_list q) /\
  node_count q = Z.of_nat (length (node_list q)) /\
  Forall (fun n => (pn_loc n < pn_next q)%positive /\ session_wf (pn_session n)) (node_list q).

(** Every packet's session is allocated, and the queue's references are
    among the session's. *)
Definition world_inv (brefs srefs : positive -> Z) (w : world) : Prop :=
  store_inv brefs (fun l => srefs l + queue_refs (node_list (w_queue w)) l) (w_store w) /\
  (forall l, 0 <= srefs l) /\
  queue_inv (w_queue w) /\
  forall n, n ∈ node_list (w_queue w) -> exists v, live (w_store w) (pn_session n) v.

Lemma queue_refs_cons n l loc :
  queue_refs (n :: l) loc = Z.b2z (Pos.eqb (se_loc (pn_session n)) loc) + queue_refs l loc.
Proof. exact (refs_in_cons (fun n => se_loc (pn_session n)) n l loc). Qed.

Lemma queue_refs_perm l1 l2 loc : l1 ≡ₚ l2 -> queue_refs l1 loc = queue_refs l2 loc.
Proof. exact (refs_in_perm (fun n => se_loc (pn_session n)) l1 l2 loc). Qed.

Lemma queue_refs_nonneg l loc : 0 <= queue_refs l loc.
Proof. exact (refs_in_nonneg (fun n => se_loc (pn_session n)) l loc). Qed.

Lemma queue_refs_pos n l : n ∈ l -> 0 < queue_refs l (se_loc (pn_session n)).
Proof. apply (refs_in_pos (fun n => se_loc (pn_session n))). Qed.

Lemma store_inv_ext brefs srefs srefs' s :
  store_inv brefs srefs s -> (forall l, srefs' l = srefs l) -> store_inv brefs srefs' s.
Proof.
  intros (H1 & H2 & H3) He. split; [done|]. split; [done|]. intros loc. specialize (H3 loc).
  rewrite He. done.
Qed.

Section QueueSpec.
Context {R : RbTree} {L : RbTreeLaws R}.

(** Unlinking a packet. *)
Lemma pq_rm_spec q n :
  queue_inv q -> n ∈ node_list q ->
  queue_inv (pq_rm n q) /\ node_list q ≡ₚ n :: node_list (pq_rm n q).
Proof.
  intros (Hs & Hp & Hnd & Hc & Hw) Hn.
  pose proof (other_than_perm pn_loc n _ Hn Hnd) as Hperm. split; [|exact Hperm].
  unfold queue_inv. simpl. change (fun x => negb (same_node n x)) with (other_than pn_loc n).
  split; [|split; [|split; [|split]]].
  - rewrite inorder_erase. apply sorted_by_filter. done.
  - rewrite inorder_erase. apply filter_perm. done.
  - apply NoDup_fmap_filter. done.
  - apply Permutation_length in Hperm. simpl in Hperm. lia.
  - apply (Permutation_Forall Hperm), Forall_cons in Hw. tauto.
Qed.

(** Dropping the reference of a packet that has been unlinked. *)
Lemma queue_drop brefs srefs nodes s n v :
  store_inv brefs (fun l => srefs l + queue_refs (n :: nodes) l) s -> live s (pn_session n) v ->
  (forall l, 0 <= srefs l) ->
  exists dead s', session_return (pn_session n) s = Some (dead, s') /\
    store_inv brefs (fun l => srefs l + queue_refs nodes l) s' /\
    bib_shrinks brefs [pn_session n] (st_bib s) (st_bib s') /\
    store_frame (fun l => 0 < srefs l \/ 0 < queue_refs nodes l) s s'.
Proof.
  intros Hi Hl Hs. destruct (session_return_drop brefs _ s _ v Hi Hl) as (dead & s' & Hrun & Hi' & Hb & Hf).
  assert (He : forall l, add_ref (fun l => srefs l + queue_refs (n :: nodes) l)
                 (se_loc (pn_session n)) (-1) l = srefs l + queue_refs nodes l).
  { intros l. unfold add_ref. rewrite queue_refs_cons.
    destruct (decide (l = se_loc (pn_session n))) as [->|Hne].
    - rewrite Pos.eqb_refl. simpl. lia.
    - destruct (Pos.eqb_spec (se_loc (pn_session n)) l); [congruence|]. simpl. lia. }
  exists dead, s'. split; [done|]. split; [eapply store_inv_ext; [exact Hi'|]; intros l; symmetry; apply He|].
  split; [done|]. eapply store_frame_weaken; [|exact Hf]. intros l Hl'.
  specialize (He l). specialize (Hs l). pose proof (queue_refs_nonneg nodes l). unfold add_ref in *.
  destruct (decide (l = se_loc (pn_session n))); lia.
Qed.

(** The wait of a packet is over. *)
Definition due (e : env) (s : store) (n : packet_node) : Prop :=
  exists v, live s (pn_session n) v /\
    time_before (jiffies e) (u64 (update_time v + ttl_syn e)) = false.

Lemma pq_rm_head q n nodes :
  queue_inv q -> node_list q = n :: nodes ->
  queue_inv (pq_rm n q) /\ node_list (pq_rm n q) = nodes.
Proof.
  intros Hi E. destruct (pq_rm_spec q n Hi) as [Hi' _]; [rewrite E; left|]. split; [done|].
  destruct Hi as (_ & _ & Hnd & _). simpl. rewrite E in *. rewrite fmap_cons in Hnd.
  apply NoDup_cons in Hnd as [Hni _].
  change (fun x => negb (same_node n x)) with (other_than pn_loc n).
  apply (other_than_split pn_loc n [] nodes). done.
Qed.

(** The loop takes the packets that are due off the front of the list. *)
Lemma pq_clean_spec e nodes : forall icmps w,
  queue_inv (w_queue w) -> node_list (w_queue w) = nodes ->
  (forall n, n ∈ nodes -> exists v, live (w_store w) (pn_session n) v) ->
  exists expired rest q', nodes = expired ++ rest /\
    pq_clean e nodes icmps w = Some (rev expired ++ icmps, World (w_store w) q' (w_out w)) /\
    queue_inv q' /\ node_list q' = rest /\ Forall (due e (w_store w)) expired /\
    match rest with
    | [] => True
    | n :: _ => ~ due e (w_store w) n /\ is_Some (pq_timer q')
    end.
Proof.
  induction nodes as [|n nodes IH]; intros icmps w Hi E Hlive.
  { exists [], [], (w_queue w). destruct w. split_and!; done. }
  destruct (Hlive n ltac:(left)) as [v Hv].
  cbn [pq_clean]. unfold mbind at 1, M_bind at 1, on_store. rewrite (read_session_run _ _ _ Hv).
  destruct (time_before (jiffies e) (u64 (update_time v + ttl_syn e))) eqn:Et.
  - unfold mbind, M_bind, get, set_queue, modify. cbn [w_queue w_store w_out].
    exists [], (n :: nodes), (pq_set_timer (u64 (update_time v + ttl_syn e)) (w_queue w)).
    split_and!; try done. intros (v' & Hv' & Hd). unfold live in *. congruence.
  - destruct (pq_rm_head _ _ _ Hi E) as [Hi' E'].
    destruct (IH (n :: icmps) (World (w_store w) (pq_rm n (w_queue w)) (w_out w)) Hi' E')
      as (expired & rest & q' & -> & Hrun & Hq' & Er & Hd & Hrest).
    { intros x Hx. apply Hlive. right. done. }
    exists (n :: expired), rest, q'. split; [done|]. split; [|split_and!; try done].
    + unfold mbind, M_bind, get, set_queue, modify. cbn [w_queue w_store w_out].
      rewrite Hrun. simpl. rewrite <- app_assoc. done.
    + constructor; [exists v; done | done].
Qed.

(** What sending the errors of a list of packets adds to the output. *)
Fixpoint answers (nodes : list packet_node) (out : list event) : list event :=
  match nodes with
  | [] => out
  | n :: nodes =>
      answers nodes (EvFree (pn_pkt n) :: EvIcmp (pn_pkt n) ICMPERR_PORT_UNREACHABLE :: out)
  end.

Lemma send_icmp_errors_spec brefs srefs nodes : forall w,
  store_inv brefs (fun l => srefs l + queue_refs nodes l) (w_store w) ->
  (forall l, 0 <= srefs l) ->
  (forall n, n ∈ nodes -> exists v, live (w_store w) (pn_session n) v) ->
  exists s', send_icmp_errors nodes w = Some (tt, World s' (w_queue w) (answers nodes (w_out w))) /\
    store_inv brefs srefs s' /\
    bib_shrinks brefs (pn_session <$> nodes) (st_bib (w_store w)) (st_bib s') /\
    store_frame (fun l => 0 < srefs l) (w_store w) s'.
Proof.
  induction nodes as [|n nodes IH]; intros w Hi Hs Hlive.
  { exists (w_store w). split; [destruct w; done|]. split; [|split; [apply bib_shrinks_refl|apply store_frame_refl]].
    eapply store_inv_ext; [exact Hi|]. intros l. unfold queue_refs. rewrite refs_in_nil. lia. }
  destruct (Hlive n ltac:(left)) as [v Hv].
  destruct (queue_drop brefs srefs nodes _ n v Hi Hv Hs) as (dead & s1 & Hrun & Hi1 & Hb1 & Hf1).
  destruct (IH (World s1 (w_queue w)
      (EvFree (pn_pkt n) :: EvIcmp (pn_pkt n) ICMPERR_PORT_UNREACHABLE :: w_out w)) Hi1 Hs)
    as (s' & Hrun' & Hi' & Hb' & Hf').
  { intros x Hx. destruct (Hlive x ltac:(right; done)) as [vx Hvx].
    destruct (Hf1 _ _ Hvx) as [m Hm]; [right; apply queue_refs_pos; done|]. eauto. }
  exists s'. split; [|split; [done|split]].
  - cbn [send_icmp_errors]. unfold send_icmp_error, mbind, M_bind, emit, modify, on_store.
    cbn [w_store w_queue w_out]. rewrite Hrun. exact Hrun'.
  - exact (bib_shrinks_trans brefs [pn_session n] _ _ _ _ Hb1 Hb').
  - eapply store_frame_trans; [|exact Hf']. eapply store_frame_weaken; [|exact Hf1]. simpl. auto.
Qed.

Lemma queue_refs_app l1 l2 loc : queue_refs (l1 ++ l2) loc = queue_refs l1 loc + queue_refs l2 loc.
Proof. exact (refs_in_app (fun n => se_loc (pn_session n)) l1 l2 loc). Qed.

(** The frame of the sessions other code references. *)
Lemma world_clean_spec brefs srefs e w :
  world_inv brefs srefs w ->
  exists expired rest q' s',
    node_list (w_queue w) = expired ++ rest /\
    pq_cleaner_timer e w = Some (tt, World s' q' (answers (rev expired) (w_out w))) /\
    world_inv brefs srefs (World s' q' (answers (rev expired) (w_out w))) /\
    node_list q' = rest /\ Forall (due e (w_store w)) expired /\
    match rest with
    | [] => True
    | n :: _ => ~ due e (w_store w) n /\ is_Some (pq_timer q')
    end /\
    store_frame (fun l => 0 < srefs l) (w_store w) s'.
Proof.
  intros (Hi & Hs & Hq & Hlive).
  destruct (pq_clean_spec e _ [] w Hq eq_refl Hlive) as (expired & rest & q' & E & Hrun & Hq' & Er & Hd & Hrest).
  rewrite app_nil_r in Hrun.
  assert (Hsplit : forall l, queue_refs (node_list (w_queue w)) l =
            queue_refs rest l + queue_refs (rev expired) l).
  { intros l. rewrite E, queue_refs_app, (queue_refs_perm (rev expired) expired).
    - lia.
    - symmetry. apply Permutation_rev. }
  destruct (send_icmp_errors_spec brefs (fun l => srefs l + queue_refs rest l) (rev expired)
              (World (w_store w) q' (w_out w))) as (s' & Hrun' & Hi' & Hb' & Hf').
  - simpl. eapply store_inv_ext; [exact Hi|]. intros l. simpl. rewrite Hsplit. lia.
  - intros l. specialize (Hs l). pose proof (queue_refs_nonneg rest l). lia.
  - intros n Hn. apply Hlive. rewrite E, elem_of_app. left.
    rewrite list_elem_of_In in Hn |- *. apply in_rev. done.
  - exists expired, rest, q', s'. split; [done|]. split; [|split; [|split_and!; try done]].
    + unfold pq_cleaner_timer, mbind, M_bind, get. rewrite Hrun. exact Hrun'.
    + split; [|split; [done|split; [done|]]]; cbn [w_queue w_store]; rewrite Er; [exact Hi'|].
      intros n Hn. destruct (Hlive n) as [v Hv]; [rewrite E, elem_of_app; auto|].
      destruct (Hf' _ _ Hv) as [m Hm]; [|eauto]. pose proof (queue_refs_pos n rest Hn).
      specialize (Hs (se_loc (pn_session n))). lia.
    + eapply store_frame_weaken; [|exact Hf']. simpl. intros l Hl. pose proof (queue_refs_nonneg rest l). lia.
Qed.

Lemma queue_node_wf q n : queue_inv q -> n ∈ node_list q -> session_wf (pn_session n).
Proof.
  intros (_ & _ & _ & _ & Hw) Hn. rewrite Forall_forall in Hw. apply (Hw n Hn).
Qed.

Lemma queue_tree_wf q n : queue_inv q -> n ∈ inorder (node_tree q) -> session_wf (pn_session n).
Proof. intros Hi Hn. apply (queue_node_wf q); [done|]. destruct Hi as (_ & -> & _). done. Qed.

Lemma queue_cmp q session y :
  queue_inv q -> session_wf session -> y ∈ inorder (node_tree q) ->
  Z.sgn (pq_compare_fn y session) = Z.sgn (node_key y - pq_key session).
Proof. intros Hi Hw Hy. apply pq_compare_sgn; [|done]. apply (queue_tree_wf q); done. Qed.

Lemma queue_find q session n :
  queue_inv q -> session_wf session ->
  rbtree_find pq_compare_fn session (node_tree q) = Some n <->
  n ∈ node_list q /\ remote4 (pn_session n) = remote4 session /\ local4 (pn_session n) = local4 session.
Proof.
  intros Hi Hw. pose proof Hi as (Hs & Hp & _).
  rewrite (rbtree_find_keyed node_key pq_compare_fn session (pq_key session)); [|done|].
  2:{ intros y Hy. apply (queue_cmp q); done. }
  rewrite Hp. split; intros [Hn E]; (split; [done|]); apply pq_key_inj; try done;
    apply (queue_tree_wf q); done.
Qed.

(** [gone]: the packets a removal takes off the queue. *)
Definition forgotten (brefs srefs : positive -> Z) (session : session_entry) (w w' : world)
    (gone : list packet_node) : Prop :=
  world_inv brefs srefs w' /\ (length gone <= 1)%nat /\
  (forall n, n ∈ node_list (w_queue w') <-> n ∈ node_list (w_queue w) /\ n ∉ gone) /\
  (forall n, n ∈ gone <-> n ∈ node_list (w_queue w) /\ se_l4_proto session = L4PROTO_TCP /\
     remote4 (pn_session n) = remote4 session /\ local4 (pn_session n) = local4 session) /\
  w_out w' = ((fun n => EvFree (pn_pkt n)) <$> gone) ++ w_out w /\
  bib_shrinks brefs (pn_session <$> gone) (st_bib (w_store w)) (st_bib (w_store w')) /\
  store_frame (fun l => 0 < srefs l) (w_store w) (w_store w').

Lemma forgotten_none brefs srefs session w :
  world_inv brefs srefs w ->
  (se_l4_proto session = L4PROTO_TCP -> forall n, n ∈ node_list (w_queue w) ->
     ~ (remote4 (pn_session n) = remote4 session /\ local4 (pn_session n) = local4 session)) ->
  forgotten brefs srefs session w w [].
Proof.
  intros Hw Hno. split; [done|]. split; [simpl; lia|]. split; [set_solver|]. split.
  - intros n. split; [intros Hn; inversion Hn|]. intros (Hn & Ht & E). destruct (Hno Ht n Hn E).
  - split; [done|]. split; [apply bib_shrinks_refl|apply store_frame_refl].
Qed.

(** The packet of a session that has been opened from the other side is
    forgotten, without an error. *)
Lemma pktqueue_remove_spec brefs srefs w session :
  world_inv brefs srefs w -> session_wf session ->
  exists w' gone, pktqueue_remove session w = Some (tt, w') /\
    forgotten brefs srefs session w w' gone.
Proof.
  intros Hwi Hw. pose proof Hwi as (Hi & Hs & Hq & Hlive). unfold pktqueue_remove.
  destruct (bool_decide (se_l4_proto session = L4PROTO_TCP)) eqn:Ep; cbn [negb].
  2:{ apply bool_decide_eq_false in Ep. exists w, []. split; [done|]. apply forgotten_none; done. }
  apply bool_decide_eq_true in Ep. unfold mbind at 1, M_bind at 1, get.
  destruct (rbtree_find pq_compare_fn session (node_tree (w_queue w))) as [n|] eqn:Ef.
  2:{ exists w, []. split; [done|]. apply forgotten_none; [done|]. intros _ n Hn E.
      assert (rbtree_find pq_compare_fn session (node_tree (w_queue w)) = Some n)
        by (apply queue_find; done). congruence. }
  pose proof (queue_find _ _ n Hq Hw) as Hfind. apply Hfind in Ef as (Hn & E).
  destruct (pq_rm_spec _ n Hq Hn) as [Hq' Hperm]. destruct (Hlive n Hn) as [v Hv].
  destruct (queue_drop brefs srefs (node_list (pq_rm n (w_queue w))) (w_store w) n v)
    as (dead & s' & Hrun & Hi' & Hb & Hf); [|done..|].
  { eapply store_inv_ext; [exact Hi|]. intros l. simpl. f_equal. apply queue_refs_perm.
    symmetry. exact Hperm. }
  exists (World s' (pq_rm n (w_queue w)) (EvFree (pn_pkt n) :: w_out w)), [n].
  assert (Hnd : NoDup (node_list (w_queue w))).
  { destruct Hq as (S & P & _). rewrite P. eapply sorted_by_NoDup. exact S. }
  rewrite Hperm in Hnd. apply NoDup_cons in Hnd as [Hni _].
  split; [|split; [|split; [simpl; lia|split; [|split; [|split; [|split]]]]]].
  - unfold mbind, M_bind, set_queue, modify, on_store, emit. cbn [w_store w_queue w_out]. rewrite Hrun. done.
  - split; [done|]. split; [done|]. split; [done|]. cbn [w_queue w_store]. intros x Hx.
    destruct (Hlive x) as [vx Hvx]; [rewrite Hperm; right; done|].
    destruct (Hf _ _ Hvx) as [m Hm]; [right; apply queue_refs_pos; done|]. eauto.
  - intros x. cbn [w_queue]. rewrite Hperm, elem_of_cons, list_elem_of_singleton. split.
    + intros Hx. split; [auto|]. intros ->. done.
    + tauto.
  - intros x. rewrite list_elem_of_singleton. split; [intros ->; done|]. intros (Hx & _ & Ex).
    assert (H1 : rbtree_find pq_compare_fn session (node_tree (w_queue w)) = Some x) by (apply queue_find; done).
    assert (H2 : rbtree_find pq_compare_fn session (node_tree (w_queue w)) = Some n) by (apply queue_find; done).
    congruence.
  - done.
  - exact Hb.
  - eapply store_frame_weaken; [|exact Hf]. simpl. auto.
Qed.

(** What [pktqueue_add] does on each of its branches. *)
Definition queued (e : env) (session : session_entry) (pkt : packet) (w w' : world)
    (r : result unit) : Prop :=
  match r with
  | Ok _ => exists n, pn_session n = session /\ pn_pkt n = pkt_original_pkt pkt /\
      node_list (w_queue w') = node_list (w_queue w) ++ [n] /\ w_out w' = w_out w /\
      u32 (Z.of_nat (length (node_list (w_queue w'))))  < max_pkts e /\ is_Some (pq_timer (w_queue w'))
  | Err E2BIG => node_list (w_queue w') = node_list (w_queue w) /\
      max_pkts e <= u32 (Z.of_nat (length (node_list (w_queue w))) + 1) /\
      w_out w' = EvIcmp (pkt_original_pkt pkt) ICMPERR_PORT_UNREACHABLE :: w_out w
  | Err EEXIST => node_list (w_queue w') = node_list (w_queue w) /\ w_out w' = w_out w /\
      exists n, n ∈ node_list (w_queue w) /\
        remote4 (pn_session n) = remote4 session /\ local4 (pn_session n) = local4 session
  | Err err => err = ENOMEM /\ node_list (w_queue w') = node_list (w_queue w) /\ w_out w' = w_out w
  end.

Lemma world_inv_queue brefs srefs w q' out :
  world_inv brefs srefs w -> queue_inv q' -> node_list q' = node_list (w_queue w) ->
  world_inv brefs srefs (World (w_store w) q' out).
Proof.
  intros (Hi & Hs & _ & Hlive) Hq E. split; [cbn [w_queue]; rewrite E; exact Hi|].
  split; [done|]. split; [done|]. cbn [w_queue w_store]. rewrite E. done.
Qed.

Lemma pktqueue_add_spec brefs srefs e w session v pkt :
  world_inv brefs srefs w -> live (w_store w) session v -> se_l4_proto session = L4PROTO_TCP ->
  exists r w', pktqueue_add e session pkt w = Some (r, w') /\ world_inv brefs srefs w' /\
    queued e session pkt w w' r /\
    st_bib (w_store w') = st_bib (w_store w) /\
    store_frame (fun _ => True) (w_store w) (w_store w').
Proof.
  intros Hwi Hv Htcp. pose proof Hwi as (Hi & Hs & Hq & Hlive).
  pose proof Hq as (HS & HP & Hnd & Hc & Hw).
  destruct (live_inv _ _ _ _ _ Hi Hv) as (Hsw & _).
  unfold pktqueue_add. rewrite bool_decide_eq_true_2 by done. cbn [negb].
  unfold mbind at 1, M_bind at 1, get. destruct (kmalloc (pn_allocs (w_queue w))) as [ok al].
  destruct ok; cbn [negb].
  2:{ eexists _, _. split; [reflexivity|].
      split; [apply (world_inv_queue brefs srefs w); done|].
      split; [done|]. split; [done|]. apply store_frame_refl. }
  set (q := PktQueue (node_list (w_queue w)) (node_tree (w_queue w)) (node_count (w_queue w))
              (pq_timer (w_queue w)) (Pos.succ (pn_next (w_queue w))) al).
  set (n := PacketNode (pn_next (w_queue w)) session (pkt_original_pkt pkt)).
  assert (Hq1 : queue_inv q).
  { split_and!; try done. eapply Forall_impl; [exact Hw|]. simpl. intros x [? ?]. split; [lia|done]. }
  unfold mbind at 1, M_bind at 1, set_queue at 1, modify at 1.
  change (node_count q) with (node_count (w_queue w)). rewrite Hc.
  destruct (Z.leb_spec (max_pkts e) (u32 (Z.of_nat (length (node_list (w_queue w))) + 1))) as [Hmax|Hmax].
  { eexists _, _. split; [reflexivity|]. split; [apply (world_inv_queue brefs srefs w); done|].
    split; [done|]. split; [done|]. apply store_frame_refl. }
  pose proof (rbtree_add_keyed node_key pq_compare_fn n session (node_tree (w_queue w)) HS) as Hadd.
  change (node_tree q) with (node_tree (w_queue w)). change (pn_session n) with session.
  destruct (rbtree_add pq_compare_fn n session (node_tree (w_queue w))) as [t'|err].
  2:{ destruct Hadd as (-> & y & Hy & Ey).
      { intros y Hy. apply (queue_cmp (w_queue w)); done. }
      eexists _, _. split; [reflexivity|]. split; [apply (world_inv_queue brefs srefs w); done|].
      split; [|split; [done|apply store_frame_refl]]. split; [done|]. split; [done|].
      exists y. rewrite HP. split; [done|].
      apply pq_key_inj; [apply (queue_tree_wf (w_queue w)); done | done | done]. }
  destruct Hadd as (HS' & HP' & _ & Hne).
  { intros y Hy. apply (queue_cmp (w_queue w)); done. }
  set (nodes := node_list q ++ [n]).
  assert (Hfirst : exists first rest vf, nodes = first :: rest /\ live (w_store w) (pn_session first) vf).
  { unfold nodes. destruct (node_list q) as [|f rest] eqn:E.
    - exists n, [], v. done.
    - destruct (Hlive f) as [vf Hvf]; [change (f ∈ node_list q); rewrite E; left|].
      exists f, (rest ++ [n]), vf. done. }
  destruct Hfirst as (first & rest & vf & En & Hvf). rewrite En.
  unfold mbind, M_bind, on_store, set_queue, modify. cbn [w_store w_queue w_out].
  rewrite (read_session_run _ _ _ Hvf). cbn [w_store w_queue w_out].
  destruct (session_get_spec brefs _ _ session v Hi Hv) as (s' & Hrun & Hi' & Es'). rewrite Hrun.
  assert (Hframe : store_frame (fun _ => True) (w_store w) s').
  { subst s'. intros x vx Hx _. unfold live. simpl. destruct (decide (se_loc x = se_loc session)) as [E|E].
    - unfold live in Hx, Hv. rewrite E in Hx |- *. rewrite Hx in Hv. injection Hv as -> ->.
      rewrite lookup_insert_eq. eauto.
    - rewrite lookup_insert_ne by done. exists (se_refcounter vx). rewrite set_refcounter_id. done. }
  assert (Hpm : nodes ≡ₚ n :: node_list (w_queue w))
    by (unfold nodes; rewrite <- Permutation_cons_append; done).
  eexists _, _. split; [reflexivity|]. rewrite <- En.
  split; [|split; [|split; [subst s'; done|done]]].
  - split; [|split; [done|split]]; cbn [w_queue w_store].
    + eapply store_inv_ext; [exact Hi'|]. intros l. simpl. rewrite (queue_refs_perm _ _ _ Hpm), queue_refs_cons.
      unfold add_ref. change (pn_session n) with session.
      destruct (Pos.eqb_spec (se_loc session) l) as [->|Hl].
      * rewrite decide_True by done. simpl. lia.
      * rewrite decide_False by done. simpl. lia.
    + unfold queue_inv. cbn [node_tree node_list node_count pn_next]. split; [done|].
      split; [rewrite HP', <- HP; exact Hpm|]. split.
      * rewrite Hpm, fmap_cons. apply NoDup_cons. split; [|done]. intros Hin.
        apply list_elem_of_fmap in Hin as (x & E & Hx). rewrite Forall_forall in Hw.
        destruct (Hw x Hx) as [Hlt _]. simpl in E. rewrite E in Hlt. lia.
      * split; [unfold nodes; rewrite length_app; simpl; lia|].
        rewrite Hpm. apply Forall_cons. split; [simpl; split; [lia|done]|].
        eapply Forall_impl; [exact Hw|]. simpl. intros x [? ?]. split; [lia|done].
    + cbn [node_list]. intros x Hx. rewrite Hpm, elem_of_cons in Hx.
      assert (Hlx : exists vx, live (w_store w) (pn_session x) vx) by (destruct Hx as [->|Hx]; eauto).
      destruct Hlx as [vx Hvx]. destruct (Hframe _ _ Hvx) as [m Hm]; eauto.
  - exists n. cbn [w_queue w_out node_list pq_timer]. split; [done|]. split; [done|].
    split; [done|]. split; [done|]. split; [|eauto].
    unfold nodes. rewrite length_app. simpl. rewrite Nat2Z.inj_add. exact Hmax.
Qed.

End QueueSpec.

(** ** Theorems *)

(** [pktqueue_add] never faults.  It stores the packet at the end of the
    queue, taking a reference to its session and arming the timer, as long
    as fewer than [max_pkts - 1] packets are stored and none of the same
    connection; a full queue answers the packet with an ICMP error, and on
    every failure the queue and the references are as they were. *)
Lemma pktqueue_add_branches {R : RbTree} {L : RbTreeLaws R} brefs srefs e w session v pkt
    (Hw : world_inv brefs srefs w) (Hl : live (w_store w) session v)
    (Htcp : se_l4_proto session = L4PROTO_TCP) :
  exists r w', pktqueue_add e session pkt w = Some (r, w') /\ world_inv brefs srefs w' /\
    queued e session pkt w w' r.
Proof.
  destruct (pktqueue_add_spec brefs srefs e w session v pkt Hw Hl Htcp) as (r & w' & H1 & H2 & H3 & _).
  eauto.
Qed.

(** The queue's timer answers, with one ICMP error each, exactly the
    packets at the front of the queue whose wait is over, then frees them and
    drops the references to their sessions; the first packet that stays is
    not due and the timer is armed for it. *)
Lemma pktqueue_timeout_answers {R : RbTree} {L : RbTreeLaws R} brefs srefs e w
    (Hw : world_inv brefs srefs w) :
  exists expired rest w',
    node_list (w_queue w) = expired ++ rest /\
    pq_cleaner_timer e w = Some (tt, w') /\ world_inv brefs srefs w' /\
    node_list (w_queue w') = rest /\ w_out w' = answers (rev expired) (w_out w) /\
    Forall (due e (w_store w)) expired /\
    match rest with
    | [] => True
    | n :: _ => ~ due e (w_store w) n /\ is_Some (pq_timer (w_queue w'))
    end.
Proof.
  destruct (world_clean_spec brefs srefs e w Hw) as (expired & rest & q' & s' & H1 & H2 & H3 & H4 & H5 & H6 & _).
  exists expired, rest, (World s' q' (answers (rev expired) (w_out w))). split_and!; done.
Qed.

(** Simultaneous open: a SYN stored for a connection, followed by the
    other side's session with the same IPv4 identifiers, is freed without
    any ICMP error, whether or not the sessions are the same object, and the
    rest of the queue stays. *)
Lemma pktqueue_open_cancels {R : RbTree} {L : RbTreeLaws R} brefs srefs e w session v pkt w1 other
    (Hw : world_inv brefs srefs w) (Hl : live (w_store w) session v)
    (Htcp : se_l4_proto session = L4PROTO_TCP)
    (Hadd : pktqueue_add e session pkt w = Some (Ok tt, w1))
    (Hother : session_wf other) (Htcp' : se_l4_proto other = L4PROTO_TCP)
    (Hr : remote4 other = remote4 session) (Hlo : local4 other = local4 session) :
  exists w2, pktqueue_remove other w1 = Some (tt, w2) /\ world_inv brefs srefs w2 /\
    (forall n, n ∈ node_list (w_queue w2) <-> n ∈ node_list (w_queue w)) /\
    w_out w2 = EvFree (pkt_original_pkt pkt) :: w_out w.
Proof.
  destruct (pktqueue_add_spec brefs srefs e w session v pkt Hw Hl Htcp) as (r & w1' & Ha & Hi1 & Hq & _).
  rewrite Hadd in Ha. injection Ha as <- <-. destruct Hq as (n & En & Ep & Enl & Eo & _).
  destruct (pktqueue_remove_spec brefs srefs w1 other Hi1 Hother) as (w2 & gone & Hrun & Hi2 & Hlen & Hin & Hg & Ho & _).
  assert (Hng : forall x, x ∈ gone <-> x = n).
  { intros x. rewrite Hg. pose proof Hi1 as (_ & _ & Hqi & _).
    assert (Hself : n ∈ node_list (w_queue w1)) by (rewrite Enl, elem_of_app; right; left).
    split.
    - intros (Hx & _ & E1 & E2). pose proof Hqi as (HS & HP & _).
      eapply (sorted_by_inj node_key); [exact HS | rewrite <- HP; done | rewrite <- HP; done |].
      unfold node_key. apply pq_key_inj; [eapply queue_node_wf; done..|]. rewrite En. split; congruence.
    - intros ->. rewrite En. split_and!; congruence. }
  assert (Hgone : gone = [n]).
  { destruct gone as [|x [|y gone]].
    - exfalso. assert (Hx : n ∈ []) by (apply Hng; done). inversion Hx.
    - f_equal. apply Hng. left.
    - simpl in Hlen. lia. }
  exists w2. split; [done|]. split; [done|]. rewrite Hgone in *. split.
  - assert (Hni : n ∉ node_list (w_queue w)).
    { pose proof Hi1 as (_ & _ & (HS & HP & _) & _). apply sorted_by_NoDup in HS. rewrite <- HP, Enl in HS.
      apply NoDup_app in HS as (_ & HS & _). intros Hin'. apply (HS n Hin'). left. }
    intros x. rewrite Hin, Enl, elem_of_app, list_elem_of_singleton. split; [tauto|].
    intros Hx. split; [auto|]. intros ->. done.
  - rewrite Ho. simpl. rewrite Ep, Eo. done.
Qed.

(** ** Examples *)

Definition session_q : session_entry :=
  SessionEntry 1 (TAddr6 (In6Addr 0) 0) (TAddr6 (In6Addr 7) 80) (TAddr4 (InAddr 0xc0000201) 1500)
    (TAddr4 (InAddr 0xcb007101) 80) None L4PROTO_TCP.

Definition world_q : world :=
  World (Store bibdb_init (SessionHeap {[ 1%positive := (session_q, SessionVars 100 1 V4_INIT None) ]} 2 []))
    pktqueue_init [].

Definition refs_q (l : positive) : Z := if decide (l = 1%positive) then 1 else 0.

Definition env_q : env := Env 101 10 10 10 10 6 10 (fun _ => true).

Definition syn_q : packet :=
  Packet 5 5 L3PROTO_IPV4 L4PROTO_TCP 0 (In6Addr 0) (In6Addr 0) true false false 0.

Lemma session_q_wf : session_wf session_q.
Proof.
  unfold session_wf, wf_taddr4, wf_taddr6, wf_addr4, wf_addr6, is_u16, is_u32. simpl. lia.
Qed.

Lemma world_q_inv : world_inv (fun _ => 0) refs_q world_q.
Proof.
  split; [|split; [|split]].
  - split; [|split; [done|]].
    + eapply bib_db_inv_ext; [apply bibdb_init_inv|]. intros b Hb. inversion Hb.
    + intros loc. cbn [world_q w_store st_sess sessions_of]. unfold queue_refs, refs_q. simpl.
      destruct (decide (loc = 1%positive)) as [->|Hne].
      * rewrite lookup_singleton_eq. split_and!; try done; apply session_q_wf.
      * rewrite lookup_singleton_ne by done. done.
  - intros l. unfold refs_q. case_decide; lia.
  - unfold queue_inv; simpl; split_and!; try done; try constructor.
  - intros n Hn. inversion Hn.
Qed.

Lemma world_q_live : live (w_store world_q) session_q (SessionVars 100 1 V4_INIT None).
Proof. reflexivity. Qed.

