(* ===== verification/SessionTable.v ===== *)
(** * Session tables

    [mod/stateful/session/table.c]: the sessions of a protocol, indexed by
    their IPv6 and by their IPv4 identifiers, and the two queues they expire
    from.

    Every session of a table is in one of the lists of its two timers, which
    hold them in the order they were last updated.  A list hook is in one
    list at a time, so unlinking a session ([list_del]) takes it out of
    whichever list of the table has it.  The spinlock makes each operation
    atomic; the clock does not advance during one. *)
From S2P Require Import Prelude Types Address RbTree BibTable BibDb Packet SessionEntry PktQueue.

Inductive session_fate : Type :=
| FATE_TIMER_EST | FATE_TIMER_TRANS | FATE_RM | FATE_PRESERVE | FATE_PROBE.

(** A callback decides on a session and may write its variables; the packet
    it is given is part of the closure. *)
Definition fate_cb : Type := env -> session_entry -> session_vars -> session_fate * session_vars.

(** [None] stands for a NULL function pointer. *)
Record expire_timer : Type := ExpireTimer {
  timer : option Z;
  et_sessions : list session_entry;
  get_timeout : option (env -> Z);
  decide_fate_cb : option fate_cb
}.

Record session_table : Type := SessionTable {
  s_tree6 : tree session_entry;
  s_tree4 : tree session_entry;
  s_count : Z;
  est_timer : expire_timer;
  trans_timer : expire_timer
}.

Definition get_timer (k : timer_kind) (t : session_table) : expire_timer :=
  match k with EST_TIMER => est_timer t | TRANS_TIMER => trans_timer t end.

Definition put_timer (k : timer_kind) (x : expire_timer) (t : session_table) : session_table :=
  match k with
  | EST_TIMER => SessionTable (s_tree6 t) (s_tree4 t) (s_count t) x (trans_timer t)
  | TRANS_TIMER => SessionTable (s_tree6 t) (s_tree4 t) (s_count t) (est_timer t) x
  end.

Definition set_sessions (l : list session_entry) (x : expire_timer) : expire_timer :=
  ExpireTimer (timer x) l (get_timeout x) (decide_fate_cb x).

Definition mod_timer (at_ : Z) (x : expire_timer) : expire_timer :=
  ExpireTimer (Some at_) (et_sessions x) (get_timeout x) (decide_fate_cb x).

(** The table and everything else. *)
Definition tworld : Type := session_table * world.

Definition on_world {A} (m : M world A) : M tworld A := fun '(t, w) =>
  match m w with
  | Some (a, w) => Some (a, (t, w))
  | None => None
  end.

Definition on_sess {A} (m : M store A) : M tworld A := on_world (on_store m).

Definition get_table : M tworld session_table := gets fst.
Definition upd_table (f : session_table -> session_table) : M tworld unit :=
  modify (fun '(t, w) => (f t, w)).

Definition same_session (session x : session_entry) : bool := Pos.eqb (se_loc x) (se_loc session).

(** [list_del(&session->list_hook)] *)
Definition list_del (session : session_entry) (t : session_table) : session_table :=
  let del x := set_sessions (List.filter (fun s => negb (same_session session s)) (et_sessions x)) x in
  put_timer EST_TIMER (del (est_timer t)) (put_timer TRANS_TIMER (del (trans_timer t)) t).

(** [list_add_tail(&session->list_hook, &expirer->sessions)] *)
Definition list_add_tail (session : session_entry) (k : timer_kind) (t : session_table) : session_table :=
  put_timer k (set_sessions (et_sessions (get_timer k t) ++ [session]) (get_timer k t)) t.

Definition MIN_TIMER_SLEEP : Z := 255.

(** ** Comparisons *)

Definition compare_taddr6 (a1 a2 : ipv6_transport_addr) : Z :=
  lex_gap (ipv6_addr_cmp (l3_6 a1) (l3_6 a2)) (l4_6 a1 - l4_6 a2).

Definition compare_taddr4 (a1 a2 : ipv4_transport_addr) : Z :=
  lex_gap (ipv4_addr_cmp (l3_4 a1) (l3_4 a2)) (l4_4 a1 - l4_4 a2).

Definition compare_session6 (s1 s2 : session_entry) : Z :=
  lex_gap (compare_taddr6 (local6 s1) (local6 s2)) (compare_taddr6 (remote6 s1) (remote6 s2)).

(** Against a tuple: its source and its destination. *)
Definition session_compare_full6 (session : session_entry)
    (tuple6 : ipv6_transport_addr * ipv6_transport_addr) : Z :=
  lex_gap (compare_taddr6 (local6 session) (snd tuple6)) (compare_taddr6 (remote6 session) (fst tuple6)).

Definition compare_session4 (s1 s2 : session_entry) : Z :=
  lex_gap (compare_taddr4 (local4 s1) (local4 s2)) (compare_taddr4 (remote4 s1) (remote4 s2)).

Definition compare_addrs4 (session : session_entry)
    (tuple4 : ipv4_transport_addr * ipv4_transport_addr) : Z :=
  lex_gap (compare_taddr4 (local4 session) (snd tuple4))
    (ipv4_addr_cmp (l3_4 (remote4 session)) (l3_4 (fst tuple4))).

Definition session_compare_full4 (session : session_entry)
    (tuple4 : ipv4_transport_addr * ipv4_transport_addr) : Z :=
  lex_gap (compare_taddr4 (local4 session) (snd tuple4)) (compare_taddr4 (remote4 session) (fst tuple4)).

Definition get_by_ipv6 (t : session_table) (src dst : ipv6_transport_addr) : option session_entry :=
  rbtree_find session_compare_full6 (src, dst) (s_tree6 t).

Definition get_by_ipv4 (t : session_table) (src dst : ipv4_transport_addr) : option session_entry :=
  rbtree_find session_compare_full4 (src, dst) (s_tree4 t).

Definition sessiontable_find (t : session_table) (tup : tuple) : option session_entry :=
  match tup with
  | Tuple6 src dst _ => get_by_ipv6 t src dst
  | Tuple4 src dst _ => get_by_ipv4 t src dst
  end.

Definition sessiontable_allow (t : session_table) (src dst : ipv4_transport_addr) : bool :=
  match rbtree_find compare_addrs4 (src, dst) (s_tree4 t) with Some _ => true | None => false end.

Definition sessiontable_count (t : session_table) : Z := s_count t.

Definition init_expirer (timeout_cb : option (env -> Z)) (cb : option fate_cb) : expire_timer :=
  ExpireTimer None [] timeout_cb cb.

Definition sessiontable_init (est_timeout : option (env -> Z)) (est_callback : option fate_cb)
    (trans_timeout : option (env -> Z)) (trans_callback : option fate_cb) : session_table :=
  SessionTable Leaf Leaf 0 (init_expirer est_timeout est_callback)
    (init_expirer trans_timeout trans_callback).

Section Table.
Context {R : RbTree} (e : env).

(** [rm]; returns [rms] with the session at its front. *)
Definition session_rm (session : session_entry) (rms : list session_entry)
    : M tworld (list session_entry) :=
  upd_table (fun t => list_del session
    (SessionTable (rb_erase (same_session session) (s_tree6 t))
       (rb_erase (same_session session) (s_tree4 t)) (u64 (s_count t - 1)) (est_timer t) (trans_timer t)));;
  v ← on_sess (read_session session);
  on_sess (write_session session (set_expirer None v));;
  mret (session :: rms).

(** [delete] *)
Fixpoint delete_sessions (sessions : list session_entry) : M tworld unit :=
  match sessions with
  | [] => mret tt
  | session :: sessions => on_sess (session_return session);; delete_sessions sessions
  end.

Definition force_reschedule (k : timer_kind) : M tworld unit :=
  t ← get_table;
  match et_sessions (get_timer k t) with
  | [] => mret tt
  | first :: _ =>
      v ← on_sess (read_session first);
      match get_timeout (get_timer k t) with
      | None => fault
      | Some timeout =>
          let next_time := u64 (update_time v + timeout e) in
          let min_next_time := u64 (jiffies e + MIN_TIMER_SLEEP) in
          let next_time := if time_before next_time min_next_time then min_next_time else next_time in
          upd_table (put_timer k (mod_timer next_time (get_timer k t)))
      end
  end.

Definition reschedule (k : timer_kind) : M tworld unit :=
  t ← get_table;
  match timer (get_timer k t) with
  | Some _ => mret tt
  | None => force_reschedule k
  end.

(** Moves a session to the end of a timer's queue. *)
Definition restart_timer (session : session_entry) (k : timer_kind) : M tworld unit :=
  v ← on_sess (read_session session);
  on_sess (write_session session (set_expirer (Some k) (set_update_time (jiffies e) v)));;
  upd_table (fun t => list_add_tail session k (list_del session t));;
  reschedule k.

(** [lists]: the sessions to remove and the probes to send. *)
Definition decide_fate (cb : fate_cb) (session : session_entry)
    (lists : list session_entry * list session_entry)
    : M tworld (list session_entry * list session_entry) :=
  let '(rms, probes) := lists in
  v ← on_sess (read_session session);
  let '(fate, v) := cb e session v in
  on_sess (write_session session v);;
  match fate with
  | FATE_TIMER_EST => restart_timer session EST_TIMER;; mret (rms, probes)
  | FATE_PROBE =>
      tmp ← on_sess (session_clone session v);
      restart_timer session TRANS_TIMER;;
      mret (rms, match tmp with Some tmp => tmp :: probes | None => probes end)
  | FATE_TIMER_TRANS => restart_timer session TRANS_TIMER;; mret (rms, probes)
  | FATE_RM => rms ← session_rm session rms; mret (rms, probes)
  | FATE_PRESERVE => mret (rms, probes)
  end.

Definition probe_of (session : session_entry) : probe :=
  Probe (l3_6 (local6 session)) (l3_6 (remote6 session)) (l4_6 (local6 session))
    (l4_6 (remote6 session)) 255 true false false false.

Definition send_probe_packet (session : session_entry) : M tworld unit :=
  if probe_ok e session then on_world (emit (EvProbe (probe_of session))) else mret tt.

Fixpoint send_probes (probes : list session_entry) : M tworld unit :=
  match probes with
  | [] => mret tt
  | session :: probes =>
      send_probe_packet session;;
      on_sess (session_return session);;
      send_probes probes
  end.

Definition post_fate (lists : list session_entry * list session_entry) : M tworld unit :=
  let '(rms, probes) := lists in
  send_probes probes;;
  delete_sessions rms.

(** The hook after that of [session] in a list. *)
Fixpoint next_session (session : session_entry) (l : list session_entry) : option session_entry :=
  match l with
  | [] => None
  | x :: l => if same_session session x then head l else next_session session l
  end.

(** The loop of [cleaner_timer]: [cur] is the session it is at; the next one
    is read before the current one is moved.  Each iteration takes one unit
    of [fuel]. *)
Fixpoint cleaner_loop (fuel : nat) (k : timer_kind) (timeout : Z) (cur : option session_entry)
    (lists : list session_entry * list session_entry)
    : M tworld (list session_entry * list session_entry) :=
  match cur with
  | None => mret lists
  | Some session =>
      match fuel with
      | O => fault
      | S fuel =>
          t ← get_table;
          let tmp := next_session session (et_sessions (get_timer k t)) in
          v ← on_sess (read_session session);
          if time_before (jiffies e) (u64 (update_time v + timeout)) then mret lists
          else
            match decide_fate_cb (get_timer k t) with
            | None => fault
            | Some cb =>
                lists ← decide_fate cb session lists;
                cleaner_loop fuel k timeout tmp lists
            end
      end
  end.

(** The timer is no longer pending when its function runs. *)
Definition clear_timer (k : timer_kind) (t : session_table) : session_table :=
  put_timer k (ExpireTimer None (et_sessions (get_timer k t)) (get_timeout (get_timer k t))
                 (decide_fate_cb (get_timer k t))) t.

Definition cleaner_timer (fuel : nat) (k : timer_kind) : M tworld unit :=
  t ← get_table;
  match get_timeout (get_timer k t) with
  | None => fault
  | Some timeout =>
      lists ← cleaner_loop fuel k (timeout e) (head (et_sessions (get_timer k t))) ([], []);
      t ← get_table;
      match et_sessions (get_timer k t) with [] => mret tt | _ => reschedule k end;;
      post_fate lists
  end.

(** The kernel runs an expired timer. *)
Definition fire_timer (fuel : nat) (k : timer_kind) : M tworld unit :=
  upd_table (clear_timer k);; cleaner_timer fuel k.

Definition sessiontable_get (tup : tuple) (cb : option fate_cb) : M tworld (result session_entry) :=
  t ← get_table;
  match sessiontable_find t tup with
  | None => mret (Err ESRCH)
  | Some session =>
      on_sess (session_get session);;
      match cb with
      | Some cb => lists ← decide_fate cb session ([], []); post_fate lists
      | None => mret tt
      end;;
      mret (Ok session)
  end.

Definition attach_timer (session : session_entry) (k : timer_kind) : M tworld unit :=
  v ← on_sess (read_session session);
  on_sess (write_session session (set_expirer (Some k) (set_update_time (jiffies e) v)));;
  upd_table (list_add_tail session k);;
  reschedule k.

Definition sessiontable_add (session : session_entry) (is_established : bool) : M tworld (result unit) :=
  on_world (pktqueue_remove session);;
  t ← get_table;
  match rbtree_add compare_session6 session session (s_tree6 t) with
  | Err error => mret (Err error)
  | Ok tree6 =>
      match rbtree_add compare_session4 session session (s_tree4 t) with
      | Err error =>
          upd_table (fun t => SessionTable (rb_erase (same_session session) tree6) (s_tree4 t) (s_count t)
                                (est_timer t) (trans_timer t));;
          mret (Err error)
      | Ok tree4 =>
          upd_table (fun t => SessionTable tree6 tree4 (s_count t) (est_timer t) (trans_timer t));;
          attach_timer session (if is_established then EST_TIMER else TRANS_TIMER);;
          on_sess (session_get session);;
          upd_table (fun t => SessionTable (s_tree6 t) (s_tree4 t) (u64 (s_count t + 1))
                                (est_timer t) (trans_timer t));;
          mret (Ok tt)
      end
  end.

(** [sessiontable_foreach] for callbacks that leave the table alone. *)
Definition sessiontable_foreach {B} (func : session_entry -> B -> Z * B) (t : session_table) (arg : B)
    (offset_remote offset_local : option ipv4_transport_addr) : Z * B :=
  let offset := match offset_remote, offset_local with
                | Some r, Some l => Some (r, l)
                | _, _ => None
                end in
  run_until func (find_starting_point session_compare_full4 (s_tree4 t) offset false) arg.

(** [__foreach] for the callbacks that unlink the session they are given
    ([inr]) or stop ([inl]). *)
Fixpoint foreach_rm (func : session_entry -> option bool) (nodes : list session_entry)
    (removed : list session_entry) : M tworld (list session_entry) :=
  match nodes with
  | [] => mret removed
  | session :: nodes =>
      match func session with
      | None => mret removed  (* 1: break *)
      | Some false => foreach_rm func nodes removed
      | Some true => removed ← session_rm session removed; foreach_rm func nodes removed
      end
  end.

Definition TADDR4_ZERO : ipv4_transport_addr := TAddr4 (InAddr 0) 0.
Definition TADDR6_ZERO : ipv6_transport_addr := TAddr6 (In6Addr 0) 0.

Definition rm_by_bib (addr4 : ipv4_transport_addr) (session : session_entry) : option bool :=
  if negb (ipv4_transport_addr_equals (Some addr4) (Some (local4 session))) then None else Some true.

Definition sessiontable_delete_by_bib (bib : bib_entry) : M tworld unit :=
  t ← get_table;
  removed ← foreach_rm (rm_by_bib (bib_ipv4 bib))
    (find_starting_point session_compare_full4 (s_tree4 t) (Some (TADDR4_ZERO, bib_ipv4 bib)) true) [];
  delete_sessions removed.

Definition rm_taddr4s (prefix : ipv4_prefix) (ports : port_range) (session : session_entry) : option bool :=
  if negb (prefix4_contains prefix (l3_4 (local4 session))) then None
  else if negb (port_range_contains ports (l4_4 (local4 session))) then Some false
  else Some true.

Definition sessiontable_delete_taddr4s (prefix : ipv4_prefix) (ports : port_range) : M tworld unit :=
  t ← get_table;
  removed ← foreach_rm (rm_taddr4s prefix ports)
    (find_starting_point session_compare_full4 (s_tree4 t)
       (Some (TADDR4_ZERO, TAddr4 (p4_address prefix) (r_min ports))) true) [];
  delete_sessions removed.

Definition rm_taddr6s (prefix : ipv6_prefix) (session : session_entry) : option bool :=
  if negb (prefix6_contains prefix (l3_6 (local6 session))) then None else Some true.

Definition find_starting_point6 (t : session_table) (local : ipv6_transport_addr) : list session_entry :=
  find_starting_point session_compare_full6 (s_tree6 t) (Some (TADDR6_ZERO, local)) true.

Definition sessiontable_delete_taddr6s (prefix : ipv6_prefix) : M tworld unit :=
  t ← get_table;
  removed ← foreach_rm (rm_taddr6s prefix) (find_starting_point6 t (TAddr6 (p6_address prefix) 0)) [];
  delete_sessions removed.

Definition sessiontable_flush : M tworld unit :=
  t ← get_table;
  removed ← foreach_rm (fun _ => Some true)
    (find_starting_point session_compare_full4 (s_tree4 t) None false) [];
  delete_sessions removed.

Definition sessiontable_update_timers : M tworld unit :=
  force_reschedule EST_TIMER;; force_reschedule TRANS_TIMER.

End Table.
