(* ===== verification/Tcp.v ===== *)
(** * The TCP state machine

    The callbacks of [mod/stateful/filtering_and_updating.c] that decide the
    fate of a session: the state machine of RFC 6146, section 3.5.2, driven
    by the packets of a connection, and what happens when its time is over.
    The packet is read through its TCP flags and the side it comes from. *)
From S2P Require Import Prelude Types Address RbTree BibTable BibDb Packet SessionEntry PktQueue SessionTable.

(** ** Callbacks *)

(** [mod/stateful/session/db.c] *)
Definition just_die : fate_cb := fun _ _ v => (FATE_RM, v).

Definition update_timer : fate_cb := fun _ _ v => (FATE_TIMER_EST, v).

Definition expired_cb : fate_cb := fun e _ v =>
  match state v with
  | ESTABLISHED => (FATE_PROBE, set_update_time (jiffies e) (set_state TRANS v))
  | V4_INIT | V6_INIT | V4_FIN_RCV | V6_FIN_RCV | V4_FIN_V6_FIN_RCV | TRANS =>
      (FATE_RM, set_state CLOSED v)
  | CLOSED => (FATE_RM, v)
  end.

Section Machine.
Variable pkt : packet.

Definition tcp_v4_init_state (v : session_vars) : session_fate * session_vars :=
  if bool_decide (pkt_l3_proto pkt = L3PROTO_IPV6) && pkt_syn pkt
  then (FATE_TIMER_EST, set_state ESTABLISHED v)
  else (FATE_PRESERVE, v).

Definition tcp_v6_init_state (v : session_vars) : session_fate * session_vars :=
  if pkt_syn pkt then
    match pkt_l3_proto pkt with
    | L3PROTO_IPV4 => (FATE_TIMER_EST, set_state ESTABLISHED v)
    | L3PROTO_IPV6 => (FATE_TIMER_TRANS, v)
    end
  else (FATE_PRESERVE, v).

Definition tcp_established_state (v : session_vars) : session_fate * session_vars :=
  if pkt_fin pkt then
    match pkt_l3_proto pkt with
    | L3PROTO_IPV4 => (FATE_PRESERVE, set_state V4_FIN_RCV v)
    | L3PROTO_IPV6 => (FATE_PRESERVE, set_state V6_FIN_RCV v)
    end
  else if pkt_rst pkt then (FATE_TIMER_TRANS, set_state TRANS v)
  else (FATE_TIMER_EST, v).

Definition tcp_v4_fin_rcv_state (v : session_vars) : session_fate * session_vars :=
  if bool_decide (pkt_l3_proto pkt = L3PROTO_IPV6) && pkt_fin pkt
  then (FATE_TIMER_TRANS, set_state V4_FIN_V6_FIN_RCV v)
  else (FATE_TIMER_EST, v).

Definition tcp_v6_fin_rcv_state (v : session_vars) : session_fate * session_vars :=
  if bool_decide (pkt_l3_proto pkt = L3PROTO_IPV4) && pkt_fin pkt
  then (FATE_TIMER_TRANS, set_state V4_FIN_V6_FIN_RCV v)
  else (FATE_TIMER_EST, v).

Definition tcp_v4_fin_v6_fin_rcv_state (v : session_vars) : session_fate * session_vars :=
  (FATE_PRESERVE, v).

Definition tcp_trans_state (v : session_vars) : session_fate * session_vars :=
  if negb (pkt_rst pkt) then (FATE_TIMER_EST, set_state ESTABLISHED v)
  else (FATE_PRESERVE, v).

Definition tcp_state_machine : fate_cb := fun _ _ v =>
  match state v with
  | V4_INIT => tcp_v4_init_state v
  | V6_INIT => tcp_v6_init_state v
  | ESTABLISHED => tcp_established_state v
  | V4_FIN_RCV => tcp_v4_fin_rcv_state v
  | V6_FIN_RCV => tcp_v6_fin_rcv_state v
  | V4_FIN_V6_FIN_RCV => tcp_v4_fin_v6_fin_rcv_state v
  | TRANS => tcp_trans_state v
  | CLOSED => (FATE_RM, v)
  end.
End Machine.

(** ** The life of a session *)

(** What can happen to a session. *)
Inductive tcp_input : Type :=
| InPkt (pkt : packet)
| InExpire (e : env).

(** What the callback of an input decides. *)
Definition tcp_decide (e : env) (s : session_entry) (v : session_vars) (i : tcp_input)
    : session_fate * session_vars :=
  match i with
  | InPkt pkt => tcp_state_machine pkt e s v
  | InExpire e' => expired_cb e' s v
  end.

(** The state after an input; [None] once the session is removed. *)
Definition tcp_next (e : env) (s : session_entry) (v : session_vars) (i : tcp_input)
    : option session_vars :=
  let '(fate, v') := tcp_decide e s v i in
  match fate with FATE_RM => None | _ => Some v' end.

Fixpoint tcp_run (e : env) (s : session_entry) (v : session_vars) (l : list tcp_input)
    : option session_vars :=
  match l with
  | [] => Some v
  | i :: l => match tcp_next e s v i with None => None | Some v => tcp_run e s v l end
  end.

(** A packet of a list, by side and flag. *)
Definition seen (side : l3_protocol) (flag : packet -> bool) (l : list tcp_input) : Prop :=
  exists pkt, InPkt pkt ∈ l /\ pkt_l3_proto pkt = side /\ flag pkt = true.

Definition expirations (l : list tcp_input) : nat :=
  length (List.filter (fun i => match i with InExpire _ => true | InPkt _ => false end) l).

Lemma seen_cons side flag i l : seen side flag l -> seen side flag (i :: l).
Proof. intros (pkt & Hin & H). exists pkt. split; [right; done|done]. Qed.

Lemma seen_here side flag pkt l :
  pkt_l3_proto pkt = side -> flag pkt = true -> seen side flag (InPkt pkt :: l).
Proof. intros H1 H2. exists pkt. split; [left|done]. Qed.

Lemma seen_app_l side flag l l' : seen side flag l -> seen side flag (l ++ l').
Proof. intros (pkt & Hin & H). exists pkt. split; [apply elem_of_app; auto|done]. Qed.

Lemma tcp_run_app e s v l l' :
  tcp_run e s v (l ++ l') =
  match tcp_run e s v l with None => None | Some v => tcp_run e s v l' end.
Proof.
  revert v. induction l as [|i l IH]; intros v; simpl; [done|]. destruct (tcp_next e s v i); [apply IH|done].
Qed.

(** The edges of the diagram of RFC 6146, section 3.5.2: what makes a session
    change its state. *)
Inductive tcp_edge : tcp_state -> tcp_input -> tcp_state -> Prop :=
| edge_v6_open pkt :
    pkt_l3_proto pkt = L3PROTO_IPV4 -> pkt_syn pkt = true -> tcp_edge V6_INIT (InPkt pkt) ESTABLISHED
| edge_v4_open pkt :
    pkt_l3_proto pkt = L3PROTO_IPV6 -> pkt_syn pkt = true -> tcp_edge V4_INIT (InPkt pkt) ESTABLISHED
| edge_v4_fin pkt :
    pkt_l3_proto pkt = L3PROTO_IPV4 -> pkt_fin pkt = true -> tcp_edge ESTABLISHED (InPkt pkt) V4_FIN_RCV
| edge_v6_fin pkt :
    pkt_l3_proto pkt = L3PROTO_IPV6 -> pkt_fin pkt = true -> tcp_edge ESTABLISHED (InPkt pkt) V6_FIN_RCV
| edge_v4_fin_v6 pkt :
    pkt_l3_proto pkt = L3PROTO_IPV6 -> pkt_fin pkt = true -> tcp_edge V4_FIN_RCV (InPkt pkt) V4_FIN_V6_FIN_RCV
| edge_v6_fin_v4 pkt :
    pkt_l3_proto pkt = L3PROTO_IPV4 -> pkt_fin pkt = true -> tcp_edge V6_FIN_RCV (InPkt pkt) V4_FIN_V6_FIN_RCV
| edge_rst pkt :
    pkt_rst pkt = true -> pkt_fin pkt = false -> tcp_edge ESTABLISHED (InPkt pkt) TRANS
| edge_revive pkt : pkt_rst pkt = false -> tcp_edge TRANS (InPkt pkt) ESTABLISHED
| edge_idle e : tcp_edge ESTABLISHED (InExpire e) TRANS.

Lemma tcp_next_edge e s v i v' :
  tcp_next e s v i = Some v' ->
  state v <> CLOSED /\ (state v' = state v \/ tcp_edge (state v) i (state v')).
Proof.
  unfold tcp_next, tcp_decide, tcp_state_machine, expired_cb, tcp_v4_init_state, tcp_v6_init_state,
    tcp_established_state, tcp_v4_fin_rcv_state, tcp_v6_fin_rcv_state, tcp_v4_fin_v6_fin_rcv_state,
    tcp_trans_state.
  destruct i as [pkt|e']; destruct (state v) eqn:Est; try done;
    destruct (pkt_l3_proto pkt) eqn:E3 || idtac; try (destruct (pkt_syn pkt) eqn:Esyn);
    try (destruct (pkt_fin pkt) eqn:Efin); try (destruct (pkt_rst pkt) eqn:Erst); simpl;
    intros [= <-]; simpl; (split; [done|]);
    first [ left; congruence | right; constructor; done ].
Qed.

(** The machine follows every edge of the diagram. *)
Lemma tcp_edge_next e s v i st' :
  tcp_edge (state v) i st' -> exists v', tcp_next e s v i = Some v' /\ state v' = st'.
Proof.
  unfold tcp_next, tcp_decide, tcp_state_machine, expired_cb, tcp_v4_init_state, tcp_v6_init_state,
    tcp_established_state, tcp_v4_fin_rcv_state, tcp_v6_fin_rcv_state, tcp_trans_state.
  destruct (state v) eqn:Est; intros Hedge; inversion Hedge as [pkt H1 H2|pkt H1 H2|pkt H1 H2|pkt H1 H2|pkt H1 H2|pkt H1 H2|pkt H1 H2|pkt H1|e'];
    subst; rewrite ?H1, ?H2; simpl; rewrite ?andb_false_r; eauto.
Qed.

(** What a history tells about the state it leads to, for a session opened
    in state [init] whose answer is a SYN of [side]. *)
Definition tcp_evidence (init : tcp_state) (side : l3_protocol) (l : list tcp_input) (st : tcp_state) : Prop :=
  st <> CLOSED /\
  (st = init \/ (st <> V6_INIT /\ st <> V4_INIT /\ seen side pkt_syn l)) /\
  (st = V4_FIN_RCV -> seen L3PROTO_IPV4 pkt_fin l) /\
  (st = V6_FIN_RCV -> seen L3PROTO_IPV6 pkt_fin l) /\
  (st = V4_FIN_V6_FIN_RCV -> seen L3PROTO_IPV4 pkt_fin l /\ seen L3PROTO_IPV6 pkt_fin l).

Lemma seen_snoc side flag pkt l :
  pkt_l3_proto pkt = side -> flag pkt = true -> seen side flag (l ++ [InPkt pkt]).
Proof. intros H1 H2. exists pkt. split; [apply elem_of_app; right; left|done]. Qed.

Lemma tcp_evidence_more init side l i st :
  tcp_evidence init side l st -> tcp_evidence init side (l ++ [i]) st.
Proof.
  intros (E0 & E1 & E2 & E3 & E4). split; [done|]. split; [|split_and!].
  - destruct E1 as [?|(?&?&?)]; [auto|]. right. auto using seen_app_l.
  - auto using seen_app_l.
  - auto using seen_app_l.
  - intros H. destruct (E4 H). auto using seen_app_l.
Qed.

Lemma tcp_evidence_edge init side l i st st' :
  (init = V6_INIT /\ side = L3PROTO_IPV4) \/ (init = V4_INIT /\ side = L3PROTO_IPV6) ->
  tcp_evidence init side l st -> tcp_edge st i st' -> tcp_evidence init side (l ++ [i]) st'.
Proof.
  intros Hinit (E0 & E1 & E2 & E3 & E4) Hedge.
  assert (Hopen : st <> V6_INIT -> st <> V4_INIT -> seen side pkt_syn (l ++ [i])).
  { intros H1 H2. destruct E1 as [->|(_ & _ & H)]; [|apply seen_app_l; done].
    destruct Hinit as [[-> _]|[-> _]]; done. }
  destruct Hedge; split; try done; (split; [right; split; [done|split; [done|]]|split_and!; try done]);
    try (apply Hopen; done); try (intros _; apply seen_snoc; done).
  - destruct E1 as [<-|(? & _)]; [|done]. destruct Hinit as [[_ ->]|[? _]]; [|done]. apply seen_snoc; done.
  - destruct E1 as [<-|(_ & ? & _)]; [|done]. destruct Hinit as [[? _]|[_ ->]]; [done|]. apply seen_snoc; done.
  - intros _. split; [apply seen_app_l; auto | apply seen_snoc; done].
  - intros _. split; [apply seen_snoc; done | apply seen_app_l; auto].
Qed.

Lemma tcp_run_evidence init side e s l v v' :
  (init = V6_INIT /\ side = L3PROTO_IPV4) \/ (init = V4_INIT /\ side = L3PROTO_IPV6) ->
  state v = init -> tcp_run e s v l = Some v' -> tcp_evidence init side l (state v').
Proof.
  intros Hinit Hv. revert v'. induction l as [|i l IH] using rev_ind; intros v' Hrun.
  - injection Hrun as <-. rewrite Hv.
    destruct Hinit as [[-> _]|[-> _]]; split; try done; (split; [auto|split_and!; done]).
  - rewrite tcp_run_app in Hrun. destruct (tcp_run e s v l) as [v1|]; [|done].
    specialize (IH v1 eq_refl). simpl in Hrun.
    destruct (tcp_next e s v1 i) as [v2|] eqn:En; [|done]. injection Hrun as <-.
    apply tcp_next_edge in En as [_ [->|Hedge]].
    + apply tcp_evidence_more. done.
    + eapply tcp_evidence_edge; done.
Qed.

(** How a session ends. *)
Lemma tcp_next_none e s v i :
  tcp_next e s v i = None -> state v <> CLOSED ->
  (exists e', i = InExpire e') /\ state v <> ESTABLISHED.
Proof.
  unfold tcp_next, tcp_decide, tcp_state_machine, expired_cb, tcp_v4_init_state, tcp_v6_init_state,
    tcp_established_state, tcp_v4_fin_rcv_state, tcp_v6_fin_rcv_state, tcp_v4_fin_v6_fin_rcv_state,
    tcp_trans_state.
  intros H Hc. split.
  - destruct i as [pkt|e']; [|eauto]. exfalso. destruct (state v); try done;
      destruct (pkt_l3_proto pkt), (pkt_syn pkt), (pkt_fin pkt), (pkt_rst pkt); done.
  - intros E. rewrite E in H. destruct i as [pkt|e']; [|done].
    destruct (pkt_l3_proto pkt), (pkt_fin pkt), (pkt_rst pkt); done.
Qed.

Lemma expirations_cons i l :
  expirations (i :: l) = ((match i with InExpire _ => 1 | InPkt _ => 0 end) + expirations l)%nat.
Proof. unfold expirations. destruct i; done. Qed.

(** A packet that asks for the end of the connection. *)
Definition closing (l : list tcp_input) : Prop :=
  exists pkt, InPkt pkt ∈ l /\ pkt_fin pkt || pkt_rst pkt = true.

Lemma closing_cons i l : closing l -> closing (i :: l).
Proof. intros (pkt & Hin & H). exists pkt. split; [right; done|done]. Qed.

Lemma closing_here pkt l : pkt_fin pkt || pkt_rst pkt = true -> closing (InPkt pkt :: l).
Proof. intros H. exists pkt. split; [left|done]. Qed.

(** The history has an expiration of the established session, at which the
    other end is probed, and another expiration after it. *)
Definition probed_in (e : env) (s : session_entry) (v : session_vars) (l : list tcp_input) : Prop :=
  exists la e' lb v2, l = la ++ InExpire e' :: lb /\ tcp_run e s v la = Some v2 /\ state v2 = ESTABLISHED /\
    fst (tcp_decide e s v2 (InExpire e')) = FATE_PROBE /\ (1 <= expirations lb)%nat.

Lemma probed_in_cons e s v i v1 l : tcp_next e s v i = Some v1 -> probed_in e s v1 l -> probed_in e s v (i :: l).
Proof.
  intros Hn (la & e' & lb & v2 & -> & Hrun & H). exists (i :: la), e', lb, v2. split; [done|]. split; [|done].
  simpl. rewrite Hn. exact Hrun.
Qed.

Lemma tcp_run_ends e s l : forall v,
  tcp_run e s v l = None -> state v <> CLOSED ->
  (1 <= expirations l)%nat /\ (state v = ESTABLISHED -> probed_in e s v l \/ closing l).
Proof.
  induction l as [|i l IH]; intros v Hrun Hc; [done|]. simpl in Hrun. rewrite expirations_cons.
  destruct (tcp_next e s v i) as [v1|] eqn:En.
  - pose proof (tcp_next_edge _ _ _ _ _ En) as (_ & Hst).
    assert (Hc1 : state v1 <> CLOSED) by (destruct Hst as [->|Hedge]; [done|inversion Hedge; done]).
    destruct (IH v1 Hrun Hc1) as [H1 H2]. split; [lia|]. intros E.
    destruct Hst as [Est|Hedge].
    + destruct H2 as [?|Hs]; [congruence|left; eapply probed_in_cons; done|right; apply closing_cons; done].
    + rewrite E in Hedge. inversion Hedge as [| |pkt Hp Hf|pkt Hp Hf| | |pkt Hr Hf| |e']; subst.
      * right. apply closing_here. rewrite Hf. done.
      * right. apply closing_here. rewrite Hf. done.
      * right. apply closing_here. rewrite Hr. apply orb_true_r.
      * left. exists [], e', l, v. split_and!; try done. simpl. unfold expired_cb. rewrite E. done.
  - destruct (tcp_next_none _ _ _ _ En Hc) as [[e' ->] Hne]. split; [lia|]. intros E. congruence.
Qed.

(** The only decision to probe is that of an established session's time. *)
Lemma tcp_probe_iff e s v i :
  fst (tcp_decide e s v i) = FATE_PROBE <-> state v = ESTABLISHED /\ exists e', i = InExpire e'.
Proof.
  unfold tcp_decide, tcp_state_machine, expired_cb, tcp_v4_init_state, tcp_v6_init_state,
    tcp_established_state, tcp_v4_fin_rcv_state, tcp_v6_fin_rcv_state, tcp_v4_fin_v6_fin_rcv_state,
    tcp_trans_state. split.
  - destruct i as [pkt|e']; destruct (state v); try done; [..|eauto];
      destruct (pkt_l3_proto pkt), (pkt_syn pkt), (pkt_fin pkt), (pkt_rst pkt); done.
  - intros [-> [e' ->]]. done.
Qed.

(** C19: the life of a TCP session, over any sequence of packets and
    expirations.  A session opened by a SYN of one side leaves its initial
    state only after a SYN of the other side has been seen; it is waiting for
    one side's FIN only if the other side's has been seen, and considered
    closed by both only if both have been.  No packet removes a session, so
    it ends by expiring, and an established one that nobody asked to close
    has to expire twice: the first time it is established and the decision is
    to send a probe.  At any moment an input changes the state if and only if
    RFC 6146's diagram has an edge for it, and to the state the edge leads to;
    and the decision is to send a probe if and only if the session is
    established and its time is over. *)
Theorem tcp_session_life e s v l
    (Hinit : state v = V6_INIT \/ state v = V4_INIT) :
  (forall v', tcp_run e s v l = Some v' ->
     tcp_evidence (state v) (if decide (state v = V6_INIT) then L3PROTO_IPV4 else L3PROTO_IPV6) l (state v')) /\
  (tcp_run e s v l = None -> (1 <= expirations l)%nat) /\
  (forall l1 l2 v1, l = l1 ++ l2 -> tcp_run e s v l1 = Some v1 -> state v1 = ESTABLISHED ->
     tcp_run e s v l = None -> probed_in e s v1 l2 \/ closing l2) /\
  (forall v1 i st', tcp_run e s v l = Some v1 ->
     (exists v2, tcp_next e s v1 i = Some v2 /\ state v2 = st' /\ st' <> state v1) <-> tcp_edge (state v1) i st') /\
  (forall v1 i, tcp_run e s v l = Some v1 ->
     fst (tcp_decide e s v1 i) = FATE_PROBE <-> state v1 = ESTABLISHED /\ exists e', i = InExpire e').
Proof.
  split; [|split; [|split; [|split]]].
  - intros v' Hrun. eapply tcp_run_evidence; [|reflexivity|exact Hrun].
    destruct Hinit as [->| ->]; [left|right]; done.
  - intros Hrun. destruct (tcp_run_ends e s l v Hrun); [|done]. destruct Hinit; congruence.
  - intros l1 l2 v1 -> H1 Hst Hrun. rewrite tcp_run_app, H1 in Hrun.
    destruct (tcp_run_ends e s l2 v1 Hrun) as [_ H]; [congruence|]. auto.
  - intros v1 i st' _. split.
    + intros (v2 & Hn & <- & Hne). destruct (tcp_next_edge _ _ _ _ _ Hn) as [_ [?|?]]; done.
    + intros Hedge. destruct (tcp_edge_next e s v1 i st' Hedge) as (v2 & Hn & E). exists v2. split; [done|].
      split; [done|]. inversion Hedge; congruence.
  - intros v1 i _. apply tcp_probe_iff.
Qed.

Lemma tcp_session_life_witness :
  let syn := Packet 1 1 L3PROTO_IPV4 L4PROTO_TCP 0 (In6Addr 0) (In6Addr 0) true false false 0 in
  let v := SessionVars 0 1 V6_INIT None in
  tcp_run env_q session_q v [InPkt syn] = Some (SessionVars 0 1 ESTABLISHED None) /\
  seen L3PROTO_IPV4 pkt_syn [InPkt syn].
Proof.
  intros syn v. split; [reflexivity|].
  destruct (tcp_session_life env_q session_q v [InPkt syn] (or_introl eq_refl)) as [H _].
  destruct (H (SessionVars 0 1 ESTABLISHED None) eq_refl) as (_ & [E|(_ & _ & Hs)] & _); [discriminate E|].
  exact Hs.
Defined.
