(* ===== verification/SessionSpec.v ===== *)
(** * What the session tables promise

    The invariant of a session table and what each operation of
    [SessionTable] does to it.

    [ok] says which states a session may have in each of the two queues; it
    is a parameter, since it depends on the protocol, and so are the functions
    of its timers ([fns]).  The callbacks keep it
    ([cb_ok]).  References are accounted for as in [PktQueue]: [srefs] counts
    the holders of a session other than the table and the packet queue. *)
From S2P Require Import Prelude Types Address RbTree BibTable BibDb Packet SessionEntry PktQueue SessionTable.

(** ** Keys *)

Definition key4 (s : session_entry) : Z := taddr4_key (local4 s) * 2 ^ 48 + taddr4_key (remote4 s).
Definition key6 (s : session_entry) : Z := taddr6_key (local6 s) * 2 ^ 144 + taddr6_key (remote6 s).

Definition pair_key4 (k : ipv4_transport_addr * ipv4_transport_addr) : Z :=
  taddr4_key (snd k) * 2 ^ 48 + taddr4_key (fst k).
Definition pair_key6 (k : ipv6_transport_addr * ipv6_transport_addr) : Z :=
  taddr6_key (snd k) * 2 ^ 144 + taddr6_key (fst k).

Lemma taddr4_key_range a : wf_taddr4 a -> 0 <= taddr4_key a < 2 ^ 48.
Proof. unfold wf_taddr4, wf_addr4, is_u32, is_u16, taddr4_key. lia. Qed.

Lemma taddr6_key_range a : wf_taddr6 a -> 0 <= taddr6_key a < 2 ^ 144.
Proof. unfold wf_taddr6, wf_addr6, is_u16, taddr6_key. lia. Qed.

Lemma compare_taddr4_sgn a b : wf_taddr4 a -> wf_taddr4 b ->
  Z.sgn (compare_taddr4 a b) = Z.sgn (taddr4_key a - taddr4_key b).
Proof. apply taddr4_key_sgn. Qed.

Lemma compare_taddr6_sgn a b : wf_taddr6 a -> wf_taddr6 b ->
  Z.sgn (compare_taddr6 a b) = Z.sgn (taddr6_key a - taddr6_key b).
Proof. apply taddr6_key_sgn. Qed.

Definition wf_pair4 (k : ipv4_transport_addr * ipv4_transport_addr) : Prop :=
  wf_taddr4 (fst k) /\ wf_taddr4 (snd k).
Definition wf_pair6 (k : ipv6_transport_addr * ipv6_transport_addr) : Prop :=
  wf_taddr6 (fst k) /\ wf_taddr6 (snd k).

Lemma full4_sgn s k : session_wf s -> wf_pair4 k ->
  Z.sgn (session_compare_full4 s k) = Z.sgn (key4 s - pair_key4 k).
Proof.
  intros (_ & _ & Hl & Hr) [K1 K2]. unfold session_compare_full4, key4, pair_key4.
  apply lex_gap_sgn; auto using taddr4_key_range, compare_taddr4_sgn.
Qed.

Lemma full6_sgn s k : session_wf s -> wf_pair6 k ->
  Z.sgn (session_compare_full6 s k) = Z.sgn (key6 s - pair_key6 k).
Proof.
  intros (Hr & Hl & _ & _) [K1 K2]. unfold session_compare_full6, key6, pair_key6.
  apply lex_gap_sgn; auto using taddr6_key_range, compare_taddr6_sgn.
Qed.

Lemma session4_sgn s s' : session_wf s -> session_wf s' ->
  Z.sgn (compare_session4 s s') = Z.sgn (key4 s - key4 s').
Proof.
  intros Hs (_ & _ & Hl & Hr). exact (full4_sgn s (remote4 s', local4 s') Hs (conj Hr Hl)).
Qed.

Lemma session6_sgn s s' : session_wf s -> session_wf s' ->
  Z.sgn (compare_session6 s s') = Z.sgn (key6 s - key6 s').
Proof.
  intros Hs (Hr & Hl & _ & _). exact (full6_sgn s (remote6 s', local6 s') Hs (conj Hr Hl)).
Qed.

Lemma key4_eq s k : session_wf s -> wf_pair4 k ->
  key4 s = pair_key4 k <-> local4 s = snd k /\ remote4 s = fst k.
Proof.
  intros (_ & _ & Hl & Hr) [K1 K2]. unfold key4, pair_key4. split.
  - intros E. pose proof (taddr4_key_range _ Hr). pose proof (taddr4_key_range _ K1).
    split; apply taddr4_key_inj; (done || lia).
  - intros [-> ->]. done.
Qed.

Lemma key6_eq s k : session_wf s -> wf_pair6 k ->
  key6 s = pair_key6 k <-> local6 s = snd k /\ remote6 s = fst k.
Proof.
  intros (Hr & Hl & _ & _) [K1 K2]. unfold key6, pair_key6. split.
  - intros E. pose proof (taddr6_key_range _ Hr). pose proof (taddr6_key_range _ K1).
    split; apply taddr6_key_inj; (done || lia).
  - intros [-> ->]. done.
Qed.

(** ** The invariant *)

Definition s_entries (t : session_table) : list session_entry := inorder (s_tree4 t).

Definition table_refs (t : session_table) : positive -> Z := refs_in se_loc (s_entries t).

Section Inv.
Variable proto : l4_protocol.
Variable ok : timer_kind -> tcp_state -> Prop.
Variable fns : timer_kind -> option (env -> Z) * option fate_cb.

(** The function pointers of the timers that can hold sessions are not NULL. *)
Hypothesis fns_some : forall k st, ok k st -> is_Some (fst (fns k)) /\ is_Some (snd (fns k)).

(** The timers have the function pointers of the table's protocol. *)
Definition timers_set (t : session_table) : Prop :=
  forall k, get_timeout (get_timer k t) = fst (fns k) /\ decide_fate_cb (get_timer k t) = snd (fns k).

(** Both indexes hold the same sessions, and so do the two queues. *)
Definition session_table_inv (t : session_table) : Prop :=
  sorted_by key4 (s_entries t) /\ sorted_by key6 (inorder (s_tree6 t)) /\
  inorder (s_tree6 t) ≡ₚ s_entries t /\
  et_sessions (est_timer t) ++ et_sessions (trans_timer t) ≡ₚ s_entries t /\
  NoDup (se_loc <$> s_entries t) /\
  Forall (fun s => session_wf s /\ se_l4_proto s = proto) (s_entries t) /\
  s_count t = u64 (Z.of_nat (length (s_entries t))) /\
  timers_set t.

(** The sessions of a queue know it and are in a state that belongs there. *)
Definition queues_ok (t : session_table) (s : store) : Prop :=
  forall k x, x ∈ et_sessions (get_timer k t) ->
    exists v, live s x v /\ expirer v = Some k /\ ok k (state v).

Definition tworld_inv (brefs srefs : positive -> Z) (tw : tworld) : Prop :=
  world_inv brefs (fun l => srefs l + table_refs (fst tw) l) (snd tw) /\
  (forall l, 0 <= srefs l) /\
  session_table_inv (fst tw) /\ queues_ok (fst tw) (w_store (snd tw)).

(** A queue with sessions has its timer pending. *)
Definition armed (k : timer_kind) (t : session_table) : Prop :=
  et_sessions (get_timer k t) <> [] -> is_Some (timer (get_timer k t)).

(** The callbacks keep [ok]. *)
Definition cb_ok (cb : fate_cb) : Prop :=
  forall e s v k, expirer v = Some k -> ok k (state v) ->
    let '(fate, v') := cb e s v in
    se_refcounter v' = se_refcounter v /\ expirer v' = expirer v /\
    match fate with
    | FATE_TIMER_EST => ok EST_TIMER (state v')
    | FATE_TIMER_TRANS | FATE_PROBE => ok TRANS_TIMER (state v')
    | FATE_PRESERVE => ok k (state v')
    | FATE_RM => True
    end.

Lemma world_inv_ext brefs srefs srefs' w :
  world_inv brefs srefs w -> (forall l, srefs' l = srefs l) -> world_inv brefs srefs' w.
Proof.
  intros (H1 & H2 & H3) He. split; [|split; [|exact H3]].
  - eapply store_inv_ext; [exact H1|]. intros l. simpl. rewrite He. done.
  - intros l. rewrite He. done.
Qed.

Lemma tworld_inv_ext brefs srefs srefs' tw :
  tworld_inv brefs srefs tw -> (forall l, srefs' l = srefs l) -> tworld_inv brefs srefs' tw.
Proof.
  intros (Hw & Hs & Ht) He. split; [|split; [intros l; rewrite He; done|exact Ht]].
  eapply world_inv_ext; [exact Hw|]. intros l. simpl. rewrite He. done.
Qed.

Lemma in_queues t x :
  session_table_inv t -> x ∈ s_entries t <-> exists k, x ∈ et_sessions (get_timer k t).
Proof.
  intros (_ & _ & _ & Hp & _). rewrite <- Hp, elem_of_app. split.
  - intros [H|H]; [exists EST_TIMER | exists TRANS_TIMER]; done.
  - intros [[] H]; auto.
Qed.

Lemma entry_live brefs srefs t w x :
  tworld_inv brefs srefs (t, w) -> x ∈ s_entries t ->
  exists v k, live (w_store w) x v /\ expirer v = Some k /\ ok k (state v) /\
    x ∈ et_sessions (get_timer k t).
Proof.
  intros (_ & _ & Ht & Hq) Hx. apply (in_queues t x Ht) in Hx as [k Hk].
  destruct (Hq k x Hk) as (v & Hl & He & Ho). eauto 6.
Qed.

Lemma entry_wf t x : session_table_inv t -> x ∈ s_entries t -> session_wf x /\ se_l4_proto x = proto.
Proof. intros (_ & _ & _ & _ & _ & Hw & _) Hx. rewrite Forall_forall in Hw. apply Hw. done. Qed.

(** ** Lookups *)

Lemma get_by_ipv4_iff t src dst x :
  session_table_inv t -> wf_taddr4 src -> wf_taddr4 dst ->
  get_by_ipv4 t src dst = Some x <-> x ∈ s_entries t /\ local4 x = dst /\ remote4 x = src.
Proof.
  intros Hi Hs Hd. pose proof Hi as (S4 & _).
  unfold get_by_ipv4. rewrite (rbtree_find_keyed key4 _ _ (pair_key4 (src, dst))); [|done|].
  2:{ intros y Hy. apply full4_sgn; [|done]. apply (entry_wf t); done. }
  split; intros [Hx E]; (split; [done|]); apply (key4_eq x (src, dst)); try done; apply (entry_wf t); done.
Qed.

Lemma get_by_ipv6_iff t src dst x :
  session_table_inv t -> wf_taddr6 src -> wf_taddr6 dst ->
  get_by_ipv6 t src dst = Some x <-> x ∈ s_entries t /\ local6 x = dst /\ remote6 x = src.
Proof.
  intros Hi Hs Hd. pose proof Hi as (_ & S6 & Hp & _).
  assert (Hw : forall y, y ∈ inorder (s_tree6 t) -> session_wf y)
    by (intros y Hy; rewrite Hp in Hy; apply (entry_wf t); done).
  unfold get_by_ipv6. rewrite (rbtree_find_keyed key6 _ _ (pair_key6 (src, dst))); [|done|].
  2:{ intros y Hy. apply full6_sgn; auto. done. }
  rewrite <- Hp. split; intros [Hx E]; (split; [done|]); apply (key6_eq x (src, dst)); auto; done.
Qed.

(** Both ends of a 3-tuple are the same identifier. *)
Definition wf_tuple (tup : tuple) : Prop :=
  match tup with
  | Tuple4 src dst proto => wf_taddr4 src /\ wf_taddr4 dst /\ (proto = L4PROTO_ICMP -> l4_4 src = l4_4 dst)
  | Tuple6 src dst proto => wf_taddr6 src /\ wf_taddr6 dst /\ (proto = L4PROTO_ICMP -> l4_6 src = l4_6 dst)
  end.

(** The session a tuple belongs to. *)
Definition matches (tup : tuple) (x : session_entry) : Prop :=
  match tup with
  | Tuple4 src dst _ => local4 x = dst /\ remote4 x = src
  | Tuple6 src dst _ => local6 x = dst /\ remote6 x = src
  end.

Lemma sessiontable_find_iff t tup x :
  session_table_inv t -> wf_tuple tup ->
  sessiontable_find t tup = Some x <-> x ∈ s_entries t /\ matches tup x.
Proof.
  intros Hi Hw. destruct tup as [src dst l4|src dst l4]; destruct Hw as (Hs & Hd & _); simpl.
  - apply get_by_ipv4_iff; done.
  - apply get_by_ipv6_iff; done.
Qed.

(** Comparing with a tuple by everything but the remote port is comparing
    the quotients of the keys. *)
Lemma addrs4_sgn s k : session_wf s -> wf_pair4 k ->
  Z.sgn (compare_addrs4 s k) = Z.sgn (key4 s / 2 ^ 16 - pair_key4 k / 2 ^ 16).
Proof.
  intros (_ & _ & Hl & [Hra Hrp]) [[Ka Kp] K2]. unfold compare_addrs4.
  assert (E1 : key4 s / 2 ^ 16 = taddr4_key (local4 s) * 2 ^ 32 + s_addr (l3_4 (remote4 s))).
  { unfold key4, is_u16 in *. symmetry. apply (Z.div_unique _ _ _ (l4_4 (remote4 s))); [lia|].
    unfold taddr4_key at 2. lia. }
  assert (E2 : pair_key4 k / 2 ^ 16 = taddr4_key (snd k) * 2 ^ 32 + s_addr (l3_4 (fst k))).
  { unfold pair_key4, is_u16 in *. symmetry. apply (Z.div_unique _ _ _ (l4_4 (fst k))); [lia|].
    unfold taddr4_key at 2. lia. }
  rewrite E1, E2. apply lex_gap_sgn.
  - exact Hra.
  - exact Ka.
  - apply compare_taddr4_sgn; done.
  - unfold ipv4_addr_cmp. apply Z.sgn_sgn.
Qed.

Lemma sign_sorted_mono {A K} (f g : A -> Z) (cmp : A -> K -> Z) k z l :
  (forall x y, x ∈ l -> y ∈ l -> f x < f y -> g x <= g y) ->
  (forall x, x ∈ l -> Z.sgn (cmp x k) = Z.sgn (g x - z)) ->
  sorted_by f l -> sign_sorted cmp k l.
Proof.
  intros Hm Hc Hs. unfold sorted_by, sign_sorted in *.
  induction Hs as [|x l Hs IH F]; [constructor|].
  constructor.
  - apply IH; intros; [apply Hm | apply Hc]; try (right; done); done.
  - rewrite Forall_forall in F |- *. intros y Hy. specialize (F y Hy).
    rewrite (Hc x), (Hc y) by (left || (right; done)).
    assert (g x <= g y) by (apply Hm; [left | right; done | done]).
    destruct (Z.sgn_spec (g x - z)) as [[? ->]|[[? ->]|[? ->]]],
      (Z.sgn_spec (g y - z)) as [[? ->]|[[? ->]|[? ->]]]; lia.
Qed.

Lemma sessiontable_allow_iff t src dst :
  session_table_inv t -> wf_taddr4 src -> wf_taddr4 dst ->
  sessiontable_allow t src dst = true <->
  exists x, x ∈ s_entries t /\ local4 x = dst /\ l3_4 (remote4 x) = l3_4 src.
Proof.
  intros Hi Hs Hd. pose proof Hi as (S4 & _). unfold sessiontable_allow.
  assert (Hc : forall y, y ∈ s_entries t ->
    Z.sgn (compare_addrs4 y (src, dst)) = Z.sgn (key4 y / 2 ^ 16 - pair_key4 (src, dst) / 2 ^ 16)).
  { intros y Hy. apply addrs4_sgn; [|done]. apply (entry_wf t); done. }
  assert (Hz : forall y, y ∈ s_entries t -> compare_addrs4 y (src, dst) = 0 <->
     local4 y = dst /\ l3_4 (remote4 y) = l3_4 src).
  { intros y Hy. destruct (entry_wf t y Hi Hy) as [(_ & _ & Wl & _) _].
    unfold compare_addrs4, lex_gap. cbn [fst snd].
    pose proof (compare_taddr4_sgn _ _ Wl Hd) as Hg. split.
    - destruct (Z.eqb_spec (compare_taddr4 (local4 y) dst) 0) as [E|E]; cbn [negb]; [|done].
      rewrite E in Hg. simpl in Hg. intros E2. split.
      + apply taddr4_key_inj; [done|done|]. lia.
      + unfold ipv4_addr_cmp in E2. apply Z.sgn_null_iff in E2.
        destruct (l3_4 (remote4 y)), (l3_4 src). simpl in *. f_equal. lia.
    - intros [E1 E2]. rewrite E1 in Hg |- *. rewrite E2. rewrite Z.sub_diag in Hg. simpl in Hg.
      assert (Hg0 : compare_taddr4 dst dst = 0) by (apply Z.sgn_null_iff; done). rewrite Hg0.
      simpl. unfold ipv4_addr_cmp. rewrite Z.sub_diag. done. }
  pose proof (rbtree_find_spec compare_addrs4 (src, dst) (s_tree4 t)) as Hf.
  destruct (rbtree_find compare_addrs4 (src, dst) (s_tree4 t)) as [x|].
  - destruct Hf as [Hx E].
    { eapply (sign_sorted_mono key4 (fun y => key4 y / 2 ^ 16)); [|exact Hc|exact S4].
      intros a b _ _ Hlt. apply Z.div_le_mono; lia. }
    split; [|done]. intros _. exists x. split; [done|]. apply Hz; done.
  - split; [done|]. intros (x & Hx & E). exfalso.
    assert (F : Forall (fun x => compare_addrs4 x (src, dst) <> 0) (s_entries t)).
    { apply Hf. eapply (sign_sorted_mono key4 (fun y => key4 y / 2 ^ 16)); [|exact Hc|exact S4].
      intros a b _ _ Hlt. apply Z.div_le_mono; lia. }
    rewrite Forall_forall in F. apply (F x Hx). apply Hz; done.
Qed.

(** ** Running the steps *)

Definition with_store (w : world) (s : store) : world := World s (w_queue w) (w_out w).

Lemma on_sess_run {A} (m : M store A) t w a s :
  m (w_store w) = Some (a, s) -> on_sess m (t, w) = Some (a, (t, with_store w s)).
Proof. intros H. unfold on_sess, on_world, on_store. rewrite H. done. Qed.

Lemma get_table_run tw : get_table tw = Some (fst tw, tw).
Proof. done. Qed.

Lemma upd_table_run f t w : upd_table f (t, w) = Some (tt, (f t, w)).
Proof. done. Qed.

(** The world's invariant depends on the store through its sessions only. *)
Lemma world_inv_store brefs srefs srefs' w s' :
  world_inv brefs srefs w ->
  store_inv brefs (fun l => srefs' l + queue_refs (node_list (w_queue w)) l) s' ->
  (forall l, 0 <= srefs' l) ->
  (forall n v, n ∈ node_list (w_queue w) -> live (w_store w) (pn_session n) v ->
     exists v', live s' (pn_session n) v') ->
  world_inv brefs srefs' (with_store w s').
Proof.
  intros (Hi & Hs & Hq & Hl) Hi' Hs' Hn. split; [done|]. split; [done|]. split; [done|].
  intros n Hin. destruct (Hl n Hin) as [v Hv]. eauto.
Qed.

Lemma world_inv_wr brefs srefs w x v v' :
  world_inv brefs srefs w -> live (w_store w) x v -> se_refcounter v' = se_refcounter v ->
  world_inv brefs srefs (with_store w (wr x v' (w_store w))).
Proof.
  intros Hw Hl E. pose proof Hw as (Hi & Hs & Hq & Hn).
  eapply world_inv_store; [exact Hw | eapply store_inv_wr; done | done |].
  intros n vn _ Hvn. destruct (decide (se_loc (pn_session n) = se_loc x)) as [El|El].
  - rewrite (live_loc _ _ _ _ _ Hvn Hl El). exists v'. apply live_wr_eq.
  - exists vn. apply live_wr_ne; done.
Qed.

(** ** Unlinking *)

Lemma same_session_other x : (fun s => negb (same_session x s)) = other_than se_loc x.
Proof. done. Qed.

Context {R : RbTree} {L : RbTreeLaws R}.

(** The table without one of its sessions. *)
Definition unlinked (x : session_entry) (t : session_table) : session_table :=
  list_del x (SessionTable (rb_erase (same_session x) (s_tree6 t)) (rb_erase (same_session x) (s_tree4 t))
                (u64 (s_count t - 1)) (est_timer t) (trans_timer t)).

Lemma et_unlinked k x t :
  et_sessions (get_timer k (unlinked x t)) = List.filter (other_than se_loc x) (et_sessions (get_timer k t)).
Proof. destruct k; done. Qed.

Lemma unlinked_entries x t : s_entries (unlinked x t) = List.filter (other_than se_loc x) (s_entries t).
Proof. unfold s_entries, unlinked. simpl. apply inorder_erase. Qed.

Lemma unlinked_inv t x :
  session_table_inv t -> x ∈ s_entries t ->
  session_table_inv (unlinked x t) /\ s_entries t ≡ₚ x :: s_entries (unlinked x t).
Proof.
  intros (S4 & S6 & Hp & Hq & Hnd & Hw & Hc & Ht) Hx.
  pose proof (other_than_perm se_loc x _ Hx Hnd) as Hperm.
  split; [|rewrite unlinked_entries; exact Hperm].
  unfold session_table_inv. rewrite unlinked_entries. split; [|split; [|split; [|split; [|split; [|split; [|split]]]]]].
  - apply sorted_by_filter. done.
  - simpl. rewrite inorder_erase. apply sorted_by_filter. done.
  - simpl. rewrite inorder_erase. change (fun s => negb (same_session x s)) with (other_than se_loc x).
    rewrite Hp. done.
  - simpl. change (fun s => negb (same_session x s)) with (other_than se_loc x).
    rewrite <- List.filter_app, Hq. done.
  - apply NoDup_fmap_filter. done.
  - apply (Permutation_Forall Hperm), Forall_cons in Hw. tauto.
  - simpl. rewrite Hc. apply Permutation_length in Hperm. simpl in Hperm. rewrite Hperm.
    unfold u64. rewrite Zminus_mod_idemp_l. f_equal. lia.
  - intros k. destruct k; [apply (Ht EST_TIMER) | apply (Ht TRANS_TIMER)].
Qed.

Lemma unlinked_refs t x l :
  session_table_inv t -> x ∈ s_entries t ->
  table_refs t l = Z.b2z (Pos.eqb (se_loc x) l) + table_refs (unlinked x t) l.
Proof.
  intros Hi Hx. destruct (unlinked_inv t x Hi Hx) as [_ Hp]. unfold table_refs.
  rewrite (refs_in_perm _ _ _ l Hp), refs_in_cons. done.
Qed.

(** The invariant while [x], whose variables have just been written, may be
    in the wrong queue. *)
Definition tworld_but (x : session_entry) (brefs srefs : positive -> Z) (tw : tworld) : Prop :=
  world_inv brefs (fun l => srefs l + table_refs (fst tw) l) (snd tw) /\
  (forall l, 0 <= srefs l) /\
  session_table_inv (fst tw) /\
  (forall k y, y ∈ et_sessions (get_timer k (fst tw)) ->
    exists v, live (w_store (snd tw)) y v /\ expirer v = Some k /\ (y = x \/ ok k (state v))).

Lemma tworld_but_weaken x brefs srefs tw : tworld_inv brefs srefs tw -> tworld_but x brefs srefs tw.
Proof.
  intros (Hw & Hs & Ht & Hq). split; [done|]. split; [done|]. split; [done|].
  intros k y Hy. destruct (Hq k y Hy) as (v & ? & ? & ?). eauto 6.
Qed.

(** Writing the variables of a session of the table, not its queue. *)
Lemma tworld_but_wr x v v' brefs srefs t w :
  tworld_inv brefs srefs (t, w) -> live (w_store w) x v ->
  se_refcounter v' = se_refcounter v -> expirer v' = expirer v ->
  tworld_but x brefs srefs (t, with_store w (wr x v' (w_store w))).
Proof.
  intros (Hw & Hs & Ht & Hq) Hv Hr He. cbn [fst snd] in *.
  split; [eapply world_inv_wr; done|]. split; [done|]. split; [done|]. cbn [fst snd].
  intros k y Hy. destruct (Hq k y Hy) as (vy & Hvy & Hey & Hoy).
  destruct (decide (se_loc y = se_loc x)) as [E|E].
  - pose proof (live_loc _ _ _ _ _ Hvy Hv E) as ->. pose proof (live_fun _ _ _ _ Hvy Hv) as ->.
    exists v'. split; [apply live_wr_eq|]. split; [congruence|auto].
  - exists vy. split; [apply live_wr_ne; done|auto].
Qed.

Lemma tworld_but_inv x v brefs srefs t w :
  tworld_but x brefs srefs (t, w) -> live (w_store w) x v ->
  (forall k, expirer v = Some k -> ok k (state v)) -> tworld_inv brefs srefs (t, w).
Proof.
  intros (Hw & Hs & Ht & Hq) Hv Hok. split; [done|]. split; [done|]. split; [done|].
  intros k y Hy. destruct (Hq k y Hy) as (vy & Hvy & Hey & [->|Ho]); [|eauto].
  pose proof (live_fun _ _ _ _ Hvy Hv) as ->. eauto.
Qed.

(** [rm] hands the table's reference over to its caller. *)
Lemma session_rm_run brefs srefs t w x v rms :
  tworld_but x brefs srefs (t, w) -> x ∈ s_entries t -> live (w_store w) x v ->
  let w' := with_store w (wr x (set_expirer None v) (w_store w)) in
  session_rm x rms (t, w) = Some (x :: rms, (unlinked x t, w')) /\
  tworld_inv brefs (add_ref srefs (se_loc x) 1) (unlinked x t, w').
Proof.
  intros (Hw & Hs & Ht & Hq) Hx Hv. cbn [fst snd] in *. split.
  { unfold session_rm. rewrite (bind_run _ _ _ _ _ (upd_table_run _ _ _)).
    rewrite (bind_run _ _ _ _ _ (on_sess_run _ _ _ _ _ (read_session_run _ _ _ Hv))).
    rewrite (bind_run _ _ _ _ _ (on_sess_run _ _ _ _ _ (write_session_run _ _ _))). done. }
  destruct (unlinked_inv t x Ht Hx) as [Ht' Hp].
  split; [|split; [|split; [exact Ht'|]]]; cbn [fst snd].
  - pose proof (world_inv_wr _ _ _ _ _ (set_expirer None v) Hw Hv eq_refl) as Hw1.
    eapply world_inv_ext; [exact Hw1|]. intros l. simpl. rewrite (unlinked_refs t x l) by done.
    unfold add_ref. destruct (Pos.eqb_spec (se_loc x) l) as [->|Hne].
    + rewrite decide_True by done. simpl. lia.
    + rewrite decide_False by congruence. simpl. lia.
  - intros l. unfold add_ref. specialize (Hs l). case_decide; lia.
  - intros k' y Hy. rewrite et_unlinked in Hy. apply elem_of_filter_bool in Hy as [Hy Hne].
    apply negb_true_iff, Pos.eqb_neq in Hne.
    destruct (Hq k' y Hy) as (vy & Hvy & Hey & Ho). exists vy.
    split; [apply live_wr_ne; done|]. split; [done|]. destruct Ho as [->|Ho]; done.
Qed.

Lemma session_rm_spec brefs srefs t w x rms :
  tworld_inv brefs srefs (t, w) -> x ∈ s_entries t ->
  exists v, live (w_store w) x v /\
    session_rm x rms (t, w) =
      Some (x :: rms, (unlinked x t, with_store w (wr x (set_expirer None v) (w_store w)))) /\
    tworld_inv brefs (add_ref srefs (se_loc x) 1)
      (unlinked x t, with_store w (wr x (set_expirer None v) (w_store w))).
Proof.
  intros Hi Hx. destruct (entry_live brefs srefs t w x Hi Hx) as (v & k & Hv & _).
  exists v. split; [done|]. apply session_rm_run; [apply tworld_but_weaken|..]; done.
Qed.

(** All the references to the session at [loc]. *)
Definition all_refs (srefs : positive -> Z) (t : session_table) (w : world) (loc : positive) : Z :=
  srefs loc + table_refs t loc + queue_refs (node_list (w_queue w)) loc.

Lemma all_refs_table srefs t w y :
  (forall l, 0 <= srefs l) -> y ∈ s_entries t -> 0 < all_refs srefs t w (se_loc y).
Proof.
  intros Hs Hy. unfold all_refs, table_refs. specialize (Hs (se_loc y)).
  pose proof (refs_in_pos se_loc y _ Hy). pose proof (queue_refs_nonneg (node_list (w_queue w)) (se_loc y)). lia.
Qed.

Lemma all_refs_queue srefs t w n :
  (forall l, 0 <= srefs l) -> n ∈ node_list (w_queue w) -> 0 < all_refs srefs t w (se_loc (pn_session n)).
Proof.
  intros Hs Hn. unfold all_refs, table_refs. specialize (Hs (se_loc (pn_session n))).
  pose proof (refs_in_nonneg se_loc (s_entries t) (se_loc (pn_session n))).
  pose proof (queue_refs_pos n _ Hn). lia.
Qed.

Lemma all_refs_own srefs t w loc :
  0 < srefs loc -> 0 < all_refs srefs t w loc.
Proof.
  intros Hs. unfold all_refs, table_refs. pose proof (refs_in_nonneg se_loc (s_entries t) loc).
  pose proof (queue_refs_nonneg (node_list (w_queue w)) loc). lia.
Qed.

(** The store may change under a table as long as its sessions and the
    queue's only see their counters change. *)
Lemma tworld_inv_frame brefs srefs srefs' t w s' :
  tworld_inv brefs srefs (t, w) -> store_inv brefs (all_refs srefs' t w) s' ->
  (forall l, 0 <= srefs' l) -> store_frame (fun l => 0 < all_refs srefs' t w l) (w_store w) s' ->
  tworld_inv brefs srefs' (t, with_store w s').
Proof.
  intros (Hw & _ & Ht & Hq) Hi Hs Hf. cbn [fst snd] in *.
  split; [|split; [done|split; [done|]]]; cbn [fst snd].
  - eapply world_inv_store; [exact Hw | exact Hi | |].
    + intros l. specialize (Hs l). pose proof (refs_in_nonneg se_loc (s_entries t) l). unfold table_refs. lia.
    + intros n vn Hn Hvn. destruct (Hf _ _ Hvn) as [m Hm]; [apply all_refs_queue; done|]. eauto.
  - intros k y Hy. destruct (Hq k y Hy) as (vy & Hvy & Hey & Hoy).
    destruct (Hf _ _ Hvy) as [m Hm].
    + apply all_refs_table; [done|]. apply (in_queues t y Ht). eauto.
    + exists (set_refcounter m vy). done.
Qed.

(** Dropping a reference the caller holds. *)
Lemma return_run brefs srefs t w x v :
  tworld_inv brefs (add_ref srefs (se_loc x) 1) (t, w) -> (forall l, 0 <= srefs l) ->
  live (w_store w) x v ->
  exists dead s', session_return x (w_store w) = Some (dead, s') /\
    tworld_inv brefs srefs (t, with_store w s') /\
    bib_shrinks brefs [x] (st_bib (w_store w)) (st_bib s') /\
    store_frame (fun l => 0 < all_refs srefs t w l) (w_store w) s'.
Proof.
  intros Hi Hs Hv. pose proof Hi as ((Hst & _) & _). cbn [fst snd] in Hst.
  destruct (session_return_drop brefs _ (w_store w) x v Hst Hv) as (dead & s1 & Hrun & Hi1 & Hb1 & Hf1).
  assert (He : forall l, add_ref (fun l => add_ref srefs (se_loc x) 1 l + table_refs t l +
      queue_refs (node_list (w_queue w)) l) (se_loc x) (-1) l = all_refs srefs t w l).
  { intros l. unfold add_ref, all_refs. destruct (decide (l = se_loc x)); lia. }
  assert (Hf : store_frame (fun l => 0 < all_refs srefs t w l) (w_store w) s1).
  { eapply store_frame_weaken; [|exact Hf1]. intros l Hl. simpl. rewrite He. done. }
  exists dead, s1. split; [done|]. split; [|done]. eapply tworld_inv_frame; [exact Hi | | done | done].
  eapply store_inv_ext; [exact Hi1|]. intros l. rewrite He. done.
Qed.

Lemma refs_add x l srefs loc :
  add_ref (fun loc => srefs loc + refs_in se_loc l loc) (se_loc x) 1 loc =
  srefs loc + refs_in se_loc (x :: l) loc.
Proof.
  rewrite refs_in_cons. unfold add_ref. destruct (Pos.eqb_spec (se_loc x) loc) as [->|Hne].
  - rewrite decide_True by done. simpl. lia.
  - rewrite decide_False by congruence. simpl. lia.
Qed.

(** Dropping references to sessions the caller holds. *)
Lemma delete_sessions_spec brefs srefs l : (forall loc, 0 <= srefs loc) -> forall t w,
  tworld_inv brefs (fun loc => srefs loc + refs_in se_loc l loc) (t, w) ->
  (forall x, x ∈ l -> exists v, live (w_store w) x v) ->
  exists s', delete_sessions l (t, w) = Some (tt, (t, with_store w s')) /\
    tworld_inv brefs srefs (t, with_store w s') /\
    bib_shrinks brefs l (st_bib (w_store w)) (st_bib s') /\
    store_frame (fun loc => 0 < all_refs srefs t w loc) (w_store w) s'.
Proof.
  intros Hs. induction l as [|x l IH]; intros t w Hi Hl.
  { exists (w_store w). destruct w as [s q o]. split; [done|].
    split; [|split; [apply bib_shrinks_refl|apply store_frame_refl]].
    eapply tworld_inv_ext; [exact Hi|]. intros loc. simpl. rewrite refs_in_nil. lia. }
  destruct (Hl x ltac:(left)) as [v Hv].
  set (rest := fun loc => srefs loc + refs_in se_loc l loc).
  assert (Hrest : forall loc, 0 <= rest loc)
    by (intros loc; unfold rest; specialize (Hs loc); pose proof (refs_in_nonneg se_loc l loc); lia).
  destruct (return_run brefs rest t w x v) as (dead & s1 & Hrun & Hi1 & Hb1 & Hf1); [|done|done|].
  { eapply tworld_inv_ext; [exact Hi|]. apply refs_add. }
  destruct (IH t (with_store w s1) Hi1) as (s' & Hrun' & Hi' & Hb' & Hf').
  { intros y Hy. destruct (Hl y ltac:(right; done)) as [vy Hvy].
    destruct (Hf1 _ _ Hvy) as [m Hm]; [|eauto]. apply all_refs_own. unfold rest.
    specialize (Hs (se_loc y)). pose proof (refs_in_pos se_loc y l Hy). lia. }
  exists s'. split; [|split; [exact Hi'|split]].
  - cbn [delete_sessions]. rewrite (bind_run _ _ _ _ _ (on_sess_run _ _ _ _ _ Hrun)). exact Hrun'.
  - exact (bib_shrinks_trans brefs [x] l _ _ _ Hb1 Hb').
  - eapply store_frame_trans; [|exact Hf']. eapply store_frame_weaken; [|exact Hf1].
    intros loc Hk. simpl in *. unfold all_refs, rest in *. pose proof (refs_in_nonneg se_loc l loc). lia.
Qed.

(** ** Removing many *)

(** The sessions a removal takes, up to where it stops. *)
Fixpoint selected (func : session_entry -> option bool) (nodes : list session_entry) : list session_entry :=
  match nodes with
  | [] => []
  | x :: nodes =>
      match func x with
      | None => []
      | Some false => selected func nodes
      | Some true => x :: selected func nodes
      end
  end.

Lemma selected_sublist func nodes : selected func nodes `sublist_of` nodes.
Proof.
  induction nodes as [|x nodes IH]; simpl; [done|].
  destruct (func x) as [[]|]; [constructor; done | constructor; done | apply sublist_nil_l].
Qed.

(** The timers of a table, apart from their queues. *)
Definition same_timers (t t' : session_table) : Prop :=
  forall k, timer (get_timer k t') = timer (get_timer k t) /\
    get_timeout (get_timer k t') = get_timeout (get_timer k t) /\
    decide_fate_cb (get_timer k t') = decide_fate_cb (get_timer k t).

(** [t'] is [t] without the sessions of [l], whose table references are now
    the caller's. *)
Definition detached (l : list session_entry) (t : session_table) (w : world) (t' : session_table)
    (s' : store) : Prop :=
  s_entries t ≡ₚ l ++ s_entries t' /\ same_timers t t' /\
  (forall k, et_sessions (get_timer k t') `sublist_of` et_sessions (get_timer k t)) /\
  st_bib s' = st_bib (w_store w) /\
  (forall x v, live (w_store w) x v ->
     exists v', live s' x v' /\ (x ∉ l -> v' = v)).

Lemma foreach_rm_spec brefs func nodes : forall srefs removed t w,
  tworld_inv brefs srefs (t, w) -> NoDup (se_loc <$> nodes) ->
  (forall x, x ∈ nodes -> x ∈ s_entries t) ->
  let l := selected func nodes in
  exists t' s', foreach_rm func nodes removed (t, w) = Some (rev l ++ removed, (t', with_store w s')) /\
    tworld_inv brefs (fun loc => srefs loc + refs_in se_loc l loc) (t', with_store w s') /\
    detached l t w t' s'.
Proof.
  induction nodes as [|x nodes IH]; intros srefs removed t w Hi Hnd Hin; cbv zeta.
  - exists t, (w_store w). split; [destruct w; done|]. split; [|split_and!; try done; eauto].
    destruct w. eapply tworld_inv_ext; [exact Hi|]. intros loc. simpl. rewrite refs_in_nil. lia.
  - rewrite fmap_cons in Hnd. apply NoDup_cons in Hnd as [Hni Hnd]. cbn [foreach_rm selected].
    destruct (func x) as [[]|] eqn:Ef.
    + destruct (session_rm_spec brefs srefs t w x removed Hi) as (v & Hv & Hrun & Hi1); [apply Hin; left|].
      set (s1 := wr x (set_expirer None v) (w_store w)) in *.
      assert (Hne : forall y, y ∈ nodes -> se_loc y <> se_loc x).
      { intros y Hy E. apply Hni. rewrite <- E. apply list_elem_of_fmap_2. done. }
      destruct (IH _ (x :: removed) _ _ Hi1 Hnd) as (t' & s' & Hrun' & Hi' & Hdet).
      { intros y Hy. rewrite unlinked_entries. apply elem_of_filter_bool. split; [apply Hin; right; done|].
        apply negb_true_iff, Pos.eqb_neq. auto. }
      exists t', s'. split; [|split].
      * rewrite (bind_run _ _ _ _ _ Hrun). simpl rev. rewrite <- app_assoc. exact Hrun'.
      * eapply tworld_inv_ext; [exact Hi'|]. intros loc. simpl. rewrite refs_in_cons. unfold add_ref.
        destruct (Pos.eqb_spec (se_loc x) loc) as [->|Hn].
        -- rewrite decide_True by done. simpl. lia.
        -- rewrite decide_False by congruence. simpl. lia.
      * destruct Hdet as (Hp & Htm & Hsub & Hb & Hl).
        destruct Hi as (_ & _ & Ht & _). cbn [fst] in Ht.
        destruct (unlinked_inv t x Ht) as [_ Hpx]; [apply Hin; left|].
        split; [rewrite Hpx, Hp; done|]. split; [|split; [|split]].
        -- intros k. destruct (Htm k) as (A & B & C). rewrite A, B, C. destruct k; done.
        -- intros k. etrans; [apply Hsub|]. rewrite et_unlinked. apply filter_sublist.
        -- exact Hb.
        -- intros y vy Hy. destruct (decide (se_loc y = se_loc x)) as [E|E].
           ++ pose proof (live_loc _ _ _ _ _ Hy Hv E) as ->.
              destruct (Hl x (set_expirer None v)) as (v' & Hv' & _); [apply live_wr_eq|].
              exists v'. split; [done|]. intros Hn. destruct Hn. left.
           ++ destruct (Hl y vy) as (v' & Hv' & Hsame); [apply live_wr_ne; done|].
              exists v'. split; [done|]. intros Hn. apply Hsame. intros Hy'. apply Hn. right. done.
    + apply IH; [done|done|]. intros y Hy. apply Hin. right. done.
    + exists t, (w_store w). split; [destruct w; done|]. split; [|split_and!; try done; eauto].
      destruct w. eapply tworld_inv_ext; [exact Hi|]. intros loc. simpl. rewrite refs_in_nil. lia.
Qed.

(** [l] left the table for good: its sessions lost the table's reference and
    those nobody else uses are gone, with the BIB entries only they used. *)
Definition purged (brefs srefs : positive -> Z) (l : list session_entry) (t : session_table) (w : world)
    (t' : session_table) (w' : world) : Prop :=
  tworld_inv brefs srefs (t', w') /\
  s_entries t ≡ₚ l ++ s_entries t' /\ same_timers t t' /\
  (forall k, et_sessions (get_timer k t') `sublist_of` et_sessions (get_timer k t)) /\
  w_queue w' = w_queue w /\ w_out w' = w_out w /\
  bib_shrinks brefs l (st_bib (w_store w)) (st_bib (w_store w')) /\
  (forall x v, live (w_store w) x v -> x ∉ l ->
     0 < srefs (se_loc x) + table_refs t' (se_loc x) + queue_refs (node_list (w_queue w)) (se_loc x) ->
     exists n, live (w_store w') x (set_refcounter n v)).

Lemma purge_spec brefs srefs func nodes t w :
  tworld_inv brefs srefs (t, w) -> NoDup (se_loc <$> nodes) ->
  (forall x, x ∈ nodes -> x ∈ s_entries t) ->
  exists t' w', (removed ← foreach_rm func nodes []; delete_sessions removed) (t, w) = Some (tt, (t', w')) /\
    purged brefs srefs (selected func nodes) t w t' w'.
Proof.
  intros Hi Hnd Hin. pose proof Hi as (_ & Hs & _).
  destruct (foreach_rm_spec brefs func nodes srefs [] t w Hi Hnd Hin) as (t' & s1 & Hrun & Hi1 & Hdet).
  set (l := selected func nodes) in *. rewrite app_nil_r in Hrun.
  destruct Hdet as (Hp & Htm & Hsub & Hb & Hl).
  assert (Hrev : rev l ≡ₚ l) by (symmetry; apply Permutation_rev).
  destruct (delete_sessions_spec brefs srefs (rev l) Hs t' (with_store w s1)) as (s' & Hrun' & Hi' & Hb' & Hf').
  - eapply tworld_inv_ext; [exact Hi1|]. intros loc. simpl. rewrite (refs_in_perm _ _ _ _ Hrev). done.
  - intros x Hx. rewrite Hrev in Hx.
    destruct (entry_live brefs srefs t w x Hi) as (v & k & Hv & _); [rewrite Hp, elem_of_app; auto|].
    destruct (Hl x v Hv) as (v' & Hv' & _). eauto.
  - exists t', (with_store w s'). split; [rewrite (bind_run _ _ _ _ _ Hrun); exact Hrun'|].
    split; [exact Hi'|]. split; [exact Hp|]. split; [exact Htm|]. split; [exact Hsub|].
    split; [done|]. split; [done|]. split.
    + intros p x. specialize (Hb' p x). simpl in *. rewrite Hb in Hb'. destruct Hb' as [A B]. split; [done|].
      intros Hx Hor. apply B; [done|]. destruct Hor as [?|Hor]; [auto|]. right. intros e He. apply Hor.
      rewrite Hrev in He. done.
    + intros x v Hv Hn Hpos. destruct (Hl x v Hv) as (v' & Hv' & Hsame). rewrite (Hsame Hn) in Hv'.
      apply (Hf' x v Hv'). exact Hpos.
Qed.

(** Where a removal by key starts, where it stops and what it takes. *)
Lemma selected_range {K} (f : session_entry -> Z) (cmp : session_entry -> K -> Z) k lo hi tr
    (p q : session_entry -> bool) :
  sorted_by f (inorder tr) ->
  (forall x, x ∈ inorder tr -> Z.sgn (cmp x k) = Z.sgn (f x - lo)) ->
  (forall x, x ∈ inorder tr -> p x = true -> q x = true -> lo <= f x) ->
  (forall x, x ∈ inorder tr -> lo <= f x -> p x = true <-> f x < hi) ->
  selected (fun x => if negb (p x) then None else Some (q x))
    (find_starting_point cmp tr (Some k) true) =
  List.filter (fun x => p x && q x) (inorder tr).
Proof.
  intros Hs Hc Hlo Hhi.
  rewrite (find_starting_point_spec cmp k true).
  2:{ eapply sorted_by_NoDup. exact Hs. }
  2:{ eapply sorted_by_sign; [exact Hc | exact Hs]. }
  2:{ intros x y Hx Hy Zx Zy. rewrite (keyed_zero _ _ _ _ _ Hc) in Zx, Zy by done.
      eapply sorted_by_inj; [exact Hs|done|done|]. lia. }
  assert (Hge : forall x, x ∈ inorder tr -> past_offset cmp k true x = true <-> lo <= f x).
  { intros x Hx. unfold past_offset. rewrite Z.leb_le. pose proof (keyed_neg _ _ _ _ _ Hc x Hx). lia. }
  transitivity (List.filter (fun x => p x && q x) (List.filter (past_offset cmp k true) (inorder tr))).
  - assert (Hin : forall x, x ∈ List.filter (past_offset cmp k true) (inorder tr) ->
                    p x = true <-> f x < hi).
    { intros x Hx. apply elem_of_filter_bool in Hx as [Hx Hp]. apply Hhi; [done|]. apply Hge; done. }
    pose proof (sorted_by_filter f (past_offset cmp k true) _ Hs) as Hs'.
    revert Hs' Hin. generalize (List.filter (past_offset cmp k true) (inorder tr)). intros l Hs' Hin.
    unfold sorted_by in Hs'. induction Hs' as [|x l Hl IH F]; [done|]. simpl.
    destruct (p x) eqn:Ep; simpl.
    + destruct (q x); [f_equal|]; apply IH; intros y Hy; apply Hin; right; done.
    + symmetry. apply filter_none. rewrite Forall_forall in F |- *. intros y Hy.
      assert (Hpy : p y = false).
      { apply not_true_iff_false. rewrite (Hin y) by (right; done). specialize (F y Hy).
        apply not_true_iff_false in Ep. rewrite (Hin x) in Ep by left. lia. }
      rewrite Hpy. done.
  - rewrite filter_filter. apply filter_ext_in. intros x Hx.
    destruct (p x) eqn:Ep; [|rewrite andb_false_r; done]. destruct (q x) eqn:Eq; [|rewrite andb_false_r; done].
    simpl. rewrite andb_true_r. apply Hge; [done|]. apply Hlo; done.
Qed.

(** An operation that purges exactly the sessions of the table that satisfy [sel]. *)
Definition purges (m : M tworld unit) (sel : session_entry -> Prop) (brefs srefs : positive -> Z)
    (t : session_table) (w : world) : Prop :=
  exists t' w' l, m (t, w) = Some (tt, (t', w')) /\ purged brefs srefs l t w t' w' /\
    forall x, x ∈ l <-> x ∈ s_entries t /\ sel x.

Lemma purges_intro brefs srefs func nodes t w (sel : session_entry -> Prop) (m : M tworld unit) :
  tworld_inv brefs srefs (t, w) ->
  m (t, w) = (removed ← foreach_rm func nodes []; delete_sessions removed) (t, w) ->
  nodes `sublist_of` s_entries t \/ nodes `sublist_of` inorder (s_tree6 t) ->
  (forall x, x ∈ selected func nodes <-> x ∈ s_entries t /\ sel x) ->
  purges m sel brefs srefs t w.
Proof.
  intros Hi Hm Hsub Hsel. pose proof Hi as (_ & _ & (S4 & S6 & Hp & _ & Hnd & _) & _). cbn [fst] in *.
  destruct (purge_spec brefs srefs func nodes t w Hi) as (t' & w' & Hrun & Hpost).
  - destruct Hsub as [Hsub|Hsub]; (eapply sublist_NoDup; [apply sublist_fmap; exact Hsub|]); [done|].
    rewrite Hp. done.
  - intros x Hx. destruct Hsub as [Hsub|Hsub]; [eapply sublist_elem_of; done|].
    rewrite <- Hp. eapply sublist_elem_of; done.
  - exists t', w', (selected func nodes). rewrite Hm. auto.
Qed.

Lemma starting_at_sublist (x : session_entry) l : starting_at x l `sublist_of` l.
Proof. induction l as [|y l IH]; simpl; [done|]. case_decide; [done|]. constructor. done. Qed.

Lemma tail_sublist {A} (l : list A) : tail l `sublist_of` l.
Proof. destruct l; simpl; [done|]. constructor. done. Qed.

Lemma starting_point_sublist {K} (cmp : session_entry -> K -> Z) tr k incl :
  find_starting_point cmp tr k incl `sublist_of` inorder tr.
Proof.
  unfold find_starting_point. destruct k as [k|]; [|done].
  destruct (rbtree_find_node cmp k tr None) as [[p|] [n|]]; simpl.
  - destruct incl; [|etrans; [apply tail_sublist|]]; apply starting_at_sublist.
  - case_match; [etrans; [apply tail_sublist|]|]; apply starting_at_sublist.
  - destruct incl; [|etrans; [apply tail_sublist|]]; apply starting_at_sublist.
  - apply sublist_nil_l.
Qed.

Lemma taddr4_zero_wf : wf_taddr4 TADDR4_ZERO.
Proof. unfold wf_taddr4, wf_addr4, is_u32, is_u16. simpl. lia. Qed.

Lemma taddr6_zero_wf : wf_taddr6 TADDR6_ZERO.
Proof. unfold wf_taddr6, wf_addr6, is_u16. simpl. lia. Qed.

Lemma flush_purges brefs srefs t w :
  tworld_inv brefs srefs (t, w) -> purges sessiontable_flush (fun _ => True) brefs srefs t w.
Proof.
  intros Hi. eapply (purges_intro brefs srefs (fun _ => Some true) (s_entries t)); [done|done|auto|].
  assert (E : forall l, selected (fun _ => Some true) l = l)
    by (induction l as [|x l IH]; simpl; [done|f_equal; done]).
  intros x. rewrite E. tauto.
Qed.

Lemma delete_by_bib_purges brefs srefs t w bib :
  tworld_inv brefs srefs (t, w) -> wf_taddr4 (bib_ipv4 bib) ->
  purges (sessiontable_delete_by_bib bib) (fun x => local4 x = bib_ipv4 bib) brefs srefs t w.
Proof.
  intros Hi Hb. pose proof Hi as (_ & _ & Ht & _). cbn [fst] in Ht. pose proof Ht as (S4 & _).
  eapply (purges_intro brefs srefs (rm_by_bib (bib_ipv4 bib))); [done|reflexivity|left; apply starting_point_sublist|].
  set (k := (TADDR4_ZERO, bib_ipv4 bib)).
  assert (Hk : wf_pair4 k) by (split; [apply taddr4_zero_wf|done]).
  assert (Heq : forall x, ipv4_transport_addr_equals (Some (bib_ipv4 bib)) (Some (local4 x)) = true <->
            local4 x = bib_ipv4 bib).
  { intros x. unfold ipv4_transport_addr_equals. simpl.
    destruct (Z.eqb_spec (s_addr (l3_4 (bib_ipv4 bib))) (s_addr (l3_4 (local4 x)))) as [E|E]; simpl.
    - rewrite Z.eqb_eq. destruct (bib_ipv4 bib) as [[a] p], (local4 x) as [[b] q]. simpl in *. subst.
      split; [intros ->; done | intros [= ->]; done].
    - split; [done|]. intros H. rewrite H in E. done. }
  assert (E0 : pair_key4 k = taddr4_key (bib_ipv4 bib) * 2 ^ 48) by (unfold pair_key4, k; cbn [fst snd]; change (taddr4_key TADDR4_ZERO) with 0; lia).
  intros x. unfold rm_by_bib. cbn [fst].
  rewrite (selected_range key4 session_compare_full4 k (pair_key4 k) ((taddr4_key (bib_ipv4 bib) + 1) * 2 ^ 48)
    (s_tree4 t) (fun x => ipv4_transport_addr_equals (Some (bib_ipv4 bib)) (Some (local4 x)))
    (fun _ => true)).
  - rewrite elem_of_filter_bool, andb_true_r, Heq. done.
  - exact S4.
  - intros y Hy. apply full4_sgn; [|done]. apply (entry_wf t); done.
  - intros y Hy Hp _. apply Heq in Hp. destruct (entry_wf t y Ht Hy) as [(_ & _ & _ & Wr) _].
    pose proof (taddr4_key_range _ Wr). rewrite E0. unfold key4. rewrite Hp. lia.
  - intros y Hy Hlo. rewrite Heq. destruct (entry_wf t y Ht Hy) as [(_ & _ & Wl & Wr) _].
    pose proof (taddr4_key_range _ Wr). rewrite E0 in Hlo. unfold key4 in *. split.
    + intros ->. lia.
    + intros Hlt. apply taddr4_key_inj; [done|done|]. lia.
Qed.

Lemma delete_taddr4s_purges brefs srefs t w prefix ports :
  tworld_inv brefs srefs (t, w) ->
  0 <= p4_len prefix -> wf_addr4 (p4_address prefix) -> prefix4_validate (Some prefix) = Ok tt ->
  wf_range ports ->
  purges (sessiontable_delete_taddr4s prefix ports)
    (fun x => in_request prefix ports (local4 x) = true) brefs srefs t w.
Proof.
  intros Hi Hlen Hwp Hv Hr. pose proof Hi as (_ & _ & Ht & _). cbn [fst] in Ht. pose proof Ht as (S4 & _).
  eapply (purges_intro brefs srefs (rm_taddr4s prefix ports)); [done|reflexivity|left; apply starting_point_sublist|].
  set (a := TAddr4 (p4_address prefix) (r_min ports)). set (k := (TADDR4_ZERO, a)).
  assert (Hk : wf_pair4 k) by (split; [apply taddr4_zero_wf|split; [done|apply Hr]]).
  assert (E0 : pair_key4 k = taddr4_key a * 2 ^ 48) by (unfold pair_key4, k; cbn [fst snd]; change (taddr4_key TADDR4_ZERO) with 0; lia).
  intros x. unfold rm_taddr4s. cbn [fst].
  assert (Ef : forall nodes, selected (fun session => if negb (prefix4_contains prefix (l3_4 (local4 session)))
      then None else if negb (port_range_contains ports (l4_4 (local4 session))) then Some false else Some true) nodes
    = selected (fun session => if negb (prefix4_contains prefix (l3_4 (local4 session)))
      then None else Some (port_range_contains ports (l4_4 (local4 session)))) nodes).
  { induction nodes as [|y nodes IH]; simpl; [done|].
    destruct (prefix4_contains prefix (l3_4 (local4 y))); simpl; [|done].
    destruct (port_range_contains ports (l4_4 (local4 y))); simpl; rewrite IH; done. }
  rewrite Ef, (selected_range key4 session_compare_full4 k (pair_key4 k)
    ((s_addr (p4_address prefix) + 2 ^ (32 - p4_len prefix)) * 2 ^ 16 * 2 ^ 48) (s_tree4 t)
    (fun x => prefix4_contains prefix (l3_4 (local4 x))) (fun x => port_range_contains ports (l4_4 (local4 x)))).
  - rewrite elem_of_filter_bool. done.
  - exact S4.
  - intros y Hy. apply full4_sgn; [|done]. apply (entry_wf t); done.
  - intros y Hy Hp Hq. destruct (entry_wf t y Ht Hy) as [(_ & _ & Wl & Wr) _].
    rewrite taddr4_prefix_bound in Hp by done. apply port_range_contains_iff in Hq.
    pose proof (taddr4_key_range _ Wr). rewrite E0. unfold key4.
    assert (Hge : taddr4_key a <= taddr4_key (local4 y)).
    { unfold taddr4_key, a in *. simpl in *. destruct Wl as [Wa Wp].
      unfold is_u16, wf_addr4, is_u32 in *. destruct Hr as [[? ?] _].
      assert (s_addr (p4_address prefix) <= s_addr (l3_4 (local4 y))) by lia. nia. }
    nia.
  - intros y Hy Hlo. destruct (entry_wf t y Ht Hy) as [(_ & _ & Wl & Wr) _].
    rewrite taddr4_prefix_bound by done.
    pose proof (taddr4_key_range _ Wr). rewrite E0 in Hlo. unfold key4 in *.
    assert (Ha : s_addr (p4_address prefix) * 2 ^ 16 <= taddr4_key a)
      by (destruct Hr as [[? _] _]; unfold taddr4_key, a; simpl; lia).
    split; intros; nia.
Qed.

Lemma delete_taddr6s_purges brefs srefs t w prefix :
  tworld_inv brefs srefs (t, w) ->
  0 <= p6_len prefix -> wf_addr6 (p6_address prefix) -> prefix6_validate (Some prefix) = Ok tt ->
  purges (sessiontable_delete_taddr6s prefix)
    (fun x => prefix6_contains prefix (l3_6 (local6 x)) = true) brefs srefs t w.
Proof.
  intros Hi Hlen Hwp Hv. pose proof Hi as (_ & _ & Ht & _). cbn [fst] in Ht.
  pose proof Ht as (_ & S6 & Hp6 & _). apply prefix6_validate_clear in Hv as [Hl' Hs]; [|done..].
  eapply (purges_intro brefs srefs (rm_taddr6s prefix)); [done|reflexivity|right; apply starting_point_sublist|].
  set (a := TAddr6 (p6_address prefix) 0). set (k := (TADDR6_ZERO, a)).
  assert (Hk : wf_pair6 k) by (split; [apply taddr6_zero_wf|split; [done|unfold is_u16; simpl; lia]]).
  assert (E0 : pair_key6 k = s6_addr (p6_address prefix) * 2 ^ 16 * 2 ^ 144)
    by (unfold pair_key6, k, a; cbn [fst snd]; change (taddr6_key TADDR6_ZERO) with 0;
        unfold taddr6_key; cbn [l3_6 l4_6]; lia).
  assert (Hwf : forall y, y ∈ inorder (s_tree6 t) -> session_wf y)
    by (intros y Hy; rewrite Hp6 in Hy; apply (entry_wf t); done).
  intros x. unfold rm_taddr6s, find_starting_point6. cbn [fst]. fold a. fold k.
  rewrite (selected_range key6 session_compare_full6 k (pair_key6 k)
    ((s6_addr (p6_address prefix) + 2 ^ (128 - p6_len prefix)) * 2 ^ 16 * 2 ^ 144) (s_tree6 t)
    (fun x => prefix6_contains prefix (l3_6 (local6 x))) (fun _ => true)).
  - rewrite elem_of_filter_bool, andb_true_r, Hp6. done.
  - exact S6.
  - intros y Hy. apply full6_sgn; auto.
  - intros y Hy Hc _. destruct (Hwf y Hy) as (Wr & [Wl Wp] & _).
    rewrite prefix6_contains_interval in Hc by (done || lia).
    pose proof (taddr6_key_range _ Wr). rewrite E0. unfold key6, taddr6_key at 1.
    unfold is_u16 in Wp. lia.
  - intros y Hy Hlo. destruct (Hwf y Hy) as (Wr & [Wl Wp] & _).
    rewrite prefix6_contains_interval by (done || lia).
    pose proof (taddr6_key_range _ Wr). rewrite E0 in Hlo. unfold key6 in *.
    unfold taddr6_key at 1 in Hlo. unfold taddr6_key at 1. unfold is_u16 in Wp.
    generalize dependent (taddr6_key (remote6 y)). intros rk Hrk.
    set (H := 2 ^ (128 - p6_len prefix)). lia.
Qed.

(** ** Timers *)

Variable e : env.

(** [t'] is [t] with one of its timers perhaps armed. *)
Definition rearmed (k : timer_kind) (t t' : session_table) : Prop :=
  t' = t \/ exists at_, t' = put_timer k (mod_timer at_ (get_timer k t)) t.

Lemma rearmed_same k t t' :
  rearmed k t t' ->
  s_tree6 t' = s_tree6 t /\ s_tree4 t' = s_tree4 t /\ s_count t' = s_count t /\
  (forall k', et_sessions (get_timer k' t') = et_sessions (get_timer k' t)) /\
  (forall k', armed k' t -> armed k' t') /\
  (timers_set t -> timers_set t').
Proof.
  intros [->|[at_ ->]]; [tauto|]. destruct k; (split; [done|split; [done|split; [done|split;
    [intros []; done|split]]]]).
  - intros [] Ha; [|exact Ha]. intros _. eexists. reflexivity.
  - intros Ht []; [apply (Ht EST_TIMER) | apply (Ht TRANS_TIMER)].
  - intros [] Ha; [exact Ha|]. intros _. eexists. reflexivity.
  - intros Ht []; [apply (Ht EST_TIMER) | apply (Ht TRANS_TIMER)].
Qed.

Lemma rearmed_inv k t t' : rearmed k t t' -> session_table_inv t -> session_table_inv t'.
Proof.
  intros Hr (H1 & H2 & H3 & H4 & H5 & H6 & H7 & H8).
  destruct (rearmed_same _ _ _ Hr) as (E6 & E4 & Ec & El & _ & Hts).
  unfold session_table_inv, s_entries in *. rewrite E6, E4, Ec.
  pose proof (El EST_TIMER) as L1. pose proof (El TRANS_TIMER) as L2. cbn [get_timer] in L1, L2.
  rewrite L1, L2. auto 9.
Qed.

Lemma force_reschedule_run k t w :
  timers_set t -> queues_ok t (w_store w) ->
  exists t', force_reschedule e k (t, w) = Some (tt, (t', w)) /\ rearmed k t t' /\ armed k t'.
Proof.
  intros Ht Hq. unfold force_reschedule. rewrite (bind_run _ _ _ _ _ (get_table_run _)). cbn [fst].
  destruct (et_sessions (get_timer k t)) as [|x l] eqn:El.
  { exists t. split; [done|]. split; [left; done|]. intros Hne. congruence. }
  destruct (Hq k x) as (v & Hv & _ & Hok); [rewrite El; left|].
  rewrite (bind_run _ _ _ _ _ (on_sess_run _ _ _ _ _ (read_session_run _ _ _ Hv))).
  destruct (fns_some k _ Hok) as [[timeout Eto] _]. destruct (Ht k) as [-> _]. rewrite Eto.
  eexists. split; [destruct w; reflexivity|]. split; [right; eexists; reflexivity|].
  intros _. destruct k; eexists; reflexivity.
Qed.

Lemma reschedule_run k t w :
  timers_set t -> queues_ok t (w_store w) ->
  exists t', reschedule e k (t, w) = Some (tt, (t', w)) /\ rearmed k t t' /\ armed k t'.
Proof.
  intros Ht Hq. unfold reschedule. rewrite (bind_run _ _ _ _ _ (get_table_run _)). cbn [fst].
  destruct (timer (get_timer k t)) as [at_|] eqn:Et; [|apply force_reschedule_run; done].
  exists t. split; [done|]. split; [left; done|]. intros _. rewrite Et. eauto.
Qed.

(** Where a session goes when its timer is restarted. *)
Lemma et_moved x k t k' :
  et_sessions (get_timer k' (list_add_tail x k (list_del x t))) =
  List.filter (other_than se_loc x) (et_sessions (get_timer k' t)) ++
    (if decide (k' = k) then [x] else []).
Proof. destruct k, k'; simpl; rewrite ?app_nil_r; done. Qed.

Lemma moved_inv x k t :
  session_table_inv t -> x ∈ s_entries t ->
  session_table_inv (list_add_tail x k (list_del x t)).
Proof.
  intros (S4 & S6 & Hp & Hq & Hnd & Hw & Hc & Ht) Hx.
  assert (He : s_entries (list_add_tail x k (list_del x t)) = s_entries t) by (destruct k; done).
  unfold session_table_inv. rewrite He. split; [done|]. split; [destruct k; done|].
  split; [destruct k; done|]. split; [|split; [done|split; [done|split; [destruct k; done|]]]].
  - pose proof (et_moved x k t EST_TIMER) as E1. pose proof (et_moved x k t TRANS_TIMER) as E2.
    cbn [get_timer] in E1, E2. rewrite E1, E2.
    rewrite (other_than_perm se_loc x (s_entries t)) by done. rewrite <- Hq, List.filter_app.
    destruct k; cbn [decide]; rewrite ?decide_True, ?decide_False by done;
      rewrite ?app_nil_r, <- ?app_assoc; simpl; symmetry.
    + apply Permutation_middle.
    + rewrite app_assoc. apply Permutation_cons_append.
  - intros k'. destruct k, k'; (apply (Ht EST_TIMER) || apply (Ht TRANS_TIMER)).
Qed.

Definition fresh_vars (k : timer_kind) (v : session_vars) : session_vars :=
  set_expirer (Some k) (set_update_time (jiffies e) v).

Lemma restart_timer_run brefs srefs t w x v k :
  tworld_but x brefs srefs (t, w) -> x ∈ s_entries t -> live (w_store w) x v -> ok k (state v) ->
  exists t',
    restart_timer e x k (t, w) = Some (tt, (t', with_store w (wr x (fresh_vars k v) (w_store w)))) /\
    tworld_inv brefs srefs (t', with_store w (wr x (fresh_vars k v) (w_store w))) /\
    s_entries t' = s_entries t /\
    (forall k', et_sessions (get_timer k' t') =
       List.filter (other_than se_loc x) (et_sessions (get_timer k' t)) ++
         (if decide (k' = k) then [x] else [])) /\
    (forall k', armed k' t -> armed k' t') /\ armed k t'.
Proof.
  intros (Hw & Hs & Ht & Hq) Hx Hv Hok. cbn [fst snd] in *.
  set (w1 := with_store w (wr x (fresh_vars k v) (w_store w))).
  set (t1 := list_add_tail x k (list_del x t)).
  assert (Ht1 : session_table_inv t1) by (eapply moved_inv; done).
  assert (Hq1 : queues_ok t1 (w_store w1)).
  { intros k' y Hy. unfold t1 in Hy. rewrite et_moved, elem_of_app in Hy.
    destruct Hy as [Hy|Hy].
    - apply elem_of_filter_bool in Hy as [Hy Hne]. apply negb_true_iff, Pos.eqb_neq in Hne.
      destruct (Hq k' y Hy) as (vy & Hvy & Hey & [->|Ho]); [done|].
      exists vy. split; [apply live_wr_ne; done|done].
    - case_decide as Hd; [|inversion Hy]. apply list_elem_of_singleton in Hy as ->. subst k'.
      exists (fresh_vars k v). split; [apply live_wr_eq|done]. }
  pose proof Ht1 as (_ & _ & _ & _ & _ & _ & _ & Hts1).
  destruct (reschedule_run k t1 w1 Hts1 Hq1) as (t' & Hrun & Hre & Harm).
  destruct (rearmed_same _ _ _ Hre) as (E6 & E4 & Ec & El & Ha & _).
  pose proof (rearmed_inv _ _ _ Hre) as Hinv.
  exists t'. split; [|split; [|split; [|split; [|split]]]].
  - unfold restart_timer.
    rewrite (bind_run _ _ _ _ _ (on_sess_run _ _ _ _ _ (read_session_run _ _ _ Hv))).
    rewrite (bind_run _ _ _ _ _ (on_sess_run _ _ _ _ _ (write_session_run _ _ _))).
    rewrite (bind_run _ _ _ _ _ (upd_table_run _ _ _)). exact Hrun.
  - assert (Hent : s_entries t' = s_entries t) by (unfold s_entries; rewrite E4; destruct k; done).
    split; [|split; [done|split; [apply Hinv; done|]]]; cbn [fst snd].
    + pose proof (world_inv_wr _ _ _ _ _ (fresh_vars k v) Hw Hv eq_refl) as Hw1.
      eapply world_inv_ext; [exact Hw1|]. intros l. simpl. unfold table_refs. rewrite Hent. done.
    + intros k' y Hy. rewrite El in Hy. apply Hq1. done.
  - unfold s_entries. rewrite E4. destruct k; done.
  - intros k'. rewrite El. apply et_moved.
  - intros k' Hk'. destruct (decide (k' = k)) as [->|Hne]; [done|]. apply Ha.
    unfold armed, t1. rewrite et_moved, decide_False, app_nil_r by done. intros Hnil.
    assert (Hl : et_sessions (get_timer k' t) <> []).
    { intros E. rewrite E in Hnil. done. }
    destruct (Hk' Hl) as [at_ Hat]. exists at_. destruct k, k'; done.
  - done.
Qed.

(** ** Fates *)

(** The clone a probe is sent with: a new object, referenced by [probes]. *)
Lemma session_clone_run brefs srefs t w x v vc :
  tworld_but x brefs srefs (t, w) -> live (w_store w) x v ->
  exists c s', session_clone x vc (w_store w) = Some (c, s') /\
    let probes := match c with Some c => [c] | None => [] end in
    tworld_but x brefs (fun l => srefs l + refs_in se_loc probes l) (t, with_store w s') /\
    (forall y vy, live (w_store w) y vy -> live s' y vy) /\
    (forall y, y ∈ probes -> live s' y (set_refcounter 1 vc) /\
       sessions_of (st_sess (w_store w)) !! se_loc y = None /\ probe_of y = probe_of x) /\
    (forall p b, b ∈ bib_of_proto p (st_bib s') <-> b ∈ bib_of_proto p (st_bib (w_store w))).
Proof.
  intros (Hw & Hs & Ht & Hq) Hv. cbn [fst snd] in *. pose proof Hw as (Hst & Hs1 & Hqu & Hn).
  destruct (live_inv _ _ _ _ _ Hst Hv) as (Hwf & _ & _ & Hb).
  destruct (session_clone_spec brefs _ (w_store w) x vc Hst Hwf Hb) as (r & s' & Hrun & Hbib & Hpost).
  exists r, s'. split; [done|]. cbv zeta.
  assert (Hkeep : forall y vy, live (w_store w) y vy -> live s' y vy).
  { intros y vy Hy. destruct r as [c|].
    - destruct Hpost as (_ & Hnone & Hm & _). unfold live in *. rewrite Hm.
      rewrite lookup_insert_ne; [done|]. intros E. rewrite E in Hnone. congruence.
    - destruct Hpost as (_ & Hm). unfold live in *. rewrite Hm. done. }
  split; [|split; [done|split; [|done]]].
  - assert (Href : forall l, 0 <= refs_in se_loc (match r with Some c => [c] | None => [] end) l)
      by (intros l; apply refs_in_nonneg).
    split; [|split; [|split; [done|]]]; cbn [fst snd].
    + eapply world_inv_store; [exact Hw| | |].
      * destruct r as [c|].
        -- destruct Hpost as (_ & _ & _ & Hi'). eapply store_inv_ext; [exact Hi'|].
           intros l. simpl. rewrite refs_in_cons, refs_in_nil. unfold add_ref.
           destruct (Pos.eqb_spec (se_loc c) l) as [->|Hne].
           ++ rewrite decide_True by done. simpl. lia.
           ++ rewrite decide_False by congruence. simpl. lia.
        -- destruct Hpost as (Hi' & _). eapply store_inv_ext; [exact Hi'|].
           intros l. simpl. rewrite refs_in_nil. lia.
      * intros l. specialize (Hs1 l). specialize (Href l). simpl in *. lia.
      * intros n vn _ Hvn. eauto.
    + intros l. specialize (Hs l). specialize (Href l). lia.
    + intros k y Hy. destruct (Hq k y Hy) as (vy & Hvy & Hey). eauto.
  - intros y Hy. destruct r as [c|]; [|inversion Hy]. apply list_elem_of_singleton in Hy as ->.
    destruct Hpost as (Ec & Hnone & Hm & _). split; [unfold live; rewrite Hm; apply lookup_insert_eq|].
    split; [done|]. rewrite Ec. done.
Qed.

(** Where a fate sends a session. *)
Definition fate_target (fate : session_fate) : option timer_kind :=
  match fate with
  | FATE_TIMER_EST => Some EST_TIMER
  | FATE_TIMER_TRANS | FATE_PROBE => Some TRANS_TIMER
  | FATE_RM | FATE_PRESERVE => None
  end.

Definition fate_vars (fate : session_fate) (v : session_vars) : session_vars :=
  match fate_target fate, fate with
  | Some k, _ => fresh_vars k v
  | None, FATE_RM => set_expirer None v
  | None, _ => v
  end.

Definition fate_queue (fate : session_fate) (x : session_entry) (k : timer_kind)
    (l : list session_entry) : list session_entry :=
  match fate with
  | FATE_PRESERVE => l
  | _ => List.filter (other_than se_loc x) l ++
           (if decide (fate_target fate = Some k) then [x] else [])
  end.

(** What [decide_fate] does with a session of the table: [rms'] and
    [probes'] are what it adds to the lists. *)
Definition decided (brefs srefs : positive -> Z) (fate : session_fate) (x : session_entry)
    (v' : session_vars) (t : session_table) (w : world) (t' : session_table) (w' : world)
    (rms' probes' : list session_entry) : Prop :=
  rms' = (match fate with FATE_RM => [x] | _ => [] end) /\
  (match fate with FATE_PROBE => (length probes' <= 1)%nat | _ => probes' = [] end) /\
  tworld_inv brefs (fun l => srefs l + refs_in se_loc (rms' ++ probes') l) (t', w') /\
  s_entries t ≡ₚ rms' ++ s_entries t' /\
  (forall k, et_sessions (get_timer k t') = fate_queue fate x k (et_sessions (get_timer k t))) /\
  (forall k, armed k t -> armed k t') /\
  (forall k, get_timeout (get_timer k t') = get_timeout (get_timer k t) /\
     decide_fate_cb (get_timer k t') = decide_fate_cb (get_timer k t)) /\
  w_queue w' = w_queue w /\ w_out w' = w_out w /\
  live (w_store w') x (fate_vars fate v') /\
  (forall y vy, live (w_store w) y vy -> y <> x -> live (w_store w') y vy) /\
  (forall y, y ∈ probes' ->
     (y ∉ s_entries t) /\ probe_of y = probe_of x /\ exists vy, live (w_store w') y vy) /\
  (forall p b, b ∈ bib_of_proto p (st_bib (w_store w')) <-> b ∈ bib_of_proto p (st_bib (w_store w))).

Lemma wr_wr x v v' s : wr x v (wr x v' s) = wr x v s.
Proof. unfold wr, put_sessions. simpl. rewrite insert_insert_eq. done. Qed.

Lemma entry_wr_other x v s y vy vx : live s x vx -> live s y vy -> y <> x -> live (wr x v s) y vy.
Proof.
  intros Hx Hy Hne. apply live_wr_ne; [|done]. intros E. apply Hne. eapply live_loc; done.
Qed.

Lemma restart_timer_same t w k x t' w' :
  restart_timer e x k (t, w) = Some (tt, (t', w')) ->
  forall k', get_timeout (get_timer k' t') = get_timeout (get_timer k' t) /\
     decide_fate_cb (get_timer k' t') = decide_fate_cb (get_timer k' t).
Proof.
  unfold restart_timer, reschedule, force_reschedule, mbind, M_bind, on_sess, on_world, on_store, get_table,
    upd_table, modify, gets, mret, M_ret. intros H.
  destruct (read_session x (w_store w)) as [[v s]|]; [|done].
  destruct (write_session _ _ _) as [[u s']|]; [|done]. cbn [fst snd] in H.
  destruct (timer _); [injection H as <- <-; intros []; destruct k; done|].
  destruct (et_sessions _); [injection H as <- <-; intros []; destruct k; done|].
  destruct (read_session _ _) as [[v2 s2]|]; [|done].
  destruct (get_timeout (get_timer k _)); [|done].
  injection H as <- <-. intros []; destruct k; done.
Qed.

Lemma decide_fate_spec brefs srefs t w x v k cb rms probes fate v' :
  tworld_inv brefs srefs (t, w) -> x ∈ s_entries t -> live (w_store w) x v -> expirer v = Some k ->
  ok k (state v) -> cb_ok cb -> cb e x v = (fate, v') ->
  exists t' w' rms' probes',
    decide_fate e cb x (rms, probes) (t, w) = Some ((rms' ++ rms, probes' ++ probes), (t', w')) /\
    decided brefs srefs fate x v' t w t' w' rms' probes'.
Proof.
  intros Hi Hx Hv Hk Hok Hcb Hf. specialize (Hcb e x v k Hk Hok). rewrite Hf in Hcb.
  destruct Hcb as (Hr & He & Hfate).
  pose proof (tworld_but_wr x v v' brefs srefs t w Hi Hv Hr He) as Hbut.
  set (w1 := with_store w (wr x v' (w_store w))) in *.
  assert (Hv1 : live (w_store w1) x v') by apply live_wr_eq.
  assert (Hrun0 : forall B (f : session_vars -> M tworld B),
    (v0 ← on_sess (read_session x); f v0) (t, w) = f v (t, w)).
  { intros B f. rewrite (bind_run _ _ _ _ _ (on_sess_run _ _ _ _ _ (read_session_run _ _ _ Hv))).
    destruct w; done. }
  assert (Hrestart : forall k', fate_target fate = Some k' -> ok k' (state v') -> fate <> FATE_PROBE ->
    exists t', restart_timer e x k' (t, w1) = Some (tt, (t', with_store w (wr x (fresh_vars k' v') (w_store w)))) /\
      decided brefs srefs fate x v' t w t' (with_store w (wr x (fresh_vars k' v') (w_store w))) [] []).
  { intros k' Hk' Hok' Hnp.
    destruct (restart_timer_run brefs srefs t w1 x v' k' Hbut Hx Hv1 Hok') as
      (t' & Hrun & Hi' & Hent & Hl & Ha & Ha').
    cbn [w_store w1 with_store w_queue w_out] in Hrun, Hi'. rewrite wr_wr in Hrun, Hi'.
    exists t'. split; [exact Hrun|].
    split; [destruct fate; done|]. split; [destruct fate; simpl; (done || lia)|].
    split; [eapply tworld_inv_ext; [exact Hi'|]; intros l; simpl; rewrite refs_in_nil; lia|].
    split; [rewrite Hent; done|]. split; [|split; [done|split; [eapply restart_timer_same; exact Hrun|]]].
    - intros k0. rewrite Hl. destruct fate; cbn [fate_target fate_queue] in *; try done; injection Hk' as <-;
        (destruct (decide (k0 = _)) as [->|Hne];
          [rewrite decide_True by done | rewrite decide_False by congruence]); done.
    - split; [done|]. split; [done|]. split; [unfold fate_vars; rewrite Hk'; apply live_wr_eq|].
      split; [intros y vy Hy Hne; eapply entry_wr_other; done|]. split; [|done].
      intros y Hy. inversion Hy. }
  unfold decide_fate. rewrite Hrun0, Hf.
  rewrite (bind_run _ _ _ _ _ (on_sess_run _ _ _ _ _ (write_session_run _ _ _))). fold w1.
  destruct fate.
  - destruct (Hrestart _ eq_refl Hfate ltac:(done)) as (t' & Hrun & Hdec).
    eexists _, _, [], []. rewrite (bind_run _ _ _ _ _ Hrun). split; [reflexivity|exact Hdec].
  - destruct (Hrestart _ eq_refl Hfate ltac:(done)) as (t' & Hrun & Hdec).
    eexists _, _, [], []. rewrite (bind_run _ _ _ _ _ Hrun). split; [reflexivity|exact Hdec].
  - destruct (session_rm_run brefs srefs t w1 x v' rms Hbut Hx Hv1) as (Hrun & Hi').
    cbn [w_store w1 with_store w_queue w_out] in Hrun, Hi'. rewrite wr_wr in Hrun, Hi'.
    eexists _, _, [x], []. rewrite (bind_run _ _ _ _ _ Hrun). split; [reflexivity|].
    pose proof Hi as (_ & _ & Ht & _). destruct (unlinked_inv t x Ht Hx) as [_ Hp].
    split; [done|]. split; [done|]. split; [|split; [exact Hp|split; [|split]]].
    + eapply tworld_inv_ext; [exact Hi'|]. intros l. simpl. rewrite refs_in_cons, refs_in_nil. unfold add_ref.
      destruct (Pos.eqb_spec (se_loc x) l) as [->|Hne].
      * rewrite decide_True by done. simpl. lia.
      * rewrite decide_False by congruence. simpl. lia.
    + intros k'. rewrite et_unlinked. unfold fate_queue. cbn [fate_target].
      destruct (decide _) as [E|E]; [discriminate E|]. rewrite app_nil_r. done.
    + intros k'. unfold armed. rewrite et_unlinked. intros Ha Hne.
      assert (Hl : et_sessions (get_timer k' t) <> []) by (intros E; rewrite E in Hne; done).
      destruct (Ha Hl) as [at_ Hat]. exists at_. destruct k'; done.
    + split; [intros k'; destruct k'; done|]. split; [done|]. split; [done|].
      split; [apply live_wr_eq|]. split; [intros y vy Hy Hne; eapply entry_wr_other; done|].
      split; [|done]. intros y Hy. inversion Hy.
  - eexists t, w1, [], []. split; [reflexivity|]. split; [done|]. split; [done|].
    split.
    { eapply tworld_inv_ext; [eapply tworld_but_inv; [exact Hbut | exact Hv1 |]|].
      - intros k' Hk'. assert (k' = k) as -> by congruence. done.
      - intros l. simpl. rewrite refs_in_nil. lia. }
    split; [done|]. split; [done|]. split; [done|]. split; [done|]. split; [done|]. split; [done|].
    split; [apply live_wr_eq|]. split; [intros y vy Hy Hne; eapply entry_wr_other; done|].
    split; [|done]. intros y Hy. inversion Hy.
  - destruct (session_clone_run brefs srefs t w1 x v' v' Hbut Hv1) as (c & s' & Hrun & Hbut' & Hkeep & Hc & Hbib).
    set (probes' := match c with Some c => [c] | None => [] end) in *.
    rewrite (bind_run _ _ _ _ _ (on_sess_run _ _ _ _ _ Hrun)).
    destruct (restart_timer_run brefs _ t (with_store w1 s') x v' TRANS_TIMER Hbut' Hx (Hkeep _ _ Hv1) Hfate) as
      (t' & Hrun' & Hi' & Hent & Hl & Ha & Ha').
    eexists t', _, [], probes'. rewrite (bind_run _ _ _ _ _ Hrun').
    split; [subst probes'; destruct c; reflexivity|].
    assert (Hne : forall y, y ∈ probes' -> y ∉ s_entries t).
    { intros y Hy Hin. destruct (Hc y Hy) as (_ & Hnone & _).
      destruct (entry_live brefs srefs t w y Hi Hin) as (vy & ky & Hly & _). unfold live in *.
      cbn [w1 with_store w_store wr put_sessions st_sess sessions_of] in Hnone.
      apply lookup_insert_None in Hnone as [Hnone _]. congruence. }
    assert (Hnx : forall y, y ∈ probes' -> y <> x) by (intros y Hy ->; apply (Hne x Hy Hx)).
    split; [done|]. split; [subst probes'; destruct c; simpl; lia|]. split; [exact Hi'|].
    split; [rewrite Hent; done|]. split; [|split; [done|split; [eapply restart_timer_same; exact Hrun'|]]].
    + intros k0. rewrite Hl. unfold fate_queue. cbn [fate_target].
      destruct (decide (k0 = TRANS_TIMER)) as [->|Hn0], (decide (Some _ = Some _)) as [E|E]; congruence.
    + split; [done|]. split; [done|]. split; [apply live_wr_eq|]. split; [|split].
      * intros y vy Hy Hny. eapply entry_wr_other; [apply Hkeep; exact Hv1| |done].
        apply Hkeep. eapply entry_wr_other; done.
      * intros y Hy. destruct (Hc y Hy) as (Hly & _ & Hpr). split; [auto|]. split; [done|].
        eexists. eapply entry_wr_other; [apply Hkeep; exact Hv1 | exact Hly | apply Hnx; done].
      * intros p b. exact (Hbib p b).
Qed.

(** The events of a list of probes, latest first. *)
Fixpoint probe_events (probes : list session_entry) (out : list event) : list event :=
  match probes with
  | [] => out
  | x :: probes => probe_events probes (if probe_ok e x then EvProbe (probe_of x) :: out else out)
  end.

Lemma tworld_inv_out brefs srefs t w out :
  tworld_inv brefs srefs (t, w) -> tworld_inv brefs srefs (t, World (w_store w) (w_queue w) out).
Proof. intros H. exact H. Qed.

Lemma send_probes_spec brefs srefs l : (forall loc, 0 <= srefs loc) -> forall t w,
  tworld_inv brefs (fun loc => srefs loc + refs_in se_loc l loc) (t, w) ->
  (forall x, x ∈ l -> exists v, live (w_store w) x v) ->
  exists s', send_probes e l (t, w) = Some (tt, (t, World s' (w_queue w) (probe_events l (w_out w)))) /\
    tworld_inv brefs srefs (t, World s' (w_queue w) (probe_events l (w_out w))) /\
    bib_shrinks brefs l (st_bib (w_store w)) (st_bib s') /\
    store_frame (fun loc => 0 < all_refs srefs t w loc) (w_store w) s'.
Proof.
  intros Hs. induction l as [|x l IH]; intros t w Hi Hl.
  { exists (w_store w). destruct w as [s q o]. split; [done|].
    split; [|split; [apply bib_shrinks_refl|apply store_frame_refl]].
    eapply tworld_inv_ext; [exact Hi|]. intros loc. simpl. rewrite refs_in_nil. lia. }
  destruct (Hl x ltac:(left)) as [v Hv].
  set (out := if probe_ok e x then EvProbe (probe_of x) :: w_out w else w_out w).
  set (w0 := World (w_store w) (w_queue w) out).
  set (rest := fun loc => srefs loc + refs_in se_loc l loc).
  assert (Hrest : forall loc, 0 <= rest loc)
    by (intros loc; unfold rest; specialize (Hs loc); pose proof (refs_in_nonneg se_loc l loc); lia).
  destruct (return_run brefs rest t w0 x v) as (dead & s1 & Hrun & Hi1 & Hb1 & Hf1); [|done|done|].
  { apply tworld_inv_out. eapply tworld_inv_ext; [exact Hi|]. apply refs_add. }
  destruct (IH t (with_store w0 s1) Hi1) as (s' & Hrun' & Hi' & Hb' & Hf').
  { intros y Hy. destruct (Hl y ltac:(right; done)) as [vy Hvy].
    destruct (Hf1 _ _ Hvy) as [m Hm]; [|eauto]. apply all_refs_own. unfold rest.
    specialize (Hs (se_loc y)). pose proof (refs_in_pos se_loc y l Hy). lia. }
  exists s'. split; [|split; [exact Hi'|split]].
  - cbn [send_probes].
    assert (Hp : send_probe_packet e x (t, w) = Some (tt, (t, w0))).
    { unfold send_probe_packet, w0, out. destruct (probe_ok e x); [done|]. destruct w; done. }
    rewrite (bind_run _ _ _ _ _ Hp).
    rewrite (bind_run _ _ _ _ _ (on_sess_run _ _ _ _ _ Hrun)). exact Hrun'.
  - exact (bib_shrinks_trans brefs [x] l _ _ _ Hb1 Hb').
  - eapply store_frame_trans; [|exact Hf']. eapply store_frame_weaken; [|exact Hf1].
    intros loc Hk. simpl in *. unfold all_refs, rest in *. pose proof (refs_in_nonneg se_loc l loc). simpl in *. lia.
Qed.

Lemma post_fate_spec brefs srefs rms probes t w :
  (forall loc, 0 <= srefs loc) ->
  tworld_inv brefs (fun loc => srefs loc + refs_in se_loc (rms ++ probes) loc) (t, w) ->
  (forall x, x ∈ rms ++ probes -> exists v, live (w_store w) x v) ->
  exists s' w', w' = World s' (w_queue w) (probe_events probes (w_out w)) /\
    post_fate e (rms, probes) (t, w) = Some (tt, (t, w')) /\
    tworld_inv brefs srefs (t, w') /\
    bib_shrinks brefs (probes ++ rms) (st_bib (w_store w)) (st_bib s') /\
    store_frame (fun loc => 0 < all_refs srefs t w loc) (w_store w) s'.
Proof.
  intros Hs Hi Hl.
  assert (Hr : forall loc, 0 <= srefs loc + refs_in se_loc rms loc)
    by (intros loc; specialize (Hs loc); pose proof (refs_in_nonneg se_loc rms loc); lia).
  destruct (send_probes_spec brefs (fun loc => srefs loc + refs_in se_loc rms loc) probes Hr t w)
    as (s1 & Hrun1 & Hi1 & Hb1 & Hf1).
  { eapply tworld_inv_ext; [exact Hi|]. intros loc. simpl. rewrite refs_in_app. lia. }
  { intros x Hx. apply Hl. apply elem_of_app. auto. }
  destruct (delete_sessions_spec brefs srefs rms Hs t _ Hi1) as (s2 & Hrun2 & Hi2 & Hb2 & Hf2).
  { intros x Hx. destruct (Hl x) as [v Hv]; [apply elem_of_app; auto|].
    destruct (Hf1 x v Hv) as [m Hm]; [|eauto]. apply all_refs_own. specialize (Hs (se_loc x)).
    pose proof (refs_in_pos se_loc x rms Hx). lia. }
  exists s2, (with_store (World s1 (w_queue w) (probe_events probes (w_out w))) s2).
  split; [done|]. split; [|split; [exact Hi2|split]].
  - unfold post_fate. rewrite (bind_run _ _ _ _ _ Hrun1). exact Hrun2.
  - exact (bib_shrinks_trans brefs probes rms _ _ _ Hb1 Hb2).
  - eapply store_frame_trans; [|exact Hf2]. eapply store_frame_weaken; [|exact Hf1].
    intros loc Hk. simpl in *. unfold all_refs in *. simpl in *. pose proof (refs_in_nonneg se_loc rms loc). lia.
Qed.

(** ** Lookups that update *)

(** The sessions other than [x] that somebody still references keep
    everything but their counters. *)
Definition others_kept (srefs : positive -> Z) (x : session_entry) (t : session_table) (w w' : world) : Prop :=
  forall y vy, live (w_store w) y vy -> y <> x -> 0 < srefs (se_loc y) \/ y ∈ s_entries t ->
    exists n, live (w_store w') y (set_refcounter n vy).

(** What finding the session [x] and deciding its fate does; the caller ends
    up with a reference to it. *)
Definition got (brefs srefs : positive -> Z) (cb : fate_cb) (x : session_entry) (t : session_table)
    (w : world) (t' : session_table) (w' : world) : Prop :=
  exists v k n fate v',
    live (w_store w) x v /\ expirer v = Some k /\ ok k (state v) /\
    cb e x (set_refcounter n v) = (fate, v') /\
    tworld_inv brefs (add_ref srefs (se_loc x) 1) (t', w') /\
    s_entries t ≡ₚ (match fate with FATE_RM => [x] | _ => [] end) ++ s_entries t' /\
    (forall k, et_sessions (get_timer k t') = fate_queue fate x k (et_sessions (get_timer k t))) /\
    (forall k, armed k t -> armed k t') /\
    w_queue w' = w_queue w /\
    (w_out w' = w_out w \/ fate = FATE_PROBE /\ w_out w' = EvProbe (probe_of x) :: w_out w) /\
    (exists m, live (w_store w') x (set_refcounter m (fate_vars fate v'))) /\
    others_kept srefs x t w w' /\
    (forall p b, b ∈ bib_of_proto p (st_bib (w_store w')) -> b ∈ bib_of_proto p (st_bib (w_store w))) /\
    (forall p b, b ∈ bib_of_proto p (st_bib (w_store w)) -> 1 <= brefs (bib_loc b) ->
       b ∈ bib_of_proto p (st_bib (w_store w'))).

Lemma session_get_run brefs srefs t w x v :
  tworld_inv brefs srefs (t, w) -> live (w_store w) x v ->
  let w1 := with_store w (wr x (set_refcounter (se_refcounter v + 1) v) (w_store w)) in
  on_sess (session_get x) (t, w) = Some (tt, (t, w1)) /\
  tworld_inv brefs (add_ref srefs (se_loc x) 1) (t, w1).
Proof.
  intros Hi Hv. pose proof Hi as ((Hst & _) & Hs & _). cbn [fst snd] in Hst.
  destruct (session_get_spec brefs _ (w_store w) x v Hst Hv) as (s' & Hrun & Hi' & ->).
  split; [apply (on_sess_run _ _ _ _ _ Hrun)|].
  eapply (tworld_inv_frame brefs srefs); [exact Hi | | |].
  - eapply store_inv_ext; [exact Hi'|]. intros l. unfold all_refs, add_ref. case_decide; lia.
  - intros l. unfold add_ref. specialize (Hs l). case_decide; lia.
  - intros y vy Hy _. destruct (decide (se_loc y = se_loc x)) as [E|E].
    + pose proof (live_loc _ _ _ _ _ Hy Hv E) as ->. pose proof (live_fun _ _ _ _ Hy Hv) as ->.
      eexists. apply live_wr_eq.
    + exists (se_refcounter vy). rewrite set_refcounter_id. apply live_wr_ne; done.
Qed.

Lemma sessiontable_get_spec brefs srefs t w tup cb :
  tworld_inv brefs srefs (t, w) -> wf_tuple tup -> cb_ok cb ->
  exists r t' w', sessiontable_get e tup (Some cb) (t, w) = Some (r, (t', w')) /\
  match r with
  | Ok x => x ∈ s_entries t /\ matches tup x /\ got brefs srefs cb x t w t' w'
  | Err err => err = ESRCH /\ t' = t /\ w' = w /\ forall x, x ∈ s_entries t -> ~ matches tup x
  end.
Proof.
  intros Hi Hw Hcb. pose proof Hi as (_ & Hs & Ht & _). cbn [fst snd] in *.
  unfold sessiontable_get. rewrite (bind_run _ _ _ _ _ (get_table_run _)). cbn [fst].
  destruct (sessiontable_find t tup) as [x|] eqn:Ef.
  2:{ eexists _, t, w. split; [reflexivity|]. split; [done|]. split; [done|]. split; [done|].
      intros x Hx Hm. assert (sessiontable_find t tup = Some x) by (apply sessiontable_find_iff; done).
      congruence. }
  apply (sessiontable_find_iff t tup x Ht Hw) in Ef as [Hx Hm].
  destruct (entry_live brefs srefs t w x Hi Hx) as (v & k & Hv & Hk & Hok & _).
  destruct (session_get_run brefs srefs t w x v Hi Hv) as [Hrun1 Hi1].
  set (v1 := set_refcounter (se_refcounter v + 1) v) in *.
  set (w1 := with_store w (wr x v1 (w_store w))) in *.
  rewrite (bind_run _ _ _ _ _ Hrun1).
  destruct (cb e x v1) as [fate v'] eqn:Ecb.
  destruct (decide_fate_spec brefs _ t w1 x v1 k cb [] [] fate v' Hi1 Hx (live_wr_eq _ _ _) Hk Hok Hcb Ecb)
    as (t2 & w2 & rms & probes & Hrun2 & Hdec).
  rewrite !app_nil_r in Hrun2.
  destruct Hdec as (Erms & Epr & Hi2 & Hent & Hlists & Harm & _ & Eq & Eo & Hv2 & Hoth & Hpr & Hbib).
  assert (Hs1 : forall l, 0 <= add_ref srefs (se_loc x) 1 l)
    by (intros l; unfold add_ref; specialize (Hs l); case_decide; lia).
  destruct (post_fate_spec brefs (add_ref srefs (se_loc x) 1) rms probes t2 w2 Hs1 Hi2)
    as (s3 & w3 & Ew3 & Hrun3 & Hi3 & Hb3 & Hf3).
  { intros y Hy. apply elem_of_app in Hy as [Hy|Hy].
    - rewrite Erms in Hy. destruct fate; try (inversion Hy; fail).
      apply list_elem_of_singleton in Hy as ->. eauto.
    - destruct (Hpr y Hy) as (_ & _ & Hly). done. }
  exists (Ok x), t2, w3. split.
  { erewrite bind_run; [reflexivity|]. rewrite (bind_run _ _ _ _ _ Hrun2). exact Hrun3. }
  split; [done|]. split; [done|]. exists v, k, (se_refcounter v + 1), fate, v'.
  split; [done|]. split; [done|]. split; [done|]. split; [done|]. split; [exact Hi3|].
  split; [rewrite Hent, Erms; done|]. split; [done|]. split; [done|].
  rewrite Ew3. cbn [w_queue w_out w_store]. split; [rewrite Eq; done|].
  split.
  { rewrite Eo. destruct fate; rewrite ?Epr; try (left; done).
    destruct probes as [|c [|c' probes]]; [left; done| |].
    - simpl. destruct (probe_ok e c); [|left; done]. right. split; [done|].
      destruct (Hpr c ltac:(left)) as (_ & -> & _). done.
    - simpl in Epr. lia. }
  split; [destruct (Hf3 _ _ Hv2) as [m Hm']; [apply all_refs_own; rewrite add_ref_eq; specialize (Hs (se_loc x)); lia|eauto]|].
  split; [|split].
  - intros y vy Hy Hne Hor. apply (Hf3 y vy).
    + apply Hoth; [|done]. eapply entry_wr_other; done.
    + destruct Hor as [Hor|Hor]; [apply all_refs_own; unfold add_ref; case_decide; lia|].
      apply all_refs_table; [done|]. rewrite Hent, Erms in Hor. apply elem_of_app in Hor as [Hor|Hor]; [|done].
      destruct fate; try (inversion Hor; fail). apply list_elem_of_singleton in Hor. congruence.
  - intros p b Hb. apply Hb3 in Hb. apply Hbib in Hb. done.
  - intros p b Hb Hbr. apply Hb3; [apply Hbib; done|auto].
Qed.

(** ** Adding *)

(** The identifiers of a session are taken. *)
Definition collides (x y : session_entry) : Prop :=
  (local6 y = local6 x /\ remote6 y = remote6 x) \/ (local4 y = local4 x /\ remote4 y = remote4 x).

Lemma add6_spec t x :
  session_table_inv t -> session_wf x ->
  match rbtree_add compare_session6 x x (s_tree6 t) with
  | Err err => err = EEXIST /\ exists y, y ∈ s_entries t /\ local6 y = local6 x /\ remote6 y = remote6 x
  | Ok tr => sorted_by key6 (inorder tr) /\ inorder tr ≡ₚ x :: s_entries t /\
      (exists l1 l2, inorder (s_tree6 t) = l1 ++ l2 /\ inorder tr = l1 ++ x :: l2) /\
      forall y, y ∈ s_entries t -> ~ (local6 y = local6 x /\ remote6 y = remote6 x)
  end.
Proof.
  intros Hi Hx. pose proof Hi as (_ & S6 & Hp & _). pose proof Hx as (Xr6 & Xl6 & _ & _).
  assert (Hw : forall y, y ∈ inorder (s_tree6 t) -> session_wf y)
    by (intros y Hy; rewrite Hp in Hy; apply (entry_wf t); done).
  assert (Heq : forall y, session_wf y -> key6 y = key6 x <-> local6 y = local6 x /\ remote6 y = remote6 x)
    by (intros y Hy; apply (key6_eq y (remote6 x, local6 x)); done).
  pose proof (rbtree_add_keyed key6 compare_session6 x x (s_tree6 t) S6) as Ha.
  destruct (rbtree_add compare_session6 x x (s_tree6 t)) as [tr|err].
  - destruct Ha as (A & B & C & D); [intros y Hy; apply session6_sgn; auto|].
    split; [done|]. split; [rewrite B, Hp; done|]. split; [done|].
    intros y Hy E. rewrite <- Hp in Hy. apply (D y Hy). apply Heq; auto.
  - destruct Ha as (-> & y & Hy & E); [intros y Hy; apply session6_sgn; auto|].
    split; [done|]. exists y. rewrite <- Hp. split; [done|]. apply Heq; auto.
Qed.

Lemma add4_spec t x :
  session_table_inv t -> session_wf x ->
  match rbtree_add compare_session4 x x (s_tree4 t) with
  | Err err => err = EEXIST /\ exists y, y ∈ s_entries t /\ local4 y = local4 x /\ remote4 y = remote4 x
  | Ok tr => sorted_by key4 (inorder tr) /\ inorder tr ≡ₚ x :: s_entries t /\
      forall y, y ∈ s_entries t -> ~ (local4 y = local4 x /\ remote4 y = remote4 x)
  end.
Proof.
  intros Hi Hx. pose proof Hi as (S4 & _). pose proof Hx as (_ & _ & Xl4 & Xr4).
  assert (Hw : forall y, y ∈ s_entries t -> session_wf y) by (intros y Hy; apply (entry_wf t); done).
  assert (Heq : forall y, session_wf y -> key4 y = key4 x <-> local4 y = local4 x /\ remote4 y = remote4 x)
    by (intros y Hy; apply (key4_eq y (remote4 x, local4 x)); done).
  pose proof (rbtree_add_keyed key4 compare_session4 x x (s_tree4 t) S4) as Ha.
  destruct (rbtree_add compare_session4 x x (s_tree4 t)) as [tr|err].
  - destruct Ha as (A & B & _ & D); [intros y Hy; apply session4_sgn; auto|].
    split; [done|]. split; [done|]. intros y Hy E. apply (D y Hy). apply Heq; auto.
  - destruct Ha as (-> & y & Hy & E); [intros y Hy; apply session4_sgn; auto|].
    split; [done|]. exists y. split; [done|]. apply Heq; auto.
Qed.

(** The world of a table after the packet queue forgot a packet. *)
Lemma tworld_forgotten brefs srefs x t w w1 gone :
  tworld_inv brefs srefs (t, w) ->
  forgotten brefs (fun l => srefs l + table_refs t l) x w w1 gone ->
  tworld_inv brefs srefs (t, w1) /\ others_kept srefs x t w w1 /\
  (forall v, live (w_store w) x v -> 0 < srefs (se_loc x) ->
     exists n, live (w_store w1) x (set_refcounter n v)).
Proof.
  intros (Hw & Hs & Ht & Hq) (Hw1 & _ & _ & _ & _ & _ & Hf). cbn [fst snd] in *.
  assert (Hown : forall l, 0 < srefs l -> 0 < srefs l + table_refs t l).
  { intros l Hl. pose proof (refs_in_nonneg se_loc (s_entries t) l). unfold table_refs. lia. }
  assert (Htab : forall y, y ∈ s_entries t -> 0 < srefs (se_loc y) + table_refs t (se_loc y)).
  { intros y Hy. pose proof (refs_in_pos se_loc y _ Hy). specialize (Hs (se_loc y)). unfold table_refs. lia. }
  split; [|split].
  - split; [done|]. split; [done|]. split; [done|]. cbn [fst snd]. intros k y Hy.
    destruct (Hq k y Hy) as (vy & Hvy & Hey & Hoy).
    destruct (Hf y vy Hvy) as [n Hn]; [apply Htab, (in_queues t y Ht); eauto|].
    exists (set_refcounter n vy). done.
  - intros y vy Hy _ Hor. apply (Hf y vy Hy). destruct Hor; auto.
  - intros v Hv Hpos. apply (Hf x v Hv). auto.
Qed.

(** What [sessiontable_add] does on both its outcomes. *)
Definition added (brefs srefs : positive -> Z) (x : session_entry) (v : session_vars) (k : timer_kind)
    (t : session_table) (w : world) (r : result unit) (t' : session_table) (w' : world) : Prop :=
  tworld_inv brefs srefs (t', w') /\ others_kept srefs x t w w' /\
  (forall k, armed k t -> armed k t') /\
  match r with
  | Ok _ => s_entries t' ≡ₚ x :: s_entries t /\ (forall y, y ∈ s_entries t -> ~ collides x y) /\
      (forall k', et_sessions (get_timer k' t') =
         et_sessions (get_timer k' t) ++ (if decide (k' = k) then [x] else [])) /\ armed k t' /\
      exists n, live (w_store w') x (set_refcounter n (fresh_vars k v))
  | Err err => err = EEXIST /\ s_entries t' = s_entries t /\ inorder (s_tree6 t') = inorder (s_tree6 t) /\
      (forall k', get_timer k' t' = get_timer k' t) /\ (exists y, y ∈ s_entries t /\ collides x y) /\
      exists n, live (w_store w') x (set_refcounter n v)
  end.

Lemma sessiontable_add_spec brefs srefs t w x v est :
  let k := if est : bool then EST_TIMER else TRANS_TIMER in
  tworld_inv brefs srefs (t, w) -> live (w_store w) x v -> 0 < srefs (se_loc x) ->
  se_l4_proto x = proto -> se_loc x ∉ (se_loc <$> s_entries t) -> ok k (state v) ->
  exists r t' w1 w' gone, sessiontable_add e x est (t, w) = Some (r, (t', w')) /\
    forgotten brefs (fun l => srefs l + table_refs t l) x w w1 gone /\
    w_queue w' = w_queue w1 /\ w_out w' = w_out w1 /\ st_bib (w_store w') = st_bib (w_store w1) /\
    added brefs srefs x v k t w r t' w'.
Proof.
  intros k Hi Hv Hpos Hpr Hfresh Hok.
  pose proof Hi as (Hw & Hs & Ht & _). cbn [fst snd] in *.
  assert (Hx : session_wf x) by (destruct Hw as (Hst & _); apply (live_inv _ _ _ _ _ Hst Hv)).
  destruct (pktqueue_remove_spec brefs _ w x Hw Hx) as (w1 & gone & Hrun1 & Hforg).
  destruct (tworld_forgotten brefs srefs x t w w1 gone Hi Hforg) as (Hi1 & Hoth1 & Hlive1).
  destruct (Hlive1 v Hv Hpos) as [n1 Hv1].
  pose proof (add6_spec t x Ht Hx) as H6. pose proof (add4_spec t x Ht Hx) as H4.
  unfold sessiontable_add.
  assert (Hrun1' : on_world (pktqueue_remove x) (t, w) = Some (tt, (t, w1)))
    by (unfold on_world; rewrite Hrun1; done).
  rewrite (bind_run _ _ _ _ _ Hrun1'), (bind_run _ _ _ _ _ (get_table_run _)). cbn [fst].
  destruct (rbtree_add compare_session6 x x (s_tree6 t)) as [tr6|err6].
  2:{ destruct H6 as (-> & y & Hy & E). eexists _, t, w1, w1, gone. split; [reflexivity|].
      split; [done|]. split; [done|]. split; [done|]. split; [done|].
      split; [done|]. split; [done|]. split; [done|]. split; [done|]. split; [done|]. split; [done|].
      split; [done|]. split; [exists y; split; [done|]; left; done|]. eauto. }
  destruct H6 as (S6' & P6 & (l1 & l2 & E1 & E2) & N6).
  destruct (rbtree_add compare_session4 x x (s_tree4 t)) as [tr4|err4].
  2:{ destruct H4 as (-> & y & Hy & E).
      set (t' := SessionTable (rb_erase (same_session x) tr6) (s_tree4 t) (s_count t) (est_timer t) (trans_timer t)).
      assert (E6 : inorder (s_tree6 t') = inorder (s_tree6 t)).
      { simpl. rewrite inorder_erase. change (fun s => negb (same_session x s)) with (other_than se_loc x).
        rewrite E2, E1. apply other_than_split. rewrite <- E1.
        destruct Ht as (_ & _ & Hp & _). rewrite Hp. done. }
      eexists _, t', w1, w1, gone. split; [reflexivity|].
      split; [done|]. split; [done|]. split; [done|]. split; [done|].
      split; [|split; [done|split; [intros []; done|]]].
      - destruct Hi1 as (A & B & C & D). split; [exact A|]. split; [done|]. split; [|exact D].
        destruct C as (C1 & C2 & C3 & C4). cbn [fst] in *. unfold session_table_inv. rewrite E6.
        split; [done|]. split; [done|]. split; [done|]. exact C4.
      - split; [done|]. split; [done|]. split; [done|]. split; [intros []; done|].
        split; [exists y; split; [done|]; right; done|]. eauto. }
  destruct H4 as (S4' & P4 & N4).
  rewrite (bind_run _ _ _ _ _ (upd_table_run _ _ _)).
  set (t1 := SessionTable tr6 tr4 (s_count t) (est_timer t) (trans_timer t)).
  set (t2 := list_add_tail x k t1).
  set (v1 := set_refcounter n1 v) in *. set (v2 := fresh_vars k v1).
  set (w2 := with_store w1 (wr x v2 (w_store w1))).
  assert (Hl2 : forall k', et_sessions (get_timer k' t2) =
     et_sessions (get_timer k' t) ++ (if decide (k' = k) then [x] else [])).
  { intros k'. unfold t2, k. destruct est, k'; simpl; rewrite ?app_nil_r; done. }
  assert (Hts2 : timers_set t2).
  { pose proof Ht as (_ & _ & _ & _ & _ & _ & _ & Hts). intros k'. unfold t2, k.
    destruct est, k'; (apply (Hts EST_TIMER) || apply (Hts TRANS_TIMER)). }
  assert (Hq2 : queues_ok t2 (w_store w2)).
  { intros k' y Hy. rewrite Hl2, elem_of_app in Hy. destruct Hy as [Hy|Hy].
    - destruct Hi1 as (_ & _ & _ & Hq1). destruct (Hq1 k' y Hy) as (vy & Hvy & Hey).
      exists vy. split; [|done]. eapply entry_wr_other; [exact Hv1|exact Hvy|]. intros ->.
      apply Hfresh, list_elem_of_fmap_2. apply (in_queues t x Ht). eauto.
    - case_decide as Hd; [|inversion Hy]. apply list_elem_of_singleton in Hy as ->. subst k'.
      exists v2. split; [apply live_wr_eq|done]. }
  destruct (reschedule_run k t2 w2 Hts2 Hq2) as (t3 & Hrun3 & Hre & Harm).
  destruct (rearmed_same _ _ _ Hre) as (E6 & E4 & Ec & El & Ha & Hts3).
  assert (Hat : attach_timer e x k (t1, w1) = Some (tt, (t3, w2))).
  { unfold attach_timer. rewrite (bind_run _ _ _ _ _ (on_sess_run _ _ _ _ _ (read_session_run _ _ _ Hv1))).
    rewrite (bind_run _ _ _ _ _ (on_sess_run _ _ _ _ _ (write_session_run _ _ _))).
    rewrite (bind_run _ _ _ _ _ (upd_table_run _ _ _)). exact Hrun3. }
  rewrite (bind_run _ _ _ _ _ Hat).
  pose proof Hi1 as (Hw1 & _ & _ & Hq1). cbn [fst snd] in *.
  pose proof (world_inv_wr _ _ _ _ _ v2 Hw1 Hv1 eq_refl) as Hw2. fold w2 in Hw2.
  assert (Hv2 : live (w_store w2) x v2) by apply live_wr_eq.
  pose proof Hw2 as (Hst2 & Hs2 & _).
  destruct (session_get_spec brefs _ (w_store w2) x v2 Hst2 Hv2) as (s3 & Hrun4 & Hst3 & Es3).
  rewrite (bind_run _ _ _ _ _ (on_sess_run _ _ _ _ _ Hrun4)).
  rewrite (bind_run _ _ _ _ _ (upd_table_run _ _ _)).
  set (t' := SessionTable (s_tree6 t3) (s_tree4 t3) (u64 (s_count t3 + 1)) (est_timer t3) (trans_timer t3)).
  assert (Hge : forall k', get_timer k' t' = get_timer k' t3) by (intros []; done).
  assert (Hent : s_entries t' ≡ₚ x :: s_entries t)
    by (unfold s_entries; cbn [t' s_tree4]; rewrite E4; unfold t2; destruct k; exact P4).
  assert (Hframe3 : forall y vy, live (w_store w2) y vy -> exists n, live s3 y (set_refcounter n vy)).
  { intros y vy Hy. rewrite Es3. destruct (decide (se_loc y = se_loc x)) as [E|E].
    - pose proof (live_loc _ _ _ _ _ Hy Hv2 E) as ->. pose proof (live_fun _ _ _ _ Hy Hv2) as ->.
      eexists. apply live_wr_eq.
    - exists (se_refcounter vy). rewrite set_refcounter_id. apply live_wr_ne; done. }
  eexists _, t', w1, (with_store w2 s3), gone. split; [reflexivity|].
  split; [done|]. split; [done|]. split; [done|]. split; [rewrite Es3; done|].
  split; [|split; [|split]].
  - split; [|split; [done|split]]; cbn [fst snd].
    + eapply world_inv_store; [exact Hw2| | |].
      * eapply store_inv_ext; [exact Hst3|]. intros l. simpl. unfold table_refs.
        rewrite (refs_in_perm _ _ _ l Hent), refs_in_cons. unfold add_ref.
        destruct (Pos.eqb_spec (se_loc x) l) as [->|Hne].
        -- rewrite decide_True by done. simpl. lia.
        -- rewrite decide_False by congruence. simpl. lia.
      * intros l. specialize (Hs l). pose proof (refs_in_nonneg se_loc (s_entries t') l). unfold table_refs. lia.
      * intros n vn _ Hvn. destruct (Hframe3 _ _ Hvn) as [m Hm]. eauto.
    + pose proof Ht as (S4 & S6 & Hp & Hq & Hnd & Hwf & Hc & _).
      unfold session_table_inv. split; [unfold s_entries; cbn [t' s_tree4]; rewrite E4; unfold t2; destruct k; exact S4'|].
      split; [cbn [t' s_tree6]; rewrite E6; unfold t2; destruct k; exact S6'|].
      split; [cbn [t' s_tree6]; rewrite E6; rewrite Hent; unfold t2; destruct k; exact P6|].
      split; [|split; [|split; [|split]]].
      * pose proof (El EST_TIMER) as L1. pose proof (El TRANS_TIMER) as L2. cbn [get_timer] in L1, L2.
        cbn [t' est_timer trans_timer]. rewrite L1, L2.
        pose proof (Hl2 EST_TIMER) as M1. pose proof (Hl2 TRANS_TIMER) as M2. cbn [get_timer] in M1, M2.
        rewrite M1, M2, Hent, <- Hq. unfold k. destruct est; simpl; rewrite ?app_nil_r.
        -- rewrite <- app_assoc. symmetry. apply Permutation_middle.
        -- rewrite app_assoc. symmetry. apply Permutation_cons_append.
      * rewrite Hent, fmap_cons. apply NoDup_cons. done.
      * rewrite Hent. apply Forall_cons. done.
      * cbn [t' s_count]. rewrite Ec. apply Permutation_length in Hent. rewrite Hent.
        assert (Hc2 : s_count t2 = s_count t) by (unfold t2; destruct k; done).
        rewrite Hc2, Hc. simpl length. unfold u64. rewrite Zplus_mod_idemp_l. f_equal. lia.
      * intros k'. rewrite !Hge. apply (Hts3 Hts2 k').
    + intros k' y Hy. rewrite Hge, El in Hy. destruct (Hq2 k' y Hy) as (vy & Hvy & Hey).
      destruct (Hframe3 _ _ Hvy) as [m Hm]. exists (set_refcounter m vy). done.
  - intros y vy Hy Hne Hor. destruct (Hoth1 y vy Hy Hne Hor) as [m Hm].
    destruct (Hframe3 y (set_refcounter m vy)) as [m' Hm']; [eapply entry_wr_other; done|].
    exists m'. done.
  - intros k' Ha'. unfold armed. rewrite Hge. destruct (decide (k' = k)) as [->|Hne]; [exact Harm|].
    apply Ha. unfold armed. rewrite Hl2, decide_False, app_nil_r by done. intros Hnil.
    destruct (Ha' Hnil) as [at_ Hat']. exists at_. unfold t2, k in *. destruct est, k'; done.
  - split; [exact Hent|]. split; [|split; [|split]].
    + intros y Hy [E|E]; [apply (N6 y Hy E) | apply (N4 y Hy E)].
    + intros k'. rewrite Hge, El. apply Hl2.
    + unfold armed. rewrite Hge. exact Harm.
    + destruct (Hframe3 x v2 Hv2) as [m Hm]. exists m. exact Hm.
Qed.

(** ** Expiration *)

(** The callback of a timer never leaves a session in its queue. *)
Definition cb_leaves (k : timer_kind) (cb : fate_cb) : Prop :=
  forall s v, expirer v = Some k -> ok k (state v) ->
    fst (cb e s v) <> FATE_PRESERVE /\ fate_target (fst (cb e s v)) <> Some k.

(** The time of a session is over. *)
Definition expired (timeout : Z) (s : store) (x : session_entry) : Prop :=
  exists v, live s x v /\ time_before (jiffies e) (u64 (update_time v + timeout)) = false.

Definition head_waits (timeout : Z) (s : store) (l : list session_entry) : Prop :=
  match l with [] => True | x :: _ => ~ expired timeout s x end.

(** What the loop of the timer does to a table whose queue [k] is
    [gone ++ rest]. *)
Definition cleaned (k : timer_kind) (cb : fate_cb) (brefs srefs : positive -> Z) (timeout : Z)
    (gone rest rms probes : list session_entry) (t : session_table) (w : world)
    (t' : session_table) (w' : world) : Prop :=
  tworld_inv brefs (fun l => srefs l + refs_in se_loc (rms ++ probes) l) (t', w') /\
  (forall x, x ∈ gone -> exists v, live (w_store w) x v /\
     time_before (jiffies e) (u64 (update_time v + timeout)) = false /\
     live (w_store w') x (fate_vars (fst (cb e x v)) (snd (cb e x v))) /\
     (fst (cb e x v) = FATE_RM <-> x ∉ s_entries t')) /\
  head_waits timeout (w_store w) rest /\
  et_sessions (get_timer k t') = rest /\
  (forall x, x ∈ s_entries t' -> x ∈ s_entries t) /\
  (forall x, x ∈ s_entries t -> x ∈ gone \/ x ∈ s_entries t') /\
  (forall k', k' <> k -> armed k' t -> armed k' t') /\
  (forall k', get_timeout (get_timer k' t') = get_timeout (get_timer k' t) /\
     decide_fate_cb (get_timer k' t') = decide_fate_cb (get_timer k' t)) /\
  w_queue w' = w_queue w /\ w_out w' = w_out w /\
  (forall y vy, live (w_store w) y vy -> y ∉ gone -> live (w_store w') y vy) /\
  (forall y, y ∈ rms ++ probes -> (y ∉ s_entries t') /\ exists vy, live (w_store w') y vy) /\
  (forall p b, b ∈ bib_of_proto p (st_bib (w_store w')) <-> b ∈ bib_of_proto p (st_bib (w_store w))).

Lemma cleaner_loop_spec k cb timeout brefs srefs l : forall fuel rms probes t w,
  tworld_inv brefs (fun l => srefs l + refs_in se_loc (rms ++ probes) l) (t, w) ->
  cb_ok cb -> cb_leaves k cb -> decide_fate_cb (get_timer k t) = Some cb ->
  (forall y, y ∈ rms ++ probes -> (y ∉ s_entries t) /\ exists vy, live (w_store w) y vy) ->
  et_sessions (get_timer k t) = l -> (length l <= fuel)%nat ->
  exists gone rest rms' probes' t' w', l = gone ++ rest /\
    cleaner_loop e fuel k timeout (head l) (rms, probes) (t, w) = Some ((rms', probes'), (t', w')) /\
    cleaned k cb brefs srefs timeout gone rest rms' probes' t w t' w'.
Proof.
  induction l as [|x l IH]; intros fuel rms probes t w Hi Hcb Hlv Ecb Hlists El Hfuel.
  { exists [], [], rms, probes, t, w. split; [done|]. split; [destruct fuel; done|].
    split; [done|]. split; [intros x Hx; inversion Hx|]. split_and!; try done; auto. }
  pose proof Hi as (_ & _ & Ht & Hq). cbn [fst snd] in *.
  destruct (Hq k x) as (v & Hv & Hk & Hok); [rewrite El; left|].
  assert (Hx : x ∈ s_entries t) by (apply (in_queues t x Ht); exists k; rewrite El; left).
  destruct fuel as [|fuel]; [simpl in Hfuel; lia|].
  cbn [cleaner_loop head]. rewrite (bind_run _ _ _ _ _ (get_table_run _)). cbn [fst].
  rewrite (bind_run _ _ _ _ _ (on_sess_run _ _ _ _ _ (read_session_run _ _ _ Hv))).
  replace (with_store w (w_store w)) with w by (destruct w; done).
  destruct (time_before (jiffies e) (u64 (update_time v + timeout))) eqn:Etime.
  { exists [], (x :: l), rms, probes, t, w. split; [done|]. split; [done|].
    split; [done|]. split; [intros y Hy; inversion Hy|].
    split; [intros (v' & Hv' & Hd); rewrite (live_fun _ _ _ _ Hv' Hv) in Hd; congruence|].
    split_and!; try done; auto. }
  rewrite Ecb. destruct (cb e x v) as [fate v'] eqn:Ef.
  destruct (Hlv x v Hk Hok) as [Hnp Hnt]. rewrite Ef in Hnp, Hnt. cbn [fst] in Hnp, Hnt.
  destruct (decide_fate_spec brefs _ t w x v k cb rms probes fate v' Hi Hx Hv Hk Hok Hcb Ef)
    as (t1 & w1 & rms1 & probes1 & Hrun1 & Hdec).
  destruct Hdec as (Erms & Epr & Hi1 & Hent & Hl1 & Harm & Hptr & Eq & Eo & Hv1 & Hoth & Hpr & Hbib).
  rewrite (bind_run _ _ _ _ _ Hrun1).
  assert (Hnd : NoDup (se_loc <$> x :: l)).
  { pose proof Ht as (_ & _ & _ & Hp & Hnd & _). rewrite <- Hp, fmap_app in Hnd.
    apply NoDup_app in Hnd as (N1 & _ & N2). rewrite <- El. destruct k; done. }
  assert (El1 : et_sessions (get_timer k t1) = l).
  { rewrite Hl1, El. rewrite fmap_cons in Hnd. apply NoDup_cons in Hnd as [Hni _].
    assert (Hfil : List.filter (other_than se_loc x) (x :: l) = l)
      by (apply (other_than_split se_loc x [] l); done).
    unfold fate_queue. destruct fate; try done;
      (destruct (decide _) as [E|E]; [destruct (Hnt E)|]); rewrite app_nil_r; exact Hfil. }
  assert (Htmp : next_session x (et_sessions (get_timer k t)) = head l)
    by (rewrite El; simpl; unfold same_session; rewrite Pos.eqb_refl; done).
  rewrite Htmp.
  assert (Hsub1 : forall y, y ∈ s_entries t1 -> y ∈ s_entries t)
    by (intros y Hy; rewrite Hent; apply elem_of_app; auto).
  assert (Hndl : NoDup (s_entries t)) by (destruct Ht as (S4 & _); eapply sorted_by_NoDup; exact S4).
  assert (Hx1 : fate = FATE_RM <-> x ∉ s_entries t1).
  { split.
    - intros ->. rewrite Hent, Erms in Hndl. apply NoDup_cons in Hndl as [? _]. done.
    - intros Hn. rewrite Hent, Erms in Hx. apply elem_of_app in Hx as [Hx|Hx]; [|done].
      destruct fate; try (inversion Hx; fail). done. }
  destruct (IH fuel (rms1 ++ rms) (probes1 ++ probes) t1 w1) as
    (gone & rest & rms' & probes' & t' & w' & -> & Hrun & Hcl); [| | | | |done|simpl in Hfuel; lia|].
  { eapply tworld_inv_ext; [exact Hi1|]. intros loc. simpl. rewrite !refs_in_app. lia. }
  { done. }
  { done. }
  { destruct (Hptr k) as [_ ->]. done. }
  { intros y Hy. rewrite !elem_of_app in Hy.
    assert (Hy' : y ∈ rms1 \/ y ∈ probes1 \/ y ∈ rms ++ probes) by (rewrite elem_of_app; tauto).
    destruct Hy' as [Hy'|[Hy'|Hy']].
    - rewrite Erms in Hy'. destruct fate; try (inversion Hy'; fail).
      apply list_elem_of_singleton in Hy' as ->. split; [apply Hx1; done|]. eauto.
    - destruct (Hpr y Hy') as (Hn & _ & Hly). split; [auto|done].
    - destruct (Hlists y Hy') as (Hn & vy & Hly). split; [auto|]. exists vy. apply Hoth; [done|].
      intros ->. done. }
  exists (x :: gone), rest, rms', probes', t', w'. split; [done|]. split; [exact Hrun|].
  destruct Hcl as (C1 & C2 & C3 & C4 & C5 & C6 & C7 & C8 & C9 & C10 & C11 & C12 & C13).
  assert (Hgx : forall y, y ∈ gone ++ rest -> y <> x).
  { intros y Hy ->. rewrite fmap_cons in Hnd. apply NoDup_cons in Hnd as [Hni _].
    apply Hni, list_elem_of_fmap_2. done. }
  assert (Hback : forall y vy, y ∈ gone ++ rest -> live (w_store w1) y vy -> live (w_store w) y vy).
  { intros y vy Hy Hvy. destruct (Hq k y) as (v0 & Hv0 & _); [rewrite El; right; done|].
    pose proof (Hoth y v0 Hv0 (Hgx y Hy)) as Hv0'. rewrite (live_fun _ _ _ _ Hvy Hv0'). done. }
  assert (Hxg : x ∉ gone) by (intros Hin; apply (Hgx x); [apply elem_of_app; auto|done]).
  split; [exact C1|]. split; [|split; [|split; [exact C4|split; [|split; [|split; [|split; [|split; [|split;
    [|split; [|split; [exact C12|]]]]]]]]]]].
  - intros y Hy. apply elem_of_cons in Hy as [->|Hy].
    + exists v. rewrite Ef. cbn [fst snd]. split; [done|]. split; [done|]. split; [apply C11; done|].
      rewrite Hx1. split; [auto|]. intros Hn Hin. destruct (C6 x Hin); done.
    + destruct (C2 y Hy) as (vy & Hvy & Hrest'). exists vy. split; [|done].
      apply Hback; [apply elem_of_app; auto|done].
  - unfold head_waits in *. destruct rest as [|y rest]; [done|]. intros (vy & Hvy & Hd). apply C3.
    exists vy. split; [|done]. apply Hoth; [done|]. apply Hgx. apply elem_of_app. right. left.
  - auto.
  - intros y Hy. rewrite Hent in Hy. apply elem_of_app in Hy as [Hy|Hy].
    + left. rewrite Erms in Hy. destruct fate; try (inversion Hy; fail).
      apply list_elem_of_singleton in Hy as ->. left.
    + destruct (C6 y Hy); [left; right|right]; done.
  - intros k' Hk' Ha. apply C7; auto.
  - intros k'. destruct (C8 k') as [-> ->]. apply Hptr.
  - congruence.
  - congruence.
  - intros y vy Hy Hn. apply C11; [apply Hoth; [done|] |]; intros Hin; apply Hn; [subst; left|right; done].
  - intros p b. rewrite C13. apply Hbib.
Qed.

(** A timer that fires handles every session at the front of its queue whose
    time is over, returns the references it took, and is armed again if its
    queue is not empty. *)
Lemma fire_timer_spec k cb timeout brefs srefs fuel t w :
  tworld_inv brefs srefs (t, w) -> cb_ok cb -> cb_leaves k cb ->
  decide_fate_cb (get_timer k t) = Some cb -> get_timeout (get_timer k t) = Some timeout ->
  (length (et_sessions (get_timer k t)) <= fuel)%nat -> (forall k', armed k' t) ->
  exists gone rest t' w', et_sessions (get_timer k t) = gone ++ rest /\
    fire_timer e fuel k (t, w) = Some (tt, (t', w')) /\
    tworld_inv brefs srefs (t', w') /\ (forall k', armed k' t') /\
    (forall x, x ∈ gone -> exists v, live (w_store w) x v /\
       time_before (jiffies e) (u64 (update_time v + timeout e)) = false /\
       (fst (cb e x v) = FATE_RM <-> x ∉ s_entries t')) /\
    head_waits (timeout e) (w_store w) rest /\ et_sessions (get_timer k t') = rest /\
    (forall x, x ∈ s_entries t' -> x ∈ s_entries t) /\
    (forall x, x ∈ s_entries t -> x ∉ gone -> x ∈ s_entries t') /\
    (forall y vy, live (w_store w) y vy -> y ∉ gone -> 0 < srefs (se_loc y) ->
       exists n, live (w_store w') y (set_refcounter n vy)).
Proof.
  intros Hi Hcb Hlv Ecb Eto Hfuel Harm.
  set (t0 := clear_timer k t).
  assert (Hget : forall k', et_sessions (get_timer k' t0) = et_sessions (get_timer k' t) /\
     get_timeout (get_timer k' t0) = get_timeout (get_timer k' t) /\
     decide_fate_cb (get_timer k' t0) = decide_fate_cb (get_timer k' t)).
  { intros k'. unfold t0, clear_timer. destruct k, k'; done. }
  assert (Hi0 : tworld_inv brefs (fun l => srefs l + refs_in se_loc ([] ++ []) l) (t0, w)).
  { destruct Hi as (Hw & Hs & Ht & Hq). cbn [fst snd] in *. eapply tworld_inv_ext.
    - split; [|split; [exact Hs|split]]; cbn [fst snd].
      + replace (table_refs t0) with (table_refs t) by (unfold t0; destruct k; done). exact Hw.
      + destruct Ht as (T1 & T2 & T3 & T4 & T5 & T6 & T7 & T8). unfold t0.
        unfold session_table_inv. destruct k; (split_and!; try done; intros []; (apply (T8 EST_TIMER) || apply (T8 TRANS_TIMER))).
      + intros k' y Hy. destruct (Hget k') as (E & _). rewrite E in Hy. apply Hq. done.
    - intros l. simpl. rewrite refs_in_nil. lia. }
  destruct (Hget k) as (E1 & E2 & E3).
  destruct (cleaner_loop_spec k cb (timeout e) brefs srefs (et_sessions (get_timer k t)) fuel [] [] t0 w Hi0 Hcb Hlv)
    as (gone & rest & rms & probes & t1 & w1 & El & Hrun & Hcl); [congruence| |done|done|].
  { intros y Hy. inversion Hy. }
  destruct Hcl as (C1 & C2 & C3 & C4 & C5 & C6 & C7 & C8 & C9 & C10 & C11 & C12 & C13).
  pose proof C1 as (_ & _ & Ht1 & Hq1). cbn [fst snd] in *.
  pose proof Ht1 as (_ & _ & _ & _ & _ & _ & _ & Hts1).
  assert (Hre : exists t2, (match et_sessions (get_timer k t1) with [] => mret tt | _ => reschedule e k end)
      (t1, w1) = Some (tt, (t2, w1)) /\ rearmed k t1 t2 /\ armed k t2).
  { destruct (et_sessions (get_timer k t1)) as [|y l] eqn:E.
    - exists t1. split; [done|]. split; [left; done|]. intros Hn. congruence.
    - apply reschedule_run; done. }
  destruct Hre as (t2 & Hrun2 & Hre & Harm2).
  destruct (rearmed_same _ _ _ Hre) as (E6 & E4 & Ec & El2 & Ha2 & _).
  assert (Hent2 : s_entries t2 = s_entries t1) by (unfold s_entries; rewrite E4; done).
  assert (Hi2 : tworld_inv brefs (fun l => srefs l + refs_in se_loc (rms ++ probes) l) (t2, w1)).
  { destruct C1 as (W & S & T & Q). split; [|split; [exact S|split]]; cbn [fst snd] in *.
    - unfold table_refs in *. rewrite Hent2. exact W.
    - eapply rearmed_inv; done.
    - intros k' y Hy. rewrite El2 in Hy. apply Q. done. }
  destruct (post_fate_spec brefs srefs rms probes t2 w1) as (s3 & w3 & -> & Hrun3 & Hi3 & _ & Hf3).
  { destruct Hi as (_ & Hs & _). done. }
  { done. }
  { intros y Hy. apply C12. done. }
  exists gone, rest, t2. eexists. split; [done|]. split.
  { unfold fire_timer. rewrite (bind_run _ _ _ _ _ (upd_table_run _ _ _)). unfold cleaner_timer.
    rewrite (bind_run _ _ _ _ _ (get_table_run _)). cbn [fst]. fold t0. rewrite E2, Eto, E1.
    rewrite (bind_run _ _ _ _ _ Hrun), (bind_run _ _ _ _ _ (get_table_run _)). cbn [fst].
    rewrite (bind_run _ _ _ _ _ Hrun2). exact Hrun3. }
  split; [exact Hi3|]. split; [|split; [|split; [done|split; [congruence|split; [|split]]]]].
  - intros k'. destruct (decide (k' = k)) as [->|Hne]; [done|]. apply Ha2, C7; [done|].
    specialize (Harm k'). unfold t0, armed in *. destruct k, k'; done.
  - intros x Hx. destruct (C2 x Hx) as (v & Hv & Htm & _ & Hrm). exists v. rewrite Hent2. done.
  - intros x Hx. rewrite Hent2 in Hx. apply C5 in Hx. unfold t0, s_entries in *. destruct k; done.
  - intros x Hx Hn. rewrite Hent2. destruct (C6 x) as [?|?]; [|done|done].
    unfold t0, s_entries in *. destruct k; done.
  - intros y vy Hy Hn Hpos. apply (Hf3 y vy); [apply C11; done|]. apply all_refs_own. done.
Qed.

End Inv.
