(* ===== verification/SessionDb.v ===== *)
(** * The session database

    [mod/stateful/session/db.c]: one session table per transport protocol.
    The tables share the heap of sessions, the BIB and the packet queue
    ([world]).

    The invariant of the whole ([sessiondb_inv]) says what [SessionSpec] says
    of each table, with the policy of its protocol ([proto_ok], [proto_fns]):
    a TCP session waits in the established queue exactly while its state is
    one of those RFC 6146 gives the long timeout to, and CLOSED is never
    stored.  Every operation of the database keeps [sessiondb_inv], and so do
    its timers and the packet queue's. *)
From S2P Require Import Prelude Types Address RbTree BibTable BibDb Packet SessionEntry PktQueue SessionTable Tcp SessionSpec.

Record session_db : Type := SessionDb {
  session_table_udp : session_table;
  session_table_tcp : session_table;
  session_table_icmp : session_table
}.

(** [get_table] *)
Definition sess_get_table (proto : l4_protocol) (db : session_db) : option session_table :=
  match proto with
  | L4PROTO_UDP => Some (session_table_udp db)
  | L4PROTO_TCP => Some (session_table_tcp db)
  | L4PROTO_ICMP => Some (session_table_icmp db)
  | L4PROTO_OTHER => None
  end.

(** Writing the table [sess_get_table] points to. *)
Definition sess_put_table (proto : l4_protocol) (t : session_table) (db : session_db) : session_db :=
  match proto with
  | L4PROTO_UDP => SessionDb t (session_table_tcp db) (session_table_icmp db)
  | L4PROTO_TCP => SessionDb (session_table_udp db) t (session_table_icmp db)
  | L4PROTO_ICMP => SessionDb (session_table_udp db) (session_table_tcp db) t
  | L4PROTO_OTHER => db
  end.

(** The database and everything else. *)
Definition dbworld : Type := session_db * world.

(** An operation on one table. *)
Definition in_table {A} (proto : l4_protocol) (m : M tworld A) : M dbworld A := fun '(db, w) =>
  match sess_get_table proto db with
  | None => None
  | Some t =>
      match m (t, w) with
      | Some (a, (t, w)) => Some (a, (sess_put_table proto t db, w))
      | None => None
      end
  end.

(** An operation on everything but the tables. *)
Definition off_tables {A} (m : M world A) : M dbworld A := fun '(db, w) =>
  match m w with
  | Some (a, w) => Some (a, (db, w))
  | None => None
  end.

(** [caches]: whether the cache of sessions could be created. *)
Definition sessiondb_init (caches : allocs) (tcpest_fn tcptrans_fn : fate_cb)
    : result (session_db * pkt_queue) :=
  let '(ok, _) := kmalloc caches in
  if negb ok then Err ENOMEM
  else Ok (SessionDb (sessiontable_init (Some ttl_udp) (Some just_die) None None)
             (sessiontable_init (Some ttl_tcpest) (Some tcpest_fn) (Some ttl_tcptrans) (Some tcptrans_fn))
             (sessiontable_init (Some ttl_icmp) (Some just_die) None None),
           pktqueue_init).

(** [src], [dst] and [proto] are those of an IPv4 tuple. *)
Definition sessiondb_allow (src dst : ipv4_transport_addr) (proto : l4_protocol) (db : session_db) : bool :=
  match sess_get_table proto db with
  | Some table => sessiontable_allow table src dst
  | None => false
  end.

Definition sessiondb_foreach {B} (proto : l4_protocol) (func : session_entry -> B -> Z * B) (arg : B)
    (offset_remote offset_local : option ipv4_transport_addr) (db : session_db) : Z * B :=
  match sess_get_table proto db with
  | Some table => sessiontable_foreach func table arg offset_remote offset_local
  | None => (- errno_code EINVAL, arg)
  end.

Definition sessiondb_count (proto : l4_protocol) (db : session_db) : result Z :=
  match sess_get_table proto db with
  | Some table => Ok (sessiontable_count table)
  | None => Err EINVAL
  end.

Section Db.
Context {R : RbTree} (e : env).

Definition sessiondb_get (tup : tuple) (cb : option fate_cb) : M dbworld (result session_entry) :=
  match l4_proto tup with
  | L4PROTO_OTHER => mret (Err EINVAL)
  | proto => in_table proto (sessiontable_get e tup cb)
  end.

Definition sessiondb_add (session : session_entry) (is_est : bool) : M dbworld (result unit) :=
  match se_l4_proto session with
  | L4PROTO_OTHER => mret (Err EINVAL)
  | proto => in_table proto (sessiontable_add e session is_est)
  end.

Definition sessiondb_delete_by_bib (bib : bib_entry) : M dbworld (result unit) :=
  match bib_l4_proto bib with
  | L4PROTO_OTHER => mret (Err EINVAL)
  | proto => in_table proto (sessiontable_delete_by_bib bib);; mret (Ok tt)
  end.

Definition sessiondb_delete_taddr4s (prefix : ipv4_prefix) (ports : port_range) : M dbworld unit :=
  in_table L4PROTO_TCP (sessiontable_delete_taddr4s prefix ports);;
  in_table L4PROTO_ICMP (sessiontable_delete_taddr4s prefix ports);;
  in_table L4PROTO_UDP (sessiontable_delete_taddr4s prefix ports).

Definition sessiondb_delete_taddr6s (prefix : ipv6_prefix) : M dbworld unit :=
  in_table L4PROTO_TCP (sessiontable_delete_taddr6s prefix);;
  in_table L4PROTO_ICMP (sessiontable_delete_taddr6s prefix);;
  in_table L4PROTO_UDP (sessiontable_delete_taddr6s prefix).

Definition sessiondb_flush : M dbworld unit :=
  in_table L4PROTO_UDP sessiontable_flush;;
  in_table L4PROTO_TCP sessiontable_flush;;
  in_table L4PROTO_ICMP sessiontable_flush.

Definition sessiondb_update_timers : M dbworld unit :=
  in_table L4PROTO_UDP (sessiontable_update_timers e);;
  in_table L4PROTO_TCP (sessiontable_update_timers e);;
  in_table L4PROTO_ICMP (sessiontable_update_timers e).
End Db.

(** ** The policy of each protocol *)

(** The queue a TCP session waits in, given its state. *)
Definition tcp_ok (k : timer_kind) (st : tcp_state) : Prop :=
  match st with
  | CLOSED => False
  | ESTABLISHED | V4_FIN_RCV | V6_FIN_RCV => k = EST_TIMER
  | V6_INIT | V4_INIT | V4_FIN_V6_FIN_RCV | TRANS => k = TRANS_TIMER
  end.

Definition proto_ok (proto : l4_protocol) (k : timer_kind) (st : tcp_state) : Prop :=
  match proto with
  | L4PROTO_TCP => tcp_ok k st
  | L4PROTO_UDP | L4PROTO_ICMP => k = EST_TIMER
  | L4PROTO_OTHER => False
  end.

(** The functions [filtering_init] has the timers set up with. *)
Definition proto_fns (proto : l4_protocol) (k : timer_kind) : option (env -> Z) * option fate_cb :=
  match proto, k with
  | L4PROTO_TCP, EST_TIMER => (Some ttl_tcpest, Some expired_cb)
  | L4PROTO_TCP, TRANS_TIMER => (Some ttl_tcptrans, Some expired_cb)
  | L4PROTO_UDP, EST_TIMER => (Some ttl_udp, Some just_die)
  | L4PROTO_ICMP, EST_TIMER => (Some ttl_icmp, Some just_die)
  | _, _ => (None, None)
  end.

Lemma proto_fns_some proto k st :
  proto_ok proto k st -> is_Some (fst (proto_fns proto k)) /\ is_Some (snd (proto_fns proto k)).
Proof. destruct proto, k; simpl; done || eauto. Qed.

Lemma just_die_ok proto : cb_ok (proto_ok proto) just_die.
Proof. intros e s v k _ _. done. Qed.

Lemma update_timer_ok proto : proto <> L4PROTO_TCP -> cb_ok (proto_ok proto) update_timer.
Proof. intros Hp e s v k _ Hok. destruct proto; done. Qed.

Lemma expired_cb_ok : cb_ok (proto_ok L4PROTO_TCP) expired_cb.
Proof.
  intros e s v k _ Hok. unfold expired_cb. destruct (state v) eqn:E; simpl in *; rewrite ?E in *; done.
Qed.

Lemma tcp_state_machine_ok pkt : cb_ok (proto_ok L4PROTO_TCP) (tcp_state_machine pkt).
Proof.
  intros e s v k _ Hok. unfold tcp_state_machine, tcp_v4_init_state, tcp_v6_init_state,
    tcp_established_state, tcp_v4_fin_rcv_state, tcp_v6_fin_rcv_state, tcp_v4_fin_v6_fin_rcv_state,
    tcp_trans_state.
  destruct (state v) eqn:E; simpl in *; rewrite ?E in *; try done;
    destruct (pkt_l3_proto pkt), (pkt_syn pkt), (pkt_fin pkt), (pkt_rst pkt); simpl;
    rewrite ?E; done.
Qed.

(** The timers' functions. *)
Lemma proto_cb_ok proto k cb :
  snd (proto_fns proto k) = Some cb -> cb_ok (proto_ok proto) cb.
Proof.
  destruct proto, k; simpl; intros [= <-]; apply just_die_ok || apply expired_cb_ok.
Qed.

Lemma proto_cb_leaves e proto k cb :
  snd (proto_fns proto k) = Some cb -> cb_leaves (proto_ok proto) e k cb.
Proof.
  destruct proto, k; simpl; intros [= <-] s v _ Hok; try done;
    unfold expired_cb; simpl in Hok; destruct (state v); done.
Qed.

(** ** The invariant *)

Definition db_refs (db : session_db) (l : positive) : Z :=
  table_refs (session_table_udp db) l + table_refs (session_table_tcp db) l +
  table_refs (session_table_icmp db) l.

Definition sessiondb_inv (brefs srefs : positive -> Z) (dw : dbworld) : Prop :=
  world_inv brefs (fun l => srefs l + db_refs (fst dw) l) (snd dw) /\
  (forall l, 0 <= srefs l) /\
  forall p t, sess_get_table p (fst dw) = Some t ->
    session_table_inv p (proto_fns p) t /\ queues_ok (proto_ok p) t (w_store (snd dw)) /\
    forall k, armed k t.

Definition db_entries (proto : l4_protocol) (db : session_db) : list session_entry :=
  match sess_get_table proto db with Some t => s_entries t | None => [] end.

(** The references of the tables other than [proto]'s. *)
Definition other_refs (proto : l4_protocol) (db : session_db) (l : positive) : Z :=
  db_refs db l - refs_in se_loc (db_entries proto db) l.

(** The invariant of one table of the database. *)
Definition ptable_inv (proto : l4_protocol) : (positive -> Z) -> (positive -> Z) -> tworld -> Prop :=
  tworld_inv proto (proto_ok proto) (proto_fns proto).

Lemma sess_get_put proto t db p :
  sess_get_table p (sess_put_table proto t db) =
  if decide (p = proto /\ proto <> L4PROTO_OTHER) then Some t else sess_get_table p db.
Proof. destruct proto, p; reflexivity. Qed.

Lemma sess_put_same proto t db : sess_get_table proto db = Some t -> sess_put_table proto t db = db.
Proof. destruct proto, db; simpl; intros [= <-]; done. Qed.

Lemma db_entries_get proto t db : sess_get_table proto db = Some t -> db_entries proto db = s_entries t.
Proof. unfold db_entries. intros ->. done. Qed.

Lemma db_entries_put proto t t' db p :
  sess_get_table proto db = Some t ->
  db_entries p (sess_put_table proto t' db) = if decide (p = proto) then s_entries t' else db_entries p db.
Proof. destruct proto, p; done. Qed.

Lemma other_refs_put proto t t' db l :
  sess_get_table proto db = Some t -> other_refs proto (sess_put_table proto t' db) l = other_refs proto db l.
Proof. unfold other_refs, db_entries, db_refs, table_refs. destruct proto; simpl; intros [= <-]; lia. Qed.

Lemma other_refs_split proto t db l :
  sess_get_table proto db = Some t -> db_refs db l = other_refs proto db l + table_refs t l.
Proof. unfold other_refs, table_refs. intros H. rewrite (db_entries_get _ _ _ H). lia. Qed.

Lemma other_refs_nonneg proto db l : 0 <= other_refs proto db l.
Proof.
  unfold other_refs, db_entries, db_refs, table_refs.
  pose proof (refs_in_nonneg se_loc (s_entries (session_table_udp db)) l).
  pose proof (refs_in_nonneg se_loc (s_entries (session_table_tcp db)) l).
  pose proof (refs_in_nonneg se_loc (s_entries (session_table_icmp db)) l).
  destruct proto; simpl; rewrite ?refs_in_nil; lia.
Qed.

Lemma other_refs_pos proto p db x :
  p <> proto -> x ∈ db_entries p db -> 0 < other_refs proto db (se_loc x).
Proof.
  intros Hne Hx. pose proof (refs_in_pos se_loc x _ Hx) as Hp.
  unfold other_refs, db_entries, db_refs, table_refs in *.
  pose proof (refs_in_nonneg se_loc (s_entries (session_table_udp db)) (se_loc x)).
  pose proof (refs_in_nonneg se_loc (s_entries (session_table_tcp db)) (se_loc x)).
  pose proof (refs_in_nonneg se_loc (s_entries (session_table_icmp db)) (se_loc x)).
  destruct proto, p; simpl in *; rewrite ?refs_in_nil in *; try done; lia.
Qed.

(** ** From the database to a table and back *)

Lemma db_focus brefs srefs db w proto t :
  sessiondb_inv brefs srefs (db, w) -> sess_get_table proto db = Some t ->
  ptable_inv proto brefs (fun l => srefs l + other_refs proto db l) (t, w) /\ forall k, armed k t.
Proof.
  intros (Hw & Hs & Ht) Hg. cbn [fst snd] in *. destruct (Ht _ _ Hg) as (H1 & H2 & H3).
  split; [|done]. split; [|split; [|done]]; cbn [fst snd].
  - eapply world_inv_ext; [exact Hw|]. intros l. simpl. rewrite (other_refs_split _ _ _ l Hg). lia.
  - intros l. pose proof (other_refs_nonneg proto db l). specialize (Hs l). lia.
Qed.

(** The sessions of the other tables, kept. *)
Definition rest_kept (proto : l4_protocol) (db : session_db) (w w' : world) : Prop :=
  forall y v, live (w_store w) y v -> se_l4_proto y <> proto -> 0 < other_refs proto db (se_loc y) ->
    exists n, live (w_store w') y (set_refcounter n v).

Lemma db_unfocus brefs srefs srefs' db w proto t t' w' :
  sessiondb_inv brefs srefs (db, w) -> sess_get_table proto db = Some t ->
  ptable_inv proto brefs (fun l => srefs' l + other_refs proto db l) (t', w') ->
  (forall l, 0 <= srefs' l) -> (forall k, armed k t') -> rest_kept proto db w w' ->
  sessiondb_inv brefs srefs' (sess_put_table proto t' db, w').
Proof.
  intros (_ & _ & Ht) Hg (Hw' & _ & Ht' & Hq') Hs Ha Hk. cbn [fst snd] in *.
  assert (Hg' : sess_get_table proto (sess_put_table proto t' db) = Some t')
    by (destruct proto; simpl in *; done).
  split; [|split; [done|]]; cbn [fst snd].
  - eapply world_inv_ext; [exact Hw'|]. intros l. simpl.
    rewrite (other_refs_split _ _ _ l Hg'), (other_refs_put _ t) by done. lia.
  - intros p q Hp. rewrite sess_get_put in Hp. case_decide as Hd; [destruct Hd as [-> _]; injection Hp as <-; done|].
    destruct (Ht _ _ Hp) as (H1 & H2 & H3). split; [done|]. split; [|done].
    intros k x Hx. destruct (H2 k x Hx) as (v & Hv & Hrest).
    assert (Hin : x ∈ s_entries q) by (apply (in_queues _ _ q x H1); eauto).
    assert (Hne : p <> proto) by (intros ->; apply Hd; split; [done|]; intros ->; done).
    destruct (Hk x v Hv) as [n Hn].
    + destruct (entry_wf _ _ q x H1 Hin) as [_ ->]. done.
    + apply (other_refs_pos _ p); [done|]. rewrite (db_entries_get _ _ _ Hp). done.
    + exists (set_refcounter n v). done.
Qed.

Lemma in_table_run {A} proto (m : M tworld A) db w t a t' w' :
  sess_get_table proto db = Some t -> m (t, w) = Some (a, (t', w')) ->
  in_table proto m (db, w) = Some (a, (sess_put_table proto t' db, w')).
Proof. intros Hg Hm. unfold in_table. rewrite Hg, Hm. done. Qed.

Lemma ptable_inv_ext proto brefs srefs srefs' tw :
  ptable_inv proto brefs srefs tw -> (forall l, srefs' l = srefs l) -> ptable_inv proto brefs srefs' tw.
Proof. apply tworld_inv_ext. Qed.

Lemma add_ref_plus srefs o loc d l :
  add_ref (fun l => srefs l + o l) loc d l = add_ref srefs loc d l + o l.
Proof. unfold add_ref. case_decide; lia. Qed.

Lemma add_ref_nonneg srefs loc l : (forall l, 0 <= srefs l) -> 0 <= add_ref srefs loc 1 l.
Proof. intros H. unfold add_ref. specialize (H l). case_decide; lia. Qed.

Lemma others_kept_rest srefs db t w w' x :
  (forall l, 0 <= srefs l) ->
  others_kept (fun l => srefs l + other_refs (se_l4_proto x) db l) x t w w' ->
  rest_kept (se_l4_proto x) db w w'.
Proof.
  intros Hs Hk y v Hv Hy Hpos. apply (Hk y v Hv); [congruence|]. left. specialize (Hs (se_loc y)). lia.
Qed.

Section DbSpec.
Context {R : RbTree} {L : RbTreeLaws R} (e : env).

(** The session [x] of table [t] found and its fate decided. *)
Definition db_got (brefs srefs : positive -> Z) (cb : fate_cb) (x : session_entry) (db : session_db)
    (w : world) (dw' : dbworld) : Prop :=
  let p := se_l4_proto x in
  exists t t' w', sess_get_table p db = Some t /\ dw' = (sess_put_table p t' db, w') /\
    x ∈ s_entries t /\ got p (proto_ok p) (proto_fns p) e brefs (fun l => srefs l + other_refs p db l) cb x t w t' w' /\
    sessiondb_inv brefs (add_ref srefs (se_loc x) 1) dw'.

Lemma sessiondb_get_spec brefs srefs db w tup cb :
  sessiondb_inv brefs srefs (db, w) -> wf_tuple tup -> cb_ok (proto_ok (l4_proto tup)) cb ->
  exists r dw', sessiondb_get e tup (Some cb) (db, w) = Some (r, dw') /\
  match r with
  | Ok x => x ∈ db_entries (l4_proto tup) db /\ se_l4_proto x = l4_proto tup /\ matches tup x /\
      db_got brefs srefs cb x db w dw'
  | Err err => dw' = (db, w) /\
      (err = ESRCH /\ l4_proto tup <> L4PROTO_OTHER /\ (forall x, x ∈ db_entries (l4_proto tup) db -> ~ matches tup x) \/
       err = EINVAL /\ l4_proto tup = L4PROTO_OTHER)
  end.
Proof.
  intros Hi Hw Hcb. pose proof Hi as (_ & Hs & _). set (p := l4_proto tup) in *.
  destruct (sess_get_table p db) as [t|] eqn:Hg.
  2:{ exists (Err EINVAL), (db, w). unfold sessiondb_get. fold p. destruct p; try done. auto. }
  destruct (db_focus _ _ _ _ _ _ Hi Hg) as [Ht Ha].
  assert (Hrun0 : sessiondb_get e tup (Some cb) = in_table p (sessiontable_get e tup (Some cb)))
    by (unfold sessiondb_get; fold p; destruct p; done).
  destruct (sessiontable_get_spec p (proto_ok p) (proto_fns p) (proto_fns_some p) e brefs _ t w tup cb Ht Hw Hcb)
    as (r & t' & w' & Hrun & Hpost).
  exists r, (sess_put_table p t' db, w'). rewrite Hrun0, (in_table_run _ _ _ _ _ _ _ _ Hg Hrun).
  split; [done|]. rewrite (db_entries_get _ _ _ Hg). destruct r as [x|err].
  - destruct Hpost as (Hx & Hm & Hgot). pose proof Ht as (_ & _ & Hti & _).
    destruct (entry_wf _ _ t x Hti Hx) as [_ Ep]. cbn [fst] in *.
    split; [done|]. split; [done|]. split; [done|]. unfold db_got. rewrite Ep.
    exists t, t', w'. split; [done|]. split; [done|]. split; [done|]. split; [exact Hgot|].
    destruct Hgot as (v & k & n & fate & v' & _ & _ & _ & _ & Hi' & _ & _ & Harm & _ & _ & _ & Hk & _).
    eapply db_unfocus; [exact Hi | exact Hg | | | | ].
    + eapply ptable_inv_ext; [exact Hi'|]. intros l. rewrite add_ref_plus. done.
    + intros l. apply add_ref_nonneg. done.
    + auto.
    + rewrite <- Ep in *. eapply others_kept_rest; done.
  - destruct Hpost as (-> & -> & -> & Hno). rewrite sess_put_same by done. split; [done|]. left.
    split; [done|]. split; [intros E; rewrite E in Hg; done|done].
Qed.

Lemma sessiondb_add_spec brefs srefs db w x v est :
  let p := se_l4_proto x in
  let k := if est : bool then EST_TIMER else TRANS_TIMER in
  sessiondb_inv brefs srefs (db, w) -> live (w_store w) x v -> 0 < srefs (se_loc x) ->
  p <> L4PROTO_OTHER -> se_loc x ∉ (se_loc <$> db_entries p db) -> proto_ok p k (state v) ->
  exists r t t' w1 w' gone, sess_get_table p db = Some t /\
    sessiondb_add e x est (db, w) = Some (r, (sess_put_table p t' db, w')) /\
    sessiondb_inv brefs srefs (sess_put_table p t' db, w') /\
    forgotten brefs (fun l => srefs l + db_refs db l) x w w1 gone /\
    w_queue w' = w_queue w1 /\ w_out w' = w_out w1 /\ st_bib (w_store w') = st_bib (w_store w1) /\
    added p (proto_ok p) (proto_fns p) e brefs (fun l => srefs l + other_refs p db l) x v k t w r t' w'.
Proof.
  intros p k Hi Hv Hpos Hp Hfresh Hok. pose proof Hi as (_ & Hs & _).
  destruct (sess_get_table p db) as [t|] eqn:Hg; [|destruct p; done].
  destruct (db_focus _ _ _ _ _ _ Hi Hg) as [Ht Ha].
  rewrite (db_entries_get _ _ _ Hg) in Hfresh.
  destruct (sessiontable_add_spec p (proto_ok p) (proto_fns p) (proto_fns_some p) e brefs _ t w x v est Ht Hv)
    as (r & t' & w1 & w' & gone & Hrun & Hforg & Eq & Eo & Eb & Hadd); try done.
  { pose proof (other_refs_nonneg p db (se_loc x)). lia. }
  exists r, t, t', w1, w', gone. split; [done|].
  assert (Hrun0 : sessiondb_add e x est = in_table p (sessiontable_add e x est))
    by (unfold sessiondb_add; fold p; destruct p; done).
  rewrite Hrun0, (in_table_run _ _ _ _ _ _ _ _ Hg Hrun). split; [done|].
  split; [|split; [|done]].
  - destruct Hadd as (Hi' & Hk & Harm & _). eapply db_unfocus; [exact Hi | exact Hg | exact Hi' | done | auto |].
    eapply others_kept_rest; done.
  - destruct Hforg as (F1 & F2 & F3 & F4 & F5 & F6 & F7).
    assert (Heq : forall l, srefs l + db_refs db l = srefs l + other_refs p db l + table_refs t l)
      by (intros l; rewrite (other_refs_split _ _ _ l Hg); lia).
    split; [eapply world_inv_ext; [exact F1|]; intros l; apply Heq|].
    split; [done|]. split; [done|]. split; [done|]. split; [done|]. split; [done|].
    eapply store_frame_weaken; [|exact F7]. intros l. rewrite Heq. done.
Qed.

(** ** Deletions *)

(** The sessions that satisfy [sel] leave their tables, and nothing else
    changes but counters and the BIB entries nobody uses any more. *)
Definition db_purged (brefs srefs : positive -> Z) (sel : l4_protocol -> session_entry -> Prop)
    (dw dw' : dbworld) : Prop :=
  sessiondb_inv brefs srefs dw' /\
  (forall p x, x ∈ db_entries p (fst dw') <-> x ∈ db_entries p (fst dw) /\ ~ sel p x) /\
  w_queue (snd dw') = w_queue (snd dw) /\ w_out (snd dw') = w_out (snd dw) /\
  (forall p x v, x ∈ db_entries p (fst dw') -> live (w_store (snd dw)) x v ->
     exists n, live (w_store (snd dw')) x (set_refcounter n v)) /\
  (forall p b, b ∈ bib_of_proto p (st_bib (w_store (snd dw'))) ->
     b ∈ bib_of_proto p (st_bib (w_store (snd dw)))) /\
  (forall p b, b ∈ bib_of_proto p (st_bib (w_store (snd dw))) -> 1 <= brefs (bib_loc b) ->
     b ∈ bib_of_proto p (st_bib (w_store (snd dw')))).

Lemma db_purged_trans brefs srefs sel1 sel2 dw1 dw2 dw3 :
  db_purged brefs srefs sel1 dw1 dw2 -> db_purged brefs srefs sel2 dw2 dw3 ->
  db_purged brefs srefs (fun p x => sel1 p x \/ sel2 p x) dw1 dw3.
Proof.
  intros (_ & A2 & A3 & A4 & A5 & A6 & A7) (B1 & B2 & B3 & B4 & B5 & B6 & B7).
  split; [done|]. split; [|split; [congruence|split; [congruence|split; [|split]]]].
  - intros p x. rewrite B2, A2. tauto.
  - intros p x v Hx Hv. destruct (A5 p x v) as [n Hn]; [apply B2 in Hx; tauto|done|].
    destruct (B5 p x _ Hx Hn) as [m Hm]. exists m. exact Hm.
  - auto.
  - auto.
Qed.

Lemma db_purged_sel brefs srefs (sel sel' : l4_protocol -> session_entry -> Prop) dw dw' :
  db_purged brefs srefs sel dw dw' ->
  (forall p x, x ∈ db_entries p (fst dw) -> sel' p x <-> sel p x) -> db_purged brefs srefs sel' dw dw'.
Proof.
  intros (A1 & A2 & A3) H. split; [done|]. split; [|done]. intros p x. rewrite A2.
  split; intros [Hx Hn]; (split; [done|]); intros Hs; apply Hn, (H p x Hx); done.
Qed.

Lemma same_timers_armed t t' :
  same_timers t t' -> (forall k, et_sessions (get_timer k t') `sublist_of` et_sessions (get_timer k t)) ->
  (forall k, armed k t) -> forall k, armed k t'.
Proof.
  intros Hs Hsub Ha k Hne. destruct (Hs k) as (-> & _). apply (Ha k). intros E.
  specialize (Hsub k). rewrite E in Hsub. apply sublist_nil_r in Hsub. done.
Qed.

Lemma in_table_purges brefs srefs proto m sel db w t :
  sessiondb_inv brefs srefs (db, w) -> sess_get_table proto db = Some t ->
  purges proto (proto_ok proto) (proto_fns proto) m sel brefs (fun l => srefs l + other_refs proto db l) t w ->
  exists dw', in_table proto m (db, w) = Some (tt, dw') /\
    db_purged brefs srefs (fun p x => p = proto /\ sel x) (db, w) dw'.
Proof.
  intros Hi Hg (t' & w' & l & Hrun & (Hi' & Hp & Htm & Hsub & Eq & Eo & Hb & Hf) & Hl).
  pose proof Hi as (_ & Hs & Htabs). destruct (db_focus _ _ _ _ _ _ Hi Hg) as [Ht Ha].
  assert (Hnl : forall p x, x ∈ db_entries p db -> (x ∈ l <-> p = proto /\ sel x)).
  { intros p x Hx. rewrite Hl. split.
    - intros [Hx' Hsel]. split; [|done]. pose proof Hx as Hx0. unfold db_entries in Hx.
      destruct (sess_get_table p db) as [tp|] eqn:Hgp; [|inversion Hx].
      cbn [fst] in Htabs. destruct (Htabs _ _ Hgp) as (I1 & _), (Htabs _ _ Hg) as (I2 & _).
      destruct (entry_wf _ _ tp x I1 Hx) as [_ <-]. apply (entry_wf _ _ t x I2 Hx').
    - intros [-> Hsel]. rewrite (db_entries_get _ _ _ Hg) in Hx. done. }
  assert (Hin : forall p x, x ∈ db_entries p (sess_put_table proto t' db) <->
     x ∈ db_entries p db /\ ~ (p = proto /\ sel x)).
  { intros p x. rewrite (db_entries_put _ t) by done. case_decide as Hd; [|tauto]. subst p.
    rewrite (db_entries_get _ _ _ Hg).
    destruct Ht as (_ & _ & (_ & _ & _ & _ & Hnd & _) & _). cbn [fst] in Hnd. apply NoDup_fmap_1 in Hnd.
    rewrite Hp in Hnd. apply NoDup_app in Hnd as (_ & Hdis & _). split.
    - intros Hx. assert (Hx' : x ∈ s_entries t) by (rewrite Hp, elem_of_app; auto). split; [done|].
      intros Hsel. apply (Hdis x); [|done]. apply Hl. tauto.
    - intros [Hx Hns]. rewrite Hp, elem_of_app in Hx. destruct Hx as [Hx|Hx]; [|done].
      apply Hl in Hx. tauto. }
  assert (Hkeep : forall p x v, x ∈ db_entries p (sess_put_table proto t' db) -> live (w_store w) x v ->
     exists n, live (w_store w') x (set_refcounter n v)).
  { intros p x v Hx Hv. pose proof Hx as Hx'. apply Hin in Hx' as [Hxo Hns].
    apply (Hf x v Hv); [rewrite (Hnl p x Hxo); done|].
    pose proof (queue_refs_nonneg (node_list (w_queue w)) (se_loc x)) as Hq.
    pose proof (other_refs_nonneg proto db (se_loc x)) as Ho. specialize (Hs (se_loc x)).
    pose proof (refs_in_nonneg se_loc (s_entries t') (se_loc x)) as Hr. unfold table_refs.
    rewrite (db_entries_put _ t) in Hx by done. case_decide as Hd.
    - pose proof (refs_in_pos se_loc x _ Hx). lia.
    - pose proof (other_refs_pos proto p db x Hd Hx). lia. }
  exists (sess_put_table proto t' db, w'). split; [apply (in_table_run _ _ _ _ t); done|].
  split; [|split; [done|split; [done|split; [done|split; [done|split]]]]].
  - eapply db_unfocus; [exact Hi | exact Hg | exact Hi' | done | eapply same_timers_armed; done |].
    intros y v Hv Hy Hpos. apply (Hf y v Hv).
    + intros Hyl. apply Hl in Hyl as [Hyt _]. destruct (Htabs _ _ Hg) as (I & _).
      apply Hy, (entry_wf _ _ t y I Hyt).
    + pose proof (queue_refs_nonneg (node_list (w_queue w)) (se_loc y)).
      pose proof (refs_in_nonneg se_loc (s_entries t') (se_loc y)). unfold table_refs.
      specialize (Hs (se_loc y)). lia.
  - intros p b Hbin. apply (Hb p b). done.
  - intros p b Hbin Hge. apply (Hb p b); auto.
Qed.

(** An operation of a table that purges what [sel] says of any state. *)
Definition purger (m : M tworld unit) (sel : session_entry -> Prop) : Prop :=
  forall proto brefs srefs t w, ptable_inv proto brefs srefs (t, w) ->
    purges proto (proto_ok proto) (proto_fns proto) m sel brefs srefs t w.

Lemma purge_one m sel proto brefs srefs db w :
  purger m sel -> proto <> L4PROTO_OTHER -> sessiondb_inv brefs srefs (db, w) ->
  exists dw', in_table proto m (db, w) = Some (tt, dw') /\
    db_purged brefs srefs (fun p x => p = proto /\ sel x) (db, w) dw'.
Proof.
  intros Hm Hp Hi. destruct (sess_get_table proto db) as [t|] eqn:Hg; [|destruct proto; done].
  eapply in_table_purges; [exact Hi | exact Hg |]. apply Hm. apply (db_focus _ _ _ _ _ _ Hi Hg).
Qed.

(** The same operation on the three tables, in some order. *)
Lemma purge_all m sel p1 p2 p3 brefs srefs dw :
  purger m sel -> [p1; p2; p3] ≡ₚ [L4PROTO_TCP; L4PROTO_UDP; L4PROTO_ICMP] ->
  sessiondb_inv brefs srefs dw ->
  exists dw', (in_table p1 m;; in_table p2 m;; in_table p3 m) dw = Some (tt, dw') /\
    db_purged brefs srefs (fun _ x => sel x) dw dw'.
Proof.
  intros Hm Hps Hi. destruct dw as [db w].
  assert (Hno : forall p, p ∈ [p1; p2; p3] -> p <> L4PROTO_OTHER)
    by (intros p; rewrite Hps; set_solver).
  destruct (purge_one m sel p1 brefs srefs db w Hm) as ([db1 w1] & R1 & P1); [apply Hno; set_solver|done|].
  destruct (purge_one m sel p2 brefs srefs db1 w1 Hm) as ([db2 w2] & R2 & P2); [apply Hno; set_solver|apply P1|].
  destruct (purge_one m sel p3 brefs srefs db2 w2 Hm) as ([db3 w3] & R3 & P3); [apply Hno; set_solver|apply P2|].
  exists (db3, w3). split; [rewrite (bind_run _ _ _ _ _ R1), (bind_run _ _ _ _ _ R2); exact R3|].
  eapply db_purged_sel; [eapply db_purged_trans; [exact P1|eapply db_purged_trans; [exact P2|exact P3]]|].
  intros p x Hx. assert (Hp : p ∈ [p1; p2; p3]).
  { rewrite Hps. unfold db_entries in Hx. destruct p; simpl in Hx; [set_solver..|inversion Hx]. }
  simpl. set_solver.
Qed.

Lemma flush_purger : purger sessiontable_flush (fun _ => True).
Proof. intros proto brefs srefs t w Hi. exact (flush_purges _ _ _ _ _ _ _ Hi). Qed.

Lemma delete_taddr4s_purger prefix ports :
  0 <= p4_len prefix -> wf_addr4 (p4_address prefix) -> prefix4_validate (Some prefix) = Ok tt ->
  wf_range ports ->
  purger (sessiontable_delete_taddr4s prefix ports) (fun x => in_request prefix ports (local4 x) = true).
Proof. intros ? ? ? ? proto brefs srefs t w Hi. apply delete_taddr4s_purges; done. Qed.

Lemma delete_taddr6s_purger prefix :
  0 <= p6_len prefix -> wf_addr6 (p6_address prefix) -> prefix6_validate (Some prefix) = Ok tt ->
  purger (sessiontable_delete_taddr6s prefix) (fun x => prefix6_contains prefix (l3_6 (local6 x)) = true).
Proof. intros ? ? ? proto brefs srefs t w Hi. apply delete_taddr6s_purges; done. Qed.

Lemma delete_by_bib_purger bib :
  wf_taddr4 (bib_ipv4 bib) -> purger (sessiontable_delete_by_bib bib) (fun x => local4 x = bib_ipv4 bib).
Proof. intros ? proto brefs srefs t w Hi. apply delete_by_bib_purges; done. Qed.

(** ** Timers *)

Lemma proto_fns_table brefs srefs db w proto t k :
  sessiondb_inv brefs srefs (db, w) -> sess_get_table proto db = Some t ->
  get_timeout (get_timer k t) = fst (proto_fns proto k) /\
  decide_fate_cb (get_timer k t) = snd (proto_fns proto k).
Proof.
  intros (_ & _ & Ht) Hg. destruct (Ht _ _ Hg) as ((_ & _ & _ & _ & _ & _ & _ & Hts) & _). apply Hts.
Qed.

Lemma db_fire_spec brefs srefs db w proto t k fuel timeout cb :
  sessiondb_inv brefs srefs (db, w) -> sess_get_table proto db = Some t ->
  proto_fns proto k = (Some timeout, Some cb) ->
  (length (et_sessions (get_timer k t)) <= fuel)%nat ->
  exists gone rest t' w', et_sessions (get_timer k t) = gone ++ rest /\
    in_table proto (fire_timer e fuel k) (db, w) = Some (tt, (sess_put_table proto t' db, w')) /\
    sessiondb_inv brefs srefs (sess_put_table proto t' db, w') /\
    (forall x, x ∈ gone -> exists v, live (w_store w) x v /\
       time_before (jiffies e) (u64 (update_time v + timeout e)) = false /\
       (fst (cb e x v) = FATE_RM <-> x ∉ s_entries t')) /\
    head_waits e (timeout e) (w_store w) rest /\ et_sessions (get_timer k t') = rest /\
    (forall x, x ∈ s_entries t' -> x ∈ s_entries t) /\
    (forall x, x ∈ s_entries t -> x ∉ gone -> x ∈ s_entries t').
Proof.
  intros Hi Hg Hf Hfuel. pose proof Hi as (_ & Hs & Htabs). cbn [fst] in Htabs.
  destruct (db_focus _ _ _ _ _ _ Hi Hg) as [Ht Ha].
  destruct (proto_fns_table _ _ _ _ _ _ k Hi Hg) as [Eto Ecb].
  assert (Hcb : snd (proto_fns proto k) = Some cb) by (rewrite Hf; done).
  destruct (fire_timer_spec proto (proto_ok proto) (proto_fns proto) (proto_fns_some proto) e k cb timeout brefs
      _ fuel t w Ht (proto_cb_ok _ _ _ Hcb) (proto_cb_leaves e _ _ _ Hcb))
    as (gone & rest & t' & w' & El & Hrun & Hi' & Ha' & Hgone & Hhead & Erest & Hsub & Hstay & Hkeep);
    [congruence|rewrite Eto, Hf; done|done|done|].
  exists gone, rest, t', w'. split; [done|]. split; [apply (in_table_run _ _ _ _ t); done|].
  split; [|done]. eapply db_unfocus; [exact Hi | exact Hg | exact Hi' | done | done |].
  intros y v Hv Hy Hpos. apply (Hkeep y v Hv); [|specialize (Hs (se_loc y)); lia].
  intros Hyg. destruct (Htabs _ _ Hg) as (I & _). apply Hy, (entry_wf _ _ t y I).
  apply (in_queues _ _ t y I). exists k. rewrite El, elem_of_app. auto.
Qed.

Lemma sessiontable_update_timers_run proto brefs srefs t w :
  ptable_inv proto brefs srefs (t, w) -> (forall k, armed k t) ->
  exists t', sessiontable_update_timers e (t, w) = Some (tt, (t', w)) /\
    ptable_inv proto brefs srefs (t', w) /\ (forall k, armed k t') /\ s_entries t' = s_entries t /\
    (forall k, et_sessions (get_timer k t') = et_sessions (get_timer k t)).
Proof.
  intros (Hw & Hs & Ht & Hq) Ha. cbn [fst snd] in *.
  assert (Hstep : forall k t, session_table_inv proto (proto_fns proto) t ->
    queues_ok (proto_ok proto) t (w_store w) -> exists t', force_reschedule e k (t, w) = Some (tt, (t', w)) /\
    session_table_inv proto (proto_fns proto) t' /\ queues_ok (proto_ok proto) t' (w_store w) /\
    (forall k', armed k' t -> armed k' t') /\ s_entries t' = s_entries t /\
    (forall k', et_sessions (get_timer k' t') = et_sessions (get_timer k' t))).
  { intros k t0 Ht0 Hq0. pose proof Ht0 as (_ & _ & _ & _ & _ & _ & _ & Hts).
    destruct (force_reschedule_run (proto_ok proto) _ (proto_fns_some proto) e k t0 w Hts Hq0) as (t' & Hrun & Hre & _).
    destruct (rearmed_same (proto_fns proto) _ _ _ Hre) as (_ & E4 & _ & El & Har & _). exists t'. split; [done|].
    split; [eapply rearmed_inv; done|]. split; [intros k' y Hy; rewrite El in Hy; apply Hq0; done|].
    split; [done|]. split; [unfold s_entries; rewrite E4; done|done]. }
  destruct (Hstep EST_TIMER t Ht Hq) as (t1 & R1 & T1 & Q1 & A1 & E1 & L1).
  destruct (Hstep TRANS_TIMER t1 T1 Q1) as (t2 & R2 & T2 & Q2 & A2 & E2 & L2).
  exists t2. split; [unfold sessiontable_update_timers; rewrite (bind_run _ _ _ _ _ R1); exact R2|].
  split; [|split; [auto|split; [congruence|intros k; rewrite L2; apply L1]]].
  split; [|split; [done|split; done]]. cbn [fst snd]. unfold table_refs in *. rewrite E2, E1. done.
Qed.

Lemma rest_kept_refl proto db w : rest_kept proto db w w.
Proof. intros y v Hv _ _. exists (se_refcounter v). rewrite set_refcounter_id. done. Qed.

Lemma update_timers_one proto brefs srefs db w :
  proto <> L4PROTO_OTHER -> sessiondb_inv brefs srefs (db, w) ->
  exists db', in_table proto (sessiontable_update_timers e) (db, w) = Some (tt, (db', w)) /\
    sessiondb_inv brefs srefs (db', w) /\ forall p, db_entries p db' = db_entries p db.
Proof.
  intros Hp Hi. destruct (sess_get_table proto db) as [t|] eqn:Hg; [|destruct proto; done].
  pose proof Hi as (_ & Hs & _). destruct (db_focus _ _ _ _ _ _ Hi Hg) as [Ht Ha].
  destruct (sessiontable_update_timers_run proto brefs _ t w Ht Ha) as (t' & Hrun & Hi' & Ha' & He & _).
  exists (sess_put_table proto t' db). split; [apply (in_table_run _ _ _ _ t); done|]. split.
  - eapply db_unfocus; [exact Hi | exact Hg | exact Hi' | done | done | apply rest_kept_refl].
  - intros p. rewrite (db_entries_put _ t) by done. case_decide as Hd; [|done]. subst p.
    rewrite (db_entries_get _ _ _ Hg). done.
Qed.

Lemma sessiondb_update_timers_spec brefs srefs db w :
  sessiondb_inv brefs srefs (db, w) ->
  exists db', sessiondb_update_timers e (db, w) = Some (tt, (db', w)) /\
    sessiondb_inv brefs srefs (db', w) /\ forall p, db_entries p db' = db_entries p db.
Proof.
  intros Hi. destruct (update_timers_one L4PROTO_UDP brefs srefs db w) as (d1 & R1 & I1 & E1); [done..|].
  destruct (update_timers_one L4PROTO_TCP brefs srefs d1 w) as (d2 & R2 & I2 & E2); [done..|].
  destruct (update_timers_one L4PROTO_ICMP brefs srefs d2 w) as (d3 & R3 & I3 & E3); [done..|].
  exists d3. split; [|split; [done|intros p; rewrite E3, E2; apply E1]].
  unfold sessiondb_update_timers. rewrite (bind_run _ _ _ _ _ R1), (bind_run _ _ _ _ _ R2). exact R3.
Qed.

(** The tables do not mind what happens to the world as long as their
    sessions only see their counters change. *)
Lemma db_world_frame brefs brefs' srefs srefs' db w w' :
  sessiondb_inv brefs srefs (db, w) -> world_inv brefs' (fun l => srefs' l + db_refs db l) w' ->
  (forall l, 0 <= srefs' l) -> store_frame (fun l => 0 < db_refs db l) (w_store w) (w_store w') ->
  sessiondb_inv brefs' srefs' (db, w').
Proof.
  intros (_ & _ & Ht) Hw Hs Hf. split; [done|]. split; [done|]. cbn [fst snd] in *. intros p t Hg.
  destruct (Ht _ _ Hg) as (I & Q & A). split; [done|]. split; [|done]. intros k x Hx.
  destruct (Q k x Hx) as (v & Hv & Hr). destruct (Hf x v Hv) as [n Hn]; [|exists (set_refcounter n v); done].
  assert (Hin : x ∈ s_entries t) by (apply (in_queues _ _ t x I); eauto).
  rewrite (other_refs_split _ _ _ _ Hg). pose proof (refs_in_pos se_loc x _ Hin).
  pose proof (other_refs_nonneg p db (se_loc x)). unfold table_refs. lia.
Qed.

Lemma db_refs_nonneg db l : 0 <= db_refs db l.
Proof.
  unfold db_refs, table_refs.
  pose proof (refs_in_nonneg se_loc (s_entries (session_table_udp db)) l).
  pose proof (refs_in_nonneg se_loc (s_entries (session_table_tcp db)) l).
  pose proof (refs_in_nonneg se_loc (s_entries (session_table_icmp db)) l). lia.
Qed.

Lemma db_clean_spec brefs srefs db w :
  sessiondb_inv brefs srefs (db, w) ->
  exists w', off_tables (pq_cleaner_timer e) (db, w) = Some (tt, (db, w')) /\
    sessiondb_inv brefs srefs (db, w').
Proof.
  intros Hi. pose proof Hi as (Hw & Hs & _). cbn [fst snd] in Hw.
  destruct (world_clean_spec brefs _ e w Hw) as (expired & rest & q' & s' & _ & Hrun & Hi' & _ & _ & _ & Hf).
  eexists. split; [unfold off_tables; rewrite Hrun; done|].
  eapply db_world_frame; [exact Hi | exact Hi' | done |].
  eapply store_frame_weaken; [|exact Hf]. simpl. intros l Hl. specialize (Hs l). lia.
Qed.

End DbSpec.
