(* ===== verification/Filtering.v ===== *)
(** * Filtering and updating

    [mod/stateful/filtering_and_updating.c]: the step of the translation that
    decides on a packet and creates and updates its BIB entry and its
    session, and [mod/stateful/compute_outgoing_tuple.c], the step after it.

    The functions run on [fworld]: the session database, with everything it
    is connected to, and the port allocator's counter.  What they only read
    (the clock and the timeouts, the configuration, the pools and the node's
    routes) is in [config].  An [int] status is a [status]: [Fail] carries
    the non-zero code.  Log messages are left out; ICMP errors and
    statistics are events. *)
From S2P Require Import Prelude Types Address Rfc6052 Pool6 Pool4Table Pool4Db RbTree BibTable BibDb PortAlloc.
From S2P Require Import Packet SessionEntry PktQueue SessionTable Tcp SessionSpec SessionDb.

Record config : Type := Config {
  c_env : env;
  c_pool6 : pool6_state;
  c_pool4 : pool4db;
  c_netdevs : list in_device;
  c_route : in_addr -> option in_device;
  hash_32 : Z -> Z -> Z;
  digest : in6_addr -> in6_addr -> Z -> Z * Z;
  addr_dependent_filtering : bool;
  drop_external_connections : bool;
  filter_icmpv6_info : bool
}.

(** The databases and [next_ephemeral]. *)
Definition fworld : Type := dbworld * Z.

Inductive status (A : Type) : Type :=
| Done (a : A)
| Fail (error : Z).
Arguments Done {A} a.
Arguments Fail {A} error.

Definition to_status {A} (r : result A) : status A :=
  match r with Ok a => Done a | Err e => Fail (- errno_code e) end.

Definition on_db {A} (m : M dbworld A) : M fworld A := fun '(dw, eph) =>
  match m dw with
  | Some (a, dw) => Some (a, (dw, eph))
  | None => None
  end.

Definition on_w {A} (m : M world A) : M fworld A := on_db (off_tables m).
Definition on_s {A} (m : M store A) : M fworld A := on_w (on_store m).
Definition on_b {A} (m : M bib_db A) : M fworld A := on_s (on_bib m).

Section Filtering.
Context {R : RbTree} (c : config).

(** The pool of prefixes is only read. *)
Definition ask_pool6 {A} (m : M pool6_state A) : M fworld A := fun s =>
  match m (c_pool6 c) with
  | Some (a, _) => Some (a, s)
  | None => None
  end.

Definition inc_stats (pkt : packet) (field : ipstats) : M fworld unit := on_w (emit (EvStat (pkt_id pkt) field)).

(** The error is about the packet Jool was given. *)
Definition icmp64_send (pkt : packet) (error : icmp_error_code) : M fworld unit :=
  on_w (emit (EvIcmp (pkt_original_pkt pkt) error)).

Definition xlat_addr64 (dst : ipv6_transport_addr) : M fworld (result in_addr) :=
  ask_pool6 (rfc6052_6to4 (l3_6 dst)).

Definition allocate (in_pkt : packet) (src dst : ipv6_transport_addr) (proto : l4_protocol) (daddr : in_addr)
    : M fworld (Z * option ipv4_transport_addr) := fun '((db, w), eph) =>
  match palloc_allocate (hash_32 c) (digest c) (c_netdevs c) (c_route c daddr) (c_pool4 c)
          (st_bib (w_store w)) (pkt_mark in_pkt) src dst proto daddr (PallocArgs eph None) with
  | Some (error, args) => Some ((error, palloc_result args), ((db, w), next_ephemeral args))
  | None => None
  end.

(** [src], [dst] and [proto] are those of the IPv6 tuple. *)
Definition create_bib6 (in_pkt : packet) (src dst : ipv6_transport_addr) (proto : l4_protocol)
    : M fworld (status bib_entry) :=
  r ← xlat_addr64 dst;
  match r with
  | Err e => mret (Fail (- errno_code e))
  | Ok daddr =>
      '(error, saddr) ← allocate in_pkt src dst proto daddr;
      if negb (error =? 0) then mret (Fail error)
      else
        match saddr with
        | None => fault
        | Some saddr =>
            bib ← on_b (on_heap (bibentry_create saddr src false proto));
            match bib with
            | None => mret (Fail (- errno_code ENOMEM))
            | Some bib => mret (Done bib)
            end
        end
  end.

Definition get_or_create_bib6 (in_pkt : packet) (src dst : ipv6_transport_addr) (proto : l4_protocol)
    : M fworld (status bib_entry) :=
  r ← on_b (bibdb_get (Tuple6 src dst proto));
  match r with
  | Err ESRCH =>
      r ← create_bib6 in_pkt src dst proto;
      match r with
      | Fail error => mret (Fail error)
      | Done bib =>
          r ← on_b (bibdb_add bib);
          match r with
          | Err e => on_b (on_heap (bibentry_kfree bib));; mret (Fail (- errno_code e))
          | Ok _ => mret (Done bib)
          end
      end
  | r => mret (to_status r)
  end.

(** A NULL [bib] is only expected from an IPv4 TCP tuple. *)
Definition create_session (tup : tuple) (bib : option bib_entry) : M fworld (status session_entry) :=
  let create remote6 local6 local4 remote4 :=
    session ← on_s (session_create (jiffies (c_env c)) remote6 local6 local4 remote4 (l4_proto tup) bib);
    mret (match session with Some session => Done session | None => Fail (- errno_code ENOMEM) end) in
  match tup with
  | Tuple6 src dst proto =>
      match bib with
      | None => fault
      | Some b =>
          r ← xlat_addr64 dst;
          match r with
          | Err e => mret (Fail (- errno_code e))
          | Ok remote =>
              create src dst (bib_ipv4 b)
                (TAddr4 remote (if negb (bool_decide (proto = L4PROTO_ICMP)) then l4_6 dst else l4_4 (bib_ipv4 b)))
          end
      end
  | Tuple4 src dst proto =>
      let remote6 := match bib with Some b => bib_ipv6 b | None => TADDR6_ZERO end in
      r ← ask_pool6 (rfc6052_4to6 (l3_4 src));
      match r with
      | Err e => mret (Fail (- errno_code e))
      | Ok local =>
          if negb (bool_decide (proto = L4PROTO_ICMP)) then create remote6 (TAddr6 local (l4_4 src)) dst src
          else match bib with
               | Some b => create remote6 (TAddr6 local (l4_6 (bib_ipv6 b))) dst src
               | None => fault
               end
      end
  end.

Definition get_or_create_session (tup : tuple) (bib : option bib_entry) : M fworld (status session_entry) :=
  r ← on_db (sessiondb_get (c_env c) tup (Some update_timer));
  match r with
  | Err ESRCH =>
      r ← create_session tup bib;
      match r with
      | Fail error => mret (Fail error)
      | Done session =>
          r ← on_db (sessiondb_add (c_env c) session true);
          match r with
          | Err e => on_s (session_return session);; mret (Fail (- errno_code e))
          | Ok _ => mret (Done session)
          end
      end
  | r => mret (to_status r)
  end.

(** The end of [ipv6_simple] and [ipv4_simple]. *)
Definition simple_session (pkt : packet) (tup : tuple) (bib : bib_entry) : M fworld verdict :=
  r ← get_or_create_session tup (Some bib);
  match r with
  | Fail _ =>
      inc_stats pkt IPSTATS_MIB_INDISCARDS;;
      on_b (bibdb_return (Some bib));;
      mret VERDICT_DROP
  | Done session =>
      on_s (session_return session);;
      on_b (bibdb_return (Some bib));;
      mret VERDICT_CONTINUE
  end.

Definition ipv6_simple (pkt : packet) (src dst : ipv6_transport_addr) (proto : l4_protocol) : M fworld verdict :=
  r ← get_or_create_bib6 pkt src dst proto;
  match r with
  | Fail _ => inc_stats pkt IPSTATS_MIB_INDISCARDS;; mret VERDICT_DROP
  | Done bib => simple_session pkt (Tuple6 src dst proto) bib
  end.

Definition get_bib4 (pkt : packet) (src dst : ipv4_transport_addr) (proto : l4_protocol)
    : M fworld (result bib_entry) :=
  r ← on_b (bibdb_get (Tuple4 src dst proto));
  match r with
  | Err ESRCH => inc_stats pkt IPSTATS_MIB_INNOROUTES;; mret (Err ESRCH)
  | Err e =>
      inc_stats pkt IPSTATS_MIB_INDISCARDS;;
      icmp64_send pkt ICMPERR_ADDR_UNREACHABLE;;
      mret (Err e)
  | Ok bib =>
      s ← get;
      if addr_dependent_filtering c && negb (sessiondb_allow src dst proto (fst (fst s))) then
        icmp64_send pkt ICMPERR_FILTER;;
        inc_stats pkt IPSTATS_MIB_INDISCARDS;;
        on_b (bibdb_return (Some bib));;
        mret (Err EPERM)
      else mret (Ok bib)
  end.

Definition ipv4_simple (pkt : packet) (src dst : ipv4_transport_addr) (proto : l4_protocol) : M fworld verdict :=
  r ← get_bib4 pkt src dst proto;
  match r with
  | Err ESRCH => mret VERDICT_ACCEPT
  | Err _ => mret VERDICT_DROP
  | Ok bib => simple_session pkt (Tuple4 src dst proto) bib
  end.

(** [session->state = st] *)
Definition write_state (session : session_entry) (st : tcp_state) : M fworld unit :=
  v ← on_s (read_session session);
  on_s (write_session session (set_state st v)).

(** The error status. *)
Definition tcp_closed_v6_syn (pkt : packet) (src dst : ipv6_transport_addr) (proto : l4_protocol) : M fworld Z :=
  r ← get_or_create_bib6 pkt src dst proto;
  match r with
  | Fail error => mret error
  | Done bib =>
      r ← create_session (Tuple6 src dst proto) (Some bib);
      error ← match r with
              | Fail error => mret error
              | Done session =>
                  write_state session V6_INIT;;
                  r ← on_db (sessiondb_add (c_env c) session false);
                  on_s (session_return session);;
                  mret (match r with Ok _ => 0 | Err e => - errno_code e end)
              end;
      on_b (bibdb_return (Some bib));;
      mret error
  end.

(** [tcp_closed_v4_syn], once it knows the BIB entry. *)
Definition tcp_v4_syn_session (pkt : packet) (src dst : ipv4_transport_addr) (proto : l4_protocol)
    (bib : option bib_entry) : M fworld verdict :=
  r ← create_session (Tuple4 src dst proto) bib;
  result ← match r with
           | Fail _ => mret VERDICT_DROP
           | Done session =>
               write_state session V4_INIT;;
               result ← (if negb (bool_decide (is_Some bib)) || addr_dependent_filtering c then
                           r ← on_w (pktqueue_add (c_env c) session pkt);
                           mret (match r with Ok _ => VERDICT_STOLEN | Err _ => VERDICT_DROP end)
                         else
                           r ← on_db (sessiondb_add (c_env c) session false);
                           mret (match r with Ok _ => VERDICT_CONTINUE | Err _ => VERDICT_DROP end));
               on_s (session_return session);;
               mret result
           end;
  match bib with Some bib => on_b (bibdb_return (Some bib)) | None => mret tt end;;
  mret result.

Definition tcp_closed_v4_syn (pkt : packet) (src dst : ipv4_transport_addr) (proto : l4_protocol) : M fworld verdict :=
  if drop_external_connections c then mret VERDICT_DROP
  else
    r ← on_b (bibdb_get (Tuple4 src dst proto));
    match r with
    | Ok bib => tcp_v4_syn_session pkt src dst proto (Some bib)
    | Err ESRCH => tcp_v4_syn_session pkt src dst proto None
    | Err _ => mret VERDICT_DROP
    end.

Definition tcp_closed_state (pkt : packet) (tup : tuple) : M fworld verdict :=
  let syn_out result :=
    (if bool_decide (result = VERDICT_DROP) then inc_stats pkt IPSTATS_MIB_INDISCARDS else mret tt);;
    mret result in
  let not_syn :=
    r ← on_b (bibdb_get tup);
    match r with
    | Err _ => inc_stats pkt IPSTATS_MIB_INNOROUTES;; mret VERDICT_DROP
    | Ok bib => on_b (bibdb_return (Some bib));; mret VERDICT_CONTINUE
    end in
  if negb (pkt_syn pkt) then not_syn
  else
    match tup with
    | Tuple6 src dst proto =>
        error ← tcp_closed_v6_syn pkt src dst proto;
        syn_out (if negb (error =? 0) then VERDICT_DROP else VERDICT_CONTINUE)
    | Tuple4 src dst proto =>
        result ← tcp_closed_v4_syn pkt src dst proto;
        syn_out result
    end.

Definition tcp (pkt : packet) (tup : tuple) : M fworld verdict :=
  r ← on_db (sessiondb_get (c_env c) tup (Some (tcp_state_machine pkt)));
  match r with
  | Err ESRCH => tcp_closed_state pkt tup
  | Err _ => inc_stats pkt IPSTATS_MIB_INDISCARDS;; mret VERDICT_DROP
  | Ok session => on_s (session_return session);; mret VERDICT_CONTINUE
  end.

(** [simple]: [ipv6_simple] or [ipv4_simple], by the layer 3 protocol. *)
Definition simple (pkt : packet) (tup : tuple) : M fworld verdict :=
  match tup with
  | Tuple6 src dst proto => ipv6_simple pkt src dst proto
  | Tuple4 src dst proto => ipv4_simple pkt src dst proto
  end.

(** The switch over the layer 4 protocol. *)
Definition update_state (pkt : packet) (tup : tuple) : M fworld verdict :=
  match pkt_l4_proto pkt with
  | L4PROTO_UDP => simple pkt tup
  | L4PROTO_TCP => tcp pkt tup
  | L4PROTO_ICMP =>
      if bool_decide (pkt_l3_proto pkt = L3PROTO_IPV6) && filter_icmpv6_info c then
        inc_stats pkt IPSTATS_MIB_INDISCARDS;; mret VERDICT_DROP
      else simple pkt tup
  | L4PROTO_OTHER => mret VERDICT_DROP
  end.

(** The tuple is of the same layer 3 protocol as the packet. *)
Definition filtering_and_updating (pkt : packet) (in_tuple : tuple) : M fworld verdict :=
  match in_tuple with
  | Tuple6 _ _ _ =>
      hairpin ← ask_pool6 (pool6_contains (Some (pkt_saddr6 pkt)));
      if hairpin : bool then inc_stats pkt IPSTATS_MIB_INADDRERRORS;; mret VERDICT_DROP
      else
        mine ← ask_pool6 (pool6_contains (Some (pkt_daddr6 pkt)));
        if negb mine then mret VERDICT_ACCEPT
        else if pkt_is_icmp6_error pkt then mret VERDICT_CONTINUE
        else update_state pkt in_tuple
  | Tuple4 _ dst proto =>
      match pool4db_contains (c_netdevs c) (c_pool4 c) proto dst with
      | None => fault
      | Some false => mret VERDICT_ACCEPT
      | Some true =>
          if pkt_is_icmp4_error pkt then mret VERDICT_CONTINUE
          else update_state pkt in_tuple
      end
  end.

(** [mod/stateful/compute_outgoing_tuple.c]: the verdict and the tuple it
    writes with [VERDICT_CONTINUE]. *)
Definition out_tuple_of (session : session_entry) (tup : tuple) : tuple :=
  match tup with
  | Tuple6 _ _ proto => Tuple4 (local4 session) (remote4 session) proto
  | Tuple4 _ _ proto => Tuple6 (local6 session) (remote6 session) proto
  end.

Definition compute_out_tuple (tup : tuple) : M fworld (verdict * option tuple) :=
  r ← on_db (sessiondb_get (c_env c) tup None);
  match r with
  | Err _ => mret (VERDICT_ACCEPT, None)
  | Ok session =>
      on_s (session_return session);;
      mret (VERDICT_CONTINUE, Some (out_tuple_of session tup))
  end.

End Filtering.
