(* ===== verification/FilteringSpec.v ===== *)
(** * What filtering and updating promises

    The code of [Filtering] takes references to BIB entries and sessions and
    has to give each of them back on every path.  [owned B S db] is its
    invariant while it holds the references listed in [B] and [S] and the
    tables are [db]: every counter of the databases is the number of its
    holders.  Each operation has a triple that says how the lists change, and
    the triples of the functions are composed from them with [triple_bind];
    between packets the state satisfies [owned [] []]. *)
From S2P Require Import Prelude Types Address Rfc6052 Pool6 Pool4Table Pool4Db RbTree BibTable BibDb PortAlloc.
From S2P Require Import Packet SessionEntry PktQueue SessionTable Tcp SessionSpec SessionDb Filtering.

Definition f_db (s : fworld) : session_db := fst (fst s).
Definition f_world (s : fworld) : world := snd (fst s).
Definition f_store (s : fworld) : store := w_store (f_world s).
Definition f_bib (s : fworld) : bib_db := st_bib (f_store s).

(** The two ends of an ICMP session use the same identifier. *)
Definition same_ids (x : session_entry) : Prop :=
  se_l4_proto x = L4PROTO_ICMP -> l4_4 (local4 x) = l4_4 (remote4 x) /\ l4_6 (local6 x) = l4_6 (remote6 x).

(** A session and its BIB entry agree on the addresses they share. *)
Definition agrees (x : session_entry) : Prop :=
  match se_bib x with
  | Some b => local4 x = bib_ipv4 b /\ remote6 x = bib_ipv6 b /\ bib_l4_proto b = se_l4_proto x /\ same_ids x
  | None => False
  end.

Definition owned (B : list bib_entry) (S : list session_entry) (db : session_db) (s : fworld) : Prop :=
  f_db s = db /\
  sessiondb_inv (refs_in bib_loc B) (refs_in se_loc S) (fst s) /\
  (forall b, b ∈ B -> b ∈ bib_all (f_bib s)) /\
  (forall x, x ∈ S -> exists v, live (f_store s) x v) /\
  (forall p x, x ∈ db_entries p db -> agrees x).

Lemma refs_in_add {T} (loc : T -> positive) x l p :
  refs_in loc (x :: l) p = add_ref (refs_in loc l) (loc x) 1 p.
Proof.
  rewrite refs_in_cons. unfold add_ref. case_decide as E.
  - rewrite <- E, Pos.eqb_refl. simpl. lia.
  - destruct (Pos.eqb_spec (loc x) p); [congruence|]. simpl. lia.
Qed.

Lemma refs_in_drop {T} (loc : T -> positive) x l p :
  add_ref (refs_in loc (x :: l)) (loc x) (-1) p = refs_in loc l p.
Proof. unfold add_ref. rewrite refs_in_add. unfold add_ref. case_decide; lia. Qed.

Lemma sessiondb_inv_ext brefs srefs srefs' dw :
  sessiondb_inv brefs srefs dw -> (forall l, srefs' l = srefs l) -> sessiondb_inv brefs srefs' dw.
Proof.
  intros (Hw & Hs & Ht) He. split; [|split; [intros l; rewrite He; done|done]].
  eapply world_inv_ext; [exact Hw|]. intros l. simpl. rewrite He. done.
Qed.

(** ** Changes below the tables *)

Definition with_bib (w : world) (b : bib_db) : world :=
  World (Store b (st_sess (w_store w))) (w_queue w) (w_out w).

Lemma on_b_run {A} (m : M bib_db A) db w eph a b :
  m (st_bib (w_store w)) = Some (a, b) -> on_b m ((db, w), eph) = Some (a, ((db, with_bib w b), eph)).
Proof. intros H. unfold on_b, on_s, on_w, on_db, off_tables, on_store, on_bib. rewrite H. done. Qed.

Lemma on_s_run {A} (m : M store A) db w eph a s :
  m (w_store w) = Some (a, s) -> on_s m ((db, w), eph) = Some (a, ((db, with_store w s), eph)).
Proof. intros H. unfold on_s, on_w, on_db, off_tables, on_store. rewrite H. done. Qed.

Lemma on_w_run {A} (m : M world A) db w eph a w' :
  m w = Some (a, w') -> on_w m ((db, w), eph) = Some (a, ((db, w'), eph)).
Proof. intros H. unfold on_w, on_db, off_tables. rewrite H. done. Qed.

Lemma owned_world B S B' S' db w eph w' :
  owned B S db ((db, w), eph) ->
  world_inv (refs_in bib_loc B') (fun l => refs_in se_loc S' l + db_refs db l) w' ->
  store_frame (fun l => 0 < db_refs db l) (w_store w) (w_store w') ->
  (forall b, b ∈ B' -> b ∈ bib_all (st_bib (w_store w'))) ->
  (forall x, x ∈ S' -> exists v, live (w_store w') x v) ->
  owned B' S' db ((db, w'), eph).
Proof.
  intros (_ & Hi & _ & _ & Ha) Hw Hf HB HS. split; [done|]. split; [|done].
  eapply db_world_frame; [exact Hi | exact Hw | intros l; apply refs_in_nonneg | exact Hf].
Qed.

Lemma owned_bibs B S db w eph :
  owned B S db ((db, w), eph) ->
  bib_db_inv (fun l => refs_in bib_loc B l + held (sessions_of (st_sess (w_store w))) l) (st_bib (w_store w)).
Proof. intros (_ & (((H & _) & _) & _) & _). exact H. Qed.

Lemma owned_used B S db w eph loc x v b :
  owned B S db ((db, w), eph) -> sessions_of (st_sess (w_store w)) !! loc = Some (x, v) ->
  se_bib x = Some b -> b ∈ bib_all (st_bib (w_store w)).
Proof.
  intros (_ & (((_ & _ & H) & _) & _) & _) Hl Hb. specialize (H loc). cbn [fst snd] in H. rewrite Hl in H.
  destruct H as (_ & _ & _ & _ & _ & H). rewrite Hb in H. exact H.
Qed.

(** A change of the BIB that keeps the entries sessions use. *)
Lemma owned_with_bib B S B' db w eph bib' :
  owned B S db ((db, w), eph) ->
  bib_db_inv (fun l => refs_in bib_loc B' l + held (sessions_of (st_sess (w_store w))) l) bib' ->
  (forall b, b ∈ B' -> b ∈ bib_all bib') ->
  (forall loc x v b, sessions_of (st_sess (w_store w)) !! loc = Some (x, v) -> se_bib x = Some b -> b ∈ bib_all bib') ->
  owned B' S db ((db, with_bib w bib'), eph).
Proof.
  intros Ho Hb HB Hu. pose proof Ho as (_ & ((Hst & Hs & Hq & Hn) & _) & _ & HS & _). cbn [fst snd] in *.
  eapply owned_world; [exact Ho | | | exact HB | exact HS].
  - split; [|done]. destruct Hst as (_ & _ & H). split; [exact Hb|]. split; [intros l; apply refs_in_nonneg|].
    intros loc. simpl. specialize (H loc). destruct (sessions_of (st_sess (w_store w)) !! loc) as [[x v]|] eqn:El; [|done].
    destruct H as (? & ? & ? & ? & ? & ?). split_and!; try done.
    destruct (se_bib x) as [b|] eqn:Eb; [|done]. apply (Hu loc x v); done.
  - intros x v Hl _. exists (se_refcounter v). rewrite set_refcounter_id. exact Hl.
Qed.

(** ** The BIB *)

Section Ops.
Context {R : RbTree} {L : RbTreeLaws R}.

Definition bib_matches (tup : tuple) (b : bib_entry) : Prop :=
  match tup with Tuple6 src _ _ => bib_ipv6 b = src | Tuple4 _ dst _ => bib_ipv4 b = dst end.

Lemma bib_get_triple B S db tup :
  wf_tuple tup ->
  triple (owned B S db) (on_b (bibdb_get tup))
    (fun r s => match r with
     | Ok b => owned (b :: B) S db s /\ bib_l4_proto b = l4_proto tup /\ bib_matches tup b
     | Err err => owned B S db s /\
         (err = ESRCH /\ l4_proto tup <> L4PROTO_OTHER /\
            (forall b, b ∈ bib_of_proto (l4_proto tup) (f_bib s) -> ~ bib_matches tup b) \/
          err = EINVAL /\ l4_proto tup = L4PROTO_OTHER)
     end).
Proof.
  intros Hw [[db0 w] eph] Ho. pose proof Ho as (Edb & _). cbn in Edb. subst db0.
  pose proof (owned_bibs _ _ _ _ _ Ho) as Hb.
  assert (Hpost : exists r bib', bibdb_get tup (st_bib (w_store w)) = Some (r, bib') /\
    bib_lookup_post (fun l => refs_in bib_loc B l + held (sessions_of (st_sess (w_store w))) l)
      (st_bib (w_store w)) (l4_proto tup) (bib_matches tup) r bib').
  { destruct tup as [src dst p|src dst p]; destruct Hw as (Hw1 & Hw2 & _);
      [apply bibdb_get4_spec | apply bibdb_get6_spec]; done. }
  destruct Hpost as (r & bib' & Hrun & Hpost). exists r, ((db, with_bib w bib'), eph).
  split; [apply on_b_run; done|]. destruct r as [b|err].
  - destruct Hpost as (Hin & Hm & Hi' & h & ->).
    split; [|split; [apply (bib_of_proto_inv _ _ _ _ Hb Hin)|done]].
    eapply owned_with_bib; [exact Ho | | |].
    + eapply bib_db_inv_ext; [exact Hi'|]. intros x _. simpl. rewrite refs_in_add. unfold add_ref. case_decide; lia.
    + intros x Hx. apply elem_of_cons in Hx as [->|Hx]; [apply (bib_of_proto_all _ _ _ Hin)|apply Ho; done].
    + intros loc x v b' Hl Hb'. apply (owned_used _ _ _ _ _ _ _ _ _ Ho Hl Hb').
  - assert (E : bib' = st_bib (w_store w)) by (destruct err; apply Hpost). subst bib'.
    replace (with_bib w (st_bib (w_store w))) with w by (destruct w as [[] ? ?]; done).
    split; [done|]. destruct err; try (destruct Hpost as (_ & ? & ?); (congruence || auto)).
Qed.

Lemma bib_return_triple B S db b :
  triple (owned (b :: B) S db) (on_b (bibdb_return (Some b))) (fun _ => owned B S db).
Proof.
  intros [[db0 w] eph] Ho. pose proof Ho as (Edb & _ & HB & _). cbn in Edb. subst db0.
  pose proof (owned_bibs _ _ _ _ _ Ho) as Hb. set (m := sessions_of (st_sess (w_store w))) in *.
  pose proof (held_nonneg m (bib_loc b)) as Hn. pose proof (refs_in_nonneg bib_loc B (bib_loc b)) as Hr.
  destruct (bibdb_return_spec _ (st_bib (w_store w)) b Hb) as (bib' & v & Hrun & Hv & Hi' & _ & _ & Hent & Hlast).
  { apply HB. left. }
  { simpl. rewrite refs_in_cons, Pos.eqb_refl. simpl. lia. }
  exists tt, ((db, with_bib w bib'), eph). split; [apply on_b_run; done|].
  assert (Hstay : forall x, x ∈ bib_all (st_bib (w_store w)) ->
    (x = b -> bib_refcounter v <> 1) -> x ∈ bib_all bib').
  { intros x Hx Hne. rewrite (bib_all_of_proto _ _ _ Hi'). apply Hent.
    rewrite <- (bib_all_of_proto _ _ _ Hb). done. }
  assert (Hone : bib_refcounter v = 1 -> refs_in bib_loc B (bib_loc b) = 0 /\ held m (bib_loc b) = 0).
  { intros E. destruct (Hlast E) as (_ & E1 & _). rewrite refs_in_cons, Pos.eqb_refl in E1. simpl in E1. lia. }
  eapply owned_with_bib; [exact Ho | | |].
  - eapply bib_db_inv_ext; [exact Hi'|]. intros x _. fold m.
    rewrite add_ref_plus, refs_in_drop. done.
  - intros x Hx. apply Hstay; [apply HB; right; done|]. intros -> E.
    pose proof (refs_in_pos bib_loc b B Hx). destruct (Hone E). lia.
  - intros loc x vx b' Hl Hb'. apply Hstay; [apply (owned_used _ _ _ _ _ _ _ _ _ Ho Hl Hb')|]. intros -> E.
    destruct (Hone E) as [_ H0]. pose proof (held_zero m (bib_loc b) loc (x, vx) H0 Hl) as Hf.
    unfold holds in Hf. simpl in Hf. rewrite Hb', Pos.eqb_refl in Hf. done.
Qed.

(** ** New BIB entries *)

(** The references of the creator of [b] once it is in a table: a static entry
    keeps the one it was created with. *)
Definition creator_refs (static : bool) (b : bib_entry) (B : list bib_entry) : list bib_entry :=
  if static then B else b :: B.

(** [b] has been created but it is not in a table yet. *)
Definition pending (static : bool) (b : bib_entry) (B : list bib_entry) (S : list session_entry) (db : session_db)
    (s : fworld) : Prop :=
  let refs l := refs_in bib_loc (creator_refs static b B) l + held (sessions_of (st_sess (f_store s))) l in
  owned B S db s /\ bib_db_inv refs (f_bib s) /\ bib_ready refs (f_bib s) b.

Lemma held_none m loc :
  (forall l x v b, m !! l = Some (x, v) -> se_bib x = Some b -> bib_loc b <> loc) -> held m loc = 0.
Proof.
  intros H. unfold held. enough (E : filter (fun o => holds loc (snd o) = true) m = ∅) by (rewrite E; done).
  apply map_empty. intros l. apply map_lookup_filter_None. right. intros [x v] Hl Hh. simpl in Hh. unfold holds in Hh. simpl in Hh. destruct (se_bib x) as [b|] eqn:Eb; [|done].
  apply Pos.eqb_eq in Hh. apply (H l x v b); done.
Qed.

Lemma refs_in_none {T} (loc : T -> positive) l p : (forall x, x ∈ l -> loc x <> p) -> refs_in loc l p = 0.
Proof.
  induction l as [|x l IH]; intros H; [apply refs_in_nil|]. rewrite refs_in_cons, IH by (intros; apply H; right; done).
  destruct (Pos.eqb_spec (loc x) p) as [E|E]; [|done]. destruct (H x); [left|done].
Qed.

Lemma bib_create_triple static B S db addr4 addr6 proto :
  wf_taddr4 addr4 -> wf_taddr6 addr6 -> proto <> L4PROTO_OTHER ->
  triple (owned B S db) (on_b (on_heap (bibentry_create addr4 addr6 static proto)))
    (fun r s => match r with
     | Some b => pending static b B S db s /\ bib_ipv4 b = addr4 /\ bib_ipv6 b = addr6 /\ bib_l4_proto b = proto
     | None => owned B S db s
     end).
Proof.
  intros W4 W6 Hp [[db0 w] eph] Ho. pose proof Ho as (Edb & _ & HB & _). cbn in Edb. subst db0.
  pose proof (owned_bibs _ _ _ _ _ Ho) as Hb.
  destruct (bibentry_create_spec _ (st_bib (w_store w)) addr4 addr6 static proto Hb W4 W6 Hp) as (r & h & Hrun & Hpost).
  exists r, ((db, with_bib w (bib_put_heap h (st_bib (w_store w)))), eph). split; [apply on_b_run; done|].
  destruct r as [b|].
  2:{ eapply owned_with_bib; [exact Ho | exact Hpost | exact HB |]. intros loc x v b Hl Eb.
      apply (owned_used _ _ _ _ _ _ _ _ _ Ho Hl Eb). }
  destruct Hpost as (E4 & E6 & Ep & El & Hi & Hr). split; [|done].
  assert (Hnew : forall x, x ∈ bib_all (st_bib (w_store w)) -> bib_loc x <> bib_loc b).
  { intros x Hx E. destruct Hr as (_ & _ & Hni & _). apply Hni. rewrite <- E. apply list_elem_of_fmap_2. done. }
  assert (H0 : held (sessions_of (st_sess (w_store w))) (bib_loc b) = 0).
  { apply held_none. intros l x v b' Hl Eb. apply Hnew. apply (owned_used _ _ _ _ _ _ _ _ _ Ho Hl Eb). }
  assert (H0' : refs_in bib_loc B (bib_loc b) = 0) by (apply refs_in_none; intros x Hx; apply Hnew, HB; done).
  set (refs l := refs_in bib_loc (creator_refs static b B) l + held (sessions_of (st_sess (w_store w))) l).
  assert (Hrefs : forall l, refs l = new_refs (fun l => refs_in bib_loc B l + held (sessions_of (st_sess (w_store w))) l)
                              (bib_loc b) static l).
  { intros l. unfold refs, new_refs, creator_refs. destruct static; rewrite ?refs_in_add; unfold add_ref;
      (case_decide as E; [subst l; lia|done]). }
  split; [|split].
  - eapply owned_with_bib; [exact Ho | | exact HB |].
    + eapply bib_db_inv_ext; [exact Hi|]. intros x Hx. simpl. unfold new_refs.
      rewrite decide_False by (apply Hnew; done). done.
    + intros loc x v b' Hl Eb. apply (owned_used _ _ _ _ _ _ _ _ _ Ho Hl Eb).
  - eapply bib_db_inv_ext; [exact Hi|]. intros x _. apply Hrefs.
  - destruct Hr as (R1 & R2 & R3 & v & Hv & R4). split; [done|]. split; [done|]. split; [done|].
    exists v. split; [done|]. specialize (Hrefs (bib_loc b)). unfold refs, ref_ok in *.
    unfold f_store, f_world. cbn [fst snd with_bib w_store st_sess] in *. rewrite Hrefs. done.
Qed.

Lemma bib_add_triple static b B S db :
  triple (pending static b B S db) (on_b (bibdb_add b))
    (fun r s => match r with
     | Ok _ => owned (creator_refs static b B) S db s /\ b ∈ bib_all (f_bib s) /\
         (static = true -> exists v, bib_vars_of (bibs (f_bib s)) !! bib_loc b = Some v /\ is_static v = true)
     | Err _ => owned B S db s /\ (bib_loc b ∉ (bib_loc <$> bib_all (f_bib s))) /\
         is_Some (bib_vars_of (bibs (f_bib s)) !! bib_loc b)
     end).
Proof.
  intros [[db0 w] eph] (Ho & Hb & Hr). pose proof Ho as (Edb & _ & HB & _). cbn in Edb. subst db0.
  destruct (bibdb_add_spec _ _ b Hb Hr) as (r & bib' & Hrun & Hi & Hh & Hpost).
  exists r, ((db, with_bib w bib'), eph). split; [apply on_b_run; done|].
  unfold f_bib, f_store, f_world in *. cbn [fst snd] in *.
  destruct r as [[]|err].
  - destruct Hpost as [Hent _].
    assert (Hstay : forall x, x ∈ bib_all (st_bib (w_store w)) -> x ∈ bib_all bib').
    { intros x Hx. rewrite (bib_all_of_proto _ _ _ Hi). apply Hent. left. rewrite <- (bib_all_of_proto _ _ _ Hb). done. }
    assert (Hnew : b ∈ bib_all bib') by (rewrite (bib_all_of_proto _ _ _ Hi); apply Hent; auto).
    split; [|split; [exact Hnew|]].
    2:{ intros ->. destruct Hr as (_ & _ & Hni & v & Hv & _ & Hr & Hpos). exists v.
        unfold with_bib. simpl. rewrite Hh. split; [done|]. cbn [creator_refs] in Hr.
        assert (Hne : forall x, x ∈ bib_all (st_bib (w_store w)) -> bib_loc x <> bib_loc b)
          by (intros x Hx E; apply Hni; rewrite <- E; apply list_elem_of_fmap_2; done).
        rewrite refs_in_none in Hr by (intros x Hx; apply Hne, HB; done).
        rewrite held_none in Hr; [destruct (is_static v); [done|simpl in Hr; lia]|].
        intros l x vx b' Hl Eb. apply Hne. apply (owned_used _ _ _ _ _ _ _ _ _ Ho Hl Eb). }
    eapply owned_with_bib; [exact Ho | exact Hi | |].
    + intros x Hx. unfold creator_refs in Hx. destruct static; [auto|]. apply elem_of_cons in Hx as [->|Hx]; auto.
    + intros loc x v b' Hl Eb. apply Hstay. apply (owned_used _ _ _ _ _ _ _ _ _ Ho Hl Eb).
  - destruct Hpost as (_ & Hall & _). destruct Hr as (_ & _ & Hni & v & Hv & _).
    split; [|split; [unfold with_bib; simpl; rewrite Hall; done|]].
    + eapply owned_with_bib; [exact Ho | | |].
      * eapply bib_db_inv_ext; [exact Hi|]. intros x Hx. unfold creator_refs. simpl.
        destruct static; [done|]. rewrite refs_in_add, add_ref_ne; [done|]. intros E. apply Hni. rewrite <- E, <- Hall. apply list_elem_of_fmap_2. done.
      * intros x Hx. rewrite Hall. auto.
      * intros loc x vx b' Hl Eb. rewrite Hall. apply (owned_used _ _ _ _ _ _ _ _ _ Ho Hl Eb).
    + unfold with_bib. simpl. rewrite Hh. eauto.
Qed.

Lemma bib_kfree_triple b B S db :
  triple (fun s => owned B S db s /\ (bib_loc b ∉ (bib_loc <$> bib_all (f_bib s))) /\
           is_Some (bib_vars_of (bibs (f_bib s)) !! bib_loc b))
    (on_b (on_heap (bibentry_kfree b))) (fun _ => owned B S db).
Proof.
  intros [[db0 w] eph] (Ho & Hni & [v Hv]). pose proof Ho as (Edb & _ & HB & _). cbn in Edb. subst db0.
  unfold f_bib, f_store, f_world in *. cbn [fst snd] in *.
  eexists tt, _. split; [apply on_b_run; unfold on_heap; rewrite (bibentry_kfree_run _ _ _ Hv); reflexivity|].
  eapply owned_with_bib; [exact Ho | | exact HB |].
  - destruct (owned_bibs _ _ _ _ _ Ho) as (H1 & H2 & H3 & H4 & H5 & H6). split_and!; try done; simpl.
    + intros x Hx. destruct (H5 x Hx) as (vx & Hvx & Hr). exists vx. rewrite lookup_delete_ne; [done|].
      intros E. apply Hni. rewrite E. apply list_elem_of_fmap_2. done.
    + intros loc vl Hl. apply lookup_delete_Some in Hl as [_ Hl]. eauto.
  - intros loc x vx b' Hl Eb. apply (owned_used _ _ _ _ _ _ _ _ _ Ho Hl Eb).
Qed.

(** ** Sessions *)

(** The session is in no table. *)
Definition fresh (x : session_entry) (db : session_db) : Prop :=
  forall p, se_loc x ∉ (se_loc <$> db_entries p db).

Lemma owned_entry_live B S db w eph p x :
  owned B S db ((db, w), eph) -> x ∈ db_entries p db -> exists v, live (w_store w) x v.
Proof.
  intros (_ & (_ & _ & Ht) & _) Hx. unfold db_entries in Hx.
  destruct (sess_get_table p db) as [t|] eqn:Hg; [|inversion Hx]. cbn [fst snd] in Ht.
  destruct (Ht _ _ Hg) as (I & Q & _). apply (in_queues _ _ t x I) in Hx as [k Hk].
  destruct (Q k x Hk) as (v & Hv & _). eauto.
Qed.

(** A change of the store that drops no session that somebody knows. *)
Lemma owned_with_store B S S' db w eph s' :
  owned B S db ((db, w), eph) ->
  store_inv (refs_in bib_loc B) (fun l => refs_in se_loc S' l + db_refs db l +
    queue_refs (node_list (w_queue w)) l) s' ->
  store_frame (fun l => 0 < db_refs db l + queue_refs (node_list (w_queue w)) l) (w_store w) s' ->
  (forall b, b ∈ B -> b ∈ bib_all (st_bib s')) ->
  (forall x, x ∈ S' -> exists v, live s' x v) ->
  owned B S' db ((db, with_store w s'), eph).
Proof.
  intros Ho Hi Hf HB HS. pose proof Ho as (_ & ((Hst & Hs & Hq & Hn) & _) & _). cbn [fst snd] in *.
  eapply owned_world; [exact Ho | | | exact HB | exact HS].
  - split; [exact Hi|]. split; [|split; [done|]].
    + intros l. pose proof (refs_in_nonneg se_loc S' l). pose proof (db_refs_nonneg db l). lia.
    + intros n Hin. cbn [with_store w_queue] in Hin. destruct (Hn n Hin) as [v Hv].
      destruct (Hf _ _ Hv) as [m Hm]; [|eauto].
      pose proof (queue_refs_pos n _ Hin). pose proof (db_refs_nonneg db (se_loc (pn_session n))). lia.
  - eapply store_frame_weaken; [|exact Hf]. simpl. intros l Hl.
    pose proof (queue_refs_nonneg (node_list (w_queue w)) l). lia.
Qed.

Lemma owned_store B S db w eph :
  owned B S db ((db, w), eph) ->
  store_inv (refs_in bib_loc B) (fun l => refs_in se_loc S l + db_refs db l +
    queue_refs (node_list (w_queue w)) l) (w_store w).
Proof. intros (_ & ((H & _) & _) & _). exact H. Qed.

Lemma session_create_triple B S db j r6 l6 l4 r4 proto bib :
  wf_taddr6 r6 -> wf_taddr6 l6 -> wf_taddr4 l4 -> wf_taddr4 r4 -> (forall b, bib = Some b -> b ∈ B) ->
  triple (owned B S db) (on_s (session_create j r6 l6 l4 r4 proto bib))
    (fun r s => match r with
     | Some x => owned B (x :: S) db s /\ live (f_store s) x (SessionVars j 1 CLOSED None) /\ fresh x db /\
         remote6 x = r6 /\ local6 x = l6 /\ local4 x = l4 /\ remote4 x = r4 /\ se_l4_proto x = proto /\ se_bib x = bib
     | None => owned B S db s
     end).
Proof.
  intros W1 W2 W3 W4 Hbib [[db0 w] eph] Ho. pose proof Ho as (Edb & _ & HB & HS & HA). cbn in Edb. subst db0.
  pose proof (owned_store _ _ _ _ _ Ho) as Hst.
  destruct (session_clone_spec _ _ (w_store w) (SessionEntry 1 r6 l6 l4 r4 bib proto) (SessionVars j 0 CLOSED None) Hst)
    as (r & s' & Hrun & Hbibs & Hpost).
  { split_and!; done. }
  { cbn [se_bib]. destruct bib as [b|]; [|done]. apply HB, Hbib. done. }
  exists r, ((db, with_store w s'), eph). split; [apply on_s_run; exact Hrun|].
  assert (HB' : store_inv (refs_in bib_loc B) (fun l => refs_in se_loc (match r with Some x => x :: S | None => S end) l +
      db_refs db l + queue_refs (node_list (w_queue w)) l) s' -> forall b, b ∈ B -> b ∈ bib_all (st_bib s')).
  { intros (Hb' & _) b Hb. rewrite (bib_all_of_proto _ _ _ Hb'). apply Hbibs.
    rewrite <- (bib_all_of_proto _ _ _ (owned_bibs _ _ _ _ _ Ho)). apply HB. done. }
  destruct r as [x|].
  - destruct Hpost as (Ex & Hnone & Hm & Hi). cbn [remote6 local6 local4 remote4 se_bib se_l4_proto] in Ex.
    assert (Hne : forall y v, live (w_store w) y v -> se_loc y <> se_loc x).
    { intros y v Hy E. unfold live in Hy. congruence. }
    assert (Hlive : forall y v, live (w_store w) y v -> live s' y v).
    { intros y v Hy. unfold live. rewrite Hm, lookup_insert_ne; [done|]. intros E. destruct (Hne y v Hy). done. }
    assert (Hi' : store_inv (refs_in bib_loc B) (fun l => refs_in se_loc (x :: S) l + db_refs db l +
               queue_refs (node_list (w_queue w)) l) s').
    { eapply store_inv_ext; [exact Hi|]. intros l. rewrite refs_in_add. unfold add_ref. case_decide; lia. }
    assert (Hx : live s' x (SessionVars j 1 CLOSED None)) by (unfold live; rewrite Hm; apply lookup_insert_eq).
    split; [|split; [exact Hx|split; [|rewrite Ex; done]]].
    + eapply owned_with_store; [exact Ho | exact Hi' | | apply HB'; exact Hi' |].
      * intros y v Hy _. exists (se_refcounter v). rewrite set_refcounter_id. apply Hlive. done.
      * intros y Hy. apply elem_of_cons in Hy as [->|Hy]; [eauto|]. destruct (HS y Hy) as [v Hv]. eauto.
    + intros p Hin. apply list_elem_of_fmap in Hin as (y & E & Hy).
      destruct (owned_entry_live _ _ _ _ _ _ _ Ho Hy) as [v Hv]. apply (Hne y v Hv). done.
  - destruct Hpost as [Hi Hm]. eapply owned_with_store; [exact Ho | exact Hi | | apply HB'; exact Hi |].
    + intros y v Hy _. exists (se_refcounter v). rewrite set_refcounter_id. unfold live. rewrite Hm. done.
    + intros y Hy. destruct (HS y Hy) as [v Hv]. exists v. unfold live. rewrite Hm. done.
Qed.

Lemma session_return_triple B S db x :
  triple (owned B (x :: S) db) (on_s (session_return x)) (fun _ => owned B S db).
Proof.
  intros [[db0 w] eph] Ho. pose proof Ho as (Edb & _ & HB & HS & HA). cbn in Edb. subst db0.
  pose proof (owned_store _ _ _ _ _ Ho) as Hst. destruct (HS x) as [v Hv]; [left|].
  destruct (session_return_drop _ _ (w_store w) x v Hst Hv) as (dead & s' & Hrun & Hi & Hb & Hf).
  exists dead, ((db, with_store w s'), eph). split; [apply on_s_run; exact Hrun|].
  assert (Hrefs : forall l, add_ref (fun l => refs_in se_loc (x :: S) l + db_refs db l +
      queue_refs (node_list (w_queue w)) l) (se_loc x) (-1) l =
      refs_in se_loc S l + db_refs db l + queue_refs (node_list (w_queue w)) l).
  { intros l. unfold add_ref. rewrite refs_in_add. unfold add_ref. case_decide; lia. }
  assert (Hi' : store_inv (refs_in bib_loc B) (fun l => refs_in se_loc S l + db_refs db l +
             queue_refs (node_list (w_queue w)) l) s')
    by (eapply store_inv_ext; [exact Hi|]; intros l; rewrite Hrefs; done).
  eapply owned_with_store; [exact Ho | exact Hi' | | |].
  - eapply store_frame_weaken; [|exact Hf]. simpl. intros l Hl. rewrite Hrefs.
    pose proof (refs_in_nonneg se_loc S l). lia.
  - intros b Hbin. rewrite (bib_all_of_proto _ _ _ (proj1 Hi')). apply Hb.
    + rewrite <- (bib_all_of_proto _ _ _ (owned_bibs _ _ _ _ _ Ho)). apply HB. done.
    + left. pose proof (refs_in_pos bib_loc b B Hbin). lia.
  - intros y Hy. destruct (HS y) as [vy Hvy]; [right; done|]. destruct (Hf y vy Hvy) as [n Hn]; [|eauto].
    rewrite Hrefs. pose proof (refs_in_pos se_loc y S Hy). pose proof (db_refs_nonneg db (se_loc y)).
    pose proof (queue_refs_nonneg (node_list (w_queue w)) (se_loc y)). lia.
Qed.

Lemma write_state_triple B S db x v st :
  fresh x db ->
  triple (fun s => owned B (x :: S) db s /\ live (f_store s) x v) (write_state x st)
    (fun _ s => owned B (x :: S) db s /\ live (f_store s) x (set_state st v)).
Proof.
  intros Hfr [[db0 w] eph] [Ho Hv]. pose proof Ho as (Edb & _ & HB & HS & HA). cbn in Edb, Hv. subst db0.
  unfold f_store, f_world in *. cbn [fst snd] in *.
  exists tt, ((db, with_store w (wr x (set_state st v) (w_store w))), eph).
  split.
  { unfold write_state. rewrite (bind_run _ _ _ _ _ (on_s_run _ _ _ _ _ _ (read_session_run _ _ _ Hv))).
    replace (with_store w (w_store w)) with w by (destruct w; done).
    apply on_s_run. apply write_session_run. }
  split; [|apply live_wr_eq].
  assert (Hother : forall y vy, live (w_store w) y vy -> se_loc y <> se_loc x -> live (wr x (set_state st v) (w_store w)) y vy)
    by (intros y vy Hy Hne; apply live_wr_ne; done).
  pose proof Ho as (_ & ((_ & _ & Hq & Hn) & _ & Ht) & _). cbn [fst snd] in *.
  split; [done|]. split; [|split; [exact HB|split; [|exact HA]]].
  - split; [|split; [intros l; apply refs_in_nonneg|]]; cbn [fst snd].
    + apply (world_inv_wr _ _ w x v); [apply Ho | done | done].
    + intros p t Hg. destruct (Ht p t Hg) as (I & Q & A). split; [done|]. split; [|done].
      intros k y Hy. destruct (Q k y Hy) as (vy & Hvy & Hrest). exists vy. split; [|done].
      apply Hother; [done|]. intros E. apply (Hfr p). rewrite <- E. apply list_elem_of_fmap_2.
      rewrite (db_entries_get _ _ _ Hg). apply (in_queues _ _ t y I). eauto.
  - intros y Hy. destruct (decide (se_loc y = se_loc x)) as [E|E].
    + destruct (HS y Hy) as [vy Hvy]. pose proof (live_loc _ _ _ _ _ Hvy Hv E) as ->. eexists. apply live_wr_eq.
    + destruct (HS y Hy) as [vy Hvy]. eauto.
Qed.

Lemma on_db_run {A} (m : M dbworld A) dw eph a dw' :
  m dw = Some (a, dw') -> on_db m (dw, eph) = Some (a, (dw', eph)).
Proof. intros H. unfold on_db. rewrite H. done. Qed.

Lemma emit_triple B S db ev : triple (owned B S db) (on_w (emit ev)) (fun _ => owned B S db).
Proof.
  intros [[db0 w] eph] Ho. pose proof Ho as (Edb & _ & HB & HS & HA). cbn in Edb. subst db0.
  exists tt, ((db, World (w_store w) (w_queue w) (ev :: w_out w)), eph). split; [done|].
  eapply owned_world; [exact Ho | | apply store_frame_refl | exact HB | exact HS].
  pose proof Ho as (_ & (Hw & _) & _). exact Hw.
Qed.

Section WithEnv.
Variable e : env.

Lemma session_add_triple B S db x v est :
  let k := if est : bool then EST_TIMER else TRANS_TIMER in
  se_l4_proto x <> L4PROTO_OTHER -> fresh x db -> proto_ok (se_l4_proto x) k (state v) -> agrees x ->
  triple (fun s => owned B (x :: S) db s /\ live (f_store s) x v) (on_db (sessiondb_add e x est))
    (fun r s => exists db', owned B (x :: S) db' s /\
       match r with
       | Ok _ => (forall p y, y ∈ db_entries p db' <-> y ∈ db_entries p db \/ (y = x /\ p = se_l4_proto x)) /\
           (forall y, y ∈ db_entries (se_l4_proto x) db -> ~ collides x y) /\
           exists n, live (f_store s) x (set_refcounter n (fresh_vars e k v))
       | Err err => err = EEXIST /\ (forall p, db_entries p db' = db_entries p db) /\
           exists y, y ∈ db_entries (se_l4_proto x) db /\ collides x y
       end).
Proof.
  intros k Hp Hfr Hok Hag [[db0 w] eph] [Ho Hv]. pose proof Ho as (Edb & Hi & HB & HS & HA). cbn in Edb, Hv. subst db0.
  unfold f_store, f_world in *. cbn [fst snd] in *.
  assert (Hpos : 0 < refs_in se_loc (x :: S) (se_loc x)) by (apply refs_in_pos; left).
  destruct (sessiondb_add_spec e _ _ db w x v est Hi Hv Hpos Hp (Hfr _) Hok)
    as (r & t & t' & w1 & w' & gone & Hg & Hrun & Hi' & Hforg & Eq & Eo & Eb & Hadd).
  exists r, ((sess_put_table (se_l4_proto x) t' db, w'), eph). split; [apply on_db_run; exact Hrun|].
  destruct Hadd as (_ & Hkept & _ & Hres).
  assert (Hent : forall p, db_entries p (sess_put_table (se_l4_proto x) t' db) =
     if decide (p = se_l4_proto x) then s_entries t' else db_entries p db)
    by (intros p; apply (db_entries_put _ t); done).
  assert (Hx : exists vx, live (w_store w') x vx)
    by (destruct r as [[]|err]; [destruct Hres as (_ & _ & _ & _ & n & Hn) | destruct Hres as (_ & _ & _ & _ & _ & n & Hn)]; eauto).
  assert (HA' : forall p y, y ∈ db_entries p (sess_put_table (se_l4_proto x) t' db) -> agrees y).
  { intros p y. rewrite Hent. case_decide as Hd; [subst p|apply HA]. intros Hy.
    destruct r as [[]|err].
    - destruct Hres as (Hperm & _). rewrite Hperm in Hy. apply elem_of_cons in Hy as [->|Hy]; [done|].
      apply (HA (se_l4_proto x)). rewrite (db_entries_get _ _ _ Hg). done.
    - destruct Hres as (_ & E4 & _). rewrite E4 in Hy. apply (HA (se_l4_proto x)).
      rewrite (db_entries_get _ _ _ Hg). done. }
  exists (sess_put_table (se_l4_proto x) t' db). split.
  - split; [done|]. split; [exact Hi'|]. unfold f_bib, f_store, f_world. cbn [fst snd]. split; [|split; [|exact HA']].
    + intros b Hb. destruct Hforg as ((Hst1 & _) & _ & _ & _ & _ & Hsh & _). rewrite Eb.
      rewrite (bib_all_of_proto _ _ _ (proj1 Hst1)). apply Hsh.
      * rewrite <- (bib_all_of_proto _ _ _ (owned_bibs _ _ _ _ _ Ho)). apply HB. done.
      * left. pose proof (refs_in_pos bib_loc b B Hb). lia.
    + intros y Hy. destruct (decide (y = x)) as [->|Hne]; [done|]. destruct (HS y Hy) as [vy Hvy].
      destruct (Hkept y vy Hvy Hne) as [n Hn]; [|eauto]. left.
      pose proof (refs_in_pos se_loc y _ Hy). pose proof (other_refs_nonneg (se_l4_proto x) db (se_loc y)). lia.
  - destruct r as [[]|err].
    + destruct Hres as (Hperm & Hnc & _ & _ & Hlive). split; [|split].
      * intros p y. rewrite Hent. case_decide as Hd; [subst p; rewrite Hperm, (db_entries_get _ _ _ Hg), elem_of_cons; tauto|tauto].
      * rewrite (db_entries_get _ _ _ Hg). done.
      * unfold f_store, f_world. cbn [fst snd]. exact Hlive.
    + destruct Hres as (-> & E4 & _ & _ & Hc & _). split; [done|]. split.
      * intros p. rewrite Hent. case_decide as Hd; [|done]. subst p. rewrite (db_entries_get _ _ _ Hg). done.
      * rewrite (db_entries_get _ _ _ Hg). done.
Qed.

(** A callback that never removes a session of the protocol. *)
Definition cb_stays (proto : l4_protocol) (cb : fate_cb) : Prop :=
  forall x v k, proto_ok proto k (state v) -> fst (cb e x v) <> FATE_RM.

(** [cb] has been applied to the session and its decision carried out. *)
Definition updated (cb : fate_cb) (x : session_entry) (s : fworld) : Prop :=
  exists v k m, expirer v = Some k /\ proto_ok (se_l4_proto x) k (state v) /\
    let '(fate, v') := cb e x v in live (f_store s) x (set_refcounter m (fate_vars e fate v')).

Lemma session_get_triple B S db tup cb :
  wf_tuple tup -> cb_ok (proto_ok (l4_proto tup)) cb -> cb_stays (l4_proto tup) cb ->
  triple (owned B S db) (on_db (sessiondb_get e tup (Some cb)))
    (fun r s => match r with
     | Ok x => exists db', owned B (x :: S) db' s /\ (forall p y, y ∈ db_entries p db' <-> y ∈ db_entries p db) /\
         x ∈ db_entries (l4_proto tup) db' /\ matches tup x /\ updated cb x s
     | Err err => owned B S db s /\
         (err = ESRCH /\ l4_proto tup <> L4PROTO_OTHER /\ (forall x, x ∈ db_entries (l4_proto tup) db -> ~ matches tup x) \/
          err = EINVAL /\ l4_proto tup = L4PROTO_OTHER)
     end).
Proof.
  intros Hw Hcb Hst [[db0 w] eph] Ho. pose proof Ho as (Edb & Hi & HB & HS & HA). cbn in Edb. subst db0.
  unfold f_bib, f_store, f_world in *. cbn [fst snd] in *.
  destruct (sessiondb_get_spec e _ _ db w tup cb Hi Hw Hcb) as (r & dw' & Hrun & Hpost).
  exists r, (dw', eph). split; [apply on_db_run; exact Hrun|]. destruct r as [x|err]; [|destruct Hpost as [-> Hpost]; done].
  destruct Hpost as (Hx & Ep & Hm & (t & t' & w' & Hg & -> & Hxt & Hgot & Hi')).
  destruct Hgot as (v & k & n & fate & v' & Hv & Hk & Hok & Hc & _ & Hperm & _ & _ & _ & _ & [m Hlive] & Hkept & _ & Hbib).
  assert (Hnr : fate <> FATE_RM).
  { specialize (Hst x (set_refcounter n v) k). rewrite Hc, <- Ep in Hst. apply Hst. exact Hok. }
  assert (Hperm' : s_entries t ≡ₚ s_entries t') by (destruct fate; done).
  assert (Hent : forall p y, y ∈ db_entries p (sess_put_table (se_l4_proto x) t' db) <-> y ∈ db_entries p db).
  { intros p y. rewrite (db_entries_put _ t) by done. case_decide as Hd; [|done]. subst p.
    rewrite (db_entries_get _ _ _ Hg), Hperm'. done. }
  exists (sess_put_table (se_l4_proto x) t' db). split; [|split; [done|split; [rewrite Hent; done|split; [done|]]]].
  - split; [done|]. split; [eapply sessiondb_inv_ext; [exact Hi'|]; intros l; apply refs_in_add|].
    unfold f_bib, f_store, f_world. cbn [fst snd]. split; [|split; [|intros p y Hy; apply (HA p), Hent; done]].
    + intros b Hb. pose proof Hi' as (((Hbi & _) & _) & _). cbn [fst snd] in Hbi.
      rewrite (bib_all_of_proto _ _ _ Hbi). apply Hbib.
      * rewrite <- (bib_all_of_proto _ _ _ (owned_bibs _ _ _ _ _ Ho)). apply HB. done.
      * pose proof (refs_in_pos bib_loc b B Hb). lia.
    + intros y Hy. destruct (decide (y = x)) as [->|Hne]; [eauto|]. apply elem_of_cons in Hy as [->|Hy]; [done|].
      destruct (HS y Hy) as [vy Hvy]. destruct (Hkept y vy Hvy Hne) as [n' Hn']; [|eauto]. left.
      pose proof (refs_in_pos se_loc y _ Hy). pose proof (other_refs_nonneg (se_l4_proto x) db (se_loc y)). lia.
  - exists (set_refcounter n v), k, m. split; [done|]. split; [done|]. rewrite Hc. exact Hlive.
Qed.

(** A lookup that decides nothing. *)
Lemma session_find_triple B S db tup :
  wf_tuple tup ->
  triple (owned B S db) (on_db (sessiondb_get e tup None))
    (fun r s => match r with
     | Ok x => owned B (x :: S) db s /\ x ∈ db_entries (l4_proto tup) db /\ matches tup x
     | Err err => owned B S db s /\ (forall x, x ∈ db_entries (l4_proto tup) db -> ~ matches tup x)
     end).
Proof.
  intros Hw [[db0 w] eph] Ho. pose proof Ho as (Edb & Hi & HB & HS & HA). cbn in Edb. subst db0.
  unfold f_bib, f_store, f_world in *. cbn [fst snd] in *.
  destruct (sess_get_table (l4_proto tup) db) as [t|] eqn:Hg.
  2:{ eexists (Err EINVAL), _. split; [apply on_db_run; unfold sessiondb_get; destruct (l4_proto tup); done|].
      split; [exact Ho|]. unfold db_entries. rewrite Hg. intros x Hx. inversion Hx. }
  assert (Hrun0 : sessiondb_get e tup None = in_table (l4_proto tup) (sessiontable_get e tup None))
    by (unfold sessiondb_get; destruct (l4_proto tup); done).
  rewrite Hrun0, (db_entries_get _ _ _ Hg). destruct (db_focus _ _ _ _ _ _ Hi Hg) as [Ht _].
  pose proof Ht as (_ & _ & Hti & _). cbn [fst] in Hti.
  pose proof (fun x => sessiontable_find_iff _ _ t tup x Hti Hw) as Hfind.
  destruct (sessiontable_find t tup) as [x|] eqn:Ef.
  - destruct (proj1 (Hfind x) eq_refl) as [Hx Hm]. destruct (owned_entry_live _ _ _ _ _ (l4_proto tup) x Ho) as [v Hv].
    { rewrite (db_entries_get _ _ _ Hg). done. }
    destruct (session_get_spec _ _ (w_store w) x v (owned_store _ _ _ _ _ Ho) Hv) as (s' & Hrun & Hi' & Es').
    eexists (Ok x), ((db, with_store w s'), eph). split.
    + apply on_db_run. rewrite <- (sess_put_same _ _ _ Hg) at 2. apply (in_table_run _ _ _ _ t); [done|].
      unfold sessiontable_get. rewrite (bind_run _ _ _ _ _ (get_table_run _)). cbn [fst]. rewrite Ef.
      rewrite (bind_run _ _ _ _ _ (on_sess_run _ _ _ _ _ Hrun)). done.
    + assert (Hother : forall y vy, live (w_store w) y vy -> exists n, live s' y (set_refcounter n vy)).
      { intros y vy Hy. rewrite Es'. destruct (decide (se_loc y = se_loc x)) as [E|E].
        - pose proof (live_loc _ _ _ _ _ Hy Hv E) as ->. pose proof (live_fun _ _ _ _ Hy Hv) as ->.
          eexists. apply live_wr_eq.
        - exists (se_refcounter vy). rewrite set_refcounter_id. apply live_wr_ne; done. }
      split; [|done]. eapply owned_with_store; [exact Ho | | | |].
      * eapply store_inv_ext; [exact Hi'|]. intros l. rewrite refs_in_add. unfold add_ref. case_decide; lia.
      * intros y vy Hy _. apply Hother. done.
      * rewrite Es'. exact HB.
      * intros y Hy. apply elem_of_cons in Hy as [->|Hy].
        -- destruct (Hother x v Hv). eauto.
        -- destruct (HS y Hy) as [vy Hvy]. destruct (Hother y vy Hvy). eauto.
  - eexists (Err ESRCH), ((db, w), eph). split.
    + apply on_db_run. rewrite <- (sess_put_same _ _ _ Hg) at 2. apply (in_table_run _ _ _ _ t); [done|].
      unfold sessiontable_get. rewrite (bind_run _ _ _ _ _ (get_table_run _)). cbn [fst]. rewrite Ef. done.
    + split; [exact Ho|]. intros x Hx Hm. assert (E : None = Some x) by (apply Hfind; done). done.
Qed.

Lemma pktqueue_add_triple B S db x pkt :
  se_l4_proto x = L4PROTO_TCP ->
  triple (owned B (x :: S) db) (on_w (pktqueue_add e x pkt)) (fun _ => owned B (x :: S) db).
Proof.
  intros Hp [[db0 w] eph] Ho. pose proof Ho as (Edb & (Hw & _) & HB & HS & HA). cbn in Edb. subst db0.
  cbn [fst snd] in *. destruct (HS x) as [v Hv]; [left|]. unfold f_bib, f_store, f_world in *. cbn [fst snd] in *.
  destruct (pktqueue_add_spec _ _ e w x v pkt Hw Hv Hp) as (r & w' & Hrun & Hw' & _ & Eb & Hf).
  exists r, ((db, w'), eph). split; [apply on_w_run; exact Hrun|].
  eapply owned_world; [exact Ho | exact Hw' | | rewrite Eb; exact HB |].
  - eapply store_frame_weaken; [|exact Hf]. done.
  - intros y Hy. destruct (HS y Hy) as [vy Hvy]. destruct (Hf y vy Hvy I) as [n Hn]. eauto.
Qed.

End WithEnv.

End Ops.

(** ** The pools *)

Lemma addr_6to4_wf a6 p a : wf_addr6 a6 -> addr_6to4 a6 p = Ok a -> wf_addr4 a.
Proof.
  intros Ha. destruct p as [pa len]. unfold addr_6to4. simpl.
  repeat case_match; intros [= <-]; unfold wf_addr4, is_u32; simpl.
  all: try (unfold of_as8; repeat (apply (set_bits_range 32); [lia..|]); lia).
  all: try (apply (bits_range _ _ 32); lia).
Qed.

Record config_ok (c : config) : Prop := {
  ok_hash : hash_law (hash_32 c);
  ok_pool4 : db_inv (hash_32 c) (c_pool4 c);
  ok_offers : forall mark proto daddr ta,
    palloc_offers (hash_32 c) (c_netdevs c) (c_route c daddr) (c_pool4 c) mark proto daddr ta -> wf_taddr4 ta;
  ok_pool6 : exists l, c_pool6 c = Some l /\ Forall pool6_prefix_ok l
}.

Lemma errno_code_ne e : - errno_code e <> 0.
Proof. destruct e; done. Qed.

Section Functions.
Context {R : RbTree} {L : RbTreeLaws R} (c : config) (Hc : config_ok c).

Lemma pool6_get_run addr : exists r, pool6_get (Some addr) (c_pool6 c) = Some (r, c_pool6 c).
Proof.
  destruct (ok_pool6 c Hc) as (l & -> & _). unfold pool6_get, mbind, M_bind. simpl. destruct l; eauto.
Qed.

Lemma pool6_contains_triple P addr : triple P (ask_pool6 c (pool6_contains (Some addr))) (fun _ => P).
Proof.
  intros s Hs. destruct (pool6_get_run addr) as [r Hr]. exists (is_ok r), s. split; [|done].
  unfold ask_pool6, pool6_contains, mbind, M_bind. rewrite Hr. done.
Qed.

Lemma xlat_addr64_triple P dst :
  wf_taddr6 dst ->
  triple P (xlat_addr64 c dst) (fun r s => P s /\ match r with Ok a => wf_addr4 a | Err _ => True end).
Proof.
  intros [Hw _] s Hs. destruct (pool6_get_run (l3_6 dst)) as [r Hr].
  exists (match r with Ok p => addr_6to4 (l3_6 dst) p | Err e => Err e end), s. split; [|split; [done|]].
  - unfold xlat_addr64, ask_pool6, rfc6052_6to4, mbind, M_bind. rewrite Hr. destruct r; done.
  - destruct r as [p|]; [|done]. destruct (addr_6to4 (l3_6 dst) p) eqn:E; [|done]. eapply addr_6to4_wf; done.
Qed.

Lemma xlat_addr46_triple P (src : ipv4_transport_addr) :
  wf_taddr4 src ->
  triple P (ask_pool6 c (rfc6052_4to6 (l3_4 src)))
    (fun r s => P s /\ match r with Ok a => wf_addr6 a | Err _ => True end).
Proof.
  intros [Hw _] s Hs. destruct (ok_pool6 c Hc) as (l & El & _).
  exists (match l with [] => Err ESRCH | p :: _ => addr_4to6 (l3_4 src) p end), s. split; [|split; [done|]].
  - unfold ask_pool6. rewrite El. destruct l; done.
  - destruct l as [|p l]; [done|]. destruct (addr_4to6 (l3_4 src) p) eqn:E; [|done].
    eapply addr_4to6_range; done.
Qed.

Lemma allocate_triple B S db pkt src dst proto daddr :
  triple (owned B S db) (allocate c pkt src dst proto daddr)
    (fun '(error, saddr) s => owned B S db s /\ (error = 0 -> exists ta, saddr = Some ta /\ wf_taddr4 ta)).
Proof.
  intros [[db0 w] eph] Ho. pose proof Ho as (Edb & _). cbn in Edb. subst db0.
  destruct (palloc_allocate_spec (hash_32 c) (digest c) (c_netdevs c) (c_route c daddr) (c_pool4 c) _
    (st_bib (w_store w)) (pkt_mark pkt) src dst proto daddr (PallocArgs eph None) (ok_hash c Hc) (ok_pool4 c Hc)
    (owned_bibs _ _ _ _ _ Ho)) as (e & args & Hrun & Hok & _).
  exists (e, palloc_result args), ((db, w), next_ephemeral args). split; [unfold allocate; rewrite Hrun; done|].
  split; [exact Ho|]. intros E. destruct (Hok E) as (ta & Hr & Hoff & _). exists ta. split; [done|].
  eapply (ok_offers c Hc). exact Hoff.
Qed.

Lemma create_bib6_triple B S db pkt src dst proto :
  wf_taddr6 src -> wf_taddr6 dst -> proto <> L4PROTO_OTHER ->
  triple (owned B S db) (create_bib6 c pkt src dst proto)
    (fun r s => match r with
     | Done b => pending false b B S db s /\ bib_ipv6 b = src /\ bib_l4_proto b = proto
     | Fail error => owned B S db s /\ error <> 0
     end).
Proof.
  intros Ws Wd Hp. unfold create_bib6. eapply triple_bind; [apply xlat_addr64_triple; done|]. intros [daddr|err]; simpl.
  2:{ apply triple_ret. intros s [Hs _]. split; [done|apply errno_code_ne]. }
  apply triple_pure. intros _. eapply triple_bind; [apply allocate_triple|]. intros [error saddr]; simpl.
  destruct (Z.eqb_spec error 0) as [->|Hne]; cbn [negb].
  2:{ apply triple_ret. intros s [Hs _]. done. }
  apply triple_pure. intros Hta. destruct (Hta eq_refl) as (ta & -> & Wt).
  eapply triple_bind; [apply bib_create_triple; done|]. intros [b|]; apply triple_ret.
  - intros s (Hs & _ & H6 & Ep). done.
  - intros s Hs. done.
Qed.

Lemma get_or_create_bib6_triple B S db pkt src dst proto :
  wf_tuple (Tuple6 src dst proto) ->
  triple (owned B S db) (get_or_create_bib6 c pkt src dst proto)
    (fun r s => match r with
     | Done b => owned (b :: B) S db s /\ bib_ipv6 b = src /\ bib_l4_proto b = proto
     | Fail error => owned B S db s /\ error <> 0
     end).
Proof.
  intros Hw. pose proof Hw as (Ws & Wd & _). unfold get_or_create_bib6. eapply triple_bind; [apply (bib_get_triple _ _ _ (Tuple6 src dst proto)); done|].
  intros [b|err]; simpl.
  { apply triple_ret. intros s (Hs & Hp & Hm). done. }
  eapply (triple_get (owned B S db) (err = ESRCH /\ proto <> L4PROTO_OTHER \/ err = EINVAL)); [tauto|].
  intros [[-> Hp]| ->].
  2:{ apply triple_ret. done. }
  eapply triple_bind; [apply create_bib6_triple; done|]. intros [b|error]; simpl.
  2:{ apply triple_ret. done. }
  apply triple_pure. intros [E6 Ep]. eapply triple_bind; [apply bib_add_triple|]. intros [[]|err]; simpl.
  - apply triple_ret. intros s [Hs _]. done.
  - eapply triple_bind; [apply bib_kfree_triple|]. intros []. apply triple_ret. intros s Hs.
    split; [done|apply errno_code_ne].
Qed.

Lemma owned_bib_wf B S db s b :
  owned B S db s -> b ∈ B -> wf_taddr4 (bib_ipv4 b) /\ wf_taddr6 (bib_ipv6 b).
Proof.
  destruct s as [[db0 w] eph]. intros Ho Hb. pose proof Ho as (Edb & _ & HB & _). cbn in Edb. subst db0.
  pose proof (owned_bibs _ _ _ _ _ Ho) as Hi. pose proof (HB b Hb) as Hin. rewrite (bib_all_of_proto _ _ _ Hi) in Hin.
  destruct (bib_of_proto_inv _ _ _ _ Hi Hin) as (_ & ? & ?). done.
Qed.

(** What [create_session] makes of a tuple and its BIB entry. *)
Definition new_session (tup : tuple) (bib : option bib_entry) (x : session_entry) : Prop :=
  matches tup x /\ se_l4_proto x = l4_proto tup /\ se_bib x = bib /\
  match bib with
  | Some b => local4 x = bib_ipv4 b /\ remote6 x = bib_ipv6 b /\ same_ids x
  | None => remote6 x = TADDR6_ZERO
  end.

Lemma create_session_triple B S db tup bib :
  wf_tuple tup -> (forall b, bib = Some b -> b ∈ B /\ bib_matches tup b) ->
  (bib = None -> l3_proto tup = L3PROTO_IPV4 /\ l4_proto tup <> L4PROTO_ICMP) ->
  triple (owned B S db) (create_session c tup bib)
    (fun r s => match r with
     | Done x => owned B (x :: S) db s /\ live (f_store s) x (SessionVars (jiffies (c_env c)) 1 CLOSED None) /\
         fresh x db /\ new_session tup bib x
     | Fail error => owned B S db s /\ error <> 0
     end).
Proof.
  intros Hw Hbib Hnone. unfold create_session.
  assert (Hcreate : forall r6 l6 l4 r4 (Q : session_entry -> Prop),
    wf_taddr6 r6 -> wf_taddr6 l6 -> wf_taddr4 l4 -> wf_taddr4 r4 ->
    (forall x, remote6 x = r6 -> local6 x = l6 -> local4 x = l4 -> remote4 x = r4 ->
       se_l4_proto x = l4_proto tup -> se_bib x = bib -> Q x) ->
    triple (owned B S db)
      (session ← on_s (session_create (jiffies (c_env c)) r6 l6 l4 r4 (l4_proto tup) bib);
       mret (match session with Some session => Done session | None => Fail (- errno_code ENOMEM) end))
      (fun r s => match r with
       | Done x => owned B (x :: S) db s /\ live (f_store s) x (SessionVars (jiffies (c_env c)) 1 CLOSED None) /\
           fresh x db /\ Q x
       | Fail error => owned B S db s /\ error <> 0
       end)).
  { intros r6 l6 l4 r4 Q W1 W2 W3 W4 HQ. eapply triple_bind.
    - apply session_create_triple; try done. intros b Hb. apply Hbib. done.
    - intros [x|]; apply triple_ret; intros s Hs; [|split; [done|apply errno_code_ne]].
      destruct Hs as (Ho & Hl & Hf & E1 & E2 & E3 & E4 & E5 & E6). split_and!; try done. apply HQ; done. }
  destruct tup as [src dst proto|src dst proto]; simpl in *; destruct Hw as (Ws & Wd & Wid).
  - eapply triple_bind; [apply xlat_addr46_triple; done|]. intros [local|err]; simpl.
    2:{ apply triple_ret. intros s [Hs _]. split; [done|apply errno_code_ne]. }
    apply triple_pure. intros Wl. intros s Hs.
    assert (W6 : wf_taddr6 (match bib with Some b => bib_ipv6 b | None => TADDR6_ZERO end)).
    { destruct bib as [b|]; [|apply taddr6_zero_wf]. apply (owned_bib_wf _ _ _ _ b Hs). apply Hbib. done. }
    assert (Hnew : forall l6 x, remote6 x = match bib with Some b => bib_ipv6 b | None => TADDR6_ZERO end ->
      local6 x = l6 -> local4 x = dst -> remote4 x = src -> se_l4_proto x = proto -> se_bib x = bib ->
      (proto = L4PROTO_ICMP -> l4_6 l6 = l4_6 (remote6 x)) -> new_session (Tuple4 src dst proto) bib x).
    { intros l6 x E1 E2 E3 E4 E5 E6 Hid. split; [done|]. split; [done|]. split; [done|].
      destruct bib as [b|]; [|done]. destruct (Hbib b eq_refl) as [_ Hm]. simpl in Hm. split; [congruence|]. split; [congruence|].
      intros Ep. rewrite E5 in Ep. rewrite E2, E3, E4. split; [symmetry; exact (Wid Ep)|exact (Hid Ep)]. }
    destruct (bool_decide (proto = L4PROTO_ICMP)) eqn:Ep; cbn [negb].
    + apply bool_decide_eq_true in Ep. destruct bib as [b|]; [|destruct (Hnone eq_refl); done].
      eapply Hcreate; [done| |done|done| |exact Hs]; [destruct W6; split; done|].
      intros x E1 E2 E3 E4 E5 E6. eapply Hnew; try done. intros _. rewrite E1. done.
    + apply bool_decide_eq_false in Ep. eapply Hcreate; [done| |done|done| |exact Hs]; [destruct Ws; split; done|].
      intros x E1 E2 E3 E4 E5 E6. eapply Hnew; done.
  - destruct bib as [b|]; [|destruct (Hnone eq_refl); done]. destruct (Hbib b eq_refl) as [Hb Hm]. simpl in Hm.
    eapply triple_bind; [apply xlat_addr64_triple; done|]. intros [remote|err]; simpl.
    2:{ apply triple_ret. intros s [Hs _]. split; [done|apply errno_code_ne]. }
    apply triple_pure. intros Wr. intros s Hs. destruct (owned_bib_wf _ _ _ _ b Hs Hb) as [Wb4 Wb6].
    eapply Hcreate; [done|done|done| | |exact Hs].
    + split; [done|]. destruct (bool_decide (proto = L4PROTO_ICMP)); cbn [negb l4_4]; [apply Wb4|apply Wd].
    + intros x E1 E2 E3 E4 E5 E6. split; [done|]. split; [done|]. split; [done|]. split; [congruence|]. split; [congruence|].
      intros Ep. rewrite E5 in Ep. rewrite E1, E2, E3, E4. rewrite bool_decide_eq_true_2 by exact Ep. split; [done|]. symmetry. exact (Wid Ep).
Qed.

(** The tables lose no session, and gain none but the tuple's. *)
Definition grows (tup : tuple) (db db' : session_db) : Prop :=
  (forall p y, y ∈ db_entries p db -> y ∈ db_entries p db') /\
  (forall p y, y ∈ db_entries p db' -> y ∈ db_entries p db \/ (p = l4_proto tup /\ matches tup y)).

Lemma grows_refl tup db : grows tup db db.
Proof. split; auto. Qed.

Lemma grows_iff tup db db' : (forall p y, y ∈ db_entries p db' <-> y ∈ db_entries p db) -> grows tup db db'.
Proof. intros H. split; intros p y; rewrite H; auto. Qed.

Lemma update_timer_stays e proto : cb_stays e proto update_timer.
Proof. intros x v k _. done. Qed.

Lemma tcp_state_machine_stays e pkt : cb_stays e L4PROTO_TCP (tcp_state_machine pkt).
Proof.
  intros x v k Hok. unfold tcp_state_machine, tcp_v4_init_state, tcp_v6_init_state,
    tcp_established_state, tcp_v4_fin_rcv_state, tcp_v6_fin_rcv_state, tcp_v4_fin_v6_fin_rcv_state,
    tcp_trans_state. simpl in Hok.
  destruct (state v); try done;
    destruct (pkt_l3_proto pkt), (pkt_syn pkt), (pkt_fin pkt), (pkt_rst pkt); done.
Qed.

Lemma new_session_agrees tup b x :
  new_session tup (Some b) x -> bib_l4_proto b = l4_proto tup -> agrees x.
Proof. intros (_ & Ep & Eb & E4 & E6 & Hid) Hp. unfold agrees. rewrite Eb. split_and!; try congruence. exact Hid. Qed.

(** Adding the session [create_session] made. *)
Lemma add_new_session_triple B S db tup b x v est :
  let k := if est : bool then EST_TIMER else TRANS_TIMER in
  l4_proto tup <> L4PROTO_OTHER -> bib_l4_proto b = l4_proto tup -> new_session tup (Some b) x -> fresh x db ->
  proto_ok (l4_proto tup) k (state v) ->
  triple (fun s => owned B (x :: S) db s /\ live (f_store s) x v) (on_db (sessiondb_add (c_env c) x est))
    (fun r s => exists db', owned B (x :: S) db' s /\ grows tup db db' /\
       (is_ok r = true -> x ∈ db_entries (l4_proto tup) db')).
Proof.
  intros k Hp Hbp Hnew Hfr Hok. pose proof Hnew as (Hm & Ep & _).
  eapply triple_weaken; [apply (session_add_triple (c_env c) B S db x v est); rewrite ?Ep; try done;
    eapply new_session_agrees; done|done|].
  intros r s (db' & Ho & Hr). exists db'. split; [done|]. rewrite Ep in Hr. destruct r as [[]|err].
  - destruct Hr as (Hent & _). split; [|intros _; apply Hent; auto]. split; intros p y.
    + rewrite Hent. auto.
    + rewrite Hent. intros [Hy|[-> ->]]; auto.
  - destruct Hr as (_ & Hent & _). split; [|done]. apply grows_iff. intros p y. rewrite Hent. done.
Qed.

Lemma get_or_create_session_triple B S db tup b :
  wf_tuple tup -> b ∈ B -> bib_matches tup b -> bib_l4_proto b = l4_proto tup -> l4_proto tup <> L4PROTO_TCP ->
  triple (owned B S db) (get_or_create_session c tup (Some b))
    (fun r s => exists db', grows tup db db' /\
     match r with
     | Done x => owned B (x :: S) db' s /\ x ∈ db_entries (l4_proto tup) db' /\ matches tup x
     | Fail error => owned B S db' s /\ error <> 0
     end).
Proof.
  intros Hw Hb Hm Hbp Htcp. unfold get_or_create_session.
  eapply triple_bind; [apply session_get_triple; [done|apply update_timer_ok; done|apply update_timer_stays]|].
  intros [x|err]; simpl.
  { apply triple_ret. intros s (db' & Ho & Hent & Hx & Hmx & _). exists db'. split; [apply grows_iff; done|done]. }
  eapply (triple_get (owned B S db) (err = ESRCH /\ l4_proto tup <> L4PROTO_OTHER \/ err = EINVAL)); [tauto|].
  intros [[-> Hp]| ->].
  2:{ apply triple_ret. intros s Hs. exists db. split; [apply grows_refl|]. done. }
  eapply triple_bind; [apply create_session_triple; [done | intros b' [= <-]; done | done]|].
  intros [x|error]; simpl.
  2:{ apply triple_ret. intros s Hs. exists db. split; [apply grows_refl|done]. }
  eapply (triple_get (fun s => owned B (x :: S) db s /\
      live (f_store s) x (SessionVars (jiffies (c_env c)) 1 CLOSED None)) (fresh x db /\ new_session tup (Some b) x));
    [tauto|]. intros [Hfr Hnew].
  eapply triple_bind; [eapply (add_new_session_triple _ _ _ tup b x _ true); try done|].
  { destruct (l4_proto tup); done. }
  intros r. apply triple_exists. intros db'. destruct r as [[]|err']; simpl.
  - apply triple_ret. intros s (Ho & Hg & Hx). exists db'. split; [done|]. split; [done|]. split; [auto|]. apply Hnew.
  - eapply (triple_get (owned B (x :: S) db') (grows tup db db')); [tauto|]. intros Hg.
    eapply triple_bind; [apply session_return_triple|]. intros dead. apply triple_ret. intros s Hs.
    exists db'. split; [done|]. split; [done|apply errno_code_ne].
Qed.

(** What the handlers of a packet promise: their references are returned, and
    [CONTINUE] comes with what [good] says of the tables and the BIB. *)
Definition handled (tup : tuple) (db : session_db) (good : session_db -> Prop) (v : verdict) (s : fworld) : Prop :=
  exists db', owned [] [] db' s /\ grows tup db db' /\ (v = VERDICT_CONTINUE -> good db').

(** The tuple has a session. *)
Definition has_session (tup : tuple) (db : session_db) : Prop :=
  exists x, x ∈ db_entries (l4_proto tup) db /\ matches tup x.

Lemma inc_stats_triple B S db pkt field : triple (owned B S db) (inc_stats pkt field) (fun _ => owned B S db).
Proof. apply emit_triple. Qed.

Lemma icmp64_send_triple B S db pkt error : triple (owned B S db) (icmp64_send pkt error) (fun _ => owned B S db).
Proof. apply emit_triple. Qed.

Lemma simple_session_triple db pkt tup b :
  wf_tuple tup -> bib_matches tup b -> bib_l4_proto b = l4_proto tup -> l4_proto tup <> L4PROTO_TCP ->
  triple (owned [b] [] db) (simple_session c pkt tup b)
    (fun v s => handled tup db (has_session tup) v s /\ (v = VERDICT_CONTINUE \/ v = VERDICT_DROP)).
Proof.
  intros Hw Hm Hp Htcp. unfold simple_session.
  eapply triple_bind; [apply get_or_create_session_triple; try done; left|].
  intros r. apply triple_exists. intros db'. destruct r as [x|error].
  - eapply (triple_get (owned [b] [x] db') (grows tup db db' /\ x ∈ db_entries (l4_proto tup) db' /\ matches tup x)); [tauto|].
    intros (Hg & Hx & Hmx).
    eapply triple_bind; [apply session_return_triple|]. intros dead.
    eapply triple_bind; [apply bib_return_triple|]. intros []. apply triple_ret. intros s Hs.
    split; [|auto]. exists db'. split; [done|]. split; [done|]. intros _. exists x. done.
  - eapply (triple_get (owned [b] [] db') (grows tup db db')); [tauto|]. intros Hg.
    eapply triple_bind; [apply inc_stats_triple|]. intros [].
    eapply triple_bind; [apply bib_return_triple|]. intros []. apply triple_ret. intros s Hs.
    split; [|auto]. exists db'. split; [done|]. split; [done|]. done.
Qed.

Lemma ipv6_simple_triple db pkt src dst proto :
  let tup := Tuple6 src dst proto in
  wf_tuple tup -> proto <> L4PROTO_TCP ->
  triple (owned [] [] db) (ipv6_simple c pkt src dst proto)
    (fun v s => handled tup db (has_session tup) v s /\ (v = VERDICT_CONTINUE \/ v = VERDICT_DROP)).
Proof.
  intros tup Hw Htcp. pose proof Hw as (Ws & Wd & _). unfold ipv6_simple.
  eapply triple_bind; [apply get_or_create_bib6_triple; done|]. intros [b|error].
  - apply triple_pure. intros [E6 Ep]. apply simple_session_triple; done.
  - eapply (triple_get (owned [] [] db) True); [tauto|]. intros _.
    eapply triple_bind; [apply inc_stats_triple|]. intros []. apply triple_ret. intros s Hs.
    split; [|auto]. exists db. split; [done|]. split; [apply grows_refl|done].
Qed.

(** The packets from the IPv4 side that the configuration lets in. *)
Definition admitted (src dst : ipv4_transport_addr) (proto : l4_protocol) (db : session_db) : Prop :=
  addr_dependent_filtering c = true -> sessiondb_allow src dst proto db = true.

Lemma get_bib4_triple db pkt src dst proto :
  let tup := Tuple4 src dst proto in
  wf_tuple tup ->
  triple (owned [] [] db) (get_bib4 c pkt src dst proto)
    (fun r s => match r with
     | Ok b => owned [b] [] db s /\ bib_l4_proto b = proto /\ bib_matches tup b /\ admitted src dst proto db
     | Err err => owned [] [] db s /\
         (err = ESRCH -> forall b, b ∈ bib_of_proto proto (f_bib s) -> bib_ipv4 b <> dst)
     end).
Proof.
  intros tup Hw. unfold get_bib4. eapply triple_bind; [apply (bib_get_triple [] [] db tup Hw)|].
  intros [b|err]; simpl.
  - apply triple_pure. intros [Hp Hm]. intros s Hs. pose proof Hs as (Edb & _).
    unfold mbind at 1, M_bind at 1, get. change (fst (fst s)) with (f_db s). rewrite Edb.
    destruct (addr_dependent_filtering c && negb (sessiondb_allow src dst proto db)) eqn:Ea.
    + revert s Hs Edb. enough (Ht : triple (owned [b] [] db)
        (icmp64_send pkt ICMPERR_FILTER;; inc_stats pkt IPSTATS_MIB_INDISCARDS;;
         on_b (bibdb_return (Some b));; mret (Err EPERM)) (fun (r : result bib_entry) s => r = Err EPERM /\ owned [] [] db s)).
      { intros s Hs _. destruct (Ht s Hs) as (r & s' & Hrun & -> & Ho). exists (Err EPERM), s'. done. }
      eapply triple_bind; [apply icmp64_send_triple|]. intros [].
      eapply triple_bind; [apply inc_stats_triple|]. intros [].
      eapply triple_bind; [apply bib_return_triple|]. intros []. apply triple_ret. done.
    + exists (Ok b), s. split; [done|]. split_and!; try done. intros Ha. rewrite Ha in Ea. simpl in Ea.
      apply negb_false_iff in Ea. done.
  - destruct (decide (err = ESRCH)) as [->|Hne].
    + intros s [Hs Hor]. exists (Err ESRCH).
      destruct (inc_stats_triple [] [] db pkt IPSTATS_MIB_INNOROUTES s Hs) as ([] & s' & Hrun & Hs').
      exists s'. split; [rewrite (bind_run _ _ _ _ _ Hrun); done|]. split; [done|]. intros _ b Hb.
      destruct Hor as [(_ & _ & Hno)|[? _]]; [|done]. apply Hno. destruct s as [[db0 w] eph].
      injection Hrun as <-. exact Hb.
    + eapply (triple_get (owned [] [] db) (err = EINVAL)); [intros s [Hs [[? _]|[? _]]]; done|]. intros ->.
      eapply triple_bind; [apply inc_stats_triple|]. intros [].
      eapply triple_bind; [apply icmp64_send_triple|]. intros []. apply triple_ret. done.
Qed.

Lemma ipv4_simple_triple db pkt src dst proto :
  let tup := Tuple4 src dst proto in
  wf_tuple tup -> proto <> L4PROTO_TCP ->
  triple (owned [] [] db) (ipv4_simple c pkt src dst proto)
    (fun v s => handled tup db (fun db' => has_session tup db' /\ admitted src dst proto db) v s /\
       (v = VERDICT_ACCEPT -> forall b, b ∈ bib_of_proto proto (f_bib s) -> bib_ipv4 b <> dst) /\ v <> VERDICT_STOLEN).
Proof.
  intros tup Hw Htcp. unfold ipv4_simple. eapply triple_bind; [apply get_bib4_triple; done|].
  intros [b|err].
  - apply triple_pure. intros (Hp & Hm & Had).
    eapply triple_weaken; [apply (simple_session_triple db pkt tup b); done|done|].
    intros v s [(db' & Ho & Hg & Hgood) Hv]. split; [exists db'; auto|]. destruct Hv as [->| ->]; done.
  - assert (Hpost : forall s, owned [] [] db s ->
      handled tup db (fun db' => has_session tup db' /\ admitted src dst proto db) VERDICT_DROP s)
      by (intros s Hs; exists db; split; [done|split; [apply grows_refl|done]]).
    destruct err; apply triple_ret; intros s [Hs Hno]; try (split; [apply Hpost; done|done]).
    split; [|split; [|done]].
    + exists db. split; [done|]. split; [apply grows_refl|done].
    + intros _. apply Hno. done.
Qed.

(** A new TCP session in the state of its first SYN. *)
Lemma new_tcp_session_triple db tup b x v st :
  l4_proto tup = L4PROTO_TCP -> bib_l4_proto b = l4_proto tup -> new_session tup (Some b) x -> fresh x db ->
  st = V6_INIT \/ st = V4_INIT ->
  triple (fun s => owned [b] [x] db s /\ live (f_store s) x v)
    (write_state x st;; on_db (sessiondb_add (c_env c) x false))
    (fun r s => exists db', owned [b] [x] db' s /\ grows tup db db' /\
       (is_ok r = true -> x ∈ db_entries (l4_proto tup) db')).
Proof.
  intros Htcp Hbp Hnew Hfr Hst. eapply triple_bind; [apply write_state_triple; done|]. intros [].
  apply (add_new_session_triple _ _ _ tup b x _ false); rewrite ?Htcp; try done.
  - congruence.
  - destruct Hst as [->| ->]; done.
Qed.

Lemma bind_assoc_run {S T U V} (m : M S T) (f : T -> M S U) (g : U -> M S V) s :
  (x ← m; y ← f x; g y) s = (y ← (x ← m; f x); g y) s.
Proof. unfold mbind, M_bind. destruct (m s) as [[a s']|]; done. Qed.

Lemma triple_assoc {S T U V} P (m : M S T) (f : T -> M S U) (g : U -> M S V) Q :
  triple P (y ← (x ← m; f x); g y) Q -> triple P (x ← m; y ← f x; g y) Q.
Proof.
  intros H s Hs. destruct (H s Hs) as (a & s' & Hrun & HQ). exists a, s'. rewrite bind_assoc_run. done.
Qed.

Lemma tcp_closed_v6_syn_triple db pkt src dst proto :
  let tup := Tuple6 src dst proto in
  wf_tuple tup -> proto = L4PROTO_TCP ->
  triple (owned [] [] db) (tcp_closed_v6_syn c pkt src dst proto)
    (fun error s => exists db', owned [] [] db' s /\ grows tup db db' /\ (error = 0 -> has_session tup db')).
Proof.
  intros tup Hw Htcp. pose proof Hw as (Ws & Wd & _). unfold tcp_closed_v6_syn.
  eapply triple_bind; [apply get_or_create_bib6_triple; done|]. intros [b|error].
  2:{ apply triple_ret. intros s [Hs Hne]. exists db. split; [done|]. split; [apply grows_refl|done]. }
  apply triple_pure. intros [E6 Ep].
  eapply triple_bind; [apply (create_session_triple _ _ _ tup (Some b)); [done| |done]; intros b' [= <-]; split; [left|done]|].
  intros r.
  apply (triple_bind _ _ _ (fun error s => exists db', owned [b] [] db' s /\ grows tup db db' /\
    (error = 0 -> has_session tup db'))).
  - destruct r as [x|error].
    2:{ apply triple_ret. intros s [Hs Hne]. exists db. split; [done|]. split; [apply grows_refl|done]. }
    eapply (triple_get (fun s => owned [b] [x] db s /\
        live (f_store s) x (SessionVars (jiffies (c_env c)) 1 CLOSED None)) (fresh x db /\ new_session tup (Some b) x));
      [tauto|]. intros [Hfr Hnew].
    apply triple_assoc. eapply triple_bind; [apply (new_tcp_session_triple db tup b x); auto|].
    intros r. apply triple_exists. intros db'.
    eapply (triple_get (owned [b] [x] db') (grows tup db db' /\ (is_ok r = true -> x ∈ db_entries (l4_proto tup) db')));
      [tauto|]. intros [Hg Hx].
    eapply triple_bind; [apply session_return_triple|]. intros dead. apply triple_ret. intros s Hs.
    exists db'. split; [done|]. split; [done|]. destruct r as [[]|err]; [|intros E; destruct (errno_code_ne err E)].
    intros _. exists x. split; [apply Hx; done|apply Hnew].
  - intros error. apply triple_exists. intros db'.
    eapply (triple_get (owned [b] [] db') (grows tup db db' /\ (error = 0 -> has_session tup db'))); [tauto|].
    intros [Hg Hh]. eapply triple_bind; [apply bib_return_triple|]. intros []. apply triple_ret. eauto.
Qed.

Lemma tcp_v4_syn_session_triple db pkt src dst proto (bib : option bib_entry) :
  let tup := Tuple4 src dst proto in
  wf_tuple tup -> proto = L4PROTO_TCP ->
  (forall b, bib = Some b -> bib_l4_proto b = proto /\ bib_matches tup b) ->
  triple (owned (match bib with Some b => [b] | None => [] end) [] db) (tcp_v4_syn_session c pkt src dst proto bib)
    (fun v s => handled tup db (fun db' => has_session tup db' /\ addr_dependent_filtering c = false) v s /\
       v <> VERDICT_ACCEPT).
Proof.
  intros tup Hw Htcp Hbib. unfold tcp_v4_syn_session. set (B := match bib with Some b => [b] | None => [] end).
  eapply triple_bind.
  { apply (create_session_triple B [] db tup bib Hw).
    - intros b ->. split; [left|apply Hbib; done].
    - intros _. split; [done|]. simpl. congruence. }
  intros r0.
  apply (triple_bind _ _ _ (fun v s => exists db', owned B [] db' s /\ grows tup db db' /\
    (v = VERDICT_CONTINUE -> has_session tup db' /\ addr_dependent_filtering c = false) /\ v <> VERDICT_ACCEPT)).
  - destruct r0 as [x|error].
    2:{ apply triple_ret. intros s [Hs _]. exists db. split; [done|]. split; [apply grows_refl|done]. }
    eapply (triple_get (fun s => owned B [x] db s /\
        live (f_store s) x (SessionVars (jiffies (c_env c)) 1 CLOSED None)) (fresh x db /\ new_session tup bib x));
      [tauto|]. intros [Hfr Hnew].
    assert (Hret : forall v : verdict, triple (fun s => exists db', owned B [x] db' s /\ grows tup db db' /\
        (v = VERDICT_CONTINUE -> has_session tup db' /\ addr_dependent_filtering c = false) /\ v <> VERDICT_ACCEPT)
      (on_s (session_return x);; mret v)
      (fun v s => exists db', owned B [] db' s /\ grows tup db db' /\
        (v = VERDICT_CONTINUE -> has_session tup db' /\ addr_dependent_filtering c = false) /\ v <> VERDICT_ACCEPT)).
    { intros v. apply triple_exists. intros db'.
      eapply (triple_get (owned B [x] db') (grows tup db db' /\
        (v = VERDICT_CONTINUE -> has_session tup db' /\ addr_dependent_filtering c = false) /\ v <> VERDICT_ACCEPT)); [tauto|].
      intros (Hg & Hv). eapply triple_bind; [apply session_return_triple|]. intros dead. apply triple_ret. eauto. }
    destruct (negb (bool_decide (is_Some bib)) || addr_dependent_filtering c) eqn:Eq.
    + eapply triple_bind; [apply write_state_triple; done|]. intros [].
      eapply triple_bind; [|intros v; apply Hret].
      eapply (triple_get (owned B [x] db) True); [tauto|]. intros _.
      eapply triple_bind.
      { apply pktqueue_add_triple. destruct Hnew as (_ & -> & _). done. }
      intros r1. apply triple_ret. intros s Hs. exists db. split; [done|]. split; [apply grows_refl|].
      destruct r1; done.
    + apply orb_false_iff in Eq as [Eb Ead]. apply negb_false_iff, bool_decide_eq_true in Eb as [b ->].
      apply triple_assoc. eapply triple_bind; [|intros v; apply Hret].
      apply triple_assoc. eapply triple_bind; [apply (new_tcp_session_triple db tup b x); auto; apply Hbib; done|].
      intros r1. apply triple_ret. intros s (db' & Ho & Hg & Hx). exists db'. split; [done|]. split; [done|].
      destruct r1 as [[]|]; [|done]. split; [|done]. intros _. split; [|done]. exists x.
      split; [apply Hx; done|apply Hnew].
  - intros v. apply triple_exists. intros db'.
    eapply (triple_get (owned B [] db') (grows tup db db' /\
      (v = VERDICT_CONTINUE -> has_session tup db' /\ addr_dependent_filtering c = false) /\ v <> VERDICT_ACCEPT)); [tauto|].
    intros (Hg & Hv & Hna). eapply (triple_bind _ _ _ (fun _ => owned [] [] db')).
    + unfold B. destruct bib as [b|]; [apply bib_return_triple|]. apply triple_ret. done.
    + intros []. apply triple_ret. intros s Hs. split; [|done]. exists db'. split; [done|]. split; [done|].
      intros E. destruct (Hv E). done.
Qed.

Lemma tcp_closed_v4_syn_triple db pkt src dst proto :
  let tup := Tuple4 src dst proto in
  wf_tuple tup -> proto = L4PROTO_TCP ->
  triple (owned [] [] db) (tcp_closed_v4_syn c pkt src dst proto)
    (fun v s => handled tup db (fun db' => has_session tup db' /\ drop_external_connections c = false /\
                                  addr_dependent_filtering c = false) v s /\ v <> VERDICT_ACCEPT).
Proof.
  intros tup Hw Htcp. unfold tcp_closed_v4_syn. destruct (drop_external_connections c) eqn:Ed.
  { apply triple_ret. intros s Hs. split; [|done]. exists db. split; [done|]. split; [apply grows_refl|done]. }
  assert (Hgo : forall bib, (forall b, bib = Some b -> bib_l4_proto b = proto /\ bib_matches tup b) ->
    triple (owned (match bib with Some b => [b] | None => [] end) [] db) (tcp_v4_syn_session c pkt src dst proto bib)
    (fun v s => handled tup db (fun db' => has_session tup db' /\ false = false /\
       addr_dependent_filtering c = false) v s /\ v <> VERDICT_ACCEPT)).
  { intros bib Hbib. eapply triple_weaken; [apply (tcp_v4_syn_session_triple db pkt src dst proto bib); done|done|].
    intros v s [(db' & Ho & Hg & Hh) Hna]. split; [|done]. exists db'. split; [done|]. split; [done|].
    intros E. destruct (Hh E). done. }
  eapply triple_bind; [apply (bib_get_triple [] [] db tup Hw)|]. intros [b|err].
  - apply triple_pure. intros [Hp Hm]. apply (Hgo (Some b)). intros b' [= <-]. done.
  - eapply (triple_get (owned [] [] db) (err = ESRCH \/ err = EINVAL)); [tauto|]. intros [->| ->].
    + apply (Hgo None). done.
    + apply triple_ret. intros s Hs. split; [|done]. exists db. split; [done|]. split; [apply grows_refl|done].
Qed.

(** What a packet from the IPv4 side needs to open a connection. *)
Definition may_open (tup : tuple) : Prop :=
  l3_proto tup = L3PROTO_IPV4 -> drop_external_connections c = false /\ addr_dependent_filtering c = false.

Lemma tcp_closed_state_triple db pkt tup :
  wf_tuple tup -> l4_proto tup = L4PROTO_TCP ->
  triple (owned [] [] db) (tcp_closed_state c pkt tup)
    (fun v s => handled tup db (fun db' => if pkt_syn pkt then has_session tup db' /\ may_open tup else db' = db) v s /\
       v <> VERDICT_ACCEPT).
Proof.
  intros Hw Htcp. unfold tcp_closed_state. destruct (pkt_syn pkt) eqn:Es; cbn [negb].
  - assert (Hout : forall v, triple (fun s => handled tup db (fun db' => has_session tup db' /\ may_open tup) v s /\ v <> VERDICT_ACCEPT)
      ((if bool_decide (v = VERDICT_DROP) then inc_stats pkt IPSTATS_MIB_INDISCARDS else mret tt);; mret v)
      (fun v s => handled tup db (fun db' => has_session tup db' /\ may_open tup) v s /\ v <> VERDICT_ACCEPT)).
    { intros v. apply triple_pure. intros Hna. apply triple_exists. intros db'.
      eapply (triple_get (owned [] [] db') (grows tup db db' /\ (v = VERDICT_CONTINUE -> has_session tup db' /\ may_open tup))); [tauto|].
      intros [Hg Hh]. eapply (triple_bind _ _ _ (fun _ => owned [] [] db')).
      - destruct (bool_decide (v = VERDICT_DROP)); [apply inc_stats_triple|]. apply triple_ret. done.
      - intros []. apply triple_ret. intros s Hs. split; [|done]. exists db'. done. }
    destruct tup as [src dst proto|src dst proto].
    + eapply triple_bind; [apply (tcp_closed_v4_syn_triple db pkt src dst proto); done|]. intros v.
      eapply triple_weaken; [apply Hout| |auto]. intros s [(db' & Ho & Hg & Hh) Hna]. split; [|done].
      exists db'. split; [done|]. split; [done|]. intros E. destruct (Hh E) as (? & ? & ?). split; [done|]. intros _. done.
    + eapply triple_bind; [apply (tcp_closed_v6_syn_triple db pkt src dst proto); done|]. intros error.
      eapply triple_weaken; [apply Hout| |auto]. intros s (db' & Ho & Hg & Hh). split; [|destruct (Z.eqb_spec error 0); done].
      exists db'. split; [done|]. split; [done|]. destruct (Z.eqb_spec error 0) as [->|]; [|done].
      intros _. split; [auto|]. done.
  - eapply triple_bind; [apply (bib_get_triple [] [] db tup Hw)|]. intros [b|err].
    + eapply (triple_get (owned [b] [] db) True); [tauto|]. intros _.
      eapply triple_bind; [apply bib_return_triple|]. intros []. apply triple_ret. intros s Hs. split; [|done].
      exists db. split; [done|]. split; [apply grows_refl|done].
    + eapply (triple_get (owned [] [] db) True); [tauto|]. intros _.
      eapply triple_bind; [apply inc_stats_triple|]. intros []. apply triple_ret. intros s Hs. split; [|done].
      exists db. split; [done|]. split; [apply grows_refl|done].
Qed.

(** What [CONTINUE] means of a TCP packet: its session exists, or the packet
    is not a SYN and nothing was created for it. *)
Definition tcp_good (pkt : packet) (tup : tuple) (db db' : session_db) : Prop :=
  has_session tup db' /\ (has_session tup db \/ pkt_syn pkt = true /\ may_open tup) \/
  pkt_syn pkt = false /\ db' = db.

Lemma tcp_triple db pkt tup :
  wf_tuple tup -> l4_proto tup = L4PROTO_TCP ->
  triple (owned [] [] db) (tcp c pkt tup)
    (fun v s => handled tup db (tcp_good pkt tup db) v s /\ v <> VERDICT_ACCEPT).
Proof.
  intros Hw Htcp. unfold tcp.
  eapply triple_bind; [apply session_get_triple; rewrite ?Htcp; [done|apply tcp_state_machine_ok|apply tcp_state_machine_stays]|].
  intros [x|err].
  - apply triple_exists. intros db'.
    eapply (triple_get (owned [] [x] db') ((forall p y, y ∈ db_entries p db' <-> y ∈ db_entries p db) /\
      x ∈ db_entries (l4_proto tup) db' /\ matches tup x)); [tauto|]. intros (Hent & Hx & Hm).
    eapply triple_bind; [apply session_return_triple|]. intros dead. apply triple_ret. intros s Hs. split; [|done].
    exists db'. split; [done|]. split; [apply grows_iff; done|]. intros _. left.
    split; [exists x; done|]. left. exists x. rewrite <- Hent. done.
  - eapply (triple_get (owned [] [] db) (err = ESRCH \/ err = EINVAL)); [tauto|]. intros [->| ->].
    + eapply triple_weaken; [apply tcp_closed_state_triple; done|done|].
      intros v s [(db' & Ho & Hg & Hh) Hna]. split; [|done]. exists db'. split; [done|]. split; [done|].
      intros E. specialize (Hh E). unfold tcp_good. destruct (pkt_syn pkt); [|auto].
      destruct Hh as [Hh Hmay]. left. auto.
    + eapply triple_bind; [apply inc_stats_triple|]. intros []. apply triple_ret. intros s Hs. split; [|done].
      exists db. split; [done|]. split; [apply grows_refl|done].
Qed.

(** The BIB has an entry for the tuple. *)
Definition has_bib (tup : tuple) (bibs : bib_db) : Prop :=
  exists b, b ∈ bib_of_proto (l4_proto tup) bibs /\ bib_matches tup b.

Lemma bib_get_found B S db bibs tup :
  wf_tuple tup ->
  triple (fun s => owned B S db s /\ f_bib s = bibs) (on_b (bibdb_get tup))
    (fun r s => match r with
     | Ok b => owned (b :: B) S db s /\ has_bib tup bibs
     | Err _ => owned B S db s
     end).
Proof.
  intros Hw s [Ho Eb]. destruct (bib_get_triple B S db tup Hw s Ho) as (r & s' & Hrun & Hpost).
  exists r, s'. split; [exact Hrun|]. destruct r as [b|err]; [|tauto]. split; [tauto|].
  destruct s as [[db0 w] eph]. pose proof Ho as (Edb & _). cbn in Edb. subst db0 bibs. unfold f_bib, f_store, f_world. cbn [fst snd].
  pose proof (owned_bibs _ _ _ _ _ Ho) as Hb. unfold on_b, on_s, on_w, on_db, off_tables, on_store, on_bib in Hrun. cbn [fst snd] in Hrun.
  destruct (bibdb_get tup (st_bib (w_store w))) as [[r' bib']|] eqn:Eg; [|done]. injection Hrun as -> _.
  destruct tup as [src dst p|src dst p]; destruct Hw as (Hw1 & Hw2 & _); cbn [bibdb_get] in Eg.
  - destruct (bibdb_get4_spec _ _ dst p Hb Hw2) as (r2 & d2 & E2 & Hp). rewrite E2 in Eg. injection Eg as -> ->.
    destruct Hp as (Hin & Hm & _). exists b. done.
  - destruct (bibdb_get6_spec _ _ src p Hb Hw1) as (r2 & d2 & E2 & Hp). rewrite E2 in Eg. injection Eg as -> ->.
    destruct Hp as (Hin & Hm & _). exists b. done.
Qed.

(** A segment that is not a SYN goes on without a session only if there is a
    BIB entry for it. *)
Lemma tcp_closed_needs_bib db bibs pkt tup :
  wf_tuple tup -> pkt_syn pkt = false ->
  triple (fun s => owned [] [] db s /\ f_bib s = bibs) (tcp_closed_state c pkt tup)
    (fun v s => v = VERDICT_CONTINUE -> has_bib tup bibs).
Proof.
  intros Hw Es. unfold tcp_closed_state. rewrite Es. cbn [negb].
  eapply triple_bind; [apply (bib_get_found [] [] db bibs tup Hw)|]. intros [b|err].
  - apply triple_pure. intros Hb. eapply triple_bind; [apply bib_return_triple|]. intros []. apply triple_ret. done.
  - eapply triple_bind; [apply inc_stats_triple|]. intros []. apply triple_ret. done.
Qed.

Lemma tcp_needs_bib db bibs pkt tup :
  wf_tuple tup -> l4_proto tup = L4PROTO_TCP -> pkt_syn pkt = false ->
  triple (fun s => owned [] [] db s /\ f_bib s = bibs) (tcp c pkt tup)
    (fun v s => v = VERDICT_CONTINUE -> has_session tup db \/ has_bib tup bibs).
Proof.
  intros Hw Htcp Es s [Ho Eb]. unfold tcp. destruct s as [[db0 w] eph]. pose proof Ho as (Edb & Hi & _). cbn in Edb. subst db0. cbn [fst snd] in Hi.
  destruct (session_get_triple (c_env c) [] [] db tup (tcp_state_machine pkt) Hw
    ltac:(rewrite Htcp; apply tcp_state_machine_ok) ltac:(rewrite Htcp; apply tcp_state_machine_stays) ((db, w), eph) Ho) as (r & s1 & Hrun & Hpost).
  destruct (sessiondb_get_spec (c_env c) _ _ db w tup (tcp_state_machine pkt) Hi Hw ltac:(rewrite Htcp; apply tcp_state_machine_ok))
    as (r2 & dw' & Hrun2 & Hpost2).
  pose proof (on_db_run _ (db, w) eph _ _ Hrun2) as Hrun3. pose proof (eq_trans (eq_sym Hrun) Hrun3) as E.
  injection E as -> ->. destruct r2 as [x|err].
  - destruct Hpost as (db' & Ho' & Hent & Hx & Hm & _).
    destruct (session_return_triple [] [] db' x _ Ho') as (dead & s2 & Hret & _).
    exists VERDICT_CONTINUE, s2. split; [rewrite (bind_run _ _ _ _ _ Hrun), (bind_run _ _ _ _ _ Hret); done|]. intros _. left.
    exists x. rewrite <- Hent. done.
  - destruct Hpost2 as [-> Herr]. destruct Hpost as [Ho' He].
    destruct He as [(-> & _)|(-> & _)].
    + destruct (tcp_closed_needs_bib db bibs pkt tup Hw Es ((db, w), eph) (conj Ho Eb)) as (v & s' & Hv & HQ).
      exists v, s'. split; [rewrite (bind_run _ _ _ _ _ Hrun); exact Hv|auto].
    + destruct (inc_stats_triple [] [] db pkt IPSTATS_MIB_INDISCARDS ((db, w), eph) Ho) as ([] & s' & Hs' & _).
      exists VERDICT_DROP, s'. split; [|done]. rewrite (bind_run _ _ _ _ _ Hrun), (bind_run _ _ _ _ _ Hs'). done.
Qed.

End Functions.
