(* ===== verification/StaticRoutes.v ===== *)
(** * Static BIB entries

    [mod/stateful/bib/static_routes.c]: the requests of the user to add and
    to remove BIB entries.  A static entry has a fake user, the reference it
    was created with, so it does not die with its sessions. *)
From S2P Require Import Prelude Types Address Rfc6052 Pool6 Pool4Table Pool4Db RbTree BibTable BibDb PortAlloc.
From S2P Require Import Packet SessionEntry PktQueue SessionTable Tcp SessionSpec SessionDb Filtering FilteringSpec.

Section Routes.
Context {R : RbTree} (c : config).

(** The argument is the outcome of the lookup. *)
Definition validate_bib (r : result bib_entry) : M fworld (result unit) :=
  match r with
  | Ok bib => on_b (bibdb_return (Some bib));; mret (Err EEXIST)
  | Err ESRCH => mret (Ok tt)
  | Err error => mret (Err error)
  end.

Definition add_static_route (addr4 : ipv4_transport_addr) (addr6 : ipv6_transport_addr)
    (proto : l4_protocol) : M fworld (result unit) :=
  match pool4db_contains (c_netdevs c) (c_pool4 c) proto addr4 with
  | None => fault
  | Some false => mret (Err EINVAL)
  | Some true =>
      r ← on_b (bibdb_get4 addr4 proto);
      error ← validate_bib r;
      match error with
      | Err error => mret (Err error)
      | Ok _ =>
          r ← on_b (bibdb_get6 addr6 proto);
          error ← validate_bib r;
          match error with
          | Err error => mret (Err error)
          | Ok _ =>
              bib ← on_b (on_heap (bibentry_create addr4 addr6 true proto));
              match bib with
              | None => mret (Err ENOMEM)
              | Some bib =>
                  error ← on_b (bibdb_add bib);
                  match error with
                  | Err error => on_b (on_heap (bibentry_kfree bib));; mret (Err error)
                  | Ok _ => mret (Ok tt)
                  end
              end
          end
      end
  end.

(** [bib->is_static = false] *)
Definition clear_static (bib : bib_entry) : M bib_heap unit :=
  v ← read_bib bib; write_bib bib (BibVars false (bib_refcounter v)).

(** "Remove the fake user." *)
Definition remove_fake_user (bib : bib_entry) : M fworld unit :=
  v ← on_b (on_heap (read_bib bib));
  if is_static v then
    on_b (bibdb_return (Some bib));;
    on_b (on_heap (clear_static bib))
  else mret tt.

(** [addr6] and [addr4] are the addresses of the request that are set. *)
Definition delete_static_route (addr6 : option ipv6_transport_addr) (addr4 : option ipv4_transport_addr)
    (proto : l4_protocol) : M fworld (result unit) :=
  r ← match addr6, addr4 with
      | Some req6, _ => on_b (bibdb_get6 req6 proto)
      | None, Some req4 => on_b (bibdb_get4 req4 proto)
      | None, None => mret (Err EINVAL)
      end;
  match r with
  | Err error => mret (Err error)
  | Ok bib =>
      let other := match addr6, addr4 with
                   | Some _, Some req4 => negb (ipv4_transport_addr_equals (Some (bib_ipv4 bib)) (Some req4))
                   | _, _ => false
                   end in
      if other then on_b (bibdb_return (Some bib));; mret (Err ESRCH)
      else
        remove_fake_user bib;;
        r ← on_db (sessiondb_delete_by_bib bib);
        on_b (bibdb_return (Some bib));;
        mret r
  end.

End Routes.

(** ** Specification *)

Section Spec.
Context {R : RbTree} {L : RbTreeLaws R} (c : config) (Hdb : db_inv (hash_32 c) (c_pool4 c)).

(** [bibdb_get4] and [bibdb_get6] are what [bibdb_get] does with a tuple. *)
Lemma bib_get4_triple B S db addr proto :
  wf_taddr4 addr ->
  triple (owned B S db) (on_b (bibdb_get4 addr proto))
    (fun r s => match r with
     | Ok b => owned (b :: B) S db s /\ bib_l4_proto b = proto /\ bib_ipv4 b = addr
     | Err err => owned B S db s /\ (err = ESRCH /\ proto <> L4PROTO_OTHER \/ err = EINVAL /\ proto = L4PROTO_OTHER)
     end).
Proof.
  intros Hw. eapply triple_weaken; [apply (bib_get_triple B S db (Tuple4 addr addr proto)); done|done|].
  intros [b|err] s; simpl; tauto.
Qed.

Lemma bib_get6_triple B S db addr proto :
  wf_taddr6 addr ->
  triple (owned B S db) (on_b (bibdb_get6 addr proto))
    (fun r s => match r with
     | Ok b => owned (b :: B) S db s /\ bib_l4_proto b = proto /\ bib_ipv6 b = addr
     | Err err => owned B S db s /\ (err = ESRCH /\ proto <> L4PROTO_OTHER \/ err = EINVAL /\ proto = L4PROTO_OTHER)
     end).
Proof.
  intros Hw. eapply triple_weaken; [apply (bib_get_triple B S db (Tuple6 addr addr proto)); done|done|].
  intros [b|err] s; simpl; tauto.
Qed.

Lemma validate_bib_triple db r proto :
  triple (fun s => match r with
     | Ok b => owned [b] [] db s
     | Err err => owned [] [] db s /\ (err = ESRCH /\ proto <> L4PROTO_OTHER \/ err = EINVAL /\ proto = L4PROTO_OTHER)
     end) (validate_bib r)
    (fun e s => owned [] [] db s /\ (e = Ok tt -> r = Err ESRCH /\ proto <> L4PROTO_OTHER)).
Proof.
  destruct r as [b|err]; simpl.
  - eapply triple_bind; [apply bib_return_triple|]. intros []. apply triple_ret. done.
  - eapply (triple_get (owned [] [] db)); [intros s Hs; exact Hs|]. intros [[-> Hp]|[-> _]]; apply triple_ret; done.
Qed.

Lemma pool4_contains_run proto addr : exists b, pool4db_contains (c_netdevs c) (c_pool4 c) proto addr = Some b.
Proof.
  destruct Hdb as (ss & E & _). unfold pool4db_contains, pool4db_is_empty. rewrite E.
  destruct (forallb (forallb pool4table_is_empty) ss); eauto.
Qed.

Lemma add_static_route_triple db addr4 addr6 proto :
  wf_taddr4 addr4 -> wf_taddr6 addr6 ->
  triple (owned [] [] db) (add_static_route c addr4 addr6 proto)
    (fun r s => owned [] [] db s /\
       (r = Ok tt -> pool4db_contains (c_netdevs c) (c_pool4 c) proto addr4 = Some true /\
          exists b v, b ∈ bib_of_proto proto (f_bib s) /\ bib_ipv4 b = addr4 /\ bib_ipv6 b = addr6 /\
            bib_vars_of (bibs (f_bib s)) !! bib_loc b = Some v /\ is_static v = true)).
Proof.
  intros W4 W6. unfold add_static_route. destruct (pool4_contains_run proto addr4) as [[] ->].
  2:{ apply triple_ret. done. }
  eapply triple_bind; [apply bib_get4_triple; done|]. intros r.
  eapply triple_bind; [eapply triple_weaken; [apply (validate_bib_triple db r proto)| |intros a s H; exact H]|].
  { intros s. destruct r; [tauto|done]. }
  intros [[]|err]; [|apply triple_ret; intros s [Hs _]; done].
  eapply (triple_get (owned [] [] db) True); [tauto|]. intros _.
  eapply triple_bind; [apply bib_get6_triple; done|]. intros r'.
  eapply triple_bind; [eapply triple_weaken; [apply (validate_bib_triple db r' proto)| |intros a s H; exact H]|].
  { intros s. destruct r'; [tauto|done]. }
  intros [[]|err]; [|apply triple_ret; intros s [Hs _]; done].
  apply triple_pure. intros Hp. destruct (Hp eq_refl) as [_ Hp'].
  eapply triple_bind; [apply bib_create_triple; done|]. intros [b|]; [|apply triple_ret; done].
  apply triple_pure. intros (E4 & E6 & Ep). eapply triple_bind; [apply bib_add_triple|]. intros [[]|err].
  - apply triple_ret. intros [[db0 w] eph] (Hs & Hb & Hst). split; [exact Hs|]. intros _. split; [done|].
    destruct (Hst eq_refl) as (v & Hv & Ev). exists b, v. split; [|done]. rewrite <- Ep.
    pose proof Hs as (Edb & _). cbn in Edb. subst db0. apply (bib_all_of_proto _ _ _ (owned_bibs _ _ _ _ _ Hs)). done.
  - eapply triple_bind; [apply bib_kfree_triple|]. intros []. apply triple_ret. done.
Qed.

(** A reference that is not the last one. *)
Lemma bibdb_return_alive db b v :
  bib_vars_of (bibs db) !! bib_loc b = Some v -> bib_refcounter v <> 1 ->
  bibdb_return (Some b) db =
  Some (tt, bib_put_heap (set_vars (bibs db)
    (<[bib_loc b := BibVars (is_static v) (bib_refcounter v - 1)]> (bib_vars_of (bibs db)))) db).
Proof.
  intros Hv Hne. unfold bibdb_return, mbind, M_bind, on_heap at 1. rewrite (bibentry_return_run b (bibs db) v Hv).
  destruct (Z.eqb_spec (bib_refcounter v - 1) 0); [lia|]. done.
Qed.

(** The fake user goes; the entry stays, since the caller uses it. *)
Lemma remove_fake_user_triple B S db b :
  triple (owned (b :: B) S db) (remove_fake_user b)
    (fun _ s => owned (b :: B) S db s /\
       exists v, bib_vars_of (bibs (f_bib s)) !! bib_loc b = Some v /\ is_static v = false).
Proof.
  intros [[db0 w] eph] Ho. pose proof Ho as (Edb & _ & HB & _). cbn in Edb. subst db0.
  pose proof (owned_bibs _ _ _ _ _ Ho) as Hb. set (bdb := st_bib (w_store w)) in *.
  assert (Hin : b ∈ bib_all bdb) by (apply HB; left).
  pose proof Hb as (_ & _ & _ & _ & H5 & _). destruct (H5 b Hin) as (v & Hv & H0 & Hr & Hpos).
  rewrite refs_in_cons, Pos.eqb_refl in Hr, H0. simpl in Hr, H0.
  pose proof (refs_in_nonneg bib_loc B (bib_loc b)) as Hn. pose proof (held_nonneg (sessions_of (st_sess (w_store w))) (bib_loc b)) as Hh.
  assert (Hread : on_b (on_heap (read_bib b)) ((db, w), eph) = Some (v, ((db, w), eph))).
  { rewrite (on_b_run _ db w eph v bdb); [destruct w as [[] ? ?]; done|].
    unfold on_heap. fold bdb. rewrite (read_bib_run _ _ _ Hv). destruct bdb; done. }
  unfold remove_fake_user. destruct (is_static v) eqn:Est.
  2:{ exists tt, ((db, w), eph). split; [rewrite (bind_run _ _ _ _ _ Hread), Est; done|]. split; [exact Ho|]. eauto. }
  set (h1 := set_vars (bibs bdb) (<[bib_loc b := BibVars true (bib_refcounter v - 1)]> (bib_vars_of (bibs bdb)))).
  set (h2 := set_vars (bibs bdb) (<[bib_loc b := BibVars false (bib_refcounter v - 1)]> (bib_vars_of (bibs bdb)))).
  exists tt, ((db, with_bib w (bib_put_heap h2 bdb)), eph). split.
  { rewrite (bind_run _ _ _ _ _ Hread), Est.
    assert (R1 : on_b (bibdb_return (Some b)) ((db, w), eph) = Some (tt, ((db, with_bib w (bib_put_heap h1 bdb)), eph))).
    { apply on_b_run. fold bdb. rewrite (bibdb_return_alive bdb b v Hv) by (simpl in Hr; lia). rewrite Est. done. }
    rewrite (bind_run _ _ _ _ _ R1).
    change (with_bib w (bib_put_heap h2 bdb)) with (with_bib (with_bib w (bib_put_heap h1 bdb)) (bib_put_heap h2 bdb)).
    apply on_b_run. unfold on_heap, clear_static, mbind, M_bind.
    rewrite (read_bib_run _ _ (BibVars true (bib_refcounter v - 1))) by (subst h1; apply lookup_insert_eq).
    unfold write_bib, modify. simpl. rewrite insert_insert_eq. done. }
  split; [|exists (BibVars false (bib_refcounter v - 1)); split; [apply lookup_insert_eq|done]].
  eapply owned_with_bib; [exact Ho | | exact HB |].
  - eapply bib_set_vars_inv; [exact Hb | done | | done]. unfold ref_ok. simpl.
    rewrite refs_in_cons, Pos.eqb_refl. simpl in *. lia.
  - intros loc x vx b' Hl Eb. apply (owned_used _ _ _ _ _ _ _ _ _ Ho Hl Eb).
Qed.

(** Sessions that leave take no reference of the caller with them. *)
Lemma owned_purged B db w eph dw' sel :
  owned B [] db ((db, w), eph) ->
  db_purged (refs_in bib_loc B) (refs_in se_loc []) sel (db, w) dw' ->
  owned B [] (fst dw') (dw', eph).
Proof.
  intros Ho (Hi & Hent & _ & _ & _ & _ & Hkeep). pose proof Ho as (_ & _ & HB & _ & HA). destruct dw' as [db' w'].
  split; [done|]. split; [exact Hi|]. cbn [fst snd] in *. split; [|split].
  - intros b Hb. pose proof Hi as (((Hbi & _) & _) & _). cbn [fst snd] in Hbi.
    unfold f_bib, f_store, f_world. cbn [fst snd].
    rewrite (bib_all_of_proto _ _ _ Hbi). apply Hkeep.
    + rewrite <- (bib_all_of_proto _ _ _ (owned_bibs _ _ _ _ _ Ho)). apply HB. done.
    + pose proof (refs_in_pos bib_loc b B Hb). lia.
  - intros x Hx. inversion Hx.
  - intros p x Hx. apply Hent in Hx as [Hx _]. apply (HA p x Hx).
Qed.

Lemma delete_by_bib_triple db b :
  wf_taddr4 (bib_ipv4 b) -> bib_l4_proto b <> L4PROTO_OTHER ->
  triple (owned [b] [] db) (on_db (sessiondb_delete_by_bib b))
    (fun r s => r = Ok tt /\ exists db', owned [b] [] db' s /\
       forall p x, x ∈ db_entries p db' <-> x ∈ db_entries p db /\ ~ (p = bib_l4_proto b /\ local4 x = bib_ipv4 b)).
Proof.
  intros Hw Hp [[db0 w] eph] Ho. pose proof Ho as (Edb & Hi & _). cbn in Edb. subst db0. cbn [fst snd] in Hi.
  destruct (purge_one _ _ (bib_l4_proto b) _ _ db w (delete_by_bib_purger b Hw) Hp Hi) as (dw' & Hrun & Hpost).
  exists (Ok tt), (dw', eph). split.
  - apply on_db_run. assert (E : sessiondb_delete_by_bib b = (in_table (bib_l4_proto b) (sessiontable_delete_by_bib b);; mret (Ok tt)))
      by (unfold sessiondb_delete_by_bib; destruct (bib_l4_proto b); done).
    rewrite E, (bind_run _ _ _ _ _ Hrun). done.
  - split; [done|]. exists (fst dw'). split; [eapply owned_purged; done|]. apply Hpost.
Qed.

Lemma delete_static_route_triple db addr6 addr4 proto :
  (forall a, addr6 = Some a -> wf_taddr6 a) -> (forall a, addr4 = Some a -> wf_taddr4 a) ->
  triple (owned [] [] db) (delete_static_route addr6 addr4 proto)
    (fun r s => exists db', owned [] [] db' s /\ match r with
     | Ok _ => exists b, bib_l4_proto b = proto /\
         (forall a, addr6 = Some a -> bib_ipv6 b = a) /\ (forall a, addr4 = Some a -> bib_ipv4 b = a) /\
         forall p x, x ∈ db_entries p db' <-> x ∈ db_entries p db /\ ~ (p = proto /\ local4 x = bib_ipv4 b)
     | Err _ => db' = db
     end).
Proof.
  intros W6 W4. unfold delete_static_route.
  apply (triple_bind _ _ _ (fun r s => match r with
     | Ok b => owned [b] [] db s /\ bib_l4_proto b = proto /\ (forall a, addr6 = Some a -> bib_ipv6 b = a) /\
         (addr6 = None -> forall a, addr4 = Some a -> bib_ipv4 b = a)
     | Err err => owned [] [] db s
     end)).
  { destruct addr6 as [a6|]; [|destruct addr4 as [a4|]].
    - eapply triple_weaken; [apply (bib_get6_triple [] [] db a6 proto); auto|done|]. intros [b|err] s; [|tauto].
      intros (Hs & Hp & E). split_and!; try done. intros a [= <-]. done.
    - eapply triple_weaken; [apply (bib_get4_triple [] [] db a4 proto); auto|done|]. intros [b|err] s; [|tauto].
      intros (Hs & Hp & E). split_and!; try done. intros _ a [= <-]. done.
    - apply triple_ret. done. }
  intros [b|err]; [|apply triple_ret; intros s Hs; exists db; done].
  apply triple_pure. intros (Hp & E6 & E4).
  set (other := match addr6, addr4 with Some _, Some req4 => _ | _, _ => false end).
  assert (Hother : other = false -> forall a, addr4 = Some a -> bib_ipv4 b = a).
  { unfold other. intros Ho a ->. destruct addr6; [|apply E4; done].
    apply negb_false_iff in Ho. apply taddr4_equals_iff in Ho. congruence. }
  destruct other.
  { eapply triple_bind; [apply bib_return_triple|]. intros []. apply triple_ret. intros s Hs. exists db. done. }
  eapply triple_bind; [apply remove_fake_user_triple|]. intros [].
  eapply (triple_get (owned [b] [] db) (wf_taddr4 (bib_ipv4 b) /\ bib_l4_proto b <> L4PROTO_OTHER)).
  { intros [[db0 w] eph] [Ho _]. split; [done|]. pose proof Ho as (Edb & _ & HB & _). cbn in Edb. subst db0.
    pose proof (owned_bibs _ _ _ _ _ Ho) as Hbi. pose proof (HB b ltac:(left)) as Hin.
    rewrite (bib_all_of_proto _ _ _ Hbi) in Hin. destruct (bib_of_proto_inv _ _ _ _ Hbi Hin) as (_ & ? & _).
    split; [done|]. intros E. rewrite E in Hin. inversion Hin. }
  intros [Hw Hne]. eapply triple_bind; [apply delete_by_bib_triple; done|]. intros r.
  eapply (triple_get _ (r = Ok tt)); [intros s [E Hs]; split; [exact Hs|exact E]|]. intros ->.
  apply triple_exists. intros db'. apply triple_pure. intros Hent.
  eapply triple_bind; [apply bib_return_triple|]. intros []. apply triple_ret. intros s Hs.
  exists db'. split; [done|]. exists b. rewrite <- Hp. auto.
Qed.

End Spec.
