(* ===== verification/Nat64.v ===== *)
(** * The stateful translator

    The components put together: what a packet does to the databases
    ([filtering_correct]), what every sequence of packets, timers and
    requests of the user keeps ([nat64_reachable]), and what the IPv4 and
    IPv6 sides of a connection see of each other. *)
From S2P Require Import Prelude Types Address Rfc6052 Pool6 Pool4Table Pool4Db RbTree BibTable BibDb PortAlloc.
From S2P Require Import Packet SessionEntry PktQueue SessionTable Tcp SessionSpec SessionDb Filtering FilteringSpec StaticRoutes.

(** Nobody holds a reference between two events. *)
Definition nat64_inv (s : fworld) : Prop := owned [] [] (f_db s) s.

(** The tuple is the packet's. *)
Definition is_icmp_error (pkt : packet) (tup : tuple) : bool :=
  match tup with
  | Tuple6 _ _ _ => pkt_is_icmp6_error pkt
  | Tuple4 _ _ _ => pkt_is_icmp4_error pkt
  end.

Definition tuple_of (pkt : packet) (tup : tuple) : Prop :=
  wf_tuple tup /\ pkt_l3_proto pkt = l3_proto tup /\
  (is_icmp_error pkt tup = false -> pkt_l4_proto pkt = l4_proto tup).

(** What [CONTINUE] means. *)
Definition filtered (c : config) (pkt : packet) (tup : tuple) (db db' : session_db) : Prop :=
  if is_icmp_error pkt tup then db' = db
  else match l4_proto tup with
       | L4PROTO_TCP => tcp_good c pkt tup db db'
       | L4PROTO_OTHER => False
       | L4PROTO_UDP | L4PROTO_ICMP => has_session tup db' /\
           match tup with Tuple4 src dst proto => admitted c src dst proto db | Tuple6 _ _ _ => True end
       end.

Section Filter.
Context {R : RbTree} {L : RbTreeLaws R} (c : config) (Hc : config_ok c).

Lemma simple_triple db pkt tup :
  wf_tuple tup -> l4_proto tup <> L4PROTO_TCP ->
  triple (owned [] [] db) (simple c pkt tup)
    (handled tup db (fun db' => has_session tup db' /\
       match tup with Tuple4 src dst proto => admitted c src dst proto db | Tuple6 _ _ _ => True end)).
Proof.
  intros Hw Htcp. destruct tup as [src dst proto|src dst proto].
  - eapply triple_weaken; [apply (ipv4_simple_triple c Hc db pkt src dst proto); done|done|]. intros v s [H _]. exact H.
  - eapply triple_weaken; [apply (ipv6_simple_triple c Hc db pkt src dst proto); done|done|].
    intros v s [(db' & Ho & Hg & Hh) _]. exists db'. auto.
Qed.

Lemma handled_not_continue tup db good v s :
  v <> VERDICT_CONTINUE -> owned [] [] db s -> handled tup db good v s.
Proof. intros Hv Hs. exists db. split; [done|]. split; [apply grows_refl|done]. Qed.

Lemma update_state_triple db pkt tup :
  wf_tuple tup -> pkt_l4_proto pkt = l4_proto tup -> is_icmp_error pkt tup = false ->
  triple (owned [] [] db) (update_state c pkt tup) (handled tup db (filtered c pkt tup db)).
Proof.
  intros Hw Hp Hne. unfold update_state, filtered. rewrite Hp, Hne.
  destruct (l4_proto tup) eqn:Ep.
  - eapply triple_weaken; [apply tcp_triple; done|done|]. intros v s [H _]. exact H.
  - apply simple_triple; congruence.
  - destruct (bool_decide (pkt_l3_proto pkt = L3PROTO_IPV6) && filter_icmpv6_info c).
    + eapply triple_bind; [apply inc_stats_triple|]. intros []. apply triple_ret.
      intros s Hs. apply handled_not_continue; done.
    + apply simple_triple; congruence.
  - apply triple_ret. intros s Hs. apply handled_not_continue; done.
Qed.

Lemma filtering_triple db pkt tup :
  tuple_of pkt tup ->
  triple (owned [] [] db) (filtering_and_updating c pkt tup) (handled tup db (filtered c pkt tup db)).
Proof.
  intros (Hw & H3 & H4). unfold filtering_and_updating.
  assert (Hcont : forall s, is_icmp_error pkt tup = true -> owned [] [] db s ->
    handled tup db (filtered c pkt tup db) VERDICT_CONTINUE s).
  { intros s Hi Hs. exists db. split; [done|]. split; [apply grows_refl|]. intros _. unfold filtered. rewrite Hi. done. }
  destruct tup as [src dst proto|src dst proto]; cbn [is_icmp_error] in *.
  - destruct (pool4_contains_run c (ok_pool4 c Hc) proto dst) as [[] ->].
    + destruct (pkt_is_icmp4_error pkt) eqn:Ei; [apply triple_ret; auto|]. apply update_state_triple; auto.
    + apply triple_ret. intros s Hs. apply handled_not_continue; done.
  - eapply triple_bind; [apply pool6_contains_triple; done|]. intros [].
    { eapply triple_bind; [apply inc_stats_triple|]. intros []. apply triple_ret.
      intros s Hs. apply handled_not_continue; done. }
    eapply triple_bind; [apply pool6_contains_triple; done|]. intros []; cbn [negb].
    + destruct (pkt_is_icmp6_error pkt) eqn:Ei; [apply triple_ret; auto|]. apply update_state_triple; auto.
    + apply triple_ret. intros s Hs. apply handled_not_continue; done.
Qed.

(** A TCP segment goes on only with a session or, if it is not a SYN, with a
    BIB entry it had before. *)
Lemma filtering_needs_bib db bibs pkt tup :
  tuple_of pkt tup -> is_icmp_error pkt tup = false -> l4_proto tup = L4PROTO_TCP -> pkt_syn pkt = false ->
  triple (fun s => owned [] [] db s /\ f_bib s = bibs) (filtering_and_updating c pkt tup)
    (fun v s => v = VERDICT_CONTINUE -> has_session tup db \/ has_bib tup bibs).
Proof.
  intros (Hw & _ & H4) Hne Htcp Hsyn. unfold filtering_and_updating.
  assert (Hup : triple (fun s => owned [] [] db s /\ f_bib s = bibs) (update_state c pkt tup)
    (fun v s => v = VERDICT_CONTINUE -> has_session tup db \/ has_bib tup bibs)).
  { unfold update_state. rewrite (H4 Hne), Htcp. apply tcp_needs_bib; done. }
  destruct tup as [src dst proto|src dst proto]; cbn [is_icmp_error] in *.
  - destruct (pool4_contains_run c (ok_pool4 c Hc) proto dst) as [[] ->]; [|apply triple_ret; done].
    rewrite Hne. exact Hup.
  - eapply triple_bind; [apply pool6_contains_triple; done|]. intros [].
    { eapply triple_weaken; [|intros s [Ho _]; exact Ho|intros v s Hv; exact Hv].
      eapply triple_bind; [apply inc_stats_triple|]. intros []. apply triple_ret. done. }
    eapply triple_bind; [apply pool6_contains_triple; done|]. intros []; cbn [negb]; [|apply triple_ret; done].
    rewrite Hne. exact Hup.
Qed.

Lemma compute_out_triple db tup :
  wf_tuple tup ->
  triple (owned [] [] db) (compute_out_tuple c tup)
    (fun r s => owned [] [] db s /\
       match r with
       | (VERDICT_CONTINUE, out) => exists x, x ∈ db_entries (l4_proto tup) db /\ matches tup x /\
           out = Some (out_tuple_of x tup)
       | (v, out) => v = VERDICT_ACCEPT /\ out = None /\ forall x, x ∈ db_entries (l4_proto tup) db -> ~ matches tup x
       end).
Proof.
  intros Hw. unfold compute_out_tuple. eapply triple_bind; [apply session_find_triple; done|]. intros [x|err].
  - eapply (triple_get (owned [] [x] db)); [intros s [Hs H]; split; [exact Hs|exact H]|]. intros [Hx Hm].
    eapply triple_bind; [apply session_return_triple|]. intros dead. apply triple_ret. intros s Hs.
    split; [done|]. exists x. done.
  - apply triple_ret. intros s [Hs Hno]. done.
Qed.

(** ** Events *)

(** What can happen to the translator, under the configuration of the
    moment.  The transitory timers of UDP and ICMP have no queue. *)
Inductive nat64_event : Type :=
| EvPacket (pkt : packet) (tup : tuple)
| EvOutTuple (tup : tuple)
| EvTimer (proto : l4_protocol) (k : timer_kind)
| EvPktQueueTimer
| EvAddStatic (addr4 : ipv4_transport_addr) (addr6 : ipv6_transport_addr) (proto : l4_protocol)
| EvRmStatic (addr6 : option ipv6_transport_addr) (addr4 : option ipv4_transport_addr) (proto : l4_protocol)
| EvFlushSessions
| EvRmPrefix4 (prefix : ipv4_prefix) (ports : port_range)
| EvRmPrefix6 (prefix : ipv6_prefix)
| EvUpdateTimers
| EvFlushBibs
| EvRmBibs4 (prefix : ipv4_prefix) (ports : port_range).

Definition event_ok (ev : nat64_event) : Prop :=
  match ev with
  | EvPacket pkt tup => tuple_of pkt tup
  | EvOutTuple tup => wf_tuple tup
  | EvTimer proto k => proto = L4PROTO_TCP \/ (k = EST_TIMER /\ proto <> L4PROTO_OTHER)
  | EvAddStatic a4 a6 _ => wf_taddr4 a4 /\ wf_taddr6 a6
  | EvRmStatic a6 a4 _ => (forall a, a6 = Some a -> wf_taddr6 a) /\ (forall a, a4 = Some a -> wf_taddr4 a)
  | EvRmPrefix4 prefix ports | EvRmBibs4 prefix ports => 0 <= p4_len prefix /\ wf_addr4 (p4_address prefix) /\
      prefix4_validate (Some prefix) = Ok tt /\ wf_range ports
  | EvRmPrefix6 prefix => 0 <= p6_len prefix /\ wf_addr6 (p6_address prefix) /\
      prefix6_validate (Some prefix) = Ok tt
  | EvPktQueueTimer | EvFlushSessions | EvUpdateTimers | EvFlushBibs => True
  end.

(** The BIB entries an event flushes. *)
Definition flushes (ev : nat64_event) (b : bib_entry) : bool :=
  match ev with
  | EvFlushBibs => true
  | EvRmBibs4 prefix ports => in_request prefix ports (bib_ipv4 b)
  | _ => false
  end.

(** What a flush of the BIB relies on: no session, stored or waiting with its
    packet, uses a static entry that is flushed. *)
Definition event_safe (ev : nat64_event) (s : fworld) : Prop :=
  flushable (flushes ev) (held (sessions_of (st_sess (f_store s)))) (f_bib s).

Lemma event_safe_packet pkt tup s : event_safe (EvPacket pkt tup) s.
Proof. intros b _ Hf. done. Qed.

(** A request on pool4 that is not quick deletes the sessions first and then
    flushes the BIB: the second of the two events. *)
Definition then_flush (ev : nat64_event) : option nat64_event :=
  match ev with
  | EvFlushSessions => Some EvFlushBibs
  | EvRmPrefix4 prefix ports => Some (EvRmBibs4 prefix ports)
  | _ => None
  end.

(** No packet that waits for a simultaneous open belongs to a session with a
    BIB entry that the event flushes. *)
Definition none_waiting (ev : nat64_event) (s : fworld) : Prop :=
  forall n b, n ∈ node_list (w_queue (f_world s)) -> se_bib (pn_session n) = Some b -> flushes ev b = false.

(** The fuel of a timer: as many iterations as its queue is long. *)
Definition timer_fuel (proto : l4_protocol) (k : timer_kind) (db : session_db) : nat :=
  match sess_get_table proto db with
  | Some t => length (et_sessions (get_timer k t))
  | None => 0
  end.

Definition handle (ev : nat64_event) : M fworld unit :=
  match ev with
  | EvPacket pkt tup => filtering_and_updating c pkt tup;; mret tt
  | EvOutTuple tup => compute_out_tuple c tup;; mret tt
  | EvTimer proto k =>
      s ← get; on_db (in_table proto (fire_timer (c_env c) (timer_fuel proto k (f_db s)) k))
  | EvPktQueueTimer => on_db (off_tables (pq_cleaner_timer (c_env c)))
  | EvAddStatic a4 a6 proto => add_static_route c a4 a6 proto;; mret tt
  | EvRmStatic a6 a4 proto => delete_static_route a6 a4 proto;; mret tt
  | EvFlushSessions => on_db sessiondb_flush
  | EvRmPrefix4 prefix ports => on_db (sessiondb_delete_taddr4s prefix ports)
  | EvRmPrefix6 prefix => on_db (sessiondb_delete_taddr6s prefix)
  | EvUpdateTimers => on_db (sessiondb_update_timers (c_env c))
  | EvFlushBibs => on_b bibdb_flush
  | EvRmBibs4 prefix ports => on_b (bibdb_delete_taddr4s prefix ports)
  end.

Lemma owned_inv db s : owned [] [] db s -> nat64_inv s.
Proof. intros Ho. pose proof Ho as (E & _). unfold nat64_inv. rewrite E. done. Qed.

Lemma triple_then {A} (P : fworld -> Prop) (m : M fworld A) Q :
  triple P m Q -> (forall a s, Q a s -> nat64_inv s) -> triple P (m;; mret tt) (fun _ => nat64_inv).
Proof. intros Hm HQ. eapply triple_bind; [exact Hm|]. intros a. apply triple_ret. apply HQ. Qed.

(** The sessions the purge of an event takes. *)
Definition purged_by (ev : nat64_event) (x : session_entry) : Prop :=
  match ev with
  | EvFlushSessions => True
  | EvRmPrefix4 prefix ports => in_request prefix ports (local4 x) = true
  | EvRmPrefix6 prefix => prefix6_contains prefix (l3_6 (local6 x)) = true
  | _ => False
  end.

Definition is_purge (ev : nat64_event) : bool :=
  match ev with EvFlushSessions | EvRmPrefix4 _ _ | EvRmPrefix6 _ => true | _ => false end.

Lemma purge_run ev s :
  event_ok ev -> is_purge ev = true -> nat64_inv s ->
  exists dw', handle ev s = Some (tt, (dw', snd s)) /\
    db_purged (refs_in bib_loc []) (refs_in se_loc []) (fun _ => purged_by ev) (fst s) dw'.
Proof.
  intros Hok Hp Hs. destruct s as [dw eph]. pose proof Hs as (_ & Hi & _). cbn [fst snd] in *.
  assert (Hgo : exists m p1 p2 p3, purger m (purged_by ev) /\
    [p1; p2; p3] ≡ₚ [L4PROTO_TCP; L4PROTO_UDP; L4PROTO_ICMP] /\
    handle ev = on_db (in_table p1 m;; in_table p2 m;; in_table p3 m)).
  { destruct ev as [| | | | | | |prefix ports|prefix| | |]; try done; cbn [event_ok] in Hok.
    - exists sessiontable_flush, L4PROTO_UDP, L4PROTO_TCP, L4PROTO_ICMP. split; [apply flush_purger|].
      split; [solve_Permutation|done].
    - exists (sessiontable_delete_taddr4s prefix ports), L4PROTO_TCP, L4PROTO_ICMP, L4PROTO_UDP.
      split; [apply delete_taddr4s_purger; tauto|]. split; [solve_Permutation|done].
    - exists (sessiontable_delete_taddr6s prefix), L4PROTO_TCP, L4PROTO_ICMP, L4PROTO_UDP.
      split; [apply delete_taddr6s_purger; tauto|]. split; [solve_Permutation|done]. }
  destruct Hgo as (m & p1 & p2 & p3 & Hm & Hps & ->).
  destruct (purge_all m _ p1 p2 p3 _ _ dw Hm Hps Hi) as (dw' & Hrun & Hpd).
  exists dw'. split; [apply on_db_run; exact Hrun|exact Hpd].
Qed.

Lemma purge_triple ev :
  event_ok ev -> is_purge ev = true -> triple nat64_inv (handle ev) (fun _ => nat64_inv).
Proof.
  intros Hok Hp [[db w] eph] Hs. destruct (purge_run ev _ Hok Hp Hs) as (dw' & Hrun & Hpd).
  exists tt, (dw', eph). split; [exact Hrun|]. apply (owned_inv (fst dw')). eapply owned_purged; [exact Hs|exact Hpd].
Qed.

Lemma owned_same_entries db w w' db' eph :
  owned [] [] db ((db, w), eph) -> sessiondb_inv (refs_in bib_loc []) (refs_in se_loc []) (db', w') ->
  (forall p x, x ∈ db_entries p db' -> x ∈ db_entries p db) -> nat64_inv ((db', w'), eph).
Proof.
  intros (_ & _ & _ & _ & HA) Hi Hent. split; [done|]. split; [exact Hi|]. split; [|split].
  - intros b Hb. inversion Hb.
  - intros x Hx. inversion Hx.
  - intros p x Hx. apply (HA p), Hent. done.
Qed.

Lemma timer_triple proto k :
  proto = L4PROTO_TCP \/ (k = EST_TIMER /\ proto <> L4PROTO_OTHER) ->
  triple nat64_inv (s ← get; on_db (in_table proto (fire_timer (c_env c) (timer_fuel proto k (f_db s)) k)))
    (fun _ => nat64_inv).
Proof.
  intros Hk [[db w] eph] Hs. pose proof Hs as (_ & Hi & _). cbn [fst] in Hi.
  destruct (sess_get_table proto db) as [t|] eqn:Hg; [|destruct proto, Hk as [?|[_ ?]]; done].
  assert (Hf : exists timeout cb, proto_fns proto k = (Some timeout, Some cb)).
  { destruct proto, k, Hk as [?|[? ?]]; simpl; try done; eauto. }
  destruct Hf as (timeout & cb & Hf).
  destruct (db_fire_spec (c_env c) _ _ db w proto t k (timer_fuel proto k db) timeout cb Hi Hg Hf)
    as (gone & rest & t' & w' & _ & Hrun & Hi' & _ & _ & _ & Hsub & _).
  { unfold timer_fuel. rewrite Hg. lia. }
  exists tt, ((sess_put_table proto t' db, w'), eph). split; [apply (on_db_run _ _ _ _ _ Hrun)|].
  eapply owned_same_entries; [exact Hs | exact Hi' |]. intros p x. rewrite (db_entries_put _ t) by done.
  case_decide as Hd; [|done]. subst p. rewrite (db_entries_get _ _ _ Hg). auto.
Qed.

(** A flush of the BIB, if it is safe. *)
Lemma flush_bibs_triple m ev (sel : bib_entry -> Prop) :
  (forall refs db, bib_db_inv refs db -> flushable (flushes ev) refs db ->
     exists db', m db = Some (tt, db') /\ bib_db_inv refs db' /\ bib_flushed sel db db') ->
  (forall b, sel b <-> flushes ev b = true) ->
  triple (fun s => nat64_inv s /\ event_safe ev s) (on_b m) (fun _ => nat64_inv).
Proof.
  intros Hm Hsel [[db w] eph] [Hs Hsafe]. pose proof (owned_bibs _ _ _ _ _ Hs) as Hb.
  unfold event_safe, f_bib, f_store, f_world in Hsafe. cbn [fst snd] in Hsafe.
  destruct (Hm _ _ Hb) as (bib' & Hrun & Hi' & A1 & A2).
  { intros b Hin Hf Hst. rewrite (Hsafe b Hin Hf Hst), refs_in_nil. done. }
  exists tt, ((db, with_bib w bib'), eph). split; [apply on_b_run; exact Hrun|].
  apply (owned_inv db). eapply owned_with_bib; [exact Hs|exact Hi'| |].
  - intros b Hx. inversion Hx.
  - intros loc x v b Hl Eb. pose proof (owned_used _ _ _ _ _ _ _ _ _ Hs Hl Eb) as Hin. apply A1. split; [done|].
    intros [Hf Hst]. apply Hsel in Hf. pose proof (held_zero _ _ _ _ (Hsafe b Hin Hf Hst) Hl) as Hh.
    unfold holds in Hh. cbn [fst] in Hh. rewrite Eb, Pos.eqb_refl in Hh. done.
Qed.

(** Deleting the sessions of a request on pool4 makes its flush safe, but for
    the packets that wait. *)
Lemma purge_makes_safe ev next s s' :
  event_ok ev -> then_flush ev = Some next -> nat64_inv s -> none_waiting next s ->
  handle ev s = Some (tt, s') -> event_safe next s'.
Proof.
  intros Hok Hn Hs Hq Hrun. assert (Hp : is_purge ev = true) by (destruct ev; done).
  destruct (purge_run ev s Hok Hp Hs) as ([db' w'] & Hrun' & Hpd). rewrite Hrun in Hrun'. injection Hrun' as ->.
  destruct s as [[db w] eph]. cbn [fst snd] in *.
  pose proof (owned_purged [] _ _ _ _ _ Hs Hpd) as Hs'. cbn [fst] in Hs'.
  destruct Hpd as (_ & Hent & Eq & _). cbn [fst snd] in Hent, Eq.
  intros b Hb Hf Hst. unfold f_store, f_bib, f_world in *. cbn [fst snd] in *. apply held_none. intros loc x v b' Hl Eb E.
  pose proof (owned_used _ _ _ _ _ _ _ _ _ Hs' Hl Eb) as Hb'.
  assert (Ebb : b' = b) by (eapply bib_loc_inj; [apply (owned_bibs _ _ _ _ _ Hs')|done..]). subst b'.
  pose proof Hs' as (_ & ((Hst' & _ & _ & Hlive) & _) & _ & _ & HA). destruct Hst' as (_ & _ & Hh). cbn [fst snd] in *.
  specialize (Hh loc). rewrite Hl in Hh. destruct Hh as (El & _ & _ & Hpos & _). rewrite refs_in_nil in Hpos.
  assert (Hno : (forall p y, y ∈ db_entries p db' -> se_loc y <> loc) /\
                (forall n, n ∈ node_list (w_queue w') -> se_loc (pn_session n) <> loc)).
  { split.
    - intros p y Hy Ey. destruct (owned_entry_live _ _ _ _ _ _ _ Hs' Hy) as [vy Hvy]. unfold live in Hvy. rewrite Ey, Hl in Hvy. injection Hvy as <- _.
      pose proof (HA p x Hy) as Hag. unfold agrees in Hag. rewrite Eb in Hag. destruct Hag as (E4 & _). apply Hent in Hy as [_ Hy]. apply Hy.
      destruct ev; simplify_eq/=; [done|]. rewrite E4. exact Hf.
    - intros n Hnn En. destruct (Hlive n Hnn) as [vn Hvn]. unfold live in Hvn. rewrite En, Hl in Hvn. injection Hvn as Ex _. rewrite Eq in Hnn.
      rewrite Ex in Eb. rewrite (Hq n b Hnn Eb) in Hf. done. }
  destruct Hno as [H1 H2]. rewrite (refs_in_none _ _ _ H2 : queue_refs _ _ = 0) in Hpos.
  assert (H0 : db_refs db' loc = 0); [|lia]. unfold db_refs, table_refs.
  rewrite !refs_in_none; [done|..]; intros y Hy; [apply (H1 L4PROTO_ICMP)|apply (H1 L4PROTO_TCP)|apply (H1 L4PROTO_UDP)]; exact Hy.
Qed.

Lemma handle_triple ev : event_ok ev -> triple (fun s => nat64_inv s /\ event_safe ev s) (handle ev) (fun _ => nat64_inv).
Proof.
  assert (Hweak : forall m : M fworld unit, triple nat64_inv m (fun _ => nat64_inv) -> triple (fun s => nat64_inv s /\ event_safe ev s) m (fun _ => nat64_inv))
    by (intros m Hm; eapply triple_weaken; [exact Hm|intros s [Hs _]; exact Hs|done]).
  destruct ev as [pkt tup|tup|proto k| |a4 a6 proto|a6 a4 proto| |prefix ports|prefix| | |prefix ports]; simpl; intros Hok;
    [apply Hweak..| |].
  - intros s Hs. apply (triple_then _ _ _ (filtering_triple (f_db s) pkt tup Hok)); [|exact Hs].
    intros v s' (db' & Ho & _). eapply owned_inv. exact Ho.
  - intros s Hs. apply (triple_then _ _ _ (compute_out_triple (f_db s) tup Hok)); [|exact Hs].
    intros v s' [Ho _]. eapply owned_inv. exact Ho.
  - apply timer_triple. done.
  - intros [[db w] eph] Hs. pose proof Hs as (_ & Hi & _). cbn [fst] in Hi.
    destruct (db_clean_spec (c_env c) _ _ db w Hi) as (w' & Hrun & Hi').
    exists tt, ((db, w'), eph). split; [apply on_db_run; done|]. eapply owned_same_entries; done.
  - intros s Hs. apply (triple_then _ _ _ (add_static_route_triple c (ok_pool4 c Hc) (f_db s) a4 a6 proto (proj1 Hok) (proj2 Hok)));
      [|exact Hs]. intros v s' [Ho _]. eapply owned_inv. exact Ho.
  - intros s Hs. apply (triple_then _ _ _ (delete_static_route_triple (f_db s) a6 a4 proto (proj1 Hok) (proj2 Hok)));
      [|exact Hs]. intros v s' (db' & Ho & _). eapply owned_inv. exact Ho.
  - apply (purge_triple EvFlushSessions); done.
  - apply (purge_triple (EvRmPrefix4 prefix ports)); done.
  - apply (purge_triple (EvRmPrefix6 prefix)); done.
  - intros [[db w] eph] Hs. pose proof Hs as (_ & Hi & _). cbn [fst] in Hi.
    destruct (sessiondb_update_timers_spec (c_env c) _ _ db w Hi) as (db' & Hrun & Hi' & He).
    exists tt, ((db', w), eph). split; [apply on_db_run; done|]. eapply owned_same_entries; [exact Hs|exact Hi'|].
    intros p x. rewrite He. done.
  - apply (flush_bibs_triple _ EvFlushBibs (fun _ => True)); [|done]. intros refs db Hi Hf. apply bibdb_flush_spec; done.
  - apply (flush_bibs_triple _ (EvRmBibs4 prefix ports) (fun b => in_request prefix ports (bib_ipv4 b) = true)); [|done].
    intros refs db Hi Hf. apply bibdb_delete_taddr4s_spec; tauto.
Qed.

End Filter.

(** ** Reachable states *)

(** Whether memory is available may change at any time. *)
Definition set_memory (bib sess pq : allocs) (s : fworld) : fworld :=
  let '((db, w), eph) := s in
  let b := st_bib (w_store w) in
  let h := st_sess (w_store w) in
  let q := w_queue w in
  ((db, World (Store (bib_put_heap (BibHeap (bib_vars_of (bibs b)) (bib_next (bibs b)) bib) b)
                     (SessionHeap (sessions_of h) (se_next h) sess))
              (PktQueue (node_list q) (node_tree q) (node_count q) (pq_timer q) (pn_next q) pq)
              (w_out w)), eph).

Definition init_world (q : pkt_queue) : world := World (Store bibdb_init (SessionHeap ∅ 1 [])) q [].

Inductive nat64_reachable {R : RbTree} : fworld -> Prop :=
| reach_init caches db q eph :
    sessiondb_init caches expired_cb expired_cb = Ok (db, q) -> nat64_reachable ((db, init_world q), eph)
| reach_memory bib sess pq s : nat64_reachable s -> nat64_reachable (set_memory bib sess pq s)
| reach_event c ev s s' :
    nat64_reachable s -> config_ok c -> event_ok ev -> event_safe ev s ->
    handle c ev s = Some (tt, s') -> nat64_reachable s'.

Lemma empty_table_inv p timeout1 cb1 timeout2 cb2 :
  proto_fns p EST_TIMER = (timeout1, cb1) -> proto_fns p TRANS_TIMER = (timeout2, cb2) ->
  session_table_inv p (proto_fns p) (sessiontable_init timeout1 cb1 timeout2 cb2).
Proof.
  intros E1 E2. unfold session_table_inv, s_entries. simpl. split_and!; try done; try constructor.
  - destruct k; simpl; [rewrite E1|rewrite E2]; done.
  - destruct k; simpl; [rewrite E1|rewrite E2]; done.
Qed.

Lemma init_inv caches db q eph :
  sessiondb_init caches expired_cb expired_cb = Ok (db, q) -> nat64_inv ((db, init_world q), eph).
Proof.
  unfold sessiondb_init. destruct (kmalloc caches) as [[] al]; [|done]. intros [= <- <-].
  assert (Hnil : forall p, db_entries p (SessionDb (sessiontable_init (Some ttl_udp) (Some just_die) None None)
             (sessiontable_init (Some ttl_tcpest) (Some expired_cb) (Some ttl_tcptrans) (Some expired_cb))
             (sessiontable_init (Some ttl_icmp) (Some just_die) None None)) = []) by (intros []; done).
  set (db := SessionDb _ _ _) in *. split; [done|]. split; [|split; [|split]].
  - split; [|split]; cbn [fst snd].
    + split; [|split; [|split]].
      * split; [|split; [done|]].
        -- eapply bib_db_inv_ext; [apply bibdb_init_inv|]. intros b Hb. inversion Hb.
        -- intros loc. simpl. rewrite lookup_empty. done.
      * intros l. pose proof (db_refs_nonneg db l). pose proof (refs_in_nonneg se_loc [] l). lia.
      * unfold queue_inv. simpl. split_and!; try done; constructor.
      * intros n Hn. inversion Hn.
    + intros l. apply refs_in_nonneg.
    + intros p t Hg. split; [|split].
      * destruct p; simpl in Hg; injection Hg as <- || done; apply empty_table_inv; done.
      * intros k x Hx. destruct p, k; simpl in Hg; (injection Hg as <- || done); inversion Hx.
      * intros k Hk. destruct p, k; simpl in Hg; (injection Hg as <- || done); done.
  - intros b Hb. inversion Hb.
  - intros x Hx. inversion Hx.
  - intros p x. change (f_db ((db, init_world pktqueue_init), eph)) with db. rewrite Hnil. intros Hx. inversion Hx.
Qed.

Lemma set_memory_inv bib sess pq s : nat64_inv s -> nat64_inv (set_memory bib sess pq s).
Proof.
  destruct s as [[db w] eph]. intros (E & ((Hst & Hs & Hq & Hn) & Hs' & Ht) & HB & HS & HA).
  split; [done|]. split; [|done]. split; [|done]. split; [|done]. exact Hst.
Qed.

Lemma reachable_inv {R : RbTree} {L : RbTreeLaws R} s : nat64_reachable s -> nat64_inv s.
Proof.
  induction 1 as [caches db q eph Hi|bib sess pq s _ IH|c ev s s' _ IH Hc Hok Hsafe Hrun].
  - eapply init_inv. exact Hi.
  - apply set_memory_inv. exact IH.
  - destruct (handle_triple c Hc ev Hok s (conj IH Hsafe)) as ([] & s1 & Hrun' & Hi). congruence.
Qed.
