(* ===== verification/Guarantees.v ===== *)
(** * What the stateful translator guarantees

    The properties of the whole, over the states [nat64_reachable]: nothing a
    packet, a timer or a request does faults or leaks, the two sides of a
    connection are mapped one to one, and what belongs to a known connection
    goes through and finds its way back. *)
From S2P Require Import Prelude Types Address Rfc6052 Pool6 Pool4Table Pool4Db RbTree BibTable BibDb PortAlloc.
From S2P Require Import Packet SessionEntry PktQueue SessionTable Tcp SessionSpec SessionDb Filtering FilteringSpec StaticRoutes Nat64.

(** ** Reading the invariant *)

Lemma inv_table s p x :
  nat64_inv s -> x ∈ db_entries p (f_db s) ->
  exists t k v, sess_get_table p (f_db s) = Some t /\ session_table_inv p (proto_fns p) t /\ x ∈ s_entries t /\
    x ∈ et_sessions (get_timer k t) /\ live (f_store s) x v /\ expirer v = Some k /\ proto_ok p k (state v) /\
    is_Some (timer (get_timer k t)).
Proof.
  intros (_ & (_ & _ & Ht) & _) Hx. unfold db_entries in Hx.
  destruct (sess_get_table p (f_db s)) as [t|] eqn:Hg; [|inversion Hx].
  destruct (Ht p t Hg) as (I & Q & A). pose proof Hx as Hx'. apply (in_queues _ _ t x I) in Hx' as [k Hk].
  destruct (Q k x Hk) as (v & Hv & He & Ho). exists t, k, v. split_and!; try done.
  apply A. intros E. rewrite E in Hk. inversion Hk.
Qed.

Lemma inv_bibs s :
  nat64_inv s -> bib_db_inv (fun l => refs_in bib_loc [] l + held (sessions_of (st_sess (f_store s))) l) (f_bib s).
Proof. destruct s as [[db w] eph]. apply owned_bibs. Qed.

(** A stored session has a BIB entry, with which it shares its addresses. *)
Lemma inv_bib s p x :
  nat64_inv s -> x ∈ db_entries p (f_db s) ->
  exists b, se_bib x = Some b /\ b ∈ bib_of_proto p (f_bib s) /\ local4 x = bib_ipv4 b /\ remote6 x = bib_ipv6 b.
Proof.
  intros Hi Hx. pose proof Hi as (_ & _ & _ & _ & HA). specialize (HA p x Hx). unfold agrees in HA.
  destruct (se_bib x) as [b|] eqn:Eb; [|done]. destruct HA as (E4 & E6 & Ep & _).
  destruct (inv_table s p x Hi Hx) as (t & k & v & _ & I & Hxt & _ & Hv & _).
  destruct (entry_wf _ _ t x I Hxt) as [_ Exp]. exists b. split; [done|]. split; [|done].
  rewrite <- Exp, <- Ep. apply (bib_all_of_proto _ _ _ (inv_bibs s Hi)).
  destruct s as [[db w] eph]. exact (owned_used _ _ _ _ _ _ _ _ _ Hi Hv Eb).
Qed.

(** The two ends of a stored echo session use the same identifier. *)
Lemma inv_ids s x : nat64_inv s -> x ∈ db_entries L4PROTO_ICMP (f_db s) ->
  l4_4 (local4 x) = l4_4 (remote4 x) /\ l4_6 (local6 x) = l4_6 (remote6 x).
Proof.
  intros Hi Hx. pose proof Hi as (_ & _ & _ & _ & HA). specialize (HA _ x Hx). unfold agrees in HA.
  destruct (se_bib x) as [b|]; [|done]. destruct HA as (_ & _ & _ & Hid). apply Hid.
  destruct (inv_table s _ x Hi Hx) as (t & _ & _ & _ & I & Hxt & _). apply (entry_wf _ _ t x I Hxt).
Qed.

Lemma bib_unique refs db p b b' :
  bib_db_inv refs db -> b ∈ bib_of_proto p db -> b' ∈ bib_of_proto p db ->
  bib_ipv6 b = bib_ipv6 b' \/ bib_ipv4 b = bib_ipv4 b' -> b = b'.
Proof.
  intros Hi Hb Hb' Heq. destruct (bib_of_proto_inv _ _ _ _ Hi Hb) as (_ & W4 & W6).
  unfold bib_of_proto in *. destruct (bib_get_table p db) as [t|] eqn:Hg; [|inversion Hb].
  assert (It : bib_table_inv p t).
  { destruct Hi as (I1 & I2 & I3 & _). destruct p; simpl in Hg; injection Hg as <- || done; done. }
  destruct Heq as [E|E].
  - pose proof (proj2 (find_by_addr6_iff p t _ b It W6) (conj Hb eq_refl)) as F.
    rewrite E in W6, F. pose proof (proj2 (find_by_addr6_iff p t _ b' It W6) (conj Hb' eq_refl)). congruence.
  - pose proof (proj2 (find_by_addr4_iff p t _ b It W4) (conj Hb eq_refl)) as F.
    rewrite E in W4, F. pose proof (proj2 (find_by_addr4_iff p t _ b' It W4) (conj Hb' eq_refl)). congruence.
Qed.

Lemma session_unique s p tup x y :
  nat64_inv s -> wf_tuple tup -> x ∈ db_entries p (f_db s) -> y ∈ db_entries p (f_db s) ->
  matches tup x -> matches tup y -> x = y.
Proof.
  intros Hi Hw Hx Hy Mx My. destruct (inv_table s p x Hi Hx) as (t & _ & _ & Hg & I & Hxt & _).
  rewrite (db_entries_get _ _ _ Hg) in Hy.
  pose proof (proj2 (sessiontable_find_iff _ _ t tup x I Hw) (conj Hxt Mx)).
  pose proof (proj2 (sessiontable_find_iff _ _ t tup y I Hw) (conj Hy My)). congruence.
Qed.

(** ** Packets of known connections *)

(** The pools and the configuration want the packet translated. *)
Definition eligible (c : config) (pkt : packet) (tup : tuple) : Prop :=
  match tup with
  | Tuple6 _ _ proto =>
      (exists p, pool6_contains (Some (pkt_saddr6 pkt)) (c_pool6 c) = Some (false, p)) /\
      (exists p, pool6_contains (Some (pkt_daddr6 pkt)) (c_pool6 c) = Some (true, p)) /\
      (proto = L4PROTO_ICMP -> filter_icmpv6_info c = false)
  | Tuple4 _ dst proto => pool4db_contains (c_netdevs c) (c_pool4 c) proto dst = Some true
  end.

Section Pass.
Context {R : RbTree} {L : RbTreeLaws R} (c : config) (Hc : config_ok c).

Lemma owned_nat64 B S db s : owned B S db s -> B = [] -> S = [] -> nat64_inv s.
Proof. intros Ho -> ->. eapply owned_inv. exact Ho. Qed.

(** [CONTINUE], with the same sessions as before. *)
Definition passed (db : session_db) (v : verdict) (s : fworld) : Prop :=
  v = VERDICT_CONTINUE /\ exists db', owned [] [] db' s /\ forall p y, y ∈ db_entries p db' <-> y ∈ db_entries p db.

Lemma known_bib db tup s :
  owned [] [] db s -> has_session tup db ->
  exists b, b ∈ bib_of_proto (l4_proto tup) (f_bib s) /\ bib_matches tup b.
Proof.
  intros Ho (x & Hx & Hm). pose proof Ho as (Edb & _). pose proof (owned_inv _ _ Ho) as Hi.
  rewrite <- Edb in Hx. destruct (inv_bib s _ x Hi Hx) as (b & _ & Hb & E4 & E6). exists b. split; [done|].
  destruct tup; destruct Hm as [M1 M2]; simpl; congruence.
Qed.

(** The lookup of the BIB entry of a known connection succeeds. *)
Lemma known_bib_triple db tup :
  wf_tuple tup -> has_session tup db ->
  triple (owned [] [] db) (on_b (bibdb_get tup))
    (fun r s => exists b, r = Ok b /\ owned [b] [] db s).
Proof.
  intros Hw Hs s Ho. destruct (bib_get_triple [] [] db tup Hw s Ho) as (r & s' & Hrun & Hpost).
  exists r, s'. split; [done|]. destruct r as [b|err]; [exists b; tauto|]. destruct Hpost as [Ho' Hno].
  destruct (known_bib db tup s' Ho' Hs) as (b & Hb & Hm). destruct Hno as [(_ & _ & Hno)|[_ E]].
  - destruct (Hno b Hb Hm).
  - rewrite E in Hb. inversion Hb.
Qed.

Lemma known_session_triple B db tup cb :
  wf_tuple tup -> has_session tup db -> cb_ok (proto_ok (l4_proto tup)) cb -> cb_stays (c_env c) (l4_proto tup) cb ->
  triple (owned B [] db) (on_db (sessiondb_get (c_env c) tup (Some cb)))
    (fun r s => exists x db', r = Ok x /\ owned B [x] db' s /\ forall p y, y ∈ db_entries p db' <-> y ∈ db_entries p db).
Proof.
  intros Hw (x0 & Hx0 & Hm0) Hcb Hst s Ho.
  destruct (session_get_triple (c_env c) B [] db tup cb Hw Hcb Hst s Ho) as (r & s' & Hrun & Hpost).
  exists r, s'. split; [done|]. destruct r as [x|err].
  - destruct Hpost as (db' & H1 & H2 & _). eauto.
  - destruct Hpost as [_ [(_ & _ & Hno)|[_ E]]]; [destruct (Hno x0 Hx0 Hm0)|].
    rewrite E in Hx0. inversion Hx0.
Qed.

Lemma known_simple_session db pkt tup b :
  wf_tuple tup -> l4_proto tup <> L4PROTO_TCP -> has_session tup db ->
  triple (owned [b] [] db) (simple_session c pkt tup b) (passed db).
Proof.
  intros Hw Htcp Hs. unfold simple_session.
  apply (triple_bind _ _ _ (fun r s => exists x db', r = Done x /\ owned [b] [x] db' s /\
    forall p y, y ∈ db_entries p db' <-> y ∈ db_entries p db)).
  - unfold get_or_create_session.
    eapply triple_bind; [apply known_session_triple; [done..|apply update_timer_ok; done|apply update_timer_stays]|].
    intros r s (x & db' & -> & Ho & Hent). exists (Done x), s. split; [done|]. eauto.
  - intros r. apply triple_exists. intros x. apply triple_exists. intros db'.
    eapply (triple_get (owned [b] [x] db') (r = Done x /\ forall p y, y ∈ db_entries p db' <-> y ∈ db_entries p db));
      [tauto|]. intros [-> Hent].
    eapply triple_bind; [apply session_return_triple|]. intros dead.
    eapply triple_bind; [apply bib_return_triple|]. intros []. apply triple_ret. intros s Ho. split; [done|]. eauto.
Qed.

Lemma known_simple db pkt tup :
  wf_tuple tup -> l4_proto tup <> L4PROTO_TCP -> has_session tup db ->
  triple (owned [] [] db) (simple c pkt tup) (passed db).
Proof.
  intros Hw Htcp Hs. destruct tup as [src dst proto|src dst proto]; simpl.
  - unfold ipv4_simple.
    apply (triple_bind _ _ _ (fun r s => exists b, r = Ok b /\ owned [b] [] db s)).
    + unfold get_bib4. eapply triple_bind; [apply (known_bib_triple db (Tuple4 src dst proto)); done|].
      intros r s (b & -> & Ho). pose proof Ho as (Edb & Hi & _). cbn in Hs.
      assert (Hall : sessiondb_allow src dst proto (f_db s) = true).
      { rewrite Edb. destruct Hs as (x & Hx & M4 & Mr).
        unfold sessiondb_allow, db_entries in *. cbn [l4_proto] in Hx.
        destruct (sess_get_table proto db) as [t|] eqn:Hg; [|inversion Hx].
        destruct Hi as (_ & _ & Ht). change (fst (fst s)) with (f_db s) in Ht. rewrite Edb in Ht.
        destruct (Ht _ _ Hg) as (I & _). apply (sessiontable_allow_iff _ _ t src dst I); [apply Hw..|].
        exists x. rewrite Mr. done. }
      exists (Ok b), s. split; [|eauto]. rewrite (bind_run _ _ _ _ _ (eq_refl : get s = Some (s, s))).
      unfold f_db, dbworld in Hall. rewrite Hall, andb_false_r. done.
    + intros r s (b & -> & Ho). apply (known_simple_session db pkt (Tuple4 src dst proto) b); done.
  - unfold ipv6_simple.
    apply (triple_bind _ _ _ (fun r s => exists b, r = Done b /\ owned [b] [] db s)).
    + unfold get_or_create_bib6. eapply triple_bind; [apply (known_bib_triple db (Tuple6 src dst proto)); done|].
      intros r s (b & -> & Ho). exists (Done b), s. split; [done|]. eauto.
    + intros r s (b & -> & Ho). apply (known_simple_session db pkt (Tuple6 src dst proto) b); done.
Qed.

Lemma known_tcp db pkt tup :
  wf_tuple tup -> l4_proto tup = L4PROTO_TCP -> has_session tup db ->
  triple (owned [] [] db) (tcp c pkt tup) (passed db).
Proof.
  intros Hw Htcp Hs. unfold tcp.
  eapply triple_bind; [apply known_session_triple; rewrite ?Htcp;
    [done..|apply tcp_state_machine_ok|apply tcp_state_machine_stays]|].
  intros r s (x & db' & -> & Ho & Hent).
  destruct (session_return_triple [] [] db' x s Ho) as (dead & s' & Hrun & Ho').
  exists VERDICT_CONTINUE, s'. split; [rewrite (bind_run _ _ _ _ _ Hrun); done|]. split; [done|]. eauto.
Qed.

Lemma known_update_state db pkt tup :
  tuple_of pkt tup -> eligible c pkt tup -> is_icmp_error pkt tup = false -> has_session tup db ->
  triple (owned [] [] db) (update_state c pkt tup) (passed db).
Proof.
  intros (Hw & H3 & H4) Hel Hne Hs. specialize (H4 Hne). unfold update_state. rewrite H4.
  destruct (l4_proto tup) eqn:Ep.
  - apply known_tcp; done.
  - apply known_simple; [done|congruence|done].
  - replace (bool_decide (pkt_l3_proto pkt = L3PROTO_IPV6) && filter_icmpv6_info c) with false;
      [apply known_simple; [done|congruence|done]|].
    destruct tup; cbn in *; rewrite H3; cbn; [done|]. destruct Hel as (_ & _ & ->); done.
  - destruct Hs as (x & Hx & _). rewrite Ep in Hx. inversion Hx.
Qed.

Lemma known_filtering db pkt tup :
  tuple_of pkt tup -> eligible c pkt tup -> is_icmp_error pkt tup = true \/ has_session tup db ->
  triple (owned [] [] db) (filtering_and_updating c pkt tup) (passed db).
Proof.
  intros Ht Hel Hs. unfold filtering_and_updating.
  assert (Hgo : triple (owned [] [] db) (if is_icmp_error pkt tup then mret VERDICT_CONTINUE else update_state c pkt tup)
                  (passed db)).
  { destruct (is_icmp_error pkt tup) eqn:Ei.
    - apply triple_ret. intros s Ho. split; [done|]. exists db. done.
    - destruct Hs as [?|Hs]; [done|]. apply known_update_state; done. }
  destruct tup as [src dst proto|src dst proto]; cbn [eligible is_icmp_error] in *.
  - rewrite Hel. exact Hgo.
  - destruct Hel as ((p1 & E1) & (p2 & E2) & _).
    intros s Ho. destruct (Hgo s Ho) as (v & s' & Hrun & Hp). exists v, s'. split; [|done].
    rewrite (bind_run _ _ _ false s); [|unfold ask_pool6; rewrite E1; done].
    rewrite (bind_run _ _ _ true s); [|unfold ask_pool6; rewrite E2; done]. exact Hrun.
Qed.

End Pass.

(** ** A scene *)

(** A translator with the well-known prefix and one IPv4 address, and the SYN
    of 2001:db8::5 to 198.51.100.2. *)
Definition scene_cfg : config :=
  Config (Env 1000 10 20 30 40 6 10 (fun _ => true)) (Some [wkp]) palloc_pool [] (fun _ => None) parity_hash
    (fun _ _ _ => (0, 0)) false false false.

Definition scene_tuple : tuple :=
  Tuple6 (TAddr6 (In6Addr (0x20010db8 * 2 ^ 96 + 5)) 6000) (TAddr6 (In6Addr (0x64ff9b * 2 ^ 96 + 0xc6336402)) 80)
    L4PROTO_TCP.

Definition scene_pkt : packet :=
  Packet 1 1 L3PROTO_IPV6 L4PROTO_TCP 0 (In6Addr (0x20010db8 * 2 ^ 96 + 5)) (In6Addr (0x64ff9b * 2 ^ 96 + 0xc6336402))
    true false false 0.

Definition scene_start : fworld :=
  match sessiondb_init [] expired_cb expired_cb with
  | Ok (db, q) => ((db, init_world q), 0)
  | Err _ => ((SessionDb (sessiontable_init None None None None) (sessiontable_init None None None None)
                 (sessiontable_init None None None None), init_world pktqueue_init), 0)
  end.

#[local] Existing Instances plain_rbtree plain_rbtree_laws.

(** The state once the event has been handled. *)
Definition after (ev : nat64_event) (s : fworld) : fworld :=
  match handle scene_cfg ev s with Some (_, s') => s' | None => s end.

Definition scene_open : fworld := after (EvPacket scene_pkt scene_tuple) scene_start.

Ltac wf_compute := vm_compute; repeat split; congruence.

Lemma scene_cfg_ok : config_ok scene_cfg.
Proof.
  split.
  - apply parity_hash_law.
  - apply palloc_pool_inv.
  - intros mark proto daddr ta (t & Ht & Hta). unfold find_table in Ht. cbn [db scene_cfg c_pool4 palloc_pool] in Ht.
    case_match eqn:Hs; [|done]. injection Ht as Ht.
    destruct (slot_of _ _ mark) as [|[|i]]; simplify_eq/=. repeat case_match; simplify_eq.
    unfold pool4table_contains in Hta. cbn [existsb pt_rows pa_addr pa_ports] in Hta. rewrite !orb_false_r in Hta.
    apply andb_prop in Hta as [Ha Hp]. apply addr4_equals_iff in Ha. unfold port_range_contains in Hp. simpl in Hp.
    destruct ta as [a p]. simpl in *. subst a. apply andb_prop in Hp as [H1 H2].
    unfold wf_taddr4, wf_addr4, is_u32, is_u16. simpl. lia.
  - exists [wkp]. split; [done|]. constructor; [|constructor]. split; [done|]. split; [apply wkp_wf|]. vm_compute. done.
Qed.

Lemma scene_tuple_of : tuple_of scene_pkt scene_tuple.
Proof. split; [wf_compute|]. split; done. Qed.

Lemma scene_start_reachable : nat64_reachable scene_start.
Proof. apply (reach_init [] _ pktqueue_init 0). reflexivity. Qed.

Lemma after_reachable pkt tup s :
  nat64_reachable s -> event_ok (EvPacket pkt tup) -> is_Some (handle scene_cfg (EvPacket pkt tup) s) ->
  nat64_reachable (after (EvPacket pkt tup) s).
Proof.
  intros Hs He [[[] s'] Hrun]. unfold after. rewrite Hrun.
  eapply reach_event; [exact Hs|apply scene_cfg_ok|exact He|apply event_safe_packet|exact Hrun].
Qed.

Lemma scene_open_reachable : nat64_reachable scene_open.
Proof.
  apply after_reachable; [apply scene_start_reachable|apply scene_tuple_of|]. vm_compute. eauto.
Qed.

(** The same endpoint talks to another port. *)
Definition scene_tuple2 : tuple :=
  Tuple6 (TAddr6 (In6Addr (0x20010db8 * 2 ^ 96 + 5)) 6000) (TAddr6 (In6Addr (0x64ff9b * 2 ^ 96 + 0xc6336402)) 443)
    L4PROTO_TCP.

Definition scene_two : fworld := after (EvPacket scene_pkt scene_tuple2) scene_open.

Lemma scene_two_reachable : nat64_reachable scene_two.
Proof.
  apply after_reachable; [apply scene_open_reachable| |vm_compute; eauto]. split; [wf_compute|]. split; done.
Qed.

Lemma scene_two_sessions :
  exists x y, db_entries L4PROTO_TCP (f_db scene_two) = [x; y] /\ x <> y /\ remote6 x = remote6 y /\
    matches scene_tuple x.
Proof. eexists _, _. split; [vm_compute; reflexivity|]. split; [congruence|]. split; vm_compute; done. Qed.

Lemma scene_known : has_session scene_tuple (f_db scene_two).
Proof.
  destruct scene_two_sessions as (x & y & E & _ & _ & Hm). exists x. split; [|done].
  change (l4_proto scene_tuple) with L4PROTO_TCP. rewrite E. left.
Qed.

Lemma scene_eligible : eligible scene_cfg scene_pkt scene_tuple.
Proof. split; [eexists; vm_compute; reflexivity|]. split; [eexists; vm_compute; reflexivity|done]. Qed.

#[local] Opaque scene_start scene_open scene_two.

(** ** The guarantees *)

(** C1: whatever has happened so far, every packet, timer, lookup and request
    of the user is handled to the end: no reference to a freed BIB entry,
    session or stored packet is followed, no counter of references underflows
    and no loop runs out.  Memory may run out and the configuration may
    change between any two events.  The events are those of [nat64_event]
    with arguments of their types (valid prefixes and ordered port ranges);
    the tuple of a packet is its own.  A request to remove or flush pool4
    that is not a quick one is two events, the deletion of its sessions and
    then the flush of its BIB entries, and the second one is covered only if
    no session, stored or waiting, uses a static BIB entry of the request:
    [__flush] takes the fake user of a static entry away and leaves the entry
    static.  The theorem also says that the first event leaves a state in
    which the second one is covered, unless a packet that waits for a
    simultaneous open belongs to such an entry ([flush_under_waiting_packet]
    shows the fault then). *)
Theorem nat64_handles_all {R : RbTree} {L : RbTreeLaws R} s c ev
    (Hs : nat64_reachable s) (Hc : config_ok c) (He : event_ok ev) (Hsafe : event_safe ev s) :
  exists s', handle c ev s = Some (tt, s') /\ nat64_reachable s' /\
    forall next, then_flush ev = Some next -> none_waiting next s -> event_safe next s'.
Proof.
  pose proof (reachable_inv s Hs) as Hi.
  destruct (handle_triple c Hc ev He s (conj Hi Hsafe)) as ([] & s' & Hrun & _).
  exists s'. split; [done|]. split; [eapply reach_event; done|].
  intros next Hn Hq. eapply purge_makes_safe; done.
Qed.

Lemma nat64_handles_all_witness :
  exists s', handle scene_cfg (EvPacket scene_pkt scene_tuple) scene_open = Some (tt, s') /\ nat64_reachable s'.
Proof.
  destruct (nat64_handles_all scene_open scene_cfg (EvPacket scene_pkt scene_tuple) scene_open_reachable scene_cfg_ok
    scene_tuple_of (event_safe_packet _ _ _)) as (s' & Hrun & Hs' & _). exists s'. split; [exact Hrun|exact Hs'].
Defined.

(** What a flush does under a packet that waits.  A static BIB entry, a SYN
    from the IPv4 side that has to wait because of address-dependent
    filtering, and pool4 flushed twice: the second flush frees the entry the
    waiting packet's session uses, and when the packet's time is over the
    session gives back a freed entry. *)
Definition waiting_cfg (now : Z) : config :=
  Config (Env now 10 20 30 40 6 10 (fun _ => true)) (Some [wkp]) palloc_pool [] (fun _ => None) parity_hash
    (fun _ _ _ => (0, 0)) true false false.

Definition waiting_pkt : packet :=
  Packet 1 1 L3PROTO_IPV4 L4PROTO_TCP 0 (In6Addr 0) (In6Addr 0) true false false 0.

Definition waiting_tuple : tuple :=
  Tuple4 (TAddr4 (InAddr 0xc6336402) 80) (TAddr4 (InAddr 0xc0000201) 81) L4PROTO_TCP.

Definition waiting_events : list (Z * nat64_event) :=
  [(1000, EvAddStatic (TAddr4 (InAddr 0xc0000201) 81) (TAddr6 (In6Addr 7) 22) L4PROTO_TCP);
   (1001, EvPacket waiting_pkt waiting_tuple); (1002, EvFlushSessions); (1002, EvFlushBibs);
   (1003, EvFlushSessions); (1003, EvFlushBibs)].

Definition handle_at (s : option fworld) (ev : Z * nat64_event) : option fworld :=
  s ← s; '(_, s') ← handle (waiting_cfg (fst ev)) (snd ev) s; Some s'.

Lemma flush_under_waiting_packet :
  exists s, foldl handle_at (Some scene_start) waiting_events = Some s /\
    (exists n b, node_list (w_queue (f_world s)) = [n] /\ se_bib (pn_session n) = Some b /\
       bib_vars_of (bibs (f_bib s)) !! bib_loc b = None) /\
    handle (waiting_cfg 2000) EvPktQueueTimer s = None.
Proof.
  eexists. split; [vm_compute; reflexivity|]. split; [|vm_compute; reflexivity].
  eexists _, _. split; [reflexivity|]. split; [reflexivity|]. vm_compute. reflexivity.
Qed.

(** C17: between two events the counter of every allocated session is the
    number of tables and stored packets that refer to it, of which there is
    at least one, so none leaks; and the counter of every BIB entry is the
    number of allocated sessions that use it, plus one if it is static.  The
    events are those of [nat64_event], also the flushes of the BIB that a removal or a
    flush of pool4 makes, as long as no session uses a static entry they
    flush ([event_safe]); a flush under such a session breaks the second
    equation ([flush_under_waiting_packet]). *)
Theorem nat64_counts_references {R : RbTree} {L : RbTreeLaws R} s
    (Hs : nat64_reachable s) :
  (forall loc x v, sessions_of (st_sess (f_store s)) !! loc = Some (x, v) ->
     se_refcounter v = db_refs (f_db s) loc + queue_refs (node_list (w_queue (f_world s))) loc /\
     0 < se_refcounter v) /\
  (forall b, b ∈ bib_all (f_bib s) ->
     exists v, bib_vars_of (bibs (f_bib s)) !! bib_loc b = Some v /\
       bib_refcounter v = held (sessions_of (st_sess (f_store s))) (bib_loc b) + Z.b2z (is_static v) /\
       0 < bib_refcounter v).
Proof.
  apply reachable_inv in Hs. destruct s as [[db w] eph]. split.
  - intros loc x v Hl. destruct (owned_store _ _ _ _ _ Hs) as (_ & _ & H). specialize (H loc).
    change (f_store (db, w, eph)) with (w_store w) in Hl. cbn beta in H. rewrite Hl in H. destruct H as (_ & _ & -> & Hpos & _). rewrite refs_in_nil in *. split; [|done]. cbn. lia.
  - intros b Hb. pose proof (owned_bibs _ _ _ _ _ Hs) as (_ & _ & _ & _ & H & _).
    destruct (H b Hb) as (v & Hv & _ & Hr & Hpos). exists v. rewrite refs_in_nil in Hr. done.
Qed.

Lemma nat64_counts_references_witness :
  length (bib_all (f_bib scene_open)) = 1%nat /\
  forall b, b ∈ bib_all (f_bib scene_open) ->
     exists v, bib_vars_of (bibs (f_bib scene_open)) !! bib_loc b = Some v /\
       bib_refcounter v = held (sessions_of (st_sess (f_store scene_open))) (bib_loc b) + Z.b2z (is_static v) /\
       0 < bib_refcounter v.
Proof. split; [vm_compute; reflexivity|]. apply (nat64_counts_references scene_open scene_open_reachable). Defined.



(** C18: a stored TCP session is always waiting for its own timer: it is in the
    established queue in the states ESTABLISHED, V4_FIN_RCV and V6_FIN_RCV
    and in the transitory queue in the others, never in CLOSED, and the
    timer of the queue is pending. *)
Theorem tcp_sessions_expire {R : RbTree} {L : RbTreeLaws R} s x
    (Hs : nat64_reachable s) (Hx : x ∈ db_entries L4PROTO_TCP (f_db s)) :
  exists k v, live (f_store s) x v /\ state v <> CLOSED /\
    x ∈ et_sessions (get_timer k (session_table_tcp (f_db s))) /\
    is_Some (timer (get_timer k (session_table_tcp (f_db s)))) /\
    (k = EST_TIMER <-> state v = ESTABLISHED \/ state v = V4_FIN_RCV \/ state v = V6_FIN_RCV).
Proof.
  apply reachable_inv in Hs. destruct (inv_table s _ x Hs Hx) as (t & k & v & [= <-] & _ & _ & Hk & Hv & _ & Hok & Ha).
  exists k, v. split; [done|]. cbn in Hok. destruct (state v); simpl in Hok; subst; split_and!; try done;
    split; solve [done | auto | intros [?|[?|?]]; done].
Qed.

Lemma tcp_sessions_expire_witness :
  exists x k v, live (f_store scene_two) x v /\ state v <> CLOSED /\
    x ∈ et_sessions (get_timer k (session_table_tcp (f_db scene_two))).
Proof.
  destruct scene_two_sessions as (x & y & E & _).
  destruct (tcp_sessions_expire scene_two x scene_two_reachable) as (k & v & H1 & H2 & H3 & _);
    [rewrite E; left|]. exists x, k, v. exact (conj H1 (conj H2 H3)).
Defined.

(** C5: what filtering and updating does with a packet, whatever the memory
    available.  It returns a verdict and leaves the databases consistent; the
    sessions there were are still there and the only new one, if any, is the
    packet's.  It lets the packet continue only if it is an ICMP error (and
    then nothing changes), if its session now exists (a new one for a packet
    from the IPv4 side only if the filtering policies let it), or if it is a
    TCP segment other than a SYN, whose session does not exist, but the BIB
    already had an entry for it (nothing is created then, and no policy is
    asked). *)
Theorem filtering_correct {R : RbTree} {L : RbTreeLaws R} c pkt tup s
    (Hc : config_ok c) (Ht : tuple_of pkt tup) (Hs : nat64_inv s) :
  exists v s', filtering_and_updating c pkt tup s = Some (v, s') /\ nat64_inv s' /\ grows tup (f_db s) (f_db s') /\
    (v = VERDICT_CONTINUE -> filtered c pkt tup (f_db s) (f_db s') /\
       (is_icmp_error pkt tup = true \/ has_session tup (f_db s') \/
        l4_proto tup = L4PROTO_TCP /\ pkt_syn pkt = false /\ f_db s' = f_db s /\ has_bib tup (f_bib s))).
Proof.
  destruct (filtering_triple c Hc (f_db s) pkt tup Ht s Hs) as (v & s' & Hrun & db' & Ho & Hg & Hv).
  exists v, s'. pose proof Ho as (-> & _). split; [done|]. split; [eapply owned_inv; exact Ho|]. split; [done|].
  intros Ev. split; [auto|]. specialize (Hv Ev). unfold filtered in Hv.
  destruct (is_icmp_error pkt tup) eqn:Ei; [auto|]. right. destruct (l4_proto tup) eqn:Ep; [|left; apply Hv..|done].
  destruct Hv as [[Hh _]|[Esyn Edb]]; [left; exact Hh|].
  destruct (filtering_needs_bib c Hc (f_db s) (f_bib s) pkt tup Ht Ei Ep Esyn s (conj Hs eq_refl)) as (v2 & s2 & Hrun2 & Hb).
  rewrite Hrun in Hrun2. injection Hrun2 as -> ->. destruct (Hb Ev) as [H|H]; [left; rewrite Edb; exact H|right; done].
Qed.

Lemma filtering_correct_witness :
  exists s', filtering_and_updating scene_cfg scene_pkt scene_tuple scene_start = Some (VERDICT_CONTINUE, s') /\
    nat64_inv s' /\ has_session scene_tuple (f_db s').
Proof.
  destruct (filtering_correct scene_cfg scene_pkt scene_tuple scene_start scene_cfg_ok scene_tuple_of
    (reachable_inv _ scene_start_reachable)) as (v & s' & Hrun & Hi & _ & Hv).
  assert (v = VERDICT_CONTINUE) as ->.
  { apply (f_equal (option_map fst)) in Hrun. vm_compute in Hrun. congruence. }
  exists s'. split; [exact Hrun|]. split; [exact Hi|]. destruct (Hv eq_refl) as [_ [E|[H|(_ & E & _)]]]; [vm_compute in E; discriminate E|exact H|vm_compute in E; discriminate E].
Defined.

(** A packet of a connection that has a session, and any ICMP error, that
    the pools recognise and the policies do not exclude goes through, with
    or without memory: the verdict is [CONTINUE] and the tables hold the same
    sessions. *)
Lemma known_connection_passes {R : RbTree} {L : RbTreeLaws R} c pkt tup s
    (Hc : config_ok c) (Ht : tuple_of pkt tup) (Hs : nat64_inv s) (Hel : eligible c pkt tup)
    (Hk : is_icmp_error pkt tup = true \/ has_session tup (f_db s)) :
  exists s', filtering_and_updating c pkt tup s = Some (VERDICT_CONTINUE, s') /\ nat64_inv s' /\
    forall p y, y ∈ db_entries p (f_db s') <-> y ∈ db_entries p (f_db s).
Proof.
  destruct (known_filtering c (f_db s) pkt tup Ht Hel Hk s Hs) as (v & s' & Hrun & -> & db' & Ho & Hent).
  exists s'. pose proof Ho as (-> & _). split; [done|]. split; [eapply owned_inv; exact Ho|done].
Qed.

Lemma compute_out_finds {R : RbTree} {L : RbTreeLaws R} c tup s x :
  wf_tuple tup -> nat64_inv s -> x ∈ db_entries (l4_proto tup) (f_db s) -> matches tup x ->
  exists s', compute_out_tuple c tup s = Some ((VERDICT_CONTINUE, Some (out_tuple_of x tup)), s') /\
    nat64_inv s' /\ f_db s' = f_db s.
Proof.
  intros Hw Hs Hx Hm. destruct (compute_out_triple c (f_db s) tup Hw s Hs) as ([v out] & s' & Hrun & Ho & Hv).
  pose proof (owned_inv _ _ Ho) as Hi. destruct Ho as (Edb & _).
  destruct v; try (destruct Hv as (_ & _ & Hno); destruct (Hno x Hx Hm)).
  destruct Hv as (y & Hy & Hm' & ->). rewrite (session_unique s _ tup x y Hs Hw Hx Hy Hm Hm'). eauto.
Qed.

(** The answer to what leaves by a session belongs to it, and leaves as the
    answer to what came. *)
Lemma out_tuple_reply s tup x :
  nat64_inv s -> x ∈ db_entries (l4_proto tup) (f_db s) -> matches tup x -> let out := out_tuple_of x tup in
  wf_tuple (reply out) /\ l4_proto (reply out) = l4_proto tup /\ matches (reply out) x /\
    out_tuple_of x (reply out) = reply tup /\ l3_proto out <> l3_proto tup /\ l4_proto out = l4_proto tup.
Proof.
  intros Hs Hx Hm. destruct (inv_table s _ x Hs Hx) as (t & _ & _ & _ & I & Hxt & _).
  destruct (entry_wf _ _ t x I Hxt) as [(W1 & W2 & W3 & W4) _].
  assert (Hid : l4_proto tup = L4PROTO_ICMP -> l4_4 (local4 x) = l4_4 (remote4 x) /\ l4_6 (local6 x) = l4_6 (remote6 x))
    by (intros E; rewrite E in Hx; exact (inv_ids s x Hs Hx)).
  destruct tup; destruct Hm as [<- <-]; simpl in *; split_and!; try done; intros E; destruct (Hid E); done.
Qed.

(** C9: the outgoing tuple of a packet that has a session is found, and the
    answer to what is sent with it is translated to the answer of the
    packet: whatever is sent to the other side comes back to where it came
    from. *)
Theorem compute_out_tuple_roundtrip {R : RbTree} {L : RbTreeLaws R} c tup s
    (Hw : wf_tuple tup) (Hs : nat64_inv s) (Hk : has_session tup (f_db s)) :
  exists out s1 s2, compute_out_tuple c tup s = Some ((VERDICT_CONTINUE, Some out), s1) /\
    nat64_inv s1 /\ l3_proto out <> l3_proto tup /\ l4_proto out = l4_proto tup /\ has_session (reply out) (f_db s1) /\
    compute_out_tuple c (reply out) s1 = Some ((VERDICT_CONTINUE, Some (reply tup)), s2) /\ nat64_inv s2.
Proof.
  destruct Hk as (x & Hx & Hm). destruct (compute_out_finds c tup s x Hw Hs Hx Hm) as (s1 & R1 & I1 & E1).
  destruct (out_tuple_reply s tup x Hs Hx Hm) as (Wo & Ep & Mo & Eo & E3 & E4). set (out := out_tuple_of x tup) in *.
  destruct (compute_out_finds c (reply out) s1 x Wo I1) as (s2 & R2 & I2 & _); [rewrite E1, Ep; done|done|].
  rewrite Eo in R2. exists out, s1, s2. split_and!; try done. exists x. rewrite E1, Ep. done.
Qed.

Lemma compute_out_tuple_roundtrip_witness :
  exists out s1 s2, compute_out_tuple scene_cfg scene_tuple scene_two = Some ((VERDICT_CONTINUE, Some out), s1) /\
    out = Tuple4 (TAddr4 (InAddr 0xc0000201) 80) (TAddr4 (InAddr 0xc6336402) 80) L4PROTO_TCP /\
    compute_out_tuple scene_cfg (reply out) s1 = Some ((VERDICT_CONTINUE, Some (reply scene_tuple)), s2).
Proof.
  destruct (compute_out_tuple_roundtrip scene_cfg scene_tuple scene_two ltac:(wf_compute)
    (reachable_inv _ scene_two_reachable) scene_known) as (out & s1 & s2 & R1 & _ & _ & _ & _ & R2 & _).
  exists out, s1, s2. split; [exact R1|]. split; [|exact R2].
  apply (f_equal (option_map (fun r => snd (fst r)))) in R1. vm_compute in R1. congruence.
Defined.

(** ** Requests of the user *)

(** C37: [add_static_route] keeps the databases consistent and the sessions as
    they were.  A transport address that is not in pool4 is refused
    ([EINVAL]).  On success the protocol's BIB has an entry with the two
    addresses, it is the only one with either of them, and it is static, so
    that it has a reference besides those of its sessions. *)
Theorem add_static_route_correct {R : RbTree} {L : RbTreeLaws R} c addr4 addr6 proto s
    (Hc : config_ok c) (Hs : nat64_inv s) (W4 : wf_taddr4 addr4) (W6 : wf_taddr6 addr6) :
  exists r s', add_static_route c addr4 addr6 proto s = Some (r, s') /\ nat64_inv s' /\ f_db s' = f_db s /\
    (pool4db_contains (c_netdevs c) (c_pool4 c) proto addr4 = Some false -> r = Err EINVAL /\ s' = s) /\
    (r = Ok tt -> exists b v, b ∈ bib_of_proto proto (f_bib s') /\ bib_ipv4 b = addr4 /\ bib_ipv6 b = addr6 /\
       bib_vars_of (bibs (f_bib s')) !! bib_loc b = Some v /\ is_static v = true /\
       (forall b', b' ∈ bib_of_proto proto (f_bib s') -> bib_ipv4 b' = addr4 \/ bib_ipv6 b' = addr6 -> b' = b)).
Proof.
  destruct (add_static_route_triple c (ok_pool4 c Hc) (f_db s) addr4 addr6 proto W4 W6 s Hs) as (r & s' & Hrun & Ho & Hok).
  pose proof (owned_inv _ _ Ho) as Hi. exists r, s'. split; [done|]. split; [done|]. split; [apply Ho|]. split.
  - intros Hno. unfold add_static_route in Hrun. rewrite Hno in Hrun. injection Hrun as <- <-. done.
  - intros ->. destruct (Hok eq_refl) as (_ & b & v & Hb & E4 & E6 & Hv & Hst). exists b, v. split_and!; try done.
    intros b' Hb' E. apply (bib_unique _ _ proto b' b (inv_bibs s' Hi) Hb' Hb). rewrite E4, E6. tauto.
Qed.

Lemma add_static_route_correct_witness :
  exists s', add_static_route scene_cfg (TAddr4 (InAddr 0xc0000201) 81) (TAddr6 (In6Addr 7) 22) L4PROTO_TCP scene_start
    = Some (Ok tt, s') /\ nat64_inv s'.
Proof.
  destruct (add_static_route_correct scene_cfg (TAddr4 (InAddr 0xc0000201) 81) (TAddr6 (In6Addr 7) 22) L4PROTO_TCP
    scene_start scene_cfg_ok (reachable_inv _ scene_start_reachable) ltac:(wf_compute) ltac:(wf_compute))
    as (r & s' & Hrun & Hi & _).
  assert (r = Ok tt) as ->.
  { apply (f_equal (option_map fst)) in Hrun. vm_compute in Hrun. congruence. }
  exists s'. split; [exact Hrun|exact Hi].
Defined.

(** [delete_static_route] keeps the databases consistent.  On success
    there was a BIB entry of the protocol with the addresses of the request,
    and exactly the sessions of the protocol with the entry's IPv4 transport
    address are gone; on failure no session is. *)
Lemma delete_static_route_correct {R : RbTree} {L : RbTreeLaws R} addr6 addr4 proto s
    (Hs : nat64_inv s) (W6 : forall a, addr6 = Some a -> wf_taddr6 a) (W4 : forall a, addr4 = Some a -> wf_taddr4 a) :
  exists r s', delete_static_route addr6 addr4 proto s = Some (r, s') /\ nat64_inv s' /\
    match r with
    | Ok _ => exists b, bib_l4_proto b = proto /\
        (forall a, addr6 = Some a -> bib_ipv6 b = a) /\ (forall a, addr4 = Some a -> bib_ipv4 b = a) /\
        forall p x, x ∈ db_entries p (f_db s') <->
          x ∈ db_entries p (f_db s) /\ ~ (p = proto /\ local4 x = bib_ipv4 b)
    | Err _ => f_db s' = f_db s
    end.
Proof.
  destruct (delete_static_route_triple (f_db s) addr6 addr4 proto W6 W4 s Hs) as (r & s' & Hrun & db' & Ho & Hpost).
  exists r, s'. split; [done|]. split; [eapply owned_inv; exact Ho|]. destruct Ho as (-> & _). done.
Qed.

(** The requests that delete sessions delete exactly those they name:
    [sessiondb_flush] all of them, [sessiondb_delete_taddr4s] those whose
    IPv4 address of the pool is in the prefix and whose port is in the range,
    [sessiondb_delete_taddr6s] those whose translated IPv6 address is in the
    prefix; the databases stay consistent, no packet is sent and the packet
    queue is untouched. *)
Lemma session_requests_exact {R : RbTree} {L : RbTreeLaws R} c ev s
    (Hs : nat64_inv s) (Hok : event_ok ev) (Hp : is_purge ev = true) :
  exists s', handle c ev s = Some (tt, s') /\ nat64_inv s' /\
    w_queue (f_world s') = w_queue (f_world s) /\ w_out (f_world s') = w_out (f_world s) /\
    forall p x, x ∈ db_entries p (f_db s') <-> x ∈ db_entries p (f_db s) /\ ~ purged_by ev x.
Proof.
  destruct (purge_run c ev s Hok Hp Hs) as (dw' & Hrun & Hpd). destruct s as [[db w] eph]. cbn [fst snd] in *.
  exists (dw', eph). split; [done|]. split; [apply (owned_inv (fst dw')); eapply owned_purged; done|].
  destruct Hpd as (_ & Hent & Eq & Eo & _). split; [exact Eq|]. split; [exact Eo|]. exact Hent.
Qed.

(** ** Timers *)

(** When an expiration timer fires it runs to the end of its queue and
    leaves the databases consistent: it goes through the sessions that are at
    least as old as the timeout, up to the first that is not, and removes
    exactly those its callback gives up (all of them for UDP and ICMP); every
    other session stays, and what is left in the queue starts with a session
    that has time left. *)
Lemma session_timer_exact {R : RbTree} {L : RbTreeLaws R} c s proto k timeout cb
    (Hs : nat64_inv s) (Hf : proto_fns proto k = (Some timeout, Some cb)) :
  exists t t' s' gone rest, sess_get_table proto (f_db s) = Some t /\
    handle c (EvTimer proto k) s = Some (tt, s') /\ nat64_inv s' /\ f_db s' = sess_put_table proto t' (f_db s) /\
    et_sessions (get_timer k t) = gone ++ rest /\ et_sessions (get_timer k t') = rest /\
    head_waits (c_env c) (timeout (c_env c)) (f_store s) rest /\
    forall x, x ∈ s_entries t' <-> x ∈ s_entries t /\
      ~ (x ∈ gone /\ exists v, live (f_store s) x v /\
           time_before (jiffies (c_env c)) (u64 (update_time v + timeout (c_env c))) = false /\
           fst (cb (c_env c) x v) = FATE_RM).
Proof.
  assert (Hk : proto = L4PROTO_TCP \/ (k = EST_TIMER /\ proto <> L4PROTO_OTHER))
    by (destruct proto, k; simpl in Hf; try done; auto).
  destruct (timer_triple c proto k Hk s Hs) as ([] & s1 & Hrun1 & Hi1).
  destruct s as [[db w] eph]. pose proof Hs as (_ & Hi & _). cbn [fst] in Hi.
  destruct (sess_get_table proto db) as [t|] eqn:Hg; [|destruct proto, Hk as [?|[_ ?]]; done].
  destruct (db_fire_spec (c_env c) _ _ db w proto t k (timer_fuel proto k db) timeout cb Hi Hg Hf)
    as (gone & rest & t' & w' & El & Hrun & _ & Hgone & Hhead & Erest & Hsub & Hstay).
  { unfold timer_fuel. rewrite Hg. done. }
  assert (Hrun' : handle c (EvTimer proto k) ((db, w), eph) = Some (tt, ((sess_put_table proto t' db, w'), eph)))
    by (apply (on_db_run _ _ _ _ _ Hrun)).
  exists t, t', ((sess_put_table proto t' db, w'), eph), gone, rest. split_and!; try done.
  - pose proof (eq_trans (eq_sym Hrun1) Hrun') as E. injection E as <-. exact Hi1.
  - intros x. split.
    + intros Hx. split; [auto|]. intros [Hg' (v & Hv & _ & Hrm)]. destruct (Hgone x Hg') as (v' & Hv' & _ & Hiff).
      pose proof (live_fun _ _ _ _ Hv Hv') as <-. apply Hiff in Hrm. done.
    + intros [Hx Hn]. destruct (decide (x ∈ gone)) as [Hin|Hin]; [|auto].
      destruct (Hgone x Hin) as (v & Hv & Hb & Hiff). destruct (decide (x ∈ s_entries t')) as [|Hno]; [done|].
      destruct Hn. split; [done|]. exists v. split; [done|]. split; [done|]. apply Hiff. done.
Qed.

(** The clock of the scene, 30 jiffies later. *)
Definition scene_later : config :=
  Config (Env 1030 10 20 30 40 6 10 (fun _ => true)) (Some [wkp]) palloc_pool [] (fun _ => None) parity_hash
    (fun _ _ _ => (0, 0)) false false false.

