(* ===== verification/Skb.v ===== *)
(** * Socket buffers

    [mod/common/packet.c]: the validation every packet goes through before it
    is translated ([pkt_init_ipv6], [pkt_init_ipv4]), on the bytes of the
    packet; and [mod/common/ipv6_hdr_iterator.c], the walk over IPv6
    extension headers the rest of the code uses.

    A buffer has [sk_len] bytes, of which only the first [sk_headlen] are in
    memory that pointers reach: [skb_header_pointer] reads any of them, a
    plain pointer only the latter, and [pskb_may_pull] moves bytes from the
    rest.  Reading outside is a fault.  Offsets are relative to [skb->data],
    where the network header is ([skb_network_offset] is zero). *)
From S2P Require Import Prelude Types Packet RbTree BibTable BibDb SessionEntry PktQueue.

(** ** Bytes *)

Abbreviation bytes := (list Z) (only parsing).

Definition ld8 (b : bytes) (i : Z) : option Z := if 0 <=? i then b !! Z.to_nat i else None.

(** A big-endian number of [n] bytes. *)
Fixpoint ldn (n : nat) (b : bytes) (i : Z) : option Z :=
  match n with
  | O => Some 0
  | S n => x ← ld8 b i; y ← ldn n b (i + 1); Some (x * 2 ^ (8 * Z.of_nat n) + y)
  end.

(** A 16-bit field as a little-endian machine loads it. *)
Definition raw16 (b : bytes) (i : Z) : option Z := x ← ldn 2 b i; Some (cpu_to_be16 x).

Definition blen (b : bytes) : Z := Z.of_nat (length b).

(** ** Buffers *)

Record sk_buff : Type := SkBuff {
  sk_id : Z;
  sk_bytes : bytes;
  sk_headlen : Z;
  sk_shared : bool
}.

Definition sk_len (skb : sk_buff) : Z := blen (sk_bytes skb).
Definition sk_head (skb : sk_buff) : bytes := take (Z.to_nat (sk_headlen skb)) (sk_bytes skb).

(** The buffer, the allocations to come and what has been counted. *)
Record sk_state : Type := SkState {
  st_skb : sk_buff;
  st_allocs : allocs;
  st_events : list event
}.

(** A load through a plain pointer. *)
Definition direct (f : bytes -> option Z) : M sk_state Z := fun s =>
  match f (sk_head (st_skb s)) with
  | Some x => Some (x, s)
  | None => None
  end.

(** [skb_header_pointer]: a view of [len] bytes. *)
Definition skb_hdr_ptr (offset len : Z) : M sk_state (option bytes) := fun s =>
  let b := sk_bytes (st_skb s) in
  Some (if (0 <=? offset) && (offset + len <=? blen b)
        then Some (take (Z.to_nat len) (drop (Z.to_nat offset) b)) else None, s).

Definition pskb_may_pull (len : Z) : M sk_state bool := fun s =>
  let skb := st_skb s in
  if len <=? sk_headlen skb then Some (true, s)
  else if sk_len skb <? len then Some (false, s)
  else
    let '(ok, al) := kmalloc (st_allocs s) in
    Some (ok, if ok then SkState (SkBuff (sk_id skb) (sk_bytes skb) len (sk_shared skb)) al (st_events s)
              else SkState skb al (st_events s)).

Definition inc_stats_skb (f : ipstats) : M sk_state unit := fun s =>
  Some (tt, SkState (st_skb s) (st_allocs s) (EvStat (sk_id (st_skb s)) f :: st_events s)).

(** [truncated6] and [truncated4]; [inhdr6] and [inhdr4]. *)
Definition truncated {A} : M sk_state (result A) :=
  inc_stats_skb IPSTATS_MIB_INTRUNCATEDPKTS;; mret (Err EINVAL).
Definition inhdr {A} : M sk_state (result A) :=
  inc_stats_skb IPSTATS_MIB_INHDRERRORS;; mret (Err EINVAL).

(** Errors of a subroutine are returned. *)
Definition try_ {A B} (m : M sk_state (result A)) (f : A -> M sk_state (result B)) : M sk_state (result B) :=
  r ← m; match r with Ok a => f a | Err e => mret (Err e) end.

Notation "x <-? m ; f" := (try_ m (fun x => f)) (at level 100, m at next level, right associativity).

(** ** Headers *)

Definition NEXTHDR_HOP : Z := 0.
Definition NEXTHDR_ROUTING : Z := 43.
Definition NEXTHDR_FRAGMENT : Z := 44.
Definition NEXTHDR_DEST : Z := 60.
Definition IPPROTO_ICMP : Z := 1.
Definition IPPROTO_TCP : Z := 6.
Definition IPPROTO_UDP : Z := 17.

Definition is_opt_hdr (nexthdr : Z) : bool :=
  (nexthdr =? NEXTHDR_HOP) || (nexthdr =? NEXTHDR_ROUTING) || (nexthdr =? NEXTHDR_DEST).

(** [doff << 2], of a TCP header. *)
Definition tcp_hdr_len (b : bytes) (i : Z) : option Z :=
  x ← ld8 b (i + 12); Some (Z.shiftl (Z.shiftr x 4) 2).

(** [ihl << 2], of an IPv4 header. *)
Definition ip4_hdr_len (b : bytes) (i : Z) : option Z :=
  x ← ld8 b i; Some (Z.shiftl (Z.land x 0xF) 2).

(** [frag_offset] is meaningful only with a fragment header. *)
Record pkt_metadata : Type := Meta {
  frag_offset : option Z;
  meta_l4_proto : l4_protocol;
  l4_offset : Z;
  payload_offset : Z
}.

(** The body of the loop of [summarize_skb6]. *)
Fixpoint summarize6_loop (fuel : nat) (nexthdr offset : Z) (is_first : bool) (frag : option Z)
    : M sk_state (result pkt_metadata) :=
  match fuel with
  | O => fault
  | S fuel =>
      if nexthdr =? NEXTHDR_TCP then
        if is_first then
          ptr ← skb_hdr_ptr offset 20;
          match ptr with
          | None => truncated
          | Some hdr => len ← load (tcp_hdr_len hdr 0); mret (Ok (Meta frag L4PROTO_TCP offset (offset + len)))
          end
        else mret (Ok (Meta frag L4PROTO_TCP offset offset))
      else if nexthdr =? NEXTHDR_UDP then
        mret (Ok (Meta frag L4PROTO_UDP offset (if is_first then offset + 8 else offset)))
      else if nexthdr =? NEXTHDR_ICMP then
        mret (Ok (Meta frag L4PROTO_ICMP offset (if is_first then offset + 8 else offset)))
      else if nexthdr =? NEXTHDR_FRAGMENT then
        ptr ← skb_hdr_ptr offset 8;
        match ptr with
        | None => truncated
        | Some hdr =>
            frag_off ← load (raw16 hdr 2);
            next ← load (ld8 hdr 0);
            summarize6_loop fuel next (offset + 8) (is_first_frag6 (Some frag_off)) (Some offset)
        end
      else if is_opt_hdr nexthdr then
        ptr ← skb_hdr_ptr offset 2;
        match ptr with
        | None => truncated
        | Some hdr =>
            hdrlen ← load (ld8 hdr 1);
            next ← load (ld8 hdr 0);
            summarize6_loop fuel next (offset + (8 + 8 * hdrlen)) is_first frag
        end
      else mret (Ok (Meta frag L4PROTO_OTHER offset offset))
  end.

(** As many iterations as the packet has bytes. *)
Definition summarize_skb6 (hdr6_offset : Z) : M sk_state (result pkt_metadata) :=
  nexthdr ← direct (fun b => ld8 b (hdr6_offset + 6));
  s ← get;
  summarize6_loop (S (length (sk_bytes (st_skb s)))) nexthdr (hdr6_offset + 40) true None.

Definition has_inner_pkt4 (icmp_type : Z) : bool := is_icmp4_error icmp_type.
Definition has_inner_pkt6 (icmp6_type : Z) : bool := is_icmp6_error icmp6_type.

Definition may_pull (len : Z) : M sk_state (result unit) :=
  ok ← pskb_may_pull len; mret (if ok : bool then Ok tt else Err EINVAL).

Definition validate_inner6 (outer_meta : pkt_metadata) : M sk_state (result unit) :=
  ptr ← skb_hdr_ptr (payload_offset outer_meta) 40;
  match ptr with
  | None => truncated
  | Some ip6 =>
      b0 ← load (ld8 ip6 0);
      if negb (Z.shiftr b0 4 =? 6) then inhdr
      else
        meta <-? summarize_skb6 (payload_offset outer_meta);
        _ <-? match frag_offset meta with
              | None => mret (Ok tt)
              | Some frag_offset =>
                  ptr ← skb_hdr_ptr frag_offset 8;
                  match ptr with
                  | None => truncated
                  | Some frag =>
                      frag_off ← load (raw16 frag 2);
                      if negb (is_first_frag6 (Some frag_off)) then inhdr else mret (Ok tt)
                  end
              end;
        _ <-? (if bool_decide (meta_l4_proto meta = L4PROTO_ICMP) then
                 ptr ← skb_hdr_ptr (l4_offset meta) 8;
                 match ptr with
                 | None => truncated
                 | Some icmp =>
                     type ← load (ld8 icmp 0);
                     if has_inner_pkt6 type then inhdr else mret (Ok tt)
                 end
               else mret (Ok tt));
        may_pull (payload_offset meta)
  end.

Section Init.
Variable siit : bool.  (* [xlat_is_siit()] *)

Definition handle_icmp6 (meta : pkt_metadata) : M sk_state (result unit) :=
  ptr ← skb_hdr_ptr (l4_offset meta) 8;
  match ptr with
  | None => truncated
  | Some icmp =>
      type ← load (ld8 icmp 0);
      _ <-? (if has_inner_pkt6 type then validate_inner6 meta else mret (Ok tt));
      match frag_offset meta with
      | Some frag_offset =>
          if siit && is_icmp6_info type then
            ptr ← skb_hdr_ptr frag_offset 8;
            match ptr with
            | None => truncated
            | Some frag =>
                frag_off ← load (raw16 frag 2);
                mret (if is_fragmented_ipv6 (Some frag_off) then Err EINVAL else Ok tt)
            end
          else mret (Ok tt)
      | None => mret (Ok tt)
      end
  end.

(** What the packet's structure is filled with. *)
Record pkt_layout : Type := Layout {
  lo_l3_proto : l3_protocol;
  lo_meta : pkt_metadata
}.

Definition fail_if_shared : M sk_state (result unit) :=
  s ← get; mret (if sk_shared (st_skb s) then Err EINVAL else Ok tt).

Definition pkt_init_ipv6 : M sk_state (result pkt_layout) :=
  _ <-? fail_if_shared;
  s ← get;
  payload_len ← direct (fun b => ldn 2 b 4);
  if negb (sk_len (st_skb s) =? 40 + payload_len) then inhdr
  else
    meta <-? summarize_skb6 0;
    _ <-? (if bool_decide (meta_l4_proto meta = L4PROTO_ICMP) then handle_icmp6 meta else mret (Ok tt));
    _ <-? may_pull (payload_offset meta);
    mret (Ok (Layout L3PROTO_IPV6 meta)).

Definition validate_inner4 (meta : pkt_metadata) : M sk_state (result unit) :=
  let offset := payload_offset meta in
  ptr ← skb_hdr_ptr offset 20;
  match ptr with
  | None => truncated
  | Some ip4 =>
      b0 ← load (ld8 ip4 0);
      ihl ← load (ip4_hdr_len ip4 0);
      tot_len ← load (ldn 2 ip4 2);
      frag_off ← load (raw16 ip4 6);
      protocol ← load (ld8 ip4 9);
      if negb (Z.shiftr b0 4 =? 4) then inhdr
      else if ihl <? 20 then inhdr
      else if tot_len <? ihl then inhdr
      else if negb (is_first_frag4 frag_off) then inhdr
      else
        let offset := offset + ihl in
        offset <-? (if protocol =? IPPROTO_TCP then
                      ptr ← skb_hdr_ptr offset 20;
                      match ptr with
                      | None => truncated
                      | Some tcp => len ← load (tcp_hdr_len tcp 0); mret (Ok (offset + len))
                      end
                    else if protocol =? IPPROTO_UDP then mret (Ok (offset + 8))
                    else if protocol =? IPPROTO_ICMP then mret (Ok (offset + 8))
                    else mret (Ok offset));
        may_pull offset
  end.

Definition handle_icmp4 (meta : pkt_metadata) : M sk_state (result unit) :=
  ptr ← skb_hdr_ptr (l4_offset meta) 8;
  match ptr with
  | None => truncated
  | Some icmp =>
      type ← load (ld8 icmp 0);
      _ <-? (if has_inner_pkt4 type then validate_inner4 meta else mret (Ok tt));
      if siit && is_icmp4_info type then
        frag_off ← direct (fun b => raw16 b 6);
        mret (if is_fragmented_ipv4 frag_off then Err EINVAL else Ok tt)
      else mret (Ok tt)
  end.

Definition summarize_skb4 : M sk_state (result pkt_metadata) :=
  offset ← direct (fun b => ip4_hdr_len b 0);
  protocol ← direct (fun b => ld8 b 9);
  frag_off ← direct (fun b => raw16 b 6);
  if protocol =? IPPROTO_TCP then
    if is_first_frag4 frag_off then
      ptr ← skb_hdr_ptr offset 20;
      match ptr with
      | None => truncated
      | Some tcp => len ← load (tcp_hdr_len tcp 0); mret (Ok (Meta None L4PROTO_TCP offset (offset + len)))
      end
    else mret (Ok (Meta None L4PROTO_TCP offset offset))
  else if protocol =? IPPROTO_UDP then
    mret (Ok (Meta None L4PROTO_UDP offset (if is_first_frag4 frag_off then offset + 8 else offset)))
  else if protocol =? IPPROTO_ICMP then
    let meta := Meta None L4PROTO_ICMP offset (if is_first_frag4 frag_off then offset + 8 else offset) in
    _ <-? handle_icmp4 meta;
    mret (Ok meta)
  else mret (Ok (Meta None L4PROTO_OTHER offset offset)).

Definition pkt_init_ipv4 : M sk_state (result pkt_layout) :=
  _ <-? fail_if_shared;
  meta <-? summarize_skb4;
  _ <-? may_pull (payload_offset meta);
  mret (Ok (Layout L3PROTO_IPV4 meta)).

End Init.

(** ** mod/common/ipv6_hdr_iterator.c *)

(** [data] is an offset from the start of the buffer. *)
Record hdr_iterator : Type := HdrIterator {
  hdr_type : Z;
  hdr_data : Z
}.

Definition HDR_ITERATOR_INIT (b : bytes) (main_hdr : Z) : option hdr_iterator :=
  nexthdr ← ld8 b (main_hdr + 6); Some (HdrIterator nexthdr (main_hdr + 40)).

(** [None] inside: the iterator cannot advance. *)
Definition hdr_iterator_next (b : bytes) (it : hdr_iterator) : option (option hdr_iterator) :=
  if is_opt_hdr (hdr_type it) then
    next ← ld8 b (hdr_data it);
    hdrlen ← ld8 b (hdr_data it + 1);
    Some (Some (HdrIterator next (hdr_data it + (8 + 8 * hdrlen))))
  else if hdr_type it =? NEXTHDR_FRAGMENT then
    next ← ld8 b (hdr_data it);
    Some (Some (HdrIterator next (hdr_data it + 8)))
  else Some None.

Fixpoint hdr_iterator_last_loop (fuel : nat) (b : bytes) (it : hdr_iterator) : option hdr_iterator :=
  match fuel with
  | O => None
  | S fuel =>
      r ← hdr_iterator_next b it;
      match r with
      | Some it => hdr_iterator_last_loop fuel b it
      | None => Some it
      end
  end.

Definition hdr_iterator_last (b : bytes) (it : hdr_iterator) : option hdr_iterator :=
  hdr_iterator_last_loop (S (length b)) b it.

Fixpoint hdr_iterator_find_loop (fuel : nat) (b : bytes) (it : hdr_iterator) (hdr_id : Z) : option (option Z) :=
  match fuel with
  | O => None
  | S fuel =>
      if hdr_type it =? hdr_id then Some (Some (hdr_data it))
      else
        r ← hdr_iterator_next b it;
        match r with
        | Some it => hdr_iterator_find_loop fuel b it hdr_id
        | None => Some None
        end
  end.

Definition hdr_iterator_find (b : bytes) (ip6_hdr hdr_id : Z) : option (option Z) :=
  it ← HDR_ITERATOR_INIT b ip6_hdr; hdr_iterator_find_loop (S (length b)) b it hdr_id.

(** ** Loads *)

Definition wf_bytes (b : bytes) : Prop := Forall is_u8 b.

Lemma ld8_some b i : 0 <= i < blen b -> exists x, ld8 b i = Some x.
Proof.
  intros H. unfold ld8. destruct (Z.leb_spec 0 i); [|lia].
  destruct (lookup_lt_is_Some_2 b (Z.to_nat i)) as [x Hx]; [unfold blen in H; lia|eauto].
Qed.

Lemma ld8_bound b i x : ld8 b i = Some x -> 0 <= i < blen b.
Proof.
  unfold ld8. destruct (Z.leb_spec 0 i); [|done]. intros Hx. apply lookup_lt_Some in Hx. unfold blen. lia.
Qed.

Lemma ld8_u8 b i x : wf_bytes b -> ld8 b i = Some x -> is_u8 x.
Proof.
  intros Hb. unfold ld8. destruct (0 <=? i); [|done]. intros Hx. exact (Forall_lookup_1 _ _ _ _ Hb Hx).
Qed.

Lemma ldn_some n b : forall i, 0 <= i -> i + Z.of_nat n <= blen b -> exists x, ldn n b i = Some x.
Proof.
  induction n as [|n IH]; intros i H0 H; simpl; [eauto|].
  destruct (ld8_some b i) as [x ->]; [lia|]. destruct (IH (i + 1)) as [y ->]; [lia..|]. simpl. eauto.
Qed.

Lemma ldn_range n b : forall i x, wf_bytes b -> ldn n b i = Some x -> 0 <= x < 2 ^ (8 * Z.of_nat n).
Proof.
  induction n as [|n IH]; intros i x Hb H; simpl in H; [injection H as <-; lia|].
  destruct (ld8 b i) as [y|] eqn:E; simpl in H; [|done].
  destruct (ldn n b (i + 1)) as [z|] eqn:Ez; simpl in H; [|done]. injection H as <-.
  pose proof (ld8_u8 _ _ _ Hb E) as Hy. unfold is_u8 in Hy. pose proof (IH _ _ Hb Ez) as Hz.
  replace (8 * Z.of_nat (S n)) with (8 + 8 * Z.of_nat n) by lia. rewrite Z.pow_add_r by lia. nia.
Qed.

(** Loads from a part of a buffer. *)
Lemma ld8_drop b o i : 0 <= o -> 0 <= i -> ld8 (drop (Z.to_nat o) b) i = ld8 b (o + i).
Proof.
  intros Ho Hi. unfold ld8. destruct (Z.leb_spec 0 i), (Z.leb_spec 0 (o + i)); try lia.
  rewrite lookup_drop. f_equal. lia.
Qed.

Lemma ld8_take b n i : 0 <= i < n -> ld8 (take (Z.to_nat n) b) i = ld8 b i.
Proof.
  intros Hi. unfold ld8. destruct (Z.leb_spec 0 i); [|lia]. apply lookup_take_lt. lia.
Qed.

Lemma ld8_view b o n i : 0 <= o -> 0 <= i < n -> ld8 (take (Z.to_nat n) (drop (Z.to_nat o) b)) i = ld8 b (o + i).
Proof. intros. rewrite ld8_take, ld8_drop by lia. done. Qed.

Lemma ldn_view k b o n : forall i, 0 <= o -> 0 <= i -> i + Z.of_nat k <= n ->
  ldn k (take (Z.to_nat n) (drop (Z.to_nat o) b)) i = ldn k b (o + i).
Proof.
  induction k as [|k IH]; intros i Ho Hi Hk; simpl; [done|]. rewrite ld8_view, IH by lia.
  replace (o + (i + 1)) with (o + i + 1) by lia. done.
Qed.

Lemma ldn_app_l n b c : forall i, 0 <= i -> i + Z.of_nat n <= blen b -> ldn n (b ++ c) i = ldn n b i.
Proof.
  assert (H8 : forall i, 0 <= i < blen b -> ld8 (b ++ c) i = ld8 b i).
  { intros i Hi. unfold ld8. destruct (Z.leb_spec 0 i); [|lia]. apply lookup_app_l. unfold blen in Hi. lia. }
  induction n as [|n IH]; intros i H0 H; simpl; [done|]. rewrite H8, IH by lia. done.
Qed.

Lemma ldn_app_r n b c : forall i, 0 <= i -> ldn n (b ++ c) (blen b + i) = ldn n c i.
Proof.
  induction n as [|n IH]; intros i H0; simpl; [done|].
  replace (blen b + i + 1) with (blen b + (i + 1)) by lia. rewrite IH by lia.
  assert (E : ld8 (b ++ c) (blen b + i) = ld8 c i); [|rewrite E; done].
  unfold ld8, blen. destruct (Z.leb_spec 0 i), (Z.leb_spec 0 (Z.of_nat (length b) + i)); try lia.
  rewrite lookup_app_r by lia. f_equal. lia.
Qed.

(** ** Running on a linear buffer *)

(** The whole packet is within the reach of pointers. *)
Definition linear (skb : sk_buff) : Prop := sk_headlen skb = sk_len skb.

(** From any state with the buffer, [m] returns, the buffer as it was. *)
Definition returns {A} (skb : sk_buff) (m : M sk_state A) (Q : A -> Prop) : Prop :=
  forall s, st_skb s = skb -> exists a s', m s = Some (a, s') /\ st_skb s' = skb /\ Q a.

Section Returns.
Context (skb : sk_buff) (Hlin : linear skb).

Lemma returns_ret {A} (a : A) (Q : A -> Prop) : Q a -> returns skb (mret a) Q.
Proof. intros H s Hs. exists a, s. done. Qed.

Lemma returns_bind {A B} (m : M sk_state A) (f : A -> M sk_state B) Qm Q :
  returns skb m Qm -> (forall a, Qm a -> returns skb (f a) Q) -> returns skb (m ≫= f) Q.
Proof.
  intros Hm Hf s Hs. destruct (Hm s Hs) as (a & s1 & Hrun & Hs1 & Ha).
  destruct (Hf a Ha s1 Hs1) as (b & s2 & Hrun2 & H2). exists b, s2. split; [|done].
  unfold mbind, M_bind. rewrite Hrun. done.
Qed.

Lemma returns_try {A B} (m : M sk_state (result A)) (f : A -> M sk_state (result B)) Qm Q :
  returns skb m (fun r => match r with Ok a => Qm a | Err _ => True end) ->
  (forall e, Q (Err e)) -> (forall a, Qm a -> returns skb (f a) Q) -> returns skb (try_ m f) Q.
Proof.
  intros Hm He Hf. eapply returns_bind; [exact Hm|]. intros [a|e] Ha; [apply Hf; done|apply returns_ret, He].
Qed.

Lemma returns_get (Q : sk_state -> Prop) : (forall s, st_skb s = skb -> Q s) -> returns skb get Q.
Proof. intros H s Hs. exists s, s. auto. Qed.

Lemma sk_head_linear : sk_head skb = sk_bytes skb.
Proof. unfold sk_head. rewrite Hlin. apply take_ge. unfold sk_len, blen. lia. Qed.

Lemma returns_direct (f : bytes -> option Z) (Q : Z -> Prop) :
  (exists x, f (sk_bytes skb) = Some x) -> (forall x, f (sk_bytes skb) = Some x -> Q x) -> returns skb (direct f) Q.
Proof.
  intros [x Hx] H s Hs. exists x, s. unfold direct. rewrite Hs, sk_head_linear, Hx. auto.
Qed.

Lemma returns_loaded (o : option Z) (Q : Z -> Prop) :
  (exists x, o = Some x) -> (forall x, o = Some x -> Q x) -> returns skb (load o) Q.
Proof. intros [x ->] H s Hs. exists x, s. auto. Qed.

Lemma returns_hdr_ptr offset len (Q : option bytes -> Prop) :
  0 <= len ->
  (0 <= offset -> offset + len <= sk_len skb ->
     Q (Some (take (Z.to_nat len) (drop (Z.to_nat offset) (sk_bytes skb))))) ->
  Q None -> returns skb (skb_hdr_ptr offset len) Q.
Proof.
  intros Hl H1 H2 s Hs. eexists _, s. split; [reflexivity|]. split; [done|]. rewrite Hs.
  destruct (Z.leb_spec 0 offset); simpl; [|done]. destruct (Z.leb_spec (offset + len) (blen (sk_bytes skb))); [|done].
  apply H1; [done|]. unfold sk_len. lia.
Qed.

(** A header that is there, or not. *)
Lemma returns_view {B} offset len (f : option bytes -> M sk_state B) Q :
  0 <= len ->
  (0 <= offset -> offset + len <= sk_len skb ->
     returns skb (f (Some (take (Z.to_nat len) (drop (Z.to_nat offset) (sk_bytes skb))))) Q) ->
  returns skb (f None) Q -> returns skb (skb_hdr_ptr offset len ≫= f) Q.
Proof.
  intros Hl H1 H2. eapply returns_bind; [apply (returns_hdr_ptr offset len (fun p => p = None \/
    0 <= offset /\ offset + len <= sk_len skb /\ p = Some (take (Z.to_nat len) (drop (Z.to_nat offset) (sk_bytes skb)))));
    auto|]. intros p [->|(? & ? & ->)]; auto.
Qed.

Lemma returns_load {B} (o : option Z) x (f : Z -> M sk_state B) Q :
  o = Some x -> returns skb (f x) Q -> returns skb (load o ≫= f) Q.
Proof. intros -> H. eapply returns_bind; [apply (returns_loaded _ (fun y => y = x)); [eauto|congruence]|]. intros y ->. done. Qed.

Lemma returns_stats f (Q : unit -> Prop) : Q tt -> returns skb (inc_stats_skb f) Q.
Proof. intros H s Hs. eexists tt, _. split; [reflexivity|]. done. Qed.

Lemma returns_truncated {A} (Q : result A -> Prop) : Q (Err EINVAL) -> returns skb truncated Q.
Proof. intros H. eapply returns_bind; [apply (returns_stats _ (fun _ => True)); done|]. intros _ _. apply returns_ret. done. Qed.

Lemma returns_inhdr {A} (Q : result A -> Prop) : Q (Err EINVAL) -> returns skb inhdr Q.
Proof. intros H. eapply returns_bind; [apply (returns_stats _ (fun _ => True)); done|]. intros _ _. apply returns_ret. done. Qed.

Lemma returns_may_pull len (Q : result unit -> Prop) :
  (len <= sk_len skb -> Q (Ok tt)) -> Q (Err EINVAL) -> returns skb (may_pull len) Q.
Proof.
  intros H1 H2 s Hs. unfold may_pull, pskb_may_pull, mbind, M_bind. rewrite Hs, Hlin.
  destruct (Z.leb_spec len (sk_len skb)).
  - exists (Ok tt), s. auto.
  - destruct (Z.ltb_spec (sk_len skb) len); [|lia]. exists (Err EINVAL), s. auto.
Qed.

End Returns.

(** ** What the validation establishes *)

Lemma raw16_view b o n i : 0 <= o -> 0 <= i -> i + 2 <= n ->
  raw16 (take (Z.to_nat n) (drop (Z.to_nat o) b)) i = raw16 b (o + i).
Proof. intros. unfold raw16. rewrite ldn_view by lia. done. Qed.

Lemma raw16_some b i : 0 <= i -> i + 2 <= blen b -> exists x, raw16 b i = Some x.
Proof. intros H0 H. unfold raw16. destruct (ldn_some 2 b i) as [x ->]; [lia..|]. simpl. eauto. Qed.

Definition l4_of_nexthdr (type : Z) : l4_protocol :=
  if type =? NEXTHDR_TCP then L4PROTO_TCP else if type =? NEXTHDR_UDP then L4PROTO_UDP
  else if type =? NEXTHDR_ICMP then L4PROTO_ICMP else L4PROTO_OTHER.

Definition l4_of_protocol (protocol : Z) : l4_protocol :=
  if protocol =? IPPROTO_TCP then L4PROTO_TCP else if protocol =? IPPROTO_UDP then L4PROTO_UDP
  else if protocol =? IPPROTO_ICMP then L4PROTO_ICMP else L4PROTO_OTHER.

(** Whether the packet, by its last fragment header, has a transport header. *)
Definition first_frag6 (b : bytes) (frag : option Z) : bool :=
  match frag with
  | None => true
  | Some o => match raw16 b (o + 2) with Some f => is_first_frag6 (Some f) | None => false end
  end.

(** The bytes of the transport header that are known to be there. *)
Definition l4_ready (b : bytes) (m : pkt_metadata) : Prop :=
  match meta_l4_proto m with
  | L4PROTO_TCP => l4_offset m + 20 <= blen b
  | L4PROTO_UDP | L4PROTO_ICMP => payload_offset m = l4_offset m + 8
  | L4PROTO_OTHER => True
  end.

(** The fragment header is before the offset. *)
Definition frag_room (frag : option Z) (offset : Z) : Prop := forall o, frag = Some o -> 0 <= o /\ o + 8 <= offset.

Lemma frag_room_le frag o o' : o <= o' -> frag_room frag o -> frag_room frag o'.
Proof. intros Hle H f Ef. destruct (H f Ef). lia. Qed.

Definition meta_ok6 (b : bytes) (start : option hdr_iterator) (fuel : nat) (m : pkt_metadata) : Prop :=
  (exists type, (it ← start; hdr_iterator_last_loop fuel b it) = Some (HdrIterator type (l4_offset m)) /\
     meta_l4_proto m = l4_of_nexthdr type) /\
  l4_offset m <= payload_offset m /\ (first_frag6 b (frag_offset m) = true -> l4_ready b m) /\ frag_room (frag_offset m) (l4_offset m).

Lemma tcp_len_view b o : wf_bytes b -> 0 <= o -> o + 20 <= blen b ->
  exists x, tcp_hdr_len (take (Z.to_nat 20) (drop (Z.to_nat o) b)) 0 = Some x /\ 0 <= x.
Proof.
  intros Hb Ho H. unfold tcp_hdr_len. rewrite ld8_view by lia. destruct (ld8_some b (o + (0 + 12))) as [x Hx]; [lia|].
  rewrite Hx. eexists. split; [reflexivity|]. pose proof (ld8_u8 _ _ _ Hb Hx) as [? _].
  apply Z.shiftl_nonneg, Z.shiftr_nonneg. done.
Qed.

Section Summarize.
Context (skb : sk_buff) (Hlin : linear skb) (Hb : wf_bytes (sk_bytes skb)).
Abbreviation b := (sk_bytes skb).

Lemma last_loop_stops fuel type offset :
  is_opt_hdr type = false -> (type =? NEXTHDR_FRAGMENT) = false ->
  hdr_iterator_last_loop (S fuel) b (HdrIterator type offset) = Some (HdrIterator type offset).
Proof. intros H1 H2. simpl. unfold hdr_iterator_next. cbn [hdr_type hdr_data]. rewrite H1, H2. done. Qed.

Lemma summarize6_loop_spec fuel : forall nexthdr offset frag,
  0 <= offset -> blen b - offset < Z.of_nat fuel -> (0 < fuel)%nat -> frag_room frag offset ->
  returns skb (summarize6_loop fuel nexthdr offset (first_frag6 b frag) frag)
    (fun r => match r with Ok m => meta_ok6 b (Some (HdrIterator nexthdr offset)) fuel m /\ offset <= l4_offset m
              | Err _ => True end).
Proof.
  induction fuel as [|fuel IH]; intros nexthdr offset frag H0 Hf Hpos Hroom; [lia|].
  assert (Hstop : forall p payload, is_opt_hdr nexthdr = false -> (nexthdr =? NEXTHDR_FRAGMENT) = false ->
    p = l4_of_nexthdr nexthdr -> offset <= payload ->
    (first_frag6 b frag = true -> l4_ready b (Meta frag p offset payload)) ->
    meta_ok6 b (Some (HdrIterator nexthdr offset)) (S fuel) (Meta frag p offset payload) /\ offset <= offset).
  { intros p payload H1 H2 -> Hp Hr. split; [|lia]. split; [|split; [exact Hp|split; [exact Hr|exact Hroom]]].
    exists nexthdr. split; [apply last_loop_stops; done|done]. }
  cbn [summarize6_loop]. destruct (Z.eqb_spec nexthdr NEXTHDR_TCP) as [->|N1].
  { destruct (first_frag6 b frag) eqn:Efr.
    - eapply returns_view; [lia| |apply returns_truncated; done]. intros _ Hl. change (sk_len skb) with (blen b) in Hl.
      destruct (tcp_len_view b offset Hb H0 Hl) as (x & Hx & Hx0).
      eapply returns_load; [eassumption|].
      apply returns_ret. apply Hstop; try done; try lia.
    - apply returns_ret. apply Hstop; try done; try lia. }
  destruct (Z.eqb_spec nexthdr NEXTHDR_UDP) as [->|N2].
  { apply returns_ret. destruct (first_frag6 b frag) eqn:Efr; apply Hstop; try done; try lia. }
  destruct (Z.eqb_spec nexthdr NEXTHDR_ICMP) as [->|N3].
  { apply returns_ret. destruct (first_frag6 b frag) eqn:Efr; apply Hstop; try done; try lia. }
  destruct (Z.eqb_spec nexthdr NEXTHDR_FRAGMENT) as [->|N4].
  { eapply returns_view; [lia| |apply returns_truncated; done]. intros _ Hl. change (sk_len skb) with (blen b) in Hl.
    rewrite raw16_view, ld8_view by lia. destruct (raw16_some b (offset + 2)) as [f Ef]; [lia..|].
    destruct (ld8_some b (offset + 0)) as [x Ex]; [lia|].
    eapply returns_load; [eassumption|].
    eapply returns_load; [eassumption|].
    replace (is_first_frag6 (Some f)) with (first_frag6 b (Some offset)) by (simpl; rewrite Ef; done).
    intros s Hs. destruct (IH x (offset + 8) (Some offset)) with (s := s) as (r & s' & Hrun & Hs' & Hr);
      [lia..|intros o [= <-]; lia|done|].
    exists r, s'. split; [exact Hrun|]. split; [done|]. destruct r as [m|]; [|done].
    destruct Hr as [((type & Hty & Hp) & Hr2) Hle]. split; [|lia]. split; [|done]. exists type. split; [|done].
    rewrite Z.add_0_r in Ex. simpl. unfold hdr_iterator_next. simpl. rewrite Ex. simpl. exact Hty. }
  destruct (is_opt_hdr nexthdr) eqn:Eopt.
  { eapply returns_view; [lia| |apply returns_truncated; done]. intros _ Hl. change (sk_len skb) with (blen b) in Hl.
    rewrite !ld8_view by lia. destruct (ld8_some b (offset + 1)) as [l El]; [lia|].
    destruct (ld8_some b (offset + 0)) as [x Ex]; [lia|]. pose proof (ld8_u8 _ _ _ Hb El) as Hl8. unfold is_u8 in Hl8.
    eapply returns_load; [eassumption|].
    eapply returns_load; [eassumption|].
    intros s Hs. destruct (IH x (offset + (8 + 8 * l)) frag) with (s := s) as (r & s' & Hrun & Hs' & Hr);
      [lia..|apply (frag_room_le _ offset); [lia|exact Hroom]|done|].
    exists r, s'. split; [exact Hrun|]. split; [done|]. destruct r as [m|]; [|done].
    destruct Hr as [((type & Hty & Hp) & Hr2) Hle]. split; [|lia]. split; [|done]. exists type. split; [|done].
    rewrite Z.add_0_r in Ex. simpl. unfold hdr_iterator_next. cbn [hdr_type hdr_data]. rewrite Eopt, Ex, El. exact Hty. }
  apply Z.eqb_neq in N1, N2, N3, N4. apply returns_ret. apply Hstop; try done.
  unfold l4_of_nexthdr. rewrite N1, N2, N3. done.
Qed.

(** The headers of the IPv6 packet at [h], up to its payload. *)
Definition parsed6 (h : Z) (m : pkt_metadata) : Prop :=
  meta_ok6 b (HDR_ITERATOR_INIT b h) (S (length b)) m /\ h + 40 <= l4_offset m.

Lemma summarize_skb6_spec h :
  0 <= h -> h + 40 <= blen b ->
  returns skb (summarize_skb6 h) (fun r => match r with Ok m => parsed6 h m | Err _ => True end).
Proof.
  intros H0 H. unfold summarize_skb6. destruct (ld8_some b (h + 6)) as [x Hx]; [lia|].
  eapply returns_bind; [apply (returns_direct skb Hlin _ (fun y => y = x)); [eauto|congruence]|]. intros y ->.
  eapply returns_bind; [apply (returns_get skb (fun s => st_skb s = skb)); done|]. intros s0 Es. rewrite Es.
  intros s Hs. destruct (summarize6_loop_spec (S (length b)) x (h + 40) None) with (s := s) as (r & s' & Hrun & Hs' & Hr);
    [lia|unfold blen in *; lia|lia|discriminate|done|].
  exists r, s'. split; [exact Hrun|]. split; [done|]. destruct r as [m|]; [|done]. destruct Hr as [Hm Hle].
  split; [|done]. unfold HDR_ITERATOR_INIT. rewrite Hx. exact Hm.
Qed.

Definition inner_ready6 (h : Z) : Prop :=
  0 <= h /\ h + 40 <= blen b /\ exists m, parsed6 h m /\ payload_offset m <= blen b /\
    first_frag6 b (frag_offset m) = true /\
    (meta_l4_proto m = L4PROTO_ICMP -> exists type, ld8 b (l4_offset m) = Some type /\ is_icmp6_error type = false).

Lemma validate_inner6_spec outer :
  returns skb (validate_inner6 outer)
    (fun r => match r with Ok _ => inner_ready6 (payload_offset outer) | Err _ => True end).
Proof.
  unfold validate_inner6. set (h := payload_offset outer).
  eapply returns_view; [lia| |apply returns_truncated; done]. intros H0 Hl. change (sk_len skb) with (blen b) in Hl.
  rewrite ld8_view by lia. destruct (ld8_some b (h + 0)) as [b0 Eb0]; [lia|]. eapply returns_load; [exact Eb0|].
  destruct (negb (Z.shiftr b0 4 =? 6)); [apply returns_inhdr; done|].
  eapply returns_try; [apply summarize_skb6_spec; lia|done|]. intros m Hm.
  eapply (returns_try _ _ _ (fun _ => first_frag6 b (frag_offset m) = true)); [|done|].
  { destruct (frag_offset m) as [o|]; [|apply returns_ret; done].
    eapply returns_view; [lia| |apply returns_truncated; done]. intros Ho Hl'. change (sk_len skb) with (blen b) in Hl'.
    rewrite raw16_view by lia. destruct (raw16_some b (o + 2)) as [f Ef]; [lia..|]. eapply returns_load; [exact Ef|].
    destruct (is_first_frag6 (Some f)) eqn:E; cbn [negb]; [|apply returns_inhdr; done].
    apply returns_ret. cbn [first_frag6]. rewrite Ef. done. }
  intros [] Hfirst.
  eapply (returns_try _ _ _ (fun _ => meta_l4_proto m = L4PROTO_ICMP -> exists type, ld8 b (l4_offset m) = Some type /\
    is_icmp6_error type = false)); [|done|].
  { case_bool_decide as Ep; [|apply returns_ret; done].
    eapply returns_view; [lia| |apply returns_truncated; done]. intros Ho Hl'. change (sk_len skb) with (blen b) in Hl'.
    rewrite ld8_view by lia. destruct (ld8_some b (l4_offset m + 0)) as [ty Ety]; [lia|].
    eapply returns_load; [exact Ety|]. unfold has_inner_pkt6. destruct (is_icmp6_error ty) eqn:E; [apply returns_inhdr; done|].
    apply returns_ret. intros _. exists ty. rewrite Z.add_0_r in Ety. done. }
  intros [] Hicmp. apply (returns_may_pull skb Hlin); [|done]. intros Hp. split; [done|]. split; [done|].
  exists m. done.
Qed.

(** What holds of a packet [pkt_init_ipv6] accepts. *)
Definition layout_ok6 (m : pkt_metadata) : Prop :=
  parsed6 0 m /\ payload_offset m <= blen b /\
  (meta_l4_proto m = L4PROTO_ICMP -> exists type, ld8 b (l4_offset m) = Some type /\ l4_offset m + 8 <= blen b /\
     (is_icmp6_error type = true -> inner_ready6 (payload_offset m))).

Lemma handle_icmp6_spec siit m :
  returns skb (handle_icmp6 siit m)
    (fun r => match r with
     | Ok _ => exists type, ld8 b (l4_offset m) = Some type /\ l4_offset m + 8 <= blen b /\
         (is_icmp6_error type = true -> inner_ready6 (payload_offset m))
     | Err _ => True
     end).
Proof.
  unfold handle_icmp6. eapply returns_view; [lia| |apply returns_truncated; done]. intros H0 Hl.
  change (sk_len skb) with (blen b) in Hl. rewrite ld8_view by lia.
  destruct (ld8_some b (l4_offset m + 0)) as [ty Ety]; [lia|]. eapply returns_load; [exact Ety|]. rewrite Z.add_0_r in Ety.
  eapply (returns_try _ _ _ (fun _ => is_icmp6_error ty = true -> inner_ready6 (payload_offset m))); [|done|].
  { unfold has_inner_pkt6. destruct (is_icmp6_error ty); [|apply returns_ret; done].
    intros s Hs. destruct (validate_inner6_spec m s Hs) as (r & s' & Hrun & Hs' & Hr). exists r, s'.
    split; [done|]. split; [done|]. destruct r; [intros _; exact Hr|done]. }
  intros [] Hin.
  assert (Hok : exists type, ld8 b (l4_offset m) = Some type /\ l4_offset m + 8 <= blen b /\
         (is_icmp6_error type = true -> inner_ready6 (payload_offset m))) by eauto.
  destruct (frag_offset m) as [o|]; [|apply returns_ret; done]. destruct (siit && is_icmp6_info ty); [|apply returns_ret; done].
  eapply returns_view; [lia| |apply returns_truncated; done]. intros Ho Hl'. change (sk_len skb) with (blen b) in Hl'.
  rewrite raw16_view by lia. destruct (raw16_some b (o + 2)) as [f Ef]; [lia..|]. eapply returns_load; [exact Ef|].
  apply returns_ret. destruct (is_fragmented_ipv6 (Some f)); done.
Qed.

Lemma pkt_init_ipv6_spec siit :
  40 <= blen b ->
  returns skb (pkt_init_ipv6 siit)
    (fun r => match r with Ok lo => lo_l3_proto lo = L3PROTO_IPV6 /\ layout_ok6 (lo_meta lo) | Err _ => True end).
Proof.
  intros H40. unfold pkt_init_ipv6, fail_if_shared.
  eapply (returns_try _ _ _ (fun _ => True)); [|done|].
  { eapply returns_bind; [apply (returns_get skb (fun _ => True)); done|]. intros s0 _. apply returns_ret.
    destruct (sk_shared (st_skb s0)); done. }
  intros _ _. eapply returns_bind; [apply (returns_get skb (fun s => st_skb s = skb)); done|]. intros s0 Es.
  destruct (ldn_some 2 b 4) as [pl Hpl]; [lia..|].
  eapply returns_bind; [apply (returns_direct skb Hlin _ (fun y => y = pl)); [eauto|congruence]|]. intros y ->.
  destruct (negb (sk_len (st_skb s0) =? 40 + pl)); [apply returns_inhdr; done|].
  eapply returns_try; [apply (summarize_skb6_spec 0); lia|done|]. intros m Hm.
  eapply (returns_try _ _ _ (fun _ => meta_l4_proto m = L4PROTO_ICMP -> exists type, ld8 b (l4_offset m) = Some type /\
     l4_offset m + 8 <= blen b /\ (is_icmp6_error type = true -> inner_ready6 (payload_offset m)))); [|done|].
  { case_bool_decide as Ep; [|apply returns_ret; done]. intros s Hs.
    destruct (handle_icmp6_spec siit m s Hs) as (r & s' & Hrun & Hs' & Hr). exists r, s'. split; [done|].
    split; [done|]. destruct r; [intros _; exact Hr|done]. }
  intros [] Hicmp. eapply (returns_try _ _ _ (fun _ => payload_offset m <= blen b)); [|done|].
  { apply (returns_may_pull skb Hlin); done. }
  intros [] Hp. apply returns_ret. done.
Qed.

(** ** IPv4 *)

Definition parsed4 (m : pkt_metadata) : Prop :=
  ip4_hdr_len b 0 = Some (l4_offset m) /\
  (exists protocol, ld8 b 9 = Some protocol /\ meta_l4_proto m = l4_of_protocol protocol) /\
  l4_offset m <= payload_offset m /\
  (forall f, raw16 b 6 = Some f -> is_first_frag4 f = true -> l4_ready b m).

Definition inner_ready4 (h : Z) : Prop :=
  0 <= h /\ h + 20 <= blen b /\ exists ihl protocol, ip4_hdr_len b h = Some ihl /\ 20 <= ihl /\
    ld8 b (h + 9) = Some protocol /\
    match l4_of_protocol protocol with
    | L4PROTO_TCP => h + ihl + 20 <= blen b
    | L4PROTO_UDP | L4PROTO_ICMP => h + ihl + 8 <= blen b
    | L4PROTO_OTHER => True
    end.

Lemma ip4_hdr_len_view n h : 0 <= h -> 0 < n -> ip4_hdr_len (take (Z.to_nat n) (drop (Z.to_nat h) b)) 0 = ip4_hdr_len b h.
Proof. intros. unfold ip4_hdr_len. rewrite ld8_view by lia. rewrite Z.add_0_r. done. Qed.

Lemma ip4_hdr_len_some h : 0 <= h < blen b -> exists x, ip4_hdr_len b h = Some x /\ 0 <= x.
Proof.
  intros H. unfold ip4_hdr_len. destruct (ld8_some b h H) as [x Hx]. rewrite Hx. eexists. split; [reflexivity|].
  pose proof (ld8_u8 _ _ _ Hb Hx) as [? _]. apply Z.shiftl_nonneg, Z.land_nonneg. lia.
Qed.

Lemma validate_inner4_spec outer :
  returns skb (validate_inner4 outer)
    (fun r => match r with Ok _ => inner_ready4 (payload_offset outer) | Err _ => True end).
Proof.
  unfold validate_inner4. set (h := payload_offset outer).
  eapply returns_view; [lia| |apply returns_truncated; done]. intros H0 Hl. change (sk_len skb) with (blen b) in Hl.
  rewrite !ld8_view, ip4_hdr_len_view, ldn_view, raw16_view by lia.
  destruct (ld8_some b (h + 0)) as [b0 Eb0]; [lia|]. destruct (ip4_hdr_len_some h) as (ihl & Eihl & Hihl); [lia|].
  destruct (ldn_some 2 b (h + 2)) as [tl Etl]; [lia..|]. destruct (raw16_some b (h + 6)) as [f Ef]; [lia..|].
  destruct (ld8_some b (h + 9)) as [pr Epr]; [lia|]. do 5 (eapply returns_load; [eassumption|]).
  destruct (negb (Z.shiftr b0 4 =? 4)); [apply returns_inhdr; done|].
  destruct (Z.ltb_spec ihl 20); [apply returns_inhdr; done|].
  destruct (tl <? ihl); [apply returns_inhdr; done|].
  destruct (negb (is_first_frag4 f)); [apply returns_inhdr; done|].
  eapply (returns_try _ _ _ (fun o => match l4_of_protocol pr with
    | L4PROTO_TCP => h + ihl + 20 <= blen b | L4PROTO_UDP | L4PROTO_ICMP => o = h + ihl + 8 | L4PROTO_OTHER => True end)); [|done|].
  { unfold l4_of_protocol. destruct (pr =? IPPROTO_TCP).
    - eapply returns_view; [lia| |apply returns_truncated; done]. intros Ho Hl'. change (sk_len skb) with (blen b) in Hl'.
      destruct (tcp_len_view b (h + ihl) Hb Ho Hl') as (x & Hx & _). eapply returns_load; [exact Hx|].
      apply returns_ret. done.
    - destruct (pr =? IPPROTO_UDP); [apply returns_ret; done|]. destruct (pr =? IPPROTO_ICMP); apply returns_ret; done. }
  intros o Ho. apply (returns_may_pull skb Hlin); [|done]. intros Hp. change (sk_len skb) with (blen b) in Hp.
  split; [done|]. split; [done|]. exists ihl, pr. split_and!; try done.
  destruct (l4_of_protocol pr); try done; lia.
Qed.

Definition layout_ok4 (m : pkt_metadata) : Prop :=
  parsed4 m /\ payload_offset m <= blen b /\
  (meta_l4_proto m = L4PROTO_ICMP -> exists type, ld8 b (l4_offset m) = Some type /\ l4_offset m + 8 <= blen b /\
     (is_icmp4_error type = true -> inner_ready4 (payload_offset m))).

Lemma handle_icmp4_spec siit m :
  20 <= blen b ->
  returns skb (handle_icmp4 siit m)
    (fun r => match r with
     | Ok _ => exists type, ld8 b (l4_offset m) = Some type /\ l4_offset m + 8 <= blen b /\
         (is_icmp4_error type = true -> inner_ready4 (payload_offset m))
     | Err _ => True
     end).
Proof.
  intros H20. unfold handle_icmp4. eapply returns_view; [lia| |apply returns_truncated; done]. intros H0 Hl.
  change (sk_len skb) with (blen b) in Hl. rewrite ld8_view by lia.
  destruct (ld8_some b (l4_offset m + 0)) as [ty Ety]; [lia|]. eapply returns_load; [exact Ety|]. rewrite Z.add_0_r in Ety.
  eapply (returns_try _ _ _ (fun _ => is_icmp4_error ty = true -> inner_ready4 (payload_offset m))); [|done|].
  { unfold has_inner_pkt4. destruct (is_icmp4_error ty); [|apply returns_ret; done].
    intros s Hs. destruct (validate_inner4_spec m s Hs) as (r & s' & Hrun & Hs' & Hr). exists r, s'.
    split; [done|]. split; [done|]. destruct r; [intros _; exact Hr|done]. }
  intros [] Hin. destruct (siit && is_icmp4_info ty); [|apply returns_ret; eauto].
  destruct (raw16_some b 6) as [f Ef]; [lia..|].
  eapply returns_bind; [apply (returns_direct skb Hlin _ (fun y => y = f)); [eauto|congruence]|]. intros y ->.
  apply returns_ret. destruct (is_fragmented_ipv4 f); [done|]. eauto.
Qed.

Lemma summarize_skb4_spec siit :
  20 <= blen b ->
  returns skb (summarize_skb4 siit)
    (fun r => match r with
     | Ok m => parsed4 m /\ (meta_l4_proto m = L4PROTO_ICMP -> exists type, ld8 b (l4_offset m) = Some type /\
         l4_offset m + 8 <= blen b /\ (is_icmp4_error type = true -> inner_ready4 (payload_offset m)))
     | Err _ => True
     end).
Proof.
  intros H20. unfold summarize_skb4. destruct (ip4_hdr_len_some 0) as (ihl & Eihl & Hihl); [lia|].
  destruct (ld8_some b 9) as [pr Epr]; [lia|]. destruct (raw16_some b 6) as [f Ef]; [lia..|].
  eapply returns_bind; [apply (returns_direct skb Hlin _ (fun y => y = ihl)); [eauto|congruence]|]. intros y ->.
  eapply returns_bind; [apply (returns_direct skb Hlin _ (fun y => y = pr)); [eauto|congruence]|]. intros y ->.
  eapply returns_bind; [apply (returns_direct skb Hlin _ (fun y => y = f)); [eauto|congruence]|]. intros y ->.
  assert (Hp : forall p payload, p = l4_of_protocol pr -> ihl <= payload ->
    (is_first_frag4 f = true -> l4_ready b (Meta None p ihl payload)) -> parsed4 (Meta None p ihl payload)).
  { intros p payload -> Hle Hr. split; [done|]. split; [eauto|]. split; [done|]. intros f' Ef'.
    assert (f' = f) as -> by congruence. exact Hr. }
  unfold l4_of_protocol in Hp. destruct (pr =? IPPROTO_TCP).
  { destruct (is_first_frag4 f) eqn:Efr.
    - eapply returns_view; [lia| |apply returns_truncated; done]. intros Ho Hl. change (sk_len skb) with (blen b) in Hl.
      destruct (tcp_len_view b ihl Hb Ho Hl) as (x & Hx & Hx0). eapply returns_load; [exact Hx|].
      apply returns_ret. split; [apply Hp; [done|lia|done]|done].
    - apply returns_ret. split; [apply Hp; [done|lia|done]|done]. }
  destruct (pr =? IPPROTO_UDP).
  { apply returns_ret. split; [|done]. destruct (is_first_frag4 f); apply Hp; try done; lia. }
  destruct (pr =? IPPROTO_ICMP); [|apply returns_ret; split; [apply Hp; [done|lia|done]|done]].
  eapply returns_try; [apply (handle_icmp4_spec siit _ H20)|done|]. intros [] Hic. apply returns_ret.
  split; [|intros _; exact Hic]. destruct (is_first_frag4 f); apply Hp; try done; lia.
Qed.

Lemma pkt_init_ipv4_spec siit :
  20 <= blen b ->
  returns skb (pkt_init_ipv4 siit)
    (fun r => match r with Ok lo => lo_l3_proto lo = L3PROTO_IPV4 /\ layout_ok4 (lo_meta lo) | Err _ => True end).
Proof.
  intros H20. unfold pkt_init_ipv4, fail_if_shared.
  eapply (returns_try _ _ _ (fun _ => True)); [|done|].
  { eapply returns_bind; [apply (returns_get skb (fun _ => True)); done|]. intros s0 _. apply returns_ret.
    destruct (sk_shared (st_skb s0)); done. }
  intros _ _. eapply returns_try; [apply (summarize_skb4_spec siit H20)|done|]. intros m [Hm Hic].
  eapply (returns_try _ _ _ (fun _ => payload_offset m <= blen b)); [|done|].
  { apply (returns_may_pull skb Hlin); done. }
  intros [] Hp. apply returns_ret. done.
Qed.

End Summarize.

(** ** Paged buffers *)

(** [validate_inner6] finds the inner header with [skb_header_pointer] but
    [summarize_skb6] then reads its [nexthdr] through a pointer into
    the linear part: when the inner header is beyond it, the read is outside of
    the packet's data, however complete the packet is. *)
Lemma paged_inner_faults outer s b0 :
  let b := sk_bytes (st_skb s) in
  0 <= payload_offset outer -> payload_offset outer + 40 <= blen b ->
  ld8 b (payload_offset outer) = Some b0 -> Z.shiftr b0 4 = 6 ->
  0 <= sk_headlen (st_skb s) <= payload_offset outer + 6 ->
  validate_inner6 outer s = None.
Proof.
  intros b H0 Hl Eb0 Hv Hh. unfold validate_inner6, skb_hdr_ptr, mbind, M_bind. fold b.
  destruct (Z.leb_spec 0 (payload_offset outer)); [|lia]. destruct (Z.leb_spec (payload_offset outer + 40) (blen b)); [|lia].
  cbn [andb]. rewrite ld8_view, Z.add_0_r, Eb0 by lia. cbn [load]. rewrite Hv. cbn [Z.eqb Pos.eqb negb].
  assert (E : ld8 (sk_head (st_skb s)) (payload_offset outer + 6) = None).
  { unfold ld8. destruct (Z.leb_spec 0 (payload_offset outer + 6)); [|done]. apply lookup_ge_None_2.
    unfold sk_head. rewrite length_take. lia. }
  unfold try_, summarize_skb6, direct, mbind, M_bind. rewrite E. done.
Qed.
