(* ===== verification/InTuple.v ===== *)
(** * The tuple of a packet

    [mod/stateful/determine_incoming_tuple.c], on the bytes of a packet that
    [Skb] has laid out, and the stateful steps of [mod/common/core.c]
    put one after another.  ICMP errors are given the tuple of the packet they
    are about, reversed. *)
From S2P Require Import Prelude Types Address Rfc6052 Pool6 Pool4Table Pool4Db RbTree BibTable BibDb PortAlloc.
From S2P Require Import Packet SessionEntry PktQueue SessionTable Tcp SessionSpec SessionDb Filtering FilteringSpec StaticRoutes Nat64 Guarantees Skb.

(** A validated packet. *)
Record rx_packet : Type := RxPacket {
  rx_skb : sk_buff;
  rx_layout : pkt_layout;
  rx_mark : Z
}.

Definition rx_bytes (rx : rx_packet) : bytes := sk_head (rx_skb rx).
Definition rx_l4 (rx : rx_packet) : Z := l4_offset (lo_meta (rx_layout rx)).
Definition rx_l4_proto (rx : rx_packet) : l4_protocol := meta_l4_proto (lo_meta (rx_layout rx)).

Definition flag (b : bytes) (i bit : Z) : bool :=
  match ld8 b i with Some x => Z.testbit x bit | None => false end.

(** The fields the stateful code decides on. *)
Definition packet_of (rx : rx_packet) : packet :=
  let b := rx_bytes rx in
  Packet (sk_id (rx_skb rx)) (sk_id (rx_skb rx)) (lo_l3_proto (rx_layout rx)) (rx_l4_proto rx) (rx_mark rx)
    (In6Addr (default 0 (ldn 16 b 8))) (In6Addr (default 0 (ldn 16 b 24)))
    (flag b (rx_l4 rx + 13) 1) (flag b (rx_l4 rx + 13) 0) (flag b (rx_l4 rx + 13) 2)
    (default 0 (ld8 b (rx_l4 rx))).

Section Tuple.
Context (c : config).

(** The verdict, and the tuple it comes with when it is [CONTINUE]. *)
Definition outcome : Type := verdict * option tuple.

Definition got (tup : tuple) : M fworld outcome := mret (VERDICT_CONTINUE, Some tup).

Definition unknown_inner_proto : M fworld outcome := mret (VERDICT_ACCEPT, None).

(** [ipv4_udp] and [ipv4_tcp]: the ports are in the same place. *)
Definition ipv4_ports (proto : l4_protocol) (rx : rx_packet) : M fworld outcome :=
  let b := rx_bytes rx in
  saddr ← load (ldn 4 b 12);
  source ← load (ldn 2 b (rx_l4 rx));
  daddr ← load (ldn 4 b 16);
  dest ← load (ldn 2 b (rx_l4 rx + 2));
  got (Tuple4 (TAddr4 (InAddr saddr) source) (TAddr4 (InAddr daddr) dest) proto).

Definition ipv4_udp : rx_packet -> M fworld outcome := ipv4_ports L4PROTO_UDP.
Definition ipv4_tcp : rx_packet -> M fworld outcome := ipv4_ports L4PROTO_TCP.

Definition ipv4_icmp_info (rx : rx_packet) : M fworld outcome :=
  let b := rx_bytes rx in
  saddr ← load (ldn 4 b 12);
  id ← load (ldn 2 b (rx_l4 rx + 4));
  daddr ← load (ldn 4 b 16);
  got (Tuple4 (TAddr4 (InAddr saddr) id) (TAddr4 (InAddr daddr) id) L4PROTO_ICMP).

Definition ipv4_icmp_err (rx : rx_packet) : M fworld outcome :=
  let b := rx_bytes rx in
  let inner_ipv4 := rx_l4 rx + 8 in
  daddr ← load (ldn 4 b (inner_ipv4 + 16));
  saddr ← load (ldn 4 b (inner_ipv4 + 12));
  protocol ← load (ld8 b (inner_ipv4 + 9));
  let ports proto :=
    ihl ← load (ip4_hdr_len b inner_ipv4);
    dest ← load (ldn 2 b (inner_ipv4 + ihl + 2));
    source ← load (ldn 2 b (inner_ipv4 + ihl));
    got (Tuple4 (TAddr4 (InAddr daddr) dest) (TAddr4 (InAddr saddr) source) proto) in
  if protocol =? IPPROTO_UDP then ports L4PROTO_UDP
  else if protocol =? IPPROTO_TCP then ports L4PROTO_TCP
  else if protocol =? IPPROTO_ICMP then
    ihl ← load (ip4_hdr_len b inner_ipv4);
    type ← load (ld8 b (inner_ipv4 + ihl));
    if is_icmp4_error type then
      inc_stats (packet_of rx) IPSTATS_MIB_INHDRERRORS;; mret (VERDICT_DROP, None)
    else
      id ← load (ldn 2 b (inner_ipv4 + ihl + 4));
      got (Tuple4 (TAddr4 (InAddr daddr) id) (TAddr4 (InAddr saddr) id) L4PROTO_ICMP)
  else unknown_inner_proto.

Definition ipv4_icmp (rx : rx_packet) : M fworld outcome :=
  type ← load (ld8 (rx_bytes rx) (rx_l4 rx));
  if is_icmp4_info type then ipv4_icmp_info rx
  else if is_icmp4_error type then ipv4_icmp_err rx
  else mret (VERDICT_ACCEPT, None).

Definition ipv6_ports (proto : l4_protocol) (rx : rx_packet) : M fworld outcome :=
  let b := rx_bytes rx in
  saddr ← load (ldn 16 b 8);
  source ← load (ldn 2 b (rx_l4 rx));
  daddr ← load (ldn 16 b 24);
  dest ← load (ldn 2 b (rx_l4 rx + 2));
  got (Tuple6 (TAddr6 (In6Addr saddr) source) (TAddr6 (In6Addr daddr) dest) proto).

Definition ipv6_udp : rx_packet -> M fworld outcome := ipv6_ports L4PROTO_UDP.
Definition ipv6_tcp : rx_packet -> M fworld outcome := ipv6_ports L4PROTO_TCP.

Definition ipv6_icmp_info (rx : rx_packet) : M fworld outcome :=
  let b := rx_bytes rx in
  id ← load (ldn 2 b (rx_l4 rx + 4));
  saddr ← load (ldn 16 b 8);
  daddr ← load (ldn 16 b 24);
  got (Tuple6 (TAddr6 (In6Addr saddr) id) (TAddr6 (In6Addr daddr) id) L4PROTO_ICMP).

Definition ipv6_icmp_err (rx : rx_packet) : M fworld outcome :=
  let b := rx_bytes rx in
  let inner_ip6 := rx_l4 rx + 8 in
  iterator ← load (HDR_ITERATOR_INIT b inner_ip6);
  daddr ← load (ldn 16 b (inner_ip6 + 24));
  saddr ← load (ldn 16 b (inner_ip6 + 8));
  iterator ← load (hdr_iterator_last b iterator);
  let l4 := hdr_data iterator in
  let ports proto :=
    dest ← load (ldn 2 b (l4 + 2));
    source ← load (ldn 2 b l4);
    got (Tuple6 (TAddr6 (In6Addr daddr) dest) (TAddr6 (In6Addr saddr) source) proto) in
  if hdr_type iterator =? NEXTHDR_UDP then ports L4PROTO_UDP
  else if hdr_type iterator =? NEXTHDR_TCP then ports L4PROTO_TCP
  else if hdr_type iterator =? NEXTHDR_ICMP then
    type ← load (ld8 b l4);
    if is_icmp6_error type then
      inc_stats (packet_of rx) IPSTATS_MIB_INHDRERRORS;; mret (VERDICT_DROP, None)
    else
      id ← load (ldn 2 b (l4 + 4));
      got (Tuple6 (TAddr6 (In6Addr daddr) id) (TAddr6 (In6Addr saddr) id) L4PROTO_ICMP)
  else unknown_inner_proto.

Definition ipv6_icmp (rx : rx_packet) : M fworld outcome :=
  type ← load (ld8 (rx_bytes rx) (rx_l4 rx));
  if is_icmp6_info type then ipv6_icmp_info rx
  else if is_icmp6_error type then ipv6_icmp_err rx
  else mret (VERDICT_ACCEPT, None).

Definition determine_in_tuple (rx : rx_packet) : M fworld outcome :=
  match lo_l3_proto (rx_layout rx), rx_l4_proto rx with
  | L3PROTO_IPV4, L4PROTO_UDP => ipv4_udp rx
  | L3PROTO_IPV4, L4PROTO_TCP => ipv4_tcp rx
  | L3PROTO_IPV4, L4PROTO_ICMP => ipv4_icmp rx
  | L3PROTO_IPV4, L4PROTO_OTHER => mret (VERDICT_ACCEPT, None)
  | L3PROTO_IPV6, L4PROTO_UDP => ipv6_udp rx
  | L3PROTO_IPV6, L4PROTO_TCP => ipv6_tcp rx
  | L3PROTO_IPV6, L4PROTO_ICMP => ipv6_icmp rx
  | L3PROTO_IPV6, L4PROTO_OTHER =>
      daddr ← load (ldn 16 (rx_bytes rx) 24);
      mine ← ask_pool6 c (pool6_contains (Some (In6Addr daddr)));
      if negb mine then mret (VERDICT_ACCEPT, None)
      else
        icmp64_send (packet_of rx) ICMPERR_PROTO_UNREACHABLE;;
        inc_stats (packet_of rx) IPSTATS_MIB_INUNKNOWNPROTOS;;
        mret (VERDICT_DROP, None)
  end.

(** [core_common]: the stateful steps, up to the outgoing tuple. *)
(** Steps 2 and 3, which [core_common] and [handling_hairpinning] share. *)
Definition update_tuples {R : RbTree} (pkt : packet) (tuple_in : tuple) : M fworld outcome :=
  result ← filtering_and_updating c pkt tuple_in;
  if bool_decide (result = VERDICT_CONTINUE) then compute_out_tuple c tuple_in
  else mret (result, None).

Definition core_tuples {R : RbTree} (rx : rx_packet) : M fworld outcome :=
  '(result, tuple_in) ← determine_in_tuple rx;
  match result, tuple_in with
  | VERDICT_CONTINUE, Some tuple_in => update_tuples (packet_of rx) tuple_in
  | VERDICT_CONTINUE, None => fault
  | result, _ => mret (result, None)
  end.

(** [is_hairpin], of [mod/stateful/handling_hairpinning.c]: [None] is a
    fault. *)
Definition is_hairpin (tup : tuple) : option bool :=
  match tup with
  | Tuple6 _ _ _ => Some false
  | Tuple4 _ dst proto => pool4db_contains (c_netdevs c) (c_pool4 c) proto dst
  end.

End Tuple.

(** ** Soundness *)

Ltac loads H := eapply triple_load; [exact H|].

(** What [pkt_init_ipv4] and [pkt_init_ipv6] leave, for a packet that is whole:
    the defragmentation that precedes the translator shows it no fragment but
    the first. *)
Definition rx_ok (rx : rx_packet) : Prop :=
  let skb := rx_skb rx in
  let m := lo_meta (rx_layout rx) in
  linear skb /\ wf_bytes (sk_bytes skb) /\
  match lo_l3_proto (rx_layout rx) with
  | L3PROTO_IPV4 => 20 <= blen (sk_bytes skb) /\ layout_ok4 skb m /\
      (forall f, raw16 (sk_bytes skb) 6 = Some f -> is_first_frag4 f = true)
  | L3PROTO_IPV6 => 40 <= blen (sk_bytes skb) /\ layout_ok6 skb m /\
      first_frag6 (sk_bytes skb) (frag_offset m) = true
  end.

Section Sound.
Context {R : RbTree} {L : RbTreeLaws R} (c : config) (Hc : config_ok c) (rx : rx_packet) (Hrx : rx_ok rx).
Abbreviation b := (sk_bytes (rx_skb rx)).
Abbreviation m := (lo_meta (rx_layout rx)).

Lemma rx_bytes_all : rx_bytes rx = b.
Proof. apply sk_head_linear, Hrx. Qed.

(** A load that is known to be in range, and its value's. *)
Lemma ldn_in n i : 0 <= i -> i + Z.of_nat n <= blen b ->
  exists x, ldn n b i = Some x /\ 0 <= x < 2 ^ (8 * Z.of_nat n).
Proof.
  intros H0 H. destruct (ldn_some n b i H0 H) as [x Hx]. exists x. split; [done|].
  destruct Hrx as (_ & Hb & _). apply (ldn_range n b i x Hb Hx).
Qed.

Definition sound (db : session_db) (r : outcome) (s : fworld) : Prop :=
  owned [] [] db s /\
  match r with
  | (VERDICT_CONTINUE, out) => exists tup, out = Some tup /\ tuple_of (packet_of rx) tup
  | (_, out) => out = None
  end.

Lemma got_sound db tup :
  wf_tuple tup -> lo_l3_proto (rx_layout rx) = l3_proto tup ->
  (is_icmp_error (packet_of rx) tup = false -> rx_l4_proto rx = l4_proto tup) ->
  triple (owned [] [] db) (got tup) (sound db).
Proof. intros Hw H3 H4. apply triple_ret. intros s Ho. split; [done|]. exists tup. split; [done|]. split; done. Qed.

Lemma none_sound db v : v <> VERDICT_CONTINUE -> triple (owned [] [] db) (mret (v, None)) (sound db).
Proof. intros Hv. apply triple_ret. intros s Ho. split; [done|]. destruct v; done. Qed.

Lemma in16 x : 0 <= x < 2 ^ (8 * Z.of_nat 2) -> is_u16 x.
Proof. intros H. exact H. Qed.

Lemma in32 x : 0 <= x < 2 ^ (8 * Z.of_nat 4) -> wf_addr4 (InAddr x).
Proof. intros H. exact H. Qed.

Lemma in128 x : 0 <= x < 2 ^ (8 * Z.of_nat 16) -> wf_addr6 (In6Addr x).
Proof. intros H. exact H. Qed.

Ltac wf_goal := split; [split|split; [split|]]; cbn [l3_4 l4_4 l3_6 l4_6]; try intros ?; solve [apply in16; assumption | apply in32; assumption | apply in128; assumption | congruence].

Lemma ports4_sound db proto :
  lo_l3_proto (rx_layout rx) = L3PROTO_IPV4 -> rx_l4_proto rx = proto -> proto <> L4PROTO_ICMP ->
  20 <= blen b -> 0 <= l4_offset m -> l4_offset m + 4 <= blen b ->
  triple (owned [] [] db) (ipv4_ports proto rx) (sound db).
Proof.
  intros H3 Hp Hi H20 H0 Hl. unfold ipv4_ports. rewrite rx_bytes_all. unfold rx_l4.
  destruct (ldn_in 4 12) as (sa & Esa & Wsa); [lia..|]. destruct (ldn_in 4 16) as (da & Eda & Wda); [lia..|].
  destruct (ldn_in 2 (l4_offset m)) as (sp & Esp & Wsp); [lia..|].
  destruct (ldn_in 2 (l4_offset m + 2)) as (dp & Edp & Wdp); [lia..|].
  loads Esa. loads Esp. loads Eda. loads Edp. apply got_sound; [wf_goal|done|done].
Qed.

Lemma ports6_sound db proto :
  lo_l3_proto (rx_layout rx) = L3PROTO_IPV6 -> rx_l4_proto rx = proto -> proto <> L4PROTO_ICMP ->
  40 <= blen b -> 0 <= l4_offset m -> l4_offset m + 4 <= blen b ->
  triple (owned [] [] db) (ipv6_ports proto rx) (sound db).
Proof.
  intros H3 Hp Hi H40 H0 Hl. unfold ipv6_ports. rewrite rx_bytes_all. unfold rx_l4.
  destruct (ldn_in 16 8) as (sa & Esa & Wsa); [lia..|]. destruct (ldn_in 16 24) as (da & Eda & Wda); [lia..|].
  destruct (ldn_in 2 (l4_offset m)) as (sp & Esp & Wsp); [lia..|].
  destruct (ldn_in 2 (l4_offset m + 2)) as (dp & Edp & Wdp); [lia..|].
  loads Esa. loads Esp. loads Eda. loads Edp. apply got_sound; [wf_goal|done|done].
Qed.

Lemma drop_sound db : triple (owned [] [] db)
  (inc_stats (packet_of rx) IPSTATS_MIB_INHDRERRORS;; mret (VERDICT_DROP, None)) (sound db).
Proof. eapply triple_bind; [apply inc_stats_triple|]. intros []. apply none_sound. done. Qed.

Lemma icmp4_sound db :
  lo_l3_proto (rx_layout rx) = L3PROTO_IPV4 -> rx_l4_proto rx = L4PROTO_ICMP -> 20 <= blen b -> layout_ok4 (rx_skb rx) m ->
  payload_offset m = l4_offset m + 8 -> 0 <= l4_offset m ->
  triple (owned [] [] db) (ipv4_icmp rx) (sound db).
Proof.
  intros H3 Hp H20 (_ & _ & Hic) Hpay H0. destruct (Hic Hp) as (ty & Ety & Hl8 & Hinner).
  unfold ipv4_icmp, ipv4_icmp_info, ipv4_icmp_err, unknown_inner_proto. rewrite rx_bytes_all. unfold rx_l4.
  eapply triple_load; [exact Ety|].
  destruct (is_icmp4_info ty) eqn:Ei; [|destruct (is_icmp4_error ty) eqn:Ee; [|apply none_sound; done]].
  - destruct (ldn_in 4 12) as (sa & Esa & Wsa); [lia..|]. destruct (ldn_in 4 16) as (da & Eda & Wda); [lia..|].
    destruct (ldn_in 2 (l4_offset m + 4)) as (id & Eid & Wid); [lia..|].
    loads Esa. loads Eid. loads Eda. apply got_sound; [wf_goal|done|done].
  - assert (Herr : forall tup, l3_proto tup = L3PROTO_IPV4 -> is_icmp_error (packet_of rx) tup = true).
    { intros [] Ht; [|done]. cbn. unfold pkt_is_icmp4_error. cbn. rewrite bool_decide_eq_true_2 by done.
      rewrite rx_bytes_all. unfold rx_l4. rewrite Ety. exact Ee. }
    destruct (Hinner eq_refl) as (_ & Hin20 & ihl & pr & Eihl & Hihl & Epr & Hl4). rewrite Hpay in *.
    set (h := l4_offset m + 8) in *.
    destruct (ldn_in 4 (h + 16)) as (da & Eda & Wda); [lia..|]. destruct (ldn_in 4 (h + 12)) as (sa & Esa & Wsa); [lia..|].
    loads Eda. loads Esa. loads Epr.
    assert (Hports : forall proto, proto <> L4PROTO_ICMP -> h + ihl + 4 <= blen b -> triple (owned [] [] db)
      (ihl ← load (ip4_hdr_len b h); dest ← load (ldn 2 b (h + ihl + 2)); source ← load (ldn 2 b (h + ihl));
       got (Tuple4 (TAddr4 (InAddr da) dest) (TAddr4 (InAddr sa) source) proto)) (sound db)).
    { intros proto Hni Hle. destruct (ldn_in 2 (h + ihl + 2)) as (dp & Edp & Wdp); [lia..|].
      destruct (ldn_in 2 (h + ihl)) as (sp & Esp & Wsp); [lia..|].
      loads Eihl. loads Edp. loads Esp. apply got_sound; [wf_goal|exact H3|]. rewrite Herr; [discriminate|reflexivity]. }
    unfold l4_of_protocol in Hl4. destruct (Z.eqb_spec pr IPPROTO_UDP) as [->|N1]; [apply Hports; [done|simpl in Hl4; lia]|].
    destruct (Z.eqb_spec pr IPPROTO_TCP) as [->|N2]; [apply Hports; [done|simpl in Hl4; lia]|].
    destruct (Z.eqb_spec pr IPPROTO_ICMP) as [->|N3]; [|apply none_sound; done]. simpl in Hl4.
    destruct (ld8_some b (h + ihl)) as [ity Eity]; [lia|]. destruct (ldn_in 2 (h + ihl + 4)) as (id & Eid & Wid); [lia..|].
    loads Eihl. loads Eity. destruct (is_icmp4_error ity); [apply drop_sound|].
    loads Eid. apply got_sound; [wf_goal|exact H3|]. rewrite Herr; [discriminate|reflexivity].
Qed.

Lemma icmp6_sound db :
  lo_l3_proto (rx_layout rx) = L3PROTO_IPV6 -> rx_l4_proto rx = L4PROTO_ICMP -> 40 <= blen b -> layout_ok6 (rx_skb rx) m ->
  payload_offset m = l4_offset m + 8 -> 0 <= l4_offset m ->
  triple (owned [] [] db) (ipv6_icmp rx) (sound db).
Proof.
  intros H3 Hp H40 (_ & _ & Hic) Hpay H0. destruct (Hic Hp) as (ty & Ety & Hl8 & Hinner).
  unfold ipv6_icmp, ipv6_icmp_info, ipv6_icmp_err, unknown_inner_proto. rewrite rx_bytes_all. unfold rx_l4.
  eapply triple_load; [exact Ety|].
  destruct (is_icmp6_info ty) eqn:Ei; [|destruct (is_icmp6_error ty) eqn:Ee; [|apply none_sound; done]].
  - destruct (ldn_in 16 8) as (sa & Esa & Wsa); [lia..|]. destruct (ldn_in 16 24) as (da & Eda & Wda); [lia..|].
    destruct (ldn_in 2 (l4_offset m + 4)) as (id & Eid & Wid); [lia..|].
    loads Eid. loads Esa. loads Eda. apply got_sound; [wf_goal|done|done].
  - assert (Herr : forall tup, l3_proto tup = L3PROTO_IPV6 -> is_icmp_error (packet_of rx) tup = true).
    { intros [] Ht; [done|]. cbn. unfold pkt_is_icmp6_error. cbn. rewrite bool_decide_eq_true_2 by done.
      rewrite rx_bytes_all. unfold rx_l4. rewrite Ety. exact Ee. }
    destruct (Hinner eq_refl) as (_ & Hin40 & mi & (((type & Hlast & Hpi) & Hle & Hready & _) & Hl4i) & Hpl & Hfirst & Hni).
    rewrite Hpay in *. set (h := l4_offset m + 8) in *. specialize (Hready Hfirst).
    destruct (HDR_ITERATOR_INIT b h) as [it|] eqn:Eit; [|done]. simpl in Hlast.
    change (hdr_iterator_last b it = Some (HdrIterator type (l4_offset mi))) in Hlast.
    destruct (ldn_in 16 (h + 24)) as (da & Eda & Wda); [lia..|]. destruct (ldn_in 16 (h + 8)) as (sa & Esa & Wsa); [lia..|].
    eapply triple_load; [reflexivity|]. loads Eda. loads Esa. loads Hlast. cbn [hdr_type hdr_data].
    assert (Hports : forall proto, proto <> L4PROTO_ICMP -> l4_offset mi + 4 <= blen b -> triple (owned [] [] db)
      (dest ← load (ldn 2 b (l4_offset mi + 2)); source ← load (ldn 2 b (l4_offset mi));
       got (Tuple6 (TAddr6 (In6Addr da) dest) (TAddr6 (In6Addr sa) source) proto)) (sound db)).
    { intros proto Hno Hle'. destruct (ldn_in 2 (l4_offset mi + 2)) as (dp & Edp & Wdp); [lia..|].
      destruct (ldn_in 2 (l4_offset mi)) as (sp & Esp & Wsp); [lia..|].
      loads Edp. loads Esp. apply got_sound; [wf_goal|exact H3|]. rewrite Herr; [discriminate|reflexivity]. }
    unfold l4_ready in Hready. rewrite Hpi in Hready, Hni. unfold l4_of_nexthdr in Hready, Hni.
    destruct (Z.eqb_spec type NEXTHDR_UDP) as [->|N1]; [apply Hports; [done|simpl in Hready; lia]|].
    destruct (Z.eqb_spec type NEXTHDR_TCP) as [->|N2]; [apply Hports; [done|simpl in Hready; lia]|].
    destruct (Z.eqb_spec type NEXTHDR_ICMP) as [->|N3]; [|apply none_sound; done]. simpl in Hready, Hni.
    destruct (Hni eq_refl) as (ity & Eity & Hnerr). destruct (ldn_in 2 (l4_offset mi + 4)) as (id & Eid & Wid); [lia..|].
    loads Eity. rewrite Hnerr. loads Eid.
    apply got_sound; [wf_goal|exact H3|]. rewrite Herr; [discriminate|reflexivity].
Qed.

Lemma determine_triple db : triple (owned [] [] db) (determine_in_tuple c rx) (sound db).
Proof.
  pose proof Hrx as (Hlin & Hb & Hlay). unfold determine_in_tuple.
  destruct (lo_l3_proto (rx_layout rx)) eqn:E3.
  - destruct Hlay as (H40 & Hok & Hfirst). pose proof Hok as (((_ & Hle & Hready & _) & Hl4) & Hpl & _).
    specialize (Hready Hfirst). unfold l4_ready in Hready. change (meta_l4_proto m) with (rx_l4_proto rx) in Hready.
    destruct (rx_l4_proto rx) eqn:Ep.
    + apply ports6_sound; done || lia.
    + apply ports6_sound; done || lia.
    + apply icmp6_sound; done || lia.
    + rewrite rx_bytes_all. destruct (ldn_in 16 24) as (da & Eda & _); [lia..|]. eapply triple_load; [exact Eda|].
      eapply triple_bind; [apply (pool6_contains_triple c Hc)|]. intros []; cbn [negb]; [|apply none_sound; done].
      eapply triple_bind; [apply icmp64_send_triple|]. intros [].
      eapply triple_bind; [apply inc_stats_triple|]. intros []. apply none_sound. done.
  - destruct Hlay as (H20 & Hok & Hfirst). pose proof Hok as ((Eihl & _ & Hle & Hready) & Hpl & _).
    destruct (raw16_some b 6) as [f Ef]; [lia..|]. specialize (Hready f Ef (Hfirst f Ef)).
    assert (H0 : 0 <= l4_offset m).
    { destruct (ip4_hdr_len_some (rx_skb rx) Hb 0) as (x & Ex & Hx); [lia|]. congruence. }
    unfold l4_ready in Hready. change (meta_l4_proto m) with (rx_l4_proto rx) in Hready.
    destruct (rx_l4_proto rx) eqn:Ep.
    + apply ports4_sound; done || lia.
    + apply ports4_sound; done || lia.
    + apply icmp4_sound; done || lia.
    + apply none_sound. done.
Qed.

End Sound.

(** ** The whole path *)

Definition pkt_init (l3 : l3_protocol) : M sk_state (result pkt_layout) :=
  match l3 with L3PROTO_IPV6 => pkt_init_ipv6 false | L3PROTO_IPV4 => pkt_init_ipv4 false end.

Definition min_header (l3 : l3_protocol) : Z := match l3 with L3PROTO_IPV6 => 40 | L3PROTO_IPV4 => 20 end.

(** The packet has its transport header. *)
Definition unfragmented (rx : rx_packet) : Prop :=
  let b := sk_bytes (rx_skb rx) in
  match lo_l3_proto (rx_layout rx) with
  | L3PROTO_IPV4 => forall f, raw16 b 6 = Some f -> is_first_frag4 f = true
  | L3PROTO_IPV6 => first_frag6 b (frag_offset (lo_meta (rx_layout rx))) = true
  end.

Lemma pkt_init_ok l3 skb sk :
  linear skb -> wf_bytes (sk_bytes skb) -> min_header l3 <= blen (sk_bytes skb) -> st_skb sk = skb ->
  exists r sk', pkt_init l3 sk = Some (r, sk') /\ st_skb sk' = skb /\
    forall lo mark, r = Ok lo -> unfragmented (RxPacket skb lo mark) ->
      lo_l3_proto lo = l3 /\ rx_ok (RxPacket skb lo mark).
Proof.
  intros Hlin Hb H40 Hsk. destruct l3.
  - destruct (pkt_init_ipv6_spec skb Hlin Hb false H40 sk Hsk) as (r & sk' & Hrun & Hs' & Hr). exists r, sk'.
    split; [done|]. split; [done|]. intros lo mark -> Hun. destruct Hr as [E3 Hlay]. split; [done|].
    unfold unfragmented, rx_ok in *. cbn [rx_skb rx_layout] in *. rewrite E3 in *. done.
  - destruct (pkt_init_ipv4_spec skb Hlin Hb false H40 sk Hsk) as (r & sk' & Hrun & Hs' & Hr). exists r, sk'.
    split; [done|]. split; [done|]. intros lo mark -> Hun. destruct Hr as [E3 Hlay]. split; [done|].
    unfold unfragmented, rx_ok in *. cbn [rx_skb rx_layout] in *. rewrite E3 in *. done.
Qed.

Lemma update_triple {R : RbTree} {L : RbTreeLaws R} c pkt tup db :
  config_ok c -> tuple_of pkt tup ->
  triple (owned [] [] db) (update_tuples c pkt tup)
    (fun r s => exists db', owned [] [] db' s /\
       match r with
       | (VERDICT_CONTINUE, out) => exists x, x ∈ db_entries (l4_proto tup) db' /\
           matches tup x /\ out = Some (out_tuple_of x tup) /\ filtered c pkt tup db db'
       | (_, out) => out = None
       end).
Proof.
  intros Hc Ht s Ho. unfold update_tuples.
  destruct (filtering_triple c Hc db pkt tup Ht s Ho) as (v & s1 & Hrun & db' & Ho1 & _ & Hv).
  destruct (decide (v = VERDICT_CONTINUE)) as [->|Hne].
  - destruct (compute_out_triple c db' tup (proj1 Ht) s1 Ho1) as ([v2 out2] & s2 & Hrun2 & Ho2 & Hpost).
    exists (v2, out2), s2. rewrite (bind_run _ _ _ _ _ Hrun), bool_decide_eq_true_2 by done. split; [done|].
    exists db'. split; [done|]. destruct v2; try (destruct Hpost as (? & ? & _); done).
    destruct Hpost as (x & Hx & Hm & ->). exists x. split_and!; try done. apply Hv. done.
  - exists (v, None), s1. rewrite (bind_run _ _ _ _ _ Hrun), bool_decide_eq_false_2 by done. split; [done|].
    exists db'. split; [done|]. destruct v; done.
Qed.

Lemma core_triple {R : RbTree} {L : RbTreeLaws R} c rx db :
  config_ok c -> rx_ok rx ->
  triple (owned [] [] db) (core_tuples c rx)
    (fun r s => exists db', owned [] [] db' s /\
       match r with
       | (VERDICT_CONTINUE, out) => exists tup x, tuple_of (packet_of rx) tup /\ x ∈ db_entries (l4_proto tup) db' /\
           matches tup x /\ out = Some (out_tuple_of x tup) /\ filtered c (packet_of rx) tup db db'
       | (_, out) => out = None
       end).
Proof.
  intros Hc Hrx. unfold core_tuples. eapply triple_bind; [apply (determine_triple c Hc rx Hrx)|]. intros [v out].
  assert (Hno : forall v : verdict, v <> VERDICT_CONTINUE -> triple (fun s => owned [] [] db s)
    (mret (v, None) : M fworld outcome) (fun r s => exists db', owned [] [] db' s /\ match r with
       | (VERDICT_CONTINUE, out) => exists tup x, tuple_of (packet_of rx) tup /\ x ∈ db_entries (l4_proto tup) db' /\
           matches tup x /\ out = Some (out_tuple_of x tup) /\ filtered c (packet_of rx) tup db db'
       | (_, out) => out = None end)).
  { intros v0 Hv. apply triple_ret. intros s Ho. exists db. split; [done|]. destruct v0; done. }
  destruct v as [| | |];
    [|eapply triple_weaken; [apply (Hno VERDICT_DROP)| |]|eapply triple_weaken; [apply (Hno VERDICT_ACCEPT)| |]|
      eapply triple_weaken; [apply (Hno VERDICT_STOLEN)| |]]; try discriminate; try (intros s [Ho _]; exact Ho);
    try (intros r s H; exact H).
  intros s [Ho (tup & -> & Ht)].
  destruct (update_triple c (packet_of rx) tup db Hc Ht s Ho) as ([v out] & s' & Hrun & db' & Ho' & Hv).
  exists (v, out), s'. split; [exact Hrun|]. exists db'. split; [exact Ho'|]. destruct v; try done.
  destruct Hv as (x & ? & ? & ? & ?). exists tup, x. done.
Qed.

(** C16: from the bytes of a packet to its outgoing tuple.  The validation of
    any buffer that is all within reach and has room for an IP header
    returns, whatever the bytes are; and if it accepts the packet and
    the packet has its transport header, the stateful steps read nothing
    outside of it, return, leave the databases consistent, and let it
    continue only with the tuple of the other side of a session that matches
    the packet's own. *)
Theorem bytes_to_tuple {R : RbTree} {L : RbTreeLaws R} c l3 skb sk mark s
    (Hc : config_ok c) (Hs : nat64_inv s) (Hlin : linear skb) (Hb : wf_bytes (sk_bytes skb))
    (Hmin : min_header l3 <= blen (sk_bytes skb)) (Hsk : st_skb sk = skb) :
  exists r sk', pkt_init l3 sk = Some (r, sk') /\ st_skb sk' = skb /\
    forall lo, r = Ok lo -> unfragmented (RxPacket skb lo mark) ->
      exists v out s', core_tuples c (RxPacket skb lo mark) s = Some ((v, out), s') /\ nat64_inv s' /\
        match v with
        | VERDICT_CONTINUE => exists tup x, tuple_of (packet_of (RxPacket skb lo mark)) tup /\ l3_proto tup = l3 /\
            x ∈ db_entries (l4_proto tup) (f_db s') /\ matches tup x /\ out = Some (out_tuple_of x tup) /\
            filtered c (packet_of (RxPacket skb lo mark)) tup (f_db s) (f_db s')
        | _ => out = None
        end.
Proof.
  destruct (pkt_init_ok l3 skb sk Hlin Hb Hmin Hsk) as (r & sk' & Hrun & Hsk' & Hr). exists r, sk'.
  split; [done|]. split; [done|]. intros lo E Hun. destruct (Hr lo mark E Hun) as [E3 Hrx].
  destruct (core_triple c _ (f_db s) Hc Hrx s Hs) as ([v out] & s' & Hrun' & db' & Ho & Hpost).
  exists v, out, s'. split; [done|]. split; [eapply owned_inv; exact Ho|]. destruct Ho as (-> & _).
  destruct v; try done. destruct Hpost as (tup & x & Ht & Hx & Hm & -> & Hf). exists tup, x. split_and!; try done.
  destruct Ht as (_ & H3 & _). rewrite <- H3. exact E3.
Qed.

(** ** ICMP errors *)

(** The packet [q] carries, as the payload of its ICMP header, the start of
    [p]: its network headers and eight bytes more. *)
Definition quotes (q p : rx_packet) : Prop :=
  forall i, 0 <= i < rx_l4 p + 8 ->
    ld8 (sk_bytes (rx_skb q)) (rx_l4 q + 8 + i) = ld8 (sk_bytes (rx_skb p)) i.

Lemma ldn_shift n b b' h : forall i,
  (forall j, i <= j < i + Z.of_nat n -> ld8 b' (h + j) = ld8 b j) -> ldn n b' (h + i) = ldn n b i.
Proof.
  induction n as [|n IH]; intros i H; [done|]. cbn [ldn]. rewrite H by lia.
  replace (h + i + 1) with (h + (i + 1)) by lia. rewrite IH by (intros; apply H; lia). done.
Qed.

Lemma ldn_shift' n b b' h k i : k = h + i ->
  (forall j, i <= j < i + Z.of_nat n -> ld8 b' (h + j) = ld8 b j) -> ldn n b' k = ldn n b i.
Proof. intros ->. apply ldn_shift. Qed.

Lemma icmp4_error_not_info type : is_icmp4_error type = true -> is_icmp4_info type = false.
Proof.
  unfold is_icmp4_error, is_icmp4_info. rewrite !orb_true_iff, !Z.eqb_eq.
  intros H. apply orb_false_iff. rewrite !Z.eqb_neq. unfold ICMP_DEST_UNREACH, ICMP_SOURCE_QUENCH, ICMP_REDIRECT,
    ICMP_TIME_EXCEEDED, ICMP_PARAMETERPROB, ICMP_ECHO, ICMP_ECHOREPLY in *. lia.
Qed.

Lemma icmp6_error_not_info type : is_icmp6_error type = true -> is_icmp6_info type = false.
Proof.
  unfold is_icmp6_error, is_icmp6_info. rewrite !orb_true_iff, !Z.eqb_eq.
  intros H. apply orb_false_iff. rewrite !Z.eqb_neq. unfold ICMPV6_DEST_UNREACH, ICMPV6_PKT_TOOBIG, ICMPV6_TIME_EXCEED,
    ICMPV6_PARAMPROB, ICMPV6_ECHO_REQUEST, ICMPV6_ECHO_REPLY in *. lia.
Qed.

Lemma load_some {S A B} (o : option A) (f : A -> M S B) s r :
  (load o ≫= f) s = Some r -> exists a, o = Some a /\ f a s = Some r.
Proof. unfold mbind, M_bind, load. destruct o as [a|]; [eauto|done]. Qed.

Lemma load_bind {S A B} (o : option A) a (f : A -> M S B) s : o = Some a -> (load o ≫= f) s = f a s.
Proof. intros ->. done. Qed.

Ltac unload H := let x := fresh "x" in let E := fresh "E" in apply load_some in H as (x & E & H).

(** The walk over the extension headers never moves back, and finds in a copy
    of the headers what it finds in the headers. *)
Lemma last_loop_le fuel b : forall it last, wf_bytes b ->
  hdr_iterator_last_loop fuel b it = Some last -> hdr_data it <= hdr_data last.
Proof.
  induction fuel as [|fuel IH]; intros [ty o] last Hb H; cbn [hdr_iterator_last_loop] in H; [done|].
  unfold hdr_iterator_next in H. cbn [hdr_type hdr_data] in *.
  destruct (is_opt_hdr ty); [|destruct (ty =? NEXTHDR_FRAGMENT); [|injection H as <-; cbn; lia]];
    (destruct (ld8 b o) as [n|] eqn:E; cbn in H; [|done]).
  - destruct (ld8 b (o + 1)) as [l|] eqn:El; cbn in H; [|done]. pose proof (ld8_u8 _ _ _ Hb El) as [? _].
    apply IH in H; [|done]. cbn [hdr_data] in H. lia.
  - apply IH in H; [|done]. cbn [hdr_data] in H. lia.
Qed.

Lemma last_loop_shift b b' h fuel : forall fuel' ty o ty' l, wf_bytes b ->
  (forall j, o <= j < l -> ld8 b' (h + j) = ld8 b j) -> l - o < Z.of_nat fuel' ->
  hdr_iterator_last_loop fuel b (HdrIterator ty o) = Some (HdrIterator ty' l) ->
  hdr_iterator_last_loop fuel' b' (HdrIterator ty (h + o)) = Some (HdrIterator ty' (h + l)).
Proof.
  induction fuel as [|fuel IH]; intros fuel' ty o ty' l Hb Hsame Hf H; [done|].
  pose proof (last_loop_le _ _ _ _ Hb H) as Hol. cbn [hdr_data] in Hol.
  destruct fuel' as [|fuel']; [lia|]. cbn [hdr_iterator_last_loop] in *. unfold hdr_iterator_next in *.
  cbn [hdr_type hdr_data] in *.
  destruct (is_opt_hdr ty); [|destruct (ty =? NEXTHDR_FRAGMENT); [|injection H as <- <-; done]];
    (destruct (ld8 b o) as [n|] eqn:E; cbn in H; [|done]).
  - destruct (ld8 b (o + 1)) as [len|] eqn:El; cbn in H; [|done]. pose proof (ld8_u8 _ _ _ Hb El) as [? _].
    pose proof (last_loop_le _ _ _ _ Hb H) as Hle. cbn [hdr_data] in Hle.
    rewrite Hsame, E by lia. replace (h + o + 1) with (h + (o + 1)) by lia. rewrite Hsame, El by lia. cbn.
    replace (h + o + (8 + 8 * len)) with (h + (o + (8 + 8 * len))) by lia.
    apply IH; [done|intros; apply Hsame; lia|lia|exact H].
  - pose proof (last_loop_le _ _ _ _ Hb H) as Hle. cbn [hdr_data] in Hle. rewrite Hsame, E by lia. cbn.
    replace (h + o + 8) with (h + (o + 8)) by lia. apply IH; [done|intros; apply Hsame; lia|lia|exact H].
Qed.

Definition is_error_type (l3 : l3_protocol) (type : Z) : bool :=
  match l3 with L3PROTO_IPV4 => is_icmp4_error type | L3PROTO_IPV6 => is_icmp6_error type end.

(** The packet is an ICMP error. *)
Definition is_error (rx : rx_packet) : Prop :=
  rx_l4_proto rx = L4PROTO_ICMP /\ exists type, ld8 (sk_bytes (rx_skb rx)) (rx_l4 rx) = Some type /\
    is_error_type (lo_l3_proto (rx_layout rx)) type = true.

Lemma not_error_type rx type :
  ~ is_error rx -> rx_l4_proto rx = L4PROTO_ICMP -> ld8 (sk_bytes (rx_skb rx)) (rx_l4 rx) = Some type ->
  is_error_type (lo_l3_proto (rx_layout rx)) type = false.
Proof. intros H Hp Ht. apply not_true_is_false. intros E. apply H. split; [exact Hp|]. exists type. split; [exact Ht|exact E]. Qed.

Section Quote.
Context (c : config) (q p : rx_packet).
Abbreviation bq := (sk_bytes (rx_skb q)).
Abbreviation bp := (sk_bytes (rx_skb p)).
Hypothesis (Hq : rx_ok q) (Hp : rx_ok p) (Hquote : quotes q p) (Hne : ~ is_error p).
Hypothesis (Hl3 : lo_l3_proto (rx_layout q) = lo_l3_proto (rx_layout p)) (Hicmp : rx_l4_proto q = L4PROTO_ICMP).

(** A load from the quoted headers. *)
Lemma ldn_quoted n k i : k = rx_l4 q + 8 + i -> 0 <= i -> i + Z.of_nat n <= rx_l4 p + 8 -> ldn n bq k = ldn n bp i.
Proof. intros -> H0 Hn. apply (ldn_shift' _ _ _ (rx_l4 q + 8)); [lia|]. intros j Hj. apply Hquote. lia. Qed.

Lemma ld8_quoted k i : k = rx_l4 q + 8 + i -> 0 <= i < rx_l4 p + 8 -> ld8 bq k = ld8 bp i.
Proof. intros -> Hi. apply Hquote. done. Qed.

Ltac protos := cbv [IPPROTO_TCP IPPROTO_UDP IPPROTO_ICMP NEXTHDR_TCP NEXTHDR_UDP NEXTHDR_ICMP Z.eqb Pos.eqb].

Ltac reload H := erewrite load_bind by exact H.

(** A load from the quoted packet, by the original's at [i]. *)
Ltac requote i H := erewrite load_bind by
  first [ rewrite (ldn_quoted _ _ i); [exact H | lia | lia | lia ] | rewrite (ld8_quoted _ i) by lia; exact H ].

Lemma quoted4 type s tup s1 :
  lo_l3_proto (rx_layout p) = L3PROTO_IPV4 -> 20 <= rx_l4 p ->
  ld8 bq (rx_l4 q) = Some type -> is_icmp4_error type = true ->
  determine_in_tuple c p s = Some ((VERDICT_CONTINUE, Some tup), s1) ->
  determine_in_tuple c q s = Some ((VERDICT_CONTINUE, Some (reply tup)), s).
Proof.
  intros E3 H20 Ety Eerr Hdet. pose proof Hp as (_ & Hb & Hlay). rewrite E3 in Hlay.
  destruct Hlay as (_ & ((Eihl & (pr & Epr & Epm) & _) & _ & Hic) & _). fold (rx_l4 p) in Eihl.
  unfold determine_in_tuple in *. rewrite Hl3, E3, Hicmp. rewrite E3 in Hdet. fold (rx_l4_proto p) in Epm.
  unfold ipv4_icmp, ipv4_icmp_err. rewrite (rx_bytes_all q Hq).
  rewrite (load_bind _ _ _ _ Ety), (icmp4_error_not_info _ Eerr), Eerr.
  cbv zeta.
  assert (Hhl : ip4_hdr_len bq (rx_l4 q + 8) = Some (rx_l4 p)).
  { rewrite <- Eihl. unfold ip4_hdr_len. rewrite (ld8_quoted _ 0) by lia. done. }
  assert (Hports : forall proto, ipv4_ports proto p s = Some ((VERDICT_CONTINUE, Some tup), s1) ->
    exists sa da sp dp, ldn 4 bp 12 = Some sa /\ ldn 4 bp 16 = Some da /\ ldn 2 bp (rx_l4 p) = Some sp /\
      ldn 2 bp (rx_l4 p + 2) = Some dp /\ tup = Tuple4 (TAddr4 (InAddr sa) sp) (TAddr4 (InAddr da) dp) proto).
  { intros proto H. unfold ipv4_ports in H. rewrite (rx_bytes_all p Hp) in H. do 4 unload H. injection H as <- <-. eauto 10. }
  rewrite Epm in Hdet. unfold l4_of_protocol in Hdet, Epm.
  destruct (Z.eqb_spec pr IPPROTO_TCP) as [Et|_]; [subst pr|destruct (Z.eqb_spec pr IPPROTO_UDP) as [Et|_];
    [subst pr|destruct (Z.eqb_spec pr IPPROTO_ICMP) as [Et|_]; [subst pr|discriminate Hdet]]].
  - destruct (Hports _ Hdet) as (sa & da & sp & dp & Esa & Eda & Esp & Edp & ->).
    requote 16 Eda. requote 12 Esa. requote 9 Epr. protos. reload Hhl. requote (rx_l4 p + 2) Edp.
    requote (rx_l4 p) Esp. done.
  - destruct (Hports _ Hdet) as (sa & da & sp & dp & Esa & Eda & Esp & Edp & ->).
    requote 16 Eda. requote 12 Esa. requote 9 Epr. protos. reload Hhl. requote (rx_l4 p + 2) Edp.
    requote (rx_l4 p) Esp. done.
  - unfold ipv4_icmp in Hdet. rewrite (rx_bytes_all p Hp) in Hdet.
    apply load_some in Hdet as (ty & Ety' & Hdet). pose proof (not_error_type p ty Hne Epm Ety') as Hn. rewrite E3 in Hn. cbn [is_error_type] in Hn. rewrite Hn in Hdet.
    destruct (is_icmp4_info ty); [|discriminate Hdet]. unfold ipv4_icmp_info in Hdet. rewrite (rx_bytes_all p Hp) in Hdet.
    apply load_some in Hdet as (sa & Esa & Hdet). apply load_some in Hdet as (id & Eid & Hdet).
    apply load_some in Hdet as (da & Eda & Hdet). injection Hdet as <- <-.
    requote 16 Eda. requote 12 Esa. requote 9 Epr. protos. reload Hhl. requote (rx_l4 p) Ety'. rewrite Hn.
    requote (rx_l4 p + 4) Eid. done.
Qed.

(** The walk over the quoted headers. *)
Lemma last_quoted it type :
  wf_bytes bp -> 40 <= rx_l4 p -> (exists x, ld8 bp (rx_l4 p) = Some x) ->
  HDR_ITERATOR_INIT bp 0 = Some it -> hdr_iterator_last bp it = Some (HdrIterator type (rx_l4 p)) ->
  exists it', HDR_ITERATOR_INIT bq (rx_l4 q + 8) = Some it' /\
    hdr_iterator_last bq it' = Some (HdrIterator type (rx_l4 q + 8 + rx_l4 p)).
Proof.
  intros Hb H40 [x Hx] Hit Hlast. unfold HDR_ITERATOR_INIT in *. destruct (ld8 bp (0 + 6)) as [n|] eqn:En; [|done].
  injection Hit as <-. change (0 + 6) with 6 in En. rewrite (ld8_quoted _ 6), En by lia. eexists. split; [reflexivity|].
  apply (last_loop_shift bp bq (rx_l4 q + 8) _ (S (length bq)) n 40 type (rx_l4 p)) in Hlast; [exact Hlast|done| |].
  - intros j Hj. apply ld8_quoted; lia.
  - rewrite <- (ld8_quoted (rx_l4 q + 8 + rx_l4 p) (rx_l4 p)) in Hx by lia. apply ld8_bound in Hx.
    assert (0 <= rx_l4 q).
    { pose proof Hq as (_ & Hbq & Hlay). destruct (lo_l3_proto (rx_layout q)).
      - destruct Hlay as (_ & ((_ & Hle) & _) & _). fold (rx_l4 q) in Hle. lia.
      - destruct Hlay as (H20 & ((Eihl & _) & _) & _). destruct (ip4_hdr_len_some (rx_skb q) Hbq 0) as (y & Ey & Hy); [lia|].
        fold (rx_l4 q) in Eihl. congruence. }
    unfold blen in Hx. lia.
Qed.

Lemma quoted6 type s tup s1 :
  lo_l3_proto (rx_layout p) = L3PROTO_IPV6 ->
  ld8 bq (rx_l4 q) = Some type -> is_icmp6_error type = true ->
  determine_in_tuple c p s = Some ((VERDICT_CONTINUE, Some tup), s1) ->
  determine_in_tuple c q s = Some ((VERDICT_CONTINUE, Some (reply tup)), s).
Proof.
  intros E3 Ety Eerr Hdet. pose proof Hp as (_ & Hb & Hlay). rewrite E3 in Hlay.
  destruct Hlay as (_ & ((((ty & Hlast & Epm) & _) & H40) & _ & Hic) & _). fold (rx_l4 p) in Hlast, H40.
  destruct (HDR_ITERATOR_INIT bp 0) as [it|] eqn:Eit; [|done]. cbn in Hlast.
  change (hdr_iterator_last bp it = Some (HdrIterator ty (rx_l4 p))) in Hlast.
  pose proof (fun H => last_quoted it ty Hb ltac:(lia) H Eit Hlast) as Hq6.
  unfold determine_in_tuple in *. rewrite Hl3, E3, Hicmp. rewrite E3 in Hdet. fold (rx_l4_proto p) in Epm.
  unfold ipv6_icmp, ipv6_icmp_err. rewrite (rx_bytes_all q Hq).
  rewrite (load_bind _ _ _ _ Ety), (icmp6_error_not_info _ Eerr), Eerr. cbv zeta.
  assert (Hports : forall proto, ipv6_ports proto p s = Some ((VERDICT_CONTINUE, Some tup), s1) ->
    exists sa da sp dp, ldn 16 bp 8 = Some sa /\ ldn 16 bp 24 = Some da /\ ldn 2 bp (rx_l4 p) = Some sp /\
      ldn 2 bp (rx_l4 p + 2) = Some dp /\ tup = Tuple6 (TAddr6 (In6Addr sa) sp) (TAddr6 (In6Addr da) dp) proto).
  { intros proto H. unfold ipv6_ports in H. rewrite (rx_bytes_all p Hp) in H. do 4 unload H. injection H as <- <-. eauto 10. }
  assert (H8 : forall x, ldn 2 bp (rx_l4 p) = Some x -> exists y, ld8 bp (rx_l4 p) = Some y).
  { intros x. cbn [ldn]. destruct (ld8 bp (rx_l4 p)); [eauto|done]. }
  rewrite Epm in Hdet. unfold l4_of_nexthdr in Hdet, Epm.
  destruct (Z.eqb_spec ty NEXTHDR_TCP) as [Et|_]; [subst ty|destruct (Z.eqb_spec ty NEXTHDR_UDP) as [Et|_];
    [subst ty|destruct (Z.eqb_spec ty NEXTHDR_ICMP) as [Et|_]; [subst ty|]]].
  - destruct (Hports _ Hdet) as (sa & da & sp & dp & Esa & Eda & Esp & Edp & ->).
    destruct (Hq6 (H8 _ Esp)) as (it' & Ei & El). reload Ei. requote 24 Eda. requote 8 Esa. reload El.
    cbn [hdr_type hdr_data]. protos. requote (rx_l4 p + 2) Edp. requote (rx_l4 p) Esp. done.
  - destruct (Hports _ Hdet) as (sa & da & sp & dp & Esa & Eda & Esp & Edp & ->).
    destruct (Hq6 (H8 _ Esp)) as (it' & Ei & El). reload Ei. requote 24 Eda. requote 8 Esa. reload El.
    cbn [hdr_type hdr_data]. protos. requote (rx_l4 p + 2) Edp. requote (rx_l4 p) Esp. done.
  - unfold ipv6_icmp in Hdet. rewrite (rx_bytes_all p Hp) in Hdet.
    apply load_some in Hdet as (ty & Ety' & Hdet). pose proof (not_error_type p ty Hne Epm Ety') as Hn. rewrite E3 in Hn. cbn [is_error_type] in Hn. rewrite Hn in Hdet.
    destruct (is_icmp6_info ty); [|discriminate Hdet]. unfold ipv6_icmp_info in Hdet. rewrite (rx_bytes_all p Hp) in Hdet.
    apply load_some in Hdet as (id & Eid & Hdet). apply load_some in Hdet as (sa & Esa & Hdet).
    apply load_some in Hdet as (da & Eda & Hdet). injection Hdet as <- <-.
    destruct (Hq6 (ex_intro _ _ Ety')) as (it' & Ei & El). reload Ei. requote 24 Eda. requote 8 Esa. reload El.
    cbn [hdr_type hdr_data]. protos. requote (rx_l4 p) Ety'. rewrite Hn. requote (rx_l4 p + 4) Eid. done.
  - exfalso. rewrite (rx_bytes_all p Hp) in Hdet. apply load_some in Hdet as (da & Eda & Hdet).
    revert Hdet. unfold mbind, M_bind, ask_pool6.
    destruct (pool6_contains (Some (In6Addr da)) (c_pool6 c)) as [[[] ?]|];
      intros H; cbn in H; repeat case_match; discriminate H.
Qed.

End Quote.

(** C15: an ICMP error comes back to whoever sent the packet it is about.  Let
    [p] be a packet that left with the tuple the translator gave to one of a
    session's, and [q] an ICMP error that quotes [p]'s network headers and
    at least eight bytes more, from whatever router, whatever extension
    headers or options they have, and that the validation of incoming packets
    accepts ([rx_ok]: everything in the linear part of the buffer; of a TCP
    packet the whole TCP header is quoted, as an error with only
    its first eight bytes is dropped, [short_tcp_quote_rejected]).  The tuple of [q] is the reply of
    [p]'s, not its own addresses'; no session is touched; and if the pools recognise
    [q] it leaves with the reply of the tuple that was translated. *)
Theorem icmp_error_returns {R : RbTree} {L : RbTreeLaws R} c q p s tup out s0 s1
    (Hc : config_ok c) (Hs : nat64_inv s) (Hw : wf_tuple tup) (Hq : rx_ok q) (Hp : rx_ok p) (Hquote : quotes q p)
    (Herr : is_error q) (Hne : ~ is_error p) (Hl3 : lo_l3_proto (rx_layout q) = lo_l3_proto (rx_layout p))
    (Hhdr : min_header (lo_l3_proto (rx_layout p)) <= rx_l4 p)
    (Hout : compute_out_tuple c tup s = Some ((VERDICT_CONTINUE, Some out), s0))
    (Hdet : determine_in_tuple c p s = Some ((VERDICT_CONTINUE, Some out), s1)) :
  determine_in_tuple c q s = Some ((VERDICT_CONTINUE, Some (reply out)), s) /\
  (eligible c (packet_of q) (reply out) ->
     exists s', core_tuples c q s = Some ((VERDICT_CONTINUE, Some (reply tup)), s') /\ nat64_inv s' /\
       forall pr y, y ∈ db_entries pr (f_db s') <-> y ∈ db_entries pr (f_db s)).
Proof.
  destruct Herr as (Hicmp & type & Ety & Eerr).
  assert (Hq' : determine_in_tuple c q s = Some ((VERDICT_CONTINUE, Some (reply out)), s)).
  { rewrite Hl3 in Eerr. destruct (lo_l3_proto (rx_layout p)) eqn:E3.
    - exact (quoted6 c q p Hq Hp Hquote Hne ltac:(congruence) Hicmp type s out s1 E3 Ety Eerr Hdet).
    - exact (quoted4 c q p Hq Hp Hquote Hne ltac:(congruence) Hicmp type s out s1 E3 Hhdr Ety Eerr Hdet). }
  split; [exact Hq'|]. intros Hel.
  destruct (compute_out_triple c (f_db s) tup Hw s Hs) as ([v o] & s2 & Hrun & Ho & Hv).
  rewrite Hout in Hrun. injection Hrun as <- <- <-. destruct Hv as (x & Hx & Hm & E). injection E as ->.
  destruct (out_tuple_reply s tup x Hs Hx Hm) as (Wo & Ep & Mo & Eo & _).
  destruct (determine_triple c Hc q Hq (f_db s) s Hs) as (r & s2 & Hrun & _ & Hr).
  rewrite Hq' in Hrun. injection Hrun as <- <-. destruct Hr as (t & Et & Ht). injection Et as <-.
  destruct (known_filtering c (f_db s) (packet_of q) _ Ht Hel (or_intror (ex_intro _ x (conj (eq_rect_r (fun p => x ∈ db_entries p (f_db s)) Hx Ep) Mo))) s Hs)
    as (v & s2 & Hrun & -> & db' & Ho' & Hent). pose proof (owned_inv _ _ Ho') as Hi. destruct Ho' as (Edb & _).
  destruct (compute_out_finds c (reply (out_tuple_of x tup)) s2 x Wo Hi) as (s3 & R3 & I3 & E3);
    [rewrite Edb, Ep; apply Hent; exact Hx|exact Mo|].
  exists s3. unfold core_tuples, update_tuples. rewrite (bind_run _ _ _ _ _ Hq'). cbn [fst snd].
  rewrite (bind_run _ _ _ _ _ Hrun), bool_decide_eq_true_2 by done. rewrite R3, Eo. split; [done|]. split; [exact I3|].
  rewrite E3, Edb. exact Hent.
Qed.

(** ** Packets of the scene *)

#[local] Existing Instances plain_rbtree plain_rbtree_laws.

(** The SYN of the scene, its translation, and the complaint of 203.0.113.9
    about the latter. *)
Definition scene_syn6 : bytes :=
  [0x60; 0; 0; 0; 0; 20; 6; 64;
   0x20; 0x01; 0x0d; 0xb8; 0; 0; 0; 0; 0; 0; 0; 0; 0; 0; 0; 5;
   0; 0x64; 0xff; 0x9b; 0; 0; 0; 0; 0; 0; 0; 0; 198; 51; 100; 2;
   0x17; 0x70; 0; 80; 0; 0; 0; 1; 0; 0; 0; 0; 0x50; 2; 0; 0; 0; 0; 0; 0].

Definition scene_syn4 : bytes :=
  [0x45; 0; 0; 40; 0; 0; 0; 0; 63; 6; 0; 0; 192; 0; 2; 1; 198; 51; 100; 2;
   0; 80; 0; 80; 0; 0; 0; 1; 0; 0; 0; 0; 0x50; 2; 0; 0; 0; 0; 0; 0].

Definition scene_unreachable4 : bytes :=
  [0x45; 0; 0; 68; 0; 0; 0; 0; 60; 1; 0; 0; 203; 0; 113; 9; 192; 0; 2; 1;
   3; 1; 0; 0; 0; 0; 0; 0] ++ scene_syn4.

Definition scene_skb (b : bytes) : sk_buff := SkBuff 1 b (blen b) false.

Definition scene_layout (l3 : l3_protocol) (b : bytes) : pkt_layout :=
  match pkt_init l3 (SkState (scene_skb b) [] []) with
  | Some (Ok lo, _) => lo
  | _ => Layout l3 (Meta None L4PROTO_OTHER 0 0)
  end.

Definition scene_rx (l3 : l3_protocol) (b : bytes) : rx_packet := RxPacket (scene_skb b) (scene_layout l3 b) 0.

Lemma scene_bytes_wf : wf_bytes scene_syn6 /\ wf_bytes scene_syn4 /\ wf_bytes scene_unreachable4.
Proof. repeat split; repeat constructor; done. Qed.

Lemma scene_rx_ok l3 b :
  wf_bytes b -> min_header l3 <= blen b -> unfragmented (scene_rx l3 b) ->
  option_map fst (pkt_init l3 (SkState (scene_skb b) [] [])) = Some (Ok (scene_layout l3 b)) -> rx_ok (scene_rx l3 b).
Proof.
  intros Hb Hm Hun Hrun. destruct (pkt_init_ok l3 (scene_skb b) _ eq_refl Hb Hm (eq_refl : st_skb (SkState (scene_skb b) [] []) = _))
    as (r & sk' & Hrun' & _ & Hr). rewrite Hrun' in Hrun. injection Hrun as ->. exact (proj2 (Hr _ 0 eq_refl Hun)).
Qed.

Lemma bytes_to_tuple_witness :
  option_map fst (pkt_init L3PROTO_IPV6 (SkState (scene_skb scene_syn6) [] [])) = Some (Ok (scene_layout L3PROTO_IPV6 scene_syn6)) /\
  exists s', core_tuples scene_cfg (scene_rx L3PROTO_IPV6 scene_syn6) scene_start =
    Some ((VERDICT_CONTINUE, Some (Tuple4 (TAddr4 (InAddr 0xc0000201) 80) (TAddr4 (InAddr 0xc6336402) 80) L4PROTO_TCP)), s') /\
    nat64_inv s'.
Proof.
  assert (Hlay : option_map fst (pkt_init L3PROTO_IPV6 (SkState (scene_skb scene_syn6) [] [])) =
    Some (Ok (scene_layout L3PROTO_IPV6 scene_syn6))) by (vm_compute; reflexivity). split; [exact Hlay|].
  destruct (bytes_to_tuple scene_cfg L3PROTO_IPV6 (scene_skb scene_syn6) (SkState (scene_skb scene_syn6) [] []) 0 scene_start
    scene_cfg_ok (reachable_inv _ scene_start_reachable) eq_refl (proj1 scene_bytes_wf) ltac:(vm_compute; congruence) eq_refl)
    as (r & sk' & Hrun & _ & Hr). rewrite Hrun in Hlay. injection Hlay as Er.
  destruct (Hr _ Er eq_refl) as (v & out & s' & Hrun' & Hi & _). exists s'. split; [|exact Hi].
  change (RxPacket (scene_skb scene_syn6) (scene_layout L3PROTO_IPV6 scene_syn6) 0) with (scene_rx L3PROTO_IPV6 scene_syn6) in Hrun'.
  rewrite Hrun'. apply (f_equal (option_map fst)) in Hrun'. vm_compute in Hrun'. injection Hrun' as <- <-. reflexivity.
Defined.

Lemma scene_quotes : quotes (scene_rx L3PROTO_IPV4 scene_unreachable4) (scene_rx L3PROTO_IPV4 scene_syn4).
Proof.
  intros i Hi. change (rx_l4 (scene_rx L3PROTO_IPV4 scene_syn4) + 8) with 28 in Hi.
  assert (H : Forall (fun i => ld8 scene_unreachable4 (28 + i) = ld8 scene_syn4 i) (seqZ 0 28)) by (vm_compute; repeat constructor).
  rewrite Forall_forall in H. apply H, elem_of_seqZ. lia.
Qed.

Lemma icmp_error_returns_witness :
  exists s', core_tuples scene_cfg (scene_rx L3PROTO_IPV4 scene_unreachable4) scene_two =
    Some ((VERDICT_CONTINUE, Some (reply scene_tuple)), s') /\ nat64_inv s'.
Proof.
  set (out := Tuple4 (TAddr4 (InAddr 0xc0000201) 80) (TAddr4 (InAddr 0xc6336402) 80) L4PROTO_TCP).
  assert (Hout : exists s0, compute_out_tuple scene_cfg scene_tuple scene_two = Some ((VERDICT_CONTINUE, Some out), s0))
    by (eexists; vm_compute; reflexivity).
  assert (Hdet : exists s1, determine_in_tuple scene_cfg (scene_rx L3PROTO_IPV4 scene_syn4) scene_two =
    Some ((VERDICT_CONTINUE, Some out), s1)) by (eexists; vm_compute; reflexivity).
  destruct Hout as [s0 Hout], Hdet as [s1 Hdet]. destruct scene_bytes_wf as (_ & W4 & W4').
  assert (Hun : forall b, (forall f, raw16 b 6 = Some f -> is_first_frag4 f = true) ->
    lo_l3_proto (scene_layout L3PROTO_IPV4 b) = L3PROTO_IPV4 -> unfragmented (scene_rx L3PROTO_IPV4 b)).
  { intros b Hf E. unfold unfragmented. cbn [scene_rx rx_layout rx_skb]. rewrite E. exact Hf. }
  assert (Hq : rx_ok (scene_rx L3PROTO_IPV4 scene_unreachable4)).
  { apply scene_rx_ok; [exact W4'|vm_compute; congruence|apply Hun; [intros f [= <-]; reflexivity|reflexivity]|vm_compute; reflexivity]. }
  assert (Hp : rx_ok (scene_rx L3PROTO_IPV4 scene_syn4)).
  { apply scene_rx_ok; [exact W4|vm_compute; congruence|apply Hun; [intros f [= <-]; reflexivity|reflexivity]|vm_compute; reflexivity]. }
  destruct (icmp_error_returns scene_cfg (scene_rx L3PROTO_IPV4 scene_unreachable4) (scene_rx L3PROTO_IPV4 scene_syn4)
    scene_two scene_tuple out s0 s1 scene_cfg_ok (reachable_inv _ scene_two_reachable) ltac:(wf_compute) Hq Hp scene_quotes
    ltac:(split; [reflexivity|exists 3; split; reflexivity]) ltac:(intros [E _]; vm_compute in E; discriminate E) eq_refl
    ltac:(vm_compute; congruence) Hout Hdet) as [_ H].
  destruct H as (s' & Hrun & Hi & _); [vm_compute; reflexivity|]. exists s'. split; [exact Hrun|exact Hi].
Defined.

(** An error that quotes only the first eight bytes of a TCP header is dropped
    as truncated. *)
Lemma short_tcp_quote_rejected :
  exists sk', pkt_init L3PROTO_IPV4 (SkState (scene_skb (take 56 scene_unreachable4)) [] []) = Some (Err EINVAL, sk') /\
    st_events sk' = [EvStat 1 IPSTATS_MIB_INTRUNCATEDPKTS].
Proof. eexists. split; [vm_compute; reflexivity|reflexivity]. Qed.
