(* ===== verification/Checksum.v ===== *)
(** * Internet checksums

    The kernel's checksum functions, as an interface ([KernelCsum] and its
    laws): sums of 16-bit words as a little-endian machine loads
    them, known modulo 65535, as one's complement arithmetic is.  On it, the incremental
    updates of [mod/common/rfc6145/6to4.c] and [4to6.c]: what they take
    from a checksum and add to it. *)
From S2P Require Import Prelude Types Packet Skb.
From Stdlib Require Import Setoid Morphisms.

Declare Scope csum_scope.
#[global] Open Scope csum_scope.

(** ** One's complement *)

Definition cong (x y : Z) : Prop := exists k, x = y + 65535 * k.
Notation "x ≡c y" := (cong x y) (at level 70) : csum_scope.

#[global] Instance cong_equiv : Equivalence cong.
Proof.
  split; unfold Reflexive, Symmetric, Transitive, cong.
  - intros x. exists 0. lia.
  - intros x y [k ->]. exists (- k). lia.
  - intros x y z [k ->] [l ->]. exists (l + k). lia.
Qed.

#[global] Instance cong_add : Proper (cong ==> cong ==> cong) Z.add.
Proof. intros x x' [k ->] y y' [l ->]. exists (k + l). lia. Qed.

#[global] Instance cong_sub : Proper (cong ==> cong ==> cong) Z.sub.
Proof. intros x x' [k ->] y y' [l ->]. exists (k - l). lia. Qed.

#[global] Instance cong_opp : Proper (cong ==> cong) Z.opp.
Proof. intros x x' [k ->]. exists (- k). lia. Qed.

(** [~] on [__wsum] and on [__sum16]. *)
Definition not32 (x : Z) : Z := 2 ^ 32 - 1 - x.
Definition not16 (x : Z) : Z := 2 ^ 16 - 1 - x.

Lemma not32_cong x : not32 x ≡c - x.
Proof. exists 65537. unfold not32. lia. Qed.

Lemma not16_cong x : not16 x ≡c - x.
Proof. exists 1. unfold not16. lia. Qed.

Lemma not32_range x : is_u32 x -> is_u32 (not32 x).
Proof. unfold is_u32, not32. lia. Qed.

Lemma not16_range x : is_u16 x -> is_u16 (not16 x).
Proof. unfold is_u16, not16. lia. Qed.

(** The sum of the words of [b]; an odd byte is padded with zero. *)
Fixpoint raw_sum (b : bytes) : Z :=
  match b with
  | x :: y :: b => x + 256 * y + raw_sum b
  | [x] => x
  | [] => 0
  end.

Lemma list_pair_ind {A} (P : list A -> Prop) :
  P [] -> (forall x, P [x]) -> (forall x y l, P l -> P (x :: y :: l)) -> forall l, P l.
Proof.
  intros H0 H1 H2 l. enough (P l /\ forall x, P (x :: l)) by tauto.
  induction l as [|y l [IH1 IH2]]; split; auto.
Qed.

Lemma raw_sum_app a b : Nat.Even (length a) -> raw_sum (a ++ b) = raw_sum a + raw_sum b.
Proof.
  induction a as [|x|x y a IH] using list_pair_ind; intros He.
  - done.
  - destruct He as [k Hk]. cbn in Hk. lia.
  - cbn [app raw_sum]. rewrite IH; [lia|]. destruct He as [k Hk]. exists (k - 1)%nat. cbn in Hk. lia.
Qed.

Lemma raw_sum_nonneg b : wf_bytes b -> 0 <= raw_sum b.
Proof.
  unfold wf_bytes. induction b as [|x|x y b IH] using list_pair_ind; intros Hb; cbn [raw_sum].
  - lia.
  - inversion Hb as [|? ? [? _] _]; subst. lia.
  - inversion Hb as [|? ? [? _] Hb']; subst. inversion Hb' as [|? ? [? _] Hb'']; subst. specialize (IH Hb''). lia.
Qed.

(** Bytes of a number, most significant first; and of a 16-bit value as the
    machine stores it. *)
Fixpoint be_bytes (n : nat) (x : Z) : bytes :=
  match n with
  | O => []
  | S n => bits x (8 * Z.of_nat n) 8 :: be_bytes n x
  end.

Definition raw_bytes16 (x : Z) : bytes := [bits x 0 8; bits x 8 8].

Lemma be_bytes_length n x : length (be_bytes n x) = n.
Proof. induction n; cbn; auto. Qed.

Lemma be_bytes_wf n x : wf_bytes (be_bytes n x).
Proof. induction n as [|n IH]; constructor; [|exact IH]. apply bits_range. lia. Qed.

Lemma raw_bytes16_wf x : wf_bytes (raw_bytes16 x).
Proof. repeat constructor; apply bits_range; lia. Qed.

Lemma raw_bytes16_sum x : is_u16 x -> raw_sum (raw_bytes16 x) = x.
Proof.
  intros Hx. unfold raw_bytes16, bits. cbn [raw_sum]. rewrite Z.shiftr_0_r, !Z.land_ones by lia.
  rewrite Z.shiftr_div_pow2 by lia. unfold is_u16 in Hx. rewrite (Z.mod_small (x / 2 ^ 8)).
  - rewrite (Z.div_mod x (2 ^ 8)) at 3 by lia. lia.
  - split; [apply Z.div_pos; lia|]. apply Z.div_lt_upper_bound; lia.
Qed.

(** ** The kernel's functions *)

(** Headers and addresses are given by their bytes. *)
Class KernelCsum : Type := {
  csum_partial : bytes -> Z -> Z;
  csum_fold : Z -> Z;
  csum_unfold : Z -> Z;
  csum_add : Z -> Z -> Z;
  csum_sub : Z -> Z -> Z;
  csum_ipv6_magic : bytes -> bytes -> Z -> Z -> Z -> Z;
  csum_tcpudp_nofold : bytes -> bytes -> Z -> Z -> Z -> Z;
  ip_fast_csum : bytes -> Z
}.

(** The pseudoheaders of RFC 2460 and RFC 793. *)
Definition pseudo6 (saddr daddr : bytes) (len proto : Z) : bytes := saddr ++ daddr ++ be_bytes 4 len ++ be_bytes 4 proto.
Definition pseudo4 (saddr daddr : bytes) (len proto : Z) : bytes := saddr ++ daddr ++ [0; bits proto 0 8] ++ be_bytes 2 len.

Class KernelCsumLaws (K : KernelCsum) : Prop := {
  csum_partial_law b s : wf_bytes b -> is_u32 s -> is_u32 (csum_partial b s) /\ csum_partial b s ≡c s + raw_sum b;
  csum_fold_law s : is_u32 s -> is_u16 (csum_fold s) /\ csum_fold s ≡c - s;
  csum_unfold_law c : is_u16 c -> csum_unfold c = c;
  csum_add_law s a : is_u32 s -> is_u32 a -> is_u32 (csum_add s a) /\ csum_add s a ≡c s + a;
  csum_sub_law s a : is_u32 s -> is_u32 a -> is_u32 (csum_sub s a) /\ csum_sub s a ≡c s - a;
  csum_ipv6_magic_law saddr daddr len proto s :
    wf_bytes saddr -> wf_bytes daddr -> length saddr = 16%nat -> length daddr = 16%nat -> is_u32 len -> is_u8 proto -> is_u32 s ->
    is_u16 (csum_ipv6_magic saddr daddr len proto s) /\
    csum_ipv6_magic saddr daddr len proto s ≡c - (s + raw_sum (pseudo6 saddr daddr len proto));
  csum_tcpudp_nofold_law saddr daddr len proto s :
    wf_bytes saddr -> wf_bytes daddr -> length saddr = 4%nat -> length daddr = 4%nat -> is_u16 len -> is_u8 proto -> is_u32 s ->
    is_u32 (csum_tcpudp_nofold saddr daddr len proto s) /\
    csum_tcpudp_nofold saddr daddr len proto s ≡c s + raw_sum (pseudo4 saddr daddr len proto);
  ip_fast_csum_law b : wf_bytes b -> is_u16 (ip_fast_csum b) /\ ip_fast_csum b ≡c - raw_sum b
}.

(** A machine that keeps the sums reduced. *)
Definition plain_sum (x : Z) : Z := x `mod` 65535.
Definition plain_csum : KernelCsum := {|
  csum_partial b s := plain_sum (s + raw_sum b);
  csum_fold s := plain_sum (- s);
  csum_unfold c := c;
  csum_add s a := plain_sum (s + a);
  csum_sub s a := plain_sum (s - a);
  csum_ipv6_magic saddr daddr len proto s := plain_sum (- (s + raw_sum (pseudo6 saddr daddr len proto)));
  csum_tcpudp_nofold saddr daddr len proto s := plain_sum (s + raw_sum (pseudo4 saddr daddr len proto));
  ip_fast_csum b := plain_sum (- raw_sum b)
|}.

Lemma plain_sum_ok x : is_u16 (plain_sum x) /\ is_u32 (plain_sum x) /\ plain_sum x ≡c x.
Proof.
  unfold plain_sum, is_u16, is_u32. pose proof (Z.mod_pos_bound x 65535 ltac:(lia)). split; [lia|]. split; [lia|].
  exists (- (x / 65535)). rewrite (Z.div_mod x 65535) at 2 by lia. lia.
Qed.

Lemma plain_csum_laws : KernelCsumLaws plain_csum.
Proof. constructor; intros; cbn; try (split; apply plain_sum_ok); done. Qed.

(** ** Updates *)

Section Update.
Context {K : KernelCsum}.

(** A header is given by its source and destination addresses. *)
Definition addrs : Type := bytes * bytes.

Definition update_csum_6to4 (csum16 : Z) (in_ip6 : addrs) (in_l4_hdr : bytes) (out_ip4 : addrs) (out_l4_hdr : bytes) : Z :=
  let csum := not32 (csum_unfold csum16) in
  let pseudohdr_csum := not32 (csum_unfold (csum_ipv6_magic in_ip6.1 in_ip6.2 0 0 0)) in
  let csum := csum_sub csum pseudohdr_csum in
  let csum := csum_sub csum (csum_partial in_l4_hdr 0) in
  let pseudohdr_csum := csum_tcpudp_nofold out_ip4.1 out_ip4.2 0 0 0 in
  let csum := csum_add csum pseudohdr_csum in
  let csum := csum_add csum (csum_partial out_l4_hdr 0) in
  csum_fold csum.

Definition update_csum_6to4_partial (csum16 : Z) (in_ip6 out_ip4 : addrs) : Z :=
  let csum := csum_unfold csum16 in
  let pseudohdr_csum := not32 (csum_unfold (csum_ipv6_magic in_ip6.1 in_ip6.2 0 0 0)) in
  let csum := csum_sub csum pseudohdr_csum in
  let pseudohdr_csum := csum_tcpudp_nofold out_ip4.1 out_ip4.2 0 0 0 in
  let csum := csum_add csum pseudohdr_csum in
  not16 (csum_fold csum).

Definition update_csum_4to6 (csum16 : Z) (in_ip4 : addrs) (in_l4_hdr : bytes) (out_ip6 : addrs) (out_l4_hdr : bytes) : Z :=
  let csum := not32 (csum_unfold csum16) in
  let pseudohdr_csum := csum_tcpudp_nofold in_ip4.1 in_ip4.2 0 0 0 in
  let csum := csum_sub csum pseudohdr_csum in
  let csum := csum_sub csum (csum_partial in_l4_hdr 0) in
  let pseudohdr_csum := not32 (csum_unfold (csum_ipv6_magic out_ip6.1 out_ip6.2 0 0 0)) in
  let csum := csum_add csum pseudohdr_csum in
  let csum := csum_add csum (csum_partial out_l4_hdr 0) in
  csum_fold csum.

Definition update_csum_4to6_partial (csum16 : Z) (in_ip4 out_ip6 : addrs) : Z :=
  let csum := csum_unfold csum16 in
  let pseudohdr_csum := csum_tcpudp_nofold in_ip4.1 in_ip4.2 0 0 0 in
  let csum := csum_sub csum pseudohdr_csum in
  let pseudohdr_csum := not32 (csum_unfold (csum_ipv6_magic out_ip6.1 out_ip6.2 0 0 0)) in
  let csum := csum_add csum pseudohdr_csum in
  not16 (csum_fold csum).

End Update.

Definition wf_addrs (n : nat) (a : addrs) : Prop :=
  wf_bytes a.1 /\ wf_bytes a.2 /\ length a.1 = n /\ length a.2 = n.

(** The sum of the addresses. *)
Definition addr_sum (a : addrs) : Z := raw_sum a.1 + raw_sum a.2.

Section UpdateLaws.
Context {K : KernelCsum} {L : KernelCsumLaws K}.

Lemma even_16 : Nat.Even 16. Proof. exists 8%nat. done. Qed.
Lemma even_4 : Nat.Even 4. Proof. exists 2%nat. done. Qed.

Lemma pseudo6_sum a len proto : wf_addrs 16 a ->
  raw_sum (pseudo6 a.1 a.2 len proto) = addr_sum a + raw_sum (be_bytes 4 len) + raw_sum (be_bytes 4 proto).
Proof.
  intros (_ & _ & H1 & H2). unfold pseudo6, addr_sum.
  rewrite !raw_sum_app by (rewrite ?H1, ?H2, ?be_bytes_length; apply even_16 || apply even_4). lia.
Qed.

Lemma pseudo4_sum a len proto : wf_addrs 4 a ->
  raw_sum (pseudo4 a.1 a.2 len proto) = addr_sum a + (256 * bits proto 0 8 + raw_sum (be_bytes 2 len)).
Proof.
  intros (_ & _ & H1 & H2). unfold pseudo4, addr_sum.
  rewrite !raw_sum_app by (rewrite ?H1, ?H2, ?be_bytes_length; apply even_16 || apply even_4). cbn [raw_sum app]. lia.
Qed.

Lemma zero_u32 : is_u32 0. Proof. done. Qed.

(** The functions, on arguments that are in range. *)
Lemma magic_zero a : wf_addrs 16 a ->
  is_u32 (not32 (csum_unfold (csum_ipv6_magic a.1 a.2 0 0 0))) /\
  not32 (csum_unfold (csum_ipv6_magic a.1 a.2 0 0 0)) ≡c addr_sum a.
Proof.
  intros Ha. pose proof Ha as (W1 & W2 & L1 & L2).
  destruct (csum_ipv6_magic_law a.1 a.2 0 0 0) as [Hr Hc]; try done.
  rewrite csum_unfold_law by done. split; [apply not32_range; unfold is_u16, is_u32 in *; lia|].
  rewrite not32_cong, Hc, pseudo6_sum by done. change (raw_sum (be_bytes 4 0)) with 0. exists 0. lia.
Qed.

Lemma nofold_zero a : wf_addrs 4 a ->
  is_u32 (csum_tcpudp_nofold a.1 a.2 0 0 0) /\ csum_tcpudp_nofold a.1 a.2 0 0 0 ≡c addr_sum a.
Proof.
  intros Ha. pose proof Ha as (W1 & W2 & L1 & L2).
  destruct (csum_tcpudp_nofold_law a.1 a.2 0 0 0) as [Hr Hc]; try done. split; [done|].
  rewrite Hc, pseudo4_sum by done. change (256 * bits 0 0 8 + raw_sum (be_bytes 2 0)) with 0. exists 0. lia.
Qed.

Lemma unfold_not c : is_u16 c -> is_u32 (not32 (csum_unfold c)) /\ not32 (csum_unfold c) ≡c - c.
Proof. intros Hc. rewrite csum_unfold_law by done. split; [apply not32_range; unfold is_u16, is_u32 in *; lia|apply not32_cong]. Qed.

(** Chains of sums. *)
Lemma then_sub s x a y : is_u32 s /\ s ≡c x -> is_u32 a /\ a ≡c y -> is_u32 (csum_sub s a) /\ csum_sub s a ≡c x - y.
Proof. intros [Hs Es] [Ha Ea]. destruct (csum_sub_law s a Hs Ha) as [Hr Hc]. split; [done|]. rewrite Hc, Es, Ea. done. Qed.

Lemma then_add s x a y : is_u32 s /\ s ≡c x -> is_u32 a /\ a ≡c y -> is_u32 (csum_add s a) /\ csum_add s a ≡c x + y.
Proof. intros [Hs Es] [Ha Ea]. destruct (csum_add_law s a Hs Ha) as [Hr Hc]. split; [done|]. rewrite Hc, Es, Ea. done. Qed.

Lemma then_fold s x : is_u32 s /\ s ≡c x -> is_u16 (csum_fold s) /\ csum_fold s ≡c - x.
Proof. intros [Hs Es]. destruct (csum_fold_law s Hs) as [Hr Hc]. split; [done|]. rewrite Hc, Es. done. Qed.

Lemma partial_zero b : wf_bytes b -> is_u32 (csum_partial b 0) /\ csum_partial b 0 ≡c raw_sum b.
Proof. intros Hb. exact (csum_partial_law b 0 Hb zero_u32). Qed.

Lemma update_6to4_law c a6 h6 a4 h4 :
  is_u16 c -> wf_addrs 16 a6 -> wf_bytes h6 -> wf_addrs 4 a4 -> wf_bytes h4 ->
  is_u16 (update_csum_6to4 c a6 h6 a4 h4) /\
  update_csum_6to4 c a6 h6 a4 h4 + addr_sum a4 + raw_sum h4 ≡c c + addr_sum a6 + raw_sum h6.
Proof.
  intros Hc H6 W6 H4 W4. unfold update_csum_6to4.
  destruct (then_fold _ _ (then_add _ _ _ _ (then_add _ _ _ _ (then_sub _ _ _ _ (then_sub _ _ _ _ (unfold_not c Hc) (magic_zero a6 H6))
    (partial_zero h6 W6)) (nofold_zero a4 H4)) (partial_zero h4 W4))) as [Hr E]. split; [exact Hr|].
  rewrite E. exists 0. lia.
Qed.

Lemma update_4to6_law c a4 h4 a6 h6 :
  is_u16 c -> wf_addrs 4 a4 -> wf_bytes h4 -> wf_addrs 16 a6 -> wf_bytes h6 ->
  is_u16 (update_csum_4to6 c a4 h4 a6 h6) /\
  update_csum_4to6 c a4 h4 a6 h6 + addr_sum a6 + raw_sum h6 ≡c c + addr_sum a4 + raw_sum h4.
Proof.
  intros Hc H4 W4 H6 W6. unfold update_csum_4to6.
  destruct (then_fold _ _ (then_add _ _ _ _ (then_add _ _ _ _ (then_sub _ _ _ _ (then_sub _ _ _ _ (unfold_not c Hc) (nofold_zero a4 H4))
    (partial_zero h4 W4)) (magic_zero a6 H6)) (partial_zero h6 W6))) as [Hr E]. split; [exact Hr|].
  rewrite E. exists 0. lia.
Qed.

Lemma unfold_plain c : is_u16 c -> is_u32 (csum_unfold c) /\ csum_unfold c ≡c c.
Proof. intros Hc. rewrite csum_unfold_law by done. split; [unfold is_u16, is_u32 in *; lia|done]. Qed.

Lemma partial_6to4_law c a6 a4 :
  is_u16 c -> wf_addrs 16 a6 -> wf_addrs 4 a4 ->
  is_u16 (update_csum_6to4_partial c a6 a4) /\ update_csum_6to4_partial c a6 a4 ≡c c - addr_sum a6 + addr_sum a4.
Proof.
  intros Hc H6 H4. unfold update_csum_6to4_partial.
  destruct (then_fold _ _ (then_add _ _ _ _ (then_sub _ _ _ _ (unfold_plain c Hc) (magic_zero a6 H6)) (nofold_zero a4 H4))) as [Hr E].
  split; [apply not16_range; exact Hr|]. rewrite not16_cong, E. exists 0. lia.
Qed.

Lemma partial_4to6_law c a4 a6 :
  is_u16 c -> wf_addrs 4 a4 -> wf_addrs 16 a6 ->
  is_u16 (update_csum_4to6_partial c a4 a6) /\ update_csum_4to6_partial c a4 a6 ≡c c - addr_sum a4 + addr_sum a6.
Proof.
  intros Hc H4 H6. unfold update_csum_4to6_partial.
  destruct (then_fold _ _ (then_add _ _ _ _ (then_sub _ _ _ _ (unfold_plain c Hc) (nofold_zero a4 H4)) (magic_zero a6 H6))) as [Hr E].
  split; [apply not16_range; exact Hr|]. rewrite not16_cong, E. exists 0. lia.
Qed.

End UpdateLaws.
