(* ===== verification/XlatPkt.v ===== *)
(** * Packets being translated

    The part of [include/nat64/mod/common/packet.h] that the translation of
    headers is written on, and the code both directions share
    ([mod/common/rfc6145/common.c]): the incoming packet, the packet being
    written, the pointers into their buffers, and how they are moved to the
    inner packet of an ICMP error and back.

    A buffer is the list of the bytes of its linear part, from where
    [skb->data] was at the start; pointers are offsets in it.  The memory of a
    new buffer is whatever it held before ([xe_junk]).  A load or a store
    outside of the linear part is a fault. *)
From S2P Require Import Prelude Types Address Rfc6052 Pool6 RbTree BibTable BibDb Packet SessionEntry PktQueue Skb Checksum.

(** ** Data *)

Inductive ip_summed : Type := CHECKSUM_NONE | CHECKSUM_UNNECESSARY | CHECKSUM_COMPLETE | CHECKSUM_PARTIAL.

#[global] Instance ip_summed_eq_dec : EqDecision ip_summed.
Proof. solve_decision. Defined.

(** What [move_pointers_in] and [move_pointers_out] change. *)
Record xptrs : Type := XPtrs {
  p_data : Z;
  p_net : Z;
  p_trans : Z;
  p_payload : Z;
  p_l4_proto : l4_protocol;
  p_is_inner : bool
}.

(** [struct packet] with its socket buffer.  [x_frags] is the [frag_list];
    [x_csum] is [csum_start] (as an offset) and [csum_offset]; [x_dev_mtu] is
    [dev->mtu]. *)
Record xpkt : Type := XPkt {
  x_bytes : bytes;
  x_frags : list bytes;
  x_ptrs : xptrs;
  x_l3_proto : l3_protocol;
  x_is_hairpin : bool;
  x_hdr_frag : option Z;
  x_summed : ip_summed;
  x_csum : option (Z * Z);
  x_mark : Z;
  x_dev_mtu : option Z
}.

Definition with_bytes (b : bytes) (p : xpkt) : xpkt :=
  XPkt b (x_frags p) (x_ptrs p) (x_l3_proto p) (x_is_hairpin p) (x_hdr_frag p) (x_summed p) (x_csum p) (x_mark p) (x_dev_mtu p).
Definition with_ptrs (ptrs : xptrs) (p : xpkt) : xpkt :=
  XPkt (x_bytes p) (x_frags p) ptrs (x_l3_proto p) (x_is_hairpin p) (x_hdr_frag p) (x_summed p) (x_csum p) (x_mark p) (x_dev_mtu p).
Definition with_frags (f : list bytes) (p : xpkt) : xpkt :=
  XPkt (x_bytes p) f (x_ptrs p) (x_l3_proto p) (x_is_hairpin p) (x_hdr_frag p) (x_summed p) (x_csum p) (x_mark p) (x_dev_mtu p).
Definition with_summed (s : ip_summed) (c : option (Z * Z)) (p : xpkt) : xpkt :=
  XPkt (x_bytes p) (x_frags p) (x_ptrs p) (x_l3_proto p) (x_is_hairpin p) (x_hdr_frag p) s c (x_mark p) (x_dev_mtu p).
Definition with_hairpin (h : bool) (p : xpkt) : xpkt :=
  XPkt (x_bytes p) (x_frags p) (x_ptrs p) (x_l3_proto p) h (x_hdr_frag p) (x_summed p) (x_csum p) (x_mark p) (x_dev_mtu p).

Abbreviation xnet p := (p_net (x_ptrs p)).
Abbreviation xtrans p := (p_trans (x_ptrs p)).
Abbreviation xpayload p := (p_payload (x_ptrs p)).
Abbreviation xdata p := (p_data (x_ptrs p)).
Abbreviation xl4 p := (p_l4_proto (x_ptrs p)).
Abbreviation xinner p := (p_is_inner (x_ptrs p)).

(** ** Lengths *)

Definition s32 (x : Z) : Z := let x := u32 x in if x <? 2 ^ 31 then x else x - 2 ^ 32.

Definition frags_len (l : list bytes) : Z := blen (concat l).

Definition skb_pagelen (p : xpkt) : Z := blen (x_bytes p) - xdata p.
Definition skb_len (p : xpkt) : Z := skb_pagelen p + frags_len (x_frags p).

(** The packet from [skb->data] on, the fragments of the list after it. *)
Definition skb_all (p : xpkt) : bytes := drop (Z.to_nat (xdata p)) (x_bytes p) ++ concat (x_frags p).

Definition pkt_is_fragment (p : xpkt) : bool := match x_frags p with [] => false | _ => true end.
Definition pkt_payload_offset (p : xpkt) : Z := (xnet p - xdata p) + (xpayload p - xnet p).
Definition pkt_l3hdr_len (p : xpkt) : Z := u32 (xtrans p - xnet p).
Definition pkt_l4hdr_len (p : xpkt) : Z := u32 (xpayload p - xtrans p).
Definition pkt_hdrs_len (p : xpkt) : Z := u32 (xpayload p - xnet p).
Definition pkt_payload_len_frag (p : xpkt) : Z :=
  if negb (pkt_is_fragment p) then u32 (skb_len p - pkt_hdrs_len p) else u32 (skb_pagelen p - pkt_hdrs_len p).
Definition pkt_payload_len_pkt (p : xpkt) : Z := u32 (skb_len p - pkt_hdrs_len p).
Definition pkt_l3payload_len (p : xpkt) : Z := u32 (pkt_l4hdr_len p + pkt_payload_len_frag p).
Definition pkt_datagram_len (p : xpkt) : Z := u32 (skb_len p - pkt_l3hdr_len p).
Definition pkt_len (p : xpkt) : Z :=
  if negb (pkt_is_fragment p) then skb_len p
  else u32 (skb_pagelen p + (if pkt_is_fragment p then 0 else pkt_hdrs_len p)).
Definition pkt_is_outer (p : xpkt) : bool := negb (xinner p).

(** ** The environment *)

Inductive eam_hairpinning_mode : Type := EAM_HAIRPIN_OFF | EAM_HAIRPIN_SIMPLE | EAM_HAIRPIN_INTRINSIC.

#[global] Instance eam_hairpinning_mode_eq_dec : EqDecision eam_hairpinning_mode.
Proof. solve_decision. Defined.

(** What the stateless translator's tables answer. *)
Class SiitTables : Type := {
  eamt_xlat_4to6 : in_addr -> result in6_addr;
  eamt_xlat_6to4 : in6_addr -> result in_addr;
  eamt_contains4 : in_addr -> bool;
  blacklist_contains : in_addr -> bool;
  rfc6791_get : xpkt -> xpkt -> result in_addr
}.

(** The configuration, the routes (by the MTU of their device) and the memory
    the allocator hands out. *)
Record xenv : Type := XEnv {
  xlat_is_siit : bool;
  config_reset_traffic_class : bool;
  config_reset_tos : bool;
  config_new_tos : Z;
  config_df_always_on : bool;
  config_build_ipv6_fh : bool;
  config_build_ipv4_id : bool;
  config_lower_mtu_fail : bool;
  config_mtu_plateaus : list Z;
  config_src_icmp6errs_better : bool;
  config_amend_zero_csum : bool;
  config_eam_hairpin_mode : eam_hairpinning_mode;
  xe_pool6 : pool6_state;
  xe_route4 : xpkt -> option Z;
  xe_route6 : xpkt -> option Z;
  xe_junk : Z -> Z
}.

(** Statistics, ICMP errors (about the packet Jool was given), the release of
    a buffer that was written and of the packet that came in, and a packet
    handed to the kernel. *)
Inductive xevent : Type :=
| XStat (field : ipstats)
| XIcmp (error : icmp_error_code) (info : Z)
| XFreeOut
| XFreeIn
| XSend (out : xpkt).

(** The two packets, what happened, the allocations to come and the random
    numbers to come (zeros once the list runs out). *)
Record xstate : Type := XState {
  x_in : xpkt;
  x_out : xpkt;
  x_events : list xevent;
  x_allocs : allocs;
  x_randoms : list Z
}.

(** ** Effects *)

Definition upd_in (f : xpkt -> xpkt) : M xstate unit := modify (fun s =>
  XState (f (x_in s)) (x_out s) (x_events s) (x_allocs s) (x_randoms s)).
Definition upd_out (f : xpkt -> xpkt) : M xstate unit := modify (fun s =>
  XState (x_in s) (f (x_out s)) (x_events s) (x_allocs s) (x_randoms s)).
Definition xemit (e : xevent) : M xstate unit := modify (fun s =>
  XState (x_in s) (x_out s) (e :: x_events s) (x_allocs s) (x_randoms s)).

Definition xinc_stats (f : ipstats) : M xstate unit := xemit (XStat f).
Definition xicmp64_send (error : icmp_error_code) (info : Z) : M xstate unit := xemit (XIcmp error info).

Definition get_random16 : M xstate Z := fun s =>
  match x_randoms s with
  | [] => Some (0, s)
  | x :: l => Some (u16 x, XState (x_in s) (x_out s) (x_events s) (x_allocs s) l)
  end.

(** Loads through pointers. *)
Definition ld_in {A} (f : bytes -> option A) : M xstate A := fun s =>
  match f (x_bytes (x_in s)) with Some a => Some (a, s) | None => None end.
Definition ld_out {A} (f : bytes -> option A) : M xstate A := fun s =>
  match f (x_bytes (x_out s)) with Some a => Some (a, s) | None => None end.

Definition slice (b : bytes) (off len : Z) : bytes := take (Z.to_nat len) (drop (Z.to_nat off) b).

(** [len] bytes at [off]. *)
Definition ldb (b : bytes) (off len : Z) : option bytes :=
  if (0 <=? off) && (0 <=? len) && (off + len <=? blen b) then Some (slice b off len) else None.

Definition splice (b : bytes) (off : Z) (l : bytes) : bytes :=
  take (Z.to_nat off) b ++ l ++ drop (Z.to_nat off + length l) b.

(** A store in the packet being written. *)
Definition st_out (off : Z) (l : bytes) : M xstate unit := fun s =>
  let b := x_bytes (x_out s) in
  if (0 <=? off) && (off + blen l <=? blen b)
  then Some (tt, XState (x_in s) (with_bytes (splice b off l) (x_out s)) (x_events s) (x_allocs s) (x_randoms s))
  else None.

(** [skb_copy_bits] of the incoming packet, to [to] in the packet being
    written. *)
Definition skb_copy_bits (offset to len : Z) : M xstate (result unit) := fun s =>
  let all := skb_all (x_in s) in
  if skb_len (x_in s) - s32 len <? offset then Some (Err EFAULT, s)
  else if (offset <? 0) || (s32 len <? 0) then None
  else (st_out to (slice all offset (s32 len));; mret (Ok tt)) s.

(** [skb_checksum]: the range has to be there. *)
Definition skb_checksum {K : KernelCsum} (p : xpkt) (offset len sum : Z) : M xstate Z :=
  b ← load (ldb (skb_all p) offset len); mret (csum_partial b sum).

(** ** Packets *)

Definition xpkt_icmp_type (p : xpkt) : option Z := ld8 (x_bytes p) (xtrans p).

Definition xpkt_is_icmp6_error (p : xpkt) : M xstate bool :=
  if bool_decide (xl4 p = L4PROTO_ICMP) then t ← load (xpkt_icmp_type p); mret (is_icmp6_error t) else mret false.
Definition xpkt_is_icmp4_error (p : xpkt) : M xstate bool :=
  if bool_decide (xl4 p = L4PROTO_ICMP) then t ← load (xpkt_icmp_type p); mret (is_icmp4_error t) else mret false.

(** The addresses of the header at [net]. *)
Definition addrs4 (b : bytes) (net : Z) : option addrs := s ← ldb b (net + 12) 4; d ← ldb b (net + 16) 4; Some (s, d).
Definition addrs6 (b : bytes) (net : Z) : option addrs := s ← ldb b (net + 8) 16; d ← ldb b (net + 24) 16; Some (s, d).

Section Env.
Context (e : xenv).

(** [alloc_skb], [skb_reserve] and [skb_put]: [None] when there is no
    memory. *)
Definition alloc_skb (len : Z) : M xstate (option bytes) := fun s =>
  let '(ok, al) := kmalloc (x_allocs s) in
  Some (if ok then Some (map (xe_junk e) (seqZ 0 len)) else None,
        XState (x_in s) (x_out s) (x_events s) al (x_randoms s)).

(** ** mod/common/rfc6145/common.c *)

Definition copy_payload : M xstate (result unit) :=
  p ← gets x_in;
  out ← gets x_out;
  skb_copy_bits (pkt_payload_offset p) (xpayload out) (pkt_payload_len_frag out).

Definition handle_unknown_l4 : M xstate verdict :=
  r ← copy_payload; mret (match r with Ok _ => VERDICT_CONTINUE | Err _ => VERDICT_DROP end).

Definition build_ipv6_frag_hdr (frag_off : Z) : bool :=
  if negb (is_dont_fragment_set frag_off =? 0) then false else config_build_ipv6_fh e.

(** By the header's [frag_off]. *)
Definition will_need_frag_hdr (frag_off : Z) : bool :=
  build_ipv6_frag_hdr frag_off || negb (is_more_fragments_set_ipv4 frag_off =? 0)
  || negb (get_fragment_offset_ipv4 frag_off =? 0).

(** [skb_pull]: nothing happens if there is less than that; the data that is
    left has to start in the linear part. *)
Definition skb_pull (n : Z) (p : xpkt) : option xpkt :=
  if skb_len p <? n then Some p
  else if blen (x_bytes p) <? xdata p + n then None
  else Some (with_ptrs (XPtrs (xdata p + n) (xnet p) (xtrans p) (xpayload p) (xl4 p) (xinner p)) p).

Definition skb_push (n : Z) (p : xpkt) : option xpkt :=
  if xdata p - n <? 0 then None
  else Some (with_ptrs (XPtrs (xdata p - n) (xnet p) (xtrans p) (xpayload p) (xl4 p) (xinner p)) p).

Definition move_pointers_in (protocol l3hdr_len : Z) : M xstate unit :=
  p ← gets x_in;
  p ← load (skb_pull (pkt_hdrs_len p) p);
  let net := xdata p in
  let trans := xdata p + l3hdr_len in
  '(l4_proto, l4hdr_len) ←
    (if protocol =? IPPROTO_TCP then len ← load (tcp_hdr_len (x_bytes p) trans); mret (L4PROTO_TCP, len)
     else if protocol =? IPPROTO_UDP then mret (L4PROTO_UDP, 8)
     else if (protocol =? IPPROTO_ICMP) || (protocol =? NEXTHDR_ICMP) then mret (L4PROTO_ICMP, 8)
     else mret (L4PROTO_OTHER, 0));
  upd_in (fun _ => with_ptrs (XPtrs (xdata p) net trans (trans + l4hdr_len) l4_proto true) p).

Definition move_pointers_out (l3hdr_len : Z) : M xstate unit :=
  p ← gets x_in;
  out ← gets x_out;
  out ← load (skb_pull (pkt_hdrs_len out) out);
  let trans := xdata out + l3hdr_len in
  upd_out (fun _ => with_ptrs (XPtrs (xdata out) (xdata out) trans (trans + pkt_l4hdr_len p) (xl4 p) true) out).

Definition move_pointers4 : M xstate unit :=
  p ← gets x_in;
  let hdr4 := xpayload p in
  protocol ← ld_in (fun b => ld8 b (hdr4 + 9));
  ihl ← ld_in (fun b => ip4_hdr_len b hdr4);
  move_pointers_in protocol ihl;;
  frag_off ← ld_in (fun b => raw16 b (hdr4 + 6));
  move_pointers_out (40 + (if will_need_frag_hdr frag_off then 8 else 0)).

Definition move_pointers6 : M xstate unit :=
  p ← gets x_in;
  let hdr6 := xpayload p in
  it ← ld_in (fun b => it ← HDR_ITERATOR_INIT b hdr6; hdr_iterator_last b it);
  move_pointers_in (hdr_type it) (hdr_data it - hdr6);;
  move_pointers_out 20.

Record backup_skb : Type := BackupSkb {
  bkp_pulled : Z;
  bkp_l3 : Z;
  bkp_l4 : Z;
  bkp_payload : Z;
  bkp_l4_proto : l4_protocol
}.

Definition backup (p : xpkt) : backup_skb :=
  BackupSkb (pkt_hdrs_len p) (xnet p - xdata p) (xtrans p - xdata p) (xpayload p) (xl4 p).

Definition restore (bkp : backup_skb) (p : xpkt) : option xpkt :=
  p ← skb_push (bkp_pulled bkp) p;
  Some (with_ptrs (XPtrs (xdata p) (xdata p + bkp_l3 bkp) (xdata p + bkp_l4 bkp) (bkp_payload bkp) (bkp_l4_proto bkp) false) p).

(** A [translation_steps]: the header of the packet and what follows. *)
Record translation_steps : Type := Steps {
  l3_hdr_fn : option tuple -> M xstate verdict;
  l3_payload_fn : option tuple -> M xstate verdict
}.

(** Accepting because of an inner packet makes no sense. *)
Definition no_accept (v : verdict) : verdict := if bool_decide (v = VERDICT_ACCEPT) then VERDICT_DROP else v.

Definition ttpcomm_translate_inner_packet (steps : l3_protocol -> l4_protocol -> translation_steps)
    (outer_tuple : option tuple) : M xstate verdict :=
  p ← gets x_in;
  out ← gets x_out;
  let bkp_in := backup p in
  let bkp_out := backup out in
  match x_l3_proto p with
  | L3PROTO_IPV4 => move_pointers4
  | L3PROTO_IPV6 => move_pointers6
  end;;
  let inner_tuple := if xlat_is_siit e then None else option_map reply outer_tuple in
  p ← gets x_in;
  let current_steps := steps (x_l3_proto p) (xl4 p) in
  result ← l3_hdr_fn current_steps inner_tuple;
  if negb (bool_decide (result = VERDICT_CONTINUE)) then mret (no_accept result)
  else
    result ← l3_payload_fn current_steps inner_tuple;
    if negb (bool_decide (result = VERDICT_CONTINUE)) then mret (no_accept result)
    else
      p ← gets x_in;
      out ← gets x_out;
      p ← load (restore bkp_in p);
      out ← load (restore bkp_out out);
      upd_in (fun _ => p);;
      upd_out (fun _ => out);;
      mret VERDICT_CONTINUE.

(** [csum_start] is relative to the start of the buffer. *)
Definition partialize_skb (csum_offset : Z) : M xstate unit :=
  upd_out (fun out => with_summed CHECKSUM_PARTIAL (Some (xtrans out, csum_offset)) out).

End Env.
