(* ===== verification/Xlat64.v ===== *)
(** * From IPv6 to IPv4

    [mod/common/rfc6145/6to4.c]: the new buffer, the IPv4 header and the
    transport header of a packet (or of the inner packet of an ICMP error)
    that goes from IPv6 to IPv4.  The translation of inner packets is an
    argument ([inner]). *)
From S2P Require Import Prelude Types Address Rfc6052 Pool6 RbTree BibTable BibDb Packet SessionEntry PktQueue Skb Checksum XlatPkt.

(** ** Constants of the kernel *)

Definition ICMP_HOST_UNREACH : Z := 1.
Definition ICMP_PROT_UNREACH : Z := 2.
Definition ICMP_PORT_UNREACH : Z := 3.
Definition ICMP_FRAG_NEEDED : Z := 4.
Definition ICMP_HOST_ANO : Z := 10.
Definition ICMPV6_NOROUTE : Z := 0.
Definition ICMPV6_ADM_PROHIBITED : Z := 1.
Definition ICMPV6_NOT_NEIGHBOUR : Z := 2.
Definition ICMPV6_ADDR_UNREACH : Z := 3.
Definition ICMPV6_PORT_UNREACH : Z := 4.
Definition ICMPV6_HDR_FIELD : Z := 0.
Definition ICMPV6_UNK_NEXTHDR : Z := 1.
Definition CSUM_MANGLED_0 : Z := 0xFFFF.

(** ** Values *)

Definition xlat_tos (reset_tos : bool) (new_tos tclass : Z) : Z := if reset_tos then new_tos else tclass.

(** [ttp64_xlat_proto], of the header at [hdr6]. *)
Definition ttp64_xlat_proto (b : bytes) (hdr6 : Z) : option Z :=
  it ← HDR_ITERATOR_INIT b hdr6;
  it ← hdr_iterator_last b it;
  Some (if hdr_type it =? NEXTHDR_ICMP then IPPROTO_ICMP else hdr_type it).

(** The location of the field, when it is not zero. *)
Definition has_nonzero_segments_left (b : bytes) (ip6_hdr : Z) : option (option Z) :=
  rt_hdr ← hdr_iterator_find b ip6_hdr NEXTHDR_ROUTING;
  match rt_hdr with
  | None => Some None
  | Some rt_hdr =>
      segments_left ← ld8 b (rt_hdr + 3);
      Some (if segments_left =? 0 then None else Some (u32 (rt_hdr - ip6_hdr + 3)))
  end.

(** Of the identification, in host order. *)
Definition generate_ipv4_id_dofrag (identification : Z) : Z := cpu_to_be16 (u16 identification).

Definition icmp4_minimum_mtu (packet_mtu nexthop4_mtu nexthop6_mtu : Z) : Z :=
  let packet_mtu := u32 packet_mtu in
  let nexthop4_mtu := u16 nexthop4_mtu in
  let nexthop6_mtu := u16 nexthop6_mtu in
  u16 (if nexthop4_mtu <? packet_mtu
       then (if nexthop4_mtu <? nexthop6_mtu then nexthop4_mtu else nexthop6_mtu)
       else (if packet_mtu <? nexthop6_mtu then packet_mtu else nexthop6_mtu)).

Definition icmp6_to_icmp4_param_prob_ptr (icmp6_ptr : Z) : result Z :=
  if 39 <? icmp6_ptr then Err EINVAL
  else if icmp6_ptr =? 0 then Ok 0
  else if icmp6_ptr =? 1 then Ok 1
  else if (icmp6_ptr =? 2) || (icmp6_ptr =? 3) then Err EINVAL
  else if (icmp6_ptr =? 4) || (icmp6_ptr =? 5) then Ok 2
  else if icmp6_ptr =? 6 then Ok 9
  else if icmp6_ptr =? 7 then Ok 8
  else if 24 <=? icmp6_ptr then Ok 16
  else if 8 <=? icmp6_ptr then Ok 12
  else Err EINVAL.

(** The code of the ICMPv4 destination unreachable. *)
Definition icmp6_to_icmp4_dest_unreach (icmp6_code : Z) : result Z :=
  if (icmp6_code =? ICMPV6_NOROUTE) || (icmp6_code =? ICMPV6_NOT_NEIGHBOUR) || (icmp6_code =? ICMPV6_ADDR_UNREACH)
  then Ok ICMP_HOST_UNREACH
  else if icmp6_code =? ICMPV6_ADM_PROHIBITED then Ok ICMP_HOST_ANO
  else if icmp6_code =? ICMPV6_PORT_UNREACH then Ok ICMP_PORT_UNREACH
  else Err EINVAL.

(** The type, the code and the 32 bits that follow the checksum. *)
Definition icmp6_to_icmp4_param_prob (icmp6_code icmp6_ptr : Z) : result (Z * Z * Z) :=
  if icmp6_code =? ICMPV6_HDR_FIELD then
    icmp4_ptr ← icmp6_to_icmp4_param_prob_ptr icmp6_ptr;
    Ok (ICMP_PARAMETERPROB, 0, u32 (Z.shiftl icmp4_ptr 24))
  else if icmp6_code =? ICMPV6_UNK_NEXTHDR then Ok (ICMP_DEST_UNREACH, ICMP_PROT_UNREACH, 0)
  else Err EINVAL.

(** ** The packet *)

Section Xlat64.
Context {K : KernelCsum} {T : SiitTables} (e : xenv).

Definition ask_pool6 {A} (m : M pool6_state A) : M xstate A := fun s =>
  match m (xe_pool6 e) with
  | Some (a, _) => Some (a, s)
  | None => None
  end.

(** A field of the header [frag_off] of the fragment header, if there is
    one. *)
Definition frag_hdr_off : M xstate (option Z) :=
  p ← gets x_in;
  match x_hdr_frag p with
  | None => mret None
  | Some o => f ← ld_in (fun b => raw16 b (o + 2)); mret (Some f)
  end.

Definition ttp64_create_skb : M xstate verdict :=
  frag ← frag_hdr_off;
  let is_first := is_first_frag6 frag in
  p ← gets x_in;
  let total_len := u32 (20 + pkt_l3payload_len p) in
  error ← (if is_first then xpkt_is_icmp6_error p else mret false);
  total_len ← (if error : bool then
      it ← ld_in (fun b => it ← HDR_ITERATOR_INIT b (xpayload p); hdr_iterator_last b it);
      let total_len := u32 (total_len + (20 - (hdr_data it - xpayload p))) in
      mret (if 576 <? total_len then 576 else total_len)
    else mret total_len);
  skb ← alloc_skb e total_len;
  match skb with
  | None => xinc_stats IPSTATS_MIB_INDISCARDS;; mret VERDICT_DROP
  | Some b =>
      upd_out (fun _ => XPkt b [] (XPtrs 0 0 20 (20 + pkt_l4hdr_len p) (xl4 p) false) L3PROTO_IPV4 false None
        CHECKSUM_NONE None (x_mark p) None);;
      mret VERDICT_CONTINUE
  end.

(** In host order. *)
Definition build_tot_len : M xstate Z :=
  p ← gets x_in;
  out ← gets x_out;
  if xinner out then
    payload_len ← ld_in (fun b => ldn 2 b (xnet p + 4));
    mret (u16 (40 + payload_len - pkt_hdrs_len p + pkt_hdrs_len out))
  else if negb (pkt_is_fragment out) then
    let total_len := u16 (skb_len out) in
    error ← xpkt_is_icmp4_error out;
    mret (if error && (576 <? total_len) then 576 else total_len)
  else mret (u16 (skb_len p - pkt_hdrs_len p + pkt_hdrs_len out)).

Definition generate_ipv4_id_nofrag : M xstate Z :=
  out ← gets x_out;
  if pkt_len out <=? 1260 then get_random16 else mret 0.

Definition generate_df_flag (out : xpkt) : bool := 1260 <? pkt_len out.

(** The address and whether it went through RFC 6052. *)
Definition generate_addr4_siit (addr6 : in6_addr) (is_dst : bool) : M xstate (verdict * option (in_addr * bool)) :=
  let success (tmp : in_addr) (was_6052 : bool) : M xstate (verdict * option (in_addr * bool)) :=
    if addr4_is_scope_subnet (s_addr tmp) then mret (VERDICT_DROP, None)
    else mret (VERDICT_CONTINUE, Some (tmp, was_6052)) in
  match eamt_xlat_6to4 addr6 with
  | Ok tmp => success tmp false
  | Err error =>
      if negb (bool_decide (error = ESRCH)) then mret (VERDICT_DROP, None)
      else
        prefix ← ask_pool6 (pool6_get (Some addr6));
        match prefix with
        | Err error => mret (if bool_decide (error = ESRCH) then VERDICT_ACCEPT else VERDICT_DROP, None)
        | Ok prefix =>
            match addr_6to4 addr6 prefix with
            | Err _ => mret (VERDICT_DROP, None)
            | Ok tmp =>
                if is_dst && blacklist_contains tmp then mret (VERDICT_ACCEPT, None) else success tmp true
            end
        end
  end.

Definition translate_addrs64_siit : M xstate verdict :=
  p ← gets x_in;
  out ← gets x_out;
  daddr6 ← ld_in (fun b => ldn 16 b (xnet p + 24));
  saddr6 ← ld_in (fun b => ldn 16 b (xnet p + 8));
  '(result, daddr) ← generate_addr4_siit (In6Addr daddr6) true;
  match daddr with
  | None => mret result
  | Some (daddr, dst_was_6052) =>
      st_out (xnet out + 16) (be_bytes 4 (s_addr daddr));;
      '(result, saddr) ← generate_addr4_siit (In6Addr saddr6) false;
      error ← xpkt_is_icmp6_error p;
      out ← gets x_out;
      let saddr : verdict * option (in_addr * bool) :=
        match saddr with
        | Some saddr => (VERDICT_CONTINUE, Some saddr)
        | None =>
            if bool_decide (result = VERDICT_ACCEPT) && error then
              match rfc6791_get p out with
              | Ok saddr => (VERDICT_CONTINUE, Some (saddr, false))
              | Err _ => (VERDICT_ACCEPT, None)
              end
            else (result, None)
        end in
      match saddr with
      | (result, None) => mret result
      | (_, Some (saddr, src_was_6052)) =>
          st_out (xnet out + 12) (be_bytes 4 (s_addr saddr));;
          (if bool_decide (config_eam_hairpin_mode e = EAM_HAIRPIN_INTRINSIC) then
             if pkt_is_outer p && negb error && dst_was_6052 && eamt_contains4 daddr then upd_out (with_hairpin true)
             else if xinner p && src_was_6052 && eamt_contains4 saddr then upd_out (with_hairpin true)
             else mret tt
           else mret tt);;
          mret VERDICT_CONTINUE
      end
  end.

(** A four-bit field of the byte at [off]. *)
Definition st_nibble (off lo v : Z) : M xstate unit :=
  x ← ld_out (fun b => ld8 b off); st_out off [set_bits x lo 4 v].

Definition ttp64_ipv4 (tuple4 : option tuple) : M xstate verdict :=
  p ← gets x_in;
  out ← gets x_out;
  let ip6 := xnet p in
  let ip4 := xnet out in
  b0 ← ld_in (fun b => ld8 b ip6);
  b1 ← ld_in (fun b => ld8 b (ip6 + 1));
  st_out (ip4 + 1) [xlat_tos (config_reset_tos e) (config_new_tos e) (get_traffic_class (bits b0 0 4) b1)];;
  proto ← ld_in (fun b => ttp64_xlat_proto b ip6);
  st_out (ip4 + 9) [proto];;
  result ← (if negb (xlat_is_siit e) then
      match tuple4 with
      | Some (Tuple4 src dst _) =>
          st_out (ip4 + 12) (be_bytes 4 (s_addr (l3_4 src)));;
          st_out (ip4 + 16) (be_bytes 4 (s_addr (l3_4 dst)));;
          mret VERDICT_CONTINUE
      | _ => fault
      end
    else translate_addrs64_siit);
  if negb (bool_decide (result = VERDICT_CONTINUE)) then mret result
  else
    st_nibble ip4 4 4;;
    st_nibble ip4 0 5;;
    tot_len ← build_tot_len;
    st_out (ip4 + 2) (be_bytes 2 tot_len);;
    id ← (if config_build_ipv4_id e then generate_ipv4_id_nofrag else mret 0);
    st_out (ip4 + 4) (raw_bytes16 id);;
    let dont_fragment := config_df_always_on e || generate_df_flag out in
    st_out (ip4 + 6) (raw_bytes16 (build_ipv4_frag_off_field dont_fragment 0 0));;
    hop_limit ← ld_in (fun b => ld8 b (ip6 + 7));
    if pkt_is_outer p && (hop_limit <=? 1) then
      xicmp64_send ICMPERR_HOP_LIMIT 0;; xinc_stats IPSTATS_MIB_INHDRERRORS;; mret VERDICT_DROP
    else
      st_out (ip4 + 8) [if pkt_is_outer p then hop_limit - 1 else hop_limit];;
      location ← (if pkt_is_outer p then ld_in (fun b => has_nonzero_segments_left b ip6) else mret None);
      match location with
      | Some nonzero_location =>
          xicmp64_send ICMPERR_HDR_FIELD nonzero_location;; xinc_stats IPSTATS_MIB_INHDRERRORS;; mret VERDICT_DROP
      | None =>
          match x_hdr_frag p with
          | None => mret tt
          | Some frag =>
              identification ← ld_in (fun b => ldn 4 b (frag + 4));
              st_out (ip4 + 4) (raw_bytes16 (generate_ipv4_id_dofrag identification));;
              frag_off ← ld_in (fun b => raw16 b (frag + 2));
              st_out (ip4 + 6) (raw_bytes16 (build_ipv4_frag_off_field false (is_more_fragments_set_ipv6 frag_off)
                (get_fragment_offset_ipv6 frag_off)))
          end;;
          st_out (ip4 + 10) [0; 0];;
          hdr ← ld_out (fun b => ldb b ip4 20);
          st_out (ip4 + 10) (raw_bytes16 (ip_fast_csum hdr));;
          (if pkt_is_fragment p then
             frag_off ← ld_out (fun b => raw16 b (ip4 + 6));
             st_out (ip4 + 6) (raw_bytes16 (Z.land frag_off (cpu_to_be16 (u16 (Z.lnot IP_MF)))))
           else mret tt);;
          mret VERDICT_CONTINUE
      end.

Definition compute_mtu4 : M xstate (result unit) :=
  p ← gets x_in;
  out ← gets x_out;
  match xe_route4 e out with
  | None => mret (Err EINVAL)
  | Some out_mtu =>
      match x_dev_mtu p with
      | None => mret (Err EINVAL)
      | Some in_mtu =>
          mtu ← ld_in (fun b => ldn 4 b (xtrans p + 4));
          st_out (xtrans out + 6) (be_bytes 2 (icmp4_minimum_mtu (mtu - 20) out_mtu (in_mtu - 20)));;
          mret (Ok tt)
      end
  end.

Definition update_icmp4_csum : M xstate unit :=
  p ← gets x_in;
  out ← gets x_out;
  cksum ← ld_in (fun b => raw16 b (xtrans p + 2));
  let csum := not32 (csum_unfold cksum) in
  ip6 ← ld_in (fun b => addrs6 b (xnet p));
  let csum := csum_sub csum (not32 (csum_unfold (csum_ipv6_magic ip6.1 ip6.2 (pkt_datagram_len p) NEXTHDR_ICMP 0))) in
  copy_hdr ← ld_in (fun b => ldb b (xtrans p) 8);
  let csum := csum_sub csum (csum_partial (splice copy_hdr 2 [0; 0]) 0) in
  st_out (xtrans out + 2) [0; 0];;
  out_icmp ← ld_out (fun b => ldb b (xtrans out) 8);
  let csum := csum_add csum (csum_partial out_icmp 0) in
  st_out (xtrans out + 2) (raw_bytes16 (csum_fold csum)).

Definition compute_icmp4_csum : M xstate unit :=
  out ← gets x_out;
  st_out (xtrans out + 2) [0; 0];;
  out ← gets x_out;
  csum ← skb_checksum out (xtrans out - xdata out) (pkt_datagram_len out) 0;
  st_out (xtrans out + 2) (raw_bytes16 (csum_fold csum));;
  upd_out (with_summed CHECKSUM_NONE (x_csum out)).

Definition validate_icmp6_csum : M xstate verdict :=
  p ← gets x_in;
  if negb (bool_decide (x_summed p = CHECKSUM_NONE)) then mret VERDICT_CONTINUE
  else
    hdr6 ← ld_in (fun b => addrs6 b (xnet p));
    let len := pkt_datagram_len p in
    sum ← skb_checksum p (xtrans p - xdata p) len 0;
    if negb (csum_ipv6_magic hdr6.1 hdr6.2 len NEXTHDR_ICMP sum =? 0) then
      xinc_stats IPSTATS_MIB_INHDRERRORS;; mret VERDICT_DROP
    else mret VERDICT_CONTINUE.

Definition post_icmp4info : M xstate (result unit) :=
  r ← copy_payload;
  match r with
  | Err error => mret (Err error)
  | Ok _ => update_icmp4_csum;; mret (Ok tt)
  end.

Variable inner : option tuple -> M xstate verdict.

Definition post_icmp4error (tuple4 : option tuple) : M xstate verdict :=
  result ← validate_icmp6_csum;
  if negb (bool_decide (result = VERDICT_CONTINUE)) then mret result
  else
    result ← inner tuple4;
    if negb (bool_decide (result = VERDICT_CONTINUE)) then mret result
    else compute_icmp4_csum;; mret VERDICT_CONTINUE.

(** [tuple4->icmp4_id] is the identifier of its source. *)
Definition xlat_id4 (tuple4 : option tuple) (icmp6_identifier : bytes) : M xstate bytes :=
  if xlat_is_siit e then mret icmp6_identifier
  else match tuple4 with
  | Some (Tuple4 src _ _) => mret (be_bytes 2 (l4_4 src))
  | _ => fault
  end.

(** The two cases of an echo. *)
Definition ttp64_echo (icmp4_type : Z) (tuple4 : option tuple) : M xstate verdict :=
  p ← gets x_in;
  out ← gets x_out;
  let icmp6 := xtrans p in
  let icmp4 := xtrans out in
  st_out icmp4 [icmp4_type];;
  st_out (icmp4 + 1) [0];;
  identifier ← ld_in (fun b => ldb b (icmp6 + 4) 2);
  id ← xlat_id4 tuple4 identifier;
  st_out (icmp4 + 4) id;;
  sequence ← ld_in (fun b => ldb b (icmp6 + 6) 2);
  st_out (icmp4 + 6) sequence;;
  r ← post_icmp4info;
  mret (match r with Ok _ => VERDICT_CONTINUE | Err _ => VERDICT_DROP end).

Definition ttp64_icmp (tuple4 : option tuple) : M xstate verdict :=
  p ← gets x_in;
  out ← gets x_out;
  let icmp6 := xtrans p in
  let icmp4 := xtrans out in
  cksum ← ld_in (fun b => ldb b (icmp6 + 2) 2);
  st_out (icmp4 + 2) cksum;;
  type ← ld_in (fun b => ld8 b icmp6);
  let drop_hdr : M xstate verdict := xinc_stats IPSTATS_MIB_INHDRERRORS;; mret VERDICT_DROP in
  if type =? ICMPV6_ECHO_REQUEST then ttp64_echo ICMP_ECHO tuple4
  else if type =? ICMPV6_ECHO_REPLY then ttp64_echo ICMP_ECHOREPLY tuple4
  else if type =? ICMPV6_DEST_UNREACH then
    code ← ld_in (fun b => ld8 b (icmp6 + 1));
    st_out icmp4 [ICMP_DEST_UNREACH];;
    st_out (icmp4 + 4) (be_bytes 4 0);;
    match icmp6_to_icmp4_dest_unreach code with
    | Err _ => drop_hdr
    | Ok code => st_out (icmp4 + 1) [code];; post_icmp4error tuple4
    end
  else if type =? ICMPV6_PKT_TOOBIG then
    st_out icmp4 [ICMP_DEST_UNREACH];;
    st_out (icmp4 + 1) [ICMP_FRAG_NEEDED];;
    st_out (icmp4 + 4) (be_bytes 2 0);;
    r ← compute_mtu4;
    match r with
    | Err _ => mret VERDICT_DROP
    | Ok _ => post_icmp4error tuple4
    end
  else if type =? ICMPV6_TIME_EXCEED then
    code ← ld_in (fun b => ld8 b (icmp6 + 1));
    st_out icmp4 [ICMP_TIME_EXCEEDED];;
    st_out (icmp4 + 1) [code];;
    st_out (icmp4 + 4) (be_bytes 4 0);;
    post_icmp4error tuple4
  else if type =? ICMPV6_PARAMPROB then
    code ← ld_in (fun b => ld8 b (icmp6 + 1));
    ptr ← ld_in (fun b => ldn 4 b (icmp6 + 4));
    match icmp6_to_icmp4_param_prob code ptr with
    | Err _ => drop_hdr
    | Ok (type, code, unused) =>
        st_out icmp4 [type];;
        st_out (icmp4 + 1) [code];;
        st_out (icmp4 + 4) (be_bytes 4 unused);;
        post_icmp4error tuple4
    end
  else mret VERDICT_DROP.

(** The ports of the tuple, in the header at [l4]. *)
Definition st_ports4 (tuple4 : option tuple) (l4 : Z) : M xstate unit :=
  if xlat_is_siit e then mret tt
  else match tuple4 with
  | Some (Tuple4 src dst _) => st_out l4 (be_bytes 2 (l4_4 src));; st_out (l4 + 2) (be_bytes 2 (l4_4 dst))
  | _ => fault
  end.

(** [ttp64_tcp] and [ttp64_udp] up to the payload, for a header of [size]
    bytes with its checksum at [check]: [mangle] is what UDP does with a
    checksum of zero. *)
Definition ttp64_l4 (size check : Z) (mangle : Z -> Z) (tuple4 : option tuple) : M xstate verdict :=
  p ← gets x_in;
  out ← gets x_out;
  hdr ← ld_in (fun b => ldb b (xtrans p) (pkt_l4hdr_len p));
  st_out (xtrans out) hdr;;
  st_ports4 tuple4 (xtrans out);;
  cksum ← ld_in (fun b => raw16 b (xtrans p + check));
  ip6 ← ld_in (fun b => addrs6 b (xnet p));
  ip4 ← ld_out (fun b => addrs4 b (xnet out));
  (if negb (bool_decide (x_summed p = CHECKSUM_PARTIAL)) then
     copy ← ld_in (fun b => ldb b (xtrans p) size);
     st_out (xtrans out + check) [0; 0];;
     hdr_out ← ld_out (fun b => ldb b (xtrans out) size);
     st_out (xtrans out + check)
       (raw_bytes16 (mangle (update_csum_6to4 cksum ip6 (splice copy check [0; 0]) ip4 hdr_out)));;
     upd_out (fun out => with_summed CHECKSUM_NONE (x_csum out) out)
   else
     st_out (xtrans out + check) (raw_bytes16 (update_csum_6to4_partial cksum ip6 ip4));;
     partialize_skb check);;
  r ← copy_payload;
  mret (match r with Ok _ => VERDICT_CONTINUE | Err _ => VERDICT_DROP end).

Definition ttp64_tcp : option tuple -> M xstate verdict := ttp64_l4 20 16 (fun csum => csum).
Definition ttp64_udp : option tuple -> M xstate verdict :=
  ttp64_l4 8 6 (fun csum => if csum =? 0 then CSUM_MANGLED_0 else csum).

End Xlat64.
