(* ===== verification/Xlat46.v ===== *)
(** * From IPv4 to IPv6

    [mod/common/rfc6145/4to6.c], as [Xlat64] does with the other
    direction. *)
From S2P Require Import Prelude Types Address Rfc6052 Pool6 RbTree BibTable BibDb Packet SessionEntry PktQueue Skb Checksum XlatPkt Xlat64.

(** ** Constants of the kernel *)

Definition IPV6_MIN_MTU : Z := 1280.
Definition IPOPT_END : Z := 0.
Definition IPOPT_NOOP : Z := 1.
Definition IPOPT_LSRR : Z := 131.
Definition IPOPT_SSRR : Z := 137.
Definition ICMP_NET_UNREACH : Z := 0.
Definition ICMP_SR_FAILED : Z := 5.
Definition ICMP_NET_UNKNOWN : Z := 6.
Definition ICMP_HOST_UNKNOWN : Z := 7.
Definition ICMP_HOST_ISOLATED : Z := 8.
Definition ICMP_NET_ANO : Z := 9.
Definition ICMP_NET_UNR_TOS : Z := 11.
Definition ICMP_HOST_UNR_TOS : Z := 12.
Definition ICMP_PKT_FILTERED : Z := 13.
Definition ICMP_PREC_CUTOFF : Z := 15.

(** ** Values *)

(** The loop of [has_unexpired_src_route]. *)
Fixpoint src_route_loop (fuel : nat) (b : bytes) (current_option end_of_options : Z) : option bool :=
  match fuel with
  | O => None
  | S fuel =>
      type ← ld8 b current_option;
      if negb (type =? IPOPT_LSRR) && negb (type =? IPOPT_SSRR) then
        if type =? IPOPT_END then Some false
        else
          next ← (if type =? IPOPT_NOOP then Some (current_option + 1)
                  else len ← ld8 b (current_option + 1); Some (current_option + len));
          if end_of_options <=? next then Some false else src_route_loop fuel b next end_of_options
      else
        src_route_length ← ld8 b (current_option + 1);
        src_route_pointer ← ld8 b (current_option + 2);
        Some (src_route_pointer <=? src_route_length)
  end.

(** Options that all advance end within the header's 60 bytes. *)
Definition has_unexpired_src_route (b : bytes) (hdr : Z) : option bool :=
  ihl ← ip4_hdr_len b hdr;
  if hdr + ihl <=? hdr + 20 then Some false
  else src_route_loop 60 b (hdr + 20) (hdr + ihl).

(** The first plateau below the length. *)
Fixpoint find_plateau (plateaus : list Z) (tot_len_field : Z) : option Z :=
  match plateaus with
  | [] => None
  | plateau :: plateaus => if plateau <? tot_len_field then Some plateau else find_plateau plateaus tot_len_field
  end.

Definition icmp6_minimum_mtu (plateaus : list Z) (lower_mtu_fail : bool)
    (packet_mtu nexthop6_mtu nexthop4_mtu tot_len_field : Z) : Z :=
  let packet_mtu := if packet_mtu =? 0 then default packet_mtu (find_plateau plateaus tot_len_field) else packet_mtu in
  let packet_mtu := u32 (packet_mtu + 20) in
  let nexthop4_mtu := u32 (nexthop4_mtu + 20) in
  let result :=
    if nexthop6_mtu <? packet_mtu
    then (if nexthop6_mtu <? nexthop4_mtu then nexthop6_mtu else nexthop4_mtu)
    else (if packet_mtu <? nexthop4_mtu then packet_mtu else nexthop4_mtu) in
  if lower_mtu_fail && (result <? IPV6_MIN_MTU) then IPV6_MIN_MTU else result.

(** The table of [icmp4_to_icmp6_param_prob]; 255 is a pointer to drop. *)
Definition param_prob_pointers : list Z :=
  [0; 1; 4; 4; 255; 255; 255; 255; 7; 6; 255; 255; 8; 8; 8; 8; 24; 24; 24; 24].

(** The ICMPv6 pointer. *)
Definition icmp4_to_icmp6_param_prob (icmp4_code icmp4_unused : Z) : result Z :=
  if (icmp4_code =? 0) || (icmp4_code =? 2) then
    let icmp4_pointer := u8 (Z.shiftr icmp4_unused 24) in
    if 19 <? icmp4_pointer then Err EINVAL
    else match param_prob_pointers !! Z.to_nat icmp4_pointer with
    | None => Err EINVAL
    | Some pointer => if pointer =? 255 then Err EINVAL else Ok pointer
    end
  else Err EINVAL.

(** ** The packet *)

Section Xlat46.
Context {K : KernelCsum} {T : SiitTables} (e : xenv).

Definition ttp46_create_skb : M xstate verdict :=
  p ← gets x_in;
  frag_off ← ld_in (fun b => raw16 b (xnet p + 6));
  let is_first := is_first_frag4 frag_off in
  let l3_hdr_len := 40 + (if will_need_frag_hdr e frag_off then 8 else 0) in
  let total_len := s32 (l3_hdr_len + pkt_l3payload_len p) in
  error ← (if is_first then xpkt_is_icmp4_error p else mret false);
  total_len ← (if error : bool then
      inner_off ← ld_in (fun b => raw16 b (xpayload p + 6));
      let total_len := s32 (total_len + 20 + (if will_need_frag_hdr e inner_off then 8 else 0)) in
      mret (if IPV6_MIN_MTU <? total_len then IPV6_MIN_MTU else total_len)
    else mret total_len);
  skb ← alloc_skb e total_len;
  match skb with
  | None => xinc_stats IPSTATS_MIB_INDISCARDS;; mret VERDICT_DROP
  | Some b =>
      upd_out (fun _ => XPkt b [] (XPtrs 0 0 l3_hdr_len (l3_hdr_len + pkt_l4hdr_len p) (xl4 p) false) L3PROTO_IPV6 false
        (if will_need_frag_hdr e frag_off then Some 40 else None) CHECKSUM_NONE None (x_mark p) None);;
      mret VERDICT_CONTINUE
  end.

(** In host order. *)
Definition build_payload_len : M xstate Z :=
  p ← gets x_in;
  out ← gets x_out;
  total_len ← (if xinner out then
      tot_len ← ld_in (fun b => ldn 2 b (xnet p + 2));
      mret (u16 (tot_len - pkt_hdrs_len p + pkt_hdrs_len out))
    else if negb (pkt_is_fragment out) then
      let total_len := u16 (skb_len out) in
      error ← xpkt_is_icmp6_error out;
      mret (if error && (IPV6_MIN_MTU <? total_len) then IPV6_MIN_MTU else total_len)
    else mret (u16 (skb_len p - pkt_hdrs_len p + pkt_hdrs_len out)));
  mret (u16 (total_len - 40)).

Definition generate_saddr6_nat64 (src : ipv6_transport_addr) : M xstate (result unit) :=
  p ← gets x_in;
  out ← gets x_out;
  error ← (if config_src_icmp6errs_better e then xpkt_is_icmp4_error p else mret false);
  if error : bool then
    prefix6 ← ask_pool6 e (pool6_get (Some (l3_6 src)));
    match prefix6 with
    | Err error => mret (Err error)
    | Ok prefix6 =>
        saddr ← ld_in (fun b => ldn 4 b (xnet p + 12));
        match addr_4to6 (InAddr saddr) prefix6 with
        | Err error => mret (Err error)
        | Ok addr => st_out (xnet out + 8) (be_bytes 16 (s6_addr addr));; mret (Ok tt)
        end
    end
  else st_out (xnet out + 8) (be_bytes 16 (s6_addr (l3_6 src)));; mret (Ok tt).

Definition generate_addr6_siit (addr4 : in_addr) (dst enable_eam : bool) : M xstate (verdict * option in6_addr) :=
  if addr4_is_scope_subnet (s_addr addr4) then mret (VERDICT_ACCEPT, None)
  else
    let rfc6052 : M xstate (verdict * option in6_addr) :=
      if dst && blacklist_contains addr4 then mret (VERDICT_ACCEPT, None)
      else
        prefix ← ask_pool6 e pool6_peek;
        match prefix with
        | Err _ => mret (VERDICT_ACCEPT, None)
        | Ok prefix =>
            match addr_4to6 addr4 prefix with
            | Err _ => mret (VERDICT_DROP, None)
            | Ok addr6 => mret (VERDICT_CONTINUE, Some addr6)
            end
        end in
    if enable_eam then
      match eamt_xlat_4to6 addr4 with
      | Ok addr6 => mret (VERDICT_CONTINUE, Some addr6)
      | Err error => if negb (bool_decide (error = ESRCH)) then mret (VERDICT_DROP, None) else rfc6052
      end
    else rfc6052.

Definition disable_src_eam (p : xpkt) (hairpin : bool) : M xstate bool :=
  if negb hairpin || xinner p then mret false
  else
    error ← xpkt_is_icmp4_error p;
    if negb error then mret true
    else
      saddr ← ld_in (fun b => ldn 4 b (xnet p + 12));
      daddr ← ld_in (fun b => ldn 4 b (xpayload p + 16));
      mret (saddr =? daddr).

Definition disable_dst_eam (p : xpkt) (hairpin : bool) : bool := hairpin && xinner p.

Definition translate_addrs46_siit : M xstate verdict :=
  p ← gets x_in;
  out ← gets x_out;
  let hairpin := bool_decide (config_eam_hairpin_mode e = EAM_HAIRPIN_SIMPLE) || x_is_hairpin p in
  saddr4 ← ld_in (fun b => ldn 4 b (xnet p + 12));
  no_src ← disable_src_eam p hairpin;
  '(result, saddr) ← generate_addr6_siit (InAddr saddr4) false (negb no_src);
  match saddr with
  | None => mret result
  | Some saddr =>
      st_out (xnet out + 8) (be_bytes 16 (s6_addr saddr));;
      daddr4 ← ld_in (fun b => ldn 4 b (xnet p + 16));
      '(result, daddr) ← generate_addr6_siit (InAddr daddr4) true (negb (disable_dst_eam p hairpin));
      match daddr with
      | None => mret result
      | Some daddr => st_out (xnet out + 24) (be_bytes 16 (s6_addr daddr));; mret VERDICT_CONTINUE
      end
  end.

Definition ttp46_ipv6 (tuple6 : option tuple) : M xstate verdict :=
  p ← gets x_in;
  out ← gets x_out;
  let ip4 := xnet p in
  let ip6 := xnet out in
  result ← (if negb (xlat_is_siit e) then
      match tuple6 with
      | Some (Tuple6 src dst _) =>
          r ← generate_saddr6_nat64 src;
          match r with
          | Err _ => mret VERDICT_DROP
          | Ok _ => st_out (ip6 + 24) (be_bytes 16 (s6_addr (l3_6 dst)));; mret VERDICT_CONTINUE
          end
      | _ => fault
      end
    else translate_addrs46_siit);
  if negb (bool_decide (result = VERDICT_CONTINUE)) then mret result
  else
    st_nibble ip6 4 6;;
    tos ← ld_in (fun b => ld8 b (ip4 + 1));
    st_nibble ip6 0 (if config_reset_traffic_class e then 0 else Z.shiftr tos 4);;
    st_out (ip6 + 1) [if config_reset_traffic_class e then 0 else u8 (Z.shiftl tos 4)];;
    st_out (ip6 + 2) [0; 0];;
    payload_len ← build_payload_len;
    st_out (ip6 + 4) (be_bytes 2 payload_len);;
    protocol ← ld_in (fun b => ld8 b (ip4 + 9));
    let nexthdr := if protocol =? IPPROTO_ICMP then NEXTHDR_ICMP else protocol in
    st_out (ip6 + 6) [nexthdr];;
    ttl ← ld_in (fun b => ld8 b (ip4 + 8));
    let hop := pkt_is_outer p && negb (x_is_hairpin p) in
    if hop && (ttl <=? 1) then
      xicmp64_send ICMPERR_HOP_LIMIT 0;; xinc_stats IPSTATS_MIB_INHDRERRORS;; mret VERDICT_DROP
    else
      st_out (ip6 + 7) [if hop then ttl - 1 else ttl];;
      src_route ← (if pkt_is_outer p then ld_in (fun b => has_unexpired_src_route b ip4) else mret false);
      if src_route : bool then
        xicmp64_send ICMPERR_SRC_ROUTE 0;; xinc_stats IPSTATS_MIB_INHDRERRORS;; mret VERDICT_DROP
      else
        frag_off ← ld_in (fun b => raw16 b (ip4 + 6));
        (if will_need_frag_hdr e frag_off then
           st_out (ip6 + 6) [NEXTHDR_FRAGMENT];;
           st_out (ip6 + 40) [nexthdr];;
           st_out (ip6 + 41) [0];;
           st_out (ip6 + 42) (raw_bytes16 (build_ipv6_frag_off_field (get_fragment_offset_ipv4 frag_off)
             (is_more_fragments_set_ipv4 frag_off)));;
           id ← ld_in (fun b => ldn 2 b (ip4 + 4));
           st_out (ip6 + 44) (be_bytes 4 id)
         else mret tt);;
        mret VERDICT_CONTINUE.

Definition compute_mtu6 : M xstate (result unit) :=
  p ← gets x_in;
  out ← gets x_out;
  match xe_route6 e out with
  | None => mret (Err EINVAL)
  | Some out_mtu =>
      let in_mtu := default 0xfffffff (x_dev_mtu p) in
      mtu ← ld_in (fun b => ldn 2 b (xtrans p + 6));
      tot_len ← ld_in (fun b => ldn 2 b (xpayload p + 2));
      st_out (xtrans out + 4)
        (be_bytes 4 (icmp6_minimum_mtu (config_mtu_plateaus e) (config_lower_mtu_fail e) mtu out_mtu in_mtu tot_len));;
      mret (Ok tt)
  end.

Definition icmp4_to_icmp6_dest_unreach : M xstate (result unit) :=
  p ← gets x_in;
  out ← gets x_out;
  let icmp6 := xtrans out in
  st_out icmp6 [ICMPV6_DEST_UNREACH];;
  st_out (icmp6 + 4) (be_bytes 4 0);;
  code ← ld_in (fun b => ld8 b (xtrans p + 1));
  if (code =? ICMP_NET_UNREACH) || (code =? ICMP_HOST_UNREACH) || (code =? ICMP_SR_FAILED) || (code =? ICMP_NET_UNKNOWN)
     || (code =? ICMP_HOST_UNKNOWN) || (code =? ICMP_HOST_ISOLATED) || (code =? ICMP_NET_UNR_TOS) || (code =? ICMP_HOST_UNR_TOS)
  then st_out (icmp6 + 1) [ICMPV6_NOROUTE];; mret (Ok tt)
  else if code =? ICMP_PROT_UNREACH then
    st_out icmp6 [ICMPV6_PARAMPROB];;
    st_out (icmp6 + 1) [ICMPV6_UNK_NEXTHDR];;
    st_out (icmp6 + 4) (be_bytes 4 6);;
    mret (Ok tt)
  else if code =? ICMP_PORT_UNREACH then st_out (icmp6 + 1) [ICMPV6_PORT_UNREACH];; mret (Ok tt)
  else if code =? ICMP_FRAG_NEEDED then
    st_out icmp6 [ICMPV6_PKT_TOOBIG];;
    st_out (icmp6 + 1) [0];;
    compute_mtu6
  else if (code =? ICMP_NET_ANO) || (code =? ICMP_HOST_ANO) || (code =? ICMP_PKT_FILTERED) || (code =? ICMP_PREC_CUTOFF)
  then st_out (icmp6 + 1) [ICMPV6_ADM_PROHIBITED];; mret (Ok tt)
  else xinc_stats IPSTATS_MIB_INHDRERRORS;; mret (Err EINVAL).

Definition update_icmp6_csum : M xstate unit :=
  p ← gets x_in;
  out ← gets x_out;
  st_out (xtrans out + 2) [0; 0];;
  cksum ← ld_in (fun b => raw16 b (xtrans p + 2));
  let csum := not32 (csum_unfold cksum) in
  copy_hdr ← ld_in (fun b => ldb b (xtrans p) 8);
  let csum := csum_sub csum (csum_partial (splice copy_hdr 2 [0; 0]) 0) in
  out_icmp ← ld_out (fun b => ldb b (xtrans out) 8);
  let csum := csum_add csum (csum_partial out_icmp 0) in
  ip6 ← ld_out (fun b => addrs6 b (xnet out));
  st_out (xtrans out + 2) (raw_bytes16 (csum_ipv6_magic ip6.1 ip6.2 (pkt_datagram_len p) NEXTHDR_ICMP csum)).

Definition compute_icmp6_csum : M xstate unit :=
  out ← gets x_out;
  st_out (xtrans out + 2) [0; 0];;
  out ← gets x_out;
  csum ← skb_checksum out (xtrans out - xdata out) (pkt_datagram_len out) 0;
  ip6 ← ld_out (fun b => addrs6 b (xnet out));
  st_out (xtrans out + 2) (raw_bytes16 (csum_ipv6_magic ip6.1 ip6.2 (pkt_datagram_len out) NEXTHDR_ICMP csum));;
  upd_out (with_summed CHECKSUM_NONE (x_csum out)).

Definition validate_icmp4_csum : M xstate verdict :=
  p ← gets x_in;
  if negb (bool_decide (x_summed p = CHECKSUM_NONE)) then mret VERDICT_CONTINUE
  else
    sum ← skb_checksum p (xtrans p - xdata p) (pkt_datagram_len p) 0;
    if negb (csum_fold sum =? 0) then xinc_stats IPSTATS_MIB_INHDRERRORS;; mret VERDICT_DROP
    else mret VERDICT_CONTINUE.

Definition post_icmp6info : M xstate (result unit) :=
  r ← copy_payload;
  match r with
  | Err error => mret (Err error)
  | Ok _ => update_icmp6_csum;; mret (Ok tt)
  end.

Variable inner : option tuple -> M xstate verdict.

Definition post_icmp6error (tuple6 : option tuple) : M xstate verdict :=
  result ← validate_icmp4_csum;
  if negb (bool_decide (result = VERDICT_CONTINUE)) then mret result
  else
    result ← inner tuple6;
    if negb (bool_decide (result = VERDICT_CONTINUE)) then mret result
    else compute_icmp6_csum;; mret VERDICT_CONTINUE.

Definition xlat_id6 (tuple6 : option tuple) (id : bytes) : M xstate bytes :=
  if xlat_is_siit e then mret id
  else match tuple6 with
  | Some (Tuple6 src _ _) => mret (be_bytes 2 (l4_6 src))
  | _ => fault
  end.

(** The two cases of an echo. *)
Definition ttp46_echo (icmp6_type : Z) (tuple6 : option tuple) : M xstate verdict :=
  p ← gets x_in;
  out ← gets x_out;
  let icmp4 := xtrans p in
  let icmp6 := xtrans out in
  st_out icmp6 [icmp6_type];;
  st_out (icmp6 + 1) [0];;
  id ← ld_in (fun b => ldb b (icmp4 + 4) 2);
  id ← xlat_id6 tuple6 id;
  st_out (icmp6 + 4) id;;
  sequence ← ld_in (fun b => ldb b (icmp4 + 6) 2);
  st_out (icmp6 + 6) sequence;;
  r ← post_icmp6info;
  mret (match r with Ok _ => VERDICT_CONTINUE | Err _ => VERDICT_DROP end).

Definition ttp46_icmp (tuple6 : option tuple) : M xstate verdict :=
  p ← gets x_in;
  out ← gets x_out;
  let icmp4 := xtrans p in
  let icmp6 := xtrans out in
  cksum ← ld_in (fun b => ldb b (icmp4 + 2) 2);
  st_out (icmp6 + 2) cksum;;
  type ← ld_in (fun b => ld8 b icmp4);
  let drop_hdr : M xstate verdict := xinc_stats IPSTATS_MIB_INHDRERRORS;; mret VERDICT_DROP in
  if type =? ICMP_ECHO then ttp46_echo ICMPV6_ECHO_REQUEST tuple6
  else if type =? ICMP_ECHOREPLY then ttp46_echo ICMPV6_ECHO_REPLY tuple6
  else if type =? ICMP_DEST_UNREACH then
    r ← icmp4_to_icmp6_dest_unreach;
    match r with
    | Err _ => mret VERDICT_DROP
    | Ok _ => post_icmp6error tuple6
    end
  else if type =? ICMP_TIME_EXCEEDED then
    code ← ld_in (fun b => ld8 b (icmp4 + 1));
    st_out icmp6 [ICMPV6_TIME_EXCEED];;
    st_out (icmp6 + 1) [code];;
    st_out (icmp6 + 4) (be_bytes 4 0);;
    post_icmp6error tuple6
  else if type =? ICMP_PARAMETERPROB then
    code ← ld_in (fun b => ld8 b (icmp4 + 1));
    unused ← ld_in (fun b => ldn 4 b (icmp4 + 4));
    st_out icmp6 [ICMPV6_PARAMPROB];;
    match icmp4_to_icmp6_param_prob code unused with
    | Err _ => drop_hdr
    | Ok pointer =>
        st_out (icmp6 + 1) [ICMPV6_HDR_FIELD];;
        st_out (icmp6 + 4) (be_bytes 4 pointer);;
        post_icmp6error tuple6
    end
  else drop_hdr.

Definition can_compute_csum : M xstate bool :=
  if negb (xlat_is_siit e) then mret true
  else
    p ← gets x_in;
    frag_off ← ld_in (fun b => raw16 b (xnet p + 6));
    mret (negb (negb (is_more_fragments_set_ipv4 frag_off =? 0) || negb (config_amend_zero_csum e))).

Definition handle_zero_csum : M xstate (result unit) :=
  ok ← can_compute_csum;
  if negb ok then mret (Err EINVAL)
  else
    p ← gets x_in;
    out ← gets x_out;
    hdr_udp ← ld_out (fun b => ldb b (xtrans out) 8);
    csum ← skb_checksum p (pkt_payload_offset p) (pkt_payload_len_pkt p) (csum_partial hdr_udp 0);
    hdr6 ← ld_out (fun b => addrs6 b (xnet out));
    st_out (xtrans out + 6) (raw_bytes16 (csum_ipv6_magic hdr6.1 hdr6.2 (pkt_datagram_len p) IPPROTO_UDP csum));;
    mret (Ok tt).

Definition st_ports6 (tuple6 : option tuple) (l4 : Z) : M xstate unit :=
  if xlat_is_siit e then mret tt
  else match tuple6 with
  | Some (Tuple6 src dst _) => st_out l4 (be_bytes 2 (l4_6 src));; st_out (l4 + 2) (be_bytes 2 (l4_6 dst))
  | _ => fault
  end.

(** The checksum of the transport header, from the one of [p], for a header of
    [size] bytes with its checksum at [check]. *)
Definition st_csum46 (size check : Z) : M xstate unit :=
  p ← gets x_in;
  out ← gets x_out;
  cksum ← ld_in (fun b => raw16 b (xtrans p + check));
  ip4 ← ld_in (fun b => addrs4 b (xnet p));
  ip6 ← ld_out (fun b => addrs6 b (xnet out));
  if negb (bool_decide (x_summed p = CHECKSUM_PARTIAL)) then
    copy ← ld_in (fun b => ldb b (xtrans p) size);
    st_out (xtrans out + check) [0; 0];;
    hdr_out ← ld_out (fun b => ldb b (xtrans out) size);
    st_out (xtrans out + check) (raw_bytes16 (update_csum_4to6 cksum ip4 (splice copy check [0; 0]) ip6 hdr_out))
  else
    st_out (xtrans out + check) (raw_bytes16 (update_csum_4to6_partial cksum ip4 ip6));;
    partialize_skb check.

(** The header, with the ports of the tuple. *)
Definition st_hdr46 (tuple6 : option tuple) : M xstate unit :=
  p ← gets x_in;
  out ← gets x_out;
  hdr ← ld_in (fun b => ldb b (xtrans p) (pkt_l4hdr_len p));
  st_out (xtrans out) hdr;;
  st_ports6 tuple6 (xtrans out).

Definition ttp46_tcp (tuple6 : option tuple) : M xstate verdict :=
  st_hdr46 tuple6;;
  st_csum46 20 16;;
  r ← copy_payload;
  mret (match r with Ok _ => VERDICT_CONTINUE | Err _ => VERDICT_DROP end).

Definition ttp46_udp (tuple6 : option tuple) : M xstate verdict :=
  st_hdr46 tuple6;;
  p ← gets x_in;
  check ← ld_in (fun b => raw16 b (xtrans p + 6));
  r ← (if negb (check =? 0) then st_csum46 8 6;; mret (Ok tt) else handle_zero_csum);
  match r with
  | Err _ => mret VERDICT_DROP
  | Ok _ =>
      r ← copy_payload;
      mret (match r with Ok _ => VERDICT_CONTINUE | Err _ => VERDICT_DROP end)
  end.

End Xlat46.
