(* ===== verification/Xlat.v ===== *)
(** * The translation of a packet

    The table of [mod/common/rfc6145/common.c], which ties the two directions
    together, and [mod/common/rfc6145/core.c]. *)
From S2P Require Import Prelude Types Address Rfc6052 Pool6 RbTree BibTable BibDb Packet SessionEntry PktQueue Skb Checksum XlatPkt Xlat64 Xlat46.

Section Xlat.
Context {K : KernelCsum} {T : SiitTables} (e : xenv).

(** [steps], where ICMP errors may be nested up to [depth] times: an inner
    packet that is itself an ICMP error is translated with its own inner
    packet. *)
Fixpoint steps (depth : nat) (l3 : l3_protocol) (l4 : l4_protocol) : translation_steps :=
  let inner : option tuple -> M xstate verdict :=
    match depth with
    | O => fun _ => fault
    | S depth => ttpcomm_translate_inner_packet e (steps depth)
    end in
  match l3, l4 with
  | L3PROTO_IPV6, L4PROTO_TCP => Steps (ttp64_ipv4 e) (ttp64_tcp e)
  | L3PROTO_IPV6, L4PROTO_UDP => Steps (ttp64_ipv4 e) (ttp64_udp e)
  | L3PROTO_IPV6, L4PROTO_ICMP => Steps (ttp64_ipv4 e) (ttp64_icmp e inner)
  | L3PROTO_IPV6, L4PROTO_OTHER => Steps (ttp64_ipv4 e) (fun _ => handle_unknown_l4)
  | L3PROTO_IPV4, L4PROTO_TCP => Steps (ttp46_ipv6 e) (ttp46_tcp e)
  | L3PROTO_IPV4, L4PROTO_UDP => Steps (ttp46_ipv6 e) (ttp46_udp e)
  | L3PROTO_IPV4, L4PROTO_ICMP => Steps (ttp46_ipv6 e) (ttp46_icmp e inner)
  | L3PROTO_IPV4, L4PROTO_OTHER => Steps (ttp46_ipv6 e) (fun _ => handle_unknown_l4)
  end.

Definition skb_create_fn (l3 : l3_protocol) : M xstate verdict :=
  match l3 with L3PROTO_IPV6 => ttp64_create_skb e | L3PROTO_IPV4 => ttp46_create_skb e end.

Context (depth : nat).

Definition translate_first (tup : option tuple) : M xstate verdict :=
  p ← gets x_in;
  let steps := steps depth (x_l3_proto p) (xl4 p) in
  result ← skb_create_fn (x_l3_proto p);
  if negb (bool_decide (result = VERDICT_CONTINUE)) then mret result
  else
    result ← l3_hdr_fn steps tup;
    if negb (bool_decide (result = VERDICT_CONTINUE)) then xemit XFreeOut;; mret result
    else
      result ← l3_payload_fn steps tup;
      if negb (bool_decide (result = VERDICT_CONTINUE)) then xemit XFreeOut;; mret result
      else mret result.

(** The buffer of a fragment is copied as it is; the headers it will need are
    headroom. *)
Definition translate_subsequent (frag : bytes) : M xstate (verdict * bytes) :=
  ok ← (fun s => let '(ok, al) := kmalloc (x_allocs s) in Some (ok, XState (x_in s) (x_out s) (x_events s) al (x_randoms s)));
  if ok : bool then mret (VERDICT_CONTINUE, frag)
  else xinc_stats IPSTATS_MIB_INDISCARDS;; mret (VERDICT_DROP, []).

Fixpoint translate_frags (frags : list bytes) : M xstate verdict :=
  match frags with
  | [] => mret VERDICT_CONTINUE
  | frag :: frags =>
      '(result, skb_out) ← translate_subsequent frag;
      if negb (bool_decide (result = VERDICT_CONTINUE)) then xemit XFreeOut;; mret result
      else
        upd_out (fun out => with_frags (x_frags out ++ [skb_out]) out);;
        translate_frags frags
  end.

Definition translating_the_packet (out_tuple : option tuple) : M xstate verdict :=
  result ← translate_first out_tuple;
  if negb (bool_decide (result = VERDICT_CONTINUE)) then mret result
  else
    p ← gets x_in;
    translate_frags (x_frags p).

End Xlat.
