(* ===== verification/XlatSpec.v ===== *)
(** * What the translation writes

    Running the definitions of [XlatPkt], [Xlat64] and [Xlat46]: the bytes of
    the packet they leave, without faults. *)
From S2P Require Import Prelude Types Address Rfc6052 Pool6 RbTree BibTable BibDb Packet SessionEntry PktQueue SessionTable Tcp SessionSpec.
From S2P Require Import Skb Checksum XlatPkt Xlat64 Xlat46 Xlat.

(** ** Splices *)

Lemma blen_app a b : blen (a ++ b) = blen a + blen b.
Proof. unfold blen. rewrite length_app. lia. Qed.

Lemma blen_nonneg b : 0 <= blen b.
Proof. unfold blen. lia. Qed.

Lemma splice_length b off l : 0 <= off -> off + blen l <= blen b -> length (splice b off l) = length b.
Proof. intros H0 H. unfold splice, blen in *. rewrite !length_app, length_take, length_drop. lia. Qed.

Lemma blen_splice b off l : 0 <= off -> off + blen l <= blen b -> blen (splice b off l) = blen b.
Proof. intros H0 H. unfold blen at 1. rewrite splice_length by done. done. Qed.

Lemma splice_mid a c b i l : 0 <= i -> i + blen l <= blen c ->
  splice (a ++ c ++ b) (blen a + i) l = a ++ splice c i l ++ b.
Proof.
  intros H0 H. unfold splice, blen in *.
  rewrite take_app_ge by lia. rewrite drop_app_ge by lia.
  replace (Z.to_nat (Z.of_nat (length a) + i) - length a)%nat with (Z.to_nat i) by lia.
  replace (Z.to_nat (Z.of_nat (length a) + i) + length l - length a)%nat with (Z.to_nat i + length l)%nat by lia.
  rewrite take_app_le, drop_app_le by lia. rewrite <- !(assoc_L (++)). done.
Qed.

Lemma splice_all c l : length l = length c -> splice c 0 l = l.
Proof.
  intros H. unfold splice. change (Z.to_nat 0) with 0%nat. rewrite Nat.add_0_l, H, drop_all, app_nil_r. done.
Qed.

Lemma splice_head a c l : length l = length a -> splice (a ++ c) 0 l = l ++ c.
Proof.
  intros H. unfold splice. change (Z.to_nat 0) with 0%nat. rewrite Nat.add_0_l, H, drop_app_length. done.
Qed.

Lemma take_splice c i l (n : nat) : 0 <= i -> i + blen l <= Z.of_nat n -> (n <= length c)%nat ->
  take n (splice c i l) = splice (take n c) i l.
Proof.
  intros H0 H Hn. unfold splice, blen in *. rewrite take_app_ge by (rewrite length_take; lia).
  rewrite length_take, Nat.min_l by lia. rewrite take_app_ge by lia. rewrite take_take, Nat.min_l by lia.
  rewrite skipn_firstn_comm. do 3 f_equal. lia.
Qed.

Lemma drop_splice c i l (n : nat) : 0 <= i -> i + blen l <= Z.of_nat n -> i + blen l <= blen c -> drop n (splice c i l) = drop n c.
Proof.
  intros H0 H Hc. unfold splice, blen in *. rewrite (assoc_L (++)), drop_app_ge by (rewrite length_app, length_take; lia).
  rewrite drop_drop. f_equal. rewrite length_app, length_take. lia.
Qed.

Lemma slice_app_r a b off len : off = blen a -> len = blen b -> slice (a ++ b) off len = b.
Proof.
  intros -> ->. unfold slice, blen. rewrite !Nat2Z.id, drop_app_length. apply take_ge. lia.
Qed.

Lemma splice_splice c i l l' : length l = length l' -> 0 <= i -> i + blen l <= blen c ->
  splice (splice c i l) i l' = splice c i l'.
Proof.
  intros El H0 H. unfold splice, blen in *. rewrite take_app_le, take_take, Nat.min_l by (rewrite ?length_take; lia).
  rewrite <- El. do 2 f_equal. rewrite drop_app_ge by (rewrite length_take; lia).
  rewrite length_take, Nat.min_l, drop_app_ge by lia.
  replace (Z.to_nat i + length l - Z.to_nat i - length l)%nat with 0%nat by lia. done.
Qed.

Lemma raw_sum_splice16 c i x y : Nat.Even (Z.to_nat i) -> 0 <= i -> i + 2 <= blen c ->
  raw_sum (splice c i [x; y]) = raw_sum (splice c i [0; 0]) + (x + 256 * y).
Proof.
  intros He H0 H. unfold splice. unfold blen in H.
  assert (Hl : Nat.Even (length (take (Z.to_nat i) c))) by (rewrite length_take, Nat.min_l by lia; done).
  rewrite (raw_sum_app _ ([x; y] ++ _)), (raw_sum_app _ ([0; 0] ++ _)) by done.
  change (length [x; y]) with (length [0; 0]). cbn [app raw_sum]. lia.
Qed.

Lemma raw_sum_even_split c n : Nat.Even n -> (n <= length c)%nat -> raw_sum c = raw_sum (take n c) + raw_sum (drop n c).
Proof. intros He Hn. rewrite <- (take_drop n c) at 1. apply raw_sum_app. rewrite length_take, Nat.min_l by lia. done. Qed.

Lemma wf_bytes_app a b : wf_bytes a -> wf_bytes b -> wf_bytes (a ++ b).
Proof. apply Forall_app_2. Qed.

Lemma wf_take n b : wf_bytes b -> wf_bytes (take n b).
Proof. apply Forall_take. Qed.

Lemma wf_drop n b : wf_bytes b -> wf_bytes (drop n b).
Proof. apply Forall_drop. Qed.

Lemma wf_slice b off len : wf_bytes b -> wf_bytes (slice b off len).
Proof. intros H. apply wf_take, wf_drop, H. Qed.

Lemma wf_splice b off l : wf_bytes b -> wf_bytes l -> wf_bytes (splice b off l).
Proof. intros Hb Hl. apply wf_bytes_app; [apply wf_take, Hb|]. apply wf_bytes_app; [exact Hl|apply wf_drop, Hb]. Qed.

Lemma ldb_some b off len : 0 <= off -> 0 <= len -> off + len <= blen b -> ldb b off len = Some (slice b off len).
Proof.
  intros H1 H2 H3. unfold ldb. destruct (Z.leb_spec 0 off), (Z.leb_spec 0 len), (Z.leb_spec (off + len) (blen b)); try lia. done.
Qed.

Lemma slice_length b off len : 0 <= off -> 0 <= len -> off + len <= blen b -> length (slice b off len) = Z.to_nat len.
Proof. intros H1 H2 H3. unfold slice, blen in *. rewrite length_take, length_drop. lia. Qed.

Lemma lor_shiftl_add h l : 0 <= l < 2 ^ 8 -> Z.lor (Z.shiftl h 8) l = l + 256 * h.
Proof.
  intros Hl. assert (E : Z.land (Z.shiftl h 8) l = 0).
  { apply Z.bits_inj'. intros n Hn. rewrite Z.land_spec, Z.testbit_0_l. destruct (Z.lt_ge_cases n 8).
    - rewrite Z.shiftl_spec_low by lia. done.
    - rewrite (testbit_high l 8 n) by lia. apply andb_false_r. }
  rewrite <- Z.lxor_lor, <- Z.add_nocarry_lxor, Z.shiftl_mul_pow2 by (done || lia). lia.
Qed.

Lemma be16_pair h l : is_u8 h -> is_u8 l -> cpu_to_be16 (256 * h + l) = h + 256 * l.
Proof.
  unfold is_u8. intros Hh Hl. unfold cpu_to_be16. rewrite lor_shiftl_add by (apply bits_range; lia).
  unfold bits. rewrite Z.shiftr_0_r, !Z.land_ones, Z.shiftr_div_pow2 by lia.
  replace (256 * h + l) with (l + h * 2 ^ 8) by lia. rewrite Z.div_add, Z.mod_add by lia.
  rewrite (Z.mod_small l), (Z.div_small l), Z.add_0_l, (Z.mod_small h) by lia. done.
Qed.

Lemma raw_bytes_pair h l : is_u8 h -> is_u8 l -> raw_bytes16 (h + 256 * l) = [h; l].
Proof.
  unfold is_u8. intros Hh Hl. unfold raw_bytes16, bits. rewrite Z.shiftr_0_r, !Z.land_ones, Z.shiftr_div_pow2 by lia.
  replace (h + 256 * l) with (h + l * 2 ^ 8) by lia. rewrite Z.div_add, Z.mod_add by lia.
  rewrite (Z.mod_small h), (Z.div_small h), Z.add_0_l, (Z.mod_small l) by lia. done.
Qed.

(** The two bytes of a field, and the field. *)
Lemma raw16_slice b i x : wf_bytes b -> raw16 b i = Some x -> is_u16 x /\ slice b i 2 = raw_bytes16 x.
Proof.
  intros Hb. unfold raw16. cbn [ldn]. intros H.
  destruct (ld8 b i) as [h|] eqn:Eh; [|done]. cbn in H. destruct (ld8 b (i + 1)) as [l|] eqn:El; [|done]. cbn in H.
  injection H as <-. pose proof (ld8_u8 _ _ _ Hb Eh) as Hh. pose proof (ld8_u8 _ _ _ Hb El) as Hl.
  pose proof (ld8_bound _ _ _ Eh) as B1. 
  match goal with |- context [cpu_to_be16 ?z] => replace z with (256 * h + l) by lia end.
  rewrite be16_pair by done. split; [unfold is_u16, is_u8 in *; lia|]. rewrite raw_bytes_pair by done.
  unfold slice. change (Z.to_nat 2) with 2%nat. unfold ld8 in Eh, El.
  destruct (Z.leb_spec 0 i); [|lia]. destruct (Z.leb_spec 0 (i + 1)); [|lia].
  replace (Z.to_nat (i + 1)) with (S (Z.to_nat i)) in El by lia.
  rewrite (drop_S _ _ _ Eh), (drop_S _ _ _ El). done.
Qed.

(** ** Geometry *)

(** The pointers of a packet are in order. *)
Record geom (p : xpkt) : Prop := Geom {
  g_net : xnet p = xdata p;
  g_data : 0 <= xdata p;
  g_trans : xdata p <= xtrans p;
  g_payload : xtrans p <= xpayload p;
  g_end : xpayload p <= blen (x_bytes p);
  g_len : blen (x_bytes p) + frags_len (x_frags p) < 2 ^ 31
}.

Lemma u32_small x : 0 <= x < 2 ^ 32 -> u32 x = x.
Proof. intros H. apply Z.mod_small. exact H. Qed.

Lemma u16_small x : 0 <= x < 2 ^ 16 -> u16 x = x.
Proof. intros H. apply Z.mod_small. exact H. Qed.

Lemma s32_small x : 0 <= x < 2 ^ 31 -> s32 x = x.
Proof. intros H. unfold s32. rewrite u32_small by lia. destruct (Z.ltb_spec x (2 ^ 31)); lia. Qed.

Section Geom.
Context (p : xpkt) (G : geom p).

Ltac geom := destruct G; pose proof (blen_nonneg (concat (x_frags p))); unfold frags_len in *.

Lemma hdrs_len_eq : pkt_hdrs_len p = xpayload p - xnet p.
Proof. geom. apply u32_small. lia. Qed.

Lemma l4hdr_len_eq : pkt_l4hdr_len p = xpayload p - xtrans p.
Proof. geom. apply u32_small. lia. Qed.

Lemma l3hdr_len_eq : pkt_l3hdr_len p = xtrans p - xnet p.
Proof. geom. apply u32_small. lia. Qed.

Lemma payload_len_eq : pkt_payload_len_frag p = blen (x_bytes p) - xpayload p.
Proof.
  unfold pkt_payload_len_frag, skb_len, skb_pagelen, pkt_is_fragment. rewrite hdrs_len_eq. geom.
  destruct (x_frags p); cbn [negb]; [unfold frags_len|]; rewrite u32_small; cbn [concat] in *; change (blen []) with 0 in *; lia.
Qed.

Lemma l3payload_len_eq : pkt_l3payload_len p = blen (x_bytes p) - xtrans p.
Proof. unfold pkt_l3payload_len. rewrite l4hdr_len_eq, payload_len_eq. geom. rewrite u32_small; lia. Qed.

Lemma payload_offset_eq : pkt_payload_offset p = xpayload p - xdata p.
Proof. unfold pkt_payload_offset. lia. Qed.

Lemma datagram_len_eq : x_frags p = [] -> pkt_datagram_len p = blen (x_bytes p) - xtrans p.
Proof.
  intros E. unfold pkt_datagram_len, skb_len, skb_pagelen. rewrite l3hdr_len_eq, E. geom. unfold frags_len. cbn [concat].
  change (blen []) with 0. rewrite u32_small; lia.
Qed.

(** A part of the packet that is in its linear area. *)
Lemma skb_all_slice off len : 0 <= off -> 0 <= len -> xdata p + off + len <= blen (x_bytes p) ->
  slice (skb_all p) off len = slice (x_bytes p) (xdata p + off) len.
Proof.
  intros H0 Hl H. geom. unfold slice, skb_all, blen in *.
  rewrite drop_app_le by (rewrite length_drop; lia). rewrite drop_drop, take_app_le by (rewrite length_drop; lia).
  do 2 f_equal. lia.
Qed.

End Geom.

(** ** Running *)

(** The state with another packet being written. *)
Definition wro (o : xpkt) (s : xstate) : xstate := XState (x_in s) o (x_events s) (x_allocs s) (x_randoms s).

Lemma x_in_wro o s : x_in (wro o s) = x_in s.
Proof. done. Qed.

Lemma x_out_wro o s : x_out (wro o s) = o.
Proof. done. Qed.

Lemma ptrs_with_bytes b o : x_ptrs (with_bytes b o) = x_ptrs o.
Proof. done. Qed.

Lemma gets_bind {A B} (f : xstate -> A) (k : A -> M xstate B) s : (gets f ≫= k) s = k (f s) s.
Proof. done. Qed.

Lemma bind_assoc {A B C} (m : M xstate A) (f : A -> M xstate B) (k : B -> M xstate C) s :
  ((m ≫= f) ≫= k) s = (m ≫= fun a => f a ≫= k) s.
Proof. unfold mbind, M_bind. destruct (m s) as [[a s1]|]; done. Qed.

Lemma bind_ret_r {A} (m : M xstate A) s : (m ≫= mret) s = m s.
Proof. unfold mbind, M_bind. destruct (m s) as [[a s1]|]; done. Qed.

Lemma ret_bind {A B} (a : A) (k : A -> M xstate B) s : (mret a ≫= k) s = k a s.
Proof. done. Qed.

Lemma ld_in_bind {A B} (f : bytes -> option A) a (k : A -> M xstate B) s :
  f (x_bytes (x_in s)) = Some a -> (ld_in f ≫= k) s = k a s.
Proof. intros H. unfold mbind, M_bind, ld_in. rewrite H. done. Qed.

Lemma ld_out_bind {A B} (f : bytes -> option A) a (k : A -> M xstate B) s :
  f (x_bytes (x_out s)) = Some a -> (ld_out f ≫= k) s = k a s.
Proof. intros H. unfold mbind, M_bind, ld_out. rewrite H. done. Qed.

Lemma load_bind' {A B} (o : option A) a (k : A -> M xstate B) s : o = Some a -> (load o ≫= k) s = k a s.
Proof. intros ->. done. Qed.

Lemma st_out_run o s off l : 0 <= off -> off + blen l <= blen (x_bytes o) ->
  st_out off l (wro o s) = Some (tt, wro (with_bytes (splice (x_bytes o) off l) o) s).
Proof.
  intros H0 H. unfold st_out. cbn [wro x_out x_in x_events x_allocs x_randoms].
  destruct (Z.leb_spec 0 off), (Z.leb_spec (off + blen l) (blen (x_bytes o))); try lia. done.
Qed.

(** A store in the middle part of the buffer. *)
Lemma st_mid_bind {B} o s off a c b i l (k : unit -> M xstate B) :
  off = blen a + i -> 0 <= i -> i + blen l <= blen c ->
  (st_out off l ≫= k) (wro (with_bytes (a ++ c ++ b) o) s) = k tt (wro (with_bytes (a ++ splice c i l ++ b) o) s).
Proof.
  intros -> H0 H. pose proof (blen_nonneg a). pose proof (blen_nonneg b).
  rewrite (bind_run _ _ _ _ _ (st_out_run (with_bytes (a ++ c ++ b) o) s (blen a + i) l ltac:(lia) ltac:(cbn [with_bytes x_bytes];
    rewrite !blen_app; lia))). cbn [with_bytes x_bytes]. rewrite splice_mid by lia. done.
Qed.

(** Loads from the parts of a buffer. *)
Lemma ld8_app_l a b i : i < blen a -> ld8 (a ++ b) i = ld8 a i.
Proof. intros H. unfold ld8. destruct (Z.leb_spec 0 i); [|done]. apply lookup_app_l. unfold blen in H. lia. Qed.

Lemma ld8_app_r a b i : 0 <= i -> ld8 (a ++ b) (blen a + i) = ld8 b i.
Proof.
  intros H. pose proof (blen_nonneg a). unfold ld8. destruct (Z.leb_spec 0 (blen a + i)), (Z.leb_spec 0 i); try lia.
  rewrite lookup_app_r by (unfold blen; lia). f_equal. unfold blen. lia.
Qed.

Lemma ldb_mid a c b i len : 0 <= i -> 0 <= len -> i + len <= blen c -> ldb (a ++ c ++ b) (blen a + i) len = Some (slice c i len).
Proof.
  intros H0 H1 H2. pose proof (blen_nonneg a). pose proof (blen_nonneg b). rewrite ldb_some by (rewrite ?blen_app; lia).
  f_equal. unfold slice, blen in *. rewrite drop_app_ge by lia.
  replace (Z.to_nat (Z.of_nat (length a) + i) - length a)%nat with (Z.to_nat i) by lia.
  rewrite drop_app_le, take_app_le by (rewrite ?length_drop; lia). done.
Qed.

(** The payload is copied whole. *)
Lemma copy_payload_run o s x j :
  geom (x_in s) -> geom o -> x_bytes o = x ++ j -> xpayload o = blen x ->
  blen j <= blen (x_bytes (x_in s)) - xpayload (x_in s) ->
  copy_payload (wro o s) =
    Some (Ok tt, wro (with_bytes (x ++ slice (x_bytes (x_in s)) (xpayload (x_in s)) (blen j)) o) s).
Proof.
  intros Gp Go Eo Epay Hj. pose proof (blen_nonneg j) as Hj0. pose proof (blen_nonneg x) as Hx0.
  unfold copy_payload. rewrite !gets_bind. change (x_in (wro o s)) with (x_in s). change (x_out (wro o s)) with o.
  rewrite payload_offset_eq, payload_len_eq, Eo, blen_app, Epay by done.
  replace (blen x + blen j - blen x) with (blen j) by lia. set (p := x_in s) in *.
  unfold skb_copy_bits. cbn [wro x_in]. fold p. pose proof Gp as [? ? ? ? ? ?]. pose proof Go as [? ? ? ? Hend Hlen].
  rewrite Eo, blen_app in Hend, Hlen. pose proof (blen_nonneg (concat (x_frags o))). pose proof (blen_nonneg (concat (x_frags p))).
  unfold frags_len in *. rewrite s32_small by lia. unfold skb_len, skb_pagelen, frags_len.
  destruct (Z.ltb_spec (blen (x_bytes p) - xdata p + blen (concat (x_frags p)) - blen j) (xpayload p - xdata p)); [lia|].
  destruct (Z.ltb_spec (xpayload p - xdata p) 0); [lia|]. destruct (Z.ltb_spec (blen j) 0); [lia|]. cbn [orb].
  rewrite skb_all_slice by (done || lia). replace (xdata p + (xpayload p - xdata p)) with (xpayload p) by lia.
  set (l := slice (x_bytes p) (xpayload p) (blen j)). assert (El : length l = length j).
  { subst l. rewrite slice_length by lia. unfold blen. lia. }
  rewrite (bind_run _ _ _ _ _ (st_out_run o s (blen x) l Hx0 ltac:(rewrite Eo, blen_app; unfold blen in *; lia))).
  rewrite Eo. rewrite <- (app_nil_r (x ++ j)), <- (assoc_L (++)).
  replace (blen x) with (blen x + 0) by lia. rewrite splice_mid by (unfold blen in *; lia).
  rewrite splice_all, app_nil_r by done. done.
Qed.

Lemma st_tail_bind {B} o s off a c i l (k : unit -> M xstate B) :
  off = blen a + i -> 0 <= i -> i + blen l <= blen c ->
  (st_out off l ≫= k) (wro (with_bytes (a ++ c) o) s) = k tt (wro (with_bytes (a ++ splice c i l) o) s).
Proof.
  intros Ho H0 H. rewrite <- (app_nil_r c) at 1. rewrite (st_mid_bind o s off a c [] i l k Ho H0 H), app_nil_r. done.
Qed.

Lemma ldb_tail a c i len : 0 <= i -> 0 <= len -> i + len <= blen c -> ldb (a ++ c) (blen a + i) len = Some (slice c i len).
Proof. intros H0 H1 H2. rewrite <- (app_nil_r c) at 1. apply ldb_mid; done. Qed.

Lemma ldb_head a c i len : 0 <= i -> 0 <= len -> i + len <= blen a -> ldb (a ++ c) i len = Some (slice a i len).
Proof. intros H0 H1 H2. exact (ldb_mid [] a c i len H0 H1 H2). Qed.

(** The addresses of a header that is before what is being written. *)
Lemma addrs4_head a c net : 0 <= net -> net + 20 <= blen a -> addrs4 (a ++ c) net = Some (slice a (net + 12) 4, slice a (net + 16) 4).
Proof. intros H0 H. unfold addrs4. rewrite !ldb_head by lia. done. Qed.

Lemma addrs6_head a c net : 0 <= net -> net + 40 <= blen a -> addrs6 (a ++ c) net = Some (slice a (net + 8) 16, slice a (net + 24) 16).
Proof. intros H0 H. unfold addrs6. rewrite !ldb_head by lia. done. Qed.

Lemma addrs6_some b net : 0 <= net -> net + 40 <= blen b -> addrs6 b net = Some (slice b (net + 8) 16, slice b (net + 24) 16).
Proof. intros H0 H. unfold addrs6. rewrite !ldb_some by lia. done. Qed.

Lemma addrs4_some b net : 0 <= net -> net + 20 <= blen b -> addrs4 b net = Some (slice b (net + 12) 4, slice b (net + 16) 4).
Proof. intros H0 H. unfold addrs4. rewrite !ldb_some by lia. done. Qed.

(** ** Transport headers *)

(** [y] with the ports in its first four bytes. *)
Definition set_ports (src dst : Z) (y : bytes) : bytes := splice (splice y 0 (be_bytes 2 src)) 2 (be_bytes 2 dst).

Lemma set_ports_length src dst y : 4 <= blen y -> length (set_ports src dst y) = length y.
Proof.
  intros H. unfold set_ports. change (Z.of_nat 2) with 2.
  assert (E : blen (splice y 0 (be_bytes 2 src)) = blen y) by (apply blen_splice; change (blen (be_bytes 2 src)) with 2; lia).
  rewrite !splice_length; change (blen (be_bytes 2 src)) with 2; change (blen (be_bytes 2 dst)) with 2; lia.
Qed.

(** What is left of a transport segment [y] whose header has [h] bytes, given
    the header with its ports and how to compute the checksum at [check]. *)
Definition xlat_segment (h check : Z) (src dst : Z) (csum : bytes -> Z) (y j : bytes) : bytes :=
  let z := set_ports src dst (splice j 0 (slice y 0 h)) in
  slice (splice z check (raw_bytes16 (csum z))) 0 h ++ drop (Z.to_nat h) y.

Lemma slice_0 b n : slice b 0 n = take (Z.to_nat n) b.
Proof. done. Qed.

(** Once the header is there, the rest of the segment [y] is copied. *)
Lemma copy_rest o s a z p y h :
  p = x_in s -> y = drop (Z.to_nat (xtrans p)) (x_bytes p) -> h = xpayload p - xtrans p -> geom p -> geom o ->
  x_bytes o = a ++ z -> xpayload o = blen a + h -> blen z = blen y ->
  (r ← copy_payload; mret (match r with Ok _ => VERDICT_CONTINUE | Err _ => VERDICT_DROP end)) (wro o s) =
  Some (VERDICT_CONTINUE, wro (with_bytes (a ++ slice z 0 h ++ drop (Z.to_nat h) y) o) s).
Proof.
  intros -> Ey Eh Gp Go Eo Epay Ez. set (p := x_in s) in *. pose proof Gp as [? ? ? ? ? ?].
  assert (Hy : blen y = blen (x_bytes p) - xtrans p) by (subst y; unfold blen in *; rewrite length_drop; lia).
  assert (Hl : blen (drop (Z.to_nat h) z) = blen z - h) by (unfold blen in *; rewrite length_drop; lia).
  erewrite bind_run.
  2: { apply (copy_payload_run o s (a ++ slice z 0 h) (drop (Z.to_nat h) z)); [exact Gp|exact Go| | |fold p; lia].
    - rewrite slice_0, <- (assoc_L (++)), take_drop. exact Eo.
    - rewrite blen_app. unfold blen at 2. rewrite slice_length by lia. lia. }
  assert (Eb : (a ++ slice z 0 h) ++ slice (x_bytes p) (xpayload p) (blen (drop (Z.to_nat h) z)) =
    a ++ slice z 0 h ++ drop (Z.to_nat h) y).
  { assert (Hnl : (length (x_bytes p) - Z.to_nat (xpayload p) <= Z.to_nat (blen (drop (Z.to_nat h) z)))%nat)
      by (rewrite Hl; unfold blen in *; lia).
    rewrite <- (assoc_L (++)). do 2 f_equal. rewrite Ey. unfold slice at 1. rewrite drop_drop.
    replace (Z.to_nat (xtrans p) + Z.to_nat h)%nat with (Z.to_nat (xpayload p)) by lia.
    apply take_ge. rewrite length_drop. exact Hnl. }
  change (x_in s) with p. rewrite Eb. done.
Qed.

(** Changing what is written after [a] leaves the packet in order. *)
Lemma geom_tail o a j z sm cs : geom o -> x_bytes o = a ++ j -> blen z = blen j ->
  geom (with_summed sm cs (with_bytes (a ++ z) o)).
Proof.
  intros [? ? ? ? Hend Hlen] Eo Ez. rewrite Eo, blen_app in Hend, Hlen.
  split; cbn [with_summed with_bytes x_ptrs x_bytes x_frags]; rewrite ?blen_app; lia.
Qed.

Section L4.
Context {K : KernelCsum} {T : SiitTables} (e : xenv).

(** The updated checksum of a segment [y], whose header will be [z]. *)
Definition csum64 (size check : Z) (mangle : Z -> Z) (p : xpkt) (cksum : Z) (a6 a4 : addrs) (y z : bytes) : Z :=
  if bool_decide (x_summed p = CHECKSUM_PARTIAL) then update_csum_6to4_partial cksum a6 a4
  else mangle (update_csum_6to4 cksum a6 (splice (slice y 0 size) check [0; 0]) a4 (slice (splice z check [0; 0]) 0 size)).

Lemma ttp64_l4_run size check mangle src dst pr o s a j a4 a6 cksum p b y h :
  xlat_is_siit e = false -> p = x_in s -> b = x_bytes p -> y = drop (Z.to_nat (xtrans p)) b -> h = xpayload p - xtrans p ->
  geom p -> geom o -> x_bytes o = a ++ j ->
  xtrans o = blen a -> xpayload o = blen a + h -> blen j = blen y -> 4 <= check -> check + 2 <= size -> size <= blen y ->
  addrs6 b (xnet p) = Some a6 -> 0 <= xnet o -> xnet o + 20 <= blen a -> addrs4 a (xnet o) = Some a4 ->
  raw16 b (xtrans p + check) = Some cksum ->
  exists sm cs,
  ttp64_l4 e size check mangle (Some (Tuple4 src dst pr)) (wro o s) =
    Some (VERDICT_CONTINUE, wro (with_summed sm cs (with_bytes
      (a ++ xlat_segment h check (l4_4 src) (l4_4 dst) (csum64 size check mangle p cksum a6 a4 y) y j) o)) s).
Proof.
  intros Hnat -> -> Ey Eh Gp Go Eo Et Epay Ej Hc1 Hc2 Hsz Ha6 Hn0 Hn Ha4 Hck.
  pose proof Gp as [? ? ? ? ? ?]. pose proof Go as [? ? ? ? Hend Hlen]. rewrite Eo, blen_app in Hend, Hlen.
  set (p := x_in s) in *. pose proof (blen_nonneg (concat (x_frags p))). unfold frags_len in *.
  assert (Hy : blen y = blen (x_bytes p) - xtrans p).
  { subst y. unfold blen in *. rewrite length_drop. lia. }
  assert (Hh : 0 <= h <= blen y) by lia.
  assert (Eslice : slice (x_bytes p) (xtrans p) h = slice y 0 h) by (subst y; done).
  assert (Esz : slice (x_bytes p) (xtrans p) size = slice y 0 size) by (subst y; done).
  unfold ttp64_l4. rewrite !gets_bind. change (x_in (wro o s)) with p. change (x_out (wro o s)) with o.
  erewrite ld_in_bind; [|change (x_in (wro o s)) with p; rewrite l4hdr_len_eq by done; apply ldb_some; lia].
  replace (wro o s) with (wro (with_bytes (a ++ j) o) s) by (rewrite <- Eo; destruct o; done).
  rewrite <- Eh, Eslice.
  assert (Hhl : blen (slice y 0 h) = h) by (unfold blen; rewrite slice_length by lia; lia).
  rewrite (st_tail_bind _ _ _ _ _ 0) by lia.
  set (j1 := splice j 0 (slice y 0 h)). assert (L1 : blen j1 = blen y) by (subst j1; rewrite blen_splice; lia).
  unfold st_ports4. rewrite Hnat, bind_assoc. rewrite (st_tail_bind _ _ _ _ _ 0) by (change (blen (be_bytes 2 (l4_4 src))) with 2; lia).
  set (j2 := splice j1 0 (be_bytes 2 (l4_4 src))). assert (L2 : blen j2 = blen y) by (subst j2; rewrite blen_splice; change (blen (be_bytes 2 (l4_4 src))) with 2; lia).
  rewrite (st_tail_bind _ _ _ _ _ 2) by (change (blen (be_bytes 2 (l4_4 dst))) with 2; lia).
  change (splice j2 2 (be_bytes 2 (l4_4 dst))) with (set_ports (l4_4 src) (l4_4 dst) j1). set (z := set_ports (l4_4 src) (l4_4 dst) j1).
  assert (Lz : blen z = blen y) by (subst z; unfold blen at 1; rewrite set_ports_length; unfold blen in *; lia).
  erewrite ld_in_bind by exact Hck. erewrite ld_in_bind by exact Ha6.
  assert (Ha4' : forall c, addrs4 (a ++ c) (xnet o) = Some a4).
  { intros c. rewrite addrs4_head by lia. rewrite addrs4_some in Ha4 by lia. exact Ha4. }
  erewrite ld_out_bind by apply Ha4'.
  assert (Hfin : forall c sm cs, exists sm' cs', (r ← copy_payload; mret (match r with Ok _ => VERDICT_CONTINUE | Err _ => VERDICT_DROP end))
      (wro (with_summed sm cs (with_bytes (a ++ splice z check (raw_bytes16 c)) o)) s) =
    Some (VERDICT_CONTINUE, wro (with_summed sm' cs' (with_bytes (a ++ slice (splice z check (raw_bytes16 c)) 0 h ++ drop (Z.to_nat h) y) o)) s)).
  { intros c sm cs. exists sm, cs.
    assert (L3 : blen (splice z check (raw_bytes16 c)) = blen y) by (rewrite blen_splice; change (blen (raw_bytes16 c)) with 2; lia).
    rewrite (copy_rest _ s a (splice z check (raw_bytes16 c)) p y h); try done.
    apply (geom_tail o a j); [done..|lia]. }
  unfold xlat_segment. fold j1 z. unfold csum64.
  destruct (decide (x_summed p = CHECKSUM_PARTIAL)) as [Esum|Esum].
  - rewrite !bool_decide_eq_true_2 by done. cbn [negb]. rewrite bind_assoc.
    rewrite (st_tail_bind _ _ _ _ _ check) by (change (blen (raw_bytes16 (update_csum_6to4_partial cksum a6 a4))) with 2; lia).
    apply Hfin.
  - rewrite !bool_decide_eq_false_2 by done. cbn [negb]. rewrite bind_assoc.
    erewrite ld_in_bind by (apply ldb_some; cbn [wro x_in]; fold p; lia). rewrite bind_assoc.
    rewrite (st_tail_bind _ _ _ _ _ check) by (change (blen [0; 0]) with 2; lia).
    set (z0 := splice z check [0; 0]). assert (L0 : blen z0 = blen y) by (subst z0; rewrite blen_splice; change (blen [0; 0]) with 2; lia).
    rewrite bind_assoc. erewrite ld_out_bind by (cbn [wro x_out with_bytes x_bytes]; rewrite Et; replace (blen a) with (blen a + 0) by lia; apply ldb_tail; lia).
    change (x_bytes (x_in (wro (with_bytes (a ++ z) o) s))) with (x_bytes p).
    rewrite bind_assoc, Esz.
    match goal with |- context [raw_bytes16 (mangle ?c)] => set (ck := mangle c) end.
    rewrite (st_tail_bind _ _ _ _ _ check) by (change (blen (raw_bytes16 ck)) with 2; lia).
    replace (splice z0 check (raw_bytes16 ck)) with (splice z check (raw_bytes16 ck)).
    { apply Hfin. }
    subst z0. symmetry. apply splice_splice; [done|lia|change (blen [0; 0]) with 2; lia].
Qed.

Definition csum46 (size check : Z) (p : xpkt) (cksum : Z) (a4 a6 : addrs) (y z : bytes) : Z :=
  if bool_decide (x_summed p = CHECKSUM_PARTIAL) then update_csum_4to6_partial cksum a4 a6
  else update_csum_4to6 cksum a4 (splice (slice y 0 size) check [0; 0]) a6 (slice (splice z check [0; 0]) 0 size).

Lemma with_bytes_id o b : x_bytes o = b -> with_bytes b o = o.
Proof. intros <-. destruct o. done. Qed.

Lemma st_hdr46_run src dst pr o s a j p y h :
  xlat_is_siit e = false -> p = x_in s -> y = drop (Z.to_nat (xtrans p)) (x_bytes p) -> h = xpayload p - xtrans p ->
  geom p -> x_bytes o = a ++ j -> xtrans o = blen a -> blen j = blen y -> 4 <= blen y ->
  st_hdr46 e (Some (Tuple6 src dst pr)) (wro o s) =
    Some (tt, wro (with_bytes (a ++ set_ports (l4_6 src) (l4_6 dst) (splice j 0 (slice y 0 h))) o) s).
Proof.
  intros Hnat -> Ey Eh Gp Eo Et Ej H4. pose proof Gp as [? ? ? ? ? ?]. set (p := x_in s) in *.
  assert (Hy : blen y = blen (x_bytes p) - xtrans p) by (subst y; unfold blen in *; rewrite length_drop; lia).
  assert (Eslice : slice (x_bytes p) (xtrans p) h = slice y 0 h) by (subst y; done).
  assert (Hhl : blen (slice y 0 h) = h) by (unfold blen; rewrite slice_length by lia; lia).
  unfold st_hdr46. rewrite !gets_bind. change (x_in (wro o s)) with p. change (x_out (wro o s)) with o.
  erewrite ld_in_bind; [|change (x_in (wro o s)) with p; rewrite l4hdr_len_eq by done; apply ldb_some; lia].
  replace (wro o s) with (wro (with_bytes (a ++ j) o) s) by (rewrite (with_bytes_id o (a ++ j) Eo); done). rewrite <- Eh, Eslice, (st_tail_bind _ _ _ _ _ 0) by lia.
  set (j1 := splice j 0 (slice y 0 h)). assert (L1 : blen j1 = blen y) by (subst j1; rewrite blen_splice; lia).
  unfold st_ports6. rewrite Hnat. rewrite (st_tail_bind _ _ _ _ _ 0) by (change (blen (be_bytes 2 (l4_6 src))) with 2; lia).
  set (j2 := splice j1 0 (be_bytes 2 (l4_6 src))).
  assert (L2 : blen j2 = blen y) by (subst j2; rewrite blen_splice; change (blen (be_bytes 2 (l4_6 src))) with 2; lia).
  pose proof (blen_nonneg a).
  rewrite st_out_run by (cbn [with_bytes x_bytes]; rewrite ?blen_app; change (blen (be_bytes 2 (l4_6 dst))) with 2; lia).
  cbn [with_bytes x_bytes]. rewrite Et. rewrite <- (app_nil_r (a ++ j2)), <- (assoc_L (++)), splice_mid, app_nil_r
    by (change (blen (be_bytes 2 (l4_6 dst))) with 2; lia). done.
Qed.

Lemma st_csum46_run size check o s a z p y cksum a4 a6 :
  p = x_in s -> y = drop (Z.to_nat (xtrans p)) (x_bytes p) -> geom p -> x_bytes o = a ++ z -> xtrans o = blen a ->
  blen z = blen y -> 0 <= check -> check + 2 <= size -> size <= blen y ->
  addrs4 (x_bytes p) (xnet p) = Some a4 -> 0 <= xnet o -> xnet o + 40 <= blen a -> addrs6 a (xnet o) = Some a6 ->
  raw16 (x_bytes p) (xtrans p + check) = Some cksum ->
  exists sm cs, st_csum46 size check (wro o s) =
    Some (tt, wro (with_summed sm cs (with_bytes (a ++ splice z check (raw_bytes16 (csum46 size check p cksum a4 a6 y z))) o)) s).
Proof.
  intros -> Ey Gp Eo Et Ez Hc1 Hc2 Hsz Ha4 Hn0 Hn Ha6 Hck. pose proof Gp as [? ? ? ? ? ?]. set (p := x_in s) in *.
  assert (Hy : blen y = blen (x_bytes p) - xtrans p) by (subst y; unfold blen in *; rewrite length_drop; lia).
  assert (Esz : slice (x_bytes p) (xtrans p) size = slice y 0 size) by (subst y; done). pose proof (blen_nonneg a).
  assert (Ha6' : forall c, addrs6 (a ++ c) (xnet o) = Some a6).
  { intros c. rewrite addrs6_head by lia. rewrite addrs6_some in Ha6 by lia. exact Ha6. }
  unfold st_csum46. rewrite !gets_bind. change (x_in (wro o s)) with p. change (x_out (wro o s)) with o.
  erewrite ld_in_bind by exact Hck. erewrite ld_in_bind by exact Ha4. erewrite ld_out_bind by (cbn [wro x_out]; rewrite Eo; apply Ha6').
  replace (wro o s) with (wro (with_bytes (a ++ z) o) s) by (rewrite (with_bytes_id o (a ++ z) Eo); done). unfold csum46.
  assert (Hst : forall c z', blen z' = blen y -> st_out (xtrans o + check) (raw_bytes16 c) (wro (with_bytes (a ++ z') o) s) =
    Some (tt, wro (with_bytes (a ++ splice z' check (raw_bytes16 c)) o) s)).
  { intros c z' Ez'. rewrite st_out_run by (cbn [with_bytes x_bytes]; rewrite ?blen_app; change (blen (raw_bytes16 c)) with 2; lia).
    cbn [with_bytes x_bytes]. rewrite Et. rewrite <- (app_nil_r (a ++ z')), <- (assoc_L (++)), splice_mid, app_nil_r
      by (change (blen (raw_bytes16 c)) with 2; lia). done. }
  destruct (decide (x_summed p = CHECKSUM_PARTIAL)) as [Esum|Esum].
  - rewrite !bool_decide_eq_true_2 by done. cbn [negb]. rewrite (bind_run _ _ _ _ _ (Hst _ z Ez)).
    eexists _, _. unfold partialize_skb, upd_out, modify. reflexivity.
  - rewrite !bool_decide_eq_false_2 by done. cbn [negb].
    erewrite ld_in_bind by (apply ldb_some; cbn [wro x_in]; fold p; lia).
    rewrite (st_tail_bind _ _ _ _ _ check) by (change (blen [0; 0]) with 2; lia).
    set (z0 := splice z check [0; 0]). assert (L0 : blen z0 = blen y) by (subst z0; rewrite blen_splice; change (blen [0; 0]) with 2; lia).
    erewrite ld_out_bind by (cbn [wro x_out with_bytes x_bytes]; rewrite Et; replace (blen a) with (blen a + 0) by lia; apply ldb_tail; lia).
    change (x_bytes (x_in (wro (with_bytes (a ++ z) o) s))) with (x_bytes p). rewrite Esz, Hst by exact L0.
    match goal with |- context [splice z0 check (raw_bytes16 ?c)] => set (ck := c) end.
    exists (x_summed o), (x_csum o). subst z0. rewrite splice_splice; [destruct o; done|done|lia|change (blen [0; 0]) with 2; lia].
Qed.

Lemma ttp46_tcp_run src dst pr o s a j a4 a6 cksum p y h :
  xlat_is_siit e = false -> p = x_in s -> y = drop (Z.to_nat (xtrans p)) (x_bytes p) -> h = xpayload p - xtrans p ->
  geom p -> geom o -> x_bytes o = a ++ j -> xtrans o = blen a -> xpayload o = blen a + h -> blen j = blen y -> 20 <= blen y ->
  addrs4 (x_bytes p) (xnet p) = Some a4 -> 0 <= xnet o -> xnet o + 40 <= blen a -> addrs6 a (xnet o) = Some a6 ->
  raw16 (x_bytes p) (xtrans p + 16) = Some cksum ->
  exists sm cs, ttp46_tcp e (Some (Tuple6 src dst pr)) (wro o s) =
    Some (VERDICT_CONTINUE, wro (with_summed sm cs (with_bytes
      (a ++ xlat_segment h 16 (l4_6 src) (l4_6 dst) (csum46 20 16 p cksum a4 a6 y) y j) o)) s).
Proof.
  intros Hnat -> Ey Eh Gp Go Eo Et Epay Ej Hsz Ha4 Hn0 Hn Ha6 Hck. set (p := x_in s) in *. pose proof Gp as [? ? ? ? ? ?].
  assert (Hy : blen y = blen (x_bytes p) - xtrans p) by (subst y; unfold blen in *; rewrite length_drop; lia).
  assert (Hhl : blen (slice y 0 h) = h) by (unfold blen; rewrite slice_length by lia; lia).
  unfold ttp46_tcp. rewrite (bind_run _ _ _ _ _ (st_hdr46_run src dst pr o s a j p y h Hnat eq_refl Ey Eh Gp Eo Et Ej ltac:(lia))).
  set (z := set_ports (l4_6 src) (l4_6 dst) (splice j 0 (slice y 0 h))).
  assert (Lz : blen z = blen y).
  { subst z. unfold blen at 1. rewrite set_ports_length; rewrite ?blen_splice, ?splice_length; unfold blen in *; lia. }
  destruct (st_csum46_run 20 16 (with_bytes (a ++ z) o) s a z p y cksum a4 a6) as (sm & cs & Hrun); try done; try lia.
  rewrite (bind_run _ _ _ _ _ Hrun). exists sm, cs. unfold xlat_segment. fold z.
  set (z2 := splice z 16 _). assert (L2 : blen z2 = blen y).
  { subst z2. rewrite blen_splice; change (blen (raw_bytes16 ?c)) with 2; lia. }
  rewrite (copy_rest _ s a z2 p y h); try done. apply (geom_tail o a j z2 sm cs Go Eo). lia.
Qed.

(** The sum of a UDP header and of the payload of a packet that had none. *)
Definition zero_csum (p : xpkt) (a6 : addrs) (z : bytes) : Z :=
  csum_ipv6_magic a6.1 a6.2 (pkt_datagram_len p) IPPROTO_UDP
    (csum_partial (drop (Z.to_nat (xpayload p - xdata p)) (skb_all p)) (csum_partial (slice z 0 8) 0)).

Definition csum46_udp (p : xpkt) (cksum : Z) (a4 a6 : addrs) (y z : bytes) : Z :=
  if cksum =? 0 then zero_csum p a6 z else csum46 8 6 p cksum a4 a6 y z.

Lemma skb_all_length p : geom p -> blen (skb_all p) = skb_len p.
Proof.
  intros [? ? ? ? ? ?]. unfold skb_all, skb_len, skb_pagelen, frags_len. rewrite blen_app. unfold blen in *. rewrite length_drop. lia.
Qed.

Lemma handle_zero_csum_run o s a z p a6 :
  xlat_is_siit e = false -> p = x_in s -> geom p -> x_bytes o = a ++ z -> xtrans o = blen a -> 8 <= blen z ->
  0 <= xnet o -> xnet o + 40 <= blen a -> addrs6 a (xnet o) = Some a6 ->
  handle_zero_csum e (wro o s) = Some (Ok tt, wro (with_bytes (a ++ splice z 6 (raw_bytes16 (zero_csum p a6 z))) o) s).
Proof.
  intros Hnat -> Gp Eo Et Hz Hn0 Hn Ha6. set (p := x_in s) in *. pose proof (blen_nonneg a). pose proof Gp as [? ? ? ? ? ?].
  assert (Ha6' : forall c, addrs6 (a ++ c) (xnet o) = Some a6).
  { intros c. rewrite addrs6_head by lia. rewrite addrs6_some in Ha6 by lia. exact Ha6. }
  unfold handle_zero_csum, can_compute_csum. rewrite Hnat. cbn [negb]. rewrite ret_bind. cbn [negb]. rewrite !gets_bind.
  change (x_in (wro o s)) with p. change (x_out (wro o s)) with o.
  erewrite ld_out_bind by (cbn [wro x_out]; rewrite Eo, Et; replace (blen a) with (blen a + 0) by lia; apply ldb_tail; lia).
  pose proof (skb_all_length p Gp) as Hall. pose proof (blen_nonneg (concat (x_frags p))).
  assert (Hl : pkt_payload_len_pkt p = skb_len p - (xpayload p - xdata p)).
  { unfold pkt_payload_len_pkt. rewrite hdrs_len_eq by done. unfold skb_len, skb_pagelen, frags_len in *. rewrite u32_small; lia. }
  unfold skb_checksum. rewrite bind_assoc. erewrite load_bind'.
  2: { apply ldb_some; rewrite ?payload_offset_eq, ?Hl; unfold skb_len, skb_pagelen, frags_len in *; lia. }
  rewrite ret_bind. erewrite ld_out_bind by (cbn [wro x_out]; rewrite Eo; apply Ha6').
  replace (wro o s) with (wro (with_bytes (a ++ z) o) s) by (rewrite (with_bytes_id o (a ++ z) Eo); done).
  rewrite (st_tail_bind _ _ _ _ _ 6) by (change (blen (raw_bytes16 ?c)) with 2; lia).
  unfold zero_csum. rewrite payload_offset_eq, Hl.
  replace (slice (skb_all p) (xpayload p - xdata p) (skb_len p - (xpayload p - xdata p))) with (drop (Z.to_nat (xpayload p - xdata p)) (skb_all p)); [done|].
  unfold slice. symmetry. apply take_ge. rewrite length_drop. unfold blen in Hall. lia.
Qed.

Lemma ttp46_udp_run src dst pr o s a j a4 a6 cksum p y h :
  xlat_is_siit e = false -> p = x_in s -> y = drop (Z.to_nat (xtrans p)) (x_bytes p) -> h = xpayload p - xtrans p ->
  geom p -> geom o -> x_bytes o = a ++ j -> xtrans o = blen a -> xpayload o = blen a + h -> blen j = blen y -> 8 <= blen y ->
  addrs4 (x_bytes p) (xnet p) = Some a4 -> 0 <= xnet o -> xnet o + 40 <= blen a -> addrs6 a (xnet o) = Some a6 ->
  raw16 (x_bytes p) (xtrans p + 6) = Some cksum ->
  exists sm cs, ttp46_udp e (Some (Tuple6 src dst pr)) (wro o s) =
    Some (VERDICT_CONTINUE, wro (with_summed sm cs (with_bytes
      (a ++ xlat_segment h 6 (l4_6 src) (l4_6 dst) (csum46_udp p cksum a4 a6 y) y j) o)) s).
Proof.
  intros Hnat -> Ey Eh Gp Go Eo Et Epay Ej Hsz Ha4 Hn0 Hn Ha6 Hck. set (p := x_in s) in *. pose proof Gp as [? ? ? ? ? ?].
  assert (Hy : blen y = blen (x_bytes p) - xtrans p) by (subst y; unfold blen in *; rewrite length_drop; lia).
  assert (Hhl : blen (slice y 0 h) = h) by (unfold blen; rewrite slice_length by lia; lia).
  unfold ttp46_udp. rewrite (bind_run _ _ _ _ _ (st_hdr46_run src dst pr o s a j p y h Hnat eq_refl Ey Eh Gp Eo Et Ej ltac:(lia))).
  set (z := set_ports (l4_6 src) (l4_6 dst) (splice j 0 (slice y 0 h))).
  assert (Lz : blen z = blen y).
  { subst z. unfold blen at 1. rewrite set_ports_length; rewrite ?blen_splice, ?splice_length; unfold blen in *; lia. }
  rewrite gets_bind. change (x_in (wro (with_bytes (a ++ z) o) s)) with p. erewrite ld_in_bind by exact Hck.
  assert (Hchk : exists sm cs, (if negb (cksum =? 0) then st_csum46 8 6;; mret (Ok tt) else handle_zero_csum e) (wro (with_bytes (a ++ z) o) s) =
    Some (Ok tt, wro (with_summed sm cs (with_bytes (a ++ splice z 6 (raw_bytes16 (csum46_udp p cksum a4 a6 y z))) o)) s)).
  { unfold csum46_udp. destruct (cksum =? 0); cbn [negb].
    - exists (x_summed o), (x_csum o). rewrite (handle_zero_csum_run _ s a z p a6); try done; lia.
    - destruct (st_csum46_run 8 6 (with_bytes (a ++ z) o) s a z p y cksum a4 a6) as (sm & cs & Hrun); try done; try lia.
      exists sm, cs. rewrite (bind_run _ _ _ _ _ Hrun). done. }
  destruct Hchk as (sm & cs & Hrun). rewrite (bind_run _ _ _ _ _ Hrun). exists sm, cs. unfold xlat_segment. fold z.
  set (z2 := splice z 6 _). assert (L2 : blen z2 = blen y).
  { subst z2. rewrite blen_splice; change (blen (raw_bytes16 ?c)) with 2; lia. }
  rewrite (copy_rest _ s a z2 p y h); try done. apply (geom_tail o a j z2 sm cs Go Eo). lia.
Qed.

End L4.

(** ** Segments *)

(** A transport header of [size] bytes with other ports and checksum, and the
    rest of the segment. *)
Definition new_header (size src dst : Z) (y : bytes) : bytes := set_ports src dst (slice y 0 size).
Definition new_segment (size check src dst ck : Z) (y : bytes) : bytes :=
  splice (new_header size src dst y) check (raw_bytes16 ck) ++ drop (Z.to_nat size) y.

Section Segment.
Context (size check src dst : Z) (y : bytes).
Context (Hc4 : 4 <= check) (Hcs : check + 2 <= size) (Hsz : size <= blen y).

Lemma header_length : blen (new_header size src dst y) = size.
Proof.
  unfold new_header, blen. assert (E : length (slice y 0 size) = Z.to_nat size) by (apply slice_length; lia).
  rewrite set_ports_length; unfold blen; rewrite E; lia.
Qed.

Lemma segment_length ck : blen (new_segment size check src dst ck y) = blen y.
Proof.
  unfold new_segment. rewrite blen_app, blen_splice; rewrite ?header_length; change (blen (raw_bytes16 ck)) with 2; try lia.
  unfold blen. rewrite length_drop. unfold blen in Hsz. lia.
Qed.

Lemma segment_wf ck : wf_bytes y -> wf_bytes (new_segment size check src dst ck y).
Proof.
  intros Hy. apply wf_bytes_app; [|apply wf_drop, Hy]. apply wf_splice; [|apply raw_bytes16_wf].
  unfold new_header, set_ports. repeat apply wf_splice; try apply be_bytes_wf. apply wf_slice, Hy.
Qed.

Lemma slice_ports h j : size <= h -> h <= blen y -> blen j = blen y ->
  slice (set_ports src dst (splice j 0 (slice y 0 h))) 0 size = new_header size src dst y.
Proof.
  intros H1 H2 Hj. assert (Hh : blen (slice y 0 h) = h) by (unfold blen; rewrite slice_length by lia; lia).
  unfold new_header, set_ports. rewrite slice_0.
  assert (E1 : blen (splice j 0 (slice y 0 h)) = blen y) by (rewrite blen_splice; lia).
  assert (E2 : blen (splice (splice j 0 (slice y 0 h)) 0 (be_bytes 2 src)) = blen y)
    by (rewrite blen_splice; change (blen (be_bytes 2 src)) with 2; lia).
  rewrite take_splice by (change (blen (be_bytes 2 dst)) with 2; unfold blen in *; lia). f_equal.
  rewrite take_splice by (change (blen (be_bytes 2 src)) with 2; unfold blen in *; lia). f_equal.
  unfold splice. change (Z.to_nat 0) with 0%nat. rewrite Nat.add_0_l, take_0, app_nil_l.
  rewrite take_app_le by (unfold blen in Hh; lia). unfold slice. rewrite take_take. f_equal. lia.
Qed.

Lemma xlat_segment_eq h csum j : size <= h -> h <= blen y -> blen j = blen y ->
  xlat_segment h check src dst csum y j =
    new_segment size check src dst (csum (set_ports src dst (splice j 0 (slice y 0 h)))) y.
Proof.
  intros H1 H2 Hj. assert (Hh : blen (slice y 0 h) = h) by (unfold blen; rewrite slice_length by lia; lia).
  unfold xlat_segment, new_segment. set (z := set_ports src dst (splice j 0 (slice y 0 h))). set (ck := raw_bytes16 (csum z)).
  assert (Hck : blen ck = 2) by done.
  assert (E1 : blen (splice j 0 (slice y 0 h)) = blen y) by (rewrite blen_splice; lia).
  assert (Ez : blen z = blen y) by (subst z; unfold blen at 1; rewrite set_ports_length; unfold blen in *; lia).
  rewrite <- (take_drop (Z.to_nat size) (slice (splice z check ck) 0 h)), <- (assoc_L (++)). f_equal.
  - rewrite <- (slice_ports h j) by done. fold z. unfold slice at 1. rewrite drop_0, take_take, Nat.min_l by lia.
    rewrite take_splice by (unfold blen in *; lia). done.
  - unfold slice. rewrite drop_0, skipn_firstn_comm, drop_splice by (unfold blen in *; lia).
    assert (Ed : take (Z.to_nat h - Z.to_nat size) (drop (Z.to_nat size) z) = take (Z.to_nat h - Z.to_nat size) (drop (Z.to_nat size) y)).
    { assert (E2 : blen (splice (splice j 0 (slice y 0 h)) 0 (be_bytes 2 src)) = blen y)
        by (rewrite blen_splice; change (blen (be_bytes 2 src)) with 2; lia).
      unfold z, set_ports. rewrite (drop_splice _ 2), (drop_splice _ 0)
        by (change (blen (be_bytes 2 src)) with 2; change (blen (be_bytes 2 dst)) with 2; lia).
      unfold splice. change (Z.to_nat 0) with 0%nat. rewrite Nat.add_0_l, take_0, app_nil_l.
      rewrite drop_app_le by (unfold blen in *; lia). rewrite take_app_le by (rewrite length_drop; unfold blen in *; lia).
      unfold slice. rewrite drop_0, skipn_firstn_comm, take_take, Nat.min_l by lia. done. }
    rewrite Ed. rewrite <- (take_drop (Z.to_nat h - Z.to_nat size) (drop (Z.to_nat size) y)) at 2. rewrite drop_drop. do 2 f_equal. lia.
Qed.

Lemma slice_csum_zero h j : size <= h -> h <= blen y -> blen j = blen y ->
  slice (splice (set_ports src dst (splice j 0 (slice y 0 h))) check [0; 0]) 0 size =
  splice (new_header size src dst y) check [0; 0].
Proof.
  intros H1 H2 Hj. assert (Hh : blen (slice y 0 h) = h) by (unfold blen; rewrite slice_length by lia; lia).
  assert (E1 : blen (splice j 0 (slice y 0 h)) = blen y) by (rewrite blen_splice; lia).
  rewrite slice_0, take_splice; [| lia | change (blen [0; 0]) with 2; lia | rewrite set_ports_length; unfold blen in *; lia ].
  rewrite <- slice_0, slice_ports by done. done.
Qed.

Context (Hes : Nat.Even (Z.to_nat size)) (Hec : Nat.Even (Z.to_nat check)).

Lemma segment_sum ck : is_u16 ck ->
  raw_sum (new_segment size check src dst ck y) =
  raw_sum (splice (new_header size src dst y) check [0; 0]) + ck + raw_sum (drop (Z.to_nat size) y).
Proof.
  intros Hck. unfold new_segment. pose proof header_length as Hl. rewrite raw_sum_app.
  - unfold raw_bytes16 at 1. rewrite raw_sum_splice16 by (done || lia).
    pose proof (raw_bytes16_sum ck Hck) as E. cbn [raw_bytes16 raw_sum] in E. lia.
  - rewrite splice_length by (rewrite ?Hl; change (blen (raw_bytes16 ck)) with 2; lia). unfold blen in Hl.
    replace (length (new_header size src dst y)) with (Z.to_nat size) by lia. done.
Qed.

(** The sum of the original. *)
Lemma original_sum cksum : is_u16 cksum -> slice y check 2 = raw_bytes16 cksum ->
  raw_sum y = raw_sum (splice (slice y 0 size) check [0; 0]) + cksum + raw_sum (drop (Z.to_nat size) y).
Proof.
  intros Hck Es. rewrite (raw_sum_even_split y (Z.to_nat size)) at 1 by (done || (unfold blen in Hsz; lia)). rewrite <- slice_0.
  assert (El : blen (slice y 0 size) = size) by (unfold blen; rewrite slice_length by lia; lia).
  assert (E : slice y 0 size = splice (slice y 0 size) check (raw_bytes16 cksum)).
  { rewrite <- Es. unfold splice. rewrite <- (take_drop (Z.to_nat check) (slice y 0 size)) at 1. f_equal.
    rewrite <- (take_drop 2 (drop (Z.to_nat check) (slice y 0 size))). f_equal.
    - unfold slice. rewrite drop_0. rewrite skipn_firstn_comm, take_take. f_equal. lia.
    - rewrite drop_drop. f_equal. rewrite slice_length by lia. lia. }
  rewrite E at 1. unfold raw_bytes16. rewrite raw_sum_splice16 by (done || lia).
  pose proof (raw_bytes16_sum cksum Hck) as E2. cbn [raw_bytes16 raw_sum] in E2. lia.
Qed.

End Segment.

(** ** The IPv4 header *)

Definition with_rnd (r : list Z) (s : xstate) : xstate := XState (x_in s) (x_out s) (x_events s) (x_allocs s) r.

Lemma set_nibbles x hi lo : is_u8 x -> 0 <= hi < 16 -> 0 <= lo < 16 -> set_bits (set_bits x 4 4 hi) 0 4 lo = 16 * hi + lo.
Proof.
  intros Hx Hhi Hlo. assert (E : 16 * hi + lo = Z.lor (Z.shiftl hi 4) lo).
  { rewrite <- Z.lxor_lor, <- Z.add_nocarry_lxor, Z.shiftl_mul_pow2; try lia;
      apply Z.bits_inj'; intros n Hn; rewrite Z.land_spec, Z.testbit_0_l;
      (destruct (Z.lt_ge_cases n 4); [rewrite Z.shiftl_spec_low by lia; done|rewrite (testbit_high lo 4 n) by lia; apply andb_false_r]). }
  rewrite E. apply (bits_ext 8).
  - apply set_bits_range; try lia. apply set_bits_range; lia || exact Hx.
  - rewrite <- E. lia.
  - intros n Hn. rewrite !testbit_set_bits, Z.lor_spec by lia. destruct (Z.lt_ge_cases n 4).
    + destruct (Z.leb_spec 0 n), (Z.ltb_spec n (0 + 4)); try lia. cbn [andb]. rewrite Z.shiftl_spec_low by lia. rewrite Z.sub_0_r. done.
    + destruct (Z.leb_spec 0 n), (Z.ltb_spec n (0 + 4)), (Z.leb_spec 4 n), (Z.ltb_spec n (4 + 4)); try lia. cbn [andb].
      rewrite Z.shiftl_spec by lia. rewrite (testbit_high lo 4 n) by lia. rewrite orb_false_r. done.
Qed.

Lemma st_cell_bind {B} o s off a c b i l (k : unit -> M xstate B) :
  off = blen a + i -> ((0 <=? i) && (i + blen l <=? blen c)) = true ->
  (st_out off l ≫= k) (wro (with_bytes (a ++ c ++ b) o) s) = k tt (wro (with_bytes (a ++ splice c i l ++ b) o) s).
Proof. intros Ho H. apply andb_prop in H as [H0 H]. apply st_mid_bind; [exact Ho|lia|lia]. Qed.

Lemma st_cell {B} o s off a c b i l (k : unit -> M xstate B) (Q : option (B * xstate) -> Prop) :
  off = blen a + i -> ((0 <=? i) && (i + blen l <=? blen c)) = true ->
  Q (k tt (wro (with_bytes (a ++ splice c i l ++ b) o) s)) -> Q ((st_out off l ≫= k) (wro (with_bytes (a ++ c ++ b) o) s)).
Proof. intros Ho H HQ. rewrite (st_cell_bind o s off a c b i l k Ho H). exact HQ. Qed.

Lemma ld8_cell a c b i : ((0 <=? i) && (i <? blen c)) = true -> ld8 (a ++ c ++ b) (blen a + i) = ld8 c i.
Proof. intros H. apply andb_prop in H as [H0 H]. rewrite ld8_app_r by lia. apply ld8_app_l. lia. Qed.

Lemma ldb_cell a c b i len :
  ((0 <=? i) && (0 <=? len) && (i + len <=? blen c)) = true -> ldb (a ++ c ++ b) (blen a + i) len = Some (slice c i len).
Proof. intros H. apply andb_prop in H as [H H2]. apply andb_prop in H as [H0 H1]. apply ldb_mid; lia. Qed.

Lemma st_nibble_cell {B} o s off lo v a c b i x (k : unit -> M xstate B) :
  off = blen a + i -> ((0 <=? i) && (i + 1 <=? blen c)) = true -> ld8 c i = Some x ->
  (st_nibble off lo v ≫= k) (wro (with_bytes (a ++ c ++ b) o) s) =
    k tt (wro (with_bytes (a ++ splice c i [set_bits x lo 4 v] ++ b) o) s).
Proof.
  intros Ho H Hx. unfold st_nibble. rewrite bind_assoc. erewrite ld_out_bind.
  - apply st_cell_bind; [exact Ho|exact H].
  - cbn [wro x_out with_bytes x_bytes]. subst off. rewrite ld8_cell; [exact Hx|]. apply andb_prop in H as [H0 H].
    apply andb_true_intro. split; [exact H0|]. lia.
Qed.

(** A list of known length, cell by cell. *)
Ltac cells c H := cbn [length] in H; lazymatch type of H with
  | length c = S _ => destruct c as [|? c]; [discriminate H|]; cbn [length] in H; apply Nat.succ_inj in H; cells c H
  | length c = O => apply nil_length_inv in H; subst c
  end.

Section Hdr4.
Context {K : KernelCsum} {T : SiitTables} (e : xenv).

Definition ip4_header (tos tot_len id frag_off ttl proto : Z) (src dst : bytes) : bytes :=
  let hdr check := [0x45; tos] ++ be_bytes 2 tot_len ++ raw_bytes16 id ++ raw_bytes16 frag_off ++ [ttl; proto] ++ check ++ src ++ dst in
  hdr (raw_bytes16 (ip_fast_csum (hdr [0; 0]))).

(** The identification and the fragment field, from the fragment header or
    for a packet that has none. *)
Definition frag_fields (b : bytes) (hdr_frag : option Z) (id : Z) (df : bool) : option (Z * Z) :=
  match hdr_frag with
  | None => Some (id, build_ipv4_frag_off_field df 0 0)
  | Some frag =>
      identification ← ldn 4 b (frag + 4);
      frag_off ← raw16 b (frag + 2);
      Some (generate_ipv4_id_dofrag identification,
            build_ipv4_frag_off_field false (is_more_fragments_set_ipv6 frag_off) (get_fragment_offset_ipv6 frag_off))
  end.

Lemma pkt_len_with_bytes o b : blen b = blen (x_bytes o) -> pkt_len (with_bytes b o) = pkt_len o.
Proof. intros E. unfold pkt_len, pkt_is_fragment, skb_len, skb_pagelen, pkt_hdrs_len. cbn [with_bytes x_bytes x_frags x_ptrs]. rewrite E. done. Qed.

Lemma ipv4_id_run o s :
  exists id rnd, (config_build_ipv4_id e = false \/ 1260 < pkt_len o -> id = 0) /\ is_u16 id /\
    (if config_build_ipv4_id e then generate_ipv4_id_nofrag else mret 0) (wro o s) = Some (id, wro o (with_rnd rnd s)).
Proof.
  assert (Hz : is_u16 0) by done. destruct (config_build_ipv4_id e); [|exists 0, (x_randoms s); split; [done|]; split; [done|]; destruct s; done].
  unfold generate_ipv4_id_nofrag. rewrite gets_bind. cbn [wro x_out].
  destruct (Z.leb_spec (pkt_len o) 1260); [|exists 0, (x_randoms s); split; [done|]; split; [done|]; destruct s; done].
  unfold get_random16. cbn [wro x_randoms]. destruct (x_randoms s) as [|r l] eqn:Er.
  - exists 0, []. split; [done|]. split; [done|]. rewrite <- Er. destruct s; done.
  - exists (u16 r), l. split; [intros [|]; [done|lia]|]. split; [apply u16_range|done].
Qed.

(** The header up to the hop limit. *)
Ltac hdr64_prefix e o s a c d p Hnat Eo Hc Hb0 Hb1 Hpr Htot :=
  unfold ttp64_ipv4; rewrite !gets_bind; change (x_in (wro o s)) with p; change (x_out (wro o s)) with o;
  erewrite ld_in_bind by exact Hb0; erewrite ld_in_bind by exact Hb1;
  replace (wro o s) with (wro (with_bytes (a ++ c ++ d) o) s) by (rewrite (with_bytes_id o _ Eo); done);
  cells c Hc;
  rewrite (st_cell_bind _ _ _ _ _ _ 1) by (lia || reflexivity);
  erewrite ld_in_bind by exact Hpr; rewrite (st_cell_bind _ _ _ _ _ _ 9) by (lia || reflexivity);
  rewrite Hnat; cbn [negb]; rewrite bind_assoc, (st_cell_bind _ _ _ _ _ _ 12) by (lia || reflexivity);
  rewrite bind_assoc, (st_cell_bind _ _ _ _ _ _ 16) by (lia || reflexivity); rewrite ret_bind;
  rewrite bool_decide_eq_true_2 by done; cbn [negb];
  erewrite (st_nibble_cell _ _ _ _ _ _ _ _ 0) by (lia || reflexivity);
  erewrite (st_nibble_cell _ _ _ _ _ _ _ _ 0) by (lia || reflexivity);
  erewrite bind_run by (apply Htot; reflexivity); rewrite (st_cell_bind _ _ _ _ _ _ 2) by (lia || reflexivity).

Lemma ttp64_ipv4_run src dst pr o s a c d p b0 b1 proto hop tot :
  xlat_is_siit e = false -> p = x_in s -> x_frags p = [] -> x_bytes o = a ++ c ++ d -> length c = 20%nat -> wf_bytes c -> xnet o = blen a ->
  ld8 (x_bytes p) (xnet p) = Some b0 -> ld8 (x_bytes p) (xnet p + 1) = Some b1 ->
  ttp64_xlat_proto (x_bytes p) (xnet p) = Some proto -> ld8 (x_bytes p) (xnet p + 7) = Some hop ->
  (forall c', length c' = 20%nat -> build_tot_len (wro (with_bytes (a ++ c' ++ d) o) s) = Some (tot, wro (with_bytes (a ++ c' ++ d) o) s)) ->
  (xinner p = false -> 1 < hop /\ has_nonzero_segments_left (x_bytes p) (xnet p) = Some None) ->
  (forall id df, is_Some (frag_fields (x_bytes p) (x_hdr_frag p) id df)) ->
  exists id0 rnd ff,
    (config_build_ipv4_id e = false \/ 1260 < pkt_len o -> id0 = 0) /\ is_u16 id0 /\
    frag_fields (x_bytes p) (x_hdr_frag p) id0 (config_df_always_on e || generate_df_flag o) = Some ff /\
    ttp64_ipv4 e (Some (Tuple4 src dst pr)) (wro o s) =
      Some (VERDICT_CONTINUE, wro (with_bytes (a ++ ip4_header (xlat_tos (config_reset_tos e) (config_new_tos e)
        (get_traffic_class (bits b0 0 4) b1)) tot ff.1 ff.2 (if xinner p then hop else hop - 1) proto
        (be_bytes 4 (s_addr (l3_4 src))) (be_bytes 4 (s_addr (l3_4 dst))) ++ d) o) (with_rnd rnd s)).
Proof.
  intros Hnat -> Hfr Eo Hc Wc En Hb0 Hb1 Hpr Hhop Htot Hout Hff. set (p := x_in s) in *.
  assert (Hlen : forall c', length c' = 20%nat -> pkt_len (with_bytes (a ++ c' ++ d) o) = pkt_len o).
  { intros c' Hc'. apply pkt_len_with_bytes. rewrite Eo, !blen_app. unfold blen. lia. }
  hdr64_prefix e o s a c d p Hnat Eo Hc Hb0 Hb1 Hpr Htot. clear Eo.
  set (c1 := splice _ 2 _). destruct (ipv4_id_run (with_bytes (a ++ c1 ++ d) o) s) as (id0 & rnd & Hid0 & Hidr & Hid).
  rewrite Hlen in Hid0 by reflexivity. rewrite (bind_run _ _ _ _ _ Hid). clear Hid.
  destruct (Hff id0 (config_df_always_on e || generate_df_flag o)) as [ff Eff].
  exists id0, rnd, ff. split; [exact Hid0|]. split; [exact Hidr|]. split; [exact Eff|].
  set (s1 := with_rnd rnd s). subst c1. rewrite (st_cell_bind _ _ _ _ _ _ 4) by (lia || reflexivity).
  rewrite (st_cell_bind _ _ _ _ _ _ 6) by (lia || reflexivity). erewrite ld_in_bind by exact Hhop.
  assert (Hdrop : pkt_is_outer p && (hop <=? 1) = false).
  { unfold pkt_is_outer. destruct (xinner p); [done|]. cbn [negb andb]. destruct Hout as [H1 _]; [done|]. lia. }
  rewrite Hdrop. rewrite (st_cell_bind _ _ _ _ _ _ 8) by (lia || reflexivity).
  set (c2 := splice _ 8 _).
  assert (Hseg : (if pkt_is_outer p then ld_in (fun b => has_nonzero_segments_left b (xnet p)) else mret None)
    (wro (with_bytes (a ++ c2 ++ d) o) s1) = Some (None, wro (with_bytes (a ++ c2 ++ d) o) s1)).
  { unfold pkt_is_outer. destruct (xinner p); [done|]. cbn [negb]. destruct Hout as [_ H2]; [done|].
    unfold ld_in. change (x_bytes (x_in (wro (with_bytes (a ++ c2 ++ d) o) s1))) with (x_bytes p). rewrite H2. done. }
  rewrite (bind_run _ _ _ _ _ Hseg). clear Hseg. cbn beta iota.
  assert (Hfrag : match x_hdr_frag p with
      | None => mret tt
      | Some frag =>
          identification ← ld_in (fun b => ldn 4 b (frag + 4));
          st_out (xnet o + 4) (raw_bytes16 (generate_ipv4_id_dofrag identification));;
          frag_off ← ld_in (fun b => raw16 b (frag + 2));
          st_out (xnet o + 6) (raw_bytes16 (build_ipv4_frag_off_field false (is_more_fragments_set_ipv6 frag_off)
            (get_fragment_offset_ipv6 frag_off)))
      end (wro (with_bytes (a ++ c2 ++ d) o) s1) =
    Some (tt, wro (with_bytes (a ++ splice (splice c2 4 (raw_bytes16 ff.1)) 6 (raw_bytes16 ff.2) ++ d) o) s1)).
  { unfold frag_fields in Eff. destruct (x_hdr_frag p) as [frag|].
    - destruct (ldn 4 (x_bytes p) (frag + 4)) as [ident|] eqn:Ei; [|done].
      destruct (raw16 (x_bytes p) (frag + 2)) as [fo|] eqn:Ef; [|done]. injection Eff as <-.
      erewrite ld_in_bind by exact Ei. rewrite (st_cell_bind _ _ _ _ _ _ 4) by (lia || reflexivity).
      erewrite ld_in_bind by exact Ef.
      rewrite <- (bind_ret_r (st_out _ _)). rewrite (st_cell_bind _ _ _ _ _ _ 6) by (lia || reflexivity). done.
    - injection Eff as <-. reflexivity. }
  rewrite (bind_run _ _ _ _ _ Hfrag). clear Hfrag. cbn beta.
  rewrite (st_cell_bind _ _ _ _ _ _ 10) by (lia || reflexivity).
  erewrite ld_out_bind; [|cbn [wro x_out with_bytes x_bytes]; rewrite En; replace (blen a) with (blen a + 0) by lia; apply ldb_cell; reflexivity].
  rewrite (st_cell_bind _ _ _ _ _ _ 10) by (lia || reflexivity).
  unfold pkt_is_fragment. rewrite Hfr. rewrite ret_bind. subst c2.
  assert (Wz : is_u8 z) by (inversion Wc; assumption).
  pose proof (set_nibbles z 4 5 Wz ltac:(lia) ltac:(lia)) as En45. change (16 * 4 + 5) with 0x45 in En45.
  unfold mret, M_ret. do 3 f_equal. unfold ip4_header. rewrite <- En45.
  replace (if xinner p then hop else hop - 1) with (if pkt_is_outer p then hop - 1 else hop) by (unfold pkt_is_outer; destruct (xinner p); done).
  reflexivity.
Qed.
Lemma ttp64_ipv4_drop src dst pr o s a c d p b0 b1 proto hop tot :
  xlat_is_siit e = false -> p = x_in s -> x_bytes o = a ++ c ++ d -> length c = 20%nat -> xnet o = blen a ->
  ld8 (x_bytes p) (xnet p) = Some b0 -> ld8 (x_bytes p) (xnet p + 1) = Some b1 ->
  ttp64_xlat_proto (x_bytes p) (xnet p) = Some proto -> ld8 (x_bytes p) (xnet p + 7) = Some hop ->
  (forall c', length c' = 20%nat -> build_tot_len (wro (with_bytes (a ++ c' ++ d) o) s) = Some (tot, wro (with_bytes (a ++ c' ++ d) o) s)) ->
  xinner p = false -> forall error info,
  (hop <= 1 /\ error = ICMPERR_HOP_LIMIT /\ info = 0) \/
  (1 < hop /\ error = ICMPERR_HDR_FIELD /\ has_nonzero_segments_left (x_bytes p) (xnet p) = Some (Some info)) ->
  exists o' rnd, ttp64_ipv4 e (Some (Tuple4 src dst pr)) (wro o s) =
    Some (VERDICT_DROP, XState (x_in s) o' (XStat IPSTATS_MIB_INHDRERRORS :: XIcmp error info :: x_events s) (x_allocs s) rnd).
Proof.
  intros Hnat -> Eo Hc En Hb0 Hb1 Hpr Hhop Htot Hin error info Hcase. set (p := x_in s) in *.
  hdr64_prefix e o s a c d p Hnat Eo Hc Hb0 Hb1 Hpr Htot.
  set (c1 := splice _ 2 _). destruct (ipv4_id_run (with_bytes (a ++ c1 ++ d) o) s) as (id0 & rnd & _ & _ & Hid).
  rewrite (bind_run _ _ _ _ _ Hid). subst c1. rewrite (st_cell_bind _ _ _ _ _ _ 4) by (lia || reflexivity).
  rewrite (st_cell_bind _ _ _ _ _ _ 6) by (lia || reflexivity). erewrite ld_in_bind by exact Hhop.
  unfold pkt_is_outer. rewrite Hin. cbn [negb andb].
  destruct Hcase as [(H1 & -> & ->)|(H1 & -> & Hseg)].
  - destruct (Z.leb_spec hop 1); [|lia]. eexists _, rnd. reflexivity.
  - destruct (Z.leb_spec hop 1); [lia|]. rewrite (st_cell_bind _ _ _ _ _ _ 8) by (lia || reflexivity).
    erewrite ld_in_bind by exact Hseg. eexists _, rnd. reflexivity.
Qed.

End Hdr4.

(** ** The IPv6 header *)

Section Hdr6.
Context {K : KernelCsum} {T : SiitTables} (e : xenv).

Definition ip6_header (tclass payload_len nexthdr hop_limit : Z) (src dst : bytes) : bytes :=
  [16 * 6 + Z.shiftr tclass 4; u8 (Z.shiftl tclass 4); 0; 0] ++ be_bytes 2 payload_len ++ [nexthdr; hop_limit] ++ src ++ dst.

Definition frag_header (nexthdr frag_off id : Z) : bytes := [nexthdr; 0] ++ raw_bytes16 frag_off ++ be_bytes 4 id.

(** The headers of a packet from IPv4: with a fragment header or not. *)
Definition headers46 (tclass payload_len proto hop_limit frag_off id : Z) (src dst : bytes) : bytes :=
  let nexthdr := if proto =? IPPROTO_ICMP then NEXTHDR_ICMP else proto in
  if will_need_frag_hdr e frag_off
  then ip6_header tclass payload_len NEXTHDR_FRAGMENT hop_limit src dst ++
       frag_header nexthdr (build_ipv6_frag_off_field (get_fragment_offset_ipv4 frag_off) (is_more_fragments_set_ipv4 frag_off)) id
  else ip6_header tclass payload_len nexthdr hop_limit src dst.

Definition l3_len46 (frag_off : Z) : nat := if will_need_frag_hdr e frag_off then 48 else 40.

Lemma tos_nibble tos : is_u8 tos -> 0 <= Z.shiftr tos 4 < 16.
Proof.
  unfold is_u8. intros H. rewrite Z.shiftr_div_pow2 by lia. split; [apply Z.div_pos; lia|apply Z.div_lt_upper_bound; lia].
Qed.

(** The header from the destination up to the hop limit. *)
Ltac hdr46_prefix Htos Hpl Hpr Httl :=
  rewrite bind_assoc, (st_cell_bind _ _ _ _ _ _ 24), ret_bind by (lia || reflexivity);
  rewrite bool_decide_eq_true_2 by done; cbn [negb];
  erewrite (st_nibble_cell _ _ _ _ _ _ _ _ 0) by (lia || reflexivity);
  erewrite ld_in_bind by exact Htos;
  erewrite (st_nibble_cell _ _ _ _ _ _ _ _ 0) by (lia || reflexivity);
  rewrite (st_cell_bind _ _ _ _ _ _ 1), (st_cell_bind _ _ _ _ _ _ 2) by (lia || reflexivity);
  erewrite bind_run by (apply Hpl; reflexivity);
  rewrite (st_cell_bind _ _ _ _ _ _ 4) by (lia || reflexivity);
  erewrite ld_in_bind by exact Hpr; rewrite (st_cell_bind _ _ _ _ _ _ 6) by (lia || reflexivity);
  erewrite ld_in_bind by exact Httl.

Lemma ttp46_ipv6_run src dst pr o s a c d p sa tos proto ttl fo id plen :
  xlat_is_siit e = false -> p = x_in s -> x_bytes o = a ++ c ++ d -> length c = l3_len46 fo -> wf_bytes c -> wf_bytes (x_bytes p) ->
  xnet o = blen a ->
  ld8 (x_bytes p) (xnet p + 1) = Some tos -> ld8 (x_bytes p) (xnet p + 9) = Some proto -> ld8 (x_bytes p) (xnet p + 8) = Some ttl ->
  raw16 (x_bytes p) (xnet p + 6) = Some fo -> ldn 2 (x_bytes p) (xnet p + 4) = Some id ->
  (forall c', length c' = l3_len46 fo -> generate_saddr6_nat64 e src (wro (with_bytes (a ++ c' ++ d) o) s) =
     Some (Ok tt, wro (with_bytes (a ++ splice c' 8 (be_bytes 16 (s6_addr sa)) ++ d) o) s)) ->
  (forall c', length c' = l3_len46 fo -> build_payload_len (wro (with_bytes (a ++ c' ++ d) o) s) =
     Some (plen, wro (with_bytes (a ++ c' ++ d) o) s)) ->
  (xinner p = false -> has_unexpired_src_route (x_bytes p) (xnet p) = Some false /\ (x_is_hairpin p = false -> 1 < ttl)) ->
  ttp46_ipv6 e (Some (Tuple6 src dst pr)) (wro o s) =
    Some (VERDICT_CONTINUE, wro (with_bytes (a ++ headers46 (if config_reset_traffic_class e then 0 else tos) plen proto
      (if xinner p || x_is_hairpin p then ttl else ttl - 1) fo id
      (be_bytes 16 (s6_addr sa)) (be_bytes 16 (s6_addr (l3_6 dst))) ++ d) o) s).
Proof.
  intros Hnat -> Eo Hc Wc Wb En Htos Hpr Httl Hfo Hid Hsa Hpl Hout. set (p := x_in s) in *.
  unfold ttp46_ipv6. rewrite !gets_bind. change (x_in (wro o s)) with p. change (x_out (wro o s)) with o.
  replace (wro o s) with (wro (with_bytes (a ++ c ++ d) o) s) by (rewrite (with_bytes_id o _ Eo); done). clear Eo.
  pose proof (ld8_u8 _ _ _ Wb Htos) as Wtos. pose proof (tos_nibble tos Wtos) as Hnib.
  rewrite Hnat. cbn [negb]. rewrite bind_assoc. erewrite bind_run by (apply Hsa; exact Hc). cbn beta iota.
  assert (Hhop : (if pkt_is_outer p && negb (x_is_hairpin p) then ttl - 1 else ttl) = (if xinner p || x_is_hairpin p then ttl else ttl - 1)).
  { unfold pkt_is_outer. destruct (xinner p), (x_is_hairpin p); done. }
  assert (Hnd : pkt_is_outer p && negb (x_is_hairpin p) && (ttl <=? 1) = false).
  { unfold pkt_is_outer. destruct (xinner p); [done|]. destruct (x_is_hairpin p); [done|]. destruct Hout as [_ H]; [done|]. specialize (H eq_refl). cbn. lia. }
  assert (Hsr : forall st, x_in st = p -> (if pkt_is_outer p then ld_in (fun b => has_unexpired_src_route b (xnet p)) else mret false) st = Some (false, st)).
  { intros st Est. unfold pkt_is_outer. destruct (xinner p); [done|]. destruct Hout as [H _]; [done|]. cbn [negb]. unfold ld_in. rewrite Est, H. done. }
  unfold headers46, l3_len46 in *. destruct (will_need_frag_hdr e fo) eqn:Ew.
  all: cells c Hc; assert (Wz : is_u8 z) by (inversion Wc; assumption).
  all: hdr46_prefix Htos Hpl Hpr Httl.
  all: rewrite Hnd, (st_cell_bind _ _ _ _ _ _ 7) by (lia || reflexivity).
  all: rewrite (bind_run _ _ _ _ _ (Hsr (wro _ s) eq_refl)).
  all: erewrite ld_in_bind by exact Hfo; rewrite Ew, Hhop.
  all: pose proof (set_nibbles z 6 (if config_reset_traffic_class e then 0 else Z.shiftr tos 4) Wz ltac:(lia) ltac:(destruct (config_reset_traffic_class e); lia)) as Enib.
  - rewrite bind_assoc, (st_cell_bind _ _ _ _ _ _ 6) by (lia || reflexivity).
    rewrite bind_assoc, (st_cell_bind _ _ _ _ _ _ 40) by (lia || reflexivity).
    rewrite bind_assoc, (st_cell_bind _ _ _ _ _ _ 41) by (lia || reflexivity).
    rewrite bind_assoc, (st_cell_bind _ _ _ _ _ _ 42) by (lia || reflexivity).
    rewrite bind_assoc. erewrite ld_in_bind by exact Hid. rewrite (st_cell_bind _ _ _ _ _ _ 44) by (lia || reflexivity).
    unfold mret, M_ret. do 3 f_equal. unfold ip6_header.
    replace (16 * 6 + Z.shiftr (if config_reset_traffic_class e then 0 else tos) 4) with
      (16 * 6 + (if config_reset_traffic_class e then 0 else Z.shiftr tos 4)) by (destruct (config_reset_traffic_class e); done).
    rewrite <- Enib. destruct (config_reset_traffic_class e); reflexivity.
  - rewrite ret_bind. unfold mret, M_ret. do 3 f_equal. unfold ip6_header.
    replace (16 * 6 + Z.shiftr (if config_reset_traffic_class e then 0 else tos) 4) with
      (16 * 6 + (if config_reset_traffic_class e then 0 else Z.shiftr tos 4)) by (destruct (config_reset_traffic_class e); done).
    rewrite <- Enib. destruct (config_reset_traffic_class e); reflexivity.
Qed.

Lemma ttp46_ipv6_drop src dst pr o s a c d p sa tos proto ttl fo plen :
  xlat_is_siit e = false -> p = x_in s -> x_bytes o = a ++ c ++ d -> length c = l3_len46 fo -> xnet o = blen a ->
  ld8 (x_bytes p) (xnet p + 1) = Some tos -> ld8 (x_bytes p) (xnet p + 9) = Some proto -> ld8 (x_bytes p) (xnet p + 8) = Some ttl ->
  (forall c', length c' = l3_len46 fo -> generate_saddr6_nat64 e src (wro (with_bytes (a ++ c' ++ d) o) s) =
     Some (Ok tt, wro (with_bytes (a ++ splice c' 8 (be_bytes 16 (s6_addr sa)) ++ d) o) s)) ->
  (forall c', length c' = l3_len46 fo -> build_payload_len (wro (with_bytes (a ++ c' ++ d) o) s) =
     Some (plen, wro (with_bytes (a ++ c' ++ d) o) s)) ->
  xinner p = false -> forall error,
  (x_is_hairpin p = false /\ ttl <= 1 /\ error = ICMPERR_HOP_LIMIT) \/
  ((x_is_hairpin p = false -> 1 < ttl) /\ error = ICMPERR_SRC_ROUTE /\ has_unexpired_src_route (x_bytes p) (xnet p) = Some true) ->
  exists o', ttp46_ipv6 e (Some (Tuple6 src dst pr)) (wro o s) =
    Some (VERDICT_DROP, XState (x_in s) o' (XStat IPSTATS_MIB_INHDRERRORS :: XIcmp error 0 :: x_events s) (x_allocs s) (x_randoms s)).
Proof.
  intros Hnat -> Eo Hc En Htos Hpr Httl Hsa Hpl Hin error Hcase. set (p := x_in s) in *.
  unfold ttp46_ipv6. rewrite !gets_bind. change (x_in (wro o s)) with p. change (x_out (wro o s)) with o.
  replace (wro o s) with (wro (with_bytes (a ++ c ++ d) o) s) by (rewrite (with_bytes_id o _ Eo); done). clear Eo.
  rewrite Hnat. cbn [negb]. rewrite bind_assoc. erewrite bind_run by (apply Hsa; exact Hc). cbn beta iota.
  unfold l3_len46 in *. destruct (will_need_frag_hdr e fo).
  all: cells c Hc.
  all: hdr46_prefix Htos Hpl Hpr Httl.
  all: unfold pkt_is_outer; rewrite Hin; cbn [negb andb].
  all: destruct Hcase as [(Hh & H1 & ->)|(H1 & -> & Hsr)]; [rewrite Hh; cbn [negb andb]; destruct (Z.leb_spec ttl 1); [|lia];
    eexists; reflexivity|].
  all: replace (negb (x_is_hairpin p) && (ttl <=? 1)) with false by (destruct (x_is_hairpin p); [done|]; specialize (H1 eq_refl); cbn; lia).
  all: rewrite (st_cell_bind _ _ _ _ _ _ 7) by (lia || reflexivity).
  all: erewrite ld_in_bind by exact Hsr; eexists; reflexivity.
Qed.

End Hdr6.

(** ** Echoes *)

Section Echo.
Context {K : KernelCsum} {T : SiitTables} (e : xenv) (inner : option tuple -> M xstate verdict).

Definition echo_header (type ck id : Z) (sequence : bytes) : bytes := [type; 0] ++ raw_bytes16 ck ++ be_bytes 2 id ++ sequence.

(** The checksum of an ICMPv4 header, from the ICMPv6 one's. *)
Definition icmp64_csum (cksum : Z) (a6 : addrs) (len : Z) (hdr6 hdr4 : bytes) : Z :=
  csum_fold (csum_add (csum_sub (csum_sub (not32 (csum_unfold cksum)) (not32 (csum_unfold (csum_ipv6_magic a6.1 a6.2 len NEXTHDR_ICMP 0))))
    (csum_partial (splice hdr6 2 [0; 0]) 0)) (csum_partial hdr4 0)).

Definition icmp46_csum (cksum : Z) (a6 : addrs) (len : Z) (hdr4 hdr6 : bytes) : Z :=
  csum_ipv6_magic a6.1 a6.2 len NEXTHDR_ICMP
    (csum_add (csum_sub (not32 (csum_unfold cksum)) (csum_partial (splice hdr4 2 [0; 0]) 0)) (csum_partial hdr6 0)).

Lemma copy_payload_cells o s a c d p y :
  p = x_in s -> y = drop (Z.to_nat (xtrans p)) (x_bytes p) -> geom p -> geom o -> x_bytes o = a ++ c ++ d ->
  xpayload o = blen a + blen c -> xpayload p = xtrans p + blen c -> blen d = blen y - blen c ->
  copy_payload (wro o s) = Some (Ok tt, wro (with_bytes (a ++ c ++ drop (length c) y) o) s).
Proof.
  intros -> Ey Gp Go Eo Epay Eh Hd. set (p := x_in s) in *. pose proof Gp as [? ? ? ? ? ?].
  assert (Hy : blen y = blen (x_bytes p) - xtrans p) by (subst y; unfold blen in *; rewrite length_drop; lia).
  rewrite (copy_payload_run o s (a ++ c) d); [|done|done|rewrite <- (assoc_L (++)); done|rewrite blen_app; done|fold p; lia].
  fold p. assert (Eb : (a ++ c) ++ slice (x_bytes p) (xpayload p) (blen d) = a ++ c ++ drop (length c) y).
  { rewrite <- (assoc_L (++)). do 2 f_equal. rewrite Ey. unfold slice. rewrite drop_drop.
    replace (Z.to_nat (xtrans p) + length c)%nat with (Z.to_nat (xpayload p)) by (unfold blen in *; lia).
    apply take_ge. rewrite length_drop. unfold blen in *. lia. }
  rewrite Eb. done.
Qed.

Lemma geom_cells o a c d c' d' : geom o -> x_bytes o = a ++ c ++ d -> length c' = length c -> length d' = length d ->
  geom (with_bytes (a ++ c' ++ d') o).
Proof.
  intros [? ? ? ? Hend Hlen] Eo Ec Ed. rewrite Eo, !blen_app in Hend, Hlen. unfold blen in *.
  split; cbn [with_bytes x_ptrs x_bytes x_frags]; rewrite ?blen_app; unfold blen; rewrite ?Ec, ?Ed; lia.
Qed.

Lemma ttp64_echo_run type type4 src dst pr o s a c d p y a6 cksum :
  (type = ICMPV6_ECHO_REQUEST /\ type4 = ICMP_ECHO) \/ (type = ICMPV6_ECHO_REPLY /\ type4 = ICMP_ECHOREPLY) ->
  xlat_is_siit e = false -> p = x_in s -> y = drop (Z.to_nat (xtrans p)) (x_bytes p) -> geom p -> geom o ->
  x_bytes o = a ++ c ++ d -> length c = 8%nat -> xtrans o = blen a -> xpayload o = blen a + 8 -> xpayload p = xtrans p + 8 ->
  blen d = blen y - 8 -> ld8 (x_bytes p) (xtrans p) = Some type ->
  addrs6 (x_bytes p) (xnet p) = Some a6 -> raw16 (x_bytes p) (xtrans p + 2) = Some cksum ->
  let hdr ck := echo_header type4 ck (l4_4 src) (slice y 6 2) in
  ttp64_icmp e inner (Some (Tuple4 src dst pr)) (wro o s) =
    Some (VERDICT_CONTINUE, wro (with_bytes
      (a ++ hdr (icmp64_csum cksum a6 (pkt_datagram_len p) (slice y 0 8) (hdr 0)) ++ drop 8 y) o) s).
Proof.
  intros Hty Hnat -> Ey Gp Go Eo Hc Et Epay Eh Hd Htype Ha6 Hck hdr. set (p := x_in s) in *. pose proof Gp as [? ? ? ? ? ?].
  assert (Hy : blen y = blen (x_bytes p) - xtrans p) by (subst y; unfold blen in *; rewrite length_drop; lia).
  assert (Es6 : slice (x_bytes p) (xtrans p + 6) 2 = slice y 6 2).
  { subst y. unfold slice. rewrite drop_drop. do 2 f_equal. lia. }
  assert (Hsl : length (slice y 6 2) = 2%nat) by (apply slice_length; lia).
  pose proof (blen_nonneg d).
  assert (Hsq : exists q0 q1, slice y 6 2 = [q0; q1]) by (destruct (slice y 6 2) as [|q0 [|q1 [|]]]; try discriminate; eauto).
  destruct Hsq as (q0 & q1 & Eq). subst hdr. cbv beta. rewrite Eq in *.
  pose proof (geom_cells o a c d) as Hgeom. specialize (fun c' d' => Hgeom c' d' Go Eo). rewrite Hc in Hgeom.
  unfold ttp64_icmp. rewrite !gets_bind. change (x_in (wro o s)) with p. change (x_out (wro o s)) with o. cbv zeta.
  erewrite ld_in_bind; [|cbn [wro x_in]; fold p; apply ldb_some; lia].
  replace (wro o s) with (wro (with_bytes (a ++ c ++ d) o) s) by (rewrite (with_bytes_id o _ Eo); done). clear Eo.
  change (x_bytes (x_in (wro o s))) with (x_bytes p).
  set (ck0 := slice (x_bytes p) (xtrans p + 2) 2). assert (Hck0 : length ck0 = 2%nat) by (subst ck0; apply slice_length; lia).
  clearbody ck0. cells ck0 Hck0. cells c Hc.
  rewrite (st_cell_bind _ _ _ _ _ _ 2) by (lia || reflexivity). erewrite ld_in_bind by exact Htype.
  assert (Hsel : forall st k3, (if type =? ICMPV6_ECHO_REQUEST then ttp64_echo e ICMP_ECHO (Some (Tuple4 src dst pr))
    else if type =? ICMPV6_ECHO_REPLY then ttp64_echo e ICMP_ECHOREPLY (Some (Tuple4 src dst pr)) else k3) st =
    ttp64_echo e type4 (Some (Tuple4 src dst pr)) st) by (intros st k3; destruct Hty as [[-> ->]|[-> ->]]; done).
  rewrite Hsel. unfold ttp64_echo. rewrite !gets_bind. cbv zeta. rewrite !x_in_wro, !x_out_wro, !ptrs_with_bytes. fold p.
  rewrite (st_cell_bind _ _ _ _ _ _ 0), (st_cell_bind _ _ _ _ _ _ 1) by (lia || reflexivity).
  erewrite ld_in_bind; [|rewrite x_in_wro; fold p; apply ldb_some; lia].
  unfold xlat_id4. rewrite Hnat, ret_bind. rewrite (st_cell_bind _ _ _ _ _ _ 4) by (lia || reflexivity).
  erewrite ld_in_bind; [|rewrite x_in_wro; fold p; apply ldb_some; lia]. rewrite ?x_in_wro. fold p. rewrite Es6.
  rewrite (st_cell_bind _ _ _ _ _ _ 6) by (lia || reflexivity).
  set (c1 := splice _ 6 [q0; q1]). unfold post_icmp4info. rewrite bind_assoc.
  rewrite (bind_run _ _ _ _ _ (copy_payload_cells (with_bytes (a ++ c1 ++ d) o) s a c1 d p y eq_refl Ey Gp (Hgeom c1 d eq_refl eq_refl) eq_refl
    Epay Eh Hd)). cbn beta iota. change (length c1) with 8%nat. set (d1 := drop 8 y). rewrite bind_assoc.
  unfold update_icmp4_csum. rewrite bind_assoc, gets_bind, bind_assoc, gets_bind. rewrite !x_in_wro, !x_out_wro, !ptrs_with_bytes. fold p.
  rewrite bind_assoc. erewrite ld_in_bind by exact Hck. rewrite bind_assoc. erewrite ld_in_bind by exact Ha6.
  rewrite bind_assoc. erewrite ld_in_bind; [|rewrite x_in_wro; fold p; apply ldb_some; lia].
  rewrite bind_assoc. subst c1. rewrite (st_cell_bind _ _ _ _ _ _ 2) by (lia || reflexivity).
  rewrite bind_assoc. erewrite ld_out_bind; [|rewrite x_out_wro; cbn [with_bytes x_bytes]; rewrite Et; replace (blen a) with (blen a + 0) by lia; apply ldb_cell; reflexivity].
  rewrite (st_cell_bind _ _ _ _ _ _ 2) by (lia || reflexivity). rewrite ret_bind. unfold mret, M_ret.
  rewrite ?x_in_wro. fold p. replace (slice (x_bytes p) (xtrans p) 8) with (slice y 0 8) by (subst y; done).
  subst d1. reflexivity.
Qed.

Lemma ttp46_echo_run type type6 src dst pr o s a c d p y a6 cksum :
  (type = ICMP_ECHO /\ type6 = ICMPV6_ECHO_REQUEST) \/ (type = ICMP_ECHOREPLY /\ type6 = ICMPV6_ECHO_REPLY) ->
  xlat_is_siit e = false -> p = x_in s -> y = drop (Z.to_nat (xtrans p)) (x_bytes p) -> geom p -> geom o ->
  x_bytes o = a ++ c ++ d -> length c = 8%nat -> xtrans o = blen a -> xpayload o = blen a + 8 -> xpayload p = xtrans p + 8 ->
  blen d = blen y - 8 -> ld8 (x_bytes p) (xtrans p) = Some type ->
  0 <= xnet o -> xnet o + 40 <= blen a -> addrs6 a (xnet o) = Some a6 -> raw16 (x_bytes p) (xtrans p + 2) = Some cksum ->
  let hdr ck := echo_header type6 ck (l4_6 src) (slice y 6 2) in
  ttp46_icmp e inner (Some (Tuple6 src dst pr)) (wro o s) =
    Some (VERDICT_CONTINUE, wro (with_bytes
      (a ++ hdr (icmp46_csum cksum a6 (pkt_datagram_len p) (slice y 0 8) (hdr 0)) ++ drop 8 y) o) s).
Proof.
  intros Hty Hnat -> Ey Gp Go Eo Hc Et Epay Eh Hd Htype Hn0 Hn Ha6 Hck hdr. set (p := x_in s) in *. pose proof Gp as [? ? ? ? ? ?].
  assert (Hy : blen y = blen (x_bytes p) - xtrans p) by (subst y; unfold blen in *; rewrite length_drop; lia).
  assert (Es6 : slice (x_bytes p) (xtrans p + 6) 2 = slice y 6 2).
  { subst y. unfold slice. rewrite drop_drop. do 2 f_equal. lia. }
  assert (Hsl : length (slice y 6 2) = 2%nat) by (apply slice_length; lia).
  assert (Ha6' : forall c, addrs6 (a ++ c) (xnet o) = Some a6).
  { intros c'. rewrite addrs6_head by lia. rewrite addrs6_some in Ha6 by lia. exact Ha6. }
  pose proof (blen_nonneg d).
  assert (Hsq : exists q0 q1, slice y 6 2 = [q0; q1]) by (destruct (slice y 6 2) as [|q0 [|q1 [|]]]; try discriminate; eauto).
  destruct Hsq as (q0 & q1 & Eq). subst hdr. cbv beta. rewrite Eq in *.
  pose proof (geom_cells o a c d) as Hgeom. specialize (fun c' d' => Hgeom c' d' Go Eo). rewrite Hc in Hgeom.
  unfold ttp46_icmp. rewrite !gets_bind. change (x_in (wro o s)) with p. change (x_out (wro o s)) with o. cbv zeta.
  erewrite ld_in_bind; [|cbn [wro x_in]; fold p; apply ldb_some; lia].
  replace (wro o s) with (wro (with_bytes (a ++ c ++ d) o) s) by (rewrite (with_bytes_id o _ Eo); done). clear Eo.
  change (x_bytes (x_in (wro o s))) with (x_bytes p).
  set (ck0 := slice (x_bytes p) (xtrans p + 2) 2). assert (Hck0 : length ck0 = 2%nat) by (subst ck0; apply slice_length; lia).
  clearbody ck0. cells ck0 Hck0. cells c Hc.
  rewrite (st_cell_bind _ _ _ _ _ _ 2) by (lia || reflexivity). erewrite ld_in_bind by exact Htype.
  assert (Hsel : forall st k3, (if type =? ICMP_ECHO then ttp46_echo e ICMPV6_ECHO_REQUEST (Some (Tuple6 src dst pr))
    else if type =? ICMP_ECHOREPLY then ttp46_echo e ICMPV6_ECHO_REPLY (Some (Tuple6 src dst pr)) else k3) st =
    ttp46_echo e type6 (Some (Tuple6 src dst pr)) st) by (intros st k3; destruct Hty as [[-> ->]|[-> ->]]; done).
  rewrite Hsel. unfold ttp46_echo. rewrite !gets_bind. cbv zeta. rewrite !x_in_wro, !x_out_wro, !ptrs_with_bytes. fold p.
  rewrite (st_cell_bind _ _ _ _ _ _ 0), (st_cell_bind _ _ _ _ _ _ 1) by (lia || reflexivity).
  erewrite ld_in_bind; [|rewrite x_in_wro; fold p; apply ldb_some; lia].
  unfold xlat_id6. rewrite Hnat, ret_bind. rewrite (st_cell_bind _ _ _ _ _ _ 4) by (lia || reflexivity).
  erewrite ld_in_bind; [|rewrite x_in_wro; fold p; apply ldb_some; lia]. rewrite ?x_in_wro. fold p. rewrite Es6.
  rewrite (st_cell_bind _ _ _ _ _ _ 6) by (lia || reflexivity).
  set (c1 := splice _ 6 [q0; q1]). unfold post_icmp6info. rewrite bind_assoc.
  rewrite (bind_run _ _ _ _ _ (copy_payload_cells (with_bytes (a ++ c1 ++ d) o) s a c1 d p y eq_refl Ey Gp (Hgeom c1 d eq_refl eq_refl) eq_refl
    Epay Eh Hd)). cbn beta iota. change (length c1) with 8%nat. set (d1 := drop 8 y). rewrite bind_assoc.
  unfold update_icmp6_csum. rewrite bind_assoc, gets_bind, bind_assoc, gets_bind. rewrite !x_in_wro, !x_out_wro, !ptrs_with_bytes. fold p.
  rewrite bind_assoc. subst c1. rewrite (st_cell_bind _ _ _ _ _ _ 2) by (lia || reflexivity).
  rewrite bind_assoc. erewrite ld_in_bind by exact Hck.
  rewrite bind_assoc. erewrite ld_in_bind; [|rewrite x_in_wro; fold p; apply ldb_some; lia].
  rewrite bind_assoc. erewrite ld_out_bind; [|rewrite x_out_wro; cbn [with_bytes x_bytes]; rewrite Et; replace (blen a) with (blen a + 0) by lia; apply ldb_cell; reflexivity].
  rewrite bind_assoc. erewrite ld_out_bind; [|rewrite x_out_wro; cbn [with_bytes x_bytes]; apply Ha6'].
  rewrite (st_cell_bind _ _ _ _ _ _ 2) by (lia || reflexivity). rewrite ret_bind. unfold mret, M_ret.
  rewrite ?x_in_wro. fold p. replace (slice (x_bytes p) (xtrans p) 8) with (slice y 0 8) by (subst y; done).
  subst d1. reflexivity.
Qed.
End Echo.

(** ** Checksums *)

Section Residue.
Context {K : KernelCsum} {L : KernelCsumLaws K}.

Lemma slice_wf_addrs b i j n : wf_bytes b -> 0 <= i -> 0 <= j -> 0 <= n -> i + n <= blen b -> j + n <= blen b ->
  wf_addrs (Z.to_nat n) (slice b i n, slice b j n).
Proof. intros Hb Hi Hj Hn H1 H2. split_and!; try (apply wf_slice; done); apply slice_length; lia. Qed.

Lemma new_header_wf size src dst y : wf_bytes y -> wf_bytes (new_header size src dst y).
Proof. intros Hy. unfold new_header, set_ports. repeat apply wf_splice; try apply be_bytes_wf. apply wf_slice, Hy. Qed.

Lemma zero_pair_wf : wf_bytes [0; 0].
Proof. repeat constructor; done. Qed.

Lemma even_z n : Z.even n = true -> 0 <= n -> Nat.Even (Z.to_nat n).
Proof. intros H H0. apply Z.even_spec in H as [k Hk]. exists (Z.to_nat k). lia. Qed.

Section Seg.
Context (size check src dst cksum : Z) (y : bytes) (p : xpkt) (a4 a6 : addrs).
Context (Hc4 : 4 <= check) (Hcs : check + 2 <= size) (Hsz : size <= blen y) (Hes : Z.even size = true) (Hec : Z.even check = true).
Context (Wy : wf_bytes y) (W4 : wf_addrs 4 a4) (W6 : wf_addrs 16 a6).
Context (Hck : is_u16 cksum) (Eck : slice y check 2 = raw_bytes16 cksum) (Hsum : x_summed p <> CHECKSUM_PARTIAL).

(** The checksum that replaces [cksum], with what it covers, sums what
    the old one did. *)
Lemma csum64_residue mangle h j : (forall c, is_u16 c -> is_u16 (mangle c) /\ mangle c ≡c c) ->
  size <= h -> h <= blen y -> blen j = blen y ->
  let ck := csum64 size check mangle p cksum a6 a4 y (set_ports src dst (splice j 0 (slice y 0 h))) in
  is_u16 ck /\ raw_sum (new_segment size check src dst ck y) + addr_sum a4 ≡c raw_sum y + addr_sum a6.
Proof.
  intros Hm H1 H2 Hj ck. subst ck. unfold csum64. rewrite bool_decide_eq_false_2 by done. rewrite slice_csum_zero by done.
  destruct (update_6to4_law cksum a6 (splice (slice y 0 size) check [0; 0]) a4 (splice (new_header size src dst y) check [0; 0]))
    as [Hu He]; try done.
  { apply wf_splice; [apply wf_slice, Wy|apply zero_pair_wf]. }
  { apply wf_splice; [apply new_header_wf, Wy|apply zero_pair_wf]. }
  destruct (Hm _ Hu) as [Hmu Hme]. split; [exact Hmu|].
  rewrite segment_sum, (original_sum size check y) with (cksum := cksum); try done; try (apply even_z; done || lia).
  rewrite Hme. destruct He as [k He]. exists k. lia.
Qed.

Lemma csum46_residue h j :
  size <= h -> h <= blen y -> blen j = blen y ->
  let ck := csum46 size check p cksum a4 a6 y (set_ports src dst (splice j 0 (slice y 0 h))) in
  is_u16 ck /\ raw_sum (new_segment size check src dst ck y) + addr_sum a6 ≡c raw_sum y + addr_sum a4.
Proof.
  intros H1 H2 Hj ck. subst ck. unfold csum46. rewrite bool_decide_eq_false_2 by done. rewrite slice_csum_zero by done.
  destruct (update_4to6_law cksum a4 (splice (slice y 0 size) check [0; 0]) a6 (splice (new_header size src dst y) check [0; 0]))
    as [Hu He]; try done.
  { apply wf_splice; [apply wf_slice, Wy|apply zero_pair_wf]. }
  { apply wf_splice; [apply new_header_wf, Wy|apply zero_pair_wf]. }
  split; [exact Hu|].
  rewrite segment_sum, (original_sum size check y) with (cksum := cksum); try done; try (apply even_z; done || lia).
  destruct He as [k He]. exists k. lia.
Qed.

End Seg.

Lemma mangle_udp c : is_u16 c -> is_u16 (if c =? 0 then CSUM_MANGLED_0 else c) /\ (if c =? 0 then CSUM_MANGLED_0 else c) ≡c c.
Proof. intros Hc. destruct (Z.eqb_spec c 0) as [->|]; [|done]. split; [done|]. exists 1. done. Qed.

(** The lengths and the protocol weigh the same in both pseudoheaders. *)
Lemma pseudo_same a6 a4 len proto : wf_addrs 16 a6 -> wf_addrs 4 a4 -> is_u16 len -> is_u8 proto ->
  raw_sum (pseudo6 a6.1 a6.2 len proto) - addr_sum a6 = raw_sum (pseudo4 a4.1 a4.2 len proto) - addr_sum a4.
Proof.
  intros W6 W4 Hl Hp. rewrite pseudo6_sum, pseudo4_sum by done. unfold is_u16, is_u8 in *.
  assert (Hhi : forall x k, 0 <= x < 2 ^ 16 -> 16 <= k -> bits x k 8 = 0).
  { intros x k Hx Hk. unfold bits. rewrite Z.shiftr_div_pow2, Z.div_small by (first [lia|split; [lia|]; apply (Z.lt_le_trans _ (2 ^ 16)); [lia|apply Z.pow_le_mono_r; lia]]).
    apply Z.land_0_l. }
  assert (Hhi8 : forall k, 8 <= k -> bits proto k 8 = 0).
  { intros k Hk. unfold bits. rewrite Z.shiftr_div_pow2, Z.div_small by (first [lia|split; [lia|]; apply (Z.lt_le_trans _ (2 ^ 8)); [lia|apply Z.pow_le_mono_r; lia]]).
    apply Z.land_0_l. }
  cbn [be_bytes raw_sum]. change (8 * Z.of_nat 3) with 24. change (8 * Z.of_nat 2) with 16. change (8 * Z.of_nat 1) with 8. change (8 * Z.of_nat 0) with 0.
  rewrite !Hhi, !Hhi8 by lia. lia.
Qed.

(** Echoes: the pseudoheader is only in ICMPv6. *)
Lemma echo_sum type ck id q : length q = 2%nat -> is_u16 ck ->
  raw_sum (echo_header type ck id q) = raw_sum (echo_header type 0 id q) + ck.
Proof.
  intros Hq Hck. destruct q as [|q0 [|q1 [|]]]; try discriminate. pose proof (raw_bytes16_sum ck Hck) as E.
  unfold echo_header. cbn [app raw_bytes16 raw_sum] in *. change (bits 0 0 8) with 0. change (bits 0 8 8) with 0. lia.
Qed.

Lemma echo_header_wf type ck id q : is_u8 type -> wf_bytes q -> wf_bytes (echo_header type ck id q).
Proof.
  intros Ht Hq. unfold echo_header. apply wf_bytes_app; [constructor; [exact Ht|constructor; [done|constructor]]|].
  apply wf_bytes_app; [apply raw_bytes16_wf|]. apply wf_bytes_app; [apply be_bytes_wf|exact Hq].
Qed.

Section EchoResidue.
Context (cksum len : Z) (y : bytes) (a6 : addrs).
Context (Wy : wf_bytes y) (H8 : 8 <= blen y) (W6 : wf_addrs 16 a6) (Hl : is_u32 len).
Context (Hck : is_u16 cksum) (Eck : slice y 2 2 = raw_bytes16 cksum).

Lemma drop8_sum hdr : length hdr = 8%nat -> raw_sum (hdr ++ drop 8 y) = raw_sum hdr + raw_sum (drop 8 y).
Proof. intros H. apply raw_sum_app. rewrite H. exists 4%nat. done. Qed.

Lemma original_icmp : raw_sum y = raw_sum (splice (slice y 0 8) 2 [0; 0]) + cksum + raw_sum (drop 8 y).
Proof.
  destruct y as [|y0 [|y1 [|y2 [|y3 [|y4 [|y5 [|y6 [|y7 y']]]]]]]]; try (unfold blen in H8; cbn in H8; lia).
  pose proof (raw_bytes16_sum cksum Hck) as E. rewrite <- Eck in E.
  change (slice (y0 :: y1 :: y2 :: y3 :: y4 :: y5 :: y6 :: y7 :: y') 2 2) with [y2; y3] in E.
  change (splice (slice (y0 :: y1 :: y2 :: y3 :: y4 :: y5 :: y6 :: y7 :: y') 0 8) 2 [0; 0]) with [y0; y1; 0; 0; y4; y5; y6; y7].
  change (drop 8 (y0 :: y1 :: y2 :: y3 :: y4 :: y5 :: y6 :: y7 :: y')) with y'. cbn [raw_sum] in *. lia.
Qed.

Lemma echo64_residue type id q : is_u8 type -> length q = 2%nat -> wf_bytes q ->
  let ck := icmp64_csum cksum a6 len (slice y 0 8) (echo_header type 0 id q) in
  is_u16 ck /\ raw_sum (echo_header type ck id q ++ drop 8 y) ≡c raw_sum y + raw_sum (pseudo6 a6.1 a6.2 len NEXTHDR_ICMP).
Proof.
  intros Ht Hq Wq ck. pose proof W6 as (W61 & W62 & L1 & L2).
  destruct (csum_ipv6_magic_law a6.1 a6.2 len NEXTHDR_ICMP 0) as [Hmr Hmc]; try done.
  assert (Hm : is_u32 (not32 (csum_unfold (csum_ipv6_magic a6.1 a6.2 len NEXTHDR_ICMP 0))) /\
    not32 (csum_unfold (csum_ipv6_magic a6.1 a6.2 len NEXTHDR_ICMP 0)) ≡c raw_sum (pseudo6 a6.1 a6.2 len NEXTHDR_ICMP)).
  { rewrite csum_unfold_law by done. split; [apply not32_range; unfold is_u16, is_u32 in *; lia|]. rewrite not32_cong, Hmc. exists 0. lia. }
  assert (W0 : wf_bytes (splice (slice y 0 8) 2 [0; 0])) by (apply wf_splice; [apply wf_slice, Wy|apply zero_pair_wf]).
  destruct (then_fold _ _ (then_add _ _ _ _ (then_sub _ _ _ _ (then_sub _ _ _ _ (unfold_not cksum Hck) Hm) (partial_zero _ W0))
    (partial_zero _ (echo_header_wf type 0 id q Ht Wq)))) as [Hu He].
  fold (icmp64_csum cksum a6 len (slice y 0 8) (echo_header type 0 id q)) in Hu, He. fold ck in Hu, He. split; [exact Hu|].
  rewrite drop8_sum by (destruct q as [|? [|? [|]]]; try discriminate; done). rewrite echo_sum by done. rewrite He, original_icmp. exists 0. lia.
Qed.

Lemma echo46_residue type id q : is_u8 type -> length q = 2%nat -> wf_bytes q ->
  let ck := icmp46_csum cksum a6 len (slice y 0 8) (echo_header type 0 id q) in
  is_u16 ck /\ raw_sum (echo_header type ck id q ++ drop 8 y) + raw_sum (pseudo6 a6.1 a6.2 len NEXTHDR_ICMP) ≡c raw_sum y.
Proof.
  intros Ht Hq Wq ck. pose proof W6 as (W61 & W62 & L1 & L2).
  assert (W0 : wf_bytes (splice (slice y 0 8) 2 [0; 0])) by (apply wf_splice; [apply wf_slice, Wy|apply zero_pair_wf]).
  destruct (then_add _ _ _ _ (then_sub _ _ _ _ (unfold_not cksum Hck) (partial_zero _ W0))
    (partial_zero _ (echo_header_wf type 0 id q Ht Wq))) as [Hu He].
  destruct (csum_ipv6_magic_law a6.1 a6.2 len NEXTHDR_ICMP _ W61 W62 L1 L2 Hl ltac:(done) Hu) as [Hmr Hmc].
  fold (icmp46_csum cksum a6 len (slice y 0 8) (echo_header type 0 id q)) in Hmr, Hmc. fold ck in Hmr, Hmc. split; [exact Hmr|].
  rewrite drop8_sum by (destruct q as [|? [|? [|]]]; try discriminate; done). rewrite echo_sum by done. rewrite Hmc, He, original_icmp. exists 0. lia.
Qed.

End EchoResidue.

End Residue.
