(* ===== verification/Wire.v ===== *)
(** * Fields on the wire

    What a reader finds in the headers and segments the translation writes
    ([XlatSpec]): the fields of the IPv4 and IPv6 headers, the ports, and
    everything the translation does not touch. *)
From S2P Require Import Prelude Types Address Rfc6052 Pool6 RbTree BibTable BibDb Packet SessionEntry PktQueue Skb Checksum XlatPkt Xlat64 Xlat46 XlatSpec.

(** ** Numbers *)

Lemma ldn_be_mod n x c : ldn n (be_bytes n x ++ c) 0 = Some (x `mod` 2 ^ (8 * Z.of_nat n)).
Proof.
  induction n as [|n IH]; [cbn; rewrite Z.mod_1_r; done|].
  cbn [be_bytes app ldn]. change (ld8 (?h :: ?t) 0) with (Some h). cbn [mbind option_bind].
  change (bits x (8 * Z.of_nat n) 8 :: be_bytes n x ++ c) with ([bits x (8 * Z.of_nat n) 8] ++ (be_bytes n x ++ c)).
  change (0 + 1) with (blen [bits x (8 * Z.of_nat n) 8] + 0). rewrite ldn_app_r, IH by lia. cbn [mbind option_bind]. f_equal.
  unfold bits. rewrite Z.land_ones, Z.shiftr_div_pow2 by lia.
  replace (8 * Z.of_nat (S n)) with (8 * Z.of_nat n + 8) by lia. rewrite Z.pow_add_r, Z.rem_mul_r by lia. lia.
Qed.

Lemma ldn_be n x c : 0 <= x < 2 ^ (8 * Z.of_nat n) -> ldn n (be_bytes n x ++ c) 0 = Some x.
Proof. intros H. rewrite ldn_be_mod, Z.mod_small by exact H. done. Qed.

(** A number after [a]. *)
Lemma ldn_be_at n x a c i : i = blen a -> 0 <= x < 2 ^ (8 * Z.of_nat n) -> ldn n (a ++ be_bytes n x ++ c) i = Some x.
Proof. intros -> H. replace (blen a) with (blen a + 0) by lia. rewrite ldn_app_r by lia. apply ldn_be, H. Qed.

Lemma raw16_at x a c i : i = blen a -> is_u16 x -> raw16 (a ++ raw_bytes16 x ++ c) i = Some x.
Proof.
  intros -> Hx. unfold raw16. replace (blen a) with (blen a + 0) by lia. rewrite ldn_app_r by lia.
  pose proof (raw_bytes16_sum x Hx) as E. unfold raw_bytes16 in *. cbn [raw_sum] in E. cbn [app ldn].
  change (ld8 (?h :: ?t) 0) with (Some h). change (ld8 (?h :: ?h' :: ?t) (0 + 1)) with (Some h'). cbn [mbind option_bind].
  change (2 ^ (8 * Z.of_nat 1)) with 256. change (2 ^ (8 * Z.of_nat 0)) with 1.
  replace (bits x 0 8 * 256 + (bits x 8 8 * 1 + 0)) with (256 * bits x 0 8 + bits x 8 8) by lia.
  rewrite be16_pair by (apply bits_range; lia). f_equal. lia.
Qed.

Lemma cpu_to_be16_u16 x : is_u16 (cpu_to_be16 x).
Proof.
  unfold cpu_to_be16. pose proof (bits_range x 0 8 ltac:(lia)). pose proof (bits_range x 8 8 ltac:(lia)).
  rewrite lor_shiftl_add by lia. unfold is_u16. lia.
Qed.

(** ** Bytes *)

Lemma ld8_splice b off l i : 0 <= off -> off + blen l <= blen b -> 0 <= i ->
  ld8 (splice b off l) i = if (off <=? i) && (i <? off + blen l) then ld8 l (i - off) else ld8 b i.
Proof.
  intros H0 H Hi. pose proof (blen_nonneg l). unfold splice. assert (E : blen (take (Z.to_nat off) b) = off).
  { unfold blen in *. rewrite length_take. lia. }
  destruct (Z.leb_spec off i); cbn [andb].
  - replace i with (blen (take (Z.to_nat off) b) + (i - off)) at 1 by lia. rewrite ld8_app_r by lia.
    destruct (Z.ltb_spec i (off + blen l)); [apply ld8_app_l; lia|].
    replace (i - off) with (blen l + (i - off - blen l)) by lia. rewrite ld8_app_r by lia.
    replace (Z.to_nat off + length l)%nat with (Z.to_nat (off + blen l)) by (unfold blen in *; lia).
    rewrite ld8_drop by lia. f_equal. lia.
  - rewrite ld8_app_l by lia. apply ld8_take. lia.
Qed.

Lemma slice_at a c b i n : i = blen a -> n = blen c -> slice (a ++ c ++ b) i n = c.
Proof. intros -> ->. unfold slice, blen. rewrite !Nat2Z.id, drop_app_length, take_app_length. done. Qed.

(** ** Headers *)

Ltac wf_parts := repeat (apply wf_bytes_app || apply be_bytes_wf || apply raw_bytes16_wf || (apply Forall_cons; split; [done|]) || apply Forall_nil || done).

Section Ip4.
Context {K : KernelCsum} {L : KernelCsumLaws K}.
Context (tos tot id fo ttl proto : Z).

Lemma ip4_header_length src dst : length src = 4%nat -> length dst = 4%nat -> length (ip4_header tos tot id fo ttl proto src dst) = 20%nat.
Proof. intros Hs Hd. unfold ip4_header. rewrite !length_app, Hs, Hd. done. Qed.

Lemma ip4_fields src dst c b : length src = 4%nat -> length dst = 4%nat -> is_u16 tot -> is_u16 fo ->
  b = ip4_header tos tot id fo ttl proto src dst ++ c ->
  ld8 b 0 = Some 0x45 /\ ldn 2 b 2 = Some tot /\ raw16 b 6 = Some fo /\
  ld8 b 8 = Some ttl /\ ld8 b 9 = Some proto /\ slice b 12 4 = src /\ slice b 16 4 = dst.
Proof.
  intros Hs Hd Ht Hf ->. unfold ip4_header. set (ck := ip_fast_csum _). clearbody ck. rewrite <- !(assoc_L (++)). split_and!.
  - done.
  - apply (ldn_be_at 2 tot [0x45; tos]); done.
  - apply (raw16_at fo ([0x45; tos] ++ be_bytes 2 tot ++ raw_bytes16 id) ([ttl; proto] ++ raw_bytes16 ck ++ src ++ dst ++ c)); done.
  - done.
  - done.
  - apply (slice_at ([0x45; tos] ++ be_bytes 2 tot ++ raw_bytes16 id ++ raw_bytes16 fo ++ [ttl; proto] ++ raw_bytes16 ck) src (dst ++ c));
      unfold blen; [done|rewrite Hs; done].
  - cells src Hs. apply (slice_at ([0x45; tos] ++ be_bytes 2 tot ++ raw_bytes16 id ++ raw_bytes16 fo ++ [ttl; proto] ++ raw_bytes16 ck ++ [z; z0; z1; z2]) dst c);
      unfold blen; [done|rewrite Hd; done].
Qed.


Lemma ip4_header_wf src dst : is_u8 tos -> is_u8 ttl -> is_u8 proto -> wf_bytes src -> wf_bytes dst ->
  wf_bytes (ip4_header tos tot id fo ttl proto src dst).
Proof. intros. unfold ip4_header. wf_parts. Qed.

(** The header's checksum is right. *)
Lemma ip4_header_sum src dst : length src = 4%nat -> is_u8 tos -> is_u8 ttl -> is_u8 proto -> wf_bytes src -> wf_bytes dst ->
  raw_sum (ip4_header tos tot id fo ttl proto src dst) ≡c 0.
Proof.
  intros Hs W1 W2 W3 W4 W5. unfold ip4_header. set (a := [0x45; tos] ++ be_bytes 2 tot ++ raw_bytes16 id ++ raw_bytes16 fo ++ [ttl; proto]).
  assert (E : forall ck : bytes, [0x45; tos] ++ be_bytes 2 tot ++ raw_bytes16 id ++ raw_bytes16 fo ++ [ttl; proto] ++ ck ++ src ++ dst =
    a ++ ck ++ src ++ dst) by (intros ck; subst a; rewrite <- !(assoc_L (++)); done). rewrite !E.
  assert (Wa : wf_bytes a) by (subst a; wf_parts). assert (Ha : Nat.Even (length a)) by (exists 5%nat; done).
  destruct (ip_fast_csum_law (a ++ [0; 0] ++ src ++ dst)) as [Hr Hc]; [wf_parts|].
  pose proof (raw_bytes16_sum _ Hr) as Es. set (ck := ip_fast_csum _) in *.
  rewrite (raw_sum_app a) in Hc |- * by done. rewrite (raw_sum_app [0; 0]) in Hc by (exists 1%nat; done).
  rewrite (raw_sum_app (raw_bytes16 ck)), Es by (exists 1%nat; done). rewrite Hc. change (raw_sum [0; 0]) with 0. exists 0. lia.
Qed.

End Ip4.

(** The next header of a transport protocol. *)
Definition nexthdr_of (l4 : l4_protocol) : Z :=
  match l4 with L4PROTO_TCP => NEXTHDR_TCP | L4PROTO_UDP => NEXTHDR_UDP | _ => NEXTHDR_ICMP end.
Definition protocol_of (l4 : l4_protocol) : Z :=
  match l4 with L4PROTO_TCP => IPPROTO_TCP | L4PROTO_UDP => IPPROTO_UDP | _ => IPPROTO_ICMP end.

Section Ip6.
Context (e : xenv) (tclass plen hop fo id : Z) (l4 : l4_protocol).

Lemma headers46_length src dst : length src = 16%nat -> length dst = 16%nat ->
  length (headers46 e tclass plen (protocol_of l4) hop fo id src dst) = l3_len46 e fo.
Proof.
  intros Hs Hd. unfold headers46, l3_len46, ip6_header. destruct (will_need_frag_hdr e fo); rewrite !length_app, Hs, Hd; done.
Qed.

Lemma headers46_fields src dst c b : length src = 16%nat -> length dst = 16%nat -> is_u16 plen ->
  b = headers46 e tclass plen (protocol_of l4) hop fo id src dst ++ c ->
  ld8 b 0 = Some (16 * 6 + Z.shiftr tclass 4) /\ ldn 2 b 4 = Some plen /\ ld8 b 7 = Some hop /\
  slice b 8 16 = src /\ slice b 24 16 = dst /\
  (will_need_frag_hdr e fo = true ->
   raw16 b 42 = Some (build_ipv6_frag_off_field (get_fragment_offset_ipv4 fo) (is_more_fragments_set_ipv4 fo))).
Proof.
  intros Hs Hd Hp ->.
  assert (H : forall nh c', let b := ip6_header tclass plen nh hop src dst ++ c' in
    ld8 b 0 = Some (16 * 6 + Z.shiftr tclass 4) /\ ldn 2 b 4 = Some plen /\ ld8 b 7 = Some hop /\ slice b 8 16 = src /\ slice b 24 16 = dst).
  { intros nh c' b. subst b. unfold ip6_header. rewrite <- !(assoc_L (++)). split_and!.
    - done.
    - apply (ldn_be_at 2 plen [16 * 6 + Z.shiftr tclass 4; u8 (Z.shiftl tclass 4); 0; 0]); done.
    - done.
    - apply (slice_at ([16 * 6 + Z.shiftr tclass 4; u8 (Z.shiftl tclass 4); 0; 0] ++ be_bytes 2 plen ++ [nh; hop]) src (dst ++ c'));
        unfold blen; [done|rewrite Hs; done].
    - set (a := [16 * 6 + Z.shiftr tclass 4; u8 (Z.shiftl tclass 4); 0; 0] ++ be_bytes 2 plen ++ [nh; hop]).
      change (slice (a ++ src ++ dst ++ c') 24 16 = dst). rewrite (assoc_L (++) a).
      apply slice_at; unfold blen; rewrite ?length_app, ?Hs, ?Hd; done. }
  unfold headers46. cbv zeta. set (nh := if _ =? _ then _ else _). destruct (will_need_frag_hdr e fo).
  - rewrite <- (assoc_L (++)). destruct (H NEXTHDR_FRAGMENT (frag_header nh (build_ipv6_frag_off_field (get_fragment_offset_ipv4 fo)
      (is_more_fragments_set_ipv4 fo)) id ++ c)) as (H1 & H2 & H3 & H4 & H5). split_and!; try done. intros _.
    unfold frag_header. rewrite <- !(assoc_L (++)). rewrite (assoc_L (++) (ip6_header _ _ _ _ _ _)). apply raw16_at; [|apply cpu_to_be16_u16].
    unfold ip6_header, blen. rewrite !length_app, Hs, Hd. done.
  - destruct (H nh c) as (H1 & H2 & H3 & H4 & H5). split_and!; done.
Qed.

(** The walk over the headers ends at the transport header. *)
Lemma headers46_last src dst c b : length src = 16%nat -> length dst = 16%nat ->
  b = headers46 e tclass plen (protocol_of l4) hop fo id src dst ++ c ->
  (it ← HDR_ITERATOR_INIT b 0; hdr_iterator_last_loop (S (length b)) b it) = Some (HdrIterator (nexthdr_of l4) (Z.of_nat (l3_len46 e fo))).
Proof.
  intros Hs Hd Eb. assert (Hlen : (40 <= length b)%nat).
  { rewrite Eb, length_app, headers46_length by done. unfold l3_len46. destruct (will_need_frag_hdr e fo); lia. }
  unfold headers46 in Eb. cbv zeta in Eb.
  assert (Enh : (if protocol_of l4 =? IPPROTO_ICMP then NEXTHDR_ICMP else protocol_of l4) = nexthdr_of l4) by (destruct l4; done).
  rewrite Enh in Eb. assert (Hstop : is_opt_hdr (nexthdr_of l4) = false /\ (nexthdr_of l4 =? NEXTHDR_FRAGMENT) = false) by (destruct l4; done).
  destruct Hstop as [N1 N2]. unfold l3_len46. destruct (length b) as [|[|n]] eqn:El; [lia..|].
  destruct (will_need_frag_hdr e fo).
  - assert (E6 : HDR_ITERATOR_INIT b 0 = Some (HdrIterator NEXTHDR_FRAGMENT 40)) by (subst b; done). rewrite E6. cbn [mbind option_bind].
    assert (E40 : ld8 b 40 = Some (nexthdr_of l4)).
    { subst b. unfold ip6_header. cells src Hs. cells dst Hd. done. }
    assert (En : hdr_iterator_next b (HdrIterator NEXTHDR_FRAGMENT 40) = Some (Some (HdrIterator (nexthdr_of l4) 48))).
    { unfold hdr_iterator_next. cbn [hdr_type hdr_data]. change (is_opt_hdr NEXTHDR_FRAGMENT) with false.
      change (NEXTHDR_FRAGMENT =? NEXTHDR_FRAGMENT) with true. cbv iota. rewrite E40. done. }
    cbn [hdr_iterator_last_loop]. rewrite En. cbn [mbind option_bind].
    unfold hdr_iterator_next. cbn [hdr_type hdr_data]. rewrite N1, N2. done.
  - assert (E6 : HDR_ITERATOR_INIT b 0 = Some (HdrIterator (nexthdr_of l4) 40)) by (subst b; done). rewrite E6. cbn [mbind option_bind].
    cbn [hdr_iterator_last_loop]. unfold hdr_iterator_next. cbn [hdr_type hdr_data]. rewrite N1, N2. done.
Qed.

Lemma ip6_header_wf nh src dst : is_u8 tclass -> is_u8 hop -> is_u8 nh -> wf_bytes src -> wf_bytes dst ->
  wf_bytes (ip6_header tclass plen nh hop src dst).
Proof.
  intros W1 W2 W3 W4 W5. unfold ip6_header. pose proof (tos_nibble tclass W1).
  assert (is_u8 (16 * 6 + Z.shiftr tclass 4)) by (unfold is_u8; lia). assert (is_u8 (u8 (Z.shiftl tclass 4))) by (apply Z.mod_pos_bound; lia).
  wf_parts.
Qed.

Lemma headers46_wf src dst : is_u8 tclass -> is_u8 hop -> wf_bytes src -> wf_bytes dst ->
  wf_bytes (headers46 e tclass plen (protocol_of l4) hop fo id src dst).
Proof.
  intros W1 W2 W4 W5. unfold headers46, frag_header. assert (is_u8 (if protocol_of l4 =? IPPROTO_ICMP then NEXTHDR_ICMP else protocol_of l4)) by (destruct l4; done).
  destruct (will_need_frag_hdr e fo); [apply wf_bytes_app; [apply ip6_header_wf; done|wf_parts]|apply ip6_header_wf; done].
Qed.

End Ip6.

(** ** Segments *)

Section SegmentFields.
Context (size check src dst ck : Z) (y : bytes).
Context (Hc4 : 4 <= check) (Hcs : check + 2 <= size) (Hsz : size <= blen y).
Abbreviation seg := (new_segment size check src dst ck y).

(** What is neither a port nor the checksum stays. *)
Lemma segment_kept i : 4 <= i -> i <> check -> i <> check + 1 -> ld8 seg i = ld8 y i.
Proof.
  intros H4 N1 N2. pose proof (header_length size check src dst y Hc4 Hcs Hsz) as Hl. unfold new_segment.
  assert (E : blen (splice (new_header size src dst y) check (raw_bytes16 ck)) = size).
  { rewrite blen_splice; rewrite ?Hl; change (blen (raw_bytes16 ck)) with 2; lia. }
  destruct (Z.lt_ge_cases i size).
  - rewrite ld8_app_l by lia. rewrite ld8_splice by (rewrite ?Hl; change (blen (raw_bytes16 ck)) with 2; lia).
    change (blen (raw_bytes16 ck)) with 2. destruct (Z.leb_spec check i), (Z.ltb_spec i (check + 2)); cbn [andb]; try lia.
    all: assert (E1 : blen (slice y 0 size) = size) by (unfold blen; rewrite slice_length by lia; lia);
      assert (E2 : blen (splice (slice y 0 size) 0 (be_bytes 2 src)) = size)
        by (rewrite blen_splice; change (blen (be_bytes 2 src)) with 2; lia);
      unfold new_header, set_ports; rewrite ld8_splice by (change (blen (be_bytes 2 dst)) with 2; lia);
      rewrite ld8_splice by (change (blen (be_bytes 2 src)) with 2; lia);
      change (blen (be_bytes 2 src)) with 2; change (blen (be_bytes 2 dst)) with 2;
      destruct (Z.leb_spec 2 i), (Z.ltb_spec i (2 + 2)), (Z.leb_spec 0 i), (Z.ltb_spec i (0 + 2)); try lia; cbn [andb];
      rewrite slice_0; apply ld8_take; lia.
  - replace i with (blen (splice (new_header size src dst y) check (raw_bytes16 ck)) + (i - size)) at 1 by lia.
    rewrite ld8_app_r, ld8_drop by lia. f_equal. lia.
Qed.

End SegmentFields.

Lemma segment_ports size check src dst ck y : 4 <= check -> check + 2 <= size -> size <= blen y -> is_u16 src -> is_u16 dst ->
  let seg := new_segment size check src dst ck y in ldn 2 seg 0 = Some src /\ ldn 2 seg 2 = Some dst.
Proof.
  intros Hc4 Hcs Hsz Hsrc Hdst seg. destruct y as [|y0 [|y1 [|y2 [|y3 y']]]]; try (unfold blen in Hsz; cbn in Hsz; lia).
  assert (E : exists c, seg = be_bytes 2 src ++ be_bytes 2 dst ++ c); [|destruct E as [c ->]].
  - subst seg. unfold new_segment, new_header. set (l := slice _ 0 size).
    assert (El : exists l', l = y0 :: y1 :: y2 :: y3 :: l').
    { subst l. unfold slice. change (Z.to_nat 0) with 0%nat. rewrite drop_0. replace (Z.to_nat size) with (4 + (Z.to_nat size - 4))%nat by lia.
      eexists. reflexivity. }
    destruct El as [l' ->].
    change (set_ports src dst (y0 :: y1 :: y2 :: y3 :: l')) with (be_bytes 2 src ++ be_bytes 2 dst ++ l'). unfold splice.
    eexists. replace (Z.to_nat check) with (4 + (Z.to_nat check - 4))%nat by lia.
    change (take (4 + ?n) (be_bytes 2 src ++ be_bytes 2 dst ++ l')) with (be_bytes 2 src ++ be_bytes 2 dst ++ take n l').
    rewrite <- !(assoc_L (++)). reflexivity.
  - split; [apply ldn_be; exact Hsrc|apply (ldn_be_at 2 dst (be_bytes 2 src)); done].
Qed.

(** Echoes. *)
Lemma echo_fields type ck id y : 8 <= blen y -> is_u16 id ->
  let b := echo_header type ck id (slice y 6 2) ++ drop 8 y in
  ld8 b 0 = Some type /\ ldn 2 b 4 = Some id /\ (forall i, 6 <= i -> ld8 b i = ld8 y i) /\ blen b = blen y.
Proof.
  intros H8 Hid b. subst b. destruct y as [|y0 [|y1 [|y2 [|y3 [|y4 [|y5 [|y6 [|y7 y']]]]]]]]; try (unfold blen in H8; cbn in H8; lia).
  change (slice _ 6 2) with [y6; y7]. change (drop 8 _) with y'. unfold echo_header. split_and!.
  - done.
  - apply (ldn_be_at 2 id ([type; 0] ++ raw_bytes16 ck) ([y6; y7] ++ y')); done.
  - intros i Hi. destruct (Z.eq_dec i 6) as [->|]; [done|]. destruct (Z.eq_dec i 7) as [->|]; [done|].
    replace i with (8 + (i - 8)) by lia. change 8 with (blen (([type; 0] ++ raw_bytes16 ck ++ be_bytes 2 id ++ [y6; y7]))) at 1.
    rewrite ld8_app_r by lia. change 8 with (blen [y0; y1; y2; y3; y4; y5; y6; y7]) at 2.
    change (y0 :: y1 :: y2 :: y3 :: y4 :: y5 :: y6 :: y7 :: y') with ([y0; y1; y2; y3; y4; y5; y6; y7] ++ y'). rewrite ld8_app_r by lia. done.
  - unfold blen. cbn. lia.
Qed.
