(* ===== verification/Sent.v ===== *)
(** * Packets sent

    From a validated packet to the packet that leaves: how the translation's
    view of a packet ([XlatPkt]) comes from the reader's and goes back to it
    ([of_rx], [to_rx]), what the new buffers are, what makes a packet the
    translation of another ([sent]), and how the steps of
    [mod/common/rfc6145/core.c] follow each other. *)
From S2P Require Import Prelude Types Address Rfc6052 Pool6 Pool4Table Pool4Db RbTree BibTable BibDb PortAlloc.
From S2P Require Import Packet SessionEntry PktQueue SessionTable Tcp SessionSpec SessionDb Filtering FilteringSpec StaticRoutes Nat64 Guarantees Skb InTuple.
From S2P Require Import Checksum XlatPkt Xlat64 Xlat46 Xlat XlatSpec Wire.

(** The packet [pkt_init_ipv6] and [pkt_init_ipv4] fill in. *)
Definition of_rx (rx : rx_packet) (summed : ip_summed) (csum : option (Z * Z)) (mtu : option Z) : xpkt :=
  let m := lo_meta (rx_layout rx) in
  XPkt (sk_bytes (rx_skb rx)) [] (XPtrs 0 0 (l4_offset m) (payload_offset m) (meta_l4_proto m) false)
    (lo_l3_proto (rx_layout rx)) false (frag_offset m) summed csum (rx_mark rx) mtu.

(** The packet that has been written, as the next node receives it. *)
Definition to_rx (p : xpkt) : rx_packet :=
  RxPacket (SkBuff 0 (x_bytes p) (blen (x_bytes p)) false)
    (Layout (x_l3_proto p) (Meta (x_hdr_frag p) (xl4 p) (xtrans p) (xpayload p))) (x_mark p).

(** The bytes of the environment are bytes. *)
Definition junk_ok (e : xenv) : Prop := is_u8 (config_new_tos e) /\ forall i, is_u8 (xe_junk e i).

Section Rx.
Context (rx : rx_packet) (Hrx : rx_ok rx) (Hlen : blen (sk_bytes (rx_skb rx)) < 2 ^ 31).
Abbreviation b := (sk_bytes (rx_skb rx)).
Abbreviation m := (lo_meta (rx_layout rx)).

Lemma rx_bounds : min_header (lo_l3_proto (rx_layout rx)) <= blen b /\ 0 <= l4_offset m /\ l4_offset m <= payload_offset m /\ payload_offset m <= blen b.
Proof.
  pose proof Hrx as (_ & Hb & Hlay). destruct (lo_l3_proto (rx_layout rx)).
  - destruct Hlay as (H40 & (((_ & Hle & _) & Hl4) & Hp & _) & _). cbn. lia.
  - destruct Hlay as (H20 & ((Eihl & _ & Hle & _) & Hp & _) & _).
    destruct (ip4_hdr_len_some (rx_skb rx) Hb 0) as (x & Ex & Hx); [lia|]. assert (l4_offset m = x) by congruence. cbn. lia.
Qed.

Lemma rx_l4_bounds : 0 <= rx_l4 rx /\ rx_l4 rx <= payload_offset m /\ payload_offset m <= blen b.
Proof. destruct rx_bounds as (_ & ? & ? & ?). done. Qed.

Lemma rx_wf : wf_bytes b.
Proof. apply Hrx. Qed.

Lemma of_rx_geom summed csum mtu : geom (of_rx rx summed csum mtu).
Proof.
  destruct rx_bounds as (_ & H1 & H2 & H3). unfold of_rx. split; cbn [x_ptrs p_net p_data p_trans p_payload x_bytes x_frags]; try lia.
  unfold frags_len. cbn [concat]. change (blen []) with 0. lia.
Qed.

(** Of a packet that has its transport header. *)
Lemma rx_l4_ready : l4_ready b m.
Proof.
  pose proof Hrx as (_ & Hb & Hlay). destruct (lo_l3_proto (rx_layout rx)).
  - destruct Hlay as (H40 & (((_ & _ & Hr & _) & _) & _) & Hf). exact (Hr Hf).
  - destruct Hlay as (H20 & ((_ & _ & _ & Hr) & _) & Hf). destruct (raw16_some b 6) as [f Ef]; [lia..|]. exact (Hr f Ef (Hf f Ef)).
Qed.

End Rx.

(** ** New buffers *)

Section Create.
Context {K : KernelCsum} {T : SiitTables} (e : xenv).

Definition with_al (al : allocs) (s : xstate) : xstate := XState (x_in s) (x_out s) (x_events s) al (x_randoms s).

Definition junk (n : Z) : bytes := map (xe_junk e) (seqZ 0 n).

Lemma junk_length n : 0 <= n -> blen (junk n) = n.
Proof. intros H. unfold junk, blen. rewrite length_map, length_seqZ. lia. Qed.

Lemma junk_wf n : junk_ok e -> wf_bytes (junk n).
Proof. intros Hj. unfold wf_bytes, junk. apply Forall_map, Forall_true. intros i. apply Hj. Qed.

(** The buffer for a packet to IPv4, and to IPv6 with [l3] bytes of
    headers. *)
Definition new_out64 (p : xpkt) (total_len : Z) : xpkt :=
  XPkt (junk total_len) [] (XPtrs 0 0 20 (20 + (xpayload p - xtrans p)) (xl4 p) false) L3PROTO_IPV4 false None
    CHECKSUM_NONE None (x_mark p) None.

Definition new_out46 (p : xpkt) (l3 total_len : Z) (frag : option Z) : xpkt :=
  XPkt (junk total_len) [] (XPtrs 0 0 l3 (l3 + (xpayload p - xtrans p)) (xl4 p) false) L3PROTO_IPV6 false frag
    CHECKSUM_NONE None (x_mark p) None.

(** The packet is not an ICMP error. *)
Definition plain6 (p : xpkt) : Prop :=
  xl4 p = L4PROTO_ICMP -> exists type, ld8 (x_bytes p) (xtrans p) = Some type /\ is_icmp6_error type = false.
Definition plain4 (p : xpkt) : Prop :=
  xl4 p = L4PROTO_ICMP -> exists type, ld8 (x_bytes p) (xtrans p) = Some type /\ is_icmp4_error type = false.

Lemma plain6_run p s : plain6 p -> xpkt_is_icmp6_error p s = Some (false, s).
Proof.
  intros H. unfold xpkt_is_icmp6_error, xpkt_icmp_type. case_bool_decide as E; [|done]. destruct (H E) as (ty & Et & En).
  rewrite (load_bind' _ _ _ _ Et), En. done.
Qed.

Lemma plain4_run p s : plain4 p -> xpkt_is_icmp4_error p s = Some (false, s).
Proof.
  intros H. unfold xpkt_is_icmp4_error, xpkt_icmp_type. case_bool_decide as E; [|done]. destruct (H E) as (ty & Et & En).
  rewrite (load_bind' _ _ _ _ Et), En. done.
Qed.

Lemma create64_run s p :
  p = x_in s -> geom p -> plain6 p -> blen (x_bytes p) + 20 < 2 ^ 31 ->
  (forall o, x_hdr_frag p = Some o -> is_Some (raw16 (x_bytes p) (o + 2))) ->
  ttp64_create_skb e s =
    if (kmalloc (x_allocs s)).1
    then Some (VERDICT_CONTINUE, wro (new_out64 p (20 + (blen (x_bytes p) - xtrans p))) (with_al (kmalloc (x_allocs s)).2 s))
    else Some (VERDICT_DROP, XState p (x_out s) (XStat IPSTATS_MIB_INDISCARDS :: x_events s) (kmalloc (x_allocs s)).2 (x_randoms s)).
Proof.
  intros -> Gp Hpl Hlen Hfrag. set (p := x_in s) in *. pose proof Gp as [? ? ? ? ? ?].
  assert (Hf : exists f, frag_hdr_off s = Some (f, s)).
  { unfold frag_hdr_off. rewrite gets_bind. fold p. destruct (x_hdr_frag p) as [o|]; [|exists None; done].
    destruct (Hfrag o eq_refl) as [f Ef]. exists (Some f). erewrite ld_in_bind by exact Ef. done. }
  destruct Hf as [f Hf]. unfold ttp64_create_skb. rewrite (bind_run _ _ _ _ _ Hf), gets_bind. fold p.
  assert (Herr : (if is_first_frag6 f then xpkt_is_icmp6_error p else mret false) s = Some (false, s)).
  { destruct (is_first_frag6 f); [apply plain6_run, Hpl|done]. }
  rewrite (bind_run _ _ _ _ _ Herr), ret_bind, l3payload_len_eq, u32_small by (done || lia).
  unfold alloc_skb, mbind, M_bind. destruct (kmalloc (x_allocs s)) as [ok al] eqn:Ek. cbn [fst snd]. destruct ok; [|done].
  unfold upd_out, modify. rewrite l4hdr_len_eq by done. done.
Qed.

Lemma create46_run s p fo :
  p = x_in s -> geom p -> plain4 p -> blen (x_bytes p) + 48 < 2 ^ 31 -> raw16 (x_bytes p) (xnet p + 6) = Some fo ->
  let l3 := 40 + (if will_need_frag_hdr e fo then 8 else 0) in
  ttp46_create_skb e s =
    if (kmalloc (x_allocs s)).1
    then Some (VERDICT_CONTINUE, wro (new_out46 p l3 (l3 + (blen (x_bytes p) - xtrans p)) (if will_need_frag_hdr e fo then Some 40 else None))
           (with_al (kmalloc (x_allocs s)).2 s))
    else Some (VERDICT_DROP, XState p (x_out s) (XStat IPSTATS_MIB_INDISCARDS :: x_events s) (kmalloc (x_allocs s)).2 (x_randoms s)).
Proof.
  intros -> Gp Hpl Hlen Hfo l3. set (p := x_in s) in *. pose proof Gp as [? ? ? ? ? ?].
  unfold ttp46_create_skb. rewrite gets_bind. fold p. erewrite ld_in_bind by exact Hfo. fold l3.
  assert (Herr : (if is_first_frag4 fo then xpkt_is_icmp4_error p else mret false) s = Some (false, s)).
  { destruct (is_first_frag4 fo); [apply plain4_run, Hpl|done]. }
  rewrite (bind_run _ _ _ _ _ Herr), ret_bind, l3payload_len_eq, s32_small by (done || subst l3; destruct (will_need_frag_hdr e fo); lia).
  unfold alloc_skb, mbind, M_bind. destruct (kmalloc (x_allocs s)) as [ok al] eqn:Ek. cbn [fst snd]. destruct ok; [|done].
  unfold upd_out, modify. rewrite l4hdr_len_eq by done. done.
Qed.

End Create.

(** ** What is sent *)

(** The sum the transport checksum makes zero. *)
Definition checked_sum (rx : rx_packet) : Z :=
  let b := sk_bytes (rx_skb rx) in
  let len := blen b - rx_l4 rx in
  raw_sum (drop (Z.to_nat (rx_l4 rx)) b) +
  match lo_l3_proto (rx_layout rx), rx_l4_proto rx with
  | L3PROTO_IPV6, l4 => raw_sum (pseudo6 (slice b 8 16) (slice b 24 16) len (nexthdr_of l4))
  | L3PROTO_IPV4, L4PROTO_ICMP => 0
  | L3PROTO_IPV4, l4 => raw_sum (pseudo4 (slice b 12 4) (slice b 16 4) len (protocol_of l4))
  end.

Definition hop_limit_of (rx : rx_packet) : option Z :=
  match lo_l3_proto (rx_layout rx) with
  | L3PROTO_IPV6 => ld8 (sk_bytes (rx_skb rx)) 7
  | L3PROTO_IPV4 => ld8 (sk_bytes (rx_skb rx)) 8
  end.

(** The length field of the network header. *)
Definition length_field (rx : rx_packet) : option Z :=
  match lo_l3_proto (rx_layout rx) with
  | L3PROTO_IPV6 => l ← ldn 2 (sk_bytes (rx_skb rx)) 4; Some (40 + l)
  | L3PROTO_IPV4 => ldn 2 (sk_bytes (rx_skb rx)) 2
  end.

(** The bytes of a segment that are neither ports (the identifier of an echo),
    nor the type of an ICMP message, nor its checksum. *)
Definition is_kept (l4 : l4_protocol) (i : Z) : Prop :=
  match l4 with
  | L4PROTO_TCP => 4 <= i /\ i <> 16 /\ i <> 17
  | L4PROTO_UDP => 4 <= i /\ i <> 6 /\ i <> 7
  | _ => 6 <= i
  end.

(** An echo request, or a reply. *)
Definition echo_code (l3 : l3_protocol) (type : Z) : option bool :=
  match l3 with
  | L3PROTO_IPV6 => if type =? ICMPV6_ECHO_REQUEST then Some true else if type =? ICMPV6_ECHO_REPLY then Some false else None
  | L3PROTO_IPV4 => if type =? ICMP_ECHO then Some true else if type =? ICMP_ECHOREPLY then Some false else None
  end.

Definition echo_type (rx : rx_packet) : option bool :=
  type ← ld8 (sk_bytes (rx_skb rx)) (rx_l4 rx); echo_code (lo_l3_proto (rx_layout rx)) type.

(** UDP over IPv4 may come without a checksum. *)
Definition no_checksum (rx : rx_packet) : bool :=
  bool_decide (lo_l3_proto (rx_layout rx) = L3PROTO_IPV4 /\ rx_l4_proto rx = L4PROTO_UDP /\
    raw16 (sk_bytes (rx_skb rx)) (rx_l4 rx + 6) = Some 0).

(** The length written in the header.  The code limits an ICMP error to the
    size every node takes, but it asks whether the packet is an ICMP error
    before the ICMP header is written: what tells is the byte the buffer held
    there.  So the header of an echo longer than that limit may say less than its
    length. *)
Definition max_error (l3 : l3_protocol) : Z := match l3 with L3PROTO_IPV6 => 1280 | L3PROTO_IPV4 => 576 end.

Definition told (e : xenv) (l3 : l3_protocol) (l4 : l4_protocol) (new_l4 len : Z) : Z :=
  if bool_decide (l4 = L4PROTO_ICMP) && is_error_type l3 (xe_junk e new_l4) && (max_error l3 <? len) then max_error l3 else len.

Lemma told_right e l3 l4 new_l4 len :
  l4 <> L4PROTO_ICMP \/ len <= max_error l3 \/ is_error_type l3 (xe_junk e new_l4) = false -> told e l3 l4 new_l4 len = len.
Proof.
  intros H. unfold told. case_bool_decide; cbn [andb]; [|done]. destruct (is_error_type l3 _) eqn:E; cbn [andb]; [|done].
  destruct (Z.ltb_spec (max_error l3) len); [|done]. destruct H as [?|[?|?]]; [done|lia|done].
Qed.

Lemma told_range e l3 l4 new_l4 len : Z.min len (max_error l3) <= told e l3 l4 new_l4 len <= len.
Proof. unfold told. destruct (_ && _ && _) eqn:E; [|lia]. apply andb_true_iff in E as [_ E]. lia. Qed.

(** [rx'] is [rx] translated for the tuple [tup]. *)
Record sent (e : xenv) (summed : ip_summed) (rx rx' : rx_packet) (tup : tuple) : Prop := {
  sent_ok : rx_ok rx';
  sent_l3 : lo_l3_proto (rx_layout rx') = l3_proto tup;
  sent_l4 : rx_l4_proto rx' = rx_l4_proto rx;
  sent_mark : rx_mark rx' = rx_mark rx;
  sent_tuple c s : determine_in_tuple c rx' s = Some ((VERDICT_CONTINUE, Some tup), s);
  sent_length : length_field rx' = Some (told e (l3_proto tup) (rx_l4_proto rx) (rx_l4 rx') (blen (sk_bytes (rx_skb rx'))));
  sent_hop hop : hop_limit_of rx = Some hop -> hop_limit_of rx' = Some (hop - 1);
  sent_header : l3_proto tup = L3PROTO_IPV4 -> raw_sum (take 20 (sk_bytes (rx_skb rx'))) ≡c 0;
  sent_plain : l3_proto tup = L3PROTO_IPV4 -> ld8 (sk_bytes (rx_skb rx')) 0 = Some 0x45;
  sent_payload : payload_offset (lo_meta (rx_layout rx')) - rx_l4 rx' = payload_offset (lo_meta (rx_layout rx)) - rx_l4 rx;
  sent_segment : blen (sk_bytes (rx_skb rx')) - rx_l4 rx' = blen (sk_bytes (rx_skb rx)) - rx_l4 rx;
  sent_kept i : is_kept (rx_l4_proto rx) i ->
    ld8 (sk_bytes (rx_skb rx')) (rx_l4 rx' + i) = ld8 (sk_bytes (rx_skb rx)) (rx_l4 rx + i);
  sent_echo : rx_l4_proto rx = L4PROTO_ICMP -> echo_type rx' = echo_type rx;
  sent_sum : no_checksum rx = false -> summed <> CHECKSUM_PARTIAL -> checked_sum rx' ≡c checked_sum rx;
  sent_amended : no_checksum rx = true -> checked_sum rx' ≡c 0
}.

(** The header of a long echo may be wrong. *)
Lemma long_echo_length e summed rx rx' tup :
  sent e summed rx rx' tup -> rx_l4_proto rx = L4PROTO_ICMP -> is_error_type (l3_proto tup) (xe_junk e (rx_l4 rx')) = true ->
  max_error (l3_proto tup) < blen (sk_bytes (rx_skb rx')) ->
  length_field rx' = Some (max_error (l3_proto tup)).
Proof.
  intros Hs Ei Ee Hl. rewrite (sent_length _ _ _ _ _ Hs). unfold told. rewrite bool_decide_eq_true_2, Ee by done. cbn [andb].
  destruct (Z.ltb_spec (max_error (l3_proto tup)) (blen (sk_bytes (rx_skb rx')))); [done|lia].
Qed.

(** The packet written is in one piece, as a packet received is. *)
Definition received (p : xpkt) : Prop := p = of_rx (to_rx p) (x_summed p) (x_csum p) (x_dev_mtu p).

(** The ICMP error the header of a packet that is not an ICMP error deserves,
    and its additional field: the hop limit is over, or a routing header
    still has segments left, or a source route is not exhausted. *)
Definition refusal (rx : rx_packet) : option (option (icmp_error_code * Z)) :=
  let b := sk_bytes (rx_skb rx) in
  hop ← hop_limit_of rx;
  if hop <=? 1 then Some (Some (ICMPERR_HOP_LIMIT, 0))
  else match lo_l3_proto (rx_layout rx) with
  | L3PROTO_IPV6 => segments ← has_nonzero_segments_left b 0; Some (option_map (pair ICMPERR_HDR_FIELD) segments)
  | L3PROTO_IPV4 => route ← has_unexpired_src_route b 0; Some (if route : bool then Some (ICMPERR_SRC_ROUTE, 0) else None)
  end.

(** What the translation takes: a packet that is not an ICMP error, with a
    tuple of the other protocol, whose TCP header is complete and whose new
    length fits its field. *)
Record translatable (rx : rx_packet) (tup : tuple) (new_l4 : Z) : Prop := {
  tr_ok : rx_ok rx;
  tr_l3 : l3_proto tup <> lo_l3_proto (rx_layout rx);
  tr_l4 : l4_proto tup = rx_l4_proto rx;
  tr_known : l4_proto tup <> L4PROTO_OTHER;
  tr_wf : wf_tuple tup;
  tr_tcp : rx_l4_proto rx = L4PROTO_TCP -> rx_l4 rx + 20 <= payload_offset (lo_meta (rx_layout rx));
  tr_echo : rx_l4_proto rx = L4PROTO_ICMP -> is_Some (echo_type rx);
  tr_size : blen (sk_bytes (rx_skb rx)) + 48 < 2 ^ 31;
  tr_len : new_l4 + (blen (sk_bytes (rx_skb rx)) - rx_l4 rx) < 2 ^ 16
}.

Lemma ldn_slice n b i x : slice b i (Z.of_nat n) = be_bytes n x -> 0 <= i -> 0 <= x < 2 ^ (8 * Z.of_nat n) -> ldn n b i = Some x.
Proof.
  intros E Hi Hx. replace i with (i + 0) by lia. rewrite <- (ldn_view n b i (Z.of_nat n) 0) by lia.
  fold (slice b i (Z.of_nat n)). rewrite E, <- (app_nil_r (be_bytes n x)). apply ldn_be, Hx.
Qed.

(** The segment [y], translated. *)
Record new_seg (l4 : l4_protocol) (sport dport : Z) (y seg : bytes) : Prop := {
  ns_wf : wf_bytes seg;
  ns_len : blen seg = blen y;
  ns_ports : match l4 with
    | L4PROTO_ICMP => ldn 2 seg 4 = Some sport
    | _ => ldn 2 seg 0 = Some sport /\ ldn 2 seg 2 = Some dport
    end;
  ns_kept i : is_kept l4 i -> ld8 seg i = ld8 y i
}.

(** ** Readers *)

(** A packet in a linear buffer. *)
Abbreviation rx_of l3 B frag l4 l4off payload mk := (RxPacket (SkBuff 0 B (blen B) false) (Layout l3 (Meta frag l4 l4off payload)) mk).

Lemma rx_of_bytes l3 B frag l4 l4off payload mk : rx_bytes (rx_of l3 B frag l4 l4off payload mk) = B.
Proof. unfold rx_bytes, sk_head. cbn [rx_skb sk_headlen sk_bytes]. apply take_ge. unfold blen. rewrite Nat2Z.id. done. Qed.

(** The ports, or the identifier of an echo, at [o]. *)
Definition ports_at (l3 : l3_protocol) (l4 : l4_protocol) (B : bytes) (o sport dport : Z) : Prop :=
  match l4 with
  | L4PROTO_OTHER => False
  | L4PROTO_ICMP => (exists t, ld8 B o = Some t /\ is_error_type l3 t = false /\
      match l3 with L3PROTO_IPV4 => is_icmp4_info t | L3PROTO_IPV6 => is_icmp6_info t end = true) /\
      ldn 2 B (o + 4) = Some sport /\ dport = sport
  | _ => ldn 2 B o = Some sport /\ ldn 2 B (o + 2) = Some dport
  end.

(** The transport header has its length. *)
Definition header_fits (l4 : l4_protocol) (o payload len : Z) : Prop :=
  match l4 with L4PROTO_TCP => o + 20 <= payload | _ => payload = o + 8 end /\ payload <= len.

Lemma read4_tuple B frag l4 o payload mk src dst c s :
  ldn 4 B 12 = Some (s_addr (l3_4 src)) -> ldn 4 B 16 = Some (s_addr (l3_4 dst)) ->
  ports_at L3PROTO_IPV4 l4 B o (l4_4 src) (l4_4 dst) ->
  determine_in_tuple c (rx_of L3PROTO_IPV4 B frag l4 o payload mk) s = Some ((VERDICT_CONTINUE, Some (Tuple4 src dst l4)), s).
Proof.
  intros Es Ed Hp. destruct src as [[sa] sp], dst as [[da] dp]. cbn [l3_4 s_addr l4_4] in *.
  assert (Hports : forall pr, ldn 2 B o = Some sp /\ ldn 2 B (o + 2) = Some dp -> ipv4_ports pr (rx_of L3PROTO_IPV4 B frag l4 o payload mk) s =
    Some ((VERDICT_CONTINUE, Some (Tuple4 (TAddr4 (InAddr sa) sp) (TAddr4 (InAddr da) dp) pr)), s)).
  { intros pr [P1 P2]. unfold ipv4_ports. rewrite rx_of_bytes.
    rewrite (load_bind _ _ _ _ Es), (load_bind _ _ _ _ P1), (load_bind _ _ _ _ Ed), (load_bind _ _ _ _ P2). done. }
  unfold determine_in_tuple, rx_l4_proto. cbn [rx_layout lo_l3_proto lo_meta meta_l4_proto]. destruct l4; [apply Hports; done..| |done].
  destruct Hp as ((t & Et & _ & Hinfo) & Pid & ->). unfold ipv4_icmp. rewrite rx_of_bytes. rewrite (load_bind _ _ _ _ Et), Hinfo.
  unfold ipv4_icmp_info. rewrite rx_of_bytes. rewrite (load_bind _ _ _ _ Es), (load_bind _ _ _ _ Pid), (load_bind _ _ _ _ Ed). done.
Qed.

Lemma read6_tuple B frag l4 o payload mk src dst c s :
  ldn 16 B 8 = Some (s6_addr (l3_6 src)) -> ldn 16 B 24 = Some (s6_addr (l3_6 dst)) ->
  ports_at L3PROTO_IPV6 l4 B o (l4_6 src) (l4_6 dst) ->
  determine_in_tuple c (rx_of L3PROTO_IPV6 B frag l4 o payload mk) s = Some ((VERDICT_CONTINUE, Some (Tuple6 src dst l4)), s).
Proof.
  intros Es Ed Hp. destruct src as [[sa] sp], dst as [[da] dp]. cbn [l3_6 s6_addr l4_6] in *.
  assert (Hports : forall pr, ldn 2 B o = Some sp /\ ldn 2 B (o + 2) = Some dp -> ipv6_ports pr (rx_of L3PROTO_IPV6 B frag l4 o payload mk) s =
    Some ((VERDICT_CONTINUE, Some (Tuple6 (TAddr6 (In6Addr sa) sp) (TAddr6 (In6Addr da) dp) pr)), s)).
  { intros pr [P1 P2]. unfold ipv6_ports. rewrite rx_of_bytes.
    rewrite (load_bind _ _ _ _ Es), (load_bind _ _ _ _ P1), (load_bind _ _ _ _ Ed), (load_bind _ _ _ _ P2). done. }
  unfold determine_in_tuple, rx_l4_proto. cbn [rx_layout lo_l3_proto lo_meta meta_l4_proto]. destruct l4; [apply Hports; done..| |done].
  destruct Hp as ((t & Et & _ & Hinfo) & Pid & ->). unfold ipv6_icmp. rewrite rx_of_bytes. rewrite (load_bind _ _ _ _ Et), Hinfo.
  unfold ipv6_icmp_info. rewrite rx_of_bytes. rewrite (load_bind _ _ _ _ Pid), (load_bind _ _ _ _ Es), (load_bind _ _ _ _ Ed). done.
Qed.

Lemma read4_ok B l4 payload mk fo sport dport :
  wf_bytes B -> 20 <= blen B -> ld8 B 0 = Some 0x45 -> ld8 B 9 = Some (protocol_of l4) -> raw16 B 6 = Some fo -> is_first_frag4 fo = true ->
  header_fits l4 20 payload (blen B) -> ports_at L3PROTO_IPV4 l4 B 20 sport dport ->
  rx_ok (rx_of L3PROTO_IPV4 B None l4 20 payload mk).
Proof.
  intros Wb H20 F0 F9 F6 Hff [Hh Hp] Hports. split; [done|]. split; [exact Wb|]. cbn [rx_layout lo_l3_proto rx_skb sk_bytes lo_meta].
  split; [exact H20|]. split; [|rewrite F6; intros f [= <-]; exact Hff].
  unfold layout_ok4, parsed4. cbn [sk_bytes l4_offset payload_offset meta_l4_proto frag_offset]. split_and!.
  - unfold ip4_hdr_len. rewrite F0. done.
  - exists (protocol_of l4). split; [exact F9|]. destruct l4; done.
  - destruct l4; lia.
  - intros _ _ _. unfold l4_ready. cbn [meta_l4_proto l4_offset payload_offset]. destruct l4; lia.
  - exact Hp.
  - intros ->. destruct Hports as ((t & Et & En & _) & _). exists t. cbn in En. split; [exact Et|]. split; [lia|]. congruence.
Qed.

Lemma read6_ok B l4 frag o payload mk sport dport :
  wf_bytes B -> 40 <= o -> o <= blen B ->
  (it ← HDR_ITERATOR_INIT B 0; hdr_iterator_last_loop (S (length B)) B it) = Some (HdrIterator (nexthdr_of l4) o) ->
  first_frag6 B frag = true -> frag_room frag o -> header_fits l4 o payload (blen B) -> ports_at L3PROTO_IPV6 l4 B o sport dport ->
  rx_ok (rx_of L3PROTO_IPV6 B frag l4 o payload mk).
Proof.
  intros Wb H40 Ho Hlast Hff Hroom [Hh Hp] Hports. split; [done|]. split; [exact Wb|]. cbn [rx_layout lo_l3_proto rx_skb sk_bytes lo_meta].
  split; [lia|]. split; [|exact Hff].
  unfold layout_ok6, parsed6, meta_ok6. cbn [sk_bytes l4_offset payload_offset meta_l4_proto frag_offset]. split_and!; try done.
  - exists (nexthdr_of l4). split; [exact Hlast|]. destruct l4; done.
  - destruct l4; lia.
  - intros _. unfold l4_ready. cbn [meta_l4_proto l4_offset payload_offset]. destruct l4; lia.
  - intros ->. destruct Hports as ((t & Et & En & _) & _). exists t. cbn in En. split; [exact Et|]. split; [lia|]. congruence.
Qed.

Section Sent.
Context (e : xenv) (rx : rx_packet) (summed : ip_summed).
Abbreviation b := (sk_bytes (rx_skb rx)).
Abbreviation m := (lo_meta (rx_layout rx)).
Abbreviation y := (drop (Z.to_nat (rx_l4 rx)) (sk_bytes (rx_skb rx))).
Abbreviation h := (payload_offset (lo_meta (rx_layout rx)) - rx_l4 rx).

Lemma y_length : rx_ok rx -> blen y = blen b - rx_l4 rx.
Proof. intros H. destruct (rx_bounds rx H) as (_ & H1 & H2 & H3). unfold rx_l4 in *. unfold blen in *. rewrite length_drop. lia. Qed.

Lemma y_wf : rx_ok rx -> wf_bytes y.
Proof. intros H. apply wf_drop, rx_wf, H. Qed.

(** The headers of the transport protocols, in a translatable packet. *)
Lemma tr_header tup n : translatable rx tup n ->
  match rx_l4_proto rx with L4PROTO_TCP => 20 <= h | _ => h = 8 end /\ h <= blen y.
Proof.
  intros Ht. pose proof (tr_ok _ _ _ Ht) as Hrx. pose proof (rx_l4_ready rx Hrx) as Hr. rewrite y_length by done.
  destruct (rx_bounds rx Hrx) as (_ & H1 & H2 & H3). unfold l4_ready in Hr. unfold rx_l4_proto, rx_l4 in *.
  pose proof (tr_tcp _ _ _ Ht) as Htcp. pose proof (tr_known _ _ _ Ht) as Hk. rewrite (tr_l4 _ _ _ Ht) in Hk.
  unfold rx_l4_proto, rx_l4 in *. destruct (meta_l4_proto m); try (specialize (Htcp eq_refl)); try done; lia.
Qed.

Lemma echo_code4 rx' t : lo_l3_proto (rx_layout rx') = L3PROTO_IPV4 -> ld8 (sk_bytes (rx_skb rx')) (rx_l4 rx') = Some t ->
  is_Some (echo_type rx') -> is_icmp4_error t = false /\ is_icmp4_info t = true.
Proof.
  intros E3 Et [x Hx]. unfold echo_type, echo_code in Hx. rewrite Et, E3 in Hx. cbn [mbind option_bind] in Hx.
  destruct (Z.eqb_spec t ICMP_ECHO) as [E|]; [rewrite E; done|]. destruct (Z.eqb_spec t ICMP_ECHOREPLY) as [E|]; [rewrite E; done|done].
Qed.

Context {K : KernelCsum} {L : KernelCsumLaws K}.

(** A segment's ports, after the header. *)
Lemma seg_ports l3 l4 hdr seg sport dport : new_seg l4 sport dport y seg -> l4 <> L4PROTO_OTHER ->
  (l4 = L4PROTO_ICMP -> dport = sport) ->
  (l4 = L4PROTO_ICMP -> exists t, ld8 seg 0 = Some t /\ is_error_type l3 t = false /\
      match l3 with L3PROTO_IPV4 => is_icmp4_info t | L3PROTO_IPV6 => is_icmp6_info t end = true) ->
  ports_at l3 l4 (hdr ++ seg) (blen hdr) sport dport.
Proof.
  intros [_ _ P _] Hk Hid Hty. unfold ports_at.
  assert (E0 : forall n, ldn n (hdr ++ seg) (blen hdr) = ldn n seg 0).
  { intros n. replace (blen hdr) with (blen hdr + 0) by lia. rewrite ldn_app_r by lia. done. }
  destruct l4; try done; rewrite ?E0, ldn_app_r by lia; try exact P.
  destruct (Hty eq_refl) as (t & Et & Hn). split; [exists t; split; [|exact Hn]|split; [exact P|exact (Hid eq_refl)]].
  replace (blen hdr) with (blen hdr + 0) by lia. rewrite ld8_app_r by lia. exact Et.
Qed.

Lemma sent4 tup src dst pr tos tot id fo ttl seg hairpin sm cs :
  translatable rx tup 20 -> lo_l3_proto (rx_layout rx) = L3PROTO_IPV6 -> tup = Tuple4 src dst pr ->
  is_u8 tos -> tot = told e L3PROTO_IPV4 (rx_l4_proto rx) 20 (20 + blen y) -> is_u16 fo -> is_first_frag4 fo = true -> is_u8 ttl -> hop_limit_of rx = Some (ttl + 1) ->
  let bs := be_bytes 4 (s_addr (l3_4 src)) in let bd := be_bytes 4 (s_addr (l3_4 dst)) in
  let out := XPkt (ip4_header tos tot id fo ttl (protocol_of (rx_l4_proto rx)) bs bd ++ seg) []
    (XPtrs 0 0 20 (20 + h) (rx_l4_proto rx) false) L3PROTO_IPV4 hairpin None sm cs (rx_mark rx) None in
  new_seg (rx_l4_proto rx) (l4_4 src) (l4_4 dst) y seg ->
  (rx_l4_proto rx = L4PROTO_ICMP -> echo_type (to_rx out) = echo_type rx) ->
  (summed <> CHECKSUM_PARTIAL ->
   raw_sum seg + match rx_l4_proto rx with L4PROTO_ICMP => 0 | l4 => raw_sum (pseudo4 bs bd (blen y) (protocol_of l4)) end ≡c checked_sum rx) ->
  sent e summed rx (to_rx out) tup.
Proof.
  intros Ht H6 Et Wtos Etot Wfo Hff Wttl Hhop bs bd out Hseg Hecho Hsum.
  pose proof (tr_ok _ _ _ Ht) as Hrx. pose proof (tr_l4 _ _ _ Ht) as Hl4. pose proof (tr_wf _ _ _ Ht) as Wt.
  pose proof (tr_known _ _ _ Ht) as Hk.
  destruct (tr_header _ _ Ht) as [Hh Hhy]. pose proof (tr_len _ _ _ Ht) as Htot. rewrite <- y_length in Htot by done.
  pose proof (ns_len _ _ _ _ _ Hseg) as Lseg. pose proof (ns_wf _ _ _ _ _ Hseg) as Wseg.
  subst tup. cbn [l4_proto l3_proto] in *. destruct Wt as ([Ws Wsp] & [Wd Wdp] & Hid). pose proof (blen_nonneg y) as Hy0.
  subst out. set (hdr := ip4_header tos tot id fo ttl (protocol_of (rx_l4_proto rx)) bs bd) in *.
  assert (Lh : length hdr = 20%nat) by (apply ip4_header_length; apply be_bytes_length).
  assert (Lh' : blen hdr = 20) by (unfold blen; rewrite Lh; done).
  assert (Lb : blen (hdr ++ seg) = 20 + blen y) by (rewrite blen_app; lia).
  pose proof (told_range e L3PROTO_IPV4 (rx_l4_proto rx) 20 (20 + blen y)) as Hrange. rewrite <- Etot in Hrange.
  destruct (ip4_fields tos tot id fo ttl (protocol_of (rx_l4_proto rx)) bs bd seg (hdr ++ seg)) as (F0 & F2 & F6 & F8 & F9 & Fs & Fd);
    [apply be_bytes_length..|unfold is_u16; cbn [max_error] in Hrange; lia|exact Wfo|done|].
  assert (Wp : is_u8 (protocol_of (rx_l4_proto rx))) by (destruct (rx_l4_proto rx); done).
  assert (Wh : wf_bytes hdr) by (apply ip4_header_wf; try done; apply be_bytes_wf).
  set (out := XPkt (hdr ++ seg) _ _ _ _ _ _ _ _ _) in *. assert (Hp : ports_at L3PROTO_IPV4 (rx_l4_proto rx) (hdr ++ seg) 20 (l4_4 src) (l4_4 dst)).
  { rewrite <- Lh'. apply seg_ports; [exact Hseg|congruence|intros Ei; symmetry; apply Hid; congruence|]. intros Ei. rewrite Ei in Hh.
    destruct (ld8_some seg 0) as [t Eqt]; [lia|]. exists t. split; [exact Eqt|].
    apply (echo_code4 (to_rx out) t); [done| |rewrite Hecho by exact Ei; apply (tr_echo _ _ _ Ht Ei)].
    change (ld8 (hdr ++ seg) 20 = Some t). rewrite <- Lh'. replace (blen hdr) with (blen hdr + 0) by lia. rewrite ld8_app_r by lia. exact Eqt. }
  split; try done.
  - apply (read4_ok (hdr ++ seg) (rx_l4_proto rx) (20 + h) (rx_mark rx) fo (l4_4 src) (l4_4 dst)); try done; try lia.
    + apply wf_bytes_app; done.
    + split; [destruct (rx_l4_proto rx); lia|lia].
  - intros c s. rewrite Hl4. apply read4_tuple; [apply ldn_slice; [exact Fs|lia|exact Ws]|apply ldn_slice; [exact Fd|lia|exact Wd]|exact Hp].
  - change (ldn 2 (hdr ++ seg) 2 = Some (told e L3PROTO_IPV4 (rx_l4_proto rx) 20 (blen (hdr ++ seg)))). rewrite F2, Lb, Etot. done.
  - intros hop Eh. rewrite Hhop in Eh. injection Eh as <-. change (ld8 (hdr ++ seg) 8 = Some (ttl + 1 - 1)). rewrite F8. f_equal. lia.
  - intros _. change (raw_sum (take 20 (hdr ++ seg)) ≡c 0). rewrite <- Lh, take_app_length. apply ip4_header_sum; try done; apply be_bytes_wf || apply be_bytes_length.
  - change (20 + h - 20 = h). lia.
  - change (blen (hdr ++ seg) - 20 = blen b - rx_l4 rx). rewrite <- y_length by done. lia.
  - intros i Hi. change (ld8 (hdr ++ seg) (20 + i) = ld8 b (rx_l4 rx + i)). assert (0 <= i) by (unfold is_kept in Hi; destruct (rx_l4_proto rx); lia).
    rewrite <- Lh', ld8_app_r, (ns_kept _ _ _ _ _ Hseg) by done. apply ld8_drop; [|done]. apply (rx_bounds rx Hrx).
  - intros _ Hpt. specialize (Hsum Hpt). rewrite <- Hsum. unfold checked_sum. cbn [to_rx out rx_layout lo_l3_proto x_l3_proto rx_skb sk_bytes x_bytes].
    change (rx_l4_proto (to_rx out)) with (rx_l4_proto rx). change (rx_l4 (to_rx out)) with 20. change (Z.to_nat 20) with 20%nat.
    rewrite <- Lh at 1. rewrite drop_app_length, Fs, Fd, Lb. replace (20 + blen y - 20) with (blen y) by lia. destruct (rx_l4_proto rx); done.
  - unfold no_checksum. rewrite H6. intros Hn. apply bool_decide_eq_true_1 in Hn as [Hn _]. done.
Qed.

Lemma echo_code6 rx' t : lo_l3_proto (rx_layout rx') = L3PROTO_IPV6 -> ld8 (sk_bytes (rx_skb rx')) (rx_l4 rx') = Some t ->
  is_Some (echo_type rx') -> is_icmp6_error t = false /\ is_icmp6_info t = true.
Proof.
  intros E3 Et [x Hx]. unfold echo_type, echo_code in Hx. rewrite Et, E3 in Hx. cbn [mbind option_bind] in Hx.
  destruct (Z.eqb_spec t ICMPV6_ECHO_REQUEST) as [E|]; [rewrite E; done|]. destruct (Z.eqb_spec t ICMPV6_ECHO_REPLY) as [E|]; [rewrite E; done|done].
Qed.

Lemma sent6 tup src dst pr tclass plen id fo hop seg hairpin sm cs :
  let l3 := Z.of_nat (l3_len46 e fo) in
  translatable rx tup l3 -> lo_l3_proto (rx_layout rx) = L3PROTO_IPV4 -> tup = Tuple6 src dst pr ->
  is_u8 tclass -> plen = told e L3PROTO_IPV6 (rx_l4_proto rx) l3 (l3 + blen y) - 40 -> is_first_frag4 fo = true -> is_u8 hop -> hop_limit_of rx = Some (hop + 1) ->
  let bs := be_bytes 16 (s6_addr (l3_6 src)) in let bd := be_bytes 16 (s6_addr (l3_6 dst)) in
  let out := XPkt (headers46 e tclass plen (protocol_of (rx_l4_proto rx)) hop fo id bs bd ++ seg) []
    (XPtrs 0 0 l3 (l3 + h) (rx_l4_proto rx) false) L3PROTO_IPV6 hairpin (if will_need_frag_hdr e fo then Some 40 else None) sm cs (rx_mark rx) None in
  new_seg (rx_l4_proto rx) (l4_6 src) (l4_6 dst) y seg ->
  (rx_l4_proto rx = L4PROTO_ICMP -> echo_type (to_rx out) = echo_type rx) ->
  (no_checksum rx = false -> summed <> CHECKSUM_PARTIAL ->
   raw_sum seg + raw_sum (pseudo6 bs bd (blen y) (nexthdr_of (rx_l4_proto rx))) ≡c checked_sum rx) ->
  (no_checksum rx = true -> raw_sum seg + raw_sum (pseudo6 bs bd (blen y) (nexthdr_of (rx_l4_proto rx))) ≡c 0) ->
  sent e summed rx (to_rx out) tup.
Proof.
  intros l3 Ht H6 Et Wtc Eplen Hff Whop Hhop bs bd out Hseg Hecho Hsum Hzero.
  pose proof (tr_ok _ _ _ Ht) as Hrx. pose proof (tr_l4 _ _ _ Ht) as Hl4. pose proof (tr_wf _ _ _ Ht) as Wt.
  pose proof (tr_known _ _ _ Ht) as Hk.
  destruct (tr_header _ _ Ht) as [Hh Hhy]. pose proof (tr_len _ _ _ Ht) as Htot. rewrite <- y_length in Htot by done.
  pose proof (ns_len _ _ _ _ _ Hseg) as Lseg. pose proof (ns_wf _ _ _ _ _ Hseg) as Wseg.
  subst tup. cbn [l4_proto l3_proto] in *. destruct Wt as ([Ws Wsp] & [Wd Wdp] & Hid). pose proof (blen_nonneg y) as Hy0.
  subst out. set (hdr := headers46 e tclass plen (protocol_of (rx_l4_proto rx)) hop fo id bs bd) in *.
  assert (Lh : length hdr = l3_len46 e fo) by (apply headers46_length; apply be_bytes_length).
  assert (Lh' : blen hdr = l3) by (unfold blen; rewrite Lh; done).
  assert (H40 : 40 <= l3) by (subst l3; unfold l3_len46; destruct (will_need_frag_hdr e fo); lia).
  assert (Lb : blen (hdr ++ seg) = l3 + blen y) by (rewrite blen_app; lia).
  pose proof (told_range e L3PROTO_IPV6 (rx_l4_proto rx) l3 (l3 + blen y)) as Hrange.
  destruct (headers46_fields e tclass plen hop fo id (rx_l4_proto rx) bs bd seg (hdr ++ seg)) as (F0 & F4 & F7 & Fs & Fd & Ff);
    [apply be_bytes_length..|unfold is_u16; cbn [max_error] in Hrange; lia|done|].
  assert (Wh : wf_bytes hdr) by (apply headers46_wf; try done; apply be_bytes_wf).
  set (out := XPkt (hdr ++ seg) _ _ _ _ _ _ _ _ _) in *. assert (Hp : ports_at L3PROTO_IPV6 (rx_l4_proto rx) (hdr ++ seg) l3 (l4_6 src) (l4_6 dst)).
  { rewrite <- Lh'. apply seg_ports; [exact Hseg|congruence|intros Ei; symmetry; apply Hid; congruence|]. intros Ei. rewrite Ei in Hh.
    destruct (ld8_some seg 0) as [t Eqt]; [lia|]. exists t. split; [exact Eqt|].
    apply (echo_code6 (to_rx out) t); [done| |rewrite Hecho by exact Ei; apply (tr_echo _ _ _ Ht Ei)].
    change (ld8 (hdr ++ seg) l3 = Some t). rewrite <- Lh'. replace (blen hdr) with (blen hdr + 0) by lia. rewrite ld8_app_r by lia. exact Eqt. }
  assert (Hss : checked_sum (to_rx out) = raw_sum seg + raw_sum (pseudo6 bs bd (blen y) (nexthdr_of (rx_l4_proto rx)))).
  { unfold checked_sum. cbn [to_rx out rx_layout lo_l3_proto x_l3_proto rx_skb sk_bytes x_bytes].
    change (rx_l4_proto (to_rx out)) with (rx_l4_proto rx). change (rx_l4 (to_rx out)) with l3.
    replace (Z.to_nat l3) with (length hdr) by (subst l3; lia). rewrite drop_app_length, Fs, Fd.
    replace (blen (hdr ++ seg) - l3) with (blen y) by lia. done. }
  split; try done.
  - apply (read6_ok (hdr ++ seg) (rx_l4_proto rx) (if will_need_frag_hdr e fo then Some 40 else None) l3 (l3 + h) (rx_mark rx) (l4_6 src) (l4_6 dst));
      try done; try lia.
    + apply wf_bytes_app; done.
    + apply (headers46_last e tclass plen hop fo id (rx_l4_proto rx) bs bd seg); [apply be_bytes_length..|done].
    + destruct (will_need_frag_hdr e fo); [|done]. cbn [first_frag6]. change (40 + 2) with 42. rewrite Ff by done. unfold is_first_frag6.
      rewrite get_build_frag6. unfold is_first_frag4 in Hff. apply Z.eqb_eq in Hff. rewrite Hff. done.
    + subst l3. unfold l3_len46. destruct (will_need_frag_hdr e fo); [intros o [= <-]; lia|discriminate].
    + split; [destruct (rx_l4_proto rx); lia|lia].
  - intros c s. rewrite Hl4. apply read6_tuple; [apply ldn_slice; [exact Fs|lia|exact Ws]|apply ldn_slice; [exact Fd|lia|exact Wd]|exact Hp].
  - unfold length_field. change (mbind (fun l => Some (40 + l)) (ldn 2 (hdr ++ seg) 4) = Some (told e L3PROTO_IPV6 (rx_l4_proto rx) l3 (blen (hdr ++ seg)))).
    rewrite F4, Lb, Eplen. cbn [mbind option_bind]. f_equal. lia.
  - intros hp Eh. rewrite Hhop in Eh. injection Eh as <-. change (ld8 (hdr ++ seg) 7 = Some (hop + 1 - 1)). rewrite F7. f_equal. lia.
  - change (l3 + h - l3 = h). lia.
  - change (blen (hdr ++ seg) - l3 = blen b - rx_l4 rx). rewrite <- y_length by done. lia.
  - intros i Hi. change (ld8 (hdr ++ seg) (l3 + i) = ld8 b (rx_l4 rx + i)). assert (0 <= i) by (unfold is_kept in Hi; destruct (rx_l4_proto rx); lia).
    rewrite <- Lh', ld8_app_r, (ns_kept _ _ _ _ _ Hseg) by done. apply ld8_drop; [|done]. apply (rx_bounds rx Hrx).
  - intros Hz Hpt. rewrite Hss. exact (Hsum Hz Hpt).
  - intros Hz. rewrite Hss. exact (Hzero Hz).
Qed.

End Sent.

Lemma ports_seg rx l4 size check sport dport ck : rx_ok rx -> let y := drop (Z.to_nat (rx_l4 rx)) (sk_bytes (rx_skb rx)) in
  4 <= check -> check + 2 <= size -> size <= blen y -> is_u16 sport -> is_u16 dport -> l4 = L4PROTO_TCP \/ l4 = L4PROTO_UDP ->
  (forall i, is_kept l4 i <-> 4 <= i /\ i <> check /\ i <> check + 1) ->
  new_seg l4 sport dport y (new_segment size check sport dport ck y).
Proof.
  intros Hrx y Hc4 Hcs Hsz Wsp Wdp Hproto Hkept. split.
  - apply segment_wf, y_wf, Hrx.
  - apply segment_length; lia.
  - pose proof (segment_ports size check _ _ ck y Hc4 Hcs Hsz Wsp Wdp) as P. destruct Hproto as [-> | ->]; exact P.
  - intros i Hi. apply Hkept in Hi. apply segment_kept; lia.
Qed.

(** ** The steps *)

Section Driver.
Context {K : KernelCsum} {T : SiitTables} (e : xenv) (depth : nat) (tup : option tuple) (s : xstate).
Abbreviation st := (steps e depth (x_l3_proto (x_in s)) (xl4 (x_in s))).

Definition free_out (s : xstate) : xstate := XState (x_in s) (x_out s) (XFreeOut :: x_events s) (x_allocs s) (x_randoms s).

Lemma translating_no_memory s' :
  skb_create_fn e (x_l3_proto (x_in s)) s = Some (VERDICT_DROP, s') -> translating_the_packet e depth tup s = Some (VERDICT_DROP, s').
Proof. intros H. unfold translating_the_packet, translate_first. rewrite bind_assoc, gets_bind. cbv zeta. rewrite bind_assoc, (bind_run _ _ _ _ _ H). done. Qed.

Lemma translating_refused s1 s2 :
  skb_create_fn e (x_l3_proto (x_in s)) s = Some (VERDICT_CONTINUE, s1) -> l3_hdr_fn st tup s1 = Some (VERDICT_DROP, s2) ->
  translating_the_packet e depth tup s = Some (VERDICT_DROP, free_out s2).
Proof.
  intros H H2. unfold translating_the_packet, translate_first. rewrite bind_assoc, gets_bind. cbv zeta. rewrite bind_assoc, (bind_run _ _ _ _ _ H).
  rewrite bool_decide_eq_true_2 by done. cbn [negb]. rewrite bind_assoc, (bind_run _ _ _ _ _ H2). done.
Qed.

Lemma translating_done s1 s2 s3 :
  skb_create_fn e (x_l3_proto (x_in s)) s = Some (VERDICT_CONTINUE, s1) -> l3_hdr_fn st tup s1 = Some (VERDICT_CONTINUE, s2) ->
  l3_payload_fn st tup s2 = Some (VERDICT_CONTINUE, s3) -> x_frags (x_in s3) = [] ->
  translating_the_packet e depth tup s = Some (VERDICT_CONTINUE, s3).
Proof.
  intros H H2 H3 Hf. unfold translating_the_packet, translate_first. rewrite bind_assoc, gets_bind. cbv zeta. rewrite bind_assoc, (bind_run _ _ _ _ _ H).
  rewrite bool_decide_eq_true_2 by done. cbn [negb]. rewrite bind_assoc, (bind_run _ _ _ _ _ H2).
  rewrite bool_decide_eq_true_2 by done. cbn [negb]. rewrite bind_assoc, (bind_run _ _ _ _ _ H3).
  rewrite bool_decide_eq_true_2 by done. cbn [negb]. rewrite ret_bind, bool_decide_eq_true_2 by done. cbn [negb].
  rewrite gets_bind, Hf. done.
Qed.

End Driver.

(** The two ends of the translation of a packet: [v] and [s'] are what it
    leaves. *)
Definition xlat_outcome (e : xenv) (summed : ip_summed) (rx : rx_packet) (tup : tuple) (refused : option (icmp_error_code * Z))
    (s : xstate) (v : verdict) (s' : xstate) : Prop :=
  if negb (kmalloc (x_allocs s)).1 then v = VERDICT_DROP /\ x_events s' = XStat IPSTATS_MIB_INDISCARDS :: x_events s
  else match refused with
  | Some (error, info) => v = VERDICT_DROP /\
      x_events s' = XFreeOut :: XStat IPSTATS_MIB_INHDRERRORS :: XIcmp error info :: x_events s
  | None => v = VERDICT_CONTINUE /\ x_events s' = x_events s /\ received (x_out s') /\ sent e summed rx (to_rx (x_out s')) tup
  end.

Lemma hdr_fn64 {K : KernelCsum} {T : SiitTables} e depth l4 : l3_hdr_fn (steps e depth L3PROTO_IPV6 l4) = ttp64_ipv4 e.
Proof. destruct depth, l4; done. Qed.

Lemma hdr_fn46 {K : KernelCsum} {T : SiitTables} e depth l4 : l3_hdr_fn (steps e depth L3PROTO_IPV4 l4) = ttp46_ipv6 e.
Proof. destruct depth, l4; done. Qed.

(** ** A scene *)

(** A translator without stateless tables. *)
Definition no_tables : SiitTables := {|
  eamt_xlat_4to6 _ := Err ESRCH;
  eamt_xlat_6to4 _ := Err ESRCH;
  eamt_contains4 _ := false;
  blacklist_contains _ := false;
  rfc6791_get _ _ := Err EINVAL
|}.

Definition scene_env : xenv :=
  XEnv false false false 0 false false true true [1500; 576] false true EAM_HAIRPIN_OFF None
    (fun _ => Some 1500) (fun _ => Some 1500) (fun _ => 170).

Definition scene_xstate (rx : rx_packet) : xstate :=
  XState (of_rx rx CHECKSUM_NONE None (Some 1500)) (of_rx rx CHECKSUM_NONE None None) [] [] [42].

Lemma scene_env_ok : junk_ok scene_env.
Proof. split; [|intros i]; done. Qed.
