(* ===== verification/Translate64.v ===== *)
(** * Packets from IPv6, translated

    [translating_the_packet] (of [mod/common/rfc6145/core.c]) in the stateful
    translator, on a packet from IPv6 that is not an ICMP error. *)
From S2P Require Import Prelude Types Address Rfc6052 Pool6 Pool4Table Pool4Db RbTree BibTable BibDb PortAlloc.
From S2P Require Import Packet SessionEntry PktQueue SessionTable Tcp SessionSpec SessionDb Filtering FilteringSpec StaticRoutes Nat64 Guarantees Skb InTuple.
From S2P Require Import Checksum XlatPkt Xlat64 Xlat46 Xlat XlatSpec Wire Sent.

(** ** Extension headers *)

(** A search finds its way when the walk to the last header does, and a header
    that can be skipped has its eight bytes before the last. *)
Lemma find_loop_total fuel b id : forall it last, wf_bytes b ->
  hdr_iterator_last_loop fuel b it = Some last ->
  exists r, hdr_iterator_find_loop fuel b it id = Some r /\
    forall o, r = Some o -> is_opt_hdr id = true -> hdr_data it <= o /\ o + 8 <= hdr_data last.
Proof.
  induction fuel as [|fuel IH]; intros [ty o] last Hb H; [done|]. cbn [hdr_iterator_last_loop hdr_iterator_find_loop] in *.
  cbn [hdr_type hdr_data] in *. destruct (Z.eqb_spec ty id) as [->|Hne].
  - exists (Some o). split; [done|]. intros o' [= <-] Hopt. split; [lia|].
    unfold hdr_iterator_next in H. cbn [hdr_type hdr_data] in H. rewrite Hopt in H.
    destruct (ld8 b o) as [n|]; [|done]. destruct (ld8 b (o + 1)) as [l|] eqn:El; [|done]. cbn in H.
    pose proof (last_loop_le _ _ _ _ Hb H) as Hle. cbn [hdr_data] in Hle. pose proof (ld8_u8 _ _ _ Hb El) as [? _]. lia.
  - destruct (hdr_iterator_next b (HdrIterator ty o)) as [[it'|]|] eqn:En; cbn in *; [|exists None; done|done].
    destruct (IH it' last Hb H) as (r & Hr & Ho). exists r. split; [exact Hr|]. intros o' Eo Hopt.
    destruct (Ho o' Eo Hopt). split; [|lia]. enough (o <= hdr_data it') by lia.
    unfold hdr_iterator_next in En. cbn [hdr_type hdr_data] in En.
    destruct (is_opt_hdr ty).
    + destruct (ld8 b o) as [n|]; [|done]. destruct (ld8 b (o + 1)) as [l|] eqn:El; [|done]. injection En as <-. cbn.
      pose proof (ld8_u8 _ _ _ Hb El) as [? _]. lia.
    + destruct (ty =? NEXTHDR_FRAGMENT); [|done]. destruct (ld8 b o) as [n|]; [|done]. injection En as <-. cbn. lia.
Qed.

Section Rx6.
Context (rx : rx_packet) (Hrx : rx_ok rx) (H6 : lo_l3_proto (rx_layout rx) = L3PROTO_IPV6).
Abbreviation b := (sk_bytes (rx_skb rx)).
Abbreviation m := (lo_meta (rx_layout rx)).

Lemma rx6_layout : 40 <= blen b /\ layout_ok6 (rx_skb rx) m /\ first_frag6 b (frag_offset m) = true.
Proof. pose proof Hrx as (_ & _ & Hlay). rewrite H6 in Hlay. exact Hlay. Qed.

Lemma rx6_last : exists type, hdr_iterator_last b (HdrIterator (default 0 (ld8 b 6)) 40) = Some (HdrIterator type (l4_offset m)) /\
  HDR_ITERATOR_INIT b 0 = Some (HdrIterator (default 0 (ld8 b 6)) 40) /\ meta_l4_proto m = l4_of_nexthdr type.
Proof.
  destruct rx6_layout as (H40 & ((((ty & Hl & Hp) & _) & _) & _) & _). exists ty. unfold HDR_ITERATOR_INIT in *.
  destruct (ld8_some b (0 + 6)) as [x Ex]; [lia|]. rewrite Ex in *. change (0 + 6) with 6 in Ex. rewrite Ex. cbn in *. done.
Qed.

Lemma rx6_proto : meta_l4_proto m <> L4PROTO_OTHER -> ttp64_xlat_proto b 0 = Some (protocol_of (meta_l4_proto m)).
Proof.
  intros Hno. destruct rx6_last as (ty & Hl & Hi & Hp). unfold ttp64_xlat_proto. rewrite Hi. cbn [mbind option_bind]. rewrite Hl.
  cbn [mbind option_bind hdr_type]. rewrite Hp in Hno |- *. clear Hl Hp. unfold l4_of_nexthdr in *.
  destruct (Z.eqb_spec ty NEXTHDR_TCP) as [E|]; [rewrite E; done|].
  destruct (Z.eqb_spec ty NEXTHDR_UDP) as [E|]; [rewrite E; done|]. destruct (Z.eqb_spec ty NEXTHDR_ICMP); done.
Qed.

Lemma rx6_segments : exists r, has_nonzero_segments_left b 0 = Some r.
Proof.
  destruct rx6_last as (ty & Hl & Hi & _). destruct (rx_bounds rx Hrx) as (_ & _ & H1 & H2).
  destruct (find_loop_total _ _ NEXTHDR_ROUTING _ _ (rx_wf rx Hrx) Hl) as (r & Hr & Ho). cbn [hdr_data] in Ho.
  unfold has_nonzero_segments_left, hdr_iterator_find. rewrite Hi. cbn [mbind option_bind]. rewrite Hr. cbn [mbind option_bind].
  destruct r as [o|]; [|eauto]. destruct (Ho o eq_refl eq_refl). destruct (ld8_some b (o + 3)) as [x ->]; [lia|]. cbn. eauto.
Qed.

Lemma rx6_frag id df : exists ff, frag_fields b (frag_offset m) id df = Some ff /\
  is_first_frag4 ff.2 = true.
Proof.
  destruct rx6_layout as (_ & (((_ & Hle & _ & Hroom) & _) & Hp & _) & Hf). unfold frag_fields. destruct (frag_offset m) as [o|] eqn:Eo.
  - destruct (Hroom o eq_refl). destruct (ldn_some 4 b (o + 4)) as [i ->]; [lia..|]. cbn [first_frag6] in Hf.
    destruct (raw16 b (o + 2)) as [f|]; [|done]. eexists. split; [reflexivity|]. cbn [snd].
    unfold is_first_frag4. rewrite get_build_frag4; unfold is_first_frag6 in Hf; apply Z.eqb_eq in Hf; rewrite Hf; done.
  - eexists. split; [reflexivity|]. cbn [snd]. unfold is_first_frag4. rewrite get_build_frag4; done.
Qed.

End Rx6.

(** ** From IPv6 *)

Section From6.
Context {K : KernelCsum} {L : KernelCsumLaws K} {T : SiitTables} (e : xenv) (depth : nat).
Context (rx : rx_packet) (src dst : ipv4_transport_addr) (pr : l4_protocol) (summed : ip_summed) (csum : option (Z * Z)) (mtu : option Z).
Abbreviation tup := (Tuple4 src dst pr).
Context (Hnat : xlat_is_siit e = false) (Hj : junk_ok e).
Context (Ht : translatable rx tup 20) (H6 : lo_l3_proto (rx_layout rx) = L3PROTO_IPV6).
Abbreviation b := (sk_bytes (rx_skb rx)).
Abbreviation m := (lo_meta (rx_layout rx)).
Abbreviation y := (drop (Z.to_nat (rx_l4 rx)) (sk_bytes (rx_skb rx))).
Abbreviation h := (payload_offset (lo_meta (rx_layout rx)) - rx_l4 rx).
Abbreviation p := (of_rx rx summed csum mtu).
Abbreviation bs := (be_bytes 4 (s_addr (l3_4 src))).
Abbreviation bd := (be_bytes 4 (s_addr (l3_4 dst))).

Lemma from6_rx : rx_ok rx.
Proof. exact (tr_ok _ _ _ Ht). Qed.

Lemma from6_geom : geom p.
Proof. apply of_rx_geom; [exact from6_rx|]. pose proof (tr_size _ _ _ Ht). lia. Qed.

Lemma from6_addrs : addrs6 b 0 = Some (slice b 8 16, slice b 24 16) /\ wf_addrs 16 (slice b 8 16, slice b 24 16) /\ wf_addrs 4 (bs, bd).
Proof.
  destruct (rx6_layout rx from6_rx H6) as (H40 & _). split; [apply addrs6_some; lia|]. split.
  - apply (slice_wf_addrs b 8 24 16); try lia. apply rx_wf, from6_rx.
  - split_and!; try apply be_bytes_wf; apply be_bytes_length.
Qed.

(** The segment of a TCP or UDP packet. *)
Lemma ports_64 size check mangle hdr d s :
  4 <= check -> check + 2 <= size -> Z.even size = true -> Z.even check = true -> (forall c, is_u16 c -> is_u16 (mangle c) /\ mangle c ≡c c) ->
  size <= h -> rx_l4_proto rx = L4PROTO_TCP \/ rx_l4_proto rx = L4PROTO_UDP ->
  (forall i, is_kept (rx_l4_proto rx) i <-> 4 <= i /\ i <> check /\ i <> check + 1) ->
  x_in s = p -> blen hdr = 20 -> addrs4 hdr 0 = Some (bs, bd) -> blen d = blen y ->
  let o := with_bytes (hdr ++ d) (new_out64 e p (20 + blen y)) in
  exists seg sm cs, ttp64_l4 e size check mangle (Some tup) (wro o s) =
      Some (VERDICT_CONTINUE, wro (with_summed sm cs (with_bytes (hdr ++ seg) o)) s) /\
    new_seg (rx_l4_proto rx) (l4_4 src) (l4_4 dst) y seg /\
    (summed <> CHECKSUM_PARTIAL -> raw_sum seg + raw_sum (pseudo4 bs bd (blen y) (protocol_of (rx_l4_proto rx))) ≡c checked_sum rx).
Proof.
  intros Hc4 Hcs Hes Hec Hm Hsz Hproto Hkept Es Lh Ha4 Ld o. pose proof from6_geom as Gp. pose proof from6_rx as Hrx.
  destruct from6_addrs as (Ha6 & W6 & W4). destruct (tr_header rx _ _ Ht) as [_ Hhy]. pose proof (y_length rx Hrx) as Ly.
  destruct (rx_l4_bounds rx Hrx) as (B1 & B2 & B3). pose proof (tr_len _ _ _ Ht) as Htot.
  destruct (raw16_some b (rx_l4 rx + check)) as [cksum Hck]; [lia..|].
  destruct (raw16_slice b _ _ (rx_wf rx Hrx) Hck) as [Wck Eck].
  assert (Go : geom o).
  { split; cbn [o with_bytes new_out64 x_ptrs p_net p_data p_trans p_payload x_bytes x_frags of_rx]; rewrite ?blen_app, ?Lh, ?Ld;
      change (l4_offset m) with (rx_l4 rx); change (frags_len []) with 0; lia. }
  destruct (ttp64_l4_run e size check mangle src dst pr o s hdr d (bs, bd) (slice b 8 16, slice b 24 16) cksum p b y h) as (sm & cs & Hrun);
    try done; try lia; [change (20 + h = blen hdr + h); lia|change (0 + 20 <= blen hdr); lia|].
  eexists _, sm, cs. split; [exact Hrun|]. clear Hrun. rewrite (xlat_segment_eq size check) by lia. set (ck := csum64 _ _ _ _ _ _ _ _ _).
  split.
  - destruct (tr_wf _ _ _ Ht) as ([_ Wsp] & [_ Wdp] & _). apply ports_seg; try done. lia.
  - intros Hs. assert (Esl : slice y check 2 = raw_bytes16 cksum).
    { rewrite <- Eck. unfold slice. rewrite drop_drop. do 2 f_equal. lia. }
    destruct (csum64_residue size check (l4_4 src) (l4_4 dst) cksum y p (bs, bd) (slice b 8 16, slice b 24 16)) with (mangle := mangle) (h := h) (j := d) as [_ Hres];
      try done; try lia; [apply y_wf, Hrx|]. fold ck in Hres.
    assert (Hps := pseudo_same (slice b 8 16, slice b 24 16) (bs, bd) (blen y) (protocol_of (rx_l4_proto rx)) W6 W4 ltac:(unfold is_u16; lia)
      ltac:(destruct (rx_l4_proto rx); done)). cbn [fst snd] in Hps.
    unfold checked_sum. rewrite H6, <- Ly.
    replace (nexthdr_of (rx_l4_proto rx)) with (protocol_of (rx_l4_proto rx)) by (destruct Hproto as [-> | ->]; done).
    destruct Hres as [k Hk]. exists k. lia.
Qed.

(** An echo. *)
Lemma echo_64 inner hdr d s : rx_l4_proto rx = L4PROTO_ICMP -> x_in s = p -> blen hdr = 20 -> blen d = blen y ->
  let o := with_bytes (hdr ++ d) (new_out64 e p (20 + blen y)) in
  exists seg, ttp64_icmp e inner (Some tup) (wro o s) = Some (VERDICT_CONTINUE, wro (with_bytes (hdr ++ seg) o) s) /\
    new_seg L4PROTO_ICMP (l4_4 src) (l4_4 dst) y seg /\ (t ← ld8 seg 0; echo_code L3PROTO_IPV4 t) = echo_type rx /\
    raw_sum seg ≡c checked_sum rx.
Proof.
  intros Ei Es Lh Ld o. pose proof from6_geom as Gp. pose proof from6_rx as Hrx. destruct from6_addrs as (Ha6 & W6 & W4).
  destruct (tr_header rx _ _ Ht) as [Hh Hhy]. rewrite Ei in Hh. pose proof (y_length rx Hrx) as Ly.
  destruct (rx_l4_bounds rx Hrx) as (B1 & B2 & B3). pose proof (tr_len _ _ _ Ht) as Htot.
  assert (Hty : exists type type4, ld8 b (rx_l4 rx) = Some type /\ echo_code L3PROTO_IPV4 type4 = echo_type rx /\ is_u8 type4 /\
    ((type = ICMPV6_ECHO_REQUEST /\ type4 = ICMP_ECHO) \/ (type = ICMPV6_ECHO_REPLY /\ type4 = ICMP_ECHOREPLY))).
  { destruct (tr_echo _ _ _ Ht Ei) as [x Hx]. unfold echo_type in *. destruct (ld8 b (rx_l4 rx)) as [t|]; [|done].
    cbn [mbind option_bind] in *. rewrite H6 in *. unfold echo_code in *. exists t.
    destruct (Z.eqb_spec t ICMPV6_ECHO_REQUEST); [exists ICMP_ECHO; split_and!; try done; auto|].
    destruct (Z.eqb_spec t ICMPV6_ECHO_REPLY); [exists ICMP_ECHOREPLY; split_and!; try done; auto|done]. }
  destruct Hty as (type & type4 & Etype & Eecho & Wt4 & Hty).
  destruct (raw16_some b (rx_l4 rx + 2)) as [cksum Hck]; [lia..|].
  destruct (raw16_slice b _ _ (rx_wf rx Hrx) Hck) as [Wck Eck].
  assert (Go : geom o).
  { split; cbn [o with_bytes new_out64 x_ptrs p_net p_data p_trans p_payload x_bytes x_frags of_rx]; rewrite ?blen_app, ?Lh, ?Ld;
      change (l4_offset m) with (rx_l4 rx); change (frags_len []) with 0; lia. }
  pose proof (ttp64_echo_run e inner type type4 src dst pr o s hdr (take 8 d) (drop 8 d) p y (slice b 8 16, slice b 24 16) cksum) as Hrun.
  cbv zeta in Hrun. unfold blen in Ld, Lh. eexists. split; [apply Hrun; try done|]; clear Hrun.
  - change (x_bytes o) with (hdr ++ d). rewrite take_drop. done.
  - rewrite length_take. unfold blen in *. lia.
  - change (20 + h = blen hdr + 8). unfold blen. lia.
  - change (payload_offset m = rx_l4 rx + 8). lia.
  - unfold blen in *. rewrite length_drop. lia.
  - set (ck := icmp64_csum _ _ _ _ _). pose proof (tr_wf _ _ _ Ht) as ([_ Wsp] & _).
    destruct (echo_fields type4 ck (l4_4 src) y ltac:(lia) Wsp) as (F0 & F4 & Fk & Lseg).
    assert (Esl : slice y 2 2 = raw_bytes16 cksum).
    { rewrite <- Eck. unfold slice. rewrite drop_drop. do 2 f_equal. lia. }
    assert (Wq : wf_bytes (slice y 6 2)) by apply wf_slice, y_wf, Hrx.
    assert (Lq : length (slice y 6 2) = 2%nat) by (apply slice_length; lia).
    assert (Edl : pkt_datagram_len p = blen y).
    { rewrite datagram_len_eq by done. change (blen b - rx_l4 rx = blen y). lia. }
    split; [|split].
    + split; [|exact Lseg|exact F4|exact Fk]. apply wf_bytes_app; [apply echo_header_wf; done|apply wf_drop, y_wf, Hrx].
    + rewrite F0. exact Eecho.
    + destruct (echo64_residue cksum (pkt_datagram_len p) y (slice b 8 16, slice b 24 16)) with (type := type4) (id := l4_4 src) (q := slice y 6 2)
        as [_ Hres]; try done; [apply y_wf, Hrx|lia|rewrite Edl; unfold is_u32; lia|]. fold ck in Hres. rewrite Hres, Edl.
      unfold checked_sum. rewrite H6, Ei, Ly. done.
Qed.

(** What follows the header. *)
Lemma payload_64 hdr d s : x_in s = p -> blen hdr = 20 -> addrs4 hdr 0 = Some (bs, bd) -> blen d = blen y ->
  let o := with_bytes (hdr ++ d) (new_out64 e p (20 + blen y)) in
  exists seg sm cs, l3_payload_fn (steps e depth L3PROTO_IPV6 (rx_l4_proto rx)) (Some tup) (wro o s) =
      Some (VERDICT_CONTINUE, wro (with_summed sm cs (with_bytes (hdr ++ seg) o)) s) /\
    new_seg (rx_l4_proto rx) (l4_4 src) (l4_4 dst) y seg /\
    (rx_l4_proto rx = L4PROTO_ICMP -> (t ← ld8 seg 0; echo_code L3PROTO_IPV4 t) = echo_type rx) /\
    (summed <> CHECKSUM_PARTIAL -> raw_sum seg + match rx_l4_proto rx with L4PROTO_ICMP => 0
       | l4 => raw_sum (pseudo4 bs bd (blen y) (protocol_of l4)) end ≡c checked_sum rx).
Proof.
  intros Es Lh Ha4 Ld o. destruct (tr_header rx _ _ Ht) as [Hh _]. pose proof (tr_known _ _ _ Ht) as Hk.
  rewrite (tr_l4 _ _ _ Ht) in Hk. destruct (rx_l4_proto rx) eqn:E4; [| | |done].
  - destruct (ports_64 20 16 (fun c => c) hdr d s) as (seg & sm & cs & Hrun & Hseg & Hsum); rewrite ?E4; try done; auto.
    rewrite E4 in *. exists seg, sm, cs. split; [destruct depth; exact Hrun|done].
  - destruct (ports_64 8 6 (fun c => if c =? 0 then CSUM_MANGLED_0 else c) hdr d s) as (seg & sm & cs & Hrun & Hseg & Hsum);
      rewrite ?E4; try done; auto; [exact mangle_udp|lia|].
    rewrite E4 in *. exists seg, sm, cs. split; [destruct depth; exact Hrun|done].
  - destruct (echo_64 (match depth with O => fun _ => fault | S depth => ttpcomm_translate_inner_packet e (steps e depth) end) hdr d s E4 Es Lh Ld)
      as (seg & Hrun & Hseg & Hecho & Hsum). exists seg, CHECKSUM_NONE, None. split; [destruct depth; exact Hrun|]. split; [done|]. split; [done|].
    intros _. rewrite Z.add_0_r. exact Hsum.
Qed.

Lemma build_tot_len_64 c d s : length c = 20%nat -> d = drop 20 (junk e (20 + blen y)) ->
  let o := with_bytes (c ++ d) (new_out64 e p (20 + blen y)) in
  build_tot_len (wro o s) = Some (told e L3PROTO_IPV4 (rx_l4_proto rx) 20 (20 + blen y), wro o s).
Proof.
  intros Lc Ed o. pose proof from6_rx as Hrx. pose proof (y_length rx Hrx) as Ly. pose proof (tr_len _ _ _ Ht) as Htot.
  pose proof (blen_nonneg y) as Hy0. destruct (tr_header rx _ _ Ht) as [Hh Hhy].
  assert (Lj : blen (junk e (20 + blen y)) = 20 + blen y) by (apply junk_length; lia).
  assert (Ld : blen d = blen y) by (subst d; unfold blen in *; rewrite length_drop; lia).
  unfold build_tot_len. rewrite !gets_bind. change (x_out (wro o s)) with o. change (xinner o) with false. cbv iota.
  change (pkt_is_fragment o) with false. cbn [negb].
  assert (Esl : skb_len o = 20 + blen y).
  { unfold skb_len, skb_pagelen. change (frags_len (x_frags o)) with 0. change (xdata o) with 0. change (x_bytes o) with (c ++ d).
    rewrite blen_app. unfold blen at 1. rewrite Lc. lia. }
  rewrite Esl, u16_small by lia. unfold xpkt_is_icmp4_error. change (xl4 o) with (rx_l4_proto rx). unfold told. case_bool_decide as Ei; [|done].
  rewrite Ei in Hh. assert (Et : xpkt_icmp_type o = Some (xe_junk e 20)).
  { unfold xpkt_icmp_type. change (x_bytes o) with (c ++ d). change (xtrans o) with 20.
    replace 20 with (blen c + 0) at 1 by (unfold blen; rewrite Lc; lia). rewrite ld8_app_r by lia. subst d.
    change 20%nat with (Z.to_nat 20). rewrite ld8_drop by lia. unfold ld8, junk. cbn. rewrite list_lookup_fmap, lookup_seqZ_lt by lia. done. }
  rewrite bind_assoc. rewrite (load_bind' _ _ _ _ Et), ret_bind. unfold mret, M_ret. do 2 f_equal.
Qed.

Lemma header_64 s hop : x_in s = p -> hop_limit_of rx = Some hop -> 1 < hop -> has_nonzero_segments_left b 0 = Some None ->
  let o := new_out64 e p (20 + blen y) in
  exists tos id fo rnd, is_u8 tos /\ is_u16 fo /\ is_first_frag4 fo = true /\
    ttp64_ipv4 e (Some tup) (wro o s) = Some (VERDICT_CONTINUE,
      wro (with_bytes (ip4_header tos (told e L3PROTO_IPV4 (rx_l4_proto rx) 20 (20 + blen y)) id fo (hop - 1) (protocol_of (rx_l4_proto rx)) bs bd ++ drop 20 (junk e (20 + blen y))) o)
        (with_rnd rnd s)).
Proof.
  intros Es Hhop H1 Hseg o. pose proof from6_rx as Hrx. destruct (rx6_layout rx Hrx H6) as (H40 & _). pose proof (rx_wf rx Hrx) as Wb.
  pose proof (tr_known _ _ _ Ht) as Hk. rewrite (tr_l4 _ _ _ Ht) in Hk. pose proof (blen_nonneg y) as Hy0.
  destruct (ld8_some b 0) as [b0 E0]; [lia|]. destruct (ld8_some b (0 + 1)) as [b1 E1]; [lia|].
  unfold hop_limit_of in Hhop. rewrite H6 in Hhop.
  destruct (ttp64_ipv4_run e src dst pr o s [] (take 20 (junk e (20 + blen y))) (drop 20 (junk e (20 + blen y))) p b0 b1
    (protocol_of (rx_l4_proto rx)) hop (told e L3PROTO_IPV4 (rx_l4_proto rx) 20 (20 + blen y))) as (id0 & rnd & ff & _ & _ & Hff & Hrun); try done.
  - change (x_bytes o) with (junk e (20 + blen y)). cbn [app]. rewrite take_drop. done.
  - rewrite length_take. pose proof (junk_length e (20 + blen y) ltac:(lia)) as Lj. unfold blen in Lj at 1. lia.
  - apply wf_take, junk_wf, Hj.
  - apply rx6_proto; done.
  - intros c' Lc. exact (build_tot_len_64 c' _ s Lc eq_refl).
  - intros id df. destruct (rx6_frag rx Hrx H6 id df) as (ff & Hff & _). exists ff. exact Hff.
  - set (df := config_df_always_on e || generate_df_flag o) in Hff. destruct (rx6_frag rx Hrx H6 id0 df) as (ff' & Hff' & Hfirst).
    change (frag_fields b (frag_offset m) id0 df = Some ff) in Hff. rewrite Hff in Hff'. injection Hff' as <-.
    eexists _, ff.1, ff.2, rnd. split; [|split; [|split; [exact Hfirst|exact Hrun]]].
    + unfold xlat_tos. destruct (config_reset_tos e); [apply Hj|]. apply Z.mod_pos_bound. lia.
    + unfold frag_fields in Hff. destruct (frag_offset m) as [o'|]; [|injection Hff as <-; apply cpu_to_be16_u16].
      destruct (ldn 4 b (o' + 4)); [|done]. destruct (raw16 b (o' + 2)); [|done]. injection Hff as <-. apply cpu_to_be16_u16.
Qed.

(** The header is refused. *)
Lemma refused_64 s hop error info : x_in s = p -> hop_limit_of rx = Some hop ->
  (hop <= 1 /\ error = ICMPERR_HOP_LIMIT /\ info = 0) \/
  (1 < hop /\ error = ICMPERR_HDR_FIELD /\ has_nonzero_segments_left b 0 = Some (Some info)) ->
  exists o' rnd, ttp64_ipv4 e (Some tup) (wro (new_out64 e p (20 + blen y)) s) =
    Some (VERDICT_DROP, XState (x_in s) o' (XStat IPSTATS_MIB_INHDRERRORS :: XIcmp error info :: x_events s) (x_allocs s) rnd).
Proof.
  intros Es Hhop Hcase. pose proof from6_rx as Hrx. destruct (rx6_layout rx Hrx H6) as (H40 & _).
  pose proof (tr_known _ _ _ Ht) as Hk. rewrite (tr_l4 _ _ _ Ht) in Hk. pose proof (blen_nonneg y) as Hy0.
  destruct (ld8_some b 0) as [b0 E0]; [lia|]. destruct (ld8_some b (0 + 1)) as [b1 E1]; [lia|].
  unfold hop_limit_of in Hhop. rewrite H6 in Hhop.
  eapply (ttp64_ipv4_drop e src dst pr _ s [] (take 20 (junk e (20 + blen y))) (drop 20 (junk e (20 + blen y))) p b0 b1
    (protocol_of (rx_l4_proto rx)) hop (told e L3PROTO_IPV4 (rx_l4_proto rx) 20 (20 + blen y))); try done.
  - cbn [app]. rewrite take_drop. done.
  - rewrite length_take. pose proof (junk_length e (20 + blen y) ltac:(lia)) as Lj. unfold blen in Lj at 1. lia.
  - apply rx6_proto; done.
  - intros c' Lc. exact (build_tot_len_64 c' _ s Lc eq_refl).
Qed.

Section Run.
Context (s : xstate) (Hin : x_in s = p).

Lemma from6_create :
  skb_create_fn e (x_l3_proto (x_in s)) s =
    if (kmalloc (x_allocs s)).1
    then Some (VERDICT_CONTINUE, wro (new_out64 e p (20 + blen y)) (with_al (kmalloc (x_allocs s)).2 s))
    else Some (VERDICT_DROP, XState p (x_out s) (XStat IPSTATS_MIB_INDISCARDS :: x_events s) (kmalloc (x_allocs s)).2 (x_randoms s)).
Proof.
  pose proof from6_rx as Hrx. assert (E3 : x_l3_proto (x_in s) = L3PROTO_IPV6) by (rewrite Hin; exact H6). rewrite E3, (y_length rx Hrx).
  apply (create64_run e s p (eq_sym Hin) from6_geom).
  - intros Ei. destruct (tr_echo _ _ _ Ht Ei) as [x Hx]. pose proof Hx as Hx'. unfold echo_type in Hx. destruct (ld8 b (rx_l4 rx)) as [t|] eqn:Et; [|done].
    exists t. split; [exact Et|]. apply (echo_code6 rx t H6 Et). exists x. exact Hx'.
  - pose proof (tr_size _ _ _ Ht). change (blen b + 20 < 2 ^ 31). lia.
  - intros o Eo. destruct (rx6_layout rx Hrx H6) as (_ & _ & Hf). change (frag_offset m = Some o) in Eo. rewrite Eo in Hf.
    cbn [first_frag6] in Hf. change (is_Some (raw16 b (o + 2))). destruct (raw16 b (o + 2)); done.
Qed.

Context (Hmem : (kmalloc (x_allocs s)).1 = true) (hop : Z) (Hhop : hop_limit_of rx = Some hop).
Abbreviation s1 := (with_al (kmalloc (x_allocs s)).2 s).

Lemma from6_drops error info :
  (hop <= 1 /\ error = ICMPERR_HOP_LIMIT /\ info = 0) \/
  (1 < hop /\ error = ICMPERR_HDR_FIELD /\ has_nonzero_segments_left b 0 = Some (Some info)) ->
  exists s', translating_the_packet e depth (Some tup) s = Some (VERDICT_DROP, s') /\ x_in s' = x_in s /\ x_allocs s' = (kmalloc (x_allocs s)).2 /\
    x_events s' = XFreeOut :: XStat IPSTATS_MIB_INHDRERRORS :: XIcmp error info :: x_events s.
Proof.
  intros Hcase. destruct (refused_64 s1 hop error info Hin Hhop Hcase) as (o' & rnd & Hr). pose proof from6_create as Hc. rewrite Hmem in Hc.
  eexists. split.
  - eapply translating_refused; [exact Hc|]. rewrite Hin. cbn [x_l3_proto of_rx]. rewrite H6, hdr_fn64. exact Hr.
  - done.
Qed.

Lemma from6_sends : 1 < hop -> has_nonzero_segments_left b 0 = Some None ->
  exists s', translating_the_packet e depth (Some tup) s = Some (VERDICT_CONTINUE, s') /\ x_in s' = x_in s /\ x_allocs s' = (kmalloc (x_allocs s)).2 /\
    x_events s' = x_events s /\ received (x_out s') /\ sent e summed rx (to_rx (x_out s')) tup.
Proof.
  intros H1 Hseg. pose proof from6_create as Hc. rewrite Hmem in Hc. pose proof from6_rx as Hrx. pose proof (blen_nonneg y) as Hy0.
  destruct (header_64 s1 hop Hin Hhop H1 Hseg) as (tos & id & fo & rnd & Wtos & Wfo & Hff & Hh).
  set (hdr := ip4_header tos (told e L3PROTO_IPV4 (rx_l4_proto rx) 20 (20 + blen y)) id fo (hop - 1) (protocol_of (rx_l4_proto rx)) bs bd) in *.
  assert (Lh : length hdr = 20%nat) by (apply ip4_header_length; apply be_bytes_length).
  assert (Lj : blen (junk e (20 + blen y)) = 20 + blen y) by (apply junk_length; lia).
  destruct (payload_64 hdr (drop 20 (junk e (20 + blen y))) (with_rnd rnd s1)) as (seg & sm & cs & Hp & Hnew & Hecho & Hsum);
    [exact Hin|unfold blen; rewrite Lh; done| | |].
  - rewrite addrs4_some; [|lia|unfold blen; rewrite Lh; lia].
    destruct (ip4_fields tos (told e L3PROTO_IPV4 (rx_l4_proto rx) 20 (20 + blen y)) id fo (hop - 1) (protocol_of (rx_l4_proto rx)) bs bd [] hdr) as (_ & _ & _ & _ & _ & Fs & Fd);
      [apply be_bytes_length..| |exact Wfo|rewrite app_nil_r; done|].
    + pose proof (tr_len _ _ _ Ht) as Htot. rewrite <- y_length in Htot by done.
      pose proof (told_range e L3PROTO_IPV4 (rx_l4_proto rx) 20 (20 + blen y)) as Hrange. cbn [max_error] in Hrange. unfold is_u16. lia.
    + change (0 + 12) with 12. change (0 + 16) with 16. rewrite Fs, Fd. done.
  - unfold blen in *. rewrite length_drop. lia.
  - eexists. split.
    + eapply (translating_done e depth (Some tup) s); [exact Hc| |rewrite Hin; cbn [x_l3_proto of_rx]; rewrite H6; exact Hp|].
      * rewrite Hin. cbn [x_l3_proto of_rx]. rewrite H6, hdr_fn64. exact Hh.
      * cbn [wro x_in with_rnd with_al]. rewrite Hin. done.
    + split; [done|]. split; [done|]. split; [done|]. split; [reflexivity|].
      assert (Wttl : is_u8 hop) by (unfold hop_limit_of in Hhop; rewrite H6 in Hhop; exact (ld8_u8 _ _ _ (rx_wf rx Hrx) Hhop)).
      apply (sent4 e rx summed tup src dst pr tos (told e L3PROTO_IPV4 (rx_l4_proto rx) 20 (20 + blen y)) id fo (hop - 1) seg false sm cs Ht H6); try done.
      * unfold is_u8 in *. lia.
      * rewrite Hhop. f_equal. lia.
Qed.

End Run.

Lemma from6_hop : exists hop, hop_limit_of rx = Some hop.
Proof.
  unfold hop_limit_of. rewrite H6. destruct (rx6_layout rx from6_rx H6) as (H40 & _). apply ld8_some. lia.
Qed.

Lemma from6_outcome s : x_in s = p ->
  exists refused v s', refusal rx = Some refused /\ translating_the_packet e depth (Some tup) s = Some (v, s') /\ x_in s' = x_in s /\ x_allocs s' = (kmalloc (x_allocs s)).2 /\
    xlat_outcome e summed rx tup refused s v s'.
Proof.
  intros Hin. destruct from6_hop as [hop Hhop]. destruct (rx6_segments rx from6_rx H6) as [segments Hseg].
  unfold refusal, xlat_outcome. rewrite Hhop, H6. cbn [mbind option_bind]. rewrite Hseg. cbn [mbind option_bind].
  pose proof (from6_create s Hin) as Hc. destruct (kmalloc (x_allocs s)).1 eqn:Hm; cbn [negb].
  - destruct (Z.leb_spec hop 1); [|destruct segments as [loc|]]; cbn [option_map].
    + destruct (from6_drops s Hin Hm hop Hhop ICMPERR_HOP_LIMIT 0) as (s' & ? & ? & ? & ?); [left; done|]. eexists _, VERDICT_DROP, s'. done.
    + destruct (from6_drops s Hin Hm hop Hhop ICMPERR_HDR_FIELD loc) as (s' & ? & ? & ? & ?); [right; done|]. eexists _, VERDICT_DROP, s'. done.
    + destruct (from6_sends s Hin Hm hop Hhop) as (s' & ? & ? & ? & ? & ?); [done..|]. eexists _, VERDICT_CONTINUE, s'. done.
  - destruct (hop <=? 1); (eexists _, VERDICT_DROP, _; split; [reflexivity|]; split; [apply translating_no_memory; exact Hc|]; rewrite Hin; done).
Qed.

End From6.


Lemma scene_syn6_translatable :
  translatable (scene_rx L3PROTO_IPV6 scene_syn6) (Tuple4 (TAddr4 (InAddr 0xc0000201) 80) (TAddr4 (InAddr 0xc6336402) 80) L4PROTO_TCP) 20.
Proof.
  split; try done.
  apply scene_rx_ok; [apply scene_bytes_wf|vm_compute; congruence|reflexivity|vm_compute; reflexivity].
Qed.

