(* ===== verification/Translate46.v ===== *)
(** * Packets from IPv4, translated

    As [Translate64], for a packet from IPv4. *)
From S2P Require Import Prelude Types Address Rfc6052 Pool6 Pool4Table Pool4Db RbTree BibTable BibDb PortAlloc.
From S2P Require Import Packet SessionEntry PktQueue SessionTable Tcp SessionSpec SessionDb Filtering FilteringSpec StaticRoutes Nat64 Guarantees Skb InTuple.
From S2P Require Import Checksum XlatPkt Xlat64 Xlat46 Xlat XlatSpec Wire Sent.

(** ** From IPv4 *)

Section Rx4.
Context (rx : rx_packet) (Hrx : rx_ok rx) (H4 : lo_l3_proto (rx_layout rx) = L3PROTO_IPV4).
Abbreviation b := (sk_bytes (rx_skb rx)).
Abbreviation m := (lo_meta (rx_layout rx)).

Lemma rx4_layout : 20 <= blen b /\ layout_ok4 (rx_skb rx) m /\ (forall f, raw16 b 6 = Some f -> is_first_frag4 f = true).
Proof. pose proof Hrx as (_ & _ & Hlay). rewrite H4 in Hlay. exact Hlay. Qed.

Lemma rx4_proto : rx_l4_proto rx <> L4PROTO_OTHER -> ld8 b 9 = Some (protocol_of (rx_l4_proto rx)).
Proof.
  intros Hk. destruct rx4_layout as (_ & ((_ & (pr & Ep & El) & _) & _) & _). change (rx_l4_proto rx) with (meta_l4_proto m) in *. rewrite Ep, El in *.
  clear Ep El. f_equal. unfold l4_of_protocol in *. destruct (Z.eqb_spec pr IPPROTO_TCP) as [E|]; [rewrite E; done|].
  destruct (Z.eqb_spec pr IPPROTO_UDP) as [E|]; [rewrite E; done|]. destruct (Z.eqb_spec pr IPPROTO_ICMP) as [E|]; [rewrite E; done|done].
Qed.

End Rx4.

Section From4.
Context {K : KernelCsum} {L : KernelCsumLaws K} {T : SiitTables} (e : xenv) (depth : nat).
Context (rx : rx_packet) (src dst : ipv6_transport_addr) (fo : Z) (l4 : l4_protocol) (summed : ip_summed) (csum : option (Z * Z)) (mtu : option Z).
Abbreviation tup := (Tuple6 src dst l4).
Abbreviation l3 := (Z.of_nat (l3_len46 e fo)).
Abbreviation b := (sk_bytes (rx_skb rx)).
Abbreviation m := (lo_meta (rx_layout rx)).
Abbreviation y := (drop (Z.to_nat (rx_l4 rx)) (sk_bytes (rx_skb rx))).
Abbreviation h := (payload_offset (lo_meta (rx_layout rx)) - rx_l4 rx).
Abbreviation p := (of_rx rx summed csum mtu).
Abbreviation bs := (be_bytes 16 (s6_addr (l3_6 src))).
Abbreviation bd := (be_bytes 16 (s6_addr (l3_6 dst))).
Context (Hnat : xlat_is_siit e = false) (Hj : junk_ok e) (Hfo : raw16 b 6 = Some fo).
Context (Ht : translatable rx tup l3) (H4 : lo_l3_proto (rx_layout rx) = L3PROTO_IPV4).
Abbreviation out0 := (new_out46 e p l3 (l3 + blen y) (if will_need_frag_hdr e fo then Some 40 else None)).

Lemma from4_rx : rx_ok rx.
Proof. exact (tr_ok _ _ _ Ht). Qed.

Lemma from4_geom : geom p.
Proof. apply of_rx_geom; [exact from4_rx|]. pose proof (tr_size _ _ _ Ht). lia. Qed.

Lemma l3_cases : l3 = 40 + (if will_need_frag_hdr e fo then 8 else 0) /\ 40 <= l3.
Proof. unfold l3_len46. destruct (will_need_frag_hdr e fo); lia. Qed.

Lemma from4_addrs : addrs4 b 0 = Some (slice b 12 4, slice b 16 4) /\ wf_addrs 4 (slice b 12 4, slice b 16 4) /\ wf_addrs 16 (bs, bd).
Proof.
  destruct (rx4_layout rx from4_rx H4) as (H20 & _). split; [apply addrs4_some; lia|]. split.
  - apply (slice_wf_addrs b 12 16 4); try lia. apply rx_wf, from4_rx.
  - split_and!; try apply be_bytes_wf; apply be_bytes_length.
Qed.

Lemma from4_out_geom hdr d : blen hdr = l3 -> blen d = blen y -> geom (with_bytes (hdr ++ d) out0).
Proof.
  intros Lh Ld. pose proof from4_rx as Hrx. destruct (rx_l4_bounds rx Hrx) as (B1 & B2 & B3). pose proof (tr_len _ _ _ Ht) as Htot.
  pose proof (y_length rx Hrx) as Ly. pose proof l3_cases as [_ H40].
  split; cbn [with_bytes new_out46 x_ptrs p_net p_data p_trans p_payload x_bytes x_frags of_rx]; rewrite ?blen_app, ?Lh, ?Ld;
      change (l4_offset m) with (rx_l4 rx); change (frags_len []) with 0; lia.
Qed.

(** The sums of an updated segment. *)
Lemma sums_46 size check cksum d :
  4 <= check -> check + 2 <= size -> Z.even size = true -> Z.even check = true -> size <= h -> blen d = blen y ->
  rx_l4_proto rx = L4PROTO_TCP \/ rx_l4_proto rx = L4PROTO_UDP -> summed <> CHECKSUM_PARTIAL -> raw16 b (rx_l4 rx + check) = Some cksum ->
  let z := set_ports (l4_6 src) (l4_6 dst) (splice d 0 (slice y 0 h)) in
  raw_sum (new_segment size check (l4_6 src) (l4_6 dst) (csum46 size check p cksum (slice b 12 4, slice b 16 4) (bs, bd) y z) y) +
    raw_sum (pseudo6 bs bd (blen y) (nexthdr_of (rx_l4_proto rx))) ≡c checked_sum rx.
Proof.
  intros Hc4 Hcs Hes Hec Hsz Ld Hproto Hs Hck z. pose proof from4_rx as Hrx. destruct from4_addrs as (_ & W4 & W6).
  destruct (tr_header rx _ _ Ht) as [_ Hhy]. pose proof (y_length rx Hrx) as Ly. destruct (rx_l4_bounds rx Hrx) as (B1 & B2 & B3).
  pose proof (tr_len _ _ _ Ht) as Htot. pose proof (blen_nonneg y) as Hy0. pose proof l3_cases as [_ H40].
  destruct (raw16_slice b _ _ (rx_wf rx Hrx) Hck) as [Wck Eck].
  assert (Esl : slice y check 2 = raw_bytes16 cksum).
  { rewrite <- Eck. unfold slice. rewrite drop_drop. do 2 f_equal. lia. }
  destruct (csum46_residue size check (l4_6 src) (l4_6 dst) cksum y p (slice b 12 4, slice b 16 4) (bs, bd)) with (h := h) (j := d) as [_ Hres];
    try done; try lia; [apply y_wf, Hrx|]. fold z in Hres.
  assert (Hps := pseudo_same (bs, bd) (slice b 12 4, slice b 16 4) (blen y) (protocol_of (rx_l4_proto rx)) W6 W4 ltac:(unfold is_u16; lia)
    ltac:(destruct (rx_l4_proto rx); done)). cbn [fst snd] in Hps.
  unfold checked_sum. rewrite H4, <- Ly. destruct Hproto as [Ep|Ep]; rewrite Ep in *; destruct Hres as [k Hk]; exists k; cbn [nexthdr_of protocol_of] in *; 
    change NEXTHDR_TCP with IPPROTO_TCP; change NEXTHDR_UDP with IPPROTO_UDP; lia.
Qed.

Lemma tcp_46 hdr d s : rx_l4_proto rx = L4PROTO_TCP -> x_in s = p -> blen hdr = l3 -> addrs6 hdr 0 = Some (bs, bd) -> blen d = blen y ->
  let o := with_bytes (hdr ++ d) out0 in
  exists seg sm cs, ttp46_tcp e (Some tup) (wro o s) = Some (VERDICT_CONTINUE, wro (with_summed sm cs (with_bytes (hdr ++ seg) o)) s) /\
    new_seg L4PROTO_TCP (l4_6 src) (l4_6 dst) y seg /\
    (summed <> CHECKSUM_PARTIAL -> raw_sum seg + raw_sum (pseudo6 bs bd (blen y) (nexthdr_of (rx_l4_proto rx))) ≡c checked_sum rx).
Proof.
  intros Ep Es Lh Ha6 Ld o. pose proof from4_geom as Gp. pose proof from4_rx as Hrx. pose proof from4_addrs as (Ha4 & _ & _).
  destruct (tr_header rx _ _ Ht) as [Hh Hhy]. rewrite Ep in Hh. pose proof (y_length rx Hrx) as Ly. pose proof l3_cases as [_ H40].
  destruct (rx_l4_bounds rx Hrx) as (B1 & B2 & B3).
  destruct (raw16_some b (rx_l4 rx + 16)) as [cksum Hck]; [lia..|].
  destruct (ttp46_tcp_run e src dst l4 o s hdr d (slice b 12 4, slice b 16 4) (bs, bd) cksum p y h) as (sm & cs & Hrun);
    try done; try lia; [apply from4_out_geom; done|change (l3 + h = blen hdr + h); lia|change (0 + 40 <= blen hdr); lia|].
  eexists _, sm, cs. split; [exact Hrun|]. clear Hrun. rewrite (xlat_segment_eq 20 16) by lia. set (ck := csum46 _ _ _ _ _ _ _ _).
  destruct (tr_wf _ _ _ Ht) as ([_ Wsp] & [_ Wdp] & _). split.
  - apply ports_seg; try done; try lia. auto.
  - intros Hs. apply sums_46; try done; try lia. auto.
Qed.

(** A datagram that came without a checksum gets one. *)
Lemma zero_46 d : rx_l4_proto rx = L4PROTO_UDP -> raw16 b (rx_l4 rx + 6) = Some 0 -> blen d = blen y ->
  let z := set_ports (l4_6 src) (l4_6 dst) (splice d 0 (slice y 0 h)) in
  raw_sum (new_segment 8 6 (l4_6 src) (l4_6 dst) (zero_csum p (bs, bd) z) y) +
    raw_sum (pseudo6 bs bd (blen y) (nexthdr_of (rx_l4_proto rx))) ≡c 0.
Proof.
  intros Ep Hck Ld z. pose proof from4_rx as Hrx. destruct from4_addrs as (_ & _ & W6). pose proof W6 as (W61 & W62 & L61 & L62).
  destruct (tr_header rx _ _ Ht) as [Hh Hhy]. rewrite Ep in Hh. pose proof (y_length rx Hrx) as Ly. destruct (rx_l4_bounds rx Hrx) as (B1 & B2 & B3).
  pose proof (tr_len _ _ _ Ht) as Htot. pose proof (blen_nonneg y) as Hy0. pose proof l3_cases as [_ H40]. pose proof (y_wf rx Hrx) as Wy.
  destruct (raw16_slice b _ _ (rx_wf rx Hrx) Hck) as [_ Eck]. change (raw_bytes16 0) with [0; 0] in Eck.
  assert (Edl : pkt_datagram_len p = blen y).
  { rewrite datagram_len_eq by (exact from4_geom || done). change (blen b - rx_l4 rx = blen y). lia. }
  assert (Ez : slice z 0 8 = splice (new_header 8 (l4_6 src) (l4_6 dst) y) 6 [0; 0]).
  { unfold z. rewrite (slice_ports 8 6) by lia. assert (Esl : slice y 6 2 = [0; 0]).
    { rewrite <- Eck. unfold slice. rewrite drop_drop. do 2 f_equal. lia. }
    destruct y as [|y0 [|y1 [|y2 [|y3 [|y4 [|y5 [|y6 [|y7 y']]]]]]]]; try (unfold blen in Hhy; cbn in Hhy; lia).
    injection Esl as -> ->. done. }
  assert (Epl : drop (Z.to_nat (xpayload p - xdata p)) (skb_all p) = drop 8 y).
  { unfold skb_all. change (x_frags p) with (@nil bytes). change (xdata p) with 0. change (x_bytes p) with b. change (xpayload p) with (payload_offset m).
    cbn [concat]. rewrite app_nil_r, drop_0, drop_drop. f_equal. lia. }
  unfold zero_csum. rewrite Edl, Epl, Ez. set (hz := splice _ 6 [0; 0]).
  assert (Whz : wf_bytes hz) by (apply wf_splice; [apply new_header_wf, Wy|apply zero_pair_wf]).
  destruct (csum_partial_law hz 0 Whz zero_u32) as [U1 C1]. destruct (csum_partial_law (drop 8 y) _ (wf_drop 8 _ Wy) U1) as [U2 C2].
  destruct (csum_ipv6_magic_law bs bd (blen y) IPPROTO_UDP _ W61 W62 L61 L62 ltac:(unfold is_u32; lia) ltac:(done) U2) as [U3 C3].
  cbn [fst snd]. rewrite segment_sum by (first [lia | done | exists 4%nat; done | exists 3%nat; done]). fold hz. rewrite Ep. cbn [nexthdr_of].
  change NEXTHDR_UDP with IPPROTO_UDP. rewrite C3, C2, C1. change (Z.to_nat 8) with 8%nat. exists 0. lia.
Qed.

Lemma udp_46 hdr d s : rx_l4_proto rx = L4PROTO_UDP -> x_in s = p -> blen hdr = l3 -> addrs6 hdr 0 = Some (bs, bd) -> blen d = blen y ->
  let o := with_bytes (hdr ++ d) out0 in
  exists seg sm cs, ttp46_udp e (Some tup) (wro o s) = Some (VERDICT_CONTINUE, wro (with_summed sm cs (with_bytes (hdr ++ seg) o)) s) /\
    new_seg L4PROTO_UDP (l4_6 src) (l4_6 dst) y seg /\
    (no_checksum rx = false -> summed <> CHECKSUM_PARTIAL ->
     raw_sum seg + raw_sum (pseudo6 bs bd (blen y) (nexthdr_of (rx_l4_proto rx))) ≡c checked_sum rx) /\
    (no_checksum rx = true -> raw_sum seg + raw_sum (pseudo6 bs bd (blen y) (nexthdr_of (rx_l4_proto rx))) ≡c 0).
Proof.
  intros Ep Es Lh Ha6 Ld o. pose proof from4_geom as Gp. pose proof from4_rx as Hrx. pose proof from4_addrs as (Ha4 & _ & _).
  destruct (tr_header rx _ _ Ht) as [Hh Hhy]. rewrite Ep in Hh. pose proof (y_length rx Hrx) as Ly. pose proof l3_cases as [_ H40].
  destruct (rx_l4_bounds rx Hrx) as (B1 & B2 & B3).
  destruct (raw16_some b (rx_l4 rx + 6)) as [cksum Hck]; [lia..|].
  destruct (ttp46_udp_run e src dst l4 o s hdr d (slice b 12 4, slice b 16 4) (bs, bd) cksum p y h) as (sm & cs & Hrun);
    try done; try lia; [apply from4_out_geom; done|change (l3 + h = blen hdr + h); lia|change (0 + 40 <= blen hdr); lia|].
  eexists _, sm, cs. split; [exact Hrun|]. clear Hrun. rewrite (xlat_segment_eq 8 6) by lia. set (ck := csum46_udp _ _ _ _ _ _).
  destruct (tr_wf _ _ _ Ht) as ([_ Wsp] & [_ Wdp] & _). split; [|split].
  - apply ports_seg; try done; try lia. auto.
  - intros Hn Hs. assert (Hz : (cksum =? 0) = false).
    { apply Z.eqb_neq. intros ->. unfold no_checksum in Hn. apply bool_decide_eq_false_1 in Hn. apply Hn. done. }
    subst ck. unfold csum46_udp. rewrite Hz. apply sums_46; try done; try lia. auto.
  - intros Hn. unfold no_checksum in Hn. apply bool_decide_eq_true_1 in Hn as (_ & _ & Hz). rewrite Hck in Hz. injection Hz as ->.
    subst ck. unfold csum46_udp. cbn [Z.eqb]. apply zero_46; done.
Qed.

Lemma echo_46 inner hdr d s : rx_l4_proto rx = L4PROTO_ICMP -> x_in s = p -> blen hdr = l3 -> addrs6 hdr 0 = Some (bs, bd) -> blen d = blen y ->
  let o := with_bytes (hdr ++ d) out0 in
  exists seg, ttp46_icmp e inner (Some tup) (wro o s) = Some (VERDICT_CONTINUE, wro (with_bytes (hdr ++ seg) o) s) /\
    new_seg L4PROTO_ICMP (l4_6 src) (l4_6 dst) y seg /\ (t ← ld8 seg 0; echo_code L3PROTO_IPV6 t) = echo_type rx /\
    raw_sum seg + raw_sum (pseudo6 bs bd (blen y) NEXTHDR_ICMP) ≡c checked_sum rx.
Proof.
  intros Ei Es Lh Ha6 Ld o. pose proof from4_geom as Gp. pose proof from4_rx as Hrx. destruct from4_addrs as (Ha4 & W4 & W6).
  destruct (tr_header rx _ _ Ht) as [Hh Hhy]. rewrite Ei in Hh. pose proof (y_length rx Hrx) as Ly.
  destruct (rx_l4_bounds rx Hrx) as (B1 & B2 & B3). pose proof (tr_len _ _ _ Ht) as Htot. pose proof l3_cases as [_ H40].
  assert (Hty : exists type type6, ld8 b (rx_l4 rx) = Some type /\ echo_code L3PROTO_IPV6 type6 = echo_type rx /\ is_u8 type6 /\
    ((type = ICMP_ECHO /\ type6 = ICMPV6_ECHO_REQUEST) \/ (type = ICMP_ECHOREPLY /\ type6 = ICMPV6_ECHO_REPLY))).
  { destruct (tr_echo _ _ _ Ht Ei) as [x Hx]. unfold echo_type in *. destruct (ld8 b (rx_l4 rx)) as [t|]; [|done].
    cbn [mbind option_bind] in *. rewrite H4 in *. unfold echo_code in *. exists t.
    destruct (Z.eqb_spec t ICMP_ECHO); [exists ICMPV6_ECHO_REQUEST; split_and!; try done; auto|].
    destruct (Z.eqb_spec t ICMP_ECHOREPLY); [exists ICMPV6_ECHO_REPLY; split_and!; try done; auto|done]. }
  destruct Hty as (type & type6 & Etype & Eecho & Wt6 & Hty).
  destruct (raw16_some b (rx_l4 rx + 2)) as [cksum Hck]; [lia..|].
  destruct (raw16_slice b _ _ (rx_wf rx Hrx) Hck) as [Wck Eck].
  pose proof (ttp46_echo_run e inner type type6 src dst l4 o s hdr (take 8 d) (drop 8 d) p y (bs, bd) cksum) as Hrun.
  cbv zeta in Hrun. eexists. split; [apply Hrun; try done|]; clear Hrun.
  - apply from4_out_geom; done.
  - change (x_bytes o) with (hdr ++ d). rewrite take_drop. done.
  - rewrite length_take. unfold blen in *. lia.
  - change (l3 + h = blen hdr + 8). lia.
  - change (payload_offset m = rx_l4 rx + 8). lia.
  - unfold blen in *. rewrite length_drop. lia.
  - change (0 + 40 <= blen hdr). lia.
  - set (ck := icmp46_csum _ _ _ _ _). pose proof (tr_wf _ _ _ Ht) as ([_ Wsp] & _).
    destruct (echo_fields type6 ck (l4_6 src) y ltac:(lia) Wsp) as (F0 & F4 & Fk & Lseg).
    assert (Esl : slice y 2 2 = raw_bytes16 cksum).
    { rewrite <- Eck. unfold slice. rewrite drop_drop. do 2 f_equal. lia. }
    assert (Wq : wf_bytes (slice y 6 2)) by apply wf_slice, y_wf, Hrx.
    assert (Lq : length (slice y 6 2) = 2%nat) by (apply slice_length; lia).
    assert (Edl : pkt_datagram_len p = blen y).
    { rewrite datagram_len_eq by done. change (blen b - rx_l4 rx = blen y). lia. }
    split; [|split].
    + split; [|exact Lseg|exact F4|exact Fk]. apply wf_bytes_app; [apply echo_header_wf; done|apply wf_drop, y_wf, Hrx].
    + rewrite F0. exact Eecho.
    + destruct (echo46_residue cksum (pkt_datagram_len p) y (bs, bd)) with (type := type6) (id := l4_6 src) (q := slice y 6 2)
        as [_ Hres]; try done; [apply y_wf, Hrx|lia|rewrite Edl; unfold is_u32; lia|]. fold ck in Hres. rewrite Edl in Hres. cbn [fst snd] in Hres.
      rewrite Hres. unfold checked_sum. rewrite H4, Ei, Z.add_0_r. done.
Qed.

Lemma payload_46 hdr d s : x_in s = p -> blen hdr = l3 -> addrs6 hdr 0 = Some (bs, bd) -> blen d = blen y ->
  let o := with_bytes (hdr ++ d) out0 in
  exists seg sm cs, l3_payload_fn (steps e depth L3PROTO_IPV4 (rx_l4_proto rx)) (Some tup) (wro o s) =
      Some (VERDICT_CONTINUE, wro (with_summed sm cs (with_bytes (hdr ++ seg) o)) s) /\
    new_seg (rx_l4_proto rx) (l4_6 src) (l4_6 dst) y seg /\
    (rx_l4_proto rx = L4PROTO_ICMP -> (t ← ld8 seg 0; echo_code L3PROTO_IPV6 t) = echo_type rx) /\
    (no_checksum rx = false -> summed <> CHECKSUM_PARTIAL ->
     raw_sum seg + raw_sum (pseudo6 bs bd (blen y) (nexthdr_of (rx_l4_proto rx))) ≡c checked_sum rx) /\
    (no_checksum rx = true -> raw_sum seg + raw_sum (pseudo6 bs bd (blen y) (nexthdr_of (rx_l4_proto rx))) ≡c 0).
Proof.
  intros Es Lh Ha6 Ld o. pose proof (tr_known _ _ _ Ht) as Hk. rewrite (tr_l4 _ _ _ Ht) in Hk.
  assert (Hno : rx_l4_proto rx <> L4PROTO_UDP -> no_checksum rx = true -> False).
  { intros Hne Hn. unfold no_checksum in Hn. apply bool_decide_eq_true_1 in Hn as (_ & E & _). done. }
  destruct (rx_l4_proto rx) eqn:E4; [| | |done].
  - destruct (tcp_46 hdr d s) as (seg & sm & cs & Hrun & Hseg & Hsum); try done. exists seg, sm, cs. rewrite E4 in *.
    split; [destruct depth; exact Hrun|]. split_and!; try done. intros Hn. destruct (Hno ltac:(done) Hn).
  - destruct (udp_46 hdr d s) as (seg & sm & cs & Hrun & Hseg & Hsum & Hz); try done. exists seg, sm, cs. rewrite E4 in *.
    split; [destruct depth; exact Hrun|]. split_and!; done.
  - destruct (echo_46 (match depth with O => fun _ => fault | S depth => ttpcomm_translate_inner_packet e (steps e depth) end) hdr d s E4 Es Lh Ha6 Ld)
      as (seg & Hrun & Hseg & Hecho & Hsum). exists seg, CHECKSUM_NONE, None. split; [destruct depth; exact Hrun|]. split_and!; try done.
    intros Hn. destruct (Hno ltac:(done) Hn).
Qed.

Lemma build_payload_len_46 c d s : length c = l3_len46 e fo -> d = drop (l3_len46 e fo) (junk e (l3 + blen y)) ->
  let o := with_bytes (c ++ d) out0 in
  build_payload_len (wro o s) = Some (told e L3PROTO_IPV6 (rx_l4_proto rx) l3 (l3 + blen y) - 40, wro o s).
Proof.
  intros Lc Ed o. pose proof from4_rx as Hrx. pose proof (y_length rx Hrx) as Ly. pose proof (tr_len _ _ _ Ht) as Htot.
  pose proof (blen_nonneg y) as Hy0. destruct (tr_header rx _ _ Ht) as [Hh Hhy]. pose proof l3_cases as [_ H40].
  assert (Lj : blen (junk e (l3 + blen y)) = l3 + blen y) by (apply junk_length; lia).
  assert (Ld : blen d = blen y) by (subst d; unfold blen in *; rewrite length_drop; lia).
  unfold build_payload_len. rewrite !gets_bind. change (x_out (wro o s)) with o. change (xinner o) with false. cbv iota.
  change (pkt_is_fragment o) with false. cbn [negb].
  assert (Esl : skb_len o = l3 + blen y).
  { unfold skb_len, skb_pagelen. change (frags_len (x_frags o)) with 0. change (xdata o) with 0. change (x_bytes o) with (c ++ d).
    rewrite blen_app. unfold blen at 1. rewrite Lc. lia. }
  rewrite Esl, u16_small by lia. unfold xpkt_is_icmp6_error. change (xl4 o) with (rx_l4_proto rx). case_bool_decide as Ei.
  - rewrite Ei in Hh. assert (Et : xpkt_icmp_type o = Some (xe_junk e l3)).
    { unfold xpkt_icmp_type. change (x_bytes o) with (c ++ d). change (xtrans o) with l3.
      replace l3 with (blen c + 0) at 1 by (unfold blen; rewrite Lc; lia). rewrite ld8_app_r by lia. subst d.
      replace (l3_len46 e fo) with (Z.to_nat l3) at 1 by lia. rewrite ld8_drop by lia. unfold ld8, junk. destruct (Z.leb_spec 0 (l3 + 0)); [|lia].
      rewrite list_lookup_fmap, lookup_seqZ_lt by lia. cbn. do 2 f_equal. lia. }
    rewrite !bind_assoc, (load_bind' _ _ _ _ Et), !ret_bind. unfold mret, M_ret. do 2 f_equal. unfold told. rewrite bool_decide_eq_true_2 by done.
    change IPV6_MIN_MTU with 1280. cbn [andb is_error_type max_error]. destruct (_ && _); rewrite u16_small; lia.
  - rewrite bind_assoc, !ret_bind. unfold told. rewrite bool_decide_eq_false_2 by done. cbn [andb]. unfold mret, M_ret. do 2 f_equal. rewrite u16_small; lia.
Qed.

Lemma from4_plain : plain4 p.
Proof.
  intros Ei. destruct (tr_echo _ _ _ Ht Ei) as [x Hx]. pose proof Hx as Hx'. unfold echo_type in Hx. destruct (ld8 b (rx_l4 rx)) as [t|] eqn:Et; [|done].
  exists t. split; [exact Et|]. apply (echo_code4 rx t H4 Et). exists x. exact Hx'.
Qed.

Lemma saddr_46 c d s : x_in s = p -> length c = l3_len46 e fo ->
  generate_saddr6_nat64 e src (wro (with_bytes (c ++ d) out0) s) =
    Some (Ok tt, wro (with_bytes (splice c 8 bs ++ d) out0) s).
Proof.
  intros Es Lc. pose proof l3_cases as [_ H40]. assert (Lc' : blen c = l3) by (unfold blen; rewrite Lc; done).
  unfold generate_saddr6_nat64. rewrite !gets_bind. change (x_in (wro ?o s)) with (x_in s). rewrite Es.
  assert (Herr : forall st : xstate, (if config_src_icmp6errs_better e then xpkt_is_icmp4_error p else mret false) st = Some (false, st)).
  { intros st. destruct (config_src_icmp6errs_better e); [apply plain4_run, from4_plain|done]. }
  rewrite (bind_run _ _ _ _ _ (Herr _)). rewrite x_out_wro. change (xnet (with_bytes (c ++ d) out0)) with 0.
  pose proof (st_mid_bind out0 s (0 + 8) [] c d 8 bs (fun _ => mret (Ok tt))) as H. cbn [app] in H. rewrite H; [done|done|lia|].
  change (blen bs) with 16. lia.
Qed.

Section Run.
Context (s : xstate) (Hin : x_in s = p) (ttl : Z) (Hhop : hop_limit_of rx = Some ttl).

Lemma from4_loads : exists tos id, ld8 b 1 = Some tos /\ is_u8 tos /\ ldn 2 b 4 = Some id /\ ld8 b 8 = Some ttl /\
  ld8 b 9 = Some (protocol_of (rx_l4_proto rx)).
Proof.
  pose proof from4_rx as Hrx. destruct (rx4_layout rx Hrx H4) as (H20 & _). destruct (ld8_some b 1) as [tos Et]; [lia|].
  destruct (ldn_some 2 b 4) as [id Ei]; [lia..|]. exists tos, id. split_and!; try done.
  - exact (ld8_u8 _ _ _ (rx_wf rx Hrx) Et).
  - unfold hop_limit_of in Hhop. rewrite H4 in Hhop. exact Hhop.
  - apply rx4_proto; [done..|]. rewrite <- (tr_l4 _ _ _ Ht). exact (tr_known _ _ _ Ht).
Qed.

Lemma out0_bytes : x_bytes out0 = [] ++ take (l3_len46 e fo) (junk e (l3 + blen y)) ++ drop (l3_len46 e fo) (junk e (l3 + blen y)) /\
  length (take (l3_len46 e fo) (junk e (l3 + blen y))) = l3_len46 e fo.
Proof.
  pose proof (blen_nonneg y). split; [cbn [app]; rewrite take_drop; done|]. rewrite length_take.
  pose proof (junk_length e (l3 + blen y) ltac:(lia)) as Lj. unfold blen at 1 in Lj. lia.
Qed.

Lemma header_46 : 1 < ttl -> has_unexpired_src_route b 0 = Some false ->
  exists tclass id, is_u8 tclass /\
    ttp46_ipv6 e (Some tup) (wro out0 s) = Some (VERDICT_CONTINUE,
      wro (with_bytes (headers46 e tclass (told e L3PROTO_IPV6 (rx_l4_proto rx) l3 (l3 + blen y) - 40) (protocol_of (rx_l4_proto rx)) (ttl - 1) fo id bs bd ++
        drop (l3_len46 e fo) (junk e (l3 + blen y))) out0) s).
Proof.
  intros H1 Hsr. destruct from4_loads as (tos & id & Et & Wt & Ei & Ettl & Epr). destruct out0_bytes as [Eb Lc].
  exists (if config_reset_traffic_class e then 0 else tos), id. split; [destruct (config_reset_traffic_class e); done|].
  apply (ttp46_ipv6_run e src dst l4 out0 s [] (take (l3_len46 e fo) (junk e (l3 + blen y)))
    (drop (l3_len46 e fo) (junk e (l3 + blen y))) p (l3_6 src) tos (protocol_of (rx_l4_proto rx)) ttl fo id (told e L3PROTO_IPV6 (rx_l4_proto rx) l3 (l3 + blen y) - 40)); try done.
  - apply wf_take, junk_wf, Hj.
  - apply rx_wf, from4_rx.
  - intros c' Lc'. exact (saddr_46 c' _ s Hin Lc').
  - intros c' Lc'. exact (build_payload_len_46 c' _ s Lc' eq_refl).
Qed.

Lemma refused_46 error :
  (ttl <= 1 /\ error = ICMPERR_HOP_LIMIT) \/ (1 < ttl /\ error = ICMPERR_SRC_ROUTE /\ has_unexpired_src_route b 0 = Some true) ->
  exists o', ttp46_ipv6 e (Some tup) (wro out0 s) =
    Some (VERDICT_DROP, XState (x_in s) o' (XStat IPSTATS_MIB_INHDRERRORS :: XIcmp error 0 :: x_events s) (x_allocs s) (x_randoms s)).
Proof.
  intros Hcase. destruct from4_loads as (tos & id & Et & Wt & Ei & Ettl & Epr). destruct out0_bytes as [Eb Lc].
  apply (ttp46_ipv6_drop e src dst l4 out0 s [] (take (l3_len46 e fo) (junk e (l3 + blen y)))
    (drop (l3_len46 e fo) (junk e (l3 + blen y))) p (l3_6 src) tos (protocol_of (rx_l4_proto rx)) ttl fo (told e L3PROTO_IPV6 (rx_l4_proto rx) l3 (l3 + blen y) - 40)) with (1 := Hnat); try done.
  - intros c' Lc'. exact (saddr_46 c' _ s Hin Lc').
  - intros c' Lc'. exact (build_payload_len_46 c' _ s Lc' eq_refl).
  - destruct Hcase as [(? & ?)|(? & ? & ?)]; [left|right]; done.
Qed.

Lemma from4_create :
  skb_create_fn e (x_l3_proto (x_in s)) s =
    if (kmalloc (x_allocs s)).1
    then Some (VERDICT_CONTINUE, wro out0 (with_al (kmalloc (x_allocs s)).2 s))
    else Some (VERDICT_DROP, XState p (x_out s) (XStat IPSTATS_MIB_INDISCARDS :: x_events s) (kmalloc (x_allocs s)).2 (x_randoms s)).
Proof.
  pose proof from4_rx as Hrx. assert (E3 : x_l3_proto (x_in s) = L3PROTO_IPV4) by (rewrite Hin; exact H4).
  rewrite E3, (y_length rx Hrx), (proj1 l3_cases). apply (create46_run e s p fo (eq_sym Hin) from4_geom from4_plain); [|exact Hfo].
  pose proof (tr_size _ _ _ Ht). change (blen b + 48 < 2 ^ 31). lia.
Qed.

End Run.

Section Whole.
Context (s : xstate) (Hin : x_in s = p) (ttl : Z) (Hhop : hop_limit_of rx = Some ttl) (Hmem : (kmalloc (x_allocs s)).1 = true).
Abbreviation s1 := (with_al (kmalloc (x_allocs s)).2 s).

Lemma from4_drops error :
  (ttl <= 1 /\ error = ICMPERR_HOP_LIMIT) \/ (1 < ttl /\ error = ICMPERR_SRC_ROUTE /\ has_unexpired_src_route b 0 = Some true) ->
  exists s', translating_the_packet e depth (Some tup) s = Some (VERDICT_DROP, s') /\ x_in s' = x_in s /\ x_allocs s' = (kmalloc (x_allocs s)).2 /\
    x_events s' = XFreeOut :: XStat IPSTATS_MIB_INHDRERRORS :: XIcmp error 0 :: x_events s.
Proof.
  intros Hcase. destruct (refused_46 s1 Hin ttl Hhop error Hcase) as (o' & Hr). pose proof (from4_create s Hin) as Hc. rewrite Hmem in Hc.
  eexists. split.
  - eapply translating_refused; [exact Hc|]. rewrite Hin. cbn [x_l3_proto of_rx]. rewrite H4, hdr_fn46. exact Hr.
  - done.
Qed.

Lemma from4_sends : 1 < ttl -> has_unexpired_src_route b 0 = Some false ->
  exists s', translating_the_packet e depth (Some tup) s = Some (VERDICT_CONTINUE, s') /\ x_in s' = x_in s /\ x_allocs s' = (kmalloc (x_allocs s)).2 /\
    x_events s' = x_events s /\ received (x_out s') /\ sent e summed rx (to_rx (x_out s')) tup.
Proof.
  intros H1 Hsr. pose proof (from4_create s Hin) as Hc. rewrite Hmem in Hc. pose proof from4_rx as Hrx. pose proof (blen_nonneg y) as Hy0.
  pose proof l3_cases as [_ H40]. destruct (header_46 s1 Hin ttl Hhop H1 Hsr) as (tclass & id & Wtc & Hh).
  set (hdr := headers46 e tclass (told e L3PROTO_IPV6 (rx_l4_proto rx) l3 (l3 + blen y) - 40) (protocol_of (rx_l4_proto rx)) (ttl - 1) fo id bs bd) in *.
  assert (Lh : length hdr = l3_len46 e fo) by (apply headers46_length; apply be_bytes_length).
  assert (Lh' : blen hdr = l3) by (unfold blen; rewrite Lh; done).
  assert (Lj : blen (junk e (l3 + blen y)) = l3 + blen y) by (apply junk_length; lia).
  destruct (payload_46 hdr (drop (l3_len46 e fo) (junk e (l3 + blen y))) s1) as (seg & sm & cs & Hp & Hnew & Hecho & Hsum & Hzero);
    [exact Hin|exact Lh'| | |].
  - rewrite addrs6_some; [|lia|lia].
    destruct (headers46_fields e tclass (told e L3PROTO_IPV6 (rx_l4_proto rx) l3 (l3 + blen y) - 40) (ttl - 1) fo id (rx_l4_proto rx) bs bd [] hdr) as (_ & _ & _ & Fs & Fd & _);
      [apply be_bytes_length..| |rewrite app_nil_r; done|].
    + pose proof (tr_len _ _ _ Ht) as Htot. rewrite <- y_length in Htot by done.
      pose proof (told_range e L3PROTO_IPV6 (rx_l4_proto rx) l3 (l3 + blen y)) as Hrange. cbn [max_error] in Hrange. unfold is_u16. lia.
    + change (0 + 8) with 8. change (0 + 24) with 24. rewrite Fs, Fd. done.
  - unfold blen in *. rewrite length_drop. lia.
  - eexists. split.
    + eapply (translating_done e depth (Some tup) s); [exact Hc| |rewrite Hin; cbn [x_l3_proto of_rx]; rewrite H4; exact Hp|].
      * rewrite Hin. cbn [x_l3_proto of_rx]. rewrite H4, hdr_fn46. exact Hh.
      * cbn [wro x_in with_al]. rewrite Hin. done.
    + split; [done|]. split; [done|]. split; [done|]. split; [reflexivity|].
      assert (Wttl : is_u8 ttl) by (unfold hop_limit_of in Hhop; rewrite H4 in Hhop; exact (ld8_u8 _ _ _ (rx_wf rx Hrx) Hhop)).
      apply (sent6 e rx summed tup src dst l4 tclass (told e L3PROTO_IPV6 (rx_l4_proto rx) l3 (l3 + blen y) - 40) id fo (ttl - 1) seg false sm cs Ht H4); try done.
      * exact (proj2 (proj2 (rx4_layout rx Hrx H4)) fo Hfo).
      * unfold is_u8 in *. lia.
      * rewrite Hhop. f_equal. lia.
      * intros Ei. rewrite <- (Hecho Ei). unfold echo_type. cbn [to_rx rx_skb sk_bytes x_bytes rx_layout lo_l3_proto x_l3_proto].
        change (rx_l4 (to_rx _)) with l3. fold hdr. replace l3 with (blen hdr + 0) by lia. rewrite ld8_app_r by lia. done.
Qed.

End Whole.

Lemma from4_outcome s refused : x_in s = p -> refusal rx = Some refused ->
  exists v s', translating_the_packet e depth (Some tup) s = Some (v, s') /\ x_in s' = x_in s /\ x_allocs s' = (kmalloc (x_allocs s)).2 /\ xlat_outcome e summed rx tup refused s v s'.
Proof.
  intros Hin Hr. unfold refusal in Hr. rewrite H4 in Hr. destruct (hop_limit_of rx) as [ttl|] eqn:Hhop; [|done]. cbn [mbind option_bind] in Hr.
  unfold xlat_outcome. pose proof (from4_create s Hin) as Hc. destruct (kmalloc (x_allocs s)).1 eqn:Hm; cbn [negb].
  - destruct (Z.leb_spec ttl 1); [|destruct (has_unexpired_src_route b 0) as [[]|] eqn:Hsr; [| |done]]; injection Hr as <-.
    + destruct (from4_drops s Hin ttl Hhop Hm ICMPERR_HOP_LIMIT) as (s' & ? & ? & ? & ?); [left; done|]. exists VERDICT_DROP, s'. done.
    + destruct (from4_drops s Hin ttl Hhop Hm ICMPERR_SRC_ROUTE) as (s' & ? & ? & ? & ?); [right; done|]. exists VERDICT_DROP, s'. done.
    + destruct (from4_sends s Hin ttl Hhop Hm) as (s' & ? & ? & ? & ? & ?); [done..|]. exists VERDICT_CONTINUE, s'. done.
  - eexists VERDICT_DROP, _. split; [apply translating_no_memory; exact Hc|]. rewrite Hin. done.
Qed.

End From4.


Lemma scene_syn4_translatable :
  translatable (scene_rx L3PROTO_IPV4 scene_syn4) (Tuple6 (TAddr6 (In6Addr 1) 80) (TAddr6 (In6Addr 2) 443) L4PROTO_TCP) 40.
Proof.
  split; try done.
  apply scene_rx_ok; [apply scene_bytes_wf|vm_compute; congruence|intros f [= <-]; reflexivity|vm_compute; reflexivity].
Qed.

