(* ===== verification/Core.v ===== *)
(** * The core of the translator

    What the kernel calls for every packet ([mod/common/core.c]), the sending
    of the translated packet ([mod/common/send_packet.c]), the packets that
    turn around because they go from a node Jool translates to another
    ([mod/stateful/handling_hairpinning.c] and
    [mod/stateless/handling_hairpinning.c]) and the ICMP messages that stand
    for the translator's own errors ([mod/common/icmp_wrapper.c]).

    The state of [core_common] is the stateful databases and the two packets.
    The kernel's [dst_output] is an oracle that says whether it took the packet. *)
From S2P Require Import Prelude Types Address Rfc6052 Pool6 Pool4Table Pool4Db RbTree BibTable BibDb PortAlloc.
From S2P Require Import Packet SessionEntry PktQueue SessionTable Tcp SessionSpec SessionDb Filtering FilteringSpec StaticRoutes Nat64 Guarantees Skb InTuple.
From S2P Require Import Checksum XlatPkt Xlat64 Xlat46 Xlat XlatSpec Wire Sent Translate64 Translate46.

(** ** mod/common/icmp_wrapper.c *)

Definition ICMP_EXC_TTL : Z := 0.
Definition ICMPV6_EXC_HOPLIMIT : Z := 0.

(** The type and the code of the message; [None] when nothing is sent. *)
Definition icmp4_send (error : icmp_error_code) : option (Z * Z) :=
  match error with
  | ICMPERR_ADDR_UNREACHABLE => Some (ICMP_DEST_UNREACH, ICMP_HOST_UNREACH)
  | ICMPERR_PORT_UNREACHABLE => Some (ICMP_DEST_UNREACH, ICMP_PORT_UNREACH)
  | ICMPERR_PROTO_UNREACHABLE => Some (ICMP_DEST_UNREACH, ICMP_PROT_UNREACH)
  | ICMPERR_HOP_LIMIT => Some (ICMP_TIME_EXCEEDED, ICMP_EXC_TTL)
  | ICMPERR_FRAG_NEEDED => Some (ICMP_DEST_UNREACH, ICMP_FRAG_NEEDED)
  | ICMPERR_FILTER => Some (ICMP_DEST_UNREACH, ICMP_PKT_FILTERED)
  | ICMPERR_SRC_ROUTE => Some (ICMP_DEST_UNREACH, ICMP_SR_FAILED)
  | _ => None
  end.

Definition icmp6_send (error : icmp_error_code) : option (Z * Z) :=
  match error with
  | ICMPERR_ADDR_UNREACHABLE => Some (ICMPV6_DEST_UNREACH, ICMPV6_ADDR_UNREACH)
  | ICMPERR_PORT_UNREACHABLE | ICMPERR_PROTO_UNREACHABLE => Some (ICMPV6_DEST_UNREACH, ICMPV6_PORT_UNREACH)
  | ICMPERR_HOP_LIMIT => Some (ICMPV6_TIME_EXCEED, ICMPV6_EXC_HOPLIMIT)
  | ICMPERR_FILTER => Some (ICMPV6_DEST_UNREACH, ICMPV6_ADM_PROHIBITED)
  | ICMPERR_HDR_FIELD => Some (ICMPV6_PARAMPROB, ICMPV6_HDR_FIELD)
  | ICMPERR_FRAG_NEEDED => Some (ICMPV6_PKT_TOOBIG, 0)
  | _ => None
  end.

(** [icmp64_send], for the packet Jool was given: [has_dev], its buffer has a
    device; [routed], the kernel found the IPv4 route back. *)
Definition icmp64_message (protocol : l3_protocol) (has_dev routed : bool) (error : icmp_error_code) (info : Z) : option (Z * Z * Z) :=
  if negb has_dev then None
  else match protocol with
  | L3PROTO_IPV4 => if negb routed then None else '(type, code) ← icmp4_send error; Some (type, code, info)
  | L3PROTO_IPV6 => '(type, code) ← icmp6_send error; Some (type, code, info)
  end.

(** ** mod/common/send_packet.c *)

Section Send.
Context (e : xenv) (dst_output : xpkt -> bool).

Definition route (out : xpkt) : option Z :=
  match x_l3_proto out with L3PROTO_IPV6 => xe_route6 e out | L3PROTO_IPV4 => xe_route4 e out end.

(** [mtu] is the one of the device the packet was routed to. *)
Definition whine_if_too_big (mtu : Z) : M xstate (result unit) :=
  p ← gets x_in;
  out ← gets x_out;
  fragmentable ←
    (if bool_decide (x_l3_proto p = L3PROTO_IPV4)
     then frag_off ← ld_in (fun b => raw16 b (xnet p + 6)); mret (is_dont_fragment_set frag_off =? 0)
     else mret false);
  if fragmentable : bool then mret (Ok tt)
  else if mtu <? pkt_len out then
    xicmp64_send ICMPERR_FRAG_NEEDED (u32 (match x_l3_proto out with L3PROTO_IPV6 => mtu - 20 | L3PROTO_IPV4 => mtu + 20 end));;
    mret (Err EINVAL)
  else mret (Ok tt).

Definition sendpkt_send : M xstate verdict :=
  out ← gets x_out;
  match route out with
  | None => xemit XFreeOut;; mret VERDICT_ACCEPT
  | Some mtu =>
      error ← whine_if_too_big mtu;
      match error with
      | Err _ => xemit XFreeOut;; mret VERDICT_DROP
      | Ok _ => xemit (XSend out);; mret (if dst_output out then VERDICT_CONTINUE else VERDICT_DROP)
      end
  end.

End Send.

(** ** mod/common/core.c *)

Definition cstate : Type := fworld * xstate.

Definition on_fw {A} (m : M fworld A) : M cstate A := fun '(w, x) =>
  match m w with Some (a, w) => Some (a, (w, x)) | None => None end.
Definition on_x {A} (m : M xstate A) : M cstate A := fun '(w, x) =>
  match m x with Some (a, x) => Some (a, (w, x)) | None => None end.

Section Core.
Context {R : RbTree} {K : KernelCsum} {T : SiitTables} (c : config) (e : xenv) (depth : nat) (dst_output : xpkt -> bool).

(** The packet that has just been written comes in. *)
Definition turn_around : M xstate unit := modify (fun s =>
  XState (x_out s) (x_out s) (x_events s) (x_allocs s) (x_randoms s)).

(** The fields of the packet that turns around; its original packet is the
    one Jool was given. *)
Definition hairpin_packet (rx : rx_packet) (out : xpkt) : packet :=
  let p := packet_of (to_rx out) in
  Packet (pkt_id p) (sk_id (rx_skb rx)) (pkt_l3_proto p) (pkt_l4_proto p) (pkt_mark p) (pkt_saddr6 p) (pkt_daddr6 p)
    (pkt_syn p) (pkt_fin p) (pkt_rst p) (pkt_icmp_type p).

(** What the two [handling_hairpinning]s end with. *)
Definition send_again (tuple_out : option tuple) : M cstate verdict :=
  result ← on_x (translating_the_packet e depth tuple_out);
  if negb (bool_decide (result = VERDICT_CONTINUE)) then mret result
  else on_x (sendpkt_send e dst_output).

Definition handling_hairpinning (rx : rx_packet) (tuple_in : tuple) : M cstate verdict :=
  out ← gets (fun s => x_out (snd s));
  on_x turn_around;;
  '(result, tuple_out) ← on_fw (update_tuples c (hairpin_packet rx out) tuple_in);
  if negb (bool_decide (result = VERDICT_CONTINUE)) then mret result
  else send_again tuple_out.

(** Of the stateless translator. *)
Definition handling_hairpinning_siit : M cstate verdict :=
  on_x turn_around;;
  send_again None.

(** The stateful translator's [is_hairpin] asks the pool, the stateless one's
    the packet. *)
Definition core_is_hairpin (out : xpkt) (tuple_out : option tuple) : option bool :=
  match tuple_out with Some tup => is_hairpin c tup | None => Some (x_is_hairpin out) end.

Definition core_common (rx : rx_packet) (summed : ip_summed) (csum : option (Z * Z)) (mtu : option Z) : M cstate verdict :=
  on_x (upd_in (fun _ => of_rx rx summed csum mtu));;
  '(result, tuple_out) ← (if negb (xlat_is_siit e) then on_fw (core_tuples c rx) else mret (VERDICT_CONTINUE, None));
  if negb (bool_decide (result = VERDICT_CONTINUE)) then mret result
  else
    result ← on_x (translating_the_packet e depth tuple_out);
    if negb (bool_decide (result = VERDICT_CONTINUE)) then mret result
    else
      out ← gets (fun s => x_out (snd s));
      hairpin ← load (core_is_hairpin out tuple_out);
      result ←
        (if hairpin : bool then
           result ← (match tuple_out with Some tup => handling_hairpinning rx tup | None => handling_hairpinning_siit end);
           on_x (xemit XFreeOut);;
           mret result
         else on_x (sendpkt_send e dst_output));
      if negb (bool_decide (result = VERDICT_CONTINUE)) then mret result
      else on_x (xemit XFreeIn);; mret VERDICT_STOLEN.

(** The packet the kernel hands over, with what the hooks look at. *)
Record hook_args : Type := HookArgs {
  h_disabled : bool;
  h_namespace : bool;
  h_mark : Z;
  h_summed : ip_summed;
  h_csum : option (Z * Z);
  h_mtu : option Z
}.

(** [fragdb_handle], as it is compiled for kernels that defragment IPv6 before
    the hook (3.13 on). *)
Definition fragdb_handle (rx : rx_packet) : option verdict :=
  frag_off ← (match frag_offset (lo_meta (rx_layout rx)) with
              | Some o => f ← raw16 (rx_bytes rx) (o + 2); Some (Some f)
              | None => Some None
              end);
  Some (if is_fragmented_ipv6 frag_off then VERDICT_DROP else VERDICT_CONTINUE).

Definition hstate : Type := sk_state * cstate.

Definition on_sk {A} (m : M sk_state A) : M hstate A := fun '(k, s) =>
  match m k with Some (a, k) => Some (a, (k, s)) | None => None end.
Definition on_core {A} (m : M cstate A) : M hstate A := fun '(k, s) =>
  match m s with Some (a, s) => Some (a, (k, s)) | None => None end.

Definition core_4to6 (h : hook_args) : M hstate verdict :=
  if h_disabled h then mret VERDICT_ACCEPT
  else if negb (h_namespace h) then mret VERDICT_ACCEPT
  else
    error ← on_sk (pkt_init_ipv4 (xlat_is_siit e));
    match error with
    | Err _ => mret VERDICT_DROP
    | Ok pkt =>
        skb ← gets (fun s => st_skb (fst s));
        on_core (core_common (RxPacket skb pkt (h_mark h)) (h_summed h) (h_csum h) (h_mtu h))
    end.

Definition core_6to4 (h : hook_args) : M hstate verdict :=
  if h_disabled h then mret VERDICT_ACCEPT
  else if negb (h_namespace h) then mret VERDICT_ACCEPT
  else
    error ← on_sk (pkt_init_ipv6 (xlat_is_siit e));
    match error with
    | Err _ => mret VERDICT_DROP
    | Ok pkt =>
        skb ← gets (fun s => st_skb (fst s));
        let rx := RxPacket skb pkt (h_mark h) in
        result ← (if negb (xlat_is_siit e) then load (fragdb_handle rx) else mret VERDICT_CONTINUE);
        if negb (bool_decide (result = VERDICT_CONTINUE)) then mret result
        else on_core (core_common rx (h_summed h) (h_csum h) (h_mtu h))
    end.

End Core.
