(* ===== verification/CoreSpec.v ===== *)
(** * What the core does with a packet

    The relations that say what may happen to a packet that comes in
    ([processed]), in terms of the sessions, of the packets that leave ([sent])
    and of what becomes of the buffers, and the proof that [core_common] and the
    hooks implement them. *)
From S2P Require Import Prelude Types Address Rfc6052 Pool6 Pool4Table Pool4Db RbTree BibTable BibDb PortAlloc.
From S2P Require Import Packet SessionEntry PktQueue SessionTable Tcp SessionSpec SessionDb Filtering FilteringSpec StaticRoutes Nat64 Guarantees Skb InTuple.
From S2P Require Import Checksum XlatPkt Xlat64 Xlat46 Xlat XlatSpec Wire Sent Translate64 Translate46 Core.

(** ** Specification *)

(** A packet the core may be given: validated, no ICMP error, short enough for
    its translation to have a length, its TCP header complete, with IPv4 options
    that end. *)
Record presentable (rx : rx_packet) : Prop := {
  pr_ok : rx_ok rx;
  pr_tcp : rx_l4_proto rx = L4PROTO_TCP -> rx_l4 rx + 20 <= payload_offset (lo_meta (rx_layout rx));
  pr_echo : rx_l4_proto rx = L4PROTO_ICMP -> is_Some (echo_type rx);
  pr_options : lo_l3_proto (rx_layout rx) = L3PROTO_IPV4 -> is_Some (has_unexpired_src_route (sk_bytes (rx_skb rx)) 0);
  pr_size : blen (sk_bytes (rx_skb rx)) + 48 < 2 ^ 31;
  pr_len : 48 + (blen (sk_bytes (rx_skb rx)) - rx_l4 rx) < 2 ^ 16
}.

(** The next hop may not fragment the packet. *)
Definition unfragmentable (rx : rx_packet) : bool :=
  match lo_l3_proto (rx_layout rx) with
  | L3PROTO_IPV6 => true
  | L3PROTO_IPV4 => match raw16 (sk_bytes (rx_skb rx)) 6 with Some f => negb (is_dont_fragment_set f =? 0) | None => true end
  end.

(** The translation did not succeed. *)
Inductive untranslated (rx : rx_packet) : list xevent -> Prop :=
| untranslated_memory : untranslated rx [XStat IPSTATS_MIB_INDISCARDS]
| untranslated_refused error info : refusal rx = Some (Some (error, info)) ->
    untranslated rx [XFreeOut; XStat IPSTATS_MIB_INHDRERRORS; XIcmp error info].

Section Spec.
Context {R : RbTree} (c : config) (e : xenv) (dst_output : xpkt -> bool).

(** [out], the translation of [rx], goes on its way. *)
Inductive delivered (rx : rx_packet) (out : xpkt) : verdict -> list xevent -> Prop :=
| delivered_no_route : route e out = None -> delivered rx out VERDICT_ACCEPT [XFreeOut]
| delivered_too_big mtu : route e out = Some mtu -> unfragmentable rx = true -> mtu < blen (x_bytes out) ->
    delivered rx out VERDICT_DROP
      [XFreeOut; XIcmp ICMPERR_FRAG_NEEDED (u32 (match x_l3_proto out with L3PROTO_IPV6 => mtu - 20 | L3PROTO_IPV4 => mtu + 20 end))]
| delivered_handed mtu : route e out = Some mtu -> unfragmentable rx = false \/ blen (x_bytes out) <= mtu ->
    delivered rx out (if dst_output out then VERDICT_CONTINUE else VERDICT_DROP) [XSend out].

Definition translates (summed : ip_summed) (rx : rx_packet) (out : xpkt) (tup : tuple) : Prop :=
  refusal rx = Some None /\ received out /\ sent e summed rx (to_rx out) tup.

Inductive forwarded (summed : ip_summed) (rx : rx_packet) (tup : tuple) : verdict -> list xevent -> Prop :=
| forwarded_not ev : untranslated rx ev -> forwarded summed rx tup VERDICT_DROP ev
| forwarded_on out v ev : translates summed rx out tup -> delivered rx out v ev -> forwarded summed rx tup v ev.

(** The packet [out], translated for [tup], comes in: it needs a session of its
    own. *)
Inductive hairpinned (rx : rx_packet) (out : xpkt) (tup : tuple) (w w' : fworld) : verdict -> list xevent -> Prop :=
| hairpinned_not v : v <> VERDICT_CONTINUE -> update_tuples c (hairpin_packet rx out) tup w = Some ((v, None), w') ->
    hairpinned rx out tup w w' v []
| hairpinned_on x v ev : update_tuples c (hairpin_packet rx out) tup w = Some ((VERDICT_CONTINUE, Some (out_tuple_of x tup)), w') ->
    x ∈ db_entries (l4_proto tup) (f_db w') -> matches tup x ->
    forwarded (x_summed out) (to_rx out) (out_tuple_of x tup) v ev -> hairpinned rx out tup w w' v ev.

(** The session [x] lets the packet, whose tuple is [tup], through. *)
Definition permitted (rx : rx_packet) (tup : tuple) (x : session_entry) (w w' : fworld) : Prop :=
  core_tuples c rx w = Some ((VERDICT_CONTINUE, Some (out_tuple_of x tup)), w') /\
  tuple_of (packet_of rx) tup /\ x ∈ db_entries (l4_proto tup) (f_db w') /\ matches tup x /\
  filtered c (packet_of rx) tup (f_db w) (f_db w').

(** The packet that came in is released exactly if its translation was sent. *)
Definition finish (v : verdict) (ev : list xevent) : verdict * list xevent :=
  if bool_decide (v = VERDICT_CONTINUE) then (VERDICT_STOLEN, XFreeIn :: ev) else (v, ev).

Inductive processed (summed : ip_summed) (rx : rx_packet) (w w' : fworld) : verdict * list xevent -> Prop :=
| processed_not v : v <> VERDICT_CONTINUE -> core_tuples c rx w = Some ((v, None), w') -> processed summed rx w w' (v, [])
| processed_untranslated tup x ev : permitted rx tup x w w' -> untranslated rx ev -> processed summed rx w w' (VERDICT_DROP, ev)
| processed_forwarded tup x out v ev : permitted rx tup x w w' -> is_hairpin c (out_tuple_of x tup) = Some false ->
    translates summed rx out (out_tuple_of x tup) -> delivered rx out v ev -> processed summed rx w w' (finish v ev)
| processed_hairpinned tup x w1 out v ev : permitted rx tup x w w1 -> is_hairpin c (out_tuple_of x tup) = Some true ->
    translates summed rx out (out_tuple_of x tup) -> hairpinned rx out (out_tuple_of x tup) w1 w' v ev ->
    processed summed rx w w' (finish v (XFreeOut :: ev)).

End Spec.

(** ** Runs *)

Lemma on_fw_run {A} (m : M fworld A) w x a w' : m w = Some (a, w') -> on_fw m (w, x) = Some (a, (w', x)).
Proof. intros H. unfold on_fw. rewrite H. done. Qed.

Lemma on_x_run {A} (m : M xstate A) w x a x' : m x = Some (a, x') -> on_x m (w, x) = Some (a, (w, x')).
Proof. intros H. unfold on_x. rewrite H. done. Qed.

Lemma gets_out {A} (k : xpkt -> M cstate A) w x : (gets (fun s : cstate => x_out (snd s)) ≫= k) (w, x) = k (x_out x) (w, x).
Proof. done. Qed.

Ltac cstep H := erewrite bind_run by (first [apply on_x_run | apply on_fw_run]; exact H).

Section Translate.
Context {K : KernelCsum} {L : KernelCsumLaws K} {T : SiitTables} (e : xenv) (depth : nat) (dst_output : xpkt -> bool).
Context (Hnat : xlat_is_siit e = false) (Hj : junk_ok e).

Lemma presentable_translatable rx tup l3 :
  presentable rx -> l3_proto tup <> lo_l3_proto (rx_layout rx) -> l4_proto tup = rx_l4_proto rx -> l4_proto tup <> L4PROTO_OTHER ->
  wf_tuple tup -> 20 <= l3 <= 48 -> translatable rx tup l3.
Proof.
  intros [] H3 H4 Hk Hw Hl. split; try done; lia.
Qed.

(** Either direction. *)
Lemma translating_run rx tup summed csum mtu s :
  presentable rx -> l3_proto tup <> lo_l3_proto (rx_layout rx) -> l4_proto tup = rx_l4_proto rx -> l4_proto tup <> L4PROTO_OTHER ->
  wf_tuple tup -> x_in s = of_rx rx summed csum mtu ->
  exists refused v s', refusal rx = Some refused /\ translating_the_packet e depth (Some tup) s = Some (v, s') /\ x_in s' = x_in s /\ x_allocs s' = (kmalloc (x_allocs s)).2 /\
    xlat_outcome e summed rx tup refused s v s'.
Proof.
  intros Hp H3 H4 Hk Hw Hin. destruct tup as [src dst pr|src dst pr]; cbn [l3_proto] in H3; destruct (lo_l3_proto (rx_layout rx)) eqn:E3; try done.
  - apply (from6_outcome e depth rx src dst pr summed csum mtu Hnat Hj); try done.
    apply presentable_translatable; try done; try lia. rewrite E3. done.
  - pose proof (pr_ok _ Hp) as Hrx. destruct (rx4_layout rx Hrx E3) as (H20 & _ & _).
    destruct (raw16_some (sk_bytes (rx_skb rx)) 6) as [fo Hfo]; [lia..|].
    assert (Hr : exists refused, refusal rx = Some refused).
    { unfold refusal, hop_limit_of. rewrite E3. destruct (ld8_some (sk_bytes (rx_skb rx)) 8) as [ttl ->]; [lia|]. cbn [mbind option_bind].
      destruct (ttl <=? 1); [eauto|]. destruct (pr_options _ Hp E3) as [x ->]. cbn [mbind option_bind]. eauto. }
    destruct Hr as [refused Hr]. exists refused.
    assert (Ht : translatable rx (Tuple6 src dst pr) (Z.of_nat (l3_len46 e fo))).
    { apply presentable_translatable; try done; [rewrite E3; done|unfold l3_len46; destruct (will_need_frag_hdr e fo); lia]. }
    destruct (from4_outcome e depth rx src dst fo pr summed csum mtu Hnat Hj Hfo Ht E3 s refused Hin Hr) as (v & s' & ?). exists v, s'. done.
Qed.

Lemma pkt_len_received out : received out -> pkt_len out = blen (x_bytes out).
Proof.
  intros ->. unfold pkt_len, pkt_is_fragment, skb_len, skb_pagelen, frags_len, of_rx, to_rx. cbn. change (blen []) with 0. lia.
Qed.

Lemma sendpkt_run rx summed csum mtu s :
  rx_ok rx -> x_in s = of_rx rx summed csum mtu -> received (x_out s) ->
  exists v ev s', sendpkt_send e dst_output s = Some (v, s') /\ x_events s' = ev ++ x_events s /\ x_allocs s' = x_allocs s /\
    delivered e dst_output rx (x_out s) v ev.
Proof.
  intros Hrx Hin Hrec. unfold sendpkt_send. rewrite gets_bind. destruct (route e (x_out s)) as [m|] eqn:Er;
    [|eexists _, [XFreeOut], _; split; [reflexivity|]; split; [done|]; split; [done|]; constructor; done].
  assert (Hf : exists f, (if bool_decide (x_l3_proto (x_in s) = L3PROTO_IPV4)
     then frag_off ← ld_in (fun b => raw16 b (xnet (x_in s) + 6)); mret (is_dont_fragment_set frag_off =? 0) else mret false) s = Some (f, s) /\
     f = negb (unfragmentable rx)).
  { rewrite Hin. unfold unfragmentable. cbn [x_l3_proto of_rx]. destruct (lo_l3_proto (rx_layout rx)) eqn:E3; [exists false; done|].
    rewrite bool_decide_eq_true_2 by done. destruct (rx4_layout rx Hrx E3) as (H20 & _). destruct (raw16_some (sk_bytes (rx_skb rx)) 6) as [fo Hfo]; [lia..|].
    exists (is_dont_fragment_set fo =? 0). rewrite Hfo, negb_involutive. split; [|done].
    erewrite ld_in_bind; [reflexivity|]. rewrite Hin. exact Hfo. }
  destruct Hf as (f & Hf & Ef). unfold whine_if_too_big. rewrite bind_assoc, gets_bind, bind_assoc, gets_bind, bind_assoc, (bind_run _ _ _ _ _ Hf).
  rewrite pkt_len_received by done. destruct f.
  - eexists _, [XSend (x_out s)], _. split; [reflexivity|]. split; [done|]. split; [done|]. apply (delivered_handed _ _ _ _ m Er). left. destruct (unfragmentable rx); done.
  - destruct (Z.ltb_spec m (blen (x_bytes (x_out s)))).
    + eexists _, [XFreeOut; XIcmp _ _], _. split; [reflexivity|]. split; [done|]. split; [done|]. apply (delivered_too_big _ _ _ _ m Er); [|done]. destruct (unfragmentable rx); done.
    + eexists _, [XSend (x_out s)], _. split; [reflexivity|]. split; [done|]. split; [done|]. apply (delivered_handed _ _ _ _ m Er). right. lia.
Qed.

(** The outcome, in the relations' terms. *)
Lemma outcome_cases summed rx tup refused s v s' :
  refusal rx = Some refused -> xlat_outcome e summed rx tup refused s v s' ->
  (v = VERDICT_DROP /\ exists ev, x_events s' = ev ++ x_events s /\ untranslated rx ev) \/
  (v = VERDICT_CONTINUE /\ x_events s' = x_events s /\ translates e summed rx (x_out s') tup).
Proof.
  intros Hr Ho. unfold xlat_outcome in Ho. destruct (negb (kmalloc (x_allocs s)).1).
  - left. destruct Ho as [-> ->]. split; [done|]. exists [XStat IPSTATS_MIB_INDISCARDS]. split; [done|constructor].
  - destruct refused as [[error info]|].
    + left. destruct Ho as [-> ->]. split; [done|]. eexists [_; _; _]. split; [reflexivity|constructor; done].
    + right. destruct Ho as (-> & ? & ? & ?). done.
Qed.

Lemma send_again_run rx tup summed csum mtu w s :
  presentable rx -> l3_proto tup <> lo_l3_proto (rx_layout rx) -> l4_proto tup = rx_l4_proto rx -> l4_proto tup <> L4PROTO_OTHER ->
  wf_tuple tup -> x_in s = of_rx rx summed csum mtu ->
  exists v ev s', send_again e depth dst_output (Some tup) (w, s) = Some (v, (w, s')) /\ x_events s' = ev ++ x_events s /\
    forwarded e dst_output summed rx tup v ev.
Proof.
  intros Hp H3 H4 Hk Hw Hin. destruct (translating_run rx tup summed csum mtu s Hp H3 H4 Hk Hw Hin) as (refused & v & s1 & Hr & Hrun & Hi & _ & Ho).
  unfold send_again. cstep Hrun. destruct (outcome_cases _ _ _ _ _ _ _ Hr Ho) as [(-> & ev & Hev & Hu)|(-> & Hev & Ht)].
  - exists VERDICT_DROP, ev, s1. split; [done|]. split; [done|]. constructor. done.
  - destruct (sendpkt_run rx summed csum mtu s1 (pr_ok _ Hp) ltac:(congruence) (proj1 (proj2 Ht))) as (v & ev & s2 & Hrun2 & Hev2 & _ & Hd).
    exists v, ev, s2. rewrite bool_decide_eq_true_2 by done. split; [apply on_x_run; exact Hrun2|].
    split; [congruence|]. apply (forwarded_on _ _ _ _ _ (x_out s1)); done.
Qed.

End Translate.

(** ** Packets that turn around *)

Lemma echo_not_error rx tup :
  rx_ok rx -> lo_l3_proto (rx_layout rx) = l3_proto tup -> (rx_l4_proto rx = L4PROTO_ICMP -> is_Some (echo_type rx)) ->
  is_icmp_error (packet_of rx) tup = false.
Proof.
  intros Hrx H3 He. destruct (decide (rx_l4_proto rx = L4PROTO_ICMP)) as [Ei|Ei];
    [|destruct tup; cbn [is_icmp_error]; unfold pkt_is_icmp4_error, pkt_is_icmp6_error; cbn [packet_of pkt_l4_proto]; rewrite bool_decide_eq_false_2; done].
  specialize (He Ei). destruct (ld8 (sk_bytes (rx_skb rx)) (rx_l4 rx)) as [t|] eqn:Et; [|destruct He as [x Hx]; unfold echo_type in Hx; rewrite Et in Hx; done].
  destruct tup; cbn [is_icmp_error l3_proto] in *; unfold pkt_is_icmp4_error, pkt_is_icmp6_error; cbn [packet_of pkt_l4_proto pkt_icmp_type];
    rewrite (rx_bytes_all rx Hrx), Et, bool_decide_eq_true_2 by done; cbn [andb default]; [apply (echo_code4 rx t)|apply (echo_code6 rx t)]; done.
Qed.

Lemma plain_options b : ld8 b 0 = Some 0x45 -> has_unexpired_src_route b 0 = Some false.
Proof. intros H. unfold has_unexpired_src_route, ip4_hdr_len. rewrite H. done. Qed.

(** The IPv4 packets written have no options. *)
Lemma sent4_l4 e summed rx rx' src dst pr : sent e summed rx rx' (Tuple4 src dst pr) -> rx_l4 rx' = 20.
Proof.
  intros Hs. destruct (rx4_layout _ (sent_ok _ _ _ _ _ Hs) (sent_l3 _ _ _ _ _ Hs)) as (_ & ((Eihl & _) & _) & _). unfold ip4_hdr_len in Eihl.
  rewrite (sent_plain _ _ _ _ _ Hs eq_refl) in Eihl. injection Eihl as E. symmetry. exact E.
Qed.

Section Hairpin.
Context (e : xenv) (summed : ip_summed) (rx : rx_packet) (out : xpkt) (src dst : ipv4_transport_addr) (pr : l4_protocol).
Abbreviation tup := (Tuple4 src dst pr).
Context (Hp : presentable rx) (Ht : translates e summed rx out tup) (Hl4 : pr = rx_l4_proto rx) (Hw : wf_tuple tup).

Lemma hairpin_presentable : presentable (to_rx out).
Proof.
  destruct Ht as (_ & _ & Hs). pose proof Hs as [Ok E3 E4 _ _ _ _ _ Hpl Hpay Hseg _ Hecho _ _]. specialize (Hpl eq_refl). cbn [l3_proto] in E3.
  destruct Hp as [Hrx Htcp Hec _ _ Hlen].
  pose proof (sent4_l4 _ _ _ _ _ _ _ Hs) as El.
  split; [exact Ok| | | | |].
  - intros Et. rewrite E4 in Et. specialize (Htcp Et). lia.
  - intros Ei. rewrite E4 in Ei. rewrite (Hecho Ei). exact (Hec Ei).
  - intros _. rewrite plain_options by exact Hpl. eauto.
  - lia.
  - rewrite Hseg. exact Hlen.
Qed.

Lemma hairpin_tuple_of : tuple_of (hairpin_packet rx out) tup.
Proof.
  destruct Ht as (_ & _ & Hs). pose proof Hs as [_ E3 E4 _ _ _ _ _ _ _ _ _ _ _ _]. split; [exact Hw|]. split; [exact E3|]. intros _. cbn. rewrite Hl4. exact E4.
Qed.

End Hairpin.

(** ** The core *)

Section Common.
Context {R : RbTree} {L : RbTreeLaws R} {K : KernelCsum} {LK : KernelCsumLaws K} {T : SiitTables}.
Context (c : config) (e : xenv) (depth : nat) (dst_output : xpkt -> bool).
Context (Hc : config_ok c) (Hnat : xlat_is_siit e = false) (Hj : junk_ok e).

Lemma session_known p x db : x ∈ db_entries p db -> p <> L4PROTO_OTHER.
Proof. intros H ->. unfold db_entries in H. cbn in H. apply not_elem_of_nil in H. done. Qed.

(** The tuple of the other side of a session. *)
Lemma out_tuple_ok w tup x :
  nat64_inv w -> x ∈ db_entries (l4_proto tup) (f_db w) -> matches tup x -> let out := out_tuple_of x tup in
  wf_tuple out /\ l3_proto out <> l3_proto tup /\ l4_proto out = l4_proto tup /\ l4_proto out <> L4PROTO_OTHER.
Proof.
  intros Hi Hx Hm out. destruct (out_tuple_reply w tup x Hi Hx Hm) as (Hw & _ & _ & _ & H3 & H4). fold out in Hw, H3, H4.
  split_and!; try done; [|rewrite H4; exact (session_known _ _ _ Hx)].
  destruct out; destruct Hw as (? & ? & Hid); split; try done; split; try done; intros E; symmetry; apply Hid; exact E.
Qed.

Lemma hairpinning_run rx summed out src dst pr w s :
  nat64_inv w -> presentable rx -> translates e summed rx out (Tuple4 src dst pr) -> pr = rx_l4_proto rx -> wf_tuple (Tuple4 src dst pr) ->
  x_out s = out ->
  exists v ev w' s', handling_hairpinning c e depth dst_output rx (Tuple4 src dst pr) (w, s) = Some (v, (w', s')) /\
    x_events s' = ev ++ x_events s /\ nat64_inv w' /\ hairpinned c e dst_output rx out (Tuple4 src dst pr) w w' v ev.
Proof.
  intros Hi Hp Ht Hl4 Hw Ho. set (tup := Tuple4 src dst pr) in *.
  destruct (update_triple c (hairpin_packet rx out) tup (f_db w) Hc (hairpin_tuple_of e summed rx out src dst pr Ht Hl4 Hw) w Hi)
    as ([v o] & w' & Hrun & db' & Ho' & Hv).
  pose proof (owned_inv _ _ Ho') as Hi'. destruct Ho' as (Edb & _).
  unfold handling_hairpinning. rewrite gets_out, Ho.
  erewrite (bind_run (on_x turn_around)) by (apply on_x_run; reflexivity). cstep Hrun.
  destruct (decide (v = VERDICT_CONTINUE)) as [->|Hne].
  - destruct Hv as (x & Hx & Hm & -> & _). rewrite <- Edb in Hx. destruct (out_tuple_ok w' tup x Hi' Hx Hm) as (Wo & O3 & O4 & Ok).
    pose proof (proj2 (proj2 Ht)) as Hs.
    destruct (send_again_run e depth dst_output Hnat Hj (to_rx out) (out_tuple_of x tup) (x_summed out) (x_csum out) (x_dev_mtu out) w'
      (XState (x_out s) (x_out s) (x_events s) (x_allocs s) (x_randoms s))) as (v & ev & s' & Hrun2 & Hev & Hf); try done.
    + apply (hairpin_presentable e summed rx out src dst pr); done.
    + rewrite (sent_l3 _ _ _ _ _ Hs). exact O3.
    + rewrite (sent_l4 _ _ _ _ _ Hs), <- Hl4. done.
    + cbn [x_in]. rewrite Ho. apply (proj1 (proj2 Ht)).
    + exists v, ev, w', s'. rewrite bool_decide_eq_true_2 by done. split; [exact Hrun2|]. split; [exact Hev|]. split; [exact Hi'|].
      apply (hairpinned_on _ _ _ _ _ _ _ _ x); done.
  - exists v, [], w', (XState (x_out s) (x_out s) (x_events s) (x_allocs s) (x_randoms s)). rewrite bool_decide_eq_false_2 by done. split; [done|]. split; [done|].
    split; [done|]. apply hairpinned_not; [done|]. assert (o = None) as -> by (destruct v; done). exact Hrun.
Qed.

(** How [core_common] ends. *)
Lemma finish_run (P : fworld -> verdict * list xevent -> Prop) (m : M cstate verdict) ws v ev w' s' events :
  m ws = Some (v, (w', s')) -> x_events s' = ev ++ events -> nat64_inv w' -> P w' (finish v ev) ->
  exists v ev w' s',
    (result ← m; if negb (bool_decide (result = VERDICT_CONTINUE)) then mret result else on_x (xemit XFreeIn);; mret VERDICT_STOLEN) ws
      = Some (v, (w', s')) /\ x_events s' = ev ++ events /\ nat64_inv w' /\ P w' (v, ev).
Proof.
  intros Hm Hev Hi HP. rewrite (bind_run _ _ _ _ _ Hm). unfold finish in HP. case_bool_decide.
  - eexists _, _, w', _. split; [reflexivity|]. split; [|split; [exact Hi|exact HP]]. cbn. rewrite Hev. done.
  - exists v, ev, w', s'. done.
Qed.

Lemma core_run rx summed csum mtu w s :
  nat64_inv w -> presentable rx ->
  exists v ev w' s', core_common c e depth dst_output rx summed csum mtu (w, s) = Some (v, (w', s')) /\
    x_events s' = ev ++ x_events s /\ nat64_inv w' /\ processed c e dst_output summed rx w w' (v, ev).
Proof.
  intros Hi Hp. pose proof (pr_ok _ Hp) as Hrx. set (s0 := XState (of_rx rx summed csum mtu) (x_out s) (x_events s) (x_allocs s) (x_randoms s)).
  destruct (core_triple c rx (f_db w) Hc Hrx w Hi) as ([v o] & w1 & Hrun & db' & Ho & Hv).
  pose proof (owned_inv _ _ Ho) as Hi1. destruct Ho as (Edb & _).
  unfold core_common. erewrite (bind_run (on_x (upd_in _))) by (apply on_x_run; reflexivity). fold s0. rewrite Hnat. cbn [negb]. cstep Hrun.
  destruct (decide (v = VERDICT_CONTINUE)) as [->|Hne].
  2: { exists v, [], w1, s0. rewrite bool_decide_eq_false_2 by done. split_and!; try done. apply processed_not; [done|].
       assert (o = None) as -> by (destruct v; done). exact Hrun. }
  rewrite bool_decide_eq_true_2 by done. cbn [negb]. destruct Hv as (tup & x & Hto & Hx & Hm & -> & Hf). rewrite <- Edb in Hx, Hf.
  assert (Hpm : permitted c rx tup x w w1) by (split_and!; done).
  destruct (out_tuple_ok w1 tup x Hi1 Hx Hm) as (Wo & O3 & O4 & Ok). pose proof Hto as (_ & T3 & T4).
  assert (E4 : l4_proto (out_tuple_of x tup) = rx_l4_proto rx).
  { rewrite O4. symmetry. apply T4, echo_not_error; [exact Hrx|exact T3|exact (pr_echo _ Hp)]. }
  destruct (translating_run e depth Hnat Hj rx (out_tuple_of x tup) summed csum mtu s0 Hp ltac:(rewrite <- T3 in O3; exact O3) E4 Ok Wo eq_refl)
    as (refused & v & s1 & Hr & Hrun1 & Hin1 & _ & Hout). cstep Hrun1.
  destruct (outcome_cases _ _ _ _ _ _ _ _ Hr Hout) as [(-> & ev & Hev & Hu)|(-> & Hev & Ht)].
  { exists VERDICT_DROP, ev, w1, s1. split_and!; try done. apply (processed_untranslated _ _ _ _ _ _ _ tup x); done. }
  rewrite bool_decide_eq_true_2 by done. cbn [negb]. rewrite gets_out.
  cbn [core_is_hairpin]. destruct (is_hairpin c (out_tuple_of x tup)) as [[]|] eqn:Eh.
  - rewrite (load_bind _ _ _ _ eq_refl). destruct (out_tuple_of x tup) as [src dst pr|src dst pr] eqn:Eo; [|done].
    destruct (hairpinning_run rx summed (x_out s1) src dst pr w1 s1 Hi1 Hp Ht E4 Wo eq_refl) as (v & ev & w2 & s2 & Hrun2 & Hev2 & Hi2 & Hh).
    apply (finish_run (processed c e dst_output summed rx w) _ _ v (XFreeOut :: ev) w2 (XState (x_in s2) (x_out s2) (XFreeOut :: x_events s2) (x_allocs s2) (x_randoms s2))); [rewrite (bind_run _ _ _ _ _ Hrun2); reflexivity| |exact Hi2|].
    + cbn. rewrite Hev2, Hev. done.
    + apply (processed_hairpinned _ _ _ _ _ _ _ tup x w1 (x_out s1)); rewrite ?Eo; done.
  - rewrite (load_bind _ _ _ _ eq_refl). destruct (sendpkt_run e dst_output rx summed csum mtu s1 Hrx ltac:(rewrite Hin1; done) (proj1 (proj2 Ht)))
      as (v & ev & s2 & Hrun2 & Hev2 & _ & Hd).
    apply (finish_run (processed c e dst_output summed rx w) _ _ v ev w1 s2); [apply on_x_run; exact Hrun2|rewrite Hev2, Hev; done|exact Hi1|].
    apply (processed_forwarded _ _ _ _ _ _ _ tup x (x_out s1)); done.
  - exfalso. destruct (out_tuple_of x tup) as [src dst pr|src dst pr]; [|done]. cbn in Eh. destruct (pool4_contains_run c (ok_pool4 c Hc) pr dst) as [? E]. rewrite E in Eh. done.
Qed.

End Common.

(** ** The hooks *)

Definition core_hook {R : RbTree} {K : KernelCsum} {T : SiitTables} (l3 : l3_protocol) c e depth dst_output h : M hstate verdict :=
  match l3 with
  | L3PROTO_IPV6 => core_6to4 c e depth dst_output h
  | L3PROTO_IPV4 => core_4to6 c e depth dst_output h
  end.

(** A packet of IPv6 whose fragment header does not matter has its transport
    header. *)
Lemma fragdb_run skb lo mark :
  linear skb -> layout_ok6 skb (lo_meta lo) ->
  exists v, fragdb_handle (RxPacket skb lo mark) = Some v /\
    (v = VERDICT_DROP \/ v = VERDICT_CONTINUE /\ first_frag6 (sk_bytes skb) (frag_offset (lo_meta lo)) = true).
Proof.
  intros Hlin (((_ & Hle & _ & Hroom) & _) & Hpay & _). unfold fragdb_handle. cbn [rx_layout]. unfold rx_bytes. cbn [rx_skb].
  rewrite (sk_head_linear _ Hlin). destruct (frag_offset (lo_meta lo)) as [o|]; cbn [first_frag6].
  - destruct (Hroom o eq_refl). destruct (raw16_some (sk_bytes skb) (o + 2)) as [f Hf]; [lia..|]. rewrite Hf. cbn [mbind option_bind].
    eexists. split; [reflexivity|]. cbn [is_fragmented_ipv6 is_first_frag6]. destruct (get_fragment_offset_ipv6 f =? 0); cbn [negb orb]; [|left; done].
    destruct (negb _); [left|right]; done.
  - exists VERDICT_CONTINUE. split; [done|right; done].
Qed.

Lemma on_sk_run {A} (m : M sk_state A) k s a k' : m k = Some (a, k') -> on_sk m (k, s) = Some (a, (k', s)).
Proof. intros H. unfold on_sk. rewrite H. done. Qed.

Lemma gets_skb {A} (f : sk_buff -> M hstate A) k s : (gets (fun s : hstate => st_skb (fst s)) ≫= f) (k, s) = f (st_skb k) (k, s).
Proof. done. Qed.

Section Hook.
Context {R : RbTree} {L : RbTreeLaws R} {K : KernelCsum} {LK : KernelCsumLaws K} {T : SiitTables}.
Context (c : config) (e : xenv) (depth : nat) (dst_output : xpkt -> bool) (h : hook_args).
Context (Hc : config_ok c) (Hnat : xlat_is_siit e = false) (Hj : junk_ok e).
Context (skb : sk_buff) (Hlin : linear skb) (Hb : wf_bytes (sk_bytes skb)).

(** The packets the validation accepts may be translated. *)
Definition all_presentable (l3 : l3_protocol) (k : sk_state) : Prop :=
  forall lo k', pkt_init l3 k = Some (Ok lo, k') -> let rx := RxPacket skb lo (h_mark h) in rx_ok rx -> presentable rx.

(** The hook of a packet that was read. *)
Definition hooked (l3 : l3_protocol) (r : result pkt_layout) (w w' : fworld) (v : verdict) (ev : list xevent) : Prop :=
  match r with
  | Err _ => v = VERDICT_DROP /\ w' = w /\ ev = []
  | Ok lo =>
      let rx := RxPacket skb lo (h_mark h) in
      lo_l3_proto lo = l3 /\
      ((l3 = L3PROTO_IPV6 /\ fragdb_handle rx = Some VERDICT_DROP /\ v = VERDICT_DROP /\ w' = w /\ ev = []) \/
       ((l3 = L3PROTO_IPV6 -> fragdb_handle rx = Some VERDICT_CONTINUE) /\ processed c e dst_output (h_summed h) rx w w' (v, ev)))
  end.

Lemma on_core_run lo k w s :
  nat64_inv w -> presentable (RxPacket skb lo (h_mark h)) ->
  exists v ev w' s', on_core (core_common c e depth dst_output (RxPacket skb lo (h_mark h)) (h_summed h) (h_csum h) (h_mtu h)) (k, (w, s)) = Some (v, (k, (w', s'))) /\
    x_events s' = ev ++ x_events s /\ nat64_inv w' /\ processed c e dst_output (h_summed h) (RxPacket skb lo (h_mark h)) w w' (v, ev).
Proof.
  intros Hi Hp. destruct (core_run c e depth dst_output Hc Hnat Hj _ (h_summed h) (h_csum h) (h_mtu h) w s Hi Hp)
    as (v & ev & w' & s' & Hrun & ? & ? & ?). exists v, ev, w', s'. split; [|done]. unfold on_core. rewrite Hrun. done.
Qed.

Lemma hook6_run k w s :
  all_presentable L3PROTO_IPV6 k ->
  40 <= blen (sk_bytes skb) -> st_skb k = skb -> nat64_inv w -> h_disabled h || negb (h_namespace h) = false ->
  exists r v ev k' w' s', pkt_init L3PROTO_IPV6 k = Some (r, k') /\ st_skb k' = skb /\
    core_6to4 c e depth dst_output h (k, (w, s)) = Some (v, (k', (w', s'))) /\ x_events s' = ev ++ x_events s /\ nat64_inv w' /\
    hooked L3PROTO_IPV6 r w w' v ev.
Proof.
  intros Hpr H40 Hk Hi Hon. apply orb_false_iff in Hon as [Hd Hn]. unfold core_6to4. rewrite Hd, Hn, Hnat. cbn [negb].
  destruct (pkt_init_ipv6_spec skb Hlin Hb false H40 k Hk) as (r & k' & Hrun & Hk' & Hr). exists r.
  rewrite (bind_run _ _ _ _ _ (on_sk_run _ _ (w, s) _ _ Hrun)). destruct r as [lo|err]; [|exists VERDICT_DROP, [], k', w, s; done].
  destruct Hr as [E3 Hlay]. destruct (fragdb_run skb lo (h_mark h) Hlin Hlay) as (v & Hv & Hcase).
  rewrite gets_skb, Hk'. cbv zeta. rewrite (load_bind _ _ _ _ Hv).
  destruct Hcase as [->|[-> Hff]]; [exists VERDICT_DROP, [], k', w, s; split_and!; try done; cbn; auto 10|].
  assert (Hrx : rx_ok (RxPacket skb lo (h_mark h))) by (unfold rx_ok; cbn [rx_skb rx_layout]; rewrite E3; done).
  destruct (on_core_run lo k' w s Hi (Hpr lo k' Hrun Hrx)) as (v & ev & w' & s' & Hrun' & ? & ? & ?). exists v, ev, k', w', s'. cbn; auto 10.
Qed.

Lemma hook4_run k w s :
  all_presentable L3PROTO_IPV4 k ->
  20 <= blen (sk_bytes skb) -> st_skb k = skb -> nat64_inv w -> h_disabled h || negb (h_namespace h) = false ->
  (forall f, raw16 (sk_bytes skb) 6 = Some f -> is_first_frag4 f = true) ->
  exists r v ev k' w' s', pkt_init L3PROTO_IPV4 k = Some (r, k') /\ st_skb k' = skb /\
    core_4to6 c e depth dst_output h (k, (w, s)) = Some (v, (k', (w', s'))) /\ x_events s' = ev ++ x_events s /\ nat64_inv w' /\
    hooked L3PROTO_IPV4 r w w' v ev.
Proof.
  intros Hpr H20 Hk Hi Hon Hff. apply orb_false_iff in Hon as [Hd Hn]. unfold core_4to6. rewrite Hd, Hn, Hnat. cbn [negb].
  destruct (pkt_init_ipv4_spec skb Hlin Hb false H20 k Hk) as (r & k' & Hrun & Hk' & Hr). exists r.
  rewrite (bind_run _ _ _ _ _ (on_sk_run _ _ (w, s) _ _ Hrun)). destruct r as [lo|err]; [|exists VERDICT_DROP, [], k', w, s; done].
  destruct Hr as [E3 Hlay].
  rewrite gets_skb, Hk'.
  assert (Hrx : rx_ok (RxPacket skb lo (h_mark h))) by (unfold rx_ok; cbn [rx_skb rx_layout]; rewrite E3; done).
  destruct (on_core_run lo k' w s Hi (Hpr lo k' Hrun Hrx)) as (v & ev & w' & s' & Hrun' & ? & ? & ?). exists v, ev, k', w', s'. split_and!; try done.
  cbn. split; [done|]. right. done.
Qed.

End Hook.
