(* ===== verification/Pipeline.v ===== *)
(** * Guarantees of the whole translator

    What the kernel sees of Jool for a packet: the theorems on the core and on
    its hooks, from the bytes that come in to the bytes that leave. *)
From S2P Require Import Prelude Types Address Rfc6052 Pool6 Pool4Table Pool4Db RbTree BibTable BibDb PortAlloc.
From S2P Require Import Packet SessionEntry PktQueue SessionTable Tcp SessionSpec SessionDb Filtering FilteringSpec StaticRoutes Nat64 Guarantees Skb InTuple.
From S2P Require Import Checksum XlatPkt Xlat64 Xlat46 Xlat XlatSpec Wire Sent Translate64 Translate46 Core CoreSpec.

(** ** Answers *)

Definition answered (l3 : l3_protocol) (ev : list xevent) : Prop :=
  forall error info, XIcmp error info ∈ ev -> is_Some (icmp64_message l3 true true error info).

Lemma answered_cons l3 x ev : answered l3 [x] -> answered l3 ev -> answered l3 (x :: ev).
Proof. intros H1 H2 error info H. apply elem_of_cons in H as [<-|H]; [apply H1, list_elem_of_singleton; done|apply H2, H]. Qed.

Lemma answered_other l3 x : (forall error info, x <> XIcmp error info) -> answered l3 [x].
Proof. intros H error info E. apply list_elem_of_singleton in E. destruct (H error info). done. Qed.

Lemma answered_nil l3 : answered l3 [].
Proof. intros error info H. apply not_elem_of_nil in H. done. Qed.

Lemma answered_icmp l3 error info : is_Some (icmp64_message l3 true true error info) -> answered l3 [XIcmp error info].
Proof. intros H error' info' E. apply list_elem_of_singleton in E. injection E as -> ->. exact H. Qed.

(** [l3] is the protocol of the packet that the errors are about. *)
Lemma untranslated_answered rx ev l3 :
  lo_l3_proto (rx_layout rx) = l3 \/ (lo_l3_proto (rx_layout rx) = L3PROTO_IPV4 /\ has_unexpired_src_route (sk_bytes (rx_skb rx)) 0 = Some false) ->
  untranslated rx ev -> answered l3 ev.
Proof.
  intros Hl3 [|error info Hr]; [apply answered_other; done|]. do 2 (apply answered_cons; [apply answered_other; done|]). apply answered_icmp.
  unfold refusal in Hr. destruct (hop_limit_of rx) as [hop|]; [|done]. cbn [mbind option_bind] in Hr.
  destruct (hop <=? 1); [injection Hr as <- <-; destruct l3; eauto|]. destruct Hl3 as [<-|[E Hn]].
  - destruct (lo_l3_proto (rx_layout rx)).
    + destruct (has_nonzero_segments_left (sk_bytes (rx_skb rx)) 0) as [[]|]; [|done..]. injection Hr as <- <-. eauto.
    + destruct (has_unexpired_src_route (sk_bytes (rx_skb rx)) 0) as [[]|]; [|done..]. injection Hr as <- <-. eauto.
  - rewrite E, Hn in Hr. done.
Qed.

Lemma delivered_answered e dst_output rx out v ev l3 : delivered e dst_output rx out v ev -> answered l3 ev.
Proof.
  intros []; try (apply answered_other; done). apply answered_cons; [apply answered_other; done|]. apply answered_icmp. destruct l3; eauto.
Qed.

Lemma finish_answered l3 v ev : answered l3 ev -> answered l3 (finish v ev).2.
Proof. intros H. unfold finish. case_bool_decide; [|exact H]. apply answered_cons; [apply answered_other; done|exact H]. Qed.

Lemma processed_answered {R : RbTree} c e dst_output summed rx w w' r :
  processed c e dst_output summed rx w w' r -> answered (lo_l3_proto (rx_layout rx)) r.2.
Proof.
  intros [v|tup x ev _ Hu|tup x out v ev _ _ _ Hd|tup x w1 out v ev Hp Hh Ht Hn]; [apply answered_nil| | |].
  - apply (untranslated_answered rx); [left; done|exact Hu].
  - apply finish_answered, (delivered_answered e dst_output rx out v), Hd.
  - apply finish_answered, answered_cons; [apply answered_other; done|].
    destruct Hn as [|y v ev _ _ _ [ev' Hu|out' v' ev' _ Hd]]; [apply answered_nil| |exact (delivered_answered _ _ _ _ _ _ _ Hd)].
    apply (untranslated_answered (to_rx out)); [right|exact Hu].
    destruct (out_tuple_of x tup) as [src dst pr|src dst pr]; [|done]. destruct Ht as (_ & _ & Hs).
    split; [exact (sent_l3 _ _ _ _ _ Hs)|apply plain_options, (sent_plain _ _ _ _ _ Hs); done].
Qed.

(** ** Known connections *)

(** The network takes the translation of [rx]. *)
Definition taken (e : xenv) (dst_output : xpkt -> bool) (rx : rx_packet) (out : xpkt) : Prop :=
  dst_output out = true /\ exists mtu, route e out = Some mtu /\ (unfragmentable rx = false \/ blen (x_bytes out) <= mtu).

Section Known.
Context {R : RbTree} {L : RbTreeLaws R} {K : KernelCsum} {LK : KernelCsumLaws K} {T : SiitTables}.
Context (c : config) (e : xenv) (depth : nat) (dst_output : xpkt -> bool).
Context (Hc : config_ok c) (Hnat : xlat_is_siit e = false) (Hj : junk_ok e).

Definition same_entries (w w' : fworld) : Prop := forall p y, y ∈ db_entries p (f_db w') <-> y ∈ db_entries p (f_db w).

Lemma known_update pkt tup w x :
  nat64_inv w -> tuple_of pkt tup -> eligible c pkt tup -> x ∈ db_entries (l4_proto tup) (f_db w) -> matches tup x ->
  exists w', update_tuples c pkt tup w = Some ((VERDICT_CONTINUE, Some (out_tuple_of x tup)), w') /\ nat64_inv w' /\ same_entries w w'.
Proof.
  intros Hi Ht Hel Hx Hm. destruct (known_filtering c (f_db w) pkt tup Ht Hel (or_intror (ex_intro _ x (conj Hx Hm))) w Hi)
    as (v & w1 & Hrun & -> & db' & Ho & Hent). pose proof (owned_inv _ _ Ho) as Hi1. destruct Ho as (Edb & _).
  destruct (compute_out_finds c tup w1 x (proj1 Ht) Hi1) as (w2 & Hrun2 & Hi2 & E2); [rewrite Edb; apply Hent, Hx|exact Hm|].
  exists w2. unfold update_tuples. rewrite (bind_run _ _ _ _ _ Hrun), bool_decide_eq_true_2 by done. split; [exact Hrun2|]. split; [exact Hi2|].
  intros p y. rewrite E2, Edb. apply Hent.
Qed.

(** The translation of a packet that deserves it, when there is memory. *)
Lemma translating_sends rx tup summed csum mtu s :
  presentable rx -> l3_proto tup <> lo_l3_proto (rx_layout rx) -> l4_proto tup = rx_l4_proto rx -> l4_proto tup <> L4PROTO_OTHER ->
  wf_tuple tup -> x_in s = of_rx rx summed csum mtu -> (kmalloc (x_allocs s)).1 = true -> refusal rx = Some None ->
  exists s', translating_the_packet e depth (Some tup) s = Some (VERDICT_CONTINUE, s') /\ x_in s' = x_in s /\
    x_allocs s' = (kmalloc (x_allocs s)).2 /\ x_events s' = x_events s /\ received (x_out s') /\ sent e summed rx (to_rx (x_out s')) tup.
Proof.
  intros Hp H3 H4 Hk Hw Hin Hm Hr. destruct (translating_run e depth Hnat Hj rx tup summed csum mtu s Hp H3 H4 Hk Hw Hin)
    as (refused & v & s' & Hr' & Hrun & Hi & Ha & Ho). rewrite Hr in Hr'. injection Hr' as <-. unfold xlat_outcome in Ho. rewrite Hm in Ho.
  destruct Ho as (-> & ? & ? & ?). exists s'. done.
Qed.

Lemma sendpkt_taken rx summed csum mtu s :
  rx_ok rx -> x_in s = of_rx rx summed csum mtu -> received (x_out s) -> taken e dst_output rx (x_out s) ->
  exists s', sendpkt_send e dst_output s = Some (VERDICT_CONTINUE, s') /\ x_events s' = XSend (x_out s) :: x_events s.
Proof.
  intros Hrx Hin Hrec (Hout & m & Hroute & Hfit). destruct (sendpkt_run e dst_output rx summed csum mtu s Hrx Hin Hrec) as (v & ev & s' & Hrun & Hev & _ & Hd).
  exists s'. destruct Hd as [E|m' E Hu Hl|m' E _]; [congruence| |].
  - exfalso. assert (m' = m) by congruence. subst m'. destruct Hfit; [congruence|lia].
  - rewrite Hout in Hrun. done.
Qed.

Context (rx : rx_packet) (Hp : presentable rx) (tup : tuple) (x : session_entry) (w : fworld) (Hi : nat64_inv w).
Context (Hdet : determine_in_tuple c rx w = Some ((VERDICT_CONTINUE, Some tup), w)).
Context (Hel : eligible c (packet_of rx) tup) (Hx : x ∈ db_entries (l4_proto tup) (f_db w)) (Hm : matches tup x).
Context (summed : ip_summed) (csum : option (Z * Z)) (mtu : option Z) (s : xstate).
Context (Hmem : (kmalloc (x_allocs s)).1 = true) (Hr : refusal rx = Some None).
Abbreviation out_tup := (out_tuple_of x tup).

Lemma known_tuple : tuple_of (packet_of rx) tup /\ l4_proto tup = rx_l4_proto rx.
Proof.
  destruct (determine_triple c Hc rx (pr_ok _ Hp) (f_db w) w Hi) as (r & w1 & Hrun & _ & Hv). rewrite Hdet in Hrun. injection Hrun as <- <-.
  destruct Hv as (t & E & Ht). injection E as <-. split; [exact Ht|]. destruct Ht as (_ & T3 & T4). symmetry. apply T4.
  apply echo_not_error; [exact (pr_ok _ Hp)|exact T3|exact (pr_echo _ Hp)].
Qed.

Lemma known_out : wf_tuple out_tup /\ l3_proto out_tup <> lo_l3_proto (rx_layout rx) /\ l4_proto out_tup = rx_l4_proto rx /\ l4_proto out_tup <> L4PROTO_OTHER.
Proof.
  destruct known_tuple as [(_ & T3 & _) T4]. destruct (out_tuple_ok w tup x Hi Hx Hm) as (? & O3 & O4 & ?). split_and!; try done; [|congruence].
  cbn in T3. rewrite T3. exact O3.
Qed.

(** The core up to the decision on hairpinning. *)
Lemma known_prefix :
  exists w1 s1, nat64_inv w1 /\ same_entries w w1 /\ x_in s1 = of_rx rx summed csum mtu /\ x_allocs s1 = (kmalloc (x_allocs s)).2 /\
    x_events s1 = x_events s /\ received (x_out s1) /\ sent e summed rx (to_rx (x_out s1)) out_tup /\
    core_common c e depth dst_output rx summed csum mtu (w, s) =
      (hairpin ← load (is_hairpin c out_tup);
       result ← (if hairpin : bool then result ← handling_hairpinning c e depth dst_output rx out_tup; on_x (xemit XFreeOut);; mret result
                 else on_x (sendpkt_send e dst_output));
       if negb (bool_decide (result = VERDICT_CONTINUE)) then mret result else on_x (xemit XFreeIn);; mret VERDICT_STOLEN) (w1, s1).
Proof.
  destruct known_tuple as [Ht _], known_out as (Wo & O3 & O4 & Ok).
  destruct (known_update (packet_of rx) tup w x Hi Ht Hel Hx Hm) as (w1 & Hrun & Hi1 & Hsame).
  assert (Hct : core_tuples c rx w = Some ((VERDICT_CONTINUE, Some out_tup), w1)) by (unfold core_tuples; rewrite (bind_run _ _ _ _ _ Hdet); exact Hrun).
  set (s0 := XState (of_rx rx summed csum mtu) (x_out s) (x_events s) (x_allocs s) (x_randoms s)).
  destruct (translating_sends rx out_tup summed csum mtu s0 Hp O3 O4 Ok Wo eq_refl Hmem Hr) as (s1 & Hrun1 & ? & ? & ? & ? & ?).
  exists w1, s1. split_and!; try done.
  unfold core_common. erewrite (bind_run (on_x (upd_in _))) by (apply on_x_run; reflexivity). fold s0. rewrite Hnat. cbn [negb].
  erewrite bind_run by (apply on_fw_run; exact Hct). cbv beta iota. rewrite bool_decide_eq_true_2 by done. cbn [negb].
  erewrite bind_run by (apply on_x_run; exact Hrun1). rewrite bool_decide_eq_true_2 by done. done.
Qed.

End Known.


(** The way back of a packet that turns around. *)
Lemma hairpinning_sends {R : RbTree} {L : RbTreeLaws R} {K : KernelCsum} {LK : KernelCsumLaws K} {T : SiitTables}
    c e depth dst_output rx src dst pr y w summed s hop :
  config_ok c -> xlat_is_siit e = false -> junk_ok e -> nat64_inv w -> presentable rx ->
  let tup := Tuple4 src dst pr in let mid := x_out s in
  translates e summed rx mid tup -> pr = rx_l4_proto rx -> wf_tuple tup -> is_hairpin c tup = Some true ->
  y ∈ db_entries pr (f_db w) -> matches tup y -> (kmalloc (x_allocs s)).1 = true -> hop_limit_of rx = Some hop -> 2 < hop ->
  (forall out, sent e (x_summed mid) (to_rx mid) (to_rx out) (out_tuple_of y tup) -> taken e dst_output (to_rx mid) out) ->
  exists out w' s', handling_hairpinning c e depth dst_output rx tup (w, s) = Some (VERDICT_CONTINUE, (w', s')) /\
    x_events s' = XSend out :: x_events s /\ sent e (x_summed mid) (to_rx mid) (to_rx out) (out_tuple_of y tup) /\ nat64_inv w' /\ same_entries w w'.
Proof.
  intros Hc Hnat Hj Hi Hp tup mid Ht Hl4 Hw Hh Hy Hm Hmem Hhop H2 Hnet. pose proof (proj2 (proj2 Ht)) as Hs.
  assert (Hpr : presentable (to_rx mid)) by (apply (hairpin_presentable e summed rx mid src dst pr); done).
  destruct (known_update c (hairpin_packet rx mid) tup w y Hi (hairpin_tuple_of e summed rx mid src dst pr Ht Hl4 Hw) Hh Hy Hm)
    as (w' & Hrun & Hi' & Hsame).
  destruct (out_tuple_ok w tup y Hi Hy Hm) as (W2 & Q3 & Q4 & Qk).
  assert (Hr : refusal (to_rx mid) = Some None).
  { unfold refusal. rewrite (sent_hop _ _ _ _ _ Hs hop Hhop). cbn [mbind option_bind]. destruct (Z.leb_spec (hop - 1) 1); [lia|].
    rewrite (sent_l3 _ _ _ _ _ Hs). cbn [l3_proto]. rewrite plain_options by (apply (sent_plain _ _ _ _ _ Hs); done). done. }
  set (s0 := XState mid mid (x_events s) (x_allocs s) (x_randoms s)).
  destruct (translating_sends e depth Hnat Hj (to_rx mid) (out_tuple_of y tup) (x_summed mid) (x_csum mid) (x_dev_mtu mid) s0 Hpr)
    as (s1 & Hrun1 & Hin1 & _ & Hev1 & Hrec1 & Hs1); try done.
  { rewrite (sent_l3 _ _ _ _ _ Hs). exact Q3. }
  { rewrite Q4, (sent_l4 _ _ _ _ _ Hs). exact Hl4. }
  { exact (proj1 (proj2 Ht)). }
  destruct (sendpkt_taken e dst_output (to_rx mid) (x_summed mid) (x_csum mid) (x_dev_mtu mid) s1 (pr_ok _ Hpr)) as (s2 & Hrun2 & Hev2);
    [rewrite Hin1; exact (proj1 (proj2 Ht))|exact Hrec1|apply Hnet; done|].
  exists (x_out s1), w', s2. split; [|split; [rewrite Hev2, Hev1; done|done]].
  unfold handling_hairpinning. rewrite gets_out. fold mid. erewrite (bind_run (on_x turn_around)) by (apply on_x_run; reflexivity). fold mid s0.
  erewrite bind_run by (apply on_fw_run; exact Hrun). cbv beta iota. rewrite bool_decide_eq_true_2 by done. cbn [negb]. unfold send_again.
  erewrite bind_run by (apply on_x_run; exact Hrun1). rewrite bool_decide_eq_true_2 by done. apply on_x_run. exact Hrun2.
Qed.


(** C2: what happens to a packet the kernel hands over, from its bytes to
    the packets that leave.  The buffer has room for an IP header and all its
    bytes in its linear part, and a packet of IPv4 is not a fragment
    other than a first one (the kernel reassembles them before the hook).
    Then both hooks of the stateful translator return and leave the databases consistent, provided that, if the
    packet is accepted, it is one the theorems on translation speak of
    ([presentable]: not an ICMP error but an echo, its TCP header complete, its
    IPv4 options not endless, its new length within a length field).  A packet
    that is not accepted is dropped, a fragment of IPv6 too; of every other packet the
    relation [processed] holds: it stops at the sessions with their verdict; or
    it is dropped because there is no memory or its header does not allow it;
    or its translation for a session that matches it is given back to the
    kernel for want of a route, refused for its size, or handed to the kernel;
    or it turns around and the same holds of its second translation.  The
    packet is kept and freed exactly if a translation was taken.  Every ICMP
    error has a message in the protocol of the packet it is about.  What a
    translation is, the wrong length field of some long echoes included, is what
    [sent] says. *)
Theorem hooks_correct {R : RbTree} {L : RbTreeLaws R} {K : KernelCsum} {LK : KernelCsumLaws K} {T : SiitTables}
    c e depth dst_output h l3 skb k w s
    (Hc : config_ok c) (Hnat : xlat_is_siit e = false) (Hj : junk_ok e) (Hlin : linear skb) (Hb : wf_bytes (sk_bytes skb))
    (Hmin : min_header l3 <= blen (sk_bytes skb)) (Hk : st_skb k = skb) (Hi : nat64_inv w)
    (Hpr : all_presentable h skb l3 k)
    (Hdefrag : l3 = L3PROTO_IPV4 -> forall f, raw16 (sk_bytes skb) 6 = Some f -> is_first_frag4 f = true) :
  if h_disabled h || negb (h_namespace h)
  then core_hook l3 c e depth dst_output h (k, (w, s)) = Some (VERDICT_ACCEPT, (k, (w, s)))
  else exists r v ev k' w' s', pkt_init l3 k = Some (r, k') /\
    core_hook l3 c e depth dst_output h (k, (w, s)) = Some (v, (k', (w', s'))) /\
    x_events s' = ev ++ x_events s /\ nat64_inv w' /\ hooked c e dst_output h skb l3 r w w' v ev /\ answered l3 ev.
Proof.
  destruct (h_disabled h || negb (h_namespace h)) eqn:Hon.
  - destruct l3; cbn [core_hook]; unfold core_4to6, core_6to4; (destruct (h_disabled h); [done|]); cbn [orb] in Hon; rewrite Hon; done.
  - assert (Hans : forall r w' v ev, hooked c e dst_output h skb l3 r w w' v ev -> answered l3 ev).
    { intros [lo|err] w' v ev Hh; [|destruct Hh as (_ & _ & ->); apply answered_nil]. destruct Hh as [<- [(_ & _ & _ & _ & ->)|[_ Hpc]]]; [apply answered_nil|].
      exact (processed_answered _ _ _ _ _ _ _ _ Hpc). }
    destruct l3; cbn [core_hook min_header] in *.
    + destruct (hook6_run c e depth dst_output h Hc Hnat Hj skb Hlin Hb k w s Hpr Hmin Hk Hi Hon) as (r & v & ev & k' & w' & s' & ? & _ & ? & ? & ? & Hh).
      exists r, v, ev, k', w', s'. split_and!; try done. exact (Hans _ _ _ _ Hh).
    + destruct (hook4_run c e depth dst_output h Hc Hnat Hj skb Hlin Hb k w s Hpr Hmin Hk Hi Hon (Hdefrag eq_refl)) as (r & v & ev & k' & w' & s' & ? & _ & ? & ? & ? & Hh).
      exists r, v, ev, k', w', s'. split_and!; try done. exact (Hans _ _ _ _ Hh).
Qed.

(** ** The scene *)

#[local] Existing Instances plain_rbtree plain_rbtree_laws plain_csum plain_csum_laws no_tables.

Lemma scene_syn6_ok : rx_ok (scene_rx L3PROTO_IPV6 scene_syn6).
Proof. apply scene_rx_ok; [apply scene_bytes_wf|vm_compute; congruence|reflexivity|vm_compute; reflexivity]. Qed.

Lemma scene_syn6_presentable : presentable (scene_rx L3PROTO_IPV6 scene_syn6).
Proof. split; try done. exact scene_syn6_ok. Qed.

(** The session of the scene's SYN. *)
Lemma scene_session :
  exists x, x ∈ db_entries L4PROTO_TCP (f_db scene_open) /\ matches scene_tuple x /\
    out_tuple_of x scene_tuple = Tuple4 (TAddr4 (InAddr 0xc0000201) 80) (TAddr4 (InAddr 0xc6336402) 80) L4PROTO_TCP.
Proof. eexists. split; [vm_compute; left|]. split; [vm_compute; done|reflexivity]. Qed.

Lemma scene_syn6_tuple w : determine_in_tuple scene_cfg (scene_rx L3PROTO_IPV6 scene_syn6) w = Some ((VERDICT_CONTINUE, Some scene_tuple), w).
Proof. reflexivity. Qed.

Lemma scene_syn6_eligible : eligible scene_cfg (packet_of (scene_rx L3PROTO_IPV6 scene_syn6)) scene_tuple.
Proof. split; [eexists; vm_compute; reflexivity|]. split; [eexists; vm_compute; reflexivity|done]. Qed.

#[local] Opaque scene_open.


Lemma hooks_correct_witness :
  let h := HookArgs false true 0 CHECKSUM_NONE None (Some 1500) in
  let k := SkState (scene_skb scene_syn6) [] [] in
  let x := scene_xstate (scene_rx L3PROTO_IPV6 scene_syn6) in
  exists v ev k' w' s', core_6to4 scene_cfg scene_env 1 (fun _ => true) h (k, (scene_open, x)) = Some (v, (k', (w', s'))) /\
    nat64_inv w' /\ x_events s' = ev /\ answered L3PROTO_IPV6 ev /\
    processed scene_cfg scene_env (fun _ => true) CHECKSUM_NONE (scene_rx L3PROTO_IPV6 scene_syn6) scene_open w' (v, ev).
Proof.
  intros h k x.
  assert (Hlay : option_map fst (pkt_init L3PROTO_IPV6 k) = Some (Ok (scene_layout L3PROTO_IPV6 scene_syn6))) by (vm_compute; reflexivity).
  destruct (hooks_correct scene_cfg scene_env 1 (fun _ => true) h L3PROTO_IPV6 (scene_skb scene_syn6) k scene_open x
    scene_cfg_ok eq_refl scene_env_ok eq_refl (proj1 scene_bytes_wf) ltac:(vm_compute; congruence) eq_refl (reachable_inv _ scene_open_reachable))
    as (r & v & ev & k' & w' & s' & Hrun & Hh & Hev & Hi & Hhk & Ha).
  - intros lo k' Hk rx _. subst rx. rewrite Hk in Hlay. injection Hlay as ->. exact scene_syn6_presentable.
  - discriminate.
  - rewrite Hrun in Hlay. injection Hlay as ->. destruct Hhk as [_ [(_ & Hd & _)|[_ Hp]]]; [discriminate Hd|].
    exists v, ev, k', w', s'. split; [exact Hh|]. split; [exact Hi|]. split; [rewrite Hev; apply app_nil_r|]. split; [exact Ha|exact Hp].
Defined.

(** Another node behind the translator, 2001:db8::7, writes to the address and port the
    first one has on the IPv4 side, and the first one has written to its. *)
Definition scene_hairpin6 : bytes :=
  [0x60; 0; 0; 0; 0; 20; 6; 64;
   0x20; 0x01; 0x0d; 0xb8; 0; 0; 0; 0; 0; 0; 0; 0; 0; 0; 0; 7;
   0; 0x64; 0xff; 0x9b; 0; 0; 0; 0; 0; 0; 0; 0; 192; 0; 2; 1;
   0x1b; 0x58; 0; 80; 0; 0; 0; 1; 0; 0; 0; 0; 0x50; 2; 0; 0; 0; 0; 0; 0].

Definition scene_hairpin_tuple : tuple :=
  Tuple6 (TAddr6 (In6Addr (0x20010db8 * 2 ^ 96 + 7)) 7000) (TAddr6 (In6Addr (0x64ff9b * 2 ^ 96 + 0xc0000201)) 80) L4PROTO_TCP.

Definition scene_back_tuple : tuple :=
  Tuple6 (TAddr6 (In6Addr (0x20010db8 * 2 ^ 96 + 5)) 6000) (TAddr6 (In6Addr (0x64ff9b * 2 ^ 96 + 0xc0000201)) 81) L4PROTO_TCP.

Definition scene_neighbours : fworld :=
  after (EvPacket scene_pkt scene_back_tuple) (after (EvPacket (packet_of (scene_rx L3PROTO_IPV6 scene_hairpin6)) scene_hairpin_tuple) scene_open).

Lemma scene_neighbours_reachable : nat64_reachable scene_neighbours.
Proof.
  apply after_reachable; [apply after_reachable; [apply scene_open_reachable| |vm_compute; eauto]| |vm_compute; eauto];
    (split; [wf_compute|split; done]).
Qed.

Lemma scene_hairpin_sessions :
  exists x y, x ∈ db_entries L4PROTO_TCP (f_db scene_neighbours) /\ y ∈ db_entries L4PROTO_TCP (f_db scene_neighbours) /\
    matches scene_hairpin_tuple x /\
    out_tuple_of x scene_hairpin_tuple = Tuple4 (TAddr4 (InAddr 0xc0000201) 81) (TAddr4 (InAddr 0xc0000201) 80) L4PROTO_TCP /\
    matches (out_tuple_of x scene_hairpin_tuple) y /\
    out_tuple_of y (out_tuple_of x scene_hairpin_tuple) =
      Tuple6 (TAddr6 (In6Addr (0x64ff9b * 2 ^ 96 + 0xc0000201)) 81) (TAddr6 (In6Addr (0x20010db8 * 2 ^ 96 + 5)) 6000) L4PROTO_TCP.
Proof.
  eexists _, _. split; [vm_compute; right; right; left|]. split; [vm_compute; left|]. split; [vm_compute; done|]. split; [reflexivity|].
  split; [vm_compute; done|reflexivity].
Qed.

(** The network takes anything. *)
Definition scene_net : xenv :=
  XEnv false false false 0 false false true true [1500; 576] false true EAM_HAIRPIN_OFF None
    (fun out => Some (blen (x_bytes out))) (fun out => Some (blen (x_bytes out))) (fun _ => 170).

Lemma scene_net_ok : junk_ok scene_net.
Proof. split; [|intros i]; done. Qed.

Lemma scene_hairpin6_wf : wf_bytes scene_hairpin6.
Proof. repeat constructor; done. Qed.

Lemma scene_hairpin6_presentable : presentable (scene_rx L3PROTO_IPV6 scene_hairpin6).
Proof.
  split; try done. apply scene_rx_ok; [apply scene_hairpin6_wf|vm_compute; congruence|reflexivity|vm_compute; reflexivity].
Qed.

Lemma scene_hairpin6_tuple w :
  determine_in_tuple scene_cfg (scene_rx L3PROTO_IPV6 scene_hairpin6) w = Some ((VERDICT_CONTINUE, Some scene_hairpin_tuple), w).
Proof. reflexivity. Qed.

Lemma scene_hairpin6_eligible : eligible scene_cfg (packet_of (scene_rx L3PROTO_IPV6 scene_hairpin6)) scene_hairpin_tuple.
Proof. split; [eexists; vm_compute; reflexivity|]. split; [eexists; vm_compute; reflexivity|done]. Qed.

#[local] Opaque scene_neighbours.


