(* ===== verification/Rtrie.v ===== *)
(** * Radix tries

    [mod/common/rtrie.c], the trie behind the table of explicit address
    mappings.  The nodes are in a heap, because the operations follow and
    update pointers in both directions (children and parents): a pointer to a
    node that was freed is a location the heap does not have, and to follow it
    is a fault.  The list that chains all nodes is the list of their
    locations.  [V] is the type of the values; the bytes of a leaf's key are
    the ones its value has. *)
From S2P Require Import Prelude Types Skb.

Record rtrie_key : Type := RtrieKey {
  k_bytes : bytes;
  k_len : Z
}.

Inductive rtrie_color : Type := COLOR_BLACK | COLOR_WHITE.

#[global] Instance rtrie_color_eq_dec : EqDecision rtrie_color.
Proof. solve_decision. Defined.

(** ** Keys *)

Definition bits_to_bytes (bits : Z) : Z := if negb (bits =? 0) then Z.shiftr (bits - 1) 3 + 1 else 0.

Definition get_bit (byte pos : Z) : Z := Z.land (Z.shiftr byte (7 - pos)) 1.

(** The loop over the bytes: where it stopped, the bits that match, and
    whether a byte differed. *)
Fixpoint match_bytes (n : nat) (b1 b2 : bytes) (y result : Z) : option (Z * Z * bool) :=
  match n with
  | O => Some (y, result, false)
  | S n =>
      x1 ← ld8 b1 y; x2 ← ld8 b2 y;
      if negb (x1 =? x2) then Some (y, result, true) else match_bytes n b1 b2 (y + 1) (result + 8)
  end.

(** The loop over the bits of a byte. *)
Fixpoint match_bits (n : nat) (b1 b2 : bytes) (y i result : Z) : option Z :=
  match n with
  | O => Some result
  | S n =>
      x1 ← ld8 b1 y; x2 ← ld8 b2 y;
      if negb (get_bit x1 i =? get_bit x2 i) then Some result else match_bits n b1 b2 y (i + 1) (result + 1)
  end.

Definition key_match_bits (key1 key2 : rtrie_key) (bits : Z) : option Z :=
  '(y, result, differ) ← match_bytes (Z.to_nat (Z.shiftr bits 3)) (k_bytes key1) (k_bytes key2) 0 0;
  match_bits (Z.to_nat (if differ : bool then 8 else Z.land bits 7)) (k_bytes key1) (k_bytes key2) y 0 result.

Definition key_match (key1 key2 : rtrie_key) : option Z := key_match_bits key1 key2 (Z.min (k_len key1) (k_len key2)).

Definition key_contains (key1 key2 : rtrie_key) : option bool :=
  if k_len key1 <=? k_len key2 then r ← key_match_bits key1 key2 (k_len key1); Some (r =? k_len key1) else Some false.

Definition key_equals (key1 key2 : rtrie_key) : option bool :=
  if k_len key1 =? k_len key2 then r ← key_match_bits key1 key2 (k_len key1); Some (r =? k_len key1) else Some false.

(** ** Nodes *)

Section Trie.
Context {V : Type}.

Record rtrie_node : Type := RtrieNode {
  t_left : option positive;
  t_right : option positive;
  t_parent : option positive;
  t_color : rtrie_color;
  t_key : rtrie_key;
  t_value : option V
}.

Record rtrie : Type := Rtrie {
  rt_root : option positive;
  rt_list : list positive;
  rt_nodes : gmap positive rtrie_node;
  rt_next : positive;
  rt_allocs : allocs
}.

Definition rtrie_init (al : allocs) : rtrie := Rtrie None [] ∅ 1 al.

Definition set_left (p : option positive) (n : rtrie_node) : rtrie_node :=
  RtrieNode p (t_right n) (t_parent n) (t_color n) (t_key n) (t_value n).
Definition set_right (p : option positive) (n : rtrie_node) : rtrie_node :=
  RtrieNode (t_left n) p (t_parent n) (t_color n) (t_key n) (t_value n).
Definition set_parent (p : option positive) (n : rtrie_node) : rtrie_node :=
  RtrieNode (t_left n) (t_right n) p (t_color n) (t_key n) (t_value n).

Definition deref (p : positive) : M rtrie rtrie_node := s ← get; load (rt_nodes s !! p).

Definition upd (p : positive) (f : rtrie_node -> rtrie_node) : M rtrie unit :=
  n ← deref p;
  modify (fun s => Rtrie (rt_root s) (rt_list s) (<[p := f n]> (rt_nodes s)) (rt_next s) (rt_allocs s)).

Definition kfree (p : positive) : M rtrie unit :=
  _ ← deref p;
  modify (fun s => Rtrie (rt_root s) (rt_list s) (delete p (rt_nodes s)) (rt_next s) (rt_allocs s)).

Definition set_root (p : option positive) : M rtrie unit := modify (fun s =>
  Rtrie p (rt_list s) (rt_nodes s) (rt_next s) (rt_allocs s)).

Definition list_add (p : positive) : M rtrie unit := modify (fun s =>
  Rtrie (rt_root s) (p :: rt_list s) (rt_nodes s) (rt_next s) (rt_allocs s)).
Definition list_del (p : positive) : M rtrie unit := modify (fun s =>
  Rtrie (rt_root s) (base.filter (fun q => q <> p) (rt_list s)) (rt_nodes s) (rt_next s) (rt_allocs s)).

Definition create_node (n : rtrie_node) : M rtrie (option positive) := fun s =>
  let '(ok, al) := kmalloc (rt_allocs s) in
  Some (if ok then (Some (rt_next s), Rtrie (rt_root s) (rt_list s) (<[rt_next s := n]> (rt_nodes s)) (Pos.succ (rt_next s)) al)
        else (None, Rtrie (rt_root s) (rt_list s) (rt_nodes s) (rt_next s) al)).

(** The copy of the key has only the bytes its bits need. *)
Definition create_inode (key : rtrie_key) (left_child right_child : option positive) : M rtrie (option positive) :=
  let value_bytes := bits_to_bytes (k_len key) in
  create_node (RtrieNode left_child right_child None COLOR_BLACK
    (RtrieKey (take (Z.to_nat value_bytes) (k_bytes key)) (k_len key)) None).

Definition create_leaf (content : V) (key : rtrie_key) : M rtrie (option positive) :=
  create_node (RtrieNode None None None COLOR_WHITE key (Some content)).

(** ** Lookups *)

(** The child, if its key contains [key]. *)
Definition down (child : option positive) (key : rtrie_key) : M rtrie (option positive) :=
  match child with
  | None => mret None
  | Some p =>
      n ← deref p;
      contains ← load (key_contains (t_key n) key);
      mret (if contains : bool then Some p else None)
  end.

Fixpoint find_loop (fuel : nat) (key : rtrie_key) (force_white : bool) (node : positive) (last_white : option positive)
    : M rtrie (option positive) :=
  match fuel with
  | O => fault
  | S fuel =>
      n ← deref node;
      let last_white := if bool_decide (t_color n = COLOR_WHITE) then Some node else last_white in
      child ← down (t_left n) key;
      match child with
      | Some child => find_loop fuel key force_white child last_white
      | None =>
          child ← down (t_right n) key;
          match child with
          | Some child => find_loop fuel key force_white child last_white
          | None => mret (if force_white then last_white else Some node)
          end
      end
  end.

(** A walk down the trie meets no node twice: the nodes are fuel enough. *)
Definition find_longest_common_prefix (key : rtrie_key) (force_white : bool) : M rtrie (option positive) :=
  s ← get;
  node ← down (rt_root s) key;
  match node with
  | None => mret None
  | Some node => find_loop (S (size (rt_nodes s))) key force_white node None
  end.

(** The pointer to a node. *)
Inductive slot : Type := RootSlot | LeftSlot (p : positive) | RightSlot (p : positive).

Definition get_parent_ptr (node : positive) : M rtrie slot :=
  n ← deref node;
  match t_parent n with
  | None => mret RootSlot
  | Some parent =>
      p ← deref parent;
      mret (if bool_decide (t_left p = Some node) then LeftSlot parent else RightSlot parent)
  end.

Definition assign (ptr : slot) (value : option positive) : M rtrie unit :=
  match ptr with
  | RootSlot => set_root value
  | LeftSlot p => upd p (set_left value)
  | RightSlot p => upd p (set_right value)
  end.

(** ** Additions *)

Definition swap_nodes (old new : positive) : M rtrie unit :=
  o ← deref old;
  upd new (fun n => RtrieNode (t_left o) (t_right o) (t_parent o) (t_color n) (t_key n) (t_value n));;
  parent_ptr ← get_parent_ptr old;
  assign parent_ptr (Some new);;
  list_add new;;
  list_del old;;
  kfree old.

Definition add_to_root (new : positive) : M rtrie (result unit) :=
  s ← get;
  match rt_root s with
  | None => set_root (Some new);; list_add new;; mret (Ok tt)
  | Some root =>
      n ← deref new;
      r ← deref root;
      contains ← load (key_contains (t_key n) (t_key r));
      if contains : bool then
        upd new (set_left (Some root));;
        upd root (set_parent (Some new));;
        list_add new;;
        set_root (Some new);;
        mret (Ok tt)
      else
        len ← load (key_match (t_key r) (t_key n));
        inode ← create_inode (RtrieKey (k_bytes (t_key n)) len) (Some root) (Some new);
        match inode with
        | None => mret (Err ENOMEM)
        | Some inode =>
            upd root (set_parent (Some inode));;
            upd new (set_parent (Some inode));;
            list_add inode;;
            list_add new;;
            set_root (Some inode);;
            mret (Ok tt)
        end
  end.

(** How a full collision ends: [inode] takes [higher_prefix1] and
    [higher_prefix2]. *)
Definition attach_inode (parent new smallest_prefix higher_prefix1 higher_prefix2 : positive) (inode_prefix : rtrie_key)
    : M rtrie (result unit) :=
  inode ← create_inode inode_prefix (Some higher_prefix1) (Some higher_prefix2);
  match inode with
  | None => mret (Err ENOMEM)
  | Some inode =>
      upd parent (set_left None);;
      upd parent (set_right None);;
      upd parent (set_left (Some smallest_prefix));;
      upd parent (set_right (Some inode));;
      upd smallest_prefix (set_parent (Some parent));;
      upd inode (set_parent (Some parent));;
      upd higher_prefix1 (set_parent (Some inode));;
      upd higher_prefix2 (set_parent (Some inode));;
      list_add inode;;
      list_add new;;
      mret (Ok tt)
  end.

(** [child1] and [child2] are the children of [parent]. *)
Definition add_full_collision (parent child1 child2 new : positive) : M rtrie (result unit) :=
  l ← deref child1; r ← deref child2; n ← deref new;
  match_lr ← load (key_match (t_key l) (t_key r));
  match_ln ← load (key_match (t_key l) (t_key n));
  match_rn ← load (key_match (t_key r) (t_key n));
  if (match_ln <? match_lr) && (match_rn <? match_lr) then
    attach_inode parent new new child1 child2 (RtrieKey (k_bytes (t_key l)) match_lr)
  else if (match_lr <? match_ln) && (match_rn <? match_ln) then
    attach_inode parent new child2 new child1 (RtrieKey (k_bytes (t_key n)) match_ln)
  else if (match_lr <? match_rn) && (match_ln <? match_rn) then
    attach_inode parent new child1 new child2 (RtrieKey (k_bytes (t_key n)) match_rn)
  else mret (Err EINVAL).

Definition simple_success (parent new : positive) : M rtrie (result unit) :=
  upd new (set_parent (Some parent));;
  list_add new;;
  mret (Ok tt).

(** The new leaf is linked. *)
Definition rtrie_link (new : positive) (key : rtrie_key) : M rtrie (result unit) :=
  parent ← find_longest_common_prefix key false;
  match parent with
  | None => add_to_root new
  | Some parent =>
      p ← deref parent;
      equals ← load (key_equals (t_key p) key);
      if equals : bool then
        if bool_decide (t_color p = COLOR_BLACK) then swap_nodes parent new;; mret (Ok tt)
        else kfree new;; mret (Err EEXIST)
      else match t_left p, t_right p with
      | None, _ => upd parent (set_left (Some new));; simple_success parent new
      | Some _, None => upd parent (set_right (Some new));; simple_success parent new
      | Some child1, Some child2 =>
          l ← deref child1;
          r ← deref child2;
          contains_left ← load (key_contains key (t_key l));
          contains_right ← load (key_contains key (t_key r));
          if (contains_left : bool) && (contains_right : bool) then
            if bool_decide (t_color p = COLOR_BLACK) then swap_nodes parent new;; mret (Ok tt)
            else
              upd new (set_left (Some child1));;
              upd new (set_right (Some child2));;
              upd parent (set_left None);;
              upd parent (set_right None);;
              upd parent (set_right (Some new));;
              upd child1 (set_parent (Some new));;
              upd child2 (set_parent (Some new));;
              simple_success parent new
          else if contains_left then
            upd new (set_left (Some child1));;
            upd parent (set_left (Some new));;
            upd child1 (set_parent (Some new));;
            simple_success parent new
          else if contains_right then
            upd new (set_right (Some child2));;
            upd parent (set_right (Some new));;
            upd child2 (set_parent (Some new));;
            simple_success parent new
          else add_full_collision parent child1 child2 new
      end
  end.

Definition rtrie_add (value : V) (key : rtrie_key) : M rtrie (result unit) :=
  new ← create_leaf value key;
  match new with
  | None => mret (Err ENOMEM)
  | Some new => rtrie_link new key
  end.

(** ** Readers *)

Definition rtrie_get (key : rtrie_key) : M rtrie (result V) :=
  node ← find_longest_common_prefix key true;
  match node with
  | None => mret (Err ESRCH)
  | Some node => n ← deref node; v ← load (t_value n); mret (Ok v)
  end.

Definition rtrie_contains (key : rtrie_key) : M rtrie bool :=
  node ← find_longest_common_prefix key true;
  mret (match node with Some _ => true | None => false end).

Definition rtrie_is_empty : M rtrie bool :=
  s ← get; mret (match rt_root s with Some _ => true | None => false end).

(** ** Removals *)

(** The loop that prunes: [node] has at most one child. *)
Fixpoint prune (fuel : nat) (node : positive) : M rtrie (result unit) :=
  match fuel with
  | O => fault
  | S fuel =>
      n ← deref node;
      parent_ptr ← get_parent_ptr node;
      match t_left n, t_right n with
      | Some child, _ | None, Some child =>
          assign parent_ptr (Some child);;
          upd child (set_parent (t_parent n));;
          list_del node;;
          kfree node;;
          mret (Ok tt)
      | None, None =>
          assign parent_ptr None;;
          list_del node;;
          kfree node;;
          match t_parent n with
          | None => mret (Ok tt)
          | Some parent =>
              p ← deref parent;
              if bool_decide (t_color p = COLOR_BLACK) then prune fuel parent else mret (Ok tt)
          end
      end
  end.

Definition rtrie_rm (key : rtrie_key) : M rtrie (result unit) :=
  node ← find_longest_common_prefix key true;
  match node with
  | None => mret (Err ESRCH)
  | Some node =>
      n ← deref node;
      equals ← load (key_equals (t_key n) key);
      if negb equals then mret (Err ESRCH)
      else match t_left n, t_right n with
      | Some child1, Some child2 =>
          new ← create_inode (t_key n) (Some child1) (Some child2);
          match new with
          | None => mret (Err ENOMEM)
          | Some new =>
              parent_ptr ← get_parent_ptr node;
              assign parent_ptr (Some new);;
              upd child1 (set_parent (Some new));;
              upd child2 (set_parent (Some new));;
              list_add new;;
              list_del node;;
              kfree node;;
              mret (Ok tt)
          end
      | _, _ => s ← get; prune (S (size (rt_nodes s))) node
      end
  end.

(** ** All nodes *)

Fixpoint free_all (l : list positive) : M rtrie unit :=
  match l with
  | [] => mret tt
  | node :: l => kfree node;; free_all l
  end.

Definition rtrie_flush : M rtrie unit :=
  s ← get;
  match rt_root s with
  | None => mret tt
  | Some _ =>
      modify (fun s => Rtrie None [] (rt_nodes s) (rt_next s) (rt_allocs s));;
      free_all (rt_list s)
  end.

Definition rtrie_destroy : M rtrie unit := rtrie_flush.

Fixpoint foreach_loop {B} (cb : V -> B -> Z * B) (l : list positive) (offset : option rtrie_key) (arg : B) : M rtrie (Z * B) :=
  match l with
  | [] => mret (0, arg)
  | node :: l =>
      n ← deref node;
      match offset with
      | Some key =>
          equals ← load (key_equals key (t_key n));
          foreach_loop cb l (if equals : bool then None else offset) arg
      | None =>
          if bool_decide (t_color n = COLOR_WHITE) then
            v ← load (t_value n);
            let '(error, arg) := cb v arg in
            if negb (error =? 0) then mret (error, arg) else foreach_loop cb l None arg
          else foreach_loop cb l None arg
      end
  end.

Definition rtrie_foreach {B} (cb : V -> B -> Z * B) (arg : B) (offset : option rtrie_key) : M rtrie (Z * B) :=
  s ← get; foreach_loop cb (rt_list s) offset arg.

End Trie.
Arguments rtrie_node V : clear implicits.
Arguments rtrie V : clear implicits.
