(* ===== verification/RtrieSpec.v ===== *)
(** * What the tries promise

    The bits of a key; the tree the nodes of the heap represent, when no key
    contains another; and what every operation does to the entries of such a
    trie.  At the end, what goes wrong when keys do contain one another. *)
From S2P Require Import Prelude Types Skb SessionSpec Rtrie.

(** ** Bits *)

Definition byte_at (b : bytes) (i : Z) : Z := default 0 (ld8 b i).

(** The bits of a key, the most significant of the first byte first. *)
Definition bit_at (b : bytes) (i : Z) : bool := Z.testbit (byte_at b (i / 8)) (7 - i mod 8).

Definition wf_key (k : rtrie_key) : Prop :=
  wf_bytes (k_bytes k) /\ 0 <= k_len k /\ k_len k <= 8 * blen (k_bytes k).

Definition kbits (k : rtrie_key) : list bool := map (bit_at (k_bytes k)) (seqZ 0 (k_len k)).

(** The length of the longest common prefix. *)
Fixpoint common (l1 l2 : list bool) : nat :=
  match l1, l2 with
  | x :: l1, y :: l2 => if Bool.eqb x y then S (common l1 l2) else O
  | _, _ => O
  end.

Lemma kbits_length k : wf_key k -> Z.of_nat (length (kbits k)) = k_len k.
Proof. intros (_ & H & _). unfold kbits. rewrite length_map, length_seqZ. lia. Qed.

Lemma kbits_lookup k (i : nat) : Z.of_nat i < k_len k -> kbits k !! i = Some (bit_at (k_bytes k) (Z.of_nat i)).
Proof. intros H. unfold kbits. rewrite list_lookup_fmap, lookup_seqZ_lt by lia. done. Qed.

Lemma ld8_byte b i : 0 <= i < blen b -> ld8 b i = Some (byte_at b i).
Proof. intros H. unfold byte_at. destruct (ld8_some b i) as [x ->]; [lia|]. done. Qed.

Lemma get_bit_testbit x i : 0 <= i < 8 -> get_bit x i = Z.b2z (Z.testbit x (7 - i)).
Proof.
  intros H. unfold get_bit. rewrite Z.land_ones with (n := 1) by lia. change (2 ^ 1) with 2.
  rewrite <- Z.bit0_mod, Z.shiftr_spec by lia. f_equal.
Qed.

(** The bits of [b1] and [b2] up to [r] are the same, and [r] is as far as
    that goes within [n]. *)
Definition agree_up_to (b1 b2 : bytes) (n r : Z) : Prop :=
  0 <= r <= n /\ (forall i, 0 <= i < r -> bit_at b1 i = bit_at b2 i) /\ (r < n -> bit_at b1 r <> bit_at b2 r).

Lemma bit_at_byte b y i : 0 <= i < 8 -> bit_at b (8 * y + i) = Z.testbit (byte_at b y) (7 - i).
Proof.
  intros H. unfold bit_at. replace ((8 * y + i) / 8) with y by (apply (Z.div_unique _ _ _ i); lia).
  replace ((8 * y + i) mod 8) with i by (apply (Z.mod_unique _ _ y); lia). done.
Qed.

Lemma same_byte_bits b1 b2 y i : byte_at b1 y = byte_at b2 y -> 8 * y <= i < 8 * y + 8 -> bit_at b1 i = bit_at b2 i.
Proof. intros E H. replace i with (8 * y + (i - 8 * y)) by lia. rewrite !bit_at_byte, E by lia. done. Qed.

Lemma match_bits_spec n b1 b2 y : forall i result, 0 <= y < blen b1 -> y < blen b2 -> 0 <= i -> i + Z.of_nat n <= 8 ->
  exists r, match_bits n b1 b2 y i result = Some (result + r) /\ 0 <= r <= Z.of_nat n /\
    (forall j, i <= j < i + r -> bit_at b1 (8 * y + j) = bit_at b2 (8 * y + j)) /\
    (r < Z.of_nat n -> bit_at b1 (8 * y + (i + r)) <> bit_at b2 (8 * y + (i + r))).
Proof.
  induction n as [|n IH]; intros i result H1 H2 Hi Hn; cbn [match_bits].
  - exists 0. split; [f_equal; lia|]. split; [lia|]. split; [intros; lia|lia].
  - rewrite !ld8_byte by lia. cbn [mbind option_bind]. rewrite !get_bit_testbit by lia.
    destruct (Bool.eqb_spec (Z.testbit (byte_at b1 y) (7 - i)) (Z.testbit (byte_at b2 y) (7 - i))) as [E|E].
    + rewrite E, Z.eqb_refl. cbn [negb]. destruct (IH (i + 1) (result + 1) H1 H2) as (r & Hr & Hle & Hs & Hd); [lia..|].
      exists (r + 1). split; [rewrite Hr; f_equal; lia|]. split; [lia|]. split.
      * intros j Hj. destruct (decide (j = i)) as [->|]; [rewrite !bit_at_byte by lia; exact E|apply Hs; lia].
      * intros Hlt. replace (i + (r + 1)) with (i + 1 + r) by lia. apply Hd. lia.
    + exists 0. assert (En : (Z.b2z (Z.testbit (byte_at b1 y) (7 - i)) =? Z.b2z (Z.testbit (byte_at b2 y) (7 - i))) = false).
      { apply Z.eqb_neq. intros E'. apply E. apply Z.b2z_inj. exact E'. }
      rewrite En. cbn [negb]. split; [f_equal; lia|]. split; [lia|]. split; [intros; lia|]. intros _. rewrite Z.add_0_r, !bit_at_byte by lia. exact E.
Qed.

Lemma match_bytes_spec n b1 b2 : forall y, 0 <= y -> y + Z.of_nat n <= blen b1 -> y + Z.of_nat n <= blen b2 ->
  (forall i, 0 <= i < 8 * y -> bit_at b1 i = bit_at b2 i) ->
  exists y' d, match_bytes n b1 b2 y (8 * y) = Some (y', 8 * y', d) /\ y <= y' <= y + Z.of_nat n /\
    (forall i, 0 <= i < 8 * y' -> bit_at b1 i = bit_at b2 i) /\
    (if d : bool then y' < y + Z.of_nat n /\ byte_at b1 y' <> byte_at b2 y' else y' = y + Z.of_nat n).
Proof.
  induction n as [|n IH]; intros y H0 H1 H2 Hs; cbn [match_bytes].
  - exists y, false. split_and!; try done; lia.
  - rewrite !ld8_byte by lia. cbn [mbind option_bind]. destruct (Z.eqb_spec (byte_at b1 y) (byte_at b2 y)) as [E|E]; cbn [negb].
    + replace (8 * y + 8) with (8 * (y + 1)) by lia. destruct (IH (y + 1)) as (y' & d & Hr & Hle & Hs' & Hd); [lia..| |].
      * intros i Hi. destruct (Z.lt_ge_cases i (8 * y)); [apply Hs; lia|]. apply (same_byte_bits _ _ y); [exact E|lia].
      * exists y', d. split; [exact Hr|]. split; [lia|]. split; [exact Hs'|]. destruct d; [destruct Hd; split; [lia|done]|lia].
    + exists y, true. split_and!; try done; lia.
Qed.

(** Two bytes with the same bits. *)
Lemma byte_ext x y : is_u8 x -> is_u8 y -> (forall i, 0 <= i < 8 -> Z.testbit x (7 - i) = Z.testbit y (7 - i)) -> x = y.
Proof.
  intros Hx Hy H. apply Z.bits_inj'. intros n Hn. destruct (Z.lt_ge_cases n 8).
  - replace n with (7 - (7 - n)) by lia. apply H. lia.
  - rewrite !(testbit_high _ 8); unfold is_u8 in *; (done || lia).
Qed.

Lemma byte_at_u8 b i : wf_bytes b -> is_u8 (byte_at b i).
Proof. intros Hb. unfold byte_at. destruct (ld8 b i) as [x|] eqn:E; [exact (ld8_u8 _ _ _ Hb E)|done]. Qed.

Lemma key_match_bits_spec k1 k2 n : wf_key k1 -> wf_key k2 -> 0 <= n -> n <= k_len k1 -> n <= k_len k2 ->
  exists r, key_match_bits k1 k2 n = Some r /\ agree_up_to (k_bytes k1) (k_bytes k2) n r.
Proof.
  intros (W1 & _ & L1) (W2 & _ & L2) H0 H1 H2. set (b1 := k_bytes k1) in *. set (b2 := k_bytes k2) in *. unfold key_match_bits. fold b1 b2.
  rewrite Z.shiftr_div_pow2 by lia. change (2 ^ 3) with 8. rewrite Z.land_ones with (n := 3) by lia. change (2 ^ 3) with 8.
  pose proof (Z.div_mod n 8) as Hdm. pose proof (Z.mod_pos_bound n 8) as Hmod. set (q := n / 8) in *. set (m := n mod 8) in *.
  assert (0 <= q) by (apply Z.div_pos; lia).
  destruct (match_bytes_spec (Z.to_nat q) b1 b2 0) as (y & d & Hrun & Hy & Hs & Hd); [lia..|intros; lia|].
  change (8 * 0) with 0 in Hrun. rewrite Hrun. cbn [mbind option_bind]. rewrite Z2Nat.id in * by lia. destruct d.
  - destruct Hd as [Hlt Hne]. destruct (match_bits_spec 8 b1 b2 y 0 (8 * y)) as (r & Hr & Hle & Hs2 & Hd2); [lia..|].
    change (Z.to_nat 8) with 8%nat. rewrite Hr. exists (8 * y + r). split; [done|].
    assert (r < 8).
    { destruct (Z.lt_ge_cases r 8); [done|]. exfalso. apply Hne. apply byte_ext; [apply byte_at_u8; done..|].
      intros i Hi. rewrite <- !bit_at_byte by lia. apply Hs2. lia. }
    split; [lia|]. split; [|intros _; apply Hd2; lia].
    intros i Hi. destruct (Z.lt_ge_cases i (8 * y)); [apply Hs; lia|]. replace i with (8 * y + (i - 8 * y)) by lia. apply Hs2. lia.
  - subst y. destruct (decide (m = 0)) as [Em|Em].
    + rewrite Em. cbn [Z.to_nat match_bits]. exists (8 * q). split; [f_equal; lia|]. split; [lia|]. split; [intros; apply Hs; lia|lia].
    + destruct (match_bits_spec (Z.to_nat m) b1 b2 (0 + q) 0 (8 * (0 + q))) as (r & Hr & Hle & Hs2 & Hd2); [lia..|].
      rewrite Z2Nat.id in * by lia. exists (8 * q + r). split; [rewrite Hr; f_equal; lia|]. split; [lia|]. split.
      * intros i Hi. destruct (Z.lt_ge_cases i (8 * q)); [apply Hs; lia|]. replace i with (8 * (0 + q) + (i - 8 * q)) by lia. apply Hs2. lia.
      * intros Hlt. replace (8 * q + r) with (8 * (0 + q) + (0 + r)) by lia. apply Hd2. lia.
Qed.

(** ** Prefixes *)

Lemma common_unique l1 : forall l2 r,
  (r <= length l1)%nat -> (r <= length l2)%nat -> (forall i, (i < r)%nat -> l1 !! i = l2 !! i) ->
  ((r < length l1)%nat -> (r < length l2)%nat -> l1 !! r <> l2 !! r) -> common l1 l2 = r.
Proof.
  induction l1 as [|x l1 IH]; intros [|y l2] [|r] H1 H2 Hs Hd; cbn [length common] in *; try lia.
  - destruct (Bool.eqb_spec x y) as [->|]; [|done]. exfalso. apply Hd; [lia..|done].
  - pose proof (Hs O ltac:(lia)) as [= ->]. rewrite Bool.eqb_reflx. f_equal. apply IH; [lia..| |].
    + intros i Hi. apply (Hs (S i)). lia.
    + intros ? ?. apply Hd; lia.
Qed.

Lemma prefix_lookups (l1 l2 : list bool) :
  l1 `prefix_of` l2 <-> (length l1 <= length l2)%nat /\ forall i, (i < length l1)%nat -> l1 !! i = l2 !! i.
Proof.
  split.
  - intros H. split; [apply prefix_length, H|]. intros i Hi. apply prefix_lookup_lt; done.
  - intros [Hle H]. exists (drop (length l1) l2). rewrite <- (take_drop (length l1) l2) at 1. f_equal. apply list_eq. intros i.
    destruct (decide (i < length l1)%nat).
    + rewrite lookup_take_lt by done. symmetry. apply H. done.
    + rewrite (lookup_ge_None_2 l1), lookup_ge_None_2; [done|rewrite length_take; lia|lia].
Qed.

Section Keys.
Context (k1 k2 : rtrie_key) (W1 : wf_key k1) (W2 : wf_key k2).

Lemma key_match_eq : key_match k1 k2 = Some (Z.of_nat (common (kbits k1) (kbits k2))).
Proof.
  pose proof (kbits_length k1 W1) as E1. pose proof (kbits_length k2 W2) as E2.
  destruct (key_match_bits_spec k1 k2 (Z.min (k_len k1) (k_len k2)) W1 W2) as (r & Hr & H0 & Hs & Hd); [lia..|].
  unfold key_match. rewrite Hr. f_equal. rewrite (common_unique _ _ (Z.to_nat r)); [lia..| |].
  - intros i Hi. rewrite !kbits_lookup by lia. f_equal. apply Hs. lia.
  - intros ? ?. rewrite !kbits_lookup, Z2Nat.id by lia. intros [= E]. apply Hd in E; [done|lia].
Qed.

Lemma key_contains_eq : key_contains k1 k2 = Some (bool_decide (kbits k1 `prefix_of` kbits k2)).
Proof.
  pose proof (kbits_length k1 W1) as E1. pose proof (kbits_length k2 W2) as E2. unfold key_contains. destruct (Z.leb_spec (k_len k1) (k_len k2)).
  - destruct (key_match_bits_spec k1 k2 (k_len k1) W1 W2) as (r & -> & H0 & Hs & Hd); [lia..|]. cbn [mbind option_bind]. f_equal.
    destruct (Z.eqb_spec r (k_len k1)) as [->|Hne]; symmetry.
    + apply bool_decide_eq_true_2, prefix_lookups. split; [lia|]. intros i Hi. rewrite !kbits_lookup by lia. f_equal. apply Hs. lia.
    + apply bool_decide_eq_false_2. intros [_ Hp]%prefix_lookups. specialize (Hp (Z.to_nat r) ltac:(lia)).
      rewrite !kbits_lookup, Z2Nat.id in Hp by lia. injection Hp as Hp. apply Hd in Hp; [done|lia].
  - symmetry. f_equal. apply bool_decide_eq_false_2. intros [Hp _]%prefix_lookups. lia.
Qed.

Lemma key_equals_eq : key_equals k1 k2 = Some (bool_decide (kbits k1 = kbits k2)).
Proof.
  pose proof (kbits_length k1 W1) as E1. pose proof (kbits_length k2 W2) as E2. pose proof key_contains_eq as Hc. unfold key_equals.
  unfold key_contains in Hc. destruct (Z.eqb_spec (k_len k1) (k_len k2)) as [E|E].
  - destruct (Z.leb_spec (k_len k1) (k_len k2)); [|lia]. rewrite Hc. f_equal. apply bool_decide_ext. split; [|intros ->; done].
    intros Hp. apply prefix_length_eq; [exact Hp|lia].
  - symmetry. f_equal. apply bool_decide_eq_false_2. intros Hb. rewrite Hb in E1. lia.
Qed.

End Keys.

(** Neither key contains the other. *)
Definition disjoint_keys (l1 l2 : list bool) : Prop := ~ l1 `prefix_of` l2 /\ ~ l2 `prefix_of` l1.

Lemma common_diff K x l1 l2 : K ++ [x] `prefix_of` l1 -> K ++ [negb x] `prefix_of` l2 -> common l1 l2 = length K.
Proof.
  intros [m1 ->] [m2 ->]. induction K as [|a K IH]; cbn [app common length].
  - destruct x; done.
  - rewrite Bool.eqb_reflx, IH. done.
Qed.

Lemma common_same K x l1 l2 : K ++ [x] `prefix_of` l1 -> K ++ [x] `prefix_of` l2 -> (length K < common l1 l2)%nat.
Proof.
  intros [m1 ->] [m2 ->]. induction K as [|a K IH]; cbn [app common length]; rewrite Bool.eqb_reflx; [lia|]. lia.
Qed.

Lemma common_sym l1 l2 : common l1 l2 = common l2 l1.
Proof.
  revert l2. induction l1 as [|x l1 IH]; intros [|y l2]; cbn [common]; try done.
  destruct (Bool.eqb_spec x y) as [->|H]; [rewrite Bool.eqb_reflx, IH; done|]. destruct (Bool.eqb_spec y x); [congruence|done].
Qed.

(** Two disjoint keys part after their common prefix. *)
Lemma disjoint_split l1 l2 : disjoint_keys l1 l2 ->
  let K := take (common l1 l2) l1 in exists x, K ++ [x] `prefix_of` l1 /\ K ++ [negb x] `prefix_of` l2.
Proof.
  revert l2. induction l1 as [|x l1 IH]; intros l2 [H1 H2]; [destruct H1; apply prefix_nil|].
  destruct l2 as [|y l2]; [destruct H2; apply prefix_nil|]. cbn [common]. destruct (Bool.eqb_spec x y) as [->|Hne].
  - destruct (IH l2) as (z & Hz1 & Hz2); [split; intros Hp; [apply H1|apply H2]; apply prefix_cons; done|].
    exists z. cbn [take app]. split; apply prefix_cons; done.
  - exists x. cbn [take app]. split; [exists l1; done|]. exists l2. destruct x, y; done.
Qed.

(** A key longer than [K] goes one way or the other. *)
Lemma extends_split (K l : list bool) : K `prefix_of` l -> l <> K -> exists x, K ++ [x] `prefix_of` l.
Proof. intros [[|x m] ->] Hne; [rewrite app_nil_r in Hne; done|]. exists x, m. rewrite <- app_assoc. done. Qed.

(** The key of a new black node. *)
Lemma inode_key_spec kn len : wf_key kn -> (len <= length (kbits kn))%nat ->
  let k := RtrieKey (take (Z.to_nat (bits_to_bytes (Z.of_nat len))) (k_bytes kn)) (Z.of_nat len) in
  wf_key k /\ kbits k = take len (kbits kn).
Proof.
  intros W Hle k. pose proof (kbits_length kn W) as El. destruct W as (Wb & W0 & W8).
  assert (Hb : bits_to_bytes (Z.of_nat len) = (Z.of_nat len + 7) / 8).
  { unfold bits_to_bytes. destruct (Z.eqb_spec (Z.of_nat len) 0) as [->|Hn]; [done|]. cbn [negb]. rewrite Z.shiftr_div_pow2 by lia. change (2 ^ 3) with 8.
    replace (Z.of_nat len + 7) with (Z.of_nat len - 1 + 1 * 8) by lia. rewrite Z.div_add by lia. done. }
  pose proof (Z.div_mod (Z.of_nat len + 7) 8) as Hdm. pose proof (Z.mod_pos_bound (Z.of_nat len + 7) 8).
  set (q := (Z.of_nat len + 7) / 8) in *. assert (0 <= q <= blen (k_bytes kn)) by (split; [apply Z.div_pos; lia|lia]).
  assert (Lk : blen (k_bytes k) = q) by (subst k; cbn [k_bytes]; rewrite Hb; unfold blen in *; rewrite length_take; lia).
  assert (Wk : wf_key k).
  { split; [|split; [cbn; lia|rewrite Lk; cbn [k k_len]; lia]]. subst k. cbn [k_bytes]. unfold wf_bytes in *. apply Forall_take, Wb. }
  split; [exact Wk|]. pose proof (kbits_length k Wk) as Elk. cbn [k k_len] in Elk. apply list_eq. intros j.
  destruct (decide (j < len)%nat) as [Hj|Hj].
  - rewrite lookup_take_lt by done. rewrite !kbits_lookup by (cbn [k k_len]; lia). f_equal. unfold bit_at, byte_at. f_equal. f_equal. unfold ld8.
    assert (0 <= Z.of_nat j / 8 < q) by (split; [apply Z.div_pos; lia|]; apply Z.div_lt_upper_bound; lia).
    destruct (0 <=? Z.of_nat j / 8); [|done]. subst k. cbn [k_bytes]. rewrite Hb, lookup_take_lt by lia. done.
  - rewrite !lookup_ge_None_2; [done|rewrite length_take; lia|lia].
Qed.

(** ** Trees *)

Section Trees.
Context {V : Type}.

(** White nodes are leaves; black ones have two children, whose keys part
    right after their parent's. *)
Inductive tree : Type :=
| Leaf (l : positive) (k : rtrie_key) (v : V)
| Inode (l : positive) (k : rtrie_key) (a b : tree).

Definition tloc (t : tree) : positive := match t with Leaf l _ _ | Inode l _ _ _ => l end.
Definition tkey (t : tree) : rtrie_key := match t with Leaf _ k _ | Inode _ k _ _ => k end.
Abbreviation tbits t := (kbits (tkey t)).

Fixpoint locs (t : tree) : list positive :=
  match t with Leaf l _ _ => [l] | Inode l _ a b => l :: locs a ++ locs b end.

Fixpoint entries (t : tree) : list (list bool * V) :=
  match t with Leaf _ k v => [(kbits k, v)] | Inode _ _ a b => entries a ++ entries b end.

Fixpoint good (t : tree) : Prop :=
  match t with
  | Leaf _ k _ => wf_key k
  | Inode _ k a b => wf_key k /\ good a /\ good b /\ exists x, kbits k ++ [x] `prefix_of` tbits a /\ kbits k ++ [negb x] `prefix_of` tbits b
  end.

(** The heap has the tree, under the node [par]. *)
Fixpoint repr (h : gmap positive (rtrie_node V)) (par : option positive) (t : tree) : Prop :=
  match t with
  | Leaf l k v => h !! l = Some (RtrieNode None None par COLOR_WHITE k (Some v))
  | Inode l k a b => h !! l = Some (RtrieNode (Some (tloc a)) (Some (tloc b)) par COLOR_BLACK k None) /\ repr h (Some l) a /\ repr h (Some l) b
  end.

Lemma tloc_locs t : tloc t ∈ locs t.
Proof. destruct t; left. Qed.

Lemma good_wf t : good t -> wf_key (tkey t).
Proof. destruct t; [done|]. intros [? _]. done. Qed.

Lemma repr_frame h h' t : forall par, (forall l, l ∈ locs t -> h' !! l = h !! l) -> repr h par t -> repr h' par t.
Proof.
  induction t as [l k v|l k a IHa b IHb]; intros par Hs; cbn [repr locs] in *.
  - rewrite Hs; [done|left].
  - intros (Hl & Ha & Hb). split; [rewrite Hs; [done|left]|]. split; [apply IHa|apply IHb]; try done; intros l' Hl'; apply Hs; right; apply elem_of_app; auto.
Qed.

Lemma repr_node h par t : repr h par t -> exists n, h !! tloc t = Some n /\ t_key n = tkey t /\ t_parent n = par /\
  match t with
  | Leaf _ _ v => n = RtrieNode None None par COLOR_WHITE (tkey t) (Some v)
  | Inode _ _ a b => n = RtrieNode (Some (tloc a)) (Some (tloc b)) par COLOR_BLACK (tkey t) None
  end.
Proof. destruct t; cbn; [intros H|intros (H & _)]; eexists; (split; [exact H|]); done. Qed.

Lemma entries_prefix t e : good t -> e ∈ entries t -> tbits t `prefix_of` e.1.
Proof.
  revert e. induction t as [l k v|l k a IHa b IHb]; intros e; cbn [good entries tkey].
  - intros _ ->%list_elem_of_singleton. done.
  - intros (_ & Ga & Gb & x & Pa & Pb) [He|He]%elem_of_app.
    + transitivity (tbits a); [|apply IHa; done]. transitivity (kbits k ++ [x]); [apply prefix_app_r; done|done].
    + transitivity (tbits b); [|apply IHb; done]. transitivity (kbits k ++ [negb x]); [apply prefix_app_r; done|done].
Qed.

(** ** The walk *)

(** Where the walk for [q] ends. *)
Fixpoint reach (t : tree) (q : list bool) : tree :=
  match t with
  | Leaf _ _ _ => t
  | Inode _ _ a b =>
      if decide (tbits a `prefix_of` q) then reach a q
      else if decide (tbits b `prefix_of` q) then reach b q
      else t
  end.

Fixpoint height (t : tree) : nat := match t with Leaf _ _ _ => 1 | Inode _ _ a b => S (Nat.max (height a) (height b)) end.

Lemma height_locs t : (height t <= length (locs t))%nat.
Proof. induction t; cbn [height locs length]; rewrite ?length_app; lia. Qed.

Lemma down_run (s : rtrie V) par t key : repr (rt_nodes s) par t -> good t -> wf_key key ->
  down (Some (tloc t)) key s = Some (if decide (tbits t `prefix_of` kbits key) then Some (tloc t) else None, s).
Proof.
  intros Hr Hg Hw. destruct (repr_node _ _ _ Hr) as (n & Hn & Ek & _). unfold down, deref, get, load, mbind, M_bind. rewrite Hn, Ek.
  rewrite key_contains_eq by (done || apply good_wf; done). 
  destruct (decide _) as [H|H]; [rewrite (bool_decide_eq_true_2 _ H)|rewrite (bool_decide_eq_false_2 _ H)]; done.
Qed.

Lemma find_loop_run (s : rtrie V) key fw t : forall fuel par lw,
  repr (rt_nodes s) par t -> good t -> wf_key key -> (height t <= fuel)%nat ->
  find_loop fuel key fw (tloc t) lw s =
    Some (if fw then match reach t (kbits key) with Leaf l _ _ => Some l | _ => lw end else Some (tloc (reach t (kbits key))), s).
Proof.
  induction t as [l k v|l k a IHa b IHb]; intros [|fuel] par lw Hr Hg Hw Hf; cbn [height] in Hf; try lia.
  - cbn [repr] in Hr. cbn [find_loop tloc]. unfold deref at 1, get, load, mbind, M_bind. rewrite Hr. cbn. destruct fw; done.
  - destruct Hr as (Hl & Ha & Hb). destruct Hg as (_ & Ga & Gb & _). cbn [find_loop tloc].
    assert (Hd : deref l s = Some (RtrieNode (Some (tloc a)) (Some (tloc b)) par COLOR_BLACK k None, s)).
    { unfold deref, get, load, mbind, M_bind. rewrite Hl. done. }
    rewrite (bind_run _ _ _ _ _ Hd). cbn [t_color t_left t_right]. rewrite bool_decide_eq_false_2 by done.
    rewrite (bind_run _ _ _ _ _ (down_run s _ a key Ha Ga Hw)). cbn [reach]. destruct (decide (tbits a `prefix_of` kbits key)).
    + apply (IHa fuel (Some l) lw); (done || lia).
    + rewrite (bind_run _ _ _ _ _ (down_run s _ b key Hb Gb Hw)). destruct (decide (tbits b `prefix_of` kbits key)).
      * apply (IHb fuel (Some l) lw); (done || lia).
      * destruct fw; done.
Qed.

Lemma repr_dom h t : forall par l, repr h par t -> l ∈ locs t -> is_Some (h !! l).
Proof.
  induction t as [l' k v|l' k a IHa b IHb]; intros par l; cbn [repr locs].
  - intros H ->%list_elem_of_singleton. eauto.
  - intros (Hl & Ha & Hb) [->|[H|H]%elem_of_app]%elem_of_cons; eauto.
Qed.

Lemma locs_size (h : gmap positive (rtrie_node V)) (ls : list positive) : NoDup ls -> (forall l, l ∈ ls -> is_Some (h !! l)) -> (length ls <= size h)%nat.
Proof.
  intros Hnd Hin. rewrite <- size_dom, <- (size_list_to_set (C := gset positive)) by done. apply subseteq_size.
  intros l Hl%elem_of_list_to_set. apply elem_of_dom, Hin, Hl.
Qed.

(** What a state is, when its nodes make a tree. *)
Definition trep (s : rtrie V) (t : option tree) : Prop :=
  rt_root s = option_map tloc t /\
  match t with
  | None => rt_list s = []
  | Some t => repr (rt_nodes s) None t /\ NoDup (locs t) /\ good t /\ Permutation (rt_list s) (locs t)
  end /\
  (forall l, is_Some (rt_nodes s !! l) -> (l < rt_next s)%positive).

Definition tentries (t : option tree) : list (list bool * V) := match t with Some t => entries t | None => [] end.

(** The subtree a search ends at. *)
Definition found (t : option tree) (q : list bool) : option tree :=
  match t with Some t => if decide (tbits t `prefix_of` q) then Some (reach t q) else None | None => None end.

Lemma find_run s t key fw : trep s t -> wf_key key ->
  find_longest_common_prefix key fw s =
    Some (match found t (kbits key) with
          | Some (Leaf l _ _) => Some l
          | Some (Inode l _ _ _) => if fw then None else Some l
          | None => None
          end, s).
Proof.
  intros (Hroot & Ht & _) Hw. unfold find_longest_common_prefix. unfold get, mbind at 1, M_bind at 1. rewrite Hroot.
  destruct t as [t|]; [|done]. destruct Ht as (Hr & Hnd & Hg & _). cbn [option_map found].
  rewrite (bind_run _ _ _ _ _ (down_run s _ t key Hr Hg Hw)). destruct (decide (tbits t `prefix_of` kbits key)); [|done].
  rewrite (find_loop_run s key fw t (S (size (rt_nodes s))) None None Hr Hg Hw).
  - destruct fw, (reach t (kbits key)); done.
  - pose proof (height_locs t). pose proof (locs_size (rt_nodes s) (locs t) Hnd (fun l Hl => repr_dom _ _ _ _ Hr Hl)). lia.
Qed.

(** ** What is found *)

Lemma reach_prefix t q : tbits t `prefix_of` q -> tbits (reach t q) `prefix_of` q.
Proof. induction t as [|l k a IHa b IHb]; [done|]. intros H. cbn [reach]. destruct (decide _); [auto|]. destruct (decide _); [auto|done]. Qed.

(** A key is on one side only. *)
Lemma one_side K x (l1 l2 q : list bool) : K ++ [x] `prefix_of` l1 -> K ++ [negb x] `prefix_of` l2 -> l1 `prefix_of` q -> l2 `prefix_of` q -> False.
Proof.
  intros [m1 ->] [m2 ->] [n1 ->] [n2 E]. rewrite <- !app_assoc in E. apply app_inv_head in E. cbn in E. injection E as E _. destruct x; done.
Qed.

Lemma reach_spec t q : good t ->
  match reach t q with
  | Leaf _ k v => (kbits k, v) ∈ entries t /\ (forall e, e ∈ entries t -> e.1 `prefix_of` q -> e = (kbits k, v))
  | Inode _ _ _ _ => forall e, e ∈ entries t -> ~ e.1 `prefix_of` q
  end.
Proof.
  induction t as [l k v|l k a IHa b IHb]; cbn [good reach entries].
  - intros _. split; [left|]. intros e ->%list_elem_of_singleton _. done.
  - intros (_ & Ga & Gb & x & Pa & Pb). specialize (IHa Ga). specialize (IHb Gb).
    assert (Hside : forall t1 t2 y, good t2 -> kbits k ++ [y] `prefix_of` tbits t1 -> kbits k ++ [negb y] `prefix_of` tbits t2 ->
      tbits t1 `prefix_of` q -> forall e, e ∈ entries t2 -> ~ e.1 `prefix_of` q).
    { intros t1 t2 y G2 P1 P2 Hq e He Hp. apply (one_side (kbits k) y (tbits t1) (tbits t2) q P1 P2 Hq). transitivity e.1; [apply entries_prefix; done|done]. }
    destruct (decide (tbits a `prefix_of` q)) as [Ha|Ha]; [|destruct (decide (tbits b `prefix_of` q)) as [Hb|Hb]].
    + pose proof (Hside a b x Gb Pa Pb Ha) as Hno. destruct (reach a q).
      * destruct IHa as [Hin Hu]. split; [apply elem_of_app; auto|]. intros e [He|He]%elem_of_app Hp; [auto|destruct (Hno e He Hp)].
      * intros e [He|He]%elem_of_app; auto.
    + pose proof (Hside b a (negb x) Ga Pb ltac:(rewrite negb_involutive; exact Pa) Hb) as Hno. destruct (reach b q).
      * destruct IHb as [Hin Hu]. split; [apply elem_of_app; auto|]. intros e [He|He]%elem_of_app Hp; [destruct (Hno e He Hp)|auto].
      * intros e [He|He]%elem_of_app; auto.
    + intros e [He|He]%elem_of_app Hp; [apply Ha|apply Hb]; (etransitivity; [apply entries_prefix; eassumption|exact Hp]).
Qed.

Lemma found_spec s t q : trep s t ->
  match found t q with
  | Some (Leaf _ k v) => kbits k `prefix_of` q /\ (kbits k, v) ∈ tentries t /\ (forall e, e ∈ tentries t -> e.1 `prefix_of` q -> e = (kbits k, v))
  | _ => forall e, e ∈ tentries t -> ~ e.1 `prefix_of` q
  end.
Proof.
  intros (_ & Ht & _). destruct t as [t|]; cbn [found tentries]; [|intros e He; apply not_elem_of_nil in He; done].
  destruct Ht as (_ & _ & Hg & _). pose proof (reach_spec t q Hg) as Hs. destruct (decide (tbits t `prefix_of` q)) as [Hp|Hp].
  - pose proof (reach_prefix t q Hp) as Hq. destruct (reach t q); [|exact Hs]. destruct Hs. done.
  - intros e He Hq. apply Hp. transitivity e.1; [apply entries_prefix; done|done].
Qed.

(** ** Contexts *)

(** A black node on the way to a subtree, its other child, and the side of
    the subtree. *)
Record frame : Type := Frame { f_loc : positive; f_key : rtrie_key; f_left : bool; f_sib : tree }.

Definition plug1 (f : frame) (t : tree) : tree :=
  if f_left f then Inode (f_loc f) (f_key f) t (f_sib f) else Inode (f_loc f) (f_key f) (f_sib f) t.

(** The innermost frame first. *)
Fixpoint plug (c : list frame) (t : tree) : tree := match c with [] => t | f :: c => plug c (plug1 f t) end.

Definition cpar (c : list frame) : option positive := match c with [] => None | f :: _ => Some (f_loc f) end.

Fixpoint clocs (c : list frame) : list positive := match c with [] => [] | f :: c => f_loc f :: locs (f_sib f) ++ clocs c end.
Fixpoint centries (c : list frame) : list (list bool * V) := match c with [] => [] | f :: c => entries (f_sib f) ++ centries c end.

Definition frame_node (f : frame) (hole : positive) (par : option positive) : rtrie_node V :=
  if f_left f then RtrieNode (Some hole) (Some (tloc (f_sib f))) par COLOR_BLACK (f_key f) None
  else RtrieNode (Some (tloc (f_sib f))) (Some hole) par COLOR_BLACK (f_key f) None.

Fixpoint crepr (h : gmap positive (rtrie_node V)) (c : list frame) (hole : positive) : Prop :=
  match c with
  | [] => True
  | f :: c => h !! f_loc f = Some (frame_node f hole (cpar c)) /\ repr h (Some (f_loc f)) (f_sib f) /\ crepr h c (f_loc f)
  end.

Fixpoint cgood (c : list frame) (bits : list bool) : Prop :=
  match c with
  | [] => True
  | f :: c => wf_key (f_key f) /\ good (f_sib f) /\
      (exists x, kbits (f_key f) ++ [x] `prefix_of` bits /\ kbits (f_key f) ++ [negb x] `prefix_of` tbits (f_sib f)) /\ cgood c (kbits (f_key f))
  end.

Lemma plug1_loc f t : tloc (plug1 f t) = f_loc f.
Proof. unfold plug1. destruct (f_left f); done. Qed.

Lemma plug1_key f t : tkey (plug1 f t) = f_key f.
Proof. unfold plug1. destruct (f_left f); done. Qed.

Lemma plug_repr h c : forall t, repr h None (plug c t) <-> crepr h c (tloc t) /\ repr h (cpar c) t.
Proof.
  induction c as [|f c IH]; intros t; cbn [plug crepr cpar]; [tauto|]. rewrite IH, plug1_loc. unfold plug1, frame_node.
  destruct (f_left f); cbn [repr]; tauto.
Qed.

Lemma plug_locs c : forall t, Permutation (locs (plug c t)) (clocs c ++ locs t).
Proof.
  induction c as [|f c IH]; intros t; cbn [plug clocs app]; [done|]. rewrite IH. unfold plug1. destruct (f_left f); cbn [locs]; solve_Permutation.
Qed.

Lemma plug_entries c : forall t, Permutation (entries (plug c t)) (centries c ++ entries t).
Proof.
  induction c as [|f c IH]; intros t; cbn [plug centries app]; [done|]. rewrite IH. unfold plug1. destruct (f_left f); cbn [entries]; solve_Permutation.
Qed.

Lemma plug_good c : forall t, good (plug c t) <-> cgood c (tbits t) /\ good t.
Proof.
  induction c as [|f c IH]; intros t; cbn [plug cgood]; [tauto|]. rewrite IH, plug1_key. unfold plug1.
  assert (Hsym : forall l1 l2 : list bool, (exists x, kbits (f_key f) ++ [x] `prefix_of` l1 /\ kbits (f_key f) ++ [negb x] `prefix_of` l2) <->
    (exists x, kbits (f_key f) ++ [x] `prefix_of` l2 /\ kbits (f_key f) ++ [negb x] `prefix_of` l1)).
  { intros l1 l2. split; intros (x & H1 & H2); exists (negb x); rewrite negb_involutive; done. }
  destruct (f_left f); cbn [good]; [|rewrite (Hsym (tbits (f_sib f)))]; tauto.
Qed.

Lemma cgood_mono c l1 l2 : l1 `prefix_of` l2 -> cgood c l1 -> cgood c l2.
Proof.
  intros Hp. destruct c as [|f c]; [done|]. intros (? & ? & (x & H1 & H2) & ?). split; [done|]. split; [done|]. split; [|done].
  exists x. split; [etransitivity; done|done].
Qed.

Lemma plug_app c1 c2 t : plug (c1 ++ c2) t = plug c2 (plug c1 t).
Proof. revert t. induction c1 as [|f c IH]; intros t; [done|]. cbn [app plug]. apply IH. Qed.

Lemma reach_plug t q : exists c, t = plug c (reach t q).
Proof.
  induction t as [l k v|l k a [ca Ha] b [cb Hb]]; cbn [reach]; [exists []; done|].
  destruct (decide _); [exists (ca ++ [Frame l k true b]); rewrite plug_app, <- Ha; done|].
  destruct (decide _); [exists (cb ++ [Frame l k false a]); rewrite plug_app, <- Hb; done|exists []; done].
Qed.

Lemma crepr_frame h h' c hole : (forall l, l ∈ clocs c -> h' !! l = h !! l) -> crepr h c hole -> crepr h' c hole.
Proof.
  revert hole. induction c as [|f c IH]; intros hole Hs; cbn [crepr clocs] in *; [done|]. intros (Hf & Hsib & Hc).
  split; [rewrite Hs; [done|left]|]. split; [apply (repr_frame h); [|done]; intros l Hl; apply Hs; right; apply elem_of_app; auto|].
  apply IH; [|done]. intros l Hl. apply Hs. right. apply elem_of_app. auto.
Qed.

(** ** Steps *)

Section Steps.
Context {B : Type} (r : option positive) (ls : list positive) (h : gmap positive (rtrie_node V)) (nx : positive) (al : allocs).
Context (p : positive) (n : rtrie_node V) (Hp : h !! p = Some n).

Lemma deref_bind (k : rtrie_node V -> M (rtrie V) B) : (deref p ≫= k) (Rtrie r ls h nx al) = k n (Rtrie r ls h nx al).
Proof. unfold deref, get, load, mbind, M_bind. cbn [rt_nodes]. rewrite Hp. done. Qed.

Lemma upd_bind f (k : unit -> M (rtrie V) B) : (upd p f ≫= k) (Rtrie r ls h nx al) = k tt (Rtrie r ls (<[p := f n]> h) nx al).
Proof. unfold upd, deref, get, load, modify, mbind, M_bind. cbn [rt_nodes]. rewrite Hp. done. Qed.

Lemma kfree_bind (k : unit -> M (rtrie V) B) : (kfree p ≫= k) (Rtrie r ls h nx al) = k tt (Rtrie r ls (delete p h) nx al).
Proof. unfold kfree, deref, get, load, modify, mbind, M_bind. cbn [rt_nodes]. rewrite Hp. done. Qed.

End Steps.

Lemma repr_reparent h h' par par' t :
  repr h par t -> NoDup (locs t) -> (forall n, h !! tloc t = Some n -> h' !! tloc t = Some (set_parent par' n)) ->
  (forall l, l ∈ locs t -> l <> tloc t -> h' !! l = h !! l) -> repr h' par' t.
Proof.
  intros Hr Hnd Ht Hs. destruct t as [l k v|l k a b]; cbn [repr tloc locs] in *.
  - apply Ht in Hr. exact Hr.
  - destruct Hr as (Hl & Ha & Hb). split; [apply Ht in Hl; exact Hl|]. apply NoDup_cons in Hnd as [Hni _].
    split; [apply (repr_frame h); [|exact Ha]|apply (repr_frame h); [|exact Hb]]; intros l' Hl'; apply Hs;
      try (intros ->; apply Hni; apply elem_of_app; auto); right; apply elem_of_app; auto.
Qed.

Ltac map_facts := repeat first [rewrite lookup_insert_eq | rewrite lookup_insert_ne by congruence | rewrite lookup_delete_ne by congruence].

(** The end of a collision, when there is memory: only the four nodes change
    and the new one appears. *)
Lemma attach_run r ls (h : gmap positive (rtrie_node V)) i al p sm h1 h2 key np nsm nh1 nh2 :
  h !! p = Some np -> h !! sm = Some nsm -> h !! h1 = Some nh1 -> h !! h2 = Some nh2 ->
  NoDup [p; sm; h1; h2] -> h !! i = None ->
  attach_inode p h1 sm h1 h2 key (Rtrie r ls h i al) =
    Some (if (kmalloc al).1 then
      let inode := RtrieNode (Some h1) (Some h2) (Some p) COLOR_BLACK (RtrieKey (take (Z.to_nat (bits_to_bytes (k_len key))) (k_bytes key)) (k_len key)) None in
      (Ok tt, Rtrie r (h1 :: i :: ls)
        (<[h2 := set_parent (Some i) nh2]> (<[h1 := set_parent (Some i) nh1]> (<[i := inode]> (<[sm := set_parent (Some p) nsm]>
          (<[p := RtrieNode (Some sm) (Some i) (t_parent np) (t_color np) (t_key np) (t_value np)]> h)))))
        (Pos.succ i) (kmalloc al).2)
    else (Err ENOMEM, Rtrie r ls h i (kmalloc al).2)).
Proof.
  intros Hp Hsm H1 H2 Hnd Hi.
  apply NoDup_cons in Hnd as [N1 Hnd]. apply NoDup_cons in Hnd as [N2 Hnd]. apply NoDup_cons in Hnd as [N3 _].
  repeat rewrite not_elem_of_cons in N1. repeat rewrite not_elem_of_cons in N2. rewrite not_elem_of_cons in N3. destruct N1 as (? & ? & ? & _), N2 as (? & ? & _), N3 as [? _].
  assert (p <> i /\ sm <> i /\ h1 <> i /\ h2 <> i) as (? & ? & ? & ?) by (split_and!; congruence).
  unfold attach_inode, create_inode, create_node. unfold mbind at 1, M_bind at 1. cbn [rt_root rt_list rt_nodes rt_next rt_allocs].
  destruct (kmalloc al) as [ok al']. cbn [fst snd]. destruct ok; [|done].
  erewrite upd_bind by (map_facts; exact Hp).
  do 3 (erewrite upd_bind by (map_facts; reflexivity)).
  erewrite upd_bind by (map_facts; exact Hsm).
  erewrite upd_bind by (map_facts; reflexivity).
  erewrite upd_bind by (map_facts; exact H1).
  erewrite upd_bind by (map_facts; exact H2).
  unfold list_add, modify, mbind, M_bind. cbn [rt_root rt_list rt_nodes rt_next rt_allocs].
  apply (f_equal (fun h => Some (Ok tt, Rtrie r (h1 :: i :: ls) h (Pos.succ i) al'))). apply map_eq. intros l. cbn [set_left set_right set_parent t_left t_right t_parent t_color t_key t_value].
  destruct (decide (l = h2)) as [->|]; [map_facts; done|]. destruct (decide (l = h1)) as [->|]; [map_facts; done|].
  destruct (decide (l = i)) as [->|]; [map_facts; done|]. destruct (decide (l = sm)) as [->|]; [map_facts; done|].
  destruct (decide (l = p)) as [->|]; map_facts; done.
Qed.

(** ** Additions *)

Lemma entries_nonempty t : good t -> exists e, e ∈ entries t /\ tbits t `prefix_of` e.1.
Proof.
  intros Hg. assert (He : exists e, e ∈ entries t).
  { clear Hg. induction t as [l k v|l k a [e He] b _]; [eexists; left|exists e; apply elem_of_app; auto]. }
  destruct He as [e He]. exists e. split; [done|apply entries_prefix; done].
Qed.

(** [q] and the keys of the entries do not contain one another. *)
Definition apart (q : list bool) (E : list (list bool * V)) : Prop := forall e, e ∈ E -> disjoint_keys q e.1.

Lemma apart_tree q t : good t -> apart q (entries t) -> ~ tbits t `prefix_of` q -> disjoint_keys q (tbits t).
Proof.
  intros Hg Ha Hn. split; [|exact Hn]. intros Hp. destruct (entries_nonempty t Hg) as (e & He & Hpe). destruct (Ha e He) as [Hd _]. apply Hd.
  transitivity (tbits t); done.
Qed.

(** The node [P] of the collision, after it. *)
Definition collided (P : tree) (n i : positive) (kn : rtrie_key) (v : V) (P' : tree) : Prop :=
  tloc P' = tloc P /\ tkey P' = tkey P /\ good P' /\ Permutation (locs P') (n :: i :: locs P) /\ Permutation (entries P') ((kbits kn, v) :: entries P).

(** [sm] stays where it is; [hi] goes with the new leaf under the new node. *)
Lemma collided_intro p k sm hi n i kn v x : let len := common (tbits hi) (kbits kn) in
  let ki := RtrieKey (take (Z.to_nat (bits_to_bytes (Z.of_nat len))) (k_bytes kn)) (Z.of_nat len) in
  wf_key k -> wf_key kn -> good sm -> good hi -> kbits k ++ [x] `prefix_of` kbits kn -> kbits k ++ [x] `prefix_of` tbits hi ->
  kbits k ++ [negb x] `prefix_of` tbits sm -> disjoint_keys (kbits kn) (tbits hi) ->
  good (Inode p k sm (Inode i ki (Leaf n kn v) hi)).
Proof.
  intros len ki Wk Wn Gs Gh Pn Ph Ps Hd. destruct (disjoint_split _ _ Hd) as (y & Py1 & Py2). rewrite common_sym in Py1, Py2. fold len in Py1, Py2.
  assert (Hlen : (len <= length (kbits kn))%nat).
  { apply prefix_length in Py1. rewrite length_app, length_take in Py1. cbn in Py1. lia. }
  destruct (inode_key_spec kn len Wn Hlen) as [Wi Ei]. fold ki in Wi, Ei. cbn [good]. split_and!; try done.
  - exists y. cbn [tkey]. rewrite Ei. done.
  - exists (negb x). rewrite negb_involutive. split; [exact Ps|]. cbn [tkey]. rewrite Ei.
    pose proof (common_same _ _ _ _ Ph Pn) as Hlt. fold len in Hlt. destruct Pn as [m Em].
    rewrite Em, take_app_ge by (rewrite length_app; cbn; lia). apply prefix_app_r. done.
Qed.

Lemma attach_repr r ls h i al p sm hi n kn v par k l0 r0 ki0 :
  let ki := RtrieKey (take (Z.to_nat (bits_to_bytes (k_len ki0))) (k_bytes ki0)) (k_len ki0) in
  let P' := Inode p k sm (Inode i ki (Leaf n kn v) hi) in
  h !! p = Some (RtrieNode l0 r0 par COLOR_BLACK k None) -> repr h (Some p) sm -> repr h (Some p) hi ->
  h !! n = Some (RtrieNode None None None COLOR_WHITE kn (Some v)) -> NoDup (n :: p :: locs sm ++ locs hi) -> h !! i = None ->
  exists h', attach_inode p n (tloc sm) n (tloc hi) ki0 (Rtrie r ls h i al) =
      Some (if (kmalloc al).1 then (Ok tt, Rtrie r (n :: i :: ls) h' (Pos.succ i) (kmalloc al).2) else (Err ENOMEM, Rtrie r ls h i (kmalloc al).2)) /\
    repr h' par P' /\ (forall l, l ∉ n :: i :: p :: locs sm ++ locs hi -> h' !! l = h !! l).
Proof.
  intros ki P' Hp Hsm Hhi Hn Hnd Hi. destruct (repr_node _ _ _ Hsm) as (nsm & Esm & _ & Psm & _). destruct (repr_node _ _ _ Hhi) as (nhi & Ehi & _).
  apply NoDup_cons in Hnd as [Nn Hnd]. apply NoDup_cons in Hnd as [Np Hnd]. apply NoDup_app in Hnd as (Nds & Hdis & Ndh).
  rewrite not_elem_of_cons, not_elem_of_app in Nn. rewrite not_elem_of_app in Np. destruct Nn as (Nnp & Nns & Nnh), Np as [Nps Nph].
  pose proof (tloc_locs sm) as Ls. pose proof (tloc_locs hi) as Lh.
  assert (Hne : forall l, is_Some (h !! l) -> l <> i) by (intros l [x Hx] ->; congruence).
  assert (Dsm : forall l, l ∈ locs sm -> l <> i /\ l <> p /\ l <> n /\ l <> tloc hi).
  { intros l Hl. split; [apply Hne, (repr_dom _ _ _ _ Hsm Hl)|]. split; [congruence|]. split; [congruence|]. intros ->. apply (Hdis _ Hl Lh). }
  assert (Dhi : forall l, l ∈ locs hi -> l <> i /\ l <> p /\ l <> n /\ l <> tloc sm).
  { intros l Hl. split; [apply Hne, (repr_dom _ _ _ _ Hhi Hl)|]. split; [congruence|]. split; [congruence|]. intros ->. apply (Hdis _ Ls Hl). }
  destruct (Dsm _ Ls) as (? & ? & ? & ?), (Dhi _ Lh) as (? & ? & ? & ?). assert (p <> i) by (apply Hne; eauto). assert (n <> i) by (apply Hne; eauto).
  eexists. split; [|split].
  - rewrite (attach_run _ _ h i al p (tloc sm) n (tloc hi) ki0 _ nsm _ nhi Hp Esm Hn Ehi).
    + destruct (kmalloc al).1; reflexivity.
    + repeat constructor; rewrite ?not_elem_of_cons; split_and?; try congruence; apply not_elem_of_nil.
    + exact Hi.
  - cbn [P' repr tloc t_parent t_color t_key t_value]. split_and!; [map_facts; done| |map_facts; done|map_facts; done|].
    + apply (repr_reparent h _ (Some p)); [exact Hsm|exact Nds| |].
      * intros n0 E0. assert (n0 = nsm) as -> by congruence. map_facts. done.
      * intros l Hl Hne2. destruct (Dsm l Hl) as (? & ? & ? & ?). map_facts. done.
    + apply (repr_reparent h _ (Some p)); [exact Hhi|exact Ndh| |].
      * intros n0 E0. assert (n0 = nhi) as -> by congruence. map_facts. done.
      * intros l Hl Hne2. destruct (Dhi l Hl) as (? & ? & ? & ?). map_facts. done.
  - intros l Hl. rewrite !not_elem_of_cons, not_elem_of_app in Hl. destruct Hl as (? & ? & ? & Hls & Hlh).
    assert (l <> tloc sm) by (intros ->; done). assert (l <> tloc hi) by (intros ->; done). map_facts. done.
Qed.

Lemma collide_run r ls h i al p k a b n kn v par :
  let P := Inode p k a b in
  repr h par P -> NoDup (n :: locs P) -> good P -> h !! n = Some (RtrieNode None None None COLOR_WHITE kn (Some v)) -> h !! i = None ->
  wf_key kn -> kbits k `prefix_of` kbits kn -> disjoint_keys (kbits kn) (tbits a) -> disjoint_keys (kbits kn) (tbits b) ->
  exists P' h', add_full_collision p (tloc a) (tloc b) n (Rtrie r ls h i al) =
      Some (if (kmalloc al).1 then (Ok tt, Rtrie r (n :: i :: ls) h' (Pos.succ i) (kmalloc al).2) else (Err ENOMEM, Rtrie r ls h i (kmalloc al).2)) /\
    collided P n i kn v P' /\ repr h' par P' /\ (forall l, l ∉ n :: i :: locs P -> h' !! l = h !! l).
Proof.
  intros P (Hp & Ha & Hb) Hnd (Wk & Ga & Gb & x & Pa & Pb) Hn Hi Wn Hpre Da Db.
  destruct (repr_node _ _ _ Ha) as (na & Ea & Ka & _). destruct (repr_node _ _ _ Hb) as (nb & Eb & Kb & _).
  destruct (extends_split (kbits k) (kbits kn) Hpre) as [y Py].
  { intros E. destruct Da as [Hd _]. apply Hd. rewrite E. transitivity (kbits k ++ [x]); [apply prefix_app_r; done|exact Pa]. }
  unfold add_full_collision. rewrite (deref_bind _ _ _ _ _ _ _ Ea), (deref_bind _ _ _ _ _ _ _ Eb), (deref_bind _ _ _ _ _ _ _ Hn). rewrite Ka, Kb. cbn [t_key].
  rewrite !key_match_eq by (done || apply good_wf; done). unfold load at 1 2 3. unfold mbind at 1 2 3, M_bind at 1 2 3.
  rewrite (common_diff _ _ _ _ Pa Pb). destruct (Bool.eqb_spec y x) as [->|Hyx].
  - pose proof (common_same _ _ _ _ Pa Py) as Hlt. pose proof (common_diff _ _ _ _ Py Pb) as Hbn. rewrite common_sym in Hbn. rewrite Hbn.
    destruct (Z.ltb_spec (Z.of_nat (common (tbits a) (kbits kn))) (Z.of_nat (length (kbits k)))); [lia|]. cbn [andb].
    destruct (Z.ltb_spec (Z.of_nat (length (kbits k))) (Z.of_nat (common (tbits a) (kbits kn)))); [|lia]. cbn [andb].
    destruct (attach_repr r ls h i al p b a n kn v par k _ _ (RtrieKey (k_bytes kn) (Z.of_nat (common (tbits a) (kbits kn)))) Hp Hb Ha Hn) as (h' & Hrun & Hr & Hs).
    { refine (proj1 (NoDup_Permutation_proper _ _ _) Hnd). cbn [P locs]. solve_Permutation. }
    { exact Hi. }
    exists (Inode p k b (Inode i (RtrieKey (take (Z.to_nat (bits_to_bytes (Z.of_nat (common (tbits a) (kbits kn))))) (k_bytes kn))
      (Z.of_nat (common (tbits a) (kbits kn)))) (Leaf n kn v) a)), h'. split; [exact Hrun|]. split; [|split; [exact Hr|]].
    + split_and!; try done; [apply (collided_intro p k b a n i kn v x); done|cbn [P locs]; solve_Permutation|cbn [P entries]; solve_Permutation].
    + intros l Hl. apply Hs. intros Hin. apply Hl. cbn [P locs]. rewrite !elem_of_cons, !elem_of_app in *. tauto.
  - assert (y = negb x) as -> by (destruct x, y; done). clear Hyx.
    pose proof (common_same _ _ _ _ Pb Py) as Hlt. pose proof (common_diff _ _ _ _ Pa Py) as Han. rewrite Han.
    destruct (Z.ltb_spec (Z.of_nat (length (kbits k))) (Z.of_nat (length (kbits k)))); [lia|]. cbn [andb].
    destruct (Z.ltb_spec (Z.of_nat (length (kbits k))) (Z.of_nat (common (tbits b) (kbits kn)))); [|lia]. cbn [andb].
    destruct (attach_repr r ls h i al p a b n kn v par k _ _ (RtrieKey (k_bytes kn) (Z.of_nat (common (tbits b) (kbits kn)))) Hp Ha Hb Hn) as (h' & Hrun & Hr & Hs).
    { exact Hnd. }
    { exact Hi. }
    exists (Inode p k a (Inode i (RtrieKey (take (Z.to_nat (bits_to_bytes (Z.of_nat (common (tbits b) (kbits kn))))) (k_bytes kn))
      (Z.of_nat (common (tbits b) (kbits kn)))) (Leaf n kn v) b)), h'. split; [exact Hrun|]. split; [|split; [exact Hr|]].
    + split_and!; try done; [apply (collided_intro p k a b n i kn v (negb x)); try done; rewrite negb_involutive; done|cbn [P locs]; solve_Permutation|cbn [P entries]; solve_Permutation].
    + intros l Hl. apply Hs. intros Hin. apply Hl. cbn [P locs]. rewrite !elem_of_cons, !elem_of_app in *. tauto.
Qed.

Lemma create_bind {B} r ls h i al node (k : option positive -> M (rtrie V) B) :
  (create_node node ≫= k) (Rtrie r ls h i al) =
    if (kmalloc al).1 then k (Some i) (Rtrie r ls (<[i := node]> h) (Pos.succ i) (kmalloc al).2) else k None (Rtrie r ls h i (kmalloc al).2).
Proof.
  unfold create_node, mbind, M_bind. cbn [rt_root rt_list rt_nodes rt_next rt_allocs]. destruct (kmalloc al) as [[] al']; done.
Qed.

Lemma root_run ls h i al t n kn v :
  repr h None t -> NoDup (n :: locs t) -> good t -> h !! n = Some (RtrieNode None None None COLOR_WHITE kn (Some v)) -> h !! i = None ->
  wf_key kn -> disjoint_keys (kbits kn) (tbits t) ->
  exists t' h', add_to_root n (Rtrie (Some (tloc t)) ls h i al) =
      Some (if (kmalloc al).1 then (Ok tt, Rtrie (Some i) (n :: i :: ls) h' (Pos.succ i) (kmalloc al).2) else (Err ENOMEM, Rtrie (Some (tloc t)) ls h i (kmalloc al).2)) /\
    tloc t' = i /\ repr h' None t' /\ good t' /\ Permutation (locs t') (n :: i :: locs t) /\ Permutation (entries t') ((kbits kn, v) :: entries t) /\
    (forall l, l ∉ n :: i :: locs t -> h' !! l = h !! l).
Proof.
  intros Hr Hnd Hg Hn Hi Wn Hd. destruct (repr_node _ _ _ Hr) as (nt & Et & Kt & _). pose proof (good_wf t Hg) as Wt.
  apply NoDup_cons in Hnd as [Nn Hnd]. pose proof (tloc_locs t) as Lt.
  assert (Hne : forall l, is_Some (h !! l) -> l <> i) by (intros l [z Hz] ->; congruence).
  assert (n <> i) by (apply Hne; eauto). assert (tloc t <> i) by (apply Hne; eauto). assert (tloc t <> n) by (intros E; rewrite E in Lt; done).
  destruct (disjoint_split _ _ Hd) as (y & Py1 & Py2). rewrite common_sym in Py1, Py2. set (len := common (tbits t) (kbits kn)) in *.
  assert (Hlen : (len <= length (kbits kn))%nat) by (apply prefix_length in Py1; rewrite length_app, length_take in Py1; cbn in Py1; lia).
  destruct (inode_key_spec kn len Wn Hlen) as [Wi Ei]. set (ki := RtrieKey _ _) in Wi, Ei.
  set (node := RtrieNode (Some (tloc t)) (Some n) None COLOR_BLACK ki None : rtrie_node V).
  exists (Inode i ki t (Leaf n kn v)), (<[n := set_parent (Some i) (RtrieNode None None None COLOR_WHITE kn (Some v))]> (<[tloc t := set_parent (Some i) nt]> (<[i := node]> h))).
  split; [|split; [done|split; [|split; [|split; [|split]]]]].
  - unfold add_to_root. unfold get, mbind at 1, M_bind at 1. cbn [rt_root]. rewrite (deref_bind _ _ _ _ _ _ _ Hn), (deref_bind _ _ _ _ _ _ _ Et). rewrite Kt. cbn [t_key].
    rewrite key_contains_eq by done. rewrite bool_decide_eq_false_2 by apply Hd. rewrite key_match_eq by done. fold len.
    rewrite !some_bind. change (create_inode (RtrieKey (k_bytes kn) (Z.of_nat len)) (Some (tloc t)) (Some n)) with (create_node node).
    rewrite create_bind. destruct (kmalloc al).1; [|done].
    erewrite upd_bind by (map_facts; exact Et). erewrite upd_bind by (map_facts; exact Hn). done.
  - cbn [repr tloc]. split_and!; [map_facts; done| |map_facts; done]. apply (repr_reparent h _ None); [exact Hr|exact Hnd| |].
    + intros n0 E0. assert (n0 = nt) as -> by congruence. map_facts. done.
    + intros l Hl Hlt. assert (l <> n) by congruence. assert (l <> i) by (apply Hne, (repr_dom _ _ _ _ Hr Hl)). map_facts. done.
  - cbn [good]. split_and!; try done. exists (negb y). rewrite negb_involutive. cbn [tkey]. rewrite Ei. done.
  - cbn [locs]. solve_Permutation.
  - cbn [entries]. solve_Permutation.
  - intros l Hl. rewrite !not_elem_of_cons in Hl. destruct Hl as (? & ? & Hl). assert (l <> tloc t) by (intros ->; done). map_facts. done.
Qed.

Lemma fresh_none (h : gmap positive (rtrie_node V)) nx l : (forall l, is_Some (h !! l) -> (l < nx)%positive) -> (nx <= l)%positive -> h !! l = None.
Proof. intros H Hl. destruct (h !! l) eqn:E; [|done]. exfalso. assert (l < nx)%positive by (apply H; rewrite E; eauto). lia. Qed.

(** A node that is in no tree does no harm. *)
Lemma trep_other r ls h h' nx nx' al al' t :
  trep (Rtrie r ls h nx al) t -> (forall l, is_Some (h !! l) -> h' !! l = h !! l) ->
  (forall l, is_Some (h' !! l) -> (l < nx')%positive) -> trep (Rtrie r ls h' nx' al') t.
Proof.
  intros (Hroot & Ht & _) Hs Hlt. split; [exact Hroot|]. split; [|exact Hlt]. destruct t as [t|]; [|exact Ht]. destruct Ht as (Hr & Hnd & Hg & Hp).
  split_and!; try done. apply (repr_frame h); [|exact Hr]. intros l Hl. apply Hs. apply (repr_dom _ _ _ _ Hr Hl).
Qed.

(** The tree with the subtree at the end of a context replaced. *)
Lemma trep_plug r ls h nx al c P h' P' ls' nx' al' new :
  trep (Rtrie r ls h nx al) (Some (plug c P)) -> tloc P' = tloc P -> tkey P' = tkey P -> good P' ->
  repr h' (cpar c) P' -> Permutation (locs P') (new ++ locs P) -> (forall l, l ∈ new -> l ∉ locs (plug c P)) -> NoDup new ->
  (forall l, l ∉ new ++ locs P -> h' !! l = h !! l) -> Permutation ls' (new ++ ls) -> (forall l, is_Some (h' !! l) -> (l < nx')%positive) ->
  trep (Rtrie r ls' h' nx' al') (Some (plug c P')).
Proof.
  intros (Hroot & (Hr & Hnd & Hg & Hp) & _) El Ek Gp Hr' Hlocs Hnew Hnn Hs Hls Hlt. cbn [rt_root rt_list rt_nodes rt_next option_map] in *.
  apply plug_repr in Hr as [Hc Hr]. apply plug_good in Hg as [Gc Gold]. rewrite (plug_locs c P) in Hnd, Hp.
  assert (Hcn : forall l, l ∈ clocs c -> l ∉ new ++ locs P).
  { intros l Hl. apply NoDup_app in Hnd as (_ & Hd & _). rewrite elem_of_app. intros [Hn|Hn]; [|exact (Hd l Hl Hn)].
    apply (Hnew l Hn). rewrite (plug_locs c P). apply elem_of_app. auto. }
  split; [|split; [split_and!|exact Hlt]].
  - cbn [rt_root option_map]. rewrite Hroot. f_equal. destruct c as [|f c]; [symmetry; exact El|]. clear. revert f P P'. induction c as [|g c IH]; intros f P P'; [cbn [plug]; rewrite !plug1_loc; done|].
    exact (IH g (plug1 f P) (plug1 f P')).
  - apply plug_repr. split; [|exact Hr']. rewrite El. apply (crepr_frame h); [|exact Hc]. intros l Hl. apply Hs, Hcn, Hl.
  - rewrite (plug_locs c P'), Hlocs. rewrite (Permutation_app_comm new), app_assoc. apply NoDup_app. split; [exact Hnd|]. split; [|exact Hnn].
    intros l Hl Hn. apply (Hnew l Hn). rewrite (plug_locs c P). exact Hl.
  - apply plug_good. rewrite Ek. done.
  - cbn [rt_list]. rewrite Hls, Hp, (plug_locs c P'), Hlocs. solve_Permutation.
Qed.

Definition malloc_fails (s : rtrie V) : Prop := false ∈ rt_allocs s.

Lemma reach_stuck t q l k a b : reach t q = Inode l k a b -> ~ tbits a `prefix_of` q /\ ~ tbits b `prefix_of` q.
Proof.
  induction t as [l' k' v'|l' k' a' IHa b' IHb]; cbn [reach]; [done|]. destruct (decide _) as [|Ha]; [done|]. destruct (decide _) as [|Hb]; [done|]. intros [= <- <- <- <-]. done.
Qed.

Definition added (al : allocs) (e : list bool * V) (t : option tree) (res : result unit) (t' : option tree) : Prop :=
  res = Ok tt /\ Permutation (tentries t') (e :: tentries t) \/ res = Err ENOMEM /\ t' = t /\ false ∈ al.

Section Link.
Context (r : option positive) (ls : list positive) (h : gmap positive (rtrie_node V)) (n : positive) (al : allocs) (t : option tree).
Context (key : rtrie_key) (v : V) (Wk : wf_key key) (Hap : apart (kbits key) (tentries t)).
(** The leaf is in the heap. *)
Context (Ht : trep (Rtrie r ls h (Pos.succ n) al) t) (Hn : h !! n = Some (RtrieNode None None None COLOR_WHITE key (Some v))).
Context (Hnot : forall t', t = Some t' -> n ∉ locs t').
Abbreviation s := (Rtrie r ls h (Pos.succ n) al).

Lemma link_fresh : h !! Pos.succ n = None.
Proof. destruct Ht as (_ & _ & Hlt). apply (fresh_none h (Pos.succ n)); [exact Hlt|lia]. Qed.

Lemma link_next (h' : gmap positive (rtrie_node V)) (ls' : list positive) : (forall l, l ∉ ls' -> h' !! l = h !! l) -> (forall l, l ∈ ls' -> (l <= Pos.succ n)%positive) ->
  forall l, is_Some (h' !! l) -> (l < Pos.succ (Pos.succ n))%positive.
Proof.
  intros Hs Hle l Hl. destruct (decide (l ∈ ls')) as [Hin|Hin]; [apply Hle in Hin; lia|]. rewrite Hs in Hl by done. destruct Ht as (_ & _ & Hlt). apply Hlt in Hl. cbn in Hl. lia.
Qed.

Lemma link_collides t0 p k a b : t = Some t0 -> tbits t0 `prefix_of` kbits key -> reach t0 (kbits key) = Inode p k a b ->
  exists res s' t', add_full_collision p (tloc a) (tloc b) n s = Some (res, s') /\ trep s' t' /\ added al (kbits key, v) t res t'.
Proof.
  pose proof link_fresh as Hfr. pose proof link_next as Hnx. intros Et Hpre Er. destruct (reach_plug t0 (kbits key)) as [c Ec]. pose proof (reach_prefix t0 _ Hpre) as Hpk. rewrite Er in Ec, Hpk. cbn [tkey] in Hpk.
  pose proof (reach_stuck _ _ _ _ _ _ Er) as [Na Nb]. specialize (Hnot t0 Et). subst t t0. pose proof Ht as (_ & (Hr & Hnd & Hg & _) & Hlt). cbn [rt_nodes rt_next] in Hlt.
  pose proof Hr as Hr'. apply plug_repr in Hr' as [_ HrP]. pose proof Hg as Hg'. apply plug_good in Hg' as [_ GP]. pose proof GP as (_ & Ga & Gb & _).
  assert (HlP : forall l, l ∈ locs (Inode p k a b) -> l ∈ locs (plug c (Inode p k a b))) by (intros l Hl; rewrite plug_locs; apply elem_of_app; auto).
  assert (HndP : NoDup (locs (Inode p k a b))) by (rewrite plug_locs in Hnd; apply NoDup_app in Hnd; apply Hnd).
  assert (HaP : forall e, e ∈ entries a \/ e ∈ entries b -> disjoint_keys (kbits key) e.1).
  { intros e He. apply Hap. cbn [tentries]. rewrite plug_entries. apply elem_of_app. right. apply elem_of_app. exact He. }
  destruct (collide_run r ls h (Pos.succ n) al p k a b n key v (cpar c) HrP) as (P' & h' & Hrun & (El & Ek & GP' & Hlocs & Hent) & Hr2 & Hs); try done.
  - apply NoDup_cons. split; [intros Hin; apply Hnot, HlP, Hin|exact HndP].
  - apply apart_tree; [exact Ga|intros e He; apply HaP; auto|exact Na].
  - apply apart_tree; [exact Gb|intros e He; apply HaP; auto|exact Nb].
  - destruct (kmalloc al).1 eqn:Em.
    + exists (Ok tt), (Rtrie r (n :: Pos.succ n :: ls) h' (Pos.succ (Pos.succ n)) (kmalloc al).2), (Some (plug c P')). split; [exact Hrun|]. split.
      * apply (trep_plug r ls h (Pos.succ n) al c (Inode p k a b) h' P' _ _ _ [n; Pos.succ n]); try done.
        -- intros l Hl Hin. apply elem_of_cons in Hl as [->|Hl]; [|apply list_elem_of_singleton in Hl as ->]; [exact (Hnot Hin)|].
           destruct (repr_dom _ _ _ _ Hr Hin) as [x Hx]. cbn [rt_nodes] in Hx. rewrite Hfr in Hx. done.
        -- repeat constructor; rewrite ?list_elem_of_singleton; [lia|apply not_elem_of_nil].
        -- apply (Hnx h' ([n; Pos.succ n] ++ locs (Inode p k a b))); [exact Hs|]. intros l Hl. apply elem_of_app in Hl as [Hl|Hl].
           ++ apply elem_of_cons in Hl as [->|Hl]; [|apply list_elem_of_singleton in Hl as ->]; lia.
           ++ assert (l < Pos.succ n)%positive by (apply Hlt, (repr_dom _ _ _ _ Hr), HlP, Hl). lia.
      * left. split; [done|]. cbn [tentries]. rewrite !plug_entries, Hent. solve_Permutation.
    + exists (Err ENOMEM), (Rtrie r ls h (Pos.succ n) (kmalloc al).2), (Some (plug c (Inode p k a b))). split; [exact Hrun|]. split; [exact Ht|].
      right. split; [done|]. split; [done|]. apply kmalloc_fails. exact Em.
Qed.

Lemma link_root t0 : t = Some t0 -> ~ tbits t0 `prefix_of` kbits key ->
  exists res s' t', add_to_root n s = Some (res, s') /\ trep s' t' /\ added al (kbits key, v) t res t'.
Proof.
  pose proof link_fresh as Hfr. pose proof link_next as Hnx. intros Et Hpre. specialize (Hnot t0 Et). subst t. pose proof Ht as (Hroot & (Hr & Hnd & Hg & Hls) & Hlt). cbn [rt_root rt_list rt_nodes rt_next option_map] in *.
  destruct (root_run ls h (Pos.succ n) al t0 n key v Hr) as (t' & h' & Hrun & El & Hr' & Hg' & Hlocs & Hent & Hs); try done.
  - apply NoDup_cons. done.
  - apply apart_tree; done.
  - rewrite <- Hroot in Hrun. destruct (kmalloc al).1 eqn:Em.
    + eexists _, _, (Some t'). split; [exact Hrun|]. split; [|left; split; [done|exact Hent]]. split; [cbn; rewrite El; done|]. split.
      * split_and!; try done; cbn [rt_list]; [|rewrite Hlocs, Hls; done]. rewrite Hlocs. apply NoDup_cons. rewrite not_elem_of_cons. split; [split; [lia|done]|].
        apply NoDup_cons. split; [|done]. intros Hin. destruct (repr_dom _ _ _ _ Hr Hin) as [x Hx]. rewrite Hfr in Hx. done.
      * cbn [rt_nodes rt_next]. apply (Hnx h' (n :: Pos.succ n :: locs t0)); [exact Hs|]. intros l Hl. rewrite !elem_of_cons in Hl. destruct Hl as [->|[->|Hl]]; [lia..|].
        assert (l < Pos.succ n)%positive by (apply Hlt, (repr_dom _ _ _ _ Hr Hl)). lia.
    + eexists _, _, (Some t0). split; [exact Hrun|]. split; [exact Ht|]. right. split; [done|]. split; [done|]. apply kmalloc_fails. exact Em.
Qed.

Lemma link_run : exists res s' t', rtrie_link n key s = Some (res, s') /\ trep s' t' /\ added al (kbits key, v) t res t'.
Proof.
  pose proof link_collides as Hcoll. pose proof link_root as Hlr. unfold rtrie_link. rewrite (bind_run _ _ _ _ _ (find_run _ _ _ false Ht Wk)). pose proof (found_spec _ _ (kbits key) Ht) as Hf.
  destruct (found t (kbits key)) as [[l k v0|p k a b]|] eqn:Ef.
  - exfalso. destruct Hf as (Hp & He & _). destruct (Hap _ He) as [_ Hd]. apply Hd. exact Hp.
  - destruct t as [t0|] eqn:Et; [|done]. cbn [found] in Ef. destruct (decide (tbits t0 `prefix_of` kbits key)) as [Hpre|]; [|done]. injection Ef as Er.
    destruct (reach_plug t0 (kbits key)) as [c Ec]. rewrite Er in Ec. pose proof Ht as (_ & (Hr & _ & Hg & _) & _). rewrite Ec in Hr, Hg.
    apply plug_repr in Hr as [_ (Hp & Ha & Hb)]. apply plug_good in Hg as [_ (Wp & Ga & Gb & x & Pa & Pb)]. cbn [rt_nodes] in *.
    destruct (repr_node _ _ _ Ha) as (na & Ea & Ka & _). destruct (repr_node _ _ _ Hb) as (nb & Eb & Kb & _).
    assert (Hent : forall e, e ∈ entries a \/ e ∈ entries b -> disjoint_keys (kbits key) e.1).
    { intros e He. apply Hap. cbn [tentries]. rewrite Ec, plug_entries. apply elem_of_app. right. apply elem_of_app. exact He. }
    pose proof (reach_stuck _ _ _ _ _ _ Er) as [Na Nb].
    assert (Da : disjoint_keys (kbits key) (tbits a)) by (apply apart_tree; [done|intros e He; apply Hent; auto|exact Na]).
    assert (Db : disjoint_keys (kbits key) (tbits b)) by (apply apart_tree; [done|intros e He; apply Hent; auto|exact Nb]).
    rewrite (deref_bind _ _ _ _ _ _ _ Hp). cbn [t_key t_left t_right t_color]. rewrite key_equals_eq, some_bind by done.
    rewrite bool_decide_eq_false_2; [|intros E; apply (proj1 Da); rewrite <- E; transitivity (kbits k ++ [x]); [apply prefix_app_r; done|exact Pa]].
    rewrite (deref_bind _ _ _ _ _ _ _ Ea), (deref_bind _ _ _ _ _ _ _ Eb), Ka, Kb. rewrite !key_contains_eq, !some_bind by (done || apply good_wf; done).
    rewrite !bool_decide_eq_false_2 by (apply Da || apply Db). cbn [andb]. apply (Hcoll t0 p k a b); done.
  - destruct t as [t0|] eqn:Et.
    + cbn [found] in Ef. destruct (decide (tbits t0 `prefix_of` kbits key)) as [|Hpre]; [done|]. apply (Hlr t0); done.
    + pose proof Ht as (Hroot & Hls & Hlt). cbn in Hroot, Hls. subst r ls. eexists _, _, (Some (Leaf n key v)). split; [reflexivity|]. split.
      * split; [done|]. split; [|exact Hlt]. cbn [rt_nodes rt_list repr locs good]. split_and!; try done. apply NoDup_singleton.
      * left. split; [done|]. done.
Qed.

End Link.

(** ** Removals *)

Lemma list_del_perm (ls : list positive) x rest : Permutation ls (x :: rest) -> x ∉ rest -> Permutation (base.filter (fun q => q <> x) ls) rest.
Proof.
  intros Hp Hx. rewrite Hp, filter_cons_False by tauto. rewrite list_filter_all; [done|]. intros y Hy ->. done.
Qed.

Lemma get_parent_run r ls h nx al c l n : crepr h c l -> h !! l = Some n -> t_parent n = cpar c ->
  (forall f c', c = f :: c' -> tloc (f_sib f) <> l) ->
  get_parent_ptr l (Rtrie r ls h nx al) =
    Some (match c with [] => RootSlot | f :: _ => if f_left f then LeftSlot (f_loc f) else RightSlot (f_loc f) end, Rtrie r ls h nx al).
Proof.
  intros Hc Hl Hp Hne. unfold get_parent_ptr. rewrite (deref_bind _ _ _ _ _ _ _ Hl), Hp. destruct c as [|f c]; [done|]. cbn [cpar].
  destruct Hc as (Hf & _). rewrite (deref_bind _ _ _ _ _ _ _ Hf). unfold frame_node. destruct (f_left f); cbn [t_left].
  - rewrite bool_decide_eq_true_2 by done. done.
  - rewrite bool_decide_eq_false_2; [done|]. intros [= E]. exact (Hne f c eq_refl E).
Qed.

(** The slot of a subtree takes another one. *)
Definition reslot (h : gmap positive (rtrie_node V)) (c : list frame) (hole : positive) : gmap positive (rtrie_node V) :=
  match c with [] => h | f :: c => <[f_loc f := frame_node f hole (cpar c)]> h end.

Lemma assign_bind {B} r ls h nx al c l hole (k : unit -> M (rtrie V) B) : crepr h c l ->
  (assign (match c with [] => RootSlot | f :: _ => if f_left f then LeftSlot (f_loc f) else RightSlot (f_loc f) end) (Some hole) ≫= k) (Rtrie r ls h nx al) =
    k tt (Rtrie (match c with [] => Some hole | _ => r end) ls (reslot h c hole) nx al).
Proof.
  intros Hc. destruct c as [|f c]; [done|]. destruct Hc as (Hf & _). cbn [reslot]. unfold frame_node in *. destruct (f_left f); cbn [assign];
    rewrite (upd_bind _ _ _ _ _ _ _ Hf); done.
Qed.

Lemma crepr_reslot h c l hole : NoDup (clocs c) -> crepr h c l -> crepr (reslot h c hole) c hole.
Proof.
  intros Hnd Hc. destruct c as [|f c]; [done|]. destruct Hc as (Hf & Hs & Hc). cbn [reslot crepr clocs] in *. apply NoDup_cons in Hnd as [Hn Hnd].
  rewrite not_elem_of_app in Hn. destruct Hn as [Hn1 Hn2]. split; [rewrite lookup_insert_eq; done|]. split.
  - apply (repr_frame h); [|exact Hs]. intros l' Hl'. rewrite lookup_insert_ne; [done|congruence].
  - apply (crepr_frame h); [|exact Hc]. intros l' Hl'. rewrite lookup_insert_ne; [done|congruence].
Qed.

Lemma plug_root c t : tloc (plug c t) = match c with [] => tloc t | f :: c => tloc (plug c (plug1 f t)) end.
Proof. destruct c; done. Qed.

Lemma reslot_lookup h c hole l : l ∉ clocs c -> reslot h c hole !! l = h !! l.
Proof. destruct c as [|f c]; [done|]. cbn [clocs reslot]. rewrite not_elem_of_cons. intros [H _]. rewrite lookup_insert_ne; done. Qed.

Lemma plug_loc_any c t1 t2 : c <> [] -> tloc (plug c t1) = tloc (plug c t2).
Proof.
  destruct c as [|f c]; [done|]. intros _. revert f t1 t2. induction c as [|g c IH]; intros f t1 t2; [cbn [plug]; rewrite !plug1_loc; done|].
  exact (IH g (plug1 f t1) (plug1 f t2)).
Qed.

(** The black parent [f] of a leaf that is gone is replaced by its other
    child. *)
Lemma prune_parent r ls h nx al f c np fuel :
  let sib := f_sib f in
  h !! f_loc f = Some np -> t_parent np = cpar c ->
  (t_left np = None /\ t_right np = Some (tloc sib) \/ t_left np = Some (tloc sib) /\ t_right np = None) ->
  repr h (Some (f_loc f)) sib -> crepr h c (f_loc f) -> NoDup (f_loc f :: locs sib ++ clocs c) ->
  r = Some (tloc (plug c (plug1 f sib))) ->
  exists h', prune (S fuel) (f_loc f) (Rtrie r ls h nx al) =
      Some (Ok tt, Rtrie (Some (tloc (plug c sib))) (base.filter (fun q => q <> f_loc f) ls) h' nx al) /\
    repr h' (cpar c) sib /\ crepr h' c (tloc sib) /\ (forall l, is_Some (h' !! l) -> is_Some (h !! l)).
Proof.
  intros sib Hf Hpar Hch Hsib Hc Hnd ->. apply NoDup_cons in Hnd as [Hn Hnd]. rewrite not_elem_of_app in Hn. destruct Hn as [Hn1 Hn2].
  apply NoDup_app in Hnd as (Nds & Hdis & Ndc). pose proof (tloc_locs sib) as Ls. destruct (repr_node _ _ _ Hsib) as (ns & Es & _).
  assert (tloc sib <> f_loc f) by congruence.
  assert (Hsl : tloc sib ∉ clocs c) by (intros Hin; exact (Hdis _ Ls Hin)).
  assert (Hne : forall g c', c = g :: c' -> tloc (f_sib g) <> f_loc f).
  { intros g c' -> E. cbn [clocs] in Hn2. apply Hn2. right. apply elem_of_app. left. rewrite <- E. apply tloc_locs. }
  exists (delete (f_loc f) (<[tloc sib := set_parent (cpar c) ns]> (reslot h c (tloc sib)))). split; [|split; [|split]].
  - cbn [prune]. rewrite (deref_bind _ _ _ _ _ _ _ Hf). rewrite (bind_run _ _ _ _ _ (get_parent_run _ _ _ _ _ c _ np Hc Hf Hpar Hne)).
    assert (Hfin : forall k, (assign (match c with [] => RootSlot | f :: _ => if f_left f then LeftSlot (f_loc f) else RightSlot (f_loc f) end) (Some (tloc sib));;
      upd (tloc sib) (set_parent (t_parent np));; list_del (f_loc f);; kfree (f_loc f);; k) (Rtrie (Some (tloc (plug c (plug1 f sib)))) ls h nx al) =
      k (Rtrie (Some (tloc (plug c sib))) (base.filter (fun q => q <> f_loc f) ls)
        (delete (f_loc f) (<[tloc sib := set_parent (cpar c) ns]> (reslot h c (tloc sib)))) nx al) :> option (result unit * rtrie V)).
    { intros k. rewrite (assign_bind _ _ _ _ _ c (f_loc f)) by exact Hc. erewrite upd_bind by (rewrite reslot_lookup by exact Hsl; exact Es). rewrite Hpar.
      change ((list_del ?a ≫= ?m) (Rtrie ?r0 ?l0 ?h0 ?n0 ?a0)) with (m tt (Rtrie r0 (base.filter (fun q => q <> a) l0) h0 n0 a0)). cbv beta.
      erewrite kfree_bind by (rewrite lookup_insert_ne, reslot_lookup by congruence; exact Hf). f_equal. f_equal.
      destruct c as [|g c]; [done|]. f_equal. apply plug_loc_any. done. }
    destruct Hch as [[E1 E2]|[E1 E2]]; rewrite E1, ?E2; rewrite Hfin; done.
  - apply (repr_reparent h _ (Some (f_loc f))); [exact Hsib|exact Nds| |].
    + intros n0 E0. assert (n0 = ns) as -> by congruence. rewrite lookup_delete_ne, lookup_insert_eq by congruence. done.
    + intros l Hl Hlne. rewrite lookup_delete_ne, lookup_insert_ne, reslot_lookup; [done| |congruence..]. intros Hin. exact (Hdis _ Hl Hin).
  - apply (crepr_frame (reslot h c (tloc sib))); [|apply (crepr_reslot h c (f_loc f)); done]. intros l Hl.
    rewrite lookup_delete_ne, lookup_insert_ne; [done|congruence..].
  - intros l Hl. apply lookup_delete_is_Some in Hl as [_ Hl]. destruct (decide (l = tloc sib)) as [->|]; [eauto|]. rewrite lookup_insert_ne in Hl by done.
    destruct c as [|g c]; [exact Hl|]. cbn [reslot] in Hl. destruct (decide (l = f_loc g)) as [->|]; [destruct Hc as (-> & _); eauto|]. rewrite lookup_insert_ne in Hl; done.
Qed.

End Trees.
