(* ===== verification/RtrieOps.v ===== *)
(** * The operations of the tries

    What each operation of [mod/common/rtrie.c] does to the entries of a trie
    whose keys do not contain one another, and what some of them do when
    keys do. *)
From S2P Require Import Prelude Types Skb SessionSpec Rtrie RtrieSpec.

Section Ops.
Context {V : Type}.
Abbreviation tbits t := (kbits (tkey t)).

(** ** Removals *)

Lemma prune_leaf r ls h nx al c l k (v : V) fuel :
  trep (Rtrie r ls h nx al) (Some (plug c (Leaf l k v))) ->
  exists s' t', prune (S (S fuel)) l (Rtrie r ls h nx al) = Some (Ok tt, s') /\ trep s' t' /\ Permutation (tentries t') (centries c).
Proof.
  intros (Hroot & (Hr & Hnd & Hg & Hls) & Hlt). cbn [rt_root rt_list rt_nodes rt_next option_map] in *.
  apply plug_repr in Hr as [Hc Hl]. apply plug_good in Hg as [Gc _]. rewrite plug_locs in Hnd, Hls. cbn [repr tloc locs] in *.
  rewrite (Permutation_app_comm (clocs c)) in Hnd, Hls. cbn [app] in Hnd, Hls. apply NoDup_cons in Hnd as [Nl Hnd].
  assert (Hne : forall f c', c = f :: c' -> tloc (f_sib f) <> l).
  { intros f c' -> E. apply Nl. cbn [clocs]. right. apply elem_of_app. left. rewrite <- E. apply tloc_locs. }
  cbn [prune]. fold (@prune V). rewrite (deref_bind _ _ _ _ _ _ _ Hl), (bind_run _ _ _ _ _ (get_parent_run _ _ _ _ _ c l _ Hc Hl eq_refl Hne)). cbn [t_left t_right t_parent].
  destruct c as [|f c].
  - eexists _, None. split; [|split; [|done]].
    + change ((assign RootSlot None ≫= ?m) (Rtrie ?r0 ?l0 ?h0 ?n0 ?a0)) with (m tt (Rtrie None l0 h0 n0 a0)). cbv beta.
      change ((list_del ?a ≫= ?m) (Rtrie ?r0 ?l0 ?h0 ?n0 ?a0)) with (m tt (Rtrie r0 (base.filter (fun q => q <> a) l0) h0 n0 a0)). cbv beta.
      rewrite (kfree_bind _ _ _ _ _ _ _ Hl). reflexivity.
    + split; [done|]. cbn [rt_list rt_nodes rt_next clocs] in *. split.
      * apply Permutation_nil. symmetry. apply list_del_perm; [exact Hls|exact Nl].
      * intros l' Hl'. apply lookup_delete_is_Some in Hl' as [_ Hl']. apply Hlt, Hl'.
  - destruct Hc as (Hf & Hsib & Hc). cbn [clocs cgood centries cpar] in *. destruct Gc as (Wf & Gs & (x & Px & Ps) & Gc).
    set (np := if f_left f then set_left None (frame_node f l (cpar c)) else set_right None (frame_node f l (cpar c))).
    assert (Hlf : l <> f_loc f) by (intros E; apply Nl; rewrite E; left).
    assert (Hasg : forall B (m : unit -> M (rtrie V) B), (assign (if f_left f then LeftSlot (f_loc f) else RightSlot (f_loc f)) None ≫= m) (Rtrie r ls h nx al) =
      m tt (Rtrie r ls (<[f_loc f := np]> h) nx al)).
    { intros B m. unfold np. destruct (f_left f); cbn [assign]; rewrite (upd_bind _ _ _ _ _ _ _ Hf); done. }
    rewrite Hasg.
    change ((list_del ?a ≫= ?m) (Rtrie ?r0 ?l0 ?h0 ?n0 ?a0)) with (m tt (Rtrie r0 (base.filter (fun q => q <> a) l0) h0 n0 a0)). cbv beta.
    erewrite kfree_bind by (rewrite lookup_insert_ne by congruence; exact Hl).
    set (h1 := delete l (<[f_loc f := np]> h)). assert (Hf1 : h1 !! f_loc f = Some np) by (unfold h1; rewrite lookup_delete_ne, lookup_insert_eq by congruence; done).
    rewrite (deref_bind _ _ _ _ _ _ _ Hf1). rewrite bool_decide_eq_true_2 by (unfold np, frame_node; destruct (f_left f); done).
    assert (Hfr : forall l', l' ∈ locs (f_sib f) ++ clocs c -> h1 !! l' = h !! l').
    { intros l' Hl'. unfold h1. rewrite lookup_delete_ne, lookup_insert_ne; [done| |].
      - intros E. subst l'. apply NoDup_cons in Hnd as [Hn _]. done.
      - intros E. subst l'. apply Nl. right. done. }
    destruct (prune_parent r (base.filter (fun q => q <> l) ls) h1 nx al f c np fuel Hf1) as (h' & Hrun & Hr' & Hc' & Hdom).
    + unfold np, frame_node. destruct (f_left f); done.
    + unfold np, frame_node. destruct (f_left f); cbn; auto.
    + apply (repr_frame h); [|exact Hsib]. intros l' Hl'. apply Hfr, elem_of_app. auto.
    + apply (crepr_frame h); [|exact Hc]. intros l' Hl'. apply Hfr, elem_of_app. auto.
    + exact Hnd.
    + rewrite Hroot. f_equal. cbn [plug]. destruct c as [|g c]; [cbn [plug]; rewrite !plug1_loc; done|apply plug_loc_any; done].
    + eexists _, (Some (plug c (f_sib f))). split; [exact Hrun|]. split.
      * split; [done|]. split.
        -- cbn [rt_nodes rt_list]. split_and!.
           ++ apply plug_repr. split; [exact Hc'|exact Hr'].
           ++ rewrite plug_locs, Permutation_app_comm. apply NoDup_cons in Hnd as [_ Hnd]. exact Hnd.
           ++ apply plug_good. split; [|exact Gs]. apply (cgood_mono _ (kbits (f_key f))); [|exact Gc].
              transitivity (kbits (f_key f) ++ [negb x]); [apply prefix_app_r; done|exact Ps].
           ++ rewrite plug_locs, Permutation_app_comm. apply NoDup_cons in Hnd as [Hn _]. apply list_del_perm; [|exact Hn]. apply list_del_perm; [exact Hls|exact Nl].
        -- cbn [rt_nodes rt_next]. intros l' Hl'. apply Hdom in Hl'. apply lookup_delete_is_Some in Hl' as [_ Hl'].
           destruct (decide (l' = f_loc f)) as [->|]; [apply Hlt; eauto|]. rewrite lookup_insert_ne in Hl' by done. apply Hlt, Hl'.
      * cbn [tentries]. rewrite plug_entries. apply Permutation_app_comm.
Qed.

(** ** Operations *)

(** The trie has exactly the entries [E]. *)
Definition has_entries (s : rtrie V) (E : list (list bool * V)) : Prop := exists t, trep s t /\ Permutation (tentries t) E.

Lemma has_entries_init al : has_entries (rtrie_init al) [].
Proof. exists None. split; [|done]. split; [done|]. split; [done|]. intros l Hl. cbn in Hl. rewrite lookup_empty in Hl. destruct Hl. done. Qed.

Lemma has_entries_perm s E E' : Permutation E E' -> has_entries s E -> has_entries s E'.
Proof. intros Hp (t & Ht & HE). exists t. split; [done|]. rewrite HE. done. Qed.

(** The keys of a trie's entries never contain one another. *)
Lemma has_entries_apart s E e1 e2 : has_entries s E -> e1 ∈ E -> e2 ∈ E -> e1.1 `prefix_of` e2.1 -> e1 = e2.
Proof.
  intros (t & Ht & HE) H1 H2 Hp. rewrite <- HE in H1, H2. pose proof (found_spec s t e2.1 Ht) as Hf.
  destruct (found t e2.1) as [[l k v|l k a b]|]; [|destruct (Hf e1 H1 Hp)..]. destruct Hf as (_ & _ & Hu). rewrite (Hu e1 H1 Hp). symmetry. apply Hu; done.
Qed.

Lemma get_run s E key : has_entries s E -> wf_key key ->
  exists r, rtrie_get key s = Some (r, s) /\
    match r with
    | Ok v => exists b, (b, v) ∈ E /\ b `prefix_of` kbits key
    | Err e => e = ESRCH /\ forall e, e ∈ E -> ~ e.1 `prefix_of` kbits key
    end.
Proof.
  intros (t & Ht & HE) Wk. unfold rtrie_get. rewrite (bind_run _ _ _ _ _ (find_run s t key true Ht Wk)). pose proof (found_spec s t (kbits key) Ht) as Hf.
  destruct (found t (kbits key)) as [[l k v|l k a b]|] eqn:Ef.
  - destruct Hf as (Hp & Hin & _). exists (Ok v). split; [|exists (kbits k); rewrite <- HE; done].
    destruct t as [t|]; [|done]. cbn [found] in Ef. destruct (decide _); [|done]. injection Ef as Er. destruct (reach_plug t (kbits key)) as [c Ec]. rewrite Er in Ec.
    destruct Ht as (_ & (Hr & _) & _). rewrite Ec in Hr. apply plug_repr in Hr as [_ Hl]. destruct s as [r ls h nx al]. cbn [rt_nodes] in Hl. rewrite (deref_bind _ _ _ _ _ _ _ Hl). done.
  - exists (Err ESRCH). split; [done|]. split; [done|]. intros e He. rewrite <- HE in He. exact (Hf e He).
  - exists (Err ESRCH). split; [done|]. split; [done|]. intros e He. rewrite <- HE in He. exact (Hf e He).
Qed.

Lemma contains_run s E key : has_entries s E -> wf_key key ->
  exists b, rtrie_contains key s = Some (b, s) /\ (b = true <-> exists e, e ∈ E /\ e.1 `prefix_of` kbits key).
Proof.
  intros (t & Ht & HE) Wk. unfold rtrie_contains. rewrite (bind_run _ _ _ _ _ (find_run s t key true Ht Wk)). pose proof (found_spec s t (kbits key) Ht) as Hf.
  destruct (found t (kbits key)) as [[l k v|l k a b]|].
  - exists true. split; [done|]. split; [|done]. intros _. destruct Hf as (Hp & Hin & _). exists (kbits k, v). rewrite <- HE. done.
  - exists false. split; [done|]. split; [done|]. intros (e & He & Hp). rewrite <- HE in He. destruct (Hf e He Hp).
  - exists false. split; [done|]. split; [done|]. intros (e & He & Hp). rewrite <- HE in He. destruct (Hf e He Hp).
Qed.

(** Adding a key that no entry contains and that contains no entry. *)
Lemma add_run s E key v : has_entries s E -> wf_key key -> apart (kbits key) E ->
  exists r s', rtrie_add v key s = Some (r, s') /\
    (r = Ok tt /\ has_entries s' ((kbits key, v) :: E) \/ r = Err ENOMEM /\ has_entries s' E /\ false ∈ rt_allocs s).
Proof.
  intros (t & Ht & HE) Wk Hap. destruct s as [r ls h n al]. unfold rtrie_add, create_leaf. rewrite create_bind. destruct (kmalloc al).1 eqn:Em.
  - pose proof Ht as (_ & Htree & Hlt). cbn [rt_nodes rt_next rt_allocs] in *. set (h1 := <[n := _]> h).
    assert (Hn : h !! n = None) by (apply (fresh_none h n); [exact Hlt|lia]).
    assert (Ht1 : trep (Rtrie r ls h1 (Pos.succ n) (kmalloc al).2) t).
    { apply (trep_other _ _ h _ n _ al _ _ Ht).
      - intros l [x Hl]. unfold h1. rewrite lookup_insert_ne; [done|congruence].
      - intros l Hl. unfold h1 in Hl. destruct (decide (l = n)) as [->|]; [lia|]. rewrite lookup_insert_ne in Hl by done. apply Hlt in Hl. lia. }
    destruct (link_run r ls h1 n (kmalloc al).2 t key v Wk) as (res & s' & t' & Hrun & Ht' & Hadd).
    + intros e He. apply Hap. rewrite <- HE. exact He.
    + exact Ht1.
    + unfold h1. rewrite lookup_insert_eq. done.
    + intros t0 -> Hin. destruct Htree as (Hr & _). destruct (repr_dom _ _ _ _ Hr Hin) as [x Hx]. congruence.
    + exists res, s'. split; [exact Hrun|]. destruct Hadd as [[-> Hp]|(-> & -> & Hf)].
      * left. split; [done|]. exists t'. split; [done|]. rewrite Hp, HE. done.
      * right. split; [done|]. split; [exists t; done|]. apply kmalloc_rest, Hf.
  - eexists _, _. split; [reflexivity|]. right. split; [done|]. split; [|apply kmalloc_fails, Em]. exists t. split; [|done].
    destruct Ht as (? & ? & ?). split_and!; done.
Qed.

(** Adding a key that is there. *)
Lemma add_again s E key v : has_entries s E -> wf_key key -> kbits key ∈ E.*1 ->
  exists r s', rtrie_add v key s = Some (r, s') /\ has_entries s' E /\ (r = Err EEXIST \/ r = Err ENOMEM /\ false ∈ rt_allocs s).
Proof.
  intros (t & Ht & HE) Wk Hin. destruct s as [r ls h n al]. unfold rtrie_add, create_leaf. rewrite create_bind. destruct (kmalloc al).1 eqn:Em.
  - pose proof Ht as (_ & Htree & Hlt). cbn [rt_nodes rt_next rt_allocs] in *. set (nd := RtrieNode _ _ _ _ _ _). set (h1 := <[n := nd]> h).
    assert (Hn : h !! n = None) by (apply (fresh_none h n); [exact Hlt|lia]).
    assert (Hold : forall l, is_Some (h !! l) -> h1 !! l = h !! l) by (intros l [x Hl]; unfold h1; rewrite lookup_insert_ne; [done|congruence]).
    assert (Hlt1 : forall l, is_Some (h1 !! l) -> (l < Pos.succ n)%positive).
    { intros l Hl. unfold h1 in Hl. destruct (decide (l = n)) as [->|]; [lia|]. rewrite lookup_insert_ne in Hl by done. apply Hlt in Hl. lia. }
    assert (Ht1 : trep (Rtrie r ls h1 (Pos.succ n) (kmalloc al).2) t) by (apply (trep_other _ _ h _ n _ al _ _ Ht); done).
    unfold rtrie_link. rewrite (bind_run _ _ _ _ _ (find_run _ t key false Ht1 Wk)). pose proof (found_spec _ t (kbits key) Ht1) as Hf.
    apply list_elem_of_fmap in Hin as ((b & v0) & Eb & Hin). cbn in Eb. subst b. rewrite <- HE in Hin.
    destruct (found t (kbits key)) as [[l k v1|l k a b]|] eqn:Ef; [|destruct (Hf _ Hin); done..]. destruct Hf as (_ & _ & Hu).
    specialize (Hu _ Hin (reflexivity _)). injection Hu as Ek _.
    destruct t as [t|]; [|done]. cbn [found] in Ef. destruct (decide _); [|done]. injection Ef as Er. destruct (reach_plug t (kbits key)) as [c Ec]. rewrite Er in Ec.
    pose proof Ht1 as (_ & (Hr & _ & Hg & _) & _). rewrite Ec in Hr, Hg. apply plug_repr in Hr as [_ Hl]. apply plug_good in Hg as [_ Wl]. cbn [rt_nodes repr good] in Hl, Wl.
    rewrite (deref_bind _ _ _ _ _ _ _ Hl). cbn [t_key t_color]. rewrite key_equals_eq, some_bind by done. rewrite (bool_decide_eq_true_2 _ (eq_sym Ek)), bool_decide_eq_false_2 by done.
    erewrite kfree_bind by (unfold h1; rewrite lookup_insert_eq; reflexivity). eexists _, _. split; [reflexivity|]. split; [|left; done].
    exists (Some t). split; [|exact HE]. unfold h1. rewrite delete_insert_id by done. apply (trep_other _ _ h _ n _ al _ _ Ht); [done|]. intros l' Hl'. apply Hlt in Hl'. lia.
  - eexists _, _. split; [reflexivity|]. split; [|right; split; [done|apply kmalloc_fails, Em]]. exists t. split; [|done]. destruct Ht as (? & ? & ?). split_and!; done.
Qed.

Lemma rm_run s E key : has_entries s E -> wf_key key ->
  exists r s', rtrie_rm key s = Some (r, s') /\
    ((exists v E', r = Ok tt /\ Permutation E ((kbits key, v) :: E') /\ has_entries s' E') \/ (r = Err ESRCH /\ s' = s /\ kbits key ∉ E.*1)).
Proof.
  intros (t & Ht & HE) Wk. unfold rtrie_rm. rewrite (bind_run _ _ _ _ _ (find_run s t key true Ht Wk)). pose proof (found_spec s t (kbits key) Ht) as Hf.
  assert (Hno : (forall e, e ∈ tentries t -> ~ e.1 `prefix_of` kbits key) -> kbits key ∉ E.*1).
  { intros H (e & Ee & He)%list_elem_of_fmap. rewrite <- HE in He. apply (H e He). rewrite <- Ee. done. }
  destruct (found t (kbits key)) as [[l k v|l k a b]|] eqn:Ef; [|eexists _, s; split; [reflexivity|]; right; split_and!; auto..].
  destruct Hf as (Hp & Hin & Hu). destruct t as [t|]; [|done]. cbn [found] in Ef. destruct (decide _); [|done]. injection Ef as Er.
  destruct (reach_plug t (kbits key)) as [c Ec]. rewrite Er in Ec. subst t. pose proof Ht as (_ & (Hr & Hnd & Hg & _) & _). pose proof (repr_dom _ _ _ l Hr) as Hdom.
  apply plug_repr in Hr as [_ Hl]. apply plug_good in Hg as [_ Wl]. destruct s as [r ls h nx al]. cbn [rt_nodes repr good] in *.
  rewrite (deref_bind _ _ _ _ _ _ _ Hl). cbn [t_key t_left t_right]. rewrite key_equals_eq, some_bind by done. destruct (decide (kbits k = kbits key)) as [E0|Hne].
  - rewrite bool_decide_eq_true_2 by done. cbn [negb]. unfold get, mbind at 1, M_bind at 1. cbn [rt_nodes].
    destruct (size h) as [|fuel] eqn:Es. { apply map_size_empty_inv in Es. rewrite Es, lookup_empty in Hl. done. }
    destruct (prune_leaf r ls h nx al c l k v fuel Ht) as (s' & t' & Hrun & Ht' & Hent). eexists _, s'. split; [exact Hrun|]. left. exists v, (centries c). split; [done|]. split.
    + rewrite <- HE. cbn [tentries]. rewrite plug_entries, Permutation_app_comm. cbn [entries app]. rewrite E0. done.
    + exists t'. split; [done|exact Hent].
  - rewrite bool_decide_eq_false_2 by done. eexists _, _. split; [reflexivity|]. right. split; [done|]. split; [done|].
    intros (e & Ee & He)%list_elem_of_fmap. rewrite <- HE in He. apply Hne. specialize (Hu e He). rewrite <- Ee in Hu. specialize (Hu (reflexivity _)). rewrite Hu in Ee. symmetry. exact Ee.
Qed.

(** ** All nodes *)

Lemma free_all_run r l0 nx al : forall ls (h : gmap positive (rtrie_node V)), NoDup ls -> (forall l, l ∈ ls -> is_Some (h !! l)) ->
  exists h', free_all ls (Rtrie r l0 h nx al) = Some (tt, Rtrie r l0 h' nx al) /\ forall l, h' !! l = if decide (l ∈ ls) then None else h !! l.
Proof.
  induction ls as [|p ls IH]; intros h Hnd Hin.
  - exists h. split; [done|]. intros l. destruct (decide (l ∈ [])) as [Hl|]; [apply not_elem_of_nil in Hl; done|done].
  - apply NoDup_cons in Hnd as [Hp Hnd]. destruct (Hin p) as [n Hn]; [left|]. cbn [free_all]. rewrite (kfree_bind _ _ _ _ _ _ _ Hn).
    destruct (IH (delete p h) Hnd) as (h' & Hrun & Hh'). { intros l Hl. rewrite lookup_delete_ne by congruence. apply Hin. right. done. }
    exists h'. split; [exact Hrun|]. intros l. rewrite Hh'. destruct (decide (l ∈ p :: ls)) as [Hl|Hl].
    + destruct (decide (l ∈ ls)); [done|]. apply elem_of_cons in Hl as [->|]; [apply lookup_delete_eq|done].
    + rewrite not_elem_of_cons in Hl. destruct (decide (l ∈ ls)); [tauto|]. apply lookup_delete_ne. intros ->. tauto.
Qed.

Lemma flush_run s E : has_entries s E ->
  exists s', rtrie_flush s = Some (tt, s') /\ has_entries s' [] /\ forall l, l ∈ rt_list s -> rt_nodes s' !! l = None.
Proof.
  intros (t & Ht & HE). destruct s as [r ls h nx al]. pose proof Ht as (Hroot & Htree & Hlt). cbn [rt_root rt_list rt_nodes rt_next] in *. unfold rtrie_flush. unfold get, mbind at 1, M_bind at 1. cbn [rt_root rt_list].
  destruct t as [t|]; cbn [option_map] in Hroot; subst r.
  - destruct Htree as (Hr & Hnd & _ & Hp). rewrite <- Hp in Hnd.
    destruct (free_all_run None [] nx al ls h Hnd) as (h' & Hrun & Hh'). { intros l Hl. rewrite Hp in Hl. exact (repr_dom _ _ _ _ Hr Hl). }
    eexists. split; [exact Hrun|]. split.
    + exists None. split; [|done]. split; [done|]. split; [done|]. cbn [rt_nodes rt_next]. intros l Hl. rewrite Hh' in Hl. destruct (decide (l ∈ ls)); [destruct Hl; done|]. apply Hlt, Hl.
    + intros l Hl. cbn [rt_nodes]. rewrite Hh', decide_True by done. done.
  - eexists. split; [reflexivity|]. cbn in Htree. subst ls. split; [exists None; split; [exact Ht|done]|]. intros l Hl. cbn in Hl. apply not_elem_of_nil in Hl. done.
Qed.

(** The value of a node. *)
Definition value_at (h : gmap positive (rtrie_node V)) (l : positive) : option V := n ← h !! l; t_value n.

Lemma values_locs (h : gmap positive (rtrie_node V)) t : forall par, repr h par t -> omap (value_at h) (locs t) = (entries t).*2.
Proof.
  induction t as [l k v|l k a IHa b IHb]; intros par Hr; cbn [repr locs entries] in *.
  - cbn. unfold value_at. rewrite Hr. done.
  - destruct Hr as (Hl & Ha & Hb). cbn. unfold value_at at 1. rewrite Hl. cbn [mbind option_bind t_value]. rewrite omap_app, fmap_app, (IHa _ Ha), (IHb _ Hb). done.
Qed.

Lemma node_shape (h : gmap positive (rtrie_node V)) t l : forall par, repr h par t -> l ∈ locs t -> exists n, h !! l = Some n /\ (t_color n = COLOR_WHITE <-> is_Some (t_value n)).
Proof.
  induction t as [l' k v|l' k a IHa b IHb]; intros par Hr Hl; cbn [repr locs] in *.
  - apply list_elem_of_singleton in Hl as ->. eexists. split; [exact Hr|]. cbn. split; eauto.
  - destruct Hr as (Hn & Ha & Hb). apply elem_of_cons in Hl as [->|[Hl|Hl]%elem_of_app]; [|eauto..]. eexists. split; [exact Hn|]. cbn. split; [done|intros []; done].
Qed.

Lemma foreach_loop_run {B} (cb : V -> B -> Z * B) r l0 (h : gmap positive (rtrie_node V)) nx al : forall ls arg,
  (forall l, l ∈ ls -> exists n, h !! l = Some n /\ (t_color n = COLOR_WHITE <-> is_Some (t_value n))) ->
  foreach_loop cb ls None arg (Rtrie r l0 h nx al) = Some (run_until cb (omap (value_at h) ls) arg, Rtrie r l0 h nx al).
Proof.
  induction ls as [|l ls IH]; intros arg Hok; [done|]. destruct (Hok l) as (n & Hn & Hw); [left|]. cbn [foreach_loop omap list_omap].
  rewrite (deref_bind _ _ _ _ _ _ _ Hn). unfold value_at at 1. rewrite Hn. cbn [mbind option_bind]. destruct (t_value n) as [v|] eqn:Ev.
  - rewrite bool_decide_eq_true_2 by (apply Hw; eauto). rewrite some_bind. cbn [run_until]. destruct (cb v arg) as [error arg']. destruct (negb (error =? 0)); [done|].
    apply IH. intros l' Hl'. apply Hok. right. done.
  - rewrite bool_decide_eq_false_2 by (rewrite Hw; intros []; done). apply IH. intros l' Hl'. apply Hok. right. done.
Qed.

Lemma foreach_run {B} (cb : V -> B -> Z * B) arg s E : has_entries s E ->
  exists vs, Permutation vs (E.*2) /\ rtrie_foreach cb arg None s = Some (run_until cb vs arg, s).
Proof.
  intros (t & Ht & HE). destruct s as [r ls h nx al]. pose proof Ht as (_ & Htree & _). cbn [rt_nodes rt_list] in *.
  assert (Hvs : Permutation (omap (value_at h) ls) (E.*2) /\ forall l, l ∈ ls -> exists n, h !! l = Some n /\ (t_color n = COLOR_WHITE <-> is_Some (t_value n))).
  { destruct t as [t|]; cbn in Htree.
    - destruct Htree as (Hr & _ & _ & Hp). rewrite Hp, (values_locs _ _ _ Hr), <- HE. split; [done|]. intros l Hl. rewrite Hp in Hl. exact (node_shape _ _ _ _ Hr Hl).
    - subst ls. rewrite <- HE. split; [done|]. intros l Hl. apply not_elem_of_nil in Hl. done. }
  destruct Hvs as [Hvs Hok]. exists (omap (value_at h) ls). split; [exact Hvs|]. unfold rtrie_foreach, get, mbind, M_bind. apply foreach_loop_run. exact Hok.
Qed.

End Ops.

Lemma is_empty_run {V} (s : rtrie V) E : has_entries s E -> rtrie_is_empty s = Some (bool_decide (E <> []), s).
Proof.
  intros (t & (Hroot & Ht & _) & HE). unfold rtrie_is_empty, get, mbind, M_bind. rewrite Hroot. destruct t as [t|]; cbn [option_map].
  - rewrite bool_decide_eq_true_2; [done|]. intros ->. destruct Ht as (_ & _ & Hg & _). destruct (entries_nonempty t Hg) as (e & He & _).
    cbn [tentries] in HE. rewrite HE in He. apply not_elem_of_nil in He. done.
  - cbn [tentries] in HE. apply Permutation_nil in HE. subst E. done.
Qed.

(** C24: a trie is a table of prefixes.  Of a trie with the entries [E], none
    of whose keys contains another, every operation returns without a fault
    and does what a table of prefixes does: a lookup finds the entry whose key
    is a prefix of the one given (there is one at most) and reports [-ESRCH] exactly when there is none;
    an addition whose key is apart from all others adds the entry; one
    whose key is there reports [-EEXIST]; both change nothing if there is no memory; a removal
    removes the entry of exactly that key, or reports [-ESRCH]; a flush
    empties the trie and frees its nodes; and the iteration visits each entry
    once.  ([rtrie_is_empty], though, answers [true] when there are
    entries.) *)
Theorem rtrie_is_prefix_table {V : Type} (s : rtrie V) (E : list (list bool * V)) (H : has_entries s E) :
  (forall e1 e2, e1 ∈ E -> e2 ∈ E -> e1.1 `prefix_of` e2.1 -> e1 = e2) /\
  (forall key, wf_key key -> exists r, rtrie_get key s = Some (r, s) /\
     match r with
     | Ok v => exists b, (b, v) ∈ E /\ b `prefix_of` kbits key
     | Err e => e = ESRCH /\ forall e, e ∈ E -> ~ e.1 `prefix_of` kbits key
     end) /\
  (forall key v, wf_key key -> apart (kbits key) E -> exists r s', rtrie_add v key s = Some (r, s') /\
     (r = Ok tt /\ has_entries s' ((kbits key, v) :: E) \/ r = Err ENOMEM /\ has_entries s' E /\ false ∈ rt_allocs s)) /\
  (forall key v, wf_key key -> kbits key ∈ E.*1 -> exists r s', rtrie_add v key s = Some (r, s') /\ has_entries s' E /\
     (r = Err EEXIST \/ r = Err ENOMEM /\ false ∈ rt_allocs s)) /\
  (forall key, wf_key key -> exists r s', rtrie_rm key s = Some (r, s') /\
     ((exists v E', r = Ok tt /\ Permutation E ((kbits key, v) :: E') /\ has_entries s' E') \/ (r = Err ESRCH /\ s' = s /\ kbits key ∉ E.*1))) /\
  (exists s', rtrie_flush s = Some (tt, s') /\ has_entries s' [] /\ forall l, l ∈ rt_list s -> rt_nodes s' !! l = None) /\
  (forall (B : Type) (cb : V -> B -> Z * B) arg, exists vs, Permutation vs (E.*2) /\ rtrie_foreach cb arg None s = Some (run_until cb vs arg, s)) /\
  rtrie_is_empty s = Some (bool_decide (E <> []), s).
Proof.
  split_and!.
  - intros e1 e2. apply (has_entries_apart s E); done.
  - intros key Wk. apply get_run; done.
  - intros key v Wk Ha. apply add_run; done.
  - intros key v Wk Hin. apply add_again; done.
  - intros key Wk. apply rm_run; done.
  - apply (flush_run s E H).
  - intros B cb arg. apply (foreach_run cb arg s E H).
  - apply (is_empty_run s E H).
Qed.

(** The IPv4 prefix [a.b.c.d/len]. *)
Definition key4 (a b c d len : Z) : rtrie_key := RtrieKey [a; b; c; d] len.

Lemma key4_wf a b c d len : is_u8 a -> is_u8 b -> is_u8 c -> is_u8 d -> 0 <= len <= 32 -> wf_key (key4 a b c d len).
Proof. intros. split; [unfold wf_bytes; cbn [key4 k_bytes]; auto using Forall_cons_2, Forall_nil|]. unfold blen. cbn. lia. Qed.

Lemma rtrie_is_prefix_table_witness :
  exists s, rtrie_add 1 (key4 10 1 0 0 16) (rtrie_init []) = Some (Ok tt, s) /\ has_entries s [(kbits (key4 10 1 0 0 16), 1)] /\
    rtrie_get (key4 10 1 2 3 32) s = Some (Ok 1, s).
Proof.
  destruct (rtrie_is_prefix_table (V := Z) (rtrie_init []) [] (has_entries_init [])) as (_ & _ & Hadd & _).
  assert (Hap : apart (V := Z) (kbits (key4 10 1 0 0 16)) []) by (intros e He; apply not_elem_of_nil in He; done).
  destruct (Hadd (key4 10 1 0 0 16) 1 (key4_wf 10 1 0 0 16 ltac:(done) ltac:(done) ltac:(done) ltac:(done) ltac:(lia)) Hap)
    as (r & s & Hrun & [[-> Hs]|(_ & _ & Hf)]); [|apply not_elem_of_nil in Hf; done].
  exists s. split; [exact Hrun|]. split; [exact Hs|]. vm_compute in Hrun. injection Hrun as <-. vm_compute. reflexivity.
Defined.

Fixpoint add_all {V} (l : list (V * rtrie_key)) : M (rtrie V) (result unit) :=
  match l with
  | [] => mret (Ok tt)
  | (v, k) :: l => r ← rtrie_add v k; match r with Ok _ => add_all l | Err e => mret (Err e) end
  end.

(** A trie whose keys contain one another is not such a table.
    First, additions alone can hide an entry: with 0/0, 10.0/16, 10.1/16,
    10/8 and 8/5, added in that order, the lookup of 10.0.0.1 gives the entry of 8/5, since
    the last addition takes the empty left slot of the root without looking at
    the right one.  Second, an entry that takes the place of a black node
    leaves its children pointing to the freed node, so the removal of one of
    them follows a dangling pointer.  Third, the black node that replaces a
    removed entry does not know its parent, so the removal of its child
    cuts the rest of the trie off: 192/8 is no longer found. *)
Lemma nested_keys_break :
  (exists s, add_all [(0, key4 0 0 0 0 0); (1, key4 10 0 0 0 16); (2, key4 10 1 0 0 16); (3, key4 10 0 0 0 8); (4, key4 8 0 0 0 5)] (rtrie_init []) = Some (Ok tt, s) /\
     rtrie_get (key4 10 0 0 1 32) s = Some (Ok 4, s)) /\
  (exists s, add_all [(1, key4 10 0 0 0 16); (2, key4 10 1 0 0 16); (3, key4 10 0 0 0 15)] (rtrie_init []) = Some (Ok tt, s) /\
     rtrie_rm (key4 10 0 0 0 16) s = None) /\
  (exists s s', add_all [(0, key4 0 0 0 0 0); (3, key4 10 0 0 0 8); (4, key4 192 0 0 0 8); (1, key4 10 0 0 0 16); (2, key4 10 1 0 0 16)]
       (rtrie_init []) = Some (Ok tt, s) /\ rtrie_get (key4 192 0 0 1 32) s = Some (Ok 4, s) /\
     (rtrie_rm (key4 10 0 0 0 8);; rtrie_rm (key4 10 0 0 0 16)) s = Some (Ok tt, s') /\ rtrie_get (key4 192 0 0 1 32) s' = Some (Err ESRCH, s')).
Proof.
  split; [eexists; split; vm_compute; reflexivity|]. split; [eexists; split; vm_compute; reflexivity|].
  eexists _, _. split; [vm_compute; reflexivity|]. split; [vm_compute; reflexivity|]. split; vm_compute; reflexivity.
Qed.
