(* ===== verification/Eam.v ===== *)
(** * The table of explicit address mappings

    [mod/stateless/eam.c]: entries that pair an IPv6 prefix with an IPv4
    prefix, indexed by both in two tries.  [eam_inv] says which entries the
    table has when no prefix contains another; the theorems say what the requests do to such
    a table and that its two translations of addresses are inverse of each
    other. *)
From S2P Require Import Prelude Types Address Skb SessionSpec Checksum Rtrie RtrieSpec RtrieOps.

Definition ADDR6_BITS : Z := 128.
Definition ADDR4_BITS : Z := 32.

Record eamt_entry : Type := EamtEntry {
  e_prefix6 : ipv6_prefix;
  e_prefix4 : ipv4_prefix
}.

Record eam_table : Type := EamTable {
  trie6 : rtrie eamt_entry;
  trie4 : rtrie eamt_entry;
  eam_count : Z
}.

Definition addr6_to_key (addr : in6_addr) (len : Z) : rtrie_key := RtrieKey (be_bytes 16 (s6_addr addr)) len.
Definition addr4_to_key (addr : in_addr) (len : Z) : rtrie_key := RtrieKey (be_bytes 4 (s_addr addr)) len.
Definition prefix6_to_key (prefix : ipv6_prefix) : rtrie_key := addr6_to_key (p6_address prefix) (p6_len prefix).
Definition prefix4_to_key (prefix : ipv4_prefix) : rtrie_key := addr4_to_key (p4_address prefix) (p4_len prefix).

Definition on6 {A} (m : M (rtrie eamt_entry) A) : M eam_table A := fun t =>
  match m (trie6 t) with Some (a, s) => Some (a, EamTable s (trie4 t) (eam_count t)) | None => None end.
Definition on4 {A} (m : M (rtrie eamt_entry) A) : M eam_table A := fun t =>
  match m (trie4 t) with Some (a, s) => Some (a, EamTable (trie6 t) s (eam_count t)) | None => None end.

Definition set_count (f : Z -> Z) : M eam_table unit := modify (fun t => EamTable (trie6 t) (trie4 t) (f (eam_count t))).

Definition eamt_entry_equals (eam1 eam2 : eamt_entry) : bool :=
  prefix6_equals (Some (e_prefix6 eam1)) (Some (e_prefix6 eam2)) && prefix4_equals (Some (e_prefix4 eam1)) (Some (e_prefix4 eam2)).

Definition validate_prefixes (prefix6 : ipv6_prefix) (prefix4 : ipv4_prefix) : result unit :=
  match prefix6_validate (Some prefix6) with
  | Err e => Err e
  | Ok _ =>
      match prefix4_validate (Some prefix4) with
      | Err e => Err e
      | Ok _ => if ADDR6_BITS - p6_len prefix6 <? ADDR4_BITS - p4_len prefix4 then Err EINVAL else Ok tt
      end
  end.

Definition validate_overlapping (prefix6 : ipv6_prefix) (prefix4 : ipv4_prefix) : M eam_table (result unit) :=
  old ← on6 (rtrie_get (addr6_to_key (p6_address prefix6) 128));
  match old with
  | Ok _ => mret (Err EEXIST)
  | Err _ =>
      old ← on4 (rtrie_get (addr4_to_key (p4_address prefix4) 32));
      match old with
      | Ok _ => mret (Err EEXIST)
      | Err _ => mret (Ok tt)
      end
  end.

Definition revert_add6 (prefix6 : ipv6_prefix) : M eam_table unit := _ ← on6 (rtrie_rm (prefix6_to_key prefix6)); mret tt.

Definition eamt_add6 (eam : eamt_entry) : M eam_table (result unit) := on6 (rtrie_add eam (prefix6_to_key (e_prefix6 eam))).
Definition eamt_add4 (eam : eamt_entry) : M eam_table (result unit) := on4 (rtrie_add eam (prefix4_to_key (e_prefix4 eam))).

Definition eamt_add (prefix6 : ipv6_prefix) (prefix4 : ipv4_prefix) (force : bool) : M eam_table (result unit) :=
  match validate_prefixes prefix6 prefix4 with
  | Err e => mret (Err e)
  | Ok _ =>
      error ← (if negb force then validate_overlapping prefix6 prefix4 else mret (Ok tt));
      match error with
      | Err e => mret (Err e)
      | Ok _ =>
          let new := EamtEntry prefix6 prefix4 in
          error ← eamt_add6 new;
          match error with
          | Err e => mret (Err e)
          | Ok _ =>
              error ← eamt_add4 new;
              match error with
              | Err e => revert_add6 prefix6;; mret (Err e)
              | Ok _ => set_count (fun n => u64 (n + 1));; mret (Ok tt)
              end
          end
      end
  end.

Definition get_exact6 (prefix : ipv6_prefix) : M eam_table (result eamt_entry) :=
  eam ← on6 (rtrie_get (prefix6_to_key prefix));
  mret (match eam with Ok eam => if p6_len (e_prefix6 eam) =? p6_len prefix then Ok eam else Err ESRCH | Err e => Err e end).

Definition get_exact4 (prefix : ipv4_prefix) : M eam_table (result eamt_entry) :=
  eam ← on4 (rtrie_get (prefix4_to_key prefix));
  mret (match eam with Ok eam => if p4_len (e_prefix4 eam) =? p4_len prefix then Ok eam else Err ESRCH | Err e => Err e end).

Definition eamt_rm_both (prefix6 : ipv6_prefix) (prefix4 : ipv4_prefix) : M eam_table (result unit) :=
  error ← on6 (rtrie_rm (prefix6_to_key prefix6));
  match error with
  | Err e => mret (Err e)
  | Ok _ =>
      error ← on4 (rtrie_rm (prefix4_to_key prefix4));
      match error with
      | Err e => mret (Err e)
      | Ok _ => set_count (fun n => u64 (n - 1));; mret (Ok tt)
      end
  end.

Definition eamt_rm (prefix6 : option ipv6_prefix) (prefix4 : option ipv4_prefix) : M eam_table (result unit) :=
  match prefix6, prefix4 with
  | None, None => mret (Err EINVAL)
  | Some prefix6, None =>
      eam6 ← get_exact6 prefix6;
      match eam6 with Err e => mret (Err e) | Ok eam6 => eamt_rm_both prefix6 (e_prefix4 eam6) end
  | None, Some prefix4 =>
      eam4 ← get_exact4 prefix4;
      match eam4 with Err e => mret (Err e) | Ok eam4 => eamt_rm_both (e_prefix6 eam4) prefix4 end
  | Some prefix6, Some prefix4 =>
      eam6 ← get_exact6 prefix6;
      match eam6 with
      | Err e => mret (Err e)
      | Ok eam6 =>
          eam4 ← get_exact4 prefix4;
          match eam4 with
          | Err e => mret (Err e)
          | Ok eam4 => if eamt_entry_equals eam6 eam4 then eamt_rm_both prefix6 prefix4 else mret (Err ESRCH)
          end
      end
  end.

Definition eamt_contains6 (addr : in6_addr) : M eam_table bool := on6 (rtrie_contains (addr6_to_key addr 128)).
Definition eamt_contains4 (addr : in_addr) : M eam_table bool := on4 (rtrie_contains (addr4_to_key addr 32)).

(** The loops that copy the suffix. *)
Fixpoint copy_6to4 (n : nat) (i : Z) (eam : eamt_entry) (addr6 : in6_addr) (addr4 : in_addr) : in_addr :=
  match n with
  | O => addr4
  | S n =>
      let offset4 := p4_len (e_prefix4 eam) + i in
      let offset6 := p6_len (e_prefix6 eam) + i in
      copy_6to4 n (i + 1) eam addr6 (addr4_set_bit addr4 offset4 (negb (addr6_get_bit addr6 offset6 =? 0)))
  end.

Fixpoint copy_4to6 (n : nat) (i : Z) (eam : eamt_entry) (addr4 : in_addr) (addr6 : in6_addr) : in6_addr :=
  match n with
  | O => addr6
  | S n =>
      let offset4 := p4_len (e_prefix4 eam) + i in
      let offset6 := p6_len (e_prefix6 eam) + i in
      copy_4to6 n (i + 1) eam addr4 (addr6_set_bit addr6 offset6 (negb (addr4_get_bit addr4 offset4 =? 0)))
  end.

Definition eamt_xlat_6to4 (addr6 : in6_addr) : M eam_table (result in_addr) :=
  eam ← on6 (rtrie_get (addr6_to_key addr6 128));
  mret (match eam with
        | Err e => Err e
        | Ok eam => Ok (copy_6to4 (Z.to_nat (ADDR4_BITS - p4_len (e_prefix4 eam))) 0 eam addr6 (p4_address (e_prefix4 eam)))
        end).

Definition eamt_xlat_4to6 (addr4 : in_addr) : M eam_table (result in6_addr) :=
  eam ← on4 (rtrie_get (addr4_to_key addr4 32));
  mret (match eam with
        | Err e => Err e
        | Ok eam => Ok (copy_4to6 (Z.to_nat (ADDR4_BITS - p4_len (e_prefix4 eam))) 0 eam addr4 (p6_address (e_prefix6 eam)))
        end).

Definition eamt_count : M eam_table Z := gets eam_count.

Definition eamt_is_empty : M eam_table bool := on6 rtrie_is_empty.

(** The trie of the IPv6 prefixes, and an offset that is an IPv4 prefix. *)
Definition eamt_foreach {B} (cb : eamt_entry -> B -> Z * B) (arg : B) (offset : option ipv4_prefix) : M eam_table (Z * B) :=
  on6 (rtrie_foreach cb arg (option_map prefix4_to_key offset)).

Definition eamt_flush : M eam_table unit :=
  on6 rtrie_flush;;
  on4 rtrie_flush;;
  set_count (fun _ => 0).

Definition eamt_init (al6 al4 : allocs) : eam_table := EamTable (rtrie_init al6) (rtrie_init al4) 0.

Definition eamt_destroy : M eam_table unit := on6 rtrie_destroy;; on4 rtrie_destroy.

(** ** The bits of the keys *)

Lemma byte_at_be n x y : 0 <= y < Z.of_nat n -> byte_at (be_bytes n x) y = bits x (8 * (Z.of_nat n - 1 - y)) 8.
Proof.
  revert y. induction n as [|n IH]; intros y Hy; [lia|]. unfold byte_at, ld8 in *. cbn [be_bytes]. destruct (decide (y = 0)) as [->|Hne].
  - change (bits x (8 * Z.of_nat n) 8 = bits x (8 * (Z.of_nat (S n) - 1 - 0)) 8). f_equal. lia.
  - specialize (IH (y - 1) ltac:(lia)). destruct (Z.leb_spec 0 y); [|lia]. destruct (Z.leb_spec 0 (y - 1)); [|lia].
    replace (Z.to_nat y) with (S (Z.to_nat (y - 1))) by lia. etransitivity; [exact IH|]. f_equal. lia.
Qed.

Lemma bit_at_be n x i : 0 <= i < 8 * Z.of_nat n -> bit_at (be_bytes n x) i = Z.testbit x (8 * Z.of_nat n - 1 - i).
Proof.
  intros Hi. pose proof (Z.div_mod i 8 ltac:(lia)). pose proof (Z.mod_pos_bound i 8 ltac:(lia)). unfold bit_at.
  rewrite byte_at_be, testbit_bits by lia. destruct (Z.ltb_spec (7 - i mod 8) 8); [|lia]. cbn [andb]. f_equal. lia.
Qed.

Lemma kbits_be n x len : 0 <= len <= 8 * Z.of_nat n ->
  kbits (RtrieKey (be_bytes n x) len) = map (fun i => Z.testbit x (8 * Z.of_nat n - 1 - i)) (seqZ 0 len).
Proof. intros Hl. unfold kbits. cbn [k_bytes k_len]. apply map_ext_in. intros i Hi%list_elem_of_In%elem_of_seqZ. apply bit_at_be. lia. Qed.

(** One key contains the other if it is not longer and its bits are the other's. *)
Lemma kbits_prefix n x y l1 l2 : 0 <= l1 <= 8 * Z.of_nat n -> 0 <= l2 <= 8 * Z.of_nat n ->
  kbits (RtrieKey (be_bytes n x) l1) `prefix_of` kbits (RtrieKey (be_bytes n y) l2) <->
  l1 <= l2 /\ forall k, 8 * Z.of_nat n - l1 <= k < 8 * Z.of_nat n -> Z.testbit x k = Z.testbit y k.
Proof.
  intros H1 H2. rewrite !kbits_be by lia. split.
  - intros Hp. pose proof (prefix_length _ _ Hp) as Hlen. rewrite !length_map, !length_seqZ in Hlen. split; [lia|]. intros k Hk.
    assert (Hl : forall z l, 8 * Z.of_nat n - k <= l -> map (fun i => Z.testbit z (8 * Z.of_nat n - 1 - i)) (seqZ 0 l) !! Z.to_nat (8 * Z.of_nat n - 1 - k) = Some (Z.testbit z k)).
    { intros z l Hl. rewrite list_lookup_fmap, lookup_seqZ_lt by lia. cbn. do 2 f_equal. lia. }
    pose proof (prefix_lookup_Some _ _ _ _ (Hl x l1 ltac:(lia)) Hp) as Hy. rewrite Hl in Hy by lia. congruence.
  - intros [Hle Hb]. replace l2 with (l1 + (l2 - l1)) by lia. rewrite seqZ_app, map_app by lia. apply prefix_app_r.
    erewrite map_ext_in; [done|]. intros i Hi%list_elem_of_In%elem_of_seqZ. apply Hb. lia.
Qed.

(** ** Entries *)

Definition wf_prefix6 (p : ipv6_prefix) : Prop := 0 <= p6_len p <= 128 /\ wf_addr6 (p6_address p).
Definition wf_prefix4 (p : ipv4_prefix) : Prop := 0 <= p4_len p <= 32 /\ wf_addr4 (p4_address p).

Lemma key6_wf a len : 0 <= len <= 128 -> wf_key (addr6_to_key a len).
Proof. intros H. split; [apply be_bytes_wf|]. unfold blen. cbn [addr6_to_key k_bytes k_len]. rewrite be_bytes_length. lia. Qed.

Lemma key4_wf' a len : 0 <= len <= 32 -> wf_key (addr4_to_key a len).
Proof. intros H. split; [apply be_bytes_wf|]. unfold blen. cbn [addr4_to_key k_bytes k_len]. rewrite be_bytes_length. lia. Qed.

Lemma prefix6_contains_key p a : wf_prefix6 p -> wf_addr6 a ->
  kbits (prefix6_to_key p) `prefix_of` kbits (addr6_to_key a 128) <-> prefix6_contains p a = true.
Proof.
  intros [Hl Hp] Ha. rewrite prefix6_contains_bits by done. unfold prefix6_to_key, addr6_to_key. rewrite kbits_prefix by lia.
  split; [intros [_ H]; exact H|]. intros H. split; [lia|exact H].
Qed.

Lemma prefix4_contains_key p a : wf_prefix4 p -> wf_addr4 a ->
  kbits (prefix4_to_key p) `prefix_of` kbits (addr4_to_key a 32) <-> prefix4_contains p a = true.
Proof.
  intros [Hl Hp] Ha. rewrite prefix4_contains_bits by done. unfold prefix4_to_key, addr4_to_key. rewrite kbits_prefix by lia.
  split; [intros [_ H]; exact H|]. intros H. split; [lia|exact H].
Qed.

(** The prefixes overlap: one's key contains the other's. *)
Definition apart6 (p q : ipv6_prefix) : Prop := disjoint_keys (kbits (prefix6_to_key p)) (kbits (prefix6_to_key q)).
Definition apart4 (p q : ipv4_prefix) : Prop := disjoint_keys (kbits (prefix4_to_key p)) (kbits (prefix4_to_key q)).

(** Which is to say that no address is in both. *)
Lemma apart4_iff p q : wf_prefix4 p -> wf_prefix4 q -> apart4 p q <-> prefix4_intersects p q = false.
Proof.
  intros [Hl Hp] [Kl Kp]. unfold apart4, disjoint_keys, prefix4_to_key, addr4_to_key. rewrite !kbits_prefix by lia. change (8 * Z.of_nat 4) with 32.
  rewrite <- not_true_iff_false. unfold prefix4_intersects. rewrite orb_true_iff, !prefix4_contains_bits by done. split.
  - intros [H1 H2] [H|H]; [destruct (Z.le_ge_cases (p4_len p) (p4_len q))|destruct (Z.le_ge_cases (p4_len q) (p4_len p))];
      [apply H1|apply H2|apply H2|apply H1]; (split; [lia|]); intros k Hk; ((apply H; lia) || (symmetry; apply H; lia)).
  - intros H. split; intros [Hle Hb]; apply H; [left|right]; exact Hb.
Qed.

Definition entry6 (e : eamt_entry) : list bool * eamt_entry := (kbits (prefix6_to_key (e_prefix6 e)), e).
Definition entry4 (e : eamt_entry) : list bool * eamt_entry := (kbits (prefix4_to_key (e_prefix4 e)), e).

Definition wf_entry (e : eamt_entry) : Prop :=
  wf_prefix6 (e_prefix6 e) /\ wf_prefix4 (e_prefix4 e) /\ validate_prefixes (e_prefix6 e) (e_prefix4 e) = Ok tt.

(** The table has exactly the entries [T]. *)
Definition eam_inv (T : list eamt_entry) (t : eam_table) : Prop :=
  has_entries (trie6 t) (map entry6 T) /\ has_entries (trie4 t) (map entry4 T) /\ eam_count t = u64 (Z.of_nat (length T)) /\ Forall wf_entry T.

Lemma eam_inv_init al6 al4 : eam_inv [] (eamt_init al6 al4).
Proof. split_and!; [apply has_entries_init..|done|done]. Qed.

Lemma on6_run {A} (m : M (rtrie eamt_entry) A) t a s : m (trie6 t) = Some (a, s) -> on6 m t = Some (a, EamTable s (trie4 t) (eam_count t)).
Proof. intros H. unfold on6. rewrite H. done. Qed.

Lemma on4_run {A} (m : M (rtrie eamt_entry) A) t a s : m (trie4 t) = Some (a, s) -> on4 m t = Some (a, EamTable (trie6 t) s (eam_count t)).
Proof. intros H. unfold on4. rewrite H. done. Qed.

Lemma eam_table_eta t : EamTable (trie6 t) (trie4 t) (eam_count t) = t.
Proof. destruct t. done. Qed.

(** The lookups, for keys that are an address or a prefix. *)
Lemma get6_run T t p : eam_inv T t -> wf_prefix6 p -> exists r, on6 (rtrie_get (prefix6_to_key p)) t = Some (r, t) /\
  match r with
  | Ok e => e ∈ T /\ kbits (prefix6_to_key (e_prefix6 e)) `prefix_of` kbits (prefix6_to_key p)
  | Err x => x = ESRCH /\ forall e, e ∈ T -> ~ kbits (prefix6_to_key (e_prefix6 e)) `prefix_of` kbits (prefix6_to_key p)
  end.
Proof.
  intros (H6 & _) [Hl _]. destruct (get_run _ _ (prefix6_to_key p) H6 (key6_wf _ _ Hl)) as (r & Hrun & Hr). exists r. split.
  - rewrite (on6_run _ _ _ _ Hrun), eam_table_eta. done.
  - destruct r as [v|x].
    + destruct Hr as (b & (e & [= -> ->] & He)%list_elem_of_fmap & Hp). done.
    + destruct Hr as [-> Hr]. split; [done|]. intros e He. apply (Hr (entry6 e)), list_elem_of_fmap. eauto.
Qed.

Lemma get4_run T t p : eam_inv T t -> wf_prefix4 p -> exists r, on4 (rtrie_get (prefix4_to_key p)) t = Some (r, t) /\
  match r with
  | Ok e => e ∈ T /\ kbits (prefix4_to_key (e_prefix4 e)) `prefix_of` kbits (prefix4_to_key p)
  | Err x => x = ESRCH /\ forall e, e ∈ T -> ~ kbits (prefix4_to_key (e_prefix4 e)) `prefix_of` kbits (prefix4_to_key p)
  end.
Proof.
  intros (_ & H4 & _) [Hl _]. destruct (get_run _ _ (prefix4_to_key p) H4 (key4_wf' _ _ Hl)) as (r & Hrun & Hr). exists r. split.
  - rewrite (on4_run _ _ _ _ Hrun), eam_table_eta. done.
  - destruct r as [v|x].
    + destruct Hr as (b & (e & [= -> ->] & He)%list_elem_of_fmap & Hp). done.
    + destruct Hr as [-> Hr]. split; [done|]. intros e He. apply (Hr (entry4 e)), list_elem_of_fmap. eauto.
Qed.

(** ** The suffix *)

Lemma mask4_bits pos n : 0 <= pos < 32 -> 0 <= n -> Z.testbit (u32 (Z.shiftl 1 (31 - pos))) n = (n =? 31 - pos).
Proof.
  intros Hp Hn. unfold u32. rewrite Z.mod_small by (rewrite Z.shiftl_1_l; split; [lia|apply Z.pow_lt_mono_r; lia]).
  rewrite Z.shiftl_1_l, Z.pow2_bits_eqb by lia. apply Z.eqb_sym.
Qed.

Lemma addr4_get_bit_testbit a pos : 0 <= pos < 32 -> (addr4_get_bit a pos =? 0) = negb (Z.testbit (s_addr a) (31 - pos)).
Proof.
  intros Hp. unfold addr4_get_bit. apply eq_true_iff_eq. rewrite Z.eqb_eq, negb_true_iff. split; intros H.
  - apply (f_equal (fun y => Z.testbit y (31 - pos))) in H. rewrite Z.land_spec, mask4_bits, Z.eqb_refl, andb_true_r, Z.bits_0 in H by lia. done.
  - apply Z.bits_inj'. intros n Hn. rewrite Z.land_spec, mask4_bits, Z.bits_0 by lia.
    destruct (Z.eqb_spec n (31 - pos)) as [->|]; [rewrite H; done|apply andb_false_r].
Qed.

Lemma addr4_set_bit_testbit a pos v n : 0 <= pos < 32 -> 0 <= n < 32 ->
  Z.testbit (s_addr (addr4_set_bit a pos v)) n = if n =? 31 - pos then v else Z.testbit (s_addr a) n.
Proof.
  intros Hp Hn. unfold addr4_set_bit. destruct v; cbn [s_addr].
  - rewrite Z.lor_spec, mask4_bits by lia. destruct (n =? 31 - pos); [apply orb_true_r|apply orb_false_r].
  - rewrite Z.land_spec. unfold u32 at 1. rewrite Z.mod_pow2_bits_low, Z.lnot_spec, mask4_bits by lia.
    destruct (n =? 31 - pos); [apply andb_false_r|apply andb_true_r].
Qed.

Lemma addr4_set_bit_wf a pos v : 0 <= pos < 32 -> wf_addr4 a -> wf_addr4 (addr4_set_bit a pos v).
Proof.
  intros Hp Ha. apply (range_of_testbit _ 32); [lia| |].
  - unfold addr4_set_bit, u32. destruct v; cbn [s_addr]; [apply Z.lor_nonneg|apply Z.land_nonneg]; [split; [apply Ha|apply Z.mod_pos_bound; lia]|left; apply Ha].
  - intros n Hn. unfold addr4_set_bit. destruct v; cbn [s_addr]; rewrite ?Z.lor_spec, ?Z.land_spec, (testbit_high _ 32 n Ha) by lia; [|done].
    rewrite mask4_bits by lia. destruct (Z.eqb_spec n (31 - pos)); [lia|done].
Qed.

Lemma addr6_set_bit_wf a pos v : 0 <= pos < 128 -> wf_addr6 a -> wf_addr6 (addr6_set_bit a pos v).
Proof.
  intros Hp Ha. unfold addr6_set_bit. rewrite Z.shiftr_div_pow2 by lia. change (2 ^ 5) with 32.
  assert (0 <= pos / 32 < 4) by (split; [apply Z.div_pos; lia|apply Z.div_lt_upper_bound; lia]).
  destruct v; apply set_bits_range; lia || exact Ha.
Qed.

Lemma copy_6to4_bits e a6 n : forall i a4, 0 <= i -> wf_prefix6 (e_prefix6 e) -> wf_prefix4 (e_prefix4 e) -> wf_addr4 a4 ->
  p4_len (e_prefix4 e) + i + Z.of_nat n <= 32 -> p6_len (e_prefix6 e) + i + Z.of_nat n <= 128 ->
  wf_addr4 (copy_6to4 n i e a6 a4) /\ forall k, 0 <= k < 32 -> Z.testbit (s_addr (copy_6to4 n i e a6 a4)) k =
    if (32 - p4_len (e_prefix4 e) - i - Z.of_nat n <=? k) && (k <? 32 - p4_len (e_prefix4 e) - i)
    then Z.testbit (s6_addr a6) (96 + k + p4_len (e_prefix4 e) - p6_len (e_prefix6 e)) else Z.testbit (s_addr a4) k.
Proof.
  induction n as [|n IH]; intros i a4 Hi W6 W4 Ha H4 H6; cbn [copy_6to4].
  - split; [done|]. intros k Hk. destruct (Z.leb_spec (32 - p4_len (e_prefix4 e) - i - Z.of_nat 0) k), (Z.ltb_spec k (32 - p4_len (e_prefix4 e) - i)); done || lia.
  - destruct W6 as [L6 W6], W4 as [L4 W4]. destruct (IH (i + 1) (addr4_set_bit a4 (p4_len (e_prefix4 e) + i) (negb (addr6_get_bit a6 (p6_len (e_prefix6 e) + i) =? 0)))) as [Hw Hb];
      [lia|split; done|split; done|apply addr4_set_bit_wf; [lia|done]|lia|lia|]. split; [exact Hw|]. intros k Hk. rewrite Hb by done.
    rewrite addr4_set_bit_testbit, addr6_get_bit_testbit, negb_involutive by lia.
    destruct (Z.leb_spec (32 - p4_len (e_prefix4 e) - (i + 1) - Z.of_nat n) k), (Z.ltb_spec k (32 - p4_len (e_prefix4 e) - (i + 1))),
      (Z.leb_spec (32 - p4_len (e_prefix4 e) - i - Z.of_nat (S n)) k), (Z.ltb_spec k (32 - p4_len (e_prefix4 e) - i)),
      (Z.eqb_spec k (31 - (p4_len (e_prefix4 e) + i))); cbn [andb]; try lia; try done. f_equal. lia.
Qed.

Lemma copy_4to6_bits e a4 n : forall i a6, 0 <= i -> wf_prefix6 (e_prefix6 e) -> wf_prefix4 (e_prefix4 e) -> wf_addr6 a6 ->
  p4_len (e_prefix4 e) + i + Z.of_nat n <= 32 -> p6_len (e_prefix6 e) + i + Z.of_nat n <= 128 ->
  wf_addr6 (copy_4to6 n i e a4 a6) /\ forall k, 0 <= k < 128 -> Z.testbit (s6_addr (copy_4to6 n i e a4 a6)) k =
    if (128 - p6_len (e_prefix6 e) - i - Z.of_nat n <=? k) && (k <? 128 - p6_len (e_prefix6 e) - i)
    then Z.testbit (s_addr a4) (k + p6_len (e_prefix6 e) - p4_len (e_prefix4 e) - 96) else Z.testbit (s6_addr a6) k.
Proof.
  induction n as [|n IH]; intros i a6 Hi W6 W4 Ha H4 H6; cbn [copy_4to6].
  - split; [done|]. intros k Hk. destruct (Z.leb_spec (128 - p6_len (e_prefix6 e) - i - Z.of_nat 0) k), (Z.ltb_spec k (128 - p6_len (e_prefix6 e) - i)); done || lia.
  - destruct W6 as [L6 W6], W4 as [L4 W4]. destruct (IH (i + 1) (addr6_set_bit a6 (p6_len (e_prefix6 e) + i) (negb (addr4_get_bit a4 (p4_len (e_prefix4 e) + i) =? 0)))) as [Hw Hb];
      [lia|split; done|split; done|apply addr6_set_bit_wf; [lia|done]|lia|lia|]. split; [exact Hw|]. intros k Hk. rewrite Hb by done.
    rewrite addr6_set_bit_testbit, addr4_get_bit_testbit, negb_involutive by lia.
    destruct (Z.leb_spec (128 - p6_len (e_prefix6 e) - (i + 1) - Z.of_nat n) k), (Z.ltb_spec k (128 - p6_len (e_prefix6 e) - (i + 1))),
      (Z.leb_spec (128 - p6_len (e_prefix6 e) - i - Z.of_nat (S n)) k), (Z.ltb_spec k (128 - p6_len (e_prefix6 e) - i)),
      (Z.eqb_spec k (127 - (p6_len (e_prefix6 e) + i))); cbn [andb]; try lia; try done. f_equal. lia.
Qed.

(** The number with the suffix [y] after the prefix [x]. *)
Lemma testbit_join x y w k : 0 <= w -> x mod 2 ^ w = 0 -> 0 <= y < 2 ^ w -> 0 <= k ->
  Z.testbit (x + y) k = if k <? w then Z.testbit y k else Z.testbit x k.
Proof.
  intros Hw Hx Hy Hk. apply Z.div_exact in Hx; [|lia]. set (q := x / 2 ^ w) in Hx. destruct (Z.ltb_spec k w).
  - rewrite <- (Z.mod_pow2_bits_low (x + y) w k) by lia. rewrite Hx, Z.add_comm, Z.mul_comm, Z.mod_add, Z.mod_small by lia. done.
  - replace k with ((k - w) + w) by lia. rewrite <- !Z.div_pow2_bits by lia. rewrite Hx at 1. rewrite Z.add_comm, Z.mul_comm, Z.div_add, Z.div_small by lia. done.
Qed.

(** How many bits of the IPv6 address follow the ones that are the IPv4 suffix. *)
Definition gap (e : eamt_entry) : Z := (128 - p6_len (e_prefix6 e)) - (32 - p4_len (e_prefix4 e)).

(** The translations of an entry, as arithmetic. *)
Definition embed (e : eamt_entry) (a : in_addr) : in6_addr :=
  In6Addr (s6_addr (p6_address (e_prefix6 e)) + (s_addr a - s_addr (p4_address (e_prefix4 e))) * 2 ^ gap e).
Definition extract (e : eamt_entry) (a : in6_addr) : in_addr :=
  InAddr (s_addr (p4_address (e_prefix4 e)) + (s6_addr a - s6_addr (p6_address (e_prefix6 e))) / 2 ^ gap e).

Lemma wf_entry_spec e : wf_entry e ->
  wf_prefix6 (e_prefix6 e) /\ wf_prefix4 (e_prefix4 e) /\ 0 <= gap e /\
  suffix_clear 128 (s6_addr (p6_address (e_prefix6 e))) (p6_len (e_prefix6 e)) /\ suffix_clear 32 (s_addr (p4_address (e_prefix4 e))) (p4_len (e_prefix4 e)).
Proof.
  intros (W6 & W4 & Hv). pose proof W6 as [L6 A6]. pose proof W4 as [L4 A4]. unfold validate_prefixes in Hv.
  destruct (prefix6_validate _) as [[]|] eqn:V6; [|done]. destruct (prefix4_validate _) as [[]|] eqn:V4; [|done].
  apply prefix6_validate_clear in V6 as [_ S6]; [|lia|done]. apply prefix4_validate_clear in V4 as [_ S4]; [|lia|done].
  unfold ADDR6_BITS, ADDR4_BITS in Hv. destruct (Z.ltb_spec (128 - p6_len (e_prefix6 e)) (32 - p4_len (e_prefix4 e))); [done|]. unfold gap. split_and!; done || lia.
Qed.

Lemma member4 e a : wf_entry e -> wf_addr4 a -> prefix4_contains (e_prefix4 e) a = true ->
  0 <= s_addr a - s_addr (p4_address (e_prefix4 e)) < 2 ^ (32 - p4_len (e_prefix4 e)).
Proof.
  intros (_ & (L4 & A4) & _ & _ & S4)%wf_entry_spec Ha Hc. apply prefix4_contains_interval in Hc; [|done..]. lia.
Qed.

Lemma member6 e a : wf_entry e -> wf_addr6 a -> prefix6_contains (e_prefix6 e) a = true ->
  0 <= s6_addr a - s6_addr (p6_address (e_prefix6 e)) < 2 ^ (128 - p6_len (e_prefix6 e)).
Proof.
  intros ((L6 & A6) & _ & _ & S6 & _)%wf_entry_spec Ha Hc. apply prefix6_contains_interval in Hc; [|done..]. lia.
Qed.

Lemma suffix_bits w x len k : 0 <= len <= w -> 0 <= x -> suffix_clear w x len -> 0 <= k < w - len -> Z.testbit x k = false.
Proof. intros Hl Hx Hs. apply suffix_clear_bits; done. Qed.

Lemma copy_4to6_embed e a : wf_entry e -> wf_addr4 a -> prefix4_contains (e_prefix4 e) a = true ->
  copy_4to6 (Z.to_nat (ADDR4_BITS - p4_len (e_prefix4 e))) 0 e a (p6_address (e_prefix6 e)) = embed e a.
Proof.
  intros We Ha Hc. pose proof (member4 e a We Ha Hc) as Hd. destruct (wf_entry_spec e We) as (W6 & W4 & Hg & S6 & S4). pose proof W6 as [L6 A6]. pose proof W4 as [L4 A4].
  unfold ADDR4_BITS, suffix_clear, gap in *. set (l4 := p4_len (e_prefix4 e)) in *. set (l6 := p6_len (e_prefix6 e)) in *.
  destruct (copy_4to6_bits e a (Z.to_nat (32 - l4)) 0 (p6_address (e_prefix6 e))) as [Hw Hb]; [lia|done|done|done|lia|lia|]. fold l4 l6 in Hb. unfold embed. fold l4 l6.
  destruct (copy_4to6 _ _ _ _ _) as [c]. cbn [s6_addr] in *. f_equal. set (d := s_addr a - s_addr (p4_address (e_prefix4 e))) in *.
  assert (Ha' : forall k, 0 <= k < 32 - l4 -> Z.testbit (s_addr a) k = Z.testbit d k).
  { intros k Hk. replace (s_addr a) with (s_addr (p4_address (e_prefix4 e)) + d) by lia. rewrite (testbit_join _ _ (32 - l4)) by (done || lia). destruct (Z.ltb_spec k (32 - l4)); [done|lia]. }
  assert (Hy : 0 <= d * 2 ^ gap e < 2 ^ (128 - l6)).
  { unfold gap. fold l4 l6. replace (2 ^ (128 - l6)) with (2 ^ (32 - l4) * 2 ^ (128 - l6 - (32 - l4))) by (rewrite <- Z.pow_add_r by lia; f_equal; lia). nia. }
  apply Z.bits_inj'. intros k Hk. rewrite (testbit_join _ _ (128 - l6)) by (done || lia). destruct (Z.lt_ge_cases k 128).
  - rewrite Hb by lia. destruct (Z.leb_spec (128 - l6 - 0 - Z.of_nat (Z.to_nat (32 - l4))) k), (Z.ltb_spec k (128 - l6 - 0)), (Z.ltb_spec k (128 - l6)); cbn [andb]; try lia; try done.
    + rewrite Ha', Z.mul_pow2_bits by (unfold gap; fold l4 l6; lia). f_equal. unfold gap. fold l4 l6. lia.
    + rewrite Z.mul_pow2_bits, (Z.testbit_neg_r d) by (unfold gap; fold l4 l6; lia). apply (suffix_bits 128 _ l6); done || lia || apply A6.
  - rewrite (testbit_high c 128), (testbit_high (s6_addr (p6_address (e_prefix6 e))) 128) by (done || lia). destruct (Z.ltb_spec k (128 - l6)); [lia|done].
Qed.

Lemma copy_6to4_extract e a : wf_entry e -> wf_addr6 a -> prefix6_contains (e_prefix6 e) a = true ->
  copy_6to4 (Z.to_nat (ADDR4_BITS - p4_len (e_prefix4 e))) 0 e a (p4_address (e_prefix4 e)) = extract e a.
Proof.
  intros We Ha Hc. pose proof (member6 e a We Ha Hc) as Hd. destruct (wf_entry_spec e We) as (W6 & W4 & Hg & S6 & S4). pose proof W6 as [L6 A6]. pose proof W4 as [L4 A4].
  unfold ADDR4_BITS, suffix_clear in *. set (l4 := p4_len (e_prefix4 e)) in *. set (l6 := p6_len (e_prefix6 e)) in *.
  destruct (copy_6to4_bits e a (Z.to_nat (32 - l4)) 0 (p4_address (e_prefix4 e))) as [Hw Hb]; [lia|done|done|done|lia|unfold gap in Hg; fold l4 l6 in Hg; lia|]. fold l4 l6 in Hb. unfold extract.
  destruct (copy_6to4 _ _ _ _ _) as [c]. cbn [s_addr] in *. f_equal. set (d := s6_addr a - s6_addr (p6_address (e_prefix6 e))) in *.
  assert (Ha' : forall k, 0 <= k < 128 - l6 -> Z.testbit (s6_addr a) k = Z.testbit d k).
  { intros k Hk. replace (s6_addr a) with (s6_addr (p6_address (e_prefix6 e)) + d) by lia. rewrite (testbit_join _ _ (128 - l6)) by (done || lia). destruct (Z.ltb_spec k (128 - l6)); [done|lia]. }
  assert (Hy : 0 <= d / 2 ^ gap e < 2 ^ (32 - l4)).
  { split; [apply Z.div_pos; lia|]. apply Z.div_lt_upper_bound; [lia|]. rewrite <- Z.pow_add_r by lia. replace (gap e + (32 - l4)) with (128 - l6) by (unfold gap; fold l4 l6; lia). lia. }
  apply Z.bits_inj'. intros k Hk. rewrite (testbit_join _ _ (32 - l4)) by (done || lia). destruct (Z.lt_ge_cases k 32).
  - rewrite Hb by lia. destruct (Z.leb_spec (32 - l4 - 0 - Z.of_nat (Z.to_nat (32 - l4))) k), (Z.ltb_spec k (32 - l4 - 0)), (Z.ltb_spec k (32 - l4)); cbn [andb]; try lia; try done.
    rewrite Ha', Z.div_pow2_bits by (unfold gap in *; fold l4 l6 in Hg; lia). f_equal. unfold gap. fold l4 l6. lia.
  - rewrite (testbit_high c 32), (testbit_high (s_addr (p4_address (e_prefix4 e))) 32) by (done || lia). destruct (Z.ltb_spec k (32 - l4)); [lia|done].
Qed.

Lemma extract_embed e a : wf_entry e -> extract e (embed e a) = a.
Proof.
  intros (_ & _ & Hg & _)%wf_entry_spec. unfold extract, embed. destruct a as [a]. cbn [s_addr s6_addr]. f_equal.
  replace (s6_addr (p6_address (e_prefix6 e)) + (a - s_addr (p4_address (e_prefix4 e))) * 2 ^ gap e - s6_addr (p6_address (e_prefix6 e)))
    with ((a - s_addr (p4_address (e_prefix4 e))) * 2 ^ gap e) by lia.
  rewrite Z.div_mul by lia. lia.
Qed.

Lemma embed_wf e a : wf_entry e -> wf_addr4 a -> prefix4_contains (e_prefix4 e) a = true -> wf_addr6 (embed e a).
Proof.
  intros We Ha Hc. rewrite <- copy_4to6_embed by done. destruct (wf_entry_spec e We) as ((L6 & A6) & (L4 & A4) & Hg & _). unfold gap in Hg.
  apply copy_4to6_bits; unfold ADDR4_BITS; (split; done) || done || lia.
Qed.

Lemma extract_wf e a : wf_entry e -> wf_addr6 a -> prefix6_contains (e_prefix6 e) a = true -> wf_addr4 (extract e a).
Proof.
  intros We Ha Hc. rewrite <- copy_6to4_extract by done. destruct (wf_entry_spec e We) as ((L6 & A6) & (L4 & A4) & Hg & _). unfold gap in Hg.
  apply copy_6to4_bits; unfold ADDR4_BITS; (split; done) || done || lia.
Qed.

Lemma embed_member e a : wf_entry e -> wf_addr4 a -> prefix4_contains (e_prefix4 e) a = true -> prefix6_contains (e_prefix6 e) (embed e a) = true.
Proof.
  intros We Ha Hc. pose proof (member4 e a We Ha Hc) as Hd. destruct (wf_entry_spec e We) as ((L6 & A6) & (L4 & A4) & Hg & S6 & S4).
  apply prefix6_contains_interval; [done..|]. unfold embed. cbn [s6_addr].
  replace (2 ^ (128 - p6_len (e_prefix6 e))) with (2 ^ (32 - p4_len (e_prefix4 e)) * 2 ^ gap e) by (rewrite <- Z.pow_add_r by lia; f_equal; unfold gap; lia). nia.
Qed.

Lemma extract_member e a : wf_entry e -> wf_addr6 a -> prefix6_contains (e_prefix6 e) a = true -> prefix4_contains (e_prefix4 e) (extract e a) = true.
Proof.
  intros We Ha Hc. pose proof (member6 e a We Ha Hc) as Hd. pose proof (extract_wf e a We Ha Hc) as Hw. destruct (wf_entry_spec e We) as ((L6 & A6) & (L4 & A4) & Hg & S6 & S4).
  apply prefix4_contains_interval; [done..|]. unfold extract. cbn [s_addr]. set (d := s6_addr a - _) in *.
  assert (0 <= d / 2 ^ gap e < 2 ^ (32 - p4_len (e_prefix4 e))); [|lia]. split; [apply Z.div_pos; lia|]. apply Z.div_lt_upper_bound; [lia|].
  rewrite <- Z.pow_add_r by lia. replace (gap e + (32 - p4_len (e_prefix4 e))) with (128 - p6_len (e_prefix6 e)) by (unfold gap; lia). lia.
Qed.

(** ** The table *)

Lemma inv_wf T t e : eam_inv T t -> e ∈ T -> wf_entry e.
Proof. intros (_ & _ & _ & Hw) He. rewrite Forall_forall in Hw. apply Hw, He. Qed.

(** At most one entry has an address. *)
Lemma unique6 T t e1 e2 a : eam_inv T t -> wf_addr6 a -> e1 ∈ T -> e2 ∈ T ->
  prefix6_contains (e_prefix6 e1) a = true -> prefix6_contains (e_prefix6 e2) a = true -> e1 = e2.
Proof.
  intros Ht Ha H1 H2 C1 C2. pose proof (inv_wf _ _ _ Ht H1) as (W1 & _). pose proof (inv_wf _ _ _ Ht H2) as (W2 & _). destruct Ht as (H6 & _).
  assert (I1 : entry6 e1 ∈ map entry6 T) by (apply list_elem_of_fmap; eauto). assert (I2 : entry6 e2 ∈ map entry6 T) by (apply list_elem_of_fmap; eauto).
  apply prefix6_contains_key in C1, C2; [|done..]. destruct (prefix_weak_total _ _ _ C1 C2) as [Hp|Hp].
  - pose proof (has_entries_apart _ _ _ _ H6 I1 I2 Hp) as E. injection E as _ ->. done.
  - pose proof (has_entries_apart _ _ _ _ H6 I2 I1 Hp) as E. injection E as _ ->. done.
Qed.

Lemma unique4 T t e1 e2 a : eam_inv T t -> wf_addr4 a -> e1 ∈ T -> e2 ∈ T ->
  prefix4_contains (e_prefix4 e1) a = true -> prefix4_contains (e_prefix4 e2) a = true -> e1 = e2.
Proof.
  intros Ht Ha H1 H2 C1 C2. pose proof (inv_wf _ _ _ Ht H1) as (_ & W1 & _). pose proof (inv_wf _ _ _ Ht H2) as (_ & W2 & _). destruct Ht as (_ & H4 & _).
  assert (I1 : entry4 e1 ∈ map entry4 T) by (apply list_elem_of_fmap; eauto). assert (I2 : entry4 e2 ∈ map entry4 T) by (apply list_elem_of_fmap; eauto).
  apply prefix4_contains_key in C1, C2; [|done..]. destruct (prefix_weak_total _ _ _ C1 C2) as [Hp|Hp].
  - pose proof (has_entries_apart _ _ _ _ H4 I1 I2 Hp) as E. injection E as _ ->. done.
  - pose proof (has_entries_apart _ _ _ _ H4 I2 I1 Hp) as E. injection E as _ ->. done.
Qed.

Lemma xlat46_run T t a : eam_inv T t -> wf_addr4 a -> exists r, eamt_xlat_4to6 a t = Some (r, t) /\
  match r with
  | Ok a6 => exists e, e ∈ T /\ prefix4_contains (e_prefix4 e) a = true /\ a6 = embed e a
  | Err x => x = ESRCH /\ forall e, e ∈ T -> prefix4_contains (e_prefix4 e) a = false
  end.
Proof.
  intros Ht Ha. destruct (get4_run T t (Prefix4 a 32) Ht) as (r & Hrun & Hr); [split; done|]. unfold eamt_xlat_4to6. rewrite (bind_run _ _ _ _ _ Hrun).
  eexists. split; [reflexivity|]. destruct r as [e|x].
  - destruct Hr as [He Hp]. pose proof (inv_wf _ _ _ Ht He) as We. exists e. change (prefix4_to_key (Prefix4 a 32)) with (addr4_to_key a 32) in Hp. rewrite prefix4_contains_key in Hp by (apply We || done). rewrite copy_4to6_embed by done. done.
  - destruct Hr as [-> Hr]. split; [done|]. intros e He. apply not_true_iff_false. intros Hc. pose proof (inv_wf _ _ _ Ht He) as We.
    apply (Hr e He). change (prefix4_to_key (Prefix4 a 32)) with (addr4_to_key a 32). rewrite prefix4_contains_key by (apply We || done). done.
Qed.

Lemma xlat64_run T t a : eam_inv T t -> wf_addr6 a -> exists r, eamt_xlat_6to4 a t = Some (r, t) /\
  match r with
  | Ok a4 => exists e, e ∈ T /\ prefix6_contains (e_prefix6 e) a = true /\ a4 = extract e a
  | Err x => x = ESRCH /\ forall e, e ∈ T -> prefix6_contains (e_prefix6 e) a = false
  end.
Proof.
  intros Ht Ha. destruct (get6_run T t (Prefix6 a 128) Ht) as (r & Hrun & Hr); [split; done|]. unfold eamt_xlat_6to4. rewrite (bind_run _ _ _ _ _ Hrun).
  eexists. split; [reflexivity|]. destruct r as [e|x].
  - destruct Hr as [He Hp]. pose proof (inv_wf _ _ _ Ht He) as We. exists e. change (prefix6_to_key (Prefix6 a 128)) with (addr6_to_key a 128) in Hp. rewrite prefix6_contains_key in Hp by (apply We || done). rewrite copy_6to4_extract by done. done.
  - destruct Hr as [-> Hr]. split; [done|]. intros e He. apply not_true_iff_false. intros Hc. pose proof (inv_wf _ _ _ Ht He) as We.
    apply (Hr e He). change (prefix6_to_key (Prefix6 a 128)) with (addr6_to_key a 128). rewrite prefix6_contains_key by (apply We || done). done.
Qed.

Lemma xlat46_some T t e a : eam_inv T t -> wf_addr4 a -> e ∈ T -> prefix4_contains (e_prefix4 e) a = true -> eamt_xlat_4to6 a t = Some (Ok (embed e a), t).
Proof.
  intros Ht Ha He Hc. destruct (xlat46_run T t a Ht Ha) as (r & Hrun & Hr). rewrite Hrun. destruct r as [a6|x].
  - destruct Hr as (e' & He' & Hc' & ->). rewrite (unique4 T t e' e a) by done. done.
  - destruct Hr as [_ Hr]. rewrite (Hr e He) in Hc. done.
Qed.

Lemma xlat64_some T t e a : eam_inv T t -> wf_addr6 a -> e ∈ T -> prefix6_contains (e_prefix6 e) a = true -> eamt_xlat_6to4 a t = Some (Ok (extract e a), t).
Proof.
  intros Ht Ha He Hc. destruct (xlat64_run T t a Ht Ha) as (r & Hrun & Hr). rewrite Hrun. destruct r as [a4|x].
  - destruct Hr as (e' & He' & Hc' & ->). rewrite (unique6 T t e' e a) by done. done.
  - destruct Hr as [_ Hr]. rewrite (Hr e He) in Hc. done.
Qed.

(** ** Additions *)

Lemma validate_overlapping_run T t p6 p4 : eam_inv T t -> wf_prefix6 p6 -> wf_prefix4 p4 ->
  exists r, validate_overlapping p6 p4 t = Some (r, t) /\
    (r = Err EEXIST /\ (exists e, e ∈ T /\ (prefix6_contains (e_prefix6 e) (p6_address p6) = true \/ prefix4_contains (e_prefix4 e) (p4_address p4) = true)) \/
     r = Ok tt /\ forall e, e ∈ T -> prefix6_contains (e_prefix6 e) (p6_address p6) = false /\ prefix4_contains (e_prefix4 e) (p4_address p4) = false).
Proof.
  intros Ht [L6 A6] [L4 A4]. unfold validate_overlapping.
  destruct (get6_run T t (Prefix6 (p6_address p6) 128) Ht) as (r & Hrun & Hr); [split; done|]. change (prefix6_to_key (Prefix6 (p6_address p6) 128)) with (addr6_to_key (p6_address p6) 128) in *.
  rewrite (bind_run _ _ _ _ _ Hrun). destruct r as [e|x].
  - destruct Hr as [He Hp]. exists (Err EEXIST). split; [done|]. left. split; [done|]. exists e. split; [done|]. left.
    rewrite prefix6_contains_key in Hp by (apply (inv_wf _ _ _ Ht He) || done). done.
  - destruct Hr as [_ Hr]. destruct (get4_run T t (Prefix4 (p4_address p4) 32) Ht) as (r & Hrun4 & Hr4); [split; done|].
    change (prefix4_to_key (Prefix4 (p4_address p4) 32)) with (addr4_to_key (p4_address p4) 32) in *. rewrite (bind_run _ _ _ _ _ Hrun4). destruct r as [e|y].
    + destruct Hr4 as [He Hp]. exists (Err EEXIST). split; [done|]. left. split; [done|]. exists e. split; [done|]. right.
      rewrite prefix4_contains_key in Hp by (apply (inv_wf _ _ _ Ht He) || done). done.
    + destruct Hr4 as [_ Hr4]. exists (Ok tt). split; [done|]. right. split; [done|]. intros e He. pose proof (inv_wf _ _ _ Ht He) as We.
      split; apply not_true_iff_false; intros Hc.
      * apply (Hr e He). rewrite prefix6_contains_key by (apply We || done). done.
      * apply (Hr4 e He). rewrite prefix4_contains_key by (apply We || done). done.
Qed.

(** A prefix apart from another does not have its first address either. *)
Lemma apart6_first p q : wf_prefix6 p -> wf_prefix6 q -> apart6 p q -> prefix6_contains q (p6_address p) = false.
Proof.
  intros Wp Wq [H1 H2]. apply not_true_iff_false. intros Hc. rewrite <- prefix6_contains_key in Hc by (done || apply Wp).
  assert (Hp : kbits (prefix6_to_key p) `prefix_of` kbits (addr6_to_key (p6_address p) 128)).
  { rewrite prefix6_contains_key by (done || apply Wp). apply prefix6_contains_bits; (apply Wp || done). }
  destruct (prefix_weak_total _ _ _ Hp Hc); auto.
Qed.

Lemma apart4_first p q : wf_prefix4 p -> wf_prefix4 q -> apart4 p q -> prefix4_contains q (p4_address p) = false.
Proof.
  intros Wp Wq [H1 H2]. apply not_true_iff_false. intros Hc. rewrite <- prefix4_contains_key in Hc by (done || apply Wp).
  assert (Hp : kbits (prefix4_to_key p) `prefix_of` kbits (addr4_to_key (p4_address p) 32)).
  { rewrite prefix4_contains_key by (done || apply Wp). apply prefix4_contains_bits; (apply Wp || done). }
  destruct (prefix_weak_total _ _ _ Hp Hc); auto.
Qed.

(** The two prefixes are the same, whatever follows their bits. *)
Definition same6 (p q : ipv6_prefix) : Prop := kbits (prefix6_to_key p) = kbits (prefix6_to_key q).
Definition same4 (p q : ipv4_prefix) : Prop := kbits (prefix4_to_key p) = kbits (prefix4_to_key q).

Lemma same6_iff p q : wf_prefix6 p -> wf_prefix6 q -> same6 p q <-> p6_len p = p6_len q /\ prefix6_contains p (p6_address q) = true.
Proof.
  intros [Lp Ap] [Lq Aq]. rewrite prefix6_contains_bits by done. unfold same6, prefix6_to_key, addr6_to_key. split.
  - intros E. assert (H : forall a b : list bool, a = b -> a `prefix_of` b /\ b `prefix_of` a) by (intros ? ? ->; done). apply H in E as [H1 H2]. clear H.
    rewrite kbits_prefix in H1, H2 by lia. change (8 * Z.of_nat 16) with 128 in *. split; [lia|apply H1].
  - intros [El Hb]. apply (anti_symm (@prefix bool)); rewrite kbits_prefix by lia; change (8 * Z.of_nat 16) with 128; (split; [lia|]); intros k Hk; [|symmetry]; apply Hb; lia.
Qed.

Lemma same4_iff p q : wf_prefix4 p -> wf_prefix4 q -> same4 p q <-> p4_len p = p4_len q /\ prefix4_contains p (p4_address q) = true.
Proof.
  intros [Lp Ap] [Lq Aq]. rewrite prefix4_contains_bits by done. unfold same4, prefix4_to_key, addr4_to_key. split.
  - intros E. assert (H : forall a b : list bool, a = b -> a `prefix_of` b /\ b `prefix_of` a) by (intros ? ? ->; done). apply H in E as [H1 H2]. clear H.
    rewrite kbits_prefix in H1, H2 by lia. change (8 * Z.of_nat 4) with 32 in *. split; [lia|apply H1].
  - intros [El Hb]. apply (anti_symm (@prefix bool)); rewrite kbits_prefix by lia; change (8 * Z.of_nat 4) with 32; (split; [lia|]); intros k Hk; [|symmetry]; apply Hb; lia.
Qed.

(** The table has room for an entry. *)
Definition fresh6 (p : ipv6_prefix) (T : list eamt_entry) : Prop := forall e, e ∈ T -> apart6 p (e_prefix6 e).
Definition fresh4 (p : ipv4_prefix) (T : list eamt_entry) : Prop := forall e, e ∈ T -> apart4 p (e_prefix4 e).

(** Some allocation fails. *)
Definition no_memory (t : eam_table) : Prop := false ∈ rt_allocs (trie6 t) \/ false ∈ rt_allocs (trie4 t).

(** The part of an addition that follows the validations. *)
Definition insert_entry (new : eamt_entry) : M eam_table (result unit) :=
  error ← eamt_add6 new;
  match error with
  | Err e => mret (Err e)
  | Ok _ =>
      error ← eamt_add4 new;
      match error with
      | Err e => revert_add6 (e_prefix6 new);; mret (Err e)
      | Ok _ => set_count (fun n => u64 (n + 1));; mret (Ok tt)
      end
  end.

Lemma u64_succ n : u64 (u64 (Z.of_nat n) + 1) = u64 (Z.of_nat (S n)).
Proof. unfold u64. rewrite Z.add_mod_idemp_l by lia. f_equal. lia. Qed.

Lemma u64_pred n : u64 (u64 (Z.of_nat (S n)) - 1) = u64 (Z.of_nat n).
Proof. unfold u64. rewrite Zminus_mod_idemp_l. f_equal. lia. Qed.

Lemma fresh6_apart p T : fresh6 p T -> apart (kbits (prefix6_to_key p)) (map entry6 T).
Proof. intros H e (e' & -> & He)%list_elem_of_fmap. apply H, He. Qed.

Lemma fresh4_apart p T : fresh4 p T -> apart (kbits (prefix4_to_key p)) (map entry4 T).
Proof. intros H e (e' & -> & He)%list_elem_of_fmap. apply H, He. Qed.

(** The removal of the IPv6 half of an entry that was just added. *)
Lemma revert_run T s6 s4 n p6 p4 : has_entries s6 (map entry6 (EamtEntry p6 p4 :: T)) -> has_entries s4 (map entry4 T) ->
  n = u64 (Z.of_nat (length T)) -> Forall wf_entry T -> wf_prefix6 p6 ->
  exists t', revert_add6 p6 (EamTable s6 s4 n) = Some (tt, t') /\ eam_inv T t'.
Proof.
  intros H6 H4 Hn HT [Lp _]. unfold revert_add6. destruct (rm_run s6 _ (prefix6_to_key p6) H6 (key6_wf _ _ Lp)) as (r & s' & Hrun & Hr).
  rewrite (bind_run _ _ _ _ _ (on6_run _ (EamTable s6 s4 n) _ _ Hrun)). eexists. split; [reflexivity|]. cbn [trie4 eam_count].
  destruct Hr as [(v & E' & _ & Hp & Hs')|(_ & _ & Hno)].
  - split_and!; try done. cbn [trie6]. apply (has_entries_perm _ E'); [|done].
    assert (Hin : (kbits (prefix6_to_key p6), v) ∈ map entry6 (EamtEntry p6 p4 :: T)) by (rewrite Hp; left).
    assert (Hin0 : (kbits (prefix6_to_key p6), EamtEntry p6 p4) ∈ map entry6 (EamtEntry p6 p4 :: T)) by left.
    pose proof (has_entries_apart _ _ _ _ H6 Hin Hin0 (reflexivity _)) as [= ->]. symmetry. apply (Permutation_cons_inv (a := (kbits (prefix6_to_key p6), EamtEntry p6 p4))). exact Hp.
  - exfalso. apply Hno. left.
Qed.

Lemma insert_fresh T t p6 p4 : eam_inv T t -> wf_entry (EamtEntry p6 p4) -> fresh6 p6 T -> fresh4 p4 T ->
  exists r t', insert_entry (EamtEntry p6 p4) t = Some (r, t') /\
    (r = Ok tt /\ eam_inv (EamtEntry p6 p4 :: T) t' \/ r = Err ENOMEM /\ eam_inv T t' /\ no_memory t).
Proof.
  intros (H6 & H4 & Hn & HT) We F6 F4. pose proof We as ([L6 A6] & [L4 A4] & _). cbn [e_prefix6 e_prefix4] in *. unfold insert_entry, eamt_add6, eamt_add4. cbn [e_prefix6 e_prefix4].
  destruct (add_run _ _ (prefix6_to_key p6) (EamtEntry p6 p4) H6 (key6_wf _ _ L6) (fresh6_apart _ _ F6)) as (r & s6 & Hrun & Hr).
  rewrite (bind_run _ _ _ _ _ (on6_run _ t _ _ Hrun)). destruct Hr as [[-> Hs6]|(-> & Hs6 & Hf)].
  - destruct (add_run _ _ (prefix4_to_key p4) (EamtEntry p6 p4) H4 (key4_wf' _ _ L4) (fresh4_apart _ _ F4)) as (r & s4 & Hrun4 & Hr4).
    rewrite (bind_run _ _ _ _ _ (on4_run _ (EamTable s6 (trie4 t) (eam_count t)) _ _ Hrun4)). cbn [trie6 trie4 eam_count]. destruct Hr4 as [[-> Hs4]|(-> & Hs4 & Hf)].
    + eexists _, _. split; [reflexivity|]. left. split; [done|]. split_and!; [exact Hs6|exact Hs4| |constructor; done]. cbn [eam_count]. rewrite Hn. apply u64_succ.
    + destruct (revert_run T s6 s4 (eam_count t) p6 p4 Hs6 Hs4 Hn HT (conj L6 A6)) as (t' & Hrev & Ht'). rewrite (bind_run _ _ _ _ _ Hrev).
      eexists _, t'. split; [reflexivity|]. right. split; [done|]. split; [done|]. right. done.
  - eexists _, _. split; [reflexivity|]. right. split; [done|]. split; [split_and!; done|]. left. done.
Qed.

(** An entry one of whose prefixes is there is refused, and what was added of it is removed. *)
Lemma insert_known T t p6 p4 : eam_inv T t -> wf_entry (EamtEntry p6 p4) ->
  (exists e, e ∈ T /\ same6 p6 (e_prefix6 e)) \/ fresh6 p6 T /\ (exists e, e ∈ T /\ same4 p4 (e_prefix4 e)) ->
  exists r t', insert_entry (EamtEntry p6 p4) t = Some (r, t') /\ eam_inv T t' /\ (r = Err EEXIST \/ r = Err ENOMEM /\ no_memory t).
Proof.
  intros (H6 & H4 & Hn & HT) We Hk. pose proof We as ([L6 A6] & [L4 A4] & _). cbn [e_prefix6 e_prefix4] in *. unfold insert_entry, eamt_add6, eamt_add4. cbn [e_prefix6 e_prefix4].
  destruct Hk as [(e & He & Hs)|[F6 (e & He & Hs)]].
  - destruct (add_again _ _ (prefix6_to_key p6) (EamtEntry p6 p4) H6 (key6_wf _ _ L6)) as (r & s6 & Hrun & Hs6 & Hr).
    { rewrite Hs. apply list_elem_of_fmap. exists (entry6 e). split; [done|]. apply list_elem_of_fmap. eauto. }
    rewrite (bind_run _ _ _ _ _ (on6_run _ t _ _ Hrun)). destruct Hr as [->|[-> Hf]]; (eexists _, _; split; [reflexivity|]; split; [split_and!; done|]); [left; done|right; split; [done|left; done]].
  - destruct (add_run _ _ (prefix6_to_key p6) (EamtEntry p6 p4) H6 (key6_wf _ _ L6) (fresh6_apart _ _ F6)) as (r & s6 & Hrun & Hr).
    rewrite (bind_run _ _ _ _ _ (on6_run _ t _ _ Hrun)). destruct Hr as [[-> Hs6]|(-> & Hs6 & Hf)].
    + destruct (add_again _ _ (prefix4_to_key p4) (EamtEntry p6 p4) H4 (key4_wf' _ _ L4)) as (r & s4 & Hrun4 & Hs4 & Hr4).
      { rewrite Hs. apply list_elem_of_fmap. exists (entry4 e). split; [done|]. apply list_elem_of_fmap. eauto. }
      rewrite (bind_run _ _ _ _ _ (on4_run _ (EamTable s6 (trie4 t) (eam_count t)) _ _ Hrun4)). cbn [trie6 trie4 eam_count].
      destruct (revert_run T s6 s4 (eam_count t) p6 p4 Hs6 Hs4 Hn HT (conj L6 A6)) as (t' & Hrev & Ht').
      destruct Hr4 as [->|[-> Hf]]; rewrite (bind_run _ _ _ _ _ Hrev); (eexists _, t'; split; [reflexivity|]; split; [done|]); [left; done|right; split; [done|right; done]].
    + eexists _, _. split; [reflexivity|]. split; [split_and!; done|]. right. split; [done|]. left. done.
Qed.

(** ** Removals *)

Lemma trie_rm_run {p : eamt_entry -> list bool} s T e T' key : has_entries s (map (fun e => (p e, e)) T) -> Permutation T (e :: T') -> wf_key key -> kbits key = p e ->
  exists s', rtrie_rm key s = Some (Ok tt, s') /\ has_entries s' (map (fun e => (p e, e)) T').
Proof.
  intros Hs HT Wk Ek. destruct (rm_run s _ key Hs Wk) as (r & s' & Hrun & Hr).
  assert (Hin : (p e, e) ∈ map (fun e => (p e, e)) T) by (rewrite HT; left). destruct Hr as [(v & E' & -> & Hp & Hs')|(_ & _ & Hno)].
  - exists s'. split; [exact Hrun|]. apply (has_entries_perm _ E'); [|done]. rewrite Ek in Hp.
    assert (Hv : (p e, v) ∈ map (fun e => (p e, e)) T) by (rewrite Hp; left). pose proof (has_entries_apart _ _ _ _ Hs Hv Hin (reflexivity _)) as [= ->].
    symmetry. apply (Permutation_cons_inv (a := (p e, e))). rewrite <- Hp, HT. done.
  - exfalso. apply Hno. rewrite Ek. apply list_elem_of_fmap. exists (p e, e). done.
Qed.

Lemma rm_both_run T t e p6 p4 : eam_inv T t -> e ∈ T -> wf_prefix6 p6 -> wf_prefix4 p4 -> same6 p6 (e_prefix6 e) -> same4 p4 (e_prefix4 e) ->
  exists t' T', eamt_rm_both p6 p4 t = Some (Ok tt, t') /\ Permutation T (e :: T') /\ eam_inv T' t'.
Proof.
  intros (H6 & H4 & Hn & HT) He [L6 _] [L4 _] S6 S4. apply elem_of_Permutation in He as [T' HP]. unfold eamt_rm_both.
  destruct (trie_rm_run (p := fun e => kbits (prefix6_to_key (e_prefix6 e))) _ T e T' (prefix6_to_key p6) H6 HP (key6_wf _ _ L6) S6) as (s6 & Hrun6 & Hs6).
  destruct (trie_rm_run (p := fun e => kbits (prefix4_to_key (e_prefix4 e))) _ T e T' (prefix4_to_key p4) H4 HP (key4_wf' _ _ L4) S4) as (s4 & Hrun4 & Hs4).
  rewrite (bind_run _ _ _ _ _ (on6_run _ t _ _ Hrun6)), (bind_run _ _ _ _ _ (on4_run _ (EamTable s6 (trie4 t) (eam_count t)) _ _ Hrun4)).
  eexists _, T'. split; [reflexivity|]. split; [exact HP|]. split_and!; [exact Hs6|exact Hs4| |].
  - cbn [eam_count]. rewrite Hn, HP. apply u64_pred.
  - rewrite HP in HT. apply Forall_cons in HT as [_ HT]. exact HT.
Qed.

Lemma same6_unique T t e1 e2 p : eam_inv T t -> e1 ∈ T -> e2 ∈ T -> same6 p (e_prefix6 e1) -> same6 p (e_prefix6 e2) -> e1 = e2.
Proof.
  intros (H6 & _) H1 H2 S1 S2. assert (I1 : entry6 e1 ∈ map entry6 T) by (apply list_elem_of_fmap; eauto). assert (I2 : entry6 e2 ∈ map entry6 T) by (apply list_elem_of_fmap; eauto).
  pose proof (has_entries_apart _ _ _ _ H6 I1 I2) as E. unfold entry6 at 1 2 in E. cbn [fst] in E. rewrite <- S1, S2 in E. specialize (E (reflexivity _)). injection E as _ ->. done.
Qed.

Lemma same4_unique T t e1 e2 p : eam_inv T t -> e1 ∈ T -> e2 ∈ T -> same4 p (e_prefix4 e1) -> same4 p (e_prefix4 e2) -> e1 = e2.
Proof.
  intros (_ & H4 & _) H1 H2 S1 S2. assert (I1 : entry4 e1 ∈ map entry4 T) by (apply list_elem_of_fmap; eauto). assert (I2 : entry4 e2 ∈ map entry4 T) by (apply list_elem_of_fmap; eauto).
  pose proof (has_entries_apart _ _ _ _ H4 I1 I2) as E. unfold entry4 at 1 2 in E. cbn [fst] in E. rewrite <- S1, S2 in E. specialize (E (reflexivity _)). injection E as _ ->. done.
Qed.

Lemma kbits_prefix_len n x y l1 l2 : 0 <= l1 <= 8 * Z.of_nat n -> 0 <= l2 <= 8 * Z.of_nat n -> l1 = l2 ->
  kbits (RtrieKey (be_bytes n x) l1) `prefix_of` kbits (RtrieKey (be_bytes n y) l2) -> kbits (RtrieKey (be_bytes n y) l2) = kbits (RtrieKey (be_bytes n x) l1).
Proof. intros H1 H2 -> Hp. apply (anti_symm (@prefix bool)); [|exact Hp]. rewrite kbits_prefix in Hp |- * by lia. split; [lia|]. intros k Hk. symmetry. apply Hp, Hk. Qed.

Lemma get_exact6_run T t p : eam_inv T t -> wf_prefix6 p -> exists r, get_exact6 p t = Some (r, t) /\
  match r with Ok e => e ∈ T /\ same6 p (e_prefix6 e) | Err x => x = ESRCH /\ forall e, e ∈ T -> ~ same6 p (e_prefix6 e) end.
Proof.
  intros Ht Wp. destruct (get6_run T t p Ht Wp) as (r & Hrun & Hr). unfold get_exact6. rewrite (bind_run _ _ _ _ _ Hrun). eexists. split; [reflexivity|]. destruct r as [e|x].
  - destruct Hr as [He Hp]. pose proof (inv_wf _ _ _ Ht He) as ([Le Ae] & _). destruct Wp as [Lp Ap]. destruct (Z.eqb_spec (p6_len (e_prefix6 e)) (p6_len p)) as [El|Hne].
    + split; [done|]. apply kbits_prefix_len; lia || done.
    + split; [done|]. intros e' He' Hs. apply Hne. assert (e = e') as ->.
      { destruct Ht as (H6 & _). assert (I1 : entry6 e ∈ map entry6 T) by (apply list_elem_of_fmap; eauto). assert (I2 : entry6 e' ∈ map entry6 T) by (apply list_elem_of_fmap; eauto).
        rewrite Hs in Hp. pose proof (has_entries_apart _ _ _ _ H6 I1 I2 Hp) as E. injection E as _ ->. done. }
      pose proof (inv_wf _ _ _ Ht He') as (We' & _). apply same6_iff in Hs as [El _]; [done|split; done|done].
  - destruct Hr as [-> Hr]. split; [done|]. intros e He Hs. apply (Hr e He). rewrite Hs. done.
Qed.

Lemma get_exact4_run T t p : eam_inv T t -> wf_prefix4 p -> exists r, get_exact4 p t = Some (r, t) /\
  match r with Ok e => e ∈ T /\ same4 p (e_prefix4 e) | Err x => x = ESRCH /\ forall e, e ∈ T -> ~ same4 p (e_prefix4 e) end.
Proof.
  intros Ht Wp. destruct (get4_run T t p Ht Wp) as (r & Hrun & Hr). unfold get_exact4. rewrite (bind_run _ _ _ _ _ Hrun). eexists. split; [reflexivity|]. destruct r as [e|x].
  - destruct Hr as [He Hp]. pose proof (inv_wf _ _ _ Ht He) as (_ & [Le Ae] & _). destruct Wp as [Lp Ap]. destruct (Z.eqb_spec (p4_len (e_prefix4 e)) (p4_len p)) as [El|Hne].
    + split; [done|]. apply kbits_prefix_len; lia || done.
    + split; [done|]. intros e' He' Hs. apply Hne. assert (e = e') as ->.
      { destruct Ht as (_ & H4 & _). assert (I1 : entry4 e ∈ map entry4 T) by (apply list_elem_of_fmap; eauto). assert (I2 : entry4 e' ∈ map entry4 T) by (apply list_elem_of_fmap; eauto).
        rewrite Hs in Hp. pose proof (has_entries_apart _ _ _ _ H4 I1 I2 Hp) as E. injection E as _ ->. done. }
      pose proof (inv_wf _ _ _ Ht He') as (_ & We' & _). apply same4_iff in Hs as [El _]; [done|split; done|done].
  - destruct Hr as [-> Hr]. split; [done|]. intros e He Hs. apply (Hr e He). rewrite Hs. done.
Qed.

(** The entry has the prefixes a request names. *)
Definition named (o6 : option ipv6_prefix) (o4 : option ipv4_prefix) (e : eamt_entry) : Prop :=
  (forall p, o6 = Some p -> same6 p (e_prefix6 e)) /\ (forall p, o4 = Some p -> same4 p (e_prefix4 e)).

Lemma eamt_entry_equals_iff a b : eamt_entry_equals a b = true <-> a = b.
Proof.
  unfold eamt_entry_equals. rewrite andb_true_iff, prefix6_equals_iff, prefix4_equals_iff. destruct a as [a6 a4], b as [b6 b4]. cbn. split; [intros [-> ->]; done|intros [= -> ->]; done].
Qed.

Lemma rm_entry_run T t o6 o4 : eam_inv T t -> (o6 <> None \/ o4 <> None) -> (forall p, o6 = Some p -> wf_prefix6 p) -> (forall p, o4 = Some p -> wf_prefix4 p) ->
  exists r t', eamt_rm o6 o4 t = Some (r, t') /\
    ((exists e T', r = Ok tt /\ named o6 o4 e /\ Permutation T (e :: T') /\ eam_inv T' t') \/ (r = Err ESRCH /\ t' = t /\ forall e, e ∈ T -> ~ named o6 o4 e)).
Proof.
  intros Ht Hsome W6 W4. destruct o6 as [p6|], o4 as [p4|]; cbn [eamt_rm]; [| | |destruct Hsome; done].
  - specialize (W6 _ eq_refl). specialize (W4 _ eq_refl). destruct (get_exact6_run T t p6 Ht W6) as ([e6|x] & Hg6 & Hr6); rewrite (bind_run _ _ _ _ _ Hg6).
    2:{ destruct Hr6 as [-> Hr6]. eexists _, t. split; [reflexivity|]. right. split_and!; [done..|]. intros e He [Hn _]. apply (Hr6 e He), Hn. done. }
    destruct (get_exact4_run T t p4 Ht W4) as ([e4|x] & Hg4 & Hr4); rewrite (bind_run _ _ _ _ _ Hg4).
    2:{ destruct Hr4 as [-> Hr4]. eexists _, t. split; [reflexivity|]. right. split_and!; [done..|]. intros e He [_ Hn]. apply (Hr4 e He), Hn. done. }
    destruct Hr6 as [H6 S6], Hr4 as [H4 S4]. destruct (eamt_entry_equals e6 e4) eqn:Eq.
    + apply eamt_entry_equals_iff in Eq as ->. destruct (rm_both_run T t e4 p6 p4 Ht H4 W6 W4 S6 S4) as (t' & T' & Hrun & HP & Ht').
      eexists _, t'. split; [exact Hrun|]. left. exists e4, T'. split_and!; [done| |done..]. split; intros p [= <-]; done.
    + eexists _, t. split; [reflexivity|]. right. split_and!; [done..|]. intros e He [N6 N4]. rewrite (same6_unique T t e6 e p6), (same4_unique T t e4 e p4) in Eq by auto.
      apply not_true_iff_false in Eq. apply Eq, eamt_entry_equals_iff. done.
  - specialize (W6 _ eq_refl). destruct (get_exact6_run T t p6 Ht W6) as ([e6|x] & Hg6 & Hr6); rewrite (bind_run _ _ _ _ _ Hg6).
    + destruct Hr6 as [H6 S6]. pose proof (inv_wf _ _ _ Ht H6) as (_ & We & _). destruct (rm_both_run T t e6 p6 _ Ht H6 W6 We S6 eq_refl) as (t' & T' & Hrun & HP & Ht').
      eexists _, t'. split; [exact Hrun|]. left. exists e6, T'. split_and!; [done| |done..]. split; intros p [= <-]; done.
    + destruct Hr6 as [-> Hr6]. eexists _, t. split; [reflexivity|]. right. split_and!; [done..|]. intros e He [Hn _]. apply (Hr6 e He), Hn. done.
  - specialize (W4 _ eq_refl). destruct (get_exact4_run T t p4 Ht W4) as ([e4|x] & Hg4 & Hr4); rewrite (bind_run _ _ _ _ _ Hg4).
    + destruct Hr4 as [H4 S4]. pose proof (inv_wf _ _ _ Ht H4) as (We & _). destruct (rm_both_run T t e4 _ p4 Ht H4 We W4 eq_refl S4) as (t' & T' & Hrun & HP & Ht').
      eexists _, t'. split; [exact Hrun|]. left. exists e4, T'. split_and!; [done| |done..]. split; intros p [= <-]; done.
    + destruct Hr4 as [-> Hr4]. eexists _, t. split; [reflexivity|]. right. split_and!; [done..|]. intros e He [_ Hn]. apply (Hr4 e He), Hn. done.
Qed.

(** ** The table as a whole *)

Lemma eamt_add_split p6 p4 force t : eamt_add p6 p4 force t =
  match validate_prefixes p6 p4 with
  | Err e => Some (Err e, t)
  | Ok _ =>
      (error ← (if negb force then validate_overlapping p6 p4 else mret (Ok tt));
       match error with Err e => mret (Err e) | Ok _ => insert_entry (EamtEntry p6 p4) end) t
  end.
Proof. unfold eamt_add. destruct (validate_prefixes p6 p4); done. Qed.

Lemma add_fresh T t p6 p4 force : eam_inv T t -> wf_entry (EamtEntry p6 p4) -> fresh6 p6 T -> fresh4 p4 T ->
  exists r t', eamt_add p6 p4 force t = Some (r, t') /\
    (r = Ok tt /\ eam_inv (EamtEntry p6 p4 :: T) t' \/ r = Err ENOMEM /\ eam_inv T t' /\ no_memory t).
Proof.
  intros Ht We F6 F4. rewrite eamt_add_split. pose proof We as (W6 & W4 & Hv). cbn [e_prefix6 e_prefix4] in *. rewrite Hv. destruct force; cbn [negb].
  - apply insert_fresh; done.
  - destruct (validate_overlapping_run T t p6 p4 Ht W6 W4) as (r & Hrun & Hr). rewrite (bind_run _ _ _ _ _ Hrun). destruct Hr as [[-> (e & He & Hc)]|[-> _]]; [|apply insert_fresh; done].
    pose proof (inv_wf _ _ _ Ht He) as (We6 & We4 & _). rewrite (apart6_first p6), (apart4_first p4) in Hc by auto. destruct Hc; done.
Qed.

Lemma add_overlapping T t p6 p4 : eam_inv T t -> wf_entry (EamtEntry p6 p4) ->
  (exists e, e ∈ T /\ (prefix6_contains (e_prefix6 e) (p6_address p6) = true \/ prefix4_contains (e_prefix4 e) (p4_address p4) = true)) ->
  eamt_add p6 p4 false t = Some (Err EEXIST, t).
Proof.
  intros Ht (W6 & W4 & Hv) (e & He & Hc). cbn [e_prefix6 e_prefix4] in *. rewrite eamt_add_split, Hv. cbn [negb].
  destruct (validate_overlapping_run T t p6 p4 Ht W6 W4) as (r & Hrun & Hr). rewrite (bind_run _ _ _ _ _ Hrun). destruct Hr as [[-> _]|[_ Hr]]; [done|].
  destruct (Hr e He) as [E6 E4]. rewrite E6, E4 in Hc. destruct Hc; done.
Qed.

Lemma add_known T t p6 p4 : eam_inv T t -> wf_entry (EamtEntry p6 p4) ->
  (exists e, e ∈ T /\ same6 p6 (e_prefix6 e)) \/ fresh6 p6 T /\ (exists e, e ∈ T /\ same4 p4 (e_prefix4 e)) ->
  exists r t', eamt_add p6 p4 true t = Some (r, t') /\ eam_inv T t' /\ (r = Err EEXIST \/ r = Err ENOMEM /\ no_memory t).
Proof.
  intros Ht We Hk. rewrite eamt_add_split. pose proof We as (_ & _ & Hv). cbn [e_prefix6 e_prefix4] in Hv. rewrite Hv. cbn [negb]. apply insert_known; done.
Qed.

Lemma eamt_flush_run T t : eam_inv T t -> exists t', eamt_flush t = Some (tt, t') /\ eam_inv [] t'.
Proof.
  intros (H6 & H4 & _). destruct (flush_run _ _ H6) as (s6 & R6 & Hs6 & _), (flush_run _ _ H4) as (s4 & R4 & Hs4 & _). unfold eamt_flush.
  rewrite (bind_run _ _ _ _ _ (on6_run _ t _ _ R6)), (bind_run _ _ _ _ _ (on4_run _ (EamTable s6 (trie4 t) (eam_count t)) _ _ R4)).
  eexists. split; [reflexivity|]. split_and!; done.
Qed.

Lemma eamt_foreach_run {B} (cb : eamt_entry -> B -> Z * B) arg T t : eam_inv T t ->
  exists es, Permutation es T /\ eamt_foreach cb arg None t = Some (run_until cb es arg, t).
Proof.
  intros (H6 & _). destruct (foreach_run cb arg _ _ H6) as (vs & Hp & Hrun). exists vs. split.
  - rewrite Hp, <- list_fmap_compose. cbn. rewrite list_fmap_id. done.
  - unfold eamt_foreach. cbn [option_map]. rewrite (on6_run _ _ _ _ Hrun), eam_table_eta. done.
Qed.

Lemma contains6_run T t a : eam_inv T t -> wf_addr6 a ->
  exists b, eamt_contains6 a t = Some (b, t) /\ (b = true <-> exists e, e ∈ T /\ prefix6_contains (e_prefix6 e) a = true).
Proof.
  intros Ht Ha. pose proof Ht as (H6 & _). destruct (contains_run _ _ (addr6_to_key a 128) H6 (key6_wf a 128 ltac:(lia))) as (b & Hrun & Hb).
  exists b. split; [unfold eamt_contains6; rewrite (on6_run _ _ _ _ Hrun), eam_table_eta; done|]. rewrite Hb. split.
  - intros (x & (e & -> & He)%list_elem_of_fmap & Hp). exists e. split; [done|]. cbn [entry6 fst] in Hp. rewrite prefix6_contains_key in Hp by (apply (inv_wf _ _ _ Ht He) || done). done.
  - intros (e & He & Hc). exists (entry6 e). split; [apply list_elem_of_fmap; eauto|]. cbn [entry6 fst]. rewrite prefix6_contains_key by (apply (inv_wf _ _ _ Ht He) || done). done.
Qed.

Lemma contains4_run T t a : eam_inv T t -> wf_addr4 a ->
  exists b, eamt_contains4 a t = Some (b, t) /\ (b = true <-> exists e, e ∈ T /\ prefix4_contains (e_prefix4 e) a = true).
Proof.
  intros Ht Ha. pose proof Ht as (_ & H4 & _). destruct (contains_run _ _ (addr4_to_key a 32) H4 (key4_wf' a 32 ltac:(lia))) as (b & Hrun & Hb).
  exists b. split; [unfold eamt_contains4; rewrite (on4_run _ _ _ _ Hrun), eam_table_eta; done|]. rewrite Hb. split.
  - intros (x & (e & -> & He)%list_elem_of_fmap & Hp). exists e. split; [done|]. cbn [entry4 fst] in Hp. rewrite prefix4_contains_key in Hp by (apply (inv_wf _ _ _ Ht He) || done). done.
  - intros (e & He & Hc). exists (entry4 e). split; [apply list_elem_of_fmap; eauto|]. cbn [entry4 fst]. rewrite prefix4_contains_key by (apply (inv_wf _ _ _ Ht He) || done). done.
Qed.

(** C25: a table of explicit address mappings, whose prefixes do not overlap,
    keeps its two tries in step.  An address belongs to the table exactly when
    some entry's prefix has it.  A valid entry apart from all others is added,
    forced or not; an entry whose prefixes are invalid, whose first addresses
    the table already has (unless forced), or one of whose prefixes is there
    (when forced), is refused and leaves the table's entries as they were, also
    when the IPv6 half had been added by then or memory runs out
    half way.  A forced entry is covered if it overlaps no entry, if its IPv6
    prefix is one of the table's, or if its IPv4 prefix is one and its IPv6
    prefix overlaps none; the other forced entries, which overlap some of
    the table's, are not covered: their IPv6 half may not be taken back
    ([eamt_revert_needs_memory]) and they break the tries.  A removal takes away the entry that has the
    prefixes the request names, and only it, or reports [-ESRCH].  The
    count is the number of entries, a listing visits each of them once, and a
    flush leaves none. *)
Theorem eamt_is_mapping (T : list eamt_entry) (t : eam_table) (Ht : eam_inv T t) :
  (forall a, wf_addr6 a -> exists b, eamt_contains6 a t = Some (b, t) /\ (b = true <-> exists e, e ∈ T /\ prefix6_contains (e_prefix6 e) a = true)) /\
  (forall a, wf_addr4 a -> exists b, eamt_contains4 a t = Some (b, t) /\ (b = true <-> exists e, e ∈ T /\ prefix4_contains (e_prefix4 e) a = true)) /\
  (forall p6 p4 force, wf_entry (EamtEntry p6 p4) -> fresh6 p6 T -> fresh4 p4 T -> exists r t', eamt_add p6 p4 force t = Some (r, t') /\
     (r = Ok tt /\ eam_inv (EamtEntry p6 p4 :: T) t' \/ r = Err ENOMEM /\ eam_inv T t' /\ no_memory t)) /\
  (forall p6 p4 force e, validate_prefixes p6 p4 = Err e -> eamt_add p6 p4 force t = Some (Err e, t)) /\
  (forall p6 p4, wf_entry (EamtEntry p6 p4) ->
     (exists e, e ∈ T /\ (prefix6_contains (e_prefix6 e) (p6_address p6) = true \/ prefix4_contains (e_prefix4 e) (p4_address p4) = true)) ->
     eamt_add p6 p4 false t = Some (Err EEXIST, t)) /\
  (forall p6 p4, wf_entry (EamtEntry p6 p4) ->
     (exists e, e ∈ T /\ same6 p6 (e_prefix6 e)) \/ fresh6 p6 T /\ (exists e, e ∈ T /\ same4 p4 (e_prefix4 e)) ->
     exists r t', eamt_add p6 p4 true t = Some (r, t') /\ eam_inv T t' /\ (r = Err EEXIST \/ r = Err ENOMEM /\ no_memory t)) /\
  (forall o6 o4, o6 <> None \/ o4 <> None -> (forall p, o6 = Some p -> wf_prefix6 p) -> (forall p, o4 = Some p -> wf_prefix4 p) ->
     exists r t', eamt_rm o6 o4 t = Some (r, t') /\
       ((exists e T', r = Ok tt /\ named o6 o4 e /\ Permutation T (e :: T') /\ eam_inv T' t') \/ (r = Err ESRCH /\ t' = t /\ forall e, e ∈ T -> ~ named o6 o4 e))) /\
  eamt_count t = Some (u64 (Z.of_nat (length T)), t) /\
  (forall (B : Type) (cb : eamt_entry -> B -> Z * B) arg, exists es, Permutation es T /\ eamt_foreach cb arg None t = Some (run_until cb es arg, t)) /\
  (exists t', eamt_flush t = Some (tt, t') /\ eam_inv [] t').
Proof.
  split_and!.
  - intros a. apply contains6_run, Ht.
  - intros a. apply contains4_run, Ht.
  - intros. apply add_fresh; done.
  - intros p6 p4 force e He. rewrite eamt_add_split, He. done.
  - intros. apply (add_overlapping T); done.
  - intros. apply add_known; done.
  - intros. apply rm_entry_run; done.
  - unfold eamt_count, gets. destruct Ht as (_ & _ & -> & _). done.
  - intros B cb arg. apply eamt_foreach_run, Ht.
  - apply (eamt_flush_run T t Ht).
Qed.

(** 64:ff9b:1::/96 for 10.0.0.0/8: a suffix of 24 bits, and 8 bits after it. *)
Definition sample6 : ipv6_prefix := Prefix6 (In6Addr (Z.shiftl 0x64ff9b0001 80)) 96.
Definition sample4 : ipv4_prefix := Prefix4 (InAddr 0x0a000000) 8.

Lemma sample_wf : wf_entry (EamtEntry sample6 sample4).
Proof. split_and!; [split; [cbn; lia|split; vm_compute; congruence]|split; [cbn; lia|split; vm_compute; congruence]|reflexivity]. Qed.

(** A table with that entry. *)
Definition sample_table : eam_table := match eamt_add sample6 sample4 false (eamt_init [] []) with Some (_, t) => t | None => eamt_init [] [] end.

Lemma sample_inv : eam_inv [EamtEntry sample6 sample4] sample_table.
Proof.
  destruct (add_fresh [] (eamt_init [] []) sample6 sample4 false (eam_inv_init [] []) sample_wf) as (r & t' & Hrun & Hr); [intros e He; apply not_elem_of_nil in He; done..|].
  unfold sample_table. rewrite Hrun. destruct Hr as [[-> Ht]|(_ & _ & [Hf|Hf])]; [done|apply not_elem_of_nil in Hf; done..].
Qed.

Lemma eamt_is_mapping_witness : exists t', eamt_rm None (Some sample4) sample_table = Some (Ok tt, t') /\ eam_inv [] t'.
Proof.
  destruct (eamt_is_mapping [EamtEntry sample6 sample4] sample_table sample_inv) as (_ & _ & _ & _ & _ & _ & Hrm & _).
  destruct (Hrm None (Some sample4)) as (r & t' & Hrun & [(e & T' & -> & _ & HP & Ht')|(_ & _ & Hno)]); [right; done|done|intros p [= <-]; apply sample_wf| |].
  - exists t'. split; [exact Hrun|]. apply Permutation_length in HP as HL. destruct T' as [|]; [exact Ht'|cbn in HL; lia].
  - exfalso. apply (Hno (EamtEntry sample6 sample4)); [left|]. split; [done|]. intros p [= <-]. done.
Defined.

(** The translations of the table are exact and inverse of each other.
    An IPv4 address that an entry's prefix has is translated to the IPv6
    prefix followed by the address's suffix (and zeros), and that one is
    translated back to it; an IPv6 address of an entry's prefix is translated to
    the IPv4 prefix followed by as many of its next bits as fit, and the
    result is an address the table translates in the other direction.  The
    code's [for] loops over single bits compute the sums and the
    quotients that say so.  An address of no entry is reported as [-ESRCH]. *)
Lemma eamt_roundtrip (T : list eamt_entry) (t : eam_table) (Ht : eam_inv T t) :
  (forall a, wf_addr4 a -> exists r, eamt_xlat_4to6 a t = Some (r, t) /\
     match r with
     | Ok a6 => eamt_xlat_6to4 a6 t = Some (Ok a, t) /\ exists e, e ∈ T /\ prefix4_contains (e_prefix4 e) a = true /\
         s6_addr a6 = s6_addr (p6_address (e_prefix6 e)) + (s_addr a - s_addr (p4_address (e_prefix4 e))) * 2 ^ gap e
     | Err x => x = ESRCH /\ forall e, e ∈ T -> prefix4_contains (e_prefix4 e) a = false
     end) /\
  (forall a6, wf_addr6 a6 -> exists r, eamt_xlat_6to4 a6 t = Some (r, t) /\
     match r with
     | Ok a => (exists a6', eamt_xlat_4to6 a t = Some (Ok a6', t) /\ s6_addr a6' <= s6_addr a6) /\
         exists e, e ∈ T /\ prefix6_contains (e_prefix6 e) a6 = true /\
           s_addr a = s_addr (p4_address (e_prefix4 e)) + (s6_addr a6 - s6_addr (p6_address (e_prefix6 e))) / 2 ^ gap e
     | Err x => x = ESRCH /\ forall e, e ∈ T -> prefix6_contains (e_prefix6 e) a6 = false
     end).
Proof.
  split.
  - intros a Ha. destruct (xlat46_run T t a Ht Ha) as (r & Hrun & Hr). exists r. split; [done|]. destruct r as [a6|x]; [|done].
    destruct Hr as (e & He & Hc & ->). pose proof (inv_wf _ _ _ Ht He) as We. split; [|exists e; done].
    rewrite (xlat64_some T t e) by auto using embed_wf, embed_member. rewrite extract_embed by done. done.
  - intros a6 Ha. destruct (xlat64_run T t a6 Ht Ha) as (r & Hrun & Hr). exists r. split; [done|]. destruct r as [a|x]; [|done].
    destruct Hr as (e & He & Hc & ->). pose proof (inv_wf _ _ _ Ht He) as We. split; [|exists e; done].
    exists (embed e (extract e a6)). split; [apply (xlat46_some T t e); auto using extract_wf, extract_member|].
    destruct (wf_entry_spec e We) as (_ & _ & Hg & _). unfold embed, extract. cbn [s_addr s6_addr].
    set (d := s6_addr a6 - s6_addr (p6_address (e_prefix6 e))). pose proof (Z.mul_div_le d (2 ^ gap e) ltac:(lia)). nia.
Qed.

(** What the checks and the listing of the table miss.  First, the
    check for overlaps only looks at the first address of the new prefixes, so an entry
    that contains one of the table's is added although nobody forced it: after
    10.1.0.0/16, 10.0.0.0/8 is accepted.  Second, a listing that continues
    after the entry with the IPv4 prefix it was given looks for that prefix among
    the IPv6 keys, so it finds no place to continue from: the entry that
    follows is not visited, and no error is reported. *)
Lemma eamt_checks_miss :
  (exists t, (eamt_add (Prefix6 (In6Addr (Z.shiftl 1 80)) 112) (Prefix4 (InAddr 0x0a010000) 16) false;;
              eamt_add (Prefix6 (In6Addr (Z.shiftl 2 80)) 104) (Prefix4 (InAddr 0x0a000000) 8) false) (eamt_init [] []) = Some (Ok tt, t) /\ eam_count t = 2) /\
  (exists t, (eamt_add (Prefix6 (In6Addr (Z.shiftl 1 80)) 112) (Prefix4 (InAddr 0x0a010000) 16) false;;
              eamt_add (Prefix6 (In6Addr (Z.shiftl 2 80)) 112) (Prefix4 (InAddr 0x0a020000) 16) false) (eamt_init [] []) = Some (Ok tt, t) /\
     eamt_foreach (fun e l => (0, l ++ [s_addr (p4_address (e_prefix4 e))])) [] None t = Some (0, [0x0a020000; 0x0a010000], t) /\
     eamt_foreach (fun e l => (0, l ++ [s_addr (p4_address (e_prefix4 e))])) [] (Some (Prefix4 (InAddr 0x0a020000) 16)) t = Some (0, [], t)).
Proof.
  split.
  - eexists. split; vm_compute; reflexivity.
  - eexists. split; [vm_compute; reflexivity|]. split; vm_compute; reflexivity.
Qed.

(** A forced entry whose IPv6 prefix is where two of the table's meet and whose
    IPv4 prefix is there: the IPv6 half takes the place of the node in
    between, and taking it back needs a new node.  Without memory for it the
    request is refused and its IPv6 half stays: the listing has three
    entries, two of them with the same IPv4 prefix, and the count is two. *)
Lemma eamt_revert_needs_memory : exists t0 t,
  (eamt_add (Prefix6 (In6Addr (Z.shiftl 1 80)) 112) (Prefix4 (InAddr 0x0a010000) 16) false;;
   eamt_add (Prefix6 (In6Addr (Z.shiftl 1 80 + Z.shiftl 1 16)) 112) (Prefix4 (InAddr 0x0a020000) 16) false)
    (eamt_init [true; true; true; true; false] []) = Some (Ok tt, t0) /\
  eamt_add (Prefix6 (In6Addr (Z.shiftl 1 80)) 111) (Prefix4 (InAddr 0x0a010000) 16) true t0 = Some (Err EEXIST, t) /\
  eam_count t = 2 /\
  eamt_foreach (fun e l => (0, l ++ [s_addr (p4_address (e_prefix4 e))])) [] None t = Some (0, [0x0a010000; 0x0a020000; 0x0a010000], t).
Proof. eexists _, _. split; [vm_compute; reflexivity|]. split; [vm_compute; reflexivity|]. split; vm_compute; reflexivity. Qed.
