(* ===== verification/SiitPool.v ===== *)
(** * The address pools of the stateless translator

    [mod/stateless/pool.c], a list of IPv4 prefixes behind a pointer, and its
    two users: the blacklist ([blacklist4.c]) and the pool of RFC 6791
    ([rfc6791.c]).  The lists are in a heap, because a request can free
    the list its caller still points to; to follow a pointer to a list that was
    freed is a fault. *)
From Stdlib Require Import String.
From S2P Require Import Prelude Types Address SessionSpec Eam.

(** ** Lists of prefixes *)

(** An entry of a list ([struct pool_entry]) is its prefix. *)
Record pool_heap : Type := PoolHeap {
  ph_lists : gmap positive (list ipv4_prefix);
  ph_next : positive;
  ph_allocs : allocs
}.

Definition read_list (pool : option positive) : M pool_heap (list ipv4_prefix) :=
  match pool with None => fault | Some p => s ← get; load (ph_lists s !! p) end.

Definition write_list (p : positive) (l : list ipv4_prefix) : M pool_heap unit :=
  modify (fun s => PoolHeap (<[p := l]> (ph_lists s)) (ph_next s) (ph_allocs s)).

Definition alloc : M pool_heap bool := fun s =>
  let '(ok, al) := kmalloc (ph_allocs s) in Some (ok, PoolHeap (ph_lists s) (ph_next s) al).

Section Parse.
(** [in4_pton]: the address, and where the parse stopped, also when it fails. *)
Variable in4_pton : string -> option Ascii.ascii -> option in_addr * string.
Variable kstrtou8 : string -> option Z.

(** [None]: the code reads past the end of [str]. *)
Definition parse_prefix4 (str : string) : option (result ipv4_prefix) :=
  if strchr str slash then
    let '(address, slash_pos) := in4_pton str (Some slash) in
    rest ← ptr_succ slash_pos;
    Some (match address, kstrtou8 rest with
          | Some address, Some len => Ok (Prefix4 address len)
          | _, _ => Err EINVAL
          end)
  else
    Some (match (in4_pton str None).1 with
          | Some address => Ok (Prefix4 address 32)
          | None => Err EINVAL
          end).

(** The entries are freed with the list. *)
Definition destroy_list (pool : option positive) : M pool_heap unit :=
  _ ← read_list pool;
  match pool with
  | None => fault
  | Some p => modify (fun s => PoolHeap (delete p (ph_lists s)) (ph_next s) (ph_allocs s))
  end.

Definition create_pool : M pool_heap (option positive) :=
  ok ← alloc;
  if ok : bool then
    s ← get;
    write_list (ph_next s) [];;
    modify (fun h => PoolHeap (ph_lists h) (Pos.succ (ph_next s)) (ph_allocs h));;
    mret (Some (ph_next s))
  else mret None.

Fixpoint pool_init_loop (pool : positive) (pref_strs : list string) : M pool_heap (result unit) :=
  match pref_strs with
  | [] => mret (Ok tt)
  | str :: pref_strs =>
      ok ← alloc;
      if negb ok then mret (Err ENOMEM)
      else
        parsed ← load (parse_prefix4 str);
        match parsed with
        | Err error => mret (Err error)
        | Ok prefix =>
            l ← read_list (Some pool);
            write_list pool (l ++ [prefix]);;
            pool_init_loop pool pref_strs
        end
  end.

(** The pointer that [*pool] is set to. *)
Definition pool_init (pref_strs : list string) : M pool_heap (result positive) :=
  pool ← create_pool;
  match pool with
  | None => mret (Err ENOMEM)
  | Some pool =>
      error ← pool_init_loop pool pref_strs;
      match error with
      | Ok _ => mret (Ok pool)
      | Err error => destroy_list (Some pool);; mret (Err error)
      end
  end.
End Parse.

(** [pool] is an argument, so [rcu_assign_pointer(pool, new)] sets a copy of
    the caller's pointer. *)
Definition pool_replace (pool new : option positive) : M pool_heap unit :=
  let tmp := pool in
  let pool := new in
  destroy_list tmp.

Definition pool_destroy (pool : option positive) : M pool_heap unit := pool_replace pool None.

Definition pool_add (pool : option positive) (prefix : ipv4_prefix) : M pool_heap (result unit) :=
  match prefix4_validate (Some prefix) with
  | Err error => mret (Err error)
  | Ok _ =>
      list ← read_list pool;
      if existsb (fun entry => prefix4_intersects entry prefix) list then mret (Err EEXIST)
      else
        ok ← alloc;
        if negb ok then mret (Err ENOMEM)
        else
          match pool with
          | None => fault
          | Some p => write_list p (list ++ [prefix]);; mret (Ok tt)
          end
  end.

(** The list without its first element that satisfies [f]. *)
Fixpoint remove_first {A} (f : A -> bool) (l : list A) : option (list A) :=
  match l with
  | [] => None
  | x :: l => if f x then Some l else match remove_first f l with Some l => Some (x :: l) | None => None end
  end.

Definition pool_rm (pool : option positive) (prefix : ipv4_prefix) : M pool_heap (result unit) :=
  list ← read_list pool;
  match remove_first (fun entry => prefix4_equals (Some prefix) (Some entry)) list, pool with
  | Some list, Some p => write_list p list;; mret (Ok tt)
  | _, _ => mret (Err ESRCH)
  end.

Definition pool_flush (pool : option positive) : M pool_heap (result unit) :=
  new ← create_pool;
  match new with
  | None => mret (Err ENOMEM)
  | Some new => pool_replace pool (Some new);; mret (Ok tt)
  end.

Definition pool_contains (pool : option positive) (addr : in_addr) : M pool_heap bool :=
  list ← read_list pool; mret (existsb (fun entry => prefix4_contains entry addr) list).

Fixpoint pool_foreach_loop {B} (func : ipv4_prefix -> B -> Z * B) (list : list ipv4_prefix) (offset : option ipv4_prefix) (arg : B) : option ipv4_prefix * Z * B :=
  match list with
  | [] => (offset, 0, arg)
  | entry :: list =>
      match offset with
      | None =>
          let '(error, arg) := func entry arg in
          if negb (error =? 0) then (None, error, arg) else pool_foreach_loop func list None arg
      | Some o => pool_foreach_loop func list (if prefix4_equals (Some o) (Some entry) then None else offset) arg
      end
  end.

Definition pool_foreach {B} (pool : option positive) (func : ipv4_prefix -> B -> Z * B) (arg : B) (offset : option ipv4_prefix) : M pool_heap (Z * B) :=
  list ← read_list pool;
  let '(offset, error, arg) := pool_foreach_loop func list offset arg in
  mret (match offset with Some _ => - errno_code ESRCH | None => error end, arg).

Definition pool_count (pool : option positive) : M pool_heap Z :=
  list ← read_list pool;
  mret (fold_left (fun count entry => u64 (count + prefix4_get_addr_count entry)) list 0).

Definition pool_is_empty (pool : option positive) : M pool_heap bool :=
  list ← read_list pool; mret (match list with [] => true | _ => false end).

(** ** The two pools of the module *)

Record siit_pools : Type := SiitPools {
  sp_heap : pool_heap;
  sp_blacklist : option positive;
  sp_rfc6791 : option positive
}.

Definition on_heap {A} (m : M pool_heap A) : M siit_pools A := fun s =>
  match m (sp_heap s) with Some (a, h) => Some (a, SiitPools h (sp_blacklist s) (sp_rfc6791 s)) | None => None end.

Definition blacklist {A} (m : option positive -> M pool_heap A) : M siit_pools A := s ← get; on_heap (m (sp_blacklist s)).
Definition rfc6791 {A} (m : option positive -> M pool_heap A) : M siit_pools A := s ← get; on_heap (m (sp_rfc6791 s)).

Definition blacklist_init in4_pton kstrtou8 (pref_strs : list string) : M siit_pools (result unit) :=
  r ← on_heap (pool_init in4_pton kstrtou8 pref_strs);
  match r with
  | Ok p => modify (fun s => SiitPools (sp_heap s) (Some p) (sp_rfc6791 s));; mret (Ok tt)
  | Err e => mret (Err e)
  end.
Definition blacklist_destroy : M siit_pools unit := blacklist pool_destroy.
Definition blacklist_add (prefix : ipv4_prefix) : M siit_pools (result unit) := blacklist (fun pool => pool_add pool prefix).
Definition blacklist_rm (prefix : ipv4_prefix) : M siit_pools (result unit) := blacklist (fun pool => pool_rm pool prefix).
Definition blacklist_flush : M siit_pools (result unit) := blacklist pool_flush.

(** The devices of the namespace; [None] is one without IPv4 ([dev->ip_ptr] is NULL). *)
Fixpoint interface_contains (devs : list (option (list in_addr))) (addr : in_addr) : option bool :=
  match devs with
  | [] => Some false
  | None :: _ => None
  | Some ifas :: devs => if existsb (fun ifa => ipv4_addr_cmp ifa addr =? 0) ifas then Some true else interface_contains devs addr
  end.

Definition blacklist_contains (devs : list (option (list in_addr))) (addr : in_addr) : M siit_pools bool :=
  found ← blacklist (fun pool => pool_contains pool addr);
  if found : bool then mret true else load (interface_contains devs addr).

Definition blacklist_for_each {B} (func : ipv4_prefix -> B -> Z * B) (arg : B) (offset : option ipv4_prefix) : M siit_pools (Z * B) :=
  blacklist (fun pool => pool_foreach pool func arg offset).
Definition blacklist_count : M siit_pools Z := blacklist pool_count.
Definition blacklist_is_empty : M siit_pools bool := blacklist pool_is_empty.

Definition rfc6791_init in4_pton kstrtou8 (pref_strs : list string) : M siit_pools (result unit) :=
  r ← on_heap (pool_init in4_pton kstrtou8 pref_strs);
  match r with
  | Ok p => modify (fun s => SiitPools (sp_heap s) (sp_blacklist s) (Some p));; mret (Ok tt)
  | Err e => mret (Err e)
  end.
Definition rfc6791_destroy : M siit_pools unit := rfc6791 pool_destroy.
Definition rfc6791_add (prefix : ipv4_prefix) : M siit_pools (result unit) := rfc6791 (fun pool => pool_add pool prefix).
Definition rfc6791_rm (prefix : ipv4_prefix) : M siit_pools (result unit) := rfc6791 (fun pool => pool_rm pool prefix).
Definition rfc6791_flush : M siit_pools (result unit) := rfc6791 pool_flush.

(** The loop over the pool: the entry it stopped at (or the last one) and what is left of the index. *)
Fixpoint pick (list : list ipv4_prefix) (entry : option ipv4_prefix) (addr_index : Z) : option ipv4_prefix * Z :=
  match list with
  | [] => (entry, addr_index)
  | p :: list =>
      let count := prefix4_get_addr_count p in
      if addr_index <=? count then (Some p, addr_index) else pick list (Some p) (u32 (addr_index - count))
  end.

(** [random] is [Some] number if the pool is to be used at random. *)
Definition get_rfc6791_address (random : option Z) (hop_limit count : Z) : M siit_pools (result in_addr) :=
  let addr_index := match random with Some x => u32 x | None => hop_limit end in
  let addr_index := if count <=? 0xFFFFFFFF then addr_index mod u32 count else addr_index in
  list ← rfc6791 read_list;
  mret (match pick list None addr_index with
        | (None, _) => Err ESRCH
        | (Some entry, addr_index) => Ok (InAddr (Z.lor (s_addr (p4_address entry)) addr_index))
        end).

(** [saddr]: what [inet_select_addr] gives for the device of the route; [None] if there is no route. *)
Definition get_host_address (saddr : option Z) : result in_addr :=
  match saddr with
  | None => Err EINVAL
  | Some saddr => if saddr =? 0 then Err EINVAL else Ok (InAddr saddr)
  end.

Definition rfc6791_get (random : option Z) (hop_limit : Z) (saddr : option Z) : M siit_pools (result in_addr) :=
  count ← rfc6791 pool_count;
  if negb (count =? 0) then get_rfc6791_address random hop_limit count else mret (get_host_address saddr).

Definition rfc6791_for_each {B} (func : ipv4_prefix -> B -> Z * B) (arg : B) (offset : option ipv4_prefix) : M siit_pools (Z * B) :=
  rfc6791 (fun pool => pool_foreach pool func arg offset).
Definition rfc6791_count : M siit_pools Z := rfc6791 pool_count.
Definition rfc6791_is_empty : M siit_pools bool := rfc6791 pool_is_empty.

(** ** Pools without overlaps *)

Definition pool_prefix (p : ipv4_prefix) : Prop := wf_prefix4 p /\ prefix4_validate (Some p) = Ok tt.

(** Valid prefixes, no two of which have an address in common. *)
Fixpoint pool_ok (l : list ipv4_prefix) : Prop :=
  match l with
  | [] => True
  | p :: l => pool_prefix p /\ (forall q, q ∈ l -> prefix4_intersects p q = false) /\ pool_ok l
  end.

Lemma pool_ok_elem l p : pool_ok l -> p ∈ l -> pool_prefix p.
Proof.
  induction l as [|q l IH]; intros Hl Hp; [apply not_elem_of_nil in Hp; done|]. destruct Hl as (Hq & _ & Hl). apply elem_of_cons in Hp as [->|Hp]; [exact Hq|exact (IH Hl Hp)].
Qed.

Lemma pool_ok_snoc l p : pool_ok l -> pool_prefix p -> (forall q, q ∈ l -> prefix4_intersects q p = false) -> pool_ok (l ++ [p]).
Proof.
  induction l as [|q l IH]; intros Hl Hp Hd; [split_and!; [done|intros q Hq; apply not_elem_of_nil in Hq; done|done]|].
  destruct Hl as (Hq & Hqd & Hl). cbn [app pool_ok]. split_and!; [done| |].
  - intros r [Hr| ->%list_elem_of_singleton]%elem_of_app; [apply Hqd, Hr|apply Hd; left].
  - apply IH; [done|done|]. intros r Hr. apply Hd. right. done.
Qed.

(** The prefixes of the list without an element are apart as well. *)
Lemma remove_first_spec {A} (f : A -> bool) l : match remove_first f l with
  | Some l' => exists l1 x l2, l = l1 ++ x :: l2 /\ l' = l1 ++ l2 /\ f x = true
  | None => forall x, x ∈ l -> f x = false
  end.
Proof.
  induction l as [|x l IH]; cbn [remove_first]; [intros x Hx; apply not_elem_of_nil in Hx; done|]. destruct (f x) eqn:E; [exists [], x, l; done|].
  destruct (remove_first f l) as [l'|].
  - destruct IH as (l1 & y & l2 & -> & -> & Hy). exists (x :: l1), y, l2. done.
  - intros y [->|Hy]%elem_of_cons; [done|apply IH, Hy].
Qed.

Lemma pool_ok_drop l1 x l2 : pool_ok (l1 ++ x :: l2) -> pool_ok (l1 ++ l2).
Proof.
  induction l1 as [|q l1 IH]; cbn [app pool_ok]; [tauto|]. intros (Hq & Hd & Hl). split_and!; [done| |apply IH, Hl].
  intros r Hr. apply Hd. apply elem_of_app in Hr as [Hr|Hr]; apply elem_of_app; [left; done|right; right; done].
Qed.

(** How many addresses the prefixes have. *)
Definition size_of (p : ipv4_prefix) : Z := 2 ^ (32 - p4_len p).
Fixpoint total (l : list ipv4_prefix) : Z := match l with [] => 0 | p :: l => size_of p + total l end.

Lemma count_size p : wf_prefix4 p -> prefix4_get_addr_count p = size_of p /\ 0 < size_of p <= 2 ^ 32.
Proof.
  intros [Hl _]. unfold prefix4_get_addr_count, size_of, u64. assert (0 < 2 ^ (32 - p4_len p) <= 2 ^ 32) by (split; [apply Z.pow_pos_nonneg; lia|apply Z.pow_le_mono_r; lia]).
  split; [|lia]. rewrite Z.shiftl_1_l, Z.mod_small by lia. done.
Qed.

(** The addresses of a prefix, and of a pool. *)
Definition addrs (p : ipv4_prefix) : list Z := seqZ (s_addr (p4_address p)) (size_of p).
Definition pool_addrs (l : list ipv4_prefix) : list Z := concat (map addrs l).

Lemma addrs_contains p x : pool_prefix p -> x ∈ addrs p <-> is_u32 x /\ prefix4_contains p (InAddr x) = true.
Proof.
  intros ([Hl Ha] & Hv). apply prefix4_validate_clear in Hv as [_ Hs]; [|lia|done]. unfold addrs, size_of. rewrite elem_of_seqZ.
  destruct (prefix4_bounds p) as (_ & _ & Hmax); [lia|done..|].
  split.
  - intros Hx. assert (Wx : is_u32 x) by (destruct Ha; unfold is_u32 in *; lia). split; [exact Wx|]. apply prefix4_contains_interval; [lia|done|exact Wx|done|]. cbn [s_addr]. lia.
  - intros [Wx Hc]. apply prefix4_contains_interval in Hc; [exact Hc|lia|done|exact Wx|done].
Qed.

Lemma pool_addrs_elem l x : x ∈ pool_addrs l <-> exists p, p ∈ l /\ x ∈ addrs p.
Proof.
  unfold pool_addrs. rewrite list_elem_of_In, in_concat. split.
  - intros (a & (p & <- & Hp)%in_map_iff & Hx). exists p. rewrite !list_elem_of_In. done.
  - intros (p & Hp & Hx). exists (addrs p). rewrite in_map_iff, <- list_elem_of_In. split; [exists p; rewrite <- list_elem_of_In|]; done.
Qed.

Lemma pool_addrs_nodup l : pool_ok l -> NoDup (pool_addrs l).
Proof.
  induction l as [|p l IH]; [intros _; constructor|]. intros (Hp & Hd & Hl). unfold pool_addrs. cbn [map concat]. apply NoDup_app. split_and!; [apply NoDup_seqZ| |exact (IH Hl)].
  intros x Hx Hx'. apply pool_addrs_elem in Hx' as (q & Hq & Hx'). pose proof (pool_ok_elem _ _ Hl Hq) as Pq. apply addrs_contains in Hx as [Wx Hx]; [|done]. apply addrs_contains in Hx' as [_ Hx']; [|done].
  specialize (Hd q Hq). apply not_true_iff_false in Hd. apply Hd. destruct Hp as ((Lp & Ap) & _), Pq as ((Lq & Aq) & _). apply prefix4_intersects_iff; [done..|]. exists (InAddr x). done.
Qed.

Lemma pool_addrs_length l : pool_ok l -> Z.of_nat (length (pool_addrs l)) = total l.
Proof.
  induction l as [|p l IH]; [done|]. intros (Hp & _ & Hl). unfold pool_addrs. cbn [map concat total]. rewrite length_app. fold (pool_addrs l). unfold addrs. rewrite length_seqZ.
  destruct (count_size p) as [_ Hc]; [apply Hp|]. specialize (IH Hl). lia.
Qed.

(** There are no more IPv4 addresses than that. *)
Lemma total_bound l : pool_ok l -> 0 <= total l <= 2 ^ 32.
Proof.
  intros Hl. rewrite <- (pool_addrs_length l Hl). split; [lia|].
  assert (Hs : pool_addrs l ⊆+ seqZ 0 (2 ^ 32)).
  { apply NoDup_submseteq; [apply pool_addrs_nodup, Hl|]. intros x (p & Hp & Hx)%pool_addrs_elem. apply addrs_contains in Hx as [[H1 H2] _]; [|exact (pool_ok_elem _ _ Hl Hp)].
    apply elem_of_seqZ. lia. }
  apply submseteq_length in Hs. rewrite length_seqZ in Hs. lia.
Qed.

Lemma fold_count l : forall a, 0 <= a -> pool_ok l -> a + total l < 2 ^ 64 ->
  fold_left (fun count entry => u64 (count + prefix4_get_addr_count entry)) l a = a + total l.
Proof.
  induction l as [|p l IH]; intros a Ha Hl Hb; cbn [fold_left total] in *; [lia|]. destruct Hl as (Hp & _ & Hl). destruct (count_size p) as [-> Hc]; [apply Hp|].
  pose proof (total_bound l Hl). unfold u64 at 2. rewrite Z.mod_small by lia. rewrite IH by (done || lia). lia.
Qed.

(** ** Requests *)

Lemma read_run h p l : ph_lists h !! p = Some l -> read_list (Some p) h = Some (l, h).
Proof. intros H. cbn. unfold mbind, M_bind, get, load. rewrite H. done. Qed.

Lemma read_gone h p : ph_lists h !! p = None -> read_list (Some p) h = None.
Proof. intros H. cbn. unfold mbind, M_bind, get, load. rewrite H. done. Qed.

Lemma count_run h p l : ph_lists h !! p = Some l -> pool_ok l -> pool_count (Some p) h = Some (total l, h).
Proof.
  intros Hp Hl. unfold pool_count. rewrite (bind_run _ _ _ _ _ (read_run _ _ _ Hp)). pose proof (total_bound l Hl). rewrite fold_count by (done || lia). done.
Qed.

Lemma foreach_all {B} (func : ipv4_prefix -> B -> Z * B) l : forall arg,
  pool_foreach_loop func l None arg = (None, (run_until func l arg).1, (run_until func l arg).2).
Proof.
  induction l as [|p l IH]; intros arg; [done|]. cbn [pool_foreach_loop run_until]. destruct (func p arg) as [error arg']. destruct (negb (error =? 0)); [done|]. apply IH.
Qed.

Lemma foreach_after {B} (func : ipv4_prefix -> B -> Z * B) o l2 arg : forall l1, o ∉ l1 ->
  pool_foreach_loop func (l1 ++ o :: l2) (Some o) arg = pool_foreach_loop func l2 None arg.
Proof.
  induction l1 as [|p l1 IH]; intros Ho; cbn [app pool_foreach_loop].
  - rewrite (proj2 (prefix4_equals_iff o o) eq_refl). done.
  - apply not_elem_of_cons in Ho as [Hne Ho]. destruct (prefix4_equals (Some o) (Some p)) eqn:E; [apply prefix4_equals_iff in E; done|]. apply IH, Ho.
Qed.

Lemma foreach_absent {B} (func : ipv4_prefix -> B -> Z * B) o arg : forall l, o ∉ l -> pool_foreach_loop func l (Some o) arg = (Some o, 0, arg).
Proof.
  induction l as [|p l IH]; intros Ho; [done|]. apply not_elem_of_cons in Ho as [Hne Ho]. cbn [pool_foreach_loop].
  destruct (prefix4_equals (Some o) (Some p)) eqn:E; [apply prefix4_equals_iff in E; done|]. apply IH, Ho.
Qed.

Lemma existsb_elem {A} (f : A -> bool) l : existsb f l = true <-> exists x, x ∈ l /\ f x = true.
Proof. rewrite existsb_exists. split; intros (x & Hx & Hf); exists x; (split; [apply list_elem_of_In|]; done). Qed.

Lemma alloc_run h : alloc h = Some ((kmalloc (ph_allocs h)).1, PoolHeap (ph_lists h) (ph_next h) (kmalloc (ph_allocs h)).2).
Proof. unfold alloc. destruct (kmalloc (ph_allocs h)). done. Qed.

Lemma pool_add_run h p l q : ph_lists h !! p = Some l -> pool_ok l -> wf_prefix4 q -> exists r h', pool_add (Some p) q h = Some (r, h') /\
  (r = Err EINVAL /\ h' = h /\ prefix4_validate (Some q) = Err EINVAL \/
   r = Err EEXIST /\ h' = h /\ (exists q', q' ∈ l /\ prefix4_intersects q' q = true) \/
   r = Err ENOMEM /\ ph_lists h' = ph_lists h /\ false ∈ ph_allocs h \/
   r = Ok tt /\ ph_lists h' = <[p := l ++ [q]]> (ph_lists h) /\ pool_ok (l ++ [q])).
Proof.
  intros Hp Hl Hq. unfold pool_add. destruct (prefix4_validate (Some q)) as [[]|x] eqn:Hv.
  - rewrite (bind_run _ _ _ _ _ (read_run _ _ _ Hp)). destruct (existsb _ l) eqn:Ex.
    + eexists _, h. split; [reflexivity|]. right. left. split_and!; [done..|]. apply existsb_elem, Ex.
    + rewrite (bind_run _ _ _ _ _ (alloc_run h)). destruct (kmalloc (ph_allocs h)) as [[] al] eqn:Em; cbn [fst snd negb].
      * eexists _, _. split; [reflexivity|]. do 3 right. split_and!; [done|done|].
        apply pool_ok_snoc; [done|split; done|]. intros q' Hq'. apply not_true_iff_false. intros Hi. apply not_true_iff_false in Ex. apply Ex, existsb_elem. eauto.
      * eexists _, _. split; [reflexivity|]. right. right. left. split_and!; [done..|].
        apply kmalloc_fails. rewrite Em. done.
  - eexists _, h. split; [reflexivity|]. left. unfold prefix4_validate in Hv. destruct (32 <? p4_len q); [injection Hv as <-; done|]. destruct (negb _); [injection Hv as <-; done|done].
Qed.

Lemma pool_rm_run h p l q : ph_lists h !! p = Some l -> pool_ok l -> exists r h', pool_rm (Some p) q h = Some (r, h') /\
  (r = Err ESRCH /\ h' = h /\ q ∉ l \/ exists l1 l2, r = Ok tt /\ l = l1 ++ q :: l2 /\ ph_lists h' = <[p := l1 ++ l2]> (ph_lists h) /\ pool_ok (l1 ++ l2)).
Proof.
  intros Hp Hl. unfold pool_rm. rewrite (bind_run _ _ _ _ _ (read_run _ _ _ Hp)). pose proof (remove_first_spec (fun entry => prefix4_equals (Some q) (Some entry)) l) as Hr.
  destruct (remove_first _ l) as [l'|].
  - destruct Hr as (l1 & x & l2 & -> & -> & Hx). apply prefix4_equals_iff in Hx as <-. eexists _, _. split; [reflexivity|]. right. exists l1, l2. split_and!; [done..|]. exact (pool_ok_drop _ _ _ Hl).
  - eexists _, h. split; [reflexivity|]. left. split_and!; [done..|]. intros Hq. specialize (Hr q Hq). apply not_true_iff_false in Hr. apply Hr, prefix4_equals_iff. done.
Qed.

(** A pool of the stateless translator is a set of addresses given by
    disjoint prefixes, and every request to it does what it says: an address
    belongs to it exactly when one of its prefixes has it; an invalid prefix is
    refused with [-EINVAL] and one that overlaps with the pool with
    [-EEXIST]; any other is added (or reported as [-ENOMEM]) and the prefixes
    are still disjoint; a removal takes away the prefix it names or reports
    [-ESRCH]; the count is the number of addresses, which never
    overflows; a listing visits the prefixes after the given one, in order. *)
Lemma siit_pool_requests h p l (Hp : ph_lists h !! p = Some l) (Hl : pool_ok l) :
  (forall a, exists b, pool_contains (Some p) a h = Some (b, h) /\ (b = true <-> exists q, q ∈ l /\ prefix4_contains q a = true)) /\
  (forall q, wf_prefix4 q -> exists r h', pool_add (Some p) q h = Some (r, h') /\
     (r = Err EINVAL /\ h' = h /\ prefix4_validate (Some q) = Err EINVAL \/
      r = Err EEXIST /\ h' = h /\ (exists q', q' ∈ l /\ prefix4_intersects q' q = true) \/
      r = Err ENOMEM /\ ph_lists h' = ph_lists h /\ false ∈ ph_allocs h \/
      r = Ok tt /\ ph_lists h' = <[p := l ++ [q]]> (ph_lists h) /\ pool_ok (l ++ [q]))) /\
  (forall q, exists r h', pool_rm (Some p) q h = Some (r, h') /\
     (r = Err ESRCH /\ h' = h /\ q ∉ l \/ exists l1 l2, r = Ok tt /\ l = l1 ++ q :: l2 /\ ph_lists h' = <[p := l1 ++ l2]> (ph_lists h) /\ pool_ok (l1 ++ l2))) /\
  (pool_count (Some p) h = Some (total l, h) /\ NoDup (pool_addrs l) /\ total l = Z.of_nat (length (pool_addrs l))) /\
  (forall (B : Type) (func : ipv4_prefix -> B -> Z * B) arg,
     pool_foreach (Some p) func arg None h = Some (run_until func l arg, h) /\
     (forall l1 o l2, l = l1 ++ o :: l2 -> o ∉ l1 -> pool_foreach (Some p) func arg (Some o) h = Some (run_until func l2 arg, h)) /\
     (forall o, o ∉ l -> pool_foreach (Some p) func arg (Some o) h = Some ((- errno_code ESRCH, arg), h))) /\
  pool_is_empty (Some p) h = Some (bool_decide (l = []), h).
Proof.
  split_and!.
  - intros a. eexists. split; [unfold pool_contains; rewrite (bind_run _ _ _ _ _ (read_run _ _ _ Hp)); reflexivity|]. apply existsb_elem.
  - intros q Hq. apply pool_add_run; done.
  - intros q. apply pool_rm_run; done.
  - apply count_run; done.
  - apply pool_addrs_nodup, Hl.
  - symmetry. apply pool_addrs_length, Hl.
  - intros B func arg. unfold pool_foreach. rewrite !(bind_run _ _ _ _ _ (read_run _ _ _ Hp)), foreach_all. split_and!.
    + destruct (run_until func l arg). done.
    + intros l1 o l2 -> Ho. rewrite (bind_run _ _ _ _ _ (read_run _ _ _ Hp)), foreach_after, foreach_all by done. destruct (run_until func l2 arg). done.
    + intros o Ho. rewrite (bind_run _ _ _ _ _ (read_run _ _ _ Hp)), foreach_absent by done. done.
  - unfold pool_is_empty. rewrite (bind_run _ _ _ _ _ (read_run _ _ _ Hp)). destruct l; done.
Qed.

(** 192.0.2.0/30 and 198.51.100.0/30. *)
Definition sample_pool : list ipv4_prefix := [Prefix4 (InAddr 0xc0000200) 30; Prefix4 (InAddr 0xc6336400) 30].

Lemma sample_pool_ok : pool_ok sample_pool.
Proof.
  cbn [sample_pool pool_ok]. split_and!; try done.
  - intros q ->%list_elem_of_singleton. reflexivity.
  - intros q Hq. apply not_elem_of_nil in Hq. done.
Qed.

Definition sample_heap : pool_heap := PoolHeap {[1%positive := sample_pool]} 2 [].

(** ** Flushes *)

(** The addresses to come are not in use. *)
Definition heap_wf (h : pool_heap) : Prop := forall q, is_Some (ph_lists h !! q) -> (q < ph_next h)%positive.

Lemma create_run h : create_pool h =
  Some (if (kmalloc (ph_allocs h)).1 then Some (ph_next h) else None,
        if (kmalloc (ph_allocs h)).1 then PoolHeap (<[ph_next h := []]> (ph_lists h)) (Pos.succ (ph_next h)) (kmalloc (ph_allocs h)).2
        else PoolHeap (ph_lists h) (ph_next h) (kmalloc (ph_allocs h)).2).
Proof. unfold create_pool. rewrite (bind_run _ _ _ _ _ (alloc_run h)). destruct (kmalloc (ph_allocs h)).1; done. Qed.

(** Nothing can be asked of a pool whose list was freed. *)
Lemma gone_faults h p : ph_lists h !! p = None ->
  (forall a, pool_contains (Some p) a h = None) /\ (forall q, prefix4_validate (Some q) = Ok tt -> pool_add (Some p) q h = None) /\
  (forall q, pool_rm (Some p) q h = None) /\ pool_count (Some p) h = None /\ pool_is_empty (Some p) h = None /\ pool_destroy (Some p) h = None.
Proof.
  intros Hp. pose proof (read_gone h p Hp) as Hr.
  assert (Hb : forall B (f : list ipv4_prefix -> M pool_heap B), (read_list (Some p) ≫= f) h = None) by (intros B f; unfold mbind, M_bind; rewrite Hr; done).
  split_and!; [intros; apply Hb|intros q Hv; unfold pool_add; rewrite Hv; apply Hb|intros; apply Hb|apply Hb..].
Qed.

(** A flush of the blacklist (or of the RFC 6791 pool, which is flushed in
    the same way) frees the list the module goes on using.  It reports
    success, but the empty list it made is known to nobody: the module's
    pointer is still the one to the old list, so the next packet that asks for the blacklist
    and the next request to it follow a dangling pointer. *)
Lemma blacklist_flush_dangles s p l (Hw : heap_wf (sp_heap s)) (Hb : sp_blacklist s = Some p) (Hp : ph_lists (sp_heap s) !! p = Some l) :
  exists r s', blacklist_flush s = Some (r, s') /\ sp_blacklist s' = Some p /\
    (r = Err ENOMEM /\ ph_lists (sp_heap s') = ph_lists (sp_heap s) /\ false ∈ ph_allocs (sp_heap s) \/
     r = Ok tt /\ ph_lists (sp_heap s') = delete p (<[ph_next (sp_heap s) := []]> (ph_lists (sp_heap s))) /\
     (forall devs a, blacklist_contains devs a s' = None) /\ (forall q, prefix4_validate (Some q) = Ok tt -> blacklist_add q s' = None) /\
     (forall q, blacklist_rm q s' = None) /\ blacklist_count s' = None /\ blacklist_is_empty s' = None /\ blacklist_destroy s' = None).
Proof.
  destruct s as [h b6 r6]. cbn [sp_heap sp_blacklist] in *. subst b6. assert (Hne : ph_next h <> p) by (intros E; specialize (Hw p ltac:(eauto)); rewrite <- E in Hw; lia).
  destruct (kmalloc (ph_allocs h)) as [ok al] eqn:Em. pose proof (create_run h) as Hc. rewrite Em in Hc. cbn [fst snd] in Hc. destruct ok.
  - set (h1 := PoolHeap (delete p (<[ph_next h := []]> (ph_lists h))) (Pos.succ (ph_next h)) al).
    assert (Hf : pool_flush (Some p) h = Some (Ok tt, h1)).
    { unfold pool_flush. rewrite (bind_run _ _ _ _ _ Hc). unfold pool_replace, destroy_list, mbind at 1, M_bind at 1. erewrite bind_run by (apply read_run; cbn [ph_lists]; rewrite lookup_insert_ne by done; exact Hp). done. }
    eexists _, (SiitPools h1 (Some p) r6). split; [unfold blacklist_flush, blacklist, mbind, M_bind, get, on_heap; cbn [sp_blacklist sp_heap]; rewrite Hf; done|]. split; [done|]. right.
    destruct (gone_faults h1 p (lookup_delete_eq _ _)) as (G1 & G2 & G3 & G4 & G5 & G6).
    assert (Hbl : forall A (m : option positive -> M pool_heap A), m (Some p) h1 = None -> blacklist m (SiitPools h1 (Some p) r6) = None).
    { intros A m Hm. unfold blacklist, mbind, M_bind, get, on_heap. cbn [sp_blacklist sp_heap]. rewrite Hm. done. }
    split_and!; [done|done| |intros q Hv; apply Hbl, G2, Hv|intros q; apply Hbl, G3|apply Hbl, G4|apply Hbl, G5|apply Hbl, G6].
    intros devs a. unfold blacklist_contains, mbind at 1, M_bind at 1. rewrite Hbl by apply G1. done.
  - eexists _, (SiitPools (PoolHeap (ph_lists h) (ph_next h) al) (Some p) r6). split.
    + unfold blacklist_flush, blacklist, mbind, M_bind, get, on_heap. cbn [sp_blacklist sp_heap]. unfold pool_flush. rewrite (bind_run _ _ _ _ _ Hc). done.
    + split; [done|]. left. split_and!; [done..|]. apply kmalloc_fails. rewrite Em. done.
Qed.

Definition sample_pools : siit_pools := SiitPools sample_heap (Some 1%positive) (Some 1%positive).

(** ** The source of ICMP errors *)

(** Where the loop stops: inside of a prefix, or one past its end. *)
Lemma pick_spec l : forall e i, pool_ok l -> l <> [] -> 0 <= i < total l ->
  exists l1 p l2 j, l = l1 ++ p :: l2 /\ pick l e i = (Some p, j) /\ 0 <= j <= size_of p /\ i = total l1 + j.
Proof.
  induction l as [|p l IH]; intros e i Hl Hne Hi; [done|]. destruct Hl as (Hp & _ & Hl). cbn [pick total] in *. destruct (count_size p) as [-> Hc]; [apply Hp|].
  destruct (Z.leb_spec i (size_of p)).
  - exists [], p, l, i. cbn. split_and!; done || lia.
  - pose proof (total_bound l Hl). assert (Hne' : l <> []) by (intros ->; cbn in *; lia). unfold u32. rewrite Z.mod_small by lia.
    destruct (IH (Some p) (i - size_of p) Hl Hne' ltac:(lia)) as (l1 & q & l2 & j & -> & Hpick & Hj & Hij). exists (p :: l1), q, l2, j. cbn [total app]. split_and!; done || lia.
Qed.

(** The prefix's address and an offset in it. *)
Lemma lor_offset p j : pool_prefix p -> 0 <= j < size_of p -> Z.lor (s_addr (p4_address p)) j = s_addr (p4_address p) + j.
Proof.
  intros ([Hl Ha] & Hv) Hj. apply prefix4_validate_clear in Hv as [_ Hs]; [|lia|done]. unfold size_of in Hj. apply Z.bits_inj'. intros k Hk. rewrite Z.lor_spec, (testbit_join _ _ (32 - p4_len p)) by (done || lia).
  destruct (Z.ltb_spec k (32 - p4_len p)).
  - rewrite (suffix_bits 32 _ (p4_len p)) by (done || lia || apply Ha). done.
  - rewrite (testbit_high j (32 - p4_len p)) by lia. apply orb_false_r.
Qed.

Lemma total_app l1 l2 : total (l1 ++ l2) = total l1 + total l2.
Proof. induction l1 as [|p l1 IH]; cbn [total app]; [done|]. rewrite IH. lia. Qed.

(** What the index is reduced to. *)
Definition index_of (random : option Z) (hop_limit count : Z) : Z := match random with Some x => u32 x | None => hop_limit end mod count.

Lemma rfc6791_get_run s p l random hop_limit saddr : sp_rfc6791 s = Some p -> ph_lists (sp_heap s) !! p = Some l -> pool_ok l -> l <> [] -> 0 <= hop_limit < 256 ->
  exists a, rfc6791_get random hop_limit saddr s = Some (Ok a, s) /\
    let i := index_of random hop_limit (total l) in
    (exists q, q ∈ l /\ prefix4_contains q a = true) \/
    (exists l1 q l2, l = l1 ++ q :: l2 /\ l2 <> [] /\ i = total (l1 ++ [q]) /\ s_addr a = Z.lor (s_addr (p4_address q)) (size_of q)).
Proof.
  intros Hs Hp Hl Hne Hh. destruct s as [h b6 r6]. cbn [sp_rfc6791 sp_heap] in *. subst r6. pose proof (total_bound l Hl) as Ht.
  assert (Hpos : 0 < total l). { destruct l as [|q l]; [done|]. destruct Hl as (Hq & _ & Hl). destruct (count_size q) as [_ Hc]; [apply Hq|]. pose proof (total_bound l Hl). cbn [total]. lia. }
  assert (Hrf : forall A (m : option positive -> M pool_heap A) a, m (Some p) h = Some (a, h) -> rfc6791 m (SiitPools h b6 (Some p)) = Some (a, SiitPools h b6 (Some p))).
  { intros A m a Hm. unfold rfc6791, mbind, M_bind, get, on_heap. cbn [sp_rfc6791 sp_heap sp_blacklist]. rewrite Hm. done. }
  unfold rfc6791_get. rewrite (bind_run _ _ _ _ _ (Hrf _ _ _ (count_run _ _ _ Hp Hl))). destruct (Z.eqb_spec (total l) 0); [lia|]. cbn [negb]. unfold get_rfc6791_address.
  set (x := match random with Some x => u32 x | None => hop_limit end). assert (Hx : 0 <= x < 2 ^ 32) by (unfold x, u32; destruct random; [apply Z.mod_pos_bound; lia|lia]).
  assert (Hi : (if total l <=? 0xFFFFFFFF then x mod u32 (total l) else x) = index_of random hop_limit (total l)).
  { unfold index_of. fold x. destruct (Z.leb_spec (total l) 0xFFFFFFFF); [unfold u32; rewrite (Z.mod_small (total l)) by lia; done|]. rewrite Z.mod_small by lia. done. }
  rewrite Hi, (bind_run _ _ _ _ _ (Hrf _ _ _ (read_run _ _ _ Hp))). clear Hi. set (i := index_of _ _ _). assert (Hi : 0 <= i < total l) by (apply Z.mod_pos_bound; lia).
  destruct (pick_spec l None i Hl Hne Hi) as (l1 & q & l2 & j & -> & -> & Hj & Hij). eexists. split; [reflexivity|]. cbn zeta. assert (Hq : q ∈ l1 ++ q :: l2) by (apply elem_of_app; right; left).
  pose proof (pool_ok_elem _ _ Hl Hq) as Pq. destruct (decide (j = size_of q)) as [->|Hlt].
  - right. exists l1, q, l2. rewrite total_app. rewrite total_app in Hi. cbn [total] in *. split_and!; [done| |lia|done]. intros ->. cbn [total] in Hi. lia.
  - left. exists q. split; [done|]. rewrite lor_offset by (done || lia). apply (addrs_contains q); [done|]. apply elem_of_seqZ. unfold size_of in *. lia.
Qed.

(** C39: the source address of a translated ICMP error, taken from a
    RFC 6791 pool that is not empty, is an address of the pool, except perhaps when the index that
    chooses it is exactly the number of addresses of the first few
    prefixes and there are more: the loop then stops one prefix too early (it
    compares with [>=]), and the address is the prefix with the bit of its size
    set.  That is the one that follows the prefix, as the bit is clear in
    192.0.2.0/30, or the prefix's own first address, if the bit is set already, as in
    192.0.2.4/30.  With
    192.0.2.0/30 and 198.51.100.0/30 and a hop limit of 4 the error is
    sent from 192.0.2.4, which is not in the pool.  The prefixes of the pool are valid and do
    not intersect ([pool_ok]); [pool_add] keeps this, but [pool_init]
    does not check the prefixes given when the module is loaded. *)
Theorem rfc6791_address_of_pool s p l random hop_limit saddr
    (Hs : sp_rfc6791 s = Some p) (Hp : ph_lists (sp_heap s) !! p = Some l) (Hl : pool_ok l) (Hne : l <> []) (Hh : 0 <= hop_limit < 256) :
  (exists a, rfc6791_get random hop_limit saddr s = Some (Ok a, s) /\
    let i := index_of random hop_limit (total l) in
    (exists q, q ∈ l /\ prefix4_contains q a = true) \/
    (exists l1 q l2, l = l1 ++ q :: l2 /\ l2 <> [] /\ i = total (l1 ++ [q]) /\ s_addr a = Z.lor (s_addr (p4_address q)) (size_of q))) /\
  rfc6791_get None 4 None sample_pools = Some (Ok (InAddr 0xc0000204), sample_pools) /\
  pool_contains (Some 1%positive) (InAddr 0xc0000204) sample_heap = Some (false, sample_heap).
Proof. split; [apply (rfc6791_get_run s p l); done|]. split; reflexivity. Qed.

Lemma rfc6791_address_of_pool_witness : exists a, rfc6791_get None 64 None sample_pools = Some (Ok a, sample_pools) /\ a = InAddr 0xc0000200.
Proof.
  destruct (rfc6791_address_of_pool sample_pools 1%positive sample_pool None 64 None eq_refl eq_refl sample_pool_ok ltac:(done) ltac:(lia)) as ((a & Hrun & _) & _).
  exists a. split; [exact Hrun|]. vm_compute in Hrun. injection Hrun as <-. reflexivity.
Defined.
