(* ===== verification/Siit.v ===== *)
(** * The addresses of the stateless translator

    The tables the packet translator asks ([SiitTables]), made of the table of
    explicit mappings ([Eam]) and the two pools ([SiitPool]), and what the
    translation of addresses of [rfc6145/4to6.c] and [rfc6145/6to4.c] does with
    them. *)
From S2P Require Import Prelude Types Address Rfc6052 Pool6 SessionSpec Skb InTuple Checksum XlatPkt Xlat64 Xlat46 Rtrie RtrieSpec RtrieOps Eam SiitPool.

(** What a table answers; a fault is no answer the translator goes on with. *)
Definition answer {S A} (m : M S A) (s : S) (d : A) : A := match m s with Some (a, _) => a | None => d end.

Definition siit_tables (t : eam_table) (p : siit_pools) (devs : list (option (list in_addr))) (random : option Z) (select_addr : xpkt -> option Z) : SiitTables := {|
  XlatPkt.eamt_xlat_4to6 a := answer (Eam.eamt_xlat_4to6 a) t (Err EFAULT);
  XlatPkt.eamt_xlat_6to4 a := answer (Eam.eamt_xlat_6to4 a) t (Err EFAULT);
  XlatPkt.eamt_contains4 a := answer (Eam.eamt_contains4 a) t false;
  XlatPkt.blacklist_contains a := answer (SiitPool.blacklist_contains devs a) p true;
  XlatPkt.rfc6791_get inp out := answer (SiitPool.rfc6791_get random (default 0 (ld8 (x_bytes inp) (xnet inp + 7))) (select_addr out)) p (Err EFAULT)
|}.

(** The answer of a blacklist with the prefixes [lb], on a node with the addresses [ifaces]. *)
Definition blacklisted (lb : list ipv4_prefix) (ifaces : list (list in_addr)) (a : in_addr) : bool :=
  existsb (fun q => prefix4_contains q a) lb || existsb (fun ifas => existsb (fun i => s_addr i =? s_addr a) ifas) ifaces.

Lemma interface_run ifaces a : interface_contains (map Some ifaces) a = Some (existsb (fun ifas => existsb (fun i => s_addr i =? s_addr a) ifas) ifaces).
Proof.
  assert (Hx : forall ifas, existsb (fun ifa => ipv4_addr_cmp ifa a =? 0) ifas = existsb (fun i => s_addr i =? s_addr a) ifas).
  { induction ifas as [|i ifas IH]; [done|]. cbn [existsb]. rewrite IH. f_equal. unfold ipv4_addr_cmp. apply eq_true_iff_eq. rewrite !Z.eqb_eq, Z.sgn_null_iff. lia. }
  induction ifaces as [|ifas ifaces IH]; [done|]. cbn [map interface_contains existsb]. rewrite Hx, IH. destruct (existsb _ ifas); done.
Qed.

Lemma blacklist_run p q lb ifaces a : sp_blacklist p = Some q -> ph_lists (sp_heap p) !! q = Some lb ->
  SiitPool.blacklist_contains (map Some ifaces) a p = Some (blacklisted lb ifaces a, p).
Proof.
  intros Hb Hq. destruct p as [h b r]. cbn [sp_blacklist sp_heap] in *. subst b. unfold SiitPool.blacklist_contains, blacklist.
  assert (Hc : pool_contains (Some q) a h = Some (existsb (fun q => prefix4_contains q a) lb, h)) by (unfold pool_contains; rewrite (bind_run _ _ _ _ _ (read_run _ _ _ Hq)); done).
  unfold mbind, M_bind, get, on_heap. cbn [sp_blacklist sp_heap sp_rfc6791]. rewrite Hc. unfold blacklisted. destruct (existsb _ lb); [done|]. cbn [orb]. rewrite interface_run. done.
Qed.

Section Siit.
Context (t : eam_table) (p : siit_pools) (random : option Z) (select_addr : xpkt -> option Z) (e : xenv).
Context (T : list eamt_entry) (l : list ipv6_prefix) (q : positive) (lb : list ipv4_prefix) (ifaces : list (list in_addr)).
Context (Ht : eam_inv T t) (Hl : xe_pool6 e = Some l) (Hok : Forall pool6_prefix_ok l).
Context (Hb : sp_blacklist p = Some q) (Hq : ph_lists (sp_heap p) !! q = Some lb).

Abbreviation tables := (siit_tables t p (map Some ifaces) random select_addr).

Lemma ask_blacklist a : XlatPkt.blacklist_contains (SiitTables := tables) a = blacklisted lb ifaces a.
Proof. cbn. unfold answer. rewrite (blacklist_run p q lb) by done. done. Qed.

Lemma ask_eamt46 a r : Eam.eamt_xlat_4to6 a t = Some (r, t) -> XlatPkt.eamt_xlat_4to6 (SiitTables := tables) a = r.
Proof. intros H. cbn. unfold answer. rewrite H. done. Qed.

Lemma ask_eamt64 a r : Eam.eamt_xlat_6to4 a t = Some (r, t) -> XlatPkt.eamt_xlat_6to4 (SiitTables := tables) a = r.
Proof. intros H. cbn. unfold answer. rewrite H. done. Qed.

(** An address of the table is translated by the table. *)
Lemma back_eam en a dst s : en ∈ T -> wf_addr4 a -> prefix4_contains (e_prefix4 en) a = true -> addr4_is_scope_subnet (s_addr a) = false ->
  generate_addr4_siit (T := tables) e (embed en a) dst s = Some ((VERDICT_CONTINUE, Some (a, false)), s).
Proof.
  intros He Ha Hc Hs. pose proof (inv_wf _ _ _ Ht He) as We. unfold generate_addr4_siit.
  rewrite (ask_eamt64 _ (Ok a)).
  - rewrite Hs. done.
  - rewrite (xlat64_some T t en) by auto using embed_wf, embed_member. rewrite extract_embed by done. done.
Qed.

(** No IPv4 or IPv6 prefix of the table has the address. *)
Definition not_mapped4 (a : in_addr) : Prop := forall en, en ∈ T -> prefix4_contains (e_prefix4 en) a = false.
Definition not_mapped6 (a6 : in6_addr) : Prop := forall en, en ∈ T -> prefix6_contains (e_prefix6 en) a6 = false.

(** Any other goes through RFC 6052, and is let pass if it is a destination
    on the blacklist. *)
Lemma back_6052 a a6 pr l' dst s : l = pr :: l' -> wf_addr4 a -> addr_4to6 a pr = Ok a6 -> not_mapped6 a6 ->
  generate_addr4_siit (T := tables) e a6 dst s =
  Some (if dst && blacklisted lb ifaces a then (VERDICT_ACCEPT, None)
        else if addr4_is_scope_subnet (s_addr a) then (VERDICT_DROP, None) else (VERDICT_CONTINUE, Some (a, true)), s).
Proof.
  intros El Ha H46 Hno. pose proof Hok as Hok'. rewrite El in Hok'. apply Forall_cons in Hok' as [(Hlen & Hw & _) _]. destruct (addr_4to6_extract a pr Ha Hlen) as (a6' & E46 & E64).
  rewrite H46 in E46. injection E46 as <-. pose proof (addr_4to6_range _ _ _ Ha H46) as Wa6. unfold generate_addr4_siit.
  destruct (xlat64_run T t a6 Ht Wa6) as (r & Hrun & Hr). destruct r as [x|x]; [destruct Hr as (en & He & Hc & _); rewrite (Hno en He) in Hc; done|]. destruct Hr as [-> _].
  rewrite (ask_eamt64 _ _ Hrun), bool_decide_eq_true_2 by done. cbn [negb]. unfold ask_pool6, mbind at 1, M_bind at 1. rewrite Hl, El. unfold pool6_get. cbv [mbind M_bind deref_pool mret M_ret]. cbn [pool6_find].
  fold (prefix6_contains pr a6). rewrite (addr_4to6_contained a pr a6 Ha Hw H46), E64, ask_blacklist. destruct (dst && blacklisted lb ifaces a); [done|].
  destruct (addr4_is_scope_subnet (s_addr a)); done.
Qed.

(** The addresses that are not translated, with the table or without it. *)
Definition left_alone (a : in_addr) (dst enable_eam : bool) : Prop :=
  addr4_is_scope_subnet (s_addr a) = true \/
  (enable_eam = true -> not_mapped4 a) /\ (dst && blacklisted lb ifaces a = true \/ l = []).

(** What the translation of an address gives otherwise. *)
Definition translated (a : in_addr) (dst enable_eam : bool) (a6 : in6_addr) (s : xstate) : Prop :=
  wf_addr6 a6 /\
  (enable_eam = true /\ (exists en, en ∈ T /\ prefix4_contains (e_prefix4 en) a = true /\ a6 = embed en a) /\
     generate_addr4_siit (T := tables) e a6 dst s = Some ((VERDICT_CONTINUE, Some (a, false)), s) \/
   (enable_eam = true -> not_mapped4 a) /\ (exists pr l', l = pr :: l' /\ addr_4to6 a pr = Ok a6) /\
     (not_mapped6 a6 -> generate_addr4_siit (T := tables) e a6 dst s = Some ((VERDICT_CONTINUE, Some (a, true)), s))).

Lemma siit_6052 a dst enable_eam s : wf_addr4 a -> addr4_is_scope_subnet (s_addr a) = false -> (enable_eam = true -> not_mapped4 a) ->
  exists v o,
    (if dst && XlatPkt.blacklist_contains (SiitTables := tables) a then mret (VERDICT_ACCEPT, None)
     else prefix ← ask_pool6 e pool6_peek;
          match prefix with
          | Err _ => mret (VERDICT_ACCEPT, None)
          | Ok prefix => match addr_4to6 a prefix with Err _ => mret (VERDICT_DROP, None) | Ok addr6 => mret (VERDICT_CONTINUE, Some addr6) end
          end) s = Some ((v, o), s) /\
    (v = VERDICT_ACCEPT <-> left_alone a dst enable_eam) /\
    match o with None => v = VERDICT_ACCEPT | Some a6 => v = VERDICT_CONTINUE /\ translated a dst enable_eam a6 s end.
Proof.
  intros Ha Hs Hno. rewrite ask_blacklist. unfold left_alone. destruct (dst && blacklisted lb ifaces a) eqn:Hbl.
  { eexists _, None. split; [reflexivity|]. split; [|done]. split; [auto|done]. }
  unfold ask_pool6, mbind at 1, M_bind at 1. rewrite Hl. assert (El : l = [] \/ exists pr l', l = pr :: l') by (destruct l; eauto).
  unfold pool6_peek. cbv [mbind M_bind deref_pool mret M_ret]. destruct El as [El|(pr & l' & El)]; rewrite El.
  { eexists _, None. split; [reflexivity|]. split; [|done]. split; [auto|done]. }
  pose proof Hok as Hok'. rewrite El in Hok'. apply Forall_cons in Hok' as [(Hlen & Hw & _) _]. destruct (addr_4to6_extract a pr Ha Hlen) as (a6 & E46 & _). rewrite E46.
  eexists _, (Some a6). split; [reflexivity|]. split; [split; [done|]; intros [E|[_ [E|E]]]; congruence|]. split; [done|].
  split; [exact (addr_4to6_range _ _ _ Ha E46)|]. right. split; [done|]. split; [eauto|]. intros Hn.
  rewrite (back_6052 a a6 pr l' dst s El Ha E46 Hn), Hbl, Hs. done.
Qed.

Lemma siit_4to6 a dst enable_eam s : wf_addr4 a ->
  exists v o, generate_addr6_siit (T := tables) e a dst enable_eam s = Some ((v, o), s) /\
    (v = VERDICT_ACCEPT <-> left_alone a dst enable_eam) /\
    match o with None => v = VERDICT_ACCEPT | Some a6 => v = VERDICT_CONTINUE /\ translated a dst enable_eam a6 s end.
Proof.
  intros Ha. unfold generate_addr6_siit. destruct (addr4_is_scope_subnet (s_addr a)) eqn:Hs.
  { eexists _, None. split; [reflexivity|]. split; [|done]. split; [|done]. intros _. left. done. }
  destruct enable_eam; [|apply siit_6052; done].
  destruct (xlat46_run T t a Ht Ha) as (r & Hrun & Hr). rewrite (ask_eamt46 _ _ Hrun). destruct r as [a6|x].
  - destruct Hr as (en & He & Hc & ->). pose proof (inv_wf _ _ _ Ht He) as We. eexists _, (Some _). split; [reflexivity|]. split; [|split; [done|]].
    + split; [done|]. intros [E|[Hno _]]; [congruence|]. specialize (Hno eq_refl en He). congruence.
    + split; [apply embed_wf; done|]. left. split; [done|]. split; [eauto|]. apply back_eam; done.
  - destruct Hr as [-> Hno]. rewrite bool_decide_eq_true_2 by done. cbn [negb]. apply siit_6052; done.
Qed.

End Siit.

(** C26: the stateless translator's addresses come back.  The tables are in
    order: the entries of the explicit mappings do not overlap, the prefixes
    of pool6 are valid, the blacklist is there and every device of the node
    has IPv4 (of one that does not the code follows a null pointer).  The
    translation of an IPv4 address, as a source or a destination and with the
    table of mappings enabled or not (hairpinning disables it, for sources in
    the simple mode), lets the packet pass untouched exactly when the address
    is reserved or no entry has it (or the table is disabled) and it is a
    blacklisted destination or there is no prefix.  Otherwise it gives an IPv6
    address: that of the table, if it is enabled and some entry has the
    address, and otherwise the one of RFC 6052.  The translation of the result
    in the other direction gives the address back, and says which of the two
    ways it took; for one of RFC 6052 this needs that the result is in no IPv6
    prefix of the table, since the table is asked first.  An address of RFC
    6052 whose IPv4 address is a blacklisted destination passes untouched in
    the other direction as well. *)
Theorem siit_addresses_roundtrip t p random select_addr e T l q lb ifaces a dst enable_eam s
    (Ht : eam_inv T t) (Hl : xe_pool6 e = Some l) (Hok : Forall pool6_prefix_ok l)
    (Hb : sp_blacklist p = Some q) (Hq : ph_lists (sp_heap p) !! q = Some lb) (Ha : wf_addr4 a) :
  let tables := siit_tables t p (map Some ifaces) random select_addr in
  (exists v o, generate_addr6_siit (T := tables) e a dst enable_eam s = Some ((v, o), s) /\
     (v = VERDICT_ACCEPT <-> left_alone T l lb ifaces a dst enable_eam) /\
     match o with
     | None => v = VERDICT_ACCEPT
     | Some a6 => v = VERDICT_CONTINUE /\ translated t p random select_addr e T l ifaces a dst enable_eam a6 s
     end) /\
  (forall pr l' a6, l = pr :: l' -> addr_4to6 a pr = Ok a6 -> not_mapped6 T a6 -> dst && blacklisted lb ifaces a = true ->
     generate_addr4_siit (T := tables) e a6 dst s = Some ((VERDICT_ACCEPT, None), s)).
Proof.
  intros tables. split.
  - apply (siit_4to6 t p random select_addr e T l q lb ifaces); done.
  - intros pr l' a6 El H46 Hno Hbl. unfold tables.
    rewrite (back_6052 t p random select_addr e T l q lb ifaces Ht Hl Hok Hb Hq a a6 pr l' dst s El Ha H46 Hno), Hbl. done.
Qed.

(** A translator with the prefix 64:ff9b::/96. *)
Definition sample_env : xenv :=
  XEnv true false false 0 false false true true [1500; 576] false true EAM_HAIRPIN_OFF (Some [wkp])
    (fun _ => Some 1500) (fun _ => Some 1500) (fun _ => 170).

Definition sample_packet : xpkt := XPkt [] [] (XPtrs 0 0 0 0 L4PROTO_UDP false) L3PROTO_IPV4 false None CHECKSUM_NONE None 0 None.

Lemma siit_addresses_roundtrip_witness :
  exists a6, generate_addr6_siit (T := siit_tables sample_table sample_pools [] None (fun _ => None)) sample_env (InAddr 0x0a010203) true true
      (XState sample_packet sample_packet [] [] []) = Some ((VERDICT_CONTINUE, Some a6), XState sample_packet sample_packet [] [] []) /\
    a6 = embed (EamtEntry sample6 sample4) (InAddr 0x0a010203).
Proof.
  destruct (siit_addresses_roundtrip sample_table sample_pools None (fun _ => None) sample_env [EamtEntry sample6 sample4] [wkp] 1%positive sample_pool []
    (InAddr 0x0a010203) true true (XState sample_packet sample_packet [] [] []) sample_inv eq_refl) as [(v & o & Hrun & _ & Ho) _].
  - repeat constructor; vm_compute; congruence.
  - done.
  - done.
  - split; vm_compute; congruence.
  - destruct o as [a6|]; [|apply (f_equal (option_map (fun x => fst (fst x)))) in Hrun; subst v; vm_compute in Hrun; discriminate Hrun].
    destruct Ho as (-> & _ & [(_ & (en & He & _ & ->) & _)|[Hno _]]).
    + apply list_elem_of_singleton in He as ->. eexists. split; [exact Hrun|done].
    + specialize (Hno eq_refl (EamtEntry sample6 sample4) ltac:(left)). vm_compute in Hno. discriminate Hno.
Defined.
