(* ===== verification/Config.v ===== *)
(** * The configuration

    [mod/common/config.c], and the part of [mod/common/nl_handler.c] that
    changes the configuration.  The array of MTU plateaus, which hangs
    off the configuration and is copied with it, is in a heap of arrays, so
    that the model says when it is freed.  [msecs_to_jiffies] and
    [sort] are the kernel's. *)
From S2P Require Import Prelude Types SessionSpec Skb Xlat46.

(** [enum global_type]. *)
Inductive global_type : Type :=
| UDP_TIMEOUT | ICMP_TIMEOUT | TCP_EST_TIMEOUT | TCP_TRANS_TIMEOUT | FRAGMENT_TIMEOUT
| MAX_PKTS | SRC_ICMP6ERRS_BETTER | BIB_LOGGING | SESSION_LOGGING
| DROP_BY_ADDR | DROP_ICMP6_INFO | DROP_EXTERNAL_TCP
| COMPUTE_UDP_CSUM_ZERO | EAM_HAIRPINNING_MODE | RANDOMIZE_RFC6791
| RESET_TCLASS | RESET_TOS | NEW_TOS | DF_ALWAYS_ON | BUILD_IPV6_FH | BUILD_IPV4_ID | LOWER_MTU_FAIL
| MTU_PLATEAUS | DISABLE | ENABLE | ATOMIC_FRAGMENTS
| UNKNOWN_TYPE (n : Z).

#[global] Instance global_type_eq_dec : EqDecision global_type.
Proof. solve_decision. Defined.

(** ** The structure *)

Record atomic_frags_config : Type := AtomicFrags {
  df_always_on : Z;
  build_ipv6_fh : Z;
  build_ipv4_id : Z;
  lower_mtu_fail : Z
}.

Record ttl_config : Type := TtlConfig {
  ttl_udp : Z;
  ttl_icmp : Z;
  ttl_tcp_est : Z;
  ttl_tcp_trans : Z;
  ttl_frag : Z
}.

Record nat64_config : Type := Nat64Config {
  nc_ttl : ttl_config;
  drop_by_addr : Z;
  drop_icmp6_info : Z;
  drop_external_tcp : Z;
  max_stored_pkts : Z;
  src_icmp6errs_better : Z;
  bib_logging : Z;
  session_logging : Z
}.

Record siit_config : Type := SiitConfig {
  compute_udp_csum_zero : Z;
  randomize_error_addresses : Z;
  eam_hairpin_mode : Z
}.

Record global_config : Type := GlobalConfig {
  jool_status : Z;
  is_disable : Z;
  reset_traffic_class : Z;
  reset_tos : Z;
  new_tos : Z;
  gc_atomic_frags : atomic_frags_config;
  mtu_plateaus : option positive;
  mtu_plateau_count : Z;
  gc_nat64 : nat64_config;
  gc_siit : siit_config
}.

(** The pointer [config], the arrays that were allocated, and the
    allocations to come. *)
Record config_world : Type := ConfigWorld {
  cw_config : option global_config;
  cw_arrays : gmap positive (list Z);
  cw_next : positive;
  cw_allocs : allocs
}.

Definition cw_alloc : M config_world bool := fun w =>
  let '(ok, al) := kmalloc (cw_allocs w) in Some (ok, ConfigWorld (cw_config w) (cw_arrays w) (cw_next w) al).

(** [kmalloc] and [memcpy]. *)
Definition new_array (l : list Z) : M config_world (option positive) :=
  ok ← cw_alloc;
  if ok : bool then
    w ← get;
    modify (fun w => ConfigWorld (cw_config w) (<[cw_next w := l]> (cw_arrays w)) (Pos.succ (cw_next w)) (cw_allocs w));;
    mret (Some (cw_next w))
  else mret None.

Definition kfree_array (p : option positive) : M config_world unit :=
  match p with
  | None => mret tt
  | Some p =>
      w ← get;
      _ ← load (cw_arrays w !! p);
      modify (fun w => ConfigWorld (cw_config w) (delete p (cw_arrays w)) (cw_next w) (cw_allocs w))
  end.

Definition set_config (c : option global_config) : M config_world unit :=
  modify (fun w => ConfigWorld c (cw_arrays w) (cw_next w) (cw_allocs w)).

(** Seconds. *)
Definition UDP_MIN : Z := 2 * 60.
Definition UDP_DEFAULT : Z := 5 * 60.
Definition TCP_EST : Z := 2 * 60 * 60.
Definition TCP_TRANS : Z := 4 * 60.
Definition ICMP_DEFAULT : Z := 60.
Definition FRAGMENT_MIN : Z := 2.
Definition DEFAULT_MTU_PLATEAUS : list Z := [65535; 32000; 17914; 8166; 4352; 2002; 1492; 1006; 508; 296; 68].

Definition b2z (b : bool) : Z := if b then 1 else 0.

(** The kernel's library.  The laws say that [sort] sorts, for a comparison
    that is an order. *)
Class KernelLib : Type := {
  msecs_to_jiffies : Z -> Z;
  jiffies_to_msecs : Z -> Z;
  ksort : (Z -> Z -> Z) -> list Z -> list Z
}.

Class KernelLibLaws (K : KernelLib) : Prop := {
  ksort_perm cmp l : Permutation (ksort cmp l) l;
  ksort_sorted cmp l : (forall a b, cmp a b <= 0 \/ cmp b a <= 0) -> (forall a b c, cmp a b <= 0 -> cmp b c <= 0 -> cmp a c <= 0) ->
    StronglySorted (fun a b => cmp a b <= 0) (ksort cmp l)
}.

Section Config.
Context {K : KernelLib}.

(** ** [config.c] *)

Definition default_config (disabled : bool) : global_config :=
  GlobalConfig 0 (b2z disabled) 0 0 0 (AtomicFrags 0 0 1 1) None 0
    (Nat64Config
       (TtlConfig (msecs_to_jiffies (1000 * UDP_DEFAULT)) (msecs_to_jiffies (1000 * ICMP_DEFAULT)) (msecs_to_jiffies (1000 * TCP_EST))
          (msecs_to_jiffies (1000 * TCP_TRANS)) (msecs_to_jiffies (1000 * FRAGMENT_MIN)))
       0 0 0 10 0 0 0)
    (SiitConfig 0 1 2).

Definition with_plateaus (p : option positive) (count : Z) (c : global_config) : global_config :=
  GlobalConfig (jool_status c) (is_disable c) (reset_traffic_class c) (reset_tos c) (new_tos c) (gc_atomic_frags c) p count (gc_nat64 c) (gc_siit c).
Definition with_is_disable (x : Z) (c : global_config) : global_config :=
  GlobalConfig (jool_status c) x (reset_traffic_class c) (reset_tos c) (new_tos c) (gc_atomic_frags c) (mtu_plateaus c) (mtu_plateau_count c) (gc_nat64 c) (gc_siit c).
Definition with_tos (tclass reset_tos new_tos : Z) (c : global_config) : global_config :=
  GlobalConfig (jool_status c) (is_disable c) tclass reset_tos new_tos (gc_atomic_frags c) (mtu_plateaus c) (mtu_plateau_count c) (gc_nat64 c) (gc_siit c).
Definition with_atomic_frags (a : atomic_frags_config) (c : global_config) : global_config :=
  GlobalConfig (jool_status c) (is_disable c) (reset_traffic_class c) (reset_tos c) (new_tos c) a (mtu_plateaus c) (mtu_plateau_count c) (gc_nat64 c) (gc_siit c).
Definition with_nat64 (n : nat64_config) (c : global_config) : global_config :=
  GlobalConfig (jool_status c) (is_disable c) (reset_traffic_class c) (reset_tos c) (new_tos c) (gc_atomic_frags c) (mtu_plateaus c) (mtu_plateau_count c) n (gc_siit c).
Definition with_siit (s : siit_config) (c : global_config) : global_config :=
  GlobalConfig (jool_status c) (is_disable c) (reset_traffic_class c) (reset_tos c) (new_tos c) (gc_atomic_frags c) (mtu_plateaus c) (mtu_plateau_count c) (gc_nat64 c) s.
Definition with_ttl (t : ttl_config) (c : global_config) : global_config :=
  let n := gc_nat64 c in
  with_nat64 (Nat64Config t (drop_by_addr n) (drop_icmp6_info n) (drop_external_tcp n) (max_stored_pkts n) (src_icmp6errs_better n) (bib_logging n) (session_logging n)) c.

Definition config_init (disabled : bool) : M config_world (result unit) :=
  ok ← cw_alloc;
  if negb ok then mret (Err ENOMEM)
  else
    p ← new_array DEFAULT_MTU_PLATEAUS;
    match p with
    | None => mret (Err ENOMEM)
    | Some p => set_config (Some (with_plateaus (Some p) (Z.of_nat (length DEFAULT_MTU_PLATEAUS)) (default_config disabled)));; mret (Ok tt)
    end.

(** The copy and, with [ENOMEM], what it is then: its array is NULL. *)
Definition config_clone : M config_world (result global_config) :=
  w ← get;
  tmp ← load (cw_config w);
  p ← load (mtu_plateaus tmp);
  plateaus ← load (cw_arrays w !! p);
  if Z.of_nat (length plateaus) <? mtu_plateau_count tmp then fault
  else
    clone ← new_array (take (Z.to_nat (mtu_plateau_count tmp)) plateaus);
    match clone with
    | None => mret (Err ENOMEM)
    | Some clone => mret (Ok (with_plateaus (Some clone) (mtu_plateau_count tmp) tmp))
    end.

Definition config_replace (new : option global_config) : M config_world unit :=
  w ← get;
  old ← load (cw_config w);
  set_config new;;
  kfree_array (mtu_plateaus old).

Definition config_destroy : M config_world unit := config_replace None.

(** What is sent to userspace: the structure and the array after it. *)
Definition serialize_global_config (c : global_config) (pools_empty : bool) : M config_world (result (global_config * list Z)) :=
  ok ← cw_alloc;
  if negb ok then mret (Err ENOMEM)
  else
    w ← get;
    p ← load (mtu_plateaus c);
    plateaus ← load (cw_arrays w !! p);
    let t := nc_ttl (gc_nat64 c) in
    let disabled := negb (is_disable c =? 0) || pools_empty in
    let c := with_ttl (TtlConfig (jiffies_to_msecs (ttl_udp t)) (jiffies_to_msecs (ttl_icmp t)) (jiffies_to_msecs (ttl_tcp_est t))
                        (jiffies_to_msecs (ttl_tcp_trans t)) (jiffies_to_msecs (ttl_frag t))) c in
    mret (Ok (GlobalConfig (b2z (negb disabled)) (is_disable c) (reset_traffic_class c) (reset_tos c) (new_tos c) (gc_atomic_frags c)
                (mtu_plateaus c) (mtu_plateau_count c) (gc_nat64 c) (gc_siit c), take (Z.to_nat (mtu_plateau_count c)) plateaus)).

(** The readers: a member of the structure [config] points to, as the type
    they return. *)
Definition RCU_THINGY {A} (field : global_config -> A) : M config_world A := w ← get; c ← load (cw_config w); mret (field c).

Definition to_bool (x : Z) : bool := negb (x =? 0).

Definition config_get_ttl_udp : M config_world Z := RCU_THINGY (fun c => ttl_udp (nc_ttl (gc_nat64 c))).
Definition config_get_ttl_tcpest : M config_world Z := RCU_THINGY (fun c => ttl_tcp_est (nc_ttl (gc_nat64 c))).
Definition config_get_ttl_tcptrans : M config_world Z := RCU_THINGY (fun c => ttl_tcp_trans (nc_ttl (gc_nat64 c))).
Definition config_get_ttl_icmp : M config_world Z := RCU_THINGY (fun c => ttl_icmp (nc_ttl (gc_nat64 c))).
Definition config_get_ttl_frag : M config_world Z := RCU_THINGY (fun c => ttl_frag (nc_ttl (gc_nat64 c))).
Definition config_get_max_pkts : M config_world Z := RCU_THINGY (fun c => u32 (max_stored_pkts (gc_nat64 c))).
Definition config_get_src_icmp6errs_better : M config_world bool := RCU_THINGY (fun c => to_bool (src_icmp6errs_better (gc_nat64 c))).
Definition config_get_bib_logging : M config_world bool := RCU_THINGY (fun c => to_bool (bib_logging (gc_nat64 c))).
Definition config_get_session_logging : M config_world bool := RCU_THINGY (fun c => to_bool (session_logging (gc_nat64 c))).
Definition config_get_filter_icmpv6_info : M config_world bool := RCU_THINGY (fun c => to_bool (drop_icmp6_info (gc_nat64 c))).
Definition config_get_addr_dependent_filtering : M config_world bool := RCU_THINGY (fun c => to_bool (drop_by_addr (gc_nat64 c))).
Definition config_get_drop_external_connections : M config_world bool := RCU_THINGY (fun c => to_bool (drop_external_tcp (gc_nat64 c))).
Definition config_amend_zero_csum : M config_world bool := RCU_THINGY (fun c => to_bool (compute_udp_csum_zero (gc_siit c))).
Definition config_eam_hairpin_mode : M config_world Z := RCU_THINGY (fun c => eam_hairpin_mode (gc_siit c)).
Definition config_randomize_rfc6791_pool : M config_world bool := RCU_THINGY (fun c => to_bool (randomize_error_addresses (gc_siit c))).
Definition config_get_reset_traffic_class : M config_world bool := RCU_THINGY (fun c => to_bool (reset_traffic_class c)).
Definition config_get_hdr4_config : M config_world (bool * Z * bool * bool) := RCU_THINGY (fun c =>
  (to_bool (reset_tos c), new_tos c, to_bool (build_ipv4_id (gc_atomic_frags c)), to_bool (df_always_on (gc_atomic_frags c)))).
Definition config_get_build_ipv6_fh : M config_world bool := RCU_THINGY (fun c => to_bool (build_ipv6_fh (gc_atomic_frags c))).
Definition config_get_lower_mtu_fail : M config_world bool := RCU_THINGY (fun c => to_bool (lower_mtu_fail (gc_atomic_frags c))).
Definition config_get_mtu_plateaus : M config_world (option positive * Z) := RCU_THINGY (fun c => (mtu_plateaus c, mtu_plateau_count c)).
Definition config_is_xlat_disabled : M config_world bool := RCU_THINGY (fun c => to_bool (is_disable c)).

(** ** [nl_handler.c] *)

(** [value] is what userspace sent, and [size] the number of bytes the
    request claims.  Numbers are in the order of the host (little-endian). *)
Fixpoint le_num (l : list Z) : Z := match l with [] => 0 | x :: l => x + 256 * le_num l end.

Definition ld_value (n : nat) (value : bytes) : option Z :=
  if (n <=? length value)%nat then Some (le_num (take n value)) else None.

Definition ensure_bytes (actual expected : Z) : bool := negb (negb (actual =? expected)).

(** The timeout, if it is accepted. *)
Definition assign_timeout (value64 min : Z) : option Z :=
  if value64 <? u32 (1000 * min) then None
  else if 0xFFFFFFFF <? value64 then None
  else Some (msecs_to_jiffies value64).

Definition be16_compare (a b : Z) : Z := b - a.

(** The loop that removes zeroes and duplicates, with [n] elements to go: the
    array it leaves and its last [i]. *)
Fixpoint plateau_loop (n : nat) (i j : nat) (arr : list Z) : list Z * nat :=
  match n with
  | O => (arr, i)
  | S n =>
      if arr !!! j =? 0 then (arr, i)
      else if negb (arr !!! i =? arr !!! j) then plateau_loop n (S i) (S j) (<[S i := arr !!! j]> arr)
      else plateau_loop n i (S j) arr
  end.

Fixpoint u16s (n : nat) (value : bytes) : option (list Z) :=
  match n with
  | O => Some []
  | S n => x ← ld_value 2 value; l ← u16s n (drop 2 value); Some (x :: l)
  end.

(** The status and the structure, whose array is another if there was memory
    for it. *)
Definition update_plateaus (c : global_config) (size : Z) (value : bytes) : M config_world (result unit * global_config) :=
  let count := u32 (size / 2) in
  if count =? 0 then mret (Err EINVAL, c)
  else if size mod 2 =? 1 then mret (Err EINVAL, c)
  else
    list ← load (u16s (Z.to_nat count) value);
    let list := ksort be16_compare list in
    let '(list, i) := plateau_loop (Z.to_nat count - 1) 0 1 list in
    if list !!! 0%nat =? 0 then mret (Err EINVAL, c)
    else
      p ← new_array (take (S i) list);
      match p with
      | None => mret (Err ENOMEM, with_plateaus None (mtu_plateau_count c) c)
      | Some p => mret (Ok tt, with_plateaus (Some p) (u16 (Z.of_nat (S i))) c)
      end.

(** The [switch]: [false] is [goto einval]; and the structure as it is then. *)
Definition set_byte (size : Z) (value : bytes) (c : global_config) (f : Z -> global_config) : M config_world (bool * global_config) :=
  if negb (ensure_bytes size 1) then mret (false, c)
  else x ← load (ld_value 1 value); mret (true, f x).

Definition set_timeout (size : Z) (value : bytes) (min : Z) (c : global_config) (f : Z -> ttl_config) : M config_world (bool * global_config) :=
  if negb (ensure_bytes size 8) then mret (false, c)
  else
    x ← load (ld_value 8 value);
    match assign_timeout x min with
    | None => mret (false, c)
    | Some x => mret (true, with_ttl (f x) c)
    end.

Definition global_switch (type : global_type) (size : Z) (value : bytes) (c : global_config) : M config_world (bool * global_config) :=
  let n := gc_nat64 c in
  let t := nc_ttl n in
  let s := gc_siit c in
  let a := gc_atomic_frags c in
  let byte := set_byte size value c in
  match type with
  | MAX_PKTS =>
      if negb (ensure_bytes size 8) then mret (false, c)
      else
        x ← load (ld_value 8 value);
        mret (true, with_nat64 (Nat64Config t (drop_by_addr n) (drop_icmp6_info n) (drop_external_tcp n) x (src_icmp6errs_better n) (bib_logging n) (session_logging n)) c)
  | SRC_ICMP6ERRS_BETTER =>
      byte (fun x => with_nat64 (Nat64Config t (drop_by_addr n) (drop_icmp6_info n) (drop_external_tcp n) (max_stored_pkts n) x (bib_logging n) (session_logging n)) c)
  | BIB_LOGGING =>
      byte (fun x => with_nat64 (Nat64Config t (drop_by_addr n) (drop_icmp6_info n) (drop_external_tcp n) (max_stored_pkts n) (src_icmp6errs_better n) x (session_logging n)) c)
  | SESSION_LOGGING =>
      byte (fun x => with_nat64 (Nat64Config t (drop_by_addr n) (drop_icmp6_info n) (drop_external_tcp n) (max_stored_pkts n) (src_icmp6errs_better n) (bib_logging n) x) c)
  | UDP_TIMEOUT => set_timeout size value UDP_MIN c (fun x => TtlConfig x (ttl_icmp t) (ttl_tcp_est t) (ttl_tcp_trans t) (ttl_frag t))
  | ICMP_TIMEOUT => set_timeout size value 0 c (fun x => TtlConfig (ttl_udp t) x (ttl_tcp_est t) (ttl_tcp_trans t) (ttl_frag t))
  | TCP_EST_TIMEOUT => set_timeout size value TCP_EST c (fun x => TtlConfig (ttl_udp t) (ttl_icmp t) x (ttl_tcp_trans t) (ttl_frag t))
  | TCP_TRANS_TIMEOUT => set_timeout size value TCP_TRANS c (fun x => TtlConfig (ttl_udp t) (ttl_icmp t) (ttl_tcp_est t) x (ttl_frag t))
  | FRAGMENT_TIMEOUT => set_timeout size value FRAGMENT_MIN c (fun x => TtlConfig (ttl_udp t) (ttl_icmp t) (ttl_tcp_est t) (ttl_tcp_trans t) x)
  | DROP_BY_ADDR =>
      byte (fun x => with_nat64 (Nat64Config t x (drop_icmp6_info n) (drop_external_tcp n) (max_stored_pkts n) (src_icmp6errs_better n) (bib_logging n) (session_logging n)) c)
  | DROP_ICMP6_INFO =>
      byte (fun x => with_nat64 (Nat64Config t (drop_by_addr n) x (drop_external_tcp n) (max_stored_pkts n) (src_icmp6errs_better n) (bib_logging n) (session_logging n)) c)
  | DROP_EXTERNAL_TCP =>
      byte (fun x => with_nat64 (Nat64Config t (drop_by_addr n) (drop_icmp6_info n) x (max_stored_pkts n) (src_icmp6errs_better n) (bib_logging n) (session_logging n)) c)
  | COMPUTE_UDP_CSUM_ZERO => byte (fun x => with_siit (SiitConfig x (randomize_error_addresses s) (eam_hairpin_mode s)) c)
  | EAM_HAIRPINNING_MODE => byte (fun x => with_siit (SiitConfig (compute_udp_csum_zero s) (randomize_error_addresses s) x) c)
  | RANDOMIZE_RFC6791 => byte (fun x => with_siit (SiitConfig (compute_udp_csum_zero s) x (eam_hairpin_mode s)) c)
  | RESET_TCLASS => byte (fun x => with_tos x (reset_tos c) (new_tos c) c)
  | RESET_TOS => byte (fun x => with_tos (reset_traffic_class c) x (new_tos c) c)
  | NEW_TOS => byte (fun x => with_tos (reset_traffic_class c) (reset_tos c) x c)
  | DF_ALWAYS_ON => byte (fun x => with_atomic_frags (AtomicFrags x (build_ipv6_fh a) (build_ipv4_id a) (lower_mtu_fail a)) c)
  | BUILD_IPV6_FH => byte (fun x => with_atomic_frags (AtomicFrags (df_always_on a) x (build_ipv4_id a) (lower_mtu_fail a)) c)
  | BUILD_IPV4_ID => byte (fun x => with_atomic_frags (AtomicFrags (df_always_on a) (build_ipv6_fh a) x (lower_mtu_fail a)) c)
  | LOWER_MTU_FAIL => byte (fun x => with_atomic_frags (AtomicFrags (df_always_on a) (build_ipv6_fh a) (build_ipv4_id a) x) c)
  | MTU_PLATEAUS =>
      '(r, c) ← update_plateaus c size value;
      mret (match r with Ok _ => true | Err _ => false end, c)
  | DISABLE => mret (true, with_is_disable 1 c)
  | ENABLE => mret (true, with_is_disable 0 c)
  | ATOMIC_FRAGMENTS => byte (fun x => with_atomic_frags (AtomicFrags x x (b2z (x =? 0)) (b2z (x =? 0))) c)
  | UNKNOWN_TYPE _ => mret (false, c)
  end.

Definition timer_needs_update (type : global_type) : bool :=
  match type with UDP_TIMEOUT | ICMP_TIMEOUT | TCP_EST_TIMEOUT | TCP_TRANS_TIMEOUT => true | _ => false end.

(** [Ok true]: [sessiondb_update_timers] is called at the end. *)
Definition handle_global_update (type : global_type) (size : Z) (value : bytes) : M config_world (result bool) :=
  ok ← cw_alloc;
  if negb ok then mret (Err ENOMEM)
  else
    clone ← config_clone;
    match clone with
    | Err error => mret (Err error)
    | Ok clone =>
        '(ok, new) ← global_switch type size value clone;
        if ok : bool then config_replace (Some new);; mret (Ok (timer_needs_update type))
        else kfree_array (mtu_plateaus new);; mret (Err EINVAL)
    end.

End Config.
