(* ===== verification/ConfigSpec.v ===== *)
(** * Requests to change the configuration

    What the requests do to the configuration, and what holds of it after any
    sequence of them. *)
From S2P Require Import Prelude Types SessionSpec Skb Xlat46 Config.

(** ** The plateaus *)

(** A list the translator can search: its values are positive and decrease. *)
Definition plateaus_ok (l : list Z) : Prop := l <> [] /\ StronglySorted (fun a b => b < a) l /\ Forall (fun x => 0 < x < 2 ^ 16) l.

Lemma sorted_lookup {A} (R : A -> A -> Prop) l : StronglySorted R l -> forall i j a b, l !! i = Some a -> l !! j = Some b -> (i < j)%nat -> R a b.
Proof.
  induction 1 as [|x l Hl IH Hx]; intros i j a b Hi Hj Hlt; [done|]. destruct j as [|j]; [lia|]. destruct i as [|i]; cbn in *.
  - injection Hi as <-. rewrite Forall_forall in Hx. apply Hx. exact (list_elem_of_lookup_2 _ _ _ Hj).
  - apply (IH i j); done || lia.
Qed.

Lemma sorted_snoc {A} (R : A -> A -> Prop) l x : StronglySorted R l -> Forall (fun a => R a x) l -> StronglySorted R (l ++ [x]).
Proof.
  induction 1 as [|a l Hl IH Ha]; intros Hx; [repeat constructor|]. apply Forall_cons in Hx as [Hax Hx]. cbn. constructor; [apply IH, Hx|]. apply Forall_app. split; [done|]. repeat constructor. done.
Qed.

Section Loop.
Context (L : list Z) (HL : StronglySorted (fun a b => b <= a) L) (Hpos : Forall (fun x => 0 <= x) L).

(** The part of the array that is done has the elements of the part of the list that was read, once each. *)
Record loop_inv (i j : nat) (arr : list Z) : Prop := {
  li_lt : (i < j <= length L)%nat;
  li_len : length arr = length L;
  li_rest : forall k, (j <= k)%nat -> arr !! k = L !! k;
  li_sorted : StronglySorted (fun a b => b < a) (take (S i) arr);
  li_last : arr !! i = L !! (j - 1)%nat;
  li_elems : forall x, x ∈ take (S i) arr <-> x ∈ take j L;
  li_pos : forall x, x ∈ take j L -> 0 < x
}.

Lemma elem_take x n (l : list Z) : x ∈ take n l <-> exists k, (k < n)%nat /\ l !! k = Some x.
Proof.
  rewrite list_elem_of_lookup. split.
  - intros [k Hk]. apply lookup_take_Some in Hk as [Hk Hn]. eauto.
  - intros (k & Hk & Hx). exists k. rewrite lookup_take_lt by done. done.
Qed.

Lemma take_write i (arr : list Z) v : (S i < length arr)%nat -> take (S (S i)) (<[S i := v]> arr) = take (S i) arr ++ [v].
Proof. intros H. erewrite take_S_r by (apply list_lookup_insert_eq; lia). rewrite take_insert_ge by lia. done. Qed.

Lemma plateau_loop_spec n : forall i j arr, loop_inv i j arr -> (n + j = length L)%nat ->
  let '(arr', i') := plateau_loop n i j arr in
  (i' < length L)%nat /\ length arr' = length L /\ arr' !! 0%nat = arr !! 0%nat /\
  StronglySorted (fun a b => b < a) (take (S i') arr') /\ (forall x, x ∈ take (S i') arr' <-> x ∈ L /\ x <> 0).
Proof.
  induction n as [|n IH]; intros i j arr Hi Hn; cbn [plateau_loop].
  - destruct Hi. split_and!; try done || lia. intros x. rewrite li_elems0. rewrite take_ge by lia. split; [|tauto]. intros Hx. split; [done|]. specialize (li_pos0 x). rewrite take_ge in li_pos0 by lia. specialize (li_pos0 Hx). lia.
  - pose proof Hi as [Hlt Hlen Hrest Hs Hlast Hel Hp]. destruct (lookup_lt_is_Some_2 L j ltac:(lia)) as [v Hv]. pose proof (Hrest j ltac:(lia)) as Hj. rewrite Hv in Hj.
    destruct (lookup_lt_is_Some_2 L (j - 1) ltac:(lia)) as [u Hu]. rewrite Hu in Hlast.
    rewrite (list_lookup_total_correct _ _ _ Hj), (list_lookup_total_correct _ _ _ Hlast). assert (Hvu : v <= u) by (apply (sorted_lookup _ _ HL (j - 1) j u v Hu Hv); lia).
    assert (Hv0 : 0 <= v) by (rewrite Forall_forall in Hpos; apply Hpos; exact (list_elem_of_lookup_2 _ _ _ Hv)).
    destruct (Z.eqb_spec v 0) as [->|Hnz].
    + split_and!; try done || lia. intros x. rewrite Hel. split.
      * intros Hx. split; [|specialize (Hp x Hx); lia]. apply elem_take in Hx as (k & _ & Hk). exact (list_elem_of_lookup_2 _ _ _ Hk).
      * intros [[k Hk]%list_elem_of_lookup Hx]. apply elem_take. exists k. split; [|done]. destruct (decide (k < j)%nat); [done|]. exfalso.
        assert (x <= 0). { destruct (decide (k = j)) as [->|]; [rewrite Hk in Hv; injection Hv; lia|]. apply (sorted_lookup _ _ HL j k 0 x Hv Hk). lia. }
        rewrite Forall_forall in Hpos. specialize (Hpos x (list_elem_of_lookup_2 _ _ _ Hk)). lia.
    + assert (Hel' : forall x, x ∈ take (S j) L <-> x ∈ take j L \/ x = v).
      { intros x. rewrite (take_S_r _ _ _ Hv), elem_of_app, list_elem_of_singleton. done. }
      assert (Hp' : forall x, x ∈ take (S j) L -> 0 < x) by (intros x [Hx| ->]%Hel'; [apply Hp, Hx|lia]).
      destruct (Z.eqb_spec u v) as [->|Huv]; cbn [negb].
      * apply (IH i (S j) arr); [|lia]. split; try done || lia.
        -- intros k Hk. apply Hrest. lia.
        -- rewrite Hlast. replace (S j - 1)%nat with j by lia. done.
        -- intros x. rewrite Hel, Hel'. split; [auto|]. intros [Hx| ->]; [done|]. apply elem_take. exists (j - 1)%nat. split; [lia|done].
      * assert (Hsi : (S i < length arr)%nat) by lia. specialize (IH (S i) (S j) (<[S i := v]> arr)). destruct (plateau_loop n (S i) (S j) _) as [arr' i'].
        destruct IH as (I1 & I2 & I3 & I4); [|lia|split_and!; try tauto; rewrite I3; apply list_lookup_insert_ne; lia].
        split; try done || lia.
        -- rewrite length_insert. done.
        -- intros k Hk. rewrite list_lookup_insert_ne by lia. apply Hrest. lia.
        -- rewrite take_write by done. apply sorted_snoc; [done|]. apply Forall_forall. intros x Hx. apply Hel, elem_take in Hx as (k & Hk & Hx).
           assert (u <= x); [|lia]. destruct (decide (k = j - 1)%nat) as [->|]; [rewrite Hu in Hx; injection Hx; lia|]. apply (sorted_lookup _ _ HL k (j - 1) x u Hx Hu). lia.
        -- rewrite list_lookup_insert_eq by done. replace (S j - 1)%nat with j by lia. done.
        -- intros x. rewrite take_write by done. rewrite elem_of_app, list_elem_of_singleton, Hel, Hel'. done.
Qed.

End Loop.

Lemma plateaus_length l : StronglySorted (fun a b => b < a) l -> Forall (fun x => 0 < x < 2 ^ 16) l -> Z.of_nat (length l) < 2 ^ 16.
Proof.
  intros Hs Hr. assert (Hnd : NoDup l).
  { induction Hs as [|x l Hs IH Hx]; [constructor|]. apply Forall_cons in Hr as [_ Hr]. constructor; [|exact (IH Hr)]. intros Hin. rewrite Forall_forall in Hx. specialize (Hx x Hin). lia. }
  assert (Hsub : l ⊆+ seqZ 1 65535). { apply NoDup_submseteq; [done|]. intros x Hx. rewrite Forall_forall in Hr. specialize (Hr x Hx). apply elem_of_seqZ. lia. }
  apply submseteq_length in Hsub. rewrite length_seqZ in Hsub. lia.
Qed.

(** The first plateau below a length is the greatest one. *)
Lemma find_plateau_greatest l len : StronglySorted (fun a b => b < a) l ->
  match find_plateau l len with
  | Some x => x ∈ l /\ x < len /\ forall y, y ∈ l -> y < len -> y <= x
  | None => forall y, y ∈ l -> len <= y
  end.
Proof.
  induction 1 as [|x l Hl IH Hx]; cbn [find_plateau]; [intros y Hy; apply not_elem_of_nil in Hy; done|]. rewrite Forall_forall in Hx. destruct (Z.ltb_spec x len).
  - split; [left|]. split; [done|]. intros y [->|Hy]%elem_of_cons _; [lia|]. specialize (Hx y Hy). lia.
  - destruct (find_plateau l len) as [y|].
    + destruct IH as (Hin & Hlt & Hmax). split; [right; done|]. split; [done|]. intros z [->|Hz]%elem_of_cons Hzl; [lia|]. exact (Hmax z Hz Hzl).
    + intros y [->|Hy]%elem_of_cons; [lia|exact (IH y Hy)].
Qed.

Lemma le_num_range l : wf_bytes l -> 0 <= le_num l < 2 ^ (8 * Z.of_nat (length l)).
Proof.
  induction l as [|x l IH]; intros Hw; cbn [le_num length]; [lia|]. apply Forall_cons in Hw as [[Hx Hx'] Hw]. specialize (IH Hw).
  replace (8 * Z.of_nat (S (length l))) with (8 * Z.of_nat (length l) + 8) by lia. rewrite Z.pow_add_r by lia. lia.
Qed.

Lemma u16s_run n : forall value, wf_bytes value -> (2 * n <= length value)%nat ->
  exists l, u16s n value = Some l /\ length l = n /\ Forall (fun x => 0 <= x < 2 ^ 16) l.
Proof.
  induction n as [|n IH]; intros value Hw Hlen; [exists []; split_and!; [done..|constructor]|]. cbn [u16s]. unfold ld_value. destruct (Nat.leb_spec 2 (length value)); [|lia].
  destruct (IH (drop 2 value)) as (l & Hl & Hn & Hr); [apply Forall_drop, Hw|rewrite length_drop; lia|]. cbn [mbind option_bind]. rewrite Hl. eexists. split; [reflexivity|]. split; [cbn; lia|]. constructor; [|done].
  pose proof (le_num_range (take 2 value) (Forall_take _ _ _ Hw)) as H2. rewrite length_take in H2. replace (Nat.min 2 (length value)) with 2%nat in H2 by lia. exact H2.
Qed.

(** ** The world *)

Lemma cw_alloc_run w : cw_alloc w = Some ((kmalloc (cw_allocs w)).1, ConfigWorld (cw_config w) (cw_arrays w) (cw_next w) (kmalloc (cw_allocs w)).2).
Proof. unfold cw_alloc. destruct (kmalloc (cw_allocs w)). done. Qed.

(** The world once an allocation was asked for, with the arrays [h] and the next address [n]. *)
Definition after_alloc (w : config_world) (h : gmap positive (list Z)) (n : positive) : config_world := ConfigWorld (cw_config w) h n (kmalloc (cw_allocs w)).2.

Lemma new_array_run l w : new_array l w =
  Some (if (kmalloc (cw_allocs w)).1 then (Some (cw_next w), after_alloc w (<[cw_next w := l]> (cw_arrays w)) (Pos.succ (cw_next w)))
        else (None, after_alloc w (cw_arrays w) (cw_next w))).
Proof. unfold new_array. rewrite (bind_run _ _ _ _ _ (cw_alloc_run w)). destruct (kmalloc (cw_allocs w)).1; done. Qed.

Lemma kfree_run p l w : cw_arrays w !! p = Some l -> kfree_array (Some p) w = Some (tt, ConfigWorld (cw_config w) (delete p (cw_arrays w)) (cw_next w) (cw_allocs w)).
Proof. intros H. unfold kfree_array, mbind, M_bind, get, load. rewrite H. done. Qed.

Section Updates.
Context {K : KernelLib} {L : KernelLibLaws K}.

(** A value that fits a message. *)
Definition wf_value (value : bytes) : Prop := wf_bytes value /\ blen value < 2 ^ 32.

(** The plateaus a request asks for. *)
Definition requested (value : bytes) : list Z := default [] (u16s (length value / 2) value).

Definition plateaus_accepted (value : bytes) : bool := (blen value mod 2 =? 0) && existsb (fun x => negb (x =? 0)) (requested value).

Lemma requested_run value : wf_bytes value ->
  u16s (length value / 2) value = Some (requested value) /\ length (requested value) = (length value / 2)%nat /\ Forall (fun x => 0 <= x < 2 ^ 16) (requested value).
Proof.
  intros Hw. unfold requested. destruct (u16s_run (length value / 2) value Hw) as (l & Hl & Hlen & Hr); [pose proof (Nat.Div0.mul_div_le (length value) 2); lia|]. rewrite Hl. done.
Qed.

Lemma sort_decreasing l : StronglySorted (fun a b => b <= a) (ksort be16_compare l) /\ Permutation (ksort be16_compare l) l.
Proof.
  split; [|apply ksort_perm]. assert (H : StronglySorted (fun a b => be16_compare a b <= 0) (ksort be16_compare l)).
  { apply ksort_sorted; unfold be16_compare; lia. }
  clear - H. induction H as [|a r Hl IH Ha]; constructor; [done|]. eapply Forall_impl; [exact Ha|]. unfold be16_compare. cbn. lia.
Qed.

(** What the loop leaves of the sorted list. *)
Lemma compact_spec l : l <> [] -> Forall (fun x => 0 <= x < 2 ^ 16) l ->
  let '(arr, i) := plateau_loop (length l - 1) 0 1 (ksort be16_compare l) in
  if existsb (fun x => negb (x =? 0)) l
  then arr !!! 0%nat <> 0 /\ plateaus_ok (take (S i) arr) /\ length (take (S i) arr) = S i /\ (forall x, x ∈ take (S i) arr <-> x ∈ l /\ x <> 0)
  else arr !!! 0%nat = 0.
Proof.
  intros Hne Hr. destruct (sort_decreasing l) as [Hs Hp]. set (S0 := ksort be16_compare l) in *. assert (Hr0 : Forall (fun x => 0 <= x < 2 ^ 16) S0) by (rewrite Hp; done).
  pose proof (Permutation_length Hp) as Hlen. destruct S0 as [|v0 S1] eqn:ES; [apply Permutation_nil in Hp; done|]. rewrite <- ES in *.
  assert (H0 : S0 !! 0%nat = Some v0) by (rewrite ES; done). assert (Hv0 : 0 <= v0 < 2 ^ 16) by (rewrite Forall_forall in Hr0; apply Hr0; exact (list_elem_of_lookup_2 _ _ _ H0)).
  assert (Hmax : forall x, x ∈ l -> x <= v0).
  { intros x Hx. rewrite <- Hp in Hx. apply list_elem_of_lookup in Hx as [[|k] Hk]; [rewrite H0 in Hk; injection Hk; lia|]. apply (sorted_lookup _ _ Hs 0 (S k) v0 x H0 Hk). lia. }
  assert (Hl0 : (0 < length l)%nat) by (destruct l; [done|cbn; lia]).
  destruct (Z.eqb_spec v0 0) as [Ez|Hnz].
  - (* all zeroes: the loop stops at once, or does not run *)
    assert (Hx : existsb (fun x => negb (x =? 0)) l = false).
    { apply not_true_iff_false. intros (x & Hx & Hnx)%existsb_exists. apply list_elem_of_In in Hx. rewrite Forall_forall in Hr. specialize (Hr x Hx). specialize (Hmax x Hx). destruct (Z.eqb_spec x 0); [done|lia]. }
    rewrite Hx. destruct (length l - 1)%nat as [|n] eqn:En; cbn [plateau_loop]; [rewrite (list_lookup_total_correct _ _ _ H0); done|].
    destruct (lookup_lt_is_Some_2 S0 1 ltac:(lia)) as [v1 Hv1]. rewrite (list_lookup_total_correct _ _ _ Hv1). pose proof (sorted_lookup _ _ Hs 0 1 v0 v1 H0 Hv1 ltac:(lia)) as Hle.
    rewrite Forall_forall in Hr0. specialize (Hr0 v1 (list_elem_of_lookup_2 _ _ _ Hv1)). destruct (Z.eqb_spec v1 0); [|cbn in Hle; lia]. rewrite (list_lookup_total_correct _ _ _ H0). done.
  - assert (Hx : existsb (fun x => negb (x =? 0)) l = true).
    { apply existsb_exists. exists v0. split; [apply list_elem_of_In; rewrite <- Hp; exact (list_elem_of_lookup_2 _ _ _ H0)|]. destruct (Z.eqb_spec v0 0); done. }
    rewrite Hx. assert (Hi : loop_inv S0 0 1 S0).
    { rewrite ES. cbn [take]. split; cbn [take length]; try done || lia.
      - repeat constructor.
      - intros x Hx'%list_elem_of_singleton. lia. }
    pose proof (plateau_loop_spec S0 Hs ltac:(eapply Forall_impl; [exact Hr0|]; cbn; lia) (length l - 1) 0 1 S0 Hi ltac:(lia)) as Hspec.
    destruct (plateau_loop (length l - 1) 0 1 S0) as [arr i]. destruct Hspec as (Hi' & Hlen' & H0' & Hsort & Hel). rewrite H0 in H0'.
    assert (Hel' : forall x, x ∈ take (S i) arr <-> x ∈ l /\ x <> 0) by (intros x; rewrite Hel, Hp; done).
    split_and!; [rewrite (list_lookup_total_correct _ _ _ H0'); done| |rewrite length_take; lia|done]. split_and!; [|done|].
    + destruct arr; [done|]. done.
    + apply Forall_forall. intros x Hxx. apply Hel' in Hxx as [Hxl Hx0]. rewrite Forall_forall in Hr. specialize (Hr x Hxl). lia.
Qed.

Lemma update_plateaus_run c value w : wf_value value ->
  if plateaus_accepted value
  then exists l, plateaus_ok l /\ (forall x, x ∈ l <-> x ∈ requested value /\ x <> 0) /\
    update_plateaus c (blen value) value w =
      Some (if (kmalloc (cw_allocs w)).1
            then ((Ok tt, with_plateaus (Some (cw_next w)) (Z.of_nat (length l)) c), after_alloc w (<[cw_next w := l]> (cw_arrays w)) (Pos.succ (cw_next w)))
            else ((Err ENOMEM, with_plateaus None (mtu_plateau_count c) c), after_alloc w (cw_arrays w) (cw_next w)))
  else update_plateaus c (blen value) value w = Some ((Err EINVAL, c), w).
Proof.
  intros [Hw Hb32]. destruct (requested_run value Hw) as (Hu & Hlen & Hr). unfold plateaus_accepted, update_plateaus.
  assert (Hdiv : u32 (blen value / 2) = Z.of_nat (length value / 2)).
  { unfold u32, blen in *. rewrite Z.mod_small by (split; [apply Z.div_pos; lia|apply Z.div_lt_upper_bound; lia]). rewrite Nat2Z.inj_div. done. }
  rewrite Hdiv.
  pose proof (Z.mod_pos_bound (blen value) 2 ltac:(lia)) as Hm. destruct (Z.eqb_spec (blen value mod 2) 0) as [Em|Em]; cbn [andb].
  - destruct (Z.eqb_spec (Z.of_nat (length value / 2)) 0) as [E0|E0].
    + rewrite <- Hlen in E0. destruct (requested value) as [|x l]; [done|]. cbn [length] in E0. lia.
    + rewrite Em, Nat2Z.id. change (0 =? 1) with false. cbn iota. rewrite Hu. rewrite (bind_run (load (Some (requested value))) _ w (requested value) w) by done.
      pose proof (compact_spec (requested value)) as Hc. rewrite <- Hlen. rewrite <- Hlen in E0.
      destruct (plateau_loop (length (requested value) - 1) 0 1 _) as [arr i]. specialize (Hc ltac:(intros E; rewrite E in E0; done) Hr).
      destruct (existsb _ (requested value)).
      * destruct Hc as (Hnz & Hok & Hli & Hel). exists (take (S i) arr). split; [done|]. split; [done|]. destruct (Z.eqb_spec (arr !!! 0%nat) 0); [done|].
        unfold mbind at 1, M_bind at 1. rewrite new_array_run. pose proof Hok as (_ & Hso & Hra). pose proof (plateaus_length _ Hso Hra) as Hb. rewrite Hli in *.
        unfold u16. rewrite Z.mod_small by lia. destruct (kmalloc (cw_allocs w)).1; done.
      * rewrite Hc. done.
  - assert (E1 : blen value mod 2 = 1) by lia. rewrite E1. destruct (Z.of_nat (length value / 2) =? 0); done.
Qed.

(** ** Settings *)

(** What a setting is, in a configuration with the plateaus [l]. *)
Definition observe (type : global_type) (c : global_config) (l : list Z) : list Z :=
  let n := gc_nat64 c in
  let t := nc_ttl n in
  let s := gc_siit c in
  let a := gc_atomic_frags c in
  match type with
  | UDP_TIMEOUT => [ttl_udp t] | ICMP_TIMEOUT => [ttl_icmp t] | TCP_EST_TIMEOUT => [ttl_tcp_est t] | TCP_TRANS_TIMEOUT => [ttl_tcp_trans t]
  | FRAGMENT_TIMEOUT => [ttl_frag t] | MAX_PKTS => [max_stored_pkts n] | SRC_ICMP6ERRS_BETTER => [src_icmp6errs_better n]
  | BIB_LOGGING => [bib_logging n] | SESSION_LOGGING => [session_logging n] | DROP_BY_ADDR => [drop_by_addr n]
  | DROP_ICMP6_INFO => [drop_icmp6_info n] | DROP_EXTERNAL_TCP => [drop_external_tcp n]
  | COMPUTE_UDP_CSUM_ZERO => [compute_udp_csum_zero s] | EAM_HAIRPINNING_MODE => [eam_hairpin_mode s] | RANDOMIZE_RFC6791 => [randomize_error_addresses s]
  | RESET_TCLASS => [reset_traffic_class c] | RESET_TOS => [reset_tos c] | NEW_TOS => [new_tos c]
  | DF_ALWAYS_ON => [df_always_on a] | BUILD_IPV6_FH => [build_ipv6_fh a] | BUILD_IPV4_ID => [build_ipv4_id a] | LOWER_MTU_FAIL => [lower_mtu_fail a]
  | MTU_PLATEAUS => l
  | DISABLE | ENABLE => [is_disable c]
  | ATOMIC_FRAGMENTS => [df_always_on a; build_ipv6_fh a; build_ipv4_id a; lower_mtu_fail a]
  | UNKNOWN_TYPE _ => []
  end.

(** Two requests that are about the same setting. *)
Definition overlaps (t1 t2 : global_type) : bool :=
  match t1, t2 with
  | (DISABLE | ENABLE), (DISABLE | ENABLE) => true
  | ATOMIC_FRAGMENTS, (DF_ALWAYS_ON | BUILD_IPV6_FH | BUILD_IPV4_ID | LOWER_MTU_FAIL)
  | (DF_ALWAYS_ON | BUILD_IPV6_FH | BUILD_IPV4_ID | LOWER_MTU_FAIL), ATOMIC_FRAGMENTS => true
  | _, _ => bool_decide (t1 = t2)
  end.

(** The minimum of a timeout, in milliseconds. *)
Definition minimum (type : global_type) : option Z :=
  match type with
  | UDP_TIMEOUT => Some 120000 | ICMP_TIMEOUT => Some 0 | TCP_EST_TIMEOUT => Some 7200000 | TCP_TRANS_TIMEOUT => Some 240000 | FRAGMENT_TIMEOUT => Some 2000
  | _ => None
  end.

(** The requests that are valid. *)
Definition accepts (type : global_type) (value : bytes) : bool :=
  match minimum type with
  | Some min => (blen value =? 8) && (min <=? le_num value) && (le_num value <? 2 ^ 32)
  | None =>
      match type with
      | MAX_PKTS => blen value =? 8
      | MTU_PLATEAUS => plateaus_accepted value
      | DISABLE | ENABLE => true
      | UNKNOWN_TYPE _ => false
      | _ => blen value =? 1
      end
  end.

(** What a valid request sets its setting to. *)
Definition written (type : global_type) (value l : list Z) : Prop :=
  match minimum type with
  | Some _ => l = [msecs_to_jiffies (le_num value)]
  | None =>
      match type with
      | MTU_PLATEAUS => plateaus_ok l /\ forall x, x ∈ l <-> x ∈ requested value /\ x <> 0
      | DISABLE => l = [1]
      | ENABLE => l = [0]
      | ATOMIC_FRAGMENTS => let x := le_num value in l = [x; x; b2z (x =? 0); b2z (x =? 0)]
      | _ => l = [le_num value]
      end
  end.

Definition timeout_ok (min x : Z) : Prop := exists ms, min <= ms < 2 ^ 32 /\ x = msecs_to_jiffies ms.

(** RFC 6146's minima. *)
Definition timeouts_ok (c : global_config) : Prop :=
  let t := nc_ttl (gc_nat64 c) in
  timeout_ok 120000 (ttl_udp t) /\ timeout_ok 0 (ttl_icmp t) /\ timeout_ok 7200000 (ttl_tcp_est t) /\ timeout_ok 240000 (ttl_tcp_trans t) /\ timeout_ok 2000 (ttl_frag t).

Lemma ld_all n value : length value = n -> ld_value n value = Some (le_num value).
Proof. intros <-. unfold ld_value. rewrite Nat.leb_refl, firstn_all. done. Qed.

Lemma set_byte_run value c f w : exists c', set_byte (blen value) value c f w = Some ((blen value =? 1, c'), w) /\ c' = if blen value =? 1 then f (le_num value) else c.
Proof.
  unfold set_byte, ensure_bytes. rewrite negb_involutive. destruct (Z.eqb_spec (blen value) 1) as [E|E]; cbn [negb]; [|eauto].
  rewrite (ld_all 1) by (unfold blen in E; lia). eauto.
Qed.

Lemma set_timeout_run value min c f w : 0 <= 1000 * min < 2 ^ 32 ->
  let ok := (blen value =? 8) && (1000 * min <=? le_num value) && (le_num value <? 2 ^ 32) in
  exists c', set_timeout (blen value) value min c f w = Some ((ok, c'), w) /\ c' = if ok then with_ttl (f (msecs_to_jiffies (le_num value))) c else c.
Proof.
  intros Hmin. unfold set_timeout, ensure_bytes. rewrite negb_involutive. destruct (Z.eqb_spec (blen value) 8) as [E|E]; cbn [negb andb]; [|eauto].
  rewrite (ld_all 8) by (unfold blen in E; lia). unfold mbind, M_bind, load, assign_timeout, u32. rewrite Z.mod_small by done.
  destruct (Z.ltb_spec (le_num value) (1000 * min)), (Z.leb_spec (1000 * min) (le_num value)); try lia; cbn [andb]; [eauto|].
  destruct (Z.ltb_spec 0xFFFFFFFF (le_num value)), (Z.ltb_spec (le_num value) (2 ^ 32)); try lia; eauto.
Qed.

(** A switch that leaves [c'], accepted or not. *)
Definition switched (type : global_type) (value : bytes) (c c' : global_config) : Prop :=
  mtu_plateaus c' = mtu_plateaus c /\ mtu_plateau_count c' = mtu_plateau_count c /\
  (accepts type value = true -> (forall l, written type value (observe type c' l)) /\ forall t' l, overlaps type t' = false -> observe t' c' l = observe t' c l) /\
  (timeouts_ok c -> timeouts_ok c').

Ltac other_settings := let t' := fresh in let Hov := fresh in intros t' ? Hov; destruct t'; first [done | discriminate Hov].

Ltac byte_case :=
  match goal with
  | |- exists c', set_byte (blen ?v) ?v ?c ?f ?w = _ /\ _ =>
      let c' := fresh "c'" in let Hrun := fresh in let Hc := fresh in
      destruct (set_byte_run v c f w) as (c' & Hrun & Hc); exists c'; split; [exact Hrun|]; subst c'; unfold switched, accepts; cbn [minimum];
      destruct (blen v =? 1); (split; [done|]); (split; [done|]); (split; [|done]); (intros E; first [discriminate E | split; [done|other_settings]])
  end.

Lemma timeout_switch type value min c f w : minimum type = Some (1000 * min) -> 0 <= 1000 * min < 2 ^ 32 ->
  (forall x l, observe type (with_ttl (f x) c) l = [x]) ->
  (forall x t' l, overlaps type t' = false -> observe t' (with_ttl (f x) c) l = observe t' c l) ->
  (forall x, timeout_ok (1000 * min) x -> timeouts_ok c -> timeouts_ok (with_ttl (f x) c)) ->
  exists c', set_timeout (blen value) value min c f w = Some ((accepts type value, c'), w) /\ switched type value c c'.
Proof.
  intros Hm Hr Hput Hframe Htime. destruct (set_timeout_run value min c f w Hr) as (c' & Hrun & Hc). exists c'. unfold switched, accepts, written. rewrite Hm. split; [exact Hrun|]. subst c'.
  destruct (_ && _) eqn:Ea; [|split_and!; done]. split_and!; [done|done| |].
  - intros _. split; [intros l; apply Hput|intros t' l; apply Hframe].
  - intros Ht. apply Htime; [|done]. rewrite !andb_true_iff, Z.leb_le, Z.ltb_lt in Ea. exists (le_num value). split; [lia|done].
Qed.

(** The [switch] changes its setting and no other. *)
Lemma switch_run type value c w : type <> MTU_PLATEAUS -> exists c', global_switch type (blen value) value c w = Some ((accepts type value, c'), w) /\ switched type value c c'.
Proof.
  intros Hne. destruct type; try done; cbn [global_switch]; try byte_case.
  1-5: apply timeout_switch; [done|done|done|intros ?; other_settings|intros ? ? (? & ? & ? & ? & ?); split_and!; done].
  - unfold ensure_bytes. rewrite negb_involutive. unfold accepts. cbn [minimum]. destruct (Z.eqb_spec (blen value) 8) as [E|E]; cbn [negb].
    + rewrite (ld_all 8) by (unfold blen in E; lia). eexists. split; [reflexivity|]. split_and!; [done..|intros _; split; [done|other_settings]|done].
    + eexists. split; [reflexivity|]. split_and!; [done..| |done]. unfold accepts. cbn [minimum]. destruct (Z.eqb_spec (blen value) 8); done.
  - eexists. split; [reflexivity|]. split_and!; [done..|intros _; split; [done|other_settings]|done].
  - eexists. split; [reflexivity|]. split_and!; [done..|intros _; split; [done|other_settings]|done].
  - eexists. split; [reflexivity|]. split_and!; done.
Qed.

(** ** Updates *)

(** The configuration is [c], with the plateaus [l]. *)
Definition config_ok (c : global_config) (l : list Z) (w : config_world) : Prop :=
  cw_config w = Some c /\ timeouts_ok c /\ plateaus_ok l /\ mtu_plateau_count c = Z.of_nat (length l) /\
  (exists p, mtu_plateaus c = Some p /\ cw_arrays w !! p = Some l) /\ (forall q, is_Some (cw_arrays w !! q) -> (q < cw_next w)%positive).

Lemma fresh_array c l w : config_ok c l w -> forall n, (cw_next w <= n)%positive -> cw_arrays w !! n = None.
Proof. intros (_ & _ & _ & _ & _ & Hf) n Hn. destruct (cw_arrays w !! n) eqn:E; [|done]. specialize (Hf n ltac:(eauto)). lia. Qed.

Lemma clone_run c l w : config_ok c l w -> config_clone w =
  Some (if (kmalloc (cw_allocs w)).1 then (Ok (with_plateaus (Some (cw_next w)) (mtu_plateau_count c) c), after_alloc w (<[cw_next w := l]> (cw_arrays w)) (Pos.succ (cw_next w)))
        else (Err ENOMEM, after_alloc w (cw_arrays w) (cw_next w))).
Proof.
  intros (Hc & _ & _ & Hn & (p & Hp & Hl) & _). unfold config_clone. unfold get, mbind at 1, M_bind at 1. rewrite Hc, some_bind, Hp, some_bind, Hl, some_bind, Hn. destruct (Z.ltb_spec (Z.of_nat (length l)) (Z.of_nat (length l))); [lia|].
  rewrite Nat2Z.id, firstn_all. unfold mbind, M_bind. rewrite new_array_run. destruct (kmalloc (cw_allocs w)).1; done.
Qed.

(** An update that is refused frees the copy it was made on. *)
Lemma config_ok_alloc c l w al : config_ok c l w -> config_ok c l (ConfigWorld (cw_config w) (cw_arrays w) (cw_next w) al).
Proof. intros (? & ? & ? & ? & ? & ?). split_and!; done. Qed.

(** More arrays, and addresses, than before. *)
Lemma config_ok_extra c l w h n al : config_ok c l w -> (forall q x, cw_arrays w !! q = Some x -> h !! q = Some x) -> (forall q, is_Some (h !! q) -> (q < n)%positive) ->
  config_ok c l (ConfigWorld (cw_config w) h n al).
Proof. intros (? & ? & ? & ? & (p & ? & Hl) & ?) Hh Hn. split_and!; try done. exists p. split; [done|]. apply Hh, Hl. Qed.

Lemma replace_run c l w h n al new : config_ok c l w -> (forall q x, cw_arrays w !! q = Some x -> h !! q = Some x) ->
  exists p, mtu_plateaus c = Some p /\ config_replace (Some new) (ConfigWorld (cw_config w) h n al) = Some (tt, ConfigWorld (Some new) (delete p h) n al).
Proof.
  intros (Hc & _ & _ & _ & (p & Hp & Hl) & _) Hh. exists p. split; [done|]. unfold config_replace, get, mbind at 1, M_bind at 1. cbn [cw_config]. rewrite Hc, some_bind, Hp.
  unfold set_config, modify, mbind, M_bind. erewrite kfree_run by (cbn [cw_arrays]; apply Hh, Hl). done.
Qed.

(** The answer to a request. *)
Definition update_outcome (type : global_type) (value : bytes) (c : global_config) (l : list Z) (w : config_world) (r : result bool) (w' : config_world) : Prop :=
  match r with
  | Ok timers => accepts type value = true /\ timers = timer_needs_update type /\
      exists c' l', config_ok c' l' w' /\ written type value (observe type c' l') /\ (forall t', overlaps type t' = false -> observe t' c' l' = observe t' c l) /\
        size (cw_arrays w') = (size (cw_arrays w) + if decide (type = MTU_PLATEAUS) then 1 else 0)%nat
  | Err e => config_ok c l w' /\
      (e = EINVAL /\ accepts type value = false \/ (e = ENOMEM \/ e = EINVAL /\ type = MTU_PLATEAUS) /\ false ∈ cw_allocs w)
  end.

Section Request.
Context (type : global_type) (value : bytes) (c : global_config) (l : list Z) (w : config_world).
Context (Hok : config_ok c l w) (Hw : wf_value value).

(** The copy that the request is tried on, and the world after its allocations [al]. *)
Abbreviation n := (cw_next w).
Abbreviation copy := (with_plateaus (Some n) (mtu_plateau_count c) c).
Abbreviation h1 := (<[n := l]> (cw_arrays w)).

Lemma h1_old q x : cw_arrays w !! q = Some x -> h1 !! q = Some x.
Proof. intros Hq. rewrite lookup_insert_ne; [done|]. intros E. rewrite <- E, (fresh_array c l w Hok) in Hq by lia. done. Qed.

Lemma h1_fresh q : is_Some (h1 !! q) -> (q < Pos.succ n)%positive.
Proof. intros Hq. destruct (decide (q = n)) as [->|]; [lia|]. rewrite lookup_insert_ne in Hq by done. destruct Hok as (_ & _ & _ & _ & _ & Hf). apply Hf in Hq. lia. Qed.

Lemma refused al e : (e = EINVAL /\ accepts type value = false \/ (e = ENOMEM \/ e = EINVAL /\ type = MTU_PLATEAUS) /\ false ∈ cw_allocs w) ->
  exists r w', (kfree_array (Some n);; mret (Err e)) (ConfigWorld (cw_config w) h1 (Pos.succ n) al) = Some (r, w') /\ update_outcome type value c l w r w'.
Proof.
  intros He. unfold mbind, M_bind. erewrite kfree_run by (cbn [cw_arrays]; apply lookup_insert_eq). eexists _, _. split; [reflexivity|]. split; [|exact He]. cbn [cw_arrays cw_config cw_next cw_allocs].
  rewrite delete_insert_id by (apply (fresh_array c l w Hok); lia). apply (config_ok_extra c l w); [done|done|]. intros q Hq. destruct Hok as (_ & _ & _ & _ & _ & Hf). apply Hf in Hq. lia.
Qed.

Lemma accepted_other al c' : switched type value copy c' -> accepts type value = true -> type <> MTU_PLATEAUS ->
  exists r w', (config_replace (Some c');; mret (Ok (timer_needs_update type))) (ConfigWorld (cw_config w) h1 (Pos.succ n) al) = Some (r, w') /\ update_outcome type value c l w r w'.
Proof.
  intros (Hp' & Hn' & Hacc & Ht) Ha Hne. destruct (replace_run c l w h1 (Pos.succ n) al c' Hok h1_old) as (p & Hp & Hrun). unfold mbind, M_bind. rewrite Hrun. eexists _, _. split; [reflexivity|].
  destruct (Hacc Ha) as [Hput Hframe]. pose proof Hok as (Hc & Ht0 & Hpl & Hcount & (p' & Hp0 & Hl) & Hf). assert (p' = p) as -> by congruence.
  assert (Hpn : p <> n) by (intros E; rewrite E, (fresh_array c l w Hok) in Hl by lia; done). split; [done|]. split; [done|]. exists c', l. split_and!.
  - split_and!; [done|apply Ht; exact Ht0|done|rewrite Hn'; done| |].
    + exists n. split; [exact Hp'|]. cbn [cw_arrays]. rewrite lookup_delete_ne, lookup_insert_eq by done. done.
    + cbn [cw_arrays cw_next]. intros q Hq. apply lookup_delete_is_Some in Hq as [_ Hq]. apply h1_fresh, Hq.
  - apply Hput.
  - intros t' Ho. rewrite Hframe by done. destruct t'; done.
  - cbn [cw_arrays]. rewrite decide_False by done. rewrite map_size_delete_Some by (apply h1_old in Hl; eauto). rewrite map_size_insert_None by (apply (fresh_array c l w Hok); lia). lia.
Qed.

Lemma accepted_plateaus al l' : type = MTU_PLATEAUS -> accepts type value = true -> plateaus_ok l' -> (forall x, x ∈ l' <-> x ∈ requested value /\ x <> 0) ->
  exists r w', (config_replace (Some (with_plateaus (Some (Pos.succ n)) (Z.of_nat (length l')) copy));; mret (Ok (timer_needs_update type)))
      (ConfigWorld (cw_config w) (<[Pos.succ n := l']> h1) (Pos.succ (Pos.succ n)) al) = Some (r, w') /\ update_outcome type value c l w r w'.
Proof.
  intros -> Ha Hl' Hel. set (h2 := <[Pos.succ n := l']> h1). assert (Hn1 : h1 !! Pos.succ n = None) by (destruct (h1 !! Pos.succ n) eqn:E; [pose proof (h1_fresh (Pos.succ n) ltac:(eauto)); lia|done]).
  assert (Hold : forall q x, cw_arrays w !! q = Some x -> h2 !! q = Some x).
  { intros q x Hq. apply h1_old in Hq. unfold h2. rewrite lookup_insert_ne; [done|]. intros E. rewrite <- E in Hq. congruence. }
  set (c' := with_plateaus _ _ _). destruct (replace_run c l w h2 (Pos.succ (Pos.succ n)) al c' Hok Hold) as (p & Hp & Hrun). unfold mbind, M_bind. rewrite Hrun. eexists _, _. split; [reflexivity|].
  pose proof Hok as (Hc & Ht0 & Hpl & Hcount & (p' & Hp0 & Hl) & Hf). assert (p' = p) as -> by congruence. assert (Hpn : p <> Pos.succ n) by (intros E; rewrite E in Hl; apply h1_old in Hl; congruence).
  split; [done|]. split; [done|]. exists c', l'. split_and!.
  - split_and!; [done|exact Ht0|done|done| |].
    + exists (Pos.succ n). split; [done|]. cbn [cw_arrays]. unfold h2. rewrite lookup_delete_ne, lookup_insert_eq by done. done.
    + cbn [cw_arrays cw_next]. intros q Hq. apply lookup_delete_is_Some in Hq as [_ Hq]. unfold h2 in Hq. destruct (decide (q = Pos.succ n)) as [->|]; [lia|]. rewrite lookup_insert_ne in Hq by done. apply h1_fresh in Hq. lia.
  - split; done.
  - intros t' Ho. destruct t'; first [done|discriminate Ho].
  - cbn [cw_arrays]. rewrite decide_True by done. rewrite map_size_delete_Some by (apply Hold in Hl; eauto). unfold h2. rewrite map_size_insert_None by done.
    rewrite map_size_insert_None by (apply (fresh_array c l w Hok); lia). lia.
Qed.

Lemma global_update_run : exists r w', handle_global_update type (blen value) value w = Some (r, w') /\ update_outcome type value c l w r w'.
Proof.
  unfold handle_global_update. rewrite (bind_run _ _ _ _ _ (cw_alloc_run w)). destruct (kmalloc (cw_allocs w)) as [[] al1] eqn:E1; cbn [fst snd negb].
  2:{ eexists _, _. split; [reflexivity|]. split; [apply config_ok_alloc, Hok|]. right. split; [auto|]. apply kmalloc_fails. rewrite E1. done. }
  assert (Hal : false ∈ al1 -> false ∈ cw_allocs w) by (intros H; apply kmalloc_rest; rewrite E1; exact H).
  unfold mbind at 1, M_bind at 1. rewrite (clone_run c l) by (apply config_ok_alloc, Hok). cbn [cw_allocs cw_next cw_arrays]. unfold after_alloc. cbn [cw_config cw_allocs].
  destruct (kmalloc al1) as [[] al2] eqn:E2; cbn [fst snd].
  2:{ eexists _, _. split; [reflexivity|]. split; [apply config_ok_alloc, Hok|]. right. split; [auto|]. apply Hal, kmalloc_fails. rewrite E2. done. }
  assert (Hal2 : false ∈ al2 -> false ∈ cw_allocs w) by (intros H; apply Hal, kmalloc_rest; rewrite E2; exact H).
  set (w2 := ConfigWorld (cw_config w) h1 (Pos.succ n) al2). destruct (decide (type = MTU_PLATEAUS)) as [Et|Hne].
  - pose proof (update_plateaus_run copy value w2 Hw) as Hu. assert (Eacc : accepts type value = plateaus_accepted value) by (rewrite Et; done).
    assert (Hg : global_switch type = global_switch MTU_PLATEAUS) by (rewrite Et; done). rewrite Hg. cbn [global_switch]. destruct (plateaus_accepted value).
    + destruct Hu as (l' & Hl' & Hel & Hu). unfold after_alloc in Hu. change (cw_allocs w2) with al2 in Hu. destruct (kmalloc al2) as [[] al3] eqn:E3; cbn [fst snd] in Hu.
      * erewrite bind_run by (rewrite (bind_run _ _ _ _ _ Hu); reflexivity). exact (accepted_plateaus al3 l' Et Eacc Hl' Hel).
      * erewrite bind_run by (rewrite (bind_run _ _ _ _ _ Hu); reflexivity). eexists _, _. split; [reflexivity|]. split.
        -- apply (config_ok_extra c l w); [done|exact h1_old|exact h1_fresh].
        -- right. split; [auto|]. apply Hal2, kmalloc_fails. rewrite E3. done.
    + erewrite bind_run by (rewrite (bind_run _ _ _ _ _ Hu); reflexivity). apply refused. left. done.
  - destruct (switch_run type value copy w2 Hne) as (c' & Hrun & Hs). rewrite (bind_run _ _ _ _ _ Hrun).
    destruct (accepts type value) eqn:Ea; [apply (accepted_other al2 c'); done|]. destruct Hs as (Hp' & _). rewrite Hp'. apply refused. left. done.
Qed.

End Request.

End Updates.

(** *** The size a request claims *)

Lemma ld_value_rest n value rest : (n <= length value)%nat -> ld_value n (value ++ rest) = ld_value n value.
Proof.
  intros Hn. unfold ld_value. rewrite length_app, !(proj2 (Nat.leb_le _ _)) by lia. rewrite take_app_le by lia. done.
Qed.

Lemma u16s_rest n : forall value rest, (2 * n <= length value)%nat -> u16s n (value ++ rest) = u16s n value.
Proof.
  induction n as [|n IH]; intros value rest Hn; [done|]. cbn [u16s]. rewrite ld_value_rest by lia.
  rewrite drop_app_le by lia. rewrite IH by (rewrite length_drop; lia). done.
Qed.

Lemma ensure_bytes_iff value n : ensure_bytes (blen value) n = true <-> blen value = n.
Proof. unfold ensure_bytes. rewrite negb_involutive. apply Z.eqb_eq. Qed.

(** What follows the bytes a request claims is not looked at. *)
Lemma switch_rest {K : KernelLib} type value rest c w : wf_value value ->
  global_switch type (blen value) (value ++ rest) c w = global_switch type (blen value) value c w.
Proof.
  intros [_ Hv]. assert (Hld : forall n, ensure_bytes (blen value) (Z.of_nat n) = true -> ld_value n (value ++ rest) = ld_value n value).
  { intros n Hn. apply ensure_bytes_iff in Hn. apply ld_value_rest. unfold blen in Hn. lia. }
  assert (Hb : forall f, set_byte (blen value) (value ++ rest) c f w = set_byte (blen value) value c f w).
  { intros f. unfold set_byte. destruct (ensure_bytes (blen value) 1) eqn:E; [|done]. rewrite (Hld 1%nat E). done. }
  assert (Ht : forall min f, set_timeout (blen value) (value ++ rest) min c f w = set_timeout (blen value) value min c f w).
  { intros min f. unfold set_timeout. destruct (ensure_bytes (blen value) 8) eqn:E; [|done]. rewrite (Hld 8%nat E). done. }
  destruct type; cbn [global_switch]; try apply Hb; try apply Ht; try done.
  - destruct (ensure_bytes (blen value) 8) eqn:E; [|done]. rewrite (Hld 8%nat E). done.
  - unfold update_plateaus. assert (Hc : u32 (blen value / 2) = blen value / 2).
    { unfold u32. apply Z.mod_small. unfold blen in *. pose proof (Z.div_pos (Z.of_nat (length value)) 2). split; [lia|]. apply Z.div_lt_upper_bound; lia. }
    rewrite Hc, u16s_rest; [done|]. unfold blen. pose proof (Z.mul_div_le (Z.of_nat (length value)) 2 ltac:(lia)).
    assert (0 <= Z.of_nat (length value) / 2) by (apply Z.div_pos; lia). lia.
Qed.

Lemma update_rest {K : KernelLib} type value rest w : wf_value value ->
  handle_global_update type (blen value) (value ++ rest) w = handle_global_update type (blen value) value w.
Proof.
  intros Hv. unfold handle_global_update, mbind, M_bind. destruct (cw_alloc w) as [[ok w1]|]; [|done]. destruct (negb ok); [done|].
  destruct (config_clone w1) as [[[clone|e] w2]|]; [|done..]. rewrite switch_rest by done. done.
Qed.

(** A request that claims more than it has: the read past its end. *)
Lemma overlong_plateaus_fault {K : KernelLib} c w :
  update_plateaus c 8 [220; 5] w = None.
Proof. reflexivity. Qed.

(** C31: a request to change the configuration changes the setting it is
    about, and nothing else.  The request has at least the bytes it claims
    ([rest] is what follows them); one that claims more than it has is read
    past its end ([overlong_plateaus_fault]).  It is accepted exactly when the
    size it claims is that of the setting (for enabling and disabling the
    translation, any) and its value, for a timeout, is between the minimum of
    RFC 6146 and 32 bits of milliseconds, or, for the MTU plateaus, has
    something but zeroes; the setting then is the value (the plateaus, sorted,
    without zeroes and duplicates), every setting the request does not overlap
    with is as it was, and the sessions' timers are updated if it was one of
    their timeouts.  Any other request is refused and leaves the configuration
    as it was.  No such request faults, so none uses an array that was freed;
    but the array of a new list of plateaus takes the place of the copy of the
    old one, which is never freed, and a lack of memory for it is reported as
    [-EINVAL]. *)
Theorem global_update_correct {K : KernelLib} {L : KernelLibLaws K} type value rest c l w (Hok : config_ok c l w) (Hw : wf_value value) :
  exists r w', handle_global_update type (blen value) (value ++ rest) w = Some (r, w') /\
  match r with
  | Ok timers => accepts type value = true /\ timers = timer_needs_update type /\
      exists c' l', config_ok c' l' w' /\ written type value (observe type c' l') /\ (forall t', overlaps type t' = false -> observe t' c' l' = observe t' c l) /\
        size (cw_arrays w') = (size (cw_arrays w) + if decide (type = MTU_PLATEAUS) then 1 else 0)%nat
  | Err e => config_ok c l w' /\
      (e = EINVAL /\ accepts type value = false \/ (e = ENOMEM \/ e = EINVAL /\ type = MTU_PLATEAUS) /\ false ∈ cw_allocs w)
  end.
Proof. rewrite update_rest by done. exact (global_update_run type value c l w Hok Hw). Qed.

Definition sorts_before (cmp : Z -> Z -> Z) (a b : Z) : Prop := cmp a b <= 0.

#[global] Instance sorts_before_dec cmp a b : Decision (sorts_before cmp a b).
Proof. unfold sorts_before. apply _. Defined.

(** A kernel with a clock of 1000 Hz. *)
#[local] Instance sample_lib : KernelLib := {|
  msecs_to_jiffies x := x;
  jiffies_to_msecs x := x;
  ksort cmp l := merge_sort (sorts_before cmp) l
|}.

Lemma sample_lib_laws : KernelLibLaws sample_lib.
Proof.
  split.
  - intros cmp l. apply merge_sort_Permutation.
  - intros cmp l Ht Htr. apply Sorted_StronglySorted; [intros a b c; apply Htr|]. apply Sorted_merge_sort. intros a b. apply Ht.
Qed.

(** ** All configurations *)

Section Reachable.
Context {K : KernelLib}.

(** The worlds the module and its user can bring about. *)
Inductive config_reachable : config_world -> Prop :=
| reach_init disabled al w : config_init disabled (ConfigWorld None ∅ 1 al) = Some (Ok tt, w) -> config_reachable w
| reach_update type value rest r w w' : config_reachable w -> wf_value value -> handle_global_update type (blen value) (value ++ rest) w = Some (r, w') -> config_reachable w'.

Lemma default_plateaus_ok : plateaus_ok DEFAULT_MTU_PLATEAUS.
Proof. split_and!; [done| |]; unfold DEFAULT_MTU_PLATEAUS; repeat constructor; lia. Qed.

Lemma init_ok disabled al w : config_init disabled (ConfigWorld None ∅ 1 al) = Some (Ok tt, w) -> exists c, config_ok c DEFAULT_MTU_PLATEAUS w.
Proof.
  unfold config_init. rewrite (bind_run _ _ _ _ _ (cw_alloc_run _)). destruct (kmalloc _).1; cbn [negb]; [|done]. unfold mbind at 1, M_bind at 1. rewrite new_array_run. destruct (kmalloc _).1; [|done].
  intros [= <-]. eexists. split; [reflexivity|]. split; [|split; [exact default_plateaus_ok|split; [done|split]]].
  - split_and!; cbn; eexists; (split; [|reflexivity]); cbv; split; congruence.
  - eexists. split; [reflexivity|]. apply lookup_insert_eq.
  - cbn [cw_arrays cw_next after_alloc]. intros q Hq. destruct (decide (q = 1%positive)) as [->|]; [done|]. rewrite lookup_insert_ne, lookup_empty in Hq by done. destruct Hq. done.
Qed.

Lemma reachable_ok {L : KernelLibLaws K} w : config_reachable w -> exists c l, config_ok c l w.
Proof.
  induction 1 as [disabled al w Hi|type value rest r w w' Hr (c & l & IH) Hw Hrun]; [destruct (init_ok _ _ _ Hi) as [c Hc]; eauto|].
  destruct (global_update_run type value c l w IH Hw) as (r' & w0 & Hrun' & Hout). rewrite update_rest in Hrun by done. rewrite Hrun in Hrun'. injection Hrun' as <- <-.
  destruct r as [timers|e]; [destruct Hout as (_ & _ & c' & l' & Hok & _); eauto|destruct Hout as [Hok _]; eauto].
Qed.

End Reachable.

(** C32: whatever is requested of it, the configuration stays one the
    translator can work with.  After the module was started and after any
    sequence of requests that have at least the bytes they claim (their values
    may be anything; one that claims more than it has is read past its end,
    [overlong_plateaus_fault]), every timeout is the number of jiffies of a
    time that is not below the minimum RFC 6146 gives it; the plateaus are
    positive and strictly decreasing, so that the search of
    [icmp6_minimum_mtu] finds the greatest plateau below the length of the
    packet, as it should, and finds none only if there is none; and the next
    such request does not fault. *)
Theorem reachable_config {K : KernelLib} {L : KernelLibLaws K} w (Hr : config_reachable w) :
  exists c l p, cw_config w = Some c /\ timeouts_ok c /\
    mtu_plateaus c = Some p /\ cw_arrays w !! p = Some l /\ mtu_plateau_count c = Z.of_nat (length l) /\ plateaus_ok l /\
    (forall len, match find_plateau l len with
                 | Some x => x ∈ l /\ x < len /\ forall y, y ∈ l -> y < len -> y <= x
                 | None => forall y, y ∈ l -> len <= y
                 end) /\
    (forall type value rest, wf_value value -> exists r w', handle_global_update type (blen value) (value ++ rest) w = Some (r, w')).
Proof.
  destruct (reachable_ok w Hr) as (c & l & Hok). pose proof Hok as (Hc & Ht & Hpl & Hn & (p & Hp & Hl) & _). exists c, l, p. split_and!; try done.
  - intros len. apply find_plateau_greatest, Hpl.
  - intros type value rest Hw. rewrite update_rest by done. destruct (global_update_run type value c l w Hok Hw) as (r & w' & Hrun & _). eauto.
Qed.

(** The configuration a module starts with. *)
Definition sample_world : config_world := match config_init false (ConfigWorld None ∅ 1 []) with Some (_, w) => w | None => ConfigWorld None ∅ 1 [] end.

Lemma global_update_correct_witness :
  exists w' c' l', handle_global_update MTU_PLATEAUS 8 [220; 5; 0; 0; 0; 5; 220; 5] sample_world = Some (Ok false, w') /\ config_ok c' l' w' /\ (forall x, x ∈ l' <-> x = 1500 \/ x = 1280).
Proof.
  destruct (init_ok false [] sample_world eq_refl) as [c Hc]. pose proof sample_lib_laws as SL.
  destruct (global_update_correct MTU_PLATEAUS [220; 5; 0; 0; 0; 5; 220; 5] [] c DEFAULT_MTU_PLATEAUS sample_world Hc) as (r & w' & Hrun & Hr); [split; [repeat constructor; lia|done]|]. destruct r as [timers|e].
  - destruct Hr as (_ & -> & c' & l' & Hok & (_ & Hel) & _). exists w', c', l'. split; [exact Hrun|]. split; [exact Hok|]. intros x. rewrite Hel.
    change (requested [220; 5; 0; 0; 0; 5; 220; 5]) with [1500; 0; 1280; 1500]. rewrite !elem_of_cons. split; [|intros [-> | ->]; split; auto; lia]. intros [[->|[->|[->|[->|Hx]]]] Hnz]; auto; [done|apply not_elem_of_nil in Hx; done].
  - vm_compute in Hrun. discriminate Hrun.
Defined.

Lemma reachable_config_witness : exists c l, cw_config sample_world = Some c /\ timeouts_ok c /\ plateaus_ok l /\ find_plateau l 1500 = Some 1492.
Proof.
  pose proof sample_lib_laws as SL. destruct (reachable_config sample_world (reach_init false [] sample_world eq_refl)) as (c & l & p & Hc & Ht & Hp & Hl & _ & Hpl & _).
  exists c, l. split_and!; try done. vm_compute in Hc. injection Hc as <-. cbn in Hp. injection Hp as <-. vm_compute in Hl. injection Hl as <-. reflexivity.
Defined.
