(* ===== verification/HashTable.v ===== *)
(** * The generic hash table

    [mod/common/hash_table.c], which is included with the types of its keys
    and values as macros: an array of chains (the kernel's [hlist], a new node
    goes first) whose nodes are also in a list, in the order they were
    inserted.  The nodes are key-value pairs that the table allocates.

    [W] is the memory the keys point to: a key is compared and hashed by
    reading it there.  The class [HashKey] says what such functions promise to
    the table, and the theorems of the table are proved against it. *)
From S2P Require Import Prelude.

(** ** The table *)

Section HashTable.
Context {W K V : Type}.

(** [struct HTABLE_NAME]: the chains and the list hold the addresses of the
    pairs of [ht_pairs] ([struct KEY_VALUE_PAIR]). *)
Record htable : Type := HTable {
  ht_table : list (list positive);
  ht_list : list positive;
  equals_function : K -> K -> W -> option bool;
  hash_function : K -> W -> option Z;
  ht_pairs : gmap positive (K * V);
  ht_next : positive;
  ht_allocs : allocs
}.

Definition tstate : Type := htable * W.

Definition set_ht (f : htable -> htable) : M tstate unit := modify (fun '(t, w) => (f t, w)).

Definition on_mem {A} (m : M W A) : M tstate A := fun '(t, w) =>
  match m w with Some (a, w) => Some (a, (t, w)) | None => None end.

(** [HASH_TABLE_SIZE] *)
Context (size : nat).

Definition bucket_of (hash_code : Z) : nat := Z.to_nat (hash_code `mod` Z.of_nat size).

(** The loop of [GET_AUX] over a chain. *)
Fixpoint find_pair (key : K) (chain : list positive) : M tstate (option positive) :=
  match chain with
  | [] => mret None
  | node :: chain =>
      '(t, w) ← get;
      '(k, _) ← load (ht_pairs t !! node);
      eq ← load (equals_function t key k w);
      if eq : bool then mret (Some node) else find_pair key chain
  end.

Definition GET_AUX (key : K) : M tstate (option positive) :=
  '(t, w) ← get;
  code ← load (hash_function t key w);
  chain ← load (ht_table t !! bucket_of code);
  find_pair key chain.

Definition INIT (equals : option (K -> K -> W -> option bool)) (hash : option (K -> W -> option Z)) : M tstate (result unit) :=
  match equals, hash with
  | None, _ => mret (Err EINVAL)
  | _, None => mret (Err EINVAL)
  | Some equals, Some hash =>
      set_ht (fun t => HTable (replicate size []) [] equals hash (ht_pairs t) (ht_next t) (ht_allocs t));;
      mret (Ok tt)
  end.

Definition PUT (key : K) (value : V) : M tstate (result unit) :=
  '(t, w) ← get;
  let '(ok, al) := kmalloc (ht_allocs t) in
  if negb ok then
    set_ht (fun t => HTable (ht_table t) (ht_list t) (equals_function t) (hash_function t) (ht_pairs t) (ht_next t) al);;
    mret (Err ENOMEM)
  else
    let key_value := ht_next t in
    code ← load (hash_function t key w);
    chain ← load (ht_table t !! bucket_of code);
    set_ht (fun t => HTable (<[bucket_of code := key_value :: chain]> (ht_table t)) (ht_list t ++ [key_value])
      (equals_function t) (hash_function t) (<[key_value := (key, value)]> (ht_pairs t)) (Pos.succ key_value) al);;
    mret (Ok tt).

Definition GET (key : K) : M tstate (option V) :=
  key_value ← GET_AUX key;
  match key_value with
  | Some node => '(t, _) ← get; '(_, value) ← load (ht_pairs t !! node); mret (Some value)
  | None => mret None
  end.

(** [hlist_del] and [list_del]: the node leaves its chain and the list. *)
Definition unlink (node : positive) : M tstate unit :=
  set_ht (fun t => HTable (map (List.filter (fun x => negb (Pos.eqb x node))) (ht_table t))
    (List.filter (fun x => negb (Pos.eqb x node)) (ht_list t))
    (equals_function t) (hash_function t) (ht_pairs t) (ht_next t) (ht_allocs t)).

(** [kfree]; a pair is not freed twice. *)
Definition free_pair (node : positive) : M tstate unit :=
  '(t, _) ← get;
  _ ← load (ht_pairs t !! node);
  set_ht (fun t => HTable (ht_table t) (ht_list t) (equals_function t) (hash_function t) (delete node (ht_pairs t)) (ht_next t) (ht_allocs t)).

(** What [REMOVE] and [EMPTY] do with a node they found. *)
Definition drop_pair (node : positive) (destructor : option (V -> M W unit)) : M tstate unit :=
  unlink node;;
  '(t, _) ← get;
  '(_, value) ← load (ht_pairs t !! node);
  match destructor with Some destructor => on_mem (destructor value) | None => mret tt end;;
  free_pair node.

Definition REMOVE (key : K) (destructor : option (V -> M W unit)) : M tstate bool :=
  key_value ← GET_AUX key;
  match key_value with
  | None => mret false
  | Some node => drop_pair node destructor;; mret true
  end.

(** The loop of [EMPTY] ends: [fuel] is the number of nodes, plus one. *)
Fixpoint empty_loop (fuel : nat) (destructor : option (V -> M W unit)) : M tstate unit :=
  match fuel with
  | O => fault
  | S fuel =>
      '(t, _) ← get;
      match ht_list t with
      | [] => mret tt
      | node :: _ => drop_pair node destructor;; empty_loop fuel destructor
      end
  end.

Definition EMPTY (destructor : option (V -> M W unit)) : M tstate unit :=
  '(t, _) ← get; empty_loop (S (length (ht_list t))) destructor.

(** The callback returns an error to stop. *)
Fixpoint for_each_loop (nodes : list positive) (func : V -> M W Z) : M tstate Z :=
  match nodes with
  | [] => mret 0
  | node :: nodes =>
      '(t, _) ← get;
      '(_, value) ← load (ht_pairs t !! node);
      error ← on_mem (func value);
      if negb (error =? 0) then mret error else for_each_loop nodes func
  end.

Definition FOR_EACH (func : V -> M W Z) : M tstate Z :=
  '(t, _) ← get; for_each_loop (ht_list t) func.

End HashTable.
Arguments htable : clear implicits.
Arguments tstate : clear implicits.

(** ** What the functions of the keys promise *)

(** A key stands for a value of [A], which is all that the functions look at. *)
Class HashKey {W K A : Type} `{EqDecision A} (equals : K -> K -> W -> option bool) (hash : K -> W -> option Z) : Type := {
  key_of : W -> K -> option A;
  code_of : W -> A -> Z;
  equals_key : forall w k1 k2 a1 a2, key_of w k1 = Some a1 -> key_of w k2 = Some a2 ->
    equals k1 k2 w = Some (bool_decide (a1 = a2));
  hash_key : forall w k a, key_of w k = Some a -> hash k w = Some (code_of w a)
}.

(** ** What the operations do *)

Lemma find_filter {X} (p q : X -> bool) (l : list X) :
  (forall x, p x = true -> q x = true) -> List.find p (List.filter q l) = List.find p l.
Proof.
  intros H. induction l as [|x l IH]; [done|]. simpl. destruct (q x) eqn:Eq; simpl; rewrite IH; [done|].
  destruct (p x) eqn:Ep; [|done]. rewrite (H x Ep) in Eq. done.
Qed.

Lemma filter_comm {X} (p q : X -> bool) (l : list X) : List.filter p (List.filter q l) = List.filter q (List.filter p l).
Proof.
  induction l as [|x l IH]; [done|]. simpl. destruct (q x) eqn:Eq; simpl; destruct (p x) eqn:Ep; simpl;
    rewrite ?Eq, ?IH; done.
Qed.

Lemma filter_same {X} (p q : X -> bool) (l : list X) :
  (forall x, x ∈ l -> p x = q x) -> List.filter p l = List.filter q l.
Proof.
  intros H. induction l as [|x l IH]; [done|]. simpl. rewrite (H x) by left.
  rewrite IH by (intros y Hy; apply H; right; done). done.
Qed.

Lemma find_same {X} (p q : X -> bool) (l : list X) : (forall x, x ∈ l -> p x = q x) -> List.find p l = List.find q l.
Proof.
  intros H. induction l as [|x l IH]; [done|]. simpl. rewrite (H x) by left.
  rewrite IH by (intros y Hy; apply H; right; done). done.
Qed.

Lemma omap_same {X Y} (f g : X -> option Y) (l : list X) : (forall x, x ∈ l -> f x = g x) -> omap f l = omap g l.
Proof.
  intros H. induction l as [|x l IH]; [done|]. csimpl. rewrite (H x) by left.
  rewrite IH by (intros y Hy; apply H; right; done). done.
Qed.

Lemma find_map_omap {X Y} (f : X -> option Y) (p : Y -> bool) (l : list X) :
  (forall x, x ∈ l -> is_Some (f x)) ->
  List.find p (omap f l) = (x ← List.find (fun x => match f x with Some y => p y | None => false end) l; f x).
Proof.
  intros H. induction l as [|x l IH]; [done|]. csimpl. destruct (H x ltac:(left)) as [y Ey]. rewrite Ey. csimpl.
  destruct (p y); [simpl; rewrite Ey; done|]. apply IH. intros z Hz. apply H. right. done.
Qed.

Lemma omap_rev {X Y} (f : X -> option Y) (l : list X) : omap f (rev l) = rev (omap f l).
Proof.
  induction l as [|x l IH]; [done|]. csimpl. rewrite omap_app, IH. csimpl. destruct (f x); [done|]. rewrite app_nil_r. done.
Qed.

Lemma omap_split {X Y} (f : X -> option Y) (y : Y) (l : list X) : forall l1 l2,
  omap f l = l1 ++ y :: l2 -> exists m1 x m2, l = m1 ++ x :: m2 /\ omap f m1 = l1 /\ f x = Some y /\ omap f m2 = l2.
Proof.
  induction l as [|x l IH]; intros l1 l2; csimpl; [destruct l1; done|]. destruct (f x) as [z|] eqn:Ez; csimpl.
  - destruct l1 as [|z' l1]; simpl; intros [= -> E].
    + exists [], x, l. done.
    + destruct (IH _ _ E) as (m1 & x1 & m2 & -> & H1 & H2). exists (x :: m1), x1, m2. csimpl. rewrite Ez, H1. done.
  - intros E. destruct (IH _ _ E) as (m1 & x1 & m2 & -> & H1 & H2). exists (x :: m1), x1, m2. csimpl. rewrite Ez, H1. done.
Qed.

Lemma find_none_iff {X} (p : X -> bool) (l : list X) : (forall x, x ∈ l -> p x = false) -> List.find p l = None.
Proof.
  intros H. induction l as [|x l IH]; [done|]. simpl. rewrite (H x) by left. apply IH. intros y Hy. apply H. right. done.
Qed.

Section Laws.
Context {W K V A : Type} `{EqDecision A} (size : nat) (Hsize : size <> 0%nat).
Context (equals : K -> K -> W -> option bool) (hash : K -> W -> option Z) {HK : HashKey (A := A) equals hash}.

Abbreviation htab := (htable W K V).

Definition slot (w : W) (a : A) : nat := bucket_of size (code_of w a).

Lemma slot_lt w a : (slot w a < size)%nat.
Proof.
  unfold slot, bucket_of. pose proof (Z.mod_pos_bound (code_of w a) (Z.of_nat size) ltac:(lia)). lia.
Qed.

(** What the table holds, in the order it was inserted. *)
Definition entry_at (t : htab) (w : W) (n : positive) : option (A * V) :=
  p ← ht_pairs t !! n; a ← key_of w (fst p); Some (a, snd p).
Definition contents (t : htab) (w : W) : list (A * V) := omap (entry_at t w) (ht_list t).

Definition has_key (t : htab) (w : W) (a : A) (n : positive) : bool :=
  match entry_at t w n with Some (b, _) => bool_decide (a = b) | None => false end.
Definition in_slot (t : htab) (w : W) (i : nat) (n : positive) : bool :=
  match entry_at t w n with Some (a, _) => (slot w a =? i)%nat | None => false end.

(** The invariant of a table: each chain is the nodes whose keys hash to it,
    the latest first, and the memory of the table is that of its list. *)
Record ht_ok (t : htab) (w : W) : Prop := HtOk {
  ok_fns : equals_function t = equals /\ hash_function t = hash;
  ok_size : length (ht_table t) = size;
  ok_nodup : NoDup (ht_list t);
  ok_pairs : forall n, is_Some (ht_pairs t !! n) <-> n ∈ ht_list t;
  ok_keys : forall n, n ∈ ht_list t -> is_Some (entry_at t w n);
  ok_next : forall n, n ∈ ht_list t -> (n < ht_next t)%positive;
  ok_chains : forall i c, ht_table t !! i = Some c -> c = List.filter (in_slot t w i) (rev (ht_list t))
}.

Lemma entry_pair t w n a v : entry_at t w n = Some (a, v) -> exists k, ht_pairs t !! n = Some (k, v) /\ key_of w k = Some a.
Proof.
  unfold entry_at. destruct (ht_pairs t !! n) as [[k x]|]; [|done]. simpl. destruct (key_of w k) eqn:E; [|done]. simpl.
  intros [= -> ->]. eauto.
Qed.

Lemma find_pair_spec t w key a chain :
  ht_ok t w -> key_of w key = Some a -> (forall n, n ∈ chain -> n ∈ ht_list t) ->
  find_pair key chain (t, w) = Some (List.find (has_key t w a) chain, (t, w)).
Proof.
  intros Hok Hk. induction chain as [|n chain IH]; intros Hin; [done|]. cbn [find_pair List.find].
  destruct (ok_keys _ _ Hok n) as [[b v] Hb]; [apply Hin; left|]. destruct (entry_pair _ _ _ _ _ Hb) as (k & Hp & Hkk).
  unfold mbind at 1, M_bind at 1, get. rewrite Hp, some_bind. destruct (ok_fns _ _ Hok) as [-> _].
  rewrite (equals_key w key k a b Hk Hkk), some_bind. unfold has_key at 1. rewrite Hb.
  case_bool_decide; [done|]. apply IH. intros m Hm. apply Hin. right. done.
Qed.

Lemma chain_at t w a : ht_ok t w -> ht_table t !! slot w a = Some (List.filter (in_slot t w (slot w a)) (rev (ht_list t))).
Proof.
  intros Hok. destruct (lookup_lt_is_Some_2 (ht_table t) (slot w a)) as [c Hc]; [rewrite (ok_size _ _ Hok); apply slot_lt|].
  rewrite Hc. rewrite (ok_chains _ _ Hok _ _ Hc). done.
Qed.

Definition find_node (t : htab) (w : W) (a : A) : option positive := List.find (has_key t w a) (rev (ht_list t)).

Lemma GET_AUX_spec t w key a :
  ht_ok t w -> key_of w key = Some a -> GET_AUX size key (t, w) = Some (find_node t w a, (t, w)).
Proof.
  intros Hok Hk. unfold GET_AUX, mbind at 1, M_bind at 1, get. destruct (ok_fns _ _ Hok) as [_ ->].
  rewrite (hash_key _ _ _ Hk), some_bind. change (bucket_of size (code_of w a)) with (slot w a).
  rewrite (chain_at _ _ a Hok), some_bind. rewrite (find_pair_spec _ _ _ a); [|done..|].
  - unfold find_node. rewrite find_filter; [done|]. intros n. unfold has_key, in_slot.
    destruct (entry_at t w n) as [[b v]|]; [|done]. intros ->%bool_decide_eq_true. apply Nat.eqb_refl.
  - intros n Hn. rewrite list_elem_of_In, filter_In in Hn. destruct Hn as [Hn _]. rewrite <- in_rev in Hn. apply list_elem_of_In. done.
Qed.

(** The latest value that was inserted with a key. *)
Definition latest (a : A) (l : list (A * V)) : option V := snd <$> List.find (fun e => bool_decide (a = fst e)) (rev l).

Lemma find_node_latest t w a :
  ht_ok t w -> (n ← find_node t w a; entry_at t w n) = List.find (fun e => bool_decide (a = fst e)) (rev (contents t w)).
Proof.
  intros Hok. unfold contents. rewrite <- omap_rev, find_map_omap.
  - unfold find_node. f_equal. apply find_same. intros n _. unfold has_key. destruct (entry_at t w n) as [[b v]|]; done.
  - intros n Hn. apply (ok_keys _ _ Hok). rewrite list_elem_of_In, <- in_rev, <- list_elem_of_In in Hn. done.
Qed.

Lemma find_node_in t w a n : find_node t w a = Some n -> n ∈ ht_list t /\ exists v, entry_at t w n = Some (a, v).
Proof.
  intros H. apply find_some in H as [Hin Hk]. split; [apply list_elem_of_In, in_rev; done|].
  unfold has_key in Hk. destruct (entry_at t w n) as [[b v]|]; [|done]. apply bool_decide_eq_true in Hk as <-. eauto.
Qed.

Lemma GET_spec t w key a :
  ht_ok t w -> key_of w key = Some a -> GET size key (t, w) = Some (latest a (contents t w), (t, w)).
Proof.
  intros Hok Hk. unfold GET. rewrite (bind_run _ _ _ _ _ (GET_AUX_spec _ _ _ _ Hok Hk)).
  unfold latest. rewrite <- find_node_latest by done. destruct (find_node t w a) as [n|] eqn:E; [|done].
  apply find_node_in in E as [Hin [v Hv]]. destruct (entry_pair _ _ _ _ _ Hv) as (k & Hp & _).
  unfold mbind at 1, M_bind at 1, get. rewrite Hp, some_bind. simpl. rewrite Hv. done.
Qed.

(** A table that was just initialised. *)
Lemma INIT_spec t w :
  ht_pairs t = ∅ ->
  exists t', INIT size (Some equals) (Some hash) (t, w) = Some (Ok tt, (t', w)) /\ (forall w', ht_ok t' w') /\ ht_list t' = [] /\ ht_allocs t' = ht_allocs t.
Proof.
  intros He. eexists. split; [reflexivity|]. split; [|done]. intros w'. split; cbn.
  - done.
  - apply length_replicate.
  - constructor.
  - intros n. rewrite He, lookup_empty. split; [intros [? ?]; done|intros H; inversion H].
  - intros n H. inversion H.
  - intros n H. inversion H.
  - intros i c [-> _]%lookup_replicate. done.
Qed.

(** The pairs themselves, in the same order. *)
Definition items (t : htab) : list (K * V) := omap (fun n => ht_pairs t !! n) (ht_list t).

Definition keyed (w : W) (p : K * V) : option (A * V) := a ← key_of w (fst p); Some (a, snd p).

Lemma contents_items t w : contents t w = omap (keyed w) (items t).
Proof.
  unfold contents, items. induction (ht_list t) as [|n l IH]; [done|]. csimpl. unfold entry_at at 1.
  destruct (ht_pairs t !! n) as [p|]; csimpl; [|done]. unfold keyed at 1. destruct (key_of w (fst p)); csimpl; rewrite IH; done.
Qed.

Lemma item_in t n p : n ∈ ht_list t -> ht_pairs t !! n = Some p -> p ∈ items t.
Proof. intros Hin Hp. apply list_elem_of_omap. eauto. Qed.

(** The memory changes, but not the keys of these pairs. *)
Definition keys_kept (l : list (K * V)) (w w' : W) : Prop :=
  (forall k v, (k, v) ∈ l -> key_of w' k = key_of w k) /\ (forall a, code_of w' a = code_of w a).

Lemma entry_kept t w w' n : n ∈ ht_list t -> keys_kept (items t) w w' -> entry_at t w' n = entry_at t w n.
Proof.
  intros Hin [Hk _]. unfold entry_at. destruct (ht_pairs t !! n) as [[k v]|] eqn:E; [|done]. simpl.
  rewrite (Hk k v); [done|]. eapply item_in; done.
Qed.

Lemma ht_ok_kept t w w' : ht_ok t w -> keys_kept (items t) w w' -> ht_ok t w'.
Proof.
  intros [Hf Hs Hn Hp Hk Hx Hc] Hkept. split; try done.
  - intros n Hin. rewrite (entry_kept t w w') by done. apply Hk. done.
  - intros i c Hi. rewrite (Hc i c Hi). apply filter_same. intros n Hin.
    rewrite list_elem_of_In, <- in_rev, <- list_elem_of_In in Hin.
    unfold in_slot. rewrite (entry_kept t w w') by done. destruct (entry_at t w n) as [[a v]|]; [|done].
    unfold slot. rewrite (proj2 Hkept). done.
Qed.

Lemma contents_kept t w w' : keys_kept (items t) w w' -> contents t w' = contents t w.
Proof. intros H. apply omap_same. intros n Hin. apply entry_kept; done. Qed.

(** *** Insertion *)

Lemma PUT_spec t w key a v :
  ht_ok t w -> key_of w key = Some a ->
  let ok := fst (kmalloc (ht_allocs t)) in
  exists t', PUT size key v (t, w) = Some (if ok then Ok tt else Err ENOMEM, (t', w)) /\ ht_ok t' w /\
    items t' = items t ++ (if ok then [(key, v)] else []) /\ ht_allocs t' = snd (kmalloc (ht_allocs t)).
Proof.
  intros Hok Hk. unfold PUT, mbind at 1, M_bind at 1, get. destruct (kmalloc (ht_allocs t)) as [ok al] eqn:Em. cbn [fst snd].
  destruct ok; cbn [negb]; cycle 1.
  { eexists. split; [reflexivity|]. rewrite app_nil_r. split; [|done]. destruct Hok. split; done. }
  destruct (ok_fns _ _ Hok) as [Eeq Ehash]. rewrite Ehash, (hash_key _ _ _ Hk), some_bind.
  change (bucket_of size (code_of w a)) with (slot w a). rewrite (chain_at _ _ a Hok), some_bind.
  eexists. split; [reflexivity|].
  assert (Hnew : ht_next t ∉ ht_list t). { intros Hin. pose proof (ok_next _ _ Hok _ Hin). lia. }
  match goal with |- ht_ok ?t1 _ /\ _ => set (t' := t1) end.
  assert (Hold : forall n, n ∈ ht_list t -> entry_at t' w n = entry_at t w n).
  { intros n Hin. unfold entry_at. cbn. rewrite lookup_insert_ne; [done|]. intros <-. done. }
  assert (Hself : entry_at t' w (ht_next t) = Some (a, v)).
  { unfold entry_at. cbn. rewrite lookup_insert_eq. cbn. rewrite Hk. done. }
  assert (Hslot : forall i n, n ∈ rev (ht_list t) -> in_slot t' w i n = in_slot t w i n).
  { intros i n Hin. rewrite list_elem_of_In, <- in_rev, <- list_elem_of_In in Hin. unfold in_slot. rewrite Hold by done. done. }
  split; [split|split; [|done]].
  - done.
  - cbn. rewrite length_insert. apply (ok_size _ _ Hok).
  - cbn. apply NoDup_app. split; [apply (ok_nodup _ _ Hok)|]. split; [|apply NoDup_singleton].
    intros n Hin ->%list_elem_of_singleton. done.
  - intros n. cbn. rewrite elem_of_app, list_elem_of_singleton. destruct (decide (n = ht_next t)) as [->|Hne].
    + rewrite lookup_insert_eq. split; eauto.
    + rewrite lookup_insert_ne by done. rewrite (ok_pairs _ _ Hok). tauto.
  - intros n. cbn. rewrite elem_of_app, list_elem_of_singleton. intros [Hin| ->]; [|eauto]. rewrite Hold by done.
    apply (ok_keys _ _ Hok). done.
  - intros n. cbn. rewrite elem_of_app, list_elem_of_singleton. intros [Hin| ->]; [|lia]. pose proof (ok_next _ _ Hok _ Hin). lia.
  - intros i c. change (ht_list t') with (ht_list t ++ [ht_next t]). rewrite rev_unit. cbn [List.filter]. unfold in_slot at 1. rewrite Hself.
    rewrite (filter_same (in_slot t' w i) (in_slot t w i)) by auto. intros Hc. apply list_lookup_insert_Some in Hc.
    destruct Hc as [(<- & <- & _)|(Hne & Hc)]; [rewrite Nat.eqb_refl; done|].
    apply Nat.eqb_neq in Hne. rewrite Hne. apply (ok_chains _ _ Hok _ _ Hc).
  - unfold items. cbn. rewrite omap_app. csimpl. rewrite lookup_insert_eq. f_equal. apply omap_same.
    intros n Hin. rewrite lookup_insert_ne; [done|]. intros <-. done.
Qed.

(** *** Removal *)

Definition run_destructor (destructor : option (V -> M W unit)) (v : V) : M W unit :=
  match destructor with Some f => f v | None => mret tt end.

Definition other (n x : positive) : bool := negb (Pos.eqb x n).

Lemma other_in n x l : x ∈ List.filter (other n) l <-> x ∈ l /\ x <> n.
Proof.
  rewrite !list_elem_of_In, filter_In. unfold other. rewrite negb_true_iff, Pos.eqb_neq. done.
Qed.

Lemma drop_pair_spec t w n k v destructor w' :
  ht_ok t w -> ht_pairs t !! n = Some (k, v) -> run_destructor destructor v w = Some (tt, w') ->
  keys_kept (omap (fun x => ht_pairs t !! x) (List.filter (other n) (ht_list t))) w w' ->
  exists t', drop_pair n destructor (t, w) = Some (tt, (t', w')) /\ ht_ok t' w' /\ ht_allocs t' = ht_allocs t /\
    ht_list t' = List.filter (other n) (ht_list t) /\
    items t' = omap (fun x => ht_pairs t !! x) (List.filter (other n) (ht_list t)).
Proof.
  intros Hok Hp Hd Hkept. unfold drop_pair, unlink, free_pair.
  set (t1 := HTable (map (List.filter (other n)) (ht_table t)) (List.filter (other n) (ht_list t))
    (equals_function t) (hash_function t) (delete n (ht_pairs t)) (ht_next t) (ht_allocs t)).
  assert (Hitems : items t1 = omap (fun x => ht_pairs t !! x) (List.filter (other n) (ht_list t))).
  { apply omap_same. intros x [_ Hx]%other_in. cbn. rewrite lookup_delete_ne by done. done. }
  exists t1. split.
  { unfold set_ht, modify, on_mem, get, load, mbind, M_bind. cbn. rewrite Hp. destruct destructor as [d|]; cbn in Hd |- *.
    - rewrite Hd. cbn. rewrite Hp. done.
    - injection Hd as ->. rewrite Hp. done. }
  split; [|done].
  assert (Hent : forall x, x ∈ List.filter (other n) (ht_list t) -> entry_at t1 w x = entry_at t w x).
  { intros x [_ Hx]%other_in. unfold entry_at. cbn. rewrite lookup_delete_ne by done. done. }
  rewrite <- Hitems in Hkept. apply (ht_ok_kept _ w); [|done]. destruct Hok as [Hf Hs Hn Hpp Hkk Hx Hc]. split; cbn -[other].
  - done.
  - rewrite length_map. done.
  - apply NoDup_ListNoDup, List.NoDup_filter, NoDup_ListNoDup. done.
  - intros x. rewrite other_in. destruct (decide (x = n)) as [->|Hne].
    + rewrite lookup_delete_eq. split; [intros [? ?]; done|tauto].
    + rewrite lookup_delete_ne by done. rewrite Hpp. tauto.
  - intros x Hin. rewrite Hent by done. apply Hkk. apply other_in in Hin. tauto.
  - intros x [Hin _]%other_in. apply Hx. done.
  - intros i c Hi. apply list_lookup_fmap_Some in Hi as (c0 & -> & Hi). rewrite (Hc _ _ Hi), filter_comm, <- filter_rev.
    apply filter_same. intros x Hin. rewrite list_elem_of_In, filter_rev, <- in_rev, <- list_elem_of_In in Hin.
    unfold in_slot. rewrite Hent by done. done.
Qed.

(** None of these pairs has the key. *)
Definition lacks (w : W) (a : A) (l : list (K * V)) : Prop := forall p, p ∈ l -> key_of w (fst p) <> Some a.

Lemma lacks_node t w a m : lacks w a (omap (fun n => ht_pairs t !! n) m) -> forall n, n ∈ m -> has_key t w a n = false.
Proof.
  intros Hl n Hin. unfold has_key, entry_at. destruct (ht_pairs t !! n) as [[k v]|] eqn:E; [|done]. simpl.
  assert (key_of w k <> Some a) as Hne by (apply (Hl (k, v)); apply list_elem_of_omap; eauto).
  destruct (key_of w k) as [b|]; [|done]. simpl. apply bool_decide_eq_false. congruence.
Qed.

Lemma rev_elem {X} (x : X) l : x ∈ rev l <-> x ∈ l.
Proof. rewrite !list_elem_of_In. symmetry. apply in_rev. Qed.

Lemma find_node_lacks t w a : lacks w a (items t) -> find_node t w a = None.
Proof. intros Hl. apply find_none_iff. intros n Hn. exact (lacks_node _ _ _ _ Hl n (proj1 (rev_elem _ _) Hn)). Qed.

Lemma GET_lacks t w key a : ht_ok t w -> key_of w key = Some a -> lacks w a (items t) -> GET size key (t, w) = Some (None, (t, w)).
Proof.
  intros Hok Hk Hl. unfold GET. rewrite (bind_run _ _ _ _ _ (GET_AUX_spec _ _ _ _ Hok Hk)), find_node_lacks by done. done.
Qed.

Lemma REMOVE_lacks t w key a d : ht_ok t w -> key_of w key = Some a -> lacks w a (items t) -> REMOVE size key d (t, w) = Some (false, (t, w)).
Proof.
  intros Hok Hk Hl. unfold REMOVE. rewrite (bind_run _ _ _ _ _ (GET_AUX_spec _ _ _ _ Hok Hk)), find_node_lacks by done. done.
Qed.

(** The latest pair that has the key. *)
Lemma find_node_split t w a k v l1 l2 :
  items t = l1 ++ (k, v) :: l2 -> key_of w k = Some a -> lacks w a l2 ->
  exists m1 n m2, ht_list t = m1 ++ n :: m2 /\ omap (fun n => ht_pairs t !! n) m1 = l1 /\
    omap (fun n => ht_pairs t !! n) m2 = l2 /\ ht_pairs t !! n = Some (k, v) /\ find_node t w a = Some n.
Proof.
  intros Hi Hk Hl. apply omap_split in Hi as (m1 & n & m2 & El & E1 & En & E2). exists m1, n, m2.
  split; [done|]. split; [done|]. split; [done|]. split; [done|]. unfold find_node. rewrite El, rev_app_distr. simpl.
  rewrite <- app_assoc. assert (Hno : forall x, x ∈ m2 -> has_key t w a x = false).
  { apply lacks_node. rewrite E2. done. }
  clear El E2. induction m2 as [|x m2 IH] using rev_ind; simpl.
  - unfold has_key, entry_at. rewrite En. simpl. rewrite Hk. simpl. rewrite bool_decide_eq_true_2 by done. done.
  - rewrite rev_unit. simpl. rewrite (Hno x) by (apply elem_of_app; right; left). apply IH.
    intros y Hy. apply Hno. apply elem_of_app. left. done.
Qed.

Lemma GET_found t w key a k v l1 l2 :
  ht_ok t w -> key_of w key = Some a -> items t = l1 ++ (k, v) :: l2 -> key_of w k = Some a -> lacks w a l2 ->
  GET size key (t, w) = Some (Some v, (t, w)).
Proof.
  intros Hok Hkey Hi Hk Hl. destruct (find_node_split _ _ _ _ _ _ _ Hi Hk Hl) as (m1 & n & m2 & _ & _ & _ & Hn & Hf).
  unfold GET. rewrite (bind_run _ _ _ _ _ (GET_AUX_spec _ _ _ _ Hok Hkey)), Hf.
  unfold mbind at 1, M_bind at 1, get. rewrite Hn, some_bind. done.
Qed.

Lemma filter_other (n : positive) m1 m2 : NoDup (m1 ++ n :: m2) -> List.filter (other n) (m1 ++ n :: m2) = m1 ++ m2.
Proof.
  intros Hnd. rewrite List.filter_app. simpl. unfold other at 2. rewrite Pos.eqb_refl. simpl.
  rewrite <- List.filter_app. apply NoDup_app in Hnd as (_ & H1 & [H2 _]%NoDup_cons).
  rewrite (filter_same _ (fun _ => true)); [induction (m1 ++ m2); simpl; congruence|].
  intros x [Hx|Hx]%elem_of_app; apply negb_true_iff, Pos.eqb_neq; intros ->; [eapply H1; [done|left]|done].
Qed.

Lemma REMOVE_found t w key a k v l1 l2 destructor w' :
  ht_ok t w -> key_of w key = Some a -> items t = l1 ++ (k, v) :: l2 -> key_of w k = Some a -> lacks w a l2 ->
  run_destructor destructor v w = Some (tt, w') -> keys_kept (l1 ++ l2) w w' ->
  exists t', REMOVE size key destructor (t, w) = Some (true, (t', w')) /\ ht_ok t' w' /\ items t' = l1 ++ l2 /\ ht_allocs t' = ht_allocs t.
Proof.
  intros Hok Hkey Hi Hk Hl Hd Hkept.
  destruct (find_node_split _ _ _ _ _ _ _ Hi Hk Hl) as (m1 & n & m2 & El & E1 & E2 & Hn & Hf).
  assert (Erest : omap (fun x => ht_pairs t !! x) (List.filter (other n) (ht_list t)) = l1 ++ l2).
  { rewrite El, filter_other by (rewrite <- El; apply (ok_nodup _ _ Hok)). rewrite omap_app, E1, E2. done. }
  destruct (drop_pair_spec t w n k v destructor w') as (t' & Hrun & Hok' & Hal & _ & Hit); [done..|rewrite Erest; done|].
  exists t'. rewrite Hit, Erest. split; [|done]. unfold REMOVE.
  rewrite (bind_run _ _ _ _ _ (GET_AUX_spec _ _ _ _ Hok Hkey)), Hf, (bind_run _ _ _ _ _ Hrun). done.
Qed.

(** *** Teardown *)

(** [P] is what the destructor needs of the memory while these pairs are
    left. *)
Lemma empty_loop_spec (P : list (K * V) -> W -> Prop) destructor :
  (forall k v l w, P ((k, v) :: l) w -> exists w', run_destructor destructor v w = Some (tt, w') /\ P l w' /\ keys_kept l w w') ->
  forall fuel t w, ht_ok t w -> P (items t) w -> (length (ht_list t) < fuel)%nat ->
  exists t' w', empty_loop fuel destructor (t, w) = Some (tt, (t', w')) /\ P [] w' /\ ht_ok t' w' /\ ht_pairs t' = ∅.
Proof.
  intros Hstep fuel. induction fuel as [|fuel IH]; intros t w Hok HP Hlen; [lia|].
  cbn [empty_loop]. unfold mbind at 1, M_bind at 1, get. destruct (ht_list t) as [|n l] eqn:El.
  { exists t, w. split; [done|]. unfold items in HP. rewrite El in HP. split; [done|]. split; [done|].
    apply map_empty. intros n. apply eq_None_not_Some. rewrite (ok_pairs _ _ Hok), El. intros H; inversion H. }
  assert (is_Some (ht_pairs t !! n)) as [[k v] Hn] by (apply (ok_pairs _ _ Hok); rewrite El; left).
  assert (Ef : List.filter (other n) (ht_list t) = l).
  { rewrite El. apply (filter_other n [] l). cbn. rewrite <- El. apply (ok_nodup _ _ Hok). }
  unfold items in HP. rewrite El in HP. csimpl in HP. rewrite Hn in HP. csimpl in HP.
  destruct (Hstep _ _ _ _ HP) as (w' & Hd & HP' & Hkept).
  destruct (drop_pair_spec t w n k v destructor w') as (t' & Hrun & Hok' & _ & Hlist & Hit); [done..|rewrite Ef; done|].
  rewrite Ef in Hlist, Hit. rewrite (bind_run _ _ _ _ _ Hrun). apply IH; [done|rewrite Hit; done|].
  rewrite Hlist. simpl in Hlen. lia.
Qed.

Lemma EMPTY_spec (P : list (K * V) -> W -> Prop) destructor t w :
  (forall k v l w, P ((k, v) :: l) w -> exists w', run_destructor destructor v w = Some (tt, w') /\ P l w' /\ keys_kept l w w') ->
  ht_ok t w -> P (items t) w ->
  exists t' w', EMPTY destructor (t, w) = Some (tt, (t', w')) /\ P [] w' /\ ht_ok t' w' /\ ht_pairs t' = ∅.
Proof. intros Hstep Hok HP. unfold EMPTY, mbind at 1, M_bind at 1, get. eapply empty_loop_spec; eauto. Qed.

(** The callback gets the values in the order of their insertion, until it
    returns an error. *)
Fixpoint visit (func : V -> M W Z) (l : list V) : M W Z :=
  match l with
  | [] => mret 0
  | v :: l => error ← func v; if negb (error =? 0) then mret error else visit func l
  end.

Lemma FOR_EACH_spec t w func : ht_ok t w -> FOR_EACH func (t, w) = on_mem (visit func (snd <$> items t)) (t, w).
Proof.
  intros Hok. unfold FOR_EACH, mbind at 1, M_bind at 1, get. unfold items.
  assert (Hall : forall n, n ∈ ht_list t -> is_Some (ht_pairs t !! n)) by (intros n; apply (ok_pairs _ _ Hok)).
  clear Hok. revert w. induction (ht_list t) as [|n l IH]; intros w; [done|].
  destruct (Hall n ltac:(left)) as [[k v] Hn]. csimpl. rewrite Hn. csimpl. cbn [for_each_loop visit].
  unfold mbind at 1, M_bind at 1, get. rewrite Hn, some_bind. unfold mbind, M_bind, on_mem at 1.
  destruct (func v w) as [[error w']|]; [|done]. destruct (negb (error =? 0)); [done|].
  apply IH. intros x Hx. apply Hall. right. done.
Qed.

(** *** Any sequence of operations *)

Inductive op : Type := OpPut (key : K) (value : V) | OpGet (key : K) | OpRemove (key : K).
Inductive reply : Type := RPut (r : result unit) | RGet (v : option V) | RRemove (b : bool).

Definition op_key (o : op) : K := match o with OpPut k _ | OpGet k | OpRemove k => k end.

Definition run_op (o : op) : M (tstate W K V) reply :=
  match o with
  | OpPut k v => r ← PUT size k v; mret (RPut r)
  | OpGet k => v ← GET size k; mret (RGet v)
  | OpRemove k => b ← REMOVE size k None; mret (RRemove b)
  end.

Fixpoint run_ops (l : list op) : M (tstate W K V) (list reply) :=
  match l with
  | [] => mret []
  | o :: l => r ← run_op o; rs ← run_ops l; mret (r :: rs)
  end.

(** The specification: an association list in which a later pair hides an
    earlier one of the same key, and a removal uncovers it. *)
Fixpoint drop_first (a : A) (l : list (A * V)) : list (A * V) :=
  match l with
  | [] => []
  | (b, v) :: l => if bool_decide (a = b) then l else (b, v) :: drop_first a l
  end.
Definition drop_latest (a : A) (l : list (A * V)) : list (A * V) := rev (drop_first a (rev l)).

Definition alist_op (w : W) (o : op) (s : list (A * V) * allocs) : reply * (list (A * V) * allocs) :=
  let '(l, al) := s in
  match key_of w (op_key o), o with
  | Some a, OpPut _ v =>
      let '(ok, al) := kmalloc al in
      if ok : bool then (RPut (Ok tt), (l ++ [(a, v)], al)) else (RPut (Err ENOMEM), (l, al))
  | Some a, OpGet _ => (RGet (latest a l), (l, al))
  | Some a, OpRemove _ => (RRemove (bool_decide (a ∈ l.*1)), (drop_latest a l, al))
  | None, _ => (RGet None, s)
  end.

Fixpoint alist_ops (w : W) (l : list op) (s : list (A * V) * allocs) : list reply * (list (A * V) * allocs) :=
  match l with
  | [] => ([], s)
  | o :: l => let '(r, s) := alist_op w o s in let '(rs, s) := alist_ops w l s in (r :: rs, s)
  end.

Lemma drop_first_app a l l' : a ∉ l.*1 -> drop_first a (l ++ l') = l ++ drop_first a l'.
Proof.
  intros H. induction l as [|[b v] l IH]; [done|]. csimpl. csimpl in H. apply not_elem_of_cons in H as [Hne H].
  rewrite bool_decide_eq_false_2 by done. rewrite IH by done. done.
Qed.

Lemma drop_latest_split a v l1 l2 : a ∉ l2.*1 -> drop_latest a (l1 ++ (a, v) :: l2) = l1 ++ l2.
Proof.
  intros H. unfold drop_latest. rewrite rev_app_distr. simpl. rewrite <- app_assoc. rewrite drop_first_app.
  - simpl. rewrite bool_decide_eq_true_2 by done. rewrite rev_app_distr, !rev_involutive. done.
  - rewrite map_rev. rewrite rev_elem. done.
Qed.

Lemma drop_latest_absent a l : a ∉ l.*1 -> drop_latest a l = l.
Proof.
  intros H. unfold drop_latest. rewrite <- (app_nil_r (rev l)), drop_first_app; [|rewrite map_rev, rev_elem; done].
  simpl. rewrite app_nil_r. apply rev_involutive.
Qed.

Lemma lacks_keyed w a l : lacks w a l <-> a ∉ (omap (keyed w) l).*1.
Proof.
  unfold lacks. split.
  - intros H Hin. apply list_elem_of_fmap in Hin as ([b v] & Hb & Hin). simpl in Hb. subst b.
    apply list_elem_of_omap in Hin as ((k & x) & Hp & Hk). unfold keyed in Hk. simpl in Hk.
    destruct (key_of w k) eqn:E; [|done]. simpl in Hk. injection Hk as -> ->. apply (H _ Hp). done.
  - intros H [k v] Hp Hk. apply H. apply list_elem_of_fmap. exists (a, v). split; [done|]. apply list_elem_of_omap.
    exists (k, v). split; [done|]. unfold keyed. simpl in *. rewrite Hk. done.
Qed.

Lemma latest_pair w a l : a ∈ (omap (keyed w) l).*1 ->
  exists l1 k v l2, l = l1 ++ (k, v) :: l2 /\ key_of w k = Some a /\ lacks w a l2.
Proof.
  induction l as [|[k v] l IH] using rev_ind; [intros H; inversion H|]. intros H.
  destruct (decide (key_of w k = Some a)) as [Hk|Hk].
  - exists l, k, v, []. split; [done|]. split; [done|]. intros p Hp. inversion Hp.
  - destruct IH as (l1 & k1 & v1 & l2 & -> & Hk1 & Hl2).
    { rewrite omap_app, fmap_app in H. apply elem_of_app in H as [H|H]; [done|]. exfalso. apply (lacks_keyed w a [(k, v)]); [|done].
      intros p ->%list_elem_of_singleton. done. }
    exists l1, k1, v1, (l2 ++ [(k, v)]). rewrite <- app_assoc. split; [done|]. split; [done|].
    intros p [Hp|Hp]%elem_of_app; [apply Hl2; done|]. apply list_elem_of_singleton in Hp as ->. done.
Qed.

Lemma keyed_split w a k v l1 l2 : key_of w k = Some a ->
  omap (keyed w) (l1 ++ (k, v) :: l2) = omap (keyed w) l1 ++ (a, v) :: omap (keyed w) l2.
Proof. intros Hk. rewrite omap_app. csimpl. unfold keyed at 2. simpl. rewrite Hk. done. Qed.

Lemma op_refines t w o :
  ht_ok t w -> is_Some (key_of w (op_key o)) ->
  let '(r, (l, al)) := alist_op w o (contents t w, ht_allocs t) in
  exists t', run_op o (t, w) = Some (r, (t', w)) /\ ht_ok t' w /\ contents t' w = l /\ ht_allocs t' = al.
Proof.
  intros Hok [a Hk]. unfold alist_op. rewrite Hk. rewrite contents_items. destruct o as [k v|k|k]; simpl in Hk; unfold run_op.
  - destruct (PUT_spec t w k a v Hok Hk) as (t' & Hrun & Hok' & Hi & Hal). rewrite (bind_run _ _ _ _ _ Hrun).
    destruct (kmalloc (ht_allocs t)) as [[] al]; simpl in *; exists t'; (split; [done|]); (split; [done|]);
      rewrite contents_items, Hi, ?app_nil_r; [|done]. rewrite omap_app. csimpl. unfold keyed at 2. simpl. rewrite Hk. done.
  - exists t. rewrite (bind_run _ _ _ _ _ (GET_spec t w k a Hok Hk)), contents_items. done.
  - case_bool_decide as Hin.
    + destruct (latest_pair _ _ _ Hin) as (l1 & k1 & v1 & l2 & Hi & Hk1 & Hl).
      destruct (REMOVE_found t w k a k1 v1 l1 l2 None w) as (t' & Hrun & Hok' & Hi' & Hal); [done..|split; done|].
      exists t'. rewrite (bind_run _ _ _ _ _ Hrun). split; [done|]. split; [done|]. split; [|done].
      rewrite contents_items, Hi, Hi', (keyed_split _ a) by done. rewrite drop_latest_split by (apply lacks_keyed; done).
      apply omap_app.
    + exists t. rewrite (bind_run _ _ _ _ _ (REMOVE_lacks t w k a None Hok Hk (proj2 (lacks_keyed _ _ _) Hin))).
      rewrite drop_latest_absent by done. rewrite contents_items. done.
Qed.

End Laws.

(** C29: The generic hash table is a map: from a table that [INIT] has just set
    up, any sequence of [PUT], [GET] and [REMOVE], with any of the allocations
    failing, faults nowhere and answers what an association list answers
    (a lookup finds the latest insertion of its key, whatever the hash codes
    and their collisions), the table then holds exactly that list in the order
    of insertion, and its invariant holds. *)
Theorem hash_table_refines {W K V A : Type} `{EqDecision A} (size : nat) (equals : K -> K -> W -> option bool)
    (hash : K -> W -> option Z) {HK : HashKey (A := A) equals hash} (t : htable W K V) (w : W) (ops : list (op (K := K) (V := V))) :
  size <> 0%nat -> ht_pairs t = ∅ -> (forall o, o ∈ ops -> is_Some (key_of w (op_key o))) ->
  let '(rs, (l, al)) := alist_ops equals hash w ops ([], ht_allocs t) in
  exists t', (INIT size (Some equals) (Some hash);; run_ops size ops) (t, w) = Some (rs, (t', w)) /\
    ht_ok size equals hash t' w /\ contents equals hash t' w = l /\ ht_allocs t' = al.
Proof.
  intros Hsize He. destruct (INIT_spec size equals hash t w He) as (t1 & Hi & Hok' & Hl & Hal).
  pose proof (Hok' w) as Hok. assert (Hc : contents equals hash t1 w = []) by (unfold contents; rewrite Hl; done).
  rewrite (bind_run _ _ _ _ _ Hi). rewrite <- Hal, <- Hc. clear Hi Hc Hal Hok' Hl. revert t1 Hok.
  induction ops as [|o ops IH]; intros t1 Hok Hkeys; [exists t1; done|]. cbn [alist_ops run_ops].
  pose proof (op_refines size Hsize equals hash t1 w o Hok (Hkeys o ltac:(left))) as Hop.
  destruct (alist_op _ _ w o _) as [r [l al]]. destruct Hop as (t2 & Hrun & Hok2 & <- & <-).
  specialize (IH t2 Hok2 (fun o Hin => Hkeys o ltac:(right; done))).
  destruct (alist_ops _ _ w ops _) as [rs [l al]]. destruct IH as (t3 & Hrun3 & H3). exists t3.
  rewrite (bind_run _ _ _ _ _ Hrun), (bind_run _ _ _ _ _ Hrun3). done.
Qed.

(** Numbers as keys that collide. *)
Definition z_equals (k1 k2 : Z) (_ : unit) : option bool := Some (bool_decide (k1 = k2)).
Definition z_hash (k : Z) (_ : unit) : option Z := Some k.

#[local] Instance z_key : HashKey (A := Z) z_equals z_hash.
Proof.
  refine {| key_of := fun _ k => Some k; code_of := fun _ a => a |}.
  - intros w k1 k2 a1 a2 [= ->] [= ->]. done.
  - intros w k a [= ->]. done.
Defined.

Lemma hash_table_refines_witness :
  let t := HTable [] [] z_equals z_hash ∅ 1 [true; true; false] : htable unit Z Z in
  exists t', (INIT 2 (Some z_equals) (Some z_hash);;
      run_ops 2 [OpPut 1 10; OpPut 3 30; OpPut 5 50; OpPut 1 11; OpGet 1; OpRemove 1; OpGet 1; OpGet 5; OpRemove 5]) (t, tt) =
    Some ([RPut (Ok tt); RPut (Ok tt); RPut (Err ENOMEM); RPut (Ok tt); RGet (Some 11); RRemove true; RGet (Some 10);
           RGet None; RRemove false], (t', tt)) /\
    contents z_equals z_hash t' tt = [(1, 10); (3, 30)].
Proof.
  intros t.
  pose proof (hash_table_refines 2 z_equals z_hash t tt
    [OpPut 1 10; OpPut 3 30; OpPut 5 50; OpPut 1 11; OpGet 1; OpRemove 1; OpGet 1; OpGet 5; OpRemove 5]
    ltac:(discriminate) eq_refl (fun o _ => ex_intro _ (op_key o) eq_refl)) as H.
  cbv [alist_ops alist_op op_key key_of z_key] in H. destruct H as (t' & Hrun & _ & Hc & _). exists t'.
  split; [exact Hrun|exact Hc].
Defined.
