(* ===== verification/Fragdb.v ===== *)
(** * The fragment database

    [mod/stateful/fragment_db.c], as it is compiled for the kernels up to
    3.12: their [nf_defrag_ipv6] hands the fragments of a packet to Jool one
    by one, in order.  The database stores the first one in a buffer, links the
    next ones behind it ([frag_list]) and, when the last one arrives, gives
    the whole packet to the translator.  Buffers whose packet is not completed
    in time are deleted by a timer.

    The heap has the socket buffers ([f_skbs], the database's and others'), the
    reassembly buffers, and what the hash table allocates.  Freeing or reading
    what is not there is a fault.  The table's keys are packets: they are
    compared and hashed by reading the headers of their socket buffers. *)
From S2P Require Import Prelude Types Packet Skb SessionEntry PktQueue SessionTable InTuple Checksum XlatPkt HashTable.

(** ** Memory *)

(** A socket buffer: the bytes from its network header on, the offset of
    [skb->data] in them, and the fields the database looks at.  [fs_len] counts
    the bytes of the [frag_list] too; [fs_data_len] those that are not in the
    linear part. *)
Record fskb : Type := FSkb {
  fs_bytes : list Z;
  fs_data : Z;
  fs_len : Z;
  fs_data_len : Z;
  fs_truesize : Z;
  fs_next : option Z;
  fs_prev : option Z;
  fs_frag_list : option Z;
  fs_cloned : bool
}.

Definition set_bytes (b : list Z) (s : fskb) : fskb :=
  FSkb b (fs_data s) (fs_len s) (fs_data_len s) (fs_truesize s) (fs_next s) (fs_prev s) (fs_frag_list s) (fs_cloned s).
Definition set_next (n : option Z) (s : fskb) : fskb :=
  FSkb (fs_bytes s) (fs_data s) (fs_len s) (fs_data_len s) (fs_truesize s) n (fs_prev s) (fs_frag_list s) (fs_cloned s).
Definition set_frag_list (n : option Z) (s : fskb) : fskb :=
  FSkb (fs_bytes s) (fs_data s) (fs_len s) (fs_data_len s) (fs_truesize s) (fs_next s) (fs_prev s) n (fs_cloned s).
(** [len], [data_len] and [truesize] grow. *)
Definition grow (payload truesize : Z) (s : fskb) : fskb :=
  FSkb (fs_bytes s) (fs_data s) (u32 (fs_len s + payload)) (u32 (fs_data_len s + payload)) (u32 (fs_truesize s + truesize))
    (fs_next s) (fs_prev s) (fs_frag_list s) (fs_cloned s).
(** [__skb_pull] *)
Definition pulled (n : Z) (s : fskb) : fskb :=
  FSkb (fs_bytes s) (fs_data s + n) (u32 (fs_len s - n)) (fs_data_len s) (fs_truesize s)
    (fs_next s) (fs_prev s) (fs_frag_list s) (fs_cloned s).

Definition skb_headlen (s : fskb) : Z := u32 (fs_len s - fs_data_len s).
(** What a pointer reaches. *)
Definition linear_bytes (s : fskb) : list Z := take (Z.to_nat (fs_data s + skb_headlen s)) (fs_bytes s).

(** [struct packet]: the buffer and where its headers are; [hdr_frag] is the
    fragment header's pointer. *)
Record fpacket : Type := FPacket {
  fp_skb : option Z;
  fp_meta : pkt_metadata
}.

Definition hdr_frag (p : fpacket) : option Z := frag_offset (fp_meta p).

(** Where the next fragment is to be linked. *)
Inductive next_slot : Type := SlotFragList (skb : Z) | SlotNext (skb : Z).

Record reassembly_buffer : Type := RBuf {
  b_pkt : fpacket;
  b_next_slot : next_slot;
  b_dying_time : Z
}.

Record fmem : Type := FMem {
  f_skbs : gmap Z fskb;
  f_bufs : gmap positive reassembly_buffer;
  f_next : positive;
  f_allocs : allocs;
  f_cache : bool;  (* [buffer_cache] exists *)
  expire_list : list positive;
  expire_timer : option Z;  (* when it fires, if it is pending *)
  f_rnd : Z
}.

Definition with_skbs (h : gmap Z fskb) (m : fmem) : fmem :=
  FMem h (f_bufs m) (f_next m) (f_allocs m) (f_cache m) (expire_list m) (expire_timer m) (f_rnd m).
Definition with_bufs (b : gmap positive reassembly_buffer) (m : fmem) : fmem :=
  FMem (f_skbs m) b (f_next m) (f_allocs m) (f_cache m) (expire_list m) (expire_timer m) (f_rnd m).
Definition with_expire (l : list positive) (m : fmem) : fmem :=
  FMem (f_skbs m) (f_bufs m) (f_next m) (f_allocs m) (f_cache m) l (expire_timer m) (f_rnd m).
Definition with_timer (t : option Z) (m : fmem) : fmem :=
  FMem (f_skbs m) (f_bufs m) (f_next m) (f_allocs m) (f_cache m) (expire_list m) t (f_rnd m).
Definition with_cache (c : bool) (al : allocs) (m : fmem) : fmem :=
  FMem (f_skbs m) (f_bufs m) (f_next m) al c (expire_list m) (expire_timer m) (f_rnd m).
Definition with_rnd (r : Z) (m : fmem) : fmem :=
  FMem (f_skbs m) (f_bufs m) (f_next m) (f_allocs m) (f_cache m) (expire_list m) (expire_timer m) r.

(** A pointer to a socket buffer is followed. *)
Definition skb_at (p : option Z) : M fmem (Z * fskb) := fun m =>
  match p with
  | Some id => match f_skbs m !! id with Some s => Some ((id, s), m) | None => None end
  | None => None
  end.
Definition set_skb (id : Z) (f : fskb -> fskb) : M fmem unit := fun m =>
  match f_skbs m !! id with
  | Some s => Some (tt, with_skbs (<[id := f s]> (f_skbs m)) m)
  | None => None
  end.
Definition buf_at (b : positive) : M fmem reassembly_buffer := fun m =>
  match f_bufs m !! b with Some x => Some (x, m) | None => None end.
Definition set_buf (b : positive) (x : reassembly_buffer) : M fmem unit := fun m =>
  match f_bufs m !! b with
  | Some _ => Some (tt, with_bufs (<[b := x]> (f_bufs m)) m)
  | None => None
  end.

(** A read through a pointer to a header of the buffer of the packet. *)
Definition rd (p : fpacket) (f : list Z -> option Z) (m : fmem) : option Z :=
  id ← fp_skb p; s ← f_skbs m !! id; f (linear_bytes s).
Definition ld_pkt (p : fpacket) (f : list Z -> option Z) : M fmem Z := fun m =>
  match rd p f m with Some x => Some (x, m) | None => None end.
Definition st_pkt (p : fpacket) (off : Z) (l : list Z) : M fmem unit :=
  '(id, s) ← skb_at (fp_skb p);
  if (0 <=? off) && (off + blen l <=? blen (linear_bytes s))
  then set_skb id (set_bytes (splice (fs_bytes s) off l)) else fault.

(** ** Keys *)

Section Keys.
(** The kernel's hash of identification, addresses and random number. *)
Context (inet6_hash_frag : Z -> Z -> Z -> Z -> Z).

Definition rd_saddr (p : fpacket) : fmem -> option Z := rd p (fun b => ldn 16 b 8).
Definition rd_daddr (p : fpacket) : fmem -> option Z := rd p (fun b => ldn 16 b 24).
Definition rd_ident (p : fpacket) (m : fmem) : option Z := o ← hdr_frag p; rd p (fun b => ldn 4 b (o + 4)) m.

(** The two packets are not the same object: one of them is always the
    table's copy. *)
Definition frag_equals (key1 key2 : fpacket) (m : fmem) : option bool :=
  s1 ← rd_saddr key1 m; s2 ← rd_saddr key2 m;
  if negb (s1 =? s2) then Some false
  else
    d1 ← rd_daddr key1 m; d2 ← rd_daddr key2 m;
    if negb (d1 =? d2) then Some false
    else
      i1 ← rd_ident key1 m; i2 ← rd_ident key2 m;
      if negb (i1 =? i2) then Some false
      else if negb (bool_decide (meta_l4_proto (fp_meta key1) = meta_l4_proto (fp_meta key2))) then Some false
      else Some true.

Definition frag_hash (key : fpacket) (m : fmem) : option Z :=
  i ← rd_ident key m; s ← rd_saddr key m; d ← rd_daddr key m;
  Some (inet6_hash_frag i s d (f_rnd m)).

End Keys.

(** [HASH_TABLE_SIZE], of this table. *)
Definition FRAGDB_SIZE : nat := 256.

Abbreviation ftable := (htable fmem fpacket positive).
Abbreviation fstate := (tstate fmem fpacket positive).

Definition gets_mem {A} (f : fmem -> A) : M fstate A := gets (fun s => f (snd s)).
Definition set_mem (f : fmem -> fmem) : M fstate unit := on_mem (modify f).

(** The fragment header's [frag_off], if there is a fragment header. *)
Definition ld_frag_off (p : fpacket) : M fmem (option Z) :=
  match hdr_frag p with
  | Some o => f ← ld_pkt p (fun b => raw16 b (o + 2)); mret (Some f)
  | None => mret None
  end.

(** The network header is the start of the bytes. *)
Definition fpkt_hdrs_len (p : fpacket) : Z := u32 (payload_offset (fp_meta p)).
Definition fpkt_l3hdr_len (p : fpacket) : Z := u32 (l4_offset (fp_meta p)).

(** [kfree_skb] of a list of buffers and of what hangs from them; [fuel] is the
    number of buffers there are. *)
Fixpoint kfree_skbs (fuel : nat) (p : option Z) : M fmem unit :=
  match p, fuel with
  | None, _ => mret tt
  | Some _, O => fault
  | Some id, S fuel =>
      '(_, s) ← skb_at (Some id);
      modify (fun m => with_skbs (delete id (f_skbs m)) m);;
      kfree_skbs fuel (fs_frag_list s);;
      kfree_skbs fuel (fs_next s)
  end.

(** The buffer itself is not in a list. *)
Definition kfree_skb (p : option Z) : M fmem unit :=
  match p with
  | None => mret tt
  | Some id =>
      '(_, s) ← skb_at (Some id);
      modify (fun m => with_skbs (delete id (f_skbs m)) m);;
      m ← get;
      kfree_skbs (size (f_skbs m)) (fs_frag_list s)
  end.

(** [skb_make_writable] of a buffer nobody else has, for headers that are in
    its linear part. *)
Definition skb_make_writable (s : fskb) (len : Z) : option bool :=
  if fs_len s <? len then Some false
  else if fs_cloned s then None
  else if len <=? skb_headlen s then Some true else None.

Section Fragdb.
Context (inet6_hash_frag : Z -> Z -> Z -> Z -> Z) (jiffies ttl_frag : Z).

(** [*buffer->next_slot = skb] *)
Definition link_slot (slot : next_slot) (id : Z) : M fmem unit :=
  match slot with
  | SlotFragList skb => set_skb skb (set_frag_list (Some id))
  | SlotNext skb => set_skb skb (set_next (Some id))
  end.

(** The fragment joins a buffer. *)
Definition append_pkt (b : positive) (pkt : fpacket) : M fmem unit :=
  buffer ← buf_at b;
  '(id, s) ← skb_at (fp_skb pkt);
  link_slot (b_next_slot buffer) id;;
  set_buf b (RBuf (b_pkt buffer) (SlotNext id) (b_dying_time buffer));;
  let payload_len := u32 (fs_len s - fpkt_hdrs_len pkt) in
  '(first, _) ← skb_at (fp_skb (b_pkt buffer));
  set_skb first (grow payload_len (fs_truesize s));;
  '(id, s) ← skb_at (fp_skb pkt);
  (* [skb_pull] *)
  if fs_len s <? fpkt_hdrs_len pkt then mret tt
  else set_skb id (pulled (fpkt_hdrs_len pkt)).

(** [kmem_cache_alloc] *)
Definition buffer_alloc (x : reassembly_buffer) : M fmem (option positive) := fun m =>
  if negb (f_cache m) then None
  else
    let '(ok, al) := kmalloc (f_allocs m) in
    if ok then Some (Some (f_next m), FMem (f_skbs m) (<[f_next m := x]> (f_bufs m)) (Pos.succ (f_next m)) al (f_cache m)
                                        (expire_list m) (expire_timer m) (f_rnd m))
    else Some (None, with_cache (f_cache m) al m).
(** [kmem_cache_free] *)
Definition buffer_free (b : positive) : M fmem unit := fun m =>
  match f_bufs m !! b with
  | Some _ => Some (tt, with_bufs (delete b (f_bufs m)) m)
  | None => None
  end.

Definition add_pkt (pkt : fpacket) : M fstate (option positive) :=
  frag_off ← on_mem (ld_frag_off pkt);
  buffer ← GET FRAGDB_SIZE pkt;
  match buffer with
  | Some b =>
      if is_first_frag6 frag_off then mret None
      else on_mem (append_pkt b pkt);; mret (Some b)
  | None =>
      if negb (is_first_frag6 frag_off) then mret None
      else
        '(id, s) ← on_mem (skb_at (fp_skb pkt));
        if fs_cloned s then mret None
        else
          buffer ← on_mem (buffer_alloc (RBuf pkt (SlotFragList id) (u64 (jiffies + ttl_frag))));
          match buffer with
          | None => mret None
          | Some b =>
              error ← PUT FRAGDB_SIZE pkt b;
              match error with
              | Err _ => on_mem (buffer_free b);; mret None
              | Ok _ =>
                  set_mem (fun m => with_expire (expire_list m ++ [b]) m);;
                  pending ← gets_mem expire_timer;
                  match pending with
                  | Some _ => mret tt
                  | None => set_mem (with_timer (Some (u64 (jiffies + ttl_frag))))
                  end;;
                  mret (Some b)
              end
          end
  end.

Definition buffer_dealloc (b : positive) : M fmem unit :=
  buffer ← buf_at b;
  kfree_skb (fp_skb (b_pkt buffer));;
  buffer_free b.

Definition buffer_destroy (b : positive) (pkt : fpacket) : M fstate unit :=
  removed ← REMOVE FRAGDB_SIZE pkt None;
  if negb removed then mret tt
  else
    set_mem (fun m => with_expire (List.filter (fun x => negb (Pos.eqb x b)) (expire_list m)) m);;
    on_mem (buffer_dealloc b).

(** The loop ends: [fuel] is the number of buffers, plus one. *)
Fixpoint clean_loop (fuel : nat) : M fstate unit :=
  match fuel with
  | O => fault
  | S fuel =>
      l ← gets_mem expire_list;
      match l with
      | [] => mret tt
      | b :: _ =>
          buffer ← on_mem (buf_at b);
          (* [time_after(buffer->dying_time, jiffies)] *)
          if time_before jiffies (b_dying_time buffer) then mret tt
          else buffer_destroy b (b_pkt buffer);; clean_loop fuel
      end
  end.

Definition clean_expired_buffers : M fstate unit :=
  l ← gets_mem expire_list; clean_loop (S (length l)).

(** The timer is not pending while its function runs. *)
Definition frag_cleaner_timer : M fstate unit :=
  set_mem (with_timer None);;
  let min_time := u64 (jiffies + MIN_TIMER_SLEEP) in
  clean_expired_buffers;;
  l ← gets_mem expire_list;
  match l with
  | [] => mret tt
  | b :: _ =>
      buffer ← on_mem (buf_at b);
      let next_expire := b_dying_time buffer in
      set_mem (with_timer (Some (if next_expire <? min_time then min_time else next_expire)))
  end.

(** [rnd] is what [get_random_bytes] gives. *)
Definition fragdb_init (rnd : Z) : M fstate (result unit) :=
  al ← gets_mem f_allocs;
  let '(ok, al) := kmalloc al in
  if negb ok then set_mem (with_cache false al);; mret (Err ENOMEM)
  else
    set_mem (with_cache true al);;
    error ← INIT FRAGDB_SIZE (Some frag_equals) (Some (frag_hash inet6_hash_frag));
    match error with
    | Err e => set_mem (with_cache false al);; mret (Err e)
    | Ok _ =>
        set_mem (fun m => with_rnd rnd (with_timer None m));;
        mret (Ok tt)
    end.

Definition validate_skb (pkt : fpacket) : M fmem (result unit) :=
  '(_, s) ← skb_at (fp_skb pkt);
  if match fs_prev s, fs_next s with None, None => false | _, _ => true end then mret (Err EINVAL)
  else if match fs_frag_list s with None => false | Some _ => true end then mret (Err EINVAL)
  else mret (Ok tt).

(** [pkt_frag_hdr(pkt)->frag_off &= cpu_to_be16(~IP6_MF)] *)
Definition clear_mf (frag_off : Z) : Z := Z.land frag_off (cpu_to_be16 (u16 (Z.lnot IP6_MF))).

(** The headers of the whole packet. *)
Definition finish_pkt (pkt : fpacket) : M fmem verdict :=
  '(_, s) ← skb_at (fp_skb pkt);
  writable ← load (skb_make_writable s (fpkt_l3hdr_len pkt));
  if negb writable then mret VERDICT_DROP
  else
    st_pkt pkt 4 (be_bytes 2 (u16 (u32 (fs_len s - 40))));;
    o ← load (hdr_frag pkt);
    frag_off ← ld_pkt pkt (fun b => raw16 b (o + 2));
    st_pkt pkt (o + 2) (raw_bytes16 (clear_mf frag_off));;
    mret VERDICT_CONTINUE.

(** The packet that is returned is the one [pkt] points to afterwards. *)
Definition fragdb_handle (pkt : fpacket) : M fstate (verdict * fpacket) :=
  frag_off ← on_mem (ld_frag_off pkt);
  if negb (is_fragmented_ipv6 frag_off) then mret (VERDICT_CONTINUE, pkt)
  else
    error ← on_mem (validate_skb pkt);
    match error with
    | Err _ => mret (VERDICT_DROP, pkt)
    | Ok _ =>
        buffer ← add_pkt pkt;
        match buffer with
        | None => mret (VERDICT_DROP, pkt)
        | Some b =>
            f ← load frag_off;
            if negb (is_more_fragments_set_ipv6 f =? 0) then mret (VERDICT_STOLEN, pkt)
            else
              x ← on_mem (buf_at b);
              let pkt := b_pkt x in
              on_mem (set_buf b (RBuf (FPacket None (fp_meta pkt)) (b_next_slot x) (b_dying_time x)));;
              buffer_destroy b pkt;;
              result ← on_mem (finish_pkt pkt);
              mret (result, pkt)
        end
    end.

Definition fragdb_destroy : M fstate unit :=
  set_mem (with_timer None);;
  EMPTY (Some buffer_dealloc);;
  set_mem (fun m => with_cache false (f_allocs m) m).

End Fragdb.
