(* ===== verification/FragdbSpec.v ===== *)
(** * What the fragment database does

    The state of [Fragdb] is described by a list of incomplete packets in the
    order they started ([abuf]): the fragments each has so far, as they
    arrived.  [frag_step] is the specification, on that list; the operations of
    the database refine it, whatever the hash function, and the heap holds the
    fragments linked as the rest of the translator expects them. *)
From S2P Require Import Prelude Types Packet Skb SessionEntry PktQueue SessionTable InTuple Checksum XlatPkt XlatSpec Wire HashTable Fragdb.

(** ** Keys *)

Record fkey : Type := FKey {
  k_saddr : Z;
  k_daddr : Z;
  k_ident : Z;
  k_proto : l4_protocol
}.

#[global] Instance fkey_eq_dec : EqDecision fkey.
Proof. solve_decision. Defined.

Definition skb_key (s : fskb) (meta : pkt_metadata) : option fkey :=
  saddr ← ldn 16 (linear_bytes s) 8;
  daddr ← ldn 16 (linear_bytes s) 24;
  o ← frag_offset meta;
  ident ← ldn 4 (linear_bytes s) (o + 4);
  Some (FKey saddr daddr ident (meta_l4_proto meta)).

Definition pkt_key (m : fmem) (p : fpacket) : option fkey :=
  id ← fp_skb p; s ← f_skbs m !! id; skb_key s (fp_meta p).

Lemma pkt_key_reads m p a : pkt_key m p = Some a ->
  rd_saddr p m = Some (k_saddr a) /\ rd_daddr p m = Some (k_daddr a) /\ rd_ident p m = Some (k_ident a) /\
  meta_l4_proto (fp_meta p) = k_proto a.
Proof.
  unfold pkt_key, rd_saddr, rd_daddr, rd_ident, rd, skb_key, hdr_frag. destruct (fp_skb p) as [id|]; [|done]. cbn [mbind option_bind].
  destruct (f_skbs m !! id) as [s|]; [|done]. cbn [mbind option_bind]. destruct (ldn 16 (linear_bytes s) 8) as [x|]; [|done]. cbn [mbind option_bind].
  destruct (ldn 16 (linear_bytes s) 24) as [y|]; [|done]. cbn [mbind option_bind]. destruct (frag_offset (fp_meta p)) as [o|]; [|done]. cbn [mbind option_bind].
  destruct (ldn 4 (linear_bytes s) (o + 4)) as [i|]; [|done]. cbn [mbind option_bind]. intros [= <-]. done.
Qed.

#[global] Instance frag_keys (h : Z -> Z -> Z -> Z -> Z) : HashKey (A := fkey) frag_equals (frag_hash h).
Proof.
  refine {| key_of := pkt_key; code_of := fun m a => h (k_ident a) (k_saddr a) (k_daddr a) (f_rnd m) |}.
  - intros m p1 p2 [s1 d1 i1 l1] [s2 d2 i2 l2] H1 H2. apply pkt_key_reads in H1 as (Hs1 & Hd1 & Hi1 & Hl1).
    apply pkt_key_reads in H2 as (Hs2 & Hd2 & Hi2 & Hl2). cbn [k_saddr k_daddr k_ident k_proto] in *.
    unfold frag_equals. rewrite Hs1, Hs2. cbn [mbind option_bind]. destruct (Z.eqb_spec s1 s2) as [->|]; cbn [negb]; [|rewrite bool_decide_eq_false_2; congruence].
    rewrite Hd1, Hd2. cbn [mbind option_bind]. destruct (Z.eqb_spec d1 d2) as [->|]; cbn [negb]; [|rewrite bool_decide_eq_false_2; congruence].
    rewrite Hi1, Hi2. cbn [mbind option_bind]. destruct (Z.eqb_spec i1 i2) as [->|]; cbn [negb]; [|rewrite bool_decide_eq_false_2; congruence].
    rewrite Hl1, Hl2. case_bool_decide as El; cbn [negb]; [|rewrite bool_decide_eq_false_2; congruence].
    rewrite bool_decide_eq_true_2; congruence.
  - intros m p a (Hs & Hd & Hi & _)%pkt_key_reads. unfold frag_hash. rewrite Hi, Hs, Hd. done.
Defined.

(** ** Fragments *)

(** A fragment as it arrives: its buffer's address, the buffer and the places
    of its headers. *)
Record frag : Type := Frag {
  fr_id : Z;
  fr_skb : fskb;
  fr_meta : pkt_metadata
}.

Definition fr_pkt (f : frag) : fpacket := FPacket (Some (fr_id f)) (fr_meta f).
Definition fr_key (f : frag) : option fkey := skb_key (fr_skb f) (fr_meta f).
Definition fr_off (f : frag) : option Z := o ← frag_offset (fr_meta f); raw16 (linear_bytes (fr_skb f)) (o + 2).
Definition fr_hdrs (f : frag) : Z := fpkt_hdrs_len (fr_pkt f).
Definition fr_payload_len (f : frag) : Z := u32 (fs_len (fr_skb f) - fr_hdrs f).
(** What follows the headers. *)
Definition fr_payload (f : frag) : list Z := drop (Z.to_nat (payload_offset (fr_meta f))) (fs_bytes (fr_skb f)).

Definition fragmented (f : frag) : bool := is_fragmented_ipv6 (fr_off f).
Definition is_first (f : frag) : bool := is_first_frag6 (fr_off f).
Definition more (f : frag) : bool := match fr_off f with Some o => negb (is_more_fragments_set_ipv6 o =? 0) | None => false end.
Definition listed (f : frag) : bool :=
  match fs_prev (fr_skb f), fs_next (fr_skb f), fs_frag_list (fr_skb f) with None, None, None => false | _, _, _ => true end.

(** What the validation of packets ensures. *)
Record frag_ok (f : frag) : Prop := FragOk {
  fo_data : fs_data (fr_skb f) = 0;
  fo_len : 0 <= fs_data_len (fr_skb f) <= fs_len (fr_skb f) /\ fs_len (fr_skb f) < 2 ^ 32;
  fo_linear : fs_len (fr_skb f) - fs_data_len (fr_skb f) <= blen (fs_bytes (fr_skb f));
  fo_alone : fs_frag_list (fr_skb f) = None -> fs_len (fr_skb f) = blen (fs_bytes (fr_skb f));
  fo_hdrs : 40 <= l4_offset (fr_meta f) <= payload_offset (fr_meta f) /\
    payload_offset (fr_meta f) <= fs_len (fr_skb f) - fs_data_len (fr_skb f);
  fo_frag : forall o, frag_offset (fr_meta f) = Some o -> 40 <= o /\ o + 8 <= l4_offset (fr_meta f)
}.

Lemma u32_id x : 0 <= x < 2 ^ 32 -> u32 x = x.
Proof. intros H. apply Z.mod_small. done. Qed.

Lemma u32_sub a b p : u32 (u32 (a + p) - u32 (b + p)) = u32 (a - b).
Proof. unfold u32. rewrite <- Zminus_mod. f_equal. lia. Qed.

Section FragOk.
Context (f : frag) (Hf : frag_ok f).

Lemma headlen_frag : skb_headlen (fr_skb f) = fs_len (fr_skb f) - fs_data_len (fr_skb f).
Proof. destruct Hf as [_ [? ?] _ _ _ _]. apply u32_id. lia. Qed.

Lemma linear_len : blen (linear_bytes (fr_skb f)) = fs_len (fr_skb f) - fs_data_len (fr_skb f).
Proof.
  unfold linear_bytes. rewrite headlen_frag. destruct Hf as [Hd [? ?] ? _ _ _]. unfold blen in *. rewrite Hd, length_take. lia.
Qed.

Lemma hdrs_frag : fr_hdrs f = payload_offset (fr_meta f).
Proof. destruct Hf as [_ ? _ _ [? ?] _]. apply u32_id. cbn. lia. Qed.

Lemma l3hdr_frag : fpkt_l3hdr_len (fr_pkt f) = l4_offset (fr_meta f).
Proof. destruct Hf as [_ ? _ _ [? ?] _]. apply u32_id. cbn. lia. Qed.

Lemma fr_off_some o : frag_offset (fr_meta f) = Some o -> exists x, raw16 (linear_bytes (fr_skb f)) (o + 2) = Some x /\ fr_off f = Some x.
Proof.
  intros Ho. destruct Hf as [_ ? _ _ [? ?] Hr]. destruct (Hr o Ho).
  destruct (raw16_some (linear_bytes (fr_skb f)) (o + 2)) as [x Hx]; [lia|rewrite linear_len; lia|].
  exists x. split; [done|]. unfold fr_off. rewrite Ho. done.
Qed.

Lemma fr_key_some o : frag_offset (fr_meta f) = Some o -> is_Some (fr_key f).
Proof.
  intros Ho. destruct Hf as [_ ? _ _ [? ?] Hr]. destruct (Hr o Ho). unfold fr_key, skb_key. pose proof linear_len.
  destruct (ldn_some 16 (linear_bytes (fr_skb f)) 8) as [x ->]; [lia..|].
  destruct (ldn_some 16 (linear_bytes (fr_skb f)) 24) as [y ->]; [lia..|]. rewrite Ho. cbn [mbind option_bind].
  destruct (ldn_some 4 (linear_bytes (fr_skb f)) (o + 4)) as [z ->]; [lia..|]. eexists. done.
Qed.

Lemma fragmented_hdr : fragmented f = true -> exists o x, frag_offset (fr_meta f) = Some o /\ fr_off f = Some x.
Proof.
  unfold fragmented. destruct (frag_offset (fr_meta f)) as [o|] eqn:E.
  - destruct (fr_off_some o E) as (x & _ & Hx). eauto.
  - unfold fr_off. rewrite E. done.
Qed.

End FragOk.

(** ** Incomplete packets *)

Record abuf : Type := ABuf {
  ab_first : frag;
  ab_rest : list frag;
  ab_dying : Z
}.

Definition ab_key (a : abuf) : option fkey := fr_key (ab_first a).
Definition push (f : frag) (a : abuf) : abuf := ABuf (ab_first a) (ab_rest a ++ [f]) (ab_dying a).

Definition head_id (l : list frag) (e : option Z) : option Z := match l with [] => e | g :: _ => Some (fr_id g) end.

(** The fragments as they are in memory: the first one has the length of the
    packet, the others begin at their payloads, and they are linked. *)
Definition rest_skb (f : frag) (next : option Z) : fskb := set_next next (pulled (fr_hdrs f) (fr_skb f)).
Fixpoint link_rest (l : list frag) (e : option Z) : list (Z * fskb) :=
  match l with
  | [] => []
  | f :: l => (fr_id f, rest_skb f (head_id l e)) :: link_rest l e
  end.
Definition grown (s : fskb) (l : list frag) : fskb := fold_left (fun s f => grow (fr_payload_len f) (fs_truesize (fr_skb f)) s) l s.
Definition first_skb (a : abuf) : fskb := grown (set_frag_list (head_id (ab_rest a) None) (fr_skb (ab_first a))) (ab_rest a).
Definition linked (a : abuf) : list (Z * fskb) := (fr_id (ab_first a), first_skb a) :: link_rest (ab_rest a) None.
Definition slot_of (a : abuf) : next_slot :=
  match last (ab_rest a) with None => SlotFragList (fr_id (ab_first a)) | Some g => SlotNext (fr_id g) end.

Definition ab_ids (a : abuf) : list Z := fr_id (ab_first a) :: (fr_id <$> ab_rest a).

(** ** The specification *)

(** The buffer of the packet a fragment is of, with those before and after. *)
Fixpoint split_key (k : option fkey) (l : list abuf) : option (list abuf * abuf * list abuf) :=
  match l with
  | [] => None
  | a :: l => if bool_decide (ab_key a = k) then Some ([], a, l)
              else match split_key k l with Some (l1, b, l2) => Some (a :: l1, b, l2) | None => None end
  end.

Inductive outcome : Type := OPass | ODrop | OStolen | ODone (a : abuf).

(** [mem]: both allocations succeed. *)
Definition frag_step (f : frag) (mem : bool) (dying : Z) (l : list abuf) : outcome * list abuf :=
  if negb (fragmented f) then (OPass, l)
  else if listed f then (ODrop, l)
  else match split_key (fr_key f) l with
  | Some (l1, a, l2) =>
      if is_first f then (ODrop, l)
      else if more f then (OStolen, l1 ++ push f a :: l2)
      else (ODone (push f a), l1 ++ l2)
  | None =>
      if negb (is_first f) then (ODrop, l)
      else if fs_cloned (fr_skb f) then (ODrop, l)
      else if negb mem then (ODrop, l)
      else (OStolen, l ++ [ABuf f [] dying])
  end.

Lemma split_key_some k l l1 a l2 : split_key k l = Some (l1, a, l2) -> l = l1 ++ a :: l2 /\ ab_key a = k.
Proof.
  revert l1. induction l as [|b l IH]; intros l1; simpl; [done|]. case_bool_decide as E; [intros [= <- <- <-]; done|].
  destruct (split_key k l) as [[[m1 c] m2]|]; [|done]. intros [= <- <- <-]. destruct (IH m1 eq_refl) as [-> ?]. done.
Qed.

Lemma split_key_pre k l l1 a l2 : split_key k l = Some (l1, a, l2) -> k ∉ (ab_key <$> l1).
Proof.
  revert l1. induction l as [|b l IH]; intros l1; simpl; [done|]. case_bool_decide as E; [intros [= <- <- <-] H; inversion H|].
  destruct (split_key k l) as [[[m1 c] m2]|]; [|done]. intros [= <- <- <-]. csimpl. apply not_elem_of_cons. split; [congruence|auto].
Qed.

Lemma split_key_none k l : split_key k l = None -> k ∉ ab_key <$> l.
Proof.
  induction l as [|b l IH]; simpl; [intros _ H; inversion H|]. case_bool_decide as E; [done|].
  destruct (split_key k l) as [[[m1 c] m2]|]; [done|]. intros _. apply not_elem_of_cons. split; [congruence|auto].
Qed.

Lemma split_key_app k l1 a l2 : k ∉ (ab_key <$> l1) -> ab_key a = k -> split_key k (l1 ++ a :: l2) = Some (l1, a, l2).
Proof.
  intros Hn Ha. induction l1 as [|b l1 IH]; simpl; [rewrite bool_decide_eq_true_2 by done; done|].
  csimpl in Hn. apply not_elem_of_cons in Hn as [Hne Hn]. rewrite bool_decide_eq_false_2 by congruence.
  rewrite IH by done. done.
Qed.

(** ** The fragments in memory *)

Definition heap_has (h : gmap Z fskb) (l : list (Z * fskb)) : Prop := forall i s, (i, s) ∈ l -> h !! i = Some s.

Lemma heap_has_cons h i s l : heap_has h ((i, s) :: l) <-> h !! i = Some s /\ heap_has h l.
Proof.
  unfold heap_has. split.
  - intros H. split; [apply H; left|]. intros j x Hin. apply H. right. done.
  - intros [H1 H2] j x Hin. apply elem_of_cons in Hin as [[= -> ->]|Hin]; auto.
Qed.

Lemma heap_has_app h l1 l2 : heap_has h (l1 ++ l2) <-> heap_has h l1 /\ heap_has h l2.
Proof.
  unfold heap_has. split.
  - intros H. split; intros j x Hin; apply H, elem_of_app; auto.
  - intros [H1 H2] j x [Hin|Hin]%elem_of_app; auto.
Qed.

Lemma heap_has_same h h' l : (forall i, i ∈ l.*1 -> h' !! i = h !! i) -> heap_has h l -> heap_has h' l.
Proof.
  intros Hs H i s Hin. rewrite Hs; [apply H; done|]. apply list_elem_of_fmap. exists (i, s). done.
Qed.

Lemma link_rest_ids l e : (link_rest l e).*1 = fr_id <$> l.
Proof. induction l as [|f l IH]; [done|]. csimpl. rewrite IH. done. Qed.

Lemma linked_ids a : (linked a).*1 = ab_ids a.
Proof. unfold linked, ab_ids. csimpl. rewrite link_rest_ids. done. Qed.

Lemma link_rest_snoc l g e : link_rest (l ++ [g]) e = link_rest l (Some (fr_id g)) ++ [(fr_id g, rest_skb g e)].
Proof.
  induction l as [|f l IH]; [done|]. cbn [app link_rest]. rewrite IH. destruct l; done.
Qed.

Lemma head_id_snoc l g e : head_id (l ++ [g]) e = head_id l (Some (fr_id g)).
Proof. destruct l; done. Qed.

Lemma linear_grow p t s : linear_bytes (grow p t s) = linear_bytes s.
Proof. unfold linear_bytes, skb_headlen. cbn. rewrite u32_sub. done. Qed.

Lemma linear_grown l s : linear_bytes (grown s l) = linear_bytes s.
Proof. unfold grown. revert s. induction l as [|f l IH]; intros s; [done|]. cbn. rewrite IH. apply linear_grow. Qed.

Lemma grown_snoc s l f : grown s (l ++ [f]) = grow (fr_payload_len f) (fs_truesize (fr_skb f)) (grown s l).
Proof. unfold grown. apply fold_left_app. Qed.

Lemma grown_list x s l : grown (set_frag_list x s) l = set_frag_list x (grown s l).
Proof. unfold grown. revert s. induction l as [|f l IH]; intros s; [done|]. cbn. rewrite <- IH. done. Qed.

Lemma first_skb_key a : skb_key (first_skb a) (fr_meta (ab_first a)) = ab_key a.
Proof. unfold skb_key, first_skb. rewrite linear_grown. done. Qed.

(** The fragments a buffer may have. *)
Definition alone (f : frag) : Prop := frag_ok f /\ listed f = false.
Record stored (a : abuf) : Prop := Stored {
  st_first : alone (ab_first a);
  st_frag : is_Some (frag_offset (fr_meta (ab_first a)));
  st_cloned : fs_cloned (fr_skb (ab_first a)) = false;
  st_rest : Forall alone (ab_rest a)
}.

Lemma stored_key a : stored a -> is_Some (ab_key a).
Proof. intros [[Hok _] [o Ho] _ _]. apply (fr_key_some _ Hok o Ho). Qed.

Lemma stored_push a f : stored a -> alone f -> stored (push f a).
Proof. intros [H1 H2 H3 H4] Hf. split; try done. apply Forall_app. auto. Qed.

Section Rep.
Context (hash : Z -> Z -> Z -> Z -> Z).

Definition buf_of (a : abuf) : reassembly_buffer := RBuf (fr_pkt (ab_first a)) (slot_of a) (ab_dying a).

(** The database holds these incomplete packets, and nothing else. *)
Record rep (t : ftable) (m : fmem) (l : list abuf) : Prop := Rep {
  r_table : ht_ok FRAGDB_SIZE frag_equals (frag_hash hash) t m;
  r_items : items t = zip ((fun a => fr_pkt (ab_first a)) <$> l) (expire_list m);
  r_bufs : Forall2 (fun a b => f_bufs m !! b = Some (buf_of a)) l (expire_list m);
  r_dom : forall b, is_Some (f_bufs m !! b) -> b ∈ expire_list m;
  r_nodup : NoDup (expire_list m);
  r_next : forall b, b ∈ expire_list m -> (b < f_next m)%positive;
  r_heap : forall a, a ∈ l -> heap_has (f_skbs m) (linked a);
  r_ids : NoDup (concat (ab_ids <$> l));
  r_keys : NoDup (ab_key <$> l);
  r_stored : Forall stored l;
  r_cache : f_cache m = true
}.

Lemma rep_pkt_key t m l a : rep t m l -> a ∈ l -> pkt_key m (fr_pkt (ab_first a)) = ab_key a.
Proof.
  intros Hr Ha. unfold pkt_key. cbn. pose proof (r_heap _ _ _ Hr a Ha) as Hh. unfold linked in Hh.
  apply heap_has_cons in Hh as [-> _]. cbn. apply first_skb_key.
Qed.

Lemma zip_in (l : list abuf) (e : list positive) k v :
  (k, v) ∈ zip ((fun a => fr_pkt (ab_first a)) <$> l) e -> exists a, a ∈ l /\ k = fr_pkt (ab_first a).
Proof.
  revert e. induction l as [|a l IH]; intros [|b e] H; csimpl in H; try (inversion H; fail).
  apply elem_of_cons in H as [[= -> ->]|H].
  - exists a. split; [left|done].
  - destruct (IH e H) as (c & Hc & ->). exists c. split; [right|]; done.
Qed.

(** The keys of the buffers are in memory as they were. *)
Lemma rep_kept m m' (l : list abuf) (e : list positive) :
  (forall a, a ∈ l -> pkt_key m (fr_pkt (ab_first a)) = ab_key a) ->
  (forall a, a ∈ l -> heap_has (f_skbs m') (linked a)) -> f_rnd m' = f_rnd m ->
  keys_kept frag_equals (frag_hash hash) (zip ((fun a => fr_pkt (ab_first a)) <$> l) e) m m'.
Proof.
  intros Hk Hh Hrnd. split; [|intros a; cbn; rewrite Hrnd; done].
  intros k v (a & Ha & ->)%zip_in. cbn [key_of frag_keys]. rewrite Hk by done.
  unfold pkt_key. cbn. pose proof (Hh a Ha) as H. unfold linked in H. apply heap_has_cons in H as [-> _]. cbn. apply first_skb_key.
Qed.

Lemma rep_lacks m (l : list abuf) (e : list positive) k :
  (forall a, a ∈ l -> pkt_key m (fr_pkt (ab_first a)) = ab_key a) -> Some k ∉ (ab_key <$> l) ->
  lacks frag_equals (frag_hash hash) m k (zip ((fun a => fr_pkt (ab_first a)) <$> l) e).
Proof.
  intros Hk Hn [p b] Hp. apply zip_in in Hp as (a & Ha & ->). cbn [fst key_of frag_keys]. rewrite Hk by done.
  intros E. apply Hn. rewrite <- E. apply list_elem_of_fmap. eauto.
Qed.

(** A buffer of the list, and its place in the database. *)
Lemma rep_split t m l1 a l2 : rep t m (l1 ++ a :: l2) ->
  exists e1 b e2, expire_list m = e1 ++ b :: e2 /\ length l1 = length e1 /\ f_bufs m !! b = Some (buf_of a) /\
    Forall2 (fun a b => f_bufs m !! b = Some (buf_of a)) l1 e1 /\ Forall2 (fun a b => f_bufs m !! b = Some (buf_of a)) l2 e2 /\
    items t = zip ((fun a => fr_pkt (ab_first a)) <$> l1) e1 ++ (fr_pkt (ab_first a), b) :: zip ((fun a => fr_pkt (ab_first a)) <$> l2) e2.
Proof.
  intros Hr. pose proof (r_bufs _ _ _ Hr) as Hb. apply Forall2_app_inv_l in Hb as (e1 & e' & H1 & H2 & He).
  apply Forall2_cons_inv_l in H2 as (b & e2 & Hb & H2 & ->). exists e1, b, e2. pose proof (Forall2_length _ _ _ H1) as Hlen.
  split; [done|]. split; [done|]. split; [done|]. split; [done|]. split; [done|].
  rewrite (r_items _ _ _ Hr), He. rewrite fmap_app. csimpl. rewrite zip_with_app by (rewrite length_fmap; done). done.
Qed.

Lemma keys_split (l1 l2 : list abuf) a : NoDup (ab_key <$> l1 ++ a :: l2) -> (ab_key a ∉ (ab_key <$> l1)) /\ (ab_key a ∉ (ab_key <$> l2)) /\
  NoDup (ab_key <$> l1 ++ l2).
Proof.
  rewrite !fmap_app. csimpl. intros H. rewrite NoDup_app in H. destruct H as (H1 & Hd & H2).
  apply NoDup_cons in H2 as [Hn H2]. split; [|split; [done|]].
  - intros Hin. apply (Hd _ Hin). left.
  - apply NoDup_app. split; [done|]. split; [|done]. intros x Hx Hx2. apply (Hd x Hx). right. done.
Qed.

Lemma ids_split (l1 l2 : list abuf) a : NoDup (concat (ab_ids <$> l1 ++ a :: l2)) ->
  NoDup (ab_ids a) /\ NoDup (concat (ab_ids <$> l1 ++ l2)) /\ (forall b i, b ∈ l1 ++ l2 -> i ∈ ab_ids b -> i ∉ ab_ids a).
Proof.
  intros H. assert (Hp : concat (ab_ids <$> l1 ++ a :: l2) ≡ₚ ab_ids a ++ concat (ab_ids <$> l1 ++ l2)).
  { rewrite !fmap_app. csimpl. rewrite !concat_app. cbn [concat]. apply Permutation_app_swap_app. }
  rewrite Hp in H. apply NoDup_app in H as (H1 & Hd & H2). split; [done|]. split; [done|].
  intros b i Hb Hi Ha. apply (Hd i Ha). apply list_elem_of_In, in_concat. exists (ab_ids b).
  rewrite <- !list_elem_of_In. split; [|done]. apply list_elem_of_fmap. eauto.
Qed.

End Rep.

(** ** The steps of the operations *)

Lemma skb_at_run {A} id s (k : Z * fskb -> M fmem A) m : f_skbs m !! id = Some s -> (skb_at (Some id) ≫= k) m = k (id, s) m.
Proof. intros H. unfold skb_at, mbind, M_bind. rewrite H. done. Qed.

Lemma set_skb_run {A} id s g (k : unit -> M fmem A) m : f_skbs m !! id = Some s ->
  (set_skb id g ≫= k) m = k tt (with_skbs (<[id := g s]> (f_skbs m)) m).
Proof. intros H. unfold set_skb, mbind, M_bind. rewrite H. done. Qed.

Lemma buf_at_run {A} b x (k : reassembly_buffer -> M fmem A) m : f_bufs m !! b = Some x -> (buf_at b ≫= k) m = k x m.
Proof. intros H. unfold buf_at, mbind, M_bind. rewrite H. done. Qed.

Lemma set_buf_run {A} b x y (k : unit -> M fmem A) m : f_bufs m !! b = Some x ->
  (set_buf b y ≫= k) m = k tt (with_bufs (<[b := y]> (f_bufs m)) m).
Proof. intros H. unfold set_buf, mbind, M_bind. rewrite H. done. Qed.

Lemma listed_fields f : listed f = false ->
  fs_prev (fr_skb f) = None /\ fs_next (fr_skb f) = None /\ fs_frag_list (fr_skb f) = None.
Proof. unfold listed. destruct (fs_prev _), (fs_next _), (fs_frag_list _); done. Qed.

Lemma rest_skb_last f : listed f = false -> rest_skb f None = pulled (fr_hdrs f) (fr_skb f).
Proof.
  intros (_ & Hn & _)%listed_fields. unfold rest_skb, pulled, set_next. cbn. rewrite Hn. done.
Qed.

Section Append.
Context (m : fmem) (b : positive) (a : abuf) (f : frag).
Context (Hb : f_bufs m !! b = Some (buf_of a)) (Hh : heap_has (f_skbs m) (linked a)) (Hnd : NoDup (ab_ids a)).
Context (Hin : f_skbs m !! fr_id f = Some (fr_skb f)) (Hnew : fr_id f ∉ ab_ids a) (Hf : alone f).

(** The heap once the fragment is linked, before the lengths are set. *)
Lemma link_slot_run :
  exists h1 s1, (forall A (k : unit -> M fmem A), (link_slot (slot_of a) (fr_id f) ≫= k) m = k tt (with_skbs h1 m)) /\
    h1 !! fr_id (ab_first a) = Some s1 /\ h1 !! fr_id f = Some (fr_skb f) /\
    grow (fr_payload_len f) (fs_truesize (fr_skb f)) s1 = first_skb (push f a) /\
    heap_has h1 (link_rest (ab_rest a) (Some (fr_id f))) /\ (forall i, i ∉ ab_ids a -> h1 !! i = f_skbs m !! i).
Proof.
  unfold linked in Hh. apply heap_has_cons in Hh as [Hfirst Hrest]. unfold ab_ids in Hnd, Hnew. apply NoDup_cons in Hnd as [Hn1 Hn2].
  apply not_elem_of_cons in Hnew as [Hne Hnr]. destruct a as [first rest dying]. unfold slot_of. cbn [ab_first ab_rest] in *.
  destruct rest as [|g rest _] using rev_ind.
  - cbn [last]. exists (<[fr_id first := set_frag_list (Some (fr_id f)) (first_skb (ABuf first [] dying))]> (f_skbs m)).
    eexists. split; [intros A k; apply set_skb_run; done|]. rewrite lookup_insert_eq. split; [done|].
    rewrite lookup_insert_ne by done. split; [done|]. split; [done|]. split; [intros i s H; inversion H|].
    intros i Hi. rewrite lookup_insert_ne; [done|]. intros <-. apply Hi. left.
  - rewrite last_snoc. rewrite link_rest_snoc in Hrest. apply heap_has_app in Hrest as [Hr1 Hr2].
    apply heap_has_cons in Hr2 as [Hg _]. rewrite fmap_app in Hn1, Hn2, Hnr. csimpl in Hn1. csimpl in Hnr. csimpl in Hn2.
    apply not_elem_of_app in Hn1 as [_ Hg1]. apply not_elem_of_app in Hnr as [_ Hg2].
    apply NoDup_app in Hn2 as (_ & Hg3 & _). rewrite not_elem_of_cons in Hg1, Hg2.
    exists (<[fr_id g := rest_skb g (Some (fr_id f))]> (f_skbs m)), (first_skb (ABuf first (rest ++ [g]) dying)).
    split; [intros A k; exact (set_skb_run _ _ (set_next (Some (fr_id f))) k _ Hg)|]. rewrite !lookup_insert_ne by (intuition congruence).
    split; [done|]. split; [done|]. split.
    { unfold first_skb, push. cbn [ab_first ab_rest]. rewrite (grown_snoc _ (rest ++ [g]) f). rewrite !head_id_snoc. destruct rest; done. }
    split.
    + rewrite link_rest_snoc. apply heap_has_app. split; [|apply heap_has_cons; split; [apply lookup_insert_eq|intros i s H; inversion H]].
      apply (heap_has_same (f_skbs m)); [|done]. intros i. rewrite link_rest_ids. intros Hi. rewrite lookup_insert_ne; [done|].
      intros <-. apply (Hg3 _ Hi). left.
    + intros i Hi. rewrite lookup_insert_ne; [done|]. intros <-. apply Hi. right. cbn. rewrite fmap_app. apply elem_of_app. right. left.
Qed.

Lemma append_pkt_run :
  exists h', append_pkt b (fr_pkt f) m = Some (tt, with_bufs (<[b := buf_of (push f a)]> (f_bufs m)) (with_skbs h' m)) /\
    heap_has h' (linked (push f a)) /\ (forall i, i ∉ ab_ids (push f a) -> h' !! i = f_skbs m !! i).
Proof.
  destruct link_slot_run as (h1 & s1 & Hlink & Hs1 & Hid & Hgrow & Hrest & Hframe). destruct Hf as [Hok Hl].
  unfold append_pkt. rewrite (buf_at_run _ _ _ _ Hb). cbn [fp_skb fr_pkt b_next_slot buf_of b_pkt b_dying_time].
  rewrite (skb_at_run _ _ _ _ Hin), Hlink. rewrite (set_buf_run b (buf_of a)) by done.
  rewrite (skb_at_run (fr_id (ab_first a)) s1) by done. rewrite (set_skb_run (fr_id (ab_first a)) s1) by done.
  assert (Hne : fr_id (ab_first a) <> fr_id f). { intros E. apply Hnew. rewrite <- E. left. }
  rewrite (skb_at_run (fr_id f) (fr_skb f)) by (cbn; rewrite lookup_insert_ne by done; done).
  pose proof (hdrs_frag f Hok) as Ehdr. destruct Hok as [_ ? _ _ [? ?] _].
  change (fpkt_hdrs_len (fr_pkt f)) with (fr_hdrs f).
  destruct (Z.ltb_spec (fs_len (fr_skb f)) (fr_hdrs f)); [lia|]. unfold set_skb.
  cbn [with_skbs with_bufs f_skbs f_bufs f_next f_allocs f_cache expire_list expire_timer f_rnd].
  rewrite lookup_insert_ne, Hid by done. change (u32 (fs_len (fr_skb f) - fr_hdrs f)) with (fr_payload_len f). rewrite Hgrow.
  exists (<[fr_id f := pulled (fr_hdrs f) (fr_skb f)]> (<[fr_id (ab_first a) := first_skb (push f a)]> h1)).
  split. { unfold buf_of, slot_of, push. cbn [ab_rest ab_first ab_dying]. rewrite last_snoc. done. }
  split.
  - unfold linked. apply heap_has_cons. split; [rewrite lookup_insert_ne, lookup_insert_eq; done|].
    unfold push. cbn [ab_rest]. rewrite link_rest_snoc, rest_skb_last by done. apply heap_has_app. split.
    + apply (heap_has_same h1); [|done]. intros i. rewrite link_rest_ids. intros Hi. rewrite !lookup_insert_ne; [done|..].
      * intros <-. apply NoDup_cons in Hnd as [Hn _]. done.
      * intros <-. apply Hnew. right. done.
    + apply heap_has_cons. split; [apply lookup_insert_eq|intros i s H9; inversion H9].
  - intros i Hi. unfold ab_ids, push in Hi. cbn [ab_rest ab_first] in Hi. rewrite fmap_app in Hi. csimpl in Hi.
    rewrite not_elem_of_cons, not_elem_of_app in Hi. destruct Hi as (Hi1 & Hi2 & Hi3). rewrite not_elem_of_cons in Hi3.
    rewrite !lookup_insert_ne by (intuition congruence). apply Hframe. apply not_elem_of_cons. done.
Qed.

End Append.

(** [h'] is [h] without these buffers. *)
Definition freed (ids : list Z) (h h' : gmap Z fskb) : Prop :=
  forall i, h' !! i = if bool_decide (i ∈ ids) then None else h !! i.

Lemma freed_kept ids h h' i : freed ids h h' -> i ∉ ids -> h' !! i = h !! i.
Proof. intros H Hi. rewrite H, bool_decide_eq_false_2 by done. done. Qed.

Lemma freed_cons i ids h h' : freed ids (delete i h) h' -> freed (i :: ids) h h'.
Proof.
  intros H j. rewrite (H j). destruct (decide (j = i)) as [->|Hne].
  - rewrite lookup_delete_eq, (bool_decide_eq_true_2 (i ∈ i :: ids)) by left. destruct (bool_decide _); done.
  - rewrite lookup_delete_ne by done. rewrite (bool_decide_ext (j ∈ i :: ids) (j ∈ ids)); [done|].
    rewrite elem_of_cons. intuition.
Qed.

Lemma heap_size h ids : NoDup ids -> (forall i, i ∈ ids -> is_Some (h !! i)) -> (length ids <= size (h : gmap Z fskb))%nat.
Proof.
  intros Hnd Hin. rewrite <- (size_list_to_set (C := gset Z)) by done. rewrite <- size_dom. apply subseteq_size.
  intros i. rewrite elem_of_list_to_set, elem_of_dom. auto.
Qed.

Lemma kfree_rest l : forall fuel m, heap_has (f_skbs m) (link_rest l None) -> NoDup (fr_id <$> l) -> Forall alone l ->
  (length l <= fuel)%nat ->
  exists h', kfree_skbs fuel (head_id l None) m = Some (tt, with_skbs h' m) /\ freed (fr_id <$> l) (f_skbs m) h'.
Proof.
  induction l as [|f l IH]; intros fuel m Hh Hnd Hal Hfuel.
  { exists (f_skbs m). split; [destruct fuel; destruct m; done|]. intros i. done. }
  destruct fuel as [|fuel]; [simpl in Hfuel; lia|]. cbn [link_rest] in Hh. apply heap_has_cons in Hh as [Hf Hl].
  csimpl in Hnd. apply NoDup_cons in Hnd as [Hnf Hnd]. apply Forall_cons in Hal as [[_ Hlf] Hal].
  apply listed_fields in Hlf as (_ & _ & Hfl). cbn [head_id kfree_skbs]. rewrite (skb_at_run _ _ _ _ Hf).
  unfold mbind at 1, M_bind at 1, modify. cbn [rest_skb set_next pulled fs_frag_list fs_next]. rewrite Hfl.
  destruct (IH fuel (with_skbs (delete (fr_id f) (f_skbs m)) m)) as (h' & Hrun & Hfr); [|done|done|simpl in Hfuel; lia|].
  { apply (heap_has_same (f_skbs m)); [|done]. intros i. rewrite link_rest_ids. intros Hi. cbn. apply lookup_delete_ne.
    intros <-. done. }
  exists h'. split; [|apply freed_cons; done]. unfold mbind, M_bind. destruct fuel; cbn [kfree_skbs]; exact Hrun.
Qed.

Lemma kfree_first m a :
  heap_has (f_skbs m) (linked a) -> NoDup (ab_ids a) -> stored a ->
  exists h', kfree_skb (Some (fr_id (ab_first a))) m = Some (tt, with_skbs h' m) /\ freed (ab_ids a) (f_skbs m) h'.
Proof.
  intros Hh Hnd Hst. unfold linked in Hh. apply heap_has_cons in Hh as [Hf Hl]. apply NoDup_cons in Hnd as [Hnf Hnd].
  unfold kfree_skb. assert (Hfl : fs_frag_list (first_skb a) = head_id (ab_rest a) None).
  { unfold first_skb. rewrite grown_list. done. }
  assert (Hl' : heap_has (delete (fr_id (ab_first a)) (f_skbs m)) (link_rest (ab_rest a) None)).
  { apply (heap_has_same (f_skbs m)); [|done]. intros i. rewrite link_rest_ids. intros Hi. apply lookup_delete_ne. intros <-. done. }
  destruct (kfree_rest (ab_rest a) (size (delete (fr_id (ab_first a)) (f_skbs m))) (with_skbs (delete (fr_id (ab_first a)) (f_skbs m)) m))
    as (h' & Hrun & Hfr); [done|done|apply (st_rest _ Hst)| |].
  { rewrite <- (length_fmap fr_id). apply heap_size; [done|]. intros i Hi. rewrite <- (link_rest_ids _ None) in Hi.
    apply list_elem_of_fmap in Hi as ([j s] & -> & Hi). exists s. apply Hl'. done. }
  exists h'. split; [|apply freed_cons; done]. rewrite (skb_at_run _ _ _ _ Hf), Hfl. exact Hrun.
Qed.

Lemma elem_of_swap {X} (l1 l2 : list X) a x : x ∈ l1 ++ l2 -> x ∈ l1 ++ a :: l2.
Proof. rewrite !elem_of_app, elem_of_cons. tauto. Qed.

Lemma Forall2_in {X Y} (P Q : X -> Y -> Prop) l k :
  Forall2 P l k -> (forall x y, x ∈ l -> y ∈ k -> P x y -> Q x y) -> Forall2 Q l k.
Proof.
  intros H. induction H as [|x y l k Hxy _ IH]; intros HQ; constructor; [apply HQ; [left|left|done]|].
  apply IH. intros u v Hu Hv. apply HQ; right; done.
Qed.

Lemma fragdb_size : FRAGDB_SIZE <> 0%nat.
Proof. unfold FRAGDB_SIZE. lia. Qed.

Section Destroy.
Context (hash : Z -> Z -> Z -> Z -> Z) (t : ftable) (m : fmem) (l1 : list abuf) (a : abuf) (l2 : list abuf) (b : positive).
Context (Hr : rep hash t m (l1 ++ a :: l2)).

Abbreviation its l e := (zip ((fun a => fr_pkt (ab_first a)) <$> l) e).

(** The database without one of its buffers. *)
Lemma rep_drop t' m' e1 e2 :
  expire_list m = e1 ++ b :: e2 -> Forall2 (fun a b => f_bufs m !! b = Some (buf_of a)) l1 e1 ->
  Forall2 (fun a b => f_bufs m !! b = Some (buf_of a)) l2 e2 ->
  ht_ok FRAGDB_SIZE frag_equals (frag_hash hash) t' m -> items t' = its l1 e1 ++ its l2 e2 ->
  expire_list m' = e1 ++ e2 -> f_bufs m' = delete b (f_bufs m) ->
  (forall x i, x ∈ l1 ++ l2 -> i ∈ ab_ids x -> f_skbs m' !! i = f_skbs m !! i) ->
  f_rnd m' = f_rnd m -> f_next m' = f_next m -> f_cache m' = f_cache m -> rep hash t' m' (l1 ++ l2).
Proof.
  intros He H1 H2 Hok Hit Hexp Hbufs Hskbs Hrnd Hnext Hcache. destruct Hr as [Htab Hitems Hb Hdom Hnd Hlt Hheap Hids Hkeys Hst Hc].
  rewrite He in Hnd. pose proof Hnd as Hnd'. apply NoDup_app in Hnd' as (Hn1 & Hn2 & Hn3). apply NoDup_cons in Hn3 as [Hn3 Hn4].
  assert (Hnb : b ∉ e1 ++ e2). { rewrite elem_of_app. intros [H|H]; [apply (Hn2 _ H); left|done]. }
  assert (Hheap' : forall x, x ∈ l1 ++ l2 -> heap_has (f_skbs m') (linked x)).
  { intros x Hx. apply (heap_has_same (f_skbs m)); [|apply Hheap, elem_of_swap; done]. intros i. rewrite linked_ids. eauto. }
  assert (Hit' : items t' = its (l1 ++ l2) (e1 ++ e2)).
  { rewrite Hit, fmap_app, zip_with_app; [done|]. rewrite length_fmap. apply Forall2_length in H1. done. }
  split; rewrite ?Hexp, ?Hnext.
  - eapply ht_ok_kept; [exact Hok|]. rewrite Hit'. apply rep_kept; [|done|done].
    intros x Hx. eapply (rep_pkt_key hash t m); [exact Hr|]. apply elem_of_swap. done.
  - done.
  - rewrite Hbufs. apply Forall2_app; (eapply Forall2_in; [eassumption|]); intros x y _ Hy Hxy; rewrite lookup_delete_ne; try done;
      intros <-; apply Hnb, elem_of_app; auto.
  - intros x. rewrite Hbufs. intros Hx. destruct (decide (x = b)) as [->|Hne]; [rewrite lookup_delete_eq in Hx; destruct Hx; done|].
    rewrite lookup_delete_ne in Hx by done. apply Hdom in Hx. rewrite He, elem_of_app, elem_of_cons in Hx. rewrite elem_of_app. tauto.
  - apply NoDup_app. split; [done|]. split; [|done]. intros x Hx Hx2. apply (Hn2 x Hx). right. done.
  - intros x Hx. apply Hlt. rewrite He. apply elem_of_swap. done.
  - done.
  - apply (ids_split _ _ _ Hids).
  - apply (keys_split _ _ _ Hkeys).
  - apply Forall_app in Hst as [Hs1 [_ Hs2]%Forall_cons]. apply Forall_app. done.
  - rewrite Hcache. done.
Qed.

(** [buffer_destroy], when the buffer's packet may have been taken from it. *)
Lemma buffer_destroy_run x h' :
  (exists e1 e2, expire_list m = e1 ++ b :: e2 /\ length l1 = length e1) ->
  (forall m1, f_skbs m1 = f_skbs m -> kfree_skb (fp_skb (b_pkt x)) m1 = Some (tt, with_skbs h' m1)) ->
  (forall x i, x ∈ l1 ++ l2 -> i ∈ ab_ids x -> h' !! i = f_skbs m !! i) ->
  let m0 := with_bufs (<[b := x]> (f_bufs m)) m in
  exists t', buffer_destroy b (fr_pkt (ab_first a)) (t, m0) =
      Some (tt, (t', with_bufs (delete b (f_bufs m)) (with_skbs h' (with_expire (List.filter (other b) (expire_list m)) m)))) /\
    rep hash t' (with_bufs (delete b (f_bufs m)) (with_skbs h' (with_expire (List.filter (other b) (expire_list m)) m))) (l1 ++ l2) /\
    ht_allocs t' = ht_allocs t.
Proof.
  intros (e1 & e2 & He & Hlen) Hfree Hskbs m0.
  destruct (rep_split hash t m l1 a l2 Hr) as (e1' & b' & e2' & He' & Hlen' & Hb & H1 & H2 & Hit).
  assert (E : e1 = e1' /\ b :: e2 = b' :: e2'). { apply app_inj_1; [congruence|]. rewrite <- He, <- He'. done. }
  destruct E as [<- [= <- <-]]. clear He' Hlen'.
  destruct (stored_key a) as [k Hk]. { apply (proj1 (Forall_forall _ _) (r_stored _ _ _ _ Hr)), elem_of_app. right. left. }
  assert (Hpk : pkt_key m (fr_pkt (ab_first a)) = Some k).
  { rewrite (rep_pkt_key hash t m _ a Hr), Hk; [done|]. apply elem_of_app. right. left. }
  destruct (keys_split _ _ _ (r_keys _ _ _ _ Hr)) as (_ & Hk2 & _). rewrite Hk in Hk2.
  assert (Hok0 : ht_ok FRAGDB_SIZE frag_equals (frag_hash hash) t m0).
  { eapply ht_ok_kept; [exact (r_table _ _ _ _ Hr)|]. split; [|done]. done. }
  destruct (REMOVE_found FRAGDB_SIZE fragdb_size frag_equals (frag_hash hash) t m0 (fr_pkt (ab_first a)) k
      (fr_pkt (ab_first a)) b (its l1 e1) (its l2 e2) None m0) as (t' & Hrun & Hok' & Hit' & Hal); [done|done|done|done| |done|split; done|].
  { apply (rep_lacks hash m l2 e2 k); [|done]. intros y Hy. apply (rep_pkt_key hash t m _ y Hr), elem_of_app. right. right. done. }
  assert (Hfil : List.filter (other b) (expire_list m) = e1 ++ e2).
  { rewrite He. apply filter_other. rewrite <- He. apply (r_nodup _ _ _ _ Hr). }
  exists t'. split; [|split; [|done]].
  - unfold buffer_destroy. rewrite (bind_run _ _ _ _ _ Hrun). cbn [negb]. unfold set_mem, on_mem, modify.
    unfold mbind, M_bind. unfold buffer_dealloc. erewrite buf_at_run by (cbn; apply lookup_insert_eq).
    unfold mbind at 1, M_bind at 1. rewrite Hfree by done. unfold buffer_free. cbn. rewrite lookup_insert_eq, delete_insert_eq. done.
  - apply (rep_drop t' _ e1 e2); try done. eapply ht_ok_kept; [exact Hok'|]. split; done.
Qed.

End Destroy.

(** ** The whole packet *)

(** The headers of the first fragment, when the last one has come: the length
    of the whole packet, and no more fragments. *)
Definition whole_bytes (a : abuf) (o x : Z) : list Z :=
  splice (splice (fs_bytes (fr_skb (ab_first a))) 4 (be_bytes 2 (u16 (u32 (fs_len (first_skb a) - 40))))) (o + 2) (raw_bytes16 (clear_mf x)).
Definition whole_skb (a : abuf) : fskb :=
  match frag_offset (fr_meta (ab_first a)), fr_off (ab_first a) with
  | Some o, Some x => set_bytes (whole_bytes a o x) (first_skb a)
  | _, _ => first_skb a
  end.
Definition whole (a : abuf) : list (Z * fskb) := (fr_id (ab_first a), whole_skb a) :: link_rest (ab_rest a) None.

(** The length has not wrapped around. *)
Definition whole_ok (a : abuf) : bool := negb (fs_len (first_skb a) <? l4_offset (fr_meta (ab_first a))).

Lemma grown_fields l s : fs_bytes (grown s l) = fs_bytes s /\ fs_data (grown s l) = fs_data s /\ fs_cloned (grown s l) = fs_cloned s /\
  skb_headlen (grown s l) = skb_headlen s.
Proof.
  unfold grown. revert s. induction l as [|f l IH]; intros s; [done|]. cbn. destruct (IH (grow (fr_payload_len f) (fs_truesize (fr_skb f)) s)) as (-> & -> & -> & ->).
  split; [done|]. split; [done|]. split; [done|]. unfold skb_headlen. cbn. apply u32_sub.
Qed.

Lemma first_fields a : fs_bytes (first_skb a) = fs_bytes (fr_skb (ab_first a)) /\ fs_data (first_skb a) = fs_data (fr_skb (ab_first a)) /\
  fs_cloned (first_skb a) = fs_cloned (fr_skb (ab_first a)) /\ skb_headlen (first_skb a) = skb_headlen (fr_skb (ab_first a)) /\
  linear_bytes (first_skb a) = linear_bytes (fr_skb (ab_first a)).
Proof. unfold first_skb. rewrite linear_grown. pose proof (grown_fields (ab_rest a) (set_frag_list (head_id (ab_rest a) None) (fr_skb (ab_first a)))). tauto. Qed.

Lemma raw16_splice_after b off l i : 0 <= off -> off + blen l <= i -> off + blen l <= blen b -> raw16 (splice b off l) i = raw16 b i.
Proof.
  intros H0 Hi Hb. pose proof (blen_nonneg l). unfold raw16. cbn [ldn]. rewrite !ld8_splice by lia.
  replace (i <? off + blen l) with false by lia. replace (i + 1 <? off + blen l) with false by lia.
  rewrite !andb_false_r. done.
Qed.

Lemma st_pkt_run {A} p id s off l (k : unit -> M fmem A) m :
  fp_skb p = Some id -> f_skbs m !! id = Some s -> 0 <= off -> off + blen l <= blen (linear_bytes s) ->
  (st_pkt p off l ≫= k) m = k tt (with_skbs (<[id := set_bytes (splice (fs_bytes s) off l) s]> (f_skbs m)) m).
Proof.
  intros Hp Hs H0 H. unfold st_pkt. rewrite Hp. unfold mbind at 1, M_bind at 1. rewrite (skb_at_run _ _ _ _ Hs).
  replace (0 <=? off) with true by lia. replace (off + blen l <=? _) with true by lia. cbn [andb].
  unfold set_skb. rewrite Hs. done.
Qed.

Lemma ld_pkt_run {A} p id s f x (k : Z -> M fmem A) m :
  fp_skb p = Some id -> f_skbs m !! id = Some s -> f (linear_bytes s) = Some x -> (ld_pkt p f ≫= k) m = k x m.
Proof. intros Hp Hs Hx. unfold ld_pkt, rd, mbind, M_bind. rewrite Hp. cbn. rewrite Hs. cbn. rewrite Hx. done. Qed.

Lemma linear_set_bytes s b : linear_bytes (set_bytes b s) = take (Z.to_nat (fs_data s + skb_headlen s)) b.
Proof. done. Qed.

Lemma finish_pkt_run m a :
  f_skbs m !! fr_id (ab_first a) = Some (first_skb a) -> stored a ->
  finish_pkt (fr_pkt (ab_first a)) m =
    Some (if whole_ok a then VERDICT_CONTINUE else VERDICT_DROP,
          if whole_ok a then with_skbs (<[fr_id (ab_first a) := whole_skb a]> (f_skbs m)) m else m).
Proof.
  intros Hs [[Hok _] [o Ho] Hcl _]. destruct (first_fields a) as (Eb & Ed & Ec & Eh & El).
  unfold finish_pkt. cbn [fr_pkt fp_skb]. rewrite (skb_at_run _ _ _ _ Hs).
  unfold skb_make_writable, whole_ok. rewrite l3hdr_frag by done.
  destruct (fs_len (first_skb a) <? l4_offset (fr_meta (ab_first a))); [done|]. cbn [negb].
  rewrite Ec, Hcl, Eh, headlen_frag by done. pose proof (fo_hdrs _ Hok). pose proof (fo_len _ Hok). pose proof (fo_linear _ Hok).
  pose proof (fo_data _ Hok) as Ed0. destruct (fo_frag _ Hok o Ho).
  replace (l4_offset _ <=? _) with true by lia. rewrite some_bind. cbn [negb].
  pose proof (linear_len _ Hok) as Hll. assert (B2 : forall x, blen (be_bytes 2 x) = 2) by (intros; unfold blen; rewrite be_bytes_length; done).
  rewrite (st_pkt_run _ _ (first_skb a)) by (try done; rewrite ?El, ?B2, ?Hll; lia). change (hdr_frag (fr_pkt (ab_first a))) with (frag_offset (fr_meta (ab_first a))).
  rewrite Ho, some_bind.
  destruct (fr_off_some _ Hok o Ho) as (x & Hx & Hfo).
  set (v := be_bytes 2 (u16 (u32 (fs_len (first_skb a) - 40)))). pose proof (B2 (u16 (u32 (fs_len (first_skb a) - 40)))) as Bv. fold v in Bv.
  set (s1 := set_bytes (splice (fs_bytes (first_skb a)) 4 v) (first_skb a)).
  assert (Hl1 : linear_bytes s1 = splice (linear_bytes (fr_skb (ab_first a))) 4 v).
  { unfold s1. rewrite linear_set_bytes, Eb, Ed, Eh. unfold linear_bytes. rewrite headlen_frag, Ed0, Z.add_0_l by done.
    apply take_splice; [lia|lia|unfold blen in *; lia]. }
  rewrite (ld_pkt_run _ (fr_id (ab_first a)) s1 _ x); [|done|apply lookup_insert_eq|rewrite Hl1, raw16_splice_after by lia; exact Hx].
  rewrite (st_pkt_run _ (fr_id (ab_first a)) s1); [|done|apply lookup_insert_eq|lia|].
  2:{ rewrite Hl1, blen_splice by lia. change (blen (raw_bytes16 (clear_mf x))) with 2. lia. }
  cbn [with_skbs f_skbs]. rewrite insert_insert_eq. unfold whole_skb. rewrite Ho, Hfo.
  unfold whole_bytes. rewrite <- Eb. done.
Qed.

(** ** A fragment arrives *)

(** The kernel hands over a buffer that the database does not have. *)
Record arrives (m : fmem) (l : list abuf) (f : frag) : Prop := Arrives {
  ar_heap : f_skbs m !! fr_id f = Some (fr_skb f);
  ar_new : fr_id f ∉ concat (ab_ids <$> l);
  ar_ok : frag_ok f
}.

Definition mem_ok (t : ftable) (m : fmem) : Prop := (false ∉ f_allocs m) /\ (false ∉ ht_allocs t).

Lemma on_mem_run {A B} (x : M fmem A) (k : A -> M fstate B) (t : ftable) m a m' :
  x m = Some (a, m') -> (on_mem x ≫= k) (t, m) = k a (t, m').
Proof. intros H. unfold on_mem, mbind, M_bind. rewrite H. done. Qed.

Lemma ld_frag_off_run m f : f_skbs m !! fr_id f = Some (fr_skb f) -> frag_ok f -> ld_frag_off (fr_pkt f) m = Some (fr_off f, m).
Proof.
  intros Hs Hok. unfold ld_frag_off. change (hdr_frag (fr_pkt f)) with (frag_offset (fr_meta f)).
  destruct (frag_offset (fr_meta f)) as [o|] eqn:Ho; [|unfold fr_off; rewrite Ho; done].
  destruct (fr_off_some f Hok o Ho) as (x & Hx & ->). rewrite (ld_pkt_run _ (fr_id f) (fr_skb f) _ x) by done. done.
Qed.

Lemma validate_skb_run m f : f_skbs m !! fr_id f = Some (fr_skb f) ->
  validate_skb (fr_pkt f) m = Some (if listed f then Err EINVAL else Ok tt, m).
Proof.
  intros Hs. unfold validate_skb. cbn [fr_pkt fp_skb]. rewrite (skb_at_run _ _ _ _ Hs). unfold listed.
  destruct (fs_prev (fr_skb f)), (fs_next (fr_skb f)), (fs_frag_list (fr_skb f)); done.
Qed.

Lemma concat_in (l : list abuf) a i : a ∈ l -> i ∈ ab_ids a -> i ∈ concat (ab_ids <$> l).
Proof.
  intros Ha Hi. apply list_elem_of_In, in_concat. exists (ab_ids a). rewrite <- !list_elem_of_In.
  split; [|done]. apply list_elem_of_fmap. eauto.
Qed.

Lemma arrived_key m f : f_skbs m !! fr_id f = Some (fr_skb f) -> pkt_key m (fr_pkt f) = fr_key f.
Proof. intros Hs. unfold pkt_key, fr_pkt. cbn [fp_skb mbind option_bind]. rewrite Hs. done. Qed.

Section Handle.
Context (hash : Z -> Z -> Z -> Z -> Z) (jiffies ttl : Z).

Abbreviation its l e := (zip ((fun a => fr_pkt (ab_first a)) <$> l) e).

(** The database once a fragment has joined a buffer. *)
Lemma rep_push t m l1 a l2 e1 b e2 f h' :
  rep hash t m (l1 ++ a :: l2) -> expire_list m = e1 ++ b :: e2 -> length l1 = length e1 ->
  alone f -> fr_id f ∉ concat (ab_ids <$> l1 ++ a :: l2) ->
  heap_has h' (linked (push f a)) -> (forall i, i ∉ ab_ids (push f a) -> h' !! i = f_skbs m !! i) ->
  rep hash t (with_bufs (<[b := buf_of (push f a)]> (f_bufs m)) (with_skbs h' m)) (l1 ++ push f a :: l2).
Proof.
  intros Hr He Hlen Hal Hnew Hh Hframe. pose proof Hr as [Htab Hitems Hb Hdom Hnd Hlt Hheap Hids Hkeys Hst Hc].
  destruct (ids_split _ _ _ Hids) as (Hna & Hnr & Hdisj).
  assert (Hheap' : forall x, x ∈ l1 ++ push f a :: l2 -> heap_has h' (linked x)).
  { intros x Hx. assert (x = push f a \/ x ∈ l1 ++ l2) as [->|Hx'] by (rewrite !elem_of_app, elem_of_cons in *; tauto); [done|].
    apply (heap_has_same (f_skbs m)); [|apply Hheap, elem_of_swap; done]. intros i. rewrite linked_ids. intros Hi. apply Hframe.
    unfold ab_ids, push. cbn [ab_first ab_rest]. rewrite fmap_app. change (fr_id (ab_first a) :: _) with (ab_ids a ++ [fr_id f]).
    rewrite not_elem_of_app, list_elem_of_singleton. split; [eauto|]. intros ->. apply Hnew.
    eapply concat_in; [apply elem_of_swap; done|done]. }
  assert (Eit : its (l1 ++ push f a :: l2) (expire_list m) = its (l1 ++ a :: l2) (expire_list m)) by (rewrite !fmap_app; done).
  split; cbn [with_bufs with_skbs expire_list f_bufs f_next f_skbs f_cache]; try done.
  - eapply ht_ok_kept; [exact Htab|]. rewrite Hitems, <- Eit. apply rep_kept; [|done|done]. intros x Hx.
    assert (x = push f a \/ x ∈ l1 ++ l2) as [->|Hx'] by (rewrite !elem_of_app, elem_of_cons in *; tauto).
    + apply (rep_pkt_key hash t m _ a Hr). apply elem_of_app. right. left.
    + apply (rep_pkt_key hash t m _ x Hr). apply elem_of_swap. done.
  - rewrite Hitems, Eit. done.
  - rewrite He in Hb, Hnd |- *. apply Forall2_app_inv in Hb as [H1 H2]; [|done]. apply Forall2_cons in H2 as [_ H2].
    apply NoDup_app in Hnd as (_ & Hn1 & [Hn2 _]%NoDup_cons).
    apply Forall2_app; [|apply Forall2_cons; split; [apply lookup_insert_eq|]]; (eapply Forall2_in; [eassumption|]);
      intros x y _ Hy Hxy; rewrite lookup_insert_ne; try done; intros <-; [apply (Hn1 _ Hy); left|done].
  - intros x. destruct (decide (x = b)) as [->|Hne]; [intros _; rewrite He; apply elem_of_app; right; left|].
    rewrite lookup_insert_ne by done. apply Hdom.
  - rewrite fmap_app, concat_app in Hnew, Hids |- *. csimpl in Hnew. csimpl in Hids. csimpl.
    assert (Hp : concat (ab_ids <$> l1) ++ ab_ids (push f a) ++ concat (ab_ids <$> l2) ≡ₚ
                 fr_id f :: concat (ab_ids <$> l1) ++ ab_ids a ++ concat (ab_ids <$> l2)).
    { unfold ab_ids at 2, push. cbn [ab_first ab_rest]. rewrite fmap_app. change (fr_id (ab_first a) :: _) with (ab_ids a ++ [fr_id f]).
      rewrite <- !(assoc_L (++)). cbn [app]. rewrite (assoc_L (++) (concat _)), <- Permutation_middle, <- (assoc_L (++)). done. }
    cbn [concat]. cbn [concat] in Hnew, Hids. rewrite Hp. apply NoDup_cons. done.
  - rewrite fmap_app in Hkeys |- *. done.
  - apply Forall_app in Hst as [Hs1 [Hs2 Hs3]%Forall_cons]. apply Forall_app. split; [done|]. apply Forall_cons. split; [|done].
    apply stored_push; done.
Qed.

Lemma add_pkt_found t m l1 a l2 f :
  rep hash t m (l1 ++ a :: l2) -> arrives m (l1 ++ a :: l2) f -> listed f = false -> ab_key a = fr_key f -> is_first f = false ->
  exists e1 b e2 h', expire_list m = e1 ++ b :: e2 /\ length l1 = length e1 /\
    let m' := with_bufs (<[b := buf_of (push f a)]> (f_bufs m)) (with_skbs h' m) in
    add_pkt jiffies ttl (fr_pkt f) (t, m) = Some (Some b, (t, m')) /\ rep hash t m' (l1 ++ push f a :: l2) /\
    heap_has h' (linked (push f a)) /\ (forall i, i ∉ ab_ids (push f a) -> h' !! i = f_skbs m !! i).
Proof.
  intros Hr [Hs Hnew Hok] Hl Hk Hfirst. destruct (rep_split hash t m l1 a l2 Hr) as (e1 & b & e2 & He & Hlen & Hb & _ & _ & Hit).
  assert (Ha : a ∈ l1 ++ a :: l2) by (apply elem_of_app; right; left).
  assert (Hna : fr_id f ∉ ab_ids a). { intros Hi. apply Hnew. eapply concat_in; done. }
  destruct (append_pkt_run m b a f Hb (r_heap _ _ _ _ Hr a Ha) (proj1 (ids_split _ _ _ (r_ids _ _ _ _ Hr))) Hs Hna) as (h' & Hrun & Hh & Hframe).
  { split; done. }
  exists e1, b, e2, h'. split; [done|]. split; [done|]. split; [|split; [eapply rep_push; try done; split; done|done]].
  unfold add_pkt. rewrite (on_mem_run _ _ t m _ _ (ld_frag_off_run m f Hs Hok)).
  destruct (stored_key a) as [k Hka]; [apply (proj1 (Forall_forall _ _) (r_stored _ _ _ _ Hr) a Ha)|].
  assert (Hpk : pkt_key m (fr_pkt f) = Some k). { rewrite (arrived_key m f Hs), <- Hk. done. }
  destruct (keys_split _ _ _ (r_keys _ _ _ _ Hr)) as (_ & Hk2 & _). rewrite Hka in Hk2.
  rewrite (bind_run _ _ _ _ _ (GET_found FRAGDB_SIZE fragdb_size frag_equals (frag_hash hash) t m (fr_pkt f) k (fr_pkt (ab_first a)) b
     (its l1 e1) (its l2 e2) (r_table _ _ _ _ Hr) Hpk Hit (eq_trans (rep_pkt_key hash t m _ a Hr Ha) Hka)
     (rep_lacks hash m l2 e2 k (fun x Hx => rep_pkt_key hash t m _ x Hr ltac:(apply elem_of_app; right; right; done)) Hk2))).
  unfold is_first in Hfirst. rewrite Hfirst. rewrite (on_mem_run _ _ t m _ _ Hrun). done.
Qed.

(** What is not looked at may change. *)
Lemma rep_same t t' m m' l :
  rep hash t m l -> ht_ok FRAGDB_SIZE frag_equals (frag_hash hash) t' m -> items t' = items t ->
  f_skbs m' = f_skbs m -> f_bufs m' = f_bufs m -> expire_list m' = expire_list m -> f_rnd m' = f_rnd m -> f_cache m' = f_cache m ->
  (f_next m <= f_next m')%positive -> rep hash t' m' l.
Proof.
  intros Hr Hok Hit E1 E2 E3 E4 E5 Hle. destruct Hr as [Htab Hitems Hb Hdom Hnd Hlt Hheap Hids Hkeys Hst Hc].
  split; rewrite ?E1, ?E2, ?E3, ?E5, ?Hit; try done.
  - eapply ht_ok_kept; [exact Hok|]. split; [|intros x; cbn; rewrite E4; done]. intros k v _. cbn. unfold pkt_key. rewrite E1. done.
  - intros x Hx. pose proof (Hlt x Hx). lia.
Qed.

Lemma rep_fresh t m l : rep hash t m l -> f_bufs m !! f_next m = None.
Proof.
  intros Hr. apply eq_None_not_Some. intros Hx%(r_dom _ _ _ _ Hr). pose proof (r_next _ _ _ _ Hr _ Hx). lia.
Qed.

(** The first fragment of a packet gets its buffer. *)
Lemma rep_new t m l f t' m' d :
  rep hash t m l -> arrives m l f -> listed f = false -> is_Some (frag_offset (fr_meta f)) -> fr_key f ∉ (ab_key <$> l) ->
  fs_cloned (fr_skb f) = false ->
  ht_ok FRAGDB_SIZE frag_equals (frag_hash hash) t' m -> items t' = items t ++ [(fr_pkt f, f_next m)] ->
  f_skbs m' = f_skbs m -> f_bufs m' = <[f_next m := buf_of (ABuf f [] d)]> (f_bufs m) -> expire_list m' = expire_list m ++ [f_next m] ->
  f_rnd m' = f_rnd m -> f_cache m' = f_cache m -> f_next m' = Pos.succ (f_next m) ->
  rep hash t' m' (l ++ [ABuf f [] d]).
Proof.
  intros Hr [Hs Hnew Hok] Hl Hfr Hkey Hcl Htok Hit E1 E2 E3 E4 E5 E6. pose proof (rep_fresh _ _ _ Hr) as Hfresh.
  destruct Hr as [Htab Hitems Hb Hdom Hnd Hlt Hheap Hids Hkeys Hst Hc]. pose proof (Forall2_length _ _ _ Hb) as Hlen.
  apply listed_fields in Hl as Hfields. destruct Hfields as (_ & _ & Hfl).
  split; rewrite ?E1, ?E2, ?E3, ?E5, ?E6; try done.
  - eapply ht_ok_kept; [exact Htok|]. split; [|intros x; cbn; rewrite E4; done]. intros k v _. cbn. unfold pkt_key. rewrite E1. done.
  - rewrite Hit, Hitems, fmap_app, zip_with_app by (rewrite length_fmap; done). done.
  - apply Forall2_app; [|constructor; [apply lookup_insert_eq|constructor]]. eapply Forall2_in; [exact Hb|].
    intros x y _ Hy Hxy. rewrite lookup_insert_ne; [done|]. intros <-. congruence.
  - intros x Hx. destruct (decide (x = f_next m)) as [->|Hne]; [apply elem_of_app; right; left|]. rewrite lookup_insert_ne in Hx by done.
    apply elem_of_app. left. auto.
  - apply NoDup_app. split; [done|]. split; [|apply NoDup_singleton]. intros x Hx ->%list_elem_of_singleton.
    pose proof (Hlt _ Hx). lia.
  - intros x [Hx|Hx]%elem_of_app; [pose proof (Hlt _ Hx); lia|]. apply list_elem_of_singleton in Hx as ->. lia.
  - intros x [Hx|Hx]%elem_of_app; [auto|]. apply list_elem_of_singleton in Hx as ->. unfold linked. apply heap_has_cons.
    split; [|intros i s H; inversion H]. cbn [ab_first]. rewrite Hs. unfold first_skb, grown, set_frag_list. cbn. rewrite <- Hfl.
    destruct (fr_skb f); done.
  - rewrite fmap_app, concat_app. cbn. apply NoDup_app. split; [done|]. split; [|apply NoDup_singleton].
    intros i Hi ->%list_elem_of_singleton. done.
  - rewrite fmap_app. apply NoDup_app. split; [done|]. split; [|apply NoDup_singleton]. intros i Hi ->%list_elem_of_singleton. done.
  - apply Forall_app. split; [done|]. constructor; [|constructor]. split; done.
Qed.

Lemma buffer_alloc_run x m : f_cache m = true ->
  buffer_alloc x m =
    let ok := fst (kmalloc (f_allocs m)) in let al := snd (kmalloc (f_allocs m)) in
    Some (if ok then Some (f_next m) else None,
          if ok then FMem (f_skbs m) (<[f_next m := x]> (f_bufs m)) (Pos.succ (f_next m)) al (f_cache m) (expire_list m) (expire_timer m) (f_rnd m)
          else with_cache (f_cache m) al m).
Proof. intros Hc. unfold buffer_alloc. rewrite Hc. cbn [negb]. destruct (kmalloc (f_allocs m)) as [[] al]; done. Qed.

Lemma add_pkt_new t m l f :
  rep hash t m l -> arrives m l f -> listed f = false -> fragmented f = true -> fr_key f ∉ (ab_key <$> l) -> is_first f = true ->
  fs_cloned (fr_skb f) = false ->
  let mem := fst (kmalloc (f_allocs m)) && fst (kmalloc (ht_allocs t)) in
  exists t' m', add_pkt jiffies ttl (fr_pkt f) (t, m) = Some (if mem then Some (f_next m) else None, (t', m')) /\
    rep hash t' m' (if mem then l ++ [ABuf f [] (u64 (jiffies + ttl))] else l) /\ f_skbs m' = f_skbs m /\
    (if mem then is_Some (expire_timer m') else expire_timer m' = expire_timer m) /\ (mem_ok t m -> mem_ok t' m').
Proof.
  intros Hr Hf Hl Hfrag Hkey Hfirst Hcl mem. pose proof Hf as [Hs Hnew Hok]. destruct (fragmented_hdr f Hok Hfrag) as (o & x & Ho & _).
  destruct (fr_key_some f Hok o Ho) as [k Hk].
  assert (Hpk : pkt_key m (fr_pkt f) = Some k) by (rewrite (arrived_key m f Hs); done).
  unfold add_pkt. rewrite (on_mem_run _ _ t m _ _ (ld_frag_off_run m f Hs Hok)).
  rewrite (bind_run _ _ _ _ _ (GET_lacks FRAGDB_SIZE fragdb_size frag_equals (frag_hash hash) t m (fr_pkt f) k (r_table _ _ _ _ Hr) Hpk
     ltac:(rewrite (r_items _ _ _ _ Hr); apply (rep_lacks hash m l _ k); [intros y Hy; apply (rep_pkt_key hash t m l y Hr Hy)|rewrite <- Hk; done]))).
  unfold is_first in Hfirst. rewrite Hfirst. cbn [negb].
  rewrite (on_mem_run _ _ t m (fr_id f, fr_skb f) m) by (cbn; rewrite Hs; done). rewrite Hcl.
  set (x0 := RBuf (fr_pkt f) (SlotFragList (fr_id f)) (u64 (jiffies + ttl))).
  pose proof (buffer_alloc_run x0 m (r_cache _ _ _ _ Hr)) as Halloc.
  destruct (kmalloc (f_allocs m)) as [ok al] eqn:Em. cbn [fst snd] in Halloc. rewrite (on_mem_run _ _ t m _ _ Halloc). clear Halloc. assert (Hal : false ∉ f_allocs m -> false ∉ al).
  { intros H H'. apply H. apply kmalloc_rest. rewrite Em. done. }
  destruct ok; cbn [fst andb] in mem; subst mem; cycle 1.
  { eexists t, _. split; [reflexivity|]. split; [|split; [done|split; [done|]]].
    - eapply rep_same; [exact Hr|apply (r_table _ _ _ _ Hr)|done..|]. cbn. lia.
    - intros [H1 H2]. split; [auto|done]. }
  set (m1 := FMem (f_skbs m) _ _ _ _ _ _ _).
  assert (Hok1 : ht_ok FRAGDB_SIZE frag_equals (frag_hash hash) t m1) by (eapply ht_ok_kept; [exact (r_table _ _ _ _ Hr)|split; done]).
  destruct (PUT_spec FRAGDB_SIZE fragdb_size frag_equals (frag_hash hash) t m1 (fr_pkt f) k (f_next m) Hok1 Hpk) as (t' & Hput & Hok' & Hit & Hal').
  rewrite (bind_run _ _ _ _ _ Hput). assert (Hokm : ht_ok FRAGDB_SIZE frag_equals (frag_hash hash) t' m) by (eapply ht_ok_kept; [exact Hok'|split; done]).
  assert (Halt : false ∉ ht_allocs t -> false ∉ ht_allocs t'). { intros H H'. rewrite Hal' in H'. apply kmalloc_rest in H'. done. }
  destruct (kmalloc (ht_allocs t)) as [[] al2]; cbn [fst] in *.
  - destruct (expire_timer m) as [ti|] eqn:Eti.
    + eexists t', _. split; [unfold set_mem, on_mem, modify, gets_mem, gets, mbind, M_bind, m1; cbn; reflexivity|].
      split; [|split; [done|split; [cbn; eauto|]]].
      * eapply (rep_new t m l f t'); eauto.
      * intros [H1 H2]. split; [apply Hal; done|auto].
    + eexists t', _. split; [unfold set_mem, on_mem, modify, gets_mem, gets, mbind, M_bind, m1; cbn; reflexivity|].
      split; [|split; [done|split; [cbn; eauto|]]].
      * eapply (rep_new t m l f t'); eauto.
      * intros [H1 H2]. split; [apply Hal; done|auto].
  - eexists t', _. split; [unfold buffer_free, on_mem, mbind, M_bind; cbn; rewrite lookup_insert_eq; reflexivity|].
    split; [|split; [done|split; [done|]]].
    + eapply rep_same; [exact Hr|done|rewrite Hit; apply app_nil_r|done| |done..|cbn; lia].
      cbn. rewrite delete_insert_eq. apply delete_id. eapply rep_fresh. exact Hr.
    + intros [H1 H2]. split; [apply Hal; done|auto].
Qed.

Lemma rep_write t m l i s m' :
  rep hash t m l -> m' = with_skbs (<[i := s]> (f_skbs m)) m -> (forall a, a ∈ l -> i ∉ ab_ids a) -> rep hash t m' l.
Proof.
  intros Hr -> Hi. pose proof Hr as [Htab Hitems Hb Hdom Hnd Hlt Hheap Hids Hkeys Hst Hc].
  assert (Hh : forall a, a ∈ l -> heap_has (<[i := s]> (f_skbs m)) (linked a)).
  { intros a Ha. apply (heap_has_same (f_skbs m)); [|auto]. intros j. rewrite linked_ids. intros Hj.
    rewrite lookup_insert_ne; [done|]. intros <-. apply (Hi a Ha Hj). }
  split; try done. eapply ht_ok_kept; [exact Htab|]. rewrite Hitems. apply rep_kept; [|done|done].
  intros a Ha. apply (rep_pkt_key hash t m l a Hr Ha).
Qed.

(** *** [fragdb_handle] *)

(** The verdict, the packet the caller goes on with and the heap, for each
    outcome: a packet that is let through or dropped is as it was; one that is
    stolen is the database's; a whole packet is its first fragment, with the
    others behind it. *)
Definition handled (f : frag) (o : outcome) (r : verdict * fpacket) (m m' : fmem) : Prop :=
  match o with
  | OPass => r = (VERDICT_CONTINUE, fr_pkt f) /\ f_skbs m' = f_skbs m
  | ODrop => r = (VERDICT_DROP, fr_pkt f) /\ f_skbs m' = f_skbs m
  | OStolen => r = (VERDICT_STOLEN, fr_pkt f)
  | ODone a => r = (if whole_ok a then VERDICT_CONTINUE else VERDICT_DROP, fr_pkt (ab_first a)) /\
      heap_has (f_skbs m') (if whole_ok a then whole a else linked a)
  end.

(** The buffers of others are not touched. *)
Definition untouched (ids : list Z) (m m' : fmem) : Prop := forall i, i ∉ ids -> f_skbs m' !! i = f_skbs m !! i.

Definition armed (m : fmem) (l : list abuf) : Prop := l <> [] -> is_Some (expire_timer m).

Lemma first_more f : fragmented f = true -> is_first f = true -> more f = true.
Proof.
  unfold fragmented, is_first, more. destruct (fr_off f) as [x|]; [|done]. cbn. intros H E. rewrite E in H. exact H.
Qed.

(** The last fragment has joined the buffer. *)
Lemma complete_run t m l1 a l2 e1 b e2 :
  rep hash t m (l1 ++ a :: l2) -> expire_list m = e1 ++ b :: e2 -> length l1 = length e1 ->
  exists t' m', (x ← on_mem (buf_at b); let pkt := b_pkt x in
       on_mem (set_buf b (RBuf (FPacket None (fp_meta pkt)) (b_next_slot x) (b_dying_time x)));;
       buffer_destroy b pkt;; result ← on_mem (finish_pkt pkt); mret (result, pkt)) (t, m) =
      Some ((if whole_ok a then VERDICT_CONTINUE else VERDICT_DROP, fr_pkt (ab_first a)), (t', m')) /\
    rep hash t' m' (l1 ++ l2) /\ heap_has (f_skbs m') (if whole_ok a then whole a else linked a) /\
    (forall i, i ∉ ab_ids a -> f_skbs m' !! i = f_skbs m !! i) /\ expire_timer m' = expire_timer m /\
    f_allocs m' = f_allocs m /\ ht_allocs t' = ht_allocs t.
Proof.
  intros Hr He Hlen. assert (Ha : a ∈ l1 ++ a :: l2) by (apply elem_of_app; right; left).
  destruct (rep_split hash t m l1 a l2 Hr) as (e1' & b' & e2' & He' & Hlen' & Hb & _).
  assert (E : e1 = e1' /\ b :: e2 = b' :: e2') by (apply app_inj_1; [congruence|]; rewrite <- He, <- He'; done). destruct E as [<- [= <- <-]].
  set (x := RBuf (FPacket None (fr_meta (ab_first a))) (slot_of a) (ab_dying a)).
  destruct (buffer_destroy_run hash t m l1 a l2 b Hr x (f_skbs m)) as (t' & Hrun & Hrep & Hal); [eauto|intros m1 E; rewrite <- E; destruct m1; done|done|].
  cbv zeta in Hrun. set (m2 := with_bufs (delete b (f_bufs m)) _) in Hrun, Hrep. pose proof (r_heap _ _ _ _ Hr a Ha) as Hh.
  pose proof (proj1 (Forall_forall _ _) (r_stored _ _ _ _ Hr) a Ha) as Hst.
  destruct (ids_split _ _ _ (r_ids _ _ _ _ Hr)) as (Hna & _ & Hdisj).
  assert (Hfirst : f_skbs m2 !! fr_id (ab_first a) = Some (first_skb a)) by (apply Hh; left).
  rewrite (on_mem_run _ _ t m (buf_of a) m) by (unfold buf_at; rewrite Hb; done). cbv zeta. cbn [buf_of b_pkt fr_pkt fp_meta b_next_slot b_dying_time].
  rewrite (on_mem_run _ _ t m tt (with_bufs (<[b := x]> (f_bufs m)) m)) by (unfold set_buf; rewrite Hb; done).
  change (FPacket (Some (fr_id (ab_first a))) (fr_meta (ab_first a))) with (fr_pkt (ab_first a)).
  rewrite (bind_run _ _ _ _ _ Hrun). cbv beta. rewrite (on_mem_run _ _ t' m2 _ _ (finish_pkt_run m2 a Hfirst Hst)).
  eexists t', _. split; [reflexivity|]. unfold linked in Hh. apply heap_has_cons in Hh as [_ Hrest]. apply NoDup_cons in Hna as [Hn1 Hn2].
  destruct (whole_ok a).
  - split; [|split; [|split; [|done]]].
    + eapply (rep_write t' m2); [exact Hrep|reflexivity|]. intros y Hy Hi. apply (Hdisj y _ Hy Hi). left.
    + unfold whole. apply heap_has_cons. split; [cbn; apply lookup_insert_eq|]. apply (heap_has_same (f_skbs m)); [|done].
      intros i. rewrite link_rest_ids. intros Hi. cbn. rewrite lookup_insert_ne; [done|]. intros <-. done.
    + intros i Hi. cbn. rewrite lookup_insert_ne; [done|]. intros <-. apply Hi. left.
  - split; [done|]. split; [apply (r_heap _ _ _ _ Hr a Ha)|]. done.
Qed.

(** A fragment that is not taken. *)
Definition refused (f : frag) (l : list abuf) : Prop :=
  match split_key (fr_key f) l with
  | Some _ => is_first f = true
  | None => is_first f = false \/ fs_cloned (fr_skb f) = true
  end.

Lemma add_pkt_refused t m l f :
  rep hash t m l -> arrives m l f -> fragmented f = true ->
  refused f l ->
  add_pkt jiffies ttl (fr_pkt f) (t, m) = Some (None, (t, m)).
Proof.
  intros Hr [Hs Hnew Hok] Hfrag Hcase. unfold refused in Hcase. destruct (fragmented_hdr f Hok Hfrag) as (o & x & Ho & _).
  destruct (fr_key_some f Hok o Ho) as [k Hk].
  assert (Hpk : pkt_key m (fr_pkt f) = Some k) by (rewrite (arrived_key m f Hs); done).
  unfold add_pkt. rewrite (on_mem_run _ _ t m _ _ (ld_frag_off_run m f Hs Hok)).
  destruct (split_key (fr_key f) l) as [[[l1 a] l2]|] eqn:Es.
  - apply split_key_some in Es as [-> Hka]. destruct (rep_split hash t m l1 a l2 Hr) as (e1 & b & e2 & _ & _ & _ & _ & _ & Hit).
    assert (Ha : a ∈ l1 ++ a :: l2) by (apply elem_of_app; right; left).
    destruct (keys_split _ _ _ (r_keys _ _ _ _ Hr)) as (_ & Hk2 & _). rewrite Hka, Hk in Hk2. rewrite Hk in Hka.
    rewrite (bind_run _ _ _ _ _ (GET_found FRAGDB_SIZE fragdb_size frag_equals (frag_hash hash) t m (fr_pkt f) k (fr_pkt (ab_first a)) b
       (its l1 e1) (its l2 e2) (r_table _ _ _ _ Hr) Hpk Hit (eq_trans (rep_pkt_key hash t m _ a Hr Ha) Hka)
       (rep_lacks hash m l2 e2 k (fun x Hx => rep_pkt_key hash t m _ x Hr ltac:(apply elem_of_app; right; right; done)) Hk2))).
    unfold is_first in Hcase. rewrite Hcase. done.
  - apply split_key_none in Es.
    rewrite (bind_run _ _ _ _ _ (GET_lacks FRAGDB_SIZE fragdb_size frag_equals (frag_hash hash) t m (fr_pkt f) k (r_table _ _ _ _ Hr) Hpk
       ltac:(rewrite (r_items _ _ _ _ Hr); apply (rep_lacks hash m l _ k); [intros y Hy; apply (rep_pkt_key hash t m l y Hr Hy)|rewrite <- Hk; done]))).
    unfold is_first in Hcase. destruct (is_first_frag6 (fr_off f)); [|done]. cbn [negb]. destruct Hcase as [|Hcl]; [done|].
    rewrite (on_mem_run _ _ t m (fr_id f, fr_skb f) m) by (cbn; rewrite Hs; done). rewrite Hcl. done.
Qed.

Lemma handle_run t m l f :
  rep hash t m l -> arrives m l f -> armed m l ->
  let mem := fst (kmalloc (f_allocs m)) && fst (kmalloc (ht_allocs t)) in
  let '(o, l') := frag_step f mem (u64 (jiffies + ttl)) l in
  exists r t' m', fragdb_handle jiffies ttl (fr_pkt f) (t, m) = Some (r, (t', m')) /\ rep hash t' m' l' /\ armed m' l' /\
    handled f o r m m' /\ untouched (fr_id f :: concat (ab_ids <$> l)) m m' /\ (mem_ok t m -> mem_ok t' m').
Proof.
  intros Hr Hf Harm mem. pose proof Hf as [Hs Hnew Hok]. unfold frag_step, fragdb_handle.
  rewrite (on_mem_run _ _ t m _ _ (ld_frag_off_run m f Hs Hok)). fold (fragmented f).
  destruct (fragmented f) eqn:Hfrag; cbn [negb]; [|eexists _, t, m; split; [reflexivity|]; done].
  rewrite (on_mem_run _ _ t m _ _ (validate_skb_run m f Hs)). destruct (listed f) eqn:Hl; [eexists _, t, m; split; [reflexivity|]; done|].
  destruct (fragmented_hdr f Hok Hfrag) as (o & x & Ho & Hx).
  assert (Hmore : more f = negb (is_more_fragments_set_ipv6 x =? 0)) by (unfold more; rewrite Hx; done).
  assert (Hdrop : refused f l -> add_pkt jiffies ttl (fr_pkt f) (t, m) = Some (None, (t, m))) by (apply add_pkt_refused; done).
  unfold refused in Hdrop.
  destruct (split_key (fr_key f) l) as [[[l1 a] l2]|] eqn:Es.
  - destruct (is_first f) eqn:Hfirst; [rewrite (bind_run _ _ _ _ _ (Hdrop eq_refl)); eexists _, t, m; split; [reflexivity|done]|]. clear Hdrop. apply split_key_some in Es as [-> Hka].
    destruct (add_pkt_found t m l1 a l2 f Hr Hf Hl Hka Hfirst) as (e1 & b & e2 & h' & He & Hlen & Hrun & Hrep & Hh & Hframe).
    set (m1 := with_bufs _ _) in Hrun, Hrep. rewrite (bind_run _ _ _ _ _ Hrun), Hx, some_bind, <- Hmore.
    assert (Hun : forall i, i ∉ fr_id f :: concat (ab_ids <$> l1 ++ a :: l2) -> i ∉ ab_ids (push f a)).
    { intros i Hi Hi'. apply Hi. unfold ab_ids, push in Hi'. cbn [ab_first ab_rest] in Hi'. rewrite fmap_app in Hi'.
      change (fr_id (ab_first a) :: _) with (ab_ids a ++ [fr_id f]) in Hi'. rewrite elem_of_app, list_elem_of_singleton in Hi'.
      rewrite elem_of_cons. destruct Hi' as [Hi'|Hi']; [right|left; done]. eapply concat_in; [|done]. apply elem_of_app. right. left. }
    destruct (more f).
    + eexists _, t, m1. split; [reflexivity|]. split; [done|]. split; [|split; [done|split; [|done]]].
      * intros _. apply Harm. intros E. destruct l1; done.
      * intros i Hi. apply Hframe. auto.
    + destruct (complete_run t m1 l1 (push f a) l2 e1 b e2 Hrep He Hlen) as (t' & m' & Hrun' & Hrep' & Hwhole & Hframe' & Hti & Ha1 & Ha2).
      eexists _, t', m'. split; [exact Hrun'|]. split; [done|]. split; [|split; [done|split]].
      * intros _. rewrite Hti. apply Harm. intros E. destruct l1; done.
      * intros i Hi. rewrite Hframe' by auto. apply Hframe. auto.
      * unfold mem_ok. rewrite Ha1, Ha2. done.
  - destruct (is_first f) eqn:Hfirst; cbn [negb];
      [|rewrite (bind_run _ _ _ _ _ (Hdrop (or_introl eq_refl))); eexists _, t, m; split; [reflexivity|done]].
    destruct (fs_cloned (fr_skb f)) eqn:Hcl;
      [rewrite (bind_run _ _ _ _ _ (Hdrop (or_intror eq_refl))); eexists _, t, m; split; [reflexivity|done]|]. clear Hdrop. apply split_key_none in Es.
    destruct (add_pkt_new t m l f Hr Hf Hl Hfrag Es Hfirst Hcl) as (t' & m' & Hrun & Hrep & Hskb & Hti & Hmem).
    fold mem in Hrun, Hrep, Hti. rewrite (bind_run _ _ _ _ _ Hrun). destruct mem; cbn [negb].
    + rewrite Hx, some_bind, <- Hmore, first_more by done. eexists _, t', m'. split; [reflexivity|]. split; [done|]. split; [intros _; exact Hti|].
      split; [done|]. split; [|done]. intros i _. rewrite Hskb. done.
    + eexists _, t', m'. split; [reflexivity|]. split; [done|]. split; [unfold armed; rewrite Hti; done|]. split; [done|].
      split; [|done]. intros i _. rewrite Hskb. done.
Qed.

End Handle.
