(* ===== verification/FragdbTrace.v ===== *)
(** * The life of the fragment database

    The timer that deletes the packets that were not completed in time, the
    setup and the teardown of [mod/stateful/fragment_db.c], any sequence of
    fragments and timers in between, and the packets that come out whole. *)
From S2P Require Import Prelude Types Packet Skb SessionEntry PktQueue SessionTable InTuple Checksum XlatPkt XlatSpec Wire HashTable Fragdb FragdbSpec.

(** ** The timer *)

Definition expired (now : Z) (a : abuf) : bool := negb (time_before now (ab_dying a)).

(** The buffers that have expired, up to the first one that has not; and the
    rest. *)
Fixpoint gone (now : Z) (l : list abuf) : list abuf :=
  match l with [] => [] | a :: l => if expired now a then a :: gone now l else [] end.
Fixpoint clean (now : Z) (l : list abuf) : list abuf :=
  match l with [] => [] | a :: l' => if expired now a then clean now l' else l end.

Lemma gone_clean now l : gone now l ++ clean now l = l.
Proof. induction l as [|a l IH]; [done|]. simpl. destruct (expired now a); simpl; [rewrite IH|]; done. Qed.

Lemma freed_unique ids h h1 h2 : freed ids h h1 -> freed ids h h2 -> h1 = h2.
Proof. intros H1 H2. apply map_eq. intros i. rewrite (H1 i), (H2 i). done. Qed.

Lemma freed_nil h : freed [] h h.
Proof. intros i. done. Qed.

Lemma freed_app i1 i2 h h1 h2 : freed i1 h h1 -> freed i2 h1 h2 -> freed (i1 ++ i2) h h2.
Proof.
  intros H1 H2 i. rewrite (H2 i), (H1 i). rewrite (bool_decide_ext _ _ (elem_of_app i1 i2 i)).
  repeat case_bool_decide; tauto.
Qed.

Lemma kfree_first_any m a :
  heap_has (f_skbs m) (linked a) -> NoDup (ab_ids a) -> stored a ->
  exists h', freed (ab_ids a) (f_skbs m) h' /\
    forall m1, f_skbs m1 = f_skbs m -> kfree_skb (Some (fr_id (ab_first a))) m1 = Some (tt, with_skbs h' m1).
Proof.
  intros Hh Hnd Hst. destruct (kfree_first m a Hh Hnd Hst) as (h' & _ & Hfr). exists h'. split; [done|].
  intros m1 E. destruct (kfree_first m1 a) as (h1 & Hrun & Hfr1); [rewrite E; done|done..|].
  rewrite E in Hfr1. rewrite (freed_unique _ _ _ _ Hfr Hfr1). done.
Qed.

Section Timer.
Context (hash : Z -> Z -> Z -> Z -> Z) (jiffies : Z).

(** The oldest buffer dies. *)
Lemma destroy_head t m a l :
  rep hash t m (a :: l) ->
  exists b e t' m', expire_list m = b :: e /\ f_bufs m !! b = Some (buf_of a) /\
    buffer_destroy b (fr_pkt (ab_first a)) (t, m) = Some (tt, (t', m')) /\ rep hash t' m' l /\
    freed (ab_ids a) (f_skbs m) (f_skbs m') /\ expire_timer m' = expire_timer m /\ f_allocs m' = f_allocs m /\ ht_allocs t' = ht_allocs t.
Proof.
  intros Hr. destruct (rep_split hash t m [] a l Hr) as (e1 & b & e2 & He & Hlen & Hb & _). destruct e1; [|done]. cbn in He.
  destruct (ids_split [] l a (r_ids _ _ _ _ Hr)) as (Hnd & _ & Hdisj).
  assert (Hst : stored a) by (apply (proj1 (Forall_forall _ _) (r_stored _ _ _ _ Hr)); left).
  destruct (kfree_first_any m a) as (h' & Hfr & Hrun); [apply (r_heap _ _ _ _ Hr); left|done..|].
  destruct (buffer_destroy_run hash t m [] a l b Hr (buf_of a) h') as (t' & Hrun' & Hrep & Hal); [exists [], e2; done|exact Hrun| |].
  { intros x i Hx Hi. apply (freed_kept _ _ _ _ Hfr). eauto. }
  exists b, e2. eexists t', _. split; [done|]. split; [done|]. split; [|split; [exact Hrep|done]].
  cbv zeta in Hrun'. rewrite insert_id in Hrun' by done. destruct m. exact Hrun'.
Qed.

Lemma clean_loop_run l : forall fuel t m, rep hash t m l -> (length l < fuel)%nat ->
  exists t' m', clean_loop jiffies fuel (t, m) = Some (tt, (t', m')) /\ rep hash t' m' (clean jiffies l) /\
    freed (concat (ab_ids <$> gone jiffies l)) (f_skbs m) (f_skbs m') /\ expire_timer m' = expire_timer m /\
    f_allocs m' = f_allocs m /\ ht_allocs t' = ht_allocs t.
Proof.
  induction l as [|a l IH]; intros fuel t m Hr Hfuel; (destruct fuel as [|fuel]; [simpl in Hfuel; lia|]); cbn [clean_loop].
  - exists t, m. pose proof (Forall2_nil_inv_l _ _ (r_bufs _ _ _ _ Hr)) as Hnil. split; [|split; [done|split; [apply freed_nil|done]]].
    unfold gets_mem, gets, mbind at 1, M_bind at 1. cbn [snd]. rewrite Hnil. done.
  - destruct (destroy_head t m a l Hr) as (b & e & t1 & m1 & He & Hb & Hrun & Hrep & Hfr & Hti & Ha1 & Ha2).
    unfold gets_mem, gets, mbind at 1, M_bind at 1. cbn [snd]. rewrite He.
    rewrite (on_mem_run _ _ t m (buf_of a) m) by (unfold buf_at; rewrite Hb; done). cbn [buf_of b_dying_time clean gone b_pkt].
    unfold expired. destruct (time_before jiffies (ab_dying a)); cbn [negb].
    { exists t, m. split; [done|]. split; [done|]. split; [apply freed_nil|done]. }
    rewrite (bind_run _ _ _ _ _ Hrun). destruct (IH fuel t1 m1 Hrep) as (t' & m' & Hrun' & Hrep' & Hfr' & Hti' & Ha1' & Ha2'); [simpl in Hfuel; lia|].
    exists t', m'. split; [done|]. split; [done|]. split; [exact (freed_app (ab_ids a) _ _ _ _ Hfr Hfr')|]. repeat split; congruence.
Qed.

(** When the timer has to fire again. *)
Definition next_fire (l : list abuf) : option Z :=
  match l with
  | [] => None
  | a :: _ => let min_time := u64 (jiffies + MIN_TIMER_SLEEP) in Some (if ab_dying a <? min_time then min_time else ab_dying a)
  end.

Lemma rep_timer t m l x : rep hash t m l -> rep hash t (with_timer x m) l.
Proof. intros Hr. eapply rep_same; [exact Hr|apply (r_table _ _ _ _ Hr)|done..|]. cbn. lia. Qed.

Lemma cleaner_run t m l : rep hash t m l ->
  exists t' m', frag_cleaner_timer jiffies (t, m) = Some (tt, (t', m')) /\ rep hash t' m' (clean jiffies l) /\
    freed (concat (ab_ids <$> gone jiffies l)) (f_skbs m) (f_skbs m') /\ expire_timer m' = next_fire (clean jiffies l) /\
    f_allocs m' = f_allocs m /\ ht_allocs t' = ht_allocs t.
Proof.
  intros Hr. pose proof (rep_timer t m l None Hr) as Hr0.
  assert (Hlen : length l = length (expire_list m)) by (apply (Forall2_length _ _ _ (r_bufs _ _ _ _ Hr))).
  destruct (clean_loop_run l (S (length (expire_list m))) t (with_timer None m) Hr0) as (t' & m' & Hrun & Hrep & Hfr & Hti & Ha1 & Ha2); [lia|].
  unfold frag_cleaner_timer. rewrite (bind_run (set_mem (with_timer None)) _ (t, m) tt (t, with_timer None m)) by done. cbv zeta.
  rewrite (bind_run (clean_expired_buffers jiffies) _ _ tt (t', m')) by exact Hrun.
  unfold gets_mem, gets, mbind at 1, M_bind at 1. cbn [snd]. destruct (clean jiffies l) as [|a l'].
  - rewrite (Forall2_nil_inv_l _ _ (r_bufs _ _ _ _ Hrep)). exists t', m'. done.
  - destruct (Forall2_cons_inv_l _ _ _ _ (r_bufs _ _ _ _ Hrep)) as (b & e & Hab & _ & ->).
    rewrite (on_mem_run _ _ t' m' (buf_of a) m') by (unfold buf_at; rewrite Hab; done).
    eexists t', _. split; [reflexivity|]. split; [apply rep_timer; exact Hrep|]. done.
Qed.

End Timer.

(** ** Setup and teardown *)

Section Life.
Context (hash : Z -> Z -> Z -> Z -> Z).

Abbreviation its l e := (zip ((fun a => fr_pkt (ab_first a)) <$> l) e).

(** Nothing has been allocated. *)
Definition blank (t : ftable) (m : fmem) : Prop := ht_pairs t = ∅ /\ f_bufs m = ∅ /\ expire_list m = [].

Lemma init_run t m rnd : blank t m ->
  exists t' m', fragdb_init hash rnd (t, m) = Some (if fst (kmalloc (f_allocs m)) then Ok tt else Err ENOMEM, (t', m')) /\
    (if fst (kmalloc (f_allocs m)) then rep hash t' m' [] else f_cache m' = false /\ blank t' m') /\
    f_skbs m' = f_skbs m /\ (mem_ok t m -> mem_ok t' m').
Proof.
  intros (Hp & Hb & He). unfold fragdb_init, gets_mem, gets, mbind at 1, M_bind at 1. cbn [snd].
  destruct (kmalloc (f_allocs m)) as [ok al] eqn:Em. cbn [fst].
  assert (Hal : false ∉ f_allocs m -> false ∉ al). { intros H H'. apply H, kmalloc_rest. rewrite Em. done. }
  destruct ok; cbn [negb].
  - rewrite (bind_run (set_mem (with_cache true al)) _ (t, m) tt (t, with_cache true al m)) by done.
    destruct (INIT_spec FRAGDB_SIZE frag_equals (frag_hash hash) t (with_cache true al m) Hp) as (t' & Hrun & Hok & Hl & Ha).
    rewrite (bind_run _ _ _ _ _ Hrun). eexists t', _. split; [reflexivity|]. split; [|split; [done|]].
    + split; cbn -[frag_equals frag_hash FRAGDB_SIZE]; rewrite ?He, ?Hb; try done; try constructor.
      * unfold items. rewrite Hl. done.
      * intros b [x Hx]. done.
      * intros b Hx. inversion Hx.
      * intros a Hx. inversion Hx.
    + intros [H1 H2]. split; [auto|]. rewrite Ha. done.
  - eexists t, _. split; [reflexivity|]. split; [done|]. split; [done|]. intros [H1 H2]. split; [auto|done].
Qed.

(** While the table is emptied: the buffers that are left, and what has been
    freed. *)
Record emptying (h0 : gmap Z fskb) (l0 l1 : list abuf) (e : list positive) (m : fmem) : Prop := Emptying {
  em_bufs : Forall2 (fun a b => f_bufs m !! b = Some (buf_of a)) l1 e;
  em_dom : forall b, is_Some (f_bufs m !! b) -> b ∈ e;
  em_nodup : NoDup e;
  em_freed : freed (concat (ab_ids <$> l0)) h0 (f_skbs m);
  em_timer : expire_timer m = None
}.

Lemma freed_heap h h' (l0 l1 : list abuf) a : NoDup (concat (ab_ids <$> l0 ++ l1)) -> freed (concat (ab_ids <$> l0)) h h' -> a ∈ l1 ->
  heap_has h (linked a) -> heap_has h' (linked a).
Proof.
  intros Hnd Hfr Ha. apply heap_has_same. intros i. rewrite linked_ids. intros Hi. apply (freed_kept _ _ _ _ Hfr).
  rewrite fmap_app, concat_app in Hnd. apply NoDup_app in Hnd as (_ & Hd & _). intros Hi0. apply (Hd _ Hi0). eapply concat_in; done.
Qed.

Lemma dealloc_step h0 l0 a l1 b e m :
  (forall x, x ∈ l0 ++ a :: l1 -> heap_has h0 (linked x) /\ stored x) -> NoDup (concat (ab_ids <$> l0 ++ a :: l1)) ->
  emptying h0 l0 (a :: l1) (b :: e) m ->
  exists m', buffer_dealloc b m = Some (tt, m') /\ emptying h0 (l0 ++ [a]) l1 e m' /\
    keys_kept frag_equals (frag_hash hash) (its l1 e) m m'.
Proof.
  intros Hall Hnd [Hb Hdom Hn Hfr Hti]. apply Forall2_cons in Hb as [Hb Hbs]. apply NoDup_cons in Hn as [Hnb Hn].
  assert (Ha : a ∈ l0 ++ a :: l1) by (apply elem_of_app; right; left). destruct (Hall a Ha) as [Hha Hst].
  assert (Hh : forall x, x ∈ a :: l1 -> heap_has (f_skbs m) (linked x)).
  { intros x Hx. eapply (freed_heap _ _ l0 (a :: l1)); [done..|]. apply Hall, elem_of_app. right. done. }
  destruct (kfree_first m a) as (h' & Hfree & Hfr'); [apply Hh; left|apply (ids_split _ _ _ Hnd)|done|].
  exists (with_bufs (delete b (f_bufs m)) (with_skbs h' m)).
  assert (Hfr2 : freed (concat (ab_ids <$> l0 ++ [a])) h0 h').
  { rewrite fmap_app, concat_app. cbn [concat fmap list_fmap]. rewrite app_nil_r. eapply freed_app; done. }
  assert (Hh' : forall x, x ∈ l1 -> heap_has h' (linked x)).
  { intros x Hx. eapply (freed_heap _ _ (l0 ++ [a]) l1); [rewrite <- app_assoc; done|done|done|]. apply Hall, elem_of_app. right. right. done. }
  split; [|split].
  - unfold buffer_dealloc. rewrite (buf_at_run _ _ _ _ Hb). rewrite (bind_run (kfree_skb _) _ _ _ _ Hfree). unfold buffer_free. cbn.
    rewrite Hb. done.
  - split; cbn; try done.
    + eapply Forall2_in; [exact Hbs|]. intros x y _ Hy Hxy. rewrite lookup_delete_ne; [done|]. intros <-. done.
    + intros x Hx. destruct (decide (x = b)) as [->|Hne]; [rewrite lookup_delete_eq in Hx; destruct Hx; done|].
      rewrite lookup_delete_ne in Hx by done. apply Hdom in Hx. apply elem_of_cons in Hx as [->|]; done.
  - apply rep_kept; [|done|done]. intros x Hx. unfold pkt_key. cbn. pose proof (Hh x ltac:(right; done)) as Hx'. unfold linked in Hx'.
    apply heap_has_cons in Hx' as [-> _]. cbn. apply first_skb_key.
Qed.

Lemma destroy_run t m l : rep hash t m l ->
  exists t' m', fragdb_destroy (t, m) = Some (tt, (t', m')) /\ f_bufs m' = ∅ /\ ht_pairs t' = ∅ /\ f_cache m' = false /\
    expire_timer m' = None /\ freed (concat (ab_ids <$> l)) (f_skbs m) (f_skbs m').
Proof.
  intros Hr. pose proof (rep_timer hash t m l None Hr) as Hr0. unfold fragdb_destroy.
  rewrite (bind_run (set_mem (with_timer None)) _ (t, m) tt (t, with_timer None m)) by done.
  assert (Hall : forall x, x ∈ l -> heap_has (f_skbs m) (linked x) /\ stored x).
  { intros x Hx. split; [apply (r_heap _ _ _ _ Hr x Hx)|apply (proj1 (Forall_forall _ _) (r_stored _ _ _ _ Hr) x Hx)]. }
  destruct (EMPTY_spec FRAGDB_SIZE fragdb_size frag_equals (frag_hash hash)
      (fun its0 m1 => exists l0 l1 e, l = l0 ++ l1 /\ its0 = its l1 e /\ emptying (f_skbs m) l0 l1 e m1)
      (Some buffer_dealloc) t (with_timer None m)) as (t' & m' & Hrun & HP & Hok & Hp).
  - intros k b rest w (l0 & l1 & e & -> & Hits & Hem). destruct l1 as [|a l1]; [done|]. destruct e as [|b' e]; [done|].
    csimpl in Hits. injection Hits as -> -> ->. destruct (dealloc_step _ _ _ _ _ _ _ Hall (r_ids _ _ _ _ Hr) Hem) as (m' & Hd & Hem' & Hk).
    exists m'. split; [exact Hd|]. split; [|done]. exists (l0 ++ [a]), l1, e. rewrite <- app_assoc. done.
  - apply (r_table _ _ _ _ Hr0).
  - exists [], l, (expire_list m). split; [done|]. split; [apply (r_items _ _ _ _ Hr)|].
    split; [apply (r_bufs _ _ _ _ Hr)|apply (r_dom _ _ _ _ Hr)|apply (r_nodup _ _ _ _ Hr)|apply freed_nil|done].
  - rewrite (bind_run _ _ _ _ _ Hrun). eexists t', _. split; [reflexivity|]. destruct HP as (l0 & l1 & e & -> & Hits & [Hb Hdom Hn Hfr Hti]).
    assert (l1 = [] /\ e = []) as [-> ->].
    { apply Forall2_length in Hb. destruct l1, e; done. }
    rewrite app_nil_r. split; [|done]. cbn. apply map_empty. intros b. apply eq_None_not_Some. intros Hx%Hdom. inversion Hx.
Qed.

End Life.

(** ** Any sequence of fragments and timers *)

Inductive fevent : Type :=
| EvFrag (f : frag) (jiffies ttl : Z)
| EvTimer (jiffies : Z).

(** The kernel has allocated the fragment's buffer when it hands it over. *)
Definition run_event (e : fevent) : M fstate (option (verdict * fpacket)) :=
  match e with
  | EvFrag f jiffies ttl =>
      set_mem (fun m => with_skbs (<[fr_id f := fr_skb f]> (f_skbs m)) m);;
      r ← fragdb_handle jiffies ttl (fr_pkt f);
      mret (Some r)
  | EvTimer jiffies => frag_cleaner_timer jiffies;; mret None
  end.

Fixpoint run_events (es : list fevent) : M fstate (list (option (verdict * fpacket))) :=
  match es with
  | [] => mret []
  | e :: es => r ← run_event e; rs ← run_events es; mret (r :: rs)
  end.

(** The specification; [mems] says for each event whether its allocations
    succeed. *)
Definition spec_event (e : fevent) (mem : bool) (l : list abuf) : outcome * list abuf :=
  match e with
  | EvFrag f jiffies ttl => frag_step f mem (u64 (jiffies + ttl)) l
  | EvTimer jiffies => (OPass, clean jiffies l)
  end.

Fixpoint spec_events (es : list fevent) (mems : list bool) (l : list abuf) : list outcome * list abuf :=
  match es with
  | [] => ([], l)
  | e :: es =>
      let '(o, l) := spec_event e (hd true mems) l in
      let '(os, l) := spec_events es (tail mems) l in (o :: os, l)
  end.

(** What is returned for an outcome. *)
Definition answer (e : fevent) (o : outcome) (r : option (verdict * fpacket)) : Prop :=
  match e, o with
  | EvTimer _, _ => r = None
  | EvFrag f _ _, OPass => r = Some (VERDICT_CONTINUE, fr_pkt f)
  | EvFrag f _ _, ODrop => r = Some (VERDICT_DROP, fr_pkt f)
  | EvFrag f _ _, OStolen => r = Some (VERDICT_STOLEN, fr_pkt f)
  | EvFrag f _ _, ODone a => r = Some (if whole_ok a then VERDICT_CONTINUE else VERDICT_DROP, fr_pkt (ab_first a))
  end.

Definition delivered (a : abuf) : list (Z * fskb) := if whole_ok a then whole a else linked a.
Definition done_of (o : outcome) : list abuf := match o with ODone a => [a] | _ => [] end.
Definition ev_id (e : fevent) : list Z := match e with EvFrag f _ _ => [fr_id f] | EvTimer _ => [] end.

Lemma delivered_ids a : (delivered a).*1 = ab_ids a.
Proof. unfold delivered. destruct (whole_ok a); [|apply linked_ids]. unfold whole, ab_ids. csimpl. rewrite link_rest_ids. done. Qed.

Lemma push_ids f a : ab_ids (push f a) = ab_ids a ++ [fr_id f].
Proof. unfold ab_ids, push. cbn [ab_first ab_rest]. rewrite fmap_app. done. Qed.

Lemma ids_middle (l1 l2 : list abuf) a : concat (ab_ids <$> l1 ++ a :: l2) ≡ₚ ab_ids a ++ concat (ab_ids <$> l1 ++ l2).
Proof. rewrite !fmap_app. csimpl. rewrite !concat_app. cbn [concat]. apply Permutation_app_swap_app. Qed.

(** A fragment is stored, comes out, or does neither. *)
Lemma frag_step_ids f mem d l o l' : frag_step f mem d l = (o, l') ->
  concat (ab_ids <$> done_of o ++ l') ≡ₚ concat (ab_ids <$> l) \/
  concat (ab_ids <$> done_of o ++ l') ≡ₚ fr_id f :: concat (ab_ids <$> l).
Proof.
  unfold frag_step. destruct (negb (fragmented f)); [intros [= <- <-]; auto|]. destruct (listed f); [intros [= <- <-]; auto|].
  destruct (split_key (fr_key f) l) as [[[l1 a] l2]|] eqn:Es.
  - apply split_key_some in Es as [-> _]. destruct (is_first f); [intros [= <- <-]; auto|].
    destruct (more f); intros [= <- <-]; right; cbn [done_of app].
    + rewrite !ids_middle, push_ids. rewrite <- (assoc_L (++)). cbn [app]. rewrite <- Permutation_middle. done.
    + rewrite (ids_middle l1 l2 a). change (concat (ab_ids <$> push f a :: l1 ++ l2)) with (ab_ids (push f a) ++ concat (ab_ids <$> l1 ++ l2)).
      rewrite push_ids, <- (assoc_L (++)). cbn [app]. rewrite <- Permutation_middle. done.
  - destruct (negb (is_first f)); [intros [= <- <-]; auto|]. destruct (fs_cloned (fr_skb f)); [intros [= <- <-]; auto|].
    destruct (negb mem); intros [= <- <-]; [auto|]. right. cbn [done_of app]. rewrite (ids_middle l []), app_nil_r. done.
Qed.

Section Trace.
Context (hash : Z -> Z -> Z -> Z -> Z).

(** The database and the packets that have come out of it, which nobody
    touches. *)
Record tracked (t : ftable) (m : fmem) (l done : list abuf) : Prop := Tracked {
  tr_rep : rep hash t m l;
  tr_armed : armed m l;
  tr_done : forall a, a ∈ done -> heap_has (f_skbs m) (delivered a);
  tr_apart : forall i, i ∈ concat (ab_ids <$> done) -> i ∉ concat (ab_ids <$> l)
}.

(** A fragment that has just been received. *)
Definition fresh (m : fmem) (e : fevent) : Prop :=
  match e with EvFrag f _ _ => f_skbs m !! fr_id f = None /\ frag_ok f | EvTimer _ => True end.

Lemma concat_elem (l : list abuf) i : i ∈ concat (ab_ids <$> l) <-> exists a, a ∈ l /\ i ∈ ab_ids a.
Proof.
  split; [|intros (a & Ha & Hi); eapply concat_in; done]. rewrite list_elem_of_In, in_concat. intros (x & Hx & Hi).
  rewrite <- !list_elem_of_In in *. apply list_elem_of_fmap in Hx as (a & -> & Ha). eauto.
Qed.

Lemma has_in_heap h (l : list (Z * fskb)) i : heap_has h l -> i ∈ l.*1 -> h !! i <> None.
Proof. intros Hh Hi. apply list_elem_of_fmap in Hi as ([j s] & -> & Hin). cbn. rewrite (Hh _ _ Hin). done. Qed.

Lemma rep_in_heap t m l i : rep hash t m l -> i ∈ concat (ab_ids <$> l) -> f_skbs m !! i <> None.
Proof.
  intros Hr (a & Ha & Hi)%concat_elem. apply (has_in_heap _ (linked a)); [apply (r_heap _ _ _ _ Hr a Ha)|]. rewrite linked_ids. done.
Qed.

Lemma timer_event t m l done now :
  tracked t m l done ->
  exists t' m', frag_cleaner_timer now (t, m) = Some (tt, (t', m')) /\ tracked t' m' (clean now l) done /\
    (forall i, f_skbs m !! i = None -> f_skbs m' !! i = None) /\ (mem_ok t m -> mem_ok t' m').
Proof.
  intros [Hr Harm Hd Hap]. destruct (cleaner_run hash now t m l Hr) as (t' & m' & Hrun & Hrep & Hfr & Hti & Ha1 & Ha2).
  exists t', m'. split; [done|]. pose proof (gone_clean now l) as Hgc. split; [split; [done|..]|split].
  - intros Hne. rewrite Hti. destruct (clean now l); [done|]. cbn. eauto.
  - intros a Ha. apply (heap_has_same (f_skbs m)); [|auto]. intros i. rewrite delivered_ids. intros Hi. apply (freed_kept _ _ _ _ Hfr).
    intros Hg. apply (Hap i); [eapply concat_in; done|]. rewrite <- Hgc, fmap_app, concat_app. apply elem_of_app. left. done.
  - intros i Hi Hc. apply (Hap i Hi). rewrite <- Hgc, fmap_app, concat_app. apply elem_of_app. right. done.
  - intros i Hi. rewrite (Hfr i), Hi. destruct (bool_decide _); done.
  - unfold mem_ok. rewrite Ha1, Ha2. done.
Qed.

Lemma frag_event t m l done f now ttl :
  tracked t m l done -> f_skbs m !! fr_id f = None -> frag_ok f ->
  exists mem, (mem_ok t m -> mem = true) /\
    let '(o, l') := frag_step f mem (u64 (now + ttl)) l in
    exists r t' m', run_event (EvFrag f now ttl) (t, m) = Some (r, (t', m')) /\ tracked t' m' l' (done_of o ++ done) /\
      answer (EvFrag f now ttl) o r /\ (forall i, f_skbs m !! i = None -> i <> fr_id f -> f_skbs m' !! i = None) /\ (mem_ok t m -> mem_ok t' m').
Proof.
  intros [Hr Harm Hd Hap] Hnone Hok. set (m0 := with_skbs (<[fr_id f := fr_skb f]> (f_skbs m)) m).
  exists (fst (kmalloc (f_allocs m)) && fst (kmalloc (ht_allocs t))). split.
  { intros [H1 H2]. apply andb_true_iff. split; apply not_false_is_true; intros E; apply kmalloc_fails in E; done. }
  assert (Hnew : fr_id f ∉ concat (ab_ids <$> l)). { intros Hi. apply (rep_in_heap _ _ _ _ Hr Hi Hnone). }
  assert (Hr0 : rep hash t m0 l).
  { eapply (rep_write hash t m); [exact Hr|reflexivity|]. intros a Ha Hi. apply Hnew. eapply concat_in; done. }
  assert (Har : arrives m0 l f) by (split; [apply lookup_insert_eq|done|done]).
  pose proof (handle_run hash now ttl t m0 l f Hr0 Har Harm) as Hrun. cbv zeta in Hrun.
  change (f_allocs m0) with (f_allocs m) in Hrun. set (mem := fst (kmalloc (f_allocs m)) && _) in *.
  destruct (frag_step f mem (u64 (now + ttl)) l) as [o l'] eqn:Estep. pose proof (frag_step_ids _ _ _ _ _ _ Estep) as Hids.
  destruct Hrun as (r & t' & m' & Hrun & Hrep & Harm' & Hhd & Hun & Hmem). exists (Some r), t', m'.
  assert (Hdn : forall i, i ∈ concat (ab_ids <$> done) -> i <> fr_id f).
  { intros i (a & Ha & Hi)%concat_elem ->. apply (has_in_heap (f_skbs m) (delivered a) (fr_id f)); [auto|rewrite delivered_ids; done|done]. }
  assert (Hnd : NoDup (concat (ab_ids <$> done_of o ++ l'))).
  { destruct Hids as [->| ->]; [|apply NoDup_cons; split; [done|]]; apply (r_ids _ _ _ _ Hr). }
  assert (Hsub : forall i, i ∈ concat (ab_ids <$> done_of o ++ l') -> i = fr_id f \/ i ∈ concat (ab_ids <$> l)).
  { intros i Hi. destruct Hids as [E|E]; rewrite E in Hi; [auto|]. apply elem_of_cons in Hi. done. }
  split; [|split; [split; [done|done|..]|split; [|split]]].
  - unfold run_event. rewrite (bind_run (set_mem _) _ (t, m) tt (t, m0)) by done. rewrite (bind_run _ _ _ _ _ Hrun). done.
  - intros a [Ha|Ha]%elem_of_app.
    + destruct o; try (inversion Ha; fail). apply list_elem_of_singleton in Ha as ->. apply Hhd.
    + apply (heap_has_same (f_skbs m)); [|auto]. intros i. rewrite delivered_ids. intros Hi. rewrite (Hun i).
      * cbn. apply lookup_insert_ne. intros E. apply (Hdn i); [eapply concat_in; done|done].
      * rewrite not_elem_of_cons. split; [apply Hdn|apply Hap]; eapply concat_in; done.
  - intros i Hi Hl'. rewrite fmap_app, concat_app in Hi. apply elem_of_app in Hi as [Hi|Hi].
    + rewrite fmap_app, concat_app in Hnd. apply NoDup_app in Hnd as (_ & Hd' & _). apply (Hd' i Hi Hl').
    + destruct (Hsub i) as [->|H]; [rewrite fmap_app, concat_app; apply elem_of_app; right; done|apply (Hdn _ Hi); done|apply (Hap i Hi H)].
  - destruct o; cbn in Hhd |- *; [destruct Hhd as [-> _]; done|destruct Hhd as [-> _]; done|rewrite Hhd; done|destruct Hhd as [-> _]; done].
  - intros i Hi Hne. rewrite (Hun i); [cbn; rewrite lookup_insert_ne; done|]. rewrite not_elem_of_cons. split; [done|].
    intros Hl. apply (rep_in_heap _ _ _ _ Hr Hl Hi).
  - done.
Qed.

Lemma events_run es : forall t m l done,
  tracked t m l done -> NoDup (es ≫= ev_id) -> Forall (fresh m) es ->
  exists mems, (mem_ok t m -> mems = replicate (length es) true) /\
    let '(os, l') := spec_events es mems l in
    exists rs t' m', run_events es (t, m) = Some (rs, (t', m')) /\ tracked t' m' l' (rev (os ≫= done_of) ++ done) /\
      Forall2 (fun eo r => answer (fst eo) (snd eo) r) (zip es os) rs /\ length os = length es.
Proof.
  induction es as [|e es IH]; intros t m l done Htr Hnd Hfr.
  { exists []. split; [done|]. exists [], t, m. split; [done|]. split; [done|]. split; [constructor|done]. }
  apply Forall_cons in Hfr as [Hf Hfr].
  assert (Hstep : exists mem, (mem_ok t m -> mem = true) /\ let '(o, l') := spec_event e mem l in
    exists r t' m', run_event e (t, m) = Some (r, (t', m')) /\ tracked t' m' l' (done_of o ++ done) /\ answer e o r /\
      (forall i, f_skbs m !! i = None -> i ∉ ev_id e -> f_skbs m' !! i = None) /\ (mem_ok t m -> mem_ok t' m')).
  { destruct e as [f now ttl|now].
    - destruct Hf as [Hnone Hok]. destruct (frag_event t m l done f now ttl Htr Hnone Hok) as (mem & Hmem & H). exists mem. split; [done|].
      cbn [spec_event]. destruct (frag_step _ _ _ _) as [o l']. destruct H as (r & t' & m' & Hrun & Htr' & Ha & Hdom & Hm).
      exists r, t', m'. split; [done|]. split; [done|]. split; [done|]. split; [|done]. intros i Hi Hni. apply Hdom; [done|].
      intros ->. apply Hni. left.
    - destruct (timer_event t m l done now Htr) as (t' & m' & Hrun & Htr' & Hdom & Hm). exists true. split; [done|]. cbn.
      exists None, t', m'. rewrite (bind_run _ _ _ _ _ Hrun). split; [done|]. split; [done|]. split; [done|]. split; [auto|done]. }
  destruct Hstep as (mem & Hmem & Hstep). destruct (spec_event e mem l) as [o l1] eqn:Es.
  destruct Hstep as (r & t1 & m1 & Hrun & Htr1 & Ha & Hdom & Hm). csimpl in Hnd. apply NoDup_app in Hnd as (_ & Hd & Hnd).
  destruct (IH t1 m1 l1 (done_of o ++ done) Htr1 Hnd) as (mems & Hmems & Hrest).
  { apply Forall_forall. intros e' He'. pose proof (proj1 (Forall_forall _ _) Hfr e' He') as Hf'. destruct e' as [f' now ttl|]; [|done].
    destruct Hf' as [Hnone Hok]. split; [|done]. apply Hdom; [done|]. intros Hi. apply (Hd _ Hi). apply list_elem_of_bind.
    exists (EvFrag f' now ttl). split; [left|done]. }
  exists (mem :: mems). split; [intros H; rewrite (Hmem H), Hmems by auto; done|]. cbn [spec_events hd tail]. rewrite Es.
  destruct (spec_events es mems l1) as [os l'] eqn:Eos. destruct Hrest as (rs & t' & m' & Hrs & Htr' & Hans & Hlen).
  exists (r :: rs), t', m'. cbn [run_events]. rewrite (bind_run _ _ _ _ _ Hrun), (bind_run _ _ _ _ _ Hrs). split; [done|].
  split; [|split; [constructor; done|simpl; lia]]. csimpl. rewrite rev_app_distr, <- (assoc_L (++)).
  replace (rev (done_of o)) with (done_of o) by (destruct o; done). done.
Qed.

End Trace.

(** ** Packets that were validated *)

Lemma bind_some {S A B} (x : M S A) (f : A -> M S B) s r : (x ≫= f) s = Some r -> exists a s1, x s = Some (a, s1) /\ f a s1 = Some r.
Proof. unfold mbind, M_bind. destruct (x s) as [[a s1]|]; [eauto|done]. Qed.

Lemma load_returns {S A} (o : option A) (s : S) a s1 : load o s = Some (a, s1) -> o = Some a /\ s1 = s.
Proof. unfold load. destruct o; [intros [= <- <-]; done|done]. Qed.

Lemma try_ok {A B} (x : M sk_state (result A)) (f : A -> M sk_state (result B)) s b s' :
  try_ x f s = Some (Ok b, s') -> exists a s1, x s = Some (Ok a, s1) /\ f a s1 = Some (Ok b, s').
Proof.
  unfold try_. intros H. apply bind_some in H as (r & s1 & Hx & Hf). destruct r as [a|e]; [eauto|]. cbv in Hf. congruence.
Qed.

Lemma hdr_ptr_some offset len s v s1 : skb_hdr_ptr offset len s = Some (Some v, s1) ->
  s1 = s /\ v = take (Z.to_nat len) (drop (Z.to_nat offset) (sk_bytes (st_skb s))).
Proof. unfold skb_hdr_ptr. destruct (_ && _); [|done]. intros [= <- <-]. done. Qed.

Lemma direct_some f s x s1 : direct f s = Some (x, s1) -> s1 = s.
Proof. unfold direct. destruct (f (sk_head (st_skb s))); [|done]. intros [= _ <-]. done. Qed.

(** The fragment header comes after the IPv6 header. *)
Lemma frag_after_header fuel : forall nexthdr offset first frag s m s',
  wf_bytes (sk_bytes (st_skb s)) -> summarize6_loop fuel nexthdr offset first frag s = Some (Ok m, s') -> 40 <= offset ->
  (forall o, frag = Some o -> 40 <= o) -> forall o, frag_offset m = Some o -> 40 <= o.
Proof.
  induction fuel as [|fuel IH]; intros nexthdr offset first frag s m s' Hwf Hrun Hoff Hfrag; [done|]. cbn [summarize6_loop] in Hrun.
  destruct (nexthdr =? NEXTHDR_TCP).
  { destruct first; [|injection Hrun as <- <-; done]. apply bind_some in Hrun as ([v|] & s1 & _ & Hrun); [|cbv in Hrun; congruence].
    apply bind_some in Hrun as (len & s2 & _ & Hrun). injection Hrun as <- <-. done. }
  destruct (nexthdr =? NEXTHDR_UDP); [injection Hrun as <- <-; done|]. destruct (nexthdr =? NEXTHDR_ICMP); [injection Hrun as <- <-; done|].
  destruct (nexthdr =? NEXTHDR_FRAGMENT).
  { apply bind_some in Hrun as ([v|] & s1 & Hptr & Hrun); [|cbv in Hrun; congruence]. apply hdr_ptr_some in Hptr as [-> _].
    apply bind_some in Hrun as (f & s1 & [_ ->]%load_returns & Hrun). apply bind_some in Hrun as (n & s1 & [_ ->]%load_returns & Hrun).
    apply (IH _ _ _ _ _ _ _ Hwf Hrun); [lia|]. intros o [= <-]. done. }
  destruct (is_opt_hdr nexthdr); [|injection Hrun as <- <-; done].
  apply bind_some in Hrun as ([v|] & s1 & Hptr & Hrun); [|cbv in Hrun; congruence]. apply hdr_ptr_some in Hptr as [-> ->].
  apply bind_some in Hrun as (len & s1 & [Hlen ->]%load_returns & Hrun). apply bind_some in Hrun as (n & s1 & [_ ->]%load_returns & Hrun).
  apply ld8_u8 in Hlen; [|apply Forall_take, Forall_drop; done]. destruct Hlen. apply (IH _ _ _ _ _ _ _ Hwf Hrun); [lia|done].
Qed.

(** The fragment [pkt_init_ipv6] accepted, in the database's memory. *)
Definition frag_of (id truesize : Z) (skb : sk_buff) (lo : pkt_layout) : frag :=
  Frag id (FSkb (sk_bytes skb) 0 (sk_len skb) 0 truesize None None None (sk_shared skb)) (lo_meta lo).

Lemma accepted_frag_ok siit id truesize k lo k' :
  linear (st_skb k) -> wf_bytes (sk_bytes (st_skb k)) -> 40 <= sk_len (st_skb k) < 2 ^ 32 ->
  pkt_init_ipv6 siit k = Some (Ok lo, k') -> frag_ok (frag_of id truesize (st_skb k) lo).
Proof.
  intros Hlin Hwf [H40 Hmax] Hrun. destruct (pkt_init_ipv6_spec (st_skb k) Hlin Hwf siit H40 k eq_refl) as (r & k1 & Hrun' & _ & Hlay).
  rewrite Hrun in Hrun'. injection Hrun' as <- <-. destruct Hlay as (_ & ((_ & Hle & _ & Hroom) & H0) & Hpay & _).
  unfold pkt_init_ipv6, fail_if_shared in Hrun. apply try_ok in Hrun as (u & s1 & Hs1 & Hrun).
  assert (s1 = k) as -> by (unfold mbind, M_bind, get in Hs1; injection Hs1; congruence). apply bind_some in Hrun as (s & s1 & Hg & Hrun).
  injection Hg as <- <-. apply bind_some in Hrun as (pl & s1 & Hd & Hrun).
  apply direct_some in Hd as ->.
  destruct (negb _); [cbv in Hrun; congruence|]. apply try_ok in Hrun as (m & s1 & Hsum & Hrun).
  assert (E : lo_meta lo = m).
  { apply try_ok in Hrun as (? & ? & _ & Hrun). apply try_ok in Hrun as (? & ? & _ & Hrun). injection Hrun as <- <-. done. }
  unfold summarize_skb6 in Hsum. apply bind_some in Hsum as (nh & s2 & Hd2 & Hsum).
  apply direct_some in Hd2 as ->. apply bind_some in Hsum as (s & s3 & Hg & Hsum). injection Hg as <- <-.
  pose proof (frag_after_header _ _ _ _ _ _ _ _ Hwf Hsum ltac:(lia) ltac:(done)) as Hfloor. rewrite <- E in Hfloor. unfold sk_len in *.
  pose proof (blen_nonneg (sk_bytes (st_skb k))). split; cbn [frag_of fr_skb fr_meta fs_data fs_len fs_data_len fs_bytes fs_frag_list]; unfold sk_len; try done; try lia.
  intros o Ho. destruct (Hroom o Ho). split; [apply Hfloor; done|done].
Qed.

(** ** Guarantees *)

(** C21: The fragment database, from its setup to its teardown, for any hash
    function, any shortage of memory, and any sequence of fragments (of any
    packets, in any order, whole or malformed) and timers: nothing faults; every
    fragment gets the verdict of the specification on the list of incomplete
    packets (a packet that is not a fragment passes, a fragment that does not
    continue a packet is dropped, one that does is stored behind the others,
    and the last one brings out the whole packet, whose fragments are in memory
    linked in order, with the total length, and without the more-fragments
    flag); the timer is pending while packets wait; and the teardown frees the
    fragments that are waiting, each once, the buffers, the table's pairs and
    the cache, and nothing else. *)
Theorem fragdb_refines hash rnd t m es :
  blank t m -> fst (kmalloc (f_allocs m)) = true -> NoDup (es ≫= ev_id) -> Forall (fresh m) es ->
  exists mems, (mem_ok t m -> mems = replicate (length es) true) /\
    let '(os, l) := spec_events es mems [] in
    exists rs t' m' t'' m'',
      (fragdb_init hash rnd;; run_events es) (t, m) = Some (rs, (t', m')) /\
      Forall2 (fun eo r => answer (fst eo) (snd eo) r) (zip es os) rs /\ length os = length es /\
      (forall a, ODone a ∈ os -> heap_has (f_skbs m') (delivered a)) /\
      (forall a, a ∈ l -> heap_has (f_skbs m') (linked a)) /\ armed m' l /\
      fragdb_destroy (t', m') = Some (tt, (t'', m'')) /\
      f_bufs m'' = ∅ /\ ht_pairs t'' = ∅ /\ f_cache m'' = false /\ expire_timer m'' = None /\
      freed (concat (ab_ids <$> l)) (f_skbs m') (f_skbs m'').
Proof.
  intros Hb Hm Hnd Hfr. destruct (init_run hash t m rnd Hb) as (t0 & m0 & Hinit & Hr & Hskb & Hmem). rewrite Hm in Hr, Hinit.
  destruct (events_run hash es t0 m0 [] []) as (mems & Hmems & Hes).
  - split; [done|intros H; done|intros a Ha; inversion Ha|intros i Hi; inversion Hi].
  - done.
  - eapply Forall_impl; [exact Hfr|]. intros [f now ttl|] H; [|done]. cbn. rewrite Hskb. exact H.
  - exists mems. split; [auto|]. destruct (spec_events es mems []) as [os l]. destruct Hes as (rs & t1 & m1 & Hrun & [Hrep Harm Hdone _] & Hans & Hlen).
    destruct (destroy_run hash t1 m1 l Hrep) as (t2 & m2 & Hd & H1 & H2 & H3 & H4 & H5). exists rs, t1, m1, t2, m2.
    rewrite (bind_run _ _ _ _ _ Hinit). split; [done|]. split; [done|]. split; [done|]. split; [|split; [apply (r_heap _ _ _ _ Hrep)|done]].
    intros a Ha. apply Hdone. rewrite app_nil_r. apply rev_elem, list_elem_of_bind. exists (ODone a). split; [left|done].
Qed.

(** *** Reassembly *)

(** The bytes of a packet: those of its buffer from [skb->data] on, then those
    of the buffers of its [frag_list]. *)
Definition own_data (s : fskb) : list Z := drop (Z.to_nat (fs_data s)) (fs_bytes s).

Fixpoint chain_data (h : gmap Z fskb) (fuel : nat) (p : option Z) : option (list Z) :=
  match p, fuel with
  | None, _ => Some []
  | Some _, O => None
  | Some id, S fuel => s ← h !! id; rest ← chain_data h fuel (fs_next s); Some (own_data s ++ rest)
  end.

Definition packet_data (h : gmap Z fskb) (id : Z) : option (list Z) :=
  s ← h !! id; rest ← chain_data h (size h) (fs_frag_list s); Some (own_data s ++ rest).

Lemma chain_data_rest h l : forall fuel, heap_has h (link_rest l None) -> Forall alone l -> (length l <= fuel)%nat ->
  chain_data h fuel (head_id l None) = Some (concat (fr_payload <$> l)).
Proof.
  induction l as [|f l IH]; intros fuel Hh Hal Hfuel; [destruct fuel; done|]. destruct fuel as [|fuel]; [simpl in Hfuel; lia|].
  cbn [link_rest] in Hh. apply heap_has_cons in Hh as [Hf Hl]. apply Forall_cons in Hal as [[Hok _] Hal]. cbn [head_id chain_data].
  rewrite Hf. cbn [mbind option_bind]. cbn [rest_skb set_next fs_next]. rewrite IH by (done || (simpl in Hfuel; lia)).
  cbn [mbind option_bind]. unfold own_data, rest_skb, pulled. cbn [set_next fs_data fs_bytes]. rewrite (fo_data _ Hok), hdrs_frag by done. done.
Qed.

(** The headers of a whole packet: those of the first fragment, but for the
    length and the more-fragments flag. *)
Definition whole_hdrs (a : abuf) : list Z := take (Z.to_nat (payload_offset (fr_meta (ab_first a)))) (fs_bytes (whole_skb a)).

Lemma whole_data h a : stored a -> NoDup (ab_ids a) -> heap_has h (whole a) ->
  packet_data h (fr_id (ab_first a)) = Some (whole_hdrs a ++ fr_payload (ab_first a) ++ concat (fr_payload <$> ab_rest a)).
Proof.
  intros Hst Hnd Hh. pose proof Hst as [[Hok Hl] [o Ho] _ Hrest]. unfold whole in Hh. apply heap_has_cons in Hh as [Hf Hlr].
  destruct (fr_off_some _ Hok o Ho) as (x & _ & Hx). unfold packet_data. rewrite Hf. cbn [mbind option_bind].
  assert (E : fs_frag_list (whole_skb a) = head_id (ab_rest a) None).
  { unfold whole_skb. rewrite Ho, Hx. cbn. unfold first_skb. rewrite grown_list. done. }
  rewrite E, (chain_data_rest _ _ _ Hlr Hrest).
  2:{ rewrite <- (length_fmap fr_id). apply NoDup_cons in Hnd as [_ Hnd]. apply heap_size; [done|]. intros i Hi. rewrite <- (link_rest_ids _ None) in Hi.
      apply list_elem_of_fmap in Hi as ([j s] & -> & Hi). exists s. apply Hlr. done. }
  cbn [mbind option_bind]. f_equal. rewrite (assoc_L (++)). f_equal. unfold own_data, whole_hdrs.
  destruct (first_fields a) as (Eb & Ed & _). assert (Ed0 : fs_data (whole_skb a) = 0).
  { unfold whole_skb. rewrite Ho, Hx. cbn. rewrite Ed. apply (fo_data _ Hok). }
  rewrite Ed0. change (drop (Z.to_nat 0) (fs_bytes (whole_skb a))) with (fs_bytes (whole_skb a)).
  rewrite <- (take_drop (Z.to_nat (payload_offset (fr_meta (ab_first a)))) (fs_bytes (whole_skb a))) at 1. f_equal. unfold fr_payload, whole_skb.
  rewrite Ho, Hx. cbn [set_bytes fs_bytes]. unfold whole_bytes. pose proof (fo_hdrs _ Hok). pose proof (fo_len _ Hok). pose proof (fo_linear _ Hok).
  destruct (fo_frag _ Hok o Ho). set (v := be_bytes 2 _). assert (Bv : blen v = 2) by (unfold blen, v; rewrite be_bytes_length; done).
  rewrite !drop_splice; rewrite ?blen_splice, ?Bv; change (blen (raw_bytes16 _)) with 2; lia || done.
Qed.

(** The packet of a key that is waiting for its fragments. *)
Definition pending (k : option fkey) (l : list abuf) : option abuf := List.find (fun a => bool_decide (ab_key a = k)) l.

Lemma split_key_find k l : pending k l = match split_key k l with Some (_, a, _) => Some a | None => None end.
Proof.
  unfold pending. induction l as [|a l IH]; [done|]. simpl. destruct (bool_decide (ab_key a = k)); [done|]. rewrite IH.
  destruct (split_key k l) as [[[l1 b] l2]|]; done.
Qed.

Lemma find_app' {X} (p : X -> bool) l1 l2 : List.find p (l1 ++ l2) = match List.find p l1 with Some x => Some x | None => List.find p l2 end.
Proof. induction l1 as [|x l1 IH]; [done|]. simpl. destruct (p x); [done|apply IH]. Qed.

(** A fragment of another packet. *)
Lemma pending_other k f mem d l : fr_key f <> k -> pending k (snd (frag_step f mem d l)) = pending k l.
Proof.
  intros Hne. unfold frag_step, pending. destruct (negb (fragmented f)); [done|]. destruct (listed f); [done|].
  destruct (split_key (fr_key f) l) as [[[l1 a] l2]|] eqn:Es.
  - apply split_key_some in Es as [-> Ha]. destruct (is_first f); [done|]. assert (Hb : bool_decide (ab_key a = k) = false) by (apply bool_decide_eq_false; congruence).
    destruct (more f); cbn [snd]; rewrite !find_app'; cbn [List.find]; change (ab_key (push f a)) with (ab_key a); rewrite Hb; done.
  - destruct (negb (is_first f)); [done|]. destruct (fs_cloned (fr_skb f)); [done|]. destruct (negb mem); [done|]. cbn [snd].
    rewrite find_app'. cbn [List.find]. change (ab_key (ABuf f [] d)) with (fr_key f). rewrite bool_decide_eq_false_2 by done.
    destruct (List.find _ l); done.
Qed.

Lemma pending_clean k now l :
  (pending k l = None -> pending k (clean now l) = None) /\
  (forall a, pending k l = Some a -> expired now a = false -> pending k (clean now l) = Some a).
Proof.
  unfold pending. induction l as [|b l [IH1 IH2]]; [done|]. cbn [clean]. destruct (expired now b) eqn:E.
  - cbn [List.find]. destruct (bool_decide (ab_key b = k)); split; try done. intros a [= ->] H. congruence.
  - split; done.
Qed.

(** What may happen while the packet waits: fragments of other packets, its own
    fragments in order, and timers that come before its time. *)
Definition continues (k : option fkey) (d : Z) (e : fevent) : Prop :=
  match e with
  | EvFrag f _ _ => fr_key f = k -> fragmented f = true /\ listed f = false /\ is_first f = false /\ more f = true
  | EvTimer now => time_before now d = true
  end.

Definition own_frag (k : option fkey) (e : fevent) : list frag :=
  match e with EvFrag f _ _ => if bool_decide (fr_key f = k) then [f] else [] | EvTimer _ => [] end.

Lemma pending_step k e l a : continues k (ab_dying a) e -> pending k l = Some a ->
  pending k (snd (spec_event e true l)) = Some (ABuf (ab_first a) (ab_rest a ++ own_frag k e) (ab_dying a)).
Proof.
  intros Hc Hp. destruct e as [f now ttl|now]; cbn [spec_event own_frag snd].
  - case_bool_decide as Hk; [|rewrite pending_other, app_nil_r by done; destruct a; done].
    destruct (Hc Hk) as (H1 & H2 & H3 & H4). unfold frag_step. rewrite H1, H2, Hk. cbn [negb]. rewrite split_key_find in Hp.
    destruct (split_key k l) as [[[l1 b] l2]|] eqn:Es; [|done]. injection Hp as ->. rewrite H3, H4. cbn [snd].
    rewrite split_key_find. pose proof (split_key_pre _ _ _ _ _ Es) as Hpre. apply split_key_some in Es as [-> Ha].
    rewrite split_key_app by done. done.
  - rewrite app_nil_r. destruct (pending_clean k now l) as [_ H]. rewrite (H a Hp); [destruct a; done|]. unfold expired. cbn in Hc. rewrite Hc. done.
Qed.

(** Until its first fragment the packet is not there. *)
Lemma pending_before k e l : own_frag k e = [] -> pending k l = None -> pending k (snd (spec_event e true l)) = None.
Proof.
  destruct e as [f now ttl|now]; cbn [spec_event own_frag snd]; [|intros _; apply pending_clean].
  case_bool_decide; [done|]. intros _ Hp. rewrite pending_other; done.
Qed.

Lemma spec_events_true es : forall l n, spec_events es (replicate n true) l = spec_events es [] l.
Proof.
  induction es as [|e es IH]; intros l n; [done|]. cbn [spec_events hd tail].
  replace (hd true (replicate n true)) with true by (destruct n; done). replace (tail (replicate n true)) with (replicate (pred n) true) by (destruct n; done).
  destruct (spec_event e true l) as [o l1]. rewrite IH. done.
Qed.

Lemma spec_events_app es1 es2 l :
  spec_events (es1 ++ es2) [] l =
    let '(os1, l1) := spec_events es1 [] l in let '(os2, l2) := spec_events es2 [] l1 in (os1 ++ os2, l2).
Proof.
  revert l. induction es1 as [|e es1 IH]; intros l; [cbn; destruct (spec_events es2 [] l); done|]. cbn [app spec_events hd tail].
  destruct (spec_event e true l) as [o l1]. rewrite IH. destruct (spec_events es1 [] l1) as [os1 l2]. destruct (spec_events es2 [] l2). done.
Qed.

Lemma pending_befores k es : forall l, Forall (fun e => own_frag k e = []) es -> pending k l = None -> pending k (snd (spec_events es [] l)) = None.
Proof.
  induction es as [|e es IH]; intros l Hes Hp; [done|]. apply Forall_cons in Hes as [He Hes]. cbn [spec_events hd tail].
  pose proof (pending_before k e l He Hp) as H1. destruct (spec_event e true l) as [o l1]. specialize (IH l1 Hes H1).
  destruct (spec_events es [] l1). done.
Qed.

Lemma pending_steps k es : forall l a, Forall (continues k (ab_dying a)) es -> pending k l = Some a ->
  pending k (snd (spec_events es [] l)) = Some (ABuf (ab_first a) (ab_rest a ++ (es ≫= own_frag k)) (ab_dying a)).
Proof.
  induction es as [|e es IH]; intros l a Hes Hp; [cbn; rewrite app_nil_r; destruct a; done|]. apply Forall_cons in Hes as [He Hes].
  cbn [spec_events hd tail]. pose proof (pending_step k e l a He Hp) as H1. destruct (spec_event e true l) as [o l1].
  specialize (IH l1 (ABuf (ab_first a) (ab_rest a ++ own_frag k e) (ab_dying a)) Hes H1).
  destruct (spec_events es [] l1). cbn [snd] in *. rewrite IH. cbn [ab_first ab_rest ab_dying].
  csimpl. rewrite (assoc_L (++)). done.
Qed.

Section Reassembly.
Context (k : option fkey) (es0 : list fevent) (f0 : frag) (now0 ttl0 : Z) (es1 : list fevent) (fl : frag) (now1 ttl1 : Z).

(** The packet: its fragments in the order they come. *)
Definition the_packet : abuf := ABuf f0 ((es1 ≫= own_frag k) ++ [fl]) (u64 (now0 + ttl0)).
Definition its_events : list fevent := es0 ++ EvFrag f0 now0 ttl0 :: es1 ++ [EvFrag fl now1 ttl1].

(** The first fragment comes; then its others in order, among fragments of
    other packets and timers that come before its time; then the last. *)
Record in_order : Prop := InOrder {
  io_before : Forall (fun e => own_frag k e = []) es0;
  io_key0 : fr_key f0 = k;
  io_first : is_first f0 = true /\ more f0 = true;
  io_alone0 : listed f0 = false /\ fs_cloned (fr_skb f0) = false;
  io_between : Forall (continues k (u64 (now0 + ttl0))) es1;
  io_keyl : fr_key fl = k;
  io_last : is_first fl = false /\ more fl = false;
  io_alonel : listed fl = false
}.

Lemma more_fragmented f : more f = true -> fragmented f = true.
Proof. unfold more, fragmented. destruct (fr_off f); [|done]. cbn. intros ->. apply orb_true_r. Qed.

Lemma later_fragmented f : is_first f = false -> fragmented f = true.
Proof. unfold is_first, fragmented. destruct (fr_off f); [|done]. cbn. intros ->. done. Qed.

Lemma the_packet_done : in_order -> exists os l, spec_events its_events [] [] = (os ++ [ODone the_packet], l).
Proof.
  intros [Hb Hk0 [Hf0 Hm0] [Hl0 Hc0] Hes1 Hkl [Hfl Hml] Hll]. unfold its_events. rewrite spec_events_app.
  pose proof (pending_befores k es0 [] Hb eq_refl) as Hp. destruct (spec_events es0 [] []) as [os0 l0]. cbn [snd] in Hp.
  cbn [spec_events hd tail spec_event]. unfold frag_step at 1. rewrite more_fragmented, Hl0, Hk0 by done. cbn [negb].
  rewrite split_key_find in Hp. destruct (split_key k l0) as [[[? ?] ?]|] eqn:Es; [done|]. rewrite Hf0, Hc0. cbn [negb].
  assert (Hp1 : pending k (l0 ++ [ABuf f0 [] (u64 (now0 + ttl0))]) = Some (ABuf f0 [] (u64 (now0 + ttl0)))).
  { rewrite split_key_find, split_key_app; [done|apply split_key_none; done|done]. }
  rewrite spec_events_app. pose proof (pending_steps k es1 _ (ABuf f0 [] (u64 (now0 + ttl0))) Hes1 Hp1) as Hp2. destruct (spec_events es1 [] _) as [os1 l1]. cbn [snd ab_first ab_rest ab_dying app] in Hp2.
  cbn [spec_events hd tail spec_event]. unfold frag_step. rewrite later_fragmented, Hll, Hkl by done. cbn [negb].
  rewrite split_key_find in Hp2. destruct (split_key k l1) as [[[l2 a] l3]|]; [|done]. injection Hp2 as ->. rewrite Hfl, Hml.
  exists (os0 ++ OStolen :: os1), (l2 ++ l3). rewrite <- app_assoc. done.
Qed.

End Reassembly.

(** The flag is cleared. *)
Lemma be16_land x y : be16_to_cpu (Z.land x y) = Z.land (be16_to_cpu x) (be16_to_cpu y).
Proof.
  unfold be16_to_cpu, cpu_to_be16. apply Z.bits_inj'. intros n Hn.
  rewrite Z.land_spec, !Z.lor_spec, !Z.shiftl_spec by lia. destruct (Z.ltb_spec n 8).
  - rewrite !(Z.testbit_neg_r _ (n - 8)) by lia. rewrite !testbit_bits, Z.land_spec by lia. destruct (n <? 8), (Z.testbit x (n + 8)), (Z.testbit y (n + 8)); done.
  - rewrite !testbit_bits, !Z.land_spec by lia. destruct (Z.ltb_spec n 8); [lia|]. cbn [andb]. rewrite !orb_false_r.
    destruct (n - 8 <? 8), (Z.testbit x (n - 8 + 0)), (Z.testbit y (n - 8 + 0)); done.
Qed.

Lemma clear_mf_off x : is_more_fragments_set_ipv6 (clear_mf x) = 0 /\ get_fragment_offset_ipv6 (clear_mf x) = get_fragment_offset_ipv6 x.
Proof.
  unfold is_more_fragments_set_ipv6, get_fragment_offset_ipv6, clear_mf. rewrite be16_land, <- !Z.land_assoc.
  change (Z.land (be16_to_cpu (cpu_to_be16 (u16 (Z.lnot IP6_MF)))) IP6_MF) with 0.
  change (Z.land (be16_to_cpu (cpu_to_be16 (u16 (Z.lnot IP6_MF)))) 65528) with 65528. rewrite Z.land_0_r. done.
Qed.

Lemma clear_mf_u16 x : is_u16 (clear_mf x).
Proof.
  unfold clear_mf. change (cpu_to_be16 (u16 (Z.lnot IP6_MF))) with (0xFEFF). apply range_of_testbit; [lia|apply Z.land_nonneg; lia|].
  intros n Hn. rewrite Z.land_spec. rewrite (Z.bits_above_log2 0xFEFF n), andb_false_r; [done|lia|]. change (Z.log2 0xFEFF) with 15. lia.
Qed.

(** The whole packet is not a fragment any more. *)
Lemma whole_not_fragment a o : stored a -> is_first (ab_first a) = true -> frag_offset (fr_meta (ab_first a)) = Some o ->
  exists x, raw16 (whole_hdrs a) (o + 2) = Some x /\ is_fragmented_ipv6 (Some x) = false.
Proof.
  intros [[Hok _] _ _ _] Hf Ho. destruct (fr_off_some _ Hok o Ho) as (x & _ & Hx). exists (clear_mf x).
  pose proof (fo_hdrs _ Hok). pose proof (fo_len _ Hok). pose proof (fo_linear _ Hok). destruct (fo_frag _ Hok o Ho).
  split.
  - unfold whole_hdrs, whole_skb. rewrite Ho, Hx. cbn [set_bytes fs_bytes]. unfold whole_bytes. set (v := be_bytes 2 _).
    assert (Bv : blen v = 2) by (unfold blen, v; rewrite be_bytes_length; done). set (b := splice _ 4 v).
    assert (Bb : blen b = blen (fs_bytes (fr_skb (ab_first a)))) by (apply blen_splice; lia).
    rewrite take_splice by (change (blen (raw_bytes16 _)) with 2; unfold blen in *; lia). apply raw16_at; [|apply clear_mf_u16].
    unfold blen in *. rewrite !length_take. lia.
  - unfold is_first in Hf. rewrite Hx in Hf. cbn in Hf |- *. destruct (clear_mf_off x) as [-> ->]. rewrite Hf. done.
Qed.

(** The lengths add up. *)
Lemma grown_len l : forall s, 0 <= fs_len s -> Forall alone l -> fs_len s + blen (concat (fr_payload <$> l)) < 2 ^ 32 ->
  fs_len (grown s l) = fs_len s + blen (concat (fr_payload <$> l)).
Proof.
  induction l as [|f l IH]; intros s H0 Hal Hb; [cbn; unfold blen; simpl; lia|]. apply Forall_cons in Hal as [[Hok Hl] Hal].
  csimpl in Hb. cbn [concat] in Hb. csimpl. cbn [concat]. rewrite blen_app in Hb |- *. pose proof (blen_nonneg (concat (fr_payload <$> l))).
  assert (E : fr_payload_len f = blen (fr_payload f)).
  { apply listed_fields in Hl as (_ & _ & Hfl). pose proof (fo_alone _ Hok Hfl) as El. pose proof (fo_hdrs _ Hok). pose proof (fo_len _ Hok).
    unfold fr_payload_len. rewrite hdrs_frag by done. rewrite u32_id by lia. unfold fr_payload, blen in *. rewrite length_drop. lia. }
  pose proof (blen_nonneg (fr_payload f)).
  change (grown s (f :: l)) with (grown (grow (fr_payload_len f) (fs_truesize (fr_skb f)) s) l).
  assert (Eg : fs_len (grow (fr_payload_len f) (fs_truesize (fr_skb f)) s) = fs_len s + blen (fr_payload f)) by (cbn; rewrite E; apply u32_id; lia).
  rewrite IH; rewrite ?Eg; try done; lia.
Qed.

Section Whole.
Context (k : option fkey) (es0 : list fevent) (f0 : frag) (now0 ttl0 : Z) (es1 : list fevent) (fl : frag) (now1 ttl1 : Z).

Abbreviation packet := (the_packet k f0 now0 ttl0 es1 fl).
Abbreviation es := (its_events es0 f0 now0 ttl0 es1 fl now1 ttl1).

Lemma own_in f : f ∈ es1 ≫= own_frag k -> fr_key f = k /\ exists now ttl, EvFrag f now ttl ∈ es1.
Proof.
  intros Hin. apply list_elem_of_bind in Hin as (e & Hf & He). destruct e as [g now ttl|now]; cbn in Hf; [|inversion Hf].
  case_bool_decide as Hk; [|inversion Hf]. apply list_elem_of_singleton in Hf as ->. eauto.
Qed.

Lemma own_ids es' : sublist (fr_id <$> (es' ≫= own_frag k)) (es' ≫= ev_id).
Proof.
  induction es' as [|e es' IH]; [done|]. csimpl. rewrite fmap_app. apply sublist_app; [|done].
  destruct e as [f now ttl|now]; cbn; [|done]. case_bool_decide; [done|]. apply sublist_nil_l.
Qed.

Lemma packet_ids : NoDup (es ≫= ev_id) -> NoDup (ab_ids packet).
Proof.
  intros Hnd. eapply sublist_NoDup; [|exact Hnd]. unfold its_events, the_packet, ab_ids. cbn [ab_first ab_rest]. rewrite bind_app. csimpl.
  apply sublist_inserts_l. cbn. apply sublist_skip. rewrite fmap_app, bind_app. apply sublist_app; [apply own_ids|done].
Qed.

Lemma packet_stored m : in_order k es0 f0 now0 ttl0 es1 fl -> Forall (fresh m) es -> stored packet.
Proof.
  intros [_ _ [Hf0 Hm0] [Hl0 Hc0] Hb Hkl [Hfl Hml] Hll] Hfr. rewrite Forall_forall in Hfr, Hb.
  assert (Hok : forall f now ttl, EvFrag f now ttl ∈ es -> frag_ok f) by (intros f now ttl Hin; apply (Hfr _ Hin)).
  assert (H0 : frag_ok f0) by (apply (Hok f0 now0 ttl0); apply elem_of_app; right; left).
  split; cbn [the_packet ab_first ab_rest]; [done| |done|].
  - destruct (fragmented_hdr f0 H0 (more_fragmented _ Hm0)) as (o & _ & Ho & _). eauto.
  - apply Forall_app. split; [|constructor; [split; [|done]|constructor]].
    + apply Forall_forall. intros f Hf. destruct (own_in f Hf) as (Hk & now & ttl & Hin). split.
      * apply (Hok f now ttl). apply elem_of_app. right. right. apply elem_of_app. left. done.
      * apply (Hb _ Hin Hk).
    + apply (Hok fl now1 ttl1). apply elem_of_app. right. right. apply elem_of_app. right. left.
Qed.

End Whole.

Lemma last_answer es e os o rs : Forall2 (fun eo r => answer (fst eo) (snd eo) r) (zip (es ++ [e]) (os ++ [o])) rs ->
  length (os ++ [o]) = length (es ++ [e]) -> exists rs0 r, rs = rs0 ++ [r] /\ answer e o r.
Proof.
  intros Hans Hlen. rewrite !length_app in Hlen. simpl in Hlen. rewrite zip_with_app in Hans by lia.
  apply Forall2_app_inv_l in Hans as (r1 & r2 & _ & H2 & ->). apply Forall2_cons_inv_l in H2 as (r & r3 & Hr & Hnil & ->).
  apply Forall2_nil_inv_l in Hnil as ->. eauto.
Qed.

Lemma whole_bytes_len a : stored a -> blen (fs_bytes (whole_skb a)) = blen (fs_bytes (fr_skb (ab_first a))).
Proof.
  intros [[Hok _] [o Ho] _ _]. destruct (fr_off_some _ Hok o Ho) as (x & _ & Hx). unfold whole_skb. rewrite Ho, Hx. cbn [set_bytes fs_bytes].
  unfold whole_bytes. pose proof (fo_hdrs _ Hok). pose proof (fo_len _ Hok). pose proof (fo_linear _ Hok). destruct (fo_frag _ Hok o Ho).
  set (v := be_bytes 2 _). assert (Bv : blen v = 2) by (unfold blen, v; rewrite be_bytes_length; done).
  rewrite !blen_splice; rewrite ?blen_splice, ?Bv; change (blen (raw_bytes16 _)) with 2; lia.
Qed.

(** The length of the whole packet is that of its bytes. *)
Lemma whole_len a : stored a -> fs_len (fr_skb (ab_first a)) + blen (concat (fr_payload <$> ab_rest a)) < 2 ^ 32 ->
  whole_ok a = true /\ fs_len (whole_skb a) = blen (whole_hdrs a ++ fr_payload (ab_first a) ++ concat (fr_payload <$> ab_rest a)).
Proof.
  intros Hst Hlen. pose proof (whole_bytes_len a Hst) as Eb. pose proof Hst as [[Hok Hl] _ _ Hrest].
  pose proof (fo_hdrs _ Hok). pose proof (fo_len _ Hok). pose proof (fo_linear _ Hok). pose proof (blen_nonneg (concat (fr_payload <$> ab_rest a))).
  assert (El : fs_len (first_skb a) = fs_len (fr_skb (ab_first a)) + blen (concat (fr_payload <$> ab_rest a))).
  { exact (grown_len (ab_rest a) (set_frag_list (head_id (ab_rest a) None) (fr_skb (ab_first a))) ltac:(cbn; lia) Hrest Hlen). }
  split; [unfold whole_ok; rewrite El; apply negb_true_iff, Z.ltb_ge; lia|].
  assert (Ews : fs_len (whole_skb a) = fs_len (first_skb a)).
  { unfold whole_skb. destruct (frag_offset (fr_meta (ab_first a))), (fr_off (ab_first a)); done. }
  destruct (listed_fields _ Hl) as (_ & _ & Hfl). rewrite Ews, El, (fo_alone _ Hok Hfl). unfold whole_hdrs, fr_payload at 2.
  rewrite !blen_app. unfold blen in *. rewrite length_take, length_drop. lia.
Qed.

(** C7: Fragments make their packet again: when the first fragment of a packet
    comes, then its others in order, among any fragments of other packets and
    timers that come before its time, and at last the one without the
    more-fragments flag, that one is answered with the first fragment and the
    verdict to go on; its buffer, followed by its list of fragments, has the
    headers of the first one and then the payloads of all of them, in order;
    its length is that of those bytes; and its fragment header says that it is
    not a fragment.  This is of a database that starts empty, when
    no allocation fails; each fragment is in a buffer of its own whose
    headers are where its metadata say; the first one has a fragment header
    and a buffer nobody else has a clone of, and the packet's fragments are
    not in lists of fragments already (the code drops the others); and the lengths
    add up to less than 2^32. *)
Theorem fragments_reassembled hash rnd t m k es0 f0 now0 ttl0 es1 fl now1 ttl1 o :
  let es := its_events es0 f0 now0 ttl0 es1 fl now1 ttl1 in
  let a := the_packet k f0 now0 ttl0 es1 fl in
  let payload := fr_payload f0 ++ concat (fr_payload <$> ab_rest a) in
  blank t m -> mem_ok t m -> NoDup (es ≫= ev_id) -> Forall (fresh m) es ->
  in_order k es0 f0 now0 ttl0 es1 fl -> frag_offset (fr_meta f0) = Some o ->
  fs_len (fr_skb f0) + blen (concat (fr_payload <$> ab_rest a)) < 2 ^ 32 ->
  exists rs t' m' s x,
    (fragdb_init hash rnd;; run_events es) (t, m) = Some (rs ++ [Some (VERDICT_CONTINUE, fr_pkt f0)], (t', m')) /\
    packet_data (f_skbs m') (fr_id f0) = Some (whole_hdrs a ++ payload) /\
    f_skbs m' !! fr_id f0 = Some s /\ fs_len s = blen (whole_hdrs a ++ payload) /\
    raw16 (whole_hdrs a) (o + 2) = Some x /\ is_fragmented_ipv6 (Some x) = false.
Proof.
  intros es a payload Hb Hm Hnd Hfr Hio Ho Hlen. destruct (init_run hash t m rnd Hb) as (t0 & m0 & Hinit & Hr & Hskb & Hmem).
  assert (Em : fst (kmalloc (f_allocs m)) = true).
  { apply not_false_is_true. intros E. apply kmalloc_fails in E. destruct Hm. done. }
  rewrite Em in Hr, Hinit. destruct (events_run hash es t0 m0 [] []) as (mems & Hmems & Hes).
  { split; [done|intros H; done|intros x Hx; inversion Hx|intros i Hi; inversion Hi]. }
  { done. }
  { eapply Forall_impl; [exact Hfr|]. intros [f now ttl|] H; [|done]. cbn. rewrite Hskb. exact H. }
  rewrite (Hmems (Hmem Hm)), spec_events_true in Hes. clear Hmems.
  destruct (the_packet_done k es0 f0 now0 ttl0 es1 fl now1 ttl1 Hio) as (os & l & Eos). fold es a in Eos. rewrite Eos in Hes.
  destruct Hes as (rs & t' & m' & Hrun & [Hrep _ Hdone _] & Hans & Hlens).
  pose proof (packet_stored k es0 f0 now0 ttl0 es1 fl now1 ttl1 m Hio Hfr) as Hst. fold a in Hst.
  pose proof (packet_ids k es0 f0 now0 ttl0 es1 fl now1 ttl1 Hnd) as Hids. fold a in Hids.
  destruct (whole_len a Hst Hlen) as [Hw El].
  assert (Hheap : heap_has (f_skbs m') (whole a)).
  { specialize (Hdone a). unfold delivered in Hdone. rewrite Hw in Hdone. apply Hdone. rewrite app_nil_r. apply rev_elem, list_elem_of_bind.
    exists (ODone a). split; [left|]. apply elem_of_app. right. left. }
  destruct (whole_not_fragment a o Hst (proj1 (io_first _ _ _ _ _ _ _ Hio)) Ho) as (x & Hx & Hnf).
  unfold es, its_events in Hans, Hlens. rewrite app_comm_cons, (assoc_L (++)) in Hans, Hlens.
  destruct (last_answer _ _ _ _ _ Hans Hlens) as (rs0 & r & -> & Hr2). cbn in Hr2. rewrite Hw in Hr2. subst r.
  exists rs0, t', m', (whole_skb a), x. rewrite (bind_run _ _ _ _ _ Hinit). split; [done|].
  split; [apply (whole_data _ a Hst Hids Hheap)|]. split; [apply Hheap; left|]. done.
Qed.

(** *** Examples *)

(** A fragment of UDP: the first one has the transport header. *)
Definition demo_bytes (ident off mf : Z) (data : list Z) : list Z :=
  [0x60; 0; 0; 0] ++ be_bytes 2 (8 + blen data) ++ [44; 64] ++ be_bytes 16 0x20010db8000000000000000000000001 ++
  be_bytes 16 0x0064ff9b0000000000000000c0000201 ++ [17; 0] ++ be_bytes 2 (8 * off + mf) ++ be_bytes 4 ident ++ data.
Definition demo_frag (id ident off mf : Z) (data : list Z) : frag :=
  let b := demo_bytes ident off mf data in
  Frag id (FSkb b 0 (blen b) 0 (blen b + 256) None None None false)
    (Meta (Some 40) L4PROTO_UDP 48 (if off =? 0 then 56 else 48)).

Definition demo_first : frag := demo_frag 1 77 0 1 [0; 53; 0; 53; 0; 20; 0; 0; 1; 2; 3; 4; 5; 6; 7; 8].
Definition demo_other : frag := demo_frag 2 78 0 1 [0; 53; 0; 53; 0; 20; 0; 0; 9; 9; 9; 9; 9; 9; 9; 9].
Definition demo_middle : frag := demo_frag 3 77 2 1 [9; 10; 11; 12; 13; 14; 15; 16].
Definition demo_last : frag := demo_frag 4 77 3 0 [17; 18].

Definition demo_hash (ident saddr daddr rnd : Z) : Z := ident + rnd.
Definition demo_table : ftable := HTable [] [] frag_equals (frag_hash demo_hash) ∅ 1 [].
Definition demo_mem : fmem := FMem ∅ ∅ 1 [] false [] None 0.

Ltac demo_ok := split; [reflexivity|vm_compute; intuition discriminate|vm_compute; discriminate|intros _; reflexivity
  |vm_compute; intuition discriminate|intros o [= <-]; vm_compute; intuition discriminate].

Lemma demo_frags_ok : frag_ok demo_first /\ frag_ok demo_other /\ frag_ok demo_middle /\ frag_ok demo_last.
Proof. split; [demo_ok|]. split; [demo_ok|]. split; demo_ok. Qed.

Ltac demo_fresh := repeat (apply Forall_cons; split; [first [exact I|split; [reflexivity|apply demo_frags_ok]]|]); apply Forall_nil; exact I.

Lemma fragdb_refines_witness :
  let es := [EvFrag demo_other 100 50; EvFrag demo_first 110 50; EvTimer 155; EvFrag demo_last 156 50] in
  NoDup (es ≫= ev_id) /\
  exists rs t' m' t'' m'', (fragdb_init demo_hash 5;; run_events es) (demo_table, demo_mem) = Some (rs, (t', m')) /\
    fragdb_destroy (t', m') = Some (tt, (t'', m'')) /\ f_bufs m'' = ∅.
Proof.
  intros es. assert (Hnd : NoDup (es ≫= ev_id)) by (apply (bool_decide_unpack _); vm_compute; exact I). split; [done|].
  destruct (fragdb_refines demo_hash 5 demo_table demo_mem es ltac:(done) eq_refl Hnd) as (mems & _ & H).
  - demo_fresh.
  - destruct (spec_events es mems []) as [os l]. destruct H as (rs & t' & m' & t'' & m'' & Hrun & _ & _ & _ & _ & _ & Hd & Hb & _).
    exists rs, t', m', t'', m''. done.
Defined.

Lemma fragments_reassembled_witness :
  let es := its_events [EvFrag demo_other 100 50] demo_first 110 50 [EvTimer 120; EvFrag demo_middle 121 50] demo_last 130 50 in
  exists rs t' m', (fragdb_init demo_hash 5;; run_events es) (demo_table, demo_mem) =
      Some (rs ++ [Some (VERDICT_CONTINUE, fr_pkt demo_first)], (t', m')) /\
    (drop 56 <$> packet_data (f_skbs m') 1) = Some [1; 2; 3; 4; 5; 6; 7; 8; 9; 10; 11; 12; 13; 14; 15; 16; 17; 18].
Proof.
  intros es. assert (Hnd : NoDup (es ≫= ev_id)) by (apply (bool_decide_unpack _); vm_compute; exact I).
  destruct (fragments_reassembled demo_hash 5 demo_table demo_mem (fr_key demo_first) [EvFrag demo_other 100 50] demo_first 110 50
    [EvTimer 120; EvFrag demo_middle 121 50] demo_last 130 50 40) as (rs & t' & m' & s & x & Hrun & Hdata & _).
  - done.
  - split; intros H; inversion H.
  - exact Hnd.
  - demo_fresh.
  - split; [|reflexivity|split; vm_compute; reflexivity|split; reflexivity| |vm_compute; reflexivity|split; vm_compute; reflexivity|reflexivity].
    + apply Forall_cons. split; [vm_compute; reflexivity|apply Forall_nil; exact I].
    + apply Forall_cons. split; [vm_compute; reflexivity|]. apply Forall_cons.
      split; [intros _; split; [vm_compute; reflexivity|]; split; [reflexivity|]; split; vm_compute; reflexivity|apply Forall_nil; exact I].
  - reflexivity.
  - vm_compute. reflexivity.
  - exists rs, t', m'. split; [exact Hrun|]. change 1 with (fr_id demo_first). rewrite Hdata. vm_compute. reflexivity.
Defined.
