(* ===== verification/Teardown.v ===== *)
(** * The end of the stateful module

    What the databases do when the module is removed: the [*_destroy]
    functions of the BIB, of the sessions, of the packet queue and of
    [mod/stateful/filtering_and_updating.c]. *)
From S2P Require Import Prelude Types Address Rfc6052 Pool6 Pool4Table Pool4Db RbTree RbClear BibTable BibDb PortAlloc.
From S2P Require Import Packet SessionEntry PktQueue SessionTable Tcp SessionSpec SessionDb Filtering FilteringSpec StaticRoutes Nat64 Guarantees.

(** ** The databases *)

Section Destroy.
Context {R : RbTree}.

(** The nodes are freed from one of the trees; the other one, which has the
    same nodes, is left as it is. *)
Definition bibtable_destroy : M (bib_table * bib_heap) unit := fun '(t, h) =>
  match rbtree_clear bibentry_kfree (bib_tree6 t) h with
  | Some (_, h) => Some (tt, (BibTable Leaf (bib_tree4 t) (bib_count t), h))
  | None => None
  end.

Definition bibdb_destroy : M bib_db unit :=
  on_table L4PROTO_UDP bibtable_destroy;;
  on_table L4PROTO_TCP bibtable_destroy;;
  on_table L4PROTO_ICMP bibtable_destroy.

(** [del_timer_sync] *)
Definition del_timer (k : timer_kind) (t : session_table) : session_table :=
  let x := get_timer k t in put_timer k (ExpireTimer None (et_sessions x) (get_timeout x) (decide_fate_cb x)) t.

Definition destroy_session (session : session_entry) : M store unit := session_return session;; mret tt.

Definition sessiontable_destroy : M tworld unit :=
  upd_table (fun t => del_timer TRANS_TIMER (del_timer EST_TIMER t));;
  t ← SessionTable.get_table;
  on_sess (rbtree_clear destroy_session (s_tree6 t));;
  upd_table (fun t => SessionTable Leaf (s_tree4 t) (s_count t) (est_timer t) (trans_timer t)).

Definition sessiondb_destroy : M dbworld unit :=
  in_table L4PROTO_UDP sessiontable_destroy;;
  in_table L4PROTO_TCP sessiontable_destroy;;
  in_table L4PROTO_ICMP sessiontable_destroy;;
  off_tables pktqueue_destroy.

(** [palloc_destroy], between the two, frees the key and the hash function
    ([Module]). *)
Definition filtering_destroy : M fworld unit :=
  on_db sessiondb_destroy;;
  on_b bibdb_destroy.

End Destroy.

(** ** What is freed *)

(** From [db0] to [db] entries left the tables: they were freed, and nothing
    else of the heap changed but the counters of those that are left. *)
Definition wound (db0 db : bib_db) : Prop :=
  (forall x, x ∈ bib_all db -> x ∈ bib_all db0) /\
  (forall x, x ∈ bib_all db0 -> x ∉ bib_all db -> bib_vars_of (bibs db) !! bib_loc x = None) /\
  (forall loc, loc ∉ (bib_loc <$> bib_all db0) -> bib_vars_of (bibs db) !! loc = bib_vars_of (bibs db0) !! loc).

Lemma wound_refl db : wound db db.
Proof. split; [done|]. split; [|done]. intros x Hx Hn. done. Qed.

Section Freed.
Context {R : RbTree} {L : RbTreeLaws R}.

Lemma bibdb_return_heap b db db' loc :
  bibdb_return (Some b) db = Some (tt, db') -> loc <> bib_loc b -> bib_vars_of (bibs db') !! loc = bib_vars_of (bibs db) !! loc.
Proof.
  intros Hrun Hne. unfold bibdb_return, bibentry_return, bibentry_kfree, read_bib, write_bib, on_heap, modify, mbind, M_bind in Hrun.
  destruct (bib_vars_of (bibs db) !! bib_loc b) as [v|]; [|done]. cbn in Hrun.
  destruct (negb _); [injection Hrun as <-; cbn; apply lookup_insert_ne; done|].
  set (db1 := match bib_get_table _ _ with Some _ => _ | None => _ end) in Hrun.
  assert (E : bib_vars_of (bibs db1) = <[bib_loc b := BibVars (is_static v) (bib_refcounter v - 1)]> (bib_vars_of (bibs db))).
  { unfold db1. destruct (bib_l4_proto b); done. }
  rewrite E, lookup_insert_eq in Hrun. cbn in Hrun. injection Hrun as <-. cbn. rewrite E, lookup_delete_ne by done. apply lookup_insert_ne. done.
Qed.

(** One session gives its reference to its BIB entry back. *)
Lemma bibdb_return_wound refs db0 db b :
  bib_db_inv refs db -> NoDup (bib_loc <$> bib_all db0) -> b ∈ bib_all db -> 1 <= refs (bib_loc b) -> wound db0 db ->
  exists db', bibdb_return (Some b) db = Some (tt, db') /\ wound db0 db'.
Proof.
  intros Hi Hnd Hb Hr (Hsub & Hgone & Hkeep). destruct (bibdb_return_spec refs db b Hi Hb Hr) as (db' & v & Hrun & _ & Hi' & _ & _ & Hent & Hlast).
  exists db'. split; [done|]. assert (Hall : forall x, x ∈ bib_all db' <-> x ∈ bib_all db /\ (x = b -> bib_refcounter v <> 1)).
  { intros x. rewrite (bib_all_of_proto _ _ _ Hi'), (bib_all_of_proto _ _ _ Hi). apply Hent. }
  split; [|split].
  - intros x Hx. apply Hsub, Hall, Hx.
  - intros x Hx Hn. destruct (decide (x = b)) as [->|Hne].
    + destruct (decide (bib_refcounter v = 1)) as [E|E]; [apply Hlast; done|]. destruct Hn. apply Hall. done.
    + assert (Hnl : bib_loc x <> bib_loc b).
      { intros E. apply Hne. assert (Hinj : forall l, NoDup (bib_loc <$> l) -> x ∈ l -> b ∈ l -> x = b).
        { clear - E. induction l as [|y l IH]; intros Hnd Hx Hb; [inversion Hx|]. rewrite fmap_cons in Hnd. apply NoDup_cons in Hnd as [Hni Hnd].
          apply elem_of_cons in Hx as [->|Hx]; apply elem_of_cons in Hb as [->|Hb]; auto; destruct Hni;
            [rewrite E|rewrite <- E]; apply list_elem_of_fmap_2; done. }
        apply (Hinj _ Hnd Hx). auto. }
      rewrite (bibdb_return_heap b db db') by done. apply Hgone; [done|]. intros Hx'. apply Hn, Hall. split; done.
  - intros loc Hloc. rewrite (bibdb_return_heap b db db' loc Hrun); [auto|]. intros ->. apply Hloc, list_elem_of_fmap_2. auto.
Qed.

Lemma session_return_wound brefs srefs s e v d s' db0 :
  store_inv brefs srefs s -> live s e v -> session_return e s = Some (d, s') -> NoDup (bib_loc <$> bib_all db0) ->
  wound db0 (st_bib s) -> wound db0 (st_bib s').
Proof.
  intros Hi Hl Hrun Hnd Hw. unfold session_return in Hrun. unfold mbind at 1, M_bind at 1 in Hrun. rewrite (read_session_run _ _ _ Hl) in Hrun.
  unfold mbind at 1, M_bind at 1, write_session, modify in Hrun. destruct (_ =? 0); [|injection Hrun as _ <-; exact Hw].
  unfold mbind at 1, M_bind at 1 in Hrun. rewrite session_release_overwrite in Hrun. unfold session_release, mbind, M_bind, on_bib in Hrun.
  destruct (live_inv _ _ _ _ _ Hi Hl) as (_ & _ & _ & Hbib). destruct (se_bib e) as [b|] eqn:Eb; [|injection Hrun as _ <-; exact Hw].
  destruct Hi as (Hb & Hpos & _). destruct (bibdb_return_wound _ db0 (st_bib s) b Hb Hnd Hbib) as (db' & Hret & Hw'); [|done|].
  - pose proof (held_delete _ _ _ (bib_loc b) Hl) as Hd. unfold holds in Hd. cbn [fst] in Hd. rewrite Eb, Pos.eqb_refl in Hd.
    pose proof (held_nonneg (delete (se_loc e) (sessions_of (st_sess s))) (bib_loc b)). specialize (Hpos (bib_loc b)). cbn in Hd. lia.
  - rewrite Hret in Hrun. injection Hrun as _ <-. exact Hw'.
Qed.

(** The sessions of a list are given back, each once. *)
Lemma destroy_sessions xs : forall brefs rest s db0,
  store_inv brefs (fun l => refs_in se_loc xs l + rest l) s -> (forall l, 0 <= rest l) -> (forall x, x ∈ xs -> exists v, live s x v) ->
  NoDup (bib_loc <$> bib_all db0) -> wound db0 (st_bib s) ->
  exists s', each destroy_session xs s = Some (tt, s') /\ store_inv brefs rest s' /\ wound db0 (st_bib s') /\
    store_frame (fun l => 0 < rest l) s s'.
Proof.
  induction xs as [|x xs IH]; intros brefs rest s db0 Hi Hrest Hlive Hnd Hw.
  { exists s. split; [done|]. split; [eapply store_inv_ext; [exact Hi|]; intros l; cbv beta; rewrite refs_in_nil; lia|]. split; [done|apply store_frame_refl]. }
  destruct (Hlive x ltac:(left)) as [v Hv]. destruct (session_return_drop brefs _ s x v Hi Hv) as (d & s1 & Hrun & Hi1 & _ & Hf1).
  assert (He : forall l, add_ref (fun l => refs_in se_loc (x :: xs) l + rest l) (se_loc x) (-1) l = refs_in se_loc xs l + rest l).
  { intros l. unfold add_ref. rewrite refs_in_cons. case_decide as E; [subst l; rewrite Pos.eqb_refl; cbn; lia|].
    destruct (Pos.eqb_spec (se_loc x) l); [congruence|]. cbn. lia. }
  destruct (IH brefs rest s1 db0) as (s' & Hrun' & Hi' & Hw' & Hf').
  - eapply store_inv_ext; [exact Hi1|]. intros l. rewrite He. done.
  - done.
  - intros y Hy. destruct (Hlive y ltac:(right; done)) as [vy Hvy]. destruct (Hf1 _ _ Hvy) as [n Hn]; [|eauto].
    rewrite He. pose proof (refs_in_pos se_loc y xs Hy). specialize (Hrest (se_loc y)). lia.
  - done.
  - exact (session_return_wound _ _ _ _ _ _ _ _ Hi Hv Hrun Hnd Hw).
  - exists s'. split; [|split; [done|split; [done|]]].
    + assert (Hd : destroy_session x s = Some (tt, s1)) by (unfold destroy_session; rewrite (bind_run _ _ _ _ _ Hrun); done).
      cbn [each]. rewrite (bind_run _ _ _ _ _ Hd). exact Hrun'.
    + eapply store_frame_trans; [|exact Hf']. eapply store_frame_weaken; [|exact Hf1]. intros l Hl. cbv beta. rewrite He.
      pose proof (refs_in_nonneg se_loc xs l). lia.
Qed.

(** One of the tables of sessions. *)
Definition destroyed (t : session_table) : session_table :=
  let t := del_timer TRANS_TIMER (del_timer EST_TIMER t) in SessionTable Leaf (s_tree4 t) (s_count t) (est_timer t) (trans_timer t).

Lemma table_destroyed p fns brefs rest db w t db0 :
  sess_get_table p db = Some t -> session_table_inv p fns t ->
  store_inv brefs (fun l => table_refs t l + rest l) (w_store w) -> (forall l, 0 <= rest l) ->
  (forall x, x ∈ s_entries t -> exists v, live (w_store w) x v) -> NoDup (bib_loc <$> bib_all db0) -> wound db0 (st_bib (w_store w)) ->
  exists s', in_table p sessiontable_destroy (db, w) = Some (tt, (sess_put_table p (destroyed t) db, World s' (w_queue w) (w_out w))) /\
    store_inv brefs rest s' /\ wound db0 (st_bib s') /\ store_frame (fun l => 0 < rest l) (w_store w) s'.
Proof.
  intros Ht (_ & _ & Hperm & _) Hi Hrest Hlive Hnd Hw.
  assert (Hp : postorder (s_tree6 t) ≡ₚ s_entries t) by (rewrite postorder_perm; done).
  destruct (destroy_sessions (postorder (s_tree6 t)) brefs rest (w_store w) db0) as (s' & Hrun & H); try done.
  - eapply store_inv_ext; [exact Hi|]. intros l. cbv beta. unfold table_refs. rewrite (refs_in_perm se_loc _ _ l Hp). done.
  - intros x Hx. rewrite Hp in Hx. auto.
  - exists s'. split; [|done]. unfold in_table. rewrite Ht. unfold sessiontable_destroy, upd_table, SessionTable.get_table, on_sess, on_world, on_store.
    unfold modify, gets, mbind, M_bind. cbn -[rbtree_clear]. rewrite rbtree_clear_postorder, Hrun. done.
Qed.

(** The packets of the queue are answered, in order. *)
Lemma send_icmp_errors_each nodes : forall w s',
  each destroy_session (pn_session <$> nodes) (w_store w) = Some (tt, s') ->
  send_icmp_errors nodes w = Some (tt, World s' (w_queue w) (answers nodes (w_out w))).
Proof.
  induction nodes as [|n nodes IH]; intros w s' H; [injection H as <-; destruct w; done|]. csimpl in H. cbn [each] in H.
  unfold mbind at 1, M_bind at 1 in H. destruct (destroy_session (pn_session n) (w_store w)) as [[[] s1]|] eqn:E; [|done].
  unfold destroy_session in E. unfold mbind, M_bind in E. destruct (session_return (pn_session n) (w_store w)) as [[d s2]|] eqn:Er; [|done].
  injection E as <-. cbn [send_icmp_errors]. unfold send_icmp_error, mbind, M_bind, emit, modify, on_store. cbn [w_store w_queue w_out]. rewrite Er.
  apply (IH (World s2 (w_queue w) (EvFree (pn_pkt n) :: EvIcmp (pn_pkt n) ICMPERR_PORT_UNREACHABLE :: w_out w)) s' H).
Qed.

Lemma queue_refs_sessions nodes l : queue_refs nodes l = refs_in se_loc (pn_session <$> nodes) l.
Proof. unfold queue_refs. induction nodes as [|n nodes IH]; [done|]. csimpl. rewrite !refs_in_cons, IH. done. Qed.

Lemma no_refs_no_sessions brefs s : store_inv brefs (fun _ => 0) s -> sessions_of (st_sess s) = ∅.
Proof.
  intros (_ & _ & H). apply map_empty. intros loc. specialize (H loc). destruct (sessions_of (st_sess s) !! loc) as [[e v]|]; [|done]. lia.
Qed.

(** Entries are freed, each once. *)
Lemma kfree_entries l : forall h, NoDup (bib_loc <$> l) -> (forall b, b ∈ l -> is_Some (bib_vars_of h !! bib_loc b)) ->
  exists h', each bibentry_kfree l h = Some (tt, h') /\
    (forall loc, bib_vars_of h' !! loc = if bool_decide (loc ∈ bib_loc <$> l) then None else bib_vars_of h !! loc).
Proof.
  induction l as [|b l IH]; intros h Hnd Hall; [exists h; done|]. csimpl in Hnd. apply NoDup_cons in Hnd as [Hn Hnd].
  destruct (Hall b ltac:(left)) as [v Hv]. set (h1 := BibHeap (delete (bib_loc b) (bib_vars_of h)) (bib_next h) (bib_allocs h)).
  assert (Hrun : bibentry_kfree b h = Some (tt, h1)) by (unfold bibentry_kfree, read_bib, mbind, M_bind; rewrite Hv; done).
  destruct (IH h1 Hnd) as (h' & Hrun' & Hh').
  { intros x Hx. cbn. rewrite lookup_delete_ne; [apply Hall; right; done|]. intros E. apply Hn. rewrite E. apply list_elem_of_fmap_2. done. }
  exists h'. cbn [each]. rewrite (bind_run _ _ _ _ _ Hrun). split; [done|]. intros loc. rewrite Hh'. cbn [h1 bib_vars_of]. csimpl.
  destruct (decide (loc = bib_loc b)) as [->|Hne].
  - rewrite lookup_delete_eq, (bool_decide_eq_true_2 (bib_loc b ∈ bib_loc b :: _)) by left. destruct (bool_decide _); done.
  - rewrite lookup_delete_ne by done. rewrite (bool_decide_ext (loc ∈ bib_loc b :: (bib_loc <$> l)) (loc ∈ bib_loc <$> l)); [done|].
    rewrite elem_of_cons. tauto.
Qed.

Lemma bib_table_destroyed p db t :
  bib_get_table p db = Some t -> bib_table_inv p t -> (forall b, b ∈ bib_entries t -> is_Some (bib_vars_of (bibs db) !! bib_loc b)) ->
  exists h', on_table p bibtable_destroy db = Some (tt, bib_put_table p (BibTable Leaf (bib_tree4 t) (bib_count t)) (bib_put_heap h' db)) /\
    (forall loc, bib_vars_of h' !! loc = if bool_decide (loc ∈ bib_loc <$> bib_entries t) then None else bib_vars_of (bibs db) !! loc).
Proof.
  intros Ht (_ & _ & Hperm & Hnd & _) Hall. assert (Hp : postorder (bib_tree6 t) ≡ₚ bib_entries t) by (rewrite postorder_perm; done).
  destruct (kfree_entries (postorder (bib_tree6 t)) (bibs db)) as (h' & Hrun & Hh').
  - rewrite Hp. done.
  - intros b Hb. rewrite Hp in Hb. auto.
  - exists h'. unfold on_table. rewrite Ht. unfold bibtable_destroy. rewrite rbtree_clear_postorder, Hrun. split; [done|].
    intros loc. rewrite Hh'. rewrite (bool_decide_ext (loc ∈ bib_loc <$> postorder (bib_tree6 t)) (loc ∈ bib_loc <$> bib_entries t)); [done|].
    rewrite Hp. done.
Qed.

End Freed.

Section Unload.
Context {R : RbTree} {L : RbTreeLaws R}.

Lemma bibdb_destroy_run refs db : bib_db_inv refs db ->
  exists db', bibdb_destroy db = Some (tt, db') /\
    (forall loc, bib_vars_of (bibs db') !! loc = if bool_decide (loc ∈ bib_loc <$> bib_all db) then None else bib_vars_of (bibs db) !! loc).
Proof.
  intros (H1 & H2 & H3 & Hnd & Hall & _).
  assert (Hin : forall b, b ∈ bib_all db -> is_Some (bib_vars_of (bibs db) !! bib_loc b)) by (intros b Hb; destruct (Hall b Hb) as (v & Hv & _); eauto).
  unfold bib_all in *. rewrite !fmap_app in Hnd. apply NoDup_app in Hnd as (_ & Ht & Hnd). apply NoDup_app in Hnd as (_ & Hu & _).
  destruct (bib_table_destroyed L4PROTO_UDP db (bib_udp db) eq_refl H2) as (h1 & Hr1 & Hh1).
  { intros b Hb. apply Hin. rewrite !elem_of_app. auto. }
  set (db1 := bib_put_table L4PROTO_UDP _ _) in Hr1.
  destruct (bib_table_destroyed L4PROTO_TCP db1 (bib_tcp db) eq_refl H1) as (h2 & Hr2 & Hh2).
  { intros b Hb. change (bibs db1) with h1. rewrite Hh1, bool_decide_eq_false_2; [apply Hin; rewrite !elem_of_app; auto|].
    intros Hb'. apply (Ht (bib_loc b)); [apply list_elem_of_fmap_2; done|apply elem_of_app; auto]. }
  set (db2 := bib_put_table L4PROTO_TCP _ _) in Hr2.
  destruct (bib_table_destroyed L4PROTO_ICMP db2 (bib_icmp db) eq_refl H3) as (h3 & Hr3 & Hh3).
  { intros b Hb. change (bibs db2) with h2. rewrite Hh2, bool_decide_eq_false_2.
    - change (bibs db1) with h1. rewrite Hh1, bool_decide_eq_false_2; [apply Hin; rewrite !elem_of_app; auto|].
      intros Hb'. apply (Hu (bib_loc b) Hb'). apply list_elem_of_fmap_2. done.
    - intros Hb'. apply (Ht (bib_loc b) Hb'). apply elem_of_app. right. apply list_elem_of_fmap_2. done. }
  eexists. unfold bibdb_destroy. rewrite (bind_run _ _ _ _ _ Hr1), (bind_run _ _ _ _ _ Hr2). split; [exact Hr3|].
  intros loc. cbn [bib_put_table bib_put_heap bibs]. rewrite Hh3. change (bibs db2) with h2. rewrite Hh2. change (bibs db1) with h1. rewrite Hh1.
  rewrite (bool_decide_ext (loc ∈ bib_loc <$> bib_entries (bib_tcp db) ++ bib_entries (bib_udp db) ++ bib_entries (bib_icmp db))
    (loc ∈ bib_loc <$> bib_entries (bib_tcp db) \/ loc ∈ bib_loc <$> bib_entries (bib_udp db) \/ loc ∈ bib_loc <$> bib_entries (bib_icmp db)))
    by (rewrite !fmap_app, !elem_of_app; done).
  repeat case_bool_decide; try done; tauto.
Qed.

(** The tables of some protocols, one after the other. *)
Fixpoint destroy_tables (ps : list l4_protocol) : M dbworld unit :=
  match ps with [] => mret tt | p :: ps => in_table p sessiontable_destroy;; destroy_tables ps end.

Lemma get_destroyed p q t db : p <> q -> sess_get_table q (sess_put_table p t db) = sess_get_table q db.
Proof. destruct p, q; done. Qed.

(** [T] gives the sessions of each table. *)
Lemma tables_destroyed (T : l4_protocol -> list session_entry) brefs rest db0 ps : forall db w,
  NoDup ps -> (forall p, p ∈ ps -> exists t, sess_get_table p db = Some t /\ session_table_inv p (proto_fns p) t /\ s_entries t = T p) ->
  store_inv brefs (fun l => refs_in se_loc (ps ≫= T) l + rest l) (w_store w) -> (forall l, 0 <= rest l) ->
  (forall x, x ∈ ps ≫= T -> exists v, live (w_store w) x v) -> NoDup (bib_loc <$> bib_all db0) -> wound db0 (st_bib (w_store w)) ->
  exists db' s', destroy_tables ps (db, w) = Some (tt, (db', World s' (w_queue w) (w_out w))) /\
    store_inv brefs rest s' /\ wound db0 (st_bib s') /\ store_frame (fun l => 0 < rest l) (w_store w) s' /\
    forall p, if bool_decide (p ∈ ps) then exists t, sess_get_table p db = Some t /\ sess_get_table p db' = Some (destroyed t)
              else sess_get_table p db' = sess_get_table p db.
Proof.
  induction ps as [|p ps IH]; intros db w Hps Htab Hi Hrest Hlive Hnd Hw.
  { exists db, (w_store w). split; [destruct w; done|]. split; [eapply store_inv_ext; [exact Hi|]; done|].
    split; [done|]. split; [apply store_frame_refl|done]. }
  apply NoDup_cons in Hps as [Hp Hps]. destruct (Htab p ltac:(left)) as (t & Ht & Hti & Et). csimpl in Hi. csimpl in Hlive.
  assert (Hsplit : forall l, refs_in se_loc (T p ++ (ps ≫= T)) l + rest l = table_refs t l + (refs_in se_loc (ps ≫= T) l + rest l)).
  { intros l. unfold table_refs. rewrite Et, refs_in_app. lia. }
  destruct (table_destroyed p _ brefs (fun l => refs_in se_loc (ps ≫= T) l + rest l) db w t db0 Ht Hti) as (s1 & Hr1 & Hi1 & Hw1 & Hf1); try done.
  { eapply store_inv_ext; [exact Hi|]. intros l. cbv beta. rewrite Hsplit. done. }
  { intros l. pose proof (refs_in_nonneg se_loc (ps ≫= T) l). specialize (Hrest l). lia. }
  { intros x Hx. apply Hlive. rewrite <- Et. apply elem_of_app. left. done. }
  destruct (IH (sess_put_table p (destroyed t) db) (World s1 (w_queue w) (w_out w))) as (db' & s' & Hr & Hi' & Hw' & Hf' & Htabs); try done.
  { intros q Hq. destruct (Htab q ltac:(right; done)) as (tq & Hq1 & Hq2). exists tq. rewrite get_destroyed; [done|]. intros <-. done. }
  { intros x Hx. destruct (Hlive x ltac:(apply elem_of_app; right; done)) as [v Hv]. destruct (Hf1 _ _ Hv) as [n Hn]; [|eauto].
    pose proof (refs_in_pos se_loc x _ Hx). specialize (Hrest (se_loc x)). lia. }
  exists db', s'. cbn [destroy_tables]. rewrite (bind_run _ _ _ _ _ Hr1). split; [done|]. split; [done|]. split; [done|]. split.
  - eapply store_frame_trans; [|exact Hf']. eapply store_frame_weaken; [|exact Hf1]. intros l Hl. cbv beta. pose proof (refs_in_nonneg se_loc (ps ≫= T) l). lia.
  - intros q. specialize (Htabs q). destruct (decide (q = p)) as [->|Hne].
    + rewrite bool_decide_eq_true_2 by left. rewrite bool_decide_eq_false_2 in Htabs by done. exists t. split; [done|]. rewrite Htabs.
      destruct p; done.
    + rewrite get_destroyed in Htabs by congruence. rewrite (bool_decide_ext (q ∈ p :: ps) (q ∈ ps)); [done|]. rewrite elem_of_cons. tauto.
Qed.

(** The sessions, then the packets that wait. *)
Lemma sessiondb_destroy_run brefs db w :
  sessiondb_inv brefs (fun _ => 0) (db, w) ->
  exists db' w', sessiondb_destroy (db, w) = Some (tt, (db', w')) /\ store_inv brefs (fun _ => 0) (w_store w') /\
    wound (st_bib (w_store w)) (st_bib (w_store w')) /\ w_out w' = answers (node_list (w_queue w)) (w_out w) /\
    pq_timer (w_queue w') = None /\ forall p t k, sess_get_table p db' = Some t -> timer (get_timer k t) = None.
Proof.
  intros ((Hi & Hs & Hq & Hqlive) & _ & Htab). cbn [fst snd] in *.
  assert (Hnd : NoDup (bib_loc <$> bib_all (st_bib (w_store w)))) by (destruct Hi as ((_ & _ & _ & H & _) & _); exact H).
  set (qr := queue_refs (node_list (w_queue w))) in *. assert (Hqn : forall l, 0 <= qr l) by (intros l; apply queue_refs_nonneg).
  destruct (tables_destroyed (fun p => db_entries p db) brefs qr (st_bib (w_store w)) [L4PROTO_UDP; L4PROTO_TCP; L4PROTO_ICMP] db w)
    as (db' & s1 & Hr1 & Hi1 & Hw1 & Hf1 & Ht1).
  - repeat (apply NoDup_cons; split; [intros H; repeat (apply elem_of_cons in H as [H|H]; [done|]); inversion H|]). constructor.
  - intros p Hp. assert (exists t, sess_get_table p db = Some t) as [t Ht] by (repeat (apply elem_of_cons in Hp as [->|Hp]; [eexists; reflexivity|]); inversion Hp).
    exists t. split; [done|]. split; [apply (Htab p t Ht)|]. unfold db_entries. rewrite Ht. done.
  - eapply store_inv_ext; [exact Hi|]. intros l. cbv beta. csimpl. unfold db_entries. cbn [sess_get_table]. rewrite !refs_in_app, refs_in_nil.
    unfold db_refs, table_refs. fold qr. lia.
  - done.
  - intros x Hx. apply list_elem_of_bind in Hx as (p & Hx & _). unfold db_entries in Hx. destruct (sess_get_table p db) as [t|] eqn:Ht; [|inversion Hx].
    destruct (Htab p t Ht) as ((_ & _ & _ & Hp & _) & Hqs & _). rewrite <- Hp in Hx.
    apply elem_of_app in Hx as [Hx|Hx]; [destruct (Hqs EST_TIMER x Hx) as (v & Hv & _)|destruct (Hqs TRANS_TIMER x Hx) as (v & Hv & _)]; eauto.
  - done.
  - apply wound_refl.
  - destruct (destroy_sessions (pn_session <$> node_list (w_queue w)) brefs (fun _ => 0) s1 (st_bib (w_store w))) as (s2 & Hr2 & Hi2 & Hw2 & _); try done.
    { eapply store_inv_ext; [exact Hi1|]. intros l. cbv beta. rewrite <- queue_refs_sessions. fold qr. lia. }
    { intros x Hx. apply list_elem_of_fmap in Hx as (n & -> & Hn). destruct (Hqlive n Hn) as [v Hv]. destruct (Hf1 _ _ Hv) as [k Hk]; [|eauto].
      apply queue_refs_pos. done. }
    set (q0 := PktQueue (node_list (w_queue w)) (node_tree (w_queue w)) (node_count (w_queue w)) None (pn_next (w_queue w)) (pn_allocs (w_queue w))).
    exists db', (World s2 q0 (answers (node_list (w_queue w)) (w_out w))). split; [|split; [done|split; [done|split; [done|split; [done|]]]]].
    + unfold sessiondb_destroy. cbn [destroy_tables] in Hr1. unfold mbind, M_bind in Hr1 |- *.
      destruct (in_table L4PROTO_UDP sessiontable_destroy (db, w)) as [[[] d1]|]; [|done].
      destruct (in_table L4PROTO_TCP sessiontable_destroy d1) as [[[] d2]|]; [|done].
      destruct (in_table L4PROTO_ICMP sessiontable_destroy d2) as [[[] d3]|]; [|done]. injection Hr1 as ->.
      unfold off_tables, pktqueue_destroy, get, set_queue, modify, mbind, M_bind. cbn [w_queue w_store w_out].
      fold q0. rewrite (send_icmp_errors_each (node_list (w_queue w)) (World s1 q0 (w_out w)) s2 Hr2). done.
    + intros p t k Ht. specialize (Ht1 p). case_bool_decide as Hin.
      * destruct Ht1 as (t0 & _ & Ht'). rewrite Ht in Ht'. injection Ht' as ->. destruct k; done.
      * destruct p; (destruct Hin; set_solver).
Qed.

(** C8: Unloading the stateful translator: from any state that packets, timers
    and requests can lead to, tearing the databases down faults nowhere and
    frees nothing twice: no session is left, every BIB entry of the tables
    (static ones and those that sessions kept) is freed and no other is, each
    packet that waited for a simultaneous open is answered with an ICMP error
    and freed, in order, and no timer is left pending.  The events are those of
    [nat64_event], the flushes of the BIB that a removal or a flush of pool4
    makes included, when no session uses a static entry they flush
    ([event_safe]); after a flush under such a session, which
    [flush_under_waiting_packet] shows, nothing is claimed. *)
Theorem nat64_teardown s : nat64_reachable s ->
  exists s', filtering_destroy s = Some (tt, s') /\
    sessions_of (st_sess (f_store s')) = ∅ /\
    (forall loc, bib_vars_of (bibs (f_bib s')) !! loc =
       if bool_decide (loc ∈ bib_loc <$> bib_all (f_bib s)) then None else bib_vars_of (bibs (f_bib s)) !! loc) /\
    w_out (f_world s') = answers (node_list (w_queue (f_world s))) (w_out (f_world s)) /\
    pq_timer (w_queue (f_world s')) = None /\
    (forall p t k, sess_get_table p (f_db s') = Some t -> timer (get_timer k t) = None).
Proof.
  intros Hr. destruct (reachable_inv s Hr) as (_ & Hi & _). destruct s as [[db w] eph]. cbn [fst snd] in Hi.
  destruct (sessiondb_destroy_run (refs_in bib_loc []) db w Hi) as (db' & w' & Hrun & Hst & Hw & Hout & Htimer & Htimers).
  pose proof Hst as (Hb & _ & _). destruct (bibdb_destroy_run _ _ Hb) as (bib' & Hrun' & Hheap).
  exists ((db', World (Store bib' (st_sess (w_store w'))) (w_queue w') (w_out w')), eph). split.
  { unfold filtering_destroy. rewrite (bind_run _ _ _ tt ((db', w'), eph)) by (unfold on_db; rewrite Hrun; done).
    apply on_b_run. exact Hrun'. }
  split; [apply (no_refs_no_sessions _ _ Hst)|]. split; [|done]. intros loc. cbn. rewrite Hheap. unfold f_bib, f_store, f_world. cbn.
  destruct Hw as (Hsub & Hgone & Hkeep). case_bool_decide as Hin; case_bool_decide as Hin0; try done.
  - destruct Hin0. apply list_elem_of_fmap in Hin as (x & -> & Hx). apply list_elem_of_fmap_2. auto.
  - apply list_elem_of_fmap in Hin0 as (x & -> & Hx). apply Hgone; [done|]. intros Hx'. apply Hin, list_elem_of_fmap_2. done.
  - apply Hkeep. done.
Qed.

End Unload.

Lemma nat64_teardown_witness :
  sessions_of (st_sess (f_store scene_two)) <> ∅ /\
  exists s', @filtering_destroy plain_rbtree scene_two = Some (tt, s') /\ sessions_of (st_sess (f_store s')) = ∅.
Proof.
  split; [vm_compute; discriminate|].
  destruct (@nat64_teardown plain_rbtree plain_rbtree_laws scene_two scene_two_reachable) as (s' & Hrun & Hs & _). exists s'. split; [exact Hrun|exact Hs].
Defined.
