(* ===== verification/Module.v ===== *)
(** * Loading and removing the modules

    [nat64_init] and [nat64_exit] of [mod/stateful/nf_hook.c] and of
    [mod/stateless/nf_hook.c], with the setup of
    [mod/stateful/filtering_and_updating.c], of
    [mod/stateful/bib/port_allocator.c] and of [mod/common/namespace.c]: the
    order in which the parts of a translator are set up, and how what was set up
    is undone when one of them fails.

    A part is something that is held from its setup to its teardown: setting it
    up twice, or tearing down what is not set up, is a fault.  The setup of a
    part may fail with an error, and then leaves nothing behind. *)
From S2P Require Import Prelude.

Inductive part : Type :=
| NameSpace | Configuration | NetlinkSocket | Pool6Prefixes | Pool4Tables
| BibCache | SecretKey | Md5Transform | SessionCache | FragmentDb | NetfilterHooks
| EamTable | Blacklist4 | Rfc6791Pool.

#[global] Instance part_eq_dec : EqDecision part.
Proof. solve_decision. Defined.

(** The parts that are set up, the latest first. *)
Abbreviation parts := (list part).

Section Module.
(** The error each setup returns, if it fails. *)
Context (fails : part -> option errno).

Definition setup (p : part) : M parts (result unit) := fun held =>
  if bool_decide (p ∈ held) then None
  else match fails p with
  | Some error => Some (Err error, held)
  | None => Some (Ok tt, p :: held)
  end.

Definition teardown (p : part) : M parts unit := fun held =>
  if bool_decide (p ∈ held) then Some (tt, List.filter (fun q => negb (bool_decide (q = p))) held) else None.

(** [if (error) goto failure;] *)
Definition or_goto {A} (x : M parts (result unit)) (failure : errno -> M parts A) (next : M parts A) : M parts A :=
  error ← x;
  match error with Err e => failure e | Ok _ => next end.

(** ** Parts of the stateful translator *)

(** The secret key is allocated first. *)
Definition palloc_init : M parts (result unit) :=
  or_goto (setup SecretKey) (fun e => mret (Err e))
  (or_goto (setup Md5Transform) (fun e => teardown SecretKey;; mret (Err e))
  (mret (Ok tt))).

Definition palloc_destroy : M parts unit := teardown Md5Transform;; teardown SecretKey.

Definition filtering_init : M parts (result unit) :=
  or_goto (setup BibCache) (fun e => mret (Err e))
  (or_goto palloc_init (fun e => teardown BibCache;; mret (Err e))
  (or_goto (setup SessionCache) (fun e => palloc_destroy;; teardown BibCache;; mret (Err e))
  (mret (Ok tt)))).

Definition filtering_unload : M parts unit := teardown SessionCache;; palloc_destroy;; teardown BibCache.

(** ** mod/stateful/nf_hook.c *)

(** The labels of [nat64_init], from the last to the first. *)
Definition joolns_failure (e : errno) : M parts (result unit) := mret (Err e).
Definition config_failure (e : errno) : M parts (result unit) := teardown NameSpace;; joolns_failure e.
Definition nlhandler_failure (e : errno) : M parts (result unit) := teardown Configuration;; config_failure e.
Definition pool6_failure (e : errno) : M parts (result unit) := teardown NetlinkSocket;; nlhandler_failure e.
Definition pool4_failure (e : errno) : M parts (result unit) := teardown Pool6Prefixes;; pool6_failure e.
Definition filtering_failure (e : errno) : M parts (result unit) := teardown Pool4Tables;; pool4_failure e.
Definition fragdb_failure (e : errno) : M parts (result unit) := filtering_unload;; filtering_failure e.
Definition nf_register_hooks_failure (e : errno) : M parts (result unit) := teardown FragmentDb;; fragdb_failure e.

Definition nat64_init : M parts (result unit) :=
  or_goto (setup NameSpace) joolns_failure
  (or_goto (setup Configuration) config_failure
  (or_goto (setup NetlinkSocket) nlhandler_failure
  (or_goto (setup Pool6Prefixes) pool6_failure
  (or_goto (setup Pool4Tables) pool4_failure
  (or_goto filtering_init filtering_failure
  (or_goto (setup FragmentDb) fragdb_failure
  (or_goto (setup NetfilterHooks) nf_register_hooks_failure
  (mret (Ok tt))))))))).

Definition nat64_exit : M parts unit :=
  teardown NetfilterHooks;;
  teardown FragmentDb;;
  filtering_unload;;
  teardown Pool4Tables;;
  teardown Pool6Prefixes;;
  teardown NetlinkSocket;;
  teardown Configuration;;
  teardown NameSpace.

(** ** mod/stateless/nf_hook.c *)

Definition siit_eamt_failure (e : errno) : M parts (result unit) := teardown Configuration;; config_failure e.
Definition siit_nlhandler_failure (e : errno) : M parts (result unit) := teardown EamTable;; siit_eamt_failure e.
Definition siit_pool6_failure (e : errno) : M parts (result unit) := teardown NetlinkSocket;; siit_nlhandler_failure e.
Definition siit_blacklist_failure (e : errno) : M parts (result unit) := teardown Pool6Prefixes;; siit_pool6_failure e.
Definition siit_rfc6791_failure (e : errno) : M parts (result unit) := teardown Blacklist4;; siit_blacklist_failure e.
Definition siit_nf_register_hooks_failure (e : errno) : M parts (result unit) := teardown Rfc6791Pool;; siit_rfc6791_failure e.

Definition siit_init : M parts (result unit) :=
  or_goto (setup NameSpace) joolns_failure
  (or_goto (setup Configuration) config_failure
  (or_goto (setup EamTable) siit_eamt_failure
  (or_goto (setup NetlinkSocket) siit_nlhandler_failure
  (or_goto (setup Pool6Prefixes) siit_pool6_failure
  (or_goto (setup Blacklist4) siit_blacklist_failure
  (or_goto (setup Rfc6791Pool) siit_rfc6791_failure
  (or_goto (setup NetfilterHooks) siit_nf_register_hooks_failure
  (mret (Ok tt))))))))).

Definition siit_exit : M parts unit :=
  teardown NetfilterHooks;;
  teardown Rfc6791Pool;;
  teardown Blacklist4;;
  teardown Pool6Prefixes;;
  teardown NetlinkSocket;;
  teardown EamTable;;
  teardown Configuration;;
  teardown NameSpace.

(** ** What they do *)

(** The parts of each translator, in the order of their setup. *)
Definition module_parts (siit : bool) : list part :=
  if siit then [NameSpace; Configuration; EamTable; NetlinkSocket; Pool6Prefixes; Blacklist4; Rfc6791Pool; NetfilterHooks]
  else [NameSpace; Configuration; NetlinkSocket; Pool6Prefixes; Pool4Tables; BibCache; SecretKey; Md5Transform; SessionCache;
        FragmentDb; NetfilterHooks].

Definition module_init (siit : bool) : M parts (result unit) := if siit then siit_init else nat64_init.
Definition module_exit (siit : bool) : M parts unit := if siit then siit_exit else nat64_exit.

(** The first error on the way. *)
Fixpoint first_failure (l : list part) : option errno :=
  match l with [] => None | p :: l => match fails p with Some e => Some e | None => first_failure l end end.

End Module.

(** C33: Loading a module is all or nothing, in both translators and whichever
    setups fail: when they all succeed the parts are set up in order, the hooks
    last, and removing the module tears every one of them down; when one fails,
    exactly the ones that were set up before it are torn down, none twice, the
    later ones are not tried, and its error is what the loader gets. *)
Theorem module_load_exact fails siit :
  match first_failure fails (module_parts siit) with
  | None => module_init fails siit [] = Some (Ok tt, rev (module_parts siit)) /\
            module_exit siit (rev (module_parts siit)) = Some (tt, [])
  | Some e => module_init fails siit [] = Some (Err e, [])
  end.
Proof.
  (* evaluation leaves only the case analyses on the outcomes of the setups *)
  destruct siit; vm_compute; repeat (destruct (fails _); [reflexivity|]); done.
Qed.
