(* ===== verification/ErrorPool.v ===== *)
(** * The error messages of a request

    [mod/common/error_pool.c]: the texts of [log_err] while a request is
    handled, to be sent to the user with the response.  A text is the list of
    its characters, without the final NUL; [msg_size] is the sum of the
    lengths, in 16 bits. *)
From S2P Require Import Prelude.

Abbreviation text := (list Z).

Record error_pool : Type := ErrorPool {
  ep_activated : bool;
  ep_msg_size : Z;
  ep_db : list text;
  ep_allocs : allocs
}.

Definition ep_alloc : M error_pool bool := fun p =>
  let '(ok, al) := kmalloc (ep_allocs p) in Some (ok, ErrorPool (ep_activated p) (ep_msg_size p) (ep_db p) al).

Definition error_pool_init : M error_pool unit := modify (fun p => ErrorPool (ep_activated p) (ep_msg_size p) [] (ep_allocs p)).

Definition flush_list : M error_pool unit := modify (fun p => ErrorPool (ep_activated p) (ep_msg_size p) [] (ep_allocs p)).

Definition error_pool_destroy : M error_pool unit := flush_list.

Definition error_pool_activate : M error_pool unit := modify (fun p => ErrorPool true 0 (ep_db p) (ep_allocs p)).

Definition strlen (msg : text) : Z := Z.of_nat (length msg).

Definition error_pool_add_message (msg : text) : M error_pool (result unit) :=
  p ← get;
  if negb (ep_activated p) then mret (Ok tt)
  else
    node ← ep_alloc;
    if negb node then mret (Err ENOMEM)
    else
      copy ← ep_alloc;
      if negb copy then mret (Err ENOMEM)
      else
        modify (fun p => ErrorPool (ep_activated p) (u16 (ep_msg_size p + strlen msg)) (ep_db p ++ [msg]) (ep_allocs p));;
        mret (Ok tt).

(** The loop of [strcpy]s into a buffer of [size] bytes: [None] when one of
    them writes past its end, the NUL included. *)
Fixpoint copy_messages (size : Z) (db : list text) (buffer : text) : option text :=
  match db with
  | [] => if strlen buffer + 1 <=? size then Some buffer else None
  | msg :: db => if strlen buffer + strlen msg + 1 <=? size then copy_messages size db (buffer ++ msg) else None
  end.

(** The text and [msg_len]. *)
Definition error_pool_get_message : M error_pool (result (text * Z)) :=
  p ← get;
  if negb (ep_activated p) then mret (Err EINVAL)
  else
    ok ← ep_alloc;
    if negb ok then mret (Err ENOMEM)
    else
      out_message ← load (copy_messages (ep_msg_size p + 1) (ep_db p) []);
      modify (fun p => ErrorPool (ep_activated p) 0 [] (ep_allocs p));;
      mret (Ok (out_message, ep_msg_size p)).

Definition error_pool_deactivate : M error_pool unit :=
  flush_list;;
  modify (fun p => ErrorPool false 0 (ep_db p) (ep_allocs p)).

(** ** A request *)

(** [receive_from_userspace] around the texts of the request: the pool is
    activated, [log_err] is called with each of them, [respond_error] asks for
    the message, and the pool is deactivated. *)
Fixpoint log_all (msgs : list text) : M error_pool unit :=
  match msgs with [] => mret tt | msg :: msgs => error_pool_add_message msg;; log_all msgs end.

Definition logged_request (msgs : list text) : M error_pool (result (text * Z)) :=
  error_pool_activate;;
  log_all msgs;;
  r ← error_pool_get_message;
  error_pool_deactivate;;
  mret r.

Definition total (msgs : list text) : Z := strlen (concat msgs).

Lemma total_cons msg msgs : total (msg :: msgs) = strlen msg + total msgs.
Proof. unfold total, strlen. cbn [concat]. rewrite length_app. lia. Qed.

Lemma copy_messages_run size db : forall buffer,
  copy_messages size db buffer = if strlen buffer + total db + 1 <=? size then Some (buffer ++ concat db) else None.
Proof.
  induction db as [|msg db IH]; intros buffer; cbn [copy_messages concat].
  - rewrite app_nil_r. unfold total, strlen at 3. cbn [concat length]. rewrite Z.add_0_r. done.
  - rewrite IH, total_cons, app_assoc.
    assert (Hb : strlen (buffer ++ msg) = strlen buffer + strlen msg) by (unfold strlen; rewrite length_app; lia). rewrite Hb.
    assert (0 <= total db) by (unfold total, strlen; lia).
    destruct (Z.leb_spec (strlen buffer + strlen msg + 1) size), (Z.leb_spec (strlen buffer + strlen msg + total db + 1) size),
      (Z.leb_spec (strlen buffer + (strlen msg + total db) + 1) size); done || lia.
Qed.

(** With memory at hand. *)
Lemma log_all_run msgs : forall db,
  log_all msgs (ErrorPool true (u16 (total db)) db []) = Some (tt, ErrorPool true (u16 (total (db ++ msgs))) (db ++ msgs) []).
Proof.
  induction msgs as [|msg msgs IH]; intros db; cbn [log_all].
  - rewrite app_nil_r. done.
  - assert (Hadd : error_pool_add_message msg (ErrorPool true (u16 (total db)) db []) = Some (Ok tt, ErrorPool true (u16 (total (db ++ [msg]))) (db ++ [msg]) [])).
    { assert (Ht : total (db ++ [msg]) = total db + strlen msg)
        by (unfold total, strlen; rewrite concat_app, length_app; cbn [concat]; rewrite app_nil_r; lia).
      unfold error_pool_add_message, ep_alloc, get, modify, mbind, M_bind, u16.
      cbn [kmalloc ep_activated ep_allocs ep_db ep_msg_size negb]. rewrite Ht, Zplus_mod_idemp_l. done. }
    rewrite (bind_run _ _ _ _ _ Hadd), IH, <- app_assoc. done.
Qed.

(** C38: the user gets all the texts of a request in one, if they are not too
    long.  When the texts of a request are less than 65536 characters
    together, the message is their concatenation with its length, and the pool
    is empty and inactive afterwards; when they are not, the size of the
    buffer is computed in 16 bits and the texts are written past its end. *)
Theorem error_messages_joined msgs p (Hp : ep_db p = [] /\ ep_allocs p = []) :
  logged_request msgs p =
  if total msgs <? 2 ^ 16 then Some (Ok (concat msgs, total msgs), ErrorPool false 0 [] []) else None.
Proof.
  destruct p as [act size db al], Hp as [Hd Ha]. cbn [ep_db ep_allocs] in *. subst.
  assert (Hpos : 0 <= total msgs) by (unfold total, strlen; lia).
  unfold logged_request. assert (H0 : error_pool_activate (ErrorPool act size [] []) = Some (tt, ErrorPool true (u16 (total [])) [] [])) by done.
  rewrite (bind_run _ _ _ _ _ H0), (bind_run _ _ _ _ _ (log_all_run msgs [])). cbn [app].
  unfold error_pool_get_message, ep_alloc, get, load, modify, mbind, M_bind. cbn [kmalloc ep_activated ep_allocs ep_db ep_msg_size negb].
  rewrite copy_messages_run. change (strlen []) with 0. unfold u16.
  destruct (Z.ltb_spec (total msgs) (2 ^ 16)) as [Hlt|Hge].
  - rewrite Z.mod_small by lia. destruct (Z.leb_spec (0 + total msgs + 1) (total msgs + 1)); [done|lia].
  - pose proof (Z.mod_pos_bound (total msgs) (2 ^ 16) ltac:(lia)). destruct (Z.leb_spec (0 + total msgs + 1) (total msgs mod 2 ^ 16 + 1)); [lia|done].
Qed.

Lemma error_messages_joined_witness :
  logged_request [[72; 105]; [33]] (ErrorPool false 0 [] []) = Some (Ok ([72; 105; 33], 3), ErrorPool false 0 [] []).
Proof. rewrite (error_messages_joined [[72; 105]; [33]] (ErrorPool false 0 [] []) (conj eq_refl eq_refl)). reflexivity. Defined.
