(* ===== verification/NlHandler.v ===== *)
(** * The requests of the user

    [mod/common/nl_handler.c] and [mod/common/nl_buffer.c]: what the kernel
    module does with a Netlink message, from its bytes to the responses, on
    the databases of the other components.

    A message is its header and the bytes after it.  The structures of
    [include/nat64/common/config.h] are read at the offsets they have on
    x86-64: a member at the next multiple of its alignment, integers
    little-endian, addresses in network order.  Reading past the end of the
    message is a fault.

    The texts of the log, which also travel with the error codes, are left
    out. *)
From S2P Require Import Prelude Types Address Rfc6052 Pool6 Pool4Table Pool4Db RbTree BibTable BibDb PortAlloc.
From S2P Require Import Packet SessionEntry PktQueue SessionTable Tcp SessionSpec SessionDb Filtering FilteringSpec StaticRoutes.
From S2P Require Import Skb Rtrie RtrieOps Eam SiitPool Config.

(** ** What is sent to userspace *)

Record bib_entry_usr : Type := BibEntryUsr {
  bu_addr4 : ipv4_transport_addr;
  bu_addr6 : ipv6_transport_addr;
  bu_is_static : bool
}.

Record session_entry_usr : Type := SessionEntryUsr {
  su_remote6 : ipv6_transport_addr;
  su_local6 : ipv6_transport_addr;
  su_local4 : ipv4_transport_addr;
  su_remote4 : ipv4_transport_addr;
  su_dying_time : Z;
  su_state : tcp_state
}.

(** The payload of a response, one constructor per structure. *)
Inductive payload : Type :=
| PlError (error : Z)
| PlCount (count : Z)
| PlPool4Count (tables samples taddrs : Z)
| PlAddr4 (addr : in_addr)
| PlAddr6 (addr : in6_addr)
| PlGlobal (config : global_config) (plateaus : list Z)
| PlPool6 (prefixes : list ipv6_prefix)
| PlPool4 (samples : list pool4_sample)
| PlBib (entries : list bib_entry_usr)
| PlSession (entries : list session_entry_usr)
| PlEamt (entries : list eamt_entry)
| PlPool (prefixes : list ipv4_prefix).

Record nlmsghdr : Type := NlMsgHdr {
  nlmsg_type : Z;
  nlmsg_seq : Z;
  nlmsg_pid : Z
}.

(** A message to the process [rs_pid]. *)
Record response : Type := Response {
  rs_pid : Z;
  rs_seq : Z;
  rs_type : Z;
  rs_flags : Z;
  rs_payload : payload
}.

Definition MSG_TYPE_JOOL : Z := 0x10 + 2.
Definition MSG_SETCFG : Z := 0x11.
Definition NLMSG_ERROR : Z := 2.
Definition NLMSG_DONE : Z := 3.
Definition NLM_F_MULTI : Z := 2.

(** ** The state *)

(** The databases of both translators (each uses its own), the allocations
    to come of what has no list of its own, the outcomes of the coming
    [nlmsg_unicast] calls (0 once the list runs out), and the responses sent. *)
Record jool : Type := Jool {
  j_pool6 : pool6_state;
  j_pool4 : pool4db;
  j_world : fworld;
  j_eamt : eam_table;
  j_pools : siit_pools;
  j_config : config_world;
  j_allocs : allocs;
  j_unicasts : list Z;
  j_sent : list response
}.

Definition set_allocs (al : allocs) (j : jool) : jool :=
  Jool (j_pool6 j) (j_pool4 j) (j_world j) (j_eamt j) (j_pools j) (j_config j) al (j_unicasts j) (j_sent j).
Definition set_pool6 (p : pool6_state) (j : jool) : jool :=
  Jool p (j_pool4 j) (j_world j) (j_eamt j) (j_pools j) (j_config j) (j_allocs j) (j_unicasts j) (j_sent j).
Definition set_pool4 (p : pool4db) (al : allocs) (j : jool) : jool :=
  Jool (j_pool6 j) p (j_world j) (j_eamt j) (j_pools j) (j_config j) al (j_unicasts j) (j_sent j).
Definition set_world (w : fworld) (j : jool) : jool :=
  Jool (j_pool6 j) (j_pool4 j) w (j_eamt j) (j_pools j) (j_config j) (j_allocs j) (j_unicasts j) (j_sent j).
Definition set_eamt (t : eam_table) (j : jool) : jool :=
  Jool (j_pool6 j) (j_pool4 j) (j_world j) t (j_pools j) (j_config j) (j_allocs j) (j_unicasts j) (j_sent j).
Definition set_pools (p : siit_pools) (j : jool) : jool :=
  Jool (j_pool6 j) (j_pool4 j) (j_world j) (j_eamt j) p (j_config j) (j_allocs j) (j_unicasts j) (j_sent j).
Definition set_cfg (w : config_world) (j : jool) : jool :=
  Jool (j_pool6 j) (j_pool4 j) (j_world j) (j_eamt j) (j_pools j) w (j_allocs j) (j_unicasts j) (j_sent j).
Definition set_sent (unicasts : list Z) (sent : list response) (j : jool) : jool :=
  Jool (j_pool6 j) (j_pool4 j) (j_world j) (j_eamt j) (j_pools j) (j_config j) (j_allocs j) unicasts sent.

(** An operation on one of them. *)
Definition lift {S A} (get : jool -> S) (set : S -> jool -> jool) (m : M S A) : M jool A := fun j =>
  match m (get j) with Some (a, s) => Some (a, set s j) | None => None end.

Definition in_pool6 {A} : M pool6_state A -> M jool A := lift j_pool6 set_pool6.
Definition in_world {A} : M fworld A -> M jool A := lift j_world set_world.
Definition in_eamt {A} : M eam_table A -> M jool A := lift j_eamt set_eamt.
Definition in_pools {A} : M siit_pools A -> M jool A := lift j_pools set_pools.
Definition in_cfg {A} : M config_world A -> M jool A := lift j_config set_cfg.

(** [pool4db_add], [pool4db_rm] and [pool4db_flush] allocate. *)
Definition in_pool4 {A} (m : allocs -> pool4db -> option (A * pool4db * allocs)) : M jool A := fun j =>
  match m (j_allocs j) (j_pool4 j) with Some (a, s, al) => Some (a, set_pool4 s al j) | None => None end.

Definition j_kmalloc : M jool bool := fun j =>
  let '(ok, al) := kmalloc (j_allocs j) in Some (ok, set_allocs al j).

(** ** Sending *)

(** [nlmsg_unicast]: a negative outcome is an error, and nothing is sent. *)
Definition nlmsg_unicast (r : response) : M jool Z := fun j =>
  match j_unicasts j with
  | [] => Some (0, set_sent [] (j_sent j ++ [r]) j)
  | res :: rest => Some (res, set_sent rest (if res <? 0 then j_sent j else j_sent j ++ [r]) j)
  end.

(** [respond_single_msg] and [flush] of the buffer. *)
Definition respond_msg (nl_hdr : nlmsghdr) (type flags : Z) (p : payload) : M jool Z :=
  skb_out ← j_kmalloc;
  if negb skb_out then mret (- errno_code ENOMEM)
  else
    res ← nlmsg_unicast (Response (nlmsg_pid nl_hdr) (nlmsg_seq nl_hdr) type flags p);
    if res <? 0 then mret res else mret 0.

Definition respond_single_msg (nl_hdr_in : nlmsghdr) (type : Z) (p : payload) : M jool Z := respond_msg nl_hdr_in type 0 p.

Definition respond_setcfg (nl_hdr_in : nlmsghdr) (p : payload) : M jool Z := respond_single_msg nl_hdr_in MSG_SETCFG p.

Definition respond_error (nl_hdr_in : nlmsghdr) (error : Z) : M jool Z :=
  respond_single_msg nl_hdr_in NLMSG_ERROR (PlError (Z.abs error)).

Definition code {A} (r : result A) : Z := match r with Ok _ => 0 | Err e => - errno_code e end.

Definition respond_code {A} (nl_hdr_in : nlmsghdr) (r : result A) : M jool Z := respond_error nl_hdr_in (code r).

(** ** [nl_buffer.c] *)

(** The entries written, and the bytes they take. *)
Record nl_buffer (A : Type) : Type := NlBuffer {
  nb_entries : list A;
  nb_len : Z
}.
Arguments NlBuffer {A}.
Arguments nb_entries {A}.
Arguments nb_len {A}.

Section Buffer.
Context (NLBUFFER_SIZE : Z) {A : Type}.

Definition nlbuffer_write (payload_len : Z) (payload : A) (stream : nl_buffer A) : Z * nl_buffer A :=
  if payload_len =? 0 then (0, stream)
  else if NLBUFFER_SIZE <? payload_len then (- errno_code EINVAL, stream)
  else if NLBUFFER_SIZE <? nb_len stream + payload_len then (1, stream)
  else (0, NlBuffer (nb_entries stream ++ [payload]) (nb_len stream + payload_len)).

Definition nlbuffer_create : M jool (option (nl_buffer A)) :=
  ok ← j_kmalloc; mret (if ok : bool then Some (NlBuffer [] 0) else None).

Definition nlbuffer_close (nl_hdr : nlmsghdr) (stream : nl_buffer A) (pl : list A -> payload) (multi : bool) : M jool Z :=
  respond_msg nl_hdr NLMSG_DONE (if multi then NLM_F_MULTI else 0) (pl (nb_entries stream)).

(** What every display does with the iteration of its database. *)
Definition display (nl_hdr : nlmsghdr) (pl : list A -> payload) (for_each : nl_buffer A -> M jool (Z * nl_buffer A)) : M jool Z :=
  buffer ← nlbuffer_create;
  match buffer with
  | None => respond_error nl_hdr (- errno_code ENOMEM)
  | Some buffer =>
      '(error, buffer) ← for_each buffer;
      if 0 <=? error then nlbuffer_close nl_hdr buffer pl (negb (error =? 0)) else respond_error nl_hdr error
  end.

End Buffer.

(** ** Reading the message *)

Fixpoint be_num (l : list Z) (acc : Z) : Z := match l with [] => acc | x :: l => be_num l (256 * acc + x) end.

(** [n] bytes from the offset on. *)
Definition field (off n : nat) (msg : bytes) : option bytes :=
  if (off + n <=? length msg)%nat then Some (take n (drop off msg)) else None.

Definition ld_le (off n : nat) (msg : bytes) : option Z := le_num <$> field off n msg.
Definition ld_u8 (off : nat) : bytes -> option Z := ld_le off 1.
Definition ld_u16 (off : nat) : bytes -> option Z := ld_le off 2.
Definition ld_u32 (off : nat) : bytes -> option Z := ld_le off 4.
Definition ld_bool (off : nat) (msg : bytes) : option bool := to_bool <$> ld_u8 off msg.
Definition ld_addr4 (off : nat) (msg : bytes) : option in_addr := (fun l => InAddr (be_num l 0)) <$> field off 4 msg.
Definition ld_addr6 (off : nat) (msg : bytes) : option in6_addr := (fun l => In6Addr (be_num l 0)) <$> field off 16 msg.
Definition ld_prefix4 (off : nat) (msg : bytes) : option ipv4_prefix :=
  a ← ld_addr4 off msg; len ← ld_u8 (off + 4) msg; Some (Prefix4 a len).
Definition ld_prefix6 (off : nat) (msg : bytes) : option ipv6_prefix :=
  a ← ld_addr6 off msg; len ← ld_u8 (off + 16) msg; Some (Prefix6 a len).
Definition ld_taddr4 (off : nat) (msg : bytes) : option ipv4_transport_addr :=
  a ← ld_addr4 off msg; l4 ← ld_u16 (off + 4) msg; Some (TAddr4 a l4).
Definition ld_taddr6 (off : nat) (msg : bytes) : option ipv6_transport_addr :=
  a ← ld_addr6 off msg; l4 ← ld_u16 (off + 16) msg; Some (TAddr6 a l4).
Definition ld_range (off : nat) (msg : bytes) : option port_range :=
  a ← ld_u16 off msg; b ← ld_u16 (off + 2) msg; Some (PortRange a b).

(** The protocol of a request on the BIB or the sessions.  [get_table] of both
    databases warns and returns [NULL] for every number that is none of the
    three, so all of them are answered like [L4PROTO_OTHER], with [-EINVAL].
    Requests on pool4 take the number as it is. *)
Definition l4_of_num (n : Z) : l4_protocol :=
  match n with 0 => L4PROTO_TCP | 1 => L4PROTO_UDP | 2 => L4PROTO_ICMP | _ => L4PROTO_OTHER end.
Definition ld_proto (off : nat) (msg : bytes) : option l4_protocol := l4_of_num <$> ld_u8 off msg.

Definition ld_sample (off : nat) (msg : bytes) : option pool4_sample :=
  mark ← ld_u32 off msg; proto ← ld_u8 (off + 4) msg; addr ← ld_addr4 (off + 8) msg; range ← ld_range (off + 12) msg;
  Some (Pool4Sample mark proto addr range).

(** A member that is there if its flag is set. *)
Definition ld_if {A} (set : bool) (ld : bytes -> option A) (msg : bytes) : option (option A) :=
  if set then Some <$> ld msg else Some None.

(** [struct request_hdr]; its size is 20. *)
Record request_hdr : Type := RequestHdr {
  rq_magic : list Z;
  rq_type : Z;
  rq_version : Z;
  rq_length : Z;
  rq_mode : Z;
  rq_operation : Z
}.
Definition HDR_LEN : nat := 20.

Definition ld_hdr (msg : bytes) : option request_hdr :=
  magic ← field 0 4 msg; type ← ld_u8 4 msg; version ← ld_u32 8 msg; len ← ld_u32 12 msg; mode ← ld_u16 16 msg; op ← ld_u8 18 msg;
  Some (RequestHdr magic type version len mode op).

Inductive config_mode : Type :=
| MODE_GLOBAL | MODE_POOL6 | MODE_POOL4 | MODE_BLACKLIST | MODE_RFC6791 | MODE_EAMT | MODE_BIB | MODE_SESSION | MODE_LOGTIME.

Inductive config_operation : Type := OP_DISPLAY | OP_COUNT | OP_ADD | OP_UPDATE | OP_REMOVE | OP_FLUSH | OP_TEST.

Definition mode_of_num (n : Z) : option config_mode :=
  if n =? Z.shiftl 1 0 then Some MODE_GLOBAL else if n =? Z.shiftl 1 1 then Some MODE_POOL6
  else if n =? Z.shiftl 1 2 then Some MODE_POOL4 else if n =? Z.shiftl 1 8 then Some MODE_BLACKLIST
  else if n =? Z.shiftl 1 7 then Some MODE_RFC6791 else if n =? Z.shiftl 1 6 then Some MODE_EAMT
  else if n =? Z.shiftl 1 3 then Some MODE_BIB else if n =? Z.shiftl 1 4 then Some MODE_SESSION
  else if n =? Z.shiftl 1 5 then Some MODE_LOGTIME else None.

Definition op_of_num (n : Z) : option config_operation :=
  if n =? Z.shiftl 1 0 then Some OP_DISPLAY else if n =? Z.shiftl 1 1 then Some OP_COUNT
  else if n =? Z.shiftl 1 2 then Some OP_ADD else if n =? Z.shiftl 1 3 then Some OP_UPDATE
  else if n =? Z.shiftl 1 4 then Some OP_REMOVE else if n =? Z.shiftl 1 5 then Some OP_FLUSH
  else if n =? Z.shiftl 1 6 then Some OP_TEST else None.

Definition type_of_num (n : Z) : global_type :=
  match n with
  | 0 => UDP_TIMEOUT | 1 => ICMP_TIMEOUT | 2 => TCP_EST_TIMEOUT | 3 => TCP_TRANS_TIMEOUT | 4 => FRAGMENT_TIMEOUT
  | 5 => MAX_PKTS | 6 => SRC_ICMP6ERRS_BETTER | 7 => BIB_LOGGING | 8 => SESSION_LOGGING
  | 9 => DROP_BY_ADDR | 10 => DROP_ICMP6_INFO | 11 => DROP_EXTERNAL_TCP
  | 12 => COMPUTE_UDP_CSUM_ZERO | 13 => EAM_HAIRPINNING_MODE | 14 => RANDOMIZE_RFC6791
  | 15 => RESET_TCLASS | 16 => RESET_TOS | 17 => NEW_TOS | 18 => DF_ALWAYS_ON | 19 => BUILD_IPV6_FH | 20 => BUILD_IPV4_ID
  | 21 => LOWER_MTU_FAIL | 22 => MTU_PLATEAUS | 23 => DISABLE | 24 => ENABLE | 25 => ATOMIC_FRAGMENTS
  | n => UNKNOWN_TYPE n
  end.

(** ** [nl_handler.c] *)

Section Handler.
Context {R : RbTree} {K : KernelLib}.

(** [xlat_is_siit], [capable(CAP_NET_ADMIN)], the size of a buffer, and what
    the databases only read; the pools and the timeouts in [c] are not
    used. *)
Context (siit capable : bool) (NLBUFFER_SIZE : Z) (c : config).

(** What the code reads at that moment: the pools of the state. *)
Definition config_of (j : jool) : config :=
  Config (c_env c) (j_pool6 j) (j_pool4 j) (c_netdevs c) (c_route c) (hash_32 c) (digest c)
    (addr_dependent_filtering c) (drop_external_connections c) (filter_icmpv6_info c).

(** The clock, and the timeouts of the configuration. *)
Definition env_of (cfg : global_config) : env :=
  let e := c_env c in let t := nc_ttl (gc_nat64 cfg) in
  Env (jiffies e) (Config.ttl_udp t) (ttl_tcp_est t) (ttl_tcp_trans t) (Config.ttl_icmp t) (ttl_syn e) (max_pkts e) (probe_ok e).

Definition current_env : M jool env := cfg ← in_cfg (RCU_THINGY id); mret (env_of cfg).

Definition verify_superpriv : bool := negb capable.

Definition xlat_version : Z := Z.lor (Z.shiftl 3 24) (Z.lor (Z.shiftl 4 16) (Z.lor (Z.shiftl 0 8) 0)).

(** 'j', 'o', 'o', 'l', and 's' or 'n'. *)
Definition validate_version (hdr : request_hdr) : result unit :=
  if negb (bool_decide (rq_magic hdr = [106; 111; 111; 108])) then Err EINVAL
  else if rq_type hdr =? 115 then
    if negb siit then Err EINVAL else if xlat_version =? rq_version hdr then Ok tt else Err EINVAL
  else if rq_type hdr =? 110 then
    if siit then Err EINVAL else if xlat_version =? rq_version hdr then Ok tt else Err EINVAL
  else Err EINVAL.

(** [xlat_is_nat64() && !request->...quick], with the offset of [quick]. *)
Definition nat64_not_quick (off : nat) (request : bytes) : M jool bool :=
  if siit then mret false else quick ← load (ld_bool off request); mret (negb quick).

(** *** The IPv6 pool *)

Definition handle_pool6_display (nl_hdr : nlmsghdr) (request : bytes) : M jool Z :=
  display nl_hdr PlPool6 (fun buffer =>
    prefix ← load (set ← ld_bool 0 request; ld_if set (ld_prefix6 4) request);
    in_pool6 (pool6_for_each (nlbuffer_write NLBUFFER_SIZE 20) buffer prefix)).

(** [OP_REMOVE] reads [request->flush.quick], the first byte of the union. *)
Definition handle_pool6_config (nl_hdr : nlmsghdr) (op : option config_operation) (request : bytes) : M jool Z :=
  match op with
  | Some OP_DISPLAY => handle_pool6_display nl_hdr request
  | Some OP_COUNT => count ← in_pool6 pool6_count; respond_setcfg nl_hdr (PlCount count)
  | Some OP_ADD | Some OP_UPDATE =>
      if verify_superpriv then respond_error nl_hdr (- errno_code EPERM)
      else
        prefix ← load (ld_prefix6 0 request);
        ok ← j_kmalloc;
        error ← in_pool6 (pool6_add siit ok prefix);
        respond_code nl_hdr error
  | Some OP_REMOVE =>
      if verify_superpriv then respond_error nl_hdr (- errno_code EPERM)
      else
        prefix ← load (ld_prefix6 0 request);
        error ← in_pool6 (pool6_remove prefix);
        match error with
        | Err _ => respond_code nl_hdr error
        | Ok _ =>
            clear ← nat64_not_quick 0 request;
            (if clear : bool then in_world (on_db (sessiondb_delete_taddr6s prefix)) else mret tt);;
            respond_code nl_hdr error
        end
  | Some OP_FLUSH =>
      if verify_superpriv then respond_error nl_hdr (- errno_code EPERM)
      else
        ok ← j_kmalloc;
        error ← in_pool6 (pool6_flush ok);
        clear ← nat64_not_quick 0 request;
        (if clear : bool then in_world (on_db sessiondb_flush) else mret tt);;
        respond_code nl_hdr error
  | _ => respond_error nl_hdr (- errno_code EINVAL)
  end.

(** *** The IPv4 pool *)

Definition handle_pool4_display (nl_hdr : nlmsghdr) (request : bytes) : M jool Z :=
  display nl_hdr PlPool4 (fun buffer =>
    offset ← load (set ← ld_bool 0 request; ld_if set (ld_sample 4) request);
    j ← get;
    load (pool4db_foreach_sample (hash_32 c) (nlbuffer_write NLBUFFER_SIZE 16) (j_pool4 j) buffer offset)).

Definition handle_pool4_add (nl_hdr : nlmsghdr) (request : bytes) : M jool Z :=
  if verify_superpriv then respond_error nl_hdr (- errno_code EPERM)
  else
    mark ← load (ld_u32 0 request);
    proto ← load (ld_u8 4 request);
    addrs ← load (ld_prefix4 8 request);
    ports ← load (ld_range 16 request);
    error ← in_pool4 (fun al s => pool4db_add (hash_32 c) al s mark proto addrs ports);
    respond_code nl_hdr error.

Definition handle_pool4_rm (nl_hdr : nlmsghdr) (request : bytes) : M jool Z :=
  if verify_superpriv then respond_error nl_hdr (- errno_code EPERM)
  else
    mark ← load (ld_u32 0 request);
    proto ← load (ld_u8 4 request);
    addrs ← load (ld_prefix4 8 request);
    ports ← load (ld_range 16 request);
    error ← in_pool4 (fun al s => pool4db_rm (hash_32 c) al s mark proto addrs ports);
    clear ← nat64_not_quick 20 request;
    (if clear : bool then
       in_world (on_db (sessiondb_delete_taddr4s addrs ports));;
       in_world (on_b (bibdb_delete_taddr4s addrs ports))
     else mret tt);;
    respond_code nl_hdr error.

Definition handle_pool4_flush (nl_hdr : nlmsghdr) (request : bytes) : M jool Z :=
  if verify_superpriv then respond_error nl_hdr (- errno_code EPERM)
  else
    error ← in_pool4 pool4db_flush;
    clear ← nat64_not_quick 0 request;
    (if clear : bool then
       in_world (on_db sessiondb_flush);;
       in_world (on_b bibdb_flush)
     else mret tt);;
    respond_code nl_hdr error.

Definition handle_pool4_config (nl_hdr : nlmsghdr) (op : option config_operation) (request : bytes) : M jool Z :=
  if siit then mret (- errno_code EINVAL)
  else match op with
  | Some OP_DISPLAY => handle_pool4_display nl_hdr request
  | Some OP_COUNT =>
      j ← get;
      '(tables, (samples, taddrs)) ← load (pool4db_count (j_pool4 j));
      respond_setcfg nl_hdr (PlPool4Count tables samples taddrs)
  | Some OP_ADD => handle_pool4_add nl_hdr request
  | Some OP_REMOVE => handle_pool4_rm nl_hdr request
  | Some OP_FLUSH => handle_pool4_flush nl_hdr request
  | _ => respond_error nl_hdr (- errno_code EINVAL)
  end.

(** *** The BIB and the sessions *)

Definition j_bib (j : jool) : bib_db := st_bib (w_store (f_world (j_world j))).
Definition j_sessions (j : jool) : session_db := f_db (j_world j).

(** A callback that follows a pointer: the buffer is lost if the pointer is
    dangling. *)
Definition bib_entry_to_userspace (h : bib_heap) (entry : bib_entry) (arg : option (nl_buffer bib_entry_usr))
    : Z * option (nl_buffer bib_entry_usr) :=
  match arg, bib_vars_of h !! bib_loc entry with
  | Some buffer, Some v =>
      let '(error, buffer) := nlbuffer_write NLBUFFER_SIZE 32 (BibEntryUsr (bib_ipv4 entry) (bib_ipv6 entry) (is_static v)) buffer in
      (error, Some buffer)
  | _, _ => (1, None)
  end.

Definition handle_bib_display (nl_hdr : nlmsghdr) (request : bytes) : M jool Z :=
  display nl_hdr PlBib (fun buffer =>
    addr4 ← load (set ← ld_bool 4 request; ld_if set (ld_taddr4 8) request);
    proto ← load (ld_proto 0 request);
    j ← get;
    let '(error, buffer) := bibdb_foreach proto (bib_entry_to_userspace (bibs (j_bib j))) (Some buffer) addr4 (j_bib j) in
    buffer ← load buffer;
    mret (error, buffer)).

Definition handle_bib_config (nl_hdr : nlmsghdr) (op : option config_operation) (request : bytes) : M jool Z :=
  if siit then mret (- errno_code EINVAL)
  else match op with
  | Some OP_DISPLAY => handle_bib_display nl_hdr request
  | Some OP_COUNT =>
      proto ← load (ld_proto 0 request);
      j ← get;
      match bibdb_count proto (j_bib j) with
      | Err e => respond_error nl_hdr (- errno_code e)
      | Ok count => respond_setcfg nl_hdr (PlCount count)
      end
  | Some OP_ADD =>
      if verify_superpriv then respond_error nl_hdr (- errno_code EPERM)
      else
        proto ← load (ld_proto 0 request);
        addr6 ← load (ld_taddr6 4 request);
        addr4 ← load (ld_taddr4 24 request);
        j ← get;
        error ← in_world (add_static_route (config_of j) addr4 addr6 proto);
        respond_code nl_hdr error
  | Some OP_REMOVE =>
      if verify_superpriv then respond_error nl_hdr (- errno_code EPERM)
      else
        proto ← load (ld_proto 0 request);
        addr6 ← load (set ← ld_bool 4 request; ld_if set (ld_taddr6 8) request);
        addr4 ← load (set ← ld_bool 28 request; ld_if set (ld_taddr4 32) request);
        error ← in_world (delete_static_route addr6 addr4 proto);
        respond_code nl_hdr error
  | _ => respond_error nl_hdr (- errno_code EINVAL)
  end.

(** A timer is the one of the session's table. *)
Definition session_entry_to_userspace (e : env) (db : session_db) (h : session_heap) (entry : session_entry)
    (arg : option (nl_buffer session_entry_usr)) : Z * option (nl_buffer session_entry_usr) :=
  match arg, sessions_of h !! se_loc entry with
  | Some buffer, Some (_, v) =>
      match expirer v with
      | None => (- errno_code EINVAL, Some buffer)
      | Some k =>
          match sess_get_table (se_l4_proto entry) db with
          | None => (1, None)
          | Some table =>
              match get_timeout (get_timer k table) with
              | None => (- errno_code EINVAL, Some buffer)
              | Some timeout =>
                  let dying_time := u64 (update_time v + timeout e) in
                  let dying := if jiffies e <? dying_time then jiffies_to_msecs (u64 (dying_time - jiffies e)) else 0 in
                  let '(error, buffer) := nlbuffer_write NLBUFFER_SIZE 72
                    (SessionEntryUsr (remote6 entry) (local6 entry) (local4 entry) (remote4 entry) dying (state v)) buffer in
                  (error, Some buffer)
              end
          end
      end
  | _, _ => (1, None)
  end.

Definition handle_session_display (nl_hdr : nlmsghdr) (request : bytes) : M jool Z :=
  display nl_hdr PlSession (fun buffer =>
    set ← load (ld_bool 4 request);
    remote4 ← load (ld_if set (ld_taddr4 8) request);
    local4 ← load (ld_if set (ld_taddr4 16) request);
    proto ← load (ld_proto 0 request);
    e ← current_env;
    j ← get;
    let '(error, buffer) := sessiondb_foreach proto
      (session_entry_to_userspace e (j_sessions j) (st_sess (w_store (f_world (j_world j))))) (Some buffer) remote4 local4 (j_sessions j) in
    buffer ← load buffer;
    mret (error, buffer)).

Definition handle_session_config (nl_hdr : nlmsghdr) (op : option config_operation) (request : bytes) : M jool Z :=
  if siit then mret (- errno_code EINVAL)
  else match op with
  | Some OP_DISPLAY => handle_session_display nl_hdr request
  | Some OP_COUNT =>
      proto ← load (ld_proto 0 request);
      j ← get;
      match sessiondb_count proto (j_sessions j) with
      | Err e => respond_error nl_hdr (- errno_code e)
      | Ok count => respond_setcfg nl_hdr (PlCount count)
      end
  | _ => respond_error nl_hdr (- errno_code EINVAL)
  end.

(** *** The EAMT *)

Definition handle_eamt_display (nl_hdr : nlmsghdr) (request : bytes) : M jool Z :=
  display nl_hdr PlEamt (fun buffer =>
    prefix4 ← load (set ← ld_bool 0 request; ld_if set (ld_prefix4 4) request);
    in_eamt (eamt_foreach (nlbuffer_write NLBUFFER_SIZE 28) buffer prefix4)).

Definition handle_eamt_test (nl_hdr : nlmsghdr) (request : bytes) : M jool Z :=
  is_ipv6 ← load (ld_bool 0 request);
  if is_ipv6 : bool then
    addr6 ← load (ld_addr6 4 request);
    error ← in_eamt (eamt_xlat_6to4 addr6);
    match error with
    | Err e => respond_error nl_hdr (- errno_code e)
    | Ok addr4 => respond_setcfg nl_hdr (PlAddr4 addr4)
    end
  else
    addr4 ← load (ld_addr4 4 request);
    error ← in_eamt (eamt_xlat_4to6 addr4);
    match error with
    | Err e => respond_error nl_hdr (- errno_code e)
    | Ok addr6 => respond_setcfg nl_hdr (PlAddr6 addr6)
    end.

Definition handle_eamt_config (nl_hdr : nlmsghdr) (op : option config_operation) (request : bytes) : M jool Z :=
  if negb siit then mret (- errno_code EINVAL)
  else match op with
  | Some OP_DISPLAY => handle_eamt_display nl_hdr request
  | Some OP_COUNT => count ← in_eamt eamt_count; respond_setcfg nl_hdr (PlCount count)
  | Some OP_TEST => handle_eamt_test nl_hdr request
  | Some OP_ADD =>
      if verify_superpriv then respond_error nl_hdr (- errno_code EPERM)
      else
        prefix6 ← load (ld_prefix6 0 request);
        prefix4 ← load (ld_prefix4 20 request);
        force ← load (ld_bool 28 request);
        error ← in_eamt (eamt_add prefix6 prefix4 force);
        respond_code nl_hdr error
  | Some OP_REMOVE =>
      if verify_superpriv then respond_error nl_hdr (- errno_code EPERM)
      else
        prefix6 ← load (set ← ld_bool 0 request; ld_if set (ld_prefix6 4) request);
        prefix4 ← load (set ← ld_bool 24 request; ld_if set (ld_prefix4 28) request);
        error ← in_eamt (eamt_rm prefix6 prefix4);
        respond_code nl_hdr error
  | Some OP_FLUSH =>
      if verify_superpriv then respond_error nl_hdr (- errno_code EPERM)
      else in_eamt eamt_flush;; respond_error nl_hdr 0
  | _ => respond_error nl_hdr (- errno_code EINVAL)
  end.

(** *** The pools of the stateless translator *)

Definition handle_pool6791_display (nl_hdr : nlmsghdr) (request : bytes) : M jool Z :=
  display nl_hdr PlPool (fun buffer =>
    offset ← load (set ← ld_bool 0 request; ld_if set (ld_prefix4 4) request);
    in_pools (rfc6791_for_each (nlbuffer_write NLBUFFER_SIZE 8) buffer offset)).

Definition handle_rfc6791_config (nl_hdr : nlmsghdr) (op : option config_operation) (request : bytes) : M jool Z :=
  if negb siit then mret (- errno_code EINVAL)
  else match op with
  | Some OP_DISPLAY => handle_pool6791_display nl_hdr request
  | Some OP_COUNT => count ← in_pools rfc6791_count; respond_setcfg nl_hdr (PlCount count)
  | Some OP_ADD =>
      if verify_superpriv then respond_error nl_hdr (- errno_code EPERM)
      else addrs ← load (ld_prefix4 0 request); error ← in_pools (rfc6791_add addrs); respond_code nl_hdr error
  | Some OP_REMOVE =>
      if verify_superpriv then respond_error nl_hdr (- errno_code EPERM)
      else addrs ← load (ld_prefix4 0 request); error ← in_pools (rfc6791_rm addrs); respond_code nl_hdr error
  | Some OP_FLUSH =>
      if verify_superpriv then respond_error nl_hdr (- errno_code EPERM)
      else error ← in_pools rfc6791_flush; respond_code nl_hdr error
  | _ => respond_error nl_hdr (- errno_code EINVAL)
  end.

Definition handle_blacklist_display (nl_hdr : nlmsghdr) (request : bytes) : M jool Z :=
  display nl_hdr PlPool (fun buffer =>
    offset ← load (set ← ld_bool 0 request; ld_if set (ld_prefix4 4) request);
    in_pools (blacklist_for_each (nlbuffer_write NLBUFFER_SIZE 8) buffer offset)).

Definition handle_blacklist_config (nl_hdr : nlmsghdr) (op : option config_operation) (request : bytes) : M jool Z :=
  if negb siit then mret (- errno_code EINVAL)
  else match op with
  | Some OP_DISPLAY => handle_blacklist_display nl_hdr request
  | Some OP_COUNT => count ← in_pools blacklist_count; respond_setcfg nl_hdr (PlCount count)
  | Some OP_ADD =>
      if verify_superpriv then respond_error nl_hdr (- errno_code EPERM)
      else addrs ← load (ld_prefix4 0 request); error ← in_pools (blacklist_add addrs); respond_code nl_hdr error
  | Some OP_REMOVE =>
      if verify_superpriv then respond_error nl_hdr (- errno_code EPERM)
      else addrs ← load (ld_prefix4 0 request); error ← in_pools (blacklist_rm addrs); respond_code nl_hdr error
  | Some OP_FLUSH =>
      if verify_superpriv then respond_error nl_hdr (- errno_code EPERM)
      else error ← in_pools blacklist_flush; respond_code nl_hdr error
  | _ => respond_error nl_hdr (- errno_code EINVAL)
  end.

(** Without [BENCHMARK]. *)
Definition handle_logtime_config : M jool Z := mret (- errno_code EINVAL).

(** *** The configuration *)

(** The copy of the configuration is not freed, and the error code follows
    the configuration: [break] leads to [end]. *)
Definition handle_global_config (nl_hdr : nlmsghdr) (length : Z) (op : option config_operation) (request : bytes) : M jool Z :=
  error ←
    match op with
    | Some OP_DISPLAY =>
        response ← in_cfg config_clone;
        match response with
        | Err e => mret (- errno_code e)
        | Ok response =>
            empty6 ← in_pool6 pool6_is_empty;
            disabled ← (if negb siit then mret empty6
                        else if empty6 : bool then in_eamt eamt_is_empty else mret false);
            buffer ← in_cfg (serialize_global_config response disabled);
            match buffer with
            | Err e => mret (- errno_code e)
            | Ok (response, plateaus) => respond_setcfg nl_hdr (PlGlobal response plateaus)
            end
        end
    | Some OP_UPDATE =>
        if verify_superpriv then mret (- errno_code EPERM)
        else
          type ← load (ld_u8 0 request);
          error ← in_cfg (handle_global_update (type_of_num type) (u64 (length - Z.of_nat HDR_LEN - 1)) (drop 1 request));
          match error with
          | Err e => mret (- errno_code e)
          | Ok update =>
              (if update : bool then e ← current_env; in_world (on_db (sessiondb_update_timers e)) else mret tt);;
              mret 0
          end
    | _ => mret (- errno_code EINVAL)
    end;
  respond_error nl_hdr error.

(** *** Messages *)

(** [msg]: what follows the header of the Netlink message. *)
Definition handle_netlink_message (nl_hdr : nlmsghdr) (msg : bytes) : M jool Z :=
  if negb (nlmsg_type nl_hdr =? MSG_TYPE_JOOL) then mret (- errno_code EINVAL)
  else
    jool_hdr ← load (ld_hdr msg);
    match validate_version jool_hdr with
    | Err e => respond_error nl_hdr (- errno_code e)
    | Ok _ =>
        let request := drop HDR_LEN msg in
        let op := op_of_num (rq_operation jool_hdr) in
        match mode_of_num (rq_mode jool_hdr) with
        | Some MODE_POOL6 => handle_pool6_config nl_hdr op request
        | Some MODE_POOL4 => handle_pool4_config nl_hdr op request
        | Some MODE_BIB => handle_bib_config nl_hdr op request
        | Some MODE_SESSION => handle_session_config nl_hdr op request
        | Some MODE_EAMT => handle_eamt_config nl_hdr op request
        | Some MODE_RFC6791 => handle_rfc6791_config nl_hdr op request
        | Some MODE_BLACKLIST => handle_blacklist_config nl_hdr op request
        | Some MODE_LOGTIME => handle_logtime_config
        | Some MODE_GLOBAL => handle_global_config nl_hdr (rq_length jool_hdr) op request
        | None => respond_error nl_hdr (- errno_code EINVAL)
        end
    end.

End Handler.
