(* ===== verification/NlSpec.v ===== *)
(** * What the requests of the user do

    Which code of [NlHandler] only reads: the handlers, when the process has
    no [CAP_NET_ADMIN]. *)
From S2P Require Import Prelude Types Address Rfc6052 Pool6 Pool4Table Pool4Db RbTree BibTable BibDb PortAlloc.
From S2P Require Import Packet SessionEntry PktQueue SessionTable Tcp SessionSpec SessionDb Filtering FilteringSpec StaticRoutes Nat64.
From S2P Require Import Skb Rtrie RtrieOps Eam SiitPool Config ConfigSpec NlHandler.

(** ** Code that only reads *)

Create HintDb reads.

Definition reads {S A} (m : M S A) : Prop := forall s a s', m s = Some (a, s') -> s' = s.

Lemma reads_ret {S A} (a : A) : reads (S := S) (mret a).
Proof. intros s a' s' [= _ <-]. done. Qed.
Lemma reads_get {S} : reads (S := S) get.
Proof. intros s a' s' [= _ <-]. done. Qed.
Lemma reads_gets {S A} (f : S -> A) : reads (gets f).
Proof. intros s a' s' [= _ <-]. done. Qed.
Lemma reads_fault {S A} : reads (S := S) (fault (A := A)).
Proof. intros s a' s' [=]. Qed.
Lemma reads_load {S A} (o : option A) : reads (S := S) (load o).
Proof. intros s a' s'. unfold load. destruct o; intros [= _ <-]. done. Qed.
Lemma reads_bind {S A B} (m : M S A) (k : A -> M S B) : reads m -> (forall a, reads (k a)) -> reads (m ≫= k).
Proof.
  intros Hm Hk s b s'. unfold mbind, M_bind. destruct (m s) as [[a s1]|] eqn:E; [|done]. intros Hr.
  apply Hk in Hr as ->. eapply Hm. exact E.
Qed.
#[export] Hint Resolve reads_ret reads_get reads_gets reads_fault reads_load : reads.

(** Through binds and case analyses. *)
Ltac reads_tac := repeat (match goal with
  | |- reads (_ ≫= _) => apply reads_bind
  | |- forall _, _ => intros ?
  | |- reads (match ?x with _ => _ end) => destruct x
  | |- reads _ => progress eauto with reads
  end).

Lemma reads_deref {V} p : reads (deref (V := V) p).
Proof. unfold deref. reads_tac. Qed.
#[export] Hint Resolve reads_deref : reads.

Lemma reads_down {V} child key : reads (down (V := V) child key).
Proof. unfold down. reads_tac. Qed.
#[export] Hint Resolve reads_down : reads.

Lemma reads_find_loop {V} fuel : forall key white node last, reads (find_loop (V := V) fuel key white node last).
Proof. induction fuel as [|fuel IH]; intros key white node last; cbn [find_loop]; reads_tac. Qed.
#[export] Hint Resolve reads_find_loop : reads.

Lemma reads_rtrie_get {V} key : reads (rtrie_get (V := V) key).
Proof. unfold rtrie_get, find_longest_common_prefix. reads_tac. Qed.

Lemma reads_foreach_loop {V B} (cb : V -> B -> Z * B) l : forall offset arg, reads (foreach_loop cb l offset arg).
Proof. induction l as [|x l IH]; intros offset arg; cbn [foreach_loop]; reads_tac. Qed.
#[export] Hint Resolve reads_rtrie_get reads_foreach_loop : reads.

Lemma reads_on6 {A} (m : M (rtrie eamt_entry) A) : reads m -> reads (on6 m).
Proof. intros Hm t a t'. unfold on6. destruct (m (trie6 t)) as [[x s]|] eqn:E; intros [= _ <-]. rewrite (Hm _ _ _ E). apply eam_table_eta. Qed.
Lemma reads_on4 {A} (m : M (rtrie eamt_entry) A) : reads m -> reads (on4 m).
Proof. intros Hm t a t'. unfold on4. destruct (m (trie4 t)) as [[x s]|] eqn:E; intros [= _ <-]. rewrite (Hm _ _ _ E). apply eam_table_eta. Qed.
#[export] Hint Resolve reads_on6 reads_on4 : reads.

Lemma reads_eamt_foreach {B} (cb : eamt_entry -> B -> Z * B) arg offset : reads (eamt_foreach cb arg offset).
Proof. apply reads_on6. unfold rtrie_foreach. reads_tac. Qed.
Lemma reads_eamt_xlat64 a : reads (eamt_xlat_6to4 a).
Proof. unfold eamt_xlat_6to4. reads_tac. Qed.
Lemma reads_eamt_xlat46 a : reads (eamt_xlat_4to6 a).
Proof. unfold eamt_xlat_4to6. reads_tac. Qed.
Lemma reads_eamt_is_empty : reads eamt_is_empty.
Proof. apply reads_on6. unfold rtrie_is_empty. reads_tac. Qed.
#[export] Hint Resolve reads_eamt_foreach reads_eamt_xlat64 reads_eamt_xlat46 reads_eamt_is_empty : reads.

Lemma reads_read_list p : reads (read_list p).
Proof. unfold read_list. reads_tac. Qed.
#[export] Hint Resolve reads_read_list : reads.

Lemma reads_on_heap {A} (m : M pool_heap A) : reads m -> reads (SiitPool.on_heap m).
Proof. intros Hm s a s'. unfold SiitPool.on_heap. destruct (m (sp_heap s)) as [[x h]|] eqn:E; intros [= _ <-]. rewrite (Hm _ _ _ E). destruct s; done. Qed.
#[export] Hint Resolve reads_on_heap : reads.

Lemma reads_blacklist {A} (m : option positive -> M pool_heap A) : (forall p, reads (m p)) -> reads (blacklist m).
Proof. intros Hm. unfold blacklist. reads_tac. Qed.
Lemma reads_rfc6791 {A} (m : option positive -> M pool_heap A) : (forall p, reads (m p)) -> reads (rfc6791 m).
Proof. intros Hm. unfold rfc6791. reads_tac. Qed.
Lemma reads_pool_foreach {B} p (f : ipv4_prefix -> B -> Z * B) arg offset : reads (pool_foreach p f arg offset).
Proof. unfold pool_foreach. reads_tac. Qed.
Lemma reads_pool_count p : reads (pool_count p).
Proof. unfold pool_count. reads_tac. Qed.
#[export] Hint Resolve reads_blacklist reads_rfc6791 reads_pool_foreach reads_pool_count : reads.

Lemma reads_deref_pool : reads deref_pool.
Proof. intros s a s'. unfold deref_pool. destruct s; intros [= _ <-]. done. Qed.
#[export] Hint Resolve reads_deref_pool : reads.
Lemma reads_pool6_for_each {B} (f : ipv6_prefix -> B -> Z * B) arg offset : reads (pool6_for_each f arg offset).
Proof. unfold pool6_for_each. reads_tac. Qed.
Lemma reads_pool6_count : reads pool6_count.
Proof. unfold pool6_count. reads_tac. Qed.
Lemma reads_pool6_is_empty : reads pool6_is_empty.
Proof. unfold pool6_is_empty. reads_tac. Qed.
#[export] Hint Resolve reads_pool6_for_each reads_pool6_count reads_pool6_is_empty : reads.

(** ** The data *)

(** Every database is as it was, and so is the configuration with its array;
    the responses sent in between are to the process that asked. *)
Record same_data (nl_hdr : nlmsghdr) (j j' : jool) : Prop := SameData {
  same_pool6 : j_pool6 j' = j_pool6 j;
  same_pool4 : j_pool4 j' = j_pool4 j;
  same_world : j_world j' = j_world j;
  same_eamt : j_eamt j' = j_eamt j;
  same_pools : j_pools j' = j_pools j;
  same_config : cw_config (j_config j') = cw_config (j_config j);
  same_arrays : forall p, (p < cw_next (j_config j))%positive -> cw_arrays (j_config j') !! p = cw_arrays (j_config j) !! p;
  same_next : (cw_next (j_config j) <= cw_next (j_config j'))%positive;
  same_sent : exists new, j_sent j' = j_sent j ++ new /\
    Forall (fun r => rs_pid r = nlmsg_pid nl_hdr /\ rs_seq r = nlmsg_seq nl_hdr) new
}.

Lemma same_data_refl h j : same_data h j j.
Proof. split; try done. exists []. rewrite app_nil_r. done. Qed.

Lemma same_data_trans h j1 j2 j3 : same_data h j1 j2 -> same_data h j2 j3 -> same_data h j1 j3.
Proof.
  intros [] []. split; try congruence.
  - intros p Hp. rewrite same_arrays1, same_arrays0; [done|done|lia].
  - lia.
  - destruct same_sent0 as (n1 & E1 & F1), same_sent1 as (n2 & E2 & F2). exists (n1 ++ n2). rewrite E2, E1, app_assoc.
    split; [done|]. apply Forall_app. done.
Qed.

Section Keeps.
Context (h : nlmsghdr).

Definition keeps {A} (m : M jool A) : Prop := forall j a j', m j = Some (a, j') -> same_data h j j'.

Lemma keeps_reads {A} (m : M jool A) : reads m -> keeps m.
Proof. intros Hm j a j' E. rewrite (Hm _ _ _ E). apply same_data_refl. Qed.

Lemma keeps_bind {A B} (m : M jool A) (k : A -> M jool B) : keeps m -> (forall a, keeps (k a)) -> keeps (m ≫= k).
Proof.
  intros Hm Hk j b j'. unfold mbind, M_bind. destruct (m j) as [[a j1]|] eqn:E; [|done]. intros Hr.
  eapply same_data_trans; [eapply Hm; exact E|eapply Hk; exact Hr].
Qed.

Lemma reads_lift {S A} (get : jool -> S) set (m : M S A) : (forall j, set (get j) j = j) -> reads m -> reads (lift get set m).
Proof. intros Hs Hm j a j'. unfold lift. destruct (m (get j)) as [[x s]|] eqn:E; intros [= _ <-]. rewrite (Hm _ _ _ E). apply Hs. Qed.

Lemma keeps_kmalloc : keeps j_kmalloc.
Proof. intros j a j'. unfold j_kmalloc. destruct (kmalloc (j_allocs j)) as [ok al]. intros [= _ <-]. split; try done. exists []. rewrite app_nil_r. done. Qed.

Lemma keeps_respond type flags p : keeps (respond_msg h type flags p).
Proof.
  unfold respond_msg. apply keeps_bind; [apply keeps_kmalloc|]. intros ok. destruct (negb ok); [apply keeps_reads, reads_ret|].
  apply keeps_bind; [|intros res; destruct (res <? 0); apply keeps_reads, reads_ret].
  intros j a j'. unfold nlmsg_unicast. destruct (j_unicasts j) as [|res rest]; intros [= _ <-].
  - split; try done. exists [Response (nlmsg_pid h) (nlmsg_seq h) type flags p]. split; [done|]. apply Forall_singleton. done.
  - split; try done. cbn [set_sent j_sent]. destruct (res <? 0).
    + exists []. rewrite app_nil_r. done.
    + exists [Response (nlmsg_pid h) (nlmsg_seq h) type flags p]. split; [done|]. apply Forall_singleton. done.
Qed.

End Keeps.

Create HintDb keeps.
#[export] Hint Resolve keeps_kmalloc keeps_respond : keeps.

Lemma keeps_in_pool6 h {A} (m : M pool6_state A) : reads m -> keeps h (in_pool6 m).
Proof. intros Hm. apply keeps_reads, reads_lift; [by intros []|done]. Qed.
Lemma keeps_in_eamt h {A} (m : M eam_table A) : reads m -> keeps h (in_eamt m).
Proof. intros Hm. apply keeps_reads, reads_lift; [by intros []|done]. Qed.
Lemma keeps_in_pools h {A} (m : M siit_pools A) : reads m -> keeps h (in_pools m).
Proof. intros Hm. apply keeps_reads, reads_lift; [by intros []|done]. Qed.
Lemma keeps_in_cfg h {A} (m : M config_world A) : reads m -> keeps h (in_cfg m).
Proof. intros Hm. apply keeps_reads, reads_lift; [by intros []|done]. Qed.
#[export] Hint Resolve keeps_in_pool6 keeps_in_eamt keeps_in_pools keeps_in_cfg : keeps.
#[export] Hint Resolve keeps_reads : keeps.

(** The copies of the configuration are new arrays. *)
Definition clones {A} (m : M config_world A) : Prop := forall w a w', m w = Some (a, w') ->
  cw_config w' = cw_config w /\ (forall p, (p < cw_next w)%positive -> cw_arrays w' !! p = cw_arrays w !! p) /\ (cw_next w <= cw_next w')%positive.

Lemma keeps_clones h {A} (m : M config_world A) : clones m -> keeps h (in_cfg m).
Proof.
  intros Hm j a j'. unfold in_cfg, lift. destruct (m (j_config j)) as [[x w]|] eqn:E; intros [= _ <-].
  destruct (Hm _ _ _ E) as (H1 & H2 & H3). split; try done. exists []. rewrite app_nil_r. done.
Qed.

Lemma clones_bind {A B} (m : M config_world A) (k : A -> M config_world B) : clones m -> (forall a, clones (k a)) -> clones (m ≫= k).
Proof.
  intros Hm Hk w b w'. unfold mbind, M_bind. destruct (m w) as [[a w1]|] eqn:E; [|done]. intros Hr.
  destruct (Hm _ _ _ E) as (H1 & H2 & H3), (Hk _ _ _ _ Hr) as (H4 & H5 & H6).
  split_and!; [congruence| |lia]. intros p Hp. rewrite H5, H2 by lia. done.
Qed.

Lemma clones_reads {A} (m : M config_world A) : reads m -> clones m.
Proof. intros Hm w a w' E. rewrite (Hm _ _ _ E). done. Qed.

Lemma clones_alloc : clones cw_alloc.
Proof. intros w a w'. rewrite cw_alloc_run. intros [= _ <-]. done. Qed.

Lemma clones_new_array l : clones (new_array l).
Proof.
  intros w a w'. rewrite new_array_run. destruct (kmalloc (cw_allocs w)).1; intros [= _ <-]; cbn; [|done].
  split_and!; [done| |lia]. intros p Hp. rewrite lookup_insert_ne; [done|]. intros <-. lia.
Qed.

Lemma clones_clone : clones config_clone.
Proof.
  unfold config_clone. apply clones_bind; [apply clones_reads, reads_get|intros w]. apply clones_bind; [apply clones_reads, reads_load|intros tmp].
  apply clones_bind; [apply clones_reads, reads_load|intros p]. apply clones_bind; [apply clones_reads, reads_load|intros l].
  destruct (_ <? _); [apply clones_reads, reads_fault|]. apply clones_bind; [apply clones_new_array|].
  intros [q|]; apply clones_reads, reads_ret.
Qed.

Lemma clones_serialize {K : KernelLib} c pools_empty : clones (serialize_global_config c pools_empty).
Proof.
  unfold serialize_global_config. apply clones_bind; [apply clones_alloc|intros ok]. destruct (negb ok); [apply clones_reads, reads_ret|].
  apply clones_reads. reads_tac.
Qed.
#[export] Hint Resolve keeps_clones clones_clone clones_serialize : keeps.

(** Through binds and case analyses. *)
Ltac keeps_tac := repeat (match goal with
  | |- keeps _ (_ ≫= _) => apply keeps_bind
  | |- forall _, _ => intros ?
  | |- keeps _ (match ?x with _ => _ end) => destruct x
  | |- keeps _ _ => progress eauto with keeps reads
  | |- keeps _ _ => solve [apply keeps_reads; reads_tac | apply keeps_in_cfg; reads_tac]
  end).

Section Unprivileged.
Context {R : RbTree} {K : KernelLib} (siit : bool) (NLBUFFER_SIZE : Z) (c : config) (h : nlmsghdr).

Lemma keeps_display {A} (pl : list A -> payload) for_each : (forall b, keeps h (for_each b)) -> keeps h (display h pl for_each).
Proof. intros Hf. unfold display, nlbuffer_create, nlbuffer_close, respond_error, respond_single_msg. keeps_tac. Qed.
Hint Resolve keeps_display : keeps.

Lemma keeps_error e : keeps h (respond_error h e).
Proof. apply keeps_respond. Qed.
Lemma keeps_setcfg p : keeps h (respond_setcfg h p).
Proof. apply keeps_respond. Qed.
Hint Resolve keeps_error keeps_setcfg : keeps.

Lemma keeps_current_env : keeps h (current_env c).
Proof. unfold current_env, RCU_THINGY. keeps_tac. Qed.
Hint Resolve keeps_current_env : keeps.

Lemma keeps_pool6 op request : keeps h (handle_pool6_config siit false NLBUFFER_SIZE h op request).
Proof. unfold handle_pool6_config, handle_pool6_display. cbn [verify_superpriv negb]. destruct op as [[]|]; keeps_tac. apply keeps_display. keeps_tac. Qed.

Lemma keeps_pool4 op request : keeps h (handle_pool4_config siit false NLBUFFER_SIZE c h op request).
Proof.
  unfold handle_pool4_config, handle_pool4_add, handle_pool4_rm, handle_pool4_flush, handle_pool4_display. cbn [verify_superpriv negb].
  destruct siit; [keeps_tac|]. destruct op as [[]|]; keeps_tac. apply keeps_display. keeps_tac.
Qed.

Lemma keeps_bib op request : keeps h (handle_bib_config siit false NLBUFFER_SIZE c h op request).
Proof.
  unfold handle_bib_config, handle_bib_display. cbn [verify_superpriv negb].
  destruct siit; [keeps_tac|]. destruct op as [[]|]; keeps_tac. apply keeps_display. keeps_tac.
Qed.

Lemma keeps_session op request : keeps h (handle_session_config siit NLBUFFER_SIZE c h op request).
Proof.
  unfold handle_session_config, handle_session_display.
  destruct siit; [keeps_tac|]. destruct op as [[]|]; keeps_tac. apply keeps_display. keeps_tac.
Qed.

Lemma keeps_eamt op request : keeps h (handle_eamt_config siit false NLBUFFER_SIZE h op request).
Proof.
  unfold handle_eamt_config, handle_eamt_test, handle_eamt_display. cbn [verify_superpriv negb].
  destruct (negb siit); [keeps_tac|]. destruct op as [[]|]; keeps_tac. apply keeps_display. keeps_tac.
Qed.

Lemma keeps_rfc6791 op request : keeps h (handle_rfc6791_config siit false NLBUFFER_SIZE h op request).
Proof.
  unfold handle_rfc6791_config, handle_pool6791_display, rfc6791_for_each, rfc6791_count. cbn [verify_superpriv negb].
  destruct (negb siit); [keeps_tac|]. destruct op as [[]|]; keeps_tac. apply keeps_display. keeps_tac.
Qed.

Lemma keeps_blacklist op request : keeps h (handle_blacklist_config siit false NLBUFFER_SIZE h op request).
Proof.
  unfold handle_blacklist_config, handle_blacklist_display, blacklist_for_each, blacklist_count. cbn [verify_superpriv negb].
  destruct (negb siit); [keeps_tac|]. destruct op as [[]|]; keeps_tac. apply keeps_display. keeps_tac.
Qed.

Lemma keeps_global len op request : keeps h (handle_global_config siit false c h len op request).
Proof. unfold handle_global_config. cbn [verify_superpriv negb]. destruct op as [[]|]; keeps_tac. Qed.

End Unprivileged.
