(* ===== verification/NlClient.v ===== *)
(** * The userspace application

    [usr/common/target/pool6.c], [pool4.c], [bib.c], [session.c], [eam.c],
    [pool.c], [global.c] and [usr/common/netlink.c]: the requests the application writes and what it
    does with the responses, run against the kernel module of [NlHandler].
    The connections of libnl are taken to work.

    Bytes of a request the application does not write are 0 here.  What it
    prints is the list of the entries, in order. *)
From S2P Require Import Prelude Types Address Rfc6052 Pool6 Pool4Table Pool4Db RbTree BibTable BibDb PortAlloc.
From S2P Require Import Packet SessionEntry PktQueue SessionTable Tcp SessionSpec SessionDb Filtering FilteringSpec StaticRoutes Nat64.
From S2P Require Import Skb Checksum Rtrie RtrieOps Eam SiitPool Config ConfigSpec NlHandler NlSpec.

(** ** Structures as bytes *)

Fixpoint le_bytes (n : nat) (x : Z) : bytes := match n with O => [] | S n => bits x 0 8 :: le_bytes n (Z.shiftr x 8) end.

Definition padding (n : nat) : bytes := replicate n 0.

Definition st_addr4 (a : in_addr) : bytes := be_bytes 4 (s_addr a).
Definition st_addr6 (a : in6_addr) : bytes := be_bytes 16 (s6_addr a).
Definition st_prefix4 (p : ipv4_prefix) : bytes := st_addr4 (p4_address p) ++ [p4_len p] ++ padding 3.
Definition st_prefix6 (p : ipv6_prefix) : bytes := st_addr6 (p6_address p) ++ [p6_len p] ++ padding 3.
Definition st_taddr4 (a : ipv4_transport_addr) : bytes := st_addr4 (l3_4 a) ++ le_bytes 2 (l4_4 a) ++ padding 2.
Definition st_taddr6 (a : ipv6_transport_addr) : bytes := st_addr6 (l3_6 a) ++ le_bytes 2 (l4_6 a) ++ padding 2.
Definition st_range (r : port_range) : bytes := le_bytes 2 (r_min r) ++ le_bytes 2 (r_max r).
Definition st_proto (p : l4_protocol) : bytes :=
  [l4_num p].
Definition st_sample (s : pool4_sample) : bytes :=
  le_bytes 4 (sample_mark s) ++ [sample_proto s] ++ padding 3 ++ st_addr4 (sample_addr s) ++ st_range (sample_range s).

Definition mode_num (m : config_mode) : Z :=
  Z.shiftl 1 (match m with
              | MODE_GLOBAL => 0 | MODE_POOL6 => 1 | MODE_POOL4 => 2 | MODE_BLACKLIST => 8 | MODE_RFC6791 => 7 | MODE_EAMT => 6
              | MODE_BIB => 3 | MODE_SESSION => 4 | MODE_LOGTIME => 5
              end).
Definition op_num (o : config_operation) : Z :=
  Z.shiftl 1 (match o with
              | OP_DISPLAY => 0 | OP_COUNT => 1 | OP_ADD => 2 | OP_UPDATE => 3 | OP_REMOVE => 4 | OP_FLUSH => 5 | OP_TEST => 6
              end).

(** [init_request_hdr]. *)
Definition init_request_hdr (siit : bool) (length : Z) (mode : config_mode) (operation : config_operation) : bytes :=
  [106; 111; 111; 108; if negb siit then 110 else 115] ++ padding 3 ++ le_bytes 4 xlat_version ++ le_bytes 4 length
  ++ le_bytes 2 (mode_num mode) ++ [op_num operation] ++ padding 1.

(** The sizes of the unions. *)
Definition POOL6_LEN : Z := 24.
Definition POOL4_LEN : Z := 24.
Definition BIB_LEN : Z := 40.
Definition SESSION_LEN : Z := 24.
Definition POOL_LEN : Z := 12.
Definition EAMT_LEN : Z := 36.

(** ** Requests *)

(** [display_args] and [display_params]: what was printed, the rows, and the
    members of the request that say where the next chunk starts. *)
Record display_args (A O : Type) : Type := DisplayArgs {
  da_printed : list A;
  da_row_count : Z;
  da_set : bool;
  da_offset : O
}.
Arguments DisplayArgs {A O}.
Arguments da_printed {A O}.
Arguments da_row_count {A O}.
Arguments da_set {A O}.
Arguments da_offset {A O}.

Section Client.
Context {R : RbTree} {K : KernelLib} (siit capable : bool) (NLBUFFER_SIZE : Z) (c : config).
Context (pid : Z).

Definition request_bytes (len : Z) (mode : config_mode) (op : config_operation) (payload : bytes) : bytes :=
  init_request_hdr siit (Z.of_nat HDR_LEN + len) mode op ++ payload.

(** libnl gives an error to [error_handler], which prints it, and everything
    else, the error 0 (an acknowledgement) included, to the callback; either
    way, what [netlink_request] returns is 0. *)
Definition is_error_response (r : response) : bool :=
  (rs_type r =? NLMSG_ERROR) && match rs_payload r with PlError e => negb (e =? 0) | _ => true end.

Definition netlink_request {B} (request : bytes) (cb : response -> B -> B) (arg : B) : M jool B :=
  before ← gets (fun j => length (j_sent j));
  handle_netlink_message siit capable NLBUFFER_SIZE c (NlMsgHdr MSG_TYPE_JOOL 0 pid) request;;
  sent ← gets j_sent;
  mret (fold_left (fun arg r => if is_error_response r then arg else cb r arg) (drop before sent) arg).

(** Commands: the responses are the errors. *)
Definition command (request : bytes) : M jool (list Z) :=
  before ← gets (fun j => length (j_sent j));
  handle_netlink_message siit capable NLBUFFER_SIZE c (NlMsgHdr MSG_TYPE_JOOL 0 pid) request;;
  sent ← gets j_sent;
  mret (omap (fun r => match rs_payload r with PlError e => Some e | _ => None end) (drop before sent)).

(** What every display does with a chunk. *)
Definition display_response {A O} (entries : payload -> list A) (key : A -> O) (r : response) (args : display_args A O) : display_args A O :=
  let l := entries (rs_payload r) in
  DisplayArgs (da_printed args ++ l) (u32 (da_row_count args + Z.of_nat (length l))) (to_bool (Z.land (rs_flags r) NLM_F_MULTI))
    (match last l with Some x => key x | None => da_offset args end).

(** [do ... while (set)]; [None] when the fuel runs out. *)
Fixpoint display_loop {A O} (fuel : nat) (request : display_args A O -> bytes) (cb : response -> display_args A O -> display_args A O)
    (args : display_args A O) : M jool (option (display_args A O)) :=
  match fuel with
  | O => mret None
  | S fuel =>
      args ← netlink_request (request args) cb args;
      if da_set args : bool then display_loop fuel request cb args else mret (Some args)
  end.

(** The member of the request that says whether there is an offset is the
    bit of the flags. *)
Definition multi_num (set : bool) : Z := if set then NLM_F_MULTI else 0.

(** [pool6_count_response] and its likes: the counts that are printed. *)
Definition count_response (r : response) (printed : list Z) : list Z :=
  match rs_payload r with PlCount count => printed ++ [count] | _ => printed end.

(** A request that is only a header. *)
Definition count (mode : config_mode) : M jool (list Z) := netlink_request (request_bytes 0 mode OP_COUNT []) count_response [].

(** The protocols the user chose, in this order. *)
Definition each_proto {A} (tcp udp icmp : bool) (f : l4_protocol -> M jool A) : M jool (list (l4_protocol * A)) :=
  a ← if tcp then r ← f L4PROTO_TCP; mret [(L4PROTO_TCP, r)] else mret [];
  b ← if udp then r ← f L4PROTO_UDP; mret [(L4PROTO_UDP, r)] else mret [];
  d ← if icmp then r ← f L4PROTO_ICMP; mret [(L4PROTO_ICMP, r)] else mret [];
  mret (a ++ b ++ d).

(** *** pool6.c *)

Definition usr_pool6_count : M jool (list Z) := count MODE_POOL6.

Definition pool6_entries (p : payload) : list ipv6_prefix := match p with PlPool6 l => l | _ => [] end.

Definition pool6_display_request (args : display_args ipv6_prefix ipv6_prefix) : bytes :=
  request_bytes POOL6_LEN MODE_POOL6 OP_DISPLAY ([multi_num (da_set args)] ++ padding 3 ++ st_prefix6 (da_offset args)).

Definition pool6_display (fuel : nat) : M jool (option (display_args ipv6_prefix ipv6_prefix)) :=
  display_loop fuel pool6_display_request (display_response pool6_entries id) (DisplayArgs [] 0 false (Prefix6 (In6Addr 0) 0)).

Definition get_ubit (prefix : ipv6_prefix) : bool := to_bool (s6_addr8 (p6_address prefix) 8).

Definition usr_pool6_add (prefix : ipv6_prefix) (force : bool) : M jool (result (list Z)) :=
  if negb force && get_ubit prefix then mret (Err EINVAL)
  else r ← command (request_bytes POOL6_LEN MODE_POOL6 OP_ADD (st_prefix6 prefix ++ padding 4)); mret (Ok r).

Definition usr_pool6_remove (prefix : ipv6_prefix) (quick : bool) : M jool (list Z) :=
  command (request_bytes POOL6_LEN MODE_POOL6 OP_REMOVE (st_prefix6 prefix ++ [b2z quick] ++ padding 3)).

Definition usr_pool6_flush (quick : bool) : M jool (list Z) :=
  command (request_bytes POOL6_LEN MODE_POOL6 OP_FLUSH ([b2z quick] ++ padding 23)).

(** *** pool4.c *)

Definition usr_pool4_payload (mark : Z) (proto : l4_protocol) (addrs : ipv4_prefix) (ports : port_range) (quick : bool) : bytes :=
  le_bytes 4 mark ++ st_proto proto ++ padding 3 ++ st_prefix4 addrs ++ st_range ports ++ [b2z quick] ++ padding 3.

(** [__add] *)
Definition usr_pool4_add (mark : Z) (proto : l4_protocol) (addrs : ipv4_prefix) (ports : port_range) (force : bool) : M jool (result (list Z)) :=
  if (p4_len addrs <? 24) && negb force then mret (Err E2BIG)
  else r ← command (request_bytes POOL4_LEN MODE_POOL4 OP_ADD (usr_pool4_payload mark proto addrs ports false)); mret (Ok r).

(** [__rm] *)
Definition usr_pool4_rm (mark : Z) (proto : l4_protocol) (addrs : ipv4_prefix) (ports : port_range) (quick : bool) : M jool (list Z) :=
  command (request_bytes POOL4_LEN MODE_POOL4 OP_REMOVE (usr_pool4_payload mark proto addrs ports quick)).

Definition usr_pool4_flush (quick : bool) : M jool (list Z) :=
  command (request_bytes POOL4_LEN MODE_POOL4 OP_FLUSH ([b2z quick] ++ padding 23)).

Definition pool4_entries (p : payload) : list pool4_sample := match p with PlPool4 l => l | _ => [] end.

Definition pool4_display_request (args : display_args pool4_sample pool4_sample) : bytes :=
  request_bytes POOL4_LEN MODE_POOL4 OP_DISPLAY ([multi_num (da_set args)] ++ padding 3 ++ st_sample (da_offset args)).

Definition pool4_display (fuel : nat) : M jool (option (display_args pool4_sample pool4_sample)) :=
  display_loop fuel pool4_display_request (display_response pool4_entries id)
    (DisplayArgs [] 0 false (Pool4Sample 0 L4PROTO_TCP (InAddr 0) (PortRange 0 0))).

Definition pool4_count_response (r : response) (printed : list (Z * Z * Z)) : list (Z * Z * Z) :=
  match rs_payload r with PlPool4Count tables samples taddrs => printed ++ [(tables, samples, taddrs)] | _ => printed end.
Definition usr_pool4_count : M jool (list (Z * Z * Z)) := netlink_request (request_bytes 0 MODE_POOL4 OP_COUNT []) pool4_count_response [].

(** The command for each protocol; an error of any of them is [-EINVAL]. *)
Definition pool4_add (mark : Z) (tcp udp icmp : bool) (addrs : ipv4_prefix) (ports : port_range) (force : bool)
    : M jool (list Z * result unit) :=
  rs ← each_proto tcp udp icmp (fun proto => usr_pool4_add mark proto addrs ports force);
  mret (concat (map (fun x => match x.2 with Ok l => l | Err _ => [] end) rs),
        if forallb (fun x => is_ok x.2) rs then Ok tt else Err EINVAL).
Definition pool4_rm (mark : Z) (tcp udp icmp : bool) (addrs : ipv4_prefix) (ports : port_range) (quick : bool) : M jool (list Z) :=
  rs ← each_proto tcp udp icmp (fun proto => usr_pool4_rm mark proto addrs ports quick); mret (concat (map snd rs)).

(** *** bib.c *)

Definition bib_entries_of (p : payload) : list bib_entry_usr := match p with PlBib l => l | _ => [] end.

Definition bib_display_request (proto : l4_protocol) (args : display_args bib_entry_usr ipv4_transport_addr) : bytes :=
  request_bytes BIB_LEN MODE_BIB OP_DISPLAY
    (st_proto proto ++ padding 3 ++ [multi_num (da_set args)] ++ padding 3 ++ st_taddr4 (da_offset args) ++ padding 24).

(** [display_single_table] *)
Definition bib_display (fuel : nat) (proto : l4_protocol) : M jool (option (display_args bib_entry_usr ipv4_transport_addr)) :=
  display_loop fuel (bib_display_request proto) (display_response bib_entries_of bu_addr4) (DisplayArgs [] 0 false (TAddr4 (InAddr 0) 0)).

(** One protocol of [exec_request]. *)
Definition bib_add (proto : l4_protocol) (addr6 : ipv6_transport_addr) (addr4 : ipv4_transport_addr) : M jool (list Z) :=
  command (request_bytes BIB_LEN MODE_BIB OP_ADD (st_proto proto ++ padding 3 ++ st_taddr6 addr6 ++ st_taddr4 addr4 ++ padding 8)).

Definition bib_remove (proto : l4_protocol) (addr6 : option ipv6_transport_addr) (addr4 : option ipv4_transport_addr) : M jool (list Z) :=
  command (request_bytes BIB_LEN MODE_BIB OP_REMOVE
    (st_proto proto ++ padding 3
     ++ [b2z (bool_decide (is_Some addr6))] ++ padding 3 ++ st_taddr6 (default (TAddr6 (In6Addr 0) 0) addr6)
     ++ [b2z (bool_decide (is_Some addr4))] ++ padding 3 ++ st_taddr4 (default (TAddr4 (InAddr 0) 0) addr4))).

(** [display_single_count]; the structure is [struct request_session] in a
    buffer of the size of [struct request_bib]. *)
Definition bib_count1 (proto : l4_protocol) : M jool (list Z) :=
  netlink_request (request_bytes BIB_LEN MODE_BIB OP_COUNT (st_proto proto ++ padding 39)) count_response [].

(** *** session.c *)

Definition session_count1 (proto : l4_protocol) : M jool (list Z) :=
  netlink_request (request_bytes SESSION_LEN MODE_SESSION OP_COUNT (st_proto proto ++ padding 23)) count_response [].

Definition session_entries_of (p : payload) : list session_entry_usr := match p with PlSession l => l | _ => [] end.

Definition session_display_request (proto : l4_protocol) (args : display_args session_entry_usr (ipv4_transport_addr * ipv4_transport_addr)) : bytes :=
  request_bytes SESSION_LEN MODE_SESSION OP_DISPLAY
    (st_proto proto ++ padding 3 ++ [b2z (da_set args)] ++ padding 3 ++ st_taddr4 (da_offset args).1 ++ st_taddr4 (da_offset args).2).

(** [display_single_table]; the flags are compared with [NLM_F_MULTI]. *)
Definition session_display_response (r : response) (args : display_args session_entry_usr (ipv4_transport_addr * ipv4_transport_addr))
    : display_args session_entry_usr (ipv4_transport_addr * ipv4_transport_addr) :=
  let args := display_response session_entries_of (fun x => (su_remote4 x, su_local4 x)) r args in
  DisplayArgs (da_printed args) (da_row_count args) (rs_flags r =? NLM_F_MULTI) (da_offset args).

Definition session_display (fuel : nat) (proto : l4_protocol) : M jool (option (display_args session_entry_usr (ipv4_transport_addr * ipv4_transport_addr))) :=
  display_loop fuel (session_display_request proto) session_display_response
    (DisplayArgs [] 0 false (TAddr4 (InAddr 0) 0, TAddr4 (InAddr 0) 0)).

(** *** pool.c *)

Definition pool_entries (p : payload) : list ipv4_prefix := match p with PlPool l => l | _ => [] end.

Definition pool_display_request (mode : config_mode) (args : display_args ipv4_prefix ipv4_prefix) : bytes :=
  request_bytes POOL_LEN mode OP_DISPLAY ([multi_num (da_set args)] ++ padding 3 ++ st_prefix4 (da_offset args)).

Definition pool_display (fuel : nat) (mode : config_mode) : M jool (option (display_args ipv4_prefix ipv4_prefix)) :=
  display_loop fuel (pool_display_request mode) (display_response pool_entries id) (DisplayArgs [] 0 false (Prefix4 (InAddr 0) 0)).

Definition usr_pool_add (mode : config_mode) (addrs : ipv4_prefix) : M jool (list Z) :=
  command (request_bytes POOL_LEN mode OP_ADD (st_prefix4 addrs ++ padding 4)).
Definition usr_pool_rm (mode : config_mode) (addrs : ipv4_prefix) : M jool (list Z) :=
  command (request_bytes POOL_LEN mode OP_REMOVE (st_prefix4 addrs ++ padding 4)).
Definition usr_pool_flush (mode : config_mode) : M jool (list Z) :=
  command (request_bytes POOL_LEN mode OP_FLUSH (padding 12)).

Definition usr_pool_count (mode : config_mode) : M jool (list Z) := count mode.

(** *** eam.c *)

Definition eam_entries (p : payload) : list eamt_entry := match p with PlEamt l => l | _ => [] end.

Definition eam_display_request (args : display_args eamt_entry ipv4_prefix) : bytes :=
  request_bytes EAMT_LEN MODE_EAMT OP_DISPLAY ([multi_num (da_set args)] ++ padding 3 ++ st_prefix4 (da_offset args) ++ padding 24).

Definition eam_display (fuel : nat) : M jool (option (display_args eamt_entry ipv4_prefix)) :=
  display_loop fuel eam_display_request (display_response eam_entries e_prefix4) (DisplayArgs [] 0 false (Prefix4 (InAddr 0) 0)).

Definition eam_count : M jool (list Z) := count MODE_EAMT.

(** The address the other one is translated to. *)
Definition eam_test_response (is_ipv6 : bool) (r : response) (printed : list (in_addr + in6_addr)) : list (in_addr + in6_addr) :=
  match is_ipv6, rs_payload r with
  | true, PlAddr4 a => printed ++ [inl a]
  | false, PlAddr6 a => printed ++ [inr a]
  | _, _ => printed
  end.

Definition eam_test (addr6 : option in6_addr) (addr4 : option in_addr) : M jool (result (list (in_addr + in6_addr))) :=
  match addr6, addr4 with
  | Some _, Some _ => mret (Err EINVAL)
  | Some addr6, None =>
      r ← netlink_request (request_bytes EAMT_LEN MODE_EAMT OP_TEST ([b2z true] ++ padding 3 ++ st_addr6 addr6 ++ padding 16))
            (eam_test_response true) [];
      mret (Ok r)
  | None, Some addr4 =>
      r ← netlink_request (request_bytes EAMT_LEN MODE_EAMT OP_TEST ([b2z false] ++ padding 3 ++ st_addr4 addr4 ++ padding 28))
            (eam_test_response false) [];
      mret (Ok r)
  | None, None => mret (Err EINVAL)
  end.

Definition eam_add (prefix6 : ipv6_prefix) (prefix4 : ipv4_prefix) (force : bool) : M jool (list Z) :=
  command (request_bytes EAMT_LEN MODE_EAMT OP_ADD (st_prefix6 prefix6 ++ st_prefix4 prefix4 ++ [b2z force] ++ padding 7)).

Definition eam_remove (pref6_set : bool) (prefix6 : ipv6_prefix) (pref4_set : bool) (prefix4 : ipv4_prefix) : M jool (list Z) :=
  command (request_bytes EAMT_LEN MODE_EAMT OP_REMOVE
    ([b2z pref6_set] ++ padding 3 ++ st_prefix6 prefix6 ++ [b2z pref4_set] ++ padding 3 ++ st_prefix4 prefix4)).

Definition eam_flush : M jool (list Z) := command (request_bytes 0 MODE_EAMT OP_FLUSH []).

(** *** global.c *)

(** What the response says of the configuration. *)
Definition global_display_response (r : response) (printed : list (global_config * list Z)) : list (global_config * list Z) :=
  match rs_payload r with PlGlobal config plateaus => printed ++ [(config, plateaus)] | _ => printed end.
Definition global_display : M jool (list (global_config * list Z)) :=
  netlink_request (request_bytes 0 MODE_GLOBAL OP_DISPLAY []) global_display_response [].

Definition usr_global_update (type : Z) (data : bytes) : M jool (list Z) :=
  command (request_bytes (1 + blen data) MODE_GLOBAL OP_UPDATE ([type] ++ data)).

End Client.
