(* ===== verification/NlDisplay.v ===== *)
(** * The application and the module together

    What the requests of [NlClient] mean to the handlers of [NlHandler], and
    that a display, which is sent in chunks, shows the whole database. *)
From S2P Require Import Prelude Types Address Rfc6052 Pool6 Pool4Table Pool4Db RbTree BibTable BibDb PortAlloc.
From S2P Require Import Packet SessionEntry PktQueue SessionTable Tcp SessionSpec SessionDb Filtering FilteringSpec StaticRoutes Nat64.
From S2P Require Import Skb Checksum Rtrie RtrieOps Eam SiitPool Config ConfigSpec NlHandler NlSpec NlClient.

(** ** Bytes *)

Lemma bits_low x : bits x 0 8 = x mod 2 ^ 8.
Proof. unfold bits. rewrite Z.shiftr_0_r, Z.land_ones by lia. done. Qed.

Lemma le_num_bytes n : forall x, 0 <= x < 2 ^ (8 * Z.of_nat n) -> le_num (le_bytes n x) = x.
Proof.
  induction n as [|n IH]; intros x Hx; [simpl in *; lia|]. cbn [le_bytes le_num].
  replace (8 * Z.of_nat (S n)) with (8 + 8 * Z.of_nat n) in Hx by lia. rewrite Z.pow_add_r in Hx by lia.
  rewrite bits_low, Z.shiftr_div_pow2 by lia. rewrite IH.
  - rewrite Z.add_comm. change 256 with (2 ^ 8). symmetry. apply Z.div_mod. lia.
  - split; [apply Z.div_pos; lia|]. apply Z.div_lt_upper_bound; lia.
Qed.

Lemma be_num_bytes n : forall x acc, 0 <= x < 2 ^ (8 * Z.of_nat n) -> be_num (be_bytes n x) acc = acc * 2 ^ (8 * Z.of_nat n) + x.
Proof.
  assert (Hgen : forall x acc, 0 <= x -> be_num (be_bytes n x) acc = acc * 2 ^ (8 * Z.of_nat n) + x mod 2 ^ (8 * Z.of_nat n)).
  { induction n as [|n IH]; intros x acc Hx; [simpl; rewrite Z.mod_1_r; lia|]. cbn [be_bytes be_num]. rewrite IH by done.
    unfold bits. rewrite Z.land_ones, Z.shiftr_div_pow2 by lia.
    replace (8 * Z.of_nat (S n)) with (8 * Z.of_nat n + 8) by lia. rewrite Z.pow_add_r by lia.
    rewrite (Z.rem_mul_r x (2 ^ (8 * Z.of_nat n)) (2 ^ 8)) by lia. change (2 ^ 8) with 256. lia. }
  intros x acc Hx. rewrite Hgen by lia. rewrite Z.mod_small by lia. done.
Qed.

Lemma le_bytes_length n : forall x, length (le_bytes n x) = n.
Proof. induction n as [|n IH]; intros x; [done|]. cbn [le_bytes length]. rewrite IH. done. Qed.

(** Reading a member: what precedes it is skipped. *)
Lemma field_skip pre off n m : field (length pre + off) n (pre ++ m) = field off n m.
Proof.
  unfold field. rewrite length_app, drop_app_add'. 2: done.
  replace (length pre + off + n <=? length pre + length m)%nat with (off + n <=? length m)%nat; [done|].
  apply eq_true_iff_eq. rewrite !Nat.leb_le. lia.
Qed.

Lemma field_here b rest : field 0 (length b) (b ++ rest) = Some b.
Proof. unfold field. rewrite length_app. rewrite (proj2 (Nat.leb_le _ _)) by lia. rewrite drop_0, take_app_length. done. Qed.

Lemma field_at pre b rest : field (length pre) (length b) (pre ++ b ++ rest) = Some b.
Proof. rewrite <- (Nat.add_0_r (length pre)), field_skip. apply field_here. Qed.

Lemma ld_le_at pre n x rest : 0 <= x < 2 ^ (8 * Z.of_nat n) -> ld_le (length pre) n (pre ++ le_bytes n x ++ rest) = Some x.
Proof.
  intros Hx. unfold ld_le. pose proof (field_at pre (le_bytes n x) rest) as Hf. rewrite le_bytes_length in Hf. rewrite Hf.
  cbn. rewrite le_num_bytes by done. done.
Qed.

Lemma ld_u8_at pre x rest : is_u8 x -> ld_u8 (length pre) (pre ++ [x] ++ rest) = Some x.
Proof.
  intros Hx. unfold ld_u8, ld_le. change 1%nat with (length [x]). rewrite field_at. cbn. f_equal. lia.
Qed.

Lemma ld_bool_at pre x rest : ld_bool (length pre) (pre ++ [b2z x] ++ rest) = Some x.
Proof. unfold ld_bool. rewrite ld_u8_at by (destruct x; done). destruct x; done. Qed.

Lemma ld_bool_first x rest : ld_bool 0 ([b2z x] ++ rest) = Some x.
Proof. exact (ld_bool_at [] x rest). Qed.

Lemma ld_multi_at pre x rest : ld_bool (length pre) (pre ++ [multi_num x] ++ rest) = Some x.
Proof. unfold ld_bool. rewrite ld_u8_at by (destruct x; done). destruct x; done. Qed.

Lemma ld_multi_first x rest : ld_bool 0 ([multi_num x] ++ rest) = Some x.
Proof. exact (ld_multi_at [] x rest). Qed.

Lemma ld_addr4_at pre a rest : wf_addr4 a -> ld_addr4 (length pre) (pre ++ st_addr4 a ++ rest) = Some a.
Proof.
  intros Ha. unfold ld_addr4, st_addr4. pose proof (field_at pre (be_bytes 4 (s_addr a)) rest) as Hf. rewrite be_bytes_length in Hf.
  rewrite Hf. cbn [fmap option_fmap option_map]. rewrite be_num_bytes by exact Ha. destruct a. done.
Qed.

Lemma ld_addr6_at pre a rest : wf_addr6 a -> ld_addr6 (length pre) (pre ++ st_addr6 a ++ rest) = Some a.
Proof.
  intros Ha. unfold ld_addr6, st_addr6. pose proof (field_at pre (be_bytes 16 (s6_addr a)) rest) as Hf. rewrite be_bytes_length in Hf.
  rewrite Hf. cbn [fmap option_fmap option_map]. rewrite be_num_bytes by exact Ha. destruct a. done.
Qed.

Lemma st_addr4_length a : length (st_addr4 a) = 4%nat.
Proof. apply be_bytes_length. Qed.
Lemma st_addr6_length a : length (st_addr6 a) = 16%nat.
Proof. apply be_bytes_length. Qed.

(** An address and what follows it. *)
Lemma ld_prefix6_at pre p rest : wf_addr6 (p6_address p) -> is_u8 (p6_len p) -> ld_prefix6 (length pre) (pre ++ st_prefix6 p ++ rest) = Some p.
Proof.
  intros Ha Hl. unfold ld_prefix6, st_prefix6. rewrite <- !app_assoc, ld_addr6_at by done. cbn [mbind option_bind].
  rewrite (app_assoc pre). replace (length pre + 16)%nat with (length (pre ++ st_addr6 (p6_address p))) by (rewrite length_app, st_addr6_length; done).
  rewrite ld_u8_at by done. destruct p. done.
Qed.

Lemma ld_prefix6_first p rest : wf_addr6 (p6_address p) -> is_u8 (p6_len p) -> ld_prefix6 0 (st_prefix6 p ++ rest) = Some p.
Proof. exact (ld_prefix6_at [] p rest). Qed.

Lemma ld_prefix4_at pre p rest : wf_addr4 (p4_address p) -> is_u8 (p4_len p) -> ld_prefix4 (length pre) (pre ++ st_prefix4 p ++ rest) = Some p.
Proof.
  intros Ha Hl. unfold ld_prefix4, st_prefix4. rewrite <- !app_assoc, ld_addr4_at by done. cbn [mbind option_bind].
  rewrite (app_assoc pre). replace (length pre + 4)%nat with (length (pre ++ st_addr4 (p4_address p))) by (rewrite length_app, st_addr4_length; done).
  rewrite ld_u8_at by done. destruct p. done.
Qed.

Lemma ld_taddr4_at pre a rest : wf_taddr4 a -> ld_taddr4 (length pre) (pre ++ st_taddr4 a ++ rest) = Some a.
Proof.
  intros [Ha Hl]. unfold ld_taddr4, st_taddr4. rewrite <- !app_assoc, ld_addr4_at by done. cbn [mbind option_bind].
  rewrite (app_assoc pre). replace (length pre + 4)%nat with (length (pre ++ st_addr4 (l3_4 a))) by (rewrite length_app, st_addr4_length; done).
  unfold ld_u16. rewrite ld_le_at by exact Hl. destruct a. done.
Qed.

Lemma ld_taddr6_at pre a rest : wf_taddr6 a -> ld_taddr6 (length pre) (pre ++ st_taddr6 a ++ rest) = Some a.
Proof.
  intros [Ha Hl]. unfold ld_taddr6, st_taddr6. rewrite <- !app_assoc, ld_addr6_at by done. cbn [mbind option_bind].
  rewrite (app_assoc pre). replace (length pre + 16)%nat with (length (pre ++ st_addr6 (l3_6 a))) by (rewrite length_app, st_addr6_length; done).
  unfold ld_u16. rewrite ld_le_at by exact Hl. destruct a. done.
Qed.

Lemma ld_range_at pre r rest : wf_range r -> ld_range (length pre) (pre ++ st_range r ++ rest) = Some r.
Proof.
  intros [Ha Hb]. unfold ld_range, st_range, ld_u16. rewrite <- !app_assoc, ld_le_at by exact Ha. cbn [mbind option_bind].
  rewrite (app_assoc pre). replace (length pre + 2)%nat with (length (pre ++ le_bytes 2 (r_min r))) by (rewrite length_app, le_bytes_length; done).
  rewrite ld_le_at by exact Hb. destruct r. done.
Qed.

Lemma ld_proto_at pre p rest : ld_proto (length pre) (pre ++ st_proto p ++ rest) = Some p.
Proof. unfold ld_proto, st_proto. rewrite ld_u8_at by (destruct p; done). destruct p; done. Qed.

Lemma ld_proto_first p rest : ld_proto 0 (st_proto p ++ rest) = Some p.
Proof. exact (ld_proto_at [] p rest). Qed.

(** ** Dispatch *)

Section Dispatch.
Context {R : RbTree} {K : KernelLib} (siit capable : bool) (NLBUFFER_SIZE : Z) (c : config) (pid : Z).

Definition client_hdr : nlmsghdr := NlMsgHdr MSG_TYPE_JOOL 0 pid.

(** A request of the application of the same version reaches its handler. *)
Lemma dispatch len mode op payload j :
  handle_netlink_message siit capable NLBUFFER_SIZE c client_hdr (request_bytes siit len mode op payload) j =
  (match mode with
   | MODE_POOL6 => handle_pool6_config siit capable NLBUFFER_SIZE client_hdr (Some op) payload
   | MODE_POOL4 => handle_pool4_config siit capable NLBUFFER_SIZE c client_hdr (Some op) payload
   | MODE_BIB => handle_bib_config siit capable NLBUFFER_SIZE c client_hdr (Some op) payload
   | MODE_SESSION => handle_session_config siit NLBUFFER_SIZE c client_hdr (Some op) payload
   | MODE_EAMT => handle_eamt_config siit capable NLBUFFER_SIZE client_hdr (Some op) payload
   | MODE_RFC6791 => handle_rfc6791_config siit capable NLBUFFER_SIZE client_hdr (Some op) payload
   | MODE_BLACKLIST => handle_blacklist_config siit capable NLBUFFER_SIZE client_hdr (Some op) payload
   | MODE_LOGTIME => handle_logtime_config
   | MODE_GLOBAL => handle_global_config siit capable c client_hdr (le_num (le_bytes 4 (Z.of_nat HDR_LEN + len))) (Some op) payload
   end) j.
Proof. destruct siit, mode, op; reflexivity. Qed.

End Dispatch.

(** ** Chunks *)

Section Chunk.
Context (NLBUFFER_SIZE sz : Z) (Hsz : 0 < sz <= NLBUFFER_SIZE).

(** The entries that fit in a buffer. *)
Definition capacity : nat := Z.to_nat (NLBUFFER_SIZE / sz).

Lemma capacity_pos : (0 < capacity)%nat.
Proof. unfold capacity. assert (1 <= NLBUFFER_SIZE / sz) by (apply Z.div_le_lower_bound; lia). lia. Qed.

Lemma fits k : (NLBUFFER_SIZE <? sz * Z.of_nat k + sz) = negb (k <? capacity)%nat.
Proof.
  apply eq_true_iff_eq. rewrite Z.ltb_lt, negb_true_iff, Nat.ltb_ge. unfold capacity.
  pose proof (Z.mul_div_le NLBUFFER_SIZE sz ltac:(lia)). pose proof (Z.mul_succ_div_gt NLBUFFER_SIZE sz ltac:(lia)).
  pose proof (Z.div_pos NLBUFFER_SIZE sz ltac:(lia) ltac:(lia)). split; intros H'.
  - assert (NLBUFFER_SIZE / sz < Z.of_nat k + 1) by (apply Z.div_lt_upper_bound; lia). lia.
  - nia.
Qed.

Definition buffer_of {A} (l : list A) : nl_buffer A := NlBuffer l (sz * Z.of_nat (length l)).

Lemma write_run {A} (x : A) l : nlbuffer_write NLBUFFER_SIZE sz x (buffer_of l) =
  if (length l <? capacity)%nat then (0, buffer_of (l ++ [x])) else (1, buffer_of l).
Proof.
  unfold nlbuffer_write, buffer_of. cbn [nb_len nb_entries]. rewrite fits.
  destruct (Z.eqb_spec sz 0); [lia|]. destruct (Z.ltb_spec NLBUFFER_SIZE sz); [lia|].
  destruct (length l <? capacity)%nat; [|done]. cbn [negb]. rewrite length_app. simpl length. do 2 f_equal. lia.
Qed.

(** An iteration that writes fills the buffer, and says whether that was all. *)
Lemma chunk_run {A} (l : list A) : forall acc, (length acc <= capacity)%nat ->
  run_until (nlbuffer_write NLBUFFER_SIZE sz) l (buffer_of acc) =
  (b2z (negb (length l <=? capacity - length acc)%nat), buffer_of (acc ++ take (capacity - length acc) l)).
Proof.
  induction l as [|x l IH]; intros acc Hacc; cbn [run_until].
  - rewrite take_nil, app_nil_r. done.
  - rewrite write_run. destruct (Nat.ltb_spec (length acc) capacity) as [Hlt|Hge]; cbn [negb Z.eqb].
    + rewrite IH by (rewrite length_app; simpl; lia). rewrite length_app. cbn [length].
      replace (capacity - length acc)%nat with (S (capacity - (length acc + 1))) by lia. rewrite firstn_cons, <- app_assoc. done.
    + replace (capacity - length acc)%nat with O by lia. rewrite take_0, app_nil_r. done.
Qed.

Lemma first_chunk {A} (l : list A) : run_until (nlbuffer_write NLBUFFER_SIZE sz) l (NlBuffer [] 0) =
  (b2z (negb (length l <=? capacity)%nat), buffer_of (take capacity l)).
Proof.
  replace (NlBuffer (A := A) [] 0) with (buffer_of (A := A) []) by (unfold buffer_of; simpl; f_equal; lia).
  rewrite chunk_run by (simpl; lia). rewrite Nat.sub_0_r. done.
Qed.

End Chunk.

(** ** Sending with memory at hand *)

Definition ready (j : jool) : Prop := j_allocs j = [] /\ j_unicasts j = [].

Definition answered (j : jool) (r : response) : jool := set_sent [] (j_sent j ++ [r]) j.

Lemma ready_answered j r : ready j -> ready (answered j r).
Proof. intros [H1 H2]. done. Qed.

Lemma kmalloc_ready j : ready j -> j_kmalloc j = Some (true, j).
Proof. intros [H1 H2]. unfold j_kmalloc. rewrite H1. destruct j. cbn in *. subst. done. Qed.

Lemma respond_ready h t f p j : ready j -> respond_msg h t f p j = Some (0, answered j (Response (nlmsg_pid h) (nlmsg_seq h) t f p)).
Proof.
  intros Hj. unfold respond_msg. rewrite (bind_run _ _ _ _ _ (kmalloc_ready _ Hj)). cbn [negb].
  unfold nlmsg_unicast, mbind, M_bind. destruct Hj as [_ ->]. done.
Qed.

Lemma display_ready {A} h (pl : list A -> payload) for_each j l set : ready j ->
  (forall b, b = NlBuffer [] 0 -> exists len, for_each b j = Some ((b2z set, NlBuffer l len), j)) ->
  display h pl for_each j = Some (0, answered j (Response (nlmsg_pid h) (nlmsg_seq h) NLMSG_DONE (if set then NLM_F_MULTI else 0) (pl l))).
Proof.
  intros Hj Hf. destruct (Hf _ eq_refl) as [len Hrun]. unfold display, nlbuffer_create.
  assert (Hc : (ok ← j_kmalloc; mret (if ok : bool then Some (NlBuffer (A := A) [] 0) else None)) j = Some (Some (NlBuffer [] 0), j)).
  { rewrite (bind_run _ _ _ _ _ (kmalloc_ready _ Hj)). done. }
  rewrite (bind_run _ _ _ _ _ Hc), (bind_run _ _ _ _ _ Hrun). unfold nlbuffer_close. cbn [nb_entries].
  destruct set; cbn [b2z Z.leb Z.eqb negb Z.compare]; apply respond_ready; done.
Qed.

(** ** Displays *)

Section Paging.
Context {R : RbTree} {K : KernelLib} (siit capable : bool) (NLBUFFER_SIZE : Z) (c : config) (pid : Z) (j0 : jool).
Context {A O : Type} (key : A -> O) (l : list A) (n : nat) (Hn : (0 < n)%nat).
Context (request : display_args A O -> bytes) (cb : response -> display_args A O -> display_args A O).

(** Only the list of what was sent changes. *)
Definition still (j : jool) : Prop := exists sent, j = set_sent [] sent j0.

(** The application has printed [l1]. *)
Definition stands (args : display_args A O) (l1 : list A) : Prop :=
  da_printed args = l1 /\ da_row_count args = u32 (Z.of_nat (length l1)) /\
  match last l1 with None => da_set args = false | Some x => da_set args = true /\ da_offset args = key x end.

(** After a chunk. *)
Definition next_args (args : display_args A O) (l2 : list A) : display_args A O :=
  DisplayArgs (da_printed args ++ take n l2) (u32 (da_row_count args + Z.of_nat (length (take n l2)))) (negb (length l2 <=? n)%nat)
    (match last (take n l2) with Some x => key x | None => da_offset args end).

Context (Hstep : forall j args l1 l2, still j -> l = l1 ++ l2 -> stands args l1 ->
  exists j', netlink_request siit capable NLBUFFER_SIZE c pid (request args) cb args j = Some (next_args args l2, j') /\ still j').

Lemma loop_run fuel : forall j args l1 l2, still j -> l = l1 ++ l2 -> stands args l1 -> (length l2 < fuel)%nat ->
  exists args' j', display_loop siit capable NLBUFFER_SIZE c pid fuel request cb args j = Some (Some args', j') /\ still j' /\
    da_printed args' = l /\ da_row_count args' = u32 (Z.of_nat (length l)).
Proof.
  induction fuel as [|fuel IH]; intros j args l1 l2 Hj El Hs Hf; [lia|]. cbn [display_loop].
  destruct (Hstep j args l1 l2 Hj El Hs) as (j1 & Hrun & Hj1). rewrite (bind_run _ _ _ _ _ Hrun). cbn [next_args da_set].
  destruct Hs as (Hp & Hr & Hl).
  assert (Hrow : u32 (da_row_count args + Z.of_nat (length (take n l2))) = u32 (Z.of_nat (length (l1 ++ take n l2)))).
  { rewrite Hr, length_app, Nat2Z.inj_add. unfold u32. rewrite Zplus_mod_idemp_l. done. }
  destruct (Nat.leb_spec (length l2) n) as [Hle|Hgt]; cbn [negb].
  - eexists _, _. split; [reflexivity|]. split; [done|]. cbn [next_args da_printed da_row_count]. rewrite Hrow, Hp, take_ge by lia.
    rewrite <- El. done.
  - destruct (IH j1 (next_args args l2) (l1 ++ take n l2) (drop n l2)) as (args' & j' & Hloop & H'); [done| | | |].
    + rewrite <- app_assoc, take_drop. done.
    + split; [cbn; rewrite Hp; done|]. split; [exact Hrow|]. rewrite last_app. destruct (last (take n l2)) as [x|] eqn:Ex.
      * cbn [next_args da_set da_offset]. rewrite Ex. rewrite (proj2 (Nat.leb_gt (length l2) n) Hgt). done.
      * apply last_None in Ex. apply (f_equal length) in Ex. rewrite length_take in Ex. simpl in Ex. lia.
    + rewrite length_drop. lia.
    + exists args', j'. split; [exact Hloop|exact H'].
Qed.

End Paging.

Lemma still_refl j : ready j -> still j j.
Proof. intros [_ H]. exists (j_sent j). destruct j. cbn in *. subst. done. Qed.

Section Steps.
Context {R : RbTree} {K : KernelLib} (siit capable : bool) (NLBUFFER_SIZE : Z) (c : config) (pid : Z).

(** One request whose only response is a chunk. *)
Lemma request_run {B} len mode op payload (cb : response -> B -> B) arg j h flags pl :
  handle_netlink_message siit capable NLBUFFER_SIZE c (client_hdr pid) (request_bytes siit len mode op payload) j
    = Some (0, answered j (Response h 0 NLMSG_DONE flags pl)) ->
  netlink_request siit capable NLBUFFER_SIZE c pid (request_bytes siit len mode op payload) cb arg j
    = Some (cb (Response h 0 NLMSG_DONE flags pl) arg, answered j (Response h 0 NLMSG_DONE flags pl)).
Proof.
  intros Hrun. unfold netlink_request. unfold mbind, M_bind, gets. unfold client_hdr in Hrun. rewrite Hrun.
  unfold answered at 1. cbn [set_sent j_sent]. rewrite drop_app_length. done.
Qed.

(** What the callback makes of a chunk. *)
Lemma response_chunk {A O} (key : A -> O) (entries : payload -> list A) n h set l pl (args : display_args A O) :
  entries pl = take n l -> set = negb (length l <=? n)%nat ->
  display_response entries key (Response h 0 NLMSG_DONE (if set then NLM_F_MULTI else 0) pl) args = next_args key n args l.
Proof.
  intros He Hs. unfold display_response, next_args. cbn [rs_payload rs_flags]. rewrite He, <- Hs. destruct set; done.
Qed.

(** One round of a display: the iteration left [l2] to go. *)
Lemma chunk_step (j0 : jool) (Hj0 : ready j0) {A O} (key : A -> O) (entries : payload -> list A) (pl : list A -> payload) n
    (args : display_args A O) l2 j len mode op request for_each cb :
  still j0 j -> (forall x, entries (pl x) = x) ->
  (forall (set : bool) x, let r := Response pid 0 NLMSG_DONE (if set then NLM_F_MULTI else 0) (pl x) in cb r args = display_response entries key r args) ->
  handle_netlink_message siit capable NLBUFFER_SIZE c (client_hdr pid) (request_bytes siit len mode op request) j
    = display (client_hdr pid) pl for_each j ->
  (exists blen, for_each (NlBuffer [] 0) j = Some ((b2z (negb (length l2 <=? n)%nat), NlBuffer (take n l2) blen), j)) ->
  exists j', netlink_request siit capable NLBUFFER_SIZE c pid (request_bytes siit len mode op request) cb args j
    = Some (next_args key n args l2, j') /\ still j0 j'.
Proof.
  intros [sent ->] He Hcb Hdisp Hfor.
  assert (Hj : ready (set_sent [] sent j0)) by (destruct Hj0; done).
  pose proof (display_ready (client_hdr pid) pl for_each _ (take n l2) _ Hj ltac:(intros b ->; exact Hfor)) as Hd. rewrite <- Hdisp in Hd.
  rewrite (request_run _ _ _ _ _ _ _ _ _ _ Hd).
  eexists. split; [|eexists; reflexivity]. cbn [client_hdr nlmsg_pid nlmsg_seq]. rewrite Hcb. erewrite response_chunk; [reflexivity|apply He|reflexivity].
Qed.

End Steps.

(** *** The IPv6 pool *)

Lemma pool6_loop_all {B} (f : ipv6_prefix -> B -> Z * B) l : forall arg,
  pool6_loop f l None 0 arg = (None, (run_until f l arg).1, (run_until f l arg).2).
Proof.
  induction l as [|p l IH]; intros arg; cbn [pool6_loop run_until]; [done|]. destruct (f p arg) as [e arg'].
  destruct (Z.eqb_spec e 0) as [->|Hne]; cbn [negb]; [apply IH|done].
Qed.

Lemma after_offset_last l1 x l2 : NoDup (l1 ++ x :: l2) -> after_offset x (l1 ++ x :: l2) = Some l2.
Proof.
  induction l1 as [|y l1 IH]; cbn [app after_offset]; intros Hnd; [rewrite decide_True; done|].
  apply NoDup_cons in Hnd as [Hni Hnd]. rewrite decide_False; [auto|]. intros ->. apply Hni. set_solver.
Qed.

Lemma last_split {A} (l : list A) x : last l = Some x -> exists l', l = l' ++ [x].
Proof. intros Hl. apply last_Some in Hl. exact Hl. Qed.

Section Pool6.
Context {R : RbTree} {K : KernelLib} (siit capable : bool) (NLBUFFER_SIZE : Z) (c : config) (pid : Z) (j0 : jool).
Context (Hbuf : 20 <= NLBUFFER_SIZE) (Hj0 : ready j0) (l : list ipv6_prefix).
Context (Hpool : j_pool6 j0 = Some l) (Hinv : pool6_inv siit (Some l)).

Lemma pool6_prefix_wf p : p ∈ l -> wf_addr6 (p6_address p) /\ is_u8 (p6_len p).
Proof.
  intros Hp. destruct Hinv as (Hf & _). rewrite Forall_forall in Hf. destruct (Hf p Hp) as (Hlen & Hw & _). split; [done|].
  unfold rfc6052_len in Hlen. bool_to_prop. unfold is_u8. lia.
Qed.

(** The offset the module reads from the request. *)
Lemma pool6_offset args l1 l2 : l = l1 ++ l2 -> stands id args l1 ->
  (set ← ld_bool 0 ([multi_num (da_set args)] ++ padding 3 ++ st_prefix6 (da_offset args));
   ld_if set (ld_prefix6 4) ([multi_num (da_set args)] ++ padding 3 ++ st_prefix6 (da_offset args))) = Some (last l1).
Proof.
  intros El (_ & _ & Hl). rewrite ld_multi_first. cbn [mbind option_bind].
  destruct (last l1) as [x|] eqn:Ex; [|rewrite Hl; done]. destruct Hl as [-> ->].
  assert (Hx : x ∈ l) by (apply last_split in Ex as [l' ->]; set_solver).
  destruct (pool6_prefix_wf x Hx) as [Hw Hu]. pose proof (ld_prefix6_at ([multi_num true] ++ padding 3) x [] Hw Hu) as Hp.
  rewrite app_nil_r, <- app_assoc in Hp. change (length ([multi_num true] ++ padding 3)) with 4%nat in Hp. cbn [ld_if]. unfold id. rewrite Hp. done.
Qed.

Lemma pool6_step j args l1 l2 : still j0 j -> l = l1 ++ l2 -> stands id args l1 ->
  exists j', netlink_request siit capable NLBUFFER_SIZE c pid (pool6_display_request siit args) (display_response pool6_entries id) args j
    = Some (next_args id (capacity NLBUFFER_SIZE 20) args l2, j') /\ still j0 j'.
Proof.
  intros Hj El Hs. eapply (chunk_step siit capable NLBUFFER_SIZE c pid j0 Hj0 id pool6_entries PlPool6 _ args l2 j _ _ _ _ _ _ Hj);
    [done|done|rewrite dispatch; unfold handle_pool6_config, handle_pool6_display; reflexivity|].
  rewrite (pool6_offset args l1 l2 El Hs), some_bind. destruct Hj as [sent ->].
  unfold in_pool6, lift. cbn [set_sent j_pool6]. rewrite Hpool. unfold pool6_for_each, deref_pool, mbind, M_bind.
  assert (Hloop : pool6_loop (nlbuffer_write NLBUFFER_SIZE 20) l (last l1) 0 (NlBuffer [] 0) =
    (None, b2z (negb (length l2 <=? capacity NLBUFFER_SIZE 20)%nat), buffer_of 20 (take (capacity NLBUFFER_SIZE 20) l2))).
  { pose proof (first_chunk NLBUFFER_SIZE 20 ltac:(lia) l2) as Hc. destruct Hinv as (_ & Hnd & _).
    destruct (last l1) as [x|] eqn:Ex.
    - apply last_split in Ex as [l' ->]. rewrite <- app_assoc in El. cbn [app] in El. rewrite pool6_loop_offset, El, after_offset_last by congruence.
      rewrite pool6_loop_all, Hc. done.
    - apply last_None in Ex. subst l1. cbn [app] in El. rewrite El, pool6_loop_all, Hc. done. }
  rewrite Hloop. eexists. rewrite <- Hpool. destruct j0. reflexivity.
Qed.

Lemma pool6_display_run : exists args j', pool6_display siit capable NLBUFFER_SIZE c pid (S (length l)) j0 = Some (Some args, j') /\
  still j0 j' /\ da_printed args = l /\ da_row_count args = u32 (Z.of_nat (length l)).
Proof.
  unfold pool6_display.
  apply (loop_run siit capable NLBUFFER_SIZE c pid j0 id l (capacity NLBUFFER_SIZE 20) (capacity_pos NLBUFFER_SIZE 20 ltac:(lia)) _ _ pool6_step _ _ _ [] l);
    [apply still_refl; done|done|done|lia].
Qed.

End Pool6.

(** *** The pools of the stateless translator *)

Lemma pool_ok_nodup l : pool_ok l -> NoDup l.
Proof.
  induction l as [|p l IH]; [constructor|]. intros (_ & Hd & Hl). apply NoDup_cons. split; [|auto].
  intros Hp. specialize (Hd p Hp). unfold prefix4_intersects, prefix4_contains in Hd. rewrite Z.eqb_refl in Hd. done.
Qed.

Section Pools.
Context {R : RbTree} {K : KernelLib} (capable : bool) (NLBUFFER_SIZE : Z) (c : config) (pid : Z) (j0 : jool).
Context (Hbuf : 8 <= NLBUFFER_SIZE) (Hj0 : ready j0) (rfc : bool) (p : positive) (l : list ipv4_prefix).
Context (Hp : (if rfc then sp_rfc6791 else sp_blacklist) (j_pools j0) = Some p).
Context (Hlist : ph_lists (sp_heap (j_pools j0)) !! p = Some l) (Hok : pool_ok l).

Definition pool_mode : config_mode := if rfc then MODE_RFC6791 else MODE_BLACKLIST.

Lemma pool_prefix_wf x : x ∈ l -> wf_addr4 (p4_address x) /\ is_u8 (p4_len x).
Proof. intros Hx. destruct (pool_ok_elem _ _ Hok Hx) as [(Hlen & Hw) _]. split; [done|]. unfold is_u8. lia. Qed.

Lemma pool_offset args l1 l2 : l = l1 ++ l2 -> stands id args l1 ->
  (set ← ld_bool 0 ([multi_num (da_set args)] ++ padding 3 ++ st_prefix4 (da_offset args));
   ld_if set (ld_prefix4 4) ([multi_num (da_set args)] ++ padding 3 ++ st_prefix4 (da_offset args))) = Some (last l1).
Proof.
  intros El (_ & _ & Hl). rewrite ld_multi_first. cbn [mbind option_bind].
  destruct (last l1) as [x|] eqn:Ex; [|rewrite Hl; done]. destruct Hl as [-> ->].
  assert (Hx : x ∈ l) by (apply last_split in Ex as [l' ->]; set_solver).
  destruct (pool_prefix_wf x Hx) as [Hw Hu]. pose proof (ld_prefix4_at ([multi_num true] ++ padding 3) x [] Hw Hu) as Hr.
  rewrite app_nil_r, <- app_assoc in Hr. change (length ([multi_num true] ++ padding 3)) with 4%nat in Hr. cbn [ld_if]. unfold id. rewrite Hr. done.
Qed.

Lemma pool_foreach_run l1 l2 : l = l1 ++ l2 ->
  pool_foreach (Some p) (nlbuffer_write NLBUFFER_SIZE 8) (NlBuffer [] 0) (last l1) (sp_heap (j_pools j0)) =
  Some (b2z (negb (length l2 <=? capacity NLBUFFER_SIZE 8)%nat), buffer_of 8 (take (capacity NLBUFFER_SIZE 8) l2), sp_heap (j_pools j0)).
Proof.
  intros El. unfold pool_foreach. rewrite (bind_run _ _ _ _ _ (read_run _ _ _ Hlist)).
  pose proof (first_chunk NLBUFFER_SIZE 8 ltac:(lia) l2) as Hc. pose proof (pool_ok_nodup _ Hok) as Hnd.
  destruct (last l1) as [x|] eqn:Ex.
  - apply last_split in Ex as [l' ->]. rewrite <- app_assoc in El. cbn [app] in El.
    rewrite El, foreach_after, foreach_all, Hc; [done|]. rewrite El in Hnd. apply NoDup_app in Hnd as (_ & Hd & _).
    intros Hx. apply (Hd x Hx). left.
  - apply last_None in Ex. subst l1. cbn [app] in El. rewrite El, foreach_all, Hc. done.
Qed.

Lemma pool_step j args l1 l2 : still j0 j -> l = l1 ++ l2 -> stands id args l1 ->
  exists j', netlink_request true capable NLBUFFER_SIZE c pid (pool_display_request true pool_mode args) (display_response pool_entries id) args j
    = Some (next_args id (capacity NLBUFFER_SIZE 8) args l2, j') /\ still j0 j'.
Proof.
  intros Hj El Hs. pose proof (pool_foreach_run l1 l2 El) as Hrun. pose proof (pool_offset args l1 l2 El Hs) as Ho.
  unfold pool_display_request, pool_mode.
  destruct rfc; eapply (chunk_step true capable NLBUFFER_SIZE c pid j0 Hj0 id pool_entries PlPool _ args l2 j _ _ _ _ _ _ Hj);
    [done|done|rewrite dispatch; unfold handle_rfc6791_config, handle_pool6791_display; reflexivity|
    |done|done|rewrite dispatch; unfold handle_blacklist_config, handle_blacklist_display; reflexivity|].
  all: rewrite Ho, some_bind; destruct Hj as [sent ->].
  all: unfold in_pools, lift, rfc6791_for_each, blacklist_for_each, rfc6791, blacklist, SiitPool.on_heap, mbind, M_bind, get; cbn [set_sent j_pools].
  all: rewrite Hp, Hrun; eexists; destruct j0 as [? ? ? ? [] ? ? ? ?]; cbn in *; rewrite <- Hp; reflexivity.
Qed.

Lemma pool_display_run : exists args j', pool_display true capable NLBUFFER_SIZE c pid (S (length l)) pool_mode j0 = Some (Some args, j') /\
  still j0 j' /\ da_printed args = l /\ da_row_count args = u32 (Z.of_nat (length l)).
Proof.
  unfold pool_display.
  apply (loop_run true capable NLBUFFER_SIZE c pid j0 id l (capacity NLBUFFER_SIZE 8) (capacity_pos NLBUFFER_SIZE 8 ltac:(lia)) _ _ pool_step _ _ _ [] l);
    [apply still_refl; done|done|done|lia].
Qed.

End Pools.

(** *** The BIB and the sessions *)

(** The nodes after one of a sorted tree. *)
Lemma start_after {A Key} `{EqDecision A} (cmp : A -> Key -> Z) (f : A -> Z) (t : tree A) k z x l1 l2 :
  (forall y, y ∈ inorder t -> Z.sgn (cmp y k) = Z.sgn (f y - z)) -> sorted_by f (inorder t) -> inorder t = l1 ++ x :: l2 -> f x = z ->
  find_starting_point cmp t (Some k) false = l2.
Proof.
  intros Hc Hs E Hx. rewrite find_starting_point_spec.
  - rewrite E in *. apply sorted_by_app in Hs as (_ & Hs2 & H12). apply StronglySorted_inv in Hs2 as [_ H2].
    rewrite (cons_middle x l1 l2), app_assoc, List.filter_app, filter_none, filter_full; [done| |].
    + rewrite Forall_forall in H2 |- *. intros y Hy. unfold past_offset. apply Z.ltb_lt. specialize (H2 y Hy). cbn in H2.
      pose proof (Hc y ltac:(set_solver)) as Hy'. destruct (Z.sgn_spec (f y - z)) as [[? ?]|[[? ?]|[? ?]]]; [|lia|lia].
      destruct (Z.sgn_spec (cmp y k)) as [[? ?]|[[? ?]|[? ?]]]; lia.
    + rewrite Forall_forall. intros y Hy. unfold past_offset. apply Z.ltb_ge.
      assert (f y <= z) by (apply elem_of_app in Hy as [Hy|Hy%list_elem_of_singleton]; [specialize (H12 y x Hy ltac:(left)); lia|subst y; lia]).
      pose proof (Hc y ltac:(set_solver)) as Hy'. destruct (Z.sgn_spec (f y - z)) as [[? ?]|[[? ?]|[? ?]]]; [lia| |];
        destruct (Z.sgn_spec (cmp y k)) as [[? ?]|[[? ?]|[? ?]]]; lia.
  - eapply sorted_by_NoDup. exact Hs.
  - eapply sorted_by_sign; [exact Hc|exact Hs].
  - intros a b Ha Hb Za Zb. apply (sorted_by_inj f (inorder t)); [done..|]. pose proof (Hc a Ha) as H1. pose proof (Hc b Hb) as H2.
    rewrite Za in H1. rewrite Zb in H2. cbn in H1, H2. symmetry in H1, H2. apply Z.sgn_null_iff in H1, H2. lia.
Qed.

(** A callback that writes what it makes of an entry. *)
Lemma run_until_map {A B C} (cb : A -> option C -> Z * option C) (w : B -> C -> Z * C) (f : A -> B) es : forall b,
  (forall x b, x ∈ es -> cb x (Some b) = let '(e, b') := w (f x) b in (e, Some b')) ->
  run_until cb es (Some b) = ((run_until w (f <$> es) b).1, Some (run_until w (f <$> es) b).2).
Proof.
  induction es as [|x es IH]; intros b Hcb; [done|]. rewrite fmap_cons. cbn [run_until]. rewrite Hcb by left. destruct (w (f x) b) as [e b'].
  destruct (negb (e =? 0)); [done|]. apply IH. intros y b1 Hy. apply Hcb. right. done.
Qed.

Lemma fmap_split {A B} (f : A -> B) es l1 l2 : f <$> es = l1 ++ l2 -> exists es1 es2, es = es1 ++ es2 /\ l1 = f <$> es1 /\ l2 = f <$> es2.
Proof. intros E. apply fmap_app_inv in E as (es1 & es2 & -> & -> & ->). eauto. Qed.

Section Nat64.
Context {R : RbTree} {K : KernelLib} (capable : bool) (NLBUFFER_SIZE : Z) (c : config) (pid : Z) (j0 : jool).
Context (Hj0 : ready j0) (Hinv : nat64_inv (j_world j0)) (proto : l4_protocol) (Hproto : proto <> L4PROTO_OTHER).

Section Bib.
Context (Hbuf : 32 <= NLBUFFER_SIZE).

Definition bib_usr (b : bib_entry) : bib_entry_usr :=
  BibEntryUsr (bib_ipv4 b) (bib_ipv6 b) (match bib_vars_of (bibs (j_bib j0)) !! bib_loc b with Some v => is_static v | None => false end).

Lemma bib_table_here : exists t, bib_get_table proto (j_bib j0) = Some t /\ bib_table_inv proto t /\
  forall b, b ∈ bib_entries t -> exists v, bib_vars_of (bibs (j_bib j0)) !! bib_loc b = Some v.
Proof.
  destruct Hinv as (_ & ((Hst & _) & _) & _). destruct Hst as (Hb' & _).
  assert (Hb : exists refs, bib_db_inv refs (j_bib j0)) by (eexists; exact Hb'). clear Hb'. destruct Hb as [refs Hb].
  assert (Ht : exists t, bib_get_table proto (j_bib j0) = Some t) by (destruct proto; cbn; eauto; done). destruct Ht as [t Ht].
  exists t. split; [done|]. split; [eapply bib_table_of_inv; [exact Hb|done]|]. intros b Hin. destruct Hb as (_ & _ & _ & _ & Hall & _).
  destruct (Hall b) as (v & Hv & _); [|eauto].
  apply (bib_of_proto_all proto). unfold bib_of_proto. rewrite Ht. done.
Qed.

Definition bib_list : list bib_entry_usr := bib_usr <$> bib_of_proto proto (j_bib j0).

Lemma bib_offset args l1 l2 : bib_list = l1 ++ l2 -> stands bu_addr4 args l1 ->
  (set ← ld_bool 4 (st_proto proto ++ padding 3 ++ [multi_num (da_set args)] ++ padding 3 ++ st_taddr4 (da_offset args) ++ padding 24);
   ld_if set (ld_taddr4 8) (st_proto proto ++ padding 3 ++ [multi_num (da_set args)] ++ padding 3 ++ st_taddr4 (da_offset args) ++ padding 24))
  = Some (bu_addr4 <$> last l1).
Proof.
  intros El (_ & _ & Hl). pose proof (ld_multi_at (st_proto proto ++ padding 3) (da_set args) (padding 3 ++ st_taddr4 (da_offset args) ++ padding 24)) as Hb.
  rewrite <- app_assoc in Hb. change (length (st_proto proto ++ padding 3)) with 4%nat in Hb. rewrite Hb. cbn [mbind option_bind].
  destruct (last l1) as [x|] eqn:Ex; [|rewrite Hl; done]. destruct Hl as [-> ->].
  assert (Hw : wf_taddr4 (bu_addr4 x)).
  { destruct bib_table_here as (t & Ht & (_ & _ & _ & _ & Hwf & _) & _). apply last_split in Ex as [l' ->].
    assert (Hx : x ∈ bib_list) by (rewrite El; set_solver). unfold bib_list, bib_of_proto in Hx. rewrite Ht in Hx.
    apply list_elem_of_fmap in Hx as (b & -> & Hin). rewrite Forall_forall in Hwf. apply (Hwf b Hin). }
  pose proof (ld_taddr4_at (st_proto proto ++ padding 3 ++ [multi_num true] ++ padding 3) (bu_addr4 x) (padding 24) Hw) as Hr.
  rewrite <- !app_assoc in Hr. change (length (st_proto proto ++ padding 3 ++ [multi_num true] ++ padding 3)) with 8%nat in Hr.
  cbn [ld_if]. rewrite Hr. done.
Qed.

Lemma bib_foreach_run l1 l2 : bib_list = l1 ++ l2 ->
  bibdb_foreach proto (bib_entry_to_userspace NLBUFFER_SIZE (bibs (j_bib j0))) (Some (NlBuffer [] 0)) (bu_addr4 <$> last l1) (j_bib j0) =
  (b2z (negb (length l2 <=? capacity NLBUFFER_SIZE 32)%nat), Some (buffer_of 32 (take (capacity NLBUFFER_SIZE 32) l2))).
Proof.
  destruct bib_table_here as (t & Ht & Hi & Hall). unfold bib_list, bib_of_proto, bibdb_foreach, bibtable_foreach. rewrite Ht.
  intros El. apply fmap_split in El as (es1 & es2 & E & -> & ->).
  assert (Hstart : find_starting_point bib_compare_full4 (bib_tree4 t) (bu_addr4 <$> last (bib_usr <$> es1)) false = es2).
  { pose proof Hi as (S4 & _ & _ & _ & Hw & _). rewrite fmap_last. destruct (last es1) as [x|] eqn:Ex.
    - apply last_split in Ex as [es ->]. rewrite <- app_assoc in E. cbn [app] in E. cbn [fmap option_fmap option_map bu_addr4 bib_usr].
      assert (Hx : x ∈ bib_entries t) by (rewrite E; set_solver).
      eapply (start_after bib_compare_full4 (fun b => taddr4_key (bib_ipv4 b))); [|exact S4|exact E|reflexivity].
      apply (bib_cmp4 proto t); [done|]. rewrite Forall_forall in Hw. apply (Hw x Hx).
    - apply last_None in Ex. subst es1. exact E. }
  rewrite Hstart, (run_until_map _ (nlbuffer_write NLBUFFER_SIZE 32) bib_usr), first_chunk by
    (lia || (intros x b Hx; destruct (Hall x ltac:(rewrite E; set_solver)) as [v Hv]; unfold bib_entry_to_userspace, bib_usr; rewrite Hv; done)).
  done.
Qed.

Lemma bib_step j args l1 l2 : still j0 j -> bib_list = l1 ++ l2 -> stands bu_addr4 args l1 ->
  exists j', netlink_request false capable NLBUFFER_SIZE c pid (bib_display_request false proto args) (display_response bib_entries_of bu_addr4) args j
    = Some (next_args bu_addr4 (capacity NLBUFFER_SIZE 32) args l2, j') /\ still j0 j'.
Proof.
  intros Hj El Hs. eapply (chunk_step false capable NLBUFFER_SIZE c pid j0 Hj0 bu_addr4 bib_entries_of PlBib _ args l2 j _ _ _ _ _ _ Hj);
    [done|done|rewrite dispatch; unfold handle_bib_config, handle_bib_display; reflexivity|].
  rewrite (bib_offset args l1 l2 El Hs), some_bind. rewrite ld_proto_first, some_bind. destruct Hj as [sent ->].
  unfold get, mbind, M_bind. change (j_bib (set_sent [] sent j0)) with (j_bib j0). rewrite (bib_foreach_run l1 l2 El). eexists. reflexivity.
Qed.

Lemma bib_display_run : exists args j', bib_display false capable NLBUFFER_SIZE c pid (S (length bib_list)) proto j0 = Some (Some args, j') /\
  still j0 j' /\ da_printed args = bib_list /\ da_row_count args = u32 (Z.of_nat (length bib_list)).
Proof.
  unfold bib_display.
  apply (loop_run false capable NLBUFFER_SIZE c pid j0 bu_addr4 bib_list (capacity NLBUFFER_SIZE 32)
    (capacity_pos NLBUFFER_SIZE 32 ltac:(lia)) _ _ bib_step _ _ _ [] bib_list); [apply still_refl; done|done|done|lia].
Qed.

End Bib.

Section Session.
Context (Hbuf : 72 <= NLBUFFER_SIZE) (cfg : global_config) (Hcfg : cw_config (j_config j0) = Some cfg).

Let e : env := env_of c cfg.
Let h : session_heap := st_sess (w_store (f_world (j_world j0))).

(** What the application is told of a session. *)
Definition dying_time (k : timer_kind) (v : session_vars) : Z :=
  let dying := u64 (update_time v + default (fun _ => 0) (proto_fns proto k).1 e) in
  if jiffies e <? dying then jiffies_to_msecs (u64 (dying - jiffies e)) else 0.

Definition session_usr (x : session_entry) : session_entry_usr :=
  match sessions_of h !! se_loc x with
  | Some (_, v) => SessionEntryUsr (remote6 x) (local6 x) (local4 x) (remote4 x) (default 0 ((fun k => dying_time k v) <$> expirer v)) (state v)
  | None => SessionEntryUsr (remote6 x) (local6 x) (local4 x) (remote4 x) 0 CLOSED
  end.

Definition session_list : list session_entry_usr := session_usr <$> db_entries proto (j_sessions j0).

Lemma current_env_run j : cw_config (j_config j) = Some cfg -> current_env c j = Some (env_of c cfg, j).
Proof.
  intros E. unfold current_env. assert (Hr : in_cfg (RCU_THINGY id) j = Some (cfg, j)).
  { unfold in_cfg, lift, RCU_THINGY, get, load, mbind, M_bind. rewrite E. destruct j. done. }
  rewrite (bind_run _ _ _ _ _ Hr). done.
Qed.

Lemma session_table_here : exists t, sess_get_table proto (j_sessions j0) = Some t /\ session_table_inv proto (proto_fns proto) t /\
  forall x, x ∈ s_entries t -> exists v k timeout, sessions_of h !! se_loc x = Some (x, v) /\ expirer v = Some k /\
    get_timeout (get_timer k t) = Some timeout /\ (proto_fns proto k).1 = Some timeout.
Proof.
  destruct Hinv as (_ & (_ & _ & Hall) & _).
  assert (Ht : exists t, sess_get_table proto (j_sessions j0) = Some t) by (destruct proto; cbn; eauto; done). destruct Ht as [t Ht].
  destruct (Hall proto t Ht) as (Hi & Hq & _). exists t. split; [done|]. split; [done|]. intros x Hx.
  destruct Hi as (_ & _ & _ & Hp & _ & _ & _ & Hset). rewrite <- Hp in Hx.
  assert (Hk : exists k, x ∈ et_sessions (get_timer k t)) by (apply elem_of_app in Hx as [Hx|Hx]; [exists EST_TIMER|exists TRANS_TIMER]; done).
  destruct Hk as [k Hk]. destruct (Hq k x Hk) as (v & Hlive & Hexp & Hok). destruct (proto_fns_some _ _ _ Hok) as [[timeout Hto] _].
  exists v, k, timeout. split_and!; [exact Hlive|done| |done]. destruct (Hset k) as [-> _]. done.
Qed.

Lemma session_offset args l1 l2 : session_list = l1 ++ l2 -> stands (fun x => (su_remote4 x, su_local4 x)) args l1 ->
  let request := st_proto proto ++ padding 3 ++ [b2z (da_set args)] ++ padding 3 ++ st_taddr4 (da_offset args).1 ++ st_taddr4 (da_offset args).2 in
  exists set, ld_bool 4 request = Some set /\
    ld_if set (ld_taddr4 8) request = Some (su_remote4 <$> last l1) /\ ld_if set (ld_taddr4 16) request = Some (su_local4 <$> last l1).
Proof.
  intros El (_ & _ & Hl) request. exists (da_set args).
  pose proof (ld_bool_at (st_proto proto ++ padding 3) (da_set args) (padding 3 ++ st_taddr4 (da_offset args).1 ++ st_taddr4 (da_offset args).2)) as Hb.
  rewrite <- app_assoc in Hb. change (length (st_proto proto ++ padding 3)) with 4%nat in Hb. split; [exact Hb|]. clear Hb.
  subst request. destruct (last l1) as [x|] eqn:Ex; [|rewrite Hl; done]. destruct Hl as [-> ->]. cbn [fst snd].
  assert (Hw : wf_taddr4 (su_remote4 x) /\ wf_taddr4 (su_local4 x)).
  { destruct session_table_here as (t & Ht & (_ & _ & _ & _ & _ & Hwf & _) & _). apply last_split in Ex as [l' ->].
    assert (Hx : x ∈ session_list) by (rewrite El; set_solver). unfold session_list, db_entries in Hx. rewrite Ht in Hx.
    apply list_elem_of_fmap in Hx as (b & -> & Hin). rewrite Forall_forall in Hwf. destruct (Hwf b Hin) as [(_ & _ & H4 & Hr) _].
    unfold session_usr. destruct (sessions_of h !! se_loc b) as [[]|]; done. }
  destruct Hw as [Hwr Hwl].
  pose proof (ld_taddr4_at (st_proto proto ++ padding 3 ++ [b2z true] ++ padding 3) (su_remote4 x) (st_taddr4 (su_local4 x)) Hwr) as H1.
  pose proof (ld_taddr4_at (st_proto proto ++ padding 3 ++ [b2z true] ++ padding 3 ++ st_taddr4 (su_remote4 x)) (su_local4 x) [] Hwl) as H2.
  rewrite <- !app_assoc in H1, H2. change (length (st_proto proto ++ padding 3 ++ [b2z true] ++ padding 3)) with 8%nat in H1.
  rewrite app_nil_r in H2. cbn [ld_if]. rewrite H1. split; [done|]. rewrite <- ?app_assoc in H2.
  change (length (st_proto proto ++ padding 3 ++ [b2z true] ++ padding 3 ++ st_taddr4 (su_remote4 x))) with 16%nat in H2.
  rewrite <- ?app_assoc in H2. rewrite H2. done.
Qed.

Lemma session_foreach_run l1 l2 : session_list = l1 ++ l2 ->
  sessiondb_foreach proto (session_entry_to_userspace NLBUFFER_SIZE e (j_sessions j0) h) (Some (NlBuffer [] 0))
    (su_remote4 <$> last l1) (su_local4 <$> last l1) (j_sessions j0) =
  (b2z (negb (length l2 <=? capacity NLBUFFER_SIZE 72)%nat), Some (buffer_of 72 (take (capacity NLBUFFER_SIZE 72) l2))).
Proof.
  destruct session_table_here as (t & Ht & Hi & Hall). unfold session_list, db_entries, sessiondb_foreach, sessiontable_foreach. rewrite Ht.
  intros El. apply fmap_split in El as (es1 & es2 & E & -> & ->). pose proof Hi as (S4 & _ & _ & _ & _ & Hw & _). rewrite Forall_forall in Hw.
  assert (Hstart : find_starting_point session_compare_full4 (s_tree4 t)
     (match su_remote4 <$> last (session_usr <$> es1), su_local4 <$> last (session_usr <$> es1) with Some r, Some l => Some (r, l) | _, _ => None end) false = es2).
  { rewrite fmap_last. destruct (last es1) as [x|] eqn:Ex.
    - apply last_split in Ex as [es ->]. rewrite <- app_assoc in E. cbn [app] in E. cbn [fmap option_fmap option_map].
      assert (Hx : x ∈ s_entries t) by (rewrite E; set_solver). destruct (Hw x Hx) as [(_ & _ & Hl4 & Hr4) _].
      assert (Hu : su_remote4 (session_usr x) = remote4 x /\ su_local4 (session_usr x) = local4 x)
        by (unfold session_usr; destruct (sessions_of h !! se_loc x) as [[]|]; done). destruct Hu as [-> ->].
      eapply (start_after session_compare_full4 SessionSpec.key4); [|exact S4|exact E|reflexivity].
      intros y Hy. apply full4_sgn; [apply (Hw y Hy)|]. split; done.
    - apply last_None in Ex. subst es1. exact E. }
  rewrite Hstart, (run_until_map _ (nlbuffer_write NLBUFFER_SIZE 72) session_usr), first_chunk; [done|lia|].
  intros x b Hx. assert (Hin : x ∈ s_entries t) by (rewrite E; set_solver). destruct (Hall x Hin) as (v & k & timeout & Hv & Hexp & Hto & Hfn).
  destruct (Hw x Hin) as [_ Hpr]. unfold session_entry_to_userspace, session_usr, dying_time. rewrite Hv, Hexp, Hpr, Ht, Hto. cbn [fmap option_fmap option_map default].
  rewrite Hfn. done.
Qed.

Lemma session_step j args l1 l2 : still j0 j -> session_list = l1 ++ l2 -> stands (fun x => (su_remote4 x, su_local4 x)) args l1 ->
  exists j', netlink_request false capable NLBUFFER_SIZE c pid (session_display_request false proto args) session_display_response args j
    = Some (next_args (fun x => (su_remote4 x, su_local4 x)) (capacity NLBUFFER_SIZE 72) args l2, j') /\ still j0 j'.
Proof.
  intros Hj El Hs. eapply (chunk_step false capable NLBUFFER_SIZE c pid j0 Hj0 _ session_entries_of PlSession _ args l2 j _ _ _ _ _ _ Hj);
    [done|intros set x; destruct set; reflexivity|rewrite dispatch; unfold handle_session_config, handle_session_display; reflexivity|].
  destruct (session_offset args l1 l2 El Hs) as (set & Hset & H1 & H2). rewrite Hset, some_bind, H1, some_bind, H2, some_bind, ld_proto_first, some_bind.
  destruct Hj as [sent ->]. rewrite (bind_run _ _ _ _ _ (current_env_run (set_sent [] sent j0) Hcfg)). unfold get, mbind, M_bind.
  change (j_sessions (set_sent [] sent j0)) with (j_sessions j0). change (st_sess (w_store (f_world (j_world (set_sent [] sent j0))))) with h. fold e.
  rewrite (session_foreach_run l1 l2 El). eexists. reflexivity.
Qed.

Lemma session_display_run : exists args j', session_display false capable NLBUFFER_SIZE c pid (S (length session_list)) proto j0 = Some (Some args, j') /\
  still j0 j' /\ da_printed args = session_list /\ da_row_count args = u32 (Z.of_nat (length session_list)).
Proof.
  unfold session_display.
  apply (loop_run false capable NLBUFFER_SIZE c pid j0 (fun x => (su_remote4 x, su_local4 x)) session_list (capacity NLBUFFER_SIZE 72)
    (capacity_pos NLBUFFER_SIZE 72 ltac:(lia)) _ _ session_step _ _ _ [] session_list); [apply still_refl; done|done|done|lia].
Qed.

End Session.
End Nat64.
