(* ===== verification/NlGuarantees.v ===== *)
(** * Guarantees on the requests of the user

    A process without [CAP_NET_ADMIN] only reads; the commands of the
    application keep the stateful translator's databases well-formed; a
    display shows all of a database; and what removing a prefix of the IPv6
    pool does to its sessions. *)
From S2P Require Import Prelude Types Address Rfc6052 Pool6 Pool4Table Pool4Db RbTree BibTable BibDb PortAlloc.
From S2P Require Import Packet SessionEntry PktQueue SessionTable Tcp SessionSpec SessionDb Filtering FilteringSpec StaticRoutes Nat64 Guarantees.
From S2P Require Import Skb Checksum Rtrie RtrieOps Eam SiitPool Config ConfigSpec NlHandler NlSpec NlClient NlDisplay.

(** C13: a process without [CAP_NET_ADMIN] only reads.  Whatever message it
    sends, to either translator, every database and the configuration with its
    array of plateaus are afterwards what they were before; and whatever is
    sent during the request is a response to that process.  Of a message that
    is handled without a fault, that is: nothing is said of one that is read
    past its end. *)
Theorem unprivileged_only_reads {R : RbTree} {K : KernelLib} siit NLBUFFER_SIZE c nl_hdr msg j r j'
    (Hrun : handle_netlink_message siit false NLBUFFER_SIZE c nl_hdr msg j = Some (r, j')) :
  same_data nl_hdr j j'.
Proof.
  revert j r j' Hrun. change (keeps nl_hdr (handle_netlink_message siit false NLBUFFER_SIZE c nl_hdr msg)).
  unfold handle_netlink_message, handle_logtime_config.
  repeat match goal with |- keeps _ (match ?x with _ => _ end) => destruct x | |- keeps _ (_ ≫= _) => apply keeps_bind; [|intros ?] end;
    eauto using keeps_pool6, keeps_pool4, keeps_bib, keeps_session, keeps_eamt, keeps_rfc6791, keeps_blacklist, keeps_global, keeps_error with keeps reads.
Qed.

(** ** The commands of the application *)

(** The stateful translator: every database is well-formed, and so is the
    configuration. *)
Record jool_inv {K : KernelLib} (c : config) (j : jool) : Prop := JoolInv {
  inv_pool6 : pool6_inv false (j_pool6 j) /\ is_Some (j_pool6 j);
  inv_pool4 : db_inv (hash_32 c) (j_pool4 j);
  inv_world : nat64_inv (j_world j);
  inv_config : exists cfg l, ConfigSpec.config_ok cfg l (j_config j)
}.

Inductive usr_command : Type :=
| CmdPool6Add (prefix : ipv6_prefix) (force : bool)
| CmdPool6Remove (prefix : ipv6_prefix) (quick : bool)
| CmdPool6Flush (quick : bool)
| CmdPool4Add (mark : Z) (proto : l4_protocol) (addrs : ipv4_prefix) (ports : port_range) (force : bool)
| CmdPool4Rm (mark : Z) (proto : l4_protocol) (addrs : ipv4_prefix) (ports : port_range) (quick : bool)
| CmdPool4Flush (quick : bool)
| CmdBibAdd (proto : l4_protocol) (addr6 : ipv6_transport_addr) (addr4 : ipv4_transport_addr)
| CmdBibRemove (proto : l4_protocol) (addr6 : option ipv6_transport_addr) (addr4 : option ipv4_transport_addr)
| CmdGlobalUpdate (type : Z) (data : bytes).

Section Commands.
Context {R : RbTree} {K : KernelLib} (capable : bool) (NLBUFFER_SIZE : Z) (c : config) (pid : Z).

(** The error codes of the responses. *)
Definition run_command (cmd : usr_command) : M jool (list Z) :=
  match cmd with
  | CmdPool6Add p force =>
      r ← usr_pool6_add false capable NLBUFFER_SIZE c pid p force; mret (match r with Ok l => l | Err e => [errno_code e] end)
  | CmdPool6Remove p quick => usr_pool6_remove false capable NLBUFFER_SIZE c pid p quick
  | CmdPool6Flush quick => usr_pool6_flush false capable NLBUFFER_SIZE c pid quick
  | CmdPool4Add mark proto addrs ports force =>
      r ← usr_pool4_add false capable NLBUFFER_SIZE c pid mark proto addrs ports force; mret (match r with Ok l => l | Err e => [errno_code e] end)
  | CmdPool4Rm mark proto addrs ports quick => usr_pool4_rm false capable NLBUFFER_SIZE c pid mark proto addrs ports quick
  | CmdPool4Flush quick => usr_pool4_flush false capable NLBUFFER_SIZE c pid quick
  | CmdBibAdd proto addr6 addr4 => bib_add false capable NLBUFFER_SIZE c pid proto addr6 addr4
  | CmdBibRemove proto addr6 addr4 => bib_remove false capable NLBUFFER_SIZE c pid proto addr6 addr4
  | CmdGlobalUpdate type data => usr_global_update false capable NLBUFFER_SIZE c pid type data
  end.

(** Values of their C types.  The prefixes and port ranges of pool4 are those
    the handlers do not check: a prefix with bits after its length or a range
    whose ends are swapped are not covered ([rm_range_reversed_diverges]). *)
Definition command_ok (cmd : usr_command) : Prop :=
  match cmd with
  | CmdPool6Add p _ | CmdPool6Remove p _ => wf_addr6 (p6_address p) /\ is_u8 (p6_len p)
  | CmdPool6Flush _ => True
  | CmdPool4Add mark _ addrs ports _ => is_u32 mark /\ valid_request addrs ports
  | CmdPool4Rm mark _ addrs ports _ => is_u32 mark /\ valid_request addrs ports
  | CmdPool4Flush _ => True
  | CmdBibAdd _ addr6 addr4 => wf_taddr6 addr6 /\ wf_taddr4 addr4
  | CmdBibRemove _ addr6 addr4 => (forall a, addr6 = Some a -> wf_taddr6 a) /\ (forall a, addr4 = Some a -> wf_taddr4 a)
  | CmdGlobalUpdate type data => is_u8 type /\ wf_bytes data /\ blen data < 2 ^ 32 - 21
  end.

(** A removal or flush of pool4 that is not quick also flushes BIB entries:
    no packet that waits for a simultaneous open may use one of them
    ([flush_under_waiting_packet]). *)
Definition command_safe (cmd : usr_command) (j : jool) : Prop :=
  match cmd with
  | CmdPool4Rm _ _ addrs ports false => none_waiting (EvRmBibs4 addrs ports) (j_world j)
  | CmdPool4Flush false => none_waiting EvFlushBibs (j_world j)
  | _ => True
  end.

End Commands.

(** *** Each operation keeps the invariant *)

Section Keep.
Context {R : RbTree} {L : RbTreeLaws R} {K : KernelLib} {KL : KernelLibLaws K} (c : config).

Abbreviation keep m := (triple (jool_inv c) m (fun _ => jool_inv c)).

Lemma keep_ret {A} (a : A) : keep (mret a).
Proof. apply triple_ret. done. Qed.

Lemma keep_bind {A B} (m : M jool A) (k : A -> M jool B) : keep m -> (forall a, keep (k a)) -> keep (m ≫= k).
Proof. intros Hm Hk. eapply triple_bind; [exact Hm|]. intros a. apply Hk. Qed.

Lemma keep_kmalloc : keep j_kmalloc.
Proof. intros j [H1 H2 H3 H4]. unfold j_kmalloc. destruct (kmalloc (j_allocs j)) as [ok al]. eexists _, _. split; [reflexivity|]. split; done. Qed.

Lemma keep_respond h t f p : keep (respond_msg h t f p).
Proof.
  unfold respond_msg. apply keep_bind; [apply keep_kmalloc|]. intros ok. destruct (negb ok); [apply keep_ret|].
  apply keep_bind; [|intros res; destruct (res <? 0); apply keep_ret].
  intros j [H1 H2 H3 H4]. unfold nlmsg_unicast. destruct (j_unicasts j); (eexists _, _; split; [reflexivity|]; split; done).
Qed.

Lemma keep_code {A} h (r : result A) : keep (respond_code h r).
Proof. apply keep_respond. Qed.

Lemma keep_pool6 {A} (m : M pool6_state A) :
  triple (fun s => pool6_inv false s /\ is_Some s) m (fun _ s => pool6_inv false s /\ is_Some s) -> keep (in_pool6 m).
Proof.
  intros Hm j [H1 H2 H3 H4]. destruct (Hm _ H1) as (a & s & Hrun & Hs). unfold in_pool6, lift. rewrite Hrun.
  eexists _, _. split; [reflexivity|]. split; done.
Qed.

Lemma keep_world {A} (m : M fworld A) : triple nat64_inv m (fun _ => nat64_inv) -> keep (in_world m).
Proof.
  intros Hm j [H1 H2 H3 H4]. destruct (Hm _ H3) as (a & s & Hrun & Hs). unfold in_world, lift. rewrite Hrun.
  eexists _, _. split; [reflexivity|]. split; done.
Qed.

Lemma keep_pool4 {A} (m : allocs -> pool4db -> option (A * pool4db * allocs)) :
  (forall al s, db_inv (hash_32 c) s -> exists a s' al', m al s = Some (a, s', al') /\ db_inv (hash_32 c) s') -> keep (in_pool4 m).
Proof.
  intros Hm j [H1 H2 H3 H4]. destruct (Hm (j_allocs j) _ H2) as (a & s & al & Hrun & Hs). unfold in_pool4. rewrite Hrun.
  eexists _, _. split; [reflexivity|]. split; done.
Qed.

Lemma keep_cfg {A} (m : M config_world A) :
  (forall cfg l w, ConfigSpec.config_ok cfg l w -> exists a w', m w = Some (a, w') /\ exists cfg' l', ConfigSpec.config_ok cfg' l' w') -> keep (in_cfg m).
Proof.
  intros Hm j [H1 H2 H3 (cfg & l & H4)]. destruct (Hm _ _ _ H4) as (a & w & Hrun & Hw). unfold in_cfg, lift. rewrite Hrun.
  eexists _, _. split; [reflexivity|]. split; done.
Qed.

Lemma keep_load {A B} (o : option A) a (k : A -> M jool B) : o = Some a -> keep (k a) -> keep (load o ≫= k).
Proof. intros -> Hk. exact Hk. Qed.

End Keep.

Section KeepOps.
Context {R : RbTree} {L : RbTreeLaws R} {K : KernelLib} {KL : KernelLibLaws K} (c : config).

Abbreviation keep m := (triple (jool_inv c) m (fun _ => jool_inv c)).

Lemma keep_pool6_add ok p : wf_addr6 (p6_address p) -> keep (in_pool6 (pool6_add false ok p)).
Proof.
  intros Hw. apply keep_pool6. intros s [Hi [l ->]]. destruct (pool6_add_run false ok p l Hw) as (r & s' & Hrun & _).
  exists r, s'. split; [exact Hrun|]. eapply pool6_add_inv; done.
Qed.

Lemma keep_pool6_flush ok : keep (in_pool6 (pool6_flush ok)).
Proof.
  apply keep_pool6. intros s [Hi [l ->]]. unfold pool6_flush. destruct ok; cbn [negb].
  - eexists _, _. split; [reflexivity|]. split; [|eauto]. split_and!; [constructor|constructor|done].
  - eexists _, _. split; [reflexivity|]. eauto.
Qed.

(** A prefix that was in the pool is a valid one. *)
Lemma keep_pool6_remove {B} p (k : result unit -> M jool B) : (forall e, keep (k (Err e))) ->
  (0 <= p6_len p -> wf_addr6 (p6_address p) -> prefix6_validate (Some p) = Ok tt -> keep (k (Ok tt))) -> keep (in_pool6 (pool6_remove p) ≫= k).
Proof.
  intros Herr Hok j Hj. pose proof Hj as [[Hi [l El]] H2 H3 H4]. rewrite El in Hi.
  assert (Hrun : exists r s', pool6_remove p (Some l) = Some (r, s') /\ (forall u, r = Ok u -> p ∈ l)).
  { unfold pool6_remove, deref_pool, mbind, M_bind. pose proof (unlink_spec p l) as Hu. destruct (unlink p l) as [l'|].
    - destruct Hu as (l1 & l2 & -> & _). eexists _, _. split; [reflexivity|]. intros u _. set_solver.
    - eexists _, _. split; [reflexivity|]. intros u [=]. }
  destruct Hrun as (r & s' & Hrun & Hin). pose proof (pool6_remove_inv false p l r s' Hi Hrun) as Hs'.
  assert (Hp : in_pool6 (pool6_remove p) j = Some (r, set_pool6 s' j)) by (unfold in_pool6, lift; rewrite El, Hrun; done).
  assert (Hj' : jool_inv c (set_pool6 s' j)) by (split; done).
  assert (Hk : keep (k r)).
  { destruct r as [[]|e]; [|apply Herr]. destruct Hi as (Hf & _). rewrite Forall_forall in Hf. destruct (Hf p (Hin tt eq_refl)) as (Hl & Hw & Hc).
    assert (Hlen : 0 <= p6_len p <= 128) by (unfold rfc6052_len in Hl; bool_to_prop; lia).
    apply Hok; [lia|done|]. apply prefix6_validate_clear; [lia|done|]. split; [lia|done]. }
  destruct (Hk _ Hj') as (b & j' & Hrun' & Hfin). exists b, j'. split; [|done]. rewrite (bind_run _ _ _ _ _ Hp). exact Hrun'.
Qed.

Lemma keep_purge ev : event_ok ev -> is_purge ev = true -> keep (in_world (handle c ev)).
Proof. intros He Hp. apply keep_world. apply purge_triple; done. Qed.

(** The second half of a request on pool4 that is not quick. *)
Lemma keep_purge_flush ev next : event_ok ev -> event_ok next -> then_flush ev = Some next ->
  triple (fun j => jool_inv c j /\ none_waiting next (j_world j)) (in_world (handle c ev);; in_world (handle c next)) (fun _ => jool_inv c).
Proof.
  intros He Hn Ht j [Hj Hq]. pose proof Hj as [H1 H2 H3 H4].
  assert (Hp : is_purge ev = true) by (destruct ev; done).
  destruct (purge_triple c ev He Hp _ H3) as ([] & w1 & R1 & I1).
  pose proof (purge_makes_safe c ev next _ _ He Ht H3 Hq R1) as Hsafe.
  assert (Hflush : exists w2, handle c next w1 = Some (tt, w2) /\ nat64_inv w2).
  { destruct ev as [| | | | | | |prefix ports| | | |]; try done; injection Ht as <-.
    - destruct (flush_bibs_triple _ EvFlushBibs (fun _ => True) (fun refs db Hi Hf => bibdb_flush_spec refs db Hi Hf) ltac:(done) w1 (conj I1 Hsafe))
        as ([] & w2 & R2 & I2). eauto.
    - destruct Hn as (N1 & N2 & N3 & N4).
      destruct (flush_bibs_triple _ (EvRmBibs4 prefix ports) _ (fun refs db Hi Hf => bibdb_delete_taddr4s_spec refs db prefix ports N1 N2 N3 N4 Hi Hf) ltac:(done) w1 (conj I1 Hsafe))
        as ([] & w2 & R2 & I2). eauto. }
  destruct Hflush as (w2 & R2 & I2). exists tt, (set_world w2 j). split; [|split; done].
  unfold mbind, M_bind, in_world, lift. rewrite R1. change (j_world (set_world w1 j)) with w1. rewrite R2. done.
Qed.

(** What a request on pool4 does before that. *)
Lemma keep_pool4_then {A B} (m : allocs -> pool4db -> option (A * pool4db * allocs)) (k : A -> M jool B) next :
  (forall al s, db_inv (hash_32 c) s -> exists a s' al', m al s = Some (a, s', al') /\ db_inv (hash_32 c) s') ->
  (forall a, triple (fun j => jool_inv c j /\ none_waiting next (j_world j)) (k a) (fun _ => jool_inv c)) ->
  triple (fun j => jool_inv c j /\ none_waiting next (j_world j)) (in_pool4 m ≫= k) (fun _ => jool_inv c).
Proof.
  intros Hm Hk j [[H1 H2 H3 H4] Hq]. destruct (Hm (j_allocs j) _ H2) as (a & s & al & Hrun & Hs).
  set (j1 := set_pool4 s al j).
  destruct (Hk a j1) as (b & j' & Hrun' & Hj'); [split; [split; done|exact Hq]|].
  exists b, j'. split; [|done]. unfold mbind, M_bind, in_pool4. rewrite Hrun. exact Hrun'.
Qed.

Lemma keep_pool4_add mark proto addrs ports : hash_law (hash_32 c) -> valid_request addrs ports ->
  keep (in_pool4 (fun al s => pool4db_add (hash_32 c) al s mark proto addrs ports)).
Proof.
  intros Hh Hr. apply keep_pool4. intros al s Hs. destruct (pool4db_add_run (hash_32 c) al s mark proto addrs ports Hh Hs Hr) as (r & s' & al' & Hrun & Hi & _). eauto.
Qed.

Lemma keep_pool4_rm mark proto addrs ports : hash_law (hash_32 c) -> valid_request addrs ports ->
  keep (in_pool4 (fun al s => pool4db_rm (hash_32 c) al s mark proto addrs ports)).
Proof.
  intros Hh Hr. apply keep_pool4. intros al s Hs. destruct (pool4db_rm_run (hash_32 c) al s mark proto addrs ports Hh Hs Hr) as (r & s' & al' & Hrun & Hi & _). eauto.
Qed.

Lemma pool4_flush_inv al s : db_inv (hash_32 c) s -> exists a s' al', pool4db_flush al s = Some (a, s', al') /\ db_inv (hash_32 c) s'.
Proof.
  intros Hs. unfold pool4db_flush, init_db. destruct (kmalloc al) as [[] al'] eqn:E.
  - pose proof Hs as (ss & Hdb & Hp & Hlen & _). unfold pool4db_replace. rewrite Hdb. eexists _, _, _. split; [reflexivity|].
    eexists. split; [reflexivity|]. cbn [power tables]. split; [done|].
    assert (Hc : forall n, concat (replicate n (@nil pool4_table)) = []) by (induction n; done). rewrite Hc, length_replicate.
    split; [unfold slots, u32; rewrite Z.shiftl_1_l, Z.mod_small by (split; [lia|apply Z.pow_lt_mono_r; lia]); rewrite Z2Nat.id; lia|].
    split; [done|]. intros i slot Hi. apply lookup_replicate in Hi as [-> _]. split; constructor.
  - eexists _, _, _. split; [reflexivity|done].
Qed.

Lemma keep_pool4_flush : keep (in_pool4 pool4db_flush).
Proof. apply keep_pool4. apply pool4_flush_inv. Qed.

Lemma keep_static_add {B} addr4 addr6 proto (k : result unit -> M jool B) : wf_taddr4 addr4 -> wf_taddr6 addr6 -> (forall r, keep (k r)) ->
  keep (j ← get; in_world (add_static_route (config_of c j) addr4 addr6 proto) ≫= k).
Proof.
  intros W4 W6 Hk j Hj. pose proof Hj as [H1 H2 H3 H4].
  destruct (add_static_route_triple (config_of c j) H2 (f_db (j_world j)) addr4 addr6 proto W4 W6 _ H3) as (r & s & Hrun & Ho & _).
  destruct (Hk r (set_world s j)) as (b & j' & Hrun' & Hfin); [split; try done; eapply owned_inv; exact Ho|].
  exists b, j'. split; [|done]. unfold get. unfold mbind at 1, M_bind at 1. unfold mbind, M_bind, in_world, lift. rewrite Hrun. exact Hrun'.
Qed.

Lemma keep_static_rm addr6 addr4 proto : (forall a, addr6 = Some a -> wf_taddr6 a) -> (forall a, addr4 = Some a -> wf_taddr4 a) ->
  keep (in_world (delete_static_route addr6 addr4 proto)).
Proof.
  intros W6 W4. apply keep_world. intros s Hs. destruct (delete_static_route_triple (f_db s) addr6 addr4 proto W6 W4 s Hs) as (r & s' & Hrun & db' & Ho & _).
  exists r, s'. split; [exact Hrun|]. eapply owned_inv. exact Ho.
Qed.

Lemma keep_update type data : wf_value data -> keep (in_cfg (handle_global_update type (blen data) data)).
Proof.
  intros Hw. apply keep_cfg. intros cfg l w Hok. destruct (global_update_run type data cfg l w Hok Hw) as (r & w' & Hrun & Hr).
  exists r, w'. split; [exact Hrun|]. destruct r as [t|e]; [destruct Hr as (_ & _ & cfg' & l' & H & _); eauto|destruct Hr as [H _]; eauto].
Qed.

Lemma keep_timers : keep (e ← current_env c; in_world (on_db (sessiondb_update_timers e))).
Proof.
  apply keep_bind.
  - unfold current_env. apply keep_bind; [|intros cfg; apply keep_ret]. apply keep_cfg. intros cfg l w Hok. exists cfg, w. split; [|eauto].
    destruct Hok as (E & _). unfold RCU_THINGY, get, load, mbind, M_bind. rewrite E. done.
  - intros e. apply keep_world. intros [[db w] eph] Hs. pose proof Hs as (_ & Hi & _). cbn [fst] in Hi.
    destruct (sessiondb_update_timers_spec e _ _ db w Hi) as (db' & Hrun & Hi' & He).
    exists tt, ((db', w), eph). split; [apply on_db_run; done|]. eapply owned_same_entries; [exact Hs|exact Hi'|]. intros p x. rewrite He. done.
Qed.

End KeepOps.

(** *** The commands *)

Section CommandsKeep.
Context {R : RbTree} {L : RbTreeLaws R} {K : KernelLib} {KL : KernelLibLaws K} (capable : bool) (NLBUFFER_SIZE : Z) (c : config) (pid : Z).
Context (Hh : hash_law (hash_32 c)).

Abbreviation keep m := (triple (jool_inv c) m (fun _ => jool_inv c)).
Abbreviation hdr := (client_hdr pid).

(** A command keeps the invariant if the handler it reaches does. *)
Lemma keep_command_if (P : jool -> Prop) len mode op payload m :
  (forall j, handle_netlink_message false capable NLBUFFER_SIZE c hdr (request_bytes false len mode op payload) j = m j) ->
  triple P m (fun _ => jool_inv c) ->
  triple P (command false capable NLBUFFER_SIZE c pid (request_bytes false len mode op payload)) (fun _ => jool_inv c).
Proof.
  intros He Hm j Hj. destruct (Hm j Hj) as (r & j' & Hrun & Hj'). rewrite <- He in Hrun. unfold client_hdr in Hrun.
  unfold command, gets, mbind, M_bind. rewrite Hrun. eexists _, _. split; [reflexivity|done].
Qed.

Lemma keep_command len mode op payload m :
  (forall j, handle_netlink_message false capable NLBUFFER_SIZE c hdr (request_bytes false len mode op payload) j = m j) -> keep m ->
  keep (command false capable NLBUFFER_SIZE c pid (request_bytes false len mode op payload)).
Proof. apply keep_command_if. Qed.

(** What the handlers do with a permission. *)
Lemma keep_permission m : keep m -> keep (if verify_superpriv capable then respond_error hdr (- errno_code EPERM) else m).
Proof. intros Hm. destruct (verify_superpriv capable); [apply keep_respond|done]. Qed.

(** The end of a request on pool4 that is not quick. *)
Lemma keep_not_quick off request ev next r : ld_bool off request = Some false ->
  event_ok ev -> event_ok next -> then_flush ev = Some next ->
  triple (fun j => jool_inv c j /\ none_waiting next (j_world j))
    (clear ← nat64_not_quick false off request;
     (if clear : bool then in_world (handle c ev);; in_world (handle c next) else mret tt);;
     respond_code (A := unit) hdr r) (fun _ => jool_inv c).
Proof.
  intros Hb He Hn Ht. apply (triple_bind _ _ _ (fun clear j => clear = true /\ jool_inv c j /\ none_waiting next (j_world j))).
  - intros j Hj. exists true, j. split; [|done]. unfold nat64_not_quick, load, mbind, M_bind. rewrite Hb. done.
  - intros clear. apply (triple_get (fun j => jool_inv c j /\ none_waiting next (j_world j)) (clear = true)); [intros j [-> Hj]; split; [exact Hj|done]|]. intros ->.
    eapply triple_bind; [apply keep_purge_flush; done|]. intros []. apply keep_code.
Qed.

Lemma keep_quick {B} off request (k : bool -> M jool B) : ld_bool off request = Some true -> keep (k false) -> keep (nat64_not_quick false off request ≫= k).
Proof.
  intros Hb Hk j Hj. destruct (Hk j Hj) as (b & j' & Hrun & Hj'). exists b, j'. split; [|done].
  unfold nat64_not_quick, load, mbind, M_bind. rewrite Hb. exact Hrun.
Qed.

Lemma keep_cmd_pool6 cmd : command_ok cmd ->
  match cmd with CmdPool6Add _ _ | CmdPool6Remove _ _ | CmdPool6Flush _ => keep (run_command capable NLBUFFER_SIZE c pid cmd) | _ => True end.
Proof.
  intros Hok. destruct cmd as [p force|p quick|quick| | | | | |]; try done; cbn [run_command command_ok] in *.
  - destruct Hok as [Hw Hl]. unfold usr_pool6_add. apply keep_bind; [|intros a; apply keep_ret]. destruct (negb force && get_ubit p); [apply keep_ret|].
    apply keep_bind; [|intros a; apply keep_ret]. eapply keep_command; [intros j; apply dispatch|]. unfold handle_pool6_config.
    apply keep_permission. eapply keep_load; [apply ld_prefix6_first; done|]. apply keep_bind; [apply keep_kmalloc|]. intros ok.
    apply keep_bind; [apply keep_pool6_add; done|]. intros r. apply keep_code.
  - destruct Hok as [Hw Hl]. unfold usr_pool6_remove. eapply keep_command; [intros j; apply dispatch|]. unfold handle_pool6_config.
    apply keep_permission. eapply keep_load; [apply ld_prefix6_first; done|]. apply keep_pool6_remove; [intros e; apply keep_code|].
    intros H1 H2 H3. apply keep_bind.
    + unfold nat64_not_quick. eapply keep_load; [reflexivity|]. apply keep_ret.
    + intros clear. apply keep_bind; [|intros []; apply keep_code]. destruct clear; [|apply keep_ret].
      apply (keep_purge c (EvRmPrefix6 p)); done.
  - unfold usr_pool6_flush. eapply keep_command; [intros j; apply dispatch|]. unfold handle_pool6_config.
    apply keep_permission. apply keep_bind; [apply keep_kmalloc|]. intros ok. apply keep_bind; [apply keep_pool6_flush|]. intros r. apply keep_bind.
    + unfold nat64_not_quick. eapply keep_load; [apply ld_bool_first|]. apply keep_ret.
    + intros clear. apply keep_bind; [|intros []; apply keep_code]. destruct clear; [|apply keep_ret].
      apply (keep_purge c EvFlushSessions); done.
Qed.

Section Pool4Request.
Context (mark : Z) (proto : l4_protocol) (addrs : ipv4_prefix) (ports : port_range) (quick : bool).
Context (Hm : is_u32 mark) (Hr : valid_request addrs ports).

Lemma valid_len : is_u8 (p4_len addrs).
Proof.
  destruct Hr as (Hl & Hw & Hv & _). unfold prefix4_validate in Hv. unfold is_u8.
  destruct (Z.ltb_spec 32 (p4_len addrs)); [|lia]. exfalso. revert Hv. repeat case_match; bool_to_prop; try done; lia.
Qed.

(** The members of the request. *)
Lemma ld_pool4 : let request := usr_pool4_payload mark proto addrs ports quick in
  ld_u32 0 request = Some mark /\ ld_u8 4 request = Some (l4_num proto) /\ ld_prefix4 8 request = Some addrs /\ ld_range 16 request = Some ports /\
  ld_bool 20 request = Some quick.
Proof.
  pose proof valid_len as Hl. destruct Hr as (_ & Hw & _ & Hwr & _). unfold usr_pool4_payload. cbv zeta. split_and!.
  - apply (ld_le_at [] 4 mark). exact Hm.
  - apply (ld_u8_at (le_bytes 4 mark) (l4_num proto)). destruct proto; done.
  - apply (ld_prefix4_at (le_bytes 4 mark ++ st_proto proto ++ padding 3)); done.
  - apply (ld_range_at (le_bytes 4 mark ++ st_proto proto ++ padding 3 ++ st_prefix4 addrs)). done.
  - apply (ld_bool_at (le_bytes 4 mark ++ st_proto proto ++ padding 3 ++ st_prefix4 addrs ++ st_range ports)).
Qed.

End Pool4Request.

Lemma keep_weaken {A} (P : jool -> Prop) (m : M jool A) : (forall j, P j -> jool_inv c j) -> keep m -> triple P m (fun _ => jool_inv c).
Proof. intros HP Hm. eapply triple_weaken; [exact Hm|exact HP|done]. Qed.

Lemma keep_permission_if (P : jool -> Prop) m : (forall j, P j -> jool_inv c j) -> triple P m (fun _ => jool_inv c) ->
  triple P (if verify_superpriv capable then respond_error hdr (- errno_code EPERM) else m) (fun _ => jool_inv c).
Proof. intros HP Hm. destruct (verify_superpriv capable); [|done]. eapply triple_weaken; [apply keep_respond|exact HP|done]. Qed.

Lemma load_if {A B} (P : jool -> Prop) (o : option A) a (k : A -> M jool B) Q : o = Some a -> triple P (k a) Q -> triple P (load o ≫= k) Q.
Proof. intros -> Hk. exact Hk. Qed.

Lemma keep_cmd_pool4_add mark proto addrs ports force :
  command_ok (CmdPool4Add mark proto addrs ports force) -> keep (run_command capable NLBUFFER_SIZE c pid (CmdPool4Add mark proto addrs ports force)).
Proof.
  intros [Hm Hr]. cbn [run_command]. unfold usr_pool4_add. apply keep_bind; [|intros a; apply keep_ret]. destruct (_ && negb force); [apply keep_ret|].
  apply keep_bind; [|intros a; apply keep_ret]. eapply keep_command; [intros j; apply dispatch|]. unfold handle_pool4_config, handle_pool4_add.
  destruct (ld_pool4 mark proto addrs ports false Hm Hr) as (H1 & H2 & H3 & H4 & _).
  apply keep_permission. do 4 (eapply keep_load; [eassumption|]). apply keep_bind; [apply keep_pool4_add; done|]. intros r. apply keep_code.
Qed.

Lemma keep_cmd_pool4_rm mark proto addrs ports quick :
  let cmd := CmdPool4Rm mark proto addrs ports quick in
  command_ok cmd -> triple (fun j => jool_inv c j /\ command_safe cmd j) (run_command capable NLBUFFER_SIZE c pid cmd) (fun _ => jool_inv c).
Proof.
  intros cmd [Hm Hr]. destruct (ld_pool4 mark proto addrs ports quick Hm Hr) as (H1 & H2 & H3 & H4 & H5).
  subst cmd. cbn [run_command command_safe]. unfold usr_pool4_rm. destruct quick.
  - apply keep_weaken; [intros j [Hj _]; exact Hj|]. eapply keep_command; [intros j; apply dispatch|]. unfold handle_pool4_config, handle_pool4_rm.
    apply keep_permission. do 4 (eapply keep_load; [eassumption|]). apply keep_bind; [apply keep_pool4_rm; done|]. intros r.
    eapply keep_quick; [exact H5|]. apply keep_bind; [apply keep_ret|]. intros []. apply keep_code.
  - eapply keep_command_if; [intros j; apply dispatch|]. unfold handle_pool4_config, handle_pool4_rm.
    apply keep_permission_if; [intros j [Hj _]; exact Hj|]. do 4 (eapply load_if; [eassumption|]). apply keep_pool4_then.
    + intros al s Hs. destruct (pool4db_rm_run (hash_32 c) al s mark proto addrs ports Hh Hs Hr) as (r & s' & al' & Hrun & Hi & _). eauto.
    + intros r. destruct Hr as (R1 & R2 & R3 & R4 & _).
      apply (keep_not_quick _ _ (EvRmPrefix4 addrs ports) (EvRmBibs4 addrs ports)); [exact H5|split_and!; done..|done].
Qed.

Lemma keep_cmd_pool4_flush quick :
  triple (fun j => jool_inv c j /\ command_safe (CmdPool4Flush quick) j) (run_command capable NLBUFFER_SIZE c pid (CmdPool4Flush quick)) (fun _ => jool_inv c).
Proof.
  cbn [run_command command_safe]. unfold usr_pool4_flush. destruct quick.
  - apply keep_weaken; [intros j [Hj _]; exact Hj|]. eapply keep_command; [intros j; apply dispatch|]. unfold handle_pool4_config, handle_pool4_flush.
    apply keep_permission. apply keep_bind; [apply keep_pool4_flush|]. intros r. eapply keep_quick; [apply ld_bool_first|].
    apply keep_bind; [apply keep_ret|]. intros []. apply keep_code.
  - eapply keep_command_if; [intros j; apply dispatch|]. unfold handle_pool4_config, handle_pool4_flush.
    apply keep_permission_if; [intros j [Hj _]; exact Hj|]. apply keep_pool4_then; [apply pool4_flush_inv|].
    intros r. apply (keep_not_quick _ _ EvFlushSessions EvFlushBibs); [apply ld_bool_first|done..].
Qed.

Lemma keep_cmd_bib cmd : command_ok cmd ->
  match cmd with CmdBibAdd _ _ _ | CmdBibRemove _ _ _ => keep (run_command capable NLBUFFER_SIZE c pid cmd) | _ => True end.
Proof.
  intros Hok. destruct cmd as [| | | | | |proto addr6 addr4|proto addr6 addr4|]; try done; cbn [run_command command_ok] in *.
  - destruct Hok as [W6 W4]. unfold bib_add. eapply keep_command; [intros j; apply dispatch|]. unfold handle_bib_config. apply keep_permission.
    eapply keep_load; [apply ld_proto_first|].
    eapply keep_load; [apply (ld_taddr6_at (st_proto proto ++ padding 3)); done|].
    eapply keep_load; [apply (ld_taddr4_at (st_proto proto ++ padding 3 ++ st_taddr6 addr6)); done|].
    apply keep_static_add; [done|done|]. intros r. apply keep_code.
  - destruct Hok as [W6 W4]. unfold bib_remove. eapply keep_command; [intros j; apply dispatch|]. unfold handle_bib_config. apply keep_permission.
    eapply keep_load; [apply ld_proto_first|].
    set (a6 := default (TAddr6 (In6Addr 0) 0) addr6). set (a4 := default (TAddr4 (InAddr 0) 0) addr4).
    set (s6 := bool_decide (is_Some addr6)). set (s4 := bool_decide (is_Some addr4)).
    eapply (keep_load _ _ addr6).
    { pose proof (ld_bool_at (st_proto proto ++ padding 3) s6 (padding 3 ++ st_taddr6 a6 ++ [b2z s4] ++ padding 3 ++ st_taddr4 a4)) as Hb.
      rewrite <- app_assoc in Hb. change (length (st_proto proto ++ padding 3)) with 4%nat in Hb. rewrite Hb. cbn [mbind option_bind].
      subst s6. destruct addr6 as [a|]; [|rewrite bool_decide_eq_false_2 by (intros [? [=]]); done].
      rewrite bool_decide_eq_true_2 by eauto. cbn [ld_if].
      pose proof (ld_taddr6_at (st_proto proto ++ padding 3 ++ [b2z true] ++ padding 3) a ([b2z s4] ++ padding 3 ++ st_taddr4 a4) (W6 a eq_refl)) as Hr.
      rewrite <- !app_assoc in Hr. change (length (st_proto proto ++ padding 3 ++ [b2z true] ++ padding 3)) with 8%nat in Hr. change a6 with a. rewrite Hr. done. }
    eapply (keep_load _ _ addr4).
    { pose proof (ld_bool_at (st_proto proto ++ padding 3 ++ [b2z s6] ++ padding 3 ++ st_taddr6 a6) s4 (padding 3 ++ st_taddr4 a4)) as Hb.
      change (length (st_proto proto ++ padding 3 ++ [b2z s6] ++ padding 3 ++ st_taddr6 a6)) with 28%nat in Hb. rewrite <- !app_assoc in Hb. rewrite Hb. cbn [mbind option_bind].
      subst s4. destruct addr4 as [a|]; [|rewrite bool_decide_eq_false_2 by (intros [? [=]]); done].
      rewrite bool_decide_eq_true_2 by eauto. cbn [ld_if].
      pose proof (ld_taddr4_at (st_proto proto ++ padding 3 ++ [b2z s6] ++ padding 3 ++ st_taddr6 a6 ++ [b2z true] ++ padding 3) a [] (W4 a eq_refl)) as Hr.
      change (length (st_proto proto ++ padding 3 ++ [b2z s6] ++ padding 3 ++ st_taddr6 a6 ++ [b2z true] ++ padding 3)) with 32%nat in Hr.
      rewrite app_nil_r, <- !app_assoc in Hr. change a4 with a. rewrite Hr. done. }
    apply keep_bind; [apply keep_static_rm; done|]. intros r. apply keep_code.
Qed.

Lemma keep_cmd_global type data : command_ok (CmdGlobalUpdate type data) -> keep (run_command capable NLBUFFER_SIZE c pid (CmdGlobalUpdate type data)).
Proof.
  cbn [run_command command_ok]. intros (Ht & Hw & Hl). unfold usr_global_update. eapply keep_command; [intros j; apply dispatch|].
  assert (Hlen : u64 (le_num (le_bytes 4 (Z.of_nat HDR_LEN + (1 + blen data))) - Z.of_nat HDR_LEN - 1) = blen data).
  { unfold blen in *. change (Z.of_nat HDR_LEN) with 20. rewrite le_num_bytes by (change (2 ^ (8 * Z.of_nat 4)) with (2 ^ 32); lia).
    unfold u64. rewrite Z.mod_small; lia. }
  unfold handle_global_config. apply keep_bind; [|intros e; apply keep_respond].
  destruct (verify_superpriv capable); [apply keep_ret|]. eapply keep_load; [apply (ld_u8_at [] type data); done|].
  rewrite Hlen. change (drop 1 ([type] ++ data)) with data. apply keep_bind; [apply keep_update; split; [done|lia]|].
  intros [update|e]; [|apply keep_ret]. apply keep_bind; [|intros []; apply keep_ret]. destruct update; [apply keep_timers|apply keep_ret].
Qed.

End CommandsKeep.


(** ** A display shows all of its database *)

(** C30: displaying a pool shows all of it.  The module sends a database in
    chunks of what fits in a buffer, and the application asks for the next
    chunk with the last entry it received; whatever the sizes of the pool and
    of the buffer, which has at least 20 bytes (one prefix), if the pool does
    not change meanwhile and no allocation and no message fails, the loop of the
    application ends, having printed every prefix of pool6, and every prefix of
    the pools of the stateless translator, in order and once, and the module
    is left as it was but for the messages.  Pool6 satisfies its invariant,
    which its requests keep; the prefixes of the stateless pool are valid and
    do not intersect ([pool_ok]), which [pool_add] keeps and [pool_init], given other
    prefixes as parameters of the module, does not check. *)
Theorem pool_displays_complete {R : RbTree} {K : KernelLib} siit capable NLBUFFER_SIZE c pid j l (rfc : bool) p l4
    (Hbuf : 20 <= NLBUFFER_SIZE) (Hj : ready j)
    (H6 : j_pool6 j = Some l /\ pool6_inv siit (Some l))
    (H4 : (if rfc then sp_rfc6791 else sp_blacklist) (j_pools j) = Some p /\ ph_lists (sp_heap (j_pools j)) !! p = Some l4 /\ pool_ok l4) :
  (exists args j', pool6_display siit capable NLBUFFER_SIZE c pid (S (length l)) j = Some (Some args, j') /\ still j j' /\
     da_printed args = l /\ da_row_count args = u32 (Z.of_nat (length l))) /\
  (exists args j', pool_display true capable NLBUFFER_SIZE c pid (S (length l4)) (pool_mode rfc) j = Some (Some args, j') /\ still j j' /\
     da_printed args = l4 /\ da_row_count args = u32 (Z.of_nat (length l4))).
Proof.
  destruct H6 as [Hp Hi], H4 as (H4 & Hl & Hok). split.
  - apply pool6_display_run; done.
  - apply (pool_display_run capable NLBUFFER_SIZE c pid j ltac:(lia) Hj rfc p l4 H4 Hl Hok).
Qed.

(** C14: displaying the BIB or the sessions of a protocol shows all of them: if
    they do not change meanwhile, and no allocation and no message to the
    application fails, the loop of the application ends, having
    printed every entry of the table in the order of its index and once,
    whether it is static, how long it will live and its state included,
    whatever the number of entries and the size of the buffer, as long as
    the buffer has at least 72 bytes, what the largest entry takes. *)
Theorem nat64_displays_complete {R : RbTree} {L : RbTreeLaws R} {K : KernelLib} capable NLBUFFER_SIZE c pid j cfg proto
    (Hbuf : 72 <= NLBUFFER_SIZE) (Hj : ready j) (Hr : nat64_reachable (j_world j)) (Hcfg : cw_config (j_config j) = Some cfg)
    (Hp : proto <> L4PROTO_OTHER) :
  let bibs := bib_usr j <$> bib_of_proto proto (j_bib j) in
  let sessions := session_usr c j proto cfg <$> db_entries proto (j_sessions j) in
  (exists args j', bib_display false capable NLBUFFER_SIZE c pid (S (length bibs)) proto j = Some (Some args, j') /\ still j j' /\
     da_printed args = bibs /\ da_row_count args = u32 (Z.of_nat (length bibs))) /\
  (exists args j', session_display false capable NLBUFFER_SIZE c pid (S (length sessions)) proto j = Some (Some args, j') /\ still j j' /\
     da_printed args = sessions /\ da_row_count args = u32 (Z.of_nat (length sessions))).
Proof.
  pose proof (reachable_inv _ Hr) as Hi. split.
  - apply (bib_display_run capable NLBUFFER_SIZE c pid j Hj Hi proto Hp). lia.
  - apply (session_display_run capable NLBUFFER_SIZE c pid j Hj Hi proto Hp Hbuf cfg Hcfg).
Qed.

(** ** Removing a prefix of pool6 *)

Lemma first_byte p rest : wf_addr6 (p6_address p) -> ld_bool 0 (st_prefix6 p ++ rest) = Some (negb (s6_addr8 (p6_address p) 0 =? 0)).
Proof.
  intros Hw. unfold ld_bool, ld_u8, ld_le, st_prefix6, st_addr6. cbn [be_bytes]. rewrite <- !app_assoc. cbn [app].
  unfold field. cbn [length take drop Nat.leb Nat.add fmap option_fmap option_map le_num]. rewrite Z.mul_0_r, Z.add_0_r. reflexivity.
Qed.

(** Whether removing a prefix from pool6 also deletes its sessions is not
    decided by the user.  The handler reads [quick] in the wrong member of the
    union, where the prefix itself is: a prefix whose first byte is not 0
    keeps its sessions although the user did not ask for it, and the sessions
    of the others are deleted even with [--quick]. *)
Lemma pool6_remove_ignores_quick {R : RbTree} {L : RbTreeLaws R} {K : KernelLib} NLBUFFER_SIZE c pid j l p quick
    (Hj : ready j) (Hw : nat64_inv (j_world j)) (Hl : j_pool6 j = Some l) (Hi : pool6_inv false (Some l)) (Hp : p ∈ l) :
  exists j', usr_pool6_remove false true NLBUFFER_SIZE c pid p quick j = Some ([0], j') /\
    j_pool6 j' = Some (filter (fun q => q <> p) l) /\
    if s6_addr8 (p6_address p) 0 =? 0
    then forall proto x, x ∈ db_entries proto (j_sessions j') <->
           x ∈ db_entries proto (j_sessions j) /\ ~ prefix6_contains p (l3_6 (local6 x)) = true
    else j_world j' = j_world j.
Proof.
  pose proof Hi as (Hf & Hnd & _). rewrite Forall_forall in Hf. destruct (Hf p Hp) as (Hlen & Hwa & Hsuf).
  assert (Hu : 0 <= p6_len p <= 128) by (unfold rfc6052_len in Hlen; bool_to_prop; lia).
  set (s' := Some (filter (fun q => q <> p) l)). set (j1 := set_pool6 s' j).
  assert (Hrm : in_pool6 (pool6_remove p) j = Some (Ok tt, j1)).
  { unfold in_pool6, lift. rewrite Hl, pool6_remove_filter by done. done. }
  set (payload := st_prefix6 p ++ [b2z quick] ++ padding 3).
  set (w := (if negb (negb (s6_addr8 (p6_address p) 0 =? 0)) then in_world (on_db (sessiondb_delete_taddr6s p)) else mret tt) : M jool unit).
  assert (Hh : forall j2, w j1 = Some (tt, j2) -> ready j2 -> handle_netlink_message false true NLBUFFER_SIZE c (client_hdr pid)
    (request_bytes false POOL6_LEN MODE_POOL6 OP_REMOVE payload) j = Some (0, answered j2 (Response pid 0 NLMSG_ERROR 0 (PlError 0)))).
  { intros j2 Hrun Hj2. rewrite dispatch. unfold handle_pool6_config. cbn [verify_superpriv negb].
    unfold payload. rewrite ld_prefix6_first by (done || (unfold is_u8; lia)). rewrite some_bind, (bind_run _ _ _ _ _ Hrm).
    assert (Hq : nat64_not_quick false 0 payload j1 = Some (negb (negb (s6_addr8 (p6_address p) 0 =? 0)), j1))
      by (unfold nat64_not_quick, payload; rewrite first_byte by done; done).
    fold payload. rewrite (bind_run _ _ _ _ _ Hq).
    fold w. rewrite (bind_run _ _ _ _ _ Hrun). apply (respond_ready (client_hdr pid)). done. }
  assert (Hcmd : forall j2, w j1 = Some (tt, j2) -> ready j2 -> j_sent j2 = j_sent j ->
    usr_pool6_remove false true NLBUFFER_SIZE c pid p quick j = Some ([0], answered j2 (Response pid 0 NLMSG_ERROR 0 (PlError 0)))).
  { intros j2 Hrun Hj2 Hs. unfold usr_pool6_remove, command, gets, mbind, M_bind. specialize (Hh j2 Hrun Hj2). unfold client_hdr in Hh.
    fold payload. rewrite Hh. unfold answered at 1. cbn [set_sent j_sent]. rewrite Hs, drop_app_length. done. }
  destruct (s6_addr8 (p6_address p) 0 =? 0) eqn:E; cbn [negb] in w.
  - assert (Hev : event_ok (EvRmPrefix6 p)) by (split; [lia|split; [done|]]; apply prefix6_validate_clear; [lia|done|split; [lia|done]]).
    destruct (purge_run c (EvRmPrefix6 p) (j_world j) Hev eq_refl Hw) as (dw' & Hrun & _ & Hent & _).
    exists (answered (set_world (dw', (j_world j).2) j1) (Response pid 0 NLMSG_ERROR 0 (PlError 0))). split; [|split; [done|exact Hent]].
    apply Hcmd; [|done|done]. unfold w, in_world, lift. change (j_world j1) with (j_world j). cbn [handle] in Hrun. rewrite Hrun. done.
  - exists (answered j1 (Response pid 0 NLMSG_ERROR 0 (PlError 0))). split; [|done]. apply Hcmd; done.
Qed.

(** ** Displaying the configuration *)

Lemma serialize_run {K : KernelLib} cfg l p w empty : mtu_plateaus cfg = Some p -> cw_arrays w !! p = Some l ->
  mtu_plateau_count cfg = Z.of_nat (length l) -> cw_allocs w = [] ->
  exists shown, serialize_global_config cfg empty w = Some (Ok (shown, l), w) /\
    jool_status shown = b2z (negb (to_bool (is_disable cfg) || empty)) /\
    Config.ttl_udp (nc_ttl (gc_nat64 shown)) = jiffies_to_msecs (Config.ttl_udp (nc_ttl (gc_nat64 cfg))).
Proof.
  intros Hp Hl Hn Hal. unfold serialize_global_config. rewrite (bind_run _ _ _ _ _ (cw_alloc_run _)), Hal. cbn [kmalloc fst snd negb].
  unfold get, load, mbind, M_bind. rewrite Hp. cbn [cw_arrays]. rewrite Hl. eexists. split.
  - cbn [mtu_plateau_count with_ttl with_nat64]. rewrite Hn, Nat2Z.id, firstn_all. destruct w. cbn in *. subst. reflexivity.
  - done.
Qed.

(** Displaying the configuration costs memory.  The answer is right, the
    configuration with its timeouts in milliseconds and its plateaus, and
    whether the translator is working; but a second response follows it, an
    error with the code 0, and the copy of the array of plateaus that was made
    for the answer stays allocated when nothing points to it any more. *)
Lemma global_display_leaks {R : RbTree} {K : KernelLib} capable NLBUFFER_SIZE c pid j cfg l l6
    (Hj : ready j) (Hok : ConfigSpec.config_ok cfg l (j_config j)) (Hal : cw_allocs (j_config j) = []) (H6 : j_pool6 j = Some l6) :
  let lost := cw_next (j_config j) in
  exists j' shown, handle_netlink_message false capable NLBUFFER_SIZE c (client_hdr pid) (request_bytes false 0 MODE_GLOBAL OP_DISPLAY []) j = Some (0, j') /\
    j_sent j' = j_sent j ++ [Response pid 0 MSG_SETCFG 0 (PlGlobal shown l); Response pid 0 NLMSG_ERROR 0 (PlError 0)] /\
    jool_status shown = b2z (negb (to_bool (is_disable cfg) || match l6 with [] => true | _ => false end)) /\
    Config.ttl_udp (nc_ttl (gc_nat64 shown)) = jiffies_to_msecs (Config.ttl_udp (nc_ttl (gc_nat64 cfg))) /\
    cw_config (j_config j') = Some cfg /\ mtu_plateaus cfg <> Some lost /\
    cw_arrays (j_config j) !! lost = None /\ cw_arrays (j_config j') !! lost = Some l.
Proof.
  intros lost. pose proof Hok as (Hc & _ & _ & Hn & (p & Hp & Hpl) & Hfresh).
  assert (Hnone : cw_arrays (j_config j) !! lost = None).
  { destruct (cw_arrays (j_config j) !! lost) eqn:E; [|done]. specialize (Hfresh lost ltac:(eauto)). unfold lost in Hfresh. lia. }
  set (copy := with_plateaus (Some lost) (mtu_plateau_count cfg) cfg).
  set (w1 := ConfigWorld (cw_config (j_config j)) (<[lost := l]> (cw_arrays (j_config j))) (Pos.succ lost) []).
  assert (Hclone : in_cfg config_clone j = Some (Ok copy, set_cfg w1 j)).
  { unfold in_cfg, lift. rewrite (clone_run _ _ _ Hok). unfold after_alloc. rewrite Hal. done. }
  assert (H6' : in_pool6 pool6_is_empty (set_cfg w1 j) = Some (match l6 with [] => true | _ => false end, set_cfg w1 j)).
  { unfold in_pool6, lift. cbn [set_cfg j_pool6]. rewrite H6. destruct j. cbn in *. subst. destruct l6; done. }
  set (empty := match l6 with [] => true | _ => false end) in *.
  assert (Hser : exists shown, in_cfg (serialize_global_config copy empty) (set_cfg w1 j) = Some (Ok (shown, l), set_cfg w1 j) /\
    jool_status shown = b2z (negb (to_bool (is_disable cfg) || empty)) /\
    Config.ttl_udp (nc_ttl (gc_nat64 shown)) = jiffies_to_msecs (Config.ttl_udp (nc_ttl (gc_nat64 cfg)))).
  { destruct (serialize_run copy l lost w1 empty eq_refl (lookup_insert_eq _ _ _) Hn eq_refl) as (shown & Hrun & H1 & H2).
    exists shown. split; [|done]. unfold in_cfg, lift. cbn [set_cfg j_config]. rewrite Hrun. destruct j. done. }
  destruct Hser as (shown & Hser & Hst & Httl). rewrite dispatch. unfold handle_global_config.
  assert (Hr : ready (set_cfg w1 j)) by (destruct Hj; done).
  set (r1 := Response pid 0 MSG_SETCFG 0 (PlGlobal shown l)).
  assert (Hrun : (response ← in_cfg config_clone;
        match response with
        | Err e => mret (- errno_code e)
        | Ok response =>
            empty6 ← in_pool6 pool6_is_empty;
            disabled ← (if negb false then mret empty6 else if empty6 : bool then in_eamt eamt_is_empty else mret false);
            buffer ← in_cfg (serialize_global_config response disabled);
            match buffer with
            | Err e => mret (- errno_code e)
            | Ok (response, plateaus) => respond_setcfg (client_hdr pid) (PlGlobal response plateaus)
            end
        end) j = Some (0, answered (set_cfg w1 j) r1)).
  { rewrite (bind_run _ _ _ _ _ Hclone), (bind_run _ _ _ _ _ H6'). cbn [negb]. unfold mbind at 1, M_bind at 1, mret at 1, M_ret at 1.
    rewrite (bind_run _ _ _ _ _ Hser). apply (respond_ready (client_hdr pid)). done. }
  rewrite (bind_run _ _ _ _ _ Hrun). exists (answered (answered (set_cfg w1 j) r1) (Response pid 0 NLMSG_ERROR 0 (PlError 0))), shown.
  split; [apply (respond_ready (client_hdr pid)), ready_answered; done|]. split_and!; try done.
  - unfold answered, r1. cbn [set_sent set_cfg j_sent]. rewrite <- app_assoc. done.
  - rewrite Hp. intros [= ->]. rewrite Hnone in Hpl. done.
  - apply lookup_insert_eq.
Qed.

(** ** A scene *)

#[local] Existing Instances plain_rbtree plain_rbtree_laws sample_lib.

(** Two prefixes in pool6, two sessions, and the pools of [sample_heap]. *)
Definition scene_prefix : ipv6_prefix := Prefix6 (In6Addr (Z.shiftl 0x20010db8 96)) 32.

Definition scene_jool : jool :=
  Jool (Some [wkp; scene_prefix]) palloc_pool scene_two (eamt_init [] []) (SiitPools sample_heap (Some 1%positive) (Some 1%positive)) sample_world [] [] [].

Lemma scene_pool6_inv : pool6_inv false (Some [wkp; scene_prefix]).
Proof.
  split; [|split; [|done]].
  - repeat constructor; vm_compute; done.
  - apply NoDup_cons. split; [|apply NoDup_singleton]. intros H. apply list_elem_of_singleton in H. done.
Qed.

Lemma scene_jool_inv : jool_inv scene_cfg scene_jool.
Proof.
  split; [split; [exact scene_pool6_inv|eauto]|exact palloc_pool_inv|apply reachable_inv, scene_two_reachable|].
  destruct (init_ok false [] sample_world eq_refl) as [cfg Hcfg]. eauto.
Qed.

Lemma unprivileged_only_reads_witness :
  match handle_netlink_message false false 3760 scene_cfg (client_hdr 7) (request_bytes false POOL6_LEN MODE_POOL6 OP_FLUSH (padding 24)) scene_jool with
  | Some (_, j') => j_pool6 j' = j_pool6 scene_jool /\ j_sent j' = [Response 7 0 NLMSG_ERROR 0 (PlError 1)]
  | None => False
  end.
Proof.
  destruct (handle_netlink_message false false 3760 scene_cfg (client_hdr 7) (request_bytes false POOL6_LEN MODE_POOL6 OP_FLUSH (padding 24)) scene_jool)
    as [[r j']|] eqn:E.
  - split; [exact (same_pool6 _ _ _ (unprivileged_only_reads false 3760 scene_cfg _ _ _ _ _ E))|].
    rewrite dispatch in E. injection E as _ <-. reflexivity.
  - rewrite dispatch in E. discriminate E.
Defined.


(** A buffer for one prefix of pool6, or two of the other pools. *)
Lemma pool_displays_complete_witness :
  exists args j', pool_display true true 20 scene_cfg 7 3 MODE_BLACKLIST scene_jool = Some (Some args, j') /\ da_printed args = sample_pool.
Proof.
  destruct (pool_displays_complete false true 20 scene_cfg 7 scene_jool [wkp; scene_prefix] false 1%positive sample_pool) as [_ (args & j' & Hrun & _ & Hp & _)].
  - lia.
  - done.
  - split; [done|exact scene_pool6_inv].
  - split; [done|]. split; [done|exact sample_pool_ok].
  - exists args, j'. split; [exact Hrun|exact Hp].
Defined.

(** A buffer for one session: there are two. *)
Lemma nat64_displays_complete_witness :
  exists args j', session_display false true 72 scene_cfg 7 3 L4PROTO_TCP scene_jool = Some (Some args, j') /\ length (da_printed args) = 2%nat.
Proof.
  destruct (init_ok false [] sample_world eq_refl) as (cfg & Hcfg & _).
  destruct (nat64_displays_complete true 72 scene_cfg 7 scene_jool cfg L4PROTO_TCP) as [_ (args & j' & Hrun & _ & Hp & _)];
    [lia|done|exact scene_two_reachable|exact Hcfg|done|].
  exists args, j'. rewrite Hp. split; [exact Hrun|]. rewrite length_fmap. vm_compute. reflexivity.
Defined.

