(* ===== verification/StrUtils.v ===== *)
(** * Values in the command line

    [usr/common/str_utils.c]: how the application reads numbers, addresses,
    prefixes, port ranges and lists, and prints times.

    A string ends where it ends: there is no character 0 in it.  The numbers
    that are returned as errors are kept with their sign, because
    [str_to_ull] returns [errno] as it is.  [inet_pton] is an argument. *)
From Stdlib Require Import Ascii.
From stdpp Require Import strings.
From S2P Require Import Prelude Types Address.

(** ** Results *)

(** 0 and what was read, or an error code. *)
Inductive status (A : Type) : Type :=
| Success (a : A)
| Failure (error : Z).
Arguments Success {A} a.
Arguments Failure {A} error.

#[global] Instance status_ret : MRet status := fun A a => Success a.
#[global] Instance status_bind : MBind status := fun A B f r =>
  match r with Success a => f a | Failure e => Failure e end.

(** [-EINVAL], and [errno] after an overflow. *)
Definition invalid : Z := - errno_code EINVAL.
Definition ERANGE : Z := 34.

(** ** The C library *)

Definition char_num (c : Ascii.ascii) : Z := Z.of_N (Ascii.N_of_ascii c).

Definition digit (c : Ascii.ascii) : option Z :=
  if (48 <=? char_num c) && (char_num c <=? 57) then Some (char_num c - 48) else None.

(** The digits of [strtoull], in base 10, and the rest of the string. *)
Fixpoint strtoull_loop (acc : Z) (s : string) : Z * string :=
  match s with
  | EmptyString => (acc, s)
  | String.String c tl => match digit c with Some d => strtoull_loop (10 * acc + d) tl | None => (acc, s) end
  end.

Definition tolower (c : Ascii.ascii) : Ascii.ascii :=
  if (65 <=? char_num c) && (char_num c <=? 90) then Ascii.ascii_of_N (Ascii.N_of_ascii c + 32) else c.

Fixpoint strcasecmp (a b : string) : bool :=
  match a, b with
  | EmptyString, EmptyString => true
  | String.String x a, String.String y b => Ascii.eqb (tolower x) (tolower y) && strcasecmp a b
  | _, _ => false
  end.

Definition strlen (s : string) : Z := Z.of_nat (String.length s).

(** [strtok]: the characters up to the next delimiter, and what is after it. *)
Fixpoint token_of (delim : Ascii.ascii) (s : string) : string * string :=
  match s with
  | EmptyString => (EmptyString, EmptyString)
  | String.String c tl =>
      if Ascii.eqb c delim then (EmptyString, tl)
      else let '(tok, rest) := token_of delim tl in (String.String c tok, rest)
  end.
Fixpoint strtok (delim : Ascii.ascii) (s : string) : option (string * string) :=
  match s with
  | EmptyString => None
  | String.String c tl => if Ascii.eqb c delim then strtok delim tl else Some (token_of delim s)
  end.

(** [printf("%llu")], for 64 bits. *)
Definition digit_char (d : Z) : Ascii.ascii := Ascii.ascii_of_N (Z.to_N (48 + d)).
Fixpoint decimal (fuel : nat) (n : Z) (acc : string) : string :=
  match fuel with
  | O => acc
  | S fuel =>
      let acc := String.String (digit_char (n `mod` 10)) acc in
      if n <? 10 then acc else decimal fuel (n `div` 10) acc
  end.
Definition printf_u (n : Z) : string := decimal 20 n EmptyString.

(** ** Numbers *)

(** The number, and the string from [*endptr] on. *)
Definition str_to_ull (str : string) (min max : Z) : status (Z * string) :=
  match str with
  | EmptyString => Failure invalid
  | String.String c _ =>
      match digit c with
      | None => Failure invalid
      | Some _ =>
          let '(parsed, endptr) := strtoull_loop 0 str in
          if 2^64 - 1 <? parsed then Failure ERANGE
          else if (parsed <? min) || (max <? parsed) then Failure invalid
          else Success (parsed, endptr)
      end
  end.

Definition str_to_bool (str : string) : status Z :=
  if strcasecmp str "true" || strcasecmp str "1" || strcasecmp str "yes" || strcasecmp str "on" then Success 1
  else if strcasecmp str "false" || strcasecmp str "0" || strcasecmp str "no" || strcasecmp str "off" then Success 0
  else Failure invalid.

Definition str_to_u8 (str : string) (min max : Z) : status Z := '(result, _) ← str_to_ull str min max; Success (u8 result).
Definition str_to_u16 (str : string) (min max : Z) : status Z := '(result, _) ← str_to_ull str min max; Success (u16 result).
Definition str_to_u32 (str : string) (min max : Z) : status Z := '(result, _) ← str_to_ull str min max; Success (u32 result).
Definition str_to_u64 (str : string) (min max : Z) : status Z := '(result, _) ← str_to_ull str min max; Success (u64 result).

Definition str_to_port_range (str : string) : status port_range :=
  '(tmp, endptr) ← str_to_ull str 0 65535;
  let min := u16 tmp in
  match endptr with
  | String.String "-"%char next => '(tmp, _) ← str_to_ull next 0 65535; Success (PortRange min (u16 tmp))
  | _ => Success (PortRange min min)
  end.

(** The two passes over the tokens; [fuel] is the length of the string. *)
Fixpoint count_tokens (fuel : nat) (s : string) : Z :=
  match fuel with
  | O => 0
  | S fuel => match strtok ","%char s with None => 0 | Some (_, rest) => 1 + count_tokens fuel rest end
  end.
Fixpoint parse_tokens (fuel : nat) (s : string) : status (list Z) :=
  match fuel with
  | O => Success []
  | S fuel =>
      match strtok ","%char s with
      | None => Success []
      | Some (token, rest) => x ← str_to_u16 token 0 0xffff; l ← parse_tokens fuel rest; Success (x :: l)
      end
  end.

(** Whether [malloc] of so many bytes succeeds. *)
Definition str_to_u16_array (malloc : Z -> bool) (str : string) : status (list Z) :=
  if 2048 <? strlen str + 1 then Failure invalid
  else
    let array_len := count_tokens (String.length str) str in
    if array_len =? 0 then Failure invalid
    else if negb (malloc (array_len * 2)) then Failure (- errno_code ENOMEM)
    else parse_tokens (String.length str) str.

(** ** Addresses *)

Definition INET_ADDRSTRLEN : Z := 16.
Definition INET6_ADDRSTRLEN : Z := 46.
Definition IPV4_MAX_PREFIX : Z := 32.
Definition IPV6_MAX_PREFIX : Z := 128.
Definition MAX_PORT : Z := 0xffff.

Section Addresses.
Context (inet_pton4 : string -> option in_addr) (inet_pton6 : string -> option in6_addr).

Definition str_to_addr4 (str : string) : status in_addr :=
  match inet_pton4 str with None => Failure invalid | Some result => Success result end.
Definition str_to_addr6 (str : string) : status in6_addr :=
  match inet_pton6 str with None => Failure invalid | Some result => Success result end.

Definition str_to_addr4_port (str : string) : status ipv4_transport_addr :=
  if INET_ADDRSTRLEN + 1 + 5 <? strlen str + 1 then Failure invalid
  else match strtok "#"%char str with
  | None => Failure invalid
  | Some (token, rest) =>
      l3 ← str_to_addr4 token;
      match strtok "#"%char rest with
      | None => Failure invalid
      | Some (token, _) => l4 ← str_to_u16 token 0 MAX_PORT; Success (TAddr4 l3 l4)
      end
  end.

Definition str_to_addr6_port (str : string) : status ipv6_transport_addr :=
  if INET6_ADDRSTRLEN + 1 + 5 <? strlen str + 1 then Failure invalid
  else match strtok "#"%char str with
  | None => Failure invalid
  | Some (token, rest) =>
      l3 ← str_to_addr6 token;
      match strtok "#"%char rest with
      | None => Failure invalid
      | Some (token, _) => l4 ← str_to_u16 token 0 MAX_PORT; Success (TAddr6 l3 l4)
      end
  end.

Definition str_to_ipv4_prefix (str : string) : status ipv4_prefix :=
  if INET_ADDRSTRLEN + 1 + 2 <? strlen str + 1 then Failure invalid
  else match strtok "/"%char str with
  | None => Failure invalid
  | Some (token, rest) =>
      address ← str_to_addr4 token;
      match strtok "/"%char rest with
      | None => Success (Prefix4 address IPV4_MAX_PREFIX)
      | Some (token, _) => len ← str_to_u8 token 0 32; Success (Prefix4 address len)
      end
  end.

Definition str_to_ipv6_prefix (str : string) : status ipv6_prefix :=
  if INET6_ADDRSTRLEN + 1 + 3 <? strlen str + 1 then Failure invalid
  else match strtok "/"%char str with
  | None => Failure invalid
  | Some (token, rest) =>
      address ← str_to_addr6 token;
      match strtok "/"%char rest with
      | None => Success (Prefix6 address IPV6_MAX_PREFIX)
      | Some (token, _) => len ← str_to_u8 token 0 128; Success (Prefix6 address len)
      end
  end.

End Addresses.

(** ** Printing *)

Definition l4proto_to_string (l4_proto : l4_protocol) : string :=
  match l4_proto with L4PROTO_TCP => "TCP" | L4PROTO_UDP => "UDP" | L4PROTO_ICMP => "ICMP" | L4PROTO_OTHER => "unknown" end.

Definition print_num_csv (num : Z) (separator : string) : string :=
  if num <? 10 then ("0" ++ printf_u num ++ separator)%string else (printf_u num ++ separator)%string.

Definition print_time_csv (millis : Z) : string :=
  let MILLIS_PER_SECOND := 1000 in
  let MILLIS_PER_MIN := 60 * MILLIS_PER_SECOND in
  let MILLIS_PER_HOUR := 60 * MILLIS_PER_MIN in
  let hours := millis `div` MILLIS_PER_HOUR in
  let millis := millis - hours * MILLIS_PER_HOUR in
  let minutes := millis `div` MILLIS_PER_MIN in
  let millis := millis - minutes * MILLIS_PER_MIN in
  let seconds := millis `div` MILLIS_PER_SECOND in
  let millis := millis - seconds * MILLIS_PER_SECOND in
  (print_num_csv hours ":" ++ print_num_csv minutes ":" ++ print_num_csv seconds "." ++ printf_u millis)%string.

Definition newline : string := String.String (Ascii.ascii_of_N 10) EmptyString.

Definition print_time_friendly (millis : Z) : string :=
  if millis <? 1000 then (printf_u millis ++ " milliseconds" ++ newline)%string
  else
    let seconds := millis `div` 1000 in
    if seconds <? 60 then (printf_u seconds ++ " seconds" ++ newline)%string
    else
      let minutes := seconds `div` 60 in
      let seconds := seconds `mod` 60 in
      if minutes <? 60 then (printf_u minutes ++ " minutes, " ++ printf_u seconds ++ " seconds" ++ newline)%string
      else
        let hours := minutes `div` 60 in
        let minutes := minutes `mod` 60 in
        (printf_u hours ++ " hours, " ++ printf_u minutes ++ " minutes" ++ newline)%string.

(** The milliseconds are printed without zeros before them: this is one second
    and five thousandths. *)
Example print_time_csv_unpadded : print_time_csv 1005 = "00:00:01.5"%string.
Proof. reflexivity. Qed.

(** ** Reading what was printed *)

Lemma digit_digit_char d : 0 <= d < 10 -> digit (digit_char d) = Some d.
Proof.
  intros Hd. assert (Hc : d ∈ seqZ 0 10) by (apply elem_of_seqZ; lia).
  revert d Hd Hc. assert (Hall : Forall (fun d => digit (digit_char d) = Some d) (seqZ 0 10)) by (vm_compute; repeat constructor).
  intros d _ Hc. rewrite Forall_forall in Hall. exact (Hall d Hc).
Qed.

Lemma decimal_reads fuel n acc : (0 < fuel)%nat -> 0 <= n < 10 ^ Z.of_nat fuel -> strtoull_loop 0 (decimal fuel n acc) = strtoull_loop n acc.
Proof.
  revert n acc. induction fuel as [|fuel IH]; [lia|]. intros n acc _ Hn. cbn [decimal].
  pose proof (Z.mod_pos_bound n 10 ltac:(lia)) as Hm.
  destruct (Z.ltb_spec n 10) as [Hlt|Hge].
  - cbn [strtoull_loop]. rewrite digit_digit_char by lia. rewrite Z.mod_small by lia. done.
  - assert (Hf : (0 < fuel)%nat) by (destruct fuel; [cbn in Hn; lia|lia]).
    rewrite IH; [|exact Hf|].
    + cbn [strtoull_loop]. rewrite digit_digit_char by lia. f_equal. pose proof (Z.div_mod n 10 ltac:(lia)). lia.
    + rewrite Nat2Z.inj_succ, Z.pow_succ_r in Hn by lia. split; [apply Z.div_pos; lia|apply Z.div_lt_upper_bound; lia].
Qed.

Lemma decimal_head fuel n acc : (0 < fuel)%nat -> exists c tl d, decimal fuel n acc = String.String c tl /\ digit c = Some d.
Proof.
  revert n acc. induction fuel as [|fuel IH]; [lia|]. intros n acc _. cbn [decimal].
  pose proof (Z.mod_pos_bound n 10 ltac:(lia)) as Hm.
  assert (Hhere : exists c tl d, String.String (digit_char (n `mod` 10)) acc = String.String c tl /\ digit c = Some d).
  { eexists _, _, _. split; [done|]. apply digit_digit_char. lia. }
  destruct (n <? 10); [exact Hhere|]. destruct fuel; [exact Hhere|]. apply IH. lia.
Qed.

Lemma decimal_lacks fuel n acc c : digit c = None -> strchr acc c = false -> strchr (decimal fuel n acc) c = false.
Proof.
  intros Hc. revert n acc. induction fuel as [|fuel IH]; [done|]. intros n acc Hacc. cbn [decimal].
  pose proof (Z.mod_pos_bound n 10 ltac:(lia)) as Hm.
  assert (Hs : strchr (String.String (digit_char (n `mod` 10)) acc) c = false).
  { cbn [strchr]. rewrite Hacc, orb_false_r. apply Ascii.eqb_neq. intros ->. rewrite digit_digit_char in Hc by lia. done. }
  destruct (n <? 10); [exact Hs|]. apply IH. exact Hs.
Qed.

Lemma decimal_length fuel n acc k : 0 <= n < 10 ^ Z.of_nat k -> (0 < k)%nat -> (String.length (decimal fuel n acc) <= k + String.length acc)%nat.
Proof.
  revert n acc k. induction fuel as [|fuel IH]; [cbn; lia|]. intros n acc k Hn Hk. cbn [decimal].
  destruct (Z.ltb_spec n 10) as [Hlt|Hge]; [cbn [String.length]; lia|].
  destruct k as [|[|k]]; [lia|cbn in Hn; lia|].
  etransitivity; [apply (IH _ _ (S k)); [|lia]|cbn [String.length]; lia].
  rewrite (Nat2Z.inj_succ (S k)), Z.pow_succ_r in Hn by lia. split; [apply Z.div_pos; lia|apply Z.div_lt_upper_bound; lia].
Qed.

Lemma decimal_app fuel n acc rest : (decimal fuel n acc ++ rest)%string = decimal fuel n (acc ++ rest)%string.
Proof. revert n acc. induction fuel as [|fuel IH]; intros n acc; cbn [decimal]; [done|]. destruct (n <? 10); [done|]. rewrite IH. done. Qed.

(** No digit follows. *)
Definition ends_number (rest : string) : Prop :=
  match rest with EmptyString => True | String.String c _ => digit c = None end.

Lemma str_to_ull_printed n min max rest : 0 <= min -> min <= n <= max -> max < 2^64 -> ends_number rest ->
  str_to_ull (printf_u n ++ rest)%string min max = Success (n, rest).
Proof.
  intros Hmin Hn Hmax Hrest. unfold printf_u. rewrite decimal_app. change (EmptyString ++ rest)%string with rest.
  destruct (decimal_head 20 n rest ltac:(lia)) as (c & tl & d & E & Hd).
  pose proof (decimal_reads 20 n rest ltac:(lia) ltac:(cbn; lia)) as Hr. rewrite E in Hr |- *. unfold str_to_ull. rewrite Hd, Hr.
  assert (Hl : strtoull_loop n rest = (n, rest)) by (clear - Hrest; destruct rest as [|c s]; [done|]; unfold ends_number in Hrest; cbn [strtoull_loop]; rewrite Hrest; done).
  rewrite Hl.
  destruct (Z.ltb_spec (2^64 - 1) n); [lia|]. destruct (Z.ltb_spec n min); [lia|]. destruct (Z.ltb_spec max n); [lia|]. done.
Qed.

Lemma append_empty_r (s : string) : (s ++ EmptyString)%string = s.
Proof. induction s as [|c s IH]; [done|]. change (String.String c (s ++ EmptyString)%string = String.String c s). rewrite IH. done. Qed.

Lemma str_to_ull_printed_only n min max : 0 <= min -> min <= n <= max -> max < 2^64 -> str_to_ull (printf_u n) min max = Success (n, EmptyString).
Proof. intros. rewrite <- (append_empty_r (printf_u n)). apply str_to_ull_printed; done. Qed.

Lemma str_to_u8_printed n min max : 0 <= min -> min <= n <= max -> max < 2^8 -> str_to_u8 (printf_u n) min max = Success n.
Proof. intros. unfold str_to_u8. rewrite str_to_ull_printed_only by lia. cbn. unfold u8. rewrite Z.mod_small by lia. done. Qed.
Lemma str_to_u16_printed n min max : 0 <= min -> min <= n <= max -> max < 2^16 -> str_to_u16 (printf_u n) min max = Success n.
Proof. intros. unfold str_to_u16. rewrite str_to_ull_printed_only by lia. cbn. unfold u16. rewrite Z.mod_small by lia. done. Qed.
Lemma str_to_u32_printed n min max : 0 <= min -> min <= n <= max -> max < 2^32 -> str_to_u32 (printf_u n) min max = Success n.
Proof. intros. unfold str_to_u32. rewrite str_to_ull_printed_only by lia. cbn. unfold u32. rewrite Z.mod_small by lia. done. Qed.
Lemma str_to_u64_printed n min max : 0 <= min -> min <= n <= max -> max < 2^64 -> str_to_u64 (printf_u n) min max = Success n.
Proof. intros. unfold str_to_u64. rewrite str_to_ull_printed_only by lia. cbn. unfold u64. rewrite Z.mod_small by lia. done. Qed.

Lemma printf_u_lacks n c : digit c = None -> strchr (printf_u n) c = false.
Proof. intros Hc. apply decimal_lacks; done. Qed.
Lemma printf_u_nonempty n : printf_u n <> EmptyString.
Proof. unfold printf_u. destruct (decimal_head 20 n EmptyString ltac:(lia)) as (c & tl & d & -> & _). done. Qed.
Lemma printf_u_length n k : 0 <= n < 10 ^ Z.of_nat k -> (0 < k)%nat -> (String.length (printf_u n) <= k)%nat.
Proof. intros Hn Hk. pose proof (decimal_length 20 n EmptyString k Hn Hk). unfold printf_u. cbn [String.length] in *. lia. Qed.

(** Tokens. *)
Lemma append_cons c (a b : string) : (String.String c a ++ b)%string = String.String c (a ++ b)%string.
Proof. done. Qed.

Lemma token_of_app d a b : strchr a d = false -> token_of d (a ++ String.String d b)%string = (a, b).
Proof.
  induction a as [|c a IH]; intros H.
  - change (EmptyString ++ String.String d b)%string with (String.String d b). cbn [token_of]. rewrite Ascii.eqb_refl. done.
  - rewrite append_cons. cbn [token_of strchr] in *. apply orb_false_elim in H as [Hc H]. rewrite Ascii.eqb_sym, Hc, IH by done. done.
Qed.
Lemma token_of_whole d a : strchr a d = false -> token_of d a = (a, EmptyString).
Proof.
  induction a as [|c a IH]; intros H; [done|].
  cbn [token_of strchr] in *. apply orb_false_elim in H as [Hc H]. rewrite Ascii.eqb_sym, Hc, IH by done. done.
Qed.
Lemma strtok_app d a b : a <> EmptyString -> strchr a d = false -> strtok d (a ++ String.String d b)%string = Some (a, b).
Proof.
  intros Ha H. destruct a as [|c a]; [done|]. pose proof (token_of_app d (String.String c a) b H) as Ht.
  rewrite append_cons in *. cbn [strtok strchr] in *. apply orb_false_elim in H as [Hc _]. rewrite Ascii.eqb_sym, Hc, Ht. done.
Qed.
Lemma strtok_whole d a : a <> EmptyString -> strchr a d = false -> strtok d a = Some (a, EmptyString).
Proof.
  intros Ha H. destruct a as [|c a]; [done|]. pose proof (token_of_whole d (String.String c a) H) as Ht.
  cbn [strtok strchr] in *. apply orb_false_elim in H as [Hc _]. rewrite Ascii.eqb_sym, Hc, Ht. done.
Qed.

Lemma length_append (a b : string) : String.length (a ++ b)%string = (String.length a + String.length b)%nat.
Proof. induction a as [|c a IH]; [done|]. change (S (String.length (a ++ b)%string) = S (String.length a + String.length b)). rewrite IH. done. Qed.

(** A list of numbers, as the user writes it. *)
Fixpoint print_list (l : list Z) : string :=
  match l with
  | [] => EmptyString
  | [x] => printf_u x
  | x :: l => (printf_u x ++ String.String ","%char (print_list l))%string
  end.

Lemma print_list_cons x y l : print_list (x :: y :: l) = (printf_u x ++ String.String ","%char (print_list (y :: l)))%string.
Proof. done. Qed.

Lemma strtok_list x l : exists rest, strtok ","%char (print_list (x :: l)) = Some (printf_u x, rest) /\ rest = print_list l.
Proof.
  eexists. split; [|done]. destruct l as [|y l].
  - apply strtok_whole; [apply printf_u_nonempty|apply printf_u_lacks; done].
  - rewrite print_list_cons. apply strtok_app; [apply printf_u_nonempty|apply printf_u_lacks; done].
Qed.

Lemma print_list_length l : (length l <= String.length (print_list l))%nat.
Proof.
  induction l as [|x l IH]; [cbn; lia|]. pose proof (printf_u_nonempty x) as Hx.
  destruct l as [|y l]; [cbn [print_list length]; destruct (printf_u x); [done|cbn; lia]|].
  rewrite print_list_cons, length_append. destruct (printf_u x); [done|]. cbn [String.length length] in *. lia.
Qed.

Lemma tokens_printed l fuel : Forall is_u16 l -> (length l <= fuel)%nat ->
  count_tokens fuel (print_list l) = Z.of_nat (length l) /\ parse_tokens fuel (print_list l) = Success l.
Proof.
  revert fuel. induction l as [|x l IH]; intros fuel Hl Hf; [destruct fuel; done|].
  destruct fuel as [|fuel]; [cbn in Hf; lia|]. apply Forall_cons in Hl as [Hx Hl].
  destruct (strtok_list x l) as (rest & Ht & ->). destruct (IH fuel Hl ltac:(cbn in Hf; lia)) as [Hc Hp].
  cbn [count_tokens parse_tokens]. rewrite Ht, Hc, Hp. unfold is_u16 in Hx. rewrite str_to_u16_printed by lia.
  split; [cbn [length]; lia|done].
Qed.

Lemma str_to_u16_array_printed malloc l : l <> [] -> Forall is_u16 l -> strlen (print_list l) < 2048 -> malloc (Z.of_nat (length l) * 2) = true ->
  str_to_u16_array malloc (print_list l) = Success l.
Proof.
  intros Hn Hl Hs Hm. destruct (tokens_printed l (String.length (print_list l)) Hl (print_list_length l)) as [Hc Hp].
  unfold str_to_u16_array. rewrite Hc, Hp, Hm. destruct (Z.ltb_spec 2048 (strlen (print_list l) + 1)); [lia|].
  destruct (Z.eqb_spec (Z.of_nat (length l)) 0); [destruct l; [done|cbn in *; lia]|done].
Qed.

(** *** Ranges *)

Definition print_range (r : port_range) : string := (printf_u (r_min r) ++ String.String "-"%char (printf_u (r_max r)))%string.

Lemma str_to_port_range_printed r : is_u16 (r_min r) -> is_u16 (r_max r) -> str_to_port_range (print_range r) = Success r.
Proof.
  unfold is_u16. intros Hmin Hmax. unfold str_to_port_range, print_range.
  rewrite str_to_ull_printed by (try lia; done). cbn [mbind status_bind]. rewrite str_to_ull_printed_only by lia.
  cbn [mbind status_bind]. unfold u16. rewrite !Z.mod_small by lia. destruct r. done.
Qed.

Lemma str_to_port_range_one n : is_u16 n -> str_to_port_range (printf_u n) = Success (PortRange n n).
Proof.
  unfold is_u16. intros Hn. unfold str_to_port_range. rewrite str_to_ull_printed_only by lia. cbn [mbind status_bind].
  unfold u16. rewrite Z.mod_small by lia. done.
Qed.

(** *** Addresses *)

Section Read.
Context (inet_pton4 : string -> option in_addr) (inet_pton6 : string -> option in6_addr).

(** The C library reads the address from the text. *)
Definition reads4 (s : string) (a : in_addr) : Prop :=
  inet_pton4 s = Some a /\ strlen s < INET_ADDRSTRLEN /\ s <> EmptyString /\
  strchr s "/"%char = false /\ strchr s "#"%char = false /\ strchr s ":"%char = false /\ strchr s "."%char = true.
Definition reads6 (s : string) (a : in6_addr) : Prop :=
  inet_pton6 s = Some a /\ strlen s < INET6_ADDRSTRLEN /\ s <> EmptyString /\
  strchr s "/"%char = false /\ strchr s "#"%char = false /\ strchr s ":"%char = true.

Definition with_number (s : string) (sep : Ascii.ascii) (n : Z) : string := (s ++ String.String sep (printf_u n))%string.

Lemma with_number_length s sep n k : 0 <= n < 10 ^ Z.of_nat k -> (0 < k)%nat -> strlen (with_number s sep n) <= strlen s + 1 + Z.of_nat k.
Proof.
  intros Hn Hk. pose proof (printf_u_length n k Hn Hk). unfold strlen, with_number. rewrite length_append. cbn [String.length]. lia.
Qed.

Lemma str_to_ipv6_prefix_printed s a len : reads6 s a -> 0 <= len <= 128 ->
  str_to_ipv6_prefix inet_pton6 (with_number s "/"%char len) = Success (Prefix6 a len).
Proof.
  intros (Hp & Hl & He & Hs & _) Hlen. pose proof (with_number_length s "/"%char len 3 ltac:(cbn; lia) ltac:(lia)).
  unfold str_to_ipv6_prefix, INET6_ADDRSTRLEN in *. destruct (Z.ltb_spec (46 + 1 + 3) (strlen (with_number s "/"%char len) + 1)); [lia|].
  unfold with_number. rewrite strtok_app by done. unfold str_to_addr6. rewrite Hp. cbn [mbind status_bind].
  rewrite strtok_whole by (try apply printf_u_nonempty; apply printf_u_lacks; done). rewrite str_to_u8_printed by lia. done.
Qed.

Lemma str_to_ipv6_prefix_alone s a : reads6 s a -> str_to_ipv6_prefix inet_pton6 s = Success (Prefix6 a 128).
Proof.
  intros (Hp & Hl & He & Hs & _). unfold str_to_ipv6_prefix, INET6_ADDRSTRLEN in *. destruct (Z.ltb_spec (46 + 1 + 3) (strlen s + 1)); [lia|].
  rewrite strtok_whole by done. unfold str_to_addr6. rewrite Hp. done.
Qed.

Lemma str_to_ipv4_prefix_printed s a len : reads4 s a -> 0 <= len <= 32 ->
  str_to_ipv4_prefix inet_pton4 (with_number s "/"%char len) = Success (Prefix4 a len).
Proof.
  intros (Hp & Hl & He & Hs & _) Hlen. pose proof (with_number_length s "/"%char len 2 ltac:(cbn; lia) ltac:(lia)).
  unfold str_to_ipv4_prefix, INET_ADDRSTRLEN in *. destruct (Z.ltb_spec (16 + 1 + 2) (strlen (with_number s "/"%char len) + 1)); [lia|].
  unfold with_number. rewrite strtok_app by done. unfold str_to_addr4. rewrite Hp. cbn [mbind status_bind].
  rewrite strtok_whole by (try apply printf_u_nonempty; apply printf_u_lacks; done). rewrite str_to_u8_printed by lia. done.
Qed.

Lemma str_to_ipv4_prefix_alone s a : reads4 s a -> str_to_ipv4_prefix inet_pton4 s = Success (Prefix4 a 32).
Proof.
  intros (Hp & Hl & He & Hs & _). unfold str_to_ipv4_prefix, INET_ADDRSTRLEN in *. destruct (Z.ltb_spec (16 + 1 + 2) (strlen s + 1)); [lia|].
  rewrite strtok_whole by done. unfold str_to_addr4. rewrite Hp. done.
Qed.

Lemma str_to_addr6_port_printed s a port : reads6 s a -> is_u16 port ->
  str_to_addr6_port inet_pton6 (with_number s "#"%char port) = Success (TAddr6 a port).
Proof.
  unfold is_u16. intros (Hp & Hl & He & _ & Hs & _) Hport. pose proof (with_number_length s "#"%char port 5 ltac:(cbn; lia) ltac:(lia)).
  unfold str_to_addr6_port, INET6_ADDRSTRLEN in *. destruct (Z.ltb_spec (46 + 1 + 5) (strlen (with_number s "#"%char port) + 1)); [lia|].
  unfold with_number. rewrite strtok_app by done. unfold str_to_addr6. rewrite Hp. cbn [mbind status_bind].
  rewrite strtok_whole by (try apply printf_u_nonempty; apply printf_u_lacks; done). rewrite str_to_u16_printed by (unfold MAX_PORT; lia). done.
Qed.

Lemma str_to_addr4_port_printed s a port : reads4 s a -> is_u16 port ->
  str_to_addr4_port inet_pton4 (with_number s "#"%char port) = Success (TAddr4 a port).
Proof.
  unfold is_u16. intros (Hp & Hl & He & _ & Hs & _) Hport. pose proof (with_number_length s "#"%char port 5 ltac:(cbn; lia) ltac:(lia)).
  unfold str_to_addr4_port, INET_ADDRSTRLEN in *. destruct (Z.ltb_spec (16 + 1 + 5) (strlen (with_number s "#"%char port) + 1)); [lia|].
  unfold with_number. rewrite strtok_app by done. unfold str_to_addr4. rewrite Hp. cbn [mbind status_bind].
  rewrite strtok_whole by (try apply printf_u_nonempty; apply printf_u_lacks; done). rewrite str_to_u16_printed by (unfold MAX_PORT; lia). done.
Qed.

End Read.

(** *** Only values in range are accepted *)

Lemma str_to_ull_bounds s min max n rest : str_to_ull s min max = Success (n, rest) -> min <= n <= max /\ n < 2^64.
Proof.
  unfold str_to_ull. destruct s as [|c s]; [done|]. destruct (digit c); [|done].
  destruct (strtoull_loop 0 (String.String c s)) as [parsed endptr].
  destruct (Z.ltb_spec (2^64 - 1) parsed); [done|]. destruct (Z.ltb_spec parsed min); [done|]. destruct (Z.ltb_spec max parsed); [done|].
  cbn. intros [= -> ->]. lia.
Qed.

Lemma str_to_u8_bounds s min max x : 0 <= min -> max < 2^8 -> str_to_u8 s min max = Success x -> min <= x <= max.
Proof.
  unfold str_to_u8. destruct (str_to_ull s min max) as [[n rest]|e] eqn:E; cbn; [|done]. apply str_to_ull_bounds in E.
  intros ? ? [= <-]. unfold u8. rewrite Z.mod_small by lia. lia.
Qed.
Lemma str_to_u16_bounds s min max x : 0 <= min -> max < 2^16 -> str_to_u16 s min max = Success x -> min <= x <= max.
Proof.
  unfold str_to_u16. destruct (str_to_ull s min max) as [[n rest]|e] eqn:E; cbn; [|done]. apply str_to_ull_bounds in E.
  intros ? ? [= <-]. unfold u16. rewrite Z.mod_small by lia. lia.
Qed.
Lemma str_to_u32_bounds s min max x : 0 <= min -> max < 2^32 -> str_to_u32 s min max = Success x -> min <= x <= max.
Proof.
  unfold str_to_u32. destruct (str_to_ull s min max) as [[n rest]|e] eqn:E; cbn; [|done]. apply str_to_ull_bounds in E.
  intros ? ? [= <-]. unfold u32. rewrite Z.mod_small by lia. lia.
Qed.

Lemma str_to_port_range_bounds s r : str_to_port_range s = Success r -> is_u16 (r_min r) /\ is_u16 (r_max r).
Proof.
  unfold str_to_port_range. destruct (str_to_ull s 0 65535) as [[n rest]|e] eqn:E; cbn [mbind status_bind]; [|done].
  assert (Hu : forall x, is_u16 (u16 x)) by (intros x; unfold is_u16, u16; apply Z.mod_pos_bound; lia).
  assert (Hone : Success (PortRange (u16 n) (u16 n)) = Success r -> is_u16 (r_min r) /\ is_u16 (r_max r)) by (intros [= <-]; split; apply Hu).
  destruct rest as [|a next]; [exact Hone|]. destruct (Ascii.eqb_spec a "-"%char) as [->|Ha].
  - destruct (str_to_ull next 0 65535) as [[m ?]|e]; cbn [mbind status_bind]; [|done]. intros [= <-]. split; apply Hu.
  - destruct a as [[] [] [] [] [] [] [] []]; (exact Hone || (exfalso; apply Ha; reflexivity)).
Qed.

Section Bounds.
Context (inet_pton4 : string -> option in_addr) (inet_pton6 : string -> option in6_addr).

Lemma str_to_ipv6_prefix_bounds s p : str_to_ipv6_prefix inet_pton6 s = Success p -> 0 <= p6_len p <= 128.
Proof.
  unfold str_to_ipv6_prefix. destruct (_ <? _); [done|]. destruct (strtok _ s) as [[token rest]|]; [|done].
  destruct (str_to_addr6 _ token) as [a|e]; cbn [mbind status_bind]; [|done].
  destruct (strtok _ rest) as [[tok ?]|]; [|intros [= <-]; cbn; unfold IPV6_MAX_PREFIX; lia].
  destruct (str_to_u8 tok 0 128) as [len|e] eqn:E; cbn [mbind status_bind]; [|done]. intros [= <-]. apply str_to_u8_bounds in E; cbn; lia.
Qed.
Lemma str_to_ipv4_prefix_bounds s p : str_to_ipv4_prefix inet_pton4 s = Success p -> 0 <= p4_len p <= 32.
Proof.
  unfold str_to_ipv4_prefix. destruct (_ <? _); [done|]. destruct (strtok _ s) as [[token rest]|]; [|done].
  destruct (str_to_addr4 _ token) as [a|e]; cbn [mbind status_bind]; [|done].
  destruct (strtok _ rest) as [[tok ?]|]; [|intros [= <-]; cbn; unfold IPV4_MAX_PREFIX; lia].
  destruct (str_to_u8 tok 0 32) as [len|e] eqn:E; cbn [mbind status_bind]; [|done]. intros [= <-]. apply str_to_u8_bounds in E; cbn; lia.
Qed.
Lemma str_to_addr6_port_bounds s a : str_to_addr6_port inet_pton6 s = Success a -> is_u16 (l4_6 a).
Proof.
  unfold str_to_addr6_port. destruct (_ <? _); [done|]. destruct (strtok _ s) as [[token rest]|]; [|done].
  destruct (str_to_addr6 _ token) as [l3|e]; cbn [mbind status_bind]; [|done].
  destruct (strtok _ rest) as [[tok ?]|]; [|done].
  destruct (str_to_u16 tok 0 MAX_PORT) as [l4|e] eqn:E; cbn [mbind status_bind]; [|done]. intros [= <-].
  apply str_to_u16_bounds in E; unfold MAX_PORT, is_u16 in *; cbn; lia.
Qed.
Lemma str_to_addr4_port_bounds s a : str_to_addr4_port inet_pton4 s = Success a -> is_u16 (l4_4 a).
Proof.
  unfold str_to_addr4_port. destruct (_ <? _); [done|]. destruct (strtok _ s) as [[token rest]|]; [|done].
  destruct (str_to_addr4 _ token) as [l3|e]; cbn [mbind status_bind]; [|done].
  destruct (strtok _ rest) as [[tok ?]|]; [|done].
  destruct (str_to_u16 tok 0 MAX_PORT) as [l4|e] eqn:E; cbn [mbind status_bind]; [|done]. intros [= <-].
  apply str_to_u16_bounds in E; unfold MAX_PORT, is_u16 in *; cbn; lia.
Qed.

End Bounds.
