(* ===== verification/Options.v ===== *)
(** * The options of the command line

    [usr/common/argp/options.c] and [include/nat64/usr/argp/options.h]: the
    tables given to [argp_parse], and what argp does with them, part of
    the C library: it looks up the name or the letter of an option,
    asks for an argument if the option has one, and gives the option's key and
    the argument to the parser.  The texts of the help are left out.  Abbreviated
    names and bundled letters, which argp accepts too, stand for the same
    options. *)
From Stdlib Require Import Ascii.
From stdpp Require Import strings.
From S2P Require Import Prelude Types Address StrUtils.

(** [enum argp_flags] *)
Inductive argp_flags : Type :=
| ARGP_POOL6 | ARGP_POOL4 | ARGP_BIB | ARGP_SESSION | ARGP_EAMT | ARGP_BLACKLIST
| ARGP_RFC6791 | ARGP_LOGTIME | ARGP_GLOBAL | ARGP_DISPLAY | ARGP_COUNT | ARGP_TEST
| ARGP_ADD | ARGP_UPDATE | ARGP_REMOVE | ARGP_FLUSH | ARGP_PREFIX | ARGP_ADDRESS
| ARGP_QUICK | ARGP_MARK | ARGP_FORCE | ARGP_TCP | ARGP_UDP | ARGP_ICMP
| ARGP_NUMERIC_HOSTNAME | ARGP_CSV | ARGP_BIB_IPV6 | ARGP_BIB_IPV4 | ARGP_DROP_ADDR | ARGP_DROP_INFO
| ARGP_DROP_TCP | ARGP_UDP_TO | ARGP_ICMP_TO | ARGP_TCP_TO | ARGP_TCP_TRANS_TO | ARGP_STORED_PKTS
| ARGP_SRC_ICMP6ERRS_BETTER | ARGP_BIB_LOGGING | ARGP_SESSION_LOGGING | ARGP_RESET_TCLASS | ARGP_RESET_TOS | ARGP_NEW_TOS
| ARGP_DF | ARGP_BUILD_FH | ARGP_BUILD_ID | ARGP_LOWER_MTU_FAIL | ARGP_PLATEAUS | ARGP_FRAG_TO
| ARGP_ENABLE_TRANSLATION | ARGP_DISABLE_TRANSLATION | ARGP_COMPUTE_CSUM_ZERO | ARGP_EAM_HAIRPIN_MODE | ARGP_RANDOMIZE_RFC6791 | ARGP_ATOMIC_FRAGMENTS.

#[global] Instance argp_flags_eq_dec : EqDecision argp_flags.
Proof. solve_decision. Defined.

Definition argp_key (f : argp_flags) : Z :=
  match f with
  | ARGP_POOL6 => 54 | ARGP_POOL4 => 52 | ARGP_BIB => 98 | ARGP_SESSION => 115 | ARGP_EAMT => 101
  | ARGP_BLACKLIST => 7000 | ARGP_RFC6791 => 6791 | ARGP_LOGTIME => 108 | ARGP_GLOBAL => 103 | ARGP_DISPLAY => 100
  | ARGP_COUNT => 99 | ARGP_TEST => 5001 | ARGP_ADD => 97 | ARGP_UPDATE => 5000 | ARGP_REMOVE => 114
  | ARGP_FLUSH => 102 | ARGP_PREFIX => 1000 | ARGP_ADDRESS => 1001 | ARGP_QUICK => 113 | ARGP_MARK => 109
  | ARGP_FORCE => 1002 | ARGP_TCP => 116 | ARGP_UDP => 117 | ARGP_ICMP => 105 | ARGP_NUMERIC_HOSTNAME => 110
  | ARGP_CSV => 2022 | ARGP_BIB_IPV6 => 2020 | ARGP_BIB_IPV4 => 2021 | ARGP_DROP_ADDR => 3000 | ARGP_DROP_INFO => 3001
  | ARGP_DROP_TCP => 3002 | ARGP_UDP_TO => 3010 | ARGP_ICMP_TO => 3011 | ARGP_TCP_TO => 3012 | ARGP_TCP_TRANS_TO => 3013
  | ARGP_STORED_PKTS => 3014 | ARGP_SRC_ICMP6ERRS_BETTER => 3015 | ARGP_BIB_LOGGING => 3016 | ARGP_SESSION_LOGGING => 3017 | ARGP_RESET_TCLASS => 4002
  | ARGP_RESET_TOS => 4003 | ARGP_NEW_TOS => 4004 | ARGP_DF => 4005 | ARGP_BUILD_FH => 4006 | ARGP_BUILD_ID => 4007
  | ARGP_LOWER_MTU_FAIL => 4008 | ARGP_PLATEAUS => 4010 | ARGP_FRAG_TO => 4012 | ARGP_ENABLE_TRANSLATION => 4013 | ARGP_DISABLE_TRANSLATION => 4014
  | ARGP_COMPUTE_CSUM_ZERO => 4015 | ARGP_EAM_HAIRPIN_MODE => 4018 | ARGP_RANDOMIZE_RFC6791 => 4017 | ARGP_ATOMIC_FRAGMENTS => 4016
  end.

(** [struct argp_option]: a header has no name and no key, an alias only a
    name. *)
Record argp_option : Type := ArgpOption {
  opt_name : option string;
  opt_key : option argp_flags;
  opt_arg : option string;
  opt_alias : bool
}.

Definition header : argp_option := ArgpOption None None None false.
Definition flag (name : string) (key : argp_flags) : argp_option := ArgpOption (Some name) (Some key) None false.
Definition option_with (name : string) (key : argp_flags) (arg : string) : argp_option := ArgpOption (Some name) (Some key) (Some arg) false.
Definition alias (name : string) : argp_option := ArgpOption (Some name) None None true.

Definition targets_hdr_opt : argp_option := header.
Definition pool6_opt : argp_option := flag "pool6" ARGP_POOL6.
Definition pool4_opt : argp_option := flag "pool4" ARGP_POOL4.
Definition bib_opt : argp_option := flag "bib" ARGP_BIB.
Definition session_opt : argp_option := flag "session" ARGP_SESSION.
Definition eamt_opt : argp_option := flag "eamt" ARGP_EAMT.
Definition blacklist_opt : argp_option := flag "blacklist" ARGP_BLACKLIST.
Definition pool6791_opt : argp_option := flag "pool6791" ARGP_RFC6791.
Definition global_opt : argp_option := flag "global" ARGP_GLOBAL.
Definition global_alias_opt : argp_option := alias "general".
Definition operations_hdr_opt : argp_option := header.
Definition display_opt : argp_option := flag "display" ARGP_DISPLAY.
Definition count_opt : argp_option := flag "count" ARGP_COUNT.
Definition test_opt : argp_option := flag "test" ARGP_TEST.
Definition add_opt : argp_option := flag "add" ARGP_ADD.
Definition update_opt : argp_option := flag "update" ARGP_UPDATE.
Definition rm_opt : argp_option := flag "remove" ARGP_REMOVE.
Definition flush_opt : argp_option := flag "flush" ARGP_FLUSH.
Definition db_hdr_opt : argp_option := header.
Definition quick_opt : argp_option := flag "quick" ARGP_QUICK.
Definition mark_opt : argp_option := option_with "mark" ARGP_MARK "NUM".
Definition force_opt : argp_option := flag "force" ARGP_FORCE.
Definition icmp_opt : argp_option := flag "icmp" ARGP_ICMP.
Definition tcp_opt : argp_option := flag "tcp" ARGP_TCP.
Definition udp_opt : argp_option := flag "udp" ARGP_UDP.
Definition numeric_opt : argp_option := flag "numeric" ARGP_NUMERIC_HOSTNAME.
Definition csv_opt : argp_option := flag "csv" ARGP_CSV.
Definition globals_hdr_opt : argp_option := header.
Definition enable_opt : argp_option := flag "enable" ARGP_ENABLE_TRANSLATION.
Definition disable_opt : argp_option := flag "disable" ARGP_DISABLE_TRANSLATION.
Definition zeroize_tc_opt : argp_option := option_with "zeroize-traffic-class" ARGP_RESET_TCLASS "BOOL".
Definition zeroize_tc_alias_opt : argp_option := alias "setTC".
Definition override_tos_opt : argp_option := option_with "override-tos" ARGP_RESET_TOS "BOOL".
Definition override_tos_alias_opt : argp_option := alias "setTOS".
Definition tos_opt : argp_option := option_with "tos" ARGP_NEW_TOS "NUM".
Definition tos_alias_opt : argp_option := alias "TOS".
Definition plateaus_opt : argp_option := option_with "mtu-plateaus" ARGP_PLATEAUS "NUM[,NUM]*".
Definition plateaus_alias_opt : argp_option := alias "plateaus".
Definition adf_opt : argp_option := option_with "address-dependent-filtering" ARGP_DROP_ADDR "BOOL".
Definition adf_alias_opt : argp_option := alias "dropAddr".
Definition icmp_filter_opt : argp_option := option_with "drop-icmpv6-info" ARGP_DROP_INFO "BOOL".
Definition icmp_filter_alias_opt : argp_option := alias "dropInfo".
Definition tcp_filter_opt : argp_option := option_with "drop-externally-initiated-tcp" ARGP_DROP_TCP "BOOL".
Definition tcp_filter_alias_opt : argp_option := alias "dropTCP".
Definition ttl_udp_opt : argp_option := option_with "udp-timeout" ARGP_UDP_TO "NUM".
Definition ttl_udp_alias_opt : argp_option := alias "toUDP".
Definition ttl_icmp_opt : argp_option := option_with "icmp-timeout" ARGP_ICMP_TO "NUM".
Definition ttl_icmp_alias_opt : argp_option := alias "toICMP".
Definition ttl_tcpest_opt : argp_option := option_with "tcp-est-timeout" ARGP_TCP_TO "NUM".
Definition ttl_tcpest_alias_opt : argp_option := alias "toTCPest".
Definition ttl_tcptrans_opt : argp_option := option_with "tcp-trans-timeout" ARGP_TCP_TRANS_TO "NUM".
Definition ttl_tcptrans_alias_opt : argp_option := alias "toTCPtrans".
Definition ttl_frag_opt : argp_option := option_with "fragment-arrival-timeout" ARGP_FRAG_TO "NUM".
Definition ttl_frag_alias_opt : argp_option := alias "toFrag".
Definition max_so_opt : argp_option := option_with "maximum-simultaneous-opens" ARGP_STORED_PKTS "NUM".
Definition max_so_alias_opt : argp_option := alias "maxStoredPkts".
Definition icmp_src_opt : argp_option := option_with "source-icmpv6-errors-better" ARGP_SRC_ICMP6ERRS_BETTER "BOOL".
Definition logging_bib_opt : argp_option := option_with "logging-bib" ARGP_BIB_LOGGING "BOOL".
Definition logging_session_opt : argp_option := option_with "logging-session" ARGP_SESSION_LOGGING "BOOL".
Definition csum_fix_opt : argp_option := option_with "amend-udp-checksum-zero" ARGP_COMPUTE_CSUM_ZERO "BOOL".
Definition hairpin_mode_opt : argp_option := option_with "eam-hairpin-mode" ARGP_EAM_HAIRPIN_MODE "NUM".
Definition random_pool6791_opt : argp_option := option_with "randomize-rfc6791-addresses" ARGP_RANDOMIZE_RFC6791 "BOOL".
Definition deprecated_hdr_opt : argp_option := header.
Definition atomic_frags_opt : argp_option := option_with "allow-atomic-fragments" ARGP_ATOMIC_FRAGMENTS "BOOL".
Definition df_always_on_opt : argp_option := option_with "setDF" ARGP_DF "BOOL".
Definition generate_fh_opt : argp_option := option_with "genFH" ARGP_BUILD_FH "BOOL".
Definition generate_id_opt : argp_option := option_with "genID" ARGP_BUILD_ID "BOOL".
Definition fix_illegal_mtus_opt : argp_option := option_with "boostMTU" ARGP_LOWER_MTU_FAIL "BOOL".
Definition prefix_opt : argp_option := option_with "prefix" ARGP_PREFIX "ADDR6/NUM".
Definition address_opt : argp_option := option_with "address" ARGP_ADDRESS "ADDR4/NUM".
Definition bib6_opt : argp_option := option_with "bib6" ARGP_BIB_IPV6 "ADDR6#NUM".
Definition bib4_opt : argp_option := option_with "bib4" ARGP_BIB_IPV4 "ADDR4#NUM".

Definition options_siit : list argp_option := [
  targets_hdr_opt; pool6_opt; eamt_opt; blacklist_opt; pool6791_opt; global_opt;
  global_alias_opt; operations_hdr_opt; display_opt; count_opt; test_opt; add_opt;
  update_opt; rm_opt; flush_opt; db_hdr_opt; csv_opt; force_opt;
  globals_hdr_opt; enable_opt; disable_opt; zeroize_tc_opt; zeroize_tc_alias_opt; override_tos_opt;
  override_tos_alias_opt; tos_opt; tos_alias_opt; plateaus_opt; plateaus_alias_opt; csum_fix_opt;
  hairpin_mode_opt; random_pool6791_opt; deprecated_hdr_opt; atomic_frags_opt; df_always_on_opt; generate_fh_opt;
  generate_id_opt; fix_illegal_mtus_opt
].

Definition options_nat64 : list argp_option := [
  targets_hdr_opt; pool6_opt; pool4_opt; bib_opt; session_opt; global_opt;
  global_alias_opt; operations_hdr_opt; display_opt; count_opt; add_opt; update_opt;
  rm_opt; flush_opt; db_hdr_opt; quick_opt; mark_opt; force_opt;
  icmp_opt; tcp_opt; udp_opt; numeric_opt; csv_opt; globals_hdr_opt;
  enable_opt; disable_opt; zeroize_tc_opt; zeroize_tc_alias_opt; override_tos_opt; override_tos_alias_opt;
  tos_opt; tos_alias_opt; plateaus_opt; plateaus_alias_opt; adf_opt; adf_alias_opt;
  icmp_filter_opt; icmp_filter_alias_opt; tcp_filter_opt; tcp_filter_alias_opt; ttl_udp_opt; ttl_udp_alias_opt;
  ttl_icmp_opt; ttl_icmp_alias_opt; ttl_tcpest_opt; ttl_tcpest_alias_opt; ttl_tcptrans_opt; ttl_tcptrans_alias_opt;
  ttl_frag_opt; ttl_frag_alias_opt; max_so_opt; max_so_alias_opt; icmp_src_opt; logging_bib_opt;
  logging_session_opt; deprecated_hdr_opt; atomic_frags_opt; df_always_on_opt; generate_fh_opt; generate_id_opt;
  fix_illegal_mtus_opt; prefix_opt; address_opt; bib6_opt; bib4_opt
].

(** Whether [malloc] of so many bytes succeeds; a [struct argp_option] has 48,
    and the table ends with one more.  Without a table argp knows no option. *)
Definition build_options (malloc : Z -> bool) (siit : bool) : list argp_option :=
  let template := if siit then options_siit else options_nat64 in
  if malloc (48 * (Z.of_nat (length template) + 1)) then template else [].

(** ** argp *)

(** A word of the command line that was recognized as a long option
    ([--name], [--name=value]), as a letter, or as neither. *)
Inductive word : Type :=
| LongOption (name : string) (value : option string)
| Letter (c : Ascii.ascii) (value : option string)
| Positional (s : string).

(** An alias stands for the option before it. *)
Fixpoint find_name (name : string) (current : option argp_option) (opts : list argp_option) : option argp_option :=
  match opts with
  | [] => None
  | o :: opts =>
      let current := if opt_alias o then current else Some o in
      if bool_decide (opt_name o = Some name) then current else find_name name current opts
  end.

Definition find_letter (c : Ascii.ascii) (opts : list argp_option) : option argp_option :=
  List.find (fun o => bool_decide (argp_key <$> opt_key o = Some (char_num c))) opts.

(** What the parser is called with: [ARGP_KEY_ARG] for what is not an option. *)
Inductive parser_key : Type := KeyFlag (f : argp_flags) | KEY_ARG.

(** [EX_USAGE] *)
Definition usage : Z := 64.

Definition argp_option_word (found : option argp_option) (value : option string) : status (parser_key * option string) :=
  match found with
  | Some o =>
      match opt_key o, opt_arg o, value with
      | Some f, None, None => Success (KeyFlag f, None)
      | Some f, Some _, Some s => Success (KeyFlag f, Some s)
      | _, _, _ => Failure usage
      end
  | None => Failure usage
  end.

Definition argp_word (opts : list argp_option) (w : word) : status (parser_key * option string) :=
  match w with
  | LongOption name value => argp_option_word (find_name name None opts) value
  | Letter c value => argp_option_word (find_letter c opts) value
  | Positional s => Success (KEY_ARG, Some s)
  end.

(** The words one after the other, up to the first error; [None] if the
    parser follows a NULL pointer. *)
Fixpoint argp_parse {A} (opts : list argp_option) (parser : parser_key -> option string -> A -> option (status A)) (words : list word) (input : A)
    : option (status A) :=
  match words with
  | [] => Some (Success input)
  | w :: words =>
      match argp_word opts w with
      | Failure e => Some (Failure e)
      | Success (key, str) =>
          match parser key str input with
          | Some (Success input) => argp_parse opts parser words input
          | r => r
          end
      end
  end.
