(* ===== verification/JoolMain.v ===== *)
(** * The command line

    [usr/common/jool.c]: from the words of the command line to the request that
    is sent.  Every option narrows down the modes and the operations the
    command can still mean; what is left at the end decides what is done.

    [None] is a NULL pointer that is followed.  The texts of the messages are
    left out. *)
From Stdlib Require Import Ascii.
From stdpp Require Import strings.
From S2P Require Import Prelude Types Address Rfc6052 Pool6 Pool4Table Pool4Db RbTree BibTable BibDb PortAlloc.
From S2P Require Import Packet SessionEntry PktQueue SessionTable Tcp SessionSpec SessionDb Filtering FilteringSpec StaticRoutes Nat64.
From S2P Require Import Skb Checksum Rtrie RtrieOps Eam SiitPool Config ConfigSpec NlHandler NlSpec NlClient StrUtils Options.

(** ** [struct arguments] *)

Record args_pool4 : Type := ArgsPool4 {
  a_mark : Z;
  a_prefix4 : ipv4_prefix;
  a_ports : port_range;
  a_prefix4_set : bool
}.

Record args_bib : Type := ArgsBib {
  a_addr6 : ipv6_transport_addr;
  a_addr6_set : bool;
  a_addr4 : ipv4_transport_addr;
  a_addr4_set : bool
}.

Record args_db : Type := ArgsDb {
  a_quick : bool;
  a_force : bool;
  a_tcp : bool;
  a_udp : bool;
  a_icmp : bool;
  a_prefix6 : ipv6_prefix;
  a_prefix6_set : bool;
  a_pool4 : args_pool4;
  a_numeric : bool;
  a_bib : args_bib
}.

(** [data] is a copy of the bytes of the value. *)
Record args_global : Type := ArgsGlobal {
  a_type : Z;
  a_data : option bytes
}.

(** The modes and the operations are sets of bits. *)
Record arguments : Type := Arguments {
  a_mode : Z;
  a_op : Z;
  a_db : args_db;
  a_global : args_global;
  a_csv_format : bool
}.

Definition with_state (mode op : Z) (args : arguments) : arguments := Arguments mode op (a_db args) (a_global args) (a_csv_format args).
Definition with_db (db : args_db) (args : arguments) : arguments := Arguments (a_mode args) (a_op args) db (a_global args) (a_csv_format args).
Definition with_global (g : args_global) (args : arguments) : arguments := Arguments (a_mode args) (a_op args) (a_db args) g (a_csv_format args).
Definition with_csv (args : arguments) : arguments := Arguments (a_mode args) (a_op args) (a_db args) (a_global args) true.

Definition with_quick (d : args_db) : args_db :=
  ArgsDb true (a_force d) (a_tcp d) (a_udp d) (a_icmp d) (a_prefix6 d) (a_prefix6_set d) (a_pool4 d) (a_numeric d) (a_bib d).
Definition with_force (d : args_db) : args_db :=
  ArgsDb (a_quick d) true (a_tcp d) (a_udp d) (a_icmp d) (a_prefix6 d) (a_prefix6_set d) (a_pool4 d) (a_numeric d) (a_bib d).
Definition with_protos (tcp udp icmp : bool) (d : args_db) : args_db :=
  ArgsDb (a_quick d) (a_force d) tcp udp icmp (a_prefix6 d) (a_prefix6_set d) (a_pool4 d) (a_numeric d) (a_bib d).
Definition with_prefix6 (p : ipv6_prefix) (d : args_db) : args_db :=
  ArgsDb (a_quick d) (a_force d) (a_tcp d) (a_udp d) (a_icmp d) p true (a_pool4 d) (a_numeric d) (a_bib d).
Definition with_pool4 (p : args_pool4) (d : args_db) : args_db :=
  ArgsDb (a_quick d) (a_force d) (a_tcp d) (a_udp d) (a_icmp d) (a_prefix6 d) (a_prefix6_set d) p (a_numeric d) (a_bib d).
Definition with_numeric (d : args_db) : args_db :=
  ArgsDb (a_quick d) (a_force d) (a_tcp d) (a_udp d) (a_icmp d) (a_prefix6 d) (a_prefix6_set d) (a_pool4 d) true (a_bib d).
Definition with_bib (b : args_bib) (d : args_db) : args_db :=
  ArgsDb (a_quick d) (a_force d) (a_tcp d) (a_udp d) (a_icmp d) (a_prefix6 d) (a_prefix6_set d) (a_pool4 d) (a_numeric d) b.

(** ** Sets of modes and operations *)

Fixpoint bits_of (l : list Z) : Z := match l with [] => 0 | x :: l => Z.lor x (bits_of l) end.
Definition modes (l : list config_mode) : Z := bits_of (map mode_num l).
Definition ops (l : list config_operation) : Z := bits_of (map op_num l).

Definition DATABASE_OPS : Z := ops [OP_DISPLAY; OP_COUNT; OP_ADD; OP_REMOVE; OP_FLUSH].
Definition GLOBAL_OPS : Z := ops [OP_DISPLAY; OP_UPDATE].
Definition EAMT_OPS : Z := Z.lor DATABASE_OPS (op_num OP_TEST).
Definition BIB_OPS : Z := Z.ldiff DATABASE_OPS (op_num OP_FLUSH).
Definition SESSION_OPS : Z := ops [OP_DISPLAY; OP_COUNT].
Definition LOGTIME_OPS : Z := ops [OP_DISPLAY].

Definition POOL_MODES : Z := modes [MODE_POOL6; MODE_POOL4; MODE_BLACKLIST; MODE_RFC6791].
Definition TABLE_MODES : Z := modes [MODE_EAMT; MODE_BIB; MODE_SESSION].
Definition DISPLAY_MODES : Z := Z.lor (Z.lor (modes [MODE_GLOBAL; MODE_LOGTIME]) POOL_MODES) TABLE_MODES.
Definition COUNT_MODES : Z := Z.lor POOL_MODES TABLE_MODES.
Definition ADD_MODES : Z := Z.lor POOL_MODES (modes [MODE_EAMT; MODE_BIB]).
Definition REMOVE_MODES : Z := Z.lor POOL_MODES (modes [MODE_EAMT; MODE_BIB]).
Definition FLUSH_MODES : Z := Z.lor POOL_MODES (modes [MODE_EAMT]).
Definition UPDATE_MODES : Z := modes [MODE_GLOBAL].
Definition TEST_MODES : Z := modes [MODE_EAMT].
Definition SIIT_MODES : Z := modes [MODE_GLOBAL; MODE_POOL6; MODE_BLACKLIST; MODE_RFC6791; MODE_EAMT; MODE_LOGTIME].
Definition NAT64_MODES : Z := modes [MODE_GLOBAL; MODE_POOL6; MODE_POOL4; MODE_BIB; MODE_SESSION; MODE_LOGTIME].

(** The numbers of [enum global_type]. *)
Definition type_num (t : global_type) : Z :=
  match t with
  | UDP_TIMEOUT => 0 | ICMP_TIMEOUT => 1 | TCP_EST_TIMEOUT => 2 | TCP_TRANS_TIMEOUT => 3 | FRAGMENT_TIMEOUT => 4
  | MAX_PKTS => 5 | SRC_ICMP6ERRS_BETTER => 6 | BIB_LOGGING => 7 | SESSION_LOGGING => 8
  | DROP_BY_ADDR => 9 | DROP_ICMP6_INFO => 10 | DROP_EXTERNAL_TCP => 11
  | COMPUTE_UDP_CSUM_ZERO => 12 | EAM_HAIRPINNING_MODE => 13 | RANDOMIZE_RFC6791 => 14
  | RESET_TCLASS => 15 | RESET_TOS => 16 | NEW_TOS => 17 | DF_ALWAYS_ON => 18 | BUILD_IPV6_FH => 19 | BUILD_IPV4_ID => 20
  | LOWER_MTU_FAIL => 21 | MTU_PLATEAUS => 22 | DISABLE => 23 | ENABLE => 24 | ATOMIC_FRAGMENTS => 25
  | UNKNOWN_TYPE n => n
  end.

Definition MAX_U8 : Z := 0xff.
Definition MAX_U32 : Z := 0xffffffff.
Definition MAX_U64 : Z := 0xffffffffffffffff.
Definition EAM_HAIRPIN_MODE_COUNT : Z := 3.

(** ** The options *)

Section Jool.
Context (siit : bool) (malloc : Z -> bool).
Context (inet_pton4 : string -> option in_addr) (inet_pton6 : string -> option in6_addr).

Definition update_state (args : arguments) (valid_modes valid_ops : Z) : status arguments :=
  let valid_modes := Z.land valid_modes (if negb siit then NAT64_MODES else SIIT_MODES) in
  let common_modes := Z.land (a_mode args) valid_modes in
  if (common_modes =? 0) || negb (Z.lor common_modes valid_modes =? valid_modes) then Failure invalid
  else
    let common_ops := Z.land (a_op args) valid_ops in
    if (common_ops =? 0) || negb (Z.lor common_ops valid_ops =? valid_ops) then Failure invalid
    else Success (with_state common_modes common_ops args).

Definition set_global_arg (args : arguments) (type : global_type) (value : bytes) : status arguments :=
  args ← update_state args (modes [MODE_GLOBAL]) (ops [OP_UPDATE]);
  match a_data (a_global args) with
  | Some _ => Failure invalid
  | None =>
      if negb (malloc (blen value)) then Failure (- errno_code ENOMEM)
      else Success (with_global (ArgsGlobal (type_num type) (Some value)) args)
  end.

Definition set_global_bool (args : arguments) (type : global_type) (value : string) : status arguments :=
  tmp ← str_to_bool value; set_global_arg args type [tmp].

Definition set_global_u8 (args : arguments) (type : global_type) (value : string) (min max : Z) : status arguments :=
  tmp ← str_to_u8 value min max; set_global_arg args type [tmp].

Definition set_global_u64 (args : arguments) (type : global_type) (value : string) (min max multiplier : Z) : status arguments :=
  tmp ← str_to_u64 value min max; set_global_arg args type (le_bytes 8 (u64 (tmp * multiplier))).

Definition set_global_u16_array (args : arguments) (type : global_type) (value : string) : status arguments :=
  array ← str_to_u16_array malloc value; set_global_arg args type (concat (map (le_bytes 2) array)).

Definition set_ipv4_prefix (args : arguments) (str : string) : status arguments :=
  args ← update_state args (modes [MODE_POOL4; MODE_BLACKLIST; MODE_RFC6791; MODE_EAMT]) (ops [OP_TEST; OP_ADD; OP_REMOVE]);
  let p := a_pool4 (a_db args) in
  if a_prefix4_set p then Failure invalid
  else
    prefix ← str_to_ipv4_prefix inet_pton4 str;
    Success (with_db (with_pool4 (ArgsPool4 (a_mark p) prefix (a_ports p) true) (a_db args)) args).

Definition set_ipv6_prefix (args : arguments) (str : string) : status arguments :=
  args ← update_state args (modes [MODE_POOL6; MODE_EAMT]) (ops [OP_TEST; OP_ADD; OP_UPDATE; OP_REMOVE]);
  if a_prefix6_set (a_db args) then Failure invalid
  else
    prefix ← str_to_ipv6_prefix inet_pton6 str;
    Success (with_db (with_prefix6 prefix (a_db args)) args).

Definition set_bib6 (args : arguments) (str : string) : status arguments :=
  if siit then Failure invalid
  else
    args ← update_state args (modes [MODE_BIB]) (ops [OP_ADD; OP_REMOVE]);
    let b := a_bib (a_db args) in
    if a_addr6_set b then Failure invalid
    else
      addr6 ← str_to_addr6_port inet_pton6 str;
      Success (with_db (with_bib (ArgsBib addr6 true (a_addr4 b) (a_addr4_set b)) (a_db args)) args).

Definition set_bib4 (args : arguments) (str : string) : status arguments :=
  if siit then Failure invalid
  else
    args ← update_state args (modes [MODE_BIB]) (ops [OP_ADD; OP_REMOVE]);
    let b := a_bib (a_db args) in
    if a_addr4_set b then Failure invalid
    else
      addr4 ← str_to_addr4_port inet_pton4 str;
      Success (with_db (with_bib (ArgsBib (a_addr6 b) (a_addr6_set b) addr4 true) (a_db args)) args).

Definition set_port_range (args : arguments) (str : string) : status arguments :=
  if siit then Failure invalid
  else
    args ← update_state args (modes [MODE_POOL4]) (ops [OP_ADD; OP_REMOVE]);
    let p := a_pool4 (a_db args) in
    ports ← str_to_port_range str;
    Success (with_db (with_pool4 (ArgsPool4 (a_mark p) (a_prefix4 p) ports (a_prefix4_set p)) (a_db args)) args).

Definition set_ip_args (args : arguments) (str : option string) : status arguments :=
  match str with
  | None => Success args
  | Some str =>
      if strlen str =? 0 then Success args
      else if strchr str ":"%char then
        if strchr str "#"%char then set_bib6 args str else set_ipv6_prefix args str
      else if strchr str "."%char then
        if strchr str "#"%char then set_bib4 args str else set_ipv4_prefix args str
      else set_port_range args str
  end.

(** An option that reads its argument. *)
Definition reading (str : option string) (f : string -> status arguments) : option (status arguments) :=
  match str with Some s => Some (f s) | None => None end.

Definition parse_opt (key : parser_key) (str : option string) (args : arguments) : option (status arguments) :=
  let state valid_modes valid_ops := Some (update_state args valid_modes valid_ops) in
  let and_then (r : status arguments) (f : args_db -> args_db) := Some (args ← r; Success (with_db (f (a_db args)) args)) in
  let protocol := update_state args (modes [MODE_POOL4; MODE_BIB; MODE_SESSION]) (Z.lor (Z.lor DATABASE_OPS BIB_OPS) SESSION_OPS) in
  let bool type := reading str (set_global_bool args type) in
  let seconds type min := reading str (fun s => set_global_u64 args type s min (MAX_U32 `div` 1000) 1000) in
  match key with
  | KeyFlag ARGP_GLOBAL => state (modes [MODE_GLOBAL]) GLOBAL_OPS
  | KeyFlag ARGP_POOL6 => state (modes [MODE_POOL6]) DATABASE_OPS
  | KeyFlag ARGP_POOL4 => state (modes [MODE_POOL4]) DATABASE_OPS
  | KeyFlag ARGP_BLACKLIST => state (modes [MODE_BLACKLIST]) DATABASE_OPS
  | KeyFlag ARGP_RFC6791 => state (modes [MODE_RFC6791]) DATABASE_OPS
  | KeyFlag ARGP_EAMT => state (modes [MODE_EAMT]) EAMT_OPS
  | KeyFlag ARGP_BIB => state (modes [MODE_BIB]) BIB_OPS
  | KeyFlag ARGP_SESSION => state (modes [MODE_SESSION]) SESSION_OPS
  | KeyFlag ARGP_LOGTIME => state (modes [MODE_LOGTIME]) LOGTIME_OPS
  | KeyFlag ARGP_DISPLAY => state DISPLAY_MODES (ops [OP_DISPLAY])
  | KeyFlag ARGP_COUNT => state COUNT_MODES (ops [OP_COUNT])
  | KeyFlag ARGP_TEST => state TEST_MODES (ops [OP_TEST])
  | KeyFlag ARGP_ADD => state ADD_MODES (ops [OP_ADD])
  | KeyFlag ARGP_UPDATE => state UPDATE_MODES (ops [OP_UPDATE])
  | KeyFlag ARGP_REMOVE => state REMOVE_MODES (ops [OP_REMOVE])
  | KeyFlag ARGP_FLUSH => state FLUSH_MODES (ops [OP_FLUSH])
  | KeyFlag ARGP_UDP => and_then protocol (fun d => with_protos (a_tcp d) true (a_icmp d) d)
  | KeyFlag ARGP_TCP => and_then protocol (fun d => with_protos true (a_udp d) (a_icmp d) d)
  | KeyFlag ARGP_ICMP => and_then protocol (fun d => with_protos (a_tcp d) (a_udp d) true d)
  | KeyFlag ARGP_NUMERIC_HOSTNAME => and_then (update_state args (modes [MODE_BIB; MODE_SESSION]) (ops [OP_DISPLAY])) with_numeric
  | KeyFlag ARGP_CSV =>
      Some (args ← update_state args (modes [MODE_GLOBAL; MODE_POOL6; MODE_POOL4; MODE_BLACKLIST; MODE_RFC6791; MODE_EAMT; MODE_BIB; MODE_SESSION])
                     (ops [OP_DISPLAY]);
            Success (with_csv args))
  | KeyFlag ARGP_QUICK => and_then (update_state args (modes [MODE_POOL6; MODE_POOL4]) (ops [OP_REMOVE; OP_FLUSH])) with_quick
  | KeyFlag ARGP_MARK =>
      match update_state args (modes [MODE_POOL4]) (ops [OP_ADD; OP_REMOVE]) with
      | Failure e => Some (Failure e)
      | Success args =>
          reading str (fun s =>
            mark ← str_to_u32 s 0 MAX_U32;
            let p := a_pool4 (a_db args) in
            Success (with_db (with_pool4 (ArgsPool4 mark (a_prefix4 p) (a_ports p) (a_prefix4_set p)) (a_db args)) args))
      end
  | KeyFlag ARGP_FORCE => and_then (update_state args (modes [MODE_POOL6; MODE_POOL4; MODE_EAMT]) (ops [OP_ADD])) with_force
  | KeyFlag ARGP_BIB_IPV6 => reading str (set_bib6 args)
  | KeyFlag ARGP_BIB_IPV4 => reading str (set_bib4 args)
  | KeyFlag ARGP_DROP_ADDR => bool DROP_BY_ADDR
  | KeyFlag ARGP_DROP_INFO => bool DROP_ICMP6_INFO
  | KeyFlag ARGP_DROP_TCP => bool DROP_EXTERNAL_TCP
  | KeyFlag ARGP_UDP_TO => seconds UDP_TIMEOUT UDP_MIN
  | KeyFlag ARGP_ICMP_TO => seconds ICMP_TIMEOUT 0
  | KeyFlag ARGP_TCP_TO => seconds TCP_EST_TIMEOUT TCP_EST
  | KeyFlag ARGP_TCP_TRANS_TO => seconds TCP_TRANS_TIMEOUT TCP_TRANS
  | KeyFlag ARGP_FRAG_TO => seconds FRAGMENT_TIMEOUT FRAGMENT_MIN
  | KeyFlag ARGP_STORED_PKTS => reading str (fun s => set_global_u64 args MAX_PKTS s 0 MAX_U64 1)
  | KeyFlag ARGP_SRC_ICMP6ERRS_BETTER => bool SRC_ICMP6ERRS_BETTER
  | KeyFlag ARGP_BIB_LOGGING => bool BIB_LOGGING
  | KeyFlag ARGP_SESSION_LOGGING => bool SESSION_LOGGING
  | KeyFlag ARGP_COMPUTE_CSUM_ZERO => bool COMPUTE_UDP_CSUM_ZERO
  | KeyFlag ARGP_EAM_HAIRPIN_MODE => reading str (fun s => set_global_u8 args EAM_HAIRPINNING_MODE s 0 (EAM_HAIRPIN_MODE_COUNT - 1))
  | KeyFlag ARGP_RANDOMIZE_RFC6791 => bool RANDOMIZE_RFC6791
  | KeyFlag ARGP_PREFIX => reading str (set_ipv6_prefix args)
  | KeyFlag ARGP_ADDRESS => reading str (set_ipv4_prefix args)
  | KeyFlag ARGP_RESET_TCLASS => bool RESET_TCLASS
  | KeyFlag ARGP_RESET_TOS => bool RESET_TOS
  | KeyFlag ARGP_NEW_TOS => reading str (fun s => set_global_u8 args NEW_TOS s 0 MAX_U8)
  | KeyFlag ARGP_DF => bool DF_ALWAYS_ON
  | KeyFlag ARGP_BUILD_FH => bool BUILD_IPV6_FH
  | KeyFlag ARGP_BUILD_ID => bool BUILD_IPV4_ID
  | KeyFlag ARGP_LOWER_MTU_FAIL => bool LOWER_MTU_FAIL
  | KeyFlag ARGP_PLATEAUS => reading str (set_global_u16_array args MTU_PLATEAUS)
  | KeyFlag ARGP_ENABLE_TRANSLATION => Some (set_global_bool args ENABLE "true")
  | KeyFlag ARGP_DISABLE_TRANSLATION => Some (set_global_bool args DISABLE "true")
  | KeyFlag ARGP_ATOMIC_FRAGMENTS => bool ATOMIC_FRAGMENTS
  | KEY_ARG => Some (set_ip_args args str)
  end.

(** The loop ends when [mask], of 16 bits, becomes 0. *)
Fixpoint zeroize_loop (fuel : nat) (num mask : Z) : Z :=
  match fuel with
  | O => num
  | S fuel =>
      if negb (Z.land num mask =? 0) then Z.land num mask
      else
        let mask := u16 (Z.shiftl mask 1) in
        if negb (mask =? 0) then zeroize_loop fuel num mask else num
  end.
Definition zeroize_upper_bits (num : Z) : Z := zeroize_loop 17 (u16 num) 1.

Definition initial_args : arguments :=
  Arguments 0xffff 0xff
    (ArgsDb false false false false false (Prefix6 (In6Addr 0) 0) false
       (ArgsPool4 0 (Prefix4 (InAddr 0) 0) (PortRange 0 65535) false) false
       (ArgsBib (TAddr6 (In6Addr 0) 0) false (TAddr4 (InAddr 0) 0) false))
    (ArgsGlobal 0 None) false.

Definition finish_args (result : arguments) : arguments :=
  let result := with_state (zeroize_upper_bits (a_mode result)) (zeroize_upper_bits (a_op result)) result in
  let d := a_db result in
  if negb (a_tcp d) && negb (a_udp d) && negb (a_icmp d) then with_db (with_protos true true true d) result else result.

Definition parse_args (words : list word) : option (status arguments) :=
  match argp_parse (build_options malloc siit) parse_opt words initial_args with
  | Some (Success result) => Some (Success (finish_args result))
  | r => r
  end.

(** ** What is done *)

(** One constructor per call of [main_wrapped], and one per complaint. *)
Inductive task : Type :=
| Pool6Display (csv : bool) | Pool6Add (prefix : ipv6_prefix) (force : bool) | Pool6Remove (prefix : ipv6_prefix) (quick : bool)
| Pool6Count | Pool6Flush (quick : bool)
| Pool4Display (csv : bool) | Pool4Count
| Pool4Add (mark : Z) (tcp udp icmp : bool) (prefix : ipv4_prefix) (ports : port_range) (force : bool)
| Pool4Remove (mark : Z) (tcp udp icmp : bool) (prefix : ipv4_prefix) (ports : port_range) (quick : bool)
| Pool4Flush (quick : bool)
| BibDisplay (tcp udp icmp numeric csv : bool) | BibCount (tcp udp icmp : bool)
| BibAdd (tcp udp icmp : bool) (addr6 : ipv6_transport_addr) (addr4 : ipv4_transport_addr)
| BibRemove (tcp udp icmp : bool) (addr6_set : bool) (addr6 : ipv6_transport_addr) (addr4_set : bool) (addr4 : ipv4_transport_addr)
| SessionDisplay (tcp udp icmp numeric csv : bool) | SessionCount (tcp udp icmp : bool)
| EamDisplay (csv : bool) | EamCount
| EamTest (addr6_set : bool) (addr6 : in6_addr) (addr4_set : bool) (addr4 : in_addr)
| EamAdd (prefix6 : ipv6_prefix) (prefix4 : ipv4_prefix) (force : bool)
| EamRemove (prefix6_set : bool) (prefix6 : ipv6_prefix) (prefix4_set : bool) (prefix4 : ipv4_prefix)
| EamFlush
| PoolDisplay (mode : config_mode) (csv : bool) | PoolCount (mode : config_mode)
| PoolAdd (mode : config_mode) (addrs : ipv4_prefix) | PoolRm (mode : config_mode) (addrs : ipv4_prefix) | PoolFlush (mode : config_mode)
| GlobalDisplay (csv : bool) | GlobalUpdate (type : Z) (data : option bytes)
| MissingValue
| UnknownOperation (mode : config_mode)
| WrongTranslator (mode : config_mode)
| NoBenchmark
| UnknownMode.

Section Choose.
Context (args : arguments).
Abbreviation d := (a_db args).
Abbreviation p := (a_pool4 (a_db args)).
Abbreviation b := (a_bib (a_db args)).
Abbreviation op := (op_of_num (a_op args)).

Definition choose_pool6 : task :=
  match op with
  | Some OP_DISPLAY => Pool6Display (a_csv_format args)
  | Some OP_ADD | Some OP_UPDATE => if negb (a_prefix6_set d) then MissingValue else Pool6Add (a_prefix6 d) (a_force d)
  | Some OP_REMOVE => if negb (a_prefix6_set d) then MissingValue else Pool6Remove (a_prefix6 d) (a_quick d)
  | Some OP_COUNT => Pool6Count
  | Some OP_FLUSH => Pool6Flush (a_quick d)
  | _ => UnknownOperation MODE_POOL6
  end.

Definition choose_pool4 : task :=
  if siit then WrongTranslator MODE_POOL4
  else match op with
  | Some OP_DISPLAY => Pool4Display (a_csv_format args)
  | Some OP_COUNT => Pool4Count
  | Some OP_ADD =>
      if negb (a_prefix4_set p) then MissingValue else Pool4Add (a_mark p) (a_tcp d) (a_udp d) (a_icmp d) (a_prefix4 p) (a_ports p) (a_force d)
  | Some OP_REMOVE =>
      if negb (a_prefix4_set p) then MissingValue else Pool4Remove (a_mark p) (a_tcp d) (a_udp d) (a_icmp d) (a_prefix4 p) (a_ports p) (a_quick d)
  | Some OP_FLUSH => Pool4Flush (a_quick d)
  | _ => UnknownOperation MODE_POOL4
  end.

Definition choose_bib : task :=
  if siit then WrongTranslator MODE_BIB
  else match op with
  | Some OP_DISPLAY => BibDisplay (a_tcp d) (a_udp d) (a_icmp d) (a_numeric d) (a_csv_format args)
  | Some OP_COUNT => BibCount (a_tcp d) (a_udp d) (a_icmp d)
  | Some OP_ADD =>
      if negb (a_addr6_set b) || negb (a_addr4_set b) then MissingValue else BibAdd (a_tcp d) (a_udp d) (a_icmp d) (a_addr6 b) (a_addr4 b)
  | Some OP_REMOVE =>
      if negb (a_addr6_set b) && negb (a_addr4_set b) then MissingValue
      else BibRemove (a_tcp d) (a_udp d) (a_icmp d) (a_addr6_set b) (a_addr6 b) (a_addr4_set b) (a_addr4 b)
  | _ => UnknownOperation MODE_BIB
  end.

Definition choose_session : task :=
  if siit then WrongTranslator MODE_SESSION
  else match op with
  | Some OP_DISPLAY => SessionDisplay (a_tcp d) (a_udp d) (a_icmp d) (a_numeric d) (a_csv_format args)
  | Some OP_COUNT => SessionCount (a_tcp d) (a_udp d) (a_icmp d)
  | _ => UnknownOperation MODE_SESSION
  end.

Definition choose_eamt : task :=
  if negb siit then WrongTranslator MODE_EAMT
  else match op with
  | Some OP_DISPLAY => EamDisplay (a_csv_format args)
  | Some OP_COUNT => EamCount
  | Some OP_TEST => EamTest (a_prefix6_set d) (p6_address (a_prefix6 d)) (a_prefix4_set p) (p4_address (a_prefix4 p))
  | Some OP_ADD => if negb (a_prefix6_set d) || negb (a_prefix4_set p) then MissingValue else EamAdd (a_prefix6 d) (a_prefix4 p) (a_force d)
  | Some OP_REMOVE =>
      if negb (a_prefix6_set d) && negb (a_prefix4_set p) then MissingValue
      else EamRemove (a_prefix6_set d) (a_prefix6 d) (a_prefix4_set p) (a_prefix4 p)
  | Some OP_FLUSH => EamFlush
  | _ => UnknownOperation MODE_EAMT
  end.

Definition choose_pool (mode : config_mode) : task :=
  if negb siit then WrongTranslator mode
  else match op with
  | Some OP_DISPLAY => PoolDisplay mode (a_csv_format args)
  | Some OP_COUNT => PoolCount mode
  | Some OP_ADD => if negb (a_prefix4_set p) then MissingValue else PoolAdd mode (a_prefix4 p)
  | Some OP_REMOVE => if negb (a_prefix4_set p) then MissingValue else PoolRm mode (a_prefix4 p)
  | Some OP_FLUSH => PoolFlush mode
  | _ => UnknownOperation mode
  end.

Definition choose_global : task :=
  match op with
  | Some OP_DISPLAY => GlobalDisplay (a_csv_format args)
  | Some OP_UPDATE => GlobalUpdate (a_type (a_global args)) (a_data (a_global args))
  | _ => UnknownOperation MODE_GLOBAL
  end.

Definition choose : task :=
  match mode_of_num (a_mode args) with
  | Some MODE_POOL6 => choose_pool6
  | Some MODE_POOL4 => choose_pool4
  | Some MODE_BIB => choose_bib
  | Some MODE_SESSION => choose_session
  | Some MODE_EAMT => choose_eamt
  | Some ((MODE_RFC6791 | MODE_BLACKLIST) as mode) => choose_pool mode
  | Some MODE_LOGTIME => NoBenchmark
  | Some MODE_GLOBAL => choose_global
  | None => UnknownMode
  end.

End Choose.

End Jool.

(** ** The requests *)

(** A line of the output. *)
Inductive line : Type :=
| LPrefix6 (p : ipv6_prefix) | LSample (s : pool4_sample) | LBib (proto : l4_protocol) (e : bib_entry_usr)
| LSession (proto : l4_protocol) (e : session_entry_usr) | LEam (e : eamt_entry) | LPrefix4 (p : ipv4_prefix)
| LCount (n : Z) | LPool4Count (n : Z * Z * Z) | LAddr (a : in_addr + in6_addr) | LGlobal (g : global_config * list Z)
| LError (code : Z).

Section Main.
Context {R : RbTree} {K : KernelLib} (siit capable : bool) (NLBUFFER_SIZE : Z) (c : config) (pid : Z).

(** The codes other than 0, which are printed, of a command that was sent. *)
Definition sent (m : M jool (list Z)) : M jool (option (list line * Z)) :=
  codes ← m; mret (Some (map LError (List.filter (fun e => negb (e =? 0)) codes), 0)).
Definition printed {A} (f : A -> line) (m : M jool (list A)) : M jool (option (list line * Z)) := l ← m; mret (Some (map f l, 0)).
(** [None] if the fuel of a display runs out. *)
Definition shown {A O} (f : A -> line) (m : M jool (option (display_args A O))) : M jool (option (list line * Z)) :=
  d ← m; mret (d ← d; Some (map f (da_printed d), 0)).
Definition shown_protos {A O} (f : l4_protocol -> A -> line) (m : M jool (list (l4_protocol * option (display_args A O))))
    : M jool (option (list line * Z)) :=
  rs ← m;
  mret (fold_right (fun x acc => acc ← acc; d ← x.2; Some (map (f x.1) (da_printed d) ++ acc.1, acc.2)) (Some ([], 0)) rs).

Definition run_task (fuel : nat) (t : task) : M jool (option (list line * Z)) :=
  match t with
  | Pool6Display _ => shown LPrefix6 (pool6_display siit capable NLBUFFER_SIZE c pid fuel)
  | Pool6Add prefix force =>
      r ← usr_pool6_add siit capable NLBUFFER_SIZE c pid prefix force;
      match r with Err e => mret (Some ([], - errno_code e)) | Ok codes => sent (mret codes) end
  | Pool6Remove prefix quick => sent (usr_pool6_remove siit capable NLBUFFER_SIZE c pid prefix quick)
  | Pool6Count => printed LCount (usr_pool6_count siit capable NLBUFFER_SIZE c pid)
  | Pool6Flush quick => sent (usr_pool6_flush siit capable NLBUFFER_SIZE c pid quick)
  | Pool4Display _ => shown LSample (pool4_display siit capable NLBUFFER_SIZE c pid fuel)
  | Pool4Count => printed LPool4Count (usr_pool4_count siit capable NLBUFFER_SIZE c pid)
  | Pool4Add mark tcp udp icmp prefix ports force =>
      '(codes, r) ← pool4_add siit capable NLBUFFER_SIZE c pid mark tcp udp icmp prefix ports force;
      mret (Some (map LError (List.filter (fun e => negb (e =? 0)) codes), code r))
  | Pool4Remove mark tcp udp icmp prefix ports quick => sent (pool4_rm siit capable NLBUFFER_SIZE c pid mark tcp udp icmp prefix ports quick)
  | Pool4Flush quick => sent (usr_pool4_flush siit capable NLBUFFER_SIZE c pid quick)
  | BibDisplay tcp udp icmp _ _ => shown_protos LBib (each_proto tcp udp icmp (bib_display siit capable NLBUFFER_SIZE c pid fuel))
  | BibCount tcp udp icmp => printed LCount (rs ← each_proto tcp udp icmp (bib_count1 siit capable NLBUFFER_SIZE c pid); mret (concat (map snd rs)))
  | BibAdd tcp udp icmp addr6 addr4 =>
      sent (rs ← each_proto tcp udp icmp (fun proto => bib_add siit capable NLBUFFER_SIZE c pid proto addr6 addr4); mret (concat (map snd rs)))
  | BibRemove tcp udp icmp addr6_set addr6 addr4_set addr4 =>
      sent (rs ← each_proto tcp udp icmp (fun proto =>
                   bib_remove siit capable NLBUFFER_SIZE c pid proto (if addr6_set then Some addr6 else None) (if addr4_set then Some addr4 else None));
            mret (concat (map snd rs)))
  | SessionDisplay tcp udp icmp _ _ => shown_protos LSession (each_proto tcp udp icmp (session_display siit capable NLBUFFER_SIZE c pid fuel))
  | SessionCount tcp udp icmp =>
      printed LCount (rs ← each_proto tcp udp icmp (session_count1 siit capable NLBUFFER_SIZE c pid); mret (concat (map snd rs)))
  | EamDisplay _ => shown LEam (eam_display siit capable NLBUFFER_SIZE c pid fuel)
  | EamCount => printed LCount (eam_count siit capable NLBUFFER_SIZE c pid)
  | EamTest addr6_set addr6 addr4_set addr4 =>
      r ← eam_test siit capable NLBUFFER_SIZE c pid (if addr6_set then Some addr6 else None) (if addr4_set then Some addr4 else None);
      match r with Err e => mret (Some ([], - errno_code e)) | Ok l => printed LAddr (mret l) end
  | EamAdd prefix6 prefix4 force => sent (eam_add siit capable NLBUFFER_SIZE c pid prefix6 prefix4 force)
  | EamRemove prefix6_set prefix6 prefix4_set prefix4 => sent (eam_remove siit capable NLBUFFER_SIZE c pid prefix6_set prefix6 prefix4_set prefix4)
  | EamFlush => sent (eam_flush siit capable NLBUFFER_SIZE c pid)
  | PoolDisplay mode _ => shown LPrefix4 (pool_display siit capable NLBUFFER_SIZE c pid fuel mode)
  | PoolCount mode => printed LCount (usr_pool_count siit capable NLBUFFER_SIZE c pid mode)
  | PoolAdd mode addrs => sent (usr_pool_add siit capable NLBUFFER_SIZE c pid mode addrs)
  | PoolRm mode addrs => sent (usr_pool_rm siit capable NLBUFFER_SIZE c pid mode addrs)
  | PoolFlush mode => sent (usr_pool_flush siit capable NLBUFFER_SIZE c pid mode)
  | GlobalDisplay _ => printed LGlobal (global_display siit capable NLBUFFER_SIZE c pid)
  | GlobalUpdate type data => sent (usr_global_update siit capable NLBUFFER_SIZE c pid type (default [] data))
  | MissingValue | UnknownOperation _ | WrongTranslator _ | NoBenchmark | UnknownMode => mret (Some ([], invalid))
  end.

(** The lines it prints, and what it returns. *)
Definition main_wrapped (malloc : Z -> bool) (inet_pton4 : string -> option in_addr) (inet_pton6 : string -> option in6_addr)
    (fuel : nat) (words : list word) : M jool (option (list line * Z)) :=
  match parse_args siit malloc inet_pton4 inet_pton6 words with
  | None => fault
  | Some (Failure error) => mret (Some ([], error))
  | Some (Success args) => run_task fuel (choose siit args)
  end.

End Main.
