(* ===== verification/JoolMainSpec.v ===== *)
(** * What a command line can mean

    Every command line either is refused or asks the module of the
    translator for something that module has; and everything the module has
    can be asked for. *)
From Stdlib Require Import Ascii.
From stdpp Require Import strings.
From S2P Require Import Prelude Types Address Rfc6052 Pool6 Pool4Table Pool4Db RbTree BibTable BibDb PortAlloc.
From S2P Require Import Packet SessionEntry PktQueue SessionTable Tcp SessionSpec SessionDb Filtering FilteringSpec StaticRoutes Nat64.
From S2P Require Import Skb Checksum Rtrie RtrieOps Eam SiitPool Config ConfigSpec NlHandler NlSpec NlClient StrUtils Options JoolMain.

(** ** The modes and the operations that are left *)

(** The arguments of all calls of [update_state] but the one of [--logTime]. *)
Definition narrowings : list (Z * Z) :=
  [(modes [MODE_GLOBAL], GLOBAL_OPS); (modes [MODE_POOL6], DATABASE_OPS); (modes [MODE_POOL4], DATABASE_OPS);
   (modes [MODE_BLACKLIST], DATABASE_OPS); (modes [MODE_RFC6791], DATABASE_OPS); (modes [MODE_EAMT], EAMT_OPS);
   (modes [MODE_BIB], BIB_OPS); (modes [MODE_SESSION], SESSION_OPS); (DISPLAY_MODES, ops [OP_DISPLAY]);
   (COUNT_MODES, ops [OP_COUNT]); (TEST_MODES, ops [OP_TEST]); (ADD_MODES, ops [OP_ADD]); (UPDATE_MODES, ops [OP_UPDATE]);
   (REMOVE_MODES, ops [OP_REMOVE]); (FLUSH_MODES, ops [OP_FLUSH]);
   (modes [MODE_POOL4; MODE_BIB; MODE_SESSION], Z.lor (Z.lor DATABASE_OPS BIB_OPS) SESSION_OPS);
   (modes [MODE_BIB; MODE_SESSION], ops [OP_DISPLAY]);
   (modes [MODE_GLOBAL; MODE_POOL6; MODE_POOL4; MODE_BLACKLIST; MODE_RFC6791; MODE_EAMT; MODE_BIB; MODE_SESSION], ops [OP_DISPLAY]);
   (modes [MODE_POOL6; MODE_POOL4], ops [OP_REMOVE; OP_FLUSH]); (modes [MODE_POOL4], ops [OP_ADD; OP_REMOVE]);
   (modes [MODE_POOL6; MODE_POOL4; MODE_EAMT], ops [OP_ADD]); (modes [MODE_GLOBAL], ops [OP_UPDATE]);
   (modes [MODE_POOL4; MODE_BLACKLIST; MODE_RFC6791; MODE_EAMT], ops [OP_TEST; OP_ADD; OP_REMOVE]);
   (modes [MODE_POOL6; MODE_EAMT], ops [OP_TEST; OP_ADD; OP_UPDATE; OP_REMOVE]); (modes [MODE_BIB], ops [OP_ADD; OP_REMOVE])].

Definition narrow (siit : bool) (s n : Z * Z) : Z * Z :=
  (Z.land s.1 (Z.land n.1 (if negb siit then NAT64_MODES else SIIT_MODES)), Z.land s.2 n.2).

Definition same_pair (x y : Z * Z) : bool := (x.1 =? y.1) && (x.2 =? y.2).
Definition has_pair (x : Z * Z) (l : list (Z * Z)) : bool := existsb (same_pair x) l.
Definition alive (s : Z * Z) : bool := negb (s.1 =? 0) && negb (s.2 =? 0).

(** All that can be left: each narrowing is applied to what the ones before
    it leave. *)
Definition add_new (l : list (Z * Z)) (x : Z * Z) : list (Z * Z) := if alive x && negb (has_pair x l) then l ++ [x] else l.
Definition left_over (siit : bool) : list (Z * Z) :=
  fold_left (fun l n => fold_left add_new (map (fun s => narrow siit s n) l) l) narrowings [(0xffff, 0xff)].

(** Whether [main_wrapped] has a case for a mode and an operation. *)
Definition has_case (siit : bool) (mode op : Z) : bool :=
  match mode_of_num mode, op_of_num op with
  | Some MODE_POOL6, Some (OP_DISPLAY | OP_ADD | OP_UPDATE | OP_REMOVE | OP_COUNT | OP_FLUSH) => true
  | Some MODE_POOL4, Some (OP_DISPLAY | OP_ADD | OP_REMOVE | OP_COUNT | OP_FLUSH) => negb siit
  | Some MODE_BIB, Some (OP_DISPLAY | OP_ADD | OP_REMOVE | OP_COUNT) => negb siit
  | Some MODE_SESSION, Some (OP_DISPLAY | OP_COUNT) => negb siit
  | Some MODE_EAMT, Some (OP_DISPLAY | OP_ADD | OP_REMOVE | OP_COUNT | OP_FLUSH | OP_TEST) => siit
  | Some (MODE_RFC6791 | MODE_BLACKLIST), Some (OP_DISPLAY | OP_ADD | OP_REMOVE | OP_COUNT | OP_FLUSH) => siit
  | Some MODE_GLOBAL, Some (OP_DISPLAY | OP_UPDATE) => true
  | _, _ => false
  end.

Definition closed (siit : bool) : bool :=
  let l := left_over siit in
  has_pair (a_mode initial_args, a_op initial_args) l && forallb (fun s => forallb (fun n => let x := narrow siit s n in negb (alive x) || has_pair x l) narrowings) l.
Definition ends_well (siit : bool) : bool :=
  forallb (fun s => has_case siit (zeroize_upper_bits s.1) (zeroize_upper_bits s.2)) (left_over siit).

Lemma left_over_checked siit : closed siit = true /\ ends_well siit = true.
Proof. destruct siit; vm_compute; done. Qed.

#[local] Opaque left_over.

(** ** Parsing keeps what is known of the arguments *)

Definition values_ok (args : arguments) : Prop :=
  let d := a_db args in
  0 <= p6_len (a_prefix6 d) <= 128 /\ 0 <= p4_len (a_prefix4 (a_pool4 d)) <= 32 /\ is_u32 (a_mark (a_pool4 d)) /\
  is_u16 (r_min (a_ports (a_pool4 d))) /\ is_u16 (r_max (a_ports (a_pool4 d))) /\
  is_u16 (l4_6 (a_addr6 (a_bib d))) /\ is_u16 (l4_4 (a_addr4 (a_bib d))).

Section Sound.
Context (siit : bool) (malloc : Z -> bool).
Context (inet_pton4 : string -> option in_addr) (inet_pton6 : string -> option in6_addr).

Definition args_ok (args : arguments) : Prop := has_pair (a_mode args, a_op args) (left_over siit) = true /\ values_ok args.
Definition good (r : status arguments) : Prop := match r with Success args => args_ok args | Failure _ => True end.

Lemma good_bind {A} (r : status A) (f : A -> status arguments) : (forall x, r = Success x -> good (f x)) -> good (r ≫= f).
Proof. intros H. destruct r as [x|e]; [apply H|]; done. Qed.

Lemma has_pair_spec x l : has_pair x l = true <-> x ∈ l.
Proof.
  unfold has_pair. rewrite existsb_exists. split.
  - intros (y & Hy & E). unfold same_pair in E. apply andb_prop in E as [E1 E2]. apply Z.eqb_eq in E1, E2.
    apply list_elem_of_In in Hy. destruct x, y. cbn in *. subst. exact Hy.
  - intros Hx. exists x. split; [apply list_elem_of_In; exact Hx|]. unfold same_pair. rewrite !Z.eqb_refl. done.
Qed.

Lemma left_over_narrow s n : s ∈ left_over siit -> n ∈ narrowings -> alive (narrow siit s n) = true -> narrow siit s n ∈ left_over siit.
Proof.
  intros Hs Hn Ha. destruct (left_over_checked siit) as [Hc _]. unfold closed in Hc. apply andb_prop in Hc as [_ Hc].
  rewrite forallb_forall in Hc. specialize (Hc s ltac:(apply list_elem_of_In; exact Hs)). cbn beta in Hc.
  rewrite forallb_forall in Hc. specialize (Hc n ltac:(apply list_elem_of_In; exact Hn)). cbn zeta in Hc.
  rewrite Ha in Hc. apply has_pair_spec. exact Hc.
Qed.

Lemma good_update args vm vo : args_ok args -> (vm, vo) ∈ narrowings -> good (update_state siit args vm vo).
Proof.
  intros [Hp Hv] Hn. apply has_pair_spec in Hp. pose proof (left_over_narrow _ _ Hp Hn) as Hl. unfold narrow, alive in Hl. cbn [fst snd] in Hl.
  unfold update_state. set (m := Z.land (a_mode args) _) in *. set (o := Z.land (a_op args) vo) in *. cbn zeta.
  destruct (m =? 0) eqn:Em; [done|]. destruct (negb (Z.lor m _ =? _)); [done|].
  destruct (o =? 0) eqn:Eo; [done|]. destruct (negb (Z.lor o _ =? _)); [done|].
  split; [apply has_pair_spec; apply Hl; done|exact Hv].
Qed.

(** A change of the other members. *)
Lemma args_ok_with args args' : args_ok args -> a_mode args' = a_mode args -> a_op args' = a_op args -> values_ok args' -> args_ok args'.
Proof. intros [Hp _] Hm Ho Hv. split; [rewrite Hm, Ho; exact Hp|exact Hv]. Qed.

Ltac listed := apply has_pair_spec; vm_compute; reflexivity.
Ltac keeps_values := eapply args_ok_with; [eassumption|done|done|].
Ltac open_values := match goal with H : args_ok _ |- _ => let V := fresh "V" in destruct (H) as [_ V]; unfold values_ok in V |- *; cbn in V |- * end.

Lemma good_global args type value : args_ok args -> good (set_global_arg siit malloc args type value).
Proof.
  intros Ha. unfold set_global_arg. apply good_bind. intros a Ea. pose proof (good_update args _ _ Ha (ltac:(listed) : (modes [MODE_GLOBAL], ops [OP_UPDATE]) ∈ narrowings)) as Hg.
  rewrite Ea in Hg. destruct (a_data _); [done|]. destruct (negb _); [done|]. keeps_values. destruct Hg as [_ V]. exact V.
Qed.

Lemma good_update_then args vm vo f : args_ok args -> (vm, vo) ∈ narrowings -> (forall a, args_ok a -> good (f a)) -> good (update_state siit args vm vo ≫= f).
Proof. intros Ha Hn Hf. apply good_bind. intros a Ea. apply Hf. pose proof (good_update args vm vo Ha Hn) as Hg. rewrite Ea in Hg. exact Hg. Qed.

Lemma good_ipv4_prefix args str : args_ok args -> good (set_ipv4_prefix siit inet_pton4 args str).
Proof.
  intros Ha. apply good_update_then; [exact Ha|listed|]. intros a Hok. cbn zeta. destruct (a_prefix4_set _); [done|].
  apply good_bind. intros p Hp. apply str_to_ipv4_prefix_bounds in Hp. keeps_values. open_values. tauto.
Qed.

Lemma good_ipv6_prefix args str : args_ok args -> good (set_ipv6_prefix siit inet_pton6 args str).
Proof.
  intros Ha. apply good_update_then; [exact Ha|listed|]. intros a Hok. destruct (a_prefix6_set _); [done|].
  apply good_bind. intros p Hp. apply str_to_ipv6_prefix_bounds in Hp. keeps_values. open_values. tauto.
Qed.

Lemma good_bib6 args str : args_ok args -> good (set_bib6 siit inet_pton6 args str).
Proof.
  intros Ha. unfold set_bib6. destruct siit eqn:Es; [done|]. rewrite <- Es. apply good_update_then; [exact Ha|listed|]. intros a Hok. cbn zeta.
  destruct (a_addr6_set _); [done|]. apply good_bind. intros p Hp. apply str_to_addr6_port_bounds in Hp. keeps_values. open_values. tauto.
Qed.

Lemma good_bib4 args str : args_ok args -> good (set_bib4 siit inet_pton4 args str).
Proof.
  intros Ha. unfold set_bib4. destruct siit eqn:Es; [done|]. rewrite <- Es. apply good_update_then; [exact Ha|listed|]. intros a Hok. cbn zeta.
  destruct (a_addr4_set _); [done|]. apply good_bind. intros p Hp. apply str_to_addr4_port_bounds in Hp. keeps_values. open_values. tauto.
Qed.

Lemma good_port_range args str : args_ok args -> good (set_port_range siit args str).
Proof.
  intros Ha. unfold set_port_range. destruct siit eqn:Es; [done|]. rewrite <- Es. apply good_update_then; [exact Ha|listed|]. intros a Hok. cbn zeta.
  apply good_bind. intros p Hp. apply str_to_port_range_bounds in Hp. keeps_values. open_values. tauto.
Qed.

Lemma good_ip_args args str : args_ok args -> good (set_ip_args siit inet_pton4 inet_pton6 args str).
Proof.
  intros Ha. unfold set_ip_args. destruct str as [str|]; [|exact Ha]. destruct (strlen str =? 0); [exact Ha|].
  destruct (strchr str ":"%char), (strchr str "#"%char), (strchr str "."%char);
    auto using good_bib6, good_bib4, good_ipv6_prefix, good_ipv4_prefix, good_port_range.
Qed.

(** The options whose case of [parse_opt] follows the pointer to the
    argument. *)
Definition reads_arg (f : argp_flags) : bool :=
  match f with
  | ARGP_GLOBAL | ARGP_POOL6 | ARGP_POOL4 | ARGP_BLACKLIST | ARGP_RFC6791 | ARGP_EAMT | ARGP_BIB | ARGP_SESSION | ARGP_LOGTIME
  | ARGP_DISPLAY | ARGP_COUNT | ARGP_TEST | ARGP_ADD | ARGP_UPDATE | ARGP_REMOVE | ARGP_FLUSH
  | ARGP_UDP | ARGP_TCP | ARGP_ICMP | ARGP_NUMERIC_HOSTNAME | ARGP_CSV | ARGP_QUICK | ARGP_FORCE
  | ARGP_ENABLE_TRANSLATION | ARGP_DISABLE_TRANSLATION => false
  | _ => true
  end.

Definition proper_key (key : parser_key) (str : option string) : Prop :=
  match key with KEY_ARG => True | KeyFlag f => f <> ARGP_LOGTIME /\ (reads_arg f = true -> is_Some str) end.

Lemma good_bool args type s : args_ok args -> good (set_global_bool siit malloc args type s).
Proof. intros Ha. apply good_bind. intros x _. apply good_global. exact Ha. Qed.
Lemma good_u8 args type s min max : args_ok args -> good (set_global_u8 siit malloc args type s min max).
Proof. intros Ha. apply good_bind. intros x _. apply good_global. exact Ha. Qed.
Lemma good_u64 args type s min max k : args_ok args -> good (set_global_u64 siit malloc args type s min max k).
Proof. intros Ha. apply good_bind. intros x _. apply good_global. exact Ha. Qed.
Lemma good_u16_array args type s : args_ok args -> good (set_global_u16_array siit malloc args type s).
Proof. intros Ha. apply good_bind. intros x _. apply good_global. exact Ha. Qed.

Lemma good_mark args s : args_ok args ->
  good (mark ← str_to_u32 s 0 MAX_U32;
        let p := a_pool4 (a_db args) in
        Success (with_db (with_pool4 (ArgsPool4 mark (a_prefix4 p) (a_ports p) (a_prefix4_set p)) (a_db args)) args)).
Proof.
  intros Ha. apply good_bind. intros mark Hm. apply str_to_u32_bounds in Hm; [|done|done]. keeps_values. open_values.
  unfold is_u32, MAX_U32 in *. cbn. intuition lia.
Qed.

Lemma good_parse_opt key str args : args_ok args -> proper_key key str ->
  exists r, parse_opt siit malloc inet_pton4 inet_pton6 key str args = Some r /\ good r.
Proof.
  intros Ha Hk. destruct key as [f|]; [|eexists; split; [done|]; apply good_ip_args; exact Ha].
  destruct Hk as [Hl Hr].
  destruct f; try (exfalso; apply Hl; reflexivity);
    try (destruct (Hr eq_refl) as [s ->]; clear Hr);
    try (eexists; split; [reflexivity|];
         auto using good_bool, good_u8, good_u64, good_u16_array, good_bib6, good_bib4, good_ipv6_prefix, good_ipv4_prefix; fail);
    try (eexists; split; [reflexivity|]; apply good_update; [exact Ha|listed]);
    try (eexists; split; [reflexivity|]; apply good_update_then; [exact Ha|listed|]; intros a Hok; keeps_values; destruct Hok as [_ V]; exact V).
  pose proof (good_update args (modes [MODE_POOL4]) (ops [OP_ADD; OP_REMOVE]) Ha ltac:(listed)) as Hg.
  cbn [parse_opt]. destruct (update_state siit args (modes [MODE_POOL4]) (ops [OP_ADD; OP_REMOVE])) as [a|e]; [|eexists; done].
  eexists. split; [reflexivity|]. apply good_mark. exact Hg.
Qed.

(** *** The tables *)

Definition option_ok (o : argp_option) : bool :=
  match opt_key o with
  | Some ARGP_LOGTIME => false
  | Some f => negb (reads_arg f) || match opt_arg o with Some _ => true | None => false end
  | None => true
  end.

Lemma tables_ok : forallb option_ok (build_options malloc siit) = true.
Proof. unfold build_options. destruct siit; destruct (malloc _); vm_compute; done. Qed.

Lemma find_name_in name current opts o : find_name name current opts = Some o -> current = Some o \/ o ∈ opts.
Proof.
  revert current. induction opts as [|x opts IH]; intros current; cbn [find_name]; [done|].
  destruct (bool_decide _).
  - destruct (opt_alias x); [auto|]. intros [= ->]. right. left.
  - intros H. apply IH in H as [H|H]; [|right; right; exact H]. destruct (opt_alias x); [auto|]. injection H as ->. right. left.
Qed.

Lemma argp_option_proper found value key str : (forall o, found = Some o -> option_ok o = true) ->
  argp_option_word found value = Success (key, str) -> proper_key key str.
Proof.
  intros Hf. unfold argp_option_word. destruct found as [o|]; [|done]. specialize (Hf o eq_refl). unfold option_ok in Hf.
  destruct (opt_key o) as [f|]; [|destruct value; done].
  destruct (opt_arg o), value; try done; intros [= <- <-]; split; try (intros ->; done); eauto.
  intros Hr. rewrite Hr in Hf. destruct f; done.
Qed.

Lemma argp_word_proper w key str : argp_word (build_options malloc siit) w = Success (key, str) -> proper_key key str.
Proof.
  pose proof tables_ok as Ht. rewrite forallb_forall in Ht.
  destruct w as [name value|ch value|s]; cbn [argp_word]; [| |intros [= <- <-]; done].
  - apply argp_option_proper. intros o Ho. apply find_name_in in Ho as [Ho|Ho]; [done|]. apply Ht, list_elem_of_In, Ho.
  - apply argp_option_proper. intros o Ho. apply find_some in Ho as [Ho _]. apply Ht, Ho.
Qed.

Lemma good_argp_parse words args : args_ok args ->
  exists r, argp_parse (build_options malloc siit) (parse_opt siit malloc inet_pton4 inet_pton6) words args = Some r /\ good r.
Proof.
  revert args. induction words as [|w words IH]; intros args Ha; cbn [argp_parse]; [eexists; done|].
  destruct (argp_word _ w) as [[key str]|e] eqn:Ew; [|eexists; done].
  destruct (good_parse_opt key str args Ha (argp_word_proper _ _ _ Ew)) as (r & -> & Hg).
  destruct r as [a|e]; [apply IH; exact Hg|eexists; done].
Qed.

Lemma args_ok_initial : args_ok initial_args.
Proof.
  split; [|unfold values_ok, is_u32, is_u16; cbn -[Z.pow]; repeat split; lia].
  destruct (left_over_checked siit) as [Hc _]. unfold closed in Hc. apply andb_prop in Hc as [Hc _]. exact Hc.
Qed.

(** The task is one of the translator. *)
Definition possible (t : task) : bool :=
  match t with UnknownOperation _ | WrongTranslator _ | NoBenchmark | UnknownMode => false | _ => true end.

Lemma possible_choose args : has_case siit (a_mode args) (a_op args) = true -> possible (choose siit args) = true.
Proof.
  unfold has_case, choose, choose_pool6, choose_pool4, choose_bib, choose_session, choose_eamt, choose_pool, choose_global.
  destruct (mode_of_num (a_mode args)) as [[]|]; destruct (op_of_num (a_op args)) as [[]|]; try done;
    destruct siit; try done; cbn [negb]; repeat (case_match; try done).
Qed.

End Sound.

(** C28: A command line never crashes the application, and never means
    something the translator does not have.  Whatever the words are and
    whatever [inet_pton] and [malloc] answer, in both translators:
    [parse_args] follows no NULL pointer (every option whose argument is read
    asks for one in its table); and if it does not refuse the words, the
    cases of [main_wrapped] for an unknown mode or operation, for the other
    translator and for the benchmark are not reached, at least one protocol is
    chosen, and the prefix lengths, the mark and the ports that are sent are in
    range. *)
Theorem command_line_sound siit malloc inet_pton4 inet_pton6 words :
  exists r, parse_args siit malloc inet_pton4 inet_pton6 words = Some r /\
  match r with
  | Failure _ => True
  | Success args =>
      possible (choose siit args) = true /\ values_ok args /\
      (a_tcp (a_db args) || a_udp (a_db args) || a_icmp (a_db args) = true)
  end.
Proof.
  destruct (good_argp_parse siit malloc inet_pton4 inet_pton6 words _ (args_ok_initial siit)) as (r & E & Hg).
  unfold parse_args. rewrite E. destruct r as [args|e]; [|eexists; done].
  destruct Hg as [Hp Hv]. eexists. split; [reflexivity|]. apply has_pair_spec in Hp. destruct (left_over_checked siit) as [_ Hw].
  unfold ends_well in Hw. rewrite forallb_forall in Hw. specialize (Hw _ ltac:(apply list_elem_of_In; exact Hp)). cbn [fst snd] in Hw.
  split; [apply possible_choose; unfold finish_args; cbn zeta; destruct (_ && _); exact Hw|].
  unfold finish_args. cbn zeta. destruct (negb _ && negb _ && negb _) eqn:En; (split; [exact Hv|]); [done|].
  cbn in *. destruct (a_tcp (a_db args)), (a_udp (a_db args)), (a_icmp (a_db args)); done.
Qed.
