(* ===== verification/CommandLine.v ===== *)
(** * Everything can be asked for

    For every task there is a command line that means it: the options of the
    task and its values, printed. *)
From Stdlib Require Import Ascii.
From stdpp Require Import strings.
From S2P Require Import Prelude Types Address Rfc6052 Pool6 Pool4Table Pool4Db RbTree BibTable BibDb PortAlloc.
From S2P Require Import Packet SessionEntry PktQueue SessionTable Tcp SessionSpec SessionDb Filtering FilteringSpec StaticRoutes Nat64.
From S2P Require Import Skb Checksum Rtrie RtrieOps Eam SiitPool Config ConfigSpec NlHandler NlSpec NlClient StrUtils Options JoolMain JoolMainSpec.

(** ** Words *)

Definition Long (name : string) : word := LongOption name None.
Definition when (b : bool) (name : string) : list word := if b then [Long name] else [].

Section Words.
(** How addresses are written. *)
Context (ntop4 : in_addr -> string) (ntop6 : in6_addr -> string).

Definition prefix6_word (p : ipv6_prefix) : word := Positional (with_number (ntop6 (p6_address p)) "/"%char (p6_len p)).
Definition prefix4_word (p : ipv4_prefix) : word := Positional (with_number (ntop4 (p4_address p)) "/"%char (p4_len p)).
Definition addr6_word (a : ipv6_transport_addr) : word := Positional (with_number (ntop6 (l3_6 a)) "#"%char (l4_6 a)).
Definition addr4_word (a : ipv4_transport_addr) : word := Positional (with_number (ntop4 (l3_4 a)) "#"%char (l4_4 a)).
Definition protos (tcp udp icmp : bool) : list word := when tcp "tcp" ++ when udp "udp" ++ when icmp "icmp".
Definition pool_name (mode : config_mode) : string := match mode with MODE_BLACKLIST => "blacklist" | _ => "pool6791" end.

(** The values of the configuration. *)
Inductive setting : Type :=
| SBool (type : global_type) (b : bool)
| SSeconds (type : global_type) (n : Z)
| SMaxPkts (n : Z)
| STos (n : Z)
| SHairpin (n : Z)
| SPlateaus (l : list Z)
| SEnable
| SDisable.

Definition setting_name (siit : bool) (s : setting) : option string :=
  match s with
  | SBool DROP_BY_ADDR _ => if siit then None else Some "address-dependent-filtering"
  | SBool DROP_ICMP6_INFO _ => if siit then None else Some "drop-icmpv6-info"
  | SBool DROP_EXTERNAL_TCP _ => if siit then None else Some "drop-externally-initiated-tcp"
  | SBool SRC_ICMP6ERRS_BETTER _ => if siit then None else Some "source-icmpv6-errors-better"
  | SBool BIB_LOGGING _ => if siit then None else Some "logging-bib"
  | SBool SESSION_LOGGING _ => if siit then None else Some "logging-session"
  | SBool COMPUTE_UDP_CSUM_ZERO _ => if siit then Some "amend-udp-checksum-zero" else None
  | SBool RANDOMIZE_RFC6791 _ => if siit then Some "randomize-rfc6791-addresses" else None
  | SBool RESET_TCLASS _ => Some "zeroize-traffic-class"
  | SBool RESET_TOS _ => Some "override-tos"
  | SBool DF_ALWAYS_ON _ => Some "setDF"
  | SBool BUILD_IPV6_FH _ => Some "genFH"
  | SBool BUILD_IPV4_ID _ => Some "genID"
  | SBool LOWER_MTU_FAIL _ => Some "boostMTU"
  | SBool ATOMIC_FRAGMENTS _ => Some "allow-atomic-fragments"
  | SBool _ _ => None
  | SSeconds UDP_TIMEOUT _ => if siit then None else Some "udp-timeout"
  | SSeconds ICMP_TIMEOUT _ => if siit then None else Some "icmp-timeout"
  | SSeconds TCP_EST_TIMEOUT _ => if siit then None else Some "tcp-est-timeout"
  | SSeconds TCP_TRANS_TIMEOUT _ => if siit then None else Some "tcp-trans-timeout"
  | SSeconds FRAGMENT_TIMEOUT _ => if siit then None else Some "fragment-arrival-timeout"
  | SSeconds _ _ => None
  | SMaxPkts _ => if siit then None else Some "maximum-simultaneous-opens"
  | STos _ => Some "tos"
  | SHairpin _ => if siit then Some "eam-hairpin-mode" else None
  | SPlateaus _ => Some "mtu-plateaus"
  | SEnable => Some "enable"
  | SDisable => Some "disable"
  end%string.

Definition setting_value (s : setting) : option string :=
  match s with
  | SBool _ b => Some (if b then "true" else "false")
  | SSeconds _ n | SMaxPkts n | STos n | SHairpin n => Some (printf_u n)
  | SPlateaus l => Some (print_list l)
  | SEnable | SDisable => None
  end%string.

Definition setting_type (s : setting) : global_type :=
  match s with
  | SBool type _ | SSeconds type _ => type
  | SMaxPkts _ => MAX_PKTS | STos _ => NEW_TOS | SHairpin _ => EAM_HAIRPINNING_MODE | SPlateaus _ => MTU_PLATEAUS
  | SEnable => ENABLE | SDisable => DISABLE
  end.

(** The bytes the module gets: milliseconds, in 64 bits. *)
Definition setting_data (s : setting) : bytes :=
  match s with
  | SBool _ b => [b2z b]
  | SSeconds _ n => le_bytes 8 (1000 * n)
  | SMaxPkts n => le_bytes 8 n
  | STos n | SHairpin n => [n]
  | SPlateaus l => concat (map (le_bytes 2) l)
  | SEnable | SDisable => [1]
  end.

Definition least_seconds (type : global_type) : Z :=
  match type with UDP_TIMEOUT => UDP_MIN | TCP_EST_TIMEOUT => TCP_EST | TCP_TRANS_TIMEOUT => TCP_TRANS | FRAGMENT_TIMEOUT => FRAGMENT_MIN | _ => 0 end.

Definition setting_ok (s : setting) : Prop :=
  match s with
  | SSeconds type n => least_seconds type <= n <= MAX_U32 `div` 1000
  | SMaxPkts n => 0 <= n < 2^64
  | STos n => is_u8 n
  | SHairpin n => 0 <= n < 3
  | SPlateaus l => l <> [] /\ Forall is_u16 l /\ strlen (print_list l) < 2048
  | _ => True
  end.

(** The other tasks. *)
Definition task_words (t : task) : list word :=
  match t with
  | Pool6Display csv => [Long "pool6"; Long "display"] ++ when csv "csv"
  | Pool6Add p force => [Long "pool6"; Long "add"; prefix6_word p] ++ when force "force"
  | Pool6Remove p quick => [Long "pool6"; Long "remove"; prefix6_word p] ++ when quick "quick"
  | Pool6Count => [Long "pool6"; Long "count"]
  | Pool6Flush quick => [Long "pool6"; Long "flush"] ++ when quick "quick"
  | Pool4Display csv => [Long "pool4"; Long "display"] ++ when csv "csv"
  | Pool4Count => [Long "pool4"; Long "count"]
  | Pool4Add mark tcp udp icmp p ports force =>
      [Long "pool4"; Long "add"; LongOption "mark" (Some (printf_u mark)); prefix4_word p; Positional (print_range ports)]
      ++ protos tcp udp icmp ++ when force "force"
  | Pool4Remove mark tcp udp icmp p ports quick =>
      [Long "pool4"; Long "remove"; LongOption "mark" (Some (printf_u mark)); prefix4_word p; Positional (print_range ports)]
      ++ protos tcp udp icmp ++ when quick "quick"
  | Pool4Flush quick => [Long "pool4"; Long "flush"] ++ when quick "quick"
  | BibDisplay tcp udp icmp numeric csv => [Long "bib"; Long "display"] ++ protos tcp udp icmp ++ when numeric "numeric" ++ when csv "csv"
  | BibCount tcp udp icmp => [Long "bib"; Long "count"] ++ protos tcp udp icmp
  | BibAdd tcp udp icmp addr6 addr4 => [Long "bib"; Long "add"; addr6_word addr6; addr4_word addr4] ++ protos tcp udp icmp
  | BibRemove tcp udp icmp addr6_set addr6 addr4_set addr4 =>
      [Long "bib"; Long "remove"] ++ (if addr6_set then [addr6_word addr6] else []) ++ (if addr4_set then [addr4_word addr4] else [])
      ++ protos tcp udp icmp
  | SessionDisplay tcp udp icmp numeric csv => [Long "session"; Long "display"] ++ protos tcp udp icmp ++ when numeric "numeric" ++ when csv "csv"
  | SessionCount tcp udp icmp => [Long "session"; Long "count"] ++ protos tcp udp icmp
  | EamDisplay csv => [Long "eamt"; Long "display"] ++ when csv "csv"
  | EamCount => [Long "eamt"; Long "count"]
  | EamTest addr6_set addr6 addr4_set addr4 =>
      [Long "eamt"; Long "test"] ++ (if addr6_set then [Positional (ntop6 addr6)] else []) ++ (if addr4_set then [Positional (ntop4 addr4)] else [])
  | EamAdd p6 p4 force => [Long "eamt"; Long "add"; prefix6_word p6; prefix4_word p4] ++ when force "force"
  | EamRemove prefix6_set p6 prefix4_set p4 =>
      [Long "eamt"; Long "remove"] ++ (if prefix6_set then [prefix6_word p6] else []) ++ (if prefix4_set then [prefix4_word p4] else [])
  | EamFlush => [Long "eamt"; Long "flush"]
  | PoolDisplay mode csv => [Long (pool_name mode); Long "display"] ++ when csv "csv"
  | PoolCount mode => [Long (pool_name mode); Long "count"]
  | PoolAdd mode p => [Long (pool_name mode); Long "add"; prefix4_word p]
  | PoolRm mode p => [Long (pool_name mode); Long "remove"; prefix4_word p]
  | PoolFlush mode => [Long (pool_name mode); Long "flush"]
  | GlobalDisplay csv => [Long "global"; Long "display"] ++ when csv "csv"
  | GlobalUpdate _ _ | MissingValue | UnknownOperation _ | WrongTranslator _ | NoBenchmark | UnknownMode => []
  end.

(** What can be written: values in range, protocols chosen, the pools and the
    options of the translator. *)
Section Writable.
Context (inet_pton4 : string -> option in_addr) (inet_pton6 : string -> option in6_addr).

Definition w6 (a : in6_addr) : Prop := reads6 inet_pton6 (ntop6 a) a.
Definition w4 (a : in_addr) : Prop := reads4 inet_pton4 (ntop4 a) a.
Definition p6_ok (p : ipv6_prefix) : Prop := w6 (p6_address p) /\ 0 <= p6_len p <= 128.
Definition p4_ok (p : ipv4_prefix) : Prop := w4 (p4_address p) /\ 0 <= p4_len p <= 32.
Definition ta6_ok (a : ipv6_transport_addr) : Prop := w6 (l3_6 a) /\ is_u16 (l4_6 a).
Definition ta4_ok (a : ipv4_transport_addr) : Prop := w4 (l3_4 a) /\ is_u16 (l4_4 a).
Definition range_ok (r : port_range) : Prop := is_u16 (r_min r) /\ is_u16 (r_max r).
Definition some_proto (tcp udp icmp : bool) : Prop := tcp || udp || icmp = true.
(** A value that is not given is 0. *)
Definition given {A} (set : bool) (ok : A -> Prop) (zero x : A) : Prop := if set then ok x else x = zero.

Definition writable (siit : bool) (t : task) : Prop :=
  match t with
  | Pool6Display _ | Pool6Count | GlobalDisplay _ => True
  | Pool6Add p _ => p6_ok p
  | Pool6Remove p quick => p6_ok p /\ (siit = true -> quick = false)
  | Pool6Flush quick => siit = true -> quick = false
  | Pool4Display _ | Pool4Count | Pool4Flush _ => siit = false
  | Pool4Add mark tcp udp icmp p ports _ | Pool4Remove mark tcp udp icmp p ports _ =>
      siit = false /\ is_u32 mark /\ some_proto tcp udp icmp /\ p4_ok p /\ range_ok ports
  | BibDisplay tcp udp icmp _ _ | BibCount tcp udp icmp | SessionDisplay tcp udp icmp _ _ | SessionCount tcp udp icmp =>
      siit = false /\ some_proto tcp udp icmp
  | BibAdd tcp udp icmp addr6 addr4 => siit = false /\ some_proto tcp udp icmp /\ ta6_ok addr6 /\ ta4_ok addr4
  | BibRemove tcp udp icmp addr6_set addr6 addr4_set addr4 =>
      siit = false /\ some_proto tcp udp icmp /\ addr6_set || addr4_set = true /\
      given addr6_set ta6_ok (TAddr6 (In6Addr 0) 0) addr6 /\ given addr4_set ta4_ok (TAddr4 (InAddr 0) 0) addr4
  | EamDisplay _ | EamCount | EamFlush => siit = true
  | EamTest addr6_set addr6 addr4_set addr4 => siit = true /\ given addr6_set w6 (In6Addr 0) addr6 /\ given addr4_set w4 (InAddr 0) addr4
  | EamAdd p6 p4 _ => siit = true /\ p6_ok p6 /\ p4_ok p4
  | EamRemove prefix6_set p6 prefix4_set p4 =>
      siit = true /\ prefix6_set || prefix4_set = true /\
      given prefix6_set p6_ok (Prefix6 (In6Addr 0) 0) p6 /\ given prefix4_set p4_ok (Prefix4 (InAddr 0) 0) p4
  | PoolDisplay mode _ | PoolCount mode | PoolFlush mode => siit = true /\ (mode = MODE_BLACKLIST \/ mode = MODE_RFC6791)
  | PoolAdd mode p | PoolRm mode p => siit = true /\ (mode = MODE_BLACKLIST \/ mode = MODE_RFC6791) /\ p4_ok p
  | GlobalUpdate _ _ | MissingValue | UnknownOperation _ | WrongTranslator _ | NoBenchmark | UnknownMode => False
  end.
End Writable.
End Words.

(** The branch of the stateful translator. *)
Ltac take_else Hn :=
  match goal with |- context [if ?c then ?x else ?y] => match type of Hn with c = false => replace (if c then x else y) with y by (rewrite Hn; done) end end.

(** ** Walking through the words *)

Definition options_of (siit : bool) : list argp_option := if siit then options_siit else options_nat64.

Section Walk.
Context (siit : bool) (malloc : Z -> bool) (Hmalloc : forall n, malloc n = true).
Context (inet_pton4 : string -> option in_addr) (inet_pton6 : string -> option in6_addr).

Abbreviation opt := (parse_opt siit malloc inet_pton4 inet_pton6).
Abbreviation opts := (options_of siit).

(** From the modes and operations [s] and the rest [b] to the task. *)
Definition leads (words : list word) (s : Z * Z) (b : arguments) (t : task) : Prop :=
  exists args, argp_parse opts opt words (with_state s.1 s.2 b) = Some (Success args) /\ choose siit (finish_args args) = t.

Lemma leads_nil s b t : choose siit (finish_args (with_state s.1 s.2 b)) = t -> leads [] s b t.
Proof. intros H. eexists. split; [reflexivity|exact H]. Qed.

Lemma leads_cons w words key str s s' b b' t : argp_word opts w = Success (key, str) ->
  opt key str (with_state s.1 s.2 b) = Some (Success (with_state s'.1 s'.2 b')) -> leads words s' b' t -> leads (w :: words) s b t.
Proof. intros Hw Ho (args & Ha & Hc). exists args. split; [|exact Hc]. cbn [argp_parse]. rewrite Hw, Ho. exact Ha. Qed.

Lemma land_subset x v : Z.lor (Z.land x v) v = v.
Proof. apply Z.bits_inj'. intros n _. rewrite Z.lor_spec, Z.land_spec. destruct (Z.testbit x n), (Z.testbit v n); done. Qed.

Lemma update_narrow s b vm vo : alive (narrow siit s (vm, vo)) = true ->
  update_state siit (with_state s.1 s.2 b) vm vo = Success (with_state (narrow siit s (vm, vo)).1 (narrow siit s (vm, vo)).2 b).
Proof.
  unfold alive, narrow. cbn [fst snd]. intros Ha. apply andb_prop in Ha as [Hm Ho]. unfold update_state. cbn [a_mode a_op with_state a_db a_global a_csv_format].
  rewrite !land_subset, !Z.eqb_refl. apply negb_true_iff in Hm, Ho. rewrite Hm, Ho. done.
Qed.

(** The options that only narrow down. *)
Definition flag_narrowing (f : argp_flags) : option (Z * Z) :=
  match f with
  | ARGP_GLOBAL => Some (modes [MODE_GLOBAL], GLOBAL_OPS) | ARGP_POOL6 => Some (modes [MODE_POOL6], DATABASE_OPS)
  | ARGP_POOL4 => Some (modes [MODE_POOL4], DATABASE_OPS) | ARGP_BLACKLIST => Some (modes [MODE_BLACKLIST], DATABASE_OPS)
  | ARGP_RFC6791 => Some (modes [MODE_RFC6791], DATABASE_OPS) | ARGP_EAMT => Some (modes [MODE_EAMT], EAMT_OPS)
  | ARGP_BIB => Some (modes [MODE_BIB], BIB_OPS) | ARGP_SESSION => Some (modes [MODE_SESSION], SESSION_OPS)
  | ARGP_DISPLAY => Some (DISPLAY_MODES, ops [OP_DISPLAY]) | ARGP_COUNT => Some (COUNT_MODES, ops [OP_COUNT])
  | ARGP_TEST => Some (TEST_MODES, ops [OP_TEST]) | ARGP_ADD => Some (ADD_MODES, ops [OP_ADD])
  | ARGP_REMOVE => Some (REMOVE_MODES, ops [OP_REMOVE]) | ARGP_FLUSH => Some (FLUSH_MODES, ops [OP_FLUSH])
  | _ => None
  end.

(** The ones that also set a member. *)
Definition flag_change (f : argp_flags) : option (Z * Z * (arguments -> arguments)) :=
  let protocol := (modes [MODE_POOL4; MODE_BIB; MODE_SESSION], Z.lor (Z.lor DATABASE_OPS BIB_OPS) SESSION_OPS) in
  let on_db f args := with_db (f (a_db args)) args in
  match f with
  | ARGP_UDP => Some (protocol, on_db (fun d => with_protos (a_tcp d) true (a_icmp d) d))
  | ARGP_TCP => Some (protocol, on_db (fun d => with_protos true (a_udp d) (a_icmp d) d))
  | ARGP_ICMP => Some (protocol, on_db (fun d => with_protos (a_tcp d) (a_udp d) true d))
  | ARGP_NUMERIC_HOSTNAME => Some (modes [MODE_BIB; MODE_SESSION], ops [OP_DISPLAY], on_db with_numeric)
  | ARGP_CSV =>
      Some (modes [MODE_GLOBAL; MODE_POOL6; MODE_POOL4; MODE_BLACKLIST; MODE_RFC6791; MODE_EAMT; MODE_BIB; MODE_SESSION], ops [OP_DISPLAY], with_csv)
  | ARGP_QUICK => Some (modes [MODE_POOL6; MODE_POOL4], ops [OP_REMOVE; OP_FLUSH], on_db with_quick)
  | ARGP_FORCE => Some (modes [MODE_POOL6; MODE_POOL4; MODE_EAMT], ops [OP_ADD], on_db with_force)
  | f => n ← flag_narrowing f; Some (n, id)
  end.

Lemma opt_flag f n change s b : flag_change f = Some (n, change) -> alive (narrow siit s n) = true ->
  opt (KeyFlag f) None (with_state s.1 s.2 b) = Some (Success (with_state (narrow siit s n).1 (narrow siit s n).2 (change b))).
Proof.
  intros Hf Ha. destruct n as [vm vo]. destruct f; try discriminate Hf; injection Hf as <- <- <-; cbn [parse_opt]; rewrite update_narrow by exact Ha; done.
Qed.

Lemma leads_flag name f n change words s b t : (o ← find_name name None opts; match opt_arg o with Some _ => None | None => opt_key o end) = Some f ->
  flag_change f = Some (n, change) -> alive (narrow siit s n) = true -> leads words (narrow siit s n) (change b) t -> leads (Long name :: words) s b t.
Proof.
  intros Hn Hf Ha Hl. eapply leads_cons; [|apply opt_flag; eassumption|exact Hl].
  cbn [argp_word Long]. destruct (find_name name None opts) as [o|]; [|done]. cbn in Hn |- *.
  destruct (opt_arg o) eqn:Eo; [done|]. rewrite Hn. done.
Qed.

(** Values. *)
Lemma strchr_with_number s sep n ch : digit ch = None -> strchr (with_number s sep n) ch = strchr s ch || Ascii.eqb ch sep.
Proof. intros Hd. unfold with_number. rewrite strchr_append. cbn [strchr]. rewrite printf_u_lacks by exact Hd. rewrite orb_false_r. done. Qed.

Lemma strlen_nonempty s : s <> EmptyString -> (strlen s =? 0) = false.
Proof. intros Hs. destruct s; [done|]. unfold strlen. cbn [String.length]. apply Z.eqb_neq. lia. Qed.
Lemma with_number_nonempty s sep n : with_number s sep n <> EmptyString.
Proof. unfold with_number. destruct s; done. Qed.

Definition narrow_prefix6 : Z * Z := (modes [MODE_POOL6; MODE_EAMT], ops [OP_TEST; OP_ADD; OP_UPDATE; OP_REMOVE]).
Definition narrow_prefix4 : Z * Z := (modes [MODE_POOL4; MODE_BLACKLIST; MODE_RFC6791; MODE_EAMT], ops [OP_TEST; OP_ADD; OP_REMOVE]).
Definition narrow_bib : Z * Z := (modes [MODE_BIB], ops [OP_ADD; OP_REMOVE]).
Definition narrow_pool4 : Z * Z := (modes [MODE_POOL4], ops [OP_ADD; OP_REMOVE]).

Definition put_prefix6 (p : ipv6_prefix) (b : arguments) : arguments := with_db (with_prefix6 p (a_db b)) b.
Definition put_pool4 (f : args_pool4 -> args_pool4) (b : arguments) : arguments := with_db (with_pool4 (f (a_pool4 (a_db b))) (a_db b)) b.
Definition put_prefix4 (p : ipv4_prefix) : arguments -> arguments := put_pool4 (fun x => ArgsPool4 (a_mark x) p (a_ports x) true).
Definition put_ports (r : port_range) : arguments -> arguments := put_pool4 (fun x => ArgsPool4 (a_mark x) (a_prefix4 x) r (a_prefix4_set x)).
Definition put_mark (m : Z) : arguments -> arguments := put_pool4 (fun x => ArgsPool4 m (a_prefix4 x) (a_ports x) (a_prefix4_set x)).
Definition put_bib (f : args_bib -> args_bib) (b : arguments) : arguments := with_db (with_bib (f (a_bib (a_db b))) (a_db b)) b.
Definition put_addr6 (a : ipv6_transport_addr) : arguments -> arguments := put_bib (fun x => ArgsBib a true (a_addr4 x) (a_addr4_set x)).
Definition put_addr4 (a : ipv4_transport_addr) : arguments -> arguments := put_bib (fun x => ArgsBib (a_addr6 x) (a_addr6_set x) a true).

Lemma set_prefix6 str p s b : str_to_ipv6_prefix inet_pton6 str = Success p -> a_prefix6_set (a_db b) = false ->
  alive (narrow siit s narrow_prefix6) = true ->
  set_ipv6_prefix siit inet_pton6 (with_state s.1 s.2 b) str =
  Success (with_state (narrow siit s narrow_prefix6).1 (narrow siit s narrow_prefix6).2 (put_prefix6 p b)).
Proof.
  intros Hp Hs Ha. unfold set_ipv6_prefix. unfold narrow_prefix6 in *. rewrite update_narrow by exact Ha. cbn [mbind status_bind a_db with_state].
  rewrite Hs, Hp. done.
Qed.
Lemma set_prefix4 str p s b : str_to_ipv4_prefix inet_pton4 str = Success p -> a_prefix4_set (a_pool4 (a_db b)) = false ->
  alive (narrow siit s narrow_prefix4) = true ->
  set_ipv4_prefix siit inet_pton4 (with_state s.1 s.2 b) str =
  Success (with_state (narrow siit s narrow_prefix4).1 (narrow siit s narrow_prefix4).2 (put_prefix4 p b)).
Proof.
  intros Hp Hs Ha. unfold set_ipv4_prefix. unfold narrow_prefix4 in *. rewrite update_narrow by exact Ha. cbn [mbind status_bind a_db with_state].
  rewrite Hs, Hp. done.
Qed.

Lemma leads_ip str s s' b b' words t : str <> EmptyString ->
  set_ip_args siit inet_pton4 inet_pton6 (with_state s.1 s.2 b) (Some str) = Success (with_state s'.1 s'.2 b') ->
  leads words s' b' t -> leads (Positional str :: words) s b t.
Proof. intros He Hs Hl. eapply leads_cons; [done| |exact Hl]. cbn [parse_opt]. rewrite Hs. done. Qed.

Lemma ip_args_prefix6 str args : str <> EmptyString -> strchr str ":"%char = true -> strchr str "#"%char = false ->
  set_ip_args siit inet_pton4 inet_pton6 args (Some str) = set_ipv6_prefix siit inet_pton6 args str.
Proof. intros He Hc Hh. unfold set_ip_args. rewrite strlen_nonempty, Hc, Hh by exact He. done. Qed.
Lemma ip_args_prefix4 str args : str <> EmptyString -> strchr str ":"%char = false -> strchr str "."%char = true -> strchr str "#"%char = false ->
  set_ip_args siit inet_pton4 inet_pton6 args (Some str) = set_ipv4_prefix siit inet_pton4 args str.
Proof. intros He Hc Hd Hh. unfold set_ip_args. rewrite strlen_nonempty, Hc, Hd, Hh by exact He. done. Qed.

Context (ntop4 : in_addr -> string) (ntop6 : in6_addr -> string).

Lemma leads_prefix6 p words s b t : p6_ok ntop6 inet_pton6 p -> a_prefix6_set (a_db b) = false -> alive (narrow siit s narrow_prefix6) = true ->
  leads words (narrow siit s narrow_prefix6) (put_prefix6 p b) t -> leads (prefix6_word ntop6 p :: words) s b t.
Proof.
  intros [Hr Hlen] Hs Ha Hl. pose proof Hr as (_ & _ & _ & _ & Hh & Hc).
  eapply leads_ip; [apply with_number_nonempty| |exact Hl].
  rewrite ip_args_prefix6; [|apply with_number_nonempty|rewrite strchr_with_number, Hc by done; done|rewrite strchr_with_number, Hh by done; done].
  apply set_prefix6; [|exact Hs|exact Ha]. destruct p. apply str_to_ipv6_prefix_printed; done.
Qed.

Lemma leads_addr6_alone a words s b t : w6 ntop6 inet_pton6 a -> a_prefix6_set (a_db b) = false -> alive (narrow siit s narrow_prefix6) = true ->
  leads words (narrow siit s narrow_prefix6) (put_prefix6 (Prefix6 a 128) b) t -> leads (Positional (ntop6 a) :: words) s b t.
Proof.
  intros Hr Hs Ha Hl. pose proof Hr as (_ & _ & He & _ & Hh & Hc). eapply leads_ip; [exact He| |exact Hl].
  rewrite ip_args_prefix6 by done. apply set_prefix6; [|exact Hs|exact Ha]. apply str_to_ipv6_prefix_alone. exact Hr.
Qed.

Lemma leads_prefix4 p words s b t : p4_ok ntop4 inet_pton4 p -> a_prefix4_set (a_pool4 (a_db b)) = false -> alive (narrow siit s narrow_prefix4) = true ->
  leads words (narrow siit s narrow_prefix4) (put_prefix4 p b) t -> leads (prefix4_word ntop4 p :: words) s b t.
Proof.
  intros [Hr Hlen] Hs Ha Hl. pose proof Hr as (_ & _ & _ & _ & Hh & Hc & Hd).
  eapply leads_ip; [apply with_number_nonempty| |exact Hl].
  rewrite ip_args_prefix4; [|apply with_number_nonempty|rewrite strchr_with_number, Hc by done; done|rewrite strchr_with_number, Hd by done; done|rewrite strchr_with_number, Hh by done; done].
  apply set_prefix4; [|exact Hs|exact Ha]. destruct p. apply str_to_ipv4_prefix_printed; done.
Qed.

Lemma leads_addr4_alone a words s b t : w4 ntop4 inet_pton4 a -> a_prefix4_set (a_pool4 (a_db b)) = false -> alive (narrow siit s narrow_prefix4) = true ->
  leads words (narrow siit s narrow_prefix4) (put_prefix4 (Prefix4 a 32) b) t -> leads (Positional (ntop4 a) :: words) s b t.
Proof.
  intros Hr Hs Ha Hl. pose proof Hr as (_ & _ & He & _ & Hh & Hc & Hd). eapply leads_ip; [exact He| |exact Hl].
  rewrite ip_args_prefix4 by done. apply set_prefix4; [|exact Hs|exact Ha]. apply str_to_ipv4_prefix_alone. exact Hr.
Qed.

Lemma leads_addr6 a words s b t : siit = false -> ta6_ok ntop6 inet_pton6 a -> a_addr6_set (a_bib (a_db b)) = false -> alive (narrow siit s narrow_bib) = true ->
  leads words (narrow siit s narrow_bib) (put_addr6 a b) t -> leads (addr6_word ntop6 a :: words) s b t.
Proof.
  intros Hn [Hr Hport] Hs Ha Hl. pose proof Hr as (_ & _ & _ & _ & Hh & Hc).
  eapply leads_ip; [apply with_number_nonempty| |exact Hl].
  unfold set_ip_args. rewrite strlen_nonempty by apply with_number_nonempty. rewrite !strchr_with_number, Hc, orb_true_r by done. cbn [orb].
  unfold set_bib6. take_else Hn. unfold narrow_bib in *. rewrite update_narrow by exact Ha. cbn [mbind status_bind a_db with_state]. rewrite Hs.
  rewrite (str_to_addr6_port_printed _ _ (l3_6 a)) by done. destruct a. done.
Qed.

Lemma leads_addr4 a words s b t : siit = false -> ta4_ok ntop4 inet_pton4 a -> a_addr4_set (a_bib (a_db b)) = false -> alive (narrow siit s narrow_bib) = true ->
  leads words (narrow siit s narrow_bib) (put_addr4 a b) t -> leads (addr4_word ntop4 a :: words) s b t.
Proof.
  intros Hn [Hr Hport] Hs Ha Hl. pose proof Hr as (_ & _ & _ & _ & Hh & Hc & Hd).
  eapply leads_ip; [apply with_number_nonempty| |exact Hl].
  unfold set_ip_args. rewrite strlen_nonempty by apply with_number_nonempty. rewrite !strchr_with_number, Hc, Hd, orb_true_r by done. cbn [orb].
  unfold set_bib4. take_else Hn. unfold narrow_bib in *. rewrite update_narrow by exact Ha. cbn [mbind status_bind a_db with_state]. rewrite Hs.
  rewrite (str_to_addr4_port_printed _ _ (l3_4 a)) by done. destruct a. done.
Qed.

Lemma leads_range r words s b t : siit = false -> range_ok r -> alive (narrow siit s narrow_pool4) = true ->
  leads words (narrow siit s narrow_pool4) (put_ports r b) t -> leads (Positional (print_range r) :: words) s b t.
Proof.
  intros Hn [Hmin Hmax] Ha Hl.
  assert (He : print_range r <> EmptyString).
  { unfold print_range. destruct (printf_u (r_min r)) eqn:E; done. }
  eapply leads_ip; [exact He| |exact Hl].
  assert (Hc : forall ch, digit ch = None -> Ascii.eqb ch "-"%char = false -> strchr (print_range r) ch = false).
  { intros ch Hd Hm. unfold print_range. rewrite strchr_append. cbn [strchr]. rewrite !printf_u_lacks, Hm by exact Hd. done. }
  unfold set_ip_args. rewrite strlen_nonempty, !Hc by done.
  unfold set_port_range. take_else Hn. unfold narrow_pool4 in *. rewrite update_narrow by exact Ha. cbn [mbind status_bind a_db with_state].
  rewrite str_to_port_range_printed by done. done.
Qed.

Lemma leads_mark m words s b t : siit = false -> is_u32 m -> alive (narrow siit s narrow_pool4) = true ->
  leads words (narrow siit s narrow_pool4) (put_mark m b) t -> leads (LongOption "mark" (Some (printf_u m)) :: words) s b t.
Proof.
  intros Hn Hm Ha Hl. unfold narrow_pool4 in *. eapply (leads_cons _ _ (KeyFlag ARGP_MARK) (Some (printf_u m))); [|cbn [parse_opt]; rewrite update_narrow by exact Ha|exact Hl].
  - cbn [argp_word]. rewrite Hn. reflexivity.
  - cbn [reading]. unfold is_u32 in Hm. rewrite str_to_u32_printed by (unfold MAX_U32; lia). done.
Qed.

End Walk.

Ltac here := vm_compute; reflexivity.
Ltac arrive :=
  apply leads_nil;
  match goal with |- choose _ (finish_args (with_state (fst ?s) (snd ?s) _)) = _ => let s' := eval vm_compute in s in change s with s' end;
  reflexivity.
Ltac walk :=
  first
    [ eapply leads_flag; [here|reflexivity|here|]
    | apply leads_prefix6; [assumption|reflexivity|here|]
    | apply leads_prefix4; [assumption|reflexivity|here|]
    | apply leads_addr6; [reflexivity|assumption|reflexivity|here|]
    | apply leads_addr4; [reflexivity|assumption|reflexivity|here|]
    | apply leads_range; [reflexivity|assumption|here|]
    | apply leads_mark; [reflexivity|assumption|here|]
    | apply leads_addr6_alone; [assumption|reflexivity|here|]
    | apply leads_addr4_alone; [assumption|reflexivity|here|] ].
Ltac arrives := cbn [app when protos pool_name task_words]; repeat walk; arrive.

Section Tasks.
Context (malloc : Z -> bool) (inet_pton4 : string -> option in_addr) (inet_pton6 : string -> option in6_addr).
Context (ntop4 : in_addr -> string) (ntop6 : in6_addr -> string).

Abbreviation arrives_at siit t :=
  (writable ntop4 ntop6 inet_pton4 inet_pton6 siit t ->
   leads siit malloc inet_pton4 inet_pton6 (task_words ntop4 ntop6 t) (0xffff, 0xff) initial_args t).

Lemma pool6_leads siit t : match t with Pool6Display _ | Pool6Add _ _ | Pool6Remove _ _ | Pool6Count | Pool6Flush _ | GlobalDisplay _ => True | _ => False end ->
  arrives_at siit t.
Proof.
  destruct t; intros [] H; cbn [writable] in H.
  - destruct siit, csv; arrives.
  - destruct siit, force; arrives.
  - destruct H as [Hp Hq]. destruct siit; [rewrite (Hq eq_refl)|destruct quick]; arrives.
  - destruct siit; arrives.
  - destruct siit; [rewrite (H eq_refl)|destruct quick]; arrives.
  - destruct siit, csv; arrives.
Qed.

Lemma pool4_leads siit t : match t with Pool4Display _ | Pool4Count | Pool4Add _ _ _ _ _ _ _ | Pool4Remove _ _ _ _ _ _ _ | Pool4Flush _ => True | _ => False end ->
  arrives_at siit t.
Proof.
  destruct t; intros [] H; cbn [writable] in H.
  - subst siit. destruct csv; arrives.
  - subst siit. arrives.
  - destruct H as (-> & Hm & Hs & Hp & Hr). unfold some_proto in Hs. destruct tcp, udp, icmp; try discriminate Hs; destruct force; arrives.
  - destruct H as (-> & Hm & Hs & Hp & Hr). unfold some_proto in Hs. destruct tcp, udp, icmp; try discriminate Hs; destruct quick; arrives.
  - subst siit. destruct quick; arrives.
Qed.

Lemma bib_leads siit t : match t with BibDisplay _ _ _ _ _ | BibCount _ _ _ | BibAdd _ _ _ _ _ | BibRemove _ _ _ _ _ _ _ => True | _ => False end ->
  arrives_at siit t.
Proof.
  destruct t; intros [] H; cbn [writable] in H.
  - destruct H as (-> & Hs). unfold some_proto in Hs. destruct tcp, udp, icmp; try discriminate Hs; destruct numeric, csv; arrives.
  - destruct H as (-> & Hs). unfold some_proto in Hs. destruct tcp, udp, icmp; try discriminate Hs; arrives.
  - destruct H as (-> & Hs & H6 & H4). unfold some_proto in Hs. destruct tcp, udp, icmp; try discriminate Hs; arrives.
  - destruct H as (-> & Hs & Ho & H6 & H4). unfold some_proto in Hs. destruct addr6_set, addr4_set; try discriminate Ho; cbn [given] in H6, H4; subst;
      destruct tcp, udp, icmp; try discriminate Hs; arrives.
Qed.

Lemma session_leads siit t : match t with SessionDisplay _ _ _ _ _ | SessionCount _ _ _ => True | _ => False end -> arrives_at siit t.
Proof.
  destruct t; intros [] H; cbn [writable] in H.
  - destruct H as (-> & Hs). unfold some_proto in Hs. destruct tcp, udp, icmp; try discriminate Hs; destruct numeric, csv; arrives.
  - destruct H as (-> & Hs). unfold some_proto in Hs. destruct tcp, udp, icmp; try discriminate Hs; arrives.
Qed.

Lemma eam_leads siit t : match t with EamDisplay _ | EamCount | EamTest _ _ _ _ | EamAdd _ _ _ | EamRemove _ _ _ _ | EamFlush => True | _ => False end ->
  arrives_at siit t.
Proof.
  destruct t; intros [] H; cbn [writable] in H.
  - subst siit. destruct csv; arrives.
  - subst siit. arrives.
  - destruct H as (-> & H6 & H4). destruct addr6_set, addr4_set; cbn [given] in H6, H4; subst; arrives.
  - destruct H as (-> & H6 & H4). destruct force; arrives.
  - destruct H as (-> & Ho & H6 & H4). destruct prefix6_set, prefix4_set; try discriminate Ho; cbn [given] in H6, H4; subst; arrives.
  - subst siit. arrives.
Qed.

Lemma pool_leads siit t : match t with PoolDisplay _ _ | PoolCount _ | PoolAdd _ _ | PoolRm _ _ | PoolFlush _ => True | _ => False end -> arrives_at siit t.
Proof.
  destruct t; intros [] H; cbn [writable] in H.
  - destruct H as (-> & [-> | ->]); destruct csv; arrives.
  - destruct H as (-> & [-> | ->]); arrives.
  - destruct H as (-> & [-> | ->] & Hp); arrives.
  - destruct H as (-> & [-> | ->] & Hp); arrives.
  - destruct H as (-> & [-> | ->]); arrives.
Qed.

Lemma task_leads siit t : arrives_at siit t.
Proof.
  intros H. destruct t;
    first [ exfalso; exact H | (refine (pool6_leads siit _ _ H); exact I) | (refine (pool4_leads siit _ _ H); exact I) | (refine (bib_leads siit _ _ H); exact I)
          | (refine (session_leads siit _ _ H); exact I) | (refine (eam_leads siit _ _ H); exact I) | (refine (pool_leads siit _ _ H); exact I) ].
Qed.

(** *** Settings *)

Context (Hmalloc : forall n, malloc n = true).

Lemma global_leads (siit : bool) w key str type (data : bytes) :
  argp_word (options_of siit) w = Success (key, str) ->
  parse_opt siit malloc inet_pton4 inet_pton6 key str initial_args = Some (set_global_arg siit malloc initial_args type data) ->
  leads siit malloc inet_pton4 inet_pton6 [w] (0xffff, 0xff) initial_args (GlobalUpdate (type_num type) (Some data)).
Proof.
  intros Hw Ho. set (n := (modes [MODE_GLOBAL], ops [OP_UPDATE])).
  eapply (leads_cons siit malloc _ _ _ _ _ _ _ (narrow siit (0xffff, 0xff) n) _ (with_global (ArgsGlobal (type_num type) (Some data)) initial_args)); [exact Hw| |].
  - change (with_state (0xffff, 0xff).1 (0xffff, 0xff).2 initial_args) with initial_args. rewrite Ho. unfold set_global_arg.
    change initial_args with (with_state (0xffff, 0xff).1 (0xffff, 0xff).2 initial_args). rewrite update_narrow by (destruct siit; reflexivity).
    cbn [mbind status_bind with_state a_global initial_args a_data]. rewrite Hmalloc. done.
  - destruct siit; arrive.
Qed.

Lemma value_word (siit : bool) name f str : (o ← find_name name None (options_of siit); match opt_arg o with Some _ => opt_key o | None => None end) = Some f ->
  argp_word (options_of siit) (LongOption name (Some str)) = Success (KeyFlag f, Some str).
Proof.
  intros H. cbn [argp_word]. destruct (find_name name None _) as [o|]; [|done]. cbn in H |- *. destruct (opt_arg o); [|done]. rewrite H. done.
Qed.

(** How a value is read. *)
Lemma bool_printed args type (b : bool) siit : set_global_bool siit malloc args type (if b then "true" else "false")%string = set_global_arg siit malloc args type [b2z b].
Proof. destruct b; done. Qed.
Lemma seconds_printed args type n min siit : 0 <= min -> min <= n <= MAX_U32 `div` 1000 ->
  set_global_u64 siit malloc args type (printf_u n) min (MAX_U32 `div` 1000) 1000 = set_global_arg siit malloc args type (le_bytes 8 (1000 * n)).
Proof.
  intros Hm Hn. assert (Hmax : MAX_U32 `div` 1000 = 4294967) by reflexivity. rewrite Hmax in *.
  unfold set_global_u64. rewrite str_to_u64_printed by lia. cbn [mbind status_bind]. unfold u64. rewrite Z.mod_small by lia. f_equal. f_equal. lia.
Qed.

Lemma setting_leads siit s name : setting_name siit s = Some name -> setting_ok s ->
  leads siit malloc inet_pton4 inet_pton6 [LongOption name (setting_value s)] (0xffff, 0xff) initial_args
    (GlobalUpdate (type_num (setting_type s)) (Some (setting_data s))).
Proof.
  intros Hn Hok. destruct s as [type b|type n|n|n|n|l| |]; cbn [setting_name setting_ok setting_value setting_type setting_data] in *.
  - destruct type; try discriminate Hn; destruct siit; try discriminate Hn; injection Hn as <-;
      (eapply global_leads; [apply value_word; here|cbn [parse_opt reading]; rewrite bool_printed; reflexivity]).
  - destruct type; try discriminate Hn; destruct siit; try discriminate Hn; injection Hn as <-;
      (eapply global_leads; [apply value_word; here|cbn [parse_opt reading]; rewrite seconds_printed by (exact Hok || done); reflexivity]).
  - destruct siit; try discriminate Hn; injection Hn as <-. eapply global_leads; [apply value_word; here|]. cbn [parse_opt reading].
    unfold set_global_u64. rewrite str_to_u64_printed by (unfold MAX_U64; lia). cbn [mbind status_bind]. unfold u64. rewrite Z.mul_1_r, Z.mod_small by lia. done.
  - injection Hn as <-. eapply global_leads; [apply value_word; destruct siit; here|]. cbn [parse_opt reading].
    unfold set_global_u8. unfold is_u8 in Hok. rewrite str_to_u8_printed by (unfold MAX_U8; lia). done.
  - destruct siit; try discriminate Hn; injection Hn as <-. eapply global_leads; [apply value_word; here|]. cbn [parse_opt reading].
    unfold set_global_u8. rewrite str_to_u8_printed by (unfold EAM_HAIRPIN_MODE_COUNT; lia). done.
  - injection Hn as <-. destruct Hok as (Hl & Hu & Hs). eapply global_leads; [apply value_word; destruct siit; here|]. cbn [parse_opt reading].
    unfold set_global_u16_array. rewrite str_to_u16_array_printed by (done || apply Hmalloc). done.
  - injection Hn as <-. eapply (global_leads siit _ (KeyFlag ARGP_ENABLE_TRANSLATION) None); [destruct siit; here|done].
  - injection Hn as <-. eapply (global_leads siit _ (KeyFlag ARGP_DISABLE_TRANSLATION) None); [destruct siit; here|done].
Qed.

Lemma leads_main siit words t : leads siit malloc inet_pton4 inet_pton6 words (0xffff, 0xff) initial_args t ->
  exists args, parse_args siit malloc inet_pton4 inet_pton6 words = Some (Success args) /\ choose siit args = t.
Proof.
  intros (args & Ha & Hc). exists (finish_args args). split; [|exact Hc]. unfold parse_args, build_options. rewrite Hmalloc. fold (options_of siit).
  change (with_state (0xffff, 0xff).1 (0xffff, 0xff).2 initial_args) with initial_args in Ha. rewrite Ha. done.
Qed.

End Tasks.

(** C27: Everything the application can do can be asked for, and is understood
    as it was meant.  In both translators, for every task of the translator
    with values in range, the command line with the options of the task and
    its values in print (addresses as any text [inet_pton] reads as the
    address) is accepted, and [main_wrapped] chooses that task with those
    values; and for every value of the configuration in its range, the option
    of its name sends the module the type of the value and its bytes, seconds
    being sent as milliseconds. *)
Theorem command_line_roundtrip siit malloc inet_pton4 inet_pton6 ntop4 ntop6 :
  (forall n, malloc n = true) ->
  (forall t, writable ntop4 ntop6 inet_pton4 inet_pton6 siit t ->
     exists args, parse_args siit malloc inet_pton4 inet_pton6 (task_words ntop4 ntop6 t) = Some (Success args) /\ choose siit args = t) /\
  (forall s name, setting_name siit s = Some name -> setting_ok s ->
     exists args, parse_args siit malloc inet_pton4 inet_pton6 [LongOption name (setting_value s)] = Some (Success args) /\
       choose siit args = GlobalUpdate (type_num (setting_type s)) (Some (setting_data s))).
Proof.
  intros Hm. split.
  - intros t Ht. apply leads_main; [exact Hm|]. apply task_leads. exact Ht.
  - intros s name Hn Hs. apply leads_main; [exact Hm|]. apply setting_leads; done.
Qed.

Definition demo_text : string := "64:ff9b::".
Definition demo_addr6 : in6_addr := In6Addr (Z.shiftl 0x64ff9b 96).
Definition demo_pton6 (s : string) : option in6_addr := if bool_decide (s = demo_text) then Some demo_addr6 else None.

Lemma command_line_roundtrip_witness :
  exists args,
    parse_args false (fun _ => true) (fun _ => None) demo_pton6
      (task_words (fun _ => demo_text) (fun _ => demo_text) (Pool6Add (Prefix6 demo_addr6 96) true)) = Some (Success args) /\
    choose false args = Pool6Add (Prefix6 demo_addr6 96) true.
Proof.
  refine (proj1 (command_line_roundtrip false (fun _ => true) (fun _ => None) demo_pton6 (fun _ => demo_text) (fun _ => demo_text) (fun _ => eq_refl)) _ _).
  split; [|cbn; lia]. repeat split; vm_compute; done.
Defined.
